(* ===== verification/_CoqProject ===== *)
-Q . S2P
Prelude.v
Warehouse.v
AwPath.v
AwMessage.v
AwCentral.v
AwSim.v
AwRuns.v
KMonad.v
DList.v
DListOrd.v
Thread.v
Synch.v
SchedInv.v
SchedSteps.v
SchedSafe.v
SchedProps.v
CString.v
Bitmap.v
Palloc.v
Malloc.v
MallocOk.v
Arith.v
Sort.v
Stdio.v
StdioOk.v
AwStart.v
Hash.v
Random.v
Bytes.v
Block.v
Filesys.v
InodeOk.v
FreeMapOk.v
FsInv.v
FsCreate.v
FsOpen.v
FsHandles.v
FsDir.v
FsWorld.v
FsOps.v
FsFiles.v
FsRefine.v
FsMount.v
FsProps.v
Paging.v
PagingOk.v
PagingProps.v
PagingBoot.v
Process.v
ProcessOk.v
ProcessProps.v
ProcessFs.v
ProcessRun.v
Intq.v
Serial.v
SerialOk.v
SerialProps.v
SerialOrder.v
Ide.v
IdeOk.v
IdeProps.v
Ustar.v
Fsutil.v
FsutilOk.v
FsutilProps.v
Descr.v
Tss.v
Interrupt.v
InterruptProps.v
Clock.v
Vga.v
Console.v
UserLib.v
Boot.v
BootAw.v
