(* ===== verification/Prelude.v ===== *)
(** * A verification of the Pintos kernel with the automated warehouse

    The program is an instructional operating system for the 80x86 (src/threads, src/devices, src/lib,
    src/filesys, src/userprog) and a simulator of an automated warehouse that runs as kernel threads
    (src/projects/automated_warehouse).  This library models the C code as Rocq functions and step
    relations, and proves what the parts promise to each other and to their users.

    ** The parts and how they work together

    The command line, stored by the pintos script, names an action.  The action [automated_warehouse]
    creates one thread for each robot and one for the central control.  In every step the robots report
    to the central control through message boxes, block, and are woken with a command each.  The threads,
    semaphores, locks and the timer are those of the kernel.  Pages come from the page allocator, which
    keeps bitmaps; the heap cuts pages into blocks.  The file system keeps inodes, a free map and a
    directory on a block device; block devices are ATA disks and their partitions.  With user programs,
    page directories give each process its address space, the ELF loader fills it from the file
    system, and the interrupt system brings exceptions and system calls back into the kernel.  The
    console prints to the serial port and the display; the keyboard and the serial port feed the input
    buffer through interrupt queues.

    ** Conventions

    Integers are [Z]; where the width matters, the wrap-around is written out ([u8], [u32], [s32], [s64],
    ... below).  Bytes and characters are [Z]; memory is a function from addresses to bytes, and the null
    pointer is 0.  Code that changes state is a computation of the monad [K] of KMonad.v: it returns a
    value and the new state ([Ok]), panics ([Panic]: a failed ASSERT, PANIC, an access outside of an
    object, or C code without a defined behaviour), or runs out of fuel ([NoFuel]).  Threads that can be switched are steps of a relation; what a
    thread still has to do of a function is data (a frame, a list of steps, a parked call).  What hardware
    answers is an argument of the model, with the protocol that the driver relies on as hypotheses.
    Macros that choose a configuration (FILESYS, USERPROG, VM) are a value where both variants are
    modelled (Boot.v); Thread.v is the kernel without USERPROG.

    ** The files and the code that they model

    - Prelude: wrap-around, lists by index, bits, tactics and hints; KMonad: the monad; Bytes: words in
      byte arrays.
    - Warehouse (aw_manager.c, robot.c, helpers of automated_warehouse.c), AwPath (get_next_direction),
      AwMessage (aw_message.c), AwCentral (planning of the central control), AwSim (the threads and
      aw_thread.c), AwRuns (what runs do), AwStart (run_automated_warehouse, parse_robot_tasks, atoi,
      print_map), BootAw (from the command line to the runs).
    - DList, DListOrd (lib/kernel/list.c); Bitmap (bitmap.c); Hash (hash.c); CString (lib/string.c); Sort
      (lib/stdlib.c); Arith (arithmetic.c); Stdio, StdioOk (lib/stdio.c, ctype.h); Random (random.c);
      Ustar (ustar.c).
    - Thread, Synch (thread.c, synch.c, the tick of timer.c, intr_handler for the timer); SchedInv,
      SchedSteps, SchedSafe, SchedProps (their invariant and what it means).
    - Palloc (palloc.c, vaddr.h), Malloc, MallocOk (malloc.c).
    - Block (block.c, partition.c), Ide, IdeOk, IdeProps (ide.c), Intq (intq.c), Serial, SerialOk,
      SerialProps, SerialOrder (serial.c, kbd.c, input.c), Clock (pit.c, the rest of timer.c, rtc.c,
      speaker.c), Vga (vga.c), Console (lib/kernel/console.c).
    - Filesys (inode.c, free-map.c, file.c, directory.c, filesys.c); InodeOk, FreeMapOk, FsInv, FsCreate,
      FsOpen, FsHandles, FsDir, FsWorld, FsOps, FsFiles, FsRefine, FsMount, FsProps (its correctness);
      Fsutil, FsutilOk, FsutilProps (fsutil.c).
    - Paging, PagingOk, PagingProps, PagingBoot (pte.h, pagedir.c, paging_init of init.c); Process,
      ProcessOk, ProcessProps, ProcessFs, ProcessRun (process.c); Descr (gdt.c, gates); Tss (tss.c); Interrupt,
      InterruptProps (interrupt.c, exception.c, syscall.c); UserLib (lib/user).
    - Boot (the command line: init.c, make_kernel_command_line of utils/Pintos.pm).

    A record of a file is the state of its component: its fields are the static variables and structures
    of the C file, under their names; an operation has the name of its function.  Loops and parts of a
    function that need a name have one of their own next to it.

    ** Interfaces

    Components meet at type classes: the page allocator is written against bit arrays, which Bitmap
    implements; the heap against page allocators; the file system against block devices, which partitions
    (Block) and ATA disks (Ide) implement; the loader of programs against file systems, which Filesys
    implements (ProcessFs).  Theorems on a client are proved against the interface and hold for every
    instance.

    ** What the theorems show

    - Warehouse: in every interleaving of the threads no two robots collide and each is well placed; the
      threads compute a synchronous round function; a robot's next move is on a shortest path; accepted
      moves do not conflict; the machine is powered off only after all deliveries; what progress is
      guaranteed, and a task list with which rounds make none; all this from the bytes of the command line
      on.  A step of the interleaving is a run of a thread from one blocking call to the next.  The waiting
      loop of the central control is part of it: each poll is a step, and after 100 polls the iteration
      goes on without the missing messages.  The theorems on interleavings have this case as an
      alternative ([gave_up_before]); it can only happen before the first move, while a robot thread has
      not run once, and [giving_up_misplaces_robots] shows what it does.
    - Kernel: an invariant of threads, locks, semaphores, condition variables, sleepers and time slices
      holds in every reachable state; only misuse of the interface panics; locks exclude; wake-ups are not
      lost; sleepers wake on time.  The lists of list.c act as sequences.
    - Memory: blocks of pages do not overlap; the heap implements a store of named blocks, for requests
      below 2^32 - 11 bytes, from where on the size of a block wraps around.
    - Library: division is exact; formatted output terminates, denotes its values, fits its buffers and
      is type safe; hash tables are sets; sorting sorts; tokens, archives and headers survive round trips.
    - File system: it implements named byte arrays with open files, on any block device, an ATA disk
      included; files are found again after a remount; archives are installed and appended to.  These
      theorems are about runs of clients, which choose each operation by the replies so far, and about
      systems in which no allocation of memory fails ([memory s = []]: the list tells which fail).
    - User programs: page tables implement address spaces, isolated from each other and from the kernel;
      the processor, which caches entries and sets accessed and dirty bits as it uses pages ([touch]),
      behaves as if it had no cache; the loader builds the program that the file
      describes, and its end gives all memory back; an interrupt finds the kernel stack of the running thread,
      and none that a user program causes panics the kernel.
    - Devices: disk transfers reach the sectors that were asked for; what [serial_putc] is given reaches
      the port, and what comes in is what [input_getc] returns, in order and with any number of waiting
      threads, as long as the kernel does not panic, which it does not with one waiting thread for each
      queue; the display is a window on paper; calls that print do not mix; the clocks.

    Several theorems state where the code does not do what it means to: a livelock of three robots, a
    scan of partitions that uses up all memory, sectors that a failed creation loses, a name that a failed
    allocation doubles, two readers of the input buffer that panic the kernel, an end marker of archives
    that is not zero, a seed that has no effect, a clock that is late.

    ** Fuel

    A loop whose end the data decides takes fuel.  The theorems give a bound that is enough, from the
    data: the number of cells for the path search, the length of a string for the loops of string.c, the
    size for reads and writes, the number of elements for lists, the length of the format plus 32 for
    [vprintf] (a conversion that is not known prints a message that is itself formatted), the number of
    arguments for the actions, the bounds of the driver's own polling loops for the disk.  That a routine
    returns is proved as such, with enough fuel; the theorem on the livelock is about rounds that do not
    end.  The recursion of the partition scan is bounded by the memory for its tables, an argument.

    ** Not modelled

    - The loader, start code, interrupt stubs, switch_threads and port instructions are assembly; what
      they do is a premise of the models (the saved stack is a list of frames, an interrupt calls
      intr_handler with its frame).
    - main only calls the initialisers in turn; bss_init clears memory before any model starts.
    - Shutdown, panic messages, stack traces and statistics print and write to ports; a panic is the
      result [Panic].
    - The messages of block.c and partition.c; thread_foreach, the functions of thread.c that do
      nothing (nice, load average), self tests.
    - The example programs, the tools of the host but for the command line, and Makefiles.
    - Time and memory ordering of the hardware: barriers have no meaning in the models, and code with
      interrupts off is one step.  The accessed bits of page directory entries, which no code reads. *)

From stdpp Require Export base list numbers option gmap sorting.
From Stdlib Require Export ZArith Lia Ascii.
#[export] Set Default Goal Selector "!".

Declare Scope pintos_scope.
Delimit Scope pintos_scope with pintos.
#[global] Open Scope Z_scope.

(** ** Machine integers

    A C integer of width [w] is a [Z]; [wrapu w] and [wraps w] are the
    conversions to the unsigned and the two's complement type of that width. *)

Definition wrapu (w x : Z) : Z := x mod 2 ^ w.
Definition wraps (w x : Z) : Z := (x + 2 ^ (w - 1)) mod 2 ^ w - 2 ^ (w - 1).

Abbreviation u8 := (wrapu 8).
Abbreviation s8 := (wraps 8).
Abbreviation u32 := (wrapu 32).
Abbreviation s32 := (wraps 32).
Abbreviation u64 := (wrapu 64).
Abbreviation s64 := (wraps 64).

(** The code of an ASCII character, as the C [char] it denotes. *)
Definition ch (c : ascii) : Z := Z.of_N (N_of_ascii c).

(** C arrays: [zget d l i] reads [l[i]]; a read outside of the array, which is
    undefined in C, yields [d].  [zset] writes inside of the array only. *)
Definition zlookup {A} (l : list A) (i : Z) : option A :=
  if 0 <=? i then l !! Z.to_nat i else None.
Definition zget {A} (d : A) (l : list A) (i : Z) : A := default d (zlookup l i).
Definition zset {A} (l : list A) (i : Z) (x : A) : list A :=
  if 0 <=? i then <[Z.to_nat i := x]> l else l.

(** Two-dimensional arrays, in row-major nesting. *)
Definition get2 (a : list (list Z)) (r c : Z) : Z := zget 0 (zget [] a r) c.
Definition set2 (a : list (list Z)) (r c v : Z) : list (list Z) :=
  zset a r (zset (zget [] a r) c v).
Definition dims (h w : nat) (a : list (list Z)) : Prop :=
  length a = h /\ Forall (fun l => length l = w) a.

(** [x] is one of the [n] integers from [a]. *)
Definition within (a n x : Z) : bool := (a <=? x) && (x <? a + n).

(** ** Automation *)

Create HintDb pintos.
Create Rewrite HintDb pintos.

Ltac destruct_if :=
  match goal with
  | |- context [if ?b then _ else _] => destruct b eqn:?
  | H : context [if ?b then _ else _] |- _ => destruct b eqn:?
  end.

(** Turn boolean tests of the code into the propositions they decide. *)
Ltac reflect_bools :=
  repeat match goal with
  | H : (_ && _)%bool = true |- _ => apply andb_true_iff in H as [? ?]
  | H : (_ || _)%bool = false |- _ => apply orb_false_iff in H as [? ?]
  | H : (_ || _)%bool = true |- _ => apply orb_true_iff in H
  | H : (_ && _)%bool = false |- _ => apply andb_false_iff in H
  | H : negb _ = true |- _ => apply negb_true_iff in H
  | H : negb _ = false |- _ => apply negb_false_iff in H
  | H : (_ =? _)%Z = true |- _ => apply Z.eqb_eq in H
  | H : (_ =? _)%Z = false |- _ => apply Z.eqb_neq in H
  | H : (_ <? _)%Z = true |- _ => apply Z.ltb_lt in H
  | H : (_ <? _)%Z = false |- _ => apply Z.ltb_ge in H
  | H : (_ <=? _)%Z = true |- _ => apply Z.leb_le in H
  | H : (_ <=? _)%Z = false |- _ => apply Z.leb_gt in H
  | H : (_ =? _)%nat = true |- _ => apply Nat.eqb_eq in H
  | H : (_ =? _)%nat = false |- _ => apply Nat.eqb_neq in H
  | H : (_ <? _)%nat = true |- _ => apply Nat.ltb_lt in H
  | H : (_ <? _)%nat = false |- _ => apply Nat.ltb_ge in H
  | H : (_ <=? _)%nat = true |- _ => apply Nat.leb_le in H
  | H : (_ <=? _)%nat = false |- _ => apply Nat.leb_gt in H
  end.

(** Decide the integer comparisons of the goal, dropping the impossible cases. *)
Ltac case_cmp :=
  repeat match goal with
  | |- context [(?a <? ?b)%Z] => destruct (Z.ltb_spec a b); try (exfalso; lia)
  | |- context [(?a <=? ?b)%Z] => destruct (Z.leb_spec a b); try (exfalso; lia)
  | |- context [(?a =? ?b)%Z] => destruct (Z.eqb_spec a b); try (exfalso; lia)
  end.

(** Evaluate reads of constant tables. *)
Ltac eval_zget :=
  repeat match goal with
  | |- context [zget ?d ?l ?i] =>
      let v := eval vm_compute in (zget d l i) in change (zget d l i) with v
  end.

(** ** Machine integer lemmas *)

Lemma wrapu_range w x : 0 < w -> 0 <= wrapu w x < 2 ^ w.
Proof. intros. apply Z.mod_pos_bound. apply Z.pow_pos_nonneg; lia. Qed.

Lemma wrapu_small w x : 0 <= x < 2 ^ w -> wrapu w x = x.
Proof. apply Z.mod_small. Qed.

Lemma wraps_range w x : 0 < w -> - 2 ^ (w - 1) <= wraps w x < 2 ^ (w - 1).
Proof.
  intros Hw. unfold wraps.
  assert (H2 : 2 ^ w = 2 * 2 ^ (w - 1)).
  { rewrite <- Z.pow_succ_r by lia. f_equal; lia. }
  assert (0 < 2 ^ (w - 1)) by (apply Z.pow_pos_nonneg; lia).
  pose proof (Z.mod_pos_bound (x + 2 ^ (w - 1)) (2 ^ w)). lia.
Qed.

Lemma wraps_small w x : 0 < w -> - 2 ^ (w - 1) <= x < 2 ^ (w - 1) -> wraps w x = x.
Proof.
  intros Hw Hx. unfold wraps.
  assert (H2 : 2 ^ w = 2 * 2 ^ (w - 1)).
  { rewrite <- Z.pow_succ_r by lia. f_equal; lia. }
  rewrite Z.mod_small by lia. lia.
Qed.

(** ** Array lemmas *)

Lemma zlookup_nat {A} (l : list A) (i : nat) : zlookup l (Z.of_nat i) = l !! i.
Proof. unfold zlookup. rewrite (proj2 (Z.leb_le _ _)) by lia. by rewrite Nat2Z.id. Qed.

Lemma zlookup_Some {A} (l : list A) i x :
  zlookup l i = Some x -> 0 <= i < Z.of_nat (length l).
Proof.
  unfold zlookup. destruct_if; [|done]. intros H%lookup_lt_Some. reflect_bools. lia.
Qed.

Lemma zlookup_is_Some {A} (l : list A) i :
  0 <= i < Z.of_nat (length l) -> is_Some (zlookup l i).
Proof.
  intros H. unfold zlookup. rewrite (proj2 (Z.leb_le _ _)) by lia.
  apply lookup_lt_is_Some. lia.
Qed.

Lemma zset_length {A} (l : list A) i x : length (zset l i x) = length l.
Proof. unfold zset. destruct_if; [apply length_insert | done]. Qed.

Lemma zget_zset_eq {A} (d : A) l i x :
  0 <= i < Z.of_nat (length l) -> zget d (zset l i x) i = x.
Proof.
  intros H. unfold zget, zset, zlookup. rewrite !(proj2 (Z.leb_le _ _)) by lia.
  rewrite list_lookup_insert_eq by lia. done.
Qed.

Lemma zget_zset_ne {A} (d : A) l i j x : i <> j -> zget d (zset l i x) j = zget d l j.
Proof.
  intros H. unfold zget, zset, zlookup. destruct (0 <=? i) eqn:?; [|done].
  destruct (0 <=? j) eqn:?; [|done]. reflect_bools.
  rewrite list_lookup_insert_ne by lia. done.
Qed.

Lemma zget_in_range {A} (d : A) l i :
  0 <= i < Z.of_nat (length l) -> zget d l i ∈ l.
Proof.
  intros H. destruct (zlookup_is_Some l i H) as [x Hx]. unfold zget. rewrite Hx. simpl.
  unfold zlookup in Hx. destruct_if; [|done]. by eapply list_elem_of_lookup_2.
Qed.

Lemma dims_row h w a r : dims h w a -> 0 <= r < Z.of_nat h -> length (zget [] a r) = w.
Proof.
  intros [<- Hw] Hr. rewrite Forall_forall in Hw. apply Hw. by apply zget_in_range.
Qed.

Lemma set2_dims h w a r c v : dims h w a -> dims h w (set2 a r c v).
Proof.
  intros D. pose proof (dims_row _ _ _ r D) as Hr. destruct D as [Hh Hw]. unfold set2.
  split; [by rewrite zset_length|]. unfold zset at 1.
  destruct (0 <=? r) eqn:E; [|done].
  destruct (decide (Z.to_nat r < length a)%nat).
  - apply Forall_insert; [done|]. rewrite zset_length. apply Hr. reflect_bools. lia.
  - rewrite list_insert_ge by lia. done.
Qed.

Lemma get2_set2_eq h w a r c v :
  dims h w a -> 0 <= r < Z.of_nat h -> 0 <= c < Z.of_nat w -> get2 (set2 a r c v) r c = v.
Proof.
  intros D Hr Hc. unfold get2, set2. rewrite zget_zset_eq; [|destruct D; lia].
  apply zget_zset_eq. erewrite dims_row; eauto.
Qed.

Lemma get2_set2_ne a r c v r' c' :
  (r, c) <> (r', c') -> get2 (set2 a r c v) r' c' = get2 a r' c'.
Proof.
  intros H. unfold get2, set2. destruct (decide (r = r')) as [->|].
  - destruct (decide (0 <= r' < Z.of_nat (length a))).
    + rewrite zget_zset_eq by lia. apply zget_zset_ne. congruence.
    + f_equal. unfold zget, zset, zlookup. destruct (0 <=? r') eqn:?; [|done].
      reflect_bools. by rewrite list_insert_ge by lia.
  - by rewrite zget_zset_ne by done.
Qed.

Lemma filter_keep {A} (P : A -> Prop) `{HP : !forall x, Decision (P x)} (l : list A) :
  (forall x, x ∈ l -> P x) -> filter P l = l.
Proof.
  intros H. induction l as [|x l IH]; [done|]. rewrite filter_cons_True by (apply H; constructor).
  f_equal. apply IH. intros y Hy. apply H. by constructor.
Qed.
Lemma filter_drop {A} (P : A -> Prop) `{HP : !forall x, Decision (P x)} (l : list A) :
  (forall x, x ∈ l -> ~ P x) -> filter P l = [].
Proof.
  intros H. induction l as [|x l IH]; [done|]. rewrite filter_cons_False by (apply H; constructor).
  apply IH. intros y Hy. apply H. by constructor.
Qed.

#[export] Hint Resolve set2_dims wrapu_range wraps_range : pintos.
#[export] Hint Rewrite @zset_length : pintos.

(** ** Reachability

    [steps R] is the reflexive and transitive closure used for the state
    machines of the development; an inductive invariant holds wherever they go. *)

Lemma rtc_invariant {A} (R : relation A) (P : A -> Prop) x y :
  (forall a b, P a -> R a b -> P b) -> rtc R x y -> P x -> P y.
Proof. intros HR H. induction H; eauto. Qed.

(** ** Loops that keep the first of the best candidates

    Several loops of the program scan an index range and keep the candidate with
    the greatest score, replacing it only for a strictly better one.  [score]
    gives the score of the candidates, [get] reads the loop's accumulator. *)

Definition first_max (score : nat -> option Z) (a n i : nat) (v : Z) : Prop :=
  (a <= i < a + n)%nat /\ score i = Some v /\
  forall j w, (a <= j < a + n)%nat -> score j = Some w -> w < v \/ w = v /\ (i <= j)%nat.

Definition keep_max (score : nat -> option Z) (best : option (nat * Z)) (i : nat)
  : option (nat * Z) :=
  match score i, best with
  | None, _ => best
  | Some v, None => Some (i, v)
  | Some v, Some (k, w) => if w <? v then Some (i, v) else best
  end.

Lemma keep_max_spec {B} (score : nat -> option Z) (step : B -> nat -> B)
    (get : B -> option (nat * Z)) (P : B -> Prop) (b0 : B) (a n : nat) :
  P b0 -> get b0 = None ->
  (forall b i, P b -> (a <= i < a + n)%nat ->
     P (step b i) /\ get (step b i) = keep_max score (get b) i) ->
  let b := foldl step b0 (seq a n) in
  P b /\ match get b with
         | None => forall j, (a <= j < a + n)%nat -> score j = None
         | Some (k, v) => first_max score a n k v
         end.
Proof.
  intros HP H0. induction n as [|n IH]; intros Hstep.
  { simpl. rewrite H0. split; [done|lia]. }
  rewrite seq_S, foldl_app. simpl.
  destruct IH as [HP' IH]. { intros b i Hb Hi. apply Hstep; [done|lia]. }
  destruct (Hstep (foldl step b0 (seq a n)) (a + n)%nat HP' ltac:(lia)) as [HP'' Hget].
  split; [done|]. rewrite Hget. unfold keep_max.
  destruct (score (a + n)%nat) as [v|] eqn:Ev.
  - destruct (get (foldl step b0 (seq a n))) as [[k w]|].
    + destruct IH as (Hk & Hw & Hmax). destruct (Z.ltb_spec w v).
      * split_and!; [lia|lia|done|]. intros j w' Hj Hw'.
        destruct (decide (j = (a + n)%nat)) as [->|]; [right; split; [congruence|lia]|].
        destruct (Hmax j w') as [?|[??]]; [lia|done|lia..].
      * split_and!; [lia|lia|done|]. intros j w' Hj Hw'.
        destruct (decide (j = (a + n)%nat)) as [->|]; [|apply Hmax; [lia|done]].
        assert (w' = v) as -> by congruence. lia.
    + split_and!; [lia|lia|done|]. intros j w' Hj Hw'.
      destruct (decide (j = (a + n)%nat)) as [->|]; [right; split; [congruence|lia]|].
      rewrite IH in Hw' by lia. done.
  - destruct (get (foldl step b0 (seq a n))) as [[k w]|].
    + destruct IH as (Hk & Hw & Hmax). split_and!; [lia|lia|done|]. intros j w' Hj Hw'.
      destruct (decide (j = (a + n)%nat)) as [->|]; [congruence|]. apply Hmax; [lia|done].
    + intros j Hj. destruct (decide (j = (a + n)%nat)) as [->|]; [done|]. apply IH. lia.
Qed.

(** ** Words made of parts *)

Lemma lor_low_high a b k : 0 <= a < 2 ^ k -> 0 <= k -> Z.lor a (b * 2 ^ k) = a + b * 2 ^ k.
Proof.
  intros Ha Hk. symmetry. rewrite <- Z.lor_comm, Z.add_comm. apply Z.add_nocarry_lor.
  apply Z.bits_inj'. intros n Hn. rewrite Z.land_spec, Z.bits_0. destruct (Z.lt_ge_cases n k) as [H|H].
  - rewrite Z.mul_pow2_bits_low by done. done.
  - rewrite (proj1 (Z.bounded_iff_bits_nonneg' k a Hk ltac:(lia)) ltac:(lia) n H). by rewrite andb_false_r.
Qed.
Lemma lor_add a b k : 0 <= a < 2 ^ k -> 0 <= k -> b mod 2 ^ k = 0 -> Z.lor a b = a + b.
Proof.
  intros Ha Hk Hb. pose proof (Z.div_mod b (2 ^ k) ltac:(lia)) as E. rewrite Hb in E.
  replace b with (b / 2 ^ k * 2 ^ k) by lia. by apply lor_low_high.
Qed.
(** The [n] bits of a word from bit [k] on. *)
Definition bits (x k n : Z) : Z := x / 2 ^ k mod 2 ^ n.
Lemma land_mid x n k : 0 <= n -> 0 <= k -> Z.land x (Z.shiftl (Z.ones n) k) = bits x k n * 2 ^ k.
Proof.
  intros Hn Hk. unfold bits. rewrite <- Z.shiftr_div_pow2, <- Z.land_ones, <- Z.shiftl_mul_pow2 by done. apply Z.bits_inj'. intros i Hi.
  rewrite Z.land_spec, !Z.shiftl_spec by done. destruct (Z.lt_ge_cases i k) as [H|H].
  - rewrite !(Z.testbit_neg_r _ (i - k)) by lia. by rewrite andb_false_r.
  - rewrite Z.land_spec, Z.shiftr_spec by lia. do 2 f_equal. lia.
Qed.
Lemma bits_range x k n : 0 <= n -> 0 <= bits x k n < 2 ^ n.
Proof. intros Hn. apply Z.mod_pos_bound. lia. Qed.
