(* ===== verification/Warehouse.v ===== *)
(** The warehouse: the map of [aw_manager], the robots of [robot.c] and the
    geometric helpers of [automated_warehouse.c].  The C integers are [Z]; the
    [char]s of the map are their ASCII codes. *)

From stdpp Require Import strings.
From S2P Require Import Prelude.

(** ** aw_manager.h, aw_manager.c: the map *)

Definition ROW_A := 1.
Definition COL_A := 0.
Definition ROW_B := 3.
Definition COL_B := 0.
Definition ROW_C := 5.
Definition COL_C := 0.
Definition ROW_S := 5.
Definition COL_S := 5.
Definition ROW_W := 6.
Definition COL_W := 5.
Definition MAP_WIDTH := 7.
Definition MAP_HEIGHT := 7.

Definition map_draw_default : list (list Z) :=
  map (map ch)
    [ ["X"; "X"; "X"; "X"; "X"; "X"; "X"];
      ["A"; " "; " "; "7"; " "; " "; "X"];
      ["X"; " "; "1"; "X"; "4"; " "; "X"];
      ["B"; " "; "2"; "X"; "5"; " "; "X"];
      ["X"; " "; "3"; "X"; "6"; " "; "X"];
      ["C"; " "; " "; " "; " "; "S"; "X"];
      ["X"; "X"; "X"; "X"; "X"; "W"; "X"] ]%char.

Definition map_at (row col : Z) : Z := get2 map_draw_default row col.

(** ** robot.h, robot.c: the robots *)

Record robot := mkRobot {
  name : option string;
  required_item : Z;
  destination : Z;
  row : Z;
  col : Z;
  required_payload : Z;
  current_payload : Z;
  task_completed : Z
}.

(** [setRobot]; the two [char] parameters convert their arguments. *)
Definition setRobot (nm : option string) (item dest r c req cur completed : Z) : robot :=
  {| name := nm; required_item := s8 item; destination := s8 dest;
     row := r; col := c; required_payload := req; current_payload := cur;
     task_completed := completed |}.

(** The assignments to the fields of a robot that the threads make. *)
Definition set_pos (rb : robot) (r c : Z) : robot :=
  mkRobot (name rb) (required_item rb) (destination rb) r c
    (required_payload rb) (current_payload rb) (task_completed rb).
Definition set_payload (rb : robot) (p : Z) : robot :=
  mkRobot (name rb) (required_item rb) (destination rb) (row rb) (col rb)
    (required_payload rb) p (task_completed rb).
Definition set_completed (rb : robot) (t : Z) : robot :=
  mkRobot (name rb) (required_item rb) (destination rb) (row rb) (col rb)
    (required_payload rb) (current_payload rb) t.

(** ** automated_warehouse.c: geometry *)

Definition shared_cell (cell : Z) : bool :=
  (cell =? ch "A") || (cell =? ch "B") || (cell =? ch "C") || (cell =? ch "W").

(** The first robot standing on the cell decides: the loop of
    [is_blocked_cell] returns there. *)
Fixpoint occupied (rs : list robot) (r c : Z) : option bool :=
  match rs with
  | [] => None
  | rb :: rs' =>
      if (row rb =? r) && (col rb =? c) then Some (negb (shared_cell (map_at r c)))
      else occupied rs' r c
  end.

Definition is_blocked_cell (robots : list robot) (rb : robot) (r c : Z) : bool :=
  if (r <? 0) || (MAP_HEIGHT <=? r) || (c <? 0) || (MAP_WIDTH <=? c) then true
  else if map_at r c =? ch "X" then true
  else match occupied robots r c with
       | Some b => b
       | None =>
           let cell := map_at r c in
           if (ch "1" <=? cell) && (cell <=? ch "9") then
             negb ((current_payload rb =? 0) && (cell =? required_item rb + ch "0"))
           else false
       end.

Definition is_shared_place (r c : Z) : bool := shared_cell (map_at r c).

(** The row-major scan of [get_item_position]. *)
Definition cells : list (Z * Z) :=
  r ← Z.of_nat <$> seq 0 (Z.to_nat MAP_HEIGHT);
  c ← Z.of_nat <$> seq 0 (Z.to_nat MAP_WIDTH);
  [(r, c)].

Definition get_item_position (item : Z) : Z * Z :=
  match list_find (fun rc => map_at rc.1 rc.2 = item) cells with
  | Some (_, rc) => rc
  | None => (ROW_S, COL_S)
  end.

Definition get_destination_position (dest : Z) : Z * Z :=
  if dest =? ch "A" then (ROW_A, COL_A)
  else if dest =? ch "B" then (ROW_B, COL_B)
  else if dest =? ch "C" then (ROW_C, COL_C)
  else (ROW_W, COL_W).

Definition get_robot_target (rb : robot) : Z * Z :=
  if current_payload rb =? 0 then get_item_position (s8 (required_item rb + ch "0"))
  else get_destination_position (destination rb).

Definition get_distance (r c target_row target_col : Z) : Z :=
  let row_distance := r - target_row in
  let col_distance := c - target_col in
  let row_distance := if row_distance <? 0 then - row_distance else row_distance in
  let col_distance := if col_distance <? 0 then - col_distance else col_distance in
  row_distance + col_distance.

Definition get_next_position (r c direction : Z) : Z * Z :=
  if direction =? 1 then (r - 1, c)
  else if direction =? 2 then (r + 1, c)
  else if direction =? 3 then (r, c - 1)
  else if direction =? 4 then (r, c + 1)
  else (r, c).

(** One iteration of the loop of [get_escape_direction]; the accumulator is
    [(best_direction, best_score)]. *)
Definition escape_step (robots : list robot) (rb : robot) (target_row target_col : Z)
    (acc : Z * Z) (direction : Z) : Z * Z :=
  let '(best_direction, best_score) := acc in
  let current_distance := get_distance (row rb) (col rb) target_row target_col in
  let next_row := row rb + zget 0 [0; -1; 1; 0; 0] direction in
  let next_col := col rb + zget 0 [0; 0; 0; -1; 1] direction in
  if is_blocked_cell robots rb next_row next_col then acc
  else
    let next_distance := get_distance next_row next_col target_row target_col in
    if next_distance <? current_distance then acc
    else
      let score := (next_distance - current_distance) * 100 in
      let cell := map_at next_row next_col in
      let score :=
        if is_shared_place next_row next_col then score + 100
        else if cell =? ch "S" then score + 20
        else if cell =? ch " " then score + 10
        else score in
      if best_score <? score then (direction, score) else acc.

Definition get_escape_direction (robots : list robot) (rb : robot)
    (target_row target_col : Z) : Z :=
  (foldl (escape_step robots rb target_row target_col) (0, -1000000) [1; 2; 3; 4]).1.

(** [move_robot_one_step_by_direction] *)
Definition move_robot_one_step_by_direction (robots : list robot) (rb : robot)
    (direction : Z) : robot :=
  if direction =? 0 then rb
  else
    let '(next_row, next_col) := get_next_position (row rb) (col rb) direction in
    if negb (is_blocked_cell robots rb next_row next_col)
    then set_pos rb next_row next_col else rb.

(** ** Specification vocabulary *)

Definition in_bounds (r c : Z) : Prop := 0 <= r < MAP_HEIGHT /\ 0 <= c < MAP_WIDTH.

Definition at_cell (rb : robot) (r c : Z) : Prop := row rb = r /\ col rb = c.

Definition item_cell (cell : Z) : bool := (ch "1" <=? cell) && (cell <=? ch "9").

(** A robot stands inside of the map, on no wall, and on no item but its own. *)
Definition well_placed (rb : robot) : Prop :=
  in_bounds (row rb) (col rb) /\
  map_at (row rb) (col rb) <> ch "X" /\
  (item_cell (map_at (row rb) (col rb)) = true ->
   map_at (row rb) (col rb) = required_item rb + ch "0").

(** No two robots share a cell that is not a shared place. *)
Definition collision_free (rs : list robot) : Prop :=
  forall i j a b, i <> j -> rs !! i = Some a -> rs !! j = Some b ->
    row a = row b -> col a = col b -> is_shared_place (row a) (col a) = true.

#[global] Instance in_bounds_dec r c : Decision (in_bounds r c).
Proof. unfold in_bounds. apply _. Defined.

(** ** Lemmas *)

Lemma occupied_None rs r c :
  occupied rs r c = None <-> (forall rb, rb ∈ rs -> ~ at_cell rb r c).
Proof.
  induction rs as [|x rs IH]; simpl.
  - split; [|done]. intros _ rb []%not_elem_of_nil.
  - destruct ((row x =? r) && (col x =? c)) eqn:E; reflect_bools.
    + split; [done|]. intros Hn. exfalso. apply (Hn x); [left | by split].
    + rewrite IH. split.
      * intros Hn rb [->|?]%elem_of_cons; [|by apply Hn].
        intros [??]. destruct E; reflect_bools; congruence.
      * intros Hn rb ?. apply Hn. by right.
Qed.

Lemma occupied_Some rs r c b :
  occupied rs r c = Some b ->
  b = negb (is_shared_place r c) /\ exists rb, rb ∈ rs /\ at_cell rb r c.
Proof.
  induction rs as [|x rs IH]; simpl; [done|].
  destruct_if; reflect_bools.
  - intros [= <-]. split; [done|]. exists x. split; [left | by split].
  - intros H. destruct (IH H) as [-> (rb & ? & ?)]. split; [done|].
    exists rb. split; [by right | done].
Qed.

(** What [is_blocked_cell] guarantees when it lets a robot through. *)
Lemma not_blocked_inv rs rb r c :
  is_blocked_cell rs rb r c = false ->
  in_bounds r c /\ map_at r c <> ch "X" /\
  (forall rb', rb' ∈ rs -> at_cell rb' r c -> is_shared_place r c = true) /\
  (item_cell (map_at r c) = true ->
     current_payload rb = 0 /\ map_at r c = required_item rb + ch "0").
Proof.
  unfold is_blocked_cell, in_bounds. destruct_if; [done|].
  destruct_if; [done|]. reflect_bools.
  intros Hb. split; [lia|]. split; [done|].
  destruct (occupied rs r c) as [b|] eqn:Eo.
  - apply occupied_Some in Eo as [-> _]. reflect_bools. split; [done|].
    intros Hi. exfalso. unfold is_shared_place, shared_cell, item_cell in *.
    reflect_bools. change (ch "1") with 49 in *. change (ch "9") with 57 in *.
    change (ch "A") with 65 in *. change (ch "B") with 66 in *.
    change (ch "C") with 67 in *. change (ch "W") with 87 in *.
    repeat match goal with H : _ \/ _ |- _ => destruct H; reflect_bools end; lia.
  - split.
    + intros rb' Hin Hat. exfalso. by apply (proj1 (occupied_None _ _ _) Eo rb').
    + unfold item_cell. destruct_if; [|done]. reflect_bools. done.
Qed.

(** A free cell: enough conditions for [is_blocked_cell] to let a robot through. *)
Lemma not_blocked_intro rs rb r c :
  in_bounds r c -> map_at r c <> ch "X" ->
  (forall rb', rb' ∈ rs -> at_cell rb' r c -> is_shared_place r c = true) ->
  (item_cell (map_at r c) = true ->
     current_payload rb = 0 /\ map_at r c = required_item rb + ch "0") ->
  is_blocked_cell rs rb r c = false.
Proof.
  intros [? ?] HX Hocc Hitem. unfold is_blocked_cell.
  destruct_if; [reflect_bools; lia|].
  destruct_if; [reflect_bools; done|].
  destruct (occupied rs r c) as [b|] eqn:Eo.
  - apply occupied_Some in Eo as [-> (rb' & ? & ?)]. by rewrite (Hocc rb').
  - fold (item_cell (map_at r c)). destruct (item_cell (map_at r c)); [|done].
    destruct Hitem as [-> ->]; [done|]. by rewrite !Z.eqb_refl.
Qed.

Lemma elem_of_cells r c : (r, c) ∈ cells <-> in_bounds r c.
Proof.
  unfold cells, in_bounds. split.
  - rewrite list_elem_of_bind. intros (r' & Hrc & Hr).
    apply list_elem_of_bind in Hrc as (c' & Hrc & Hc).
    apply list_elem_of_singleton in Hrc as [= -> ->].
    apply list_elem_of_fmap in Hr as (x & -> & Hx%elem_of_seq).
    apply list_elem_of_fmap in Hc as (y & -> & Hy%elem_of_seq).
    unfold MAP_HEIGHT, MAP_WIDTH in *. lia.
  - intros [??]. apply list_elem_of_bind. exists r. split.
    + apply list_elem_of_bind. exists c. split; [by apply list_elem_of_singleton|].
      apply list_elem_of_fmap. exists (Z.to_nat c). split; [lia|].
      apply elem_of_seq. lia.
    + apply list_elem_of_fmap. exists (Z.to_nat r). split; [lia|].
      apply elem_of_seq. lia.
Qed.

Lemma cells_length : length cells = 49%nat.
Proof. reflexivity. Qed.

Lemma get_distance_abs r c r' c' :
  get_distance r c r' c' = Z.abs (r - r') + Z.abs (c - c').
Proof. unfold get_distance. repeat destruct_if; reflect_bools; lia. Qed.

Lemma get_item_position_in_bounds item :
  in_bounds (get_item_position item).1 (get_item_position item).2.
Proof.
  unfold get_item_position. destruct (list_find _ cells) as [[i [r c]]|] eqn:E.
  - apply list_find_Some in E as (E & _). apply elem_of_cells.
    by eapply list_elem_of_lookup_2.
  - compute. intuition congruence.
Qed.

Lemma get_destination_position_in_bounds d :
  in_bounds (get_destination_position d).1 (get_destination_position d).2.
Proof. unfold get_destination_position. repeat destruct_if; compute; intuition congruence. Qed.

Lemma get_robot_target_in_bounds rb :
  in_bounds (get_robot_target rb).1 (get_robot_target rb).2.
Proof.
  unfold get_robot_target. destruct_if;
    [apply get_item_position_in_bounds | apply get_destination_position_in_bounds].
Qed.

#[export] Hint Resolve get_robot_target_in_bounds get_item_position_in_bounds
  get_destination_position_in_bounds : pintos.

(** *** The escape direction *)

(** The score of a direction, when [get_escape_direction] considers it. *)
Definition escape_score (robots : list robot) (rb : robot) (trow tcol dir : Z) : option Z :=
  let '(nr, nc) := get_next_position (row rb) (col rb) dir in
  let gain := get_distance nr nc trow tcol - get_distance (row rb) (col rb) trow tcol in
  if is_blocked_cell robots rb nr nc || (gain <? 0) then None
  else Some (gain * 100 +
             (if is_shared_place nr nc then 100
              else if map_at nr nc =? ch "S" then 20
              else if map_at nr nc =? ch " " then 10 else 0)).

Lemma escape_offsets rb dir : 1 <= dir <= 4 ->
  get_next_position (row rb) (col rb) dir =
    (row rb + zget 0 [0; -1; 1; 0; 0] dir, col rb + zget 0 [0; 0; 0; -1; 1] dir).
Proof.
  intros H. assert (dir = 1 \/ dir = 2 \/ dir = 3 \/ dir = 4) as [->|[->|[->| ->]]] by lia;
    eval_zget; unfold get_next_position; simpl; f_equal; lia.
Qed.

Lemma escape_step_score robots rb trow tcol d s dir : 1 <= dir <= 4 ->
  escape_step robots rb trow tcol (d, s) dir =
    match escape_score robots rb trow tcol dir with
    | Some v => if s <? v then (dir, v) else (d, s)
    | None => (d, s)
    end.
Proof.
  intros H. unfold escape_step, escape_score. rewrite (escape_offsets rb dir H).
  set (nr := row rb + _). set (nc := col rb + _).
  destruct (is_blocked_cell robots rb nr nc); [done|]. simpl.
  set (a := get_distance nr nc trow tcol). set (b := get_distance (row rb) (col rb) trow tcol).
  destruct (Z.ltb_spec a b), (Z.ltb_spec (a - b) 0); [done|lia|lia|].
  destruct (is_shared_place nr nc); [done|].
  destruct (map_at nr nc =? ch "S"); [done|].
  destruct (map_at nr nc =? ch " "); [done|]. by rewrite Z.add_0_r.
Qed.

Lemma escape_score_nonneg robots rb trow tcol dir v :
  escape_score robots rb trow tcol dir = Some v -> 0 <= v.
Proof.
  unfold escape_score. destruct (get_next_position _ _ _) as [nr nc].
  destruct_if; [done|]. reflect_bools. intros [= <-]. repeat destruct_if; lia.
Qed.

(** The loop keeps the first of the best scored directions. *)
Lemma escape_direction_spec robots rb trow tcol :
  let score i := escape_score robots rb trow tcol (Z.of_nat i) in
  let d := get_escape_direction robots rb trow tcol in
  (d = 0 /\ forall j, 1 <= j <= 4 -> escape_score robots rb trow tcol j = None) \/
  (exists k s, d = Z.of_nat k /\ first_max score 1 4 k s).
Proof.
  intros score. unfold get_escape_direction.
  change [1; 2; 3; 4] with (Z.of_nat <$> seq 1 4). rewrite foldl_fmap.
  destruct (keep_max_spec score
      (fun acc i => escape_step robots rb trow tcol acc (Z.of_nat i))
      (fun acc => if acc.1 =? 0 then None else Some (Z.to_nat acc.1, acc.2))
      (fun acc => 0 <= acc.1 /\ (acc.1 = 0 -> acc.2 = -1000000)) (0, -1000000) 1 4)
    as [HP Hm]; [done|done| |].
  - intros [d s] i [Hd Hs] Hi. rewrite escape_step_score by lia. fold (score i).
    unfold keep_max. simpl in *. destruct (score i) as [v|] eqn:Ev; [|done].
    apply escape_score_nonneg in Ev.
    destruct (Z.eqb_spec d 0) as [->|]; [rewrite Hs by done|].
    + destruct (Z.ltb_spec (-1000000) v); [|lia]. simpl.
      destruct (Z.eqb_spec (Z.of_nat i) 0); [lia|].
      rewrite Nat2Z.id. split; [split; lia|done].
    + destruct (Z.ltb_spec s v); simpl; case_cmp; rewrite ?Nat2Z.id; (split; [|done]); lia.
  - destruct (foldl _ _ _) as [d s]. simpl in *. destruct (Z.eqb_spec d 0) as [->|].
    + left. split; [done|]. intros j Hj. specialize (Hm (Z.to_nat j) ltac:(lia)).
      unfold score in Hm. by rewrite Z2Nat.id in Hm by lia.
    + right. exists (Z.to_nat d), s. split; [lia|done].
Qed.

Lemma escape_score_free robots rb trow tcol dir v :
  escape_score robots rb trow tcol dir = Some v ->
  let '(nr, nc) := get_next_position (row rb) (col rb) dir in
  is_blocked_cell robots rb nr nc = false /\
  get_distance (row rb) (col rb) trow tcol <= get_distance nr nc trow tcol.
Proof.
  unfold escape_score. destruct (get_next_position _ _ _) as [nr nc].
  destruct_if; [done|]. reflect_bools. intros _. split; [done|lia].
Qed.
