(* ===== verification/AwPath.v ===== *)
(** Breadth-first search of [get_next_direction] (automated_warehouse.c). *)

From S2P Require Import Prelude Warehouse.

Definition dr : list Z := [-1; 1; 0; 0].
Definition dc : list Z := [0; 0; -1; 1].

(** The local arrays of the search.  [queue_r] and [queue_c] are kept as one
    list of pairs, whose length is [tail]; [queue[tail++] = x] appends. *)
Record bfs := mkBfs {
  parent : list (list Z);
  queue : list (Z * Z);
  head : nat
}.

Definition bfs_init (r c : Z) : bfs :=
  let parent := replicate (Z.to_nat MAP_HEIGHT) (replicate (Z.to_nat MAP_WIDTH) (-1)) in
  {| parent := set2 parent r c (r * MAP_WIDTH + c);
     queue := [(r, c)]; head := 0 |}.

Section Search.
Context (robots : list robot) (rb : robot).

(** The body of the inner [for] loop, for the [i]th neighbour of (r, c). *)
Definition bfs_visit (r c : Z) (s : bfs) (i : Z) : bfs :=
  let next_row := r + zget 0 dr i in
  let next_col := c + zget 0 dc i in
  if is_blocked_cell robots rb next_row next_col
     || negb (get2 (parent s) next_row next_col =? -1)
  then s
  else {| parent := set2 (parent s) next_row next_col (r * MAP_WIDTH + c);
          queue := queue s ++ [(next_row, next_col)];
          head := head s |}.

(** One iteration of [while (head < tail)]. *)
Definition bfs_step (s : bfs) : bfs :=
  match queue s !! head s with
  | None => s
  | Some (r, c) =>
      foldl (bfs_visit r c) {| parent := parent s; queue := queue s; head := S (head s) |}
        [0; 1; 2; 3]
  end.

Fixpoint bfs_loop (fuel : nat) (s : bfs) : bfs :=
  match fuel with
  | O => s
  | S fuel' =>
      if (head s <? length (queue s))%nat then bfs_loop fuel' (bfs_step s) else s
  end.

(** Every iteration takes one of the at most 49 queued cells. *)
Definition bfs_run : bfs :=
  bfs_loop (Z.to_nat (MAP_HEIGHT * MAP_WIDTH)) (bfs_init (row rb) (col rb)).

(** The scan for the reachable cell nearest to an unreachable target; the
    accumulator is [(best_row, best_col, best_distance)]. *)
Definition best_step (parent : list (list Z)) (target_row target_col : Z)
    (acc : Z * Z * Z) (rc : Z * Z) : Z * Z * Z :=
  let '(best_row, best_col, best_distance) := acc in
  let '(r, c) := rc in
  if get2 parent r c =? -1 then acc
  else
    let distance := get_distance r c target_row target_col in
    if distance <? best_distance then (r, c, distance) else acc.

Definition best_cell (parent : list (list Z)) (target_row target_col : Z) : Z * Z :=
  (foldl (best_step parent target_row target_col)
     (row rb, col rb, get_distance (row rb) (col rb) target_row target_col) cells).1.

(** The walk back along [parent]; [acc] is the path array, last cell first. *)
Fixpoint path_loop (fuel : nat) (parent : list (list Z)) (start r c : Z)
    (acc : list (Z * Z)) : option (list (Z * Z)) :=
  if r * MAP_WIDTH + c =? start then Some acc
  else match fuel with
       | O => None
       | S fuel' =>
           let prev := get2 parent r c in
           path_loop fuel' parent start (Z.quot prev MAP_WIDTH) (Z.rem prev MAP_WIDTH)
             ((r, c) :: acc)
       end.

Definition path_fuel : nat := Z.to_nat (MAP_HEIGHT * MAP_WIDTH).

(** The part of the function after the target has been fixed. *)
Definition first_direction (parent : list (list Z)) (target_row target_col : Z) : Z :=
  let start := row rb * MAP_WIDTH + col rb in
  match path_loop path_fuel parent start target_row target_col [] with
  | Some ((next_row, next_col) :: _) =>
      if next_row <? row rb then 1
      else if row rb <? next_row then 2
      else if next_col <? col rb then 3
      else if col rb <? next_col then 4
      else 0
  | _ => 0
  end.

Definition get_next_direction (target_row target_col : Z) : Z :=
  let parent := parent bfs_run in
  if get2 parent target_row target_col =? -1 then
    let '(best_row, best_col) := best_cell parent target_row target_col in
    if (best_row =? row rb) && (best_col =? col rb) then 0
    else first_direction parent best_row best_col
  else first_direction parent target_row target_col.

End Search.

(** ** Specification: walks on the map *)

Definition adj (p q : Z * Z) : Prop :=
  exists i, i ∈ [0; 1; 2; 3] /\ q = (p.1 + zget 0 dr i, p.2 + zget 0 dc i).

(** [walk free p n q]: [n] moves lead from [p] to [q] through free cells. *)
Inductive walk (free : Z * Z -> Prop) (p : Z * Z) : nat -> Z * Z -> Prop :=
| walk_nil : walk free p 0 p
| walk_snoc n q r : walk free p n q -> adj q r -> free r -> walk free p (S n) r.

Definition shortest_walk (free : Z * Z -> Prop) (p : Z * Z) (n : nat) (q : Z * Z) : Prop :=
  walk free p n q /\ forall m, walk free p m q -> (n <= m)%nat.

(** The cells [is_blocked_cell] lets a robot enter. *)
Definition free_cell (robots : list robot) (rb : robot) (p : Z * Z) : Prop :=
  is_blocked_cell robots rb p.1 p.2 = false.

Definition bounded (p : Z * Z) : Prop := in_bounds p.1 p.2.

Definition code (p : Z * Z) : Z := p.1 * MAP_WIDTH + p.2.

(** ** Correctness of the search *)

Lemma code_inj p q : bounded p -> bounded q -> code p = code q -> p = q.
Proof.
  destruct p, q. unfold bounded, in_bounds, code, MAP_HEIGHT, MAP_WIDTH. simpl.
  intros [??] [??] ?. f_equal; lia.
Qed.

Lemma decode_code p : bounded p ->
  Z.quot (code p) MAP_WIDTH = p.1 /\ Z.rem (code p) MAP_WIDTH = p.2.
Proof.
  destruct p as [r c]. unfold bounded, in_bounds, code, MAP_HEIGHT, MAP_WIDTH. simpl. intros.
  rewrite Z.quot_div_nonneg, Z.rem_mod_nonneg by lia. split.
  - rewrite Z.div_add_l by lia. rewrite Z.div_small by lia. lia.
  - rewrite Z.add_comm, Z.mod_add by lia. apply Z.mod_small. lia.
Qed.

Lemma adj_cases p q : adj p q <->
  q = (p.1 - 1, p.2) \/ q = (p.1 + 1, p.2) \/ q = (p.1, p.2 - 1) \/ q = (p.1, p.2 + 1).
Proof.
  unfold adj. split.
  - intros (i & Hi & ->). rewrite !elem_of_cons, elem_of_nil in Hi.
    destruct Hi as [->|[->|[->|[->|[]]]]];
      eval_zget; rewrite ?Z.add_0_r; auto.
  - intros [->|[->|[->| ->]]];
      [exists 0 | exists 1 | exists 2 | exists 3]; (split; [set_solver|]);
      eval_zget; f_equal; lia.
Qed.

Lemma walk_cons free p q n r :
  adj p q -> free q -> walk free q n r -> walk free p (S n) r.
Proof.
  intros Ha Hf Hw. induction Hw.
  - eapply walk_snoc; [constructor | done | done].
  - eapply walk_snoc; done.
Qed.

Section SearchCorrect.
Context (robots : list robot) (rb : robot).
Let start : Z * Z := (row rb, col rb).
Let free : Z * Z -> Prop := free_cell robots rb.
Hypothesis start_ok : bounded start.

Lemma free_bounded p : free p -> bounded p.
Proof. intros H. by apply not_blocked_inv in H as [? _]. Qed.

(** The invariant of the search.  The ghost list [D] holds the number of moves
    to each queued cell; [done j q] says that the neighbour [q] of the cell at
    position [j] of the queue has been handled, [cur] is the position of the cell
    under expansion. *)
Record search_inv (done : nat -> Z * Z -> Prop) (cur : nat) (s : bfs) (D : list nat)
  : Prop := {
  si_dims : dims 7 7 (parent s);
  si_len : length D = length (queue s);
  si_start : queue s !! 0%nat = Some start /\ D !! 0%nat = Some 0%nat;
  si_nodup : NoDup (queue s);
  si_bounds : forall p, p ∈ queue s -> bounded p;
  si_seen : forall p, bounded p -> get2 (parent s) p.1 p.2 <> -1 <-> p ∈ queue s;
  si_sorted : forall i j di dj, (i <= j)%nat ->
    D !! i = Some di -> D !! j = Some dj -> (di <= dj)%nat;
  si_parent : forall i p d, (0 < i)%nat -> queue s !! i = Some p -> D !! i = Some d ->
    exists j q d', (j < i)%nat /\ queue s !! j = Some q /\ D !! j = Some d' /\
      d = S d' /\ get2 (parent s) p.1 p.2 = code q /\ adj q p /\ free p;
  si_done : forall j q d r, done j r -> queue s !! j = Some q -> D !! j = Some d ->
    free r -> exists k d', queue s !! k = Some r /\ D !! k = Some d' /\ (d' <= S d)%nat;
  si_past : forall j r, done j r -> (j <= cur)%nat;
  si_front : forall i d dh, D !! i = Some d -> D !! cur = Some dh -> (d <= S dh)%nat
}.

Lemma search_inv_weaken (done done' : nat -> Z * Z -> Prop) cur cur' s s' D :
  search_inv done cur s D -> parent s' = parent s -> queue s' = queue s ->
  (forall j q r, queue s !! j = Some q -> free r -> done' j r -> done j r) ->
  (forall j r, done' j r -> (j <= cur')%nat) -> (cur <= cur')%nat ->
  search_inv done' cur' s' D.
Proof.
  destruct s, s'. simpl. intros I -> -> Hd Hp Hc. destruct I; split; simpl; try done.
  - intros j q d r Hj Hq HD Hf. eapply si_done0; eauto.
  - intros i d dh Hi Hh. destruct (lookup_lt_is_Some_2 D cur) as [dc Hdc].
    { apply lookup_lt_Some in Hh. lia. }
    specialize (si_front0 _ _ _ Hi Hdc). specialize (si_sorted0 _ _ _ _ Hc Hdc Hh). lia.
Qed.

Lemma bfs_init_inv :
  search_inv (fun _ _ => False) 0 (bfs_init (row rb) (col rb)) [0%nat].
Proof.
  assert (Hd : dims 7 7 (replicate (Z.to_nat MAP_HEIGHT)
                           (replicate (Z.to_nat MAP_WIDTH) (-1)))).
  { split; [done|]. repeat constructor. }
  destruct start_ok as [Hr Hc].
  split; simpl; try done.
  - by apply set2_dims.
  - apply NoDup_singleton.
  - intros p ->%list_elem_of_singleton. done.
  - intros [r c] Hb. rewrite list_elem_of_singleton. simpl.
    destruct (decide ((row rb, col rb) = (r, c))) as [[= <- <-]|Hne].
    + erewrite get2_set2_eq by eauto. unfold MAP_WIDTH, start in *. simpl in *.
      split; [done|]. intros _. lia.
    + rewrite get2_set2_ne by done. split; [|intros; congruence].
      intros H. exfalso. apply H. clear H.
      assert (Hcell : (r, c) ∈ cells) by (by apply elem_of_cells).
      revert Hcell. clear.
      assert (Forall (fun p => get2 (replicate (Z.to_nat MAP_HEIGHT)
         (replicate (Z.to_nat MAP_WIDTH) (-1))) p.1 p.2 = -1) cells) as HF
        by (repeat constructor).
      rewrite Forall_forall in HF. apply (HF (r, c)).
  - intros [|i] [|j] di dj; simpl; intros; simplify_eq; done.
  - intros [|i] p d; simpl; [lia|done].
  - intros [|i] d dh; simpl; intros; simplify_eq; lia.
Qed.

(** Handling one neighbour [r] of the cell under expansion. *)
Definition handled (done : nat -> Z * Z -> Prop) (cur : nat) (r : Z * Z) : nat -> Z * Z -> Prop :=
  fun j r' => done j r' \/ (j = cur /\ r' = r).

Lemma skip_inv done cur s D q r :
  search_inv done cur s D -> queue s !! cur = Some q -> adj q r -> (free r -> r ∈ queue s) ->
  search_inv (handled done cur r) cur s D.
Proof.
  intros I Hcur Hadj Hr. destruct (lookup_lt_is_Some_2 D cur) as [dq Hdq].
  { rewrite (si_len _ _ _ _ I). by eapply lookup_lt_Some. }
  destruct I; split; try done; [|by intros j r' [Hd|[-> _]]; eauto].
  intros j q' d r' [Hdone|[-> ->]] Hq' HD Hf; [by eapply si_done0|]. simplify_eq.
  specialize (Hr Hf) as [k Hk]%list_elem_of_lookup.
  destruct (lookup_lt_is_Some_2 D k) as [d' Hd'].
  { rewrite si_len0. by eapply lookup_lt_Some. }
  exists k, d'. eauto.
Qed.

(** A new cell: it is appended to the queue, with the cell under expansion as parent. *)
Section Push.
Variables (done : nat -> Z * Z -> Prop) (cur : nat) (s : bfs) (D : list nat) (q r : Z * Z) (dq : nat).
Hypothesis I : search_inv done cur s D.
Hypothesis Hcur : queue s !! cur = Some q.
Hypothesis Hdq : D !! cur = Some dq.
Hypothesis Hadj : adj q r.
Hypothesis Hfree : free r.
Hypothesis Hnew : r ∉ queue s.
Let s' : bfs := {| parent := set2 (parent s) r.1 r.2 (code q); queue := queue s ++ [r]; head := head s |}.

Lemma push_seen p : bounded p -> get2 (parent s') p.1 p.2 <> -1 <-> p ∈ queue s'.
Proof.
  intros Hp. simpl. rewrite elem_of_app, list_elem_of_singleton. pose proof (free_bounded r Hfree) as Hrb.
  pose proof (si_dims _ _ _ _ I) as Hd. destruct r as [r1 r2]. simpl in *.
  destruct (decide ((r1, r2) = p)) as [<-|Hne].
  - erewrite get2_set2_eq by (try done; apply Hrb). split; [by right|]. intros _.
    assert (bounded q) as [? ?] by (eapply (si_bounds _ _ _ _ I), list_elem_of_lookup_2; eauto).
    unfold code, MAP_WIDTH in *. lia.
  - rewrite get2_set2_ne by (by destruct p). rewrite (si_seen _ _ _ _ I) by done.
    split; [by left|]. intros [?|?]; [done|congruence].
Qed.
Lemma push_parent i p d :
  (0 < i)%nat -> queue s' !! i = Some p -> (D ++ [S dq]) !! i = Some d ->
  exists j q' d', (j < i)%nat /\ queue s' !! j = Some q' /\ (D ++ [S dq]) !! j = Some d' /\
    d = S d' /\ get2 (parent s') p.1 p.2 = code q' /\ adj q' p /\ free p.
Proof.
  intros Hi Hp Hd. simpl in *. pose proof (si_len _ _ _ _ I) as Hlen. apply lookup_app_Some in Hp as [Hp|[Hp1 Hp2]].
  - assert (Hlt := lookup_lt_Some _ _ _ Hp). rewrite lookup_app_l in Hd by lia.
    destruct (si_parent _ _ _ _ I _ _ _ Hi Hp Hd) as (j & q' & d' & ? & ? & ? & ? & Hg & ? & ?).
    exists j, q', d'. rewrite get2_set2_ne.
    + split_and!; try done; by apply lookup_app_l_Some.
    + intros E. apply Hnew. destruct p, r. simplify_eq/=. by eapply list_elem_of_lookup_2.
  - apply list_lookup_singleton_Some in Hp2 as [Hi1 <-]. rewrite lookup_app_r in Hd by lia.
    replace (i - length D)%nat with 0%nat in Hd by lia. simpl in Hd. simplify_eq.
    exists cur, q, dq. assert (Hlt := lookup_lt_Some _ _ _ Hcur). pose proof (free_bounded r Hfree) as Hrb. pose proof (si_dims _ _ _ _ I) as Hd.
    erewrite get2_set2_eq by (try done; apply Hrb). split_and!; try done; [lia | by apply lookup_app_l_Some..].
Qed.
Lemma push_done j q' d r' :
  handled done cur r j r' -> queue s' !! j = Some q' -> (D ++ [S dq]) !! j = Some d -> free r' ->
  exists k d', queue s' !! k = Some r' /\ (D ++ [S dq]) !! k = Some d' /\ (d' <= S d)%nat.
Proof.
  intros Hd Hq' HD Hf. simpl in *. pose proof (si_len _ _ _ _ I) as Hlen. assert (Hlt := lookup_lt_Some _ _ _ Hcur).
  destruct Hd as [Hd|[-> ->]].
  - apply lookup_app_Some in Hq' as [Hq'|[Hq1 Hq2]].
    + assert (Hlt' := lookup_lt_Some _ _ _ Hq'). rewrite lookup_app_l in HD by lia.
      destruct (si_done _ _ _ _ I _ _ _ _ Hd Hq' HD Hf) as (k & d' & Hk & Hk' & ?).
      exists k, d'. split_and!; [by apply lookup_app_l_Some.. | done].
    + apply list_lookup_singleton_Some in Hq2 as [Hj _]. apply (si_past _ _ _ _ I) in Hd. lia.
  - rewrite lookup_app_l in HD by lia. simplify_eq. exists (length (queue s)), (S dq).
    rewrite !lookup_app_r by lia. rewrite Hlen, Nat.sub_diag. done.
Qed.
Lemma push_inv : search_inv (handled done cur r) cur s' (D ++ [S dq]).
Proof.
  split; [| | | | |exact push_seen| |exact push_parent|exact push_done| |]; simpl.
  - apply set2_dims, I.
  - rewrite !length_app, (si_len _ _ _ _ I). done.
  - destruct (si_start _ _ _ _ I). split; by apply lookup_app_l_Some.
  - apply NoDup_app. split; [apply I|]. split; [|apply NoDup_singleton]. intros x Hx ->%list_elem_of_singleton. done.
  - intros p [?| ->%list_elem_of_singleton]%elem_of_app; [by apply (si_bounds _ _ _ _ I)|by apply free_bounded].
  - intros i j di dj Hij Hdi Hdj.
    apply lookup_app_Some in Hdi as [Hdi|[? Hdi]]; apply lookup_app_Some in Hdj as [Hdj|[? Hdj]].
    + by eapply (si_sorted _ _ _ _ I i j).
    + apply list_lookup_singleton_Some in Hdj as [? <-]. by eapply (si_front _ _ _ _ I).
    + apply lookup_lt_Some in Hdj. lia.
    + apply list_lookup_singleton_Some in Hdi as [? <-]. by apply list_lookup_singleton_Some in Hdj as [? <-].
  - intros j r' [Hd|[-> _]]; [by eapply (si_past _ _ _ _ I)|done].
  - intros i d dh Hd Hh. assert (Hlt := lookup_lt_Some _ _ _ Hdq). rewrite lookup_app_l in Hh by lia. simplify_eq.
    apply lookup_app_Some in Hd as [Hd|[? Hd]]; [by eapply (si_front _ _ _ _ I)|]. by apply list_lookup_singleton_Some in Hd as [? <-].
Qed.
End Push.

Lemma bfs_visit_inv done cur s D q i :
  search_inv done cur s D -> queue s !! cur = Some q -> i ∈ [0; 1; 2; 3] ->
  exists D',
    search_inv (handled done cur (q.1 + zget 0 dr i, q.2 + zget 0 dc i)) cur (bfs_visit robots rb q.1 q.2 s i) D' /\
    prefix (queue s) (queue (bfs_visit robots rb q.1 q.2 s i)) /\
    head (bfs_visit robots rb q.1 q.2 s i) = head s.
Proof.
  intros I Hcur Hi. unfold bfs_visit. set (r := (q.1 + zget 0 dr i, q.2 + zget 0 dc i)).
  change (q.1 + zget 0 dr i) with r.1. change (q.2 + zget 0 dc i) with r.2.
  assert (Hadj : adj q r) by (exists i; done).
  destruct (lookup_lt_is_Some_2 D cur) as [dq Hdq].
  { rewrite (si_len _ _ _ _ I). by eapply lookup_lt_Some. }
  destruct_if.
  - exists D. split; [|done]. apply (skip_inv _ _ _ _ q); try done. intros Hf. reflect_bools. destruct Heqb as [Hb|Hs]; reflect_bools.
    + unfold free, free_cell in Hf. change (is_blocked_cell robots rb r.1 r.2 = false) in Hf. congruence.
    + apply (si_seen _ _ _ _ I); [by apply free_bounded | done].
  - reflect_bools. rename H into Hfree. rename H0 into Hunseen.
    exists (D ++ [S dq]). split; [|split; [by exists [r]|done]]. change (r.1, r.2) with r. apply push_inv; try done.
    intros Hin. apply (si_seen _ _ _ _ I) in Hin; [|by apply free_bounded]. done.
Qed.

(** Expanding one cell: the neighbours of every cell before [head] are handled. *)
Definition loop_inv (s : bfs) (D : list nat) : Prop :=
  search_inv (fun j r => (j < head s)%nat /\
                exists q, queue s !! j = Some q /\ adj q r) (head s) s D.

Lemma bfs_visits_inv l done cur s D q :
  search_inv done cur s D -> queue s !! cur = Some q -> l ⊆ [0; 1; 2; 3] ->
  exists D', let s' := foldl (bfs_visit robots rb q.1 q.2) s l in
    search_inv (fun j r => done j r \/ (j = cur /\ exists i, i ∈ l /\
                  r = (q.1 + zget 0 dr i, q.2 + zget 0 dc i))) cur s' D' /\
    prefix (queue s) (queue s') /\ head s' = head s.
Proof.
  revert done s D. induction l as [|i l IH]; intros done s D I Hq Hl; simpl.
  - exists D. split; [|done]. eapply search_inv_weaken; [exact I|done|done|..]; simpl; try done.
    + intros j q' r _ _ [?|(_ & i & []%not_elem_of_nil & _)]; done.
    + intros j r [Hd|(-> & _)]; [by eapply si_past in Hd|done].
  - destruct (bfs_visit_inv done cur s D q i I Hq) as (D1 & I1 & Hp1 & Hh1); [set_solver|].
    destruct (IH _ _ _ I1) as (D2 & I2 & Hp2 & Hh2).
    { by eapply prefix_lookup_Some. }
    { set_solver. }
    exists D2. split_and!; [|by etrans|congruence].
    eapply search_inv_weaken; [exact I2|done|done|..]; simpl; try done.
    + intros j q' r _ _ [?|(-> & k & [->|?]%elem_of_cons & ->)]; unfold handled; [tauto|tauto|].
      right. eauto.
    + intros j r [Hd|(-> & _)]; [by eapply si_past in Hd|done].
Qed.

Lemma bfs_step_inv s D :
  loop_inv s D -> (head s < length (queue s))%nat ->
  exists D', loop_inv (bfs_step robots rb s) D' /\
    head (bfs_step robots rb s) = S (head s).
Proof.
  intros I Hlt. unfold bfs_step.
  destruct (lookup_lt_is_Some_2 _ _ Hlt) as [[r c] Hq]. rewrite Hq.
  set (s1 := {| parent := parent s; queue := queue s; head := S (head s) |}).
  destruct (bfs_visits_inv [0; 1; 2; 3] (fun j r => (j < head s)%nat /\
              exists q, queue s !! j = Some q /\ adj q r) (head s) s1 D (r, c))
    as (D' & I' & Hpre & Hh); [|done|done|].
  { eapply search_inv_weaken; [exact I|done|done|..]; try done. intros j x [? _]; lia. }
  change (foldl (bfs_visit robots rb (r, c).1 (r, c).2) s1 [0; 1; 2; 3])
    with (foldl (bfs_visit robots rb r c) s1 [0; 1; 2; 3]) in *.
  set (s' := foldl (bfs_visit robots rb r c) s1 [0; 1; 2; 3]) in *.
  change (head s1) with (S (head s)) in Hh.
  exists D'. split; [|done]. unfold loop_inv. rewrite Hh.
  assert (Hle : (head s <= S (head s))%nat) by lia.
  eapply search_inv_weaken; [exact I'|done|done| |..|exact Hle].
  - intros j q0 x Hj Hf (Hjh & q1 & Hj1 & Ha). simplify_eq.
    destruct (decide (j = head s)) as [->|].
    + right. split; [done|]. apply (prefix_lookup_Some _ (queue s')) in Hq; [|done]. simplify_eq.
      destruct Ha as (i & Hi & ->). eauto.
    + left. split; [lia|]. destruct (lookup_lt_is_Some_2 (queue s) j) as [q2 Hq2]; [lia|].
      exists q2. split; [done|]. apply (prefix_lookup_Some _ (queue s')) in Hq2; [|done].
      by simplify_eq.
  - intros j x [? _]. lia.
Qed.

Lemma queue_bound done cur s D :
  search_inv done cur s D -> (length (queue s) <= 49)%nat.
Proof.
  intros I. rewrite <- cells_length. apply submseteq_length, NoDup_submseteq.
  - apply (si_nodup _ _ _ _ I).
  - intros [r c] H. apply elem_of_cells. by apply (si_bounds _ _ _ _ I (r, c)).
Qed.

Lemma bfs_loop_inv fuel s D :
  loop_inv s D -> (49 <= head s + fuel)%nat ->
  exists D', let s' := bfs_loop robots rb fuel s in
    loop_inv s' D' /\ (length (queue s') <= head s')%nat.
Proof.
  revert s D. induction fuel as [|fuel IH]; intros s D I Hf; simpl.
  - exists D. split; [done|]. pose proof (queue_bound _ _ _ _ I). lia.
  - destruct_if; reflect_bools.
    + destruct (bfs_step_inv s D I) as (D' & I' & Hh); [done|].
      eapply IH; [done|]. lia.
    + eauto.
Qed.

Lemma bfs_run_inv : exists D, loop_inv (bfs_run robots rb) D /\
  (length (queue (bfs_run robots rb)) <= head (bfs_run robots rb))%nat.
Proof.
  apply bfs_loop_inv with (D := [0%nat]); [|vm_compute; lia].
  eapply search_inv_weaken; [apply bfs_init_inv|done|done|..]; simpl; try done.
  - intros j q r _ _ [? _]. lia.
  - intros j r [? _]. lia.
Qed.

(** Every queued cell is reached by a walk of its depth... *)
Lemma queue_sound done cur s D k p d :
  search_inv done cur s D -> queue s !! k = Some p -> D !! k = Some d ->
  walk free start d p /\ (d <= k)%nat.
Proof.
  intros I. revert p d. induction (lt_wf k) as [k _ IH]. intros p d Hp Hd.
  destruct (decide (k = 0%nat)) as [->|Hk].
  - destruct (si_start _ _ _ _ I). simplify_eq. split; [constructor|lia].
  - destruct (si_parent _ _ _ _ I k p d) as (j & q & d' & ? & Hq & Hd' & -> & _ & ? & ?);
      [lia|done|done|].
    destruct (IH j ltac:(lia) q d' Hq Hd'). split; [by econstructor|lia].
Qed.

(** ... and every walk ends in a queued cell of at most its length. *)
Lemma queue_complete s D n p :
  loop_inv s D -> (length (queue s) <= head s)%nat -> walk free start n p ->
  exists k d, queue s !! k = Some p /\ D !! k = Some d /\ (d <= n)%nat.
Proof.
  intros I Hh Hw. induction Hw as [|n q r Hw IH Ha Hf].
  - destruct (si_start _ _ _ _ I). exists 0%nat, 0%nat. eauto.
  - destruct IH as (k & d & Hk & Hd & ?).
    destruct (si_done _ _ _ _ I k q d r) as (k' & d' & ? & ? & ?); try done.
    { split; [apply lookup_lt_Some in Hk; lia | eauto]. }
    exists k', d'. split_and!; [done..|lia].
Qed.

(** The walk back along [parent] ends, and its last cell starts a walk of the
    remaining length. *)
Lemma path_loop_spec done cur s D k p d fuel acc :
  search_inv done cur s D -> queue s !! k = Some p -> D !! k = Some d -> (d <= fuel)%nat ->
  exists l, path_loop fuel (parent s) (code start) p.1 p.2 acc = Some (l ++ acc) /\
    length l = d /\
    (d = 0%nat /\ p = start \/
     exists p1 l', l = p1 :: l' /\ adj start p1 /\ free p1 /\ walk free p1 (d - 1) p).
Proof.
  intros I. revert k p d acc. induction fuel as [|fuel IH]; intros k p d acc Hp Hd Hf.
  all: assert (Hpb : bounded p) by (eapply (si_bounds _ _ _ _ I), list_elem_of_lookup_2; eauto).
  all: destruct (si_start _ _ _ _ I) as [Hs0 Hd0].
  all: assert (Hcode : code p = code start <-> k = 0%nat)
    by (split; [intros E; apply code_inj in E; [|done|done]; subst;
                eapply NoDup_lookup; [apply (si_nodup _ _ _ _ I)|..]; eauto
               | intros ->; congruence]).
  all: cbn [path_loop]; change (p.1 * MAP_WIDTH + p.2) with (code p).
  - assert (k = 0%nat) as Hk.
    { destruct (decide (k = 0%nat)) as [|Hk]; [done|].
      destruct (si_parent _ _ _ _ I k p d) as (? & ? & ? & ? & ? & ? & -> & _); [lia|done..|lia]. }
    rewrite (proj2 Hcode Hk), Z.eqb_refl. subst. simplify_eq. exists []. auto.
  - destruct (code p =? code start) eqn:E; reflect_bools.
    + apply Hcode in E. subst. simplify_eq. exists []. auto.
    + destruct (si_parent _ _ _ _ I k p d) as (j & q & d' & Hjk & Hq & Hd' & -> & Hg & Ha & Hfr);
        [destruct k; [tauto|lia]|done|done|].
      assert (bounded q) as Hqb by (eapply (si_bounds _ _ _ _ I), list_elem_of_lookup_2; eauto).
      destruct (IH j q d' (p :: acc) Hq Hd') as (l & Hl & Hlen & Hcases); [lia|].
      exists (l ++ [p]). rewrite Hg. destruct (decode_code q Hqb) as [Hq1 Hq2].
      rewrite Hq1, Hq2, <- (surjective_pairing p), Hl, <- app_assoc.
      split; [done|]. split; [rewrite length_app; simpl; lia|]. right.
      destruct Hcases as [[-> ->]|(p1 & l' & -> & ? & ? & ?)].
      * destruct l; [|done]. exists p, []. split_and!; try done. constructor.
      * exists p1, (l' ++ [p]). split_and!; try done. simpl.
        assert (0 < d')%nat by (destruct d'; [simpl in *; lia|lia]).
        replace (d' - 0)%nat with (S (d' - 1)) by lia. by econstructor.
Qed.

(** The direction towards a reached cell is the first move of a shortest walk. *)
Lemma first_direction_spec n p :
  shortest_walk free start (S n) p ->
  exists dir, first_direction rb (parent (bfs_run robots rb)) p.1 p.2 = dir /\
    1 <= dir <= 4 /\
    free (get_next_position (row rb) (col rb) dir) /\
    walk free (get_next_position (row rb) (col rb) dir) n p.
Proof.
  intros [Hw Hmin]. destruct bfs_run_inv as (D & I & Hh).
  destruct (queue_complete _ _ _ _ I Hh Hw) as (k & d & Hk & Hd & Hdn).
  destruct (queue_sound _ _ _ _ _ _ _ I Hk Hd) as [Hw' Hdk].
  assert (d = S n) as -> by (specialize (Hmin _ Hw'); lia).
  assert (Hkb := lookup_lt_Some _ _ _ Hk). pose proof (queue_bound _ _ _ _ I) as Hqb.
  destruct (path_loop_spec _ _ _ _ _ _ _ path_fuel [] I Hk Hd) as (l & Hl & _ & Hc).
  { change path_fuel with 49%nat. lia. }
  destruct Hc as [[? _]|(p1 & l' & -> & Ha & Hf & Hwalk)]; [lia|].
  unfold first_direction. change (row rb * MAP_WIDTH + col rb) with (code start).
  rewrite Hl. simpl.
  replace (S n - 1)%nat with n in Hwalk by lia.
  apply adj_cases in Ha. unfold start in Ha. simpl in Ha.
  destruct Ha as [->|[->|[->| ->]]]; case_cmp.
  - exists 1. split_and!; [done|lia|lia|exact Hf|exact Hwalk].
  - exists 2. split_and!; [done|lia|lia|exact Hf|exact Hwalk].
  - exists 3. split_and!; [done|lia|lia|exact Hf|exact Hwalk].
  - exists 4. split_and!; [done|lia|lia|exact Hf|exact Hwalk].
Qed.

Lemma seen_iff_reachable p : bounded p ->
  get2 (parent (bfs_run robots rb)) p.1 p.2 <> -1 <-> exists n, walk free start n p.
Proof.
  intros Hp. destruct bfs_run_inv as (D & I & Hh).
  rewrite (si_seen _ _ _ _ I p Hp). split.
  - intros [k Hk]%list_elem_of_lookup.
    destruct (lookup_lt_is_Some_2 D k) as [d Hd].
    { rewrite (si_len _ _ _ _ I). by eapply lookup_lt_Some. }
    exists d. eapply queue_sound; eauto.
  - intros [n Hw]. destruct (queue_complete _ _ _ _ I Hh Hw) as (k & d & Hk & _).
    by eapply list_elem_of_lookup_2.
Qed.

Lemma reachable_shortest n p :
  walk free start n p -> exists m, shortest_walk free start m p.
Proof.
  intros Hw. destruct bfs_run_inv as (D & I & Hh).
  destruct (queue_complete _ _ _ _ I Hh Hw) as (k & d & Hk & Hd & _).
  exists d. split; [eapply queue_sound; eauto|].
  intros m Hm. destruct (queue_complete _ _ _ _ I Hh Hm) as (k' & d' & Hk' & Hd' & ?).
  assert (k = k') as -> by (eapply NoDup_lookup; [apply (si_nodup _ _ _ _ I)|..]; eauto).
  simplify_eq. lia.
Qed.

End SearchCorrect.

(** [head] never passes [tail]. *)
Lemma bfs_visits_head robots rb r c l s :
  head (foldl (bfs_visit robots rb r c) s l) = head s /\
  (length (queue s) <= length (queue (foldl (bfs_visit robots rb r c) s l)))%nat.
Proof.
  revert s. induction l as [|i l IH]; intros s; simpl; [done|].
  destruct (IH (bfs_visit robots rb r c s i)) as [-> IH2]. split.
  - unfold bfs_visit. by destruct_if.
  - etrans; [|exact IH2]. unfold bfs_visit. destruct_if; [done|].
    simpl. rewrite length_app. lia.
Qed.

Lemma bfs_loop_head robots rb fuel s :
  (head s <= length (queue s))%nat ->
  (head (bfs_loop robots rb fuel s) <= length (queue (bfs_loop robots rb fuel s)))%nat.
Proof.
  revert s. induction fuel as [|fuel IH]; intros s Hs; cbn [bfs_loop]; [done|].
  destruct_if; reflect_bools; [|done]. apply IH. unfold bfs_step.
  destruct (queue s !! head s) as [[r c]|]; [|done].
  edestruct bfs_visits_head as [-> ?]. simpl in *. lia.
Qed.

(** The scan for the nearest reached cell. *)
Lemma best_fold_spec parent trow tcol l br bc bd :
  bd = get_distance br bc trow tcol ->
  let '(r, c, d) := foldl (best_step parent trow tcol) (br, bc, bd) l in
  d = get_distance r c trow tcol /\ d <= bd /\
  ((r, c) = (br, bc) \/ ((r, c) ∈ l /\ get2 parent r c <> -1 /\ d < bd)) /\
  (forall p, p ∈ l -> get2 parent p.1 p.2 <> -1 -> d <= get_distance p.1 p.2 trow tcol).
Proof.
  revert br bc bd. induction l as [|[r1 c1] l IH]; intros br bc bd Hbd; simpl.
  - split_and!; [done|lia|by left|]. intros p []%not_elem_of_nil.
  - destruct (get2 parent r1 c1 =? -1) eqn:E1; reflect_bools.
    + specialize (IH br bc bd Hbd). destruct (foldl _ _ _) as [[r c] d].
      destruct IH as (-> & ? & Hor & Hmin).
      split_and!; [done|done|destruct Hor as [?|(?&?&?)]; [by left|right; by auto using list_elem_of_further]|].
      intros p [->|?]%elem_of_cons; [done|]. by apply Hmin.
    + destruct (get_distance r1 c1 trow tcol <? bd) eqn:E2; reflect_bools.
      * specialize (IH r1 c1 _ eq_refl). destruct (foldl _ _ _) as [[r c] d].
        destruct IH as (-> & ? & Hor & Hmin). split_and!; [done|lia|..].
        -- right. destruct Hor as [[= -> ->]|(?&?&?)]; split_and!; try done; set_solver by lia.
        -- intros p [->|?]%elem_of_cons; [done|]. by apply Hmin.
      * specialize (IH br bc bd Hbd). destruct (foldl _ _ _) as [[r c] d].
        destruct IH as (-> & ? & Hor & Hmin).
      split_and!; [done|done|destruct Hor as [?|(?&?&?)]; [by left|right; by auto using list_elem_of_further]|].
        intros p [->|?]%elem_of_cons; [simpl; lia|]. by apply Hmin.
Qed.

(** What the planner relies on: a direction other than 0 is one of the four, and
    leads to a free cell. *)
Lemma path_loop_start fuel parent r c :
  path_loop fuel parent (r * MAP_WIDTH + c) r c [] = Some [].
Proof. destruct fuel; cbn [path_loop]; by rewrite Z.eqb_refl. Qed.

Lemma first_direction_start rb parent : first_direction rb parent (row rb) (col rb) = 0.
Proof. unfold first_direction. by rewrite path_loop_start. Qed.

Lemma first_direction_free robots rb p n :
  in_bounds (row rb) (col rb) -> walk (free_cell robots rb) (row rb, col rb) n p ->
  let dir := first_direction rb (parent (bfs_run robots rb)) p.1 p.2 in
  dir <> 0 -> 1 <= dir <= 4 /\
  free_cell robots rb (get_next_position (row rb) (col rb) dir).
Proof.
  intros Hs Hw dir Hdir. destruct (reachable_shortest robots rb Hs _ _ Hw) as [[|m] Hm].
  - destruct Hm as [Hm _]. inversion Hm; subst. exfalso. apply Hdir, first_direction_start.
  - destruct (first_direction_spec robots rb Hs m p Hm) as (d & Hd & ? & ? & _).
    unfold dir. by rewrite Hd.
Qed.

Lemma next_direction_free robots rb trow tcol :
  in_bounds (row rb) (col rb) -> in_bounds trow tcol ->
  let dir := get_next_direction robots rb trow tcol in
  dir <> 0 -> 1 <= dir <= 4 /\
  free_cell robots rb (get_next_position (row rb) (col rb) dir).
Proof.
  intros Hs Ht. unfold get_next_direction.
  destruct (get2 (parent (bfs_run robots rb)) trow tcol =? -1) eqn:E; reflect_bools.
  - pose proof (best_fold_spec (parent (bfs_run robots rb)) trow tcol cells
                  (row rb) (col rb) _ eq_refl) as Hb.
    unfold best_cell. destruct (foldl _ _ _) as [[br bc] bd]. simpl.
    destruct Hb as (_ & _ & Hor & _). destruct_if; [done|].
    destruct Hor as [[= -> ->]|(Hin & Hseen & _)].
    + by rewrite first_direction_start.
    + apply elem_of_cells in Hin.
      apply (seen_iff_reachable robots rb Hs (br, bc) Hin) in Hseen as [n Hn].
      exact (first_direction_free robots rb (br, bc) n Hs Hn).
  - apply (seen_iff_reachable robots rb Hs (trow, tcol) Ht) in E as [n Hn].
    exact (first_direction_free robots rb (trow, tcol) n Hs Hn).
Qed.

(** ** The properties *)

(** C3: when the target can be reached, [get_next_direction] returns the first
    move of a shortest walk: the cell it leads to is free, and the target is one
    move nearer from there. *)
Theorem next_direction_shortest robots rb trow tcol n :
  in_bounds (row rb) (col rb) -> in_bounds trow tcol ->
  shortest_walk (free_cell robots rb) (row rb, col rb) (S n) (trow, tcol) ->
  let dir := get_next_direction robots rb trow tcol in
  1 <= dir <= 4 /\
  free_cell robots rb (get_next_position (row rb) (col rb) dir) /\
  walk (free_cell robots rb) (get_next_position (row rb) (col rb) dir) n (trow, tcol).
Proof.
  intros Hs Ht Hw. unfold get_next_direction.
  destruct (get2 (parent (bfs_run robots rb)) trow tcol =? -1) eqn:E; reflect_bools.
  - exfalso. apply (seen_iff_reachable robots rb Hs (trow, tcol) Ht); [|done].
    exists (S n). apply Hw.
  - destruct (first_direction_spec robots rb Hs n (trow, tcol) Hw) as (d & <- & ?). done.
Qed.

(** when no walk leads to the target, [get_next_direction] heads for the
    reachable cell nearest to it by Manhattan distance, again along a shortest
    walk, and waits exactly when no reachable cell is nearer than the robot. *)
Theorem next_direction_unreachable robots rb trow tcol :
  in_bounds (row rb) (col rb) -> in_bounds trow tcol ->
  ~ (exists n, walk (free_cell robots rb) (row rb, col rb) n (trow, tcol)) ->
  let free := free_cell robots rb in
  let dist p := get_distance p.1 p.2 trow tcol in
  let dir := get_next_direction robots rb trow tcol in
  (dir = 0 /\ forall p n, walk free (row rb, col rb) n p -> dist (row rb, col rb) <= dist p) \/
  (exists best n, 1 <= dir <= 4 /\ dist best < dist (row rb, col rb) /\
     (forall p m, walk free (row rb, col rb) m p -> dist best <= dist p) /\
     shortest_walk free (row rb, col rb) (S n) best /\
     walk free (get_next_position (row rb) (col rb) dir) n best).
Proof.
  intros Hs Ht Hno free dist. unfold get_next_direction.
  assert (Hreach : forall p n, walk free (row rb, col rb) n p -> in_bounds p.1 p.2).
  { intros p n Hw. destruct Hw as [|n q r _ _ Hf]; [done|]. by apply free_bounded in Hf. }
  destruct (get2 (parent (bfs_run robots rb)) trow tcol =? -1) eqn:E; reflect_bools.
  2: { exfalso. apply Hno. by apply (seen_iff_reachable robots rb Hs (trow, tcol) Ht). }
  pose proof (best_fold_spec (parent (bfs_run robots rb)) trow tcol cells
                (row rb) (col rb) _ eq_refl) as Hb.
  unfold best_cell. destruct (foldl _ _ _) as [[br bc] bd]. simpl.
  destruct Hb as (-> & Hle & Hor & Hmin).
  assert (Hmin' : forall p n, walk free (row rb, col rb) n p -> dist (br, bc) <= dist p).
  { intros p n Hw. apply Hmin.
    - destruct p. apply elem_of_cells. exact (Hreach _ _ Hw).
    - apply (seen_iff_reachable robots rb Hs p); [by eapply Hreach|eauto]. }
  destruct ((br =? row rb) && (bc =? col rb)) eqn:Eb.
  { reflect_bools. subst. left. split; [done|]. intros p n. apply Hmin'. }
  right. destruct Hor as [[= -> ->]|(Hin & Hseen & Hlt)].
  { rewrite !Z.eqb_refl in Eb. done. }
  apply elem_of_cells in Hin.
  apply (seen_iff_reachable robots rb Hs (br, bc) Hin) in Hseen as [m Hm].
  destruct (reachable_shortest robots rb Hs _ _ Hm) as [[|n] Hshort].
  { destruct Hshort as [Hw _]. inversion Hw; subst. lia. }
  destruct (first_direction_spec robots rb Hs n (br, bc) Hshort) as (d & Hd & ? & _ & ?).
  simpl in Hd. rewrite Hd. exists (br, bc), n. done.
Qed.

(** the search never writes past the end of its queue arrays, stops with
    an empty queue, and marks exactly the cells a walk leads to; the path array,
    too, is never overrun. *)
Theorem bfs_explores_reachable robots rb :
  in_bounds (row rb) (col rb) ->
  let s := bfs_run robots rb in
  head s = length (queue s) /\ (length (queue s) <= 49)%nat /\
  (forall r c, in_bounds r c ->
     get2 (parent s) r c <> -1 <->
     exists n, walk (free_cell robots rb) (row rb, col rb) n (r, c)) /\
  (forall r c, in_bounds r c -> get2 (parent s) r c <> -1 ->
     exists l, path_loop path_fuel (parent s) (row rb * MAP_WIDTH + col rb) r c [] = Some l /\
       (length l < 49)%nat).
Proof.
  intros Hs s. destruct (bfs_run_inv robots rb Hs) as (D & I & Hh).
  pose proof (queue_bound _ _ _ _ _ _ I) as Hq. split_and!.
  - apply Nat.le_antisymm; [|exact Hh].
    apply bfs_loop_head. simpl. lia.
  - exact Hq.
  - intros r c Hrc. apply (seen_iff_reachable robots rb Hs (r, c) Hrc).
  - intros r c Hrc Hseen. apply (si_seen _ _ _ _ _ _ I (r, c) Hrc) in Hseen.
    apply list_elem_of_lookup in Hseen as [k Hk].
    destruct (lookup_lt_is_Some_2 D k) as [d Hd].
    { rewrite (si_len _ _ _ _ _ _ I). by eapply lookup_lt_Some. }
    destruct (queue_sound _ _ _ _ _ _ _ _ _ I Hk Hd) as [_ Hdk].
    apply lookup_lt_Some in Hk as Hk'.
    destruct (path_loop_spec _ _ Hs _ _ _ _ _ _ _ path_fuel [] I Hk Hd) as (l & Hl & Hlen & _).
    { change path_fuel with 49%nat. lia. }
    exists l. rewrite app_nil_r in Hl. split; [exact Hl|]. lia.
Qed.

(** *** Witnesses *)

Lemma walk_distance free p n q :
  walk free p n q -> get_distance p.1 p.2 q.1 q.2 <= Z.of_nat n.
Proof.
  intros Hw. induction Hw as [|n q r _ IH Ha _]; rewrite !get_distance_abs in *; [lia|].
  apply adj_cases in Ha as [->|[->|[->| ->]]]; simpl; lia.
Qed.

(** A robot at the waiting place that fetches item 4, alone and with another
    robot already standing on that item. *)
Definition robot_4B : robot := setRobot None 4 (ch "B") ROW_W COL_W 4 0 0.
Definition robot_on_4 : robot := setRobot None 4 (ch "A") 2 4 4 0 0.

Lemma next_direction_shortest_witness :
  let dir := get_next_direction [robot_4B] robot_4B 2 4 in
  1 <= dir <= 4 /\
  free_cell [robot_4B] robot_4B (get_next_position 6 5 dir) /\
  walk (free_cell [robot_4B] robot_4B) (get_next_position 6 5 dir) 4 (2, 4).
Proof.
  apply (next_direction_shortest [robot_4B] robot_4B 2 4 4).
  - compute. intuition congruence.
  - compute. intuition congruence.
  - split.
    + assert (Hadj : forall i p, i ∈ [0; 1; 2; 3] ->
                adj p (p.1 + zget 0 dr i, p.2 + zget 0 dc i)) by (intros i p ?; by exists i).
      eapply walk_snoc; [|apply (Hadj 2 (2, 5)); set_solver|reflexivity].
      eapply walk_snoc; [|apply (Hadj 0 (3, 5)); set_solver|reflexivity].
      eapply walk_snoc; [|apply (Hadj 0 (4, 5)); set_solver|reflexivity].
      eapply walk_snoc; [|apply (Hadj 0 (5, 5)); set_solver|reflexivity].
      eapply walk_snoc; [|apply (Hadj 0 (6, 5)); set_solver|reflexivity].
      apply walk_nil.
    + intros m Hm. apply walk_distance in Hm. change (5 <= Z.of_nat m) in Hm. lia.
Defined.

Lemma next_direction_unreachable_witness :
  let rs := [robot_4B; robot_on_4] in
  let free := free_cell rs robot_4B in
  let dist p := get_distance p.1 p.2 2 4 in
  let dir := get_next_direction rs robot_4B 2 4 in
  (dir = 0 /\ forall p n, walk free (6, 5) n p -> dist (6, 5) <= dist p) \/
  (exists best n, 1 <= dir <= 4 /\ dist best < dist (6, 5) /\
     (forall p m, walk free (6, 5) m p -> dist best <= dist p) /\
     shortest_walk free (6, 5) (S n) best /\
     walk free (get_next_position 6 5 dir) n best).
Proof.
  apply (next_direction_unreachable [robot_4B; robot_on_4] robot_4B 2 4).
  - compute. intuition congruence.
  - compute. intuition congruence.
  - intros [n Hw]. inversion Hw as [|n' q r _ _ Hf]. vm_compute in Hf. discriminate.
Defined.

Lemma bfs_explores_reachable_witness :
  let s := bfs_run [robot_4B] robot_4B in
  head s = length (queue s) /\ (length (queue s) <= 49)%nat /\
  (forall r c, in_bounds r c ->
     get2 (parent s) r c <> -1 <->
     exists n, walk (free_cell [robot_4B] robot_4B) (6, 5) n (r, c)) /\
  (forall r c, in_bounds r c -> get2 (parent s) r c <> -1 ->
     exists l, path_loop path_fuel (parent s) (6 * MAP_WIDTH + 5) r c [] = Some l /\
       (length l < 49)%nat).
Proof.
  apply (bfs_explores_reachable [robot_4B] robot_4B). compute. intuition congruence.
Defined.
