(* ===== verification/AwMessage.v ===== *)
(** The message boxes between the robots and the central control node
    (aw_message.h, aw_message.c). *)

From S2P Require Import Prelude.

Record message := mkMessage {
  msg_row : Z;
  msg_col : Z;
  msg_current_payload : Z;
  msg_required_payload : Z;
  msg_completed : Z;
  msg_cmd : Z
}.

Record message_box := mkBox { dirtyBit : Z; msg : message }.

(** The two global arrays. *)
Record boxes := mkBoxes {
  boxes_from_central_control_node : list message_box;
  boxes_from_robots : list message_box
}.

Definition zero_message : message := mkMessage 0 0 0 0 0 0.
Definition zero_box : message_box := mkBox 0 zero_message.

Definition init_message_boxes (num_robots : nat) : boxes :=
  {| boxes_from_central_control_node := replicate num_robots zero_box;
     boxes_from_robots := replicate num_robots zero_box |}.

Definition set_cmd (m : message) (cmd : Z) : message :=
  mkMessage (msg_row m) (msg_col m) (msg_current_payload m) (msg_required_payload m)
    (msg_completed m) cmd.

Definition send_message_to_central (b : boxes) (robot_id : nat) (m : message) : boxes :=
  {| boxes_from_central_control_node := boxes_from_central_control_node b;
     boxes_from_robots := <[robot_id := mkBox 1 m]> (boxes_from_robots b) |}.

Definition receive_message_from_robot (b : boxes) (robot_id : nat) : message :=
  msg (default zero_box (boxes_from_robots b !! robot_id)).

Definition send_command_to_robot (b : boxes) (robot_id : nat) (cmd : Z) : boxes :=
  {| boxes_from_central_control_node :=
       alter (fun x => mkBox 1 (set_cmd (msg x) cmd)) robot_id
         (boxes_from_central_control_node b);
     boxes_from_robots := boxes_from_robots b |}.

Definition receive_command_from_central (b : boxes) (robot_id : nat) : Z :=
  msg_cmd (msg (default zero_box (boxes_from_central_control_node b !! robot_id))).

Definition is_message_from_robot_ready (b : boxes) (robot_id : nat) : Z :=
  dirtyBit (default zero_box (boxes_from_robots b !! robot_id)).

Definition clear_message_box (b : boxes) (robot_id : nat) (from_central : Z) : boxes :=
  if negb (from_central =? 0) then
    {| boxes_from_central_control_node :=
         alter (fun x => mkBox 0 (msg x)) robot_id (boxes_from_central_control_node b);
       boxes_from_robots := boxes_from_robots b |}
  else
    {| boxes_from_central_control_node := boxes_from_central_control_node b;
       boxes_from_robots :=
         alter (fun x => mkBox 0 (msg x)) robot_id (boxes_from_robots b) |}.
