(* ===== verification/AwCentral.v ===== *)
(** The planning part of [central_control_thread] (automated_warehouse.c). *)

From S2P Require Import Prelude Warehouse AwPath.

(** The entries at one robot's index of the static arrays [current_row],
    [current_col], [target_row], ..., [considered]. *)
Record slot := mkSlot {
  current_row : Z;
  current_col : Z;
  target_row : Z;
  target_col : Z;
  desired_cmd : Z;
  next_row : Z;
  next_col : Z;
  accepted : bool;
  considered : bool
}.

Definition slot0 : slot := mkSlot 0 0 0 0 0 0 0 false false.
Definition robot0 : robot := mkRobot None 0 0 0 0 0 0 0.

Definition completed (rb : robot) : bool := negb (task_completed rb =? 0).

(** Stage 1, the body of the loop for robot [i]. *)
Definition plan_slot (robots : list robot) (sacrifice : Z) (i : nat) (rb : robot) : slot :=
  if completed rb then
    mkSlot (row rb) (col rb) (-1) (-1) 0 (row rb) (col rb) false false
  else
    let '(trow, tcol) := get_robot_target rb in
    let cmd :=
      if Z.of_nat i =? sacrifice then 0 else get_next_direction robots rb trow tcol in
    let '(nrow, ncol) := get_next_position (row rb) (col rb) cmd in
    mkSlot (row rb) (col rb) trow tcol cmd nrow ncol false false.

Definition plan_slots (robots : list robot) (sacrifice : Z) : list slot :=
  imap (plan_slot robots sacrifice) robots.

(** [can_accept_batch_move]: the test against robot [i] at index [idx]. *)
Definition same_cell (r c r' c' : Z) : bool := (r =? r') && (c =? c').

Definition conflict (me other : slot) : bool :=
  if accepted other then
    same_cell (current_row me) (current_col me) (current_row other) (current_col other)
    || same_cell (current_row me) (current_col me) (next_row other) (next_col other)
    || same_cell (next_row me) (next_col me) (current_row other) (current_col other)
    || same_cell (next_row me) (next_col me) (next_row other) (next_col other)
  else
    negb (is_shared_place (next_row me) (next_col me))
    && same_cell (next_row me) (next_col me) (current_row other) (current_col other).

Definition can_accept_batch_move (slots : list slot) (robot_idx : nat) : bool :=
  let me := default slot0 (slots !! robot_idx) in
  forallb (fun i => (i =? robot_idx)%nat || negb (conflict me (default slot0 (slots !! i))))
    (seq 0 (length slots)).

(** Stage 2: the choice of the next robot to consider; [(robot_idx, best_wait)]. *)
Definition pick_step (robots : list robot) (slots : list slot) (wait_steps : list Z)
    (acc : Z * Z) (i : nat) : Z * Z :=
  let '(robot_idx, best_wait) := acc in
  if considered (default slot0 (slots !! i)) || completed (default robot0 (robots !! i))
  then acc
  else if (robot_idx =? -1) || (best_wait <? default 0 (wait_steps !! i))
       then (Z.of_nat i, default 0 (wait_steps !! i))
       else acc.

Definition pick (robots : list robot) (slots : list slot) (wait_steps : list Z) : Z :=
  (foldl (pick_step robots slots wait_steps) (-1, -1) (seq 0 (length robots))).1.

Definition set_considered (s : slot) : slot :=
  mkSlot (current_row s) (current_col s) (target_row s) (target_col s) (desired_cmd s)
    (next_row s) (next_col s) (accepted s) true.
Definition set_accepted (s : slot) : slot :=
  mkSlot (current_row s) (current_col s) (target_row s) (target_col s) (desired_cmd s)
    (next_row s) (next_col s) true (considered s).
Definition set_move (s : slot) (cmd nrow ncol : Z) : slot :=
  mkSlot (current_row s) (current_col s) (target_row s) (target_col s) cmd nrow ncol
    (accepted s) (considered s).

(** The loop [for (checked = 0; checked < n_robots; checked++)]; the state is
    the slots and [accepted_count]. *)
Fixpoint accept_loop (n : nat) (robots : list robot) (wait_steps : list Z)
    (slots : list slot) (count : Z) : list slot * Z :=
  match n with
  | O => (slots, count)
  | S n' =>
      let robot_idx := pick robots slots wait_steps in
      if robot_idx =? -1 then (slots, count)
      else
        let k := Z.to_nat robot_idx in
        let slots := alter set_considered k slots in
        if negb (desired_cmd (default slot0 (slots !! k)) =? 0)
           && can_accept_batch_move slots k
        then accept_loop n' robots wait_steps (alter set_accepted k slots) (count + 1)
        else accept_loop n' robots wait_steps slots count
  end.

(** [choose_deadlock_victim]: returns the victim, its direction and the new
    value of [sacrifice_robot_idx]. *)
Definition victim_step (robots : list robot) (slots : list slot) (wait_steps : list Z)
    (acc : Z * Z * Z) (i : nat) : Z * Z * Z :=
  let '(victim_idx, victim_wait, victim_direction) := acc in
  let rb := default robot0 (robots !! i) in
  let sl := default slot0 (slots !! i) in
  if completed rb then acc
  else
    let direction := get_escape_direction robots rb (target_row sl) (target_col sl) in
    if negb (direction =? 0) && (victim_wait <? default 0 (wait_steps !! i))
    then (Z.of_nat i, default 0 (wait_steps !! i), direction)
    else acc.

Definition choose_new_victim (robots : list robot) (slots : list slot)
    (wait_steps : list Z) : Z * Z * Z :=
  let '(victim_idx, _, victim_direction) :=
    foldl (victim_step robots slots wait_steps) (-1, -1, 0) (seq 0 (length robots)) in
  (victim_idx, victim_direction, victim_idx).

Definition choose_deadlock_victim (robots : list robot) (slots : list slot)
    (wait_steps : list Z) (sacrifice : Z) : Z * Z * Z :=
  if (0 <=? sacrifice) && (sacrifice <? Z.of_nat (length robots))
     && negb (completed (zget robot0 robots sacrifice))
  then
    let sl := zget slot0 slots sacrifice in
    let direction := get_escape_direction robots (zget robot0 robots sacrifice)
                       (target_row sl) (target_col sl) in
    if negb (direction =? 0) then (sacrifice, direction, sacrifice)
    else choose_new_victim robots slots wait_steps
  else choose_new_victim robots slots wait_steps.

(** Stage 3, and the reset of [sacrifice_robot_idx] in stages 3 and 4: returns
    the slots, [accepted_count] and [sacrifice_robot_idx]. *)
Definition resolve_deadlock (robots : list robot) (wait_steps : list Z)
    (slots : list slot) (accepted_count sacrifice : Z) : list slot * Z * Z :=
  let '(slots, accepted_count, sacrifice, used_deadlock_victim) :=
    if accepted_count =? 0 then
      let '(victim_idx, victim_direction, sacrifice) :=
        choose_deadlock_victim robots slots wait_steps sacrifice in
      if negb (victim_idx =? -1) && negb (victim_direction =? 0) then
        let k := Z.to_nat victim_idx in
        let rb := default robot0 (robots !! k) in
        let '(nrow, ncol) := get_next_position (row rb) (col rb) victim_direction in
        (alter (fun s => set_accepted (set_move s victim_direction nrow ncol)) k slots,
         1, sacrifice, true)
      else (slots, accepted_count, sacrifice, false)
    else (slots, accepted_count, -1, false) in
  if 0 <? accepted_count then (slots, accepted_count, sacrifice)
  else (slots, accepted_count, if used_deadlock_victim then sacrifice else -1).

(** Stages 1 to 4: the slots after the decision, and [sacrifice_robot_idx]. *)
Definition decide_moves (robots : list robot) (wait_steps : list Z) (sacrifice : Z)
  : list slot * Z :=
  let slots := plan_slots robots sacrifice in
  let '(slots, count) := accept_loop (length robots) robots wait_steps slots 0 in
  let '(slots, _, sacrifice) := resolve_deadlock robots wait_steps slots count sacrifice in
  (slots, sacrifice).

(** The update of [wait_steps] after the commands are sent. *)
Definition next_waits (robots : list robot) (slots : list slot) (wait_steps : list Z)
  : list Z :=
  imap (fun i w => if completed (default robot0 (robots !! i))
                      || accepted (default slot0 (slots !! i))
                   then 0 else w + 1) wait_steps.

(** ** Specification of a batch of moves *)

Definition cur_cell (s : slot) : Z * Z := (current_row s, current_col s).
Definition next_cell (s : slot) : Z * Z := (next_row s, next_col s).
Definition shared (p : Z * Z) : bool := is_shared_place p.1 p.2.

(** A slot that asks for a move asks for one its robot can make. *)
Definition move_ok (rs : list robot) (rb : robot) (s : slot) : Prop :=
  desired_cmd s <> 0 ->
  completed rb = false /\ 1 <= desired_cmd s <= 4 /\
  next_cell s = get_next_position (row rb) (col rb) (desired_cmd s) /\
  free_cell rs rb (next_cell s).

(** An accepted move keeps clear of every other robot: it enters no ordinary
    cell that is occupied now, and meets no other accepted move. *)
Definition pair_ok (a b : slot) : Prop :=
  (shared (next_cell a) = false -> next_cell a <> cur_cell b) /\
  (accepted b = true ->
     cur_cell a <> cur_cell b /\ cur_cell a <> next_cell b /\
     next_cell a <> cur_cell b /\ next_cell a <> next_cell b).

Record batch_ok (rs : list robot) (slots : list slot) : Prop := {
  bo_len : length slots = length rs;
  bo_cur : forall i rb s, rs !! i = Some rb -> slots !! i = Some s ->
    cur_cell s = (row rb, col rb);
  bo_move : forall i rb s, rs !! i = Some rb -> slots !! i = Some s -> move_ok rs rb s;
  bo_cmd : forall i s, slots !! i = Some s -> accepted s = true -> desired_cmd s <> 0;
  bo_pair : forall i j a b, i <> j -> slots !! i = Some a -> slots !! j = Some b ->
    accepted a = true -> pair_ok a b
}.

(** ** Lemmas *)

Lemma same_cell_spec r c r' c' : same_cell r c r' c' = true <-> (r, c) = (r', c').
Proof.
  unfold same_cell. rewrite andb_true_iff, !Z.eqb_eq. split; [by intros [-> ->]|].
  by intros [= -> ->].
Qed.

Lemma same_cell_false r c r' c' : same_cell r c r' c' = false <-> (r, c) <> (r', c').
Proof. rewrite <- not_true_iff_false, same_cell_spec. done. Qed.

Lemma conflict_false a b : conflict a b = false ->
  (shared (next_cell a) = false -> next_cell a <> cur_cell b) /\
  (accepted b = true ->
     cur_cell a <> cur_cell b /\ cur_cell a <> next_cell b /\
     next_cell a <> cur_cell b /\ next_cell a <> next_cell b).
Proof.
  unfold conflict, shared, cur_cell, next_cell. simpl. destruct (accepted b).
  - rewrite !orb_false_iff, !same_cell_false. tauto.
  - rewrite andb_false_iff, negb_false_iff, same_cell_false.
    intros [->|?]; (split; [|done]); [done|]. done.
Qed.

Lemma can_accept_spec slots k me :
  slots !! k = Some me -> can_accept_batch_move slots k = true ->
  forall j b, j <> k -> slots !! j = Some b -> pair_ok me b.
Proof.
  intros Hk Hacc j b Hjk Hb. unfold can_accept_batch_move in Hacc. rewrite Hk in Hacc.
  rewrite forallb_forall in Hacc. specialize (Hacc j). simpl in Hacc. rewrite Hb in Hacc.
  apply conflict_false. rewrite in_seq in Hacc. apply lookup_lt_Some in Hb as Hlt.
  specialize (Hacc ltac:(lia)). reflect_bools. destruct Hacc; reflect_bools; [done|done].
Qed.

(** The slots of stage 1. *)
Lemma plan_slot_spec rs sacrifice i rb :
  in_bounds (row rb) (col rb) ->
  let s := plan_slot rs sacrifice i rb in
  cur_cell s = (row rb, col rb) /\ move_ok rs rb s /\ accepted s = false.
Proof.
  intros Hb. unfold plan_slot. destruct (completed rb) eqn:Ec; [done|].
  pose proof (get_robot_target_in_bounds rb) as Ht.
  destruct (get_robot_target rb) as [trow tcol]. simpl in Ht.
  set (cmd := if Z.of_nat i =? sacrifice then _ else _). destruct (get_next_position _ _ cmd) as [nrow ncol] eqn:En.
  split_and!; [done| |done]. intros Hcmd. simpl in Hcmd.
  unfold next_cell. simpl. rewrite En. split; [done|].
  assert (cmd = get_next_direction rs rb trow tcol) as Hd.
  { unfold cmd in *. by destruct_if. }
  rewrite <- En, Hd. rewrite Hd in Hcmd.
  destruct (next_direction_free rs rb trow tcol Hb Ht Hcmd). done.
Qed.

(** What [pick] returns: -1 when every robot is considered or done, and
    otherwise the first of the longest waiting robots that are left. *)
Definition eligible (rs : list robot) (slots : list slot) (i : nat) : Prop :=
  considered (default slot0 (slots !! i)) = false /\
  completed (default robot0 (rs !! i)) = false.

Definition wait_of (waits : list Z) (i : nat) : Z := default 0 (waits !! i).

(** The score of a robot in the choice of stage 2. *)
Definition pick_score (rs : list robot) (slots : list slot) (waits : list Z) (i : nat)
  : option Z :=
  if considered (default slot0 (slots !! i)) || completed (default robot0 (rs !! i))
  then None else Some (wait_of waits i).

Lemma pick_score_Some rs slots waits i v :
  pick_score rs slots waits i = Some v <-> eligible rs slots i /\ v = wait_of waits i.
Proof.
  unfold pick_score, eligible. destruct (considered _), (completed _); simpl;
    (split; [intros [=] | intros [[] ->]]); done.
Qed.

Lemma pick_spec rs slots waits :
  let score := pick_score rs slots waits in
  (pick rs slots waits = -1 /\ forall j, (j < length rs)%nat -> ~ eligible rs slots j) \/
  (exists k v, pick rs slots waits = Z.of_nat k /\ eligible rs slots k /\
     first_max score 0 (length rs) k v).
Proof.
  intros score. unfold pick.
  destruct (keep_max_spec score (pick_step rs slots waits)
      (fun acc => if acc.1 =? -1 then None else Some (Z.to_nat acc.1, acc.2))
      (fun acc => -1 <= acc.1) (-1, -1) 0 (length rs)) as [HP Hm]; [done|done| |].
  - intros [d s] i Hd Hi. simpl in Hd. unfold pick_step, keep_max, score, pick_score.
    fold (wait_of waits i). destruct (_ || _); simpl; [done|].
    destruct (Z.eqb_spec d (-1)) as [->|]; simpl.
    + split; [lia|]. destruct (Z.eqb_spec (Z.of_nat i) (-1)); [lia|]. by rewrite Nat2Z.id.
    + destruct (Z.ltb_spec s (wait_of waits i)); simpl; (split; [lia|]).
      * destruct (Z.eqb_spec (Z.of_nat i) (-1)); [lia|]. by rewrite Nat2Z.id.
      * destruct (Z.eqb_spec d (-1)); [lia|done].
  - destruct (foldl _ _ _) as [d s]. simpl in *. destruct (Z.eqb_spec d (-1)) as [->|].
    + left. split; [done|]. intros j Hj Hel. specialize (Hm j ltac:(lia)). unfold score in Hm.
      by rewrite (proj2 (pick_score_Some _ _ _ _ _) (conj Hel eq_refl)) in Hm.
    + right. exists (Z.to_nat d), s. split_and!; [lia| |done].
      destruct Hm as (_ & [Hel _]%pick_score_Some & _). done.
Qed.

(** Marking a slot keeps the batch in order. *)
Lemma lookup_alter_Some {A} (f : A -> A) (l : list A) k i y :
  alter f k l !! i = Some y ->
  exists x, l !! i = Some x /\ (i = k /\ y = f x \/ i <> k /\ y = x).
Proof.
  destruct (decide (k = i)) as [->|Hne].
  - rewrite list_lookup_alter_eq. intros (x & Hx & ->)%fmap_Some. eauto.
  - rewrite list_lookup_alter_ne by done. eauto.
Qed.

Lemma batch_ok_considered rs slots k :
  batch_ok rs slots -> batch_ok rs (alter set_considered k slots).
Proof.
  intros []. split.
  - by rewrite length_alter.
  - intros i rb s Hrb (x & Hx & [[-> ->]|[_ ->]])%lookup_alter_Some; exact (bo_cur0 _ _ _ Hrb Hx).
  - intros i rb s Hrb (x & Hx & [[-> ->]|[_ ->]])%lookup_alter_Some; exact (bo_move0 _ _ _ Hrb Hx).
  - intros i s (x & Hx & [[-> ->]|[_ ->]])%lookup_alter_Some; exact (bo_cmd0 _ _ Hx).
  - intros i j a b Hij (x & Hx & Hx')%lookup_alter_Some (y & Hy & Hy')%lookup_alter_Some Ha.
    destruct Hx' as [[-> ->]|[? ->]], Hy' as [[-> ->]|[? ->]];
      exact (bo_pair0 _ _ _ _ Hij Hx Hy Ha).
Qed.

Lemma pair_ok_sym a b :
  pair_ok a b -> accepted b = true ->
  (shared (next_cell b) = false -> next_cell b <> cur_cell a) /\
  cur_cell b <> cur_cell a /\ cur_cell b <> next_cell a /\
  next_cell b <> cur_cell a /\ next_cell b <> next_cell a.
Proof. intros [_ H] Hb. specialize (H Hb) as (?&?&?&?). split_and!; congruence. Qed.

Lemma batch_ok_accepted rs slots k me :
  batch_ok rs slots -> slots !! k = Some me -> desired_cmd me <> 0 ->
  (forall j b, j <> k -> slots !! j = Some b -> pair_ok me b) ->
  batch_ok rs (alter set_accepted k slots).
Proof.
  intros [] Hk Hcmd Hpair. split.
  - by rewrite length_alter.
  - intros i rb s Hrb (x & Hx & [[-> ->]|[_ ->]])%lookup_alter_Some; exact (bo_cur0 _ _ _ Hrb Hx).
  - intros i rb s Hrb (x & Hx & [[-> ->]|[_ ->]])%lookup_alter_Some; exact (bo_move0 _ _ _ Hrb Hx).
  - intros i s (x & Hx & [[-> ->]|[_ ->]])%lookup_alter_Some; [|exact (bo_cmd0 _ _ Hx)].
    by simplify_eq.
  - intros i j a b Hij (x & Hx & Hx')%lookup_alter_Some (y & Hy & Hy')%lookup_alter_Some Ha.
    destruct Hx' as [[-> ->]|[? ->]], Hy' as [[-> ->]|[? ->]]; simplify_eq.
    + exact (Hpair j y ltac:(done) Hy).
    + destruct (pair_ok_sym _ _ (Hpair i x ltac:(done) Hx) Ha) as (?&?&?&?&?).
      split; [done|]. done.
    + exact (bo_pair0 _ _ _ _ Hij Hx Hy Ha).
Qed.

(** The accept loop: the batch stays in order, and [accepted_count] is positive
    as soon as some robot that waits for its turn wants to move. *)
Definition none_accepted (slots : list slot) : Prop :=
  forall i s, slots !! i = Some s -> accepted s = false.

Lemma none_accepted_considered slots k :
  none_accepted slots -> none_accepted (alter set_considered k slots).
Proof.
  intros H i s (x & Hx & [[-> ->]|[_ ->]])%lookup_alter_Some; exact (H _ _ Hx).
Qed.

Lemma accept_loop_ok n rs waits slots count :
  batch_ok rs slots -> 0 <= count -> (count = 0 -> none_accepted slots) ->
  let '(slots', count') := accept_loop n rs waits slots count in
  batch_ok rs slots' /\ count <= count' /\ (count' = 0 -> none_accepted slots').
Proof.
  revert slots count. induction n as [|n IH]; intros slots count Hok Hc Hnone; simpl;
    [done|].
  destruct (Z.eqb_spec (pick rs slots waits) (-1)); [done|].
  set (k := Z.to_nat (pick rs slots waits)).
  assert (Hok' := batch_ok_considered rs slots k Hok).
  destruct (alter set_considered k slots !! k) as [me|] eqn:Hk; simpl;
    [|by apply IH; [done..|]; intros; apply none_accepted_considered, Hnone].
  destruct (negb (desired_cmd me =? 0) && _) eqn:E; reflect_bools.
  - specialize (IH (alter set_accepted k (alter set_considered k slots)) (count + 1)).
    destruct (accept_loop _ _ _ _ _). destruct IH as (? & ? & ?); [|lia|lia|].
    + eapply batch_ok_accepted; [done|done|done|]. by apply can_accept_spec.
    + split_and!; [done|lia|done].
  - apply IH; [done..|]. intros ?. by apply none_accepted_considered, Hnone.
Qed.

(** The first robot asked that wants to move is let through. *)
Lemma can_accept_first rs slots k rb me :
  batch_ok rs slots -> none_accepted slots -> rs !! k = Some rb -> slots !! k = Some me ->
  desired_cmd me <> 0 -> can_accept_batch_move slots k = true.
Proof.
  intros Hok Hnone Hrb Hk Hcmd. unfold can_accept_batch_move. rewrite Hk. simpl.
  apply forallb_forall. intros j Hj%in_seq.
  destruct (lookup_lt_is_Some_2 slots j) as [b Hb]; [lia|]. rewrite Hb. simpl.
  destruct (Nat.eqb_spec j k) as [|Hjk]; [done|]. simpl. apply negb_true_iff.
  unfold conflict. rewrite (Hnone _ _ Hb).
  destruct (bo_move _ _ Hok _ _ _ Hrb Hk Hcmd) as (_ & _ & _ & Hfree).
  apply not_blocked_inv in Hfree as (_ & _ & Hocc & _). unfold next_cell in Hocc. simpl in Hocc.
  destruct (same_cell _ _ _ _) eqn:Esame; [|by rewrite andb_false_r].
  destruct (lookup_lt_is_Some_2 rs j) as [rb' Hrb'].
  { rewrite <- (bo_len _ _ Hok). lia. }
  pose proof (bo_cur _ _ Hok _ _ _ Hrb' Hb) as Hcur.
  apply same_cell_spec in Esame. unfold cur_cell in Hcur. rewrite <- Esame in Hcur.
  rewrite (Hocc rb'); [done|by eapply list_elem_of_lookup_2|].
  injection Hcur as -> ->. done.
Qed.

(** The robots that have not been asked yet. *)
Definition todo (rs : list robot) (slots : list slot) : list nat :=
  filter (fun i => considered (default slot0 (slots !! i)) = false /\
                   completed (default robot0 (rs !! i)) = false) (seq 0 (length rs)).

Lemma todo_alter rs slots k me :
  slots !! k = Some me -> (k < length rs)%nat -> eligible rs slots k ->
  (length (todo rs (alter set_considered k slots)) < length (todo rs slots))%nat.
Proof.
  intros Hk Hlt Hel.
  assert (Hsub : k :: todo rs (alter set_considered k slots) ⊆+ todo rs slots).
  { apply NoDup_submseteq.
    - apply NoDup_cons. split; [|apply NoDup_filter, NoDup_seq].
      intros ((Hc & _) & _)%list_elem_of_filter.
      rewrite list_lookup_alter_eq, Hk in Hc. done.
    - intros i [->|Hi]%elem_of_cons.
      + apply list_elem_of_filter. split; [done|]. apply elem_of_seq. lia.
      + apply list_elem_of_filter in Hi as ((Hc & Hd) & Hin). apply list_elem_of_filter.
        split; [|done]. split; [|done].
        destruct (decide (k = i)) as [->|]; [|by rewrite list_lookup_alter_ne in Hc].
        by destruct Hel. }
  apply submseteq_length in Hsub. simpl in Hsub. lia.
Qed.

Lemma accept_loop_progress n rs waits slots :
  batch_ok rs slots -> none_accepted slots -> (length (todo rs slots) <= n)%nat ->
  (exists i me, (i < length rs)%nat /\ eligible rs slots i /\ slots !! i = Some me /\
     desired_cmd me <> 0) ->
  0 < (accept_loop n rs waits slots 0).2.
Proof.
  revert slots. induction n as [|n IH]; intros slots Hok Hnone Hlen (i & me & Hi & Hel & Hme & Hcmd).
  { exfalso. assert (i ∈ todo rs slots) as Hin.
    { apply list_elem_of_filter. split; [done|]. apply elem_of_seq. lia. }
    destruct (todo rs slots); [by apply not_elem_of_nil in Hin | simpl in Hlen; lia]. }
  simpl. destruct (pick_spec rs slots waits) as [[-> Hno]|(k & v & -> & Helk & Hkr & _)].
  { exfalso. by apply (Hno i). }
  assert (k < length rs)%nat as Hk by lia.
  destruct (Z.eqb_spec (Z.of_nat k) (-1)); [lia|]. rewrite Nat2Z.id.
  destruct (lookup_lt_is_Some_2 slots k) as [mk Hmk]; [by rewrite (bo_len _ _ Hok)|].
  destruct (lookup_lt_is_Some_2 rs k Hk) as [rbk Hrbk].
  rewrite list_lookup_alter_eq, Hmk. simpl.
  assert (Hok' := batch_ok_considered rs slots k Hok).
  assert (Hnone' := none_accepted_considered slots k Hnone).
  destruct (Z.eqb_spec (desired_cmd mk) 0) as [E0|E0]; simpl.
  - apply IH; [done|done| |].
    + pose proof (todo_alter rs slots k mk Hmk Hk Helk). lia.
    + exists i, me. assert (i <> k) by (intros ->; congruence).
      split_and!; [done| |by rewrite list_lookup_alter_ne|done].
      unfold eligible. by rewrite list_lookup_alter_ne.
  - assert (Hks : alter set_considered k slots !! k = Some (set_considered mk))
      by (by rewrite list_lookup_alter_eq, Hmk).
    assert (Hacc := can_accept_first rs _ k rbk (set_considered mk) Hok' Hnone' Hrbk Hks E0).
    rewrite Hacc.
    pose proof (accept_loop_ok n rs waits (alter set_accepted k (alter set_considered k slots)) 1)
      as Hl.
    destruct (accept_loop _ _ _ _ _) as [sl ct]. simpl. destruct Hl as (_ & ? & _); [|lia..].
    exact (batch_ok_accepted rs _ k _ Hok' Hks E0 (can_accept_spec _ k _ Hks Hacc)).
Qed.

(** The victim of a deadlock. *)
Definition victim_score (rs : list robot) (slots : list slot) (waits : list Z) (i : nat)
  : option Z :=
  let rb := default robot0 (rs !! i) in
  let sl := default slot0 (slots !! i) in
  if completed rb || (get_escape_direction rs rb (target_row sl) (target_col sl) =? 0)
     || (wait_of waits i <? 0)
  then None else Some (wait_of waits i).

Definition escape_of (rs : list robot) (slots : list slot) (i : nat) : Z :=
  let sl := default slot0 (slots !! i) in
  get_escape_direction rs (default robot0 (rs !! i)) (target_row sl) (target_col sl).

Lemma choose_new_victim_spec rs slots waits :
  let score := victim_score rs slots waits in
  let '(v, dir, sacrifice) := choose_new_victim rs slots waits in
  sacrifice = v /\
  ((v = -1 /\ dir = 0 /\ forall j, (j < length rs)%nat -> score j = None) \/
   (exists k w, v = Z.of_nat k /\ dir = escape_of rs slots k /\
      first_max score 0 (length rs) k w)).
Proof.
  intros score. unfold choose_new_victim.
  destruct (keep_max_spec score (victim_step rs slots waits)
      (fun acc => if acc.1.1 =? -1 then None else Some (Z.to_nat acc.1.1, acc.1.2))
      (fun acc => acc = (-1, -1, 0) \/
         exists k, acc.1.1 = Z.of_nat k /\ 0 <= acc.1.2 /\ acc.2 = escape_of rs slots k)
      (-1, -1, 0) 0 (length rs)) as [HP Hm]; [by left|done| |].
  - intros [[v w] d] i Hacc Hi. unfold victim_step, keep_max, score, victim_score.
    fold (wait_of waits i) (escape_of rs slots i). set (rb := default robot0 (rs !! i)).
    destruct (completed rb); simpl; [done|].
    destruct (Z.eqb_spec (escape_of rs slots i) 0); simpl; [done|].
    destruct Hacc as [[= -> -> ->]|(k & Hk & Hw & Hd)]; simpl in *.
    + destruct (Z.ltb_spec (-1) (wait_of waits i)), (Z.ltb_spec (wait_of waits i) 0);
        try lia; simpl; [|by split; [left|]].
      destruct (Z.eqb_spec (Z.of_nat i) (-1)); [lia|]. rewrite Nat2Z.id.
      split; [|done]. right. exists i. split_and!; [done|lia|done].
    + destruct (Z.ltb_spec w (wait_of waits i)), (Z.ltb_spec (wait_of waits i) 0);
        try lia; simpl; destruct (Z.eqb_spec v (-1)); try lia;
        destruct (Z.eqb_spec (Z.of_nat i) (-1)); try lia; rewrite ?Nat2Z.id.
      * split; [|by case_cmp]. right. exists i. split_and!; [done|lia|done].
      * split; [|by case_cmp]. right. eauto.
      * split; [|by case_cmp]. right. eauto.
  - destruct (foldl _ _ _) as [[v w] d]. simpl in *. split; [done|].
    destruct HP as [[= -> -> ->]|(k & -> & _ & ->)].
    + left. split_and!; [done..|]. intros j Hj. apply Hm. lia.
    + destruct (Z.eqb_spec (Z.of_nat k) (-1)); [lia|]. rewrite Nat2Z.id in Hm. right. eauto.
Qed.

(** Whatever way a victim is chosen, it is a robot that is not done and whose
    escape direction is not 0. *)
Lemma choose_deadlock_victim_spec rs slots waits sacrifice v dir sacrifice' :
  choose_deadlock_victim rs slots waits sacrifice = (v, dir, sacrifice') ->
  v <> -1 -> dir <> 0 ->
  exists k rb, v = Z.of_nat k /\ rs !! k = Some rb /\ completed rb = false /\
    dir = escape_of rs slots k /\ sacrifice' = v.
Proof.
  unfold choose_deadlock_victim. intros H Hv Hdir.
  assert (choose_new_victim rs slots waits = (v, dir, sacrifice') ->
    exists k rb, v = Z.of_nat k /\ rs !! k = Some rb /\ completed rb = false /\
      dir = escape_of rs slots k /\ sacrifice' = v) as Hnew.
  { intros E. pose proof (choose_new_victim_spec rs slots waits) as Hs. rewrite E in Hs.
    destruct Hs as (-> & [(? & _)|(k & w & -> & -> & Hk & Hsc & _)]); [done|].
    destruct (lookup_lt_is_Some_2 rs k) as [rb Hrb]; [lia|]. exists k, rb.
    split_and!; try done. unfold victim_score in Hsc. rewrite Hrb in Hsc. simpl in Hsc.
    by destruct (completed rb). }
  destruct_if; [|auto]. reflect_bools. destruct_if; [|auto].
  injection H as <- <- <-. exists (Z.to_nat sacrifice).
  destruct (lookup_lt_is_Some_2 rs (Z.to_nat sacrifice)) as [rb Hrb]; [lia|].
  assert (Hz : zget robot0 rs sacrifice = rb).
  { unfold zget, zlookup. destruct (Z.leb_spec 0 sacrifice); [|lia]. by rewrite Hrb. }
  exists rb. split_and!; [lia|done|congruence| |done].
  unfold escape_of. rewrite Hrb, Hz. f_equal; unfold zget, zlookup;
    by destruct (Z.leb_spec 0 sacrifice); [|lia].
Qed.

(** A single move out of an idle batch keeps it in order. *)
Lemma batch_ok_victim rs slots k rb dir nrow ncol :
  batch_ok rs slots -> none_accepted slots -> rs !! k = Some rb -> completed rb = false ->
  1 <= dir <= 4 -> get_next_position (row rb) (col rb) dir = (nrow, ncol) ->
  is_blocked_cell rs rb nrow ncol = false ->
  batch_ok rs (alter (fun s => set_accepted (set_move s dir nrow ncol)) k slots).
Proof.
  intros [] Hnone Hk Hc Hdir Hnext Hfree. split.
  - by rewrite length_alter.
  - intros i rb' s Hrb (x & Hx & [[-> ->]|[_ ->]])%lookup_alter_Some;
      exact (bo_cur0 _ _ _ Hrb Hx).
  - intros i rb' s Hrb (x & Hx & [[-> ->]|[_ ->]])%lookup_alter_Some;
      [|exact (bo_move0 _ _ _ Hrb Hx)].
    simplify_eq. intros _. unfold next_cell. simpl. done.
  - intros i s (x & Hx & [[-> ->]|[_ ->]])%lookup_alter_Some; [simpl; lia|].
    exact (bo_cmd0 _ _ Hx).
  - intros i j a b Hij (x & Hx & Hx')%lookup_alter_Some (y & Hy & Hy')%lookup_alter_Some Ha.
    destruct Hx' as [[-> ->]|[? ->]]; [|by rewrite (Hnone _ _ Hx) in Ha].
    destruct Hy' as [[-> ->]|[? ->]]; [done|].
    split; [|by rewrite (Hnone _ _ Hy)]. unfold next_cell, shared. simpl.
    intros Hsh Heq. apply not_blocked_inv in Hfree as (_ & _ & Hocc & _).
    destruct (lookup_lt_is_Some_2 rs j) as [rb' Hrb'].
    { rewrite <- bo_len0. by eapply lookup_lt_Some. }
    rewrite (bo_cur0 _ _ _ Hrb' Hy) in Heq. injection Heq as -> ->.
    by rewrite (Hocc rb') in Hsh; [|by eapply list_elem_of_lookup_2|done].
Qed.

Lemma escape_of_free rs slots k rb :
  rs !! k = Some rb -> escape_of rs slots k <> 0 ->
  1 <= escape_of rs slots k <= 4 /\
  forall nrow ncol, get_next_position (row rb) (col rb) (escape_of rs slots k) = (nrow, ncol) ->
    is_blocked_cell rs rb nrow ncol = false.
Proof.
  unfold escape_of. intros ->. simpl. intros Hne.
  edestruct escape_direction_spec as [[E _]|(d & s & -> & Hd & Hs & _)]; [done|].
  split; [lia|]. intros nrow ncol E. apply escape_score_free in Hs. rewrite E in Hs. by destruct Hs.
Qed.

Lemma resolve_deadlock_ok rs waits slots count sacrifice :
  batch_ok rs slots -> 0 <= count -> (count = 0 -> none_accepted slots) ->
  batch_ok rs (resolve_deadlock rs waits slots count sacrifice).1.1.
Proof.
  intros Hok Hc Hnone. unfold resolve_deadlock.
  destruct (Z.eqb_spec count 0) as [->|]; [|by case_cmp].
  destruct (choose_deadlock_victim rs slots waits sacrifice) as [[v dir] sac] eqn:E.
  destruct (negb (v =? -1) && negb (dir =? 0)) eqn:Ev; [|by case_cmp]. reflect_bools.
  destruct (choose_deadlock_victim_spec _ _ _ _ _ _ _ E) as
    (k & rb & -> & Hrb & Hcomp & -> & ->); [done|done|].
  rewrite Nat2Z.id, Hrb. simpl.
  destruct (escape_of_free rs slots k rb Hrb) as [Hdir Hfree]; [done|].
  destruct (get_next_position _ _ _) as [nrow ncol] eqn:En. simpl.
  eapply batch_ok_victim; eauto.
Qed.

Lemma plan_slots_ok rs sacrifice :
  Forall (fun rb => in_bounds (row rb) (col rb)) rs ->
  batch_ok rs (plan_slots rs sacrifice) /\ none_accepted (plan_slots rs sacrifice).
Proof.
  intros Hb. rewrite Forall_lookup in Hb.
  assert (Hs : forall i s, plan_slots rs sacrifice !! i = Some s ->
     exists rb, rs !! i = Some rb /\ s = plan_slot rs sacrifice i rb).
  { intros i s. unfold plan_slots. rewrite list_lookup_imap.
    intros (rb & Hrb & ->)%fmap_Some. eauto. }
  assert (Hn : none_accepted (plan_slots rs sacrifice)).
  { intros i s (rb & Hrb & ->)%Hs.
    by destruct (plan_slot_spec rs sacrifice i rb (Hb _ _ Hrb)) as (_ & _ & ?). }
  split; [|done]. split.
  - unfold plan_slots. apply length_imap.
  - intros i rb s Hrb (rb' & Hrb' & ->)%Hs. simplify_eq.
    by destruct (plan_slot_spec rs sacrifice i rb (Hb _ _ Hrb)).
  - intros i rb s Hrb (rb' & Hrb' & ->)%Hs. simplify_eq.
    by destruct (plan_slot_spec rs sacrifice i rb (Hb _ _ Hrb)) as (_ & ? & _).
  - intros i s Hi Ha. by rewrite (Hn _ _ Hi) in Ha.
  - intros i j a b _ Hi _ Ha. by rewrite (Hn _ _ Hi) in Ha.
Qed.

Lemma decide_moves_ok rs waits sacrifice :
  Forall (fun rb => in_bounds (row rb) (col rb)) rs ->
  batch_ok rs (decide_moves rs waits sacrifice).1.
Proof.
  intros Hb. destruct (plan_slots_ok rs sacrifice Hb) as [Hok Hn]. unfold decide_moves.
  pose proof (accept_loop_ok (length rs) rs waits (plan_slots rs sacrifice) 0 Hok) as Hl.
  destruct (accept_loop _ _ _ _ _) as [slots count].
  destruct Hl as (Hok' & ? & Hn'); [lia|done|].
  pose proof (resolve_deadlock_ok rs waits slots count sacrifice Hok') as Hr.
  destruct (resolve_deadlock _ _ _ _ _) as [[slots' c'] sac']. apply Hr; [lia|done].
Qed.

(** The accept loop never takes back an accepted move. *)
Lemma accept_loop_keeps n rs waits slots count k s :
  slots !! k = Some s -> accepted s = true ->
  exists s', (accept_loop n rs waits slots count).1 !! k = Some s' /\ accepted s' = true.
Proof.
  revert slots count s. induction n as [|n IH]; intros slots count s Hk Ha; simpl; [eauto|].
  destruct (_ =? -1); [eauto|]. set (p := Z.to_nat _).
  assert (exists s', alter set_considered p slots !! k = Some s' /\ accepted s' = true)
    as (s1 & H1 & Ha1).
  { destruct (decide (p = k)) as [->|].
    - rewrite list_lookup_alter_eq, Hk. simpl. eauto.
    - rewrite list_lookup_alter_ne by done. eauto. }
  destruct (_ && _); [|by eapply IH].
  assert (exists s', alter set_accepted p (alter set_considered p slots) !! k = Some s' /\
            accepted s' = true) as (s2 & H2 & Ha2).
  { destruct (decide (p = k)) as [->|].
    - rewrite list_lookup_alter_eq, H1. simpl. eauto.
    - rewrite list_lookup_alter_ne by done. eauto. }
  by eapply IH.
Qed.

(** The robots ahead of [k] in the order of stage 2. *)
Definition ahead (waits : list Z) (i k : nat) : Prop :=
  wait_of waits k < wait_of waits i \/ wait_of waits k = wait_of waits i /\ (i < k)%nat.

Lemma accept_loop_longest n rs waits slots k rb me :
  batch_ok rs slots -> none_accepted slots -> (length (todo rs slots) <= n)%nat ->
  rs !! k = Some rb -> slots !! k = Some me -> eligible rs slots k -> desired_cmd me <> 0 ->
  (forall i s, eligible rs slots i -> slots !! i = Some s -> ahead waits i k ->
     desired_cmd s = 0) ->
  exists s, (accept_loop n rs waits slots 0).1 !! k = Some s /\ accepted s = true.
Proof.
  revert slots me. induction n as [|n IH]; intros slots me Hok Hnone Hlen Hrb Hme Hel Hcmd Hmax.
  { exfalso. assert (k ∈ todo rs slots) as Hin.
    { apply list_elem_of_filter. split; [done|]. apply elem_of_seq.
      apply lookup_lt_Some in Hrb. lia. }
    destruct (todo rs slots); [by apply not_elem_of_nil in Hin | simpl in Hlen; lia]. }
  simpl. apply lookup_lt_Some in Hrb as Hkl.
  destruct (pick_spec rs slots waits) as [[-> Hno]|(p & v & -> & Help & Hpr & Hps & Hpm)].
  { exfalso. by apply (Hno k). }
  apply pick_score_Some in Hps as [_ ->].
  destruct (Z.eqb_spec (Z.of_nat p) (-1)); [lia|]. rewrite Nat2Z.id.
  destruct (lookup_lt_is_Some_2 slots p) as [mp Hmp]; [rewrite (bo_len _ _ Hok); lia|].
  assert (Hok' := batch_ok_considered rs slots p Hok).
  assert (Hnone' := none_accepted_considered slots p Hnone).
  assert (Hps : alter set_considered p slots !! p = Some (set_considered mp))
    by (by rewrite list_lookup_alter_eq, Hmp).
  rewrite Hps. simpl. destruct (decide (p = k)) as [->|Hpk].
  - simplify_eq. rewrite (proj2 (Z.eqb_neq _ _) Hcmd). simpl.
    rewrite (can_accept_first rs _ k rb (set_considered me) Hok' Hnone' Hrb Hps Hcmd).
    eapply accept_loop_keeps; [by rewrite list_lookup_alter_eq, Hps|done].
  - assert (desired_cmd mp = 0) as ->.
    { apply (Hmax p); [done..|].
      destruct (Hpm k (wait_of waits k)) as [?|[? ?]]; [lia|by apply pick_score_Some|..].
      - by left.
      - right. lia. }
    simpl. eapply IH; [done|done| |done| | |exact Hcmd|].
    + pose proof (todo_alter rs slots p mp Hmp ltac:(lia) Help). lia.
    + by rewrite list_lookup_alter_ne.
    + unfold eligible. by rewrite list_lookup_alter_ne.
    + intros i s [Hi1 Hi2] Hs. destruct (decide (p = i)) as [->|].
      { rewrite Hps in Hi1. done. }
      rewrite list_lookup_alter_ne in Hi1, Hs by done. by apply (Hmax i).
Qed.

(** ** The properties *)

(** C5: the moves decided in a step are safe as a batch.  Each accepted robot is
    unfinished and gets a direction that leads to a cell [is_blocked_cell] lets it
    enter; no accepted robot enters an occupied cell that is not a shared place,
    and the current and next cells of two accepted robots are all different. *)
Theorem batch_moves_safe rs waits sacrifice :
  Forall (fun rb => in_bounds (row rb) (col rb)) rs ->
  let slots := (decide_moves rs waits sacrifice).1 in
  length slots = length rs /\
  (forall i rb a, rs !! i = Some rb -> slots !! i = Some a -> accepted a = true ->
     completed rb = false /\ 1 <= desired_cmd a <= 4 /\
     next_cell a = get_next_position (row rb) (col rb) (desired_cmd a) /\
     is_blocked_cell rs rb (next_row a) (next_col a) = false) /\
  (forall i j a b rb, i <> j -> slots !! i = Some a -> slots !! j = Some b ->
     rs !! j = Some rb -> accepted a = true ->
     (is_shared_place (next_row a) (next_col a) = false ->
        next_cell a <> (row rb, col rb)) /\
     (accepted b = true ->
        cur_cell a <> cur_cell b /\ cur_cell a <> next_cell b /\
        next_cell a <> cur_cell b /\ next_cell a <> next_cell b)).
Proof.
  intros Hb slots. pose proof (decide_moves_ok rs waits sacrifice Hb) as Hok.
  split_and!; [apply (bo_len _ _ Hok)|..].
  - intros i rb a Hrb Ha Hacc. pose proof (bo_cmd _ _ Hok _ _ Ha Hacc) as Hcmd.
    exact (bo_move _ _ Hok _ _ _ Hrb Ha Hcmd).
  - intros i j a b rb Hij Ha Hb' Hrb Hacc. rewrite <- (bo_cur _ _ Hok _ _ _ Hrb Hb').
    exact (bo_pair _ _ Hok _ _ _ _ Hij Ha Hb' Hacc).
Qed.

(** no starvation within a step.  Of the unfinished robots that want to
    move, the one that has waited longest (the first of them on a tie) is always
    accepted, and the deadlock victim is given up. *)
Theorem longest_waiting_robot_moves rs waits sacrifice k rb :
  Forall (fun rb => in_bounds (row rb) (col rb)) rs ->
  rs !! k = Some rb -> completed rb = false ->
  let wants i r := desired_cmd (plan_slot rs sacrifice i r) <> 0 in
  wants k rb ->
  (forall i r, rs !! i = Some r -> completed r = false -> wants i r ->
     default 0 (waits !! i) < default 0 (waits !! k) \/
     default 0 (waits !! i) = default 0 (waits !! k) /\ (k <= i)%nat) ->
  let '(slots, sacrifice') := decide_moves rs waits sacrifice in
  (exists s, slots !! k = Some s /\ accepted s = true) /\ sacrifice' = -1.
Proof.
  intros Hb Hk Hc wants Hw Hmax. destruct (plan_slots_ok rs sacrifice Hb) as [Hok Hn].
  assert (Hlk : forall i r, rs !! i = Some r ->
            plan_slots rs sacrifice !! i = Some (plan_slot rs sacrifice i r)).
  { intros i r Hr. unfold plan_slots. by rewrite list_lookup_imap, Hr. }
  assert (Hcons : forall i r, considered (plan_slot rs sacrifice i r) = false).
  { intros i r. unfold plan_slot. destruct (completed r); [done|].
    destruct (get_robot_target r), (get_next_position _ _ _). done. }
  destruct (accept_loop_longest (length rs) rs waits (plan_slots rs sacrifice) k rb
              (plan_slot rs sacrifice k rb)) as (s & Hs & Ha); try done.
  { unfold todo. etrans; [apply length_filter|]. by rewrite length_seq. }
  { by apply Hlk. }
  { split; [by rewrite (Hlk _ _ Hk); apply Hcons | by rewrite Hk]. }
  { intros i s [_ Hi] Hs Hah. destruct (decide (desired_cmd s = 0)) as [|Hne]; [done|].
    exfalso. unfold plan_slots in Hs. rewrite list_lookup_imap in Hs.
    apply fmap_Some in Hs as (r & Hr & ->). rewrite Hr in Hi. simpl in Hi.
    destruct (Hmax i r Hr Hi Hne) as [?|[? ?]]; destruct Hah as [?|[? ?]];
      unfold wait_of in *; lia. }
  unfold decide_moves.
  pose proof (accept_loop_ok (length rs) rs waits (plan_slots rs sacrifice) 0 Hok) as Hl.
  destruct (accept_loop _ _ _ _ _) as [slots count]. simpl in Hs.
  destruct Hl as (_ & Hc0 & Hn'); [lia|done|].
  assert (count <> 0) as Hcount by (intros ->; by rewrite (Hn' eq_refl _ _ Hs) in Ha).
  unfold resolve_deadlock. rewrite (proj2 (Z.eqb_neq _ _) Hcount).
  rewrite (proj2 (Z.ltb_lt _ _)) by lia. eauto.
Qed.

(** the deadlock victim.  A chosen victim is an unfinished robot; the
    direction it is sent to is free and does not bring it nearer to its target;
    the previous victim is kept while it can escape, and a new one is the first of
    the longest waiting robots that can. *)
Theorem deadlock_victim_escapes rs slots waits sacrifice v dir sacrifice' :
  choose_deadlock_victim rs slots waits sacrifice = (v, dir, sacrifice') ->
  v <> -1 -> dir <> 0 ->
  exists k rb, v = Z.of_nat k /\ rs !! k = Some rb /\ completed rb = false /\
    sacrifice' = v /\ 1 <= dir <= 4 /\
    (let '(nr, nc) := get_next_position (row rb) (col rb) dir in
     let sl := default slot0 (slots !! k) in
     is_blocked_cell rs rb nr nc = false /\
     get_distance (row rb) (col rb) (target_row sl) (target_col sl) <=
       get_distance nr nc (target_row sl) (target_col sl)) /\
    (v = sacrifice \/
     exists w, first_max (victim_score rs slots waits) 0 (length rs) k w).
Proof.
  intros E Hv Hd.
  destruct (choose_deadlock_victim_spec _ _ _ _ _ _ _ E Hv Hd) as
    (k & rb & Hvk & Hrb & Hcomp & Hdir & Hsac).
  exists k, rb. destruct (escape_of_free rs slots k rb Hrb) as [Hrange _]; [congruence|].
  split_and!; try done; [lia..| |].
  - subst dir. unfold escape_of in *. rewrite Hrb in *. simpl in *.
    edestruct escape_direction_spec as [[E0 _]|(d & s & Ed & _ & Hs & _)]; [by rewrite E0 in Hd|].
    rewrite Ed. apply escape_score_free in Hs. exact Hs.
  - unfold choose_deadlock_victim in E.
    assert (choose_new_victim rs slots waits = (v, dir, sacrifice') -> v = sacrifice \/
      exists w, first_max (victim_score rs slots waits) 0 (length rs) k w) as Hnew.
    { intros E'. right. pose proof (choose_new_victim_spec rs slots waits) as Hs.
      rewrite E' in Hs. destruct Hs as (_ & [(? & _)|(k' & w & Hk' & _ & Hm)]); [done|].
      replace k with k' by lia. eauto. }
    destruct_if; [|auto]. destruct_if; [|auto]. left. congruence.
Qed.

(** *** Witnesses *)

Lemma batch_moves_safe_witness :
  let rs := [robot_4B; robot_on_4] in
  let slots := (decide_moves rs [0; 0] (-1)).1 in
  length slots = length rs /\
  (forall i rb a, rs !! i = Some rb -> slots !! i = Some a -> accepted a = true ->
     completed rb = false /\ 1 <= desired_cmd a <= 4 /\
     next_cell a = get_next_position (row rb) (col rb) (desired_cmd a) /\
     is_blocked_cell rs rb (next_row a) (next_col a) = false) /\
  (forall i j a b rb, i <> j -> slots !! i = Some a -> slots !! j = Some b ->
     rs !! j = Some rb -> accepted a = true ->
     (is_shared_place (next_row a) (next_col a) = false ->
        next_cell a <> (row rb, col rb)) /\
     (accepted b = true ->
        cur_cell a <> cur_cell b /\ cur_cell a <> next_cell b /\
        next_cell a <> cur_cell b /\ next_cell a <> next_cell b)).
Proof.
  apply (batch_moves_safe [robot_4B; robot_on_4] [0; 0] (-1)).
  repeat constructor; compute; intuition congruence.
Defined.

Lemma longest_waiting_robot_moves_witness :
  let '(slots, sacrifice') := decide_moves [robot_4B] [0] (-1) in
  (exists s, slots !! 0%nat = Some s /\ accepted s = true) /\ sacrifice' = -1.
Proof.
  apply (longest_waiting_robot_moves [robot_4B] [0] (-1) 0 robot_4B).
  - repeat constructor; compute; intuition congruence.
  - reflexivity.
  - reflexivity.
  - vm_compute. discriminate.
  - intros [|i] r Hr _ _; [|discriminate]. right. split; [reflexivity | lia].
Defined.

(** Three robots that block each other: one leaves item 4, one waits for it in
    the aisle, and one stands between them. *)
Definition jammed : list robot :=
  [setRobot None 4 (ch "B") 2 4 4 4 0; setRobot None 4 (ch "A") 5 4 4 0 0;
   setRobot None 2 (ch "A") 3 5 2 0 0].

Lemma deadlock_victim_escapes_witness :
  let slots := plan_slots jammed (-1) in
  exists k rb, 1 = Z.of_nat k /\ jammed !! k = Some rb /\ completed rb = false /\
    1 = 1 /\ 1 <= 4 <= 4 /\
    (let '(nr, nc) := get_next_position (row rb) (col rb) 4 in
     let sl := default slot0 (slots !! k) in
     is_blocked_cell jammed rb nr nc = false /\
     get_distance (row rb) (col rb) (target_row sl) (target_col sl) <=
       get_distance nr nc (target_row sl) (target_col sl)) /\
    (1 = -1 \/
     exists w, first_max (victim_score jammed slots [2; 3; 0]) 0 (length jammed) k w).
Proof.
  apply (deadlock_victim_escapes jammed (plan_slots jammed (-1)) [2; 3; 0] (-1) 1 4 1).
  - vm_compute. reflexivity.
  - discriminate.
  - discriminate.
Defined.
