(* ===== verification/AwSim.v ===== *)
(** The simulator: the central control thread and the robot threads over their
    shared state (automated_warehouse.c, aw_thread.c). *)

From S2P Require Import Prelude Warehouse AwPath AwMessage AwCentral.

(** Where a robot thread is: not started yet, waiting in [block_thread], or
    unblocked and about to read its command. *)
Inductive phase := NotStarted | Blocked | Unblocked.
#[export] Instance phase_eq_dec : EqDecision phase.
Proof. solve_decision. Defined.

(** The global variables of the simulator.  [phases] and [blocked_threads]
    stand for the scheduler's view of the robot threads; [timeout] is the local
    variable of the central control thread that counts its polls. *)
Record aw := mkAw {
  robots : list robot;
  mail : boxes;
  wait_steps : list Z;
  sacrifice_robot_idx : Z;
  step : Z;
  phases : list phase;
  blocked_threads : list nat;
  powered_off : bool;
  timeout : Z
}.

(** *** The central control thread *)

(** [robots[i].row = msg.row; ...] *)
Definition store_message (rb : robot) (m : message) : robot :=
  mkRobot (name rb) (required_item rb) (destination rb) (msg_row m) (msg_col m)
    (msg_required_payload m) (msg_current_payload m) (msg_completed m).

Definition collect (b : boxes) (rs : list robot) : list robot :=
  imap (fun i rb => store_message rb (receive_message_from_robot b i)) rs.

Definition all_ready (b : boxes) (n_robots : nat) : bool :=
  forallb (fun i => negb (is_message_from_robot_ready b i =? 0)) (seq 0 n_robots).

Definition all_completed (rs : list robot) : bool :=
  forallb (fun rb => negb ((task_completed rb =? 0) || negb (current_payload rb =? 0))) rs.

Definition send_waits (b : boxes) (n_robots : nat) : boxes :=
  foldl (fun b i => send_command_to_robot b i 0) b (seq 0 n_robots).

Definition send_moves (b : boxes) (slots : list slot) : boxes :=
  foldl (fun b i =>
           let s := default slot0 (slots !! i) in
           if accepted s then send_command_to_robot b i (desired_cmd s) else b)
    b (seq 0 (length slots)).

(** [unblock_threads] empties the list of blocked threads. *)
Definition unblock_threads (blocked : list nat) (ph : list phase) : list phase :=
  foldl (fun ph i => <[i := Unblocked]> ph) ph blocked.

(** One iteration of the [while (1)] loop, from the collection of the messages
    to the call of [unblock_threads] and the reset of [timeout] that follows. *)
Definition central_iteration (s : aw) : aw :=
  let rs := collect (mail s) (robots s) in
  if all_completed rs then
    mkAw rs (mail s) (wait_steps s) (sacrifice_robot_idx s) (step s) (phases s)
      (blocked_threads s) true (timeout s)
  else
    let b := send_waits (mail s) (length rs) in
    let '(slots, sacrifice) := decide_moves rs (wait_steps s) (sacrifice_robot_idx s) in
    let b := send_moves b slots in
    mkAw rs b (next_waits rs slots (wait_steps s)) sacrifice (u32 (step s + 1))
      (unblock_threads (blocked_threads s) (phases s)) [] false 0.

(** *** The robot threads *)

(** The status message; its [cmd] field is not set by the robot, nor read by the
    central control thread. *)
Definition report (rb : robot) : message :=
  mkMessage (row rb) (col rb) (current_payload rb) (required_payload rb)
    (task_completed rb) 0.

(** [block_thread]: the thread enters the list of blocked threads. *)
Definition block_thread (i : nat) (s : aw) : aw :=
  mkAw (robots s) (mail s) (wait_steps s) (sacrifice_robot_idx s) (step s)
    (<[i := Blocked]> (phases s)) (blocked_threads s ++ [i]) (powered_off s) (timeout s).

Definition with_mail (s : aw) (b : boxes) : aw :=
  mkAw (robots s) b (wait_steps s) (sacrifice_robot_idx s) (step s) (phases s)
    (blocked_threads s) (powered_off s) (timeout s).
Definition with_robot (s : aw) (i : nat) (rb : robot) : aw :=
  mkAw (<[i := rb]> (robots s)) (mail s) (wait_steps s) (sacrifice_robot_idx s) (step s)
    (phases s) (blocked_threads s) (powered_off s) (timeout s).

Definition robot_send (i : nat) (s : aw) : aw :=
  let rb := default robot0 (robots s !! i) in
  with_mail s (send_message_to_central (mail s) i (report rb)).

(** Picking the item up, or delivering it. *)
Definition load_unload (rb : robot) : robot :=
  let '(item_row, item_col) := get_item_position (s8 (required_item rb + ch "0")) in
  let '(dest_row, dest_col) := get_destination_position (destination rb) in
  if (current_payload rb =? 0) && (row rb =? item_row) && (col rb =? item_col)
  then set_payload rb (required_payload rb)
  else if (0 <? current_payload rb) && (row rb =? dest_row) && (col rb =? dest_col)
       then set_completed (set_payload rb 0) 1
       else rb.

(** The work of a robot on a received command.  The positions of its item and of
    its destination, local variables of the thread, depend on fields that no
    thread writes. *)
Definition robot_act (rs : list robot) (rb : robot) (cmd : Z) : robot :=
  if negb (task_completed rb =? 0) then rb
  else
    load_unload
      (if negb (cmd =? 0) then move_robot_one_step_by_direction rs rb cmd else rb).

(** From the start of the thread to its first [block_thread]. *)
Definition robot_start (i : nat) (s : aw) : aw :=
  let rb := default robot0 (robots s !! i) in
  block_thread i (robot_send i (with_robot s i (set_completed rb 0))).

(** From the return of [block_thread] to the next [block_thread]. *)
Definition robot_round (i : nat) (s : aw) : aw :=
  let cmd := receive_command_from_central (mail s) i in
  let s := with_mail s (clear_message_box (mail s) i 1) in
  let rb := default robot0 (robots s !! i) in
  let s := with_robot s i (robot_act (robots s) rb cmd) in
  let s := with_mail s (clear_message_box (mail s) i 0) in
  block_thread i (robot_send i s).

(** *** The initial state and the lock-step run *)

Definition aw_init (rs : list robot) : aw :=
  mkAw rs (init_message_boxes (length rs)) (replicate (length rs) 0) (-1) 0
    (replicate (length rs) NotStarted) [] false 0.

Definition start_all (s : aw) : aw :=
  foldl (fun s i => robot_start i s) s (seq 0 (length (robots s))).

Definition run_robots (order : list nat) (s : aw) : aw :=
  foldl (fun s i => robot_round i s) s order.

(** Central iteration, then every robot in the order it was blocked in. *)
Fixpoint lockstep (fuel : nat) (s : aw) : aw :=
  match fuel with
  | O => s
  | S fuel' =>
      let order := blocked_threads s in
      let s := central_iteration s in
      if powered_off s then s else lockstep fuel' (run_robots order s)
  end.

(** *** Every interleaving

    A robot thread runs from one call of [block_thread] to the next, the central
    control thread from one [timer_sleep] to the next; [aw_step] interleaves these
    runs in any order.  The central control thread polls the messages up to 100
    times, and goes on when all are ready or when it has given up. *)

Definition MAX_POLLS : Z := 100.

(** A pass of [while (!all_ready && timeout < 100)] that finds a message missing:
    [timer_sleep (10); timeout++]. *)
Definition poll (s : aw) : aw :=
  mkAw (robots s) (mail s) (wait_steps s) (sacrifice_robot_idx s) (step s) (phases s)
    (blocked_threads s) (powered_off s) (timeout s + 1).

Inductive aw_step : aw -> aw -> Prop :=
| step_start i s :
    powered_off s = false -> phases s !! i = Some NotStarted -> aw_step s (robot_start i s)
| step_robot i s :
    powered_off s = false -> phases s !! i = Some Unblocked -> aw_step s (robot_round i s)
| step_poll s :
    powered_off s = false -> timeout s < MAX_POLLS ->
    all_ready (mail s) (length (robots s)) = false -> aw_step s (poll s)
| step_central s :
    powered_off s = false ->
    all_ready (mail s) (length (robots s)) = true \/ MAX_POLLS <= timeout s ->
    aw_step s (central_iteration s).

(** ** Specification *)

(** A robot carries nothing or its whole item, and is done only at its
    destination with nothing left to carry. *)
Definition task_ok (rb : robot) : Prop :=
  (current_payload rb = 0 \/ current_payload rb = required_payload rb) /\
  (completed rb = true ->
     current_payload rb = 0 /\ (row rb, col rb) = get_destination_position (destination rb)).

Definition robot_ok (rb : robot) : Prop := well_placed rb /\ task_ok rb.

(** A robot as [parse_robot_tasks] leaves it: at the waiting place, empty. *)
Definition fresh (rb : robot) : Prop :=
  row rb = ROW_W /\ col rb = COL_W /\ current_payload rb = 0 /\ task_completed rb = 0.

(** The message of a robot that has started is what the shared array says. *)
Definition mail_ok (ph : phase) (rb : robot) (b : message_box) : Prop :=
  match ph with
  | NotStarted => dirtyBit b = 0
  | _ => b = mkBox 1 (report rb)
  end.

Record aw_inv (s : aw) : Prop := {
  ai_central : length (boxes_from_central_control_node (mail s)) = length (robots s);
  ai_mail_len : length (boxes_from_robots (mail s)) = length (robots s);
  ai_phases : length (phases s) = length (robots s);
  ai_robots : Forall robot_ok (robots s);
  ai_free : collision_free (robots s);
  ai_mail : forall i rb b ph, robots s !! i = Some rb ->
    boxes_from_robots (mail s) !! i = Some b -> phases s !! i = Some ph -> mail_ok ph rb b;
  ai_start : forall i rb, robots s !! i = Some rb -> phases s !! i = Some NotStarted -> fresh rb;
  ai_blocked : forall i, i ∈ blocked_threads s -> phases s !! i = Some Blocked
}.

(** The central control thread is done with its 100 polls, ten timer ticks each, and
    about to go on, while some robot thread has not run at all. *)
Definition gave_up (s : aw) : Prop :=
  MAX_POLLS <= timeout s /\ exists i, phases s !! i = Some NotStarted.

(** A run from [rs] to [s] on which the central control thread gave up, which it can
    only do in its first iteration. *)
Definition gave_up_before (rs : list robot) (s : aw) : Prop :=
  exists s0, rtc aw_step (aw_init rs) s0 /\ gave_up s0 /\ step s0 = 0 /\ rtc aw_step s0 s.

(** ** Lemmas *)

Lemma store_report rb : store_message rb (report rb) = rb.
Proof. by destruct rb. Qed.

Lemma load_unload_pos rb : row (load_unload rb) = row rb /\ col (load_unload rb) = col rb.
Proof.
  unfold load_unload. destruct (get_item_position _), (get_destination_position _).
  repeat destruct_if; done.
Qed.

Lemma load_unload_item rb : required_item (load_unload rb) = required_item rb.
Proof.
  unfold load_unload. destruct (get_item_position _), (get_destination_position _).
  repeat destruct_if; done.
Qed.

Lemma load_unload_task rb :
  task_completed rb = 0 -> (current_payload rb = 0 \/ current_payload rb = required_payload rb) ->
  task_ok (load_unload rb).
Proof.
  intros Ht Hp. unfold load_unload, task_ok, completed.
  destruct (get_item_position _) as [ir ic].
  destruct (get_destination_position (destination rb)) as [r c] eqn:Ed.
  destruct_if; [|destruct_if]; simpl.
  - split; [by right|]. by rewrite Ht.
  - reflect_bools. split; [by left|]. intros _. split; [done|]. rewrite Ed. congruence.
  - split; [done|]. by rewrite Ht.
Qed.

Lemma get_next_position_self r c dir :
  ~ (1 <= dir <= 4) -> get_next_position r c dir = (r, c).
Proof. intros H. unfold get_next_position. by case_cmp. Qed.

(** A move keeps every field but the position, which changes only to a free cell. *)
Lemma move_robot_cases rs rb dir :
  let rb' := move_robot_one_step_by_direction rs rb dir in
  rb' = rb \/
  (exists r c, rb' = set_pos rb r c /\ is_blocked_cell rs rb r c = false).
Proof.
  unfold move_robot_one_step_by_direction. destruct (dir =? 0); [by left|].
  destruct (get_next_position _ _ _) as [r c].
  destruct (is_blocked_cell rs rb r c) eqn:E; [by left|]. right. eauto.
Qed.

Lemma robot_act_ok rs rb cmd : robot_ok rb -> robot_ok (robot_act rs rb cmd).
Proof.
  intros [Hw Ht]. unfold robot_act. destruct_if; [done|]. reflect_bools.
  destruct Ht as [Hpay _].
  assert (Hmv : forall rb', rb' = rb \/ (exists r c, rb' = set_pos rb r c /\
             is_blocked_cell rs rb r c = false) -> robot_ok (load_unload rb')).
  { intros rb' Hrb'. destruct (load_unload_pos rb') as [Er Ec].
    pose proof (load_unload_item rb') as Ei. split.
    - unfold well_placed. rewrite Er, Ec, Ei. destruct Hrb' as [->|(r & c & -> & Hb)]; [done|].
      simpl. apply not_blocked_inv in Hb as (? & ? & _ & Hitem). split_and!; [done..|].
      intros Hc. by apply Hitem.
    - apply load_unload_task; destruct Hrb' as [->|(r & c & -> & _)]; done. }
  apply Hmv. destruct_if; [apply move_robot_cases | by left].
Qed.

Lemma robot_act_pos rs rb cmd :
  let rb' := robot_act rs rb cmd in
  (row rb' = row rb /\ col rb' = col rb) \/ is_blocked_cell rs rb (row rb') (col rb') = false.
Proof.
  unfold robot_act. destruct_if; [by left|].
  destruct (load_unload_pos (if negb (cmd =? 0)
     then move_robot_one_step_by_direction rs rb cmd else rb)) as [-> ->].
  destruct_if; [|by left].
  destruct (move_robot_cases rs rb cmd) as [->|(r & c & -> & ?)]; [by left|by right].
Qed.

Lemma collision_free_act rs i rb cmd :
  collision_free rs -> rs !! i = Some rb -> collision_free (<[i := robot_act rs rb cmd]> rs).
Proof.
  intros Hf Hi.
  assert (Hone : forall j b, j <> i -> rs !! j = Some b ->
    row (robot_act rs rb cmd) = row b -> col (robot_act rs rb cmd) = col b ->
    is_shared_place (row b) (col b) = true).
  { intros j b Hj Hb Er Ec. destruct (robot_act_pos rs rb cmd) as [[Er' Ec']|Hnb].
    - rewrite <- Er, <- Ec, Er', Ec'. apply (Hf i j rb b); congruence.
    - apply not_blocked_inv in Hnb as (_ & _ & Hocc & _). rewrite <- Er, <- Ec.
      apply (Hocc b); [by eapply list_elem_of_lookup_2|done]. }
  intros j k a b Hjk Ha Hb Er Ec.
  destruct (decide (j = i)) as [->|], (decide (k = i)) as [->|]; try done.
  - rewrite list_lookup_insert_eq in Ha by (by eapply lookup_lt_Some).
    rewrite list_lookup_insert_ne in Hb by done. injection Ha as <-.
    rewrite Er, Ec. by apply (Hone k).
  - rewrite list_lookup_insert_ne in Ha by done.
    rewrite list_lookup_insert_eq in Hb by (by eapply lookup_lt_Some). injection Hb as <-.
    by apply (Hone j).
  - rewrite list_lookup_insert_ne in Ha, Hb by done. by apply (Hf j k a b).
Qed.

(** Replacing robot [i] by a robot with the same position. *)
Lemma collision_free_same_pos rs i rb rb' :
  collision_free rs -> rs !! i = Some rb -> row rb' = row rb -> col rb' = col rb ->
  collision_free (<[i := rb']> rs).
Proof.
  intros Hf Hi Er Ec j k a b Hjk Ha Hb.
  assert (Hpos : forall j a, <[i := rb']> rs !! j = Some a ->
     exists a', rs !! j = Some a' /\ row a = row a' /\ col a = col a').
  { intros j' a' Ha'. destruct (decide (j' = i)) as [->|].
    - rewrite list_lookup_insert_eq in Ha' by (by eapply lookup_lt_Some). simplify_eq. eauto.
    - rewrite list_lookup_insert_ne in Ha' by done. eauto. }
  destruct (Hpos _ _ Ha) as (a' & Ha' & -> & ->). destruct (Hpos _ _ Hb) as (b' & Hb' & -> & ->).
  by apply (Hf j k).
Qed.

Lemma collect_id s :
  aw_inv s -> all_ready (mail s) (length (robots s)) = true ->
  collect (mail s) (robots s) = robots s.
Proof.
  intros I Hr. apply list_eq. intros i. unfold collect. rewrite list_lookup_imap.
  destruct (robots s !! i) as [rb|] eqn:Hrb; [|done]. simpl. f_equal.
  apply lookup_lt_Some in Hrb as Hlt.
  destruct (lookup_lt_is_Some_2 (boxes_from_robots (mail s)) i) as [b Hb].
  { rewrite (ai_mail_len s I). lia. }
  destruct (lookup_lt_is_Some_2 (phases s) i) as [ph Hph].
  { rewrite (ai_phases s I). lia. }
  pose proof (ai_mail s I i rb b ph Hrb Hb Hph) as Hm.
  unfold all_ready in Hr. rewrite forallb_forall in Hr.
  specialize (Hr i). rewrite in_seq in Hr. specialize (Hr ltac:(lia)).
  unfold is_message_from_robot_ready in Hr. unfold receive_message_from_robot.
  rewrite Hb in *. simpl in *. reflect_bools.
  destruct ph; simpl in Hm; [done|subst; apply store_report..].
Qed.

(** The central control thread leaves the robots' boxes alone, and never
    changes the number of boxes. *)
Lemma send_command_frame b i cmd :
  boxes_from_robots (send_command_to_robot b i cmd) = boxes_from_robots b /\
  length (boxes_from_central_control_node (send_command_to_robot b i cmd)) =
    length (boxes_from_central_control_node b).
Proof. simpl. by rewrite length_alter. Qed.

Lemma send_waits_frame b n :
  boxes_from_robots (send_waits b n) = boxes_from_robots b /\
  length (boxes_from_central_control_node (send_waits b n)) =
    length (boxes_from_central_control_node b).
Proof.
  unfold send_waits. generalize (seq 0 n) as l. intros l. revert b.
  induction l as [|i l IH]; intros b; simpl; [done|].
  destruct (IH (send_command_to_robot b i 0)) as [-> ->]. apply send_command_frame.
Qed.

Lemma send_moves_frame b slots :
  boxes_from_robots (send_moves b slots) = boxes_from_robots b /\
  length (boxes_from_central_control_node (send_moves b slots)) =
    length (boxes_from_central_control_node b).
Proof.
  unfold send_moves. generalize (seq 0 (length slots)) as l. intros l. revert b.
  induction l as [|i l IH]; intros b; simpl; [done|].
  destruct (accepted _); [|apply IH].
  destruct (IH (send_command_to_robot b i (desired_cmd (default slot0 (slots !! i)))))
    as [-> ->]. apply send_command_frame.
Qed.

Lemma unblock_threads_spec bl ph :
  length (unblock_threads bl ph) = length ph /\
  forall i, unblock_threads bl ph !! i =
    if decide (i ∈ bl) then (fun _ => Unblocked) <$> ph !! i else ph !! i.
Proof.
  unfold unblock_threads. revert ph. induction bl as [|k bl IH]; intros ph; simpl.
  { by split. }
  destruct (IH (<[k := Unblocked]> ph)) as [Hl Hi]. split; [by rewrite Hl, length_insert|].
  intros i. rewrite Hi. destruct (decide (k = i)) as [->|Hne].
  - rewrite (decide_True (P := i ∈ i :: bl)) by left.
    destruct (ph !! i) as [x|] eqn:E.
    + rewrite list_lookup_insert_eq by (by eapply lookup_lt_Some). by destruct (decide (i ∈ bl)).
    + rewrite list_insert_ge, E by (by apply lookup_ge_None). by destruct (decide (i ∈ bl)).
  - rewrite list_lookup_insert_ne by done. apply decide_ext. rewrite elem_of_cons.
    split; [by right|by intros [->|?]].
Qed.

(** What a run of a robot thread does to the state: it replaces its robot, its
    message and its phase. *)
Record robot_effect (i : nat) (rb' : robot) (s s' : aw) : Prop := {
  re_robots : robots s' = <[i := rb']> (robots s);
  re_mail : boxes_from_robots (mail s') =
              <[i := mkBox 1 (report rb')]> (boxes_from_robots (mail s));
  re_central : length (boxes_from_central_control_node (mail s')) =
                 length (boxes_from_central_control_node (mail s));
  re_phases : phases s' = <[i := Blocked]> (phases s);
  re_blocked : blocked_threads s' = blocked_threads s ++ [i]
}.

Lemma robot_start_effect i s rb :
  robots s !! i = Some rb -> robot_effect i (set_completed rb 0) s (robot_start i s).
Proof.
  intros Hi. unfold robot_start. rewrite Hi. simpl. constructor; simpl; try done.
  by rewrite list_lookup_insert_eq by (by eapply lookup_lt_Some).
Qed.

Lemma list_insert_alter {A} (f : A -> A) (l : list A) (i : nat) (x : A) :
  <[i := x]> (alter f i l) = <[i := x]> l.
Proof.
  apply list_eq. intros j. destruct (decide (j = i)) as [->|Hne].
  - destruct (l !! i) as [y|] eqn:E.
    + apply lookup_lt_Some in E. by rewrite !list_lookup_insert_eq by (by rewrite ?length_alter).
    + by rewrite !list_insert_ge, list_lookup_alter_eq, E
        by (by rewrite ?length_alter; apply lookup_ge_None).
  - by rewrite !list_lookup_insert_ne, list_lookup_alter_ne by done.
Qed.

Lemma robot_round_effect i s rb :
  robots s !! i = Some rb ->
  robot_effect i (robot_act (robots s) rb (receive_command_from_central (mail s) i))
    s (robot_round i s).
Proof.
  intros Hi. unfold robot_round. simpl. rewrite Hi. simpl. constructor; simpl; try done.
  - rewrite list_lookup_insert_eq by (by eapply lookup_lt_Some). simpl.
    apply list_insert_alter.
  - by rewrite length_alter.
Qed.

Lemma aw_inv_effect i rb rb' s s' :
  aw_inv s -> robots s !! i = Some rb -> robot_effect i rb' s s' ->
  robot_ok rb' -> collision_free (<[i := rb']> (robots s)) -> aw_inv s'.
Proof.
  intros I Hi E Hok Hfree. pose proof (lookup_lt_Some _ _ _ Hi) as Hlt.
  destruct I, E. constructor; rewrite ?re_robots0, ?re_mail0, ?re_central0, ?re_phases0,
    ?re_blocked0, ?length_insert; try done.
  - by apply Forall_insert.
  - intros j a b ph. destruct (decide (j = i)) as [->|Hne].
    + rewrite !list_lookup_insert_eq by congruence. by intros [= <-] [= <-] [= <-].
    + rewrite !list_lookup_insert_ne by done. apply ai_mail0.
  - intros j a. destruct (decide (j = i)) as [->|Hne].
    + rewrite !list_lookup_insert_eq by congruence. done.
    + rewrite !list_lookup_insert_ne by done. apply ai_start0.
  - intros j [Hj|Hj%list_elem_of_singleton]%elem_of_app.
    + destruct (decide (j = i)) as [->|Hne].
      * by rewrite list_lookup_insert_eq by congruence.
      * rewrite list_lookup_insert_ne by done. by apply ai_blocked0.
    + subst j. by rewrite list_lookup_insert_eq by congruence.
Qed.

Lemma aw_inv_lookup s i ph :
  aw_inv s -> phases s !! i = Some ph -> exists rb, robots s !! i = Some rb.
Proof.
  intros I Hph. apply lookup_lt_is_Some_2. rewrite <- (ai_phases s I).
  by eapply lookup_lt_Some.
Qed.

Lemma aw_inv_start s i :
  aw_inv s -> phases s !! i = Some NotStarted -> aw_inv (robot_start i s).
Proof.
  intros I Hph. destruct (aw_inv_lookup s i _ I Hph) as [rb Hi].
  destruct (ai_start s I i rb Hi Hph) as (Hr & Hc & Hp & Ht).
  pose proof (Forall_lookup_1 _ _ _ _ (ai_robots s I) Hi) as [Hw Hk].
  assert (Hrb : set_completed rb 0 = rb) by (destruct rb; simpl in *; by subst).
  eapply aw_inv_effect; [done..|by apply robot_start_effect| |].
  - rewrite Hrb. by split.
  - rewrite Hrb, list_insert_id by done. apply (ai_free s I).
Qed.

Lemma aw_inv_round s i :
  aw_inv s -> phases s !! i = Some Unblocked -> aw_inv (robot_round i s).
Proof.
  intros I Hph. destruct (aw_inv_lookup s i _ I Hph) as [rb Hi].
  pose proof (Forall_lookup_1 _ _ _ _ (ai_robots s I) Hi) as Hok.
  eapply aw_inv_effect; [done..|by apply robot_round_effect| |].
  - by apply robot_act_ok.
  - apply collision_free_act; [apply (ai_free s I)|done].
Qed.

(** What an iteration of the central control thread does once the messages are
    in: the robots stay as they are, the boxes of the robots too. *)
Lemma central_iteration_frame s :
  aw_inv s -> all_ready (mail s) (length (robots s)) = true ->
  robots (central_iteration s) = robots s /\
  boxes_from_robots (mail (central_iteration s)) = boxes_from_robots (mail s) /\
  length (boxes_from_central_control_node (mail (central_iteration s))) =
    length (boxes_from_central_control_node (mail s)).
Proof.
  intros I Hr. unfold central_iteration. rewrite (collect_id s I Hr). destruct_if; [done|].
  destruct (decide_moves _ _ _) as [slots sac]. simpl.
  destruct (send_moves_frame (send_waits (mail s) (length (robots s))) slots) as [-> ->].
  destruct (send_waits_frame (mail s) (length (robots s))) as [-> ->]. done.
Qed.

Lemma central_iteration_phases s :
  aw_inv s ->
  length (phases (central_iteration s)) = length (phases s) /\
  (forall i ph, phases (central_iteration s) !! i = Some ph ->
     phases s !! i = Some ph \/ ph = Unblocked /\ phases s !! i = Some Blocked) /\
  (forall i, i ∈ blocked_threads (central_iteration s) ->
     phases (central_iteration s) !! i = Some Blocked).
Proof.
  intros I. unfold central_iteration.
  destruct_if; [simpl; split_and!; [done|by left|apply (ai_blocked s I)]|].
  destruct (decide_moves _ _ _) as [slots sac]. simpl.
  destruct (unblock_threads_spec (blocked_threads s) (phases s)) as [Hlen Hph].
  split_and!; [done| |by intros i ?%elem_of_nil].
  intros i ph. rewrite Hph. destruct (decide (i ∈ blocked_threads s)) as [Hin|]; [|by left].
  rewrite (ai_blocked s I i Hin). intros [= <-]. by right.
Qed.

Lemma aw_inv_central s :
  aw_inv s -> all_ready (mail s) (length (robots s)) = true -> aw_inv (central_iteration s).
Proof.
  intros I Hr. destruct (central_iteration_frame s I Hr) as (Er & Em & Ec).
  destruct (central_iteration_phases s I) as (Hlen & Hph & Hbl). destruct I.
  constructor; rewrite ?Er, ?Em, ?Ec, ?Hlen; try done.
  - intros i rb b ph Hi Hb [Hp|[-> Hp]]%Hph; by apply (ai_mail0 i rb b _ Hi Hb Hp).
  - intros i rb Hi [Hp|[? _]]%Hph; [by eapply ai_start0|done].
Qed.

Lemma aw_inv_init rs : Forall well_placed rs -> Forall fresh rs -> aw_inv (aw_init rs).
Proof.
  intros Hw Hf. constructor; simpl; rewrite ?length_replicate; try done.
  - eapply Forall_impl; [apply Forall_and; split; [apply Hw|apply Hf]|].
    intros rb [? (_ & _ & Hp & Ht)]. split; [done|]. split; [by left|].
    unfold completed. by rewrite Ht.
  - intros i j a b _ Ha _ _ _. destruct (Forall_lookup_1 _ _ _ _ Hf Ha) as (-> & -> & _). done.
  - intros i rb b ph _ [-> _]%lookup_replicate_1 [-> _]%lookup_replicate_1. done.
  - intros i rb Ha _. by eapply Forall_lookup_1 in Ha.
  - by intros i ?%elem_of_nil.
Qed.

(** The messages are ready when every robot thread has run. *)
Lemma all_ready_started s :
  aw_inv s -> all_ready (mail s) (length (robots s)) = true <-> NotStarted ∉ phases s.
Proof.
  intros I. unfold all_ready. rewrite forallb_forall. split.
  - intros Hr [i Hi]%list_elem_of_lookup. destruct (aw_inv_lookup s i _ I Hi) as [rb Hrb].
    apply lookup_lt_Some in Hrb as Hlt. specialize (Hr i). rewrite in_seq in Hr.
    specialize (Hr ltac:(lia)). unfold is_message_from_robot_ready in Hr.
    destruct (boxes_from_robots (mail s) !! i) as [b|] eqn:Hb; [|done].
    pose proof (ai_mail s I i rb b _ Hrb Hb Hi) as Hm. simpl in Hm, Hr. by rewrite Hm in Hr.
  - intros Hn i Hi%in_seq. unfold is_message_from_robot_ready.
    destruct (lookup_lt_is_Some_2 (boxes_from_robots (mail s)) i) as [b Hb];
      [rewrite (ai_mail_len s I); lia|].
    destruct (lookup_lt_is_Some_2 (phases s) i) as [ph Hph]; [rewrite (ai_phases s I); lia|].
    destruct (lookup_lt_is_Some_2 (robots s) i) as [rb Hrb]; [lia|].
    pose proof (ai_mail s I i rb b ph Hrb Hb Hph) as Hm. rewrite Hb.
    destruct ph; simpl in Hm; [|by subst b..]. destruct Hn. by eapply list_elem_of_lookup_2.
Qed.

(** The state of a run on which the central control thread has not given up. *)
Definition on_time (s : aw) : Prop :=
  aw_inv s /\ (NotStarted ∈ phases s -> step s = 0) /\
  (powered_off s = true -> all_completed (robots s) = true).

Lemma on_time_central s :
  aw_inv s -> all_ready (mail s) (length (robots s)) = true -> on_time (central_iteration s).
Proof.
  intros I Hr. pose proof (aw_inv_central s I Hr) as I'. split; [done|]. split.
  - intros [i Hi]%list_elem_of_lookup. apply (all_ready_started s I) in Hr. destruct Hr.
    destruct (central_iteration_phases s I) as (_ & Hph & _).
    destruct (Hph i _ Hi) as [H|[? _]]; [by eapply list_elem_of_lookup_2|done].
  - unfold central_iteration. destruct_if; [done|]. by destruct (decide_moves _ _ _).
Qed.

Lemma started_less i ph s :
  phases (block_thread i s) = <[i := Blocked]> (phases s) ->
  ph ∈ phases (block_thread i s) -> ph = Blocked \/ ph ∈ phases s.
Proof.
  intros -> [j Hj]%list_elem_of_lookup. destruct (decide (j = i)) as [->|Hne].
  - left. by apply list_lookup_insert_Some in Hj as [(_ & -> & _)|(? & _)].
  - right. rewrite list_lookup_insert_ne in Hj by done. by eapply list_elem_of_lookup_2.
Qed.

Lemma on_time_step s s' : on_time s -> aw_step s s' -> gave_up s \/ on_time s'.
Proof.
  intros (I & H0 & Hp) Hst. destruct Hst as [i s Ho Hi|i s Ho Hi|s Ho Hl Hr|s Ho Hr].
  - right. split; [by apply aw_inv_start|]. split; [|unfold robot_start; simpl; congruence].
    intros [?|?]%started_less; [done|by apply H0|done].
  - right. split; [by apply aw_inv_round|]. split; [|unfold robot_round; simpl; congruence].
    intros [?|?]%started_less; [done|by apply H0|done].
  - right. split; [by destruct I|done].
  - destruct (all_ready (mail s) (length (robots s))) eqn:Er; [right; by apply on_time_central|].
    destruct Hr as [|Hl]; [done|]. left. split; [done|].
    destruct (decide (NotStarted ∈ phases s)) as [Hn|Hn]; [by apply list_elem_of_lookup|].
    apply (all_ready_started s I) in Hn. congruence.
Qed.

Lemma on_time_reachable rs s :
  Forall well_placed rs -> Forall fresh rs -> rtc aw_step (aw_init rs) s ->
  gave_up_before rs s \/ on_time s.
Proof.
  intros Hw Hf Hr. revert s Hr. apply rtc_ind_r.
  - right. split; [by apply aw_inv_init|done].
  - intros s s' Hr Hst [(s0 & H0 & Hg & Es & H1)|Ht].
    { left. exists s0. split_and!; [done..|]. by eapply rtc_r. }
    destruct (on_time_step s s' Ht Hst) as [Hg|]; [left|by right].
    exists s. split_and!; [done..| |by apply rtc_once].
    apply Ht. destruct Hg as (_ & i & Hi). by eapply list_elem_of_lookup_2.
Qed.

(** ** The round: one central iteration, then every robot *)

Section commands.

Lemma receive_send_command b i j cmd :
  (i < length (boxes_from_central_control_node b))%nat ->
  receive_command_from_central (send_command_to_robot b j cmd) i =
    if decide (i = j) then cmd else receive_command_from_central b i.
Proof.
  intros Hi. unfold receive_command_from_central. simpl.
  destruct (lookup_lt_is_Some_2 _ _ Hi) as [x Hx].
  destruct (decide (i = j)) as [<-|Hne].
  - by rewrite list_lookup_alter_eq, Hx.
  - by rewrite list_lookup_alter_ne by done.
Qed.

Lemma receive_send_waits b n i :
  (i < n)%nat -> (i < length (boxes_from_central_control_node b))%nat ->
  receive_command_from_central (send_waits b n) i = 0.
Proof.
  intros Hn. unfold send_waits.
  assert (Hin : i ∈ seq 0 n \/ receive_command_from_central b i = 0)
    by (left; apply elem_of_seq; lia).
  revert b Hin. generalize (seq 0 n) as l. intros l.
  induction l as [|j l IH]; intros b Hin Hb; simpl; [by destruct Hin as [?%elem_of_nil|]|].
  apply IH; [|simpl; by rewrite length_alter].
  rewrite receive_send_command by done. destruct (decide (i = j)); [by right|].
  destruct Hin as [[?|?]%elem_of_cons|?]; [done|by left|by right].
Qed.

Definition command (s : slot) : Z := if accepted s then desired_cmd s else 0.

Lemma receive_send_moves b slots i s :
  (i < length (boxes_from_central_control_node b))%nat ->
  receive_command_from_central b i = 0 -> slots !! i = Some s ->
  receive_command_from_central (send_moves b slots) i = command s.
Proof.
  intros Hb H0 Hs. unfold send_moves.
  assert (Hin : (i ∈ seq 0 (length slots) /\ receive_command_from_central b i = 0) \/
            receive_command_from_central b i = command s).
  { left. split; [|done]. apply elem_of_seq. apply lookup_lt_Some in Hs. lia. }
  clear H0. revert b Hin Hb. generalize (seq 0 (length slots)) as l.
  induction l as [|j l IH]; intros b Hin Hb; simpl; [by destruct Hin as [[?%elem_of_nil _]|]|].
  destruct (decide (i = j)) as [<-|Hne].
  - rewrite Hs. simpl. destruct (accepted s) eqn:Ea.
    + apply IH; [|simpl; by rewrite length_alter]. right. unfold command. rewrite Ea.
      rewrite receive_send_command by done. by rewrite decide_True.
    + apply IH; [|done]. right. unfold command in *. rewrite Ea in *.
      by destruct Hin as [[_ ?]|?].
  - assert (Hin' : i ∈ l /\ receive_command_from_central b i = 0 \/
              receive_command_from_central b i = command s).
    { destruct Hin as [[[?|?]%elem_of_cons ?]|?]; [done|by left|by right]. }
    destruct (accepted _); [|by apply IH].
    apply IH; [|simpl; by rewrite length_alter].
    rewrite receive_send_command by done. by rewrite decide_False.
Qed.

(** Every robot finds the command decided for it. *)
Lemma commands_delivered b slots i s :
  length slots = length (boxes_from_central_control_node b) -> slots !! i = Some s ->
  receive_command_from_central (send_moves (send_waits b (length slots)) slots) i = command s.
Proof.
  intros Hl Hs. assert (i < length slots)%nat by (by eapply lookup_lt_Some).
  assert (i < length (boxes_from_central_control_node b))%nat by congruence.
  apply receive_send_moves; [|apply receive_send_waits; lia|done].
  by rewrite (proj2 (send_waits_frame _ _)).
Qed.

End commands.

(** The state between two rounds: every robot thread is blocked. *)
Record synced (s : aw) : Prop := {
  sy_inv : aw_inv s;
  sy_run : powered_off s = false;
  sy_blocked : blocked_threads s ≡ₚ seq 0 (length (robots s))
}.

(** What the round makes of robot [i]: the move decided for it is carried out,
    then it loads or unloads. *)
Definition round_result (slots : list slot) (i : nat) (rb : robot) : robot :=
  let s := default slot0 (slots !! i) in
  if completed rb then rb
  else load_unload (if accepted s then set_pos rb (next_row s) (next_col s) else rb).

Section round.
Variables (rs : list robot) (slots : list slot).
Hypothesis batch : batch_ok rs slots.

(** The robots after those of [dn] have run. *)
Definition partial_round (dn : list nat) : list robot :=
  imap (fun i rb => if decide (i ∈ dn) then round_result slots i rb else rb) rs.

Lemma partial_round_lookup dn i :
  partial_round dn !! i =
    (fun rb => if decide (i ∈ dn) then round_result slots i rb else rb) <$> rs !! i.
Proof. unfold partial_round. by rewrite list_lookup_imap. Qed.

Lemma round_result_pos i rb s :
  rs !! i = Some rb -> slots !! i = Some s ->
  (row (round_result slots i rb), col (round_result slots i rb)) =
    if accepted s then next_cell s else (row rb, col rb).
Proof.
  intros Hi Hs. unfold round_result. rewrite Hs. simpl.
  destruct (completed rb) eqn:Ec.
  - destruct (accepted s) eqn:Ea; [|done].
    pose proof (bo_cmd _ _ batch i s Hs Ea) as Hc.
    destruct (bo_move _ _ batch i rb s Hi Hs Hc) as [? _]. congruence.
  - destruct (load_unload_pos (if accepted s then set_pos rb (next_row s) (next_col s) else rb))
      as [-> ->]. by destruct (accepted s).
Qed.

(** The cell of an accepted move is still free when the robot runs. *)
Lemma partial_round_free dn i rb s :
  rs !! i = Some rb -> slots !! i = Some s -> accepted s = true -> i ∉ dn ->
  is_blocked_cell (partial_round dn) rb (next_row s) (next_col s) = false.
Proof.
  intros Hi Hs Ha Hn.
  destruct (bo_move _ _ batch i rb s Hi Hs (bo_cmd _ _ batch i s Hs Ha)) as (_ & _ & _ & Hf).
  apply not_blocked_inv in Hf as (Hb & HX & Hocc & Hitem). simpl in *.
  apply not_blocked_intro; [done..| |done].
  intros rb' [j Hj]%list_elem_of_lookup [Er Ec]. rewrite partial_round_lookup in Hj.
  destruct (rs !! j) as [rb0|] eqn:Hj0; [|done]. simpl in Hj. injection Hj as Hj.
  assert (Hin : rb0 ∈ rs) by (by eapply list_elem_of_lookup_2).
  destruct (decide (j ∈ dn)) as [Hd|]; [|subst rb'; by apply (Hocc rb0)].
  destruct (lookup_lt_is_Some_2 slots j) as [t Ht].
  { rewrite (bo_len _ _ batch). by eapply lookup_lt_Some. }
  pose proof (round_result_pos j rb0 t Hj0 Ht) as Hp. rewrite Hj, Er, Ec in Hp.
  destruct (accepted t) eqn:Eat; [|apply (Hocc rb0); [done|by injection Hp]].
  assert (i <> j) by congruence.
  destruct (bo_pair _ _ batch i j s t ltac:(done) Hs Ht Ha) as [_ Hpair].
  by destruct (Hpair Eat) as (_ & _ & _ & []).
Qed.

(** So the robot does what was decided for it. *)
Lemma robot_act_decided dn i rb s :
  rs !! i = Some rb -> slots !! i = Some s -> i ∉ dn ->
  robot_act (partial_round dn) rb (command s) = round_result slots i rb.
Proof.
  intros Hi Hs Hn. unfold robot_act, round_result, command. rewrite Hs. simpl.
  fold (completed rb). destruct (completed rb) eqn:Ec; [done|].
  destruct (accepted s) eqn:Ea; [|done].
  pose proof (bo_cmd _ _ batch i s Hs Ea) as Hc.
  destruct (bo_move _ _ batch i rb s Hi Hs Hc) as (_ & _ & Hnext & _).
  destruct (desired_cmd s =? 0) eqn:E; [reflect_bools; done|]. simpl. f_equal.
  unfold move_robot_one_step_by_direction. rewrite E, <- Hnext. unfold next_cell.
  by rewrite (partial_round_free dn i rb s).
Qed.

End round.

(** The middle of a round, after the robots of [dn] have run. *)
Record mid_round (rs : list robot) (slots : list slot) (dn : list nat) (s : aw) : Prop := {
  mr_inv : aw_inv s;
  mr_run : powered_off s = false;
  mr_robots : robots s = partial_round rs slots dn;
  mr_cmd : forall i sl, slots !! i = Some sl ->
    receive_command_from_central (mail s) i = command sl;
  mr_phase : forall i, (i < length rs)%nat -> i ∉ dn -> phases s !! i = Some Unblocked;
  mr_blocked : blocked_threads s = dn
}.

Lemma robot_round_commands i j s :
  receive_command_from_central (mail (robot_round i s)) j =
  receive_command_from_central (mail s) j.
Proof.
  unfold robot_round, receive_command_from_central. simpl.
  destruct (decide (i = j)) as [->|Hne].
  - rewrite list_lookup_alter_eq. by destruct (_ !! j).
  - by rewrite list_lookup_alter_ne by done.
Qed.

Lemma mid_round_step rs slots dn s i :
  batch_ok rs slots -> mid_round rs slots dn s -> (i < length rs)%nat -> i ∉ dn ->
  mid_round rs slots (dn ++ [i]) (robot_round i s).
Proof.
  intros B M Hlt Hn. pose proof (mr_phase _ _ _ _ M i Hlt Hn) as Hph.
  destruct (lookup_lt_is_Some_2 rs i Hlt) as [rb Hi].
  destruct (lookup_lt_is_Some_2 slots i) as [sl Hs]; [by rewrite (bo_len _ _ B)|].
  assert (Hcur : robots s !! i = Some rb).
  { rewrite (mr_robots _ _ _ _ M), partial_round_lookup, Hi. simpl. by rewrite decide_False. }
  pose proof (robot_round_effect i s rb Hcur) as E.
  constructor.
  - apply aw_inv_round; [apply M|done].
  - apply (mr_run _ _ _ _ M).
  - rewrite (re_robots _ _ _ _ E), (mr_cmd _ _ _ _ M i sl Hs), (mr_robots _ _ _ _ M).
    rewrite (robot_act_decided rs slots B dn i rb sl) by done.
    apply list_eq. intros j. destruct (decide (j = i)) as [->|Hne].
    + rewrite list_lookup_insert_eq by (unfold partial_round; by rewrite length_imap).
      rewrite partial_round_lookup, Hi. simpl. rewrite decide_True; [done|].
      apply elem_of_app. right. by apply list_elem_of_singleton.
    + rewrite list_lookup_insert_ne, !partial_round_lookup by done.
      destruct (rs !! j); [|done]. simpl. f_equal. apply decide_ext.
      rewrite elem_of_app, list_elem_of_singleton. split; [by left|by intros [|?]].
  - intros j t Ht. rewrite robot_round_commands. by apply (mr_cmd _ _ _ _ M).
  - intros j Hj Hn'. rewrite (re_phases _ _ _ _ E).
    rewrite elem_of_app, list_elem_of_singleton in Hn'.
    rewrite list_lookup_insert_ne by naive_solver. apply (mr_phase _ _ _ _ M); naive_solver.
  - rewrite (re_blocked _ _ _ _ E). f_equal. apply M.
Qed.

Lemma mid_round_run rs slots order : forall dn s,
  batch_ok rs slots -> mid_round rs slots dn s -> NoDup (dn ++ order) ->
  Forall (fun i => (i < length rs)%nat) order ->
  mid_round rs slots (dn ++ order) (run_robots order s).
Proof.
  induction order as [|i order IH]; intros dn s B M Hnd Hlt; simpl.
  { by rewrite app_nil_r. }
  apply Forall_cons in Hlt as [Hi Hlt]. rewrite cons_middle, (assoc_L (++)) in *.
  apply IH; [done| |done|done]. apply mid_round_step; [done..|].
  apply NoDup_app in Hnd as (Hnd & _ & _). apply NoDup_app in Hnd as (_ & Hd & _).
  intros Hin. apply (Hd i Hin). by apply list_elem_of_singleton.
Qed.

Lemma run_robots_frame order s :
  wait_steps (run_robots order s) = wait_steps s /\ step (run_robots order s) = step s /\
  sacrifice_robot_idx (run_robots order s) = sacrifice_robot_idx s.
Proof.
  unfold run_robots. revert s. induction order as [|i order IH]; intros s; [done|].
  simpl. destruct (IH (robot_round i s)) as (-> & -> & ->). done.
Qed.

Lemma synced_ready s : synced s -> all_ready (mail s) (length (robots s)) = true.
Proof.
  intros S. unfold all_ready. apply forallb_forall. intros i Hi%in_seq.
  destruct (lookup_lt_is_Some_2 (robots s) i) as [rb Hrb]; [lia|].
  destruct (lookup_lt_is_Some_2 (boxes_from_robots (mail s)) i) as [b Hb].
  { rewrite (ai_mail_len s (sy_inv s S)). lia. }
  unfold is_message_from_robot_ready. rewrite Hb. simpl.
  assert (Hbl : i ∈ blocked_threads s).
  { rewrite (sy_blocked s S). apply elem_of_seq. lia. }
  pose proof (ai_blocked s (sy_inv s S) i Hbl) as Hph.
  by rewrite (ai_mail s (sy_inv s S) i rb b _ Hrb Hb Hph).
Qed.

Lemma robots_in_bounds s :
  aw_inv s -> Forall (fun rb => in_bounds (row rb) (col rb)) (robots s).
Proof.
  intros I. eapply Forall_impl; [apply (ai_robots s I)|]. by intros rb [[? _] _].
Qed.

(** The state in which the central control thread leaves the robots. *)
Lemma mid_round_start s :
  synced s -> all_completed (robots s) = false ->
  let d := decide_moves (robots s) (wait_steps s) (sacrifice_robot_idx s) in
  mid_round (robots s) d.1 [] (central_iteration s) /\
  batch_ok (robots s) d.1 /\
  wait_steps (central_iteration s) = next_waits (robots s) d.1 (wait_steps s) /\
  step (central_iteration s) = u32 (step s + 1) /\
  sacrifice_robot_idx (central_iteration s) = d.2.
Proof.
  intros S Hc d. pose proof (synced_ready s S) as Hr. pose proof (sy_inv s S) as I.
  assert (B : batch_ok (robots s) d.1) by (by apply decide_moves_ok, robots_in_bounds).
  pose proof (aw_inv_central s I Hr) as I'.
  destruct (central_iteration_frame s I Hr) as (Er & _ & _).
  assert (Hcmd : forall i sl, d.1 !! i = Some sl ->
    receive_command_from_central
      (send_moves (send_waits (mail s) (length (robots s))) d.1) i = command sl).
  { intros i sl Hs. rewrite <- (bo_len _ _ B). apply commands_delivered; [|done].
    by rewrite (ai_central s I), (bo_len _ _ B). }
  revert I' Er. unfold central_iteration. rewrite (collect_id s I Hr), Hc.
  fold d. destruct d as [slots sac] eqn:Ed. simpl in *. intros I' Er.
  split_and!; [|done..]. constructor; simpl; try done.
  - apply list_eq. intros i. rewrite partial_round_lookup.
    destruct (robots s !! i); [|done]. simpl.
    destruct (decide (i ∈ [])) as [H|]; [by apply elem_of_nil in H|done].
  - intros i Hi _. destruct (unblock_threads_spec (blocked_threads s) (phases s)) as [_ ->].
    assert (Hbl : i ∈ blocked_threads s).
    { rewrite (sy_blocked s S). apply elem_of_seq. lia. }
    rewrite decide_True by done. by rewrite (ai_blocked s I i Hbl).
Qed.

(** ** The synchronous specification

    What the threads and the message boxes implement: a function on the robots
    and the planner's memory, in which all robots move at once. *)
Record plan := mkPlan { p_robots : list robot; p_waits : list Z; p_sacrifice : Z }.

Definition sync_round (p : plan) : plan :=
  let '(slots, sacrifice) := decide_moves (p_robots p) (p_waits p) (p_sacrifice p) in
  mkPlan (imap (round_result slots) (p_robots p))
    (next_waits (p_robots p) slots (p_waits p)) sacrifice.

Definition plan_of (s : aw) : plan := mkPlan (robots s) (wait_steps s) (sacrifice_robot_idx s).

(** A round of the threads: the central control thread, then each robot once, in
    any order. *)
Inductive aw_round : aw -> aw -> Prop :=
| do_round order s :
    order ≡ₚ seq 0 (length (robots s)) -> powered_off (central_iteration s) = false ->
    aw_round s (run_robots order (central_iteration s)).

Definition start_robots (order : list nat) (s : aw) : aw :=
  foldl (fun s i => robot_start i s) s order.

Lemma round_correct order s :
  synced s -> all_completed (robots s) = false -> order ≡ₚ seq 0 (length (robots s)) ->
  let s' := run_robots order (central_iteration s) in
  synced s' /\ plan_of s' = sync_round (plan_of s) /\ step s' = u32 (step s + 1).
Proof.
  intros S Hc Ho s'. unfold sync_round, plan_of. simpl.
  pose proof (mid_round_start s S Hc) as M. simpl in M.
  destruct (decide_moves _ _ _) as [slots sac] eqn:Ed. simpl in M.
  destruct M as (M & B & Hw & Hstep & Hsac).
  destruct (run_robots_frame order (central_iteration s)) as (Fw & Fs & Fx).
  assert (Hmem : forall i, i ∈ order <-> (i < length (robots s))%nat).
  { intros i. rewrite Ho, elem_of_seq. lia. }
  assert (M' : mid_round (robots s) slots ([] ++ order) s').
  { apply mid_round_run; [done..| |].
    - simpl. rewrite Ho. apply NoDup_seq.
    - apply Forall_forall. intros i. apply Hmem. }
  assert (Hrs : robots s' = imap (round_result slots) (robots s)).
  { rewrite (mr_robots _ _ _ _ M'). apply list_eq. intros i.
    rewrite partial_round_lookup, list_lookup_imap. destruct (robots s !! i) eqn:E; [|done].
    simpl. rewrite decide_True; [done|]. apply Hmem. by eapply lookup_lt_Some. }
  unfold s' in *. rewrite Fw, Fx, Fs, Hw, Hsac, Hstep, Hrs. split_and!; [|done..].
  constructor; [apply M'..|]. rewrite (mr_blocked _ _ _ _ M'), Hrs, length_imap. done.
Qed.

Lemma central_completed s :
  synced s -> powered_off (central_iteration s) = all_completed (robots s).
Proof.
  intros S. unfold central_iteration. rewrite collect_id by (apply S || by apply synced_ready).
  destruct (all_completed (robots s)); [done|]. by destruct (decide_moves _ _ _).
Qed.

Lemma aw_round_refines s s' :
  synced s -> aw_round s s' ->
  synced s' /\ plan_of s' = sync_round (plan_of s) /\ all_completed (robots s) = false.
Proof.
  intros S Hr. destruct Hr as [order s Ho Hp]. rewrite central_completed in Hp by done.
  by destruct (round_correct order s S Hp Ho) as (? & ? & ?).
Qed.

(** The start of the robots, in any order. *)
Lemma start_robots_synced rs order :
  Forall well_placed rs -> Forall fresh rs -> order ≡ₚ seq 0 (length rs) ->
  let s := start_robots order (aw_init rs) in
  synced s /\ plan_of s = mkPlan rs (replicate (length rs) 0) (-1).
Proof.
  intros Hw Hf Ho.
  assert (G : forall rest s,
    aw_inv s -> powered_off s = false -> plan_of s = plan_of (aw_init rs) ->
    NoDup rest -> (forall i, i ∈ rest -> phases s !! i = Some NotStarted) ->
    let s' := start_robots rest s in
    aw_inv s' /\ powered_off s' = false /\ plan_of s' = plan_of (aw_init rs) /\
    blocked_threads s' = blocked_threads s ++ rest).
  { induction rest as [|i rest IH]; intros s I Hp Hpl Hnd Hph; simpl.
    { by rewrite app_nil_r. }
    apply NoDup_cons in Hnd as [Hi Hnd].
    assert (Hphi : phases s !! i = Some NotStarted) by (apply Hph; left).
    destruct (aw_inv_lookup s i _ I Hphi) as [rb Hrb].
    pose proof (robot_start_effect i s rb Hrb) as E.
    destruct (IH (robot_start i s)) as (? & ? & ? & Hbl); try done.
    - by apply aw_inv_start.
    - rewrite <- Hpl. unfold plan_of. f_equal; [|done..]. rewrite (re_robots _ _ _ _ E).
      destruct (ai_start s I i rb Hrb Hphi) as (_ & _ & _ & Ht).
      rewrite list_insert_id; [done|]. rewrite Hrb. destruct rb; simpl in *. by subst.
    - intros j Hj. rewrite (re_phases _ _ _ _ E).
      rewrite list_lookup_insert_ne by (by intros ->). apply Hph. by right.
    - split_and!; try done. rewrite Hbl, (re_blocked _ _ _ _ E), <- (assoc_L (++)). done. }
  intros s. destruct (G order (aw_init rs)) as (I & Hp & Hpl & Hbl); try done.
  - by apply aw_inv_init.
  - rewrite Ho. apply NoDup_seq.
  - intros i. rewrite Ho, elem_of_seq. intros Hi. simpl. apply lookup_replicate. split; [done|lia].
  - split; [|done]. constructor; [done..|]. fold s in Hbl, Hpl. rewrite Hbl. simpl.
    rewrite Ho. injection Hpl as -> _ _. done.
Qed.

Lemma rounds_refine n s s' :
  synced s -> nsteps aw_round n s s' ->
  synced s' /\ plan_of s' = Nat.iter n sync_round (plan_of s) /\
  (forall k, (k < n)%nat ->
     all_completed (p_robots (Nat.iter k sync_round (plan_of s))) = false).
Proof.
  revert s'. induction n as [|n IH]; intros s' S Hn.
  - inversion Hn; subst. split_and!; [done..|]. lia.
  - apply nsteps_inv_r in Hn as (t & Ht & Hr).
    destruct (IH t S Ht) as (St & Ept & Hk).
    destruct (aw_round_refines t s' St Hr) as (? & Ep & Hc).
    split_and!; [done| |].
    + rewrite Ep, Ept. done.
    + intros k Hlt. destruct (decide (k = n)) as [->|]; [|apply Hk; lia].
      by rewrite <- Ept.
Qed.
