(* ===== verification/AwRuns.v ===== *)
(** Runs of the simulator: safety of every interleaving of the threads, the
    refinement of the threads to a synchronous function, and what that function
    does on whole task lists. *)

From S2P Require Import Prelude Warehouse AwPath AwMessage AwCentral AwSim.

(** A robot as [parse_robot_tasks] sets it up for item [item] and loading dock
    [dest]. *)
Definition task (item : Z) (dest : ascii) : robot :=
  setRobot None item (ch dest) ROW_W COL_W item 0 0.

Definition initial_plan (rs : list robot) : plan :=
  mkPlan rs (replicate (length rs) 0) (-1).

Definition items : list Z := [1; 2; 3; 4; 5; 6; 7].
Definition docks : list ascii := ["A"; "B"; "C"]%char.
Definition tasks : list robot := item ← items; dest ← docks; [task item dest].

(** The number of rounds until every robot is done. *)
Fixpoint rounds_needed (fuel : nat) (p : plan) : option nat :=
  if all_completed (p_robots p) then Some O
  else match fuel with
       | O => None
       | S fuel' => S <$> rounds_needed fuel' (sync_round p)
       end.

Lemma rounds_needed_spec fuel p n :
  rounds_needed fuel p = Some n ->
  all_completed (p_robots (Nat.iter n sync_round p)) = true /\
  forall k, (k < n)%nat -> all_completed (p_robots (Nat.iter k sync_round p)) = false.
Proof.
  revert p n. induction fuel as [|fuel IH]; intros p n; simpl.
  - destruct_if; [|done]. intros [= <-]. split; [done|lia].
  - destruct_if; [intros [= <-]; split; [done|lia]|].
    destruct (rounds_needed fuel (sync_round p)) as [m|] eqn:Em; [|done].
    simpl. intros [= <-]. destruct (IH _ _ Em) as [Hd Hk].
    split; [by rewrite Nat.iter_succ_r|].
    intros [|k] Hlt; [done|]. rewrite Nat.iter_succ_r. apply Hk. lia.
Qed.

(** In a periodic run that is not done within a period, no round is the last. *)
Lemma never_completed p a m :
  Nat.iter (a + S m) sync_round p = Nat.iter a sync_round p ->
  (forall k, (k < a + S m)%nat ->
     all_completed (p_robots (Nat.iter k sync_round p)) = false) ->
  forall n, all_completed (p_robots (Nat.iter n sync_round p)) = false.
Proof.
  intros Hper Hk n. induction n as [n IH] using lt_wf_ind.
  destruct (decide (n < a + S m)%nat) as [|Hge]; [by apply Hk|].
  assert (E : Nat.iter n sync_round p = Nat.iter (n - S m) sync_round p).
  { transitivity (Nat.iter ((n - a - S m) + (a + S m)) sync_round p); [f_equal; lia|].
    rewrite Nat.iter_add, Hper, <- Nat.iter_add. f_equal. lia. }
  rewrite E. apply IH. lia.
Qed.

Lemma task_fresh item dest : fresh (task item dest).
Proof. done. Qed.

Lemma fresh_well_placed rb : fresh rb -> well_placed rb.
Proof.
  intros (Er & Ec & _). unfold well_placed. rewrite Er, Ec. split_and!; by vm_compute.
Qed.

Lemma fresh_all_well_placed rs : Forall fresh rs -> Forall well_placed rs.
Proof. intros H. eapply Forall_impl; [done|]. apply fresh_well_placed. Qed.

Lemma fresh_synced rs order :
  Forall fresh rs -> order ≡ₚ seq 0 (length rs) ->
  synced (start_robots order (aw_init rs)) /\
  plan_of (start_robots order (aw_init rs)) = initial_plan rs.
Proof.
  intros Hf Ho. apply start_robots_synced; [|done..]. by apply fresh_all_well_placed.
Qed.

(** A synchronous run that ends after [n] rounds bounds every run of the threads. *)
Lemma completes_within rs order n m s' :
  Forall fresh rs -> order ≡ₚ seq 0 (length rs) ->
  rounds_needed m (initial_plan rs) = Some n ->
  nsteps aw_round n (start_robots order (aw_init rs)) s' ->
  powered_off (central_iteration s') = true.
Proof.
  intros Hf Ho Hn Hr. destruct (fresh_synced rs order Hf Ho) as [S Hp].
  destruct (rounds_refine n _ s' S Hr) as (S' & Ep & _).
  destruct (rounds_needed_spec _ _ _ Hn) as [Hd _].
  rewrite central_completed by done. by rewrite <- Hp, <- Ep in Hd.
Qed.

(** Executable traces of [aw_step]. *)
Inductive action := AStart (i : nat) | ARobot (i : nat) | APoll | ACentral.

Definition exec (a : action) (s : aw) : option aw :=
  if powered_off s then None
  else match a with
       | AStart i =>
           match phases s !! i with Some NotStarted => Some (robot_start i s) | _ => None end
       | ARobot i =>
           match phases s !! i with Some Unblocked => Some (robot_round i s) | _ => None end
       | APoll =>
           if (timeout s <? MAX_POLLS) && negb (all_ready (mail s) (length (robots s)))
           then Some (poll s) else None
       | ACentral =>
           if all_ready (mail s) (length (robots s)) || (MAX_POLLS <=? timeout s)
           then Some (central_iteration s) else None
       end.

Fixpoint exec_trace (l : list action) (s : aw) : option aw :=
  match l with
  | [] => Some s
  | a :: l' => match exec a s with Some s' => exec_trace l' s' | None => None end
  end.

Lemma exec_sound a s s' : exec a s = Some s' -> aw_step s s'.
Proof.
  unfold exec. destruct (powered_off s) eqn:Hp; [done|]. destruct a as [i|i| |].
  - destruct (phases s !! i) as [[]|] eqn:E; intros [= <-]. by constructor.
  - destruct (phases s !! i) as [[]|] eqn:E; intros [= <-]. by constructor.
  - destruct_if; intros [= <-]. reflect_bools. by constructor.
  - destruct (_ || _) eqn:H; intros [= <-]. constructor; [done|].
    apply orb_true_iff in H as [?|?%Z.leb_le]; [by left|by right].
Qed.

Lemma exec_trace_sound l s s' : exec_trace l s = Some s' -> rtc aw_step s s'.
Proof.
  revert s. induction l as [|a l IH]; intros s; simpl; [by intros [= <-]|].
  destruct (exec a s) as [t|] eqn:E; [|done]. intros Ht.
  eapply rtc_l; [by eapply exec_sound|by apply IH].
Qed.

(** ** Safety of every interleaving *)

(** C1: Let the robot threads and the central control thread run in any order, each
    from one of its blocking calls ([block_thread], [timer_sleep]) to the next.  Then
    in every state they can reach from a start at the waiting place no two robots are
    on the same cell other than a loading dock or the waiting place, every robot is on
    the map, off the obstacles and on no item but its own, and it carries nothing or
    its own item - unless, earlier in the run and before its first move, the central
    control thread has used up the 100 polls of its waiting loop while some robot
    thread has not run once.  It cannot give up on a robot later than that. *)
Theorem reachable_states_safe rs s :
  Forall fresh rs -> rtc aw_step (aw_init rs) s ->
  gave_up_before rs s \/
  (collision_free (robots s) /\ Forall well_placed (robots s) /\ Forall task_ok (robots s)).
Proof.
  intros Hf Hr.
  destruct (on_time_reachable rs s) as [|(I & _)]; [by apply fresh_all_well_placed|done..|by left|].
  right. split; [apply I|]. apply Forall_and, I.
Qed.

Lemma reachable_states_safe_witness :
  let s := central_iteration (robot_start 0 (poll (aw_init [task 2 "A"%char]))) in
  gave_up_before [task 2 "A"%char] s \/
  (collision_free (robots s) /\ Forall well_placed (robots s) /\ Forall task_ok (robots s)).
Proof.
  apply (reachable_states_safe [task 2 "A"%char]).
  - by repeat constructor.
  - eapply rtc_l; [apply step_poll; by vm_compute|].
    eapply rtc_l; [apply (step_start 0); by vm_compute|].
    apply rtc_once. apply step_central; [by vm_compute|left; by vm_compute].
Defined.

(** C6: With the threads run in any order, each from one of its blocking calls to
    the next, the machine is powered off only when every robot has completed its
    task - it stands at its destination and carries nothing - unless the central
    control thread has, before its first move, used up the 100 polls of its waiting
    loop while some robot thread has not run once. *)
Theorem power_off_after_delivery rs s :
  Forall fresh rs -> rtc aw_step (aw_init rs) s -> powered_off s = true ->
  gave_up_before rs s \/
  Forall (fun rb => task_completed rb <> 0 /\ current_payload rb = 0 /\
    (row rb, col rb) = get_destination_position (destination rb)) (robots s).
Proof.
  intros Hf Hr Hp.
  destruct (on_time_reachable rs s) as [|(I & _ & Hc)];
    [by apply fresh_all_well_placed|done..|by left|right].
  specialize (Hc Hp). unfold all_completed in Hc. rewrite forallb_forall in Hc.
  apply Forall_forall. intros rb Hin.
  specialize (Hc rb). rewrite <- list_elem_of_In in Hc. specialize (Hc Hin). reflect_bools.
  apply list_elem_of_lookup in Hin as [i Hi].
  destruct (Forall_lookup_1 _ _ _ _ (ai_robots s I) Hi) as [_ [_ Ht]].
  split; [done|]. apply Ht. unfold completed. apply negb_true_iff. by apply Z.eqb_neq.
Qed.

Lemma power_off_after_delivery_witness :
  exists s, powered_off s = true /\ robots s <> [] /\
    (gave_up_before [task 3 "B"%char] s \/
     Forall (fun rb => task_completed rb <> 0 /\ current_payload rb = 0 /\
       (row rb, col rb) = get_destination_position (destination rb)) (robots s)).
Proof.
  set (r := exec_trace (APoll :: AStart 0 :: concat (replicate 8 [ACentral; ARobot 0]) ++ [ACentral])
              (aw_init [task 3 "B"%char])).
  assert (E : exists s, r = Some s /\ powered_off s = true /\ robots s <> []).
  { eexists. split; [by vm_compute|]. by split. }
  destruct E as (s & Es & Hp & Hrs). exists s. split_and!; [done..|].
  apply (power_off_after_delivery [task 3 "B"%char] s).
  - by repeat constructor.
  - by eapply exec_trace_sound.
  - done.
Defined.

(** ** The threads implement the synchronous rounds *)

(** C2: Rounds of the threads refine the synchronous function: started in any
    order, and run for any number of rounds with the robots scheduled in any order
    in each round, the threads leave the robots, their waiting times and the
    sacrificed robot as [sync_round] computes them, and every thread is blocked
    again with its report delivered. *)
Theorem threads_refine_sync_rounds rs order n s' :
  Forall fresh rs -> order ≡ₚ seq 0 (length rs) ->
  nsteps aw_round n (start_robots order (aw_init rs)) s' ->
  plan_of s' = Nat.iter n sync_round (initial_plan rs) /\
  blocked_threads s' ≡ₚ seq 0 (length (robots s')) /\
  (forall i rb, robots s' !! i = Some rb -> receive_message_from_robot (mail s') i = report rb).
Proof.
  intros Hf Ho Hr. destruct (fresh_synced rs order Hf Ho) as [S Hp].
  destruct (rounds_refine n _ s' S Hr) as (S' & Ep & _). rewrite Hp in Ep.
  split_and!; [done|apply S'|]. intros i rb Hi.
  pose proof (sy_inv s' S') as I. apply lookup_lt_Some in Hi as Hlt.
  destruct (lookup_lt_is_Some_2 (boxes_from_robots (mail s')) i) as [b Hb].
  { by rewrite (ai_mail_len s' I). }
  assert (Hbl : i ∈ blocked_threads s') by (rewrite (sy_blocked s' S'); apply elem_of_seq; lia).
  pose proof (ai_mail s' I i rb b _ Hi Hb (ai_blocked s' I i Hbl)) as Hm.
  unfold receive_message_from_robot. by rewrite Hb, Hm.
Qed.

Lemma threads_refine_sync_rounds_witness :
  exists s', nsteps aw_round 1 (start_robots [1; 0]%nat (aw_init [task 2 "A"%char; task 4 "C"%char])) s' /\
    plan_of s' = sync_round (initial_plan [task 2 "A"%char; task 4 "C"%char]).
Proof.
  eexists. split.
  - apply nsteps_once. apply (do_round [1; 0]%nat); [by apply Permutation_swap|by vm_compute].
  - eapply (threads_refine_sync_rounds [task 2 "A"%char; task 4 "C"%char] [1; 0]%nat 1).
    + by repeat constructor.
    + by apply Permutation_swap.
    + apply nsteps_once. apply (do_round [1; 0]%nat); [by apply Permutation_swap|by vm_compute].
Defined.

(** The robots' part of a round is a sequence of steps. *)
Lemma run_robots_steps rs slots order : forall dn s,
  batch_ok rs slots -> mid_round rs slots dn s -> NoDup (dn ++ order) ->
  Forall (fun i => (i < length rs)%nat) order -> rtc aw_step s (run_robots order s).
Proof.
  induction order as [|i order IH]; intros dn s B M Hnd Hlt; simpl; [done|].
  apply Forall_cons in Hlt as [Hi Hlt].
  assert (Hn : i ∉ dn).
  { apply NoDup_app in Hnd as (_ & Hd & _). intros Hin. apply (Hd i Hin). left. }
  eapply rtc_l.
  - apply (step_robot i); [apply M|by apply (mr_phase _ _ _ _ M)].
  - apply (IH (dn ++ [i])); [done|by apply mid_round_step| |done].
    by rewrite <- (assoc_L (++)).
Qed.

(** C7: Rounds of the threads never get stuck: between rounds, either every robot
    is done and the next iteration of the central control thread powers the machine
    off, or the threads can run another round, with the robots in any order. *)
Theorem round_progress rs order n s order' :
  Forall fresh rs -> order ≡ₚ seq 0 (length rs) ->
  nsteps aw_round n (start_robots order (aw_init rs)) s ->
  order' ≡ₚ seq 0 (length (robots s)) ->
  if all_completed (robots s) then powered_off (central_iteration s) = true
  else aw_round s (run_robots order' (central_iteration s)) /\
       rtc aw_step s (run_robots order' (central_iteration s)).
Proof.
  intros Hf Ho Hr Ho'. destruct (fresh_synced rs order Hf Ho) as [S0 _].
  destruct (rounds_refine n _ s S0 Hr) as (S & _ & _).
  pose proof (central_completed s S) as Hc.
  destruct (all_completed (robots s)) eqn:Ec; [done|]. split; [by constructor|].
  destruct (mid_round_start s S Ec) as (M & B & _). eapply rtc_l.
  - apply step_central; [apply S|left; by apply synced_ready].
  - eapply run_robots_steps; [done..| |].
    + simpl. rewrite Ho'. apply NoDup_seq.
    + apply Forall_forall. intros i. rewrite Ho', elem_of_seq. lia.
Qed.

Lemma round_progress_witness :
  exists s, robots s = [task 2 "A"%char; task 4 "C"%char] /\
    aw_round s (run_robots [1; 0]%nat (central_iteration s)).
Proof.
  set (rs := [task 2 "A"%char; task 4 "C"%char]).
  set (s := start_robots [0; 1]%nat (aw_init rs)). exists s. split; [done|].
  assert (E : all_completed (robots s) = false) by done.
  assert (H := round_progress rs [0; 1]%nat 0 s [1; 0]%nat). rewrite E in H. apply H.
  - by repeat constructor.
  - done.
  - constructor.
  - apply Permutation_swap.
Defined.

(** ** Whole runs *)

Lemma rounds_needed_le fuel p n : rounds_needed fuel p = Some n -> (n <= fuel)%nat.
Proof.
  revert p n. induction fuel as [|fuel IH]; intros p n; simpl.
  - destruct_if; [|done]. intros [= <-]. lia.
  - destruct_if; [intros [= <-]; lia|].
    destruct (rounds_needed fuel _) as [m|] eqn:Em; [|done]. simpl. intros [= <-].
    apply IH in Em. lia.
Qed.

Definition finishes (fuel : nat) (rs : list robot) : bool :=
  match rounds_needed fuel (initial_plan rs) with Some _ => true | None => false end.

Lemma finishes_bound fuel rs order n s :
  finishes fuel rs = true -> Forall fresh rs -> order ≡ₚ seq 0 (length rs) ->
  nsteps aw_round n (start_robots order (aw_init rs)) s -> (n <= fuel)%nat.
Proof.
  unfold finishes. destruct (rounds_needed fuel (initial_plan rs)) as [m|] eqn:Em; [|done].
  intros _ Hf Ho Hr. destruct (fresh_synced rs order Hf Ho) as [S Hp].
  destruct (rounds_refine n _ s S Hr) as (_ & _ & Hk). rewrite Hp in Hk.
  destruct (rounds_needed_spec _ _ _ Em) as [Hd _]. apply rounds_needed_le in Em.
  destruct (decide (n <= m)%nat); [lia|]. rewrite Hk in Hd by lia. done.
Qed.

Definition small_crews : list (list robot) :=
  ((fun t => [t]) <$> tasks) ++ (t ← tasks; (fun u => [t; u]) <$> tasks).

Lemma small_crews_finish : forallb (finishes 42) small_crews = true.
Proof. vm_cast_no_check (eq_refl true). Qed.

Lemma small_crews_fresh rs : rs ∈ small_crews -> Forall fresh rs.
Proof.
  assert (Ht : forall t, t ∈ tasks -> fresh t).
  { apply Forall_forall. by repeat constructor. }
  intros [(t & -> & ?)%list_elem_of_fmap|(t & H & ?)%list_elem_of_bind]%elem_of_app.
  - by repeat constructor; apply Ht.
  - apply list_elem_of_fmap in H as (u & -> & ?).
    apply Forall_cons. split; [by apply Ht|]. apply Forall_cons. split; [by apply Ht|done].
Qed.

(** With one or two robots, whatever their items (1 to 7) and loading docks (A
    to C), and however the threads are scheduled within the rounds, all tasks are
    done within 42 rounds: no run is longer, and one that cannot go on is about to
    power the machine off. *)
Theorem two_robots_finish rs order n s :
  rs ∈ small_crews -> order ≡ₚ seq 0 (length rs) ->
  nsteps aw_round n (start_robots order (aw_init rs)) s ->
  (n <= 42)%nat /\
  (powered_off (central_iteration s) = true \/ exists s', aw_round s s').
Proof.
  intros Hin Ho Hr. pose proof (small_crews_fresh rs Hin) as Hf.
  pose proof small_crews_finish as Hall. rewrite forallb_forall in Hall.
  split.
  - apply (finishes_bound 42 rs order n s); [|done..]. by apply Hall, list_elem_of_In.
  - destruct (fresh_synced rs order Hf Ho) as [S _].
    destruct (rounds_refine n _ s S Hr) as (S' & _ & _).
    destruct (powered_off (central_iteration s)) eqn:Ep; [by left|right].
    eexists. by apply (do_round (seq 0 (length (robots s)))).
Qed.

Lemma two_robots_finish_witness :
  (1 <= 42)%nat /\ small_crews !! 30%nat = Some [task 1 "A"%char; task 4 "A"%char].
Proof.
  set (rs := [task 1 "A"%char; task 4 "A"%char]). split; [|by vm_compute].
  eapply (two_robots_finish rs [0; 1]%nat 1).
  - apply list_elem_of_lookup. exists 30%nat. by vm_compute.
  - done.
  - apply nsteps_once. apply (do_round [0; 1]%nat); by vm_compute.
Defined.

(** The three runs of the project report: the task lists and the number of steps
    they take. *)
Definition report_runs : list (list robot * nat) :=
  [([task 2 "A"; task 4 "C"; task 2 "B"; task 2 "C"; task 3 "A"], 24);
   ([task 7 "C"; task 6 "B"; task 5 "A"; task 4 "C"; task 3 "B"; task 2 "A"; task 1 "C"], 46);
   ([task 1 "A"; task 2 "B"; task 3 "C"; task 4 "A"; task 5 "B"; task 6 "C"; task 7 "A"],
    70)]%char%nat.

Lemma report_runs_checked :
  Forall (fun r => rounds_needed r.2 (initial_plan r.1) = Some r.2) report_runs.
Proof. by repeat (apply Forall_cons; split; [by vm_compute|]). Qed.

Lemma report_runs_fresh : Forall (fun r => Forall fresh r.1) report_runs.
Proof. by repeat constructor. Qed.

(** The three task lists of the project report take the reported 24, 46 and 70
    steps, however the threads are scheduled within the rounds: before that many
    rounds the machine runs on, and after them the next iteration powers it off. *)
Theorem reported_runs rs steps order n s :
  (rs, steps) ∈ report_runs -> order ≡ₚ seq 0 (length rs) ->
  nsteps aw_round n (start_robots order (aw_init rs)) s ->
  (n <= steps)%nat /\ (powered_off (central_iteration s) = true <-> n = steps).
Proof.
  intros Hin Ho Hr.
  pose proof (proj1 (Forall_forall _ _) report_runs_checked _ Hin) as Hn. simpl in Hn.
  pose proof (proj1 (Forall_forall _ _) report_runs_fresh _ Hin) as Hf. simpl in Hf.
  destruct (fresh_synced rs order Hf Ho) as [S Hp].
  destruct (rounds_refine n _ s S Hr) as (S' & Ep & Hk). rewrite Hp in Hk, Ep.
  destruct (rounds_needed_spec _ _ _ Hn) as [Hd Hlt].
  rewrite central_completed by done. change (robots s) with (p_robots (plan_of s)). rewrite Ep.
  assert (n <= steps)%nat by (destruct (decide (n <= steps)%nat); [done|]; rewrite Hk in Hd by lia; done).
  split; [done|]. split; [|by intros ->]. intros Hc.
  destruct (decide (n = steps)); [done|]. rewrite Hlt in Hc by lia. done.
Qed.

Lemma reported_runs_witness : exists rs, (rs, 24%nat) ∈ report_runs /\ (0 <= 24)%nat.
Proof.
  exists [task 2 "A"; task 4 "C"; task 2 "B"; task 2 "C"; task 3 "A"]%char.
  split; [by left|].
  eapply (reported_runs _ 24 [0; 1; 2; 3; 4]%nat 0); [by left|done|constructor].
Defined.

(** C8: A task list that rounds never finish.  In a round the central control thread
    runs one iteration and then every robot thread runs once, in any order, before the
    central control thread runs again.  With the tasks 4B, 4A and 2A no number of
    rounds leads to the power off, and another round is always possible.  From the
    22nd round the positions, waiting times and sacrificed robot repeat every seven
    rounds: the robots move, but the escape moves lead back into the same jam. *)
Theorem three_robots_livelock order n s :
  order ≡ₚ seq 0 3 ->
  nsteps aw_round n
    (start_robots order (aw_init [task 4 "B"; task 4 "A"; task 2 "A"]%char)) s ->
  powered_off (central_iteration s) = false /\ exists s', aw_round s s'.
Proof.
  set (rs := [task 4 "B"; task 4 "A"; task 2 "A"]%char). intros Ho Hr.
  destruct (fresh_synced rs order) as [S Hp]; [by repeat constructor|done|].
  destruct (rounds_refine n _ s S Hr) as (S' & Ep & _). rewrite Hp in Ep.
  assert (Hc : powered_off (central_iteration s) = false).
  { rewrite central_completed by done. change (robots s) with (p_robots (plan_of s)).
    rewrite Ep. apply (never_completed _ 22 6); [by vm_compute|].
    intros k Hk.
    assert (Hall : forallb (fun k => negb (all_completed
      (p_robots (Nat.iter k sync_round (initial_plan rs))))) (seq 0 29) = true) by (by vm_compute).
    rewrite forallb_forall in Hall. specialize (Hall k). rewrite in_seq in Hall.
    apply negb_true_iff, Hall. lia. }
  split; [done|]. eexists. by apply (do_round (seq 0 (length (robots s)))).
Qed.

Lemma three_robots_livelock_witness :
  powered_off (central_iteration
    (start_robots [2; 0; 1]%nat (aw_init [task 4 "B"; task 4 "A"; task 2 "A"]%char))) = false.
Proof.
  apply (three_robots_livelock [2; 0; 1]%nat 0).
  - apply (Permutation_app_comm [2]%nat [0; 1]%nat).
  - constructor.
Defined.

(** The jam depends on the rounds.  When the central control thread runs a second
    iteration before the robots have acted on the first, which [aw_step] allows, the
    same tasks are done after another 34 rounds. *)
Definition early_iteration : list action :=
  [AStart 0; AStart 1; AStart 2; ACentral] ++
  concat (replicate 34 [ACentral; ARobot 0; ARobot 1; ARobot 2]) ++ [ACentral].

Theorem extra_iteration_breaks_jam :
  exists s, rtc aw_step (aw_init [task 4 "B"; task 4 "A"; task 2 "A"]%char) s /\
    powered_off s = true.
Proof.
  set (r := exec_trace early_iteration (aw_init [task 4 "B"; task 4 "A"; task 2 "A"]%char)).
  assert (E : exists s, r = Some s /\ powered_off s = true).
  { eexists. split; [by vm_compute|done]. }
  destruct E as (s & Es & Hp). exists s. split; [by eapply exec_trace_sound|done].
Qed.

(** ** The timeout of the polling loop *)

Lemma polls_reachable rs k :
  Forall fresh rs -> rs <> [] -> (k <= 100)%nat ->
  rtc aw_step (aw_init rs) (Nat.iter k poll (aw_init rs)) /\
  timeout (Nat.iter k poll (aw_init rs)) = Z.of_nat k.
Proof.
  intros Hf Hn. induction k as [|k IH]; intros Hk; [done|]. destruct IH as [Hr Ht]; [lia|].
  rewrite Nat.iter_succ. split; [|simpl; lia]. eapply rtc_r; [done|].
  assert (E : forall j, let s := Nat.iter j poll (aw_init rs) in
            powered_off s = false /\ mail s = init_message_boxes (length rs) /\ robots s = rs).
  { intros j. induction j; [done|]. by rewrite Nat.iter_succ. }
  destruct (E k) as (Ep & Em & Es). apply step_poll; [done|unfold MAX_POLLS; lia|].
  rewrite Em, Es. by destruct rs.
Qed.

(** The exception is real: when no robot thread has run during the 100 polls, the
    central control thread takes the zeroed messages for reports, and puts every
    robot at the corner of the map, which is an obstacle. *)
Theorem giving_up_misplaces_robots rs :
  Forall fresh rs -> rs <> [] ->
  exists s, rtc aw_step (aw_init rs) s /\ length (robots s) = length rs /\
    Forall (fun rb => row rb = 0 /\ col rb = 0 /\ ~ well_placed rb) (robots s).
Proof.
  intros Hf Hn. destruct (polls_reachable rs 100 Hf Hn) as [Hr Ht]; [lia|].
  set (s := Nat.iter 100 poll (aw_init rs)) in *. exists (central_iteration s).
  split. { eapply rtc_r; [done|]. apply step_central; [done|right]. by rewrite Ht. }
  assert (E : robots (central_iteration s) = collect (init_message_boxes (length rs)) rs).
  { unfold central_iteration. change (robots s) with rs.
    change (mail s) with (init_message_boxes (length rs)). destruct_if; [done|].
    by destruct (decide_moves _ _ _). }
  rewrite E. unfold collect. split; [by rewrite length_imap|].
  apply Forall_lookup. intros i rb Hi. rewrite list_lookup_imap in Hi.
  destruct (rs !! i) as [x|] eqn:Ex; [|done]. simpl in Hi. injection Hi as <-.
  unfold receive_message_from_robot. simpl.
  rewrite lookup_replicate_2 by (by eapply lookup_lt_Some). split_and!; [done..|].
  intros (_ & Ho & _). by vm_compute in Ho.
Qed.

(** The central control thread never marks a robot's message as read: after an
    iteration the messages it has just used still count as ready, so that it can go
    on to a second iteration before any robot has acted on the first. *)
Theorem used_messages_stay_ready rs s :
  Forall fresh rs -> rtc aw_step (aw_init rs) s -> powered_off s = false ->
  all_ready (mail s) (length (robots s)) = true -> all_completed (robots s) = false ->
  let s' := central_iteration s in
  gave_up_before rs s \/
  (all_ready (mail s') (length (robots s')) = true /\ aw_step s' (central_iteration s')).
Proof.
  intros Hf Hr Hp Hready Hc s'.
  destruct (on_time_reachable rs s) as [|(I & _)];
    [by apply fresh_all_well_placed|done..|by left|right].
  destruct (central_iteration_frame s I Hready) as (Er & Em & _).
  assert (Hready' : all_ready (mail s') (length (robots s')) = true).
  { unfold s'. rewrite Er. revert Hready. unfold all_ready, is_message_from_robot_ready.
    by rewrite Em. }
  split; [done|]. constructor; [|by left]. unfold s', central_iteration.
  rewrite collect_id, Hc by done. by destruct (decide_moves _ _ _).
Qed.
