(* ===== verification/KMonad.v ===== *)
(** Kernel code as a state monad with failure.  A computation returns a value and
    the new state, panics (a failed [ASSERT], a null or dangling pointer), or runs
    out of the fuel of one of its loops. *)

From S2P Require Import Prelude.

Inductive outcome (A : Type) :=
| Ok (a : A)
| Panic
| NoFuel.
Arguments Ok {A} a.
Arguments Panic {A}.
Arguments NoFuel {A}.

Definition K (S A : Type) : Type := S -> outcome (A * S).

#[export] Instance K_ret {S} : MRet (K S) := fun A a s => Ok (a, s).
#[export] Instance K_bind {S} : MBind (K S) := fun A B f m s =>
  match m s with
  | Ok (a, s') => f a s'
  | Panic => Panic
  | NoFuel => NoFuel
  end.

Section ops.
Context {S : Type}.

Definition panic {A} : K S A := fun _ => Panic.
Definition no_fuel {A} : K S A := fun _ => NoFuel.
Definition get : K S S := fun s => Ok (s, s).
Definition put (s : S) : K S unit := fun _ => Ok (tt, s).
Definition gets {A} (f : S -> A) : K S A := fun s => Ok (f s, s).
Definition modify (f : S -> S) : K S unit := fun s => Ok (tt, f s).

(** The macro [ASSERT]. *)
Definition ASSERT (b : bool) : K S unit := if b then mret tt else panic.
Definition ASSERTm (m : K S bool) : K S unit := b ← m; ASSERT b.

(** The value of a pointer or an index that has to be valid. *)
Definition the {A} (o : option A) : K S A :=
  match o with Some a => mret a | None => panic end.

Definition when (b : bool) (m : K S unit) : K S unit := if b then m else mret tt.

Fixpoint iterM {A} (l : list A) (f : A -> K S unit) : K S unit :=
  match l with
  | [] => mret tt
  | a :: l' => f a;; iterM l' f
  end.

Lemma bind_ok {A B} (m : K S A) (f : A -> K S B) s a s' :
  m s = Ok (a, s') -> (m ≫= f) s = f a s'.
Proof. unfold mbind, K_bind. by intros ->. Qed.

Lemma bind_inv {A B} (m : K S A) (f : A -> K S B) s r :
  (m ≫= f) s = Ok r -> exists a s', m s = Ok (a, s') /\ f a s' = Ok r.
Proof. unfold mbind, K_bind. destruct (m s) as [[a s']| |]; [eauto|done..]. Qed.

Lemma bind_assoc {A B C} (m : K S A) (f : A -> K S B) (g : B -> K S C) s :
  ((m ≫= f) ≫= g) s = (m ≫= (fun a => f a ≫= g)) s.
Proof. unfold mbind, K_bind. by destruct (m s) as [[a s']| |]. Qed.

Lemma bind_eq {A B} (m : K S A) (f g : A -> K S B) s : (forall a s', f a s' = g a s') -> (m ≫= f) s = (m ≫= g) s.
Proof. intros H. unfold mbind, K_bind. destruct (m s) as [[a s']| |]; auto. Qed.

Lemma ret_bind {A B} (a : A) (f : A -> K S B) s : (mret a ≫= f) s = f a s.
Proof. done. Qed.

Lemma ASSERT_true b {A} (m : K S A) s : b = true -> (ASSERT b;; m) s = m s.
Proof. by intros ->. Qed.

End ops.

(** ** Runs that return *)

Definition runs {S A} (k : K S A) (s : S) (Q : A -> S -> Prop) : Prop := exists a s', k s = Ok (a, s') /\ Q a s'.
Section Runs.
Context {S : Type}.
Lemma runs_bind {A B} (k : K S A) (f : A -> K S B) s Q : runs k s (fun a s' => runs (f a) s' Q) -> runs (k ≫= f) s Q.
Proof. intros (a & s' & E & b & s'' & E2 & HQ). exists b, s''. by rewrite (bind_ok _ _ _ _ _ E). Qed.
Lemma runs_ret {A} (a : A) s (Q : A -> S -> Prop) : Q a s -> runs (mret a) s Q.
Proof. intros HQ. by exists a, s. Qed.
Lemma runs_mono {A} (k : K S A) s (P Q : A -> S -> Prop) : runs k s P -> (forall a s', P a s' -> Q a s') -> runs k s Q.
Proof. intros (a & s' & E & HP) HQ. exists a, s'. auto. Qed.
Lemma runs_ok {A} (k : K S A) s a s' (Q : A -> S -> Prop) : k s = Ok (a, s') -> Q a s' -> runs k s Q.
Proof. intros E HQ. by exists a, s'. Qed.
Lemma runs_assert b s (Q : unit -> S -> Prop) : b = true -> Q tt s -> runs (ASSERT b) s Q.
Proof. intros -> HQ. by exists tt, s. Qed.
End Runs.

(** What holds of the result, if there is one. *)
Definition post {S A} (k : K S A) (s : S) (Q : A -> S -> Prop) : Prop := forall a s', k s = Ok (a, s') -> Q a s'.
Section Post.
Context {S : Type}.
Lemma post_bind {A B} (k : K S A) (f : A -> K S B) s Q : post k s (fun a s' => post (f a) s' Q) -> post (k ≫= f) s Q.
Proof. intros Hk b s2 (a & s1 & E1 & E2)%bind_inv. exact (Hk a s1 E1 b s2 E2). Qed.
Lemma post_ret {A} (a : A) s (Q : A -> S -> Prop) : Q a s -> post (mret a) s Q.
Proof. by intros HQ ? ? [= <- <-]. Qed.
Lemma post_mono {A} (k : K S A) s (P Q : A -> S -> Prop) : post k s P -> (forall a s', P a s' -> Q a s') -> post k s Q.
Proof. intros Hk HQ a s' E. by apply HQ, Hk. Qed.
Lemma post_ok {A} (k : K S A) s a s' (Q : A -> S -> Prop) : k s = Ok (a, s') -> Q a s' -> post k s Q.
Proof. intros E HQ b s2 E2. rewrite E in E2. by injection E2 as <- <-. Qed.
Lemma post_assert b s (Q : unit -> S -> Prop) : (b = true -> Q tt s) -> post (ASSERT b) s Q.
Proof. intros HQ ? ? E. destruct b; [|done]. injection E as <- <-. auto. Qed.
Lemma post_the {A} (o : option A) s (Q : A -> S -> Prop) : (forall a, o = Some a -> Q a s) -> post (the o) s Q.
Proof. intros HQ ? ? E. destruct o; [|done]. injection E as <- <-. auto. Qed.
Lemma post_panic {A} s (Q : A -> S -> Prop) : post panic s Q.
Proof. by intros ? ? E. Qed.
End Post.

(** One step of symbolic execution: use a known result of the first computation. *)
Ltac kstep H := erewrite bind_ok by (apply H); cbv beta.
