(* ===== verification/DList.v ===== *)
(** Doubly linked lists over memory (lib/kernel/list.h, lib/kernel/list.c): the
    list elements are cells of a heap, and every operation is the C function's
    sequence of assertions, loads and stores.  The theorems relate them to the
    operations on the sequence of elements that the links describe. *)

From S2P Require Import Prelude KMonad.

(** ** Memory *)

Abbreviation addr := positive.
Abbreviation ptr := (option addr).
Record list_elem := mkElem { prev : ptr; next : ptr }.
Abbreviation heap := (gmap addr list_elem).

(** A [struct list] is known by the addresses of its two header elements. *)
Record dlist := mkList { lhead : addr; ltail : addr }.

Definition deref (p : ptr) : K heap list_elem := a ← the p; h ← get; the (h !! a).
Definition get_prev (p : ptr) : K heap ptr := e ← deref p; mret (prev e).
Definition get_next (p : ptr) : K heap ptr := e ← deref p; mret (next e).
Definition set_prev (p v : ptr) : K heap unit :=
  a ← the p; h ← get; e ← the (h !! a); put (<[a := mkElem v (next e)]> h).
Definition set_next (p v : ptr) : K heap unit :=
  a ← the p; h ← get; e ← the (h !! a); put (<[a := mkElem (prev e) v]> h).

(** ** list.c *)

Definition null (p : ptr) : bool := match p with None => true | _ => false end.
Definition ptr_eqb (p q : ptr) : bool := bool_decide (p = q).

Definition is_head (elem : ptr) : K heap bool :=
  if null elem then mret false
  else p ← get_prev elem; n ← get_next elem; mret (null p && negb (null n)).
Definition is_interior (elem : ptr) : K heap bool :=
  if null elem then mret false
  else p ← get_prev elem; n ← get_next elem; mret (negb (null p) && negb (null n)).
Definition is_tail (elem : ptr) : K heap bool :=
  if null elem then mret false
  else p ← get_prev elem; n ← get_next elem; mret (negb (null p) && null n).

Definition orM (m1 m2 : K heap bool) : K heap bool :=
  b ← m1; if (b : bool) then mret true else m2.

Definition list_init (l : dlist) : K heap unit :=
  set_prev (Some (lhead l)) None;;
  set_next (Some (lhead l)) (Some (ltail l));;
  set_prev (Some (ltail l)) (Some (lhead l));;
  set_next (Some (ltail l)) None.

Definition list_begin (l : dlist) : K heap ptr := get_next (Some (lhead l)).
Definition list_next (elem : ptr) : K heap ptr :=
  ASSERTm (orM (is_head elem) (is_interior elem));; get_next elem.
Definition list_end (l : dlist) : ptr := Some (ltail l).
Definition list_rbegin (l : dlist) : K heap ptr := get_prev (Some (ltail l)).
Definition list_prev (elem : ptr) : K heap ptr :=
  ASSERTm (orM (is_interior elem) (is_tail elem));; get_prev elem.
Definition list_rend (l : dlist) : ptr := Some (lhead l).
Definition list_head (l : dlist) : ptr := Some (lhead l).
Definition list_tail (l : dlist) : ptr := Some (ltail l).

Definition list_insert (before elem : ptr) : K heap unit :=
  ASSERTm (orM (is_interior before) (is_tail before));;
  ASSERT (negb (null elem));;
  p ← get_prev before;
  set_prev elem p;;
  set_next elem before;;
  p ← get_prev before;
  set_next p elem;;
  set_prev before elem.

Definition list_splice (before first last : ptr) : K heap unit :=
  ASSERTm (orM (is_interior before) (is_tail before));;
  if ptr_eqb first last then mret tt
  else
    last ← list_prev last;
    ASSERTm (is_interior first);;
    ASSERTm (is_interior last);;
    (* first->prev->next = last->next; last->next->prev = first->prev; *)
    fp ← get_prev first; ln ← get_next last; set_next fp ln;;
    ln ← get_next last; fp ← get_prev first; set_prev ln fp;;
    (* first->prev = before->prev; last->next = before; *)
    bp ← get_prev before; set_prev first bp;;
    set_next last before;;
    (* before->prev->next = first; before->prev = last; *)
    bp ← get_prev before; set_next bp first;;
    set_prev before last.

Definition list_push_front (l : dlist) (elem : ptr) : K heap unit :=
  b ← list_begin l; list_insert b elem.
Definition list_push_back (l : dlist) (elem : ptr) : K heap unit :=
  list_insert (list_end l) elem.

Definition list_remove (elem : ptr) : K heap ptr :=
  ASSERTm (is_interior elem);;
  p ← get_prev elem; n ← get_next elem; set_next p n;;
  n ← get_next elem; p ← get_prev elem; set_prev n p;;
  get_next elem.

Definition list_empty (l : dlist) : K heap bool :=
  b ← list_begin l; mret (ptr_eqb b (list_end l)).
Definition list_front (l : dlist) : K heap ptr :=
  e ← list_empty l; ASSERT (negb e);; get_next (Some (lhead l)).
Definition list_back (l : dlist) : K heap ptr :=
  e ← list_empty l; ASSERT (negb e);; get_prev (Some (ltail l)).
Definition list_pop_front (l : dlist) : K heap ptr :=
  front ← list_front l; list_remove front;; mret front.
Definition list_pop_back (l : dlist) : K heap ptr :=
  back ← list_back l; list_remove back;; mret back.

(** The loops walk along the links; the number of cells of the heap bounds the
    number of elements of any list in it. *)
Definition with_fuel {A} (f : nat -> K heap A) : K heap A := h ← get; f (S (size h)).

Fixpoint size_loop (fuel : nat) (l : dlist) (e : ptr) (cnt : Z) : K heap Z :=
  if ptr_eqb e (list_end l) then mret cnt
  else match fuel with
       | O => no_fuel
       | S fuel' => e ← list_next e; size_loop fuel' l e (u32 (cnt + 1))
       end.
Definition list_size (l : dlist) : K heap Z :=
  e ← list_begin l; with_fuel (fun fuel => size_loop fuel l e 0).

(** [swap] on the two links of one element. *)
Definition swap_links (e : ptr) : K heap unit :=
  p ← get_prev e; n ← get_next e; set_prev e n;; set_next e p.

Fixpoint reverse_loop (fuel : nat) (l : dlist) (e : ptr) : K heap unit :=
  if ptr_eqb e (list_end l) then mret tt
  else match fuel with
       | O => no_fuel
       | S fuel' => swap_links e;; e ← get_prev e; reverse_loop fuel' l e
       end.

(** [swap (&list->head.next, &list->tail.prev);
    swap (&list->head.next->prev, &list->tail.prev->next);] *)
Definition reverse_swaps (l : dlist) : K heap unit :=
  hn ← get_next (Some (lhead l)); tp ← get_prev (Some (ltail l));
  set_next (Some (lhead l)) tp;; set_prev (Some (ltail l)) hn;;
  hn ← get_next (Some (lhead l)); tp ← get_prev (Some (ltail l));
  p ← get_prev hn; n ← get_next tp;
  set_prev hn n;; set_next tp p.

Definition list_reverse (l : dlist) : K heap unit :=
  b ← list_empty l;
  if (b : bool) then mret tt
  else
    e ← list_begin l;
    with_fuel (fun fuel => reverse_loop fuel l e);;
    reverse_swaps l.

Section ordered.
(** [less] with its auxiliary data; it compares the structures around two
    elements, which the list operations do not change. *)
Context (less : addr -> addr -> bool).

Definition call_less (p q : ptr) : K heap bool := a ← the p; b ← the q; mret (less a b).

Fixpoint is_sorted_loop (fuel : nat) (a b : ptr) : K heap bool :=
  match fuel with
  | O => no_fuel
  | S fuel' =>
      a ← list_next a;
      if ptr_eqb a b then mret true
      else p ← list_prev a; lt ← call_less a p;
           if (lt : bool) then mret false else is_sorted_loop fuel' a b
  end.
Definition is_sorted (a b : ptr) : K heap bool :=
  if ptr_eqb a b then mret true else with_fuel (fun fuel => is_sorted_loop fuel a b).

Fixpoint run_loop (fuel : nat) (a b : ptr) : K heap ptr :=
  match fuel with
  | O => no_fuel
  | S fuel' =>
      a ← list_next a;
      if ptr_eqb a b then mret a
      else p ← list_prev a; lt ← call_less a p;
           if (lt : bool) then mret a else run_loop fuel' a b
  end.
Definition find_end_of_run (a b : ptr) : K heap ptr :=
  ASSERT (negb (null a));;
  ASSERT (negb (null b));;
  ASSERT (negb (ptr_eqb a b));;
  with_fuel (fun fuel => run_loop fuel a b).

Fixpoint merge_loop (fuel : nat) (a0 a1b0 b1 : ptr) : K heap unit :=
  if negb (ptr_eqb a0 a1b0) && negb (ptr_eqb a1b0 b1) then
    match fuel with
    | O => no_fuel
    | S fuel' =>
        lt ← call_less a1b0 a0;
        if negb lt then a0 ← list_next a0; merge_loop fuel' a0 a1b0 b1
        else a1b0 ← list_next a1b0;
             p ← list_prev a1b0;
             list_splice a0 p a1b0;;
             merge_loop fuel' a0 a1b0 b1
    end
  else mret tt.
Definition inplace_merge (a0 a1b0 b1 : ptr) : K heap unit :=
  ASSERT (negb (null a0));;
  ASSERT (negb (null a1b0));;
  ASSERT (negb (null b1));;
  ASSERTm (is_sorted a0 a1b0);;
  ASSERTm (is_sorted a1b0 b1);;
  with_fuel (fun fuel => merge_loop fuel a0 a1b0 b1).

(** One pass of the [for] loop of [list_sort]; returns [output_run_cnt]. *)
Fixpoint pass_loop (fuel : nat) (l : dlist) (a0 : ptr) (output_run_cnt : nat) : K heap nat :=
  if ptr_eqb a0 (list_end l) then mret output_run_cnt
  else match fuel with
       | O => no_fuel
       | S fuel' =>
           let output_run_cnt := S output_run_cnt in
           a1b0 ← find_end_of_run a0 (list_end l);
           if ptr_eqb a1b0 (list_end l) then mret output_run_cnt
           else b1 ← find_end_of_run a1b0 (list_end l);
                inplace_merge a0 a1b0 b1;;
                pass_loop fuel' l b1 output_run_cnt
       end.
Fixpoint sort_loop (fuel : nat) (l : dlist) : K heap unit :=
  match fuel with
  | O => no_fuel
  | S fuel' =>
      a0 ← list_begin l;
      output_run_cnt ← with_fuel (fun fuel => pass_loop fuel l a0 0);
      if (1 <? output_run_cnt)%nat then sort_loop fuel' l else mret tt
  end.
Definition list_sort (l : dlist) : K heap unit :=
  with_fuel (fun fuel => sort_loop fuel l);;
  b ← list_begin l;
  ASSERTm (is_sorted b (list_end l)).

Fixpoint ordered_loop (fuel : nat) (l : dlist) (elem e : ptr) : K heap ptr :=
  if ptr_eqb e (list_end l) then mret e
  else match fuel with
       | O => no_fuel
       | S fuel' =>
           lt ← call_less elem e;
           if (lt : bool) then mret e
           else e ← list_next e; ordered_loop fuel' l elem e
       end.
Definition list_insert_ordered (l : dlist) (elem : ptr) : K heap unit :=
  ASSERT (negb (null elem));;
  b ← list_begin l;
  e ← with_fuel (fun fuel => ordered_loop fuel l elem b);
  list_insert e elem.

Fixpoint unique_loop (fuel : nat) (l : dlist) (duplicates : option dlist) (elem : ptr)
  : K heap unit :=
  match fuel with
  | O => no_fuel
  | S fuel' =>
      nx ← list_next elem;
      if ptr_eqb nx (list_end l) then mret tt
      else
        lt ← call_less elem nx; gt ← call_less nx elem;
        if negb lt && negb gt then
          list_remove nx;;
          match duplicates with Some d => list_push_back d nx | None => mret tt end;;
          unique_loop fuel' l duplicates elem
        else unique_loop fuel' l duplicates nx
  end.
Definition list_unique (l : dlist) (duplicates : option dlist) : K heap unit :=
  b ← list_empty l;
  if (b : bool) then mret tt
  else elem ← list_begin l; with_fuel (fun fuel => unique_loop fuel l duplicates elem).

Fixpoint max_loop (fuel : nat) (l : dlist) (max e : ptr) : K heap ptr :=
  if ptr_eqb e (list_end l) then mret max
  else match fuel with
       | O => no_fuel
       | S fuel' =>
           lt ← call_less max e;
           let max := if (lt : bool) then e else max in
           e ← list_next e; max_loop fuel' l max e
       end.
Definition list_max (l : dlist) : K heap ptr :=
  max ← list_begin l;
  if ptr_eqb max (list_end l) then mret max
  else e ← list_next max; with_fuel (fun fuel => max_loop fuel l max e).

Fixpoint min_loop (fuel : nat) (l : dlist) (min e : ptr) : K heap ptr :=
  if ptr_eqb e (list_end l) then mret min
  else match fuel with
       | O => no_fuel
       | S fuel' =>
           lt ← call_less e min;
           let min := if (lt : bool) then e else min in
           e ← list_next e; min_loop fuel' l min e
       end.
Definition list_min (l : dlist) : K heap ptr :=
  min ← list_begin l;
  if ptr_eqb min (list_end l) then mret min
  else e ← list_next min; with_fuel (fun fuel => min_loop fuel l min e).

End ordered.

(** ** What the links mean *)

Definition nx (h : heap) (a : addr) : ptr := h !! a ≫= next.
Definition pv (h : heap) (a : addr) : ptr := h !! a ≫= prev.
Definition valid (h : heap) (a : addr) : Prop := is_Some (h !! a).

Definition linked (h : heap) (a b : addr) : Prop := nx h a = Some b /\ pv h b = Some a.

Fixpoint chain (h : heap) (l : list addr) : Prop :=
  match l with
  | a :: (b :: _) as l' => linked h a b /\ chain h l'
  | _ => True
  end.

Definition full (l : dlist) (xs : list addr) : list addr := lhead l :: xs ++ [ltail l].

(** [l] is a list with the interior elements [xs]. *)
Record dl (h : heap) (l : dlist) (xs : list addr) : Prop := {
  dl_nodup : NoDup (full l xs);
  dl_chain : chain h (full l xs);
  dl_head : pv h (lhead l) = None;
  dl_tail : nx h (ltail l) = None
}.

(** Memory outside of [s] is unchanged, and no cell appears or disappears. *)
Definition frame (s : list addr) (h h' : heap) : Prop :=
  (forall a, a ∉ s -> h' !! a = h !! a) /\ dom h' = dom h.

Definition upd_next (a : addr) (v : ptr) (h : heap) : heap :=
  alter (fun e => mkElem (prev e) v) a h.
Definition upd_prev (a : addr) (v : ptr) (h : heap) : heap :=
  alter (fun e => mkElem v (next e)) a h.

Section links.
Implicit Types (h : heap) (a b : addr) (l : list addr).

Lemma nx_valid h a b : nx h a = Some b -> valid h a.
Proof. unfold nx, valid. destruct (h !! a); [eauto|done]. Qed.
Lemma pv_valid h a b : pv h a = Some b -> valid h a.
Proof. unfold pv, valid. destruct (h !! a); [eauto|done]. Qed.

Lemma get_next_ok h a : valid h a -> get_next (Some a) h = Ok (nx h a, h).
Proof.
  intros [e He]. unfold get_next, deref, nx, mbind, K_bind, get. simpl. rewrite He. done.
Qed.
Lemma get_prev_ok h a : valid h a -> get_prev (Some a) h = Ok (pv h a, h).
Proof.
  intros [e He]. unfold get_prev, deref, pv, mbind, K_bind, get. simpl. rewrite He. done.
Qed.
Lemma alter_as_insert (f : list_elem -> list_elem) h a e :
  h !! a = Some e -> <[a := f e]> h = alter f a h.
Proof.
  intros He. apply map_eq. intros b. destruct (decide (a = b)) as [<-|Hne].
  - by rewrite lookup_alter_eq, lookup_insert_eq, He.
  - by rewrite lookup_alter_ne, lookup_insert_ne by done.
Qed.
Lemma set_next_ok h a v : valid h a -> set_next (Some a) v h = Ok (tt, upd_next a v h).
Proof.
  intros [e He]. unfold set_next, mbind, K_bind, get, put. simpl. rewrite He. simpl.
  do 2 f_equal. by apply (alter_as_insert (fun e => mkElem (prev e) v)).
Qed.
Lemma set_prev_ok h a v : valid h a -> set_prev (Some a) v h = Ok (tt, upd_prev a v h).
Proof.
  intros [e He]. unfold set_prev, mbind, K_bind, get, put. simpl. rewrite He. simpl.
  do 2 f_equal. by apply (alter_as_insert (fun e => mkElem v (next e))).
Qed.

Lemma valid_upd_next h a v b : valid (upd_next a v h) b <-> valid h b.
Proof.
  unfold valid, upd_next. rewrite <- !elem_of_dom. by rewrite dom_alter_L.
Qed.
Lemma valid_upd_prev h a v b : valid (upd_prev a v h) b <-> valid h b.
Proof.
  unfold valid, upd_prev. rewrite <- !elem_of_dom. by rewrite dom_alter_L.
Qed.

Lemma nx_upd_next h a v b :
  valid h a -> nx (upd_next a v h) b = if decide (b = a) then v else nx h b.
Proof.
  intros [e He]. unfold nx, upd_next. destruct (decide (b = a)) as [->|].
  - by rewrite lookup_alter_eq, He.
  - by rewrite lookup_alter_ne by done.
Qed.
Lemma pv_upd_prev h a v b :
  valid h a -> pv (upd_prev a v h) b = if decide (b = a) then v else pv h b.
Proof.
  intros [e He]. unfold pv, upd_prev. destruct (decide (b = a)) as [->|].
  - by rewrite lookup_alter_eq, He.
  - by rewrite lookup_alter_ne by done.
Qed.
Lemma pv_upd_next h a v b : pv (upd_next a v h) b = pv h b.
Proof.
  unfold pv, upd_next. destruct (decide (b = a)) as [->|].
  - rewrite lookup_alter_eq. by destruct (h !! a).
  - by rewrite lookup_alter_ne by done.
Qed.
Lemma nx_upd_prev h a v b : nx (upd_prev a v h) b = nx h b.
Proof.
  unfold nx, upd_prev. destruct (decide (b = a)) as [->|].
  - rewrite lookup_alter_eq. by destruct (h !! a).
  - by rewrite lookup_alter_ne by done.
Qed.

Lemma frame_refl s h : frame s h h.
Proof. done. Qed.
Lemma frame_trans s h1 h2 h3 : frame s h1 h2 -> frame s h2 h3 -> frame s h1 h3.
Proof. intros [H1 D1] [H2 D2]. split; [|congruence]. intros a Ha. rewrite H2 by done. auto. Qed.
Lemma frame_mono s s' h h' : s ⊆ s' -> frame s h h' -> frame s' h h'.
Proof. intros Hs [H D]. split; [|done]. intros a Ha. apply H. auto. Qed.
Lemma frame_upd_next s h a v : a ∈ s -> frame s h (upd_next a v h).
Proof.
  intros Ha. unfold upd_next. split; [|apply dom_alter_L].
  intros b Hb. rewrite lookup_alter_ne; [done|]. by intros ->.
Qed.
Lemma frame_upd_prev s h a v : a ∈ s -> frame s h (upd_prev a v h).
Proof.
  intros Ha. unfold upd_prev. split; [|apply dom_alter_L].
  intros b Hb. rewrite lookup_alter_ne; [done|]. by intros ->.
Qed.
Lemma frame_valid s h h' a : frame s h h' -> valid h a <-> valid h' a.
Proof. intros [_ D]. unfold valid. rewrite <- !elem_of_dom. by rewrite D. Qed.
Lemma frame_size s h h' : frame s h h' -> size h' = size h.
Proof. intros [_ D]. by rewrite <- !size_dom, D. Qed.

Lemma chain_cons h a l : chain h (a :: l) <-> (forall b, head l = Some b -> linked h a b) /\ chain h l.
Proof.
  destruct l as [|b l]; simpl; [by split|]. split; [intros [? ?]|intros [H ?]]; split; auto.
  by intros c [= <-].
Qed.

Lemma chain_app h l1 a l2 : chain h (l1 ++ a :: l2) <-> chain h (l1 ++ [a]) /\ chain h (a :: l2).
Proof.
  induction l1 as [|x l1 IH]; [simpl; tauto|].
  change ((x :: l1) ++ a :: l2) with (x :: (l1 ++ a :: l2)).
  change ((x :: l1) ++ [a]) with (x :: (l1 ++ [a])).
  rewrite (chain_cons h x (l1 ++ a :: l2)), (chain_cons h x (l1 ++ [a])), IH.
  assert (head (l1 ++ a :: l2) = head (l1 ++ [a])) as -> by (by destruct l1). tauto.
Qed.

Lemma chain_agree h h' l :
  NoDup l -> (forall a, a ∈ l -> last l <> Some a -> nx h' a = nx h a) ->
  (forall a, a ∈ l -> head l <> Some a -> pv h' a = pv h a) -> chain h l -> chain h' l.
Proof.
  induction l as [|a l IH]; [done|]. intros Hnd Hn Hp. rewrite !chain_cons. intros [Hl Hc].
  apply NoDup_cons in Hnd as [Ha Hnd]. split.
  - intros b Hb. destruct (Hl b Hb) as [H1 H2]. destruct l as [|b' l]; [done|]. simplify_eq/=.
    split.
    + rewrite Hn; [done|left|]. intros E. apply Ha. apply list_elem_of_lookup.
      rewrite last_lookup in E. eexists. exact E.
    + rewrite Hp; [done|right; left|]. intros [= ->]. apply Ha. left.
  - apply IH; [done| | |done].
    + intros b Hb He. apply Hn; [by right|].
      destruct l; [by apply elem_of_nil in Hb|done].
    + intros b Hb He. apply Hp; [by right|]. intros [= ->]. done.
Qed.

(** The neighbours in a chain. *)
Lemma chain_linked h l1 a b l2 : chain h (l1 ++ a :: b :: l2) -> linked h a b.
Proof. rewrite chain_app. intros [_ H]. apply H. Qed.

End links.

(** ** Symbolic execution *)

Section exec.
Implicit Types (h : heap) (a b p n : addr).

Lemma is_head_ok h a : valid h a -> is_head (Some a) h = Ok (null (pv h a) && negb (null (nx h a)), h).
Proof.
  intros Hv. unfold is_head. simpl. kstep (get_prev_ok h a Hv). by kstep (get_next_ok h a Hv).
Qed.
Lemma is_interior_ok h a :
  valid h a -> is_interior (Some a) h = Ok (negb (null (pv h a)) && negb (null (nx h a)), h).
Proof.
  intros Hv. unfold is_interior. simpl. kstep (get_prev_ok h a Hv). by kstep (get_next_ok h a Hv).
Qed.
Lemma is_tail_ok h a : valid h a -> is_tail (Some a) h = Ok (negb (null (pv h a)) && null (nx h a), h).
Proof.
  intros Hv. unfold is_tail. simpl. kstep (get_prev_ok h a Hv). by kstep (get_next_ok h a Hv).
Qed.

Lemma assert_interior_ok h a p n :
  pv h a = Some p -> nx h a = Some n -> ASSERTm (is_interior (Some a)) h = Ok (tt, h).
Proof.
  intros Hp Hn. unfold ASSERTm. kstep (is_interior_ok h a (pv_valid _ _ _ Hp)).
  by rewrite Hp, Hn.
Qed.
Lemma assert_has_prev h a p :
  pv h a = Some p -> ASSERTm (orM (is_interior (Some a)) (is_tail (Some a))) h = Ok (tt, h).
Proof.
  intros Hp. assert (Hv := pv_valid _ _ _ Hp). unfold ASSERTm, orM. rewrite bind_assoc.
  kstep (is_interior_ok h a Hv). rewrite Hp. simpl. destruct (nx h a) eqn:En; [done|].
  simpl. kstep (is_tail_ok h a Hv). by rewrite Hp, En.
Qed.
Lemma assert_has_next h a n :
  nx h a = Some n -> ASSERTm (orM (is_head (Some a)) (is_interior (Some a))) h = Ok (tt, h).
Proof.
  intros Hn. assert (Hv := nx_valid _ _ _ Hn). unfold ASSERTm, orM. rewrite bind_assoc.
  kstep (is_head_ok h a Hv). rewrite Hn. destruct (pv h a) eqn:Ep; [|done].
  simpl. kstep (is_interior_ok h a Hv). by rewrite Ep, Hn.
Qed.

Lemma list_next_ok h a n : nx h a = Some n -> list_next (Some a) h = Ok (Some n, h).
Proof.
  intros Hn. unfold list_next. kstep (assert_has_next h a n Hn).
  rewrite get_next_ok by (by eapply nx_valid). by rewrite Hn.
Qed.
Lemma list_prev_ok h a p : pv h a = Some p -> list_prev (Some a) h = Ok (Some p, h).
Proof.
  intros Hp. unfold list_prev. kstep (assert_has_prev h a p Hp).
  rewrite get_prev_ok by (by eapply pv_valid). by rewrite Hp.
Qed.

Lemma get_next_eq h a (n : ptr) : nx h a = n -> valid h a -> get_next (Some a) h = Ok (n, h).
Proof. intros <-. apply get_next_ok. Qed.
Lemma get_prev_eq h a (p : ptr) : pv h a = p -> valid h a -> get_prev (Some a) h = Ok (p, h).
Proof. intros <-. apply get_prev_ok. Qed.

End exec.

(** Links of an updated heap, and validity of its addresses. *)
Ltac valid :=
  repeat first [ apply valid_upd_next | apply valid_upd_prev ];
  first [ assumption | eapply nx_valid; eassumption | eapply pv_valid; eassumption ].
Ltac links :=
  repeat first
    [ rewrite pv_upd_next | rewrite nx_upd_prev
    | rewrite nx_upd_next by valid | rewrite pv_upd_prev by valid ];
  repeat case_decide; subst.

(** Read or write a link of a known element. *)
Ltac known_link := links; first [ exfalso; congruence | eassumption | reflexivity ].
Ltac kget := first
  [ erewrite bind_ok by (apply get_next_eq; [known_link|valid]); cbv beta
  | erewrite bind_ok by (apply get_prev_eq; [known_link|valid]); cbv beta ].
Ltac kset := first
  [ erewrite bind_ok by (apply set_next_ok; valid); cbv beta
  | erewrite bind_ok by (apply set_prev_ok; valid); cbv beta ].

(** [list_insert] before [b], whose predecessor is [p]. *)
Lemma list_insert_exec h b e p :
  pv h b = Some p -> valid h p -> valid h e -> b <> e -> p <> e ->
  list_insert (Some b) (Some e) h =
    Ok (tt, upd_prev b (Some e) (upd_next p (Some e)
              (upd_next e (Some b) (upd_prev e (Some p) h)))).
Proof.
  intros Hp Hvp Hve Hbe Hpe. unfold list_insert. kstep (assert_has_prev h b p Hp).
  rewrite ASSERT_true by done. kget. kset. kset. kget. kset. apply set_prev_ok. valid.
Qed.

(** ** Insertion and removal, on the sequence of elements *)

(** The element (or the tail) at which the suffix [ys] of a list starts. *)
Definition start (l : dlist) (ys : list addr) : addr :=
  match ys with y :: _ => y | [] => ltail l end.

Section lists.
Implicit Types (h : heap) (a b e p : addr) (xs ys : list addr).

Lemma suffix_split l ys : exists zs, ys ++ [ltail l] = start l ys :: zs.
Proof. destruct ys; simpl; eauto. Qed.
Lemma prefix_split l xs : exists zs p, lhead l :: xs = zs ++ [p].
Proof.
  destruct (exists_last (l := lhead l :: xs)) as (zs & p & E); [done|]. eauto.
Qed.

(** A place in the list: the elements before and after it. *)
Record place l xs ys l1 p b l2 : Prop := {
  pl_before : lhead l :: xs = l1 ++ [p];
  pl_after : ys ++ [ltail l] = b :: l2
}.

Lemma place_exists l xs ys : exists l1 p l2, place l xs ys l1 p (start l ys) l2.
Proof.
  destruct (prefix_split l xs) as (l1 & p & E1). destruct (suffix_split l ys) as (l2 & E2).
  by exists l1, p, l2.
Qed.

Lemma place_full l xs ys l1 p b l2 zs :
  place l xs ys l1 p b l2 -> full l (xs ++ zs ++ ys) = l1 ++ p :: zs ++ b :: l2.
Proof.
  intros [E1 E2]. unfold full. rewrite <- !(assoc_L (++)), E2, app_comm_cons, E1.
  by rewrite <- (assoc_L (++)).
Qed.
Lemma place_full0 l xs ys l1 p b l2 :
  place l xs ys l1 p b l2 -> full l (xs ++ ys) = l1 ++ p :: b :: l2.
Proof. apply (place_full l xs ys l1 p b l2 []). Qed.

Lemma place_neq l xs ys l1 p b l2 :
  place l xs ys l1 p b l2 -> NoDup (full l (xs ++ ys)) ->
  p <> b /\ lhead l <> b /\ ltail l <> p.
Proof.
  intros P Hnd. pose proof (place_full0 _ _ _ _ _ _ _ P) as E. destruct P as [E1 E2].
  unfold full in Hnd. rewrite <- (assoc_L (++)), app_comm_cons in Hnd.
  apply NoDup_app in Hnd as (_ & Hd & _). rewrite E1, E2 in Hd.
  split_and!.
  - intros ->. apply (Hd b); [|left]. apply elem_of_app. right. left.
  - intros H. apply (Hd b); [|left]. rewrite <- E1, <- H. left.
  - intros H. apply (Hd p); [apply elem_of_app; right; left|].
    rewrite <- E2, <- H. apply elem_of_app. right. left.
Qed.

Lemma dl_frame s h h' l xs :
  dl h l xs -> frame s h h' -> (forall a, a ∈ full l xs -> a ∉ s) -> dl h' l xs.
Proof.
  intros [Hn Hc Hh Ht] [Hf _] Hd.
  assert (Hnx : forall a, a ∈ full l xs -> nx h' a = nx h a)
    by (intros a Ha; unfold nx; by rewrite Hf by (by apply Hd)).
  assert (Hpv : forall a, a ∈ full l xs -> pv h' a = pv h a)
    by (intros a Ha; unfold pv; by rewrite Hf by (by apply Hd)).
  constructor; [done| |rewrite Hpv; [done|left]|rewrite Hnx; [done|]].
  - eapply chain_agree; [done|auto..].
  - unfold full. right. apply elem_of_app. right. left.
Qed.

(** Replacing the part of a chain between [p] and [b]. *)
Lemma chain_replace h h' l1 p mid mid' b l2 :
  NoDup (l1 ++ p :: b :: l2) -> chain h (l1 ++ p :: mid ++ b :: l2) ->
  chain h' (p :: mid' ++ [b]) ->
  (forall a, a ∈ l1 ++ p :: b :: l2 -> a <> p -> nx h' a = nx h a) ->
  (forall a, a ∈ l1 ++ p :: b :: l2 -> a <> b -> pv h' a = pv h a) ->
  chain h' (l1 ++ p :: mid' ++ b :: l2).
Proof.
  intros Hnd Hc Hm Hn Hp. rewrite chain_app in Hc. destruct Hc as [Hc1 Hc2].
  rewrite app_comm_cons, chain_app in Hc2. destruct Hc2 as [_ Hc2].
  pose proof Hnd as (Hn1 & Hd & Hn2)%NoDup_app. apply NoDup_cons in Hn2 as [Hpb Hn2].
  rewrite chain_app. split; [|rewrite app_comm_cons, chain_app; split; [done|]].
  - eapply chain_agree; [| | |exact Hc1].
    + apply NoDup_app. split_and!; [done| |apply NoDup_singleton].
      intros a Ha. rewrite list_elem_of_singleton. intros ->. by apply (Hd p Ha); left.
    + intros a [Ha|Ha%list_elem_of_singleton]%elem_of_app Hl.
      * apply Hn; [apply elem_of_app; by left|]. intros ->. by apply (Hd p Ha); left.
      * subst a. by rewrite last_snoc in Hl.
    + intros a Ha _. apply Hp.
      * apply elem_of_app. apply elem_of_app in Ha as [?|?%list_elem_of_singleton]; [by left|].
        subst. right. left.
      * intros ->. apply elem_of_app in Ha as [Ha|Ha%list_elem_of_singleton].
        -- apply (Hd b Ha). right. left.
        -- subst. apply Hpb. left.
  - eapply chain_agree; [done| | |exact Hc2].
    + intros a Ha _. apply Hn; [apply elem_of_app; right; by right|]. by intros ->.
    + intros a Ha Hne. apply Hp; [apply elem_of_app; right; by right|]. by intros ->.
Qed.

(** The links of a segment that is put between [p] and [b]. *)
Definition relink (h : heap) (p f la b : addr) : heap :=
  upd_prev b (Some la) (upd_next p (Some f) (upd_next la (Some b) (upd_prev f (Some p) h))).
(** The links of [p] and [b] when what is between them is taken out. *)
Definition unlink (h : heap) (p b : addr) : heap := upd_prev b (Some p) (upd_next p (Some b) h).

Lemma seg_disjoint l1 p seg b l2 a :
  NoDup (l1 ++ p :: seg ++ b :: l2) -> a ∈ seg -> a ∉ l1 ++ p :: b :: l2.
Proof.
  intros Hnd Ha. apply NoDup_app in Hnd as (_ & Hd & (Hp & Hn)%NoDup_cons).
  apply NoDup_app in Hn as (_ & Hd2 & _).
  rewrite elem_of_app, !elem_of_cons. intros [H|[->|H]].
  - apply (Hd a H). right. apply elem_of_app. by left.
  - apply Hp. apply elem_of_app. by left.
  - apply (Hd2 a Ha). by apply elem_of_cons.
Qed.

Lemma dl_unlink h l xs seg ys l1 p b l2 :
  dl h l (xs ++ seg ++ ys) -> place l xs ys l1 p b l2 -> NoDup (full l (xs ++ ys)) ->
  valid h p -> valid h b -> dl (unlink h p b) l (xs ++ ys).
Proof.
  intros [_ Hc Hh Ht] P Hnd Hvp Hvb.
  destruct (place_neq _ _ _ _ _ _ _ P Hnd) as (Hpb & Hlb & Htp).
  rewrite (place_full _ _ _ _ _ _ _ seg P) in Hc.
  pose proof (place_full0 _ _ _ _ _ _ _ P) as E0. unfold unlink.
  constructor; [done|rewrite E0|by links..].
  rewrite E0 in Hnd. apply (chain_replace h _ l1 p seg [] b l2); try done.
  - split; [split; by links|done].
  - intros a _ Ha. by links.
  - intros a _ Ha. by links.
Qed.

Lemma dl_relink h l xs seg ys l1 p f la b l2 :
  dl h l (xs ++ ys) -> place l xs ys l1 p b l2 -> NoDup (full l (xs ++ seg ++ ys)) ->
  chain h seg -> head seg = Some f -> last seg = Some la ->
  valid h f -> valid h la -> dl (relink h p f la b) l (xs ++ seg ++ ys).
Proof.
  intros [Hnd Hc Hh Ht] P Hnd' Hseg Hf Hla Hvf Hvla.
  destruct (place_neq _ _ _ _ _ _ _ P Hnd) as (Hpb & Hlb & Htp).
  rewrite (place_full0 _ _ _ _ _ _ _ P) in Hc, Hnd.
  destruct (chain_linked h l1 p b l2 Hc) as [Hpn Hbp].
  pose proof (place_full _ _ _ _ _ _ _ seg P) as Es. rewrite Es in Hnd'.
  assert (Hdis : forall a, a ∈ seg -> a ∉ l1 ++ p :: b :: l2)
    by (intros a Ha; by eapply seg_disjoint).
  assert (Hfs : f ∈ seg) by (by apply head_Some_elem_of).
  assert (Hls : la ∈ seg) by (by apply last_Some_elem_of).
  assert (Hne : forall a, a ∈ l1 ++ p :: b :: l2 -> a <> f /\ a <> la).
  { intros a Ha. split; intros ->; [by apply (Hdis f)|by apply (Hdis la)]. }
  assert (Hpin : p ∈ l1 ++ p :: b :: l2) by (apply elem_of_app; right; left).
  assert (Hbin : b ∈ l1 ++ p :: b :: l2) by (apply elem_of_app; right; right; left).
  destruct (Hne p Hpin), (Hne b Hbin).
  unfold relink. constructor.
  - by rewrite Es.
  - rewrite Es. apply (chain_replace h _ l1 p [] seg b l2); try done.
    + apply chain_cons. split.
      { intros c Hc'. assert (c = f) as -> by (destruct seg; simpl in *; congruence).
        split; by links. }
      destruct (last_Some seg la) as [[m Em] _]; [done|]. rewrite Em, <- (assoc_L (++)). simpl.
      rewrite chain_app. rewrite <- Em. split; [|split; [split; by links|done]].
      eapply chain_agree; [| | |exact Hseg].
      * apply NoDup_app in Hnd' as (_ & _ & (_ & Hn)%NoDup_cons). by apply NoDup_app in Hn as [? _].
      * intros a Ha Hl. assert (a <> p) by (intros ->; by apply (Hdis p)). links; congruence.
      * intros a Ha Hl. assert (a <> b) by (intros ->; by apply (Hdis b)). links; congruence.
    + intros a Ha Hap. destruct (Hne a Ha). by links.
    + intros a Ha Hap. destruct (Hne a Ha). by links.
  - destruct (Hne (lhead l)); [|by links]. rewrite <- (place_full0 _ _ _ _ _ _ _ P). left.
  - destruct (Hne (ltail l)); [|by links]. rewrite <- (place_full0 _ _ _ _ _ _ _ P).
    unfold full. right. apply elem_of_app. right. left.
Qed.

Lemma place_links h l xs ys l1 p b l2 :
  dl h l (xs ++ ys) -> place l xs ys l1 p b l2 -> nx h p = Some b /\ pv h b = Some p.
Proof.
  intros D P. apply (chain_linked h l1 p b l2). rewrite <- (place_full0 _ _ _ _ _ _ _ P). apply D.
Qed.

Lemma place_in l xs ys l1 p b l2 :
  place l xs ys l1 p b l2 -> p ∈ full l (xs ++ ys) /\ b ∈ full l (xs ++ ys).
Proof.
  intros P. rewrite (place_full0 _ _ _ _ _ _ _ P). rewrite !elem_of_app, !elem_of_cons. auto.
Qed.

Lemma full_insert_nodup l xs seg ys :
  NoDup (full l (xs ++ ys)) -> NoDup seg -> (forall a, a ∈ seg -> a ∉ full l (xs ++ ys)) ->
  NoDup (full l (xs ++ seg ++ ys)).
Proof.
  intros Hn Hs Hd.
  assert (E : full l (xs ++ seg ++ ys) ≡ₚ seg ++ full l (xs ++ ys)).
  { unfold full. rewrite (Permutation_app_comm (xs ++ ys)), (Permutation_app_comm (xs ++ _)).
    simpl. rewrite <- !Permutation_middle. do 2 constructor.
    by rewrite !(assoc_L (++)), (Permutation_app_comm xs seg). }
  rewrite E. apply NoDup_app. split_and!; [done| |done]. apply Hd.
Qed.

Lemma frame_relink s h p f la b :
  p ∈ s -> f ∈ s -> la ∈ s -> b ∈ s -> frame s h (relink h p f la b).
Proof.
  intros. unfold relink. eapply frame_trans; [|by apply frame_upd_prev].
  eapply frame_trans; [|by apply frame_upd_next].
  eapply frame_trans; [|by apply frame_upd_next]. by apply frame_upd_prev.
Qed.
Lemma frame_unlink s h p b : p ∈ s -> b ∈ s -> frame s h (unlink h p b).
Proof.
  intros. unfold unlink. eapply frame_trans; [|by apply frame_upd_prev].
  by apply frame_upd_next.
Qed.

Lemma list_insert_spec h l xs ys e :
  dl h l (xs ++ ys) -> valid h e -> e ∉ full l (xs ++ ys) ->
  exists h', list_insert (Some (start l ys)) (Some e) h = Ok (tt, h') /\
    dl h' l (xs ++ e :: ys) /\ frame (e :: full l (xs ++ ys)) h h'.
Proof.
  intros D Hv He. destruct (place_exists l xs ys) as (l1 & p & l2 & P).
  destruct (place_links _ _ _ _ _ _ _ _ D P) as [Hpn Hbp].
  destruct (place_in _ _ _ _ _ _ _ P) as [Hpi Hbi].
  exists (relink h p e e (start l ys)). split_and!.
  - apply list_insert_exec; [done|by eapply nx_valid|done|congruence..].
  - eapply (dl_relink h l xs [e] ys); try done. apply full_insert_nodup; [apply D| |].
    + apply NoDup_singleton.
    + by intros a ->%list_elem_of_singleton.
  - apply frame_relink; by (left || right).
Qed.

Lemma list_remove_exec h e p n :
  pv h e = Some p -> nx h e = Some n -> valid h p -> valid h n -> e <> p -> e <> n ->
  list_remove (Some e) h = Ok (Some n, unlink h p n).
Proof.
  intros Hp Hn Hvp Hvn Hep Hen. unfold list_remove. kstep (assert_interior_ok h e p n Hp Hn).
  kget. kget. kset. kget. kget. kset. unfold unlink. apply get_next_eq; [known_link|valid].
Qed.

Lemma list_remove_spec h l xs e ys :
  dl h l (xs ++ e :: ys) ->
  exists h', list_remove (Some e) h = Ok (Some (start l ys), h') /\
    dl h' l (xs ++ ys) /\ frame (full l (xs ++ ys)) h h' /\ valid h' e.
Proof.
  intros D. destruct (place_exists l xs ys) as (l1 & p & l2 & P).
  pose proof (place_full _ _ _ _ _ _ _ [e] P) as E.
  pose proof (dl_nodup _ _ _ D) as Hnd. pose proof (dl_chain _ _ _ D) as Hc.
  change (xs ++ e :: ys) with (xs ++ [e] ++ ys) in *. rewrite E in Hnd, Hc. simpl in *.
  destruct (chain_linked _ _ _ _ _ Hc) as [Hpn Hep].
  rewrite cons_middle, (assoc_L (++)) in Hc. destruct (chain_linked _ _ _ _ _ Hc) as [Hen Hbp].
  assert (He : e ∉ l1 ++ p :: start l ys :: l2) by (apply (seg_disjoint _ _ [e]); [done|left]).
  rewrite elem_of_app, !elem_of_cons in He.
  destruct (place_in _ _ _ _ _ _ _ P) as [Hpi Hbi].
  exists (unlink h p (start l ys)). split_and!.
  - apply list_remove_exec; try done; [by eapply nx_valid|by eapply pv_valid|tauto..].
  - eapply (dl_unlink h l xs [e]); [done|done| |by eapply nx_valid|by eapply pv_valid].
    rewrite (place_full0 _ _ _ _ _ _ _ P). eapply sublist_NoDup; [exact Hnd|].
    apply sublist_app; [done|]. apply sublist_skip. by apply sublist_cons.
  - by apply frame_unlink.
  - unfold unlink. valid.
Qed.

Lemma list_begin_ok h l xs : dl h l xs -> list_begin l h = Ok (Some (start l xs), h).
Proof.
  intros D. destruct (suffix_split l xs) as (zs & E).
  assert (H : linked h (lhead l) (start l xs)).
  { pose proof (dl_chain _ _ _ D) as Hc. unfold full in Hc. rewrite E in Hc. apply Hc. }
  unfold list_begin. apply get_next_eq; [apply H|by eapply nx_valid, H].
Qed.

Lemma start_tail h l xs : dl h l xs -> start l xs = ltail l <-> xs = [].
Proof.
  intros D. destruct xs as [|x xs]; [done|]. simpl. split; [|done]. intros ->.
  pose proof (dl_nodup _ _ _ D) as [_ Hn]%NoDup_cons. simpl in Hn.
  apply NoDup_cons in Hn as [Hn _]. exfalso. apply Hn. apply elem_of_app. right. left.
Qed.

Lemma list_empty_ok h l xs :
  dl h l xs -> list_empty l h = Ok (match xs with [] => true | _ => false end, h).
Proof.
  intros D. unfold list_empty. kstep (list_begin_ok h l xs D).
  unfold ptr_eqb, list_end, mret, K_ret. do 2 f_equal.
  destruct xs as [|x xs']; [by apply bool_decide_eq_true|].
  apply bool_decide_eq_false. intros [= H]. by apply (start_tail h l (x :: xs') D) in H.
Qed.

(** ** The two ends *)

Lemma list_push_back_spec h l xs e :
  dl h l xs -> valid h e -> e ∉ full l xs ->
  exists h', list_push_back l (Some e) h = Ok (tt, h') /\ dl h' l (xs ++ [e]) /\
    frame (e :: full l xs) h h'.
Proof.
  intros D Hv He. pose proof (list_insert_spec h l xs [] e) as H. rewrite app_nil_r in H. auto.
Qed.

Lemma list_push_front_spec h l xs e :
  dl h l xs -> valid h e -> e ∉ full l xs ->
  exists h', list_push_front l (Some e) h = Ok (tt, h') /\ dl h' l (e :: xs) /\
    frame (e :: full l xs) h h'.
Proof.
  intros D Hv He. unfold list_push_front. kstep (list_begin_ok h l xs D).
  by apply (list_insert_spec h l []).
Qed.

Lemma list_pop_front_spec h l x xs :
  dl h l (x :: xs) ->
  exists h', list_pop_front l h = Ok (Some x, h') /\ dl h' l xs /\ frame (full l xs) h h' /\
    valid h' x.
Proof.
  intros D. destruct (list_remove_spec h l [] x xs D) as (h' & Hx & Dh & F & Hv).
  exists h'. split_and!; [|done..]. unfold list_pop_front, list_front. rewrite bind_assoc.
  kstep (list_empty_ok h l _ D). rewrite bind_assoc, ASSERT_true by done.
  kstep (list_begin_ok h l _ D). by kstep Hx.
Qed.

Lemma list_pop_back_spec h l xs x :
  dl h l (xs ++ [x]) ->
  exists h', list_pop_back l h = Ok (Some x, h') /\ dl h' l xs /\ frame (full l xs) h h' /\
    valid h' x.
Proof.
  intros D. destruct (list_remove_spec h l xs x [] D) as (h' & Hx & Dh & F & Hv).
  rewrite app_nil_r in Dh, F. exists h'. split_and!; [|done..].
  unfold list_pop_back, list_back. rewrite bind_assoc. kstep (list_empty_ok h l _ D).
  assert (Hl : pv h (ltail l) = Some x).
  { apply (chain_linked h (lhead l :: xs) x (ltail l) []).
    pose proof (dl_chain _ _ _ D) as Hc. unfold full in Hc. by rewrite <- (assoc_L (++)) in Hc. }
  rewrite bind_assoc, ASSERT_true by (by destruct xs).
  kstep (get_prev_eq h (ltail l) _ Hl (pv_valid _ _ _ Hl)). by kstep Hx.
Qed.

(** ** Splicing *)

Lemma chain_has_next h l1 a l2 b : chain h (l1 ++ a :: l2 ++ [b]) -> is_Some (nx h a).
Proof.
  destruct l2 as [|c l2]; simpl; intros Hc%chain_linked; destruct Hc as [-> _]; eauto.
Qed.
Lemma chain_has_prev h a l1 b l2 : chain h (a :: l1 ++ b :: l2) -> is_Some (pv h b).
Proof.
  intros Hc. destruct (exists_last (l := a :: l1)) as (zs & c & E); [done|].
  rewrite app_comm_cons, E, <- (assoc_L (++)) in Hc. apply chain_linked in Hc as [_ ->]. eauto.
Qed.

(** The links around a non-empty segment of a list. *)
Lemma seg_links h l xs seg ys l1 p b l2 f la :
  dl h l (xs ++ seg ++ ys) -> place l xs ys l1 p b l2 -> head seg = Some f -> last seg = Some la ->
  linked h p f /\ linked h la b /\ chain h seg /\ is_Some (nx h f) /\ is_Some (pv h la).
Proof.
  intros D P Hf Hla. pose proof (dl_chain _ _ _ D) as Hc.
  rewrite (place_full _ _ _ _ _ _ _ seg P) in Hc. rewrite chain_app in Hc. destruct Hc as [_ Hc].
  rewrite app_comm_cons, chain_app in Hc. destruct Hc as [Hc _].
  destruct (last_Some seg la) as [[m' Em] _]; [done|].
  pose proof Hc as Hc0. rewrite <- app_comm_cons in Hc0.
  apply chain_cons in Hc0 as [Hpf Hc'].
  rewrite Em, <- (assoc_L (++)) in Hc'. simpl in Hc'. rewrite chain_app in Hc'.
  rewrite <- Em in Hc'. destruct Hc' as [Hs Hlb].
  split_and!; [|apply Hlb|done| |].
  - apply Hpf. by destruct seg.
  - destruct seg as [|f' m]; [done|]. injection Hf as ->. by apply (chain_has_next h [p] f m b).
  - rewrite Em, <- app_comm_cons, <- (assoc_L (++)) in Hc. by apply (chain_has_prev h p m' la [b]).
Qed.

Lemma list_splice_exec h bf bp f fp la n :
  f <> n -> linked h fp f -> linked h la n -> is_Some (nx h f) -> is_Some (pv h la) ->
  is_Some (pv h bf) -> f <> n -> la <> fp -> f <> fp -> la <> n -> f <> bf -> bp <> la ->
  pv (unlink h fp n) bf = Some bp -> valid h bp ->
  list_splice (Some bf) (Some f) (Some n) h = Ok (tt, relink (unlink h fp n) bp f la bf).
Proof.
  intros Hfn [Hfp1 Hfp2] [Hla1 Hla2] [fn Hfn'] [lp Hlp] [bp0 Hbp0] ?????? Hbp Hvbp.
  unfold list_splice. kstep (assert_has_prev h bf bp0 Hbp0).
  unfold ptr_eqb. rewrite bool_decide_eq_false_2 by congruence.
  kstep (list_prev_ok h n la Hla2). kstep (assert_interior_ok h f fp fn Hfp2 Hfn').
  kstep (assert_interior_ok h la lp n Hlp Hla1).
  kget. kget. kset. kget. kget. kset. fold (unlink h fp n).
  assert (Hv : forall a, valid h a -> valid (unlink h fp n) a) by (intros; unfold unlink; valid).
  assert (Hvbf : valid (unlink h fp n) bf) by (by eapply pv_valid).
  assert (Hvf : valid (unlink h fp n) f) by (by eapply Hv, nx_valid).
  assert (Hvla : valid (unlink h fp n) la) by (by eapply Hv, nx_valid).
  apply Hv in Hvbp. revert Hbp Hvbp Hvbf Hvf Hvla. generalize (unlink h fp n) as g. intros g.
  intros. kget. kset. kset. kget. kset. unfold relink. apply set_prev_ok. valid.
Qed.

Lemma seg_ends l seg : seg <> [] -> exists f la, head seg = Some f /\ last seg = Some la /\
  start l seg = f /\ f ∈ seg /\ la ∈ seg.
Proof.
  destruct seg as [|f m]; [done|]. intros _.
  destruct (last_is_Some (f :: m)) as [_ [la Hla]]; [done|].
  exists f, la. split_and!; [done..|left|by apply last_Some_elem_of].
Qed.

(** The splice after the segment has been taken out of its list; [l'] is the list
    it goes to, which may be the same one. *)
Lemma splice_core h l xs seg ys l1 p b l2 l' us vs :
  dl h l (xs ++ seg ++ ys) -> place l xs ys l1 p b l2 -> seg <> [] ->
  dl (unlink h p b) l' (us ++ vs) -> (forall a, a ∈ seg -> a ∉ full l' (us ++ vs)) ->
  exists h', list_splice (Some (start l' vs)) (Some (start l seg)) (Some b) h = Ok (tt, h') /\
    dl h' l' (us ++ seg ++ vs) /\ frame (seg ++ full l' (us ++ vs)) (unlink h p b) h'.
Proof.
  intros D P Hne D1 Hdis. destruct (seg_ends l seg Hne) as (f & la & Hf & Hla & Es & Hfi & Hli).
  destruct (seg_links _ _ _ _ _ _ _ _ _ _ _ D P Hf Hla) as (Hpf & Hlb & Hs & Hnf & Hpl).
  destruct (place_exists l' us vs) as (k1 & bp & k2 & P').
  destruct (place_links _ _ _ _ _ _ _ _ D1 P') as [Hbpn Hbp].
  destruct (place_in _ _ _ _ _ _ _ P') as [Hbpi Hbfi].
  pose proof (dl_nodup _ _ _ D) as Hnd. rewrite (place_full _ _ _ _ _ _ _ seg P) in Hnd.
  assert (Hsd : forall a, a ∈ seg -> a <> p /\ a <> b).
  { intros a Ha. pose proof (seg_disjoint _ _ _ _ _ a Hnd Ha) as H.
    rewrite elem_of_app, !elem_of_cons in H. tauto. }
  assert (Hnd' : NoDup seg).
  { apply NoDup_app in Hnd as (_ & _ & (_ & Hn)%NoDup_cons). by apply NoDup_app in Hn as [? _]. }
  assert (Hvp : valid h p) by (by eapply nx_valid, Hpf).
  assert (Hvb : valid h b) by (by eapply pv_valid, Hlb).
  assert (Hvf : valid h f) by (by eapply pv_valid, Hpf).
  assert (Hvla : valid h la) by (by eapply nx_valid, Hlb).
  destruct (Hsd f Hfi), (Hsd la Hli).
  exists (relink (unlink h p b) bp f la (start l' vs)). split_and!.
  - rewrite Es. apply list_splice_exec; try done.
    + unfold unlink in Hbp. rewrite pv_upd_prev in Hbp by valid. case_decide as E.
      * rewrite E. destruct Hlb as [_ ->]. eauto.
      * rewrite pv_upd_next in Hbp. eauto.
    + intros ->. by apply (Hdis (start l' vs)).
    + intros ->. by apply (Hdis la).
    + unfold unlink in Hbpn. apply nx_valid in Hbpn.
      by rewrite valid_upd_prev, valid_upd_next in Hbpn.
  - eapply dl_relink; try done.
    + apply full_insert_nodup; [apply D1|done..].
    + eapply chain_agree; [done| | |exact Hs]; intros a Ha _; destruct (Hsd a Ha);
        unfold unlink; by links.
    + unfold unlink. valid.
    + unfold unlink. valid.
  - apply frame_relink; apply elem_of_app; auto.
Qed.

Lemma dl_cut h l xs seg ys l1 p b l2 :
  dl h l (xs ++ seg ++ ys) -> place l xs ys l1 p b l2 -> seg <> [] ->
  dl (unlink h p b) l (xs ++ ys) /\ (forall a, a ∈ seg -> a ∉ full l (xs ++ ys)).
Proof.
  intros D P Hne. destruct (seg_ends l seg Hne) as (f & la & Hf & Hla & _).
  destruct (seg_links _ _ _ _ _ _ _ _ _ _ _ D P Hf Hla) as (Hpf & Hlb & _).
  pose proof (dl_nodup _ _ _ D) as Hnd. rewrite (place_full _ _ _ _ _ _ _ seg P) in Hnd.
  rewrite (place_full0 _ _ _ _ _ _ _ P). split; [|intros a; by apply seg_disjoint].
  eapply dl_unlink; [done|done| |by eapply nx_valid, Hpf|by eapply pv_valid, Hlb].
  rewrite (place_full0 _ _ _ _ _ _ _ P). eapply sublist_NoDup; [exact Hnd|].
  apply sublist_app; [done|]. apply sublist_skip. by apply sublist_inserts_l.
Qed.

(** Moving a segment within its list. *)
Lemma list_splice_same h l xs seg ys us vs :
  dl h l (xs ++ seg ++ ys) -> seg <> [] -> xs ++ ys = us ++ vs ->
  exists h', list_splice (Some (start l vs)) (Some (start l seg)) (Some (start l ys)) h = Ok (tt, h') /\
    dl h' l (us ++ seg ++ vs) /\ frame (full l (xs ++ seg ++ ys)) h h'.
Proof.
  intros D Hne E. destruct (place_exists l xs ys) as (l1 & p & l2 & P).
  destruct (dl_cut _ _ _ _ _ _ _ _ _ D P Hne) as [D1 Hd].
  destruct (place_in _ _ _ _ _ _ _ P) as [Hpi Hbi]. rewrite E in D1, Hd.
  destruct (splice_core _ _ _ _ _ _ _ _ _ _ _ _ D P Hne D1 Hd) as (h' & Hx & D' & F).
  assert (Hin : full l (xs ++ ys) ⊆ full l (xs ++ seg ++ ys)).
  { intros a. unfold full. rewrite !elem_of_cons, !elem_of_app. tauto. }
  exists h'. split_and!; [done..|]. eapply frame_trans; [apply (frame_unlink _ h p (start l ys)); by apply Hin|].
  eapply frame_mono; [|exact F]. rewrite <- E. intros a [Ha|Ha]%elem_of_app; [|by apply Hin].
  unfold full. rewrite elem_of_cons, !elem_of_app. auto.
Qed.

(** Moving a segment to another list. *)
Lemma list_splice_other h l xs seg ys l' us vs :
  dl h l (xs ++ seg ++ ys) -> seg <> [] -> dl h l' (us ++ vs) ->
  (forall a, a ∈ full l (xs ++ seg ++ ys) -> a ∉ full l' (us ++ vs)) ->
  exists h', list_splice (Some (start l' vs)) (Some (start l seg)) (Some (start l ys)) h = Ok (tt, h') /\
    dl h' l (xs ++ ys) /\ dl h' l' (us ++ seg ++ vs).
Proof.
  intros D Hne D' Hdis. destruct (place_exists l xs ys) as (l1 & p & l2 & P).
  destruct (dl_cut _ _ _ _ _ _ _ _ _ D P Hne) as [D1 Hd].
  destruct (place_in _ _ _ _ _ _ _ P) as [Hpi Hbi].
  assert (Hin : full l (xs ++ ys) ⊆ full l (xs ++ seg ++ ys)).
  { intros a. unfold full. rewrite !elem_of_cons, !elem_of_app. tauto. }
  assert (Hseg : seg ⊆ full l (xs ++ seg ++ ys)).
  { intros a Ha. unfold full. rewrite elem_of_cons, !elem_of_app. auto. }
  assert (D1' : dl (unlink h p (start l ys)) l' (us ++ vs)).
  { eapply dl_frame; [done|apply (frame_unlink (full l (xs ++ ys))); done|].
    intros a Ha Hb. by apply (Hdis a); [apply Hin|]. }
  destruct (splice_core _ _ _ _ _ _ _ _ _ _ _ _ D P Hne D1') as (h' & Hx & D2 & F).
  { intros a Ha. apply Hdis. by apply Hseg. }
  exists h'. split_and!; [done| |done]. eapply dl_frame; [exact D1|exact F|].
  intros a Ha [Hb|Hb]%elem_of_app; [by apply (Hd a)|]. apply (Hdis a); [by apply Hin|done].
Qed.

(** ** Iteration *)

Lemma dl_next h l xs x ys :
  dl h l (xs ++ x :: ys) -> nx h x = Some (start l ys) /\ pv h (start l ys) = Some x.
Proof.
  intros D. destruct (suffix_split l ys) as (l2 & E). rewrite cons_middle, (assoc_L (++)) in D.
  by apply (place_links _ _ _ _ (lhead l :: xs) _ _ l2 D).
Qed.

Lemma dl_last h l xs ys x : dl h l (xs ++ ys) -> last xs = Some x -> pv h (start l ys) = Some x.
Proof.
  intros D Hx. destruct (last_Some xs x) as [[m Em] _]; [done|]. rewrite Em, <- (assoc_L (++)) in D.
  by apply (dl_next h l m x ys).
Qed.

Lemma dl_start_neq h l xs y ys : dl h l (xs ++ y :: ys) -> y <> ltail l.
Proof.
  intros D ->. pose proof (dl_nodup _ _ _ D) as [_ Hn]%NoDup_cons.
  rewrite <- (assoc_L (++)) in Hn. apply NoDup_app in Hn as (_ & _ & (Hn & _)%NoDup_cons).
  apply Hn. apply elem_of_app. right. left.
Qed.

Lemma chain_valid h ls a : chain h ls -> a ∈ ls -> (2 <= length ls)%nat -> valid h a.
Proof.
  induction ls as [|x ls IH]; intros Hc Ha Hl; [by apply elem_of_nil in Ha|].
  destruct ls as [|y ls]; [simpl in Hl; lia|]. destruct Hc as [[H1 H2] Hc].
  apply elem_of_cons in Ha as [->|Ha]; [by eapply nx_valid|].
  destruct ls as [|z ls].
  - apply list_elem_of_singleton in Ha as ->. by eapply pv_valid.
  - apply IH; [done..|simpl; lia].
Qed.

Lemma dl_valid h l xs a : dl h l xs -> a ∈ full l xs -> valid h a.
Proof.
  intros D Ha. eapply chain_valid; [apply D|done|].
  unfold full. simpl. rewrite length_app. simpl. lia.
Qed.

Lemma dl_size h l xs : dl h l xs -> (length xs + 2 <= size h)%nat.
Proof.
  intros D. pose proof (dl_nodup _ _ _ D) as Hn. rewrite <- (size_dom h).
  replace (length xs + 2)%nat with (length (full l xs))
    by (unfold full; simpl; rewrite length_app; simpl; lia).
  rewrite <- (size_list_to_set (C := gset addr) (full l xs) Hn). apply subseteq_size.
  intros a Ha%elem_of_list_to_set. apply elem_of_dom. by eapply dl_valid.
Qed.

Lemma with_fuel_ok {A} (f : nat -> K heap A) h : with_fuel f h = f (S (size h)) h.
Proof. done. Qed.

Lemma ptr_eqb_end h l xs ys :
  dl h l (xs ++ ys) -> ptr_eqb (Some (start l ys)) (list_end l) = match ys with [] => true | _ => false end.
Proof.
  intros D. unfold ptr_eqb, list_end. destruct ys as [|y ys']; simpl.
  - by apply bool_decide_eq_true.
  - apply bool_decide_eq_false. intros [= H]. by apply (dl_start_neq h l xs y ys') in D.
Qed.

Lemma size_loop_ok h l ys : forall xs fuel cnt,
  dl h l (xs ++ ys) -> (length ys <= fuel)%nat ->
  size_loop fuel l (Some (start l ys)) cnt h =
    Ok (match ys with [] => cnt | _ => u32 (cnt + Z.of_nat (length ys)) end, h).
Proof.
  induction ys as [|y ys IH]; intros xs fuel cnt D Hf.
  - destruct fuel; cbn [size_loop]; by rewrite (ptr_eqb_end h l xs []).
  - destruct fuel as [|fuel]; [simpl in Hf; lia|]. cbn [size_loop].
    rewrite (ptr_eqb_end h l xs (y :: ys)) by done. cbn [start].
    kstep (list_next_ok h y _ (proj1 (dl_next h l xs y ys D))).
    rewrite cons_middle, (assoc_L (++)) in D. rewrite (IH _ _ _ D) by (simpl in Hf; lia).
    do 2 f_equal. destruct ys as [|y' ys]; [done|]. unfold wrapu. rewrite Zplus_mod_idemp_l.
    f_equal. simpl length. lia.
Qed.

Lemma list_size_ok h l xs : dl h l xs -> list_size l h = Ok (u32 (Z.of_nat (length xs)), h).
Proof.
  intros D. unfold list_size. kstep (list_begin_ok h l xs D). rewrite with_fuel_ok.
  rewrite (size_loop_ok h l xs []); [|done|pose proof (dl_size h l xs D); lia].
  by destruct xs.
Qed.

(** ** Reversal *)

(** The interior elements [xs] have their links swapped. *)
Definition swapped (h g : heap) (xs : list addr) : Prop :=
  frame xs h g /\ forall a, a ∈ xs -> nx g a = pv h a /\ pv g a = nx h a.

Lemma frame_links s h h' a : frame s h h' -> a ∉ s -> nx h' a = nx h a /\ pv h' a = pv h a.
Proof. intros [Hf _] Ha. unfold nx, pv. by rewrite Hf. Qed.

Lemma swap_links_ok h a :
  valid h a -> swap_links (Some a) h = Ok (tt, upd_next a (pv h a) (upd_prev a (nx h a) h)).
Proof.
  intros Hv. unfold swap_links. kstep (get_prev_ok h a Hv). kstep (get_next_ok h a Hv).
  kset. apply set_next_ok. valid.
Qed.

Lemma reverse_loop_ok h l ys : forall xs fuel g,
  dl h l (xs ++ ys) -> swapped h g xs -> (length ys <= fuel)%nat ->
  exists g', reverse_loop fuel l (Some (start l ys)) g = Ok (tt, g') /\ swapped h g' (xs ++ ys).
Proof.
  induction ys as [|y ys IH]; intros xs fuel g D S Hf.
  - exists g. rewrite app_nil_r. split; [|done].
    destruct fuel; cbn [reverse_loop]; by rewrite (ptr_eqb_end h l xs []).
  - destruct fuel as [|fuel]; [simpl in Hf; lia|]. cbn [reverse_loop].
    rewrite (ptr_eqb_end h l xs (y :: ys)) by done. cbn [start].
    assert (Hvy : valid h y).
    { eapply dl_valid; [done|]. unfold full. rewrite elem_of_cons, !elem_of_app, elem_of_cons. auto. }
    assert (Hy : y ∉ xs).
    { pose proof (dl_nodup _ _ _ D) as [_ Hn]%NoDup_cons. rewrite <- (assoc_L (++)) in Hn.
      apply NoDup_app in Hn as (_ & Hd & _). intros Hin. apply (Hd y Hin). left. }
    destruct S as [F Sw]. destruct (frame_links _ _ _ _ F Hy) as [En Ep].
    assert (Hvg : valid g y) by (by apply (frame_valid _ _ _ y F)).
    set (g1 := upd_next y (pv g y) (upd_prev y (nx g y) g)).
    assert (S1 : swapped h g1 (xs ++ [y])).
    { split.
      - eapply frame_trans; [eapply frame_mono; [|exact F]; intros ? ?; apply elem_of_app; by left|].
        eapply frame_trans; [apply frame_upd_prev|apply frame_upd_next];
          apply elem_of_app; right; left.
      - intros a [Ha|Ha%list_elem_of_singleton]%elem_of_app.
        + assert (a <> y) by congruence. unfold g1. destruct (Sw a Ha). split; by links.
        + subst a. unfold g1. split; links; done. }
    kstep (swap_links_ok g y Hvg). fold g1.
    assert (Hg1 : pv g1 y = Some (start l ys)).
    { unfold g1. links; [|done]. rewrite En. by apply (dl_next h l xs y ys). }
    kstep (get_prev_eq g1 y _ Hg1 (pv_valid _ _ _ Hg1)).
    rewrite cons_middle, (assoc_L (++)) in D |- *. apply IH; [done..|simpl in Hf; lia].
Qed.

Lemma chain_rev h g ls :
  (forall a, a ∈ ls -> nx g a = pv h a /\ pv g a = nx h a) -> chain h ls -> chain g (reverse ls).
Proof.
  induction ls as [|a ls IH]; intros Hs Hc; [done|]. rewrite reverse_cons.
  rewrite chain_cons in Hc. destruct Hc as [Ha Hc].
  destruct ls as [|b ls]; [done|].
  assert (IH' : chain g (reverse (b :: ls))) by (apply IH; [|done]; intros c Hc'; apply Hs; by right).
  rewrite reverse_cons in IH' |- *. rewrite <- (assoc_L (++)). simpl. rewrite chain_app.
  split; [done|]. split; [|done]. destruct (Ha b eq_refl) as [Hab Hba].
  split; [rewrite (proj1 (Hs b ltac:(right; left)))|rewrite (proj2 (Hs a ltac:(left)))]; done.
Qed.

Lemma dl_distinct h l xs :
  dl h l xs -> NoDup xs /\ lhead l <> ltail l /\ forall a, a ∈ xs -> a <> lhead l /\ a <> ltail l.
Proof.
  intros D. pose proof (dl_nodup _ _ _ D) as [Hh (Hxs & Hd & _)%NoDup_app]%NoDup_cons.
  split_and!; [done| |].
  - intros E. apply Hh. rewrite E. apply elem_of_app. right. left.
  - intros a Ha. split; intros ->; [apply Hh; apply elem_of_app; by left|].
    apply (Hd _ Ha). left.
Qed.

Lemma in_full l xs : xs ⊆ full l xs /\ lhead l ∈ full l xs /\ ltail l ∈ full l xs.
Proof.
  unfold full. split_and!; [|left|right; apply elem_of_app; right; left].
  intros a Ha. right. apply elem_of_app. by left.
Qed.

Lemma chain_prefix h l1 l2 : chain h (l1 ++ l2) -> chain h l1.
Proof.
  induction l1 as [|a l1 IH]; [done|]. intros Hc. rewrite <- app_comm_cons in Hc.
  apply chain_cons in Hc as [Ha Hc]. apply chain_cons. split; [|auto].
  intros b Hb. apply Ha. by destruct l1.
Qed.

(** The headers after the loop: the last two [swap]s. *)
Definition reversed (g : heap) l x1 xn : heap :=
  upd_next x1 (Some (ltail l)) (upd_prev xn (Some (lhead l))
    (upd_prev (ltail l) (Some x1) (upd_next (lhead l) (Some xn) g))).

Lemma frame_reversed h g l xs x1 xn :
  frame xs h g -> x1 ∈ xs -> xn ∈ xs -> frame (full l xs) h (reversed g l x1 xn).
Proof.
  intros F H1 Hn. destruct (in_full l xs) as (Hs & Hh & Ht). unfold reversed.
  eapply frame_trans; [by eapply frame_mono|].
  eapply frame_trans; [by apply (frame_upd_next _ _ (lhead l))|].
  eapply frame_trans; [by apply (frame_upd_prev _ _ (ltail l))|].
  eapply frame_trans; [apply (frame_upd_prev _ _ xn)|apply (frame_upd_next _ _ x1)]; auto.
Qed.

Lemma dl_reversed h g l x1 xn xs :
  dl h l xs -> swapped h g xs -> head xs = Some x1 -> last xs = Some xn ->
  dl (reversed g l x1 xn) l (reverse xs).
Proof.
  intros D [F Sw] H1 Hn. destruct (dl_distinct _ _ _ D) as (Hxs & Hht & Hneq).
  assert (Hx1 : x1 ∈ xs) by (by apply head_Some_elem_of).
  assert (Hxn : xn ∈ xs) by (by apply last_Some_elem_of).
  destruct (Hneq _ Hx1), (Hneq _ Hxn). destruct (in_full l xs) as (Hs & Hh & Ht).
  assert (Hv : forall a, a ∈ full l xs -> valid g a).
  { intros a Ha. apply (frame_valid _ _ _ a F). by eapply dl_valid. }
  assert (valid g x1) by auto. assert (valid g xn) by auto.
  assert (valid g (lhead l)) by auto. assert (valid g (ltail l)) by auto.
  assert (Hrev : forall a, a ∈ reverse xs <-> a ∈ xs) by (intros a; apply elem_of_reverse).
  assert (Hlh : lhead l ∉ xs) by (intros Hin; by destruct (Hneq _ Hin)).
  assert (Hlt : ltail l ∉ xs) by (intros Hin; by destruct (Hneq _ Hin)).
  unfold reversed. constructor.
  - unfold full. rewrite (reverse_Permutation xs). apply D.
  - unfold full. apply chain_cons. split.
    { intros b Hb. assert (b = xn) as ->.
      { destruct (last_Some xs xn) as [[m ->] _]; [done|].
        rewrite reverse_app in Hb. simpl in Hb. congruence. }
      split; by links. }
    destruct xs as [|x xs]; [done|]. injection H1 as ->. rewrite reverse_cons, <- (assoc_L (++)).
    simpl. rewrite chain_app, <- reverse_cons. split; [|split; [split; by links|done]].
    eapply (chain_agree g); [rewrite reverse_Permutation; done| | |].
    + intros a Ha Hl. rewrite Hrev in Ha. destruct (Hneq a Ha). links; try done.
      exfalso. apply Hl. by rewrite reverse_cons, last_snoc.
    + intros a Ha Hl. rewrite Hrev in Ha. destruct (Hneq a Ha). links; try done.
      exfalso. apply Hl. by rewrite head_reverse.
    + apply (chain_rev h); [done|]. pose proof (dl_chain _ _ _ D) as Hc. unfold full in Hc.
      apply chain_cons in Hc as [_ Hc]. by eapply chain_prefix.
  - destruct (frame_links _ _ _ _ F Hlh) as [_ E]. pose proof (dl_head _ _ _ D). links; congruence.
  - destruct (frame_links _ _ _ _ F Hlt) as [E _]. pose proof (dl_tail _ _ _ D). links; congruence.
Qed.

Lemma reverse_swaps_exec h g l xs x1 xn :
  dl h l xs -> swapped h g xs -> head xs = Some x1 -> last xs = Some xn ->
  reverse_swaps l g = Ok (tt, reversed g l x1 xn).
Proof.
  intros D [F Sw] H1 Hn. destruct (dl_distinct _ _ _ D) as (Hxs & Hht & Hneq).
  assert (Hx1 : x1 ∈ xs) by (by apply head_Some_elem_of).
  assert (Hxn : xn ∈ xs) by (by apply last_Some_elem_of).
  destruct (Hneq _ Hx1), (Hneq _ Hxn). destruct (in_full l xs) as (Hs & Hh & Ht).
  assert (Hlh : lhead l ∉ xs) by (intros Hi; by destruct (Hneq _ Hi)).
  assert (Hlt : ltail l ∉ xs) by (intros Hi; by destruct (Hneq _ Hi)).
  destruct (frame_links _ _ _ _ F Hlh) as [E1 _]. destruct (frame_links _ _ _ _ F Hlt) as [_ E2].
  assert (P : place l [] [] [] (lhead l) (ltail l) []) by done.
  assert (D0 : dl h l ([] ++ xs ++ [])) by (by rewrite app_nil_r).
  destruct (seg_links _ _ _ _ _ _ _ _ _ _ _ D0 P H1 Hn) as ([L1 L2] & [L3 L4] & _).
  rewrite L1 in E1. rewrite L4 in E2. destruct (Sw _ Hx1) as [E3 _], (Sw _ Hxn) as [_ E4].
  rewrite L2 in E3. rewrite L3 in E4.
  unfold reverse_swaps, reversed. kget. kget. kset. kset. kget. kget. kget. kget. kset.
  apply set_next_ok. valid.
Qed.

Lemma list_reverse_spec h l xs :
  dl h l xs -> exists h', list_reverse l h = Ok (tt, h') /\ dl h' l (reverse xs) /\
    frame (full l xs) h h'.
Proof.
  intros D. unfold list_reverse. kstep (list_empty_ok h l xs D).
  destruct (decide (xs = [])) as [->|Hne]; [exists h; by split_and!|].
  destruct (reverse_loop_ok h l xs [] (S (size h)) h D) as (g & Hg & Sw).
  { split; [apply frame_refl|by intros a ?%elem_of_nil]. }
  { pose proof (dl_size h l xs D). lia. }
  destruct (seg_ends l xs Hne) as (x1 & xn & H1 & Hn & Es & Hi1 & Hin).
  exists (reversed g l x1 xn).
  split_and!; [|by apply (dl_reversed h)|apply frame_reversed; [apply Sw|done..]].
  destruct xs as [|x xs]; [done|]. kstep (list_begin_ok h l (x :: xs) D).
  erewrite bind_ok by exact Hg. by apply (reverse_swaps_exec h g l (x :: xs)).
Qed.
End lists.
