(* ===== verification/DListOrd.v ===== *)
(** The ordered operations of lib/kernel/list.c: sorting, ordered insertion,
    removal of duplicates, maximum and minimum. *)

From S2P Require Import Prelude KMonad DList.

Section ord.
Context (less : addr -> addr -> bool).
Implicit Types (h : heap) (a b x y : addr) (xs ys zs : list addr).

(** [a] may stand before [b]. *)
Definition le a b : Prop := less b a = false.
#[local] Instance le_dec a b : Decision (le a b).
Proof. unfold le. apply _. Defined.

Lemma call_less_ok h a b : call_less less (Some a) (Some b) h = Ok (less a b, h).
Proof. done. Qed.

(** ** Ranges *)

Lemma ptr_eqb_refl p : ptr_eqb p p = true.
Proof. by apply bool_decide_eq_true. Qed.

Lemma ptr_eqb_start h l xs zs ys :
  dl h l (xs ++ zs ++ ys) ->
  ptr_eqb (Some (start l (zs ++ ys))) (Some (start l ys)) = match zs with [] => true | _ => false end.
Proof.
  intros D. unfold ptr_eqb. destruct zs as [|z zs]; simpl; [apply ptr_eqb_refl|].
  apply bool_decide_eq_false. intros [= ->].
  pose proof (dl_nodup _ _ _ D) as [_ Hn]%NoDup_cons. rewrite <- !(assoc_L (++)) in Hn.
  apply NoDup_app in Hn as (_ & _ & Hn). simpl in Hn. apply NoDup_cons in Hn as [Hn _].
  apply Hn. destruct (suffix_split l ys) as (k & E). rewrite E. apply elem_of_app. right. left.
Qed.

(** The step [a = list_next (a)] of a loop, and [list_prev (a)] after it. *)
Lemma step_next h l xs x ys :
  dl h l (xs ++ x :: ys) -> list_next (Some x) h = Ok (Some (start l ys), h).
Proof. intros D. apply list_next_ok. by apply (dl_next h l xs x ys). Qed.
Lemma step_prev h l xs x ys :
  dl h l (xs ++ x :: ys) -> list_prev (Some (start l ys)) h = Ok (Some x, h).
Proof. intros D. apply list_prev_ok. by apply (dl_next h l xs x ys). Qed.

(** ** [is_sorted] and [find_end_of_run] *)

Fixpoint sortedb x xs : bool :=
  match xs with
  | [] => true
  | y :: xs' => if less y x then false else sortedb y xs'
  end.

Lemma sortedb_spec x xs : sortedb x xs = true <-> Sorted le (x :: xs).
Proof.
  revert x. induction xs as [|y xs IH]; intros x; simpl.
  - split; [repeat constructor|done].
  - destruct (less y x) eqn:E.
    + split; [done|]. intros Hs. apply Sorted_inv in Hs as [_ Hh]. apply HdRel_inv in Hh.
      unfold le in Hh. congruence.
    + rewrite IH. split; [intros Hs; constructor; [done|by constructor]|]. intros Hs. by apply Sorted_inv in Hs as [? _].
Qed.

Lemma is_sorted_loop_ok h l ys : forall zs xs x fuel,
  dl h l (xs ++ x :: zs ++ ys) -> (length zs < fuel)%nat ->
  is_sorted_loop less fuel (Some x) (Some (start l ys)) h = Ok (sortedb x zs, h).
Proof.
  induction zs as [|z zs IH]; intros xs x [|fuel] D Hf; try (simpl in Hf; lia); cbn [is_sorted_loop].
  - kstep (step_next h l xs x ys D). by rewrite ptr_eqb_refl.
  - kstep (step_next h l xs x _ D). pose proof D as D'.
    rewrite cons_middle, (assoc_L (++)) in D'.
    rewrite (ptr_eqb_start h l (xs ++ [x]) (z :: zs) ys) by done.
    kstep (step_prev h l xs x _ D). cbn [start app].
    kstep (call_less_ok h z x). simpl sortedb. destruct (less z x); [done|].
    apply (IH (xs ++ [x])); [done|simpl in Hf; lia].
Qed.

Lemma dl_length h l xs zs ys : dl h l (xs ++ zs ++ ys) -> (length zs < S (size h))%nat.
Proof. intros D. pose proof (dl_size _ _ _ D) as Hs. rewrite !length_app in Hs. lia. Qed.

Lemma is_sorted_ok h l xs zs ys :
  dl h l (xs ++ zs ++ ys) -> Sorted le zs ->
  ASSERTm (is_sorted less (Some (start l (zs ++ ys))) (Some (start l ys))) h = Ok (tt, h).
Proof.
  intros D Hs. unfold ASSERTm, is_sorted. rewrite (ptr_eqb_start h l xs zs ys D).
  destruct zs as [|z zs]; [done|]. cbn [start app].
  pose proof (dl_length _ _ _ _ _ D) as Hl. simpl in Hl.
  erewrite bind_ok by (rewrite with_fuel_ok; apply (is_sorted_loop_ok h l ys zs xs z); [done|lia]).
  cbv beta. apply sortedb_spec in Hs. by rewrite Hs.
Qed.

(** The run at the front of [x :: zs], and the rest. *)
Fixpoint run_of x zs : list addr * list addr :=
  match zs with
  | [] => ([], [])
  | z :: zs' => if less z x then ([], zs) else let '(r, rest) := run_of z zs' in (z :: r, rest)
  end.

Lemma run_of_spec x zs r rest :
  run_of x zs = (r, rest) -> zs = r ++ rest /\ Sorted le (x :: r).
Proof.
  revert x r. induction zs as [|z zs IH]; intros x r; simpl.
  { intros [= <- <-]. split; [done|repeat constructor]. }
  destruct (less z x) eqn:E; [intros [= <- <-]; split; [done|repeat constructor]|].
  destruct (run_of z zs) as [r' rest'] eqn:Er. intros [= <- <-].
  destruct (IH z r' Er) as [-> Hs]. split; [done|]. constructor; [done|by constructor].
Qed.

Lemma run_loop_ok h l ys : forall zs xs x fuel r rest,
  dl h l (xs ++ x :: zs ++ ys) -> (length zs < fuel)%nat -> run_of x zs = (r, rest) ->
  run_loop less fuel (Some x) (Some (start l ys)) h = Ok (Some (start l (rest ++ ys)), h).
Proof.
  induction zs as [|z zs IH]; intros xs x [|fuel] r rest D Hf Hr; try (simpl in Hf; lia);
    cbn [run_loop].
  - kstep (step_next h l xs x ys D). rewrite ptr_eqb_refl. by injection Hr as <- <-.
  - kstep (step_next h l xs x _ D). pose proof D as D'.
    rewrite cons_middle, (assoc_L (++)) in D'.
    rewrite (ptr_eqb_start h l (xs ++ [x]) (z :: zs) ys) by done.
    kstep (step_prev h l xs x _ D). cbn [start app]. kstep (call_less_ok h z x).
    simpl in Hr. destruct (less z x); [by injection Hr as <- <-|].
    destruct (run_of z zs) as [r' rest'] eqn:Er. injection Hr as <- <-.
    apply (IH (xs ++ [x]) z fuel r'); [done|simpl in Hf; lia|done].
Qed.

Lemma find_end_of_run_ok h l xs x zs r rest :
  dl h l (xs ++ x :: zs) -> run_of x zs = (r, rest) ->
  find_end_of_run less (Some x) (list_end l) h = Ok (Some (start l rest), h).
Proof.
  intros D Hr. unfold find_end_of_run. rewrite !ASSERT_true; [| |done..].
  - rewrite <- (app_nil_r rest). assert (D' : dl h l (xs ++ x :: zs ++ [])) by (by rewrite app_nil_r).
    pose proof (dl_size _ _ _ D) as Hs. rewrite length_app in Hs. simpl in Hs.
    rewrite with_fuel_ok. apply (run_loop_ok h l [] zs xs x _ r rest D'); [lia|done].
  - pose proof (ptr_eqb_end h l xs (x :: zs) D) as E. cbn [start] in E. by rewrite E.
Qed.

(** ** Merging *)

Lemma merge_cons x xs y ys :
  list_merge le (x :: xs) (y :: ys) =
    if less y x then y :: list_merge le (x :: xs) ys else x :: list_merge le xs (y :: ys).
Proof.
  simpl. destruct (decide (le x y)) as [H|H]; unfold le in H.
  - by rewrite H.
  - by apply not_false_is_true in H as ->.
Qed.

Lemma frame_perm l xs ys h h' : xs ≡ₚ ys -> frame (full l xs) h h' -> frame (full l ys) h h'.
Proof.
  intros E. apply frame_mono. intros a. unfold full.
  by rewrite !elem_of_cons, !elem_of_app, E.
Qed.

Lemma merge_loop_ok l Z fuel : forall h P A B,
  dl h l (P ++ A ++ B ++ Z) -> (length A + length B <= fuel)%nat ->
  exists h', merge_loop less fuel (Some (start l (A ++ B ++ Z))) (Some (start l (B ++ Z)))
               (Some (start l Z)) h = Ok (tt, h') /\
    dl h' l (P ++ list_merge le A B ++ Z) /\ frame (full l (P ++ A ++ B ++ Z)) h h'.
Proof.
  induction fuel as [|fuel IH]; intros h P A B D Hf.
  - destruct A, B; simpl in Hf; try lia. exists h. cbn [merge_loop app].
    by rewrite !ptr_eqb_refl.
  - cbn [merge_loop]. rewrite (ptr_eqb_start h l P A (B ++ Z) D).
    rewrite (assoc_L (++) P A) in D. rewrite (ptr_eqb_start h l (P ++ A) B Z D).
    destruct A as [|a A]; [exists h; rewrite list_merge_nil_l; by rewrite app_nil_r in D|].
    destruct B as [|b B]; [exists h; rewrite list_merge_nil_r; by rewrite <- (assoc_L (++)) in D|].
    rewrite <- (assoc_L (++)) in D. cbn [negb andb]. rewrite merge_cons.
    cbn [app start]. kstep (call_less_ok h b a). destruct (less b a) eqn:E; cbn [negb].
    + pose proof D as D'. rewrite (assoc_L (++) P) in D'.
      kstep (step_next h l (P ++ a :: A) b (B ++ Z) D').
      kstep (step_prev h l (P ++ a :: A) b (B ++ Z) D').
      destruct (list_splice_same h l (P ++ a :: A) [b] (B ++ Z) P (a :: A ++ B ++ Z)) as (g & Hg & Dg & Fg);
        [done|done|by rewrite <- (assoc_L (++))|].
      kstep Hg. destruct (IH g (P ++ [b]) (a :: A) B) as (h' & Hx & Dh & Fh).
      * by rewrite <- (assoc_L (++)).
      * simpl in *. lia.
      * exists h'. split_and!; [done|by rewrite <- (assoc_L (++)) in Dh|].
        eapply frame_trans; [by rewrite <- (assoc_L (++)) in Fg|].
        eapply frame_perm; [|exact Fh]. rewrite <- (assoc_L (++)). f_equiv.
        apply (Permutation_middle (a :: A)).
    + kstep (step_next h l P a _ D).
      assert (D' : dl h l ((P ++ [a]) ++ A ++ (b :: B) ++ Z)) by (by rewrite <- (assoc_L (++))).
      destruct (IH h (P ++ [a]) A (b :: B) D') as (h' & Hx & Dh & Fh); [simpl in *; lia|].
      exists h'. rewrite <- (assoc_L (++)) in Dh, Fh. done.
Qed.

(** ** Sorting

    The order of the elements: a strict weak order, as a [list_less_func] that
    compares keys is. *)
Hypothesis less_asym : forall a b, less a b = true -> less b a = false.
Hypothesis le_trans : forall a b c, le a b -> le b c -> le a c.

#[local] Instance le_total : Total le.
Proof.
  intros a b. unfold le. destruct (less b a) eqn:E; [right; by apply less_asym|by left].
Qed.
#[local] Instance le_transitive : Transitive le.
Proof. intros a b c. apply le_trans. Qed.

(** One pass: adjacent runs are merged two by two; [c] runs are output. *)
Inductive pass : list addr -> list addr -> nat -> Prop :=
| pass_nil : pass [] [] 0
| pass_one x zs r : run_of x zs = (r, []) -> pass (x :: zs) (x :: zs) 1
| pass_two x zs r y zs' s rest out c :
    run_of x zs = (r, y :: zs') -> run_of y zs' = (s, rest) -> pass rest out c ->
    pass (x :: zs) (list_merge le (x :: r) (y :: s) ++ out) (S c).

Lemma inplace_merge_ok h l P A B Z :
  dl h l (P ++ A ++ B ++ Z) -> A <> [] -> B <> [] -> Sorted le A -> Sorted le B ->
  exists h', inplace_merge less (Some (start l (A ++ B ++ Z))) (Some (start l (B ++ Z)))
               (Some (start l Z)) h = Ok (tt, h') /\
    dl h' l (P ++ list_merge le A B ++ Z) /\ frame (full l (P ++ A ++ B ++ Z)) h h'.
Proof.
  intros D HA HB SA SB. unfold inplace_merge. rewrite !ASSERT_true by done.
  kstep (is_sorted_ok h l P A (B ++ Z) D SA). pose proof D as D'. rewrite (assoc_L (++) P) in D'.
  kstep (is_sorted_ok h l (P ++ A) B Z D' SB). rewrite with_fuel_ok.
  apply merge_loop_ok; [done|]. pose proof (dl_size _ _ _ D) as Hs. rewrite !length_app in Hs. lia.
Qed.

Lemma pass_loop_ok l n : forall h P R cnt fuel,
  (length R <= n)%nat -> dl h l (P ++ R) -> (length R <= fuel)%nat ->
  exists h' R' c, pass_loop less fuel l (Some (start l R)) cnt h = Ok ((cnt + c)%nat, h') /\
    pass R R' c /\ dl h' l (P ++ R') /\ frame (full l (P ++ R)) h h'.
Proof.
  induction n as [|n IH]; intros h P R cnt fuel Hn D Hf.
  { destruct R; [|simpl in Hn; lia]. exists h, [], 0%nat. rewrite Nat.add_0_r.
    split_and!; [|constructor|done|done].
    destruct fuel; cbn [pass_loop]; by rewrite (ptr_eqb_end h l P []). }
  destruct R as [|x zs].
  { exists h, [], 0%nat. rewrite Nat.add_0_r. split_and!; [|constructor|done|done].
    destruct fuel; cbn [pass_loop]; by rewrite (ptr_eqb_end h l P []). }
  destruct fuel as [|fuel]; [simpl in Hf; lia|]. cbn [pass_loop].
  rewrite (ptr_eqb_end h l P (x :: zs) D). cbn [start].
  destruct (run_of x zs) as [r rest] eqn:Er. destruct (run_of_spec _ _ _ _ Er) as [-> Sr].
  kstep (find_end_of_run_ok h l P x _ r rest D Er). pose proof D as D1.
  rewrite app_comm_cons, (assoc_L (++)) in D1. rewrite (ptr_eqb_end h l _ rest D1).
  destruct rest as [|y zs'].
  { exists h, (x :: r ++ []), 1%nat. rewrite Nat.add_1_r. split_and!; [done| |done|done].
    by apply (pass_one _ _ r). }
  destruct (run_of y zs') as [s rest] eqn:Es. destruct (run_of_spec _ _ _ _ Es) as [-> Ss].
  cbn [start]. kstep (find_end_of_run_ok h l (P ++ x :: r) y _ s rest D1 Es).
  destruct (inplace_merge_ok h l P (x :: r) (y :: s) rest) as (g & Hg & Dg & Fg); try done.
  kstep Hg. rewrite (assoc_L (++) P) in Dg.
  destruct (IH g (P ++ list_merge le (x :: r) (y :: s)) rest (S cnt) fuel) as (h' & R' & c & Hx & Hp & Dh & Fh); [|done| |].
  { simpl in Hn. rewrite length_app in Hn. simpl in Hn. rewrite length_app in Hn. lia. }
  { simpl in Hf. rewrite length_app in Hf. simpl in Hf. rewrite length_app in Hf. lia. }
  exists h', (list_merge le (x :: r) (y :: s) ++ R'), (S c). rewrite <- Nat.add_succ_comm.
  split_and!; [done|by eapply pass_two|by rewrite <- (assoc_L (++)) in Dh|].
  eapply frame_trans; [exact Fg|]. eapply frame_perm; [|exact Fh].
  rewrite merge_Permutation, <- !(assoc_L (++)). done.
Qed.

(** The number of ascending runs of a list. *)
Fixpoint nruns xs : nat :=
  match xs with
  | [] => 0
  | x :: xs' =>
      match xs' with
      | [] => 1
      | y :: _ => if less y x then S (nruns xs') else nruns xs'
      end
  end.

Lemma nruns_cons_le x xs : (nruns xs <= nruns (x :: xs) <= S (nruns xs))%nat.
Proof. destruct xs as [|y xs]; simpl; [lia|]. destruct (less y x); lia. Qed.

Lemma nruns_app xs ys : (nruns (xs ++ ys) <= nruns xs + nruns ys)%nat.
Proof.
  induction xs as [|x xs IH]; [done|]. rewrite <- app_comm_cons.
  destruct xs as [|x' xs].
  - pose proof (nruns_cons_le x ys). simpl in *. lia.
  - simpl in *. destruct (less x' x); lia.
Qed.

Lemma nruns_length xs : (nruns xs <= length xs)%nat.
Proof.
  induction xs as [|x xs IH]; [done|]. pose proof (nruns_cons_le x xs). simpl length. lia.
Qed.

Lemma nruns_sorted xs : Sorted le xs -> (nruns xs <= 1)%nat.
Proof.
  induction xs as [|x xs IH]; intros Hs; [simpl; lia|]. apply Sorted_inv in Hs as [Hs Hh].
  destruct xs as [|y xs]; [done|]. apply HdRel_inv in Hh. unfold le in Hh. simpl. rewrite Hh.
  by apply IH.
Qed.

Lemma nruns_run x zs r rest : run_of x zs = (r, rest) -> nruns (x :: zs) = S (nruns rest).
Proof.
  revert x r. induction zs as [|z zs IH]; intros x r; [by intros [= <- <-]|].
  simpl. destruct (less z x) eqn:E; [by intros [= <- <-]|].
  destruct (run_of z zs) as [r' rest'] eqn:Er. intros [= <- <-]. by apply (IH z r').
Qed.

Lemma pass_runs xs ys c :
  pass xs ys c -> (nruns ys <= c)%nat /\ (2 * c <= nruns xs + 1)%nat /\ ((c <= 1)%nat -> Sorted le ys).
Proof.
  intros Hp. induction Hp as [|x zs r Hr|x zs r y zs' s rest out c Hr Hs Hp (IH1 & IH2 & IH3)].
  - split_and!; [done|simpl; lia|constructor].
  - pose proof (nruns_run _ _ _ _ Hr) as E. destruct (run_of_spec _ _ _ _ Hr) as [Ez Hso].
    rewrite app_nil_r in Ez. subst zs. rewrite E. simpl. split_and!; [lia..|done].
  - pose proof (nruns_run _ _ _ _ Hr) as E1. pose proof (nruns_run _ _ _ _ Hs) as E2.
    destruct (run_of_spec _ _ _ _ Hr) as [-> Sr], (run_of_spec _ _ _ _ Hs) as [-> Ss].
    assert (Sm : Sorted le (list_merge le (x :: r) (y :: s)))
      by (by apply Sorted_list_merge; [apply le_total|..]).
    pose proof (nruns_sorted _ Sm). pose proof (nruns_app (list_merge le (x :: r) (y :: s)) out).
    split_and!; [lia..|]. intros Hc. destruct Hp; [by rewrite app_nil_r|lia..].
Qed.

Lemma pass_perm xs ys c : pass xs ys c -> ys ≡ₚ xs.
Proof.
  intros Hp. induction Hp as [|x zs r Hr|x zs r y zs' s rest out c Hr Hs Hp IH]; [done..|].
  destruct (run_of_spec _ _ _ _ Hr) as [-> _], (run_of_spec _ _ _ _ Hs) as [-> _].
  rewrite merge_Permutation, IH. by rewrite <- (assoc_L (++)).
Qed.

(** Elements that compare as equal keep their order. *)
Definition equiv x y : bool := negb (less x y) && negb (less y x).
Definition stable xs ys : Prop :=
  forall x, filter (fun y => equiv x y = true) ys = filter (fun y => equiv x y = true) xs.

Lemma filter_none (P : addr -> Prop) `{!forall x, Decision (P x)} xs :
  (forall x, x ∈ xs -> ~ P x) -> filter P xs = [].
Proof.
  induction xs as [|x xs IH]; intros Hn; [done|]. rewrite filter_cons_False.
  - apply IH. intros y Hy. apply Hn. by right.
  - apply Hn. left.
Qed.

Lemma merge_stable_aux x xs ys :
  Sorted le xs ->
  filter (fun y => equiv x y = true) (list_merge le xs ys) =
  filter (fun y => equiv x y = true) xs ++ filter (fun y => equiv x y = true) ys.
Proof.
  revert ys. induction xs as [|a xs IHx]; intros ys Hs; [by rewrite list_merge_nil_l|].
  induction ys as [|b ys IHy]; [by rewrite list_merge_nil_r, app_nil_r|].
  rewrite merge_cons. destruct (less b a) eqn:E.
  - rewrite (filter_cons _ b), IHy, (filter_cons _ b). destruct (decide (equiv x b = true)) as [Hb|]; [|done].
    assert (Hno : filter (fun y => equiv x y = true) (a :: xs) = []).
    { apply filter_none. intros c Hc Heq.
      unfold equiv in Hb, Heq. reflect_bools.
      assert (Hac : le a c).
      { apply Sorted_StronglySorted in Hs; [|apply _]. apply elem_of_cons in Hc as [->|Hc].
        - unfold le. destruct (less a a) eqn:Ea; [|done]. by rewrite (less_asym _ _ Ea) in Ea.
        - apply StronglySorted_inv in Hs as [_ Hf]. by eapply Forall_forall in Hf. }
      assert (Hcb : le c b) by (eapply (le_trans c x b); done).
      pose proof (le_trans _ _ _ Hac Hcb) as Hab. unfold le in Hab. congruence. }
    by rewrite Hno.
  - rewrite (filter_cons _ a (list_merge _ _ _)), (filter_cons _ a xs).
    rewrite IHx by (by apply Sorted_inv in Hs as [? _]). by destruct (decide _).
Qed.

Lemma pass_stable xs ys c : pass xs ys c -> stable xs ys.
Proof.
  intros Hp. induction Hp as [|a zs r Hr|a zs r b zs' s rest out c Hr Hs Hp IH]; [done..|].
  destruct (run_of_spec _ _ _ _ Hr) as [-> Sr], (run_of_spec _ _ _ _ Hs) as [-> _].
  intros x. rewrite filter_app, merge_stable_aux, IH by done.
  change (a :: r ++ b :: s ++ rest) with ((a :: r) ++ (b :: s) ++ rest).
  by rewrite !filter_app, (assoc_L (++)).
Qed.

Lemma sort_loop_ok l : forall fuel h xs,
  dl h l xs -> (nruns xs <= fuel)%nat -> (0 < fuel)%nat ->
  exists h' ys, sort_loop less fuel l h = Ok (tt, h') /\ dl h' l ys /\ ys ≡ₚ xs /\
    Sorted le ys /\ stable xs ys /\ frame (full l xs) h h'.
Proof.
  induction fuel as [|fuel IH]; intros h xs D Hf H0; [lia|]. cbn [sort_loop].
  kstep (list_begin_ok h l xs D).
  destruct (pass_loop_ok l (length xs) h [] xs 0 (S (size h))) as (g & ys & c & Hg & Hp & Dg & Fg);
    [done..|pose proof (dl_size _ _ _ D); lia|]. simpl in Dg, Fg.
  erewrite bind_ok by exact Hg. cbv beta. simpl.
  destruct (pass_runs _ _ _ Hp) as (Hr1 & Hr2 & Hs). pose proof (pass_perm _ _ _ Hp) as Ep.
  pose proof (pass_stable _ _ _ Hp) as Hst.
  destruct (Nat.ltb_spec 1 c) as [Hc|Hc].
  - destruct (IH g ys Dg) as (h' & zs & Hx & Dh & Ez & Sz & Hsz & Fh); [lia..|].
    exists h', zs. split_and!; [done..|by rewrite Ez|done| |].
    + intros x. by rewrite Hsz.
    + eapply frame_trans; [exact Fg|]. by eapply frame_perm.
  - exists g, ys. split_and!; try done. apply Hs. lia.
Qed.

Lemma list_sort_spec h l xs :
  dl h l xs ->
  exists h' ys, list_sort less l h = Ok (tt, h') /\ dl h' l ys /\ ys ≡ₚ xs /\
    StronglySorted le ys /\ stable xs ys /\ frame (full l xs) h h'.
Proof.
  intros D. pose proof (dl_size _ _ _ D) as Hs. pose proof (nruns_length xs).
  destruct (sort_loop_ok l (S (size h)) h xs D) as (h' & ys & Hx & Dh & Ep & So & Hst & F); [lia..|].
  exists h', ys. split_and!; [|done|done| |done|done];
    [|by apply Sorted_StronglySorted; [apply le_transitive|]].
  unfold list_sort. erewrite bind_ok by exact Hx. cbv beta. kstep (list_begin_ok h' l ys Dh).
  assert (D' : dl h' l ([] ++ ys ++ [])) by (by rewrite app_nil_r).
  pose proof (is_sorted_ok h' l [] ys [] D' So) as E. by rewrite app_nil_r in E.
Qed.

(** ** Ordered insertion *)

Fixpoint insert_ordered x ys : list addr :=
  match ys with
  | [] => [x]
  | y :: ys' => if less x y then x :: ys else y :: insert_ordered x ys'
  end.

Lemma ordered_loop_ok h l x ys : forall xs fuel,
  dl h l (xs ++ ys) -> (length ys <= fuel)%nat ->
  exists us vs, ordered_loop less fuel l (Some x) (Some (start l ys)) h = Ok (Some (start l vs), h) /\
    ys = us ++ vs /\ insert_ordered x ys = us ++ x :: vs.
Proof.
  induction ys as [|y ys IH]; intros xs fuel D Hf.
  { exists [], []. split_and!; [|done..].
    destruct fuel; cbn [ordered_loop]; by rewrite (ptr_eqb_end h l xs []). }
  destruct fuel as [|fuel]; [simpl in Hf; lia|]. cbn [ordered_loop].
  rewrite (ptr_eqb_end h l xs (y :: ys) D). cbn [start]. kstep (call_less_ok h x y).
  simpl insert_ordered. destruct (less x y); [by exists [], (y :: ys)|].
  kstep (step_next h l xs y ys D). rewrite cons_middle, (assoc_L (++)) in D.
  destruct (IH _ fuel D) as (us & vs & Hx & -> & E); [simpl in Hf; lia|].
  exists (y :: us), vs. rewrite E. done.
Qed.

Lemma list_insert_ordered_spec h l xs x :
  dl h l xs -> valid h x -> x ∉ full l xs ->
  exists h', list_insert_ordered less l (Some x) h = Ok (tt, h') /\
    dl h' l (insert_ordered x xs) /\ frame (x :: full l xs) h h'.
Proof.
  intros D Hv Hx. unfold list_insert_ordered. rewrite ASSERT_true by done.
  kstep (list_begin_ok h l xs D).
  destruct (ordered_loop_ok h l x xs [] (S (size h)) D) as (us & vs & Hl & E & Ei).
  { pose proof (dl_size _ _ _ D). lia. }
  erewrite bind_ok by exact Hl. cbv beta. rewrite Ei. subst xs. by apply list_insert_spec.
Qed.

Lemma insert_ordered_perm x ys : insert_ordered x ys ≡ₚ x :: ys.
Proof.
  induction ys as [|y ys IH]; [done|]. simpl. destruct (less x y); [done|].
  rewrite IH. constructor.
Qed.

Lemma insert_ordered_sorted x ys : Sorted le ys -> Sorted le (insert_ordered x ys).
Proof.
  induction ys as [|y ys IH]; intros Hs; simpl; [repeat constructor|].
  destruct (less x y) eqn:E; [by constructor; [|constructor; apply less_asym]|].
  apply Sorted_inv in Hs as [Hs Hh]. constructor; [by apply IH|].
  destruct ys as [|z ys]; simpl; [by constructor|]. apply HdRel_inv in Hh.
  destruct (less x z); by constructor.
Qed.

(** ** Removal of duplicates *)

(** The elements kept after [x], and those removed. *)
Fixpoint unique_split x ys : list addr * list addr :=
  match ys with
  | [] => ([], [])
  | y :: ys' =>
      if equiv x y then let '(k, d) := unique_split x ys' in (k, y :: d)
      else let '(k, d) := unique_split y ys' in (y :: k, d)
  end.

Lemma unique_split_perm x ys : (unique_split x ys).1 ++ (unique_split x ys).2 ≡ₚ ys.
Proof.
  revert x. induction ys as [|y ys IH]; intros x; simpl; [done|]. destruct (equiv x y).
  - pose proof (IH x) as H. destruct (unique_split x ys) as [k d]. simpl in *.
    by rewrite <- Permutation_middle, H.
  - pose proof (IH y) as H. destruct (unique_split y ys) as [k d]. simpl in *. by rewrite H.
Qed.

(** No two neighbours that compare as equal are left. *)
Lemma unique_split_distinct x ys :
  Sorted (fun a b => equiv a b = false) (x :: (unique_split x ys).1).
Proof.
  revert x. induction ys as [|y ys IH]; intros x; simpl; [repeat constructor|].
  destruct (equiv x y) eqn:E.
  - pose proof (IH x) as H. by destruct (unique_split x ys).
  - pose proof (IH y) as H. destruct (unique_split y ys). simpl in *. by constructor; [|constructor].
Qed.

(** The list of duplicates, if there is one. *)
Definition dups_ok h (dup : option dlist) (ds : list addr) : Prop :=
  match dup with Some d => dl h d ds | None => True end.
Definition dups_apart (dup : option dlist) (ds fs : list addr) : Prop :=
  match dup with Some d => forall a, a ∈ full d ds -> a ∉ fs | None => True end.

Lemma full_sub l xs ys : xs ⊆ ys -> full l xs ⊆ full l ys.
Proof. intros Hs a. unfold full. rewrite !elem_of_cons, !elem_of_app. intros [?|[?|?]]; auto. Qed.

(** Moving [y], which follows [x], to the end of the duplicates. *)
Lemma unique_move h l dup xs x y ys ds :
  dl h l (xs ++ x :: y :: ys) -> dups_ok h dup ds ->
  dups_apart dup ds (full l (xs ++ x :: y :: ys)) ->
  exists h', (list_remove (Some y);;
              match dup with Some d => list_push_back d (Some y) | None => mret tt end) h = Ok (tt, h') /\
    dl h' l (xs ++ x :: ys) /\ dups_ok h' dup (ds ++ [y]) /\
    dups_apart dup (ds ++ [y]) (full l (xs ++ x :: ys)).
Proof.
  intros D Dd Ha. pose proof D as D1. rewrite cons_middle, (assoc_L (++)) in D1.
  destruct (list_remove_spec h l (xs ++ [x]) y ys D1) as (g & Hg & Dg & Fg & Hv).
  rewrite <- (assoc_L (++)) in Dg, Fg. simpl in Dg, Fg. erewrite bind_ok by exact Hg. cbv beta.
  assert (Hsub : full l (xs ++ x :: ys) ⊆ full l (xs ++ x :: y :: ys)).
  { apply full_sub. intros a. rewrite !elem_of_app, !elem_of_cons. tauto. }
  destruct dup as [d|]; [|by exists g].
  assert (Dd' : dl g d ds).
  { eapply dl_frame; [done|done|]. intros a Hin Hin'. by apply (Ha a Hin), Hsub. }
  assert (Hyl : y ∉ full l (xs ++ x :: ys)).
  { pose proof (dl_nodup _ _ _ D1) as Hn.
    assert (E : full l ((xs ++ [x]) ++ y :: ys) ≡ₚ y :: full l (xs ++ x :: ys)).
    { unfold full. rewrite <- (assoc_L (++) (xs ++ [x])).
      replace ((xs ++ x :: ys) ++ [ltail l]) with ((xs ++ [x]) ++ ys ++ [ltail l])
        by (by rewrite <- !(assoc_L (++))).
      symmetry. apply (Permutation_middle (lhead l :: xs ++ [x])). }
    rewrite E in Hn. by apply NoDup_cons in Hn as [? _]. }
  assert (Hyd : y ∉ full d ds).
  { intros Hin. apply (Ha y Hin). apply in_full. rewrite elem_of_app, !elem_of_cons. auto. }
  destruct (list_push_back_spec g d ds y Dd' Hv Hyd) as (h' & Hx & Dh & Fh).
  exists h'. split_and!; [done| |done|].
  - eapply dl_frame; [exact Dg|exact Fh|]. intros a Hin [->|Hin']%elem_of_cons; [done|].
    by apply (Ha a Hin'), Hsub.
  - intros a Hin Hin'. assert (a = y \/ a ∈ full d ds) as [->|Hd]; [|done|by apply (Ha a Hd), Hsub].
    unfold full in *. rewrite elem_of_cons, !elem_of_app, !list_elem_of_singleton in Hin.
    rewrite elem_of_cons, elem_of_app, list_elem_of_singleton. tauto.
Qed.

Lemma unique_loop_ok l dup ys : forall h xs x ds fuel,
  dl h l (xs ++ x :: ys) -> dups_ok h dup ds -> dups_apart dup ds (full l (xs ++ x :: ys)) ->
  (length ys < fuel)%nat ->
  exists h', unique_loop less fuel l dup (Some x) h = Ok (tt, h') /\
    dl h' l (xs ++ x :: (unique_split x ys).1) /\ dups_ok h' dup (ds ++ (unique_split x ys).2).
Proof.
  induction ys as [|y ys IH]; intros h xs x ds [|fuel] D Dd Ha Hf; try (simpl in Hf; lia);
    cbn [unique_loop]; kstep (step_next h l xs x _ D).
  - pose proof D as D'. rewrite cons_middle, (assoc_L (++)) in D'.
    rewrite (ptr_eqb_end h l _ [] D'). exists h. simpl. by rewrite app_nil_r.
  - pose proof D as D'. rewrite cons_middle, (assoc_L (++)) in D'.
    rewrite (ptr_eqb_end h l _ (y :: ys) D'). cbn [start].
    kstep (call_less_ok h x y). kstep (call_less_ok h y x). simpl unique_split. fold (equiv x y).
    destruct (equiv x y).
    + destruct (unique_move h l dup xs x y ys ds D Dd Ha) as (g & Hg & Dg & Dd' & Ha').
      destruct (IH g xs x _ fuel Dg Dd' Ha') as (h' & Hx & Dh & Ddh); [simpl in Hf; lia|].
      rewrite <- bind_assoc. erewrite bind_ok by exact Hg. cbv beta. exists h'.
      destruct (unique_split x ys) as [k ds']. simpl in *. rewrite <- (assoc_L (++)) in Ddh. done.
    + destruct (IH h (xs ++ [x]) y ds fuel) as (h' & Hx & Dh & Ddh);
        [done|done|by rewrite <- (assoc_L (++))|simpl in Hf; lia|].
      exists h'. destruct (unique_split y ys) as [k ds']. simpl in *.
      rewrite <- (assoc_L (++)) in Dh. done.
Qed.

Lemma list_unique_spec h l dup x xs ds :
  dl h l (x :: xs) -> dups_ok h dup ds -> dups_apart dup ds (full l (x :: xs)) ->
  exists h', list_unique less l dup h = Ok (tt, h') /\
    dl h' l (x :: (unique_split x xs).1) /\ dups_ok h' dup (ds ++ (unique_split x xs).2).
Proof.
  intros D Dd Ha. unfold list_unique. kstep (list_empty_ok h l _ D). cbv iota.
  kstep (list_begin_ok h l _ D). rewrite with_fuel_ok.
  apply (unique_loop_ok l dup xs h []); try done. pose proof (dl_size _ _ _ D) as Hs.
  simpl in Hs. lia.
Qed.

(** ** Maximum and minimum *)

Fixpoint max_of m ys : addr :=
  match ys with [] => m | y :: ys' => max_of (if less m y then y else m) ys' end.
Fixpoint min_of m ys : addr :=
  match ys with [] => m | y :: ys' => min_of (if less y m then y else m) ys' end.

Lemma max_loop_ok h l ys : forall xs m fuel,
  dl h l (xs ++ ys) -> (length ys <= fuel)%nat ->
  max_loop less fuel l (Some m) (Some (start l ys)) h = Ok (Some (max_of m ys), h).
Proof.
  induction ys as [|y ys IH]; intros xs m fuel D Hf.
  { destruct fuel; cbn [max_loop]; by rewrite (ptr_eqb_end h l xs []). }
  destruct fuel as [|fuel]; [simpl in Hf; lia|]. cbn [max_loop].
  rewrite (ptr_eqb_end h l xs (y :: ys) D). cbn [start]. kstep (call_less_ok h m y).
  kstep (step_next h l xs y ys D). rewrite cons_middle, (assoc_L (++)) in D. simpl max_of.
  destruct (less m y); apply (IH (xs ++ [y])); (done || simpl in Hf; lia).
Qed.
Lemma min_loop_ok h l ys : forall xs m fuel,
  dl h l (xs ++ ys) -> (length ys <= fuel)%nat ->
  min_loop less fuel l (Some m) (Some (start l ys)) h = Ok (Some (min_of m ys), h).
Proof.
  induction ys as [|y ys IH]; intros xs m fuel D Hf.
  { destruct fuel; cbn [min_loop]; by rewrite (ptr_eqb_end h l xs []). }
  destruct fuel as [|fuel]; [simpl in Hf; lia|]. cbn [min_loop].
  rewrite (ptr_eqb_end h l xs (y :: ys) D). cbn [start]. kstep (call_less_ok h y m).
  kstep (step_next h l xs y ys D). rewrite cons_middle, (assoc_L (++)) in D. simpl min_of.
  destruct (less y m); apply (IH (xs ++ [y])); (done || simpl in Hf; lia).
Qed.

Lemma list_max_spec h l x xs :
  dl h l (x :: xs) -> list_max less l h = Ok (Some (max_of x xs), h).
Proof.
  intros D. unfold list_max. kstep (list_begin_ok h l _ D).
  rewrite (ptr_eqb_end h l [] (x :: xs) D). cbn [start]. kstep (step_next h l [] x xs D).
  rewrite with_fuel_ok. apply (max_loop_ok h l xs [x]); [done|].
  pose proof (dl_size _ _ _ D) as Hs. simpl in Hs. lia.
Qed.
Lemma list_min_spec h l x xs :
  dl h l (x :: xs) -> list_min less l h = Ok (Some (min_of x xs), h).
Proof.
  intros D. unfold list_min. kstep (list_begin_ok h l _ D).
  rewrite (ptr_eqb_end h l [] (x :: xs) D). cbn [start]. kstep (step_next h l [] x xs D).
  rewrite with_fuel_ok. apply (min_loop_ok h l xs [x]); [done|].
  pose proof (dl_size _ _ _ D) as Hs. simpl in Hs. lia.
Qed.
End ord.

(** ** Properties *)

(** An example heap: list 1..2 with the elements 5, 3, 4; list 10..11, empty; and
    element 7 in no list. *)
Definition ex_heap : heap :=
  list_to_map
    [(1%positive, mkElem None (Some 5%positive)); (5%positive, mkElem (Some 1%positive) (Some 3%positive));
     (3%positive, mkElem (Some 5%positive) (Some 4%positive)); (4%positive, mkElem (Some 3%positive) (Some 2%positive));
     (2%positive, mkElem (Some 4%positive) None);
     (10%positive, mkElem None (Some 11%positive)); (11%positive, mkElem (Some 10%positive) None);
     (7%positive, mkElem None None)].
Definition ex_list : dlist := mkList 1 2.
Definition ex_other : dlist := mkList 10 11.

Lemma ex_dl : dl ex_heap ex_list [5; 3; 4]%positive.
Proof. constructor; [by apply (bool_decide_unpack _)|by repeat split|done..]. Qed.
Lemma ex_other_dl : dl ex_heap ex_other [].
Proof. constructor; [by apply (bool_decide_unpack _)|by repeat split|done..]. Qed.
Lemma ex_apart a : a ∈ full ex_list [5; 3; 4]%positive -> a ∉ full ex_other [].
Proof. revert a. apply Forall_forall. by repeat (apply Forall_cons; split; [by apply (bool_decide_unpack _)|]). Qed.

(** A list behaves as a double-ended queue.  Pushing at either end adds the
    element there; popping at either end of a non-empty list returns that element and
    removes it, and on an empty list fails an assertion; the size is the number of
    elements (modulo 2^32); other memory is left alone. *)
Theorem list_deque_refines h l xs e :
  dl h l xs -> valid h e -> e ∉ full l xs ->
  (exists h', list_push_back l (Some e) h = Ok (tt, h') /\ dl h' l (xs ++ [e]) /\
     frame (e :: full l xs) h h') /\
  (exists h', list_push_front l (Some e) h = Ok (tt, h') /\ dl h' l (e :: xs) /\
     frame (e :: full l xs) h h') /\
  (match xs with
   | [] => list_pop_front l h = Panic
   | x :: xs' => exists h', list_pop_front l h = Ok (Some x, h') /\ dl h' l xs' /\ frame (full l xs') h h'
   end) /\
  (match last xs with
   | None => list_pop_back l h = Panic
   | Some x => exists h' xs', xs = xs' ++ [x] /\ list_pop_back l h = Ok (Some x, h') /\
                 dl h' l xs' /\ frame (full l xs') h h'
   end) /\
  list_size l h = Ok (u32 (Z.of_nat (length xs)), h).
Proof.
  intros D Hv He. split_and!.
  - by apply list_push_back_spec.
  - by apply list_push_front_spec.
  - destruct xs as [|x xs].
    + unfold list_pop_front, list_front. rewrite !bind_assoc. by kstep (list_empty_ok h l _ D).
    + destruct (list_pop_front_spec h l x xs D) as (h' & ? & ? & ? & _). by exists h'.
  - destruct (last xs) as [x|] eqn:E.
    + destruct (last_Some xs x) as [[xs' ->] _]; [done|].
      destruct (list_pop_back_spec h l xs' x D) as (h' & ? & ? & ? & _). by exists h', xs'.
    + apply last_None in E as ->. unfold list_pop_back, list_back. rewrite !bind_assoc.
      by kstep (list_empty_ok h l _ D).
  - by apply list_size_ok.
Qed.

Lemma list_deque_refines_witness : list_size ex_list ex_heap = Ok (3, ex_heap).
Proof.
  apply (list_deque_refines ex_heap ex_list [5; 3; 4]%positive 7%positive).
  - apply ex_dl.
  - by eexists.
  - by apply (bool_decide_unpack _).
Defined.

(** [list_insert] before an element (or the tail) and [list_remove] are inverse
    on the sequence of elements, [list_remove] returns the element that followed, and
    neither disturbs another list. *)
Theorem list_insert_remove h l xs ys e :
  dl h l (xs ++ ys) -> valid h e -> e ∉ full l (xs ++ ys) ->
  exists h1 h2,
    list_insert (Some (start l ys)) (Some e) h = Ok (tt, h1) /\ dl h1 l (xs ++ e :: ys) /\
    list_remove (Some e) h1 = Ok (Some (start l ys), h2) /\ dl h2 l (xs ++ ys) /\
    forall l' zs, dl h l' zs -> (forall a, a ∈ full l' zs -> a ∉ e :: full l (xs ++ ys)) ->
      dl h1 l' zs /\ dl h2 l' zs.
Proof.
  intros D Hv He. destruct (list_insert_spec h l xs ys e D Hv He) as (h1 & E1 & D1 & F1).
  destruct (list_remove_spec h1 l xs e ys D1) as (h2 & E2 & D2 & F2 & _).
  exists h1, h2. split_and!; [done..|]. intros l' zs Dz Ha.
  assert (Dz1 : dl h1 l' zs) by (by eapply dl_frame). split; [done|].
  eapply dl_frame; [done..|]. intros a Hin Hin'. apply (Ha a Hin). by right.
Qed.

Lemma list_insert_remove_witness :
  exists h1, list_insert (Some 3%positive) (Some 7%positive) ex_heap = Ok (tt, h1) /\
    dl h1 ex_list [5; 7; 3; 4]%positive.
Proof.
  destruct (list_insert_remove ex_heap ex_list [5]%positive [3; 4]%positive 7%positive)
    as (h1 & h2 & H & D & _).
  - apply ex_dl.
  - by eexists.
  - by apply (bool_decide_unpack _).
  - by exists h1.
Defined.

(** [list_splice] moves a range of elements, in order, to its new place, in the
    same list or in another one. *)
Theorem list_splice_moves h l xs seg ys :
  dl h l (xs ++ seg ++ ys) -> seg <> [] ->
  (forall us vs, xs ++ ys = us ++ vs ->
     exists h', list_splice (Some (start l vs)) (Some (start l seg)) (Some (start l ys)) h = Ok (tt, h') /\
       dl h' l (us ++ seg ++ vs)) /\
  (forall l' us vs, dl h l' (us ++ vs) ->
     (forall a, a ∈ full l (xs ++ seg ++ ys) -> a ∉ full l' (us ++ vs)) ->
     exists h', list_splice (Some (start l' vs)) (Some (start l seg)) (Some (start l ys)) h = Ok (tt, h') /\
       dl h' l (xs ++ ys) /\ dl h' l' (us ++ seg ++ vs)).
Proof.
  intros D Hne. split.
  - intros us vs E. destruct (list_splice_same h l xs seg ys us vs D Hne E) as (h' & ? & ? & _).
    by exists h'.
  - intros l' us vs D' Ha. by apply list_splice_other.
Qed.

Lemma list_splice_moves_witness :
  exists h', list_splice (Some 11%positive) (Some 5%positive) (Some 4%positive) ex_heap = Ok (tt, h') /\
    dl h' ex_list [4]%positive /\ dl h' ex_other [5; 3]%positive.
Proof.
  destruct (list_splice_moves ex_heap ex_list [] [5; 3]%positive [4]%positive) as [_ H].
  - apply ex_dl.
  - done.
  - apply (H ex_other [] []); [apply ex_other_dl|apply ex_apart].
Defined.

(** [list_reverse] reverses the list in place. *)
Theorem list_reverse_correct h l xs :
  dl h l xs ->
  exists h', list_reverse l h = Ok (tt, h') /\ dl h' l (reverse xs) /\ frame (full l xs) h h'.
Proof. apply list_reverse_spec. Qed.

Lemma list_reverse_correct_witness :
  exists h', list_reverse ex_list ex_heap = Ok (tt, h') /\ dl h' ex_list [4; 3; 5]%positive.
Proof.
  destruct (list_reverse_correct ex_heap ex_list [5; 3; 4]%positive ex_dl) as (h' & ? & ? & _).
  by exists h'.
Defined.

(** [list_sort] terminates without a failed assertion for every strict weak
    order, and leaves the same elements in nondecreasing order; elements that compare
    as equal keep their order, and other memory is left alone. *)
Theorem list_sort_correct less h l xs :
  (forall a b, less a b = true -> less b a = false) ->
  (forall a b c, less b a = false -> less c b = false -> less c a = false) ->
  dl h l xs ->
  exists h' ys, list_sort less l h = Ok (tt, h') /\ dl h' l ys /\ ys ≡ₚ xs /\
    StronglySorted (fun a b => less b a = false) ys /\
    (forall x, filter (fun y => equiv less x y = true) ys = filter (fun y => equiv less x y = true) xs) /\
    frame (full l xs) h h'.
Proof. intros Ha Ht D. by apply (list_sort_spec less Ha Ht). Qed.

Lemma list_sort_correct_witness :
  exists h' ys, list_sort Pos.ltb ex_list ex_heap = Ok (tt, h') /\ dl h' ex_list ys /\
    ys ≡ₚ [5; 3; 4]%positive /\ StronglySorted (fun a b => Pos.ltb b a = false) ys.
Proof.
  destruct (list_sort_correct Pos.ltb ex_heap ex_list [5; 3; 4]%positive) as (h' & ys & H).
  - intros a b. rewrite Pos.ltb_lt, Pos.ltb_ge. lia.
  - intros a b c. rewrite !Pos.ltb_ge. lia.
  - apply ex_dl.
  - exists h', ys. by destruct H as (? & ? & ? & ? & _).
Defined.

(** [list_unique] keeps the first of each group of adjacent elements that
    compare as equal, so that no two neighbours compare as equal, and appends the
    others to the list of duplicates, if one is given; no element is lost. *)
Theorem list_unique_correct less h l dup x xs ds :
  dl h l (x :: xs) -> dups_ok h dup ds -> dups_apart dup ds (full l (x :: xs)) ->
  let '(kept, dups) := unique_split less x xs in
  exists h', list_unique less l dup h = Ok (tt, h') /\
    dl h' l (x :: kept) /\ dups_ok h' dup (ds ++ dups) /\ kept ++ dups ≡ₚ xs /\
    Sorted (fun a b => equiv less a b = false) (x :: kept).
Proof.
  intros D Dd Ha. destruct (list_unique_spec less h l dup x xs ds D Dd Ha) as (h' & ? & ? & ?).
  pose proof (unique_split_perm less x xs) as Hp. pose proof (unique_split_distinct less x xs) as Hs.
  destruct (unique_split less x xs) as [kept dups]. by exists h'.
Qed.

Lemma list_unique_correct_witness :
  exists h', list_unique (fun a b => Pos.ltb (Pos.max a 4) (Pos.max b 4)) ex_list (Some ex_other) ex_heap
      = Ok (tt, h') /\ dl h' ex_list [5; 3]%positive.
Proof.
  destruct (list_unique_correct (fun a b => Pos.ltb (Pos.max a 4) (Pos.max b 4)) ex_heap ex_list
    (Some ex_other) 5%positive [3; 4]%positive []) as (h' & ? & ? & _).
  - apply ex_dl.
  - apply ex_other_dl.
  - intros a Ha Hb. by apply (ex_apart a).
  - by exists h'.
Defined.
