(* ===== verification/Thread.v ===== *)
(** Threads (threads/thread.h, threads/thread.c) and the interrupt state they use
    (threads/interrupt.c), over one kernel state that the synchronization
    primitives, the timer and the warehouse's blocking list share.

    The kernel lists hold threads through the element embedded in each of them;
    by the theorems of the list files such a list is the sequence of its elements,
    and is kept as that sequence here.

    [schedule] switches the stack.  The part of a kernel function that is left
    to run when its thread is switched to again is a frame of that thread; the
    frames of a thread stand for its saved kernel stack. *)

From S2P Require Import Prelude KMonad.

(** A [struct thread *], the page of the thread. *)
Abbreviation tref := positive.

Inductive thread_status :=
  THREAD_RUNNING | THREAD_READY | THREAD_BLOCKED | THREAD_DYING.
#[export] Instance thread_status_eq_dec : EqDecision thread_status.
Proof. solve_decision. Defined.

(** The semaphores: those of the program, the one inside each lock, and the one on
    the stack of a thread in [cond_wait]. *)
Inductive sid := SUser (p : positive) | SLock (l : positive) | SWait (t : tref).
#[export] Instance sid_eq_dec : EqDecision sid.
Proof. solve_decision. Defined.

Record semaphore := mkSema { value : Z; waiters : list tref }.

(** What a thread still has to do in the kernel functions it has entered. *)
Inductive frame :=
| FStart                          (* kernel_thread: enable interrupts, call the function *)
| FIdleInit (started : sid)       (* idle: up to its loop *)
| FIdle                           (* idle: the top of its loop *)
| FHalt                           (* idle: after thread_block *)
| FYield (old : bool)             (* thread_yield after schedule *)
| FIret                           (* the return from an external interrupt *)
| FSleep (old : bool)             (* thread_sleep after thread_block *)
| FBlocked (old : bool)           (* block_thread after thread_block *)
| FSemaDown (s : sid) (old : bool) (* sema_down at the test of its loop *)
| FDown (s : sid)                 (* a call of sema_down *)
| FSemaUp (s : sid)               (* a call of sema_up *)
| FSetHolder (l : positive)       (* lock_acquire after sema_down *)
| FLockAcquire (l : positive)     (* a call of lock_acquire *)
| FLockRelease (l : positive)     (* a call of lock_release *)
| FBroadcast (c l : positive)     (* the loop of cond_broadcast *)
| FTid (t : tref)                 (* allocate_tid after lock_acquire *)
| FSetTid (t : tref) (n : Z)      (* t->tid = allocate_tid () *)
| FCreate (t : tref) (fn : option sid). (* the rest of thread_create; fn: idle (Some sema) *)
#[export] Instance frame_eq_dec : EqDecision frame.
Proof. solve_decision. Defined.

Record thread := mkThread {
  tid : Z;
  status : thread_status;
  name : list Z;
  priority : Z;
  wakeup_tick : Z;
  magic : Z;
  frames : list frame
}.

Record kernel := mkKernel {
  threads : gmap tref thread;
  ready_list : list tref;
  all_list : list tref;
  sleep_list : list tref;
  next_tick_to_wakeup : Z;
  idle_thread : option tref;
  initial_thread : tref;
  running : tref;
  intr_on : bool;
  in_external_intr : bool;
  yield_on_return : bool;
  ticks : Z;
  thread_ticks : Z;
  idle_ticks : Z;
  kernel_ticks : Z;
  next_tid : Z;
  semas : sid -> semaphore;
  holder : positive -> option tref;
  cond_waiters : positive -> list sid;
  blocked_threads : list tref
}.

(** Assignments to the kernel's variables. *)
Definition set_threads (x : gmap tref thread) (k : kernel) : kernel :=
  mkKernel x (ready_list k) (all_list k) (sleep_list k) (next_tick_to_wakeup k)
    (idle_thread k) (initial_thread k) (running k) (intr_on k) (in_external_intr k)
    (yield_on_return k) (ticks k) (thread_ticks k) (idle_ticks k) (kernel_ticks k)
    (next_tid k) (semas k) (holder k) (cond_waiters k) (blocked_threads k).
Definition set_ready_list (x : list tref) (k : kernel) : kernel :=
  mkKernel (threads k) x (all_list k) (sleep_list k) (next_tick_to_wakeup k) (idle_thread k)
    (initial_thread k) (running k) (intr_on k) (in_external_intr k) (yield_on_return k)
    (ticks k) (thread_ticks k) (idle_ticks k) (kernel_ticks k) (next_tid k) (semas k)
    (holder k) (cond_waiters k) (blocked_threads k).
Definition set_all_list (x : list tref) (k : kernel) : kernel :=
  mkKernel (threads k) (ready_list k) x (sleep_list k) (next_tick_to_wakeup k)
    (idle_thread k) (initial_thread k) (running k) (intr_on k) (in_external_intr k)
    (yield_on_return k) (ticks k) (thread_ticks k) (idle_ticks k) (kernel_ticks k)
    (next_tid k) (semas k) (holder k) (cond_waiters k) (blocked_threads k).
Definition set_sleep_list (x : list tref) (k : kernel) : kernel :=
  mkKernel (threads k) (ready_list k) (all_list k) x (next_tick_to_wakeup k) (idle_thread k)
    (initial_thread k) (running k) (intr_on k) (in_external_intr k) (yield_on_return k)
    (ticks k) (thread_ticks k) (idle_ticks k) (kernel_ticks k) (next_tid k) (semas k)
    (holder k) (cond_waiters k) (blocked_threads k).
Definition set_next_tick_to_wakeup (x : Z) (k : kernel) : kernel :=
  mkKernel (threads k) (ready_list k) (all_list k) (sleep_list k) x (idle_thread k)
    (initial_thread k) (running k) (intr_on k) (in_external_intr k) (yield_on_return k)
    (ticks k) (thread_ticks k) (idle_ticks k) (kernel_ticks k) (next_tid k) (semas k)
    (holder k) (cond_waiters k) (blocked_threads k).
Definition set_idle_thread (x : option tref) (k : kernel) : kernel :=
  mkKernel (threads k) (ready_list k) (all_list k) (sleep_list k) (next_tick_to_wakeup k) x
    (initial_thread k) (running k) (intr_on k) (in_external_intr k) (yield_on_return k)
    (ticks k) (thread_ticks k) (idle_ticks k) (kernel_ticks k) (next_tid k) (semas k)
    (holder k) (cond_waiters k) (blocked_threads k).
Definition set_initial_thread (x : tref) (k : kernel) : kernel :=
  mkKernel (threads k) (ready_list k) (all_list k) (sleep_list k) (next_tick_to_wakeup k)
    (idle_thread k) x (running k) (intr_on k) (in_external_intr k)
    (yield_on_return k) (ticks k) (thread_ticks k) (idle_ticks k) (kernel_ticks k)
    (next_tid k) (semas k) (holder k) (cond_waiters k) (blocked_threads k).
Definition set_running (x : tref) (k : kernel) : kernel :=
  mkKernel (threads k) (ready_list k) (all_list k) (sleep_list k) (next_tick_to_wakeup k)
    (idle_thread k) (initial_thread k) x (intr_on k) (in_external_intr k)
    (yield_on_return k) (ticks k) (thread_ticks k) (idle_ticks k) (kernel_ticks k)
    (next_tid k) (semas k) (holder k) (cond_waiters k) (blocked_threads k).
Definition set_intr_on (x : bool) (k : kernel) : kernel :=
  mkKernel (threads k) (ready_list k) (all_list k) (sleep_list k) (next_tick_to_wakeup k)
    (idle_thread k) (initial_thread k) (running k) x (in_external_intr k)
    (yield_on_return k) (ticks k) (thread_ticks k) (idle_ticks k) (kernel_ticks k)
    (next_tid k) (semas k) (holder k) (cond_waiters k) (blocked_threads k).
Definition set_in_external_intr (x : bool) (k : kernel) : kernel :=
  mkKernel (threads k) (ready_list k) (all_list k) (sleep_list k) (next_tick_to_wakeup k)
    (idle_thread k) (initial_thread k) (running k) (intr_on k) x (yield_on_return k)
    (ticks k) (thread_ticks k) (idle_ticks k) (kernel_ticks k) (next_tid k) (semas k)
    (holder k) (cond_waiters k) (blocked_threads k).
Definition set_yield_on_return (x : bool) (k : kernel) : kernel :=
  mkKernel (threads k) (ready_list k) (all_list k) (sleep_list k) (next_tick_to_wakeup k)
    (idle_thread k) (initial_thread k) (running k) (intr_on k) (in_external_intr k) x
    (ticks k) (thread_ticks k) (idle_ticks k) (kernel_ticks k) (next_tid k) (semas k)
    (holder k) (cond_waiters k) (blocked_threads k).
Definition set_ticks (x : Z) (k : kernel) : kernel :=
  mkKernel (threads k) (ready_list k) (all_list k) (sleep_list k) (next_tick_to_wakeup k)
    (idle_thread k) (initial_thread k) (running k) (intr_on k) (in_external_intr k)
    (yield_on_return k) x (thread_ticks k) (idle_ticks k) (kernel_ticks k) (next_tid k)
    (semas k) (holder k) (cond_waiters k) (blocked_threads k).
Definition set_thread_ticks (x : Z) (k : kernel) : kernel :=
  mkKernel (threads k) (ready_list k) (all_list k) (sleep_list k) (next_tick_to_wakeup k)
    (idle_thread k) (initial_thread k) (running k) (intr_on k) (in_external_intr k)
    (yield_on_return k) (ticks k) x (idle_ticks k) (kernel_ticks k) (next_tid k) (semas k)
    (holder k) (cond_waiters k) (blocked_threads k).
Definition set_idle_ticks (x : Z) (k : kernel) : kernel :=
  mkKernel (threads k) (ready_list k) (all_list k) (sleep_list k) (next_tick_to_wakeup k)
    (idle_thread k) (initial_thread k) (running k) (intr_on k) (in_external_intr k)
    (yield_on_return k) (ticks k) (thread_ticks k) x (kernel_ticks k) (next_tid k) (semas k)
    (holder k) (cond_waiters k) (blocked_threads k).
Definition set_kernel_ticks (x : Z) (k : kernel) : kernel :=
  mkKernel (threads k) (ready_list k) (all_list k) (sleep_list k) (next_tick_to_wakeup k)
    (idle_thread k) (initial_thread k) (running k) (intr_on k) (in_external_intr k)
    (yield_on_return k) (ticks k) (thread_ticks k) (idle_ticks k) x (next_tid k) (semas k)
    (holder k) (cond_waiters k) (blocked_threads k).
Definition set_next_tid (x : Z) (k : kernel) : kernel :=
  mkKernel (threads k) (ready_list k) (all_list k) (sleep_list k) (next_tick_to_wakeup k)
    (idle_thread k) (initial_thread k) (running k) (intr_on k) (in_external_intr k)
    (yield_on_return k) (ticks k) (thread_ticks k) (idle_ticks k) (kernel_ticks k) x
    (semas k) (holder k) (cond_waiters k) (blocked_threads k).
Definition set_semas (x : sid -> semaphore) (k : kernel) : kernel :=
  mkKernel (threads k) (ready_list k) (all_list k) (sleep_list k) (next_tick_to_wakeup k)
    (idle_thread k) (initial_thread k) (running k) (intr_on k) (in_external_intr k)
    (yield_on_return k) (ticks k) (thread_ticks k) (idle_ticks k) (kernel_ticks k)
    (next_tid k) x (holder k) (cond_waiters k) (blocked_threads k).
Definition set_holder (x : positive -> option tref) (k : kernel) : kernel :=
  mkKernel (threads k) (ready_list k) (all_list k) (sleep_list k) (next_tick_to_wakeup k)
    (idle_thread k) (initial_thread k) (running k) (intr_on k) (in_external_intr k)
    (yield_on_return k) (ticks k) (thread_ticks k) (idle_ticks k) (kernel_ticks k)
    (next_tid k) (semas k) x (cond_waiters k) (blocked_threads k).
Definition set_cond_waiters (x : positive -> list sid) (k : kernel) : kernel :=
  mkKernel (threads k) (ready_list k) (all_list k) (sleep_list k) (next_tick_to_wakeup k)
    (idle_thread k) (initial_thread k) (running k) (intr_on k) (in_external_intr k)
    (yield_on_return k) (ticks k) (thread_ticks k) (idle_ticks k) (kernel_ticks k)
    (next_tid k) (semas k) (holder k) x (blocked_threads k).
Definition set_blocked_threads (x : list tref) (k : kernel) : kernel :=
  mkKernel (threads k) (ready_list k) (all_list k) (sleep_list k) (next_tick_to_wakeup k)
    (idle_thread k) (initial_thread k) (running k) (intr_on k) (in_external_intr k)
    (yield_on_return k) (ticks k) (thread_ticks k) (idle_ticks k) (kernel_ticks k)
    (next_tid k) (semas k) (holder k) (cond_waiters k) x.

Definition set_status (x : thread_status) (t : thread) : thread :=
  mkThread (tid t) x (name t) (priority t) (wakeup_tick t) (magic t) (frames t).
Definition set_tid (x : Z) (t : thread) : thread :=
  mkThread x (status t) (name t) (priority t) (wakeup_tick t) (magic t) (frames t).
Definition set_priority (x : Z) (t : thread) : thread :=
  mkThread (tid t) (status t) (name t) x (wakeup_tick t) (magic t) (frames t).
Definition set_wakeup_tick (x : Z) (t : thread) : thread :=
  mkThread (tid t) (status t) (name t) (priority t) x (magic t) (frames t).
Definition set_frames (x : list frame) (t : thread) : thread :=
  mkThread (tid t) (status t) (name t) (priority t) (wakeup_tick t) (magic t) x.

(** An assignment to a member of the thread [t]. *)
Definition upd_thread (t : tref) (f : thread -> thread) : K kernel unit :=
  k ← get; th ← the (threads k !! t); put (set_threads (<[t := f th]> (threads k)) k).
Definition get_thread (t : tref) : K kernel thread := k ← get; the (threads k !! t).

(** ** threads/interrupt.c *)

Definition intr_context : K kernel bool := gets in_external_intr.
Definition intr_get_level : K kernel bool := gets intr_on.
Definition intr_disable : K kernel bool :=
  old ← gets intr_on; modify (set_intr_on false);; mret old.
Definition intr_enable : K kernel bool :=
  old ← gets intr_on; c ← intr_context; ASSERT (negb c);;
  modify (set_intr_on true);; mret old.
Definition intr_set_level (level : bool) : K kernel bool :=
  if level then intr_enable else intr_disable.
Definition intr_yield_on_return : K kernel unit :=
  c ← intr_context; ASSERT c;; modify (set_yield_on_return true).

(** ** threads/thread.c *)

Definition THREAD_MAGIC : Z := 0xcd6abf4b.
Definition PRI_MIN : Z := 0.
Definition PRI_DEFAULT : Z := 31.
Definition PRI_MAX : Z := 63.
Definition TIME_SLICE : Z := 4.
Definition INT64_MAX : Z := 2 ^ 63 - 1.
Definition TID_ERROR : Z := -1.
(** The address of [tid_lock]. *)
Definition tid_lock : positive := 1.

Definition is_thread (th : thread) : bool := magic th =? THREAD_MAGIC.
Definition status_eqb (a b : thread_status) : bool := bool_decide (a = b).

Definition thread_current : K kernel tref :=
  t ← gets running; th ← get_thread t;
  ASSERT (is_thread th);;
  ASSERT (status_eqb (status th) THREAD_RUNNING);;
  mret t.

(** [strlcpy] into the 16 bytes of [name]. *)
Definition init_thread (t : tref) (nm : list Z) (prio : Z) : K kernel unit :=
  ASSERT ((PRI_MIN <=? prio) && (prio <=? PRI_MAX));;
  modify (fun k => set_threads
    (<[t := mkThread 0 THREAD_BLOCKED (take 15 nm) prio 0 THREAD_MAGIC []]> (threads k)) k);;
  old ← intr_disable;
  modify (fun k => set_all_list (all_list k ++ [t]) k);;
  intr_set_level old;; mret tt.

Definition thread_unblock (t : tref) : K kernel unit :=
  th ← get_thread t;
  ASSERT (is_thread th);;
  old ← intr_disable;
  ASSERT (status_eqb (status th) THREAD_BLOCKED);;
  modify (fun k => set_ready_list (ready_list k ++ [t]) k);;
  upd_thread t (set_status THREAD_READY);;
  intr_set_level old;; mret tt.

Definition next_thread_to_run : K kernel (option tref) :=
  k ← get;
  match ready_list k with
  | [] => mret (idle_thread k)
  | t :: rest => put (set_ready_list rest k);; mret (Some t)
  end.

(** [palloc_free_page] takes the page of a dead thread away. *)
Definition thread_schedule_tail (prev : option tref) : K kernel unit :=
  cur ← gets running;
  on ← intr_get_level; ASSERT (negb on);;
  upd_thread cur (set_status THREAD_RUNNING);;
  modify (set_thread_ticks 0);;
  match prev with
  | None => mret tt
  | Some p =>
      th ← get_thread p; k ← get;
      if status_eqb (status th) THREAD_DYING && negb (bool_decide (p = initial_thread k))
      then ASSERT (negb (bool_decide (p = cur)));; put (set_threads (delete p (threads k)) k)
      else mret tt
  end.

Definition schedule : K kernel unit :=
  cur ← gets running;
  next ← next_thread_to_run;
  on ← intr_get_level; ASSERT (negb on);;
  c ← get_thread cur; ASSERT (negb (status_eqb (status c) THREAD_RUNNING));;
  next ← the next; n ← get_thread next; ASSERT (is_thread n);;
  if bool_decide (cur = next) then thread_schedule_tail None
  else modify (set_running next);; thread_schedule_tail (Some cur).

Definition thread_block : K kernel unit :=
  c ← intr_context; ASSERT (negb c);;
  on ← intr_get_level; ASSERT (negb on);;
  t ← thread_current; upd_thread t (set_status THREAD_BLOCKED);;
  schedule.

(** What is left to do when this thread is switched to again. *)
Definition push_frames (t : tref) (fs : list frame) : K kernel unit :=
  upd_thread t (fun th => set_frames (fs ++ frames th) th).
Definition pop_frame (t : tref) : K kernel unit :=
  upd_thread t (fun th => set_frames (tail (frames th)) th).

Definition update_next_tick_to_wakeup (tick : Z) : K kernel unit :=
  modify (fun k => set_next_tick_to_wakeup
    (if tick <? next_tick_to_wakeup k then tick else next_tick_to_wakeup k) k).

Definition thread_sleep (tick : Z) : K kernel unit :=
  old ← intr_disable;
  cur ← thread_current;
  k ← get; ASSERT (negb (bool_decide (Some cur = idle_thread k)));;
  upd_thread cur (set_wakeup_tick tick);;
  update_next_tick_to_wakeup tick;;
  modify (fun k => set_sleep_list (sleep_list k ++ [cur]) k);;
  push_frames cur [FSleep old];;
  thread_block.

(** The loop of [thread_wakeup] over the elements of [sleep_list]. *)
Fixpoint wakeup_loop (current_tick : Z) (l : list tref) : K kernel unit :=
  match l with
  | [] => mret tt
  | t :: l' =>
      th ← get_thread t;
      (if wakeup_tick th <=? current_tick then
         modify (fun k => set_sleep_list (filter (fun u => u <> t) (sleep_list k)) k);;
         thread_unblock t
       else update_next_tick_to_wakeup (wakeup_tick th));;
      wakeup_loop current_tick l'
  end.
Definition thread_wakeup (current_tick : Z) : K kernel unit :=
  modify (set_next_tick_to_wakeup INT64_MAX);;
  l ← gets sleep_list; wakeup_loop current_tick l.

Definition thread_yield : K kernel unit :=
  cur ← thread_current;
  c ← intr_context; ASSERT (negb c);;
  old ← intr_disable;
  k ← get;
  when (negb (bool_decide (Some cur = idle_thread k)))
    (modify (fun k => set_ready_list (ready_list k ++ [cur]) k));;
  upd_thread cur (set_status THREAD_READY);;
  push_frames cur [FYield old];;
  schedule.

Definition thread_exit : K kernel unit :=
  c ← intr_context; ASSERT (negb c);;
  intr_disable;;
  t ← thread_current;
  modify (fun k => set_all_list (filter (fun u => u <> t) (all_list k)) k);;
  t ← thread_current; upd_thread t (set_status THREAD_DYING);;
  schedule.

Definition thread_set_priority (new_priority : Z) : K kernel unit :=
  t ← thread_current; upd_thread t (set_priority new_priority).
Definition thread_get_priority : K kernel Z :=
  t ← thread_current; th ← get_thread t; mret (priority th).

Definition thread_tick : K kernel unit :=
  t ← thread_current; k ← get;
  (if bool_decide (Some t = idle_thread k)
   then modify (fun k => set_idle_ticks (idle_ticks k + 1) k)
   else modify (fun k => set_kernel_ticks (kernel_ticks k + 1) k));;
  modify (fun k => set_thread_ticks (u32 (thread_ticks k + 1)) k);;
  n ← gets thread_ticks;
  when (TIME_SLICE <=? n) intr_yield_on_return.
