(* ===== verification/Synch.v ===== *)
(** Synchronization (threads/synch.h, threads/synch.c), the creation of threads,
    the idle thread, the timer (devices/timer.c), the blocking list of the
    warehouse (aw_thread.c), and the interleaving of all of these as the steps of
    the kernel.

    A function that may be preempted or switched away from between two of its
    statements is cut there: the rest of it is a frame.  Interrupts are off within
    each piece that touches a list or a counter. *)

From S2P Require Import Prelude KMonad Thread.

(** ** Semaphores *)

Definition upd_sema (s : sid) (f : semaphore -> semaphore) : K kernel unit :=
  modify (fun k => set_semas (fun x => if decide (x = s) then f (semas k s) else semas k x) k).
Definition get_sema (s : sid) : K kernel semaphore := gets (fun k => semas k s).

Definition sema_init (s : sid) (v : Z) : K kernel unit := upd_sema s (fun _ => mkSema v []).

Definition push_waiter (t : tref) (sm : semaphore) : semaphore :=
  mkSema (value sm) (waiters sm ++ [t]).
Definition pop_waiter (sm : semaphore) : semaphore := mkSema (value sm) (tail (waiters sm)).
Definition set_value (v : Z) (sm : semaphore) : semaphore := mkSema v (waiters sm).

(** [sema_down] up to its loop. *)
Definition sema_down (s : sid) : K kernel unit :=
  c ← intr_context; ASSERT (negb c);;
  old ← intr_disable;
  t ← gets running; push_frames t [FSemaDown s old].

(** Where [sema_down] returns to: on the semaphore of a lock, to [lock_acquire]. *)
Definition return_to (s : sid) : list frame :=
  match s with SLock l => [FSetHolder l] | _ => [] end.

(** The test of the loop: wait, and test again when woken up, or go on. *)
Definition sema_down_test (s : sid) (old : bool) : K kernel unit :=
  sm ← get_sema s;
  if value sm =? 0 then
    t ← thread_current; upd_sema s (push_waiter t);; thread_block
  else
    upd_sema s (fun sm => set_value (u32 (value sm - 1)) sm);;
    t ← gets running; pop_frame t;; push_frames t (return_to s);;
    intr_set_level old;; mret tt.

Definition sema_try_down (s : sid) : K kernel bool :=
  old ← intr_disable;
  sm ← get_sema s;
  success ← (if 0 <? value sm
             then upd_sema s (fun sm => set_value (u32 (value sm - 1)) sm);; mret true
             else mret false);
  intr_set_level old;; mret success.

Definition sema_up (s : sid) : K kernel unit :=
  old ← intr_disable;
  sm ← get_sema s;
  match waiters sm with
  | [] => mret tt
  | t :: _ => upd_sema s pop_waiter;; thread_unblock t
  end;;
  upd_sema s (fun sm => set_value (u32 (value sm + 1)) sm);;
  intr_set_level old;; mret tt.

(** ** Locks *)

Definition set_holder_of (l : positive) (h : option tref) : K kernel unit :=
  modify (fun k => set_holder (fun x => if decide (x = l) then h else holder k x) k).

Definition lock_init (l : positive) : K kernel unit :=
  set_holder_of l None;; sema_init (SLock l) 1.

Definition lock_held_by_current_thread (l : positive) : K kernel bool :=
  t ← thread_current; h ← gets (fun k => holder k l); mret (bool_decide (h = Some t)).

Definition lock_acquire (l : positive) : K kernel unit :=
  c ← intr_context; ASSERT (negb c);;
  held ← lock_held_by_current_thread l; ASSERT (negb held);;
  t ← gets running; push_frames t [FDown (SLock l)].

Definition lock_try_acquire (l : positive) : K kernel bool :=
  held ← lock_held_by_current_thread l; ASSERT (negb held);;
  success ← sema_try_down (SLock l);
  t ← gets running; when success (push_frames t [FSetHolder l]);;
  mret success.

Definition lock_release (l : positive) : K kernel unit :=
  held ← lock_held_by_current_thread l; ASSERT held;;
  set_holder_of l None;;
  t ← gets running; push_frames t [FSemaUp (SLock l)].

(** ** Condition variables *)

Definition set_cond_waiters_of (c : positive) (ws : list sid) : K kernel unit :=
  modify (fun k => set_cond_waiters (fun x => if decide (x = c) then ws else cond_waiters k x) k).

Definition cond_init (c : positive) : K kernel unit := set_cond_waiters_of c [].

Definition cond_wait (c l : positive) : K kernel unit :=
  x ← intr_context; ASSERT (negb x);;
  held ← lock_held_by_current_thread l; ASSERT held;;
  t ← gets running;
  sema_init (SWait t) 0;;
  ws ← gets (fun k => cond_waiters k c);
  set_cond_waiters_of c (ws ++ [SWait t]);;
  push_frames t [FLockRelease l; FDown (SWait t); FLockAcquire l].

Definition cond_signal (c l : positive) : K kernel unit :=
  x ← intr_context; ASSERT (negb x);;
  held ← lock_held_by_current_thread l; ASSERT held;;
  ws ← gets (fun k => cond_waiters k c);
  match ws with
  | [] => mret tt
  | w :: rest => set_cond_waiters_of c rest;; t ← gets running; push_frames t [FSemaUp w]
  end.

Definition cond_broadcast (c l : positive) : K kernel unit :=
  t ← gets running; push_frames t [FBroadcast c l].

(** ** Creating threads *)

(** [allocate_tid] for the thread [t], called by [cur]. *)
Definition allocate_tid_for (cur t : tref) : K kernel unit :=
  push_frames cur [FLockAcquire tid_lock; FTid t].
Definition allocate_tid_tail (t : tref) : K kernel unit :=
  n ← gets next_tid; modify (set_next_tid (s32 (n + 1)));;
  cur ← gets running; push_frames cur [FLockRelease tid_lock; FSetTid t n].

(** [thread_create] up to [allocate_tid]; [page] is the result of
    [palloc_get_page], and [fn] tells the idle thread's function from others. *)
Definition thread_create (page : option tref) (nm : list Z) (prio : Z) (fn : option sid)
  : K kernel unit :=
  match page with
  | None => mret tt
  | Some t =>
      init_thread t nm prio;;
      cur ← gets running; push_frames cur [FCreate t fn];; allocate_tid_for cur t
  end.

(** The stack of the new thread: [kernel_thread], which calls its function. *)
Definition thread_create_tail (t : tref) (fn : option sid) : K kernel unit :=
  upd_thread t (set_frames (FStart :: match fn with Some s => [FIdleInit s] | None => [] end));;
  thread_unblock t.

(** ** Starting the system *)

Definition thread_init : K kernel unit :=
  on ← intr_get_level; ASSERT (negb on);;
  lock_init tid_lock;;
  modify (set_ready_list []);; modify (set_all_list []);; modify (set_sleep_list []);;
  main ← gets running; modify (set_initial_thread main);;
  init_thread main (map ch ["m"; "a"; "i"; "n"]%char) PRI_DEFAULT;;
  upd_thread main (set_status THREAD_RUNNING);;
  allocate_tid_for main main.

(** The semaphore [idle_started]. *)
Definition idle_started : sid := SUser 1.
Definition thread_start (page : option tref) : K kernel unit :=
  sema_init idle_started 0;;
  t ← gets running; push_frames t [FStart; FDown idle_started];;
  thread_create page (map ch ["i"; "d"; "l"; "e"]%char) PRI_MIN (Some idle_started).

(** The kernel's variables before [thread_init]; [main] is the page of the stack.
    The program's own semaphores start with the unsigned values [v0], its locks are free. *)
Definition reset (main : tref) (v0 : positive -> Z) : kernel :=
  mkKernel ∅ [] [] [] INT64_MAX None main main false false false 0 0 0 0 1
    (fun s => match s with SUser p => mkSema (v0 p) [] | SLock _ => mkSema 1 []
              | SWait _ => mkSema 0 [] end)
    (fun _ => None) (fun _ => []) [].

(** ** The timer *)

Definition timer_ticks : K kernel Z :=
  old ← intr_disable; n ← gets ticks; intr_set_level old;; mret n.

Definition timer_sleep (n : Z) : K kernel unit :=
  start ← timer_ticks;
  on ← intr_get_level; ASSERT on;;
  thread_sleep (s64 (start + n)).

Definition timer_interrupt : K kernel unit :=
  modify (fun k => set_ticks (s64 (ticks k + 1)) k);;
  thread_tick;;
  k ← get;
  when (next_tick_to_wakeup k <=? ticks k) (thread_wakeup (ticks k)).

(** [intr_handler] on a timer interrupt: the processor has turned interrupts off,
    and turns them on again with the return from the interrupt. *)
Definition external_interrupt : K kernel unit :=
  modify (set_intr_on false);;
  on ← intr_get_level; ASSERT (negb on);;
  c ← intr_context; ASSERT (negb c);;
  modify (set_in_external_intr true);;
  modify (set_yield_on_return false);;
  timer_interrupt;;
  on ← intr_get_level; ASSERT (negb on);;
  c ← intr_context; ASSERT c;;
  modify (set_in_external_intr false);;
  y ← gets yield_on_return;
  if (y : bool) then t ← gets running; push_frames t [FIret];; thread_yield
  else modify (set_intr_on true).

(** ** aw_thread.c *)

Definition block_thread : K kernel unit :=
  cur ← thread_current;
  old ← intr_disable;
  modify (fun k => set_blocked_threads (blocked_threads k ++ [cur]) k);;
  push_frames cur [FBlocked old];;
  thread_block.

Fixpoint unblock_loop (l : list tref) : K kernel unit :=
  match l with
  | [] => mret tt
  | t :: l' =>
      modify (fun k => set_blocked_threads (tail (blocked_threads k)) k);;
      thread_unblock t;; unblock_loop l'
  end.
Definition unblock_threads : K kernel unit :=
  old ← intr_disable;
  l ← gets blocked_threads; unblock_loop l;;
  intr_set_level old;; mret tt.

(** ** The steps of the kernel *)

Definition run_frame (f : frame) : K kernel unit :=
  t ← gets running;
  match f with
  | FStart => pop_frame t;; intr_enable;; mret tt
  | FIdleInit s => pop_frame t;; t ← thread_current;
      modify (set_idle_thread (Some t));; push_frames t [FSemaUp s; FIdle]
  | FIdle => pop_frame t;; push_frames t [FHalt];; intr_disable;; thread_block
  | FHalt => pop_frame t;; push_frames t [FIdle];; modify (set_intr_on true)
  | FYield old | FSleep old | FBlocked old => pop_frame t;; intr_set_level old;; mret tt
  | FIret => pop_frame t;; modify (set_intr_on true)
  | FSemaDown s old => sema_down_test s old
  | FDown s => pop_frame t;; sema_down s
  | FSemaUp s => pop_frame t;; sema_up s
  | FSetHolder l => pop_frame t;; t ← thread_current; set_holder_of l (Some t)
  | FLockAcquire l => pop_frame t;; lock_acquire l
  | FLockRelease l => pop_frame t;; lock_release l
  | FBroadcast c l =>
      ws ← gets (fun k => cond_waiters k c);
      match ws with [] => pop_frame t | _ => cond_signal c l end
  | FTid u => pop_frame t;; allocate_tid_tail u
  | FSetTid u n => pop_frame t;; upd_thread u (set_tid n)
  | FCreate u fn => pop_frame t;; thread_create_tail u fn
  end.

(** What a thread's own code may call. *)
Inductive call :=
| CSemaDown (p : positive) | CSemaTryDown (p : positive) | CSemaUp (p : positive)
| CLockAcquire (l : positive) | CLockTryAcquire (l : positive) | CLockRelease (l : positive)
| CCondWait (c l : positive) | CCondSignal (c l : positive) | CCondBroadcast (c l : positive)
| CYield | CSleep (n : Z) | CCreate (page : option tref) (nm : list Z) (prio : Z) | CExit
| CSetPriority (p : Z) | CBlock | CUnblock.

Definition do_call (c : call) : K kernel unit :=
  match c with
  | CSemaDown p => sema_down (SUser p)
  | CSemaTryDown p => sema_try_down (SUser p);; mret tt
  | CSemaUp p => sema_up (SUser p)
  | CLockAcquire l => lock_acquire l
  | CLockTryAcquire l => lock_try_acquire l;; mret tt
  | CLockRelease l => lock_release l
  | CCondWait c l => cond_wait c l
  | CCondSignal c l => cond_signal c l
  | CCondBroadcast c l => cond_broadcast c l
  | CYield => thread_yield
  | CSleep n => timer_sleep n
  | CCreate page nm prio => thread_create page nm prio None
  | CExit => thread_exit
  | CSetPriority p => thread_set_priority p
  | CBlock => block_thread
  | CUnblock => unblock_threads
  end.

Definition cur_frames (k : kernel) : list frame :=
  match threads k !! running k with Some th => frames th | None => [] end.

(** The running thread goes on with the kernel function it is in, or its own code
    calls one; a timer interrupt can come whenever interrupts are on.  The page of a
    new thread is a free one. *)
Inductive kstep : kernel -> kernel -> Prop :=
| kstep_frame f fs k k' :
    cur_frames k = f :: fs -> run_frame f k = Ok (tt, k') -> kstep k k'
| kstep_call c k k' :
    cur_frames k = [] ->
    match c with CCreate (Some t) _ _ => threads k !! t = None | _ => True end ->
    do_call c k = Ok (tt, k') -> kstep k k'
| kstep_interrupt k k' :
    intr_on k = true -> external_interrupt k = Ok (tt, k') -> kstep k k'.
