(* ===== verification/SchedInv.v ===== *)
(** The scheduler's invariant: every thread is in exactly the queue that its
    status and its stack say, one thread runs, locks are held by at most one
    thread, wake-ups are not lost.  Every step of the kernel keeps it. *)

From S2P Require Import Prelude KMonad Thread Synch.

(** ** Queues and places *)

Inductive qid := QReady | QSleep | QAw | QSema (s : sid).
#[export] Instance qid_eq_dec : EqDecision qid.
Proof. solve_decision. Defined.

Definition queue (k : kernel) (q : qid) : list tref :=
  match q with
  | QReady => ready_list k
  | QSleep => sleep_list k
  | QAw => blocked_threads k
  | QSema s => waiters (semas k s)
  end.

(** Where a blocked thread waits. *)
Definition waits_in (fs : list frame) : option qid :=
  match fs with
  | FSleep _ :: _ => Some QSleep
  | FBlocked _ :: _ => Some QAw
  | FSemaDown s _ :: _ => Some (QSema s)
  | _ => None
  end.

(** The queue a thread has to be in. *)
Definition place_of (idle : option tref) (t : tref) (th : option thread) : option qid :=
  match th with
  | None => None
  | Some th =>
      match status th with
      | THREAD_READY => if bool_decide (Some t = idle) then None else Some QReady
      | THREAD_BLOCKED => waits_in (frames th)
      | _ => None
      end
  end.
Definition place (k : kernel) (t : tref) : option qid :=
  place_of (idle_thread k) t (threads k !! t).

(** Queues hold the threads whose place they are, once. *)
Definition queues_ok (pl : tref -> option qid) (qs : qid -> list tref) : Prop :=
  forall q, NoDup (qs q) /\ forall t, t ∈ qs q <-> pl t = Some q.

Lemma queues_ok_ext pl pl' qs qs' :
  (forall t, pl' t = pl t) -> (forall q, qs' q = qs q) -> queues_ok pl qs -> queues_ok pl' qs'.
Proof. intros Hp Hq H q. rewrite Hq. destruct (H q) as [Hn Hi]. split; [done|]. intros t. rewrite Hp. apply Hi. Qed.

(** A thread without a place enters a queue. *)
Lemma queues_ok_push pl qs pl' qs' t q :
  queues_ok pl qs -> pl t = None ->
  (forall u, pl' u = if decide (u = t) then Some q else pl u) ->
  (forall r, qs' r = if decide (r = q) then qs r ++ [t] else qs r) -> queues_ok pl' qs'.
Proof.
  intros H Ht Hp Hq r. destruct (H r) as [Hn Hi]. rewrite Hq.
  assert (Hnt : t ∉ qs r) by (rewrite Hi; congruence).
  destruct (decide (r = q)) as [->|Hne].
  - split.
    + apply NoDup_app. split_and!; [done| |apply NoDup_singleton].
      intros u Hu. rewrite list_elem_of_singleton. congruence.
    + intros u. rewrite elem_of_app, list_elem_of_singleton, Hi, Hp.
      destruct (decide (u = t)) as [->|]; [split; auto|]. split; [intros [?|?]; congruence|auto].
  - split; [done|]. intros u. rewrite Hi, Hp. destruct (decide (u = t)) as [->|]; [|done].
    split; congruence.
Qed.

(** A thread leaves its queue. *)
Lemma queues_ok_remove pl qs pl' qs' t q :
  queues_ok pl qs -> pl t = Some q ->
  (forall u, pl' u = if decide (u = t) then None else pl u) ->
  (forall r, qs' r = if decide (r = q) then filter (fun u => u <> t) (qs r) else qs r) ->
  queues_ok pl' qs'.
Proof.
  intros H Ht Hp Hq r. destruct (H r) as [Hn Hi]. rewrite Hq.
  destruct (decide (r = q)) as [->|Hne].
  - split; [by apply NoDup_filter|]. intros u. rewrite list_elem_of_filter, Hi, Hp.
    destruct (decide (u = t)) as [->|]; [split; [by intros []|done]|split; [by intros []|done]].
  - split; [done|]. intros u. rewrite Hi, Hp. destruct (decide (u = t)) as [->|]; [|done].
    split; congruence.
Qed.

Lemma filter_head (t : tref) rest : NoDup (t :: rest) -> filter (fun u => u <> t) (t :: rest) = rest.
Proof.
  intros [Hn _]%NoDup_cons. rewrite filter_cons_False by auto.
  induction rest as [|u rest IH]; [done|]. rewrite not_elem_of_cons in Hn.
  rewrite filter_cons_True by (intros ->; tauto). f_equal. apply IH. tauto.
Qed.

(** ** Effects of the scheduler's operations *)

Ltac krun := erewrite bind_ok by reflexivity; cbv beta.
Ltac kassert := rewrite ASSERT_true; [|done || (simpl; done)].

Section effects.
Implicit Types (k : kernel) (t : tref).

Lemma get_thread_ok k t th : threads k !! t = Some th -> get_thread t k = Ok (th, k).
Proof. intros H. unfold get_thread. krun. by rewrite H. Qed.
Lemma upd_thread_ok k t th f :
  threads k !! t = Some th ->
  upd_thread t f k = Ok (tt, set_threads (<[t := f th]> (threads k)) k).
Proof. intros H. unfold upd_thread. krun. by rewrite H. Qed.
Lemma intr_set_level_eq b k :
  (b = true -> in_external_intr k = false) -> intr_set_level b k = Ok (intr_on k, set_intr_on b k).
Proof.
  intros H. destruct b; [|done]. unfold intr_set_level, intr_enable. krun. krun.
  by rewrite ASSERT_true by (by rewrite H).
Qed.
Lemma intr_set_level_ok b k :
  (b = true -> in_external_intr k = false) -> (intr_set_level b;; mret tt) k = Ok (tt, set_intr_on b k).
Proof. intros H. by kstep (intr_set_level_eq b k H). Qed.
Lemma status_eqb_true th s : status th = s -> status_eqb (status th) s = true.
Proof. intros ->. by apply bool_decide_eq_true. Qed.
Lemma status_eqb_false th s : status th <> s -> status_eqb (status th) s = false.
Proof. intros H. by apply bool_decide_eq_false. Qed.

Definition unblocked t (th : thread) k : kernel :=
  set_threads (<[t := set_status THREAD_READY th]> (threads k))
    (set_ready_list (ready_list k ++ [t]) k).

Lemma thread_unblock_ok k t th :
  threads k !! t = Some th -> is_thread th = true -> status th = THREAD_BLOCKED ->
  (intr_on k = true -> in_external_intr k = false) ->
  thread_unblock t k = Ok (tt, unblocked t th k).
Proof.
  intros Ht Hm Hs Hi. unfold thread_unblock. kstep (get_thread_ok k t th Ht).
  rewrite ASSERT_true by done. krun. rewrite ASSERT_true by (by apply status_eqb_true). krun.
  erewrite bind_ok by (apply upd_thread_ok; exact Ht). cbv beta.
  rewrite intr_set_level_ok by done. by destruct k.
Qed.

(** The switch to [n]: [rest] is the rest of the ready list. *)
Definition switched t (th : thread) (n : tref) (nt : thread) rest k : kernel :=
  let ths := <[n := set_status THREAD_RUNNING nt]> (threads k) in
  let ths := if negb (bool_decide (t = n)) && status_eqb (status th) THREAD_DYING
                && negb (bool_decide (t = initial_thread k))
             then delete t ths else ths in
  set_thread_ticks 0 (set_threads ths (set_running n (set_ready_list rest k))).

Lemma schedule_ok k th n nt rest :
  threads k !! running k = Some th -> status th <> THREAD_RUNNING -> intr_on k = false ->
  (ready_list k = n :: rest \/ (ready_list k = [] /\ rest = [] /\ idle_thread k = Some n)) ->
  threads k !! n = Some nt -> is_thread nt = true ->
  schedule k = Ok (tt, switched (running k) th n nt rest k).
Proof.
  intros Ht Hs Hi Hn Hnt Hm. unfold schedule. krun.
  assert (Hnx : next_thread_to_run k = Ok (Some n, set_ready_list rest k)).
  { unfold next_thread_to_run. krun. destruct Hn as [E|(E & -> & E2)]; rewrite E; [done|].
    rewrite E2. destruct k; simpl in *; by subst. }
  kstep Hnx. krun. rewrite ASSERT_true by (simpl; by rewrite Hi).
  erewrite bind_ok by (apply get_thread_ok; exact Ht). cbv beta.
  rewrite ASSERT_true by (by rewrite status_eqb_false). krun.
  erewrite bind_ok by (apply get_thread_ok; exact Hnt). cbv beta. rewrite ASSERT_true by done.
  unfold switched. destruct (bool_decide (running k = n)) eqn:Eb.
  - apply bool_decide_eq_true in Eb. subst n. cbn [negb andb].
    unfold thread_schedule_tail. krun. krun. rewrite ASSERT_true by (simpl; by rewrite Hi).
    erewrite bind_ok by (apply upd_thread_ok; exact Hnt). cbv beta. krun. by destruct k.
  - apply bool_decide_eq_false in Eb. cbn [negb andb]. krun.
    unfold thread_schedule_tail. krun. krun. rewrite ASSERT_true by (simpl; by rewrite Hi).
    erewrite bind_ok by (apply upd_thread_ok; exact Hnt). cbv beta. krun.
    erewrite bind_ok
      by (apply get_thread_ok; cbn [threads set_thread_ticks set_threads set_running set_ready_list];
          rewrite lookup_insert_ne by done; exact Ht). cbv beta. krun.
    cbn [initial_thread set_thread_ticks set_threads set_running set_ready_list].
    destruct (status_eqb (status th) THREAD_DYING && negb (bool_decide (running k = initial_thread k)));
      [|done].
    rewrite ASSERT_true by (by rewrite bool_decide_eq_false_2). done.
Qed.
End effects.

(** ** The invariant

    Each part is stated on the variables it depends on. *)

Abbreviation threads_t := (gmap tref thread).

Definition magic_ok (ths : threads_t) : Prop :=
  forall t th, ths !! t = Some th -> is_thread th = true.

(** One thread runs, unless [run] says that a switch is under way. *)
Definition run_ok (run : bool) (cur : tref) (ths : threads_t) : Prop :=
  (exists th, ths !! cur = Some th /\ (run = true -> status th = THREAD_RUNNING)) /\
  forall t th, ths !! t = Some th -> status th = THREAD_RUNNING -> run = true /\ t = cur.

(** The idle thread never leaves its loop, and waits nowhere. *)
Definition idle_frame (f : frame) : bool :=
  match f with FYield _ | FIret => true | FSemaUp (SUser _) => true | _ => false end.
Definition idle_stack (fs : list frame) : Prop :=
  exists pre b, fs = pre ++ [b] /\ (b = FIdle \/ b = FHalt) /\ Forall (fun f => idle_frame f = true) pre.
Definition idle_ok (idle : option tref) (ths : threads_t) : Prop :=
  exists i th, idle = Some i /\ ths !! i = Some th /\ idle_stack (frames th) /\
    status th <> THREAD_DYING /\ (status th = THREAD_BLOCKED -> frames th = [FHalt]).

(** A thread that [thread_create] has not made ready yet is blocked, nowhere, and
    belongs to one creator. *)
Definition creates (fs : list frame) : list tref :=
  omap (fun f => match f with FCreate u _ => Some u | _ => None end) fs.
Definition new_ok (ths : threads_t) : Prop :=
  (forall t th u, ths !! t = Some th -> u ∈ creates (frames th) ->
     exists uh, ths !! u = Some uh /\ status uh = THREAD_BLOCKED /\ frames uh = []) /\
  (forall t th t' th' u, ths !! t = Some th -> ths !! t' = Some th' ->
     u ∈ creates (frames th) -> u ∈ creates (frames th') -> t = t') /\
  (forall t th, ths !! t = Some th -> NoDup (creates (frames th))).

(** A frame [f] above the frames [fs] of [t]: a thread waits on no other thread's
    stack; no second idle thread is created, whose loop is at the bottom of its stack; a
    thread gets its identifier before it is started. *)
Definition frame_ok (t : tref) (fs : list frame) (f : frame) : Prop :=
  match f with
  | FSemaDown (SWait u) _ | FDown (SWait u) => u = t
  | FIdleInit _ => False
  | FIdle | FHalt => fs = []
  | FCreate _ fn => fn = None
  | FTid u | FSetTid u _ => u ∈ creates fs
  | _ => True
  end.
(** [sema_down] is left before any other kernel function is entered. *)
Definition not_down (f : frame) : Prop := match f with FSemaDown _ _ => False | _ => True end.
Fixpoint stack_ok (t : tref) (fs : list frame) : Prop :=
  match fs with
  | [] => True
  | f :: fs' => frame_ok t fs' f /\ Forall not_down fs' /\ stack_ok t fs'
  end.
Definition stacks_ok (ths : threads_t) : Prop :=
  forall t th, ths !! t = Some th -> stack_ok t (frames th).

(** Threads that have passed [sema_down] of a lock but not yet stored themselves as
    its holder, or that have cleared the holder but not yet called [sema_up]. *)
Definition holds_frame (l : positive) (f : frame) : Prop := f = FSetHolder l \/ f = FSemaUp (SLock l).
#[export] Instance holds_frame_dec l f : Decision (holds_frame l f).
Proof. unfold holds_frame. apply _. Defined.
Definition tok (l : positive) (fs : list frame) : nat := length (filter (holds_frame l) fs).

(** At most one thread is between the down and the up of a lock's semaphore. *)
Definition lock_one (ths : threads_t) (l : positive) (v : Z) (h : option tref) : Prop :=
  (v = 0 \/ v = 1) /\
  (h <> None -> v = 0 /\ forall t th, ths !! t = Some th -> tok l (frames th) = 0%nat) /\
  (forall t th, ths !! t = Some th -> tok l (frames th) <> 0%nat ->
     v = 0 /\ tok l (frames th) = 1%nat /\ h = None /\
     forall t' th', ths !! t' = Some th' -> t' <> t -> tok l (frames th') = 0%nat).
Definition lock_ok (ths : threads_t) (sm : sid -> semaphore) (hd : positive -> option tref) : Prop :=
  forall l, lock_one ths l (value (sm (SLock l))) (hd l).

Definition val_ok (sm : sid -> semaphore) : Prop := forall s, 0 <= value (sm s) < 2 ^ 32.

(** A thread that is on its way to test the semaphore [s]. *)
Definition woken (ths : threads_t) (s : sid) (t : tref) : Prop :=
  exists th old fs, ths !! t = Some th /\ frames th = FSemaDown s old :: fs /\
    (status th = THREAD_READY \/ status th = THREAD_RUNNING).
(** No lost wake-ups: while threads wait, the value is covered by threads that have
    been woken up. *)
Definition wake_ok (ths : threads_t) (sm : sid -> semaphore) : Prop :=
  forall s, waiters (sm s) <> [] ->
    exists ws, NoDup ws /\ (forall t, t ∈ ws -> woken ths s t) /\ value (sm s) <= Z.of_nat (length ws).

Definition sleep_ok (ths : threads_t) (sleep : list tref) (next_tick : Z) : Prop :=
  forall t th, t ∈ sleep -> ths !! t = Some th -> next_tick <= wakeup_tick th <= INT64_MAX.

(** Within [sema_down], interrupts are off. *)
Definition off_ok (run : bool) (cur : tref) (ths : threads_t) (on : bool) : Prop :=
  run = true -> on = true -> forall th s old fs, ths !! cur = Some th -> frames th <> FSemaDown s old :: fs.

Record kcore (run : bool) (k : kernel) : Prop := {
  ki_magic : magic_ok (threads k);
  ki_run : run_ok run (running k) (threads k);
  ki_queues : queues_ok (place k) (queue k);
  ki_idle : idle_ok (idle_thread k) (threads k);
  ki_new : new_ok (threads k);
  ki_stacks : stacks_ok (threads k);
  ki_lock : lock_ok (threads k) (semas k) (holder k);
  ki_val : val_ok (semas k);
  ki_wake : wake_ok (threads k) (semas k);
  ki_off : off_ok run (running k) (threads k) (intr_on k)
}.

(** All of it; between steps no interrupt is being handled. *)
Record kinv (k : kernel) : Prop := {
  kv_core : kcore true k;
  kv_sleep : sleep_ok (threads k) (sleep_list k) (next_tick_to_wakeup k);
  kv_ext : in_external_intr k = false
}.

(** ** Changing one thread *)

Ltac ins H := rewrite lookup_insert_Some in H; destruct H as [[? ?]|[? H]]; subst.

Section insert.
Implicit Types (ths : threads_t) (t : tref) (th : thread).

Lemma magic_insert ths t th' :
  magic_ok ths -> is_thread th' = true -> magic_ok (<[t := th']> ths).
Proof. intros H Hm u uh Hu. ins Hu; [done|by eapply H]. Qed.

Lemma stacks_insert ths t th' :
  stacks_ok ths -> stack_ok t (frames th') -> stacks_ok (<[t := th']> ths).
Proof. intros H Hm u uh Hu. ins Hu; [done|by eapply H]. Qed.

Lemma new_insert ths t th th' :
  new_ok ths -> ths !! t = Some th -> creates (frames th') = creates (frames th) ->
  (status th = THREAD_BLOCKED -> frames th = [] -> status th' = THREAD_BLOCKED /\ frames th' = []) ->
  new_ok (<[t := th']> ths).
Proof.
  intros (H1 & H2 & H3) Ht Hc Hn.
  assert (Hold : forall u uh, <[t := th']> ths !! u = Some uh ->
            exists uh', ths !! u = Some uh' /\ creates (frames uh) = creates (frames uh')).
  { intros u uh Hu. ins Hu; eauto. }
  split_and!.
  - intros u uh v Hu Hv. destruct (Hold u uh Hu) as (uh' & Hu' & Ec). rewrite Ec in Hv.
    destruct (H1 u uh' v Hu' Hv) as (vh & Hvh & Hs & Hf).
    destruct (decide (v = t)) as [->|Hne].
    + rewrite Ht in Hvh. simplify_eq. destruct (Hn Hs Hf). exists th'. by rewrite lookup_insert_eq.
    + exists vh. by rewrite lookup_insert_ne.
  - intros u uh u' uh' v Hu Hu' Hv Hv'. destruct (Hold u uh Hu) as (a & Ha & Ea).
    destruct (Hold u' uh' Hu') as (b & Hb & Eb). rewrite Ea in Hv. rewrite Eb in Hv'. by eapply H2.
  - intros u uh Hu. destruct (Hold u uh Hu) as (a & Ha & ->). by eapply H3.
Qed.

Lemma lock_one_insert ths l v h t th th' :
  lock_one ths l v h -> ths !! t = Some th -> tok l (frames th') = tok l (frames th) ->
  lock_one (<[t := th']> ths) l v h.
Proof.
  intros (Hv & Hh & Htk) Ht Hk.
  assert (Hold : forall u uh, <[t := th']> ths !! u = Some uh ->
            exists uh', ths !! u = Some uh' /\ tok l (frames uh) = tok l (frames uh')).
  { intros u uh Hu. ins Hu; [exists th; by rewrite Hk|by exists uh]. }
  split_and!; [done| |].
  - intros Hn. destruct (Hh Hn) as [? Hz]. split; [done|]. intros u uh Hu.
    destruct (Hold u uh Hu) as (uh' & Hu' & ->). by eapply Hz.
  - intros u uh Hu Hz. destruct (Hold u uh Hu) as (uh' & Hu' & E). rewrite E in *.
    destruct (Htk u uh' Hu' Hz) as (? & ? & ? & Ho). split_and!; [done..|].
    intros v' vh Hv' Hne. destruct (Hold v' vh Hv') as (vh' & Hvh & ->). by eapply Ho.
Qed.
Lemma lock_insert ths sm hd t th th' :
  lock_ok ths sm hd -> ths !! t = Some th -> (forall l, tok l (frames th') = tok l (frames th)) ->
  lock_ok (<[t := th']> ths) sm hd.
Proof. intros H Ht Hk l. by eapply lock_one_insert. Qed.

Lemma woken_insert ths s t th th' u :
  ths !! t = Some th ->
  (forall o fs, frames th = FSemaDown s o :: fs -> (status th = THREAD_READY \/ status th = THREAD_RUNNING) ->
     exists o' fs', frames th' = FSemaDown s o' :: fs' /\
       (status th' = THREAD_READY \/ status th' = THREAD_RUNNING)) ->
  woken ths s u -> woken (<[t := th']> ths) s u.
Proof.
  intros Ht Hw (uh & o & fs & Hu & Hf & Hs). destruct (decide (u = t)) as [->|Hne].
  - rewrite Ht in Hu. simplify_eq. destruct (Hw o fs Hf Hs) as (o' & fs' & ? & ?).
    exists th', o', fs'. by rewrite lookup_insert_eq.
  - exists uh, o, fs. by rewrite lookup_insert_ne.
Qed.

Lemma wake_insert ths sm t th th' :
  wake_ok ths sm -> ths !! t = Some th ->
  (forall s o fs, frames th = FSemaDown s o :: fs -> (status th = THREAD_READY \/ status th = THREAD_RUNNING) ->
     exists o' fs', frames th' = FSemaDown s o' :: fs' /\
       (status th' = THREAD_READY \/ status th' = THREAD_RUNNING)) ->
  wake_ok (<[t := th']> ths) sm.
Proof.
  intros H Ht Hw s Hs. destruct (H s Hs) as (ws & Hn & Hwk & Hv). exists ws. split_and!; [done| |done].
  intros u Hu. eapply woken_insert; [done|apply Hw|by apply Hwk].
Qed.

Lemma sleep_insert ths sl nt t th th' :
  sleep_ok ths sl nt -> ths !! t = Some th -> wakeup_tick th' = wakeup_tick th ->
  sleep_ok (<[t := th']> ths) sl nt.
Proof.
  intros H Ht E u uh Hu Hl. ins Hl; [rewrite E; by eapply H|by eapply H].
Qed.

Lemma idle_insert idle ths t th' :
  idle_ok idle ths ->
  (idle = Some t -> idle_stack (frames th') /\ status th' <> THREAD_DYING /\
     (status th' = THREAD_BLOCKED -> frames th' = [FHalt])) ->
  idle_ok idle (<[t := th']> ths).
Proof.
  intros (i & th & -> & Hi & Hs & Hdy & Hb) Ht. destruct (decide (i = t)) as [->|Hne].
  - destruct (Ht eq_refl) as (? & ? & ?). exists t, th'. by rewrite lookup_insert_eq.
  - exists i, th. by rewrite lookup_insert_ne.
Qed.
End insert.

Lemma idle_stack_not_down fs s o fs' : idle_stack fs -> fs <> FSemaDown s o :: fs'.
Proof.
  intros (pre & b & -> & Hb & Hp) E. destruct pre as [|f pre]; simplify_eq/=.
  - by destruct Hb.
  - apply Forall_cons in Hp as [Hp _]. done.
Qed.

Lemma idle_no_place k run i : kcore run k -> idle_thread k = Some i -> place k i = None.
Proof.
  intros I Hi. destruct (ki_idle _ _ I) as (j & th & Hj & Ht & _ & _ & Hb).
  rewrite Hi in Hj. simplify_eq. unfold place, place_of. rewrite Ht.
  destruct (status th) eqn:Es; [done| | |done].
  - by rewrite bool_decide_eq_true_2 by done.
  - by rewrite Hb.
Qed.

(** ** The transitions *)

Lemma place_insert k k' t th' :
  threads k' = <[t := th']> (threads k) -> idle_thread k' = idle_thread k ->
  forall u, place k' u = if decide (u = t) then place_of (idle_thread k) t (Some th') else place k u.
Proof.
  intros Et Ei u. unfold place. rewrite Et, Ei. destruct (decide (u = t)) as [->|Hne].
  - by rewrite lookup_insert_eq.
  - by rewrite lookup_insert_ne.
Qed.

Lemma running_no_place k th :
  threads k !! running k = Some th -> status th = THREAD_RUNNING -> place k (running k) = None.
Proof. intros Ht Hs. unfold place, place_of. by rewrite Ht, Hs. Qed.

Lemma cur_running k :
  kcore true k -> exists th, threads k !! running k = Some th /\ status th = THREAD_RUNNING /\
    is_thread th = true.
Proof.
  intros I. destruct (ki_run _ _ I) as [(th & Ht & Hs) _]. exists th. split_and!; [done|auto|].
  by eapply (ki_magic _ _ I).
Qed.

(** The running thread changes its stack. *)
Record neutral (k : kernel) (th : thread) (fs : list frame) : Prop := {
  nt_frames : stack_ok (running k) fs;
  nt_creates : creates fs = creates (frames th);
  nt_tok : forall l, tok l fs = tok l (frames th);
  nt_down : forall s o fs', frames th <> FSemaDown s o :: fs';
  nt_off : forall s o fs', fs = FSemaDown s o :: fs' -> intr_on k = false;
  nt_idle : idle_thread k = Some (running k) -> idle_stack fs
}.

Definition with_frames (fs : list frame) (th : thread) (k : kernel) : kernel :=
  set_threads (<[running k := set_frames fs th]> (threads k)) k.

Lemma kcore_reframe k k' th fs :
  kcore true k -> threads k !! running k = Some th ->
  threads k' = <[running k := set_frames fs th]> (threads k) -> running k' = running k ->
  idle_thread k' = idle_thread k -> intr_on k' = intr_on k -> semas k' = semas k ->
  (forall q, queue k' q = queue k q) ->
  stack_ok (running k) fs -> (forall s o fs', frames th <> FSemaDown s o :: fs') ->
  (forall s o fs', fs = FSemaDown s o :: fs' -> intr_on k = false) ->
  (idle_thread k = Some (running k) -> idle_stack fs) ->
  new_ok (threads k') -> lock_ok (threads k') (semas k') (holder k') ->
  kcore true k'.
Proof.
  intros I Ht Et Er Ei Eo Es Hq N1 N4 N5 N6 Hn Hl. destruct (cur_running k I) as (th0 & Ht0 & Hs & Hm).
  rewrite Ht in Ht0. simplify_eq. destruct I.
  constructor; try done; rewrite ?Et, ?Er, ?Ei, ?Eo, ?Es; try done.
  - by apply magic_insert.
  - split; [exists (set_frames fs th0); by rewrite lookup_insert_eq|].
    intros u uh Hu Hr. ins Hu; [done|]. by apply (proj2 ki_run0 u uh).
  - eapply queues_ok_ext; [| |exact ki_queues0]; [|done]. intros u.
    rewrite (place_insert k k' (running k) (set_frames fs th0)) by done.
    destruct (decide (u = running k)) as [->|]; [|done]. simpl. rewrite Hs.
    symmetry. by eapply running_no_place.
  - apply idle_insert; [done|]. intros E. split_and!; [by apply N6|simpl; congruence..].
  - by apply stacks_insert.
  - eapply wake_insert; [done..|]. intros s o fs' E. by apply N4 in E.
  - intros _ Hon uh s o fs' Hu E. ins Hu; [|done]. simpl in E. apply N5 in E. congruence.
Qed.

Lemma kcore_frames k th fs :
  kcore true k -> threads k !! running k = Some th -> neutral k th fs ->
  kcore true (with_frames fs th k).
Proof.
  intros I Ht [N1 N2 N3 N4 N5 N6]. destruct (cur_running k I) as (th0 & Ht0 & Hs & Hm).
  rewrite Ht in Ht0. simplify_eq. apply (kcore_reframe k _ th0 fs); try done; simpl.
  - eapply new_insert; [apply I|done..|]. simpl. congruence.
  - eapply lock_insert; [apply I|done..].
Qed.

Lemma kcore_intr k b :
  kcore true k ->
  (b = true -> forall th s o fs, threads k !! running k = Some th -> frames th <> FSemaDown s o :: fs) ->
  kcore true (set_intr_on b k).
Proof. intros [] Hb. constructor; try done. intros _ Hon. simpl in *. by apply Hb. Qed.

(** The running thread gives up the processor: it leaves the running state for the
    place [q], whose queue it enters at the end. *)
Lemma kcore_park k k' th th' q :
  kcore true k -> threads k !! running k = Some th ->
  threads k' = <[running k := th']> (threads k) -> running k' = running k ->
  idle_thread k' = idle_thread k ->
  (forall r, queue k' r = if decide (Some r = q) then queue k r ++ [running k] else queue k r) ->
  place_of (idle_thread k) (running k) (Some th') = q -> status th' <> THREAD_RUNNING ->
  magic th' = magic th ->
  stack_ok (running k) (frames th') -> creates (frames th') = creates (frames th) ->
  (forall l, tok l (frames th') = tok l (frames th)) ->
  (idle_thread k = Some (running k) ->
     idle_stack (frames th') /\ status th' <> THREAD_DYING /\
     (status th' = THREAD_BLOCKED -> frames th' = [FHalt])) ->
  (forall s, value (semas k' s) = value (semas k s)) -> (forall l, holder k' l = holder k l) ->
  (forall s, q = Some (QSema s) -> value (semas k s) = 0) ->
  (forall s o fs, frames th = FSemaDown s o :: fs -> q = Some (QSema s)) ->
  kcore false k'.
Proof.
  intros I Ht Et Er Ei Hq Hpl Hst Hmg Hfo Hcr Htk Hid Hval Hhd H0 Hdown.
  destruct (cur_running k I) as (th0 & Ht0 & Hs & Hm). rewrite Ht in Ht0. simplify_eq.
  pose proof (running_no_place k th0 Ht Hs) as Hnp. destruct I.
  assert (Hsame : forall u uh, threads k' !! u = Some uh -> u <> running k -> threads k !! u = Some uh).
  { intros u uh Hu Hne. rewrite Et, lookup_insert_ne in Hu by done. done. }
  constructor; try done; rewrite ?Et, ?Ei.
  - apply magic_insert; [done|]. unfold is_thread in *. by rewrite Hmg.
  - rewrite Er. split; [exists th'; rewrite lookup_insert_eq; by split|].
    intros u uh Hu Hr. ins Hu; [done|]. destruct (proj2 ki_run0 u uh) as [_ ->]; done.
  - destruct (place_of (idle_thread k) (running k) (Some th')) as [q|] eqn:Ep.
    + eapply (queues_ok_push (place k) (queue k) _ _ (running k) q); [done..| |].
      * intros u. rewrite (place_insert k k' (running k) th') by done. by rewrite Ep.
      * intros r. rewrite Hq. destruct (decide (r = q)) as [->|]; [by rewrite decide_True|].
        rewrite decide_False; [done|]. congruence.
    + eapply queues_ok_ext; [| |exact ki_queues0].
      * intros u. rewrite (place_insert k k' (running k) th') by done. rewrite Ep.
        by destruct (decide (u = running k)) as [->|].
      * intros r. rewrite Hq. by rewrite decide_False.
  - by apply idle_insert.
  - eapply new_insert; [done..|]. congruence.
  - by apply stacks_insert.
  - assert (L : lock_ok (threads k) (semas k') (holder k')).
    { intros l. rewrite Hval, Hhd. apply ki_lock0. }
    by eapply lock_insert.
  - intros s. rewrite Hval. apply ki_val0.
  - intros s Hws. rewrite Hval. specialize (Hq (QSema s)). cbn [queue] in Hq.
    destruct (decide (Some (QSema s) = place_of (idle_thread k) (running k) (Some th'))) as [E|E].
    + exists []. rewrite (H0 s) by done. split_and!; [constructor|by intros ? ?%elem_of_nil|done].
    + rewrite Hq in Hws. destruct (ki_wake0 s Hws) as (ws & Hn & Hwk & Hv). exists ws.
      split_and!; [done| |done]. intros u Hu. eapply woken_insert; [done| |by apply Hwk].
      intros o fs Ef _. apply Hdown in Ef. congruence.
Qed.

(** A blocked thread leaves the queue [q] for the ready list. *)
Lemma kcore_wakeup run k k' t th q :
  kcore run k -> threads k !! t = Some th -> place k t = Some q -> q <> QReady ->
  threads k' = <[t := set_status THREAD_READY th]> (threads k) -> running k' = running k ->
  idle_thread k' = idle_thread k ->
  (forall r, queue k' r = if decide (r = q) then filter (fun u => u <> t) (queue k r)
                          else if decide (r = QReady) then queue k r ++ [t] else queue k r) ->
  (forall s, value (semas k' s) = value (semas k s)) -> (forall l, holder k' l = holder k l) ->
  intr_on k' = intr_on k ->
  kcore run k'.
Proof.
  intros I Ht Hp Hne Et Er Ei Hq Hval Hhd Hon.
  assert (Hidle : idle_thread k <> Some t) by (intros E; by rewrite (idle_no_place k run t I E) in Hp).
  assert (Hb : status th = THREAD_BLOCKED).
  { unfold place, place_of in Hp. rewrite Ht in Hp. destruct (status th); try done.
    case_bool_decide; congruence. }
  assert (Hw : waits_in (frames th) = Some q).
  { unfold place, place_of in Hp. by rewrite Ht, Hb in Hp. }
  destruct I. constructor; rewrite ?Et, ?Er, ?Ei, ?Hon.
  - apply magic_insert; [done|]. exact (ki_magic0 t th Ht).
  - destruct ki_run0 as [(ch & Hc & Hr) Ho]. split.
    + destruct (decide (running k = t)) as [E|].
      * rewrite E in *. rewrite Ht in Hc. simplify_eq. eexists. rewrite lookup_insert_eq.
        split; [done|]. intros Hrun. simpl. specialize (Hr Hrun). congruence.
      * exists ch. by rewrite lookup_insert_ne.
    + intros u uh Hu Hs. ins Hu; [done|by eapply Ho].
  - set (pl := fun u => if decide (u = t) then None else place k u).
    set (qs := fun r => if decide (r = q) then filter (fun u => u <> t) (queue k r) else queue k r).
    assert (Hqs : queues_ok pl qs) by (by eapply (queues_ok_remove (place k) (queue k) _ _ t q)).
    apply (queues_ok_push pl qs (place k') (queue k') t QReady); [done| | |].
    + unfold pl. by rewrite decide_True.
    + intros u. rewrite (place_insert k k' t (set_status THREAD_READY th)) by done.
      unfold pl. destruct (decide (u = t)); [|done]. simpl. by rewrite bool_decide_eq_false_2 by congruence.
    + intros r. rewrite Hq. unfold qs. destruct (decide (r = q)) as [->|]; [|done].
      by rewrite decide_False.
  - apply idle_insert; [done|]. congruence.
  - eapply new_insert; [done..|]. intros _ Hf. rewrite Hf in Hw. done.
  - apply stacks_insert; [done|]. exact (ki_stacks0 t th Ht).
  - assert (L : lock_ok (threads k) (semas k') (holder k')).
    { intros l. rewrite Hval, Hhd. apply ki_lock0. }
    by eapply lock_insert.
  - intros s. rewrite Hval. apply ki_val0.
  - intros s Hws. rewrite Hval. pose proof (Hq (QSema s)) as Hqs. cbn [queue] in Hqs.
    assert (Hws' : waiters (semas k s) <> []).
    { intros E. apply Hws. rewrite Hqs, E. by repeat destruct (decide _). }
    destruct (ki_wake0 s Hws') as (ws & Hn & Hwk & Hv). exists ws. split_and!; [done| |done].
    intros u Hu. eapply woken_insert; [done| |by apply Hwk].
    intros o fs Ef _. exists o, fs. split; [done|by left].
  - intros Hrun Hio uh s o fs Hu. ins Hu.
    + simpl. destruct ki_run0 as [(ch & Hc & Hr) _]. rewrite Ht in Hc. simplify_eq.
      specialize (Hr eq_refl). congruence.
    + by eapply ki_off0.
Qed.

(** The switch to the next thread. *)
Lemma next_exists k :
  kcore false k -> exists n nt rest, threads k !! n = Some nt /\ is_thread nt = true /\
    (ready_list k = n :: rest \/ (ready_list k = [] /\ rest = [] /\ idle_thread k = Some n)).
Proof.
  intros I. destruct (ready_list k) as [|n rest] eqn:E.
  - destruct (ki_idle _ _ I) as (i & th & Hi & Ht & _). exists i, th, []. split_and!; auto.
    by eapply (ki_magic _ _ I).
  - assert (Hin : n ∈ queue k QReady) by (simpl; rewrite E; left).
    apply (ki_queues _ _ I) in Hin. unfold place, place_of in Hin.
    destruct (threads k !! n) as [nt|] eqn:Hn; [|done]. exists n, nt, rest.
    split_and!; auto. by eapply (ki_magic _ _ I).
Qed.

Lemma kcore_pick k n nt rest :
  kcore false k -> intr_on k = false -> threads k !! n = Some nt ->
  (ready_list k = n :: rest \/ (ready_list k = [] /\ rest = [] /\ idle_thread k = Some n)) ->
  kcore true (set_thread_ticks 0 (set_threads (<[n := set_status THREAD_RUNNING nt]> (threads k))
    (set_running n (set_ready_list rest k)))).
Proof.
  intros I Hon Hn Hnext.
  assert (Hpl : forall q, place k n = Some q -> q = QReady).
  { destruct Hnext as [E|(_ & _ & E)]; [|by rewrite (idle_no_place k _ n I E)].
    assert (Hin : n ∈ queue k QReady) by (simpl; rewrite E; left).
    apply (ki_queues _ _ I) in Hin. congruence. }
  assert (Hnb : status nt = THREAD_BLOCKED -> frames nt <> []).
  { intros Hb Hf. destruct Hnext as [E|(_ & _ & E)].
    - assert (Hin : n ∈ queue k QReady) by (simpl; rewrite E; left).
      apply (ki_queues _ _ I) in Hin. unfold place, place_of in Hin. by rewrite Hn, Hb, Hf in Hin.
    - destruct (ki_idle _ _ I) as (i & th & Ei & Ht & Hs & _). rewrite Ei in E. simplify_eq.
      destruct Hs as (pre & b & Es & _). rewrite Hf in Es. by destruct pre. }
  pose proof (idle_no_place k _ n I) as Hidl. destruct I. constructor; simpl.
  - apply magic_insert; [done|]. exact (ki_magic0 n nt Hn).
  - split; [eexists; by rewrite lookup_insert_eq|]. intros u uh Hu Hs. ins Hu; [done|].
    by destruct (proj2 ki_run0 u uh Hu Hs).
  - set (k' := set_thread_ticks _ _).
    assert (Hp' : forall u, place k' u = if decide (u = n) then None else place k u).
    { intros u. by rewrite (place_insert k k' n (set_status THREAD_RUNNING nt)). }
    destruct Hnext as [E|(E & -> & E2)].
    + eapply (queues_ok_remove (place k) (queue k) _ _ n QReady); [done| |exact Hp'|].
      * apply ki_queues0. simpl. rewrite E. left.
      * intros r. destruct (decide (r = QReady)) as [->|]; [|by destruct r].
        simpl. rewrite E. symmetry. apply filter_head. pose proof (proj1 (ki_queues0 QReady)) as Hnd.
        simpl in Hnd. by rewrite E in Hnd.
    + eapply queues_ok_ext; [| |exact ki_queues0].
      * intros u. rewrite Hp'. destruct (decide (u = n)) as [->|]; [|done]. by rewrite Hidl.
      * intros []; simpl; by rewrite ?E.
  - apply idle_insert; [done|]. intros E. destruct ki_idle0 as (i & th & Ei & Ht & Hs & _).
    rewrite Ei in E. simplify_eq. done.
  - eapply new_insert; [done..|]. intros Hb Hf. by apply Hnb in Hb.
  - apply stacks_insert; [done|]. exact (ki_stacks0 n nt Hn).
  - by eapply lock_insert.
  - done.
  - eapply wake_insert; [done..|]. intros s o fs Ef _. exists o, fs. split; [done|by right].
  - intros _ Ho. congruence.
Qed.

(** The page of a dead thread is freed. *)
Lemma kcore_delete k t th :
  kcore true k -> threads k !! t = Some th -> status th = THREAD_DYING ->
  kcore true (set_threads (delete t (threads k)) k).
Proof.
  intros I Ht Hd.
  assert (Hrun : t <> running k).
  { intros ->. destruct (cur_running k I) as (? & ? & ? & _). congruence. }
  assert (Hidle : idle_thread k <> Some t).
  { intros E. destruct (ki_idle _ _ I) as (i & ih & Ei & Hi & _ & Hn & _). congruence. }
  assert (Hnp : place k t = None) by (unfold place, place_of; by rewrite Ht, Hd).
  destruct I. constructor; simpl; try done.
  - intros u uh [_ Hu]%lookup_delete_Some. by eapply ki_magic0.
  - destruct ki_run0 as [(ch & Hc & Hr) Ho]. split.
    + exists ch. by rewrite lookup_delete_ne.
    + intros u uh [_ Hu]%lookup_delete_Some. by apply Ho.
  - eapply queues_ok_ext; [| |exact ki_queues0]; [|done]. intros u. unfold place. simpl.
    destruct (decide (u = t)) as [->|]; [by rewrite lookup_delete_eq|by rewrite lookup_delete_ne].
  - destruct ki_idle0 as (i & ih & Ei & Hi & Hs). exists i, ih. split; [done|].
    rewrite lookup_delete_ne; [done|congruence].
  - destruct ki_new0 as (H1 & H2 & H3). split_and!.
    + intros u uh v [_ Hu]%lookup_delete_Some Hv. destruct (H1 u uh v Hu Hv) as (vh & Hvh & Hs & Hf).
      exists vh. rewrite lookup_delete_ne; [done|congruence].
    + intros u uh u' uh' v [_ Hu]%lookup_delete_Some [_ Hu']%lookup_delete_Some. by apply H2.
    + intros u uh [_ Hu]%lookup_delete_Some. by eapply H3.
  - intros u uh [_ Hu]%lookup_delete_Some. by eapply ki_stacks0.
  - intros l. destruct (ki_lock0 l) as (Hv & Hh & Htk). split_and!; [done| |].
    + intros Hn. destruct (Hh Hn) as [? Hz]. split; [done|].
      intros u uh [_ Hu]%lookup_delete_Some. by eapply Hz.
    + intros u uh [_ Hu]%lookup_delete_Some Hz. destruct (Htk u uh Hu Hz) as (? & ? & ? & Ho).
      split_and!; [done..|]. intros v vh [_ Hv']%lookup_delete_Some. by apply Ho.
  - intros s Hs. destruct (ki_wake0 s Hs) as (ws & Hn & Hwk & Hv). exists ws. split_and!; [done| |done].
    intros u Hu. destruct (Hwk u Hu) as (uh & o & fs & Hu' & Hf & Hst). exists uh, o, fs.
    rewrite lookup_delete_ne; [done|]. intros ->. destruct Hst; congruence.
  - intros H1 H2 uh s o fs [_ Hu]%lookup_delete_Some. by eapply ki_off0.
Qed.

(** [schedule] never fails, and ends in a state with one running thread. *)
Lemma kcore_schedule k :
  kcore false k -> intr_on k = false ->
  exists n, schedule k = Ok (tt, n) /\ kcore true n /\ intr_on n = false /\
    semas n = semas k /\ holder n = holder k /\ sleep_list n = sleep_list k /\
    next_tick_to_wakeup n = next_tick_to_wakeup k /\ in_external_intr n = in_external_intr k /\
    cond_waiters n = cond_waiters k /\ ticks n = ticks k /\
    (match ready_list k with
     | [] => idle_thread k = Some (running n) /\ ready_list n = []
     | t :: rest => running n = t /\ ready_list n = rest
     end) /\
    (forall t th, threads n !! t = Some th -> exists th', threads k !! t = Some th' /\
       wakeup_tick th' = wakeup_tick th).
Proof.
  intros I Hon. destruct (next_exists k I) as (n & nt & rest & Hn & Hm & Hnext).
  destruct (ki_run _ _ I) as [(th & Ht & _) Hr].
  assert (Hs : status th <> THREAD_RUNNING) by (intros E; by destruct (Hr _ _ Ht E)).
  eexists. split; [by eapply schedule_ok|].
  pose proof (kcore_pick k n nt rest I Hon Hn Hnext) as C. unfold switched. set (b := _ && _).
  assert (Hw : forall t uh, <[n := set_status THREAD_RUNNING nt]> (threads k) !! t = Some uh ->
    exists th', threads k !! t = Some th' /\ wakeup_tick th' = wakeup_tick uh).
  { intros t uh Hu. ins Hu; eauto. }
  assert (Hnx : match ready_list k with
    | [] => idle_thread k = Some n /\ rest = [] | t :: r => n = t /\ rest = r end)
    by (destruct Hnext as [->|(-> & -> & ->)]; done).
  destruct b eqn:Eb.
  - unfold b in Eb. apply andb_true_iff in Eb as [Eb _]. apply andb_true_iff in Eb as [E1 E2].
    apply negb_true_iff, bool_decide_eq_false in E1. apply bool_decide_eq_true in E2.
    split_and!; try done.
    + apply (kcore_delete _ (running k) th C); [|done]. simpl. by rewrite lookup_insert_ne.
    + intros t uh Hu. simpl in Hu. apply lookup_delete_Some in Hu as [_ Hu]. by apply Hw.
  - by split_and!.
Qed.
