(* ===== verification/SchedSteps.v ===== *)
(** Every operation of threads/thread.c, threads/synch.c, devices/timer.c and
    aw_thread.c keeps the scheduler's invariant. *)

From S2P Require Import Prelude KMonad Thread Synch SchedInv.

(** Condition variables hold the semaphores of waiting threads only. *)
Definition cond_ok (cw : positive -> list sid) : Prop :=
  forall c w, w ∈ cw c -> exists u, w = SWait u.

Record sched_ok (k : kernel) : Prop := {
  so_inv : kinv k;
  so_cond : cond_ok (cond_waiters k)
}.

(** ** The stack of the running thread *)

Lemma push_frames_ok k th fs :
  threads k !! running k = Some th ->
  push_frames (running k) fs k = Ok (tt, with_frames (fs ++ frames th) th k).
Proof. intros Ht. unfold push_frames. by rewrite (upd_thread_ok k (running k) th). Qed.
Lemma push_frames_at k t th fs :
  threads k !! t = Some th -> t = running k -> push_frames t fs k = Ok (tt, with_frames (fs ++ frames th) th k).
Proof. intros Ht ->. by apply push_frames_ok. Qed.
Lemma pop_frame_ok k th :
  threads k !! running k = Some th ->
  pop_frame (running k) k = Ok (tt, with_frames (tail (frames th)) th k).
Proof. intros Ht. unfold pop_frame. by rewrite (upd_thread_ok k (running k) th). Qed.

Lemma with_frames_cur k th fs :
  threads (with_frames fs th k) !! running (with_frames fs th k) = Some (set_frames fs th).
Proof. simpl. apply lookup_insert_eq. Qed.

Lemma cur_frames_lookup k f fs :
  cur_frames k = f :: fs -> exists th, threads k !! running k = Some th /\ frames th = f :: fs.
Proof. unfold cur_frames. destruct (threads k !! running k) as [th|]; [eauto|done]. Qed.

Lemma kinv_frames k th fs :
  kinv k -> threads k !! running k = Some th -> neutral k th fs -> kinv (with_frames fs th k).
Proof.
  intros [C Sl E] Ht N. constructor; [by apply kcore_frames| |done].
  simpl. by eapply sleep_insert.
Qed.

Lemma thread_current_ok k th :
  threads k !! running k = Some th -> status th = THREAD_RUNNING -> is_thread th = true ->
  thread_current k = Ok (running k, k).
Proof.
  intros Ht Hs Hm. unfold thread_current. krun. kstep (get_thread_ok k _ _ Ht).
  rewrite ASSERT_true by done. by rewrite ASSERT_true by (by apply status_eqb_true).
Qed.

(** A thread that runs its own code, or a frame of another function, is not the
    idle thread. *)
Lemma not_idle k th f fs :
  kinv k -> threads k !! running k = Some th -> frames th = f :: fs ->
  idle_frame f = false -> f <> FIdle -> f <> FHalt -> idle_thread k <> Some (running k).
Proof.
  intros I Ht Hf Hi H1 H2 E. destruct (ki_idle _ _ (kv_core _ I)) as (i & ih & Ei & Hih & Hs & _).
  rewrite Ei in E. simplify_eq. destruct Hs as (pre & b & Eb & Hb & Hp).
  rewrite Hf in Eb. destruct pre as [|g pre]; simplify_eq/=; [by destruct Hb|].
  apply Forall_cons in Hp as [Hp _]. congruence.
Qed.
Lemma not_idle_nil k th :
  kinv k -> threads k !! running k = Some th -> frames th = [] -> idle_thread k <> Some (running k).
Proof.
  intros I Ht Hf E. destruct (ki_idle _ _ (kv_core _ I)) as (i & ih & Ei & Hih & Hs & _).
  rewrite Ei in E. simplify_eq. destruct Hs as (pre & b & Eb & _). rewrite Hf in Eb. by destruct pre.
Qed.

(** A frame without a meaning for locks, semaphores and new threads. *)
Definition plain (f : frame) : Prop :=
  match f with
  | FSetHolder _ | FSemaUp (SLock _) | FCreate _ _ | FSemaDown _ _ => False
  | _ => True
  end.
#[export] Instance plain_dec f : Decision (plain f).
Proof. destruct f as [| | | | | | | | | |[]| | | | | | |]; simpl; apply _. Defined.

Lemma creates_plain f fs : plain f -> creates (f :: fs) = creates fs.
Proof. by destruct f. Qed.
Lemma tok_plain l f fs : plain f -> tok l (f :: fs) = tok l fs.
Proof.
  intros Hp. unfold tok. rewrite filter_cons_False; [done|].
  intros [->| ->]; done.
Qed.

Lemma kinv_pop k th f fs :
  kinv k -> threads k !! running k = Some th -> frames th = f :: fs -> plain f ->
  (idle_thread k = Some (running k) -> idle_stack fs) -> kinv (with_frames fs th k).
Proof.
  intros I Ht Hf Hp Hid. pose proof (ki_stacks _ _ (kv_core _ I) _ _ Ht) as Hst.
  rewrite Hf in Hst. destruct Hst as (_ & S2 & S1).
  apply kinv_frames; [done..|]. constructor; try rewrite Hf.
  - done.
  - by rewrite creates_plain.
  - intros l. by rewrite tok_plain.
  - intros s o fs' E. simplify_eq. done.
  - intros s o fs' ->. by apply Forall_cons in S2 as [[] _].
  - done.
Qed.

Lemma kinv_push k th fs f :
  kinv k -> threads k !! running k = Some th -> frames th = fs -> plain f -> Forall not_down fs ->
  frame_ok (running k) fs f -> idle_thread k <> Some (running k) -> kinv (with_frames (f :: fs) th k).
Proof.
  intros I Ht <- Hp Hnd Hok Hid. pose proof (ki_stacks _ _ (kv_core _ I) _ _ Ht) as Hst.
  apply kinv_frames; [done..|]. constructor.
  - done.
  - by rewrite creates_plain.
  - intros l. by rewrite tok_plain.
  - intros s o fs' E. rewrite E in Hnd. by apply Forall_cons in Hnd as [[] _].
  - intros s o fs' E. by destruct f.
  - done.
Qed.

(** A computation that cannot fail and keeps the invariant. *)
Definition ok {A} (k : kernel) (m : K kernel A) : Prop :=
  exists a k', m k = Ok (a, k') /\ sched_ok k'.

Lemma ok_step {A B} (m : K kernel A) (f : A -> K kernel B) k a k1 :
  m k = Ok (a, k1) -> ok k1 (f a) -> ok k (m ≫= f).
Proof. intros H (b & k2 & E & I). exists b, k2. split; [|done]. by rewrite (bind_ok _ _ _ _ _ H). Qed.
Lemma ok_assert b {A} (m : K kernel A) k : b = true -> ok k m -> ok k (ASSERT b;; m).
Proof. by intros ->. Qed.
Lemma ok_ret {A} (a : A) k : sched_ok k -> ok k (mret a).
Proof. intros I. by exists a, k. Qed.

Ltac ok_run := eapply ok_step; [reflexivity|]; cbv beta.

Lemma intr_get k b : sched_ok k ->
  (b = true -> forall th s o fs, threads k !! running k = Some th -> frames th <> FSemaDown s o :: fs) ->
  ok k (intr_set_level b;; mret tt).
Proof.
  intros [[C S E] Q] Hb. eexists tt, _. split; [apply intr_set_level_ok; done|].
  constructor; [|done]. constructor; [|done..]. by apply kcore_intr.
Qed.

(** ** Giving up the processor *)

Lemma ok_schedule k :
  kcore false k -> intr_on k = false -> in_external_intr k = false -> cond_ok (cond_waiters k) ->
  sleep_ok (threads k) (sleep_list k) (next_tick_to_wakeup k) -> ok k schedule.
Proof.
  intros C Hon Hx Hq Hsl.
  destruct (kcore_schedule k C Hon) as (n & E & Cn & _ & _ & _ & Es & En & Ex & Ec & _ & _ & Hw).
  exists tt, n. split; [done|]. constructor; [constructor; [done| |congruence]|by rewrite Ec].
  rewrite Es, En. intros t th Ht Hth. destruct (Hw t th Hth) as (th' & Hth' & <-). by eapply Hsl.
Qed.

Lemma thread_block_ok k th :
  threads k !! running k = Some th -> status th = THREAD_RUNNING -> is_thread th = true ->
  intr_on k = false -> in_external_intr k = false ->
  thread_block k =
    schedule (set_threads (<[running k := set_status THREAD_BLOCKED th]> (threads k)) k).
Proof.
  intros Ht Hs Hm Hon Hx. unfold thread_block. krun. rewrite ASSERT_true by (by rewrite Hx).
  krun. rewrite ASSERT_true by (by rewrite Hon). kstep (thread_current_ok k th Ht Hs Hm).
  by erewrite bind_ok by (apply upd_thread_ok; exact Ht).
Qed.

(** What holds of the running thread. *)
Lemma cur_facts k f fs :
  sched_ok k -> cur_frames k = f :: fs ->
  exists th, threads k !! running k = Some th /\ frames th = f :: fs /\
    status th = THREAD_RUNNING /\ is_thread th = true /\ stack_ok (running k) (f :: fs).
Proof.
  intros [[C _ _] _] Hf. destruct (cur_frames_lookup k f fs Hf) as (th & Ht & Ef).
  destruct (cur_running k C) as (th' & Ht' & Hs & Hm). rewrite Ht in Ht'. simplify_eq.
  exists th'. do 4 (split; [done|]). rewrite <- Ef. exact (ki_stacks _ _ C _ _ Ht).
Qed.

Lemma down_intr_off k s old fs :
  sched_ok k -> cur_frames k = FSemaDown s old :: fs -> intr_on k = false.
Proof.
  intros I Hf. destruct (cur_facts k _ _ I Hf) as (th & Ht & Ef & _).
  destruct (intr_on k) eqn:E; [|done]. exfalso.
  by apply (ki_off _ _ (kv_core _ (so_inv _ I)) eq_refl E th s old fs).
Qed.

(** ** Semaphores *)

Lemma sema_wait_ok k s old fs :
  sched_ok k -> cur_frames k = FSemaDown s old :: fs -> value (semas k s) = 0 ->
  ok k (t ← thread_current; upd_sema s (push_waiter t);; thread_block).
Proof.
  intros I Hf H0. pose proof (down_intr_off k s old fs I Hf) as Hon.
  destruct (cur_facts k _ _ I Hf) as (th & Ht & Ef & Hs & Hm & Hst). destruct I as [[C Sl Ex] Q].
  assert (Hni : idle_thread k <> Some (running k)).
  { intros E. destruct (ki_idle _ _ C) as (i & ih & Ei & Hih & His & _). rewrite Ei in E. simplify_eq.
    by apply (idle_stack_not_down _ s old fs His). }
  eapply ok_step; [by apply (thread_current_ok k th)|]. ok_run.
  unfold ok. rewrite (thread_block_ok _ th) by done. apply ok_schedule; [|done..|].
  - apply (kcore_park k _ th (set_status THREAD_BLOCKED th) (Some (QSema s))); try done; simpl.
    + intros [| | |x]; try (by rewrite decide_False). simpl. destruct (decide (x = s)) as [->|].
      * by rewrite decide_True.
      * by rewrite decide_False by congruence.
    + by rewrite Ef.
    + by rewrite Ef.
    + intros x. by destruct (decide (x = s)) as [->|].
    + intros x [= <-]. done.
    + intros x o fs' E. rewrite Ef in E. by simplify_eq.
  - simpl. by eapply sleep_insert.
Qed.

Lemma filter_ne_length (t : tref) ws :
  NoDup ws -> (length ws <= S (length (filter (fun u => u <> t) ws)))%nat.
Proof.
  induction ws as [|u ws IH]; [simpl; lia|]. intros Hn. destruct (decide (u = t)) as [->|Hne].
  - by rewrite filter_head.
  - rewrite filter_cons_True by done. apply NoDup_cons in Hn as [_ Hn]. specialize (IH Hn). simpl. lia.
Qed.

(** The running thread takes one from a semaphore; if it is a lock's, it becomes the
    thread that is entering the lock. *)
Lemma lock_take k th fs' sm s :
  kcore true k -> threads k !! running k = Some th ->
  (forall x, value (sm x) = if decide (x = s) then value (semas k s) - 1 else value (semas k x)) ->
  0 < value (semas k s) ->
  (forall l, tok l fs' = (tok l (frames th) + if decide (s = SLock l) then 1 else 0)%nat) ->
  lock_ok (<[running k := set_frames fs' th]> (threads k)) sm (holder k).
Proof.
  intros C Ht Hv Hpos Htk l. destruct (ki_lock _ _ C l) as (H1 & H2 & H3).
  rewrite (Hv (SLock l)). specialize (Htk l). destruct (decide (SLock l = s)) as [<-|Hne].
  - rewrite decide_True in Htk by done.
    assert (Hz : forall t uh, threads k !! t = Some uh -> tok l (frames uh) = 0%nat).
    { intros t uh Hu. destruct (decide (tok l (frames uh) = 0%nat)) as [|Hn]; [done|].
      destruct (H3 t uh Hu Hn) as [E _]. lia. }
    assert (Hh : holder k l = None).
    { destruct (holder k l) eqn:Eh; [|done]. destruct H2 as [E _]; [done|lia]. }
    split_and!; [lia|by rewrite Hh|]. intros t uh Hu Hn. ins Hu; [|by rewrite (Hz _ _ Hu) in Hn].
    simpl in *. rewrite (Hz _ _ Ht) in Htk. split_and!; [lia|lia|done|].
    intros u' uh' Hu' Hne. ins Hu'; [done|by eapply Hz].
  - rewrite decide_False in Htk by congruence.
    eapply lock_one_insert; [by apply C|done|]. simpl. lia.
Qed.

Lemma kcore_take k k' th fs' s :
  kcore true k -> threads k !! running k = Some th ->
  threads k' = <[running k := set_frames fs' th]> (threads k) -> running k' = running k ->
  idle_thread k' = idle_thread k -> (forall q, queue k' q = queue k q) -> holder k' = holder k ->
  (forall x, value (semas k' x) = if decide (x = s) then value (semas k s) - 1 else value (semas k x)) ->
  0 < value (semas k s) ->
  stack_ok (running k) fs' -> creates fs' = creates (frames th) ->
  (forall l, tok l fs' = (tok l (frames th) + if decide (s = SLock l) then 1 else 0)%nat) ->
  (forall x o fs, frames th = FSemaDown x o :: fs -> x = s) ->
  (forall x o fs, fs' <> FSemaDown x o :: fs) -> idle_thread k <> Some (running k) ->
  kcore true k'.
Proof.
  intros C Ht Et Er Ei Hq Hh Hv Hpos Hst Hcr Htk Hd Hnd Hid.
  pose proof (lock_take k th fs' (semas k') s C Ht Hv Hpos Htk) as L.
  destruct (cur_running k C) as (th0 & Ht0 & Hs & Hm). rewrite Ht in Ht0. simplify_eq.
  destruct C as [KM KR KQ KI KN KS KL KV KW KO].
  constructor; rewrite ?Et, ?Er, ?Ei, ?Hh; try done.
  - by apply magic_insert.
  - split; [eexists; by rewrite lookup_insert_eq|]. intros u uh Hu Hr. ins Hu; [done|].
    by apply (proj2 KR u uh).
  - eapply queues_ok_ext; [| |exact KQ]; [|done]. intros u.
    rewrite (place_insert k k' (running k) (set_frames fs' th0)) by done.
    destruct (decide (u = running k)) as [->|]; [|done]. simpl. rewrite Hs.
    symmetry. by eapply running_no_place.
  - by apply idle_insert.
  - eapply new_insert; [done..|]. simpl. congruence.
  - by apply stacks_insert.
  - intros x. rewrite Hv. destruct (decide (x = s)); [|done]. specialize (KV s). lia.
  - intros x Hx. pose proof (Hq (QSema x)) as Hqx. simpl in Hqx. rewrite Hqx in Hx. rewrite Hv.
    destruct (KW x Hx) as (ws & Hn & Hwk & Hle).
    assert (Hold : forall u, u ∈ ws -> u <> running k ->
              woken (<[running k := set_frames fs' th0]> (threads k)) x u).
    { intros u Hu Hne. destruct (Hwk u Hu) as (uh & o & fs & Hu' & ?). exists uh, o, fs.
      by rewrite lookup_insert_ne. }
    destruct (decide (x = s)) as [->|Hne].
    + exists (filter (fun u => u <> running k) ws). split_and!.
      * by apply NoDup_filter.
      * intros u Hu. apply list_elem_of_filter in Hu as [? ?]. by apply Hold.
      * pose proof (filter_ne_length (running k) ws Hn). lia.
    + exists ws. split_and!; [done| |done]. intros u Hu. apply Hold; [done|]. intros ->.
      destruct (Hwk _ Hu) as (uh & o & fs & Hu' & Hf & _). rewrite Ht in Hu'. simplify_eq.
      by apply Hd in Hf.
  - intros _ _ uh x o fs Hu. ins Hu; [apply Hnd|done].
Qed.

Lemma tok_return s fs l :
  tok l (return_to s ++ fs) = (tok l fs + if decide (s = SLock l) then 1 else 0)%nat.
Proof.
  destruct s as [p|l'|t]; [rewrite decide_False by done; simpl; lia| |rewrite decide_False by done; simpl; lia].
  simpl. unfold tok. destruct (decide (SLock l' = SLock l)) as [[= ->]|Hne].
  - rewrite filter_cons_True by (by left). simpl. lia.
  - rewrite filter_cons_False; [lia|]. intros [E|E]; congruence.
Qed.
Lemma stack_return t s fs :
  stack_ok t fs -> Forall not_down fs -> stack_ok t (return_to s ++ fs).
Proof. intros H1 H2. by destruct s. Qed.

Lemma cur_not_down k th :
  sched_ok k -> threads k !! running k = Some th -> (forall s o fs, frames th <> FSemaDown s o :: fs) ->
  forall th s o fs, threads k !! running k = Some th -> frames th <> FSemaDown s o :: fs.
Proof. intros _ Ht H th' s o fs Ht'. rewrite Ht in Ht'. simplify_eq. apply H. Qed.

Lemma down_not_idle k th s o fs :
  kcore true k -> threads k !! running k = Some th -> frames th = FSemaDown s o :: fs ->
  idle_thread k <> Some (running k).
Proof.
  intros C Ht Ef E. destruct (ki_idle _ _ C) as (i & ih & Ei & Hih & His & _). rewrite Ei in E.
  simplify_eq. by apply (idle_stack_not_down _ s o fs His).
Qed.

Lemma sema_take_ok k s old fs :
  sched_ok k -> cur_frames k = FSemaDown s old :: fs -> value (semas k s) <> 0 ->
  ok k (upd_sema s (fun sm => set_value (u32 (value sm - 1)) sm);;
        t ← gets running; pop_frame t;; push_frames t (return_to s);; intr_set_level old;; mret tt).
Proof.
  intros I Hf H0. destruct (cur_facts k _ _ I Hf) as (th & Ht & Ef & Hs & Hm & Hst).
  pose proof I as [[C Sl Ex] Q]. pose proof (down_not_idle k th s old fs C Ht Ef) as Hni.
  pose proof (ki_val _ _ C s) as Hv. destruct Hst as (_ & Hnd & Hok).
  ok_run. ok_run. set (k1 := set_semas _ k). unfold ok.
  eapply ok_step; [by apply (pop_frame_ok k1 th)|]. set (k2 := with_frames _ _ k1).
  eapply ok_step; [apply (push_frames_ok k2); apply with_frames_cur|]. set (k3 := with_frames _ _ k2).
  assert (Ht3 : threads k3 = <[running k := set_frames (return_to s ++ fs) th]> (threads k)).
  { unfold k3, k2, with_frames. simpl. rewrite insert_insert_eq. by rewrite Ef. }
  apply intr_get.
  - constructor; [|done]. constructor; [|rewrite Ht3; by eapply sleep_insert|done].
    apply (kcore_take k k3 th (return_to s ++ fs) s); try done.
    + intros []; try done. simpl. by destruct (decide _) as [->|].
    + intros x. simpl. destruct (decide (x = s)) as [->|]; [|done]. apply wrapu_small. lia.
    + lia.
    + by apply stack_return.
    + rewrite Ef. by destruct s.
    + intros l. rewrite tok_return, Ef. f_equal.
    + intros x o fs' E. rewrite Ef in E. by simplify_eq.
    + intros x o fs' E. destruct s; simplify_eq/=; by apply Forall_cons in Hnd as [[] _].
  - intros _ uh x o fs' Hu E. rewrite Ht3 in Hu. change (running k3) with (running k) in Hu.
    rewrite lookup_insert_eq in Hu. simplify_eq/=.
    destruct s; simplify_eq/=; by apply Forall_cons in Hnd as [[] _].
Qed.

Lemma sema_down_test_ok k s old fs :
  sched_ok k -> cur_frames k = FSemaDown s old :: fs -> ok k (sema_down_test s old).
Proof.
  intros I Hf. unfold sema_down_test. ok_run. destruct (value (semas k s) =? 0) eqn:E.
  - apply Z.eqb_eq in E. by eapply sema_wait_ok.
  - apply Z.eqb_neq in E. by eapply sema_take_ok.
Qed.

(** [sema_up] of a lock's semaphore happens while the lock is being left. *)
Definition may_up (k : kernel) (s : sid) : Prop :=
  match s with
  | SLock l => value (semas k s) = 0 /\ holder k l = None /\
      forall t th, threads k !! t = Some th -> tok l (frames th) = 0%nat
  | _ => True
  end.

Lemma kcore_give k k' s :
  kcore true k -> threads k' = threads k -> running k' = running k -> intr_on k' = intr_on k ->
  idle_thread k' = idle_thread k -> (forall q, queue k' q = queue k q) -> holder k' = holder k ->
  (forall x, value (semas k' x) = if decide (x = s) then u32 (value (semas k s) + 1) else value (semas k x)) ->
  may_up k s ->
  (waiters (semas k s) <> [] -> exists ws, NoDup ws /\ (forall t, t ∈ ws -> woken (threads k) s t) /\
     value (semas k s) + 1 <= Z.of_nat (length ws)) ->
  kcore true k'.
Proof.
  intros C Et Er Eo Ei Hq Hh Hv Hup Hws. destruct C as [KM KR KQ KI KN KS KL KV KW KO].
  constructor; rewrite ?Et, ?Er, ?Ei, ?Hh, ?Eo; try done.
  - eapply queues_ok_ext; [| |exact KQ]; [|done]. intros u. unfold place. by rewrite Et, Ei.
  - intros l. rewrite Hv. destruct (decide (SLock l = s)) as [<-|]; [|apply KL].
    destruct Hup as (Hz & Hn & Ht). rewrite Hz, Hn. split_and!; [by right|done|].
    intros t th Hth Hk. by rewrite (Ht t th Hth) in Hk.
  - intros x. rewrite Hv. destruct (decide (x = s)); [|done]. by apply wrapu_range.
  - intros x Hx. pose proof (Hq (QSema x)) as Hqx. simpl in Hqx. rewrite Hqx in Hx. rewrite Hv.
    destruct (decide (x = s)) as [->|]; [|by apply KW].
    destruct (Hws Hx) as (ws & ? & ? & Hle). exists ws. split_and!; [done..|].
    pose proof (KV s). etrans; [|exact Hle]. apply Z.mod_le; lia.
Qed.

Lemma woken_ready ths s t th :
  ths !! t = Some th -> waits_in (frames th) = Some (QSema s) ->
  woken (<[t := set_status THREAD_READY th]> ths) s t.
Proof.
  intros Ht Hw. destruct (frames th) as [|[] fs] eqn:Ef; simplify_eq/=.
  exists (set_status THREAD_READY th), old, fs. rewrite lookup_insert_eq. split_and!; auto.
Qed.

(** The thread that [sema_up] wakes up covers the value that it adds. *)
Lemma wake_first k s t rest :
  kcore true k -> waiters (semas k s) = t :: rest ->
  exists th, threads k !! t = Some th /\ is_thread th = true /\ status th = THREAD_BLOCKED /\
    place k t = Some (QSema s) /\ NoDup (t :: rest) /\
    exists ws, NoDup ws /\
      (forall u, u ∈ ws -> woken (<[t := set_status THREAD_READY th]> (threads k)) s u) /\
      value (semas k s) + 1 <= Z.of_nat (length ws).
Proof.
  intros C Hw. destruct (ki_queues _ _ C (QSema s)) as [Hnd Hin]. simpl in Hnd, Hin. rewrite Hw in Hnd.
  assert (Hp : place k t = Some (QSema s)) by (apply Hin; rewrite Hw; left).
  pose proof Hp as Hp'. unfold place, place_of in Hp'. destruct (threads k !! t) as [th|] eqn:Ht; [|done].
  assert (Hb : status th = THREAD_BLOCKED) by (destruct (status th); try done; by case_bool_decide).
  rewrite Hb in Hp'. exists th. do 5 (split; [done || by eapply (ki_magic _ _ C)|]).
  destruct (ki_wake _ _ C s) as (ws & Hn & Hwk & Hle); [by rewrite Hw|]. exists (t :: ws).
  assert (Hnt : t ∉ ws).
  { intros Hi. destruct (Hwk t Hi) as (uh & ? & ? & Hu & _ & Hs). rewrite Ht in Hu. simplify_eq.
    destruct Hs; congruence. }
  split_and!; [by constructor| |simpl; lia]. intros u [->|Hu]%elem_of_cons; [by apply woken_ready|].
  eapply woken_insert; [done| |by apply Hwk]. intros o fs Ef _. exists o, fs. split; [done|by left].
Qed.

(** [sema_up] after it has woken the first waiter up, if there is one. *)
Lemma sema_up_tail k s old :
  sched_ok k -> may_up k s ->
  (forall th s o fs, threads k !! running k = Some th -> frames th <> FSemaDown s o :: fs) ->
  (waiters (semas k s) <> [] -> exists ws, NoDup ws /\ (forall t, t ∈ ws -> woken (threads k) s t) /\
     value (semas k s) + 1 <= Z.of_nat (length ws)) ->
  ok k (upd_sema s (fun sm => set_value (u32 (value sm + 1)) sm);; intr_set_level old;; mret tt).
Proof.
  intros [[C Sl Ex] Q] Hup Hnd Hws. ok_run. apply intr_get; [|by intros _].
  constructor; [|done]. constructor; [|done..]. apply (kcore_give k _ s); try done.
  - intros []; try done. simpl. by destruct (decide _) as [->|].
  - intros x. simpl. by destruct (decide (x = s)).
Qed.

Lemma sema_up_ok k s :
  sched_ok k -> may_up k s ->
  (forall th s o fs, threads k !! running k = Some th -> frames th <> FSemaDown s o :: fs) ->
  ok k (sema_up s).
Proof.
  intros I Hup Hnd. unfold sema_up. ok_run. set (k0 := set_intr_on false k). ok_run.
  change (semas k0 s) with (semas k s).
  assert (C0 : kcore true k0) by (apply kcore_intr; [apply I|done]).
  pose proof I as [[C Sl Ex] Q]. destruct (waiters (semas k s)) as [|t rest] eqn:Ew.
  - ok_run. apply sema_up_tail; [|done..|simpl; by rewrite Ew]. by constructor.
  - destruct (wake_first k0 s t rest C0 Ew) as (th & Ht & Hm & Hb & Hp & Hn & Hws).
    eapply ok_step.
    + erewrite bind_ok by reflexivity. cbv beta.
      eapply (thread_unblock_ok _ t th); [exact Ht|done..].
    + cbv beta. set (k1 := unblocked _ _ _).
      assert (Hs : semas k1 s = mkSema (value (semas k s)) rest)
        by (simpl; rewrite decide_True by done; unfold pop_waiter; by rewrite Ew).
      assert (Hsv : forall x, value (semas k1 x) = value (semas k x))
        by (intros x; simpl; by destruct (decide (x = s)) as [->|]).
      assert (Hrt : t <> running k).
      { intros ->. destruct (cur_running k C) as (? & ? & ? & _). simpl in Ht. congruence. }
      apply sema_up_tail.
      * constructor; [|done]. constructor; [|simpl; by eapply sleep_insert|done].
        apply (kcore_wakeup true k0 k1 t th (QSema s)); try done.
        intros [| | |x]; try done. destruct (decide (QSema x = QSema s)) as [[= ->]|Hne].
        -- cbn [queue]. rewrite Hs. change (semas k0 s) with (semas k s). rewrite Ew.
           simpl. symmetry. by apply filter_head.
        -- simpl. by rewrite decide_False by congruence.
      * destruct s as [|l|]; [done| |done]. destruct Hup as (Hz & Hh & Htk).
        split_and!; [by rewrite Hsv|done|]. intros u uh Hu. simpl in Hu.
        ins Hu; [exact (Htk _ _ Ht)|by eapply Htk].
      * intros uh x o fs Hu. simpl in Hu. rewrite lookup_insert_ne in Hu by done. by eapply Hnd.
      * intros _. by rewrite Hs.
Qed.

(** ** Locks *)

Lemma tok_up l fs : tok l (FSemaUp (SLock l) :: fs) = S (tok l fs).
Proof. unfold tok. by rewrite filter_cons_True by (by right). Qed.
Lemma tok_set l fs : tok l (FSetHolder l :: fs) = S (tok l fs).
Proof. unfold tok. by rewrite filter_cons_True by (by left). Qed.
Lemma tok_other l l' f fs : l <> l' -> f = FSemaUp (SLock l') \/ f = FSetHolder l' -> tok l (f :: fs) = tok l fs.
Proof. intros Hne Hf. unfold tok. rewrite filter_cons_False; [done|]. intros [->| ->]; destruct Hf; congruence. Qed.

(** The token of the running thread is the only one. *)
Lemma tok_unique k th l fs :
  kcore true k -> threads k !! running k = Some th -> tok l (frames th) = S (tok l fs) ->
  value (semas k (SLock l)) = 0 /\ holder k l = None /\
  forall t uh, <[running k := set_frames fs th]> (threads k) !! t = Some uh -> tok l (frames uh) = 0%nat.
Proof.
  intros C Ht Htk. destruct (ki_lock _ _ C l) as (_ & _ & H).
  destruct (H _ _ Ht) as (Hv & H1 & Hh & Ho); [lia|]. split_and!; [done..|].
  intros t uh Hu. ins Hu; [simpl; lia|by eapply Ho].
Qed.

Lemma pop_up k th s fs :
  sched_ok k -> threads k !! running k = Some th -> frames th = FSemaUp s :: fs ->
  sched_ok (with_frames fs th k) /\ may_up (with_frames fs th k) s.
Proof.
  intros [I Q] Ht Ef. pose proof (ki_stacks _ _ (kv_core _ I) _ _ Ht) as Hst.
  rewrite Ef in Hst. destruct Hst as (_ & S2 & S1).
  assert (Hnd : forall x o fs', fs <> FSemaDown x o :: fs')
    by (intros x o fs' ->; by apply Forall_cons in S2 as [[] _]).
  assert (Hid : idle_thread k = Some (running k) -> idle_stack fs).
  { intros E. destruct (ki_idle _ _ (kv_core _ I)) as (i & ih & Ei & Hih & Hs & _).
    rewrite Ei in E. simplify_eq. destruct Hs as (pre & b & Eb & Hb & Hp). rewrite Ef in Eb.
    destruct pre as [|f pre]; simplify_eq/=; [by destruct Hb|].
    exists pre, b. by apply Forall_cons in Hp as [_ Hp]. }
  destruct (decide (plain (FSemaUp s))) as [Hp|Hp].
  - split; [|by destruct s]. constructor; [|done]. by eapply kinv_pop.
  - destruct s as [|l|]; [done| |done].
    destruct (tok_unique k th l fs (kv_core _ I) Ht) as (Hv & Hh & Hz); [by rewrite Ef, tok_up|].
    split; [|by split_and!]. pose proof I as [C Sl Ex]. constructor; [|done].
    constructor; [|simpl; by eapply sleep_insert|done].
    apply (kcore_reframe k _ th fs); try done.
    + by rewrite Ef.
    + intros x o fs' E. by apply Hnd in E.
    + simpl. eapply new_insert; [apply C|done|by rewrite Ef|]. simpl. by rewrite Ef.
    + intros l'. simpl. destruct (decide (l' = l)) as [->|Hne].
      * rewrite Hv, Hh. split_and!; [by left|done|]. intros t uh Hu Hn. by rewrite (Hz t uh Hu) in Hn.
      * eapply lock_one_insert; [apply C|done|]. simpl. rewrite Ef. symmetry.
        apply (tok_other l' l); auto.
Qed.

Lemma tail_stack_ok t f fs : stack_ok t (f :: fs) -> stack_ok t fs /\ Forall not_down fs.
Proof. by intros (_ & ? & ?). Qed.
Lemma not_down_head fs : Forall not_down fs -> forall s o fs', fs <> FSemaDown s o :: fs'.
Proof. intros H s o fs' ->. by apply Forall_cons in H as [[] _]. Qed.

Lemma set_holder_ok k l fs :
  sched_ok k -> cur_frames k = FSetHolder l :: fs ->
  ok k (t ← gets running; pop_frame t;; t ← thread_current; set_holder_of l (Some t)).
Proof.
  intros I Hf. destruct (cur_facts k _ _ I Hf) as (th & Ht & Ef & Hs & Hm & Hst).
  destruct (tail_stack_ok _ _ _ Hst) as [Hst' Hnd]. pose proof I as [[C Sl Ex] Q].
  destruct (tok_unique k th l fs C Ht) as (Hv & Hh & Hz); [by rewrite Ef, tok_set|].
  ok_run. eapply ok_step; [by apply pop_frame_ok|]. rewrite Ef. cbn [tail].
  eapply ok_step; [apply (thread_current_ok _ (set_frames fs th)); [apply with_frames_cur|done..]|].
  eexists tt, _. split; [reflexivity|]. constructor; [|done].
  constructor; [|simpl; by eapply sleep_insert|done].
  apply (kcore_reframe k _ th fs); try done.
  - by rewrite Ef.
  - intros x o fs' E. by apply (not_down_head _ Hnd) in E.
  - intros E. exfalso. by eapply (not_idle k th); [by constructor|..].
  - simpl. eapply new_insert; [apply C|done|by rewrite Ef|]. simpl. by rewrite Ef.
  - intros l'. simpl. destruct (decide (l' = l)) as [->|Hne].
    + rewrite Hv. split_and!; [by left|done|]. intros t uh Hu Hn. by rewrite (Hz t uh Hu) in Hn.
    + eapply lock_one_insert; [apply C|done|]. simpl. rewrite Ef. symmetry. apply (tok_other l' l); auto.
Qed.

(** A thread in its own code, or back in a kernel function that has just been left,
    calls the next one. *)
Record caller (k : kernel) (th : thread) : Prop := {
  cl_cur : threads k !! running k = Some th;
  cl_status : status th = THREAD_RUNNING;
  cl_magic : is_thread th = true;
  cl_idle : idle_thread k <> Some (running k);
  cl_stack : stack_ok (running k) (frames th);
  cl_down : Forall not_down (frames th)
}.

Lemma call_caller k : sched_ok k -> cur_frames k = [] -> exists th, caller k th /\ frames th = [].
Proof.
  intros [I Q] Hf. destruct (cur_running k (kv_core _ I)) as (th & Ht & Hs & Hm). exists th.
  unfold cur_frames in Hf. rewrite Ht in Hf. split; [|done]. constructor; try done.
  - by eapply not_idle_nil.
  - exact (ki_stacks _ _ (kv_core _ I) _ _ Ht).
  - by rewrite Hf.
Qed.

Lemma pop_caller k f fs :
  sched_ok k -> cur_frames k = f :: fs -> plain f -> idle_frame f = false -> f <> FIdle -> f <> FHalt ->
  exists th, threads k !! running k = Some th /\ frames th = f :: fs /\
    sched_ok (with_frames fs th k) /\ caller (with_frames fs th k) (set_frames fs th).
Proof.
  intros I Hf Hp Hi H1 H2. destruct (cur_facts k _ _ I Hf) as (th & Ht & Ef & Hs & Hm & Hst).
  destruct (tail_stack_ok _ _ _ Hst) as [Hst' Hnd]. pose proof I as [Ik Q].
  pose proof (not_idle k th f fs Ik Ht Ef Hi H1 H2) as Hni. exists th. split_and!; [done..| |].
  - constructor; [|done]. by eapply kinv_pop.
  - constructor; try done. apply with_frames_cur.
Qed.

Section caller.
Context (k : kernel) (th : thread) (I : sched_ok k) (Hc : caller k th).

Lemma push_ok f : plain f -> frame_ok (running k) (frames th) f -> sched_ok (with_frames (f :: frames th) th k).
Proof.
  intros Hp Hf. constructor; [|apply I]. destruct Hc. eapply kinv_push; try done. apply I.
Qed.
Lemma caller_intr b : sched_ok (set_intr_on b k) /\ caller (set_intr_on b k) th.
Proof.
  destruct Hc. split; [|by constructor]. destruct I as [[C Sl Ex] Q].
  constructor; [|done]. constructor; [|done..]. apply kcore_intr; [done|].
  intros _ uh s o fs Hu. rewrite cl_cur0 in Hu. simplify_eq. by apply not_down_head.
Qed.
Lemma caller_push f : not_down f -> frame_ok (running k) (frames th) f ->
  caller (with_frames (f :: frames th) th k) (set_frames (f :: frames th) th).
Proof.
  intros Hn Hf. destruct Hc. constructor; try done.
  - apply with_frames_cur.
  - simpl. by constructor.
Qed.

Lemma sema_down_ok s :
  (match s with SWait u => u = running k | _ => True end) -> ok k (sema_down s).
Proof.
  intros Hs. unfold sema_down. ok_run. apply ok_assert; [by rewrite (kv_ext _ (so_inv _ I))|].
  ok_run. ok_run. destruct (caller_intr false) as [I1 C1]. eexists tt, _. split.
  { apply (push_frames_ok (set_intr_on false k) th). apply C1. }
  constructor; [|apply I1]. apply kinv_frames; [apply I1|apply C1|]. destruct C1. constructor; try done.
  intros x o fs. by apply not_down_head.
Qed.

Definition holds (l : positive) : bool := bool_decide (holder k l = Some (running k)).

Lemma held_ok l : lock_held_by_current_thread l k = Ok (holds l, k).
Proof.
  unfold lock_held_by_current_thread. destruct Hc. kstep (thread_current_ok k th cl_cur0 cl_status0 cl_magic0).
  by krun.
Qed.

Lemma lock_acquire_ok l : holds l = false -> ok k (lock_acquire l).
Proof.
  intros H. unfold lock_acquire. ok_run. apply ok_assert; [by rewrite (kv_ext _ (so_inv _ I))|].
  eapply ok_step; [apply held_ok|]. cbv beta. rewrite H. apply ok_assert; [done|]. ok_run.
  eexists tt, _. split; [apply push_frames_ok, Hc|]. by apply push_ok.
Qed.

Lemma sema_try_down_eq s :
  sema_try_down s k = Ok (0 <? value (semas k s),
    if 0 <? value (semas k s)
    then set_semas (fun x => if decide (x = s) then set_value (u32 (value (semas k s) - 1)) (semas k s)
                             else semas k x) k
    else k).
Proof.
  pose proof (kv_ext _ (so_inv _ I)) as Ex. unfold sema_try_down. krun. krun.
  change (semas (set_intr_on false k) s) with (semas k s).
  destruct (0 <? value (semas k s)); krun;
    (erewrite bind_ok by (by apply intr_set_level_eq)); by destruct k.
Qed.

Lemma take_ok s :
  0 < value (semas k s) ->
  sched_ok (with_frames (return_to s ++ frames th) th
    (set_semas (fun x => if decide (x = s) then set_value (u32 (value (semas k s) - 1)) (semas k s)
                         else semas k x) k)).
Proof.
  intros Hpos. pose proof I as [[C Sl Ex] Q]. destruct Hc. pose proof (ki_val _ _ C s) as Hv.
  constructor; [|done]. constructor; [|simpl; by eapply sleep_insert|done].
  apply (kcore_take k _ th (return_to s ++ frames th) s); try done.
  - intros []; try done. simpl. by destruct (decide _) as [->|].
  - intros x. simpl. destruct (decide (x = s)) as [->|]; [|done]. apply wrapu_small. lia.
  - by apply stack_return.
  - by destruct s.
  - intros l. by rewrite tok_return.
  - intros x o fs' Ef. by apply not_down_head in Ef.
  - intros x o fs' Ef. destruct s; simplify_eq/=; by apply not_down_head in Ef.
Qed.

Lemma with_frames_same k0 : threads k0 = threads k -> running k0 = running k ->
  with_frames (frames th) th k0 = k0.
Proof.
  intros E1 E2. unfold with_frames. rewrite insert_id; [by destruct k0|].
  rewrite E1, E2. destruct Hc. by destruct th.
Qed.

Lemma sema_try_down_ok p : ok k (sema_try_down (SUser p)).
Proof.
  eexists _, _. split; [apply sema_try_down_eq|]. destruct (0 <? _) eqn:E; [|done].
  apply Z.ltb_lt in E. pose proof (take_ok (SUser p) E) as T. simpl in T.
  by rewrite with_frames_same in T.
Qed.

Lemma lock_try_acquire_ok l : holds l = false -> ok k (lock_try_acquire l).
Proof.
  intros H. unfold lock_try_acquire. eapply ok_step; [apply held_ok|]. cbv beta. rewrite H.
  apply ok_assert; [done|]. eapply ok_step; [apply sema_try_down_eq|]. cbv beta. ok_run.
  destruct (0 <? _) eqn:E; [|by apply ok_ret]. apply Z.ltb_lt in E. eapply ok_step.
  - by apply push_frames_ok, Hc.
  - apply ok_ret. by apply (take_ok (SLock l)).
Qed.

Lemma lock_release_eq l : holds l = true ->
  lock_release l k = Ok (tt, with_frames (FSemaUp (SLock l) :: frames th) th
    (set_holder (fun x => if decide (x = l) then None else holder k x) k)).
Proof.
  intros H. unfold lock_release. kstep (held_ok l). rewrite ASSERT_true by done. krun. krun.
  apply push_frames_ok, Hc.
Qed.
Lemma lock_release_ok l : holds l = true -> ok k (lock_release l).
Proof.
  intros H. eexists tt, _. split; [by apply lock_release_eq|]. apply bool_decide_eq_true in H.
  pose proof I as [[C Sl Ex] Q]. destruct Hc.
  constructor; [|done]. constructor; [|simpl; by eapply sleep_insert|done].
  apply (kcore_reframe k _ th (FSemaUp (SLock l) :: frames th)); try done.
  - intros x o fs'. by apply not_down_head.
  - simpl. eapply new_insert; [apply C|done..|]. simpl. congruence.
  - intros l'. simpl. destruct (ki_lock _ _ C l') as (H1 & H2 & H3).
    destruct (decide (l' = l)) as [->|Hne].
    + destruct H2 as [Hv Hz]; [by rewrite H|]. rewrite Hv. split_and!; [by left|done|].
      intros t uh Hu Hn. ins Hu; [|by rewrite (Hz t uh Hu) in Hn]. simpl.
      rewrite tok_up, (Hz _ _ cl_cur0). split_and!; [done..|].
      intros u vh Hu' Hne. ins Hu'; [done|by eapply Hz].
    + eapply lock_one_insert; [apply C|done|]. simpl. apply (tok_other l' l); auto.
Qed.

(** *** Condition variables *)

Lemma push_list_ok fs :
  Forall plain fs -> stack_ok (running k) (fs ++ frames th) -> Forall not_down fs -> fs <> [] ->
  sched_ok (with_frames (fs ++ frames th) th k).
Proof.
  intros Hp Hf Hnd Hne. destruct Hc. constructor; [|apply I].
  apply kinv_frames; [apply I|done|]. constructor.
  - done.
  - clear -Hp. induction Hp; [done|]. simpl app. by rewrite creates_plain.
  - intros l. clear -Hp. induction Hp; [done|]. simpl app. by rewrite tok_plain.
  - intros s o fs'. by apply not_down_head.
  - intros s o fs' E. destruct fs; [done|]. simplify_eq/=. by apply Forall_cons in Hnd as [[] _].
  - done.
Qed.

Lemma own_sema_free : waiters (semas k (SWait (running k))) = [].
Proof.
  destruct Hc. pose proof (kv_core _ (so_inv _ I)) as C.
  destruct (waiters (semas k (SWait (running k)))) as [|t ws] eqn:E; [done|exfalso].
  assert (Hin : t ∈ queue k (QSema (SWait (running k)))) by (simpl; rewrite E; left).
  apply (ki_queues _ _ C) in Hin. pose proof (running_no_place k th cl_cur0 cl_status0) as Hn.
  unfold place, place_of in Hin. destruct (threads k !! t) as [uh|] eqn:Hu; [|done].
  assert (Hw : waits_in (frames uh) = Some (QSema (SWait (running k))))
    by (destruct (status uh); try done; by case_bool_decide).
  destruct (frames uh) as [|[] fs] eqn:Ef; simplify_eq/=.
  pose proof (ki_stacks _ _ C _ _ Hu) as Hs. rewrite Ef in Hs. destruct Hs as [Hs _].
  simpl in Hs. subst t. simplify_eq. rewrite cl_status0 in Hin. done.
Qed.

Lemma own_sema_reset :
  sched_ok (set_semas (fun x => if decide (x = SWait (running k)) then mkSema 0 [] else semas k x) k).
Proof.
  pose proof own_sema_free as Hw. destruct I as [[C Sl Ex] Q]. constructor; [|done].
  constructor; [|done..]. destruct C as [KM KR KQ KI KN KS KL KV KW KO]. constructor; try done; simpl.
  - eapply queues_ok_ext; [| |exact KQ]; [done|]. intros [| | |x]; try done. simpl.
    by destruct (decide _) as [->|].
  - intros x. by destruct (decide _).
  - intros x. destruct (decide _); [done|apply KW].
Qed.

Lemma cond_ok_set c ws cw :
  cond_ok cw -> (forall w, w ∈ ws -> exists u, w = SWait u) ->
  cond_ok (fun x => if decide (x = c) then ws else cw x).
Proof. intros H Hw x w. destruct (decide (x = c)); [apply Hw|apply H]. Qed.
End caller.

Lemma caller_ext k k' th :
  caller k th -> threads k' = threads k -> running k' = running k -> idle_thread k' = idle_thread k ->
  caller k' th.
Proof. intros [] E1 E2 E3. constructor; rewrite ?E1, ?E2, ?E3; done. Qed.
Lemma sched_cond k cw : sched_ok k -> cond_ok cw -> sched_ok (set_cond_waiters cw k).
Proof.
  intros [[C Sl Ex] _] Hq. constructor; [|done]. constructor; [|done..].
  by destruct C; constructor.
Qed.

Ltac stack_push :=
  repeat (split; [done || (simpl; left)|split; [by repeat constructor|]]).

Lemma cond_wait_ok k th c l :
  sched_ok k -> caller k th -> holds k l = true -> ok k (cond_wait c l).
Proof.
  intros I Hc H. unfold cond_wait. ok_run. apply ok_assert; [by rewrite (kv_ext _ (so_inv _ I))|].
  eapply ok_step; [by apply (held_ok k th)|]. cbv beta. rewrite H. apply ok_assert; [done|].
  ok_run. ok_run. ok_run. ok_run. eexists tt, _. split; [eapply push_frames_at; [|done]; exact (cl_cur _ _ Hc)|].
  apply (fun I Hc => push_list_ok _ th I Hc [FLockRelease l; FDown (SWait (running k)); FLockAcquire l]);
    [|by eapply caller_ext|by repeat constructor|by destruct Hc; stack_push|by repeat constructor|done].
  apply sched_cond; [by eapply own_sema_reset|]. apply cond_ok_set; [apply I|].
  intros w [Hw|Hw]%elem_of_app; [by apply (so_cond _ I) in Hw|].
  apply list_elem_of_singleton in Hw. eauto.
Qed.

Lemma cond_signal_ok k th c l :
  sched_ok k -> caller k th -> holds k l = true -> ok k (cond_signal c l).
Proof.
  intros I Hc H. unfold cond_signal. ok_run. apply ok_assert; [by rewrite (kv_ext _ (so_inv _ I))|].
  eapply ok_step; [by apply (held_ok k th)|]. cbv beta. rewrite H. apply ok_assert; [done|].
  ok_run. destruct (cond_waiters k c) as [|w rest] eqn:E; [by apply ok_ret|]. ok_run. ok_run.
  eexists tt, _. split; [eapply push_frames_at; [|done]; exact (cl_cur _ _ Hc)|].
  destruct (so_cond _ I c w) as [u ->]; [rewrite E; left|].
  apply (fun I Hc => push_list_ok _ th I Hc [FSemaUp (SWait u)]);
    [|by eapply caller_ext|by repeat constructor|by destruct Hc; stack_push|by repeat constructor|done].
  apply sched_cond; [done|]. apply cond_ok_set; [apply I|].
  intros x Hx. apply (so_cond _ I c x). rewrite E. by right.
Qed.

Lemma cond_broadcast_ok k th c l : sched_ok k -> caller k th -> ok k (cond_broadcast c l).
Proof.
  intros I Hc. unfold cond_broadcast. ok_run. eexists tt, _. split; [eapply push_frames_ok; exact (cl_cur _ _ Hc)|].
  by apply push_ok.
Qed.

(** ** Creating threads *)

(** A thread that is in no queue and that no stack mentions. *)
Lemma kcore_new k k' t nt :
  kcore true k -> threads k !! t = None -> threads k' = <[t := nt]> (threads k) ->
  status nt = THREAD_BLOCKED -> frames nt = [] -> is_thread nt = true ->
  running k' = running k -> idle_thread k' = idle_thread k -> intr_on k' = intr_on k ->
  (forall q, queue k' q = queue k q) -> semas k' = semas k -> holder k' = holder k -> kcore true k'.
Proof.
  intros C Hn Et Hb Hf Hm Er Ei Eo Hq Es Eh.
  assert (Hsame : forall u uh, threads k !! u = Some uh -> <[t := nt]> (threads k) !! u = Some uh).
  { intros u uh Hu. rewrite lookup_insert_ne; [done|congruence]. }
  destruct C as [KM KR KQ KI KN KS KL KV KW KO].
  constructor; rewrite ?Et, ?Er, ?Ei, ?Eo, ?Es, ?Eh; try done.
  - by apply magic_insert.
  - destruct KR as [(th & Ht & Hs) Ho]. split; [exists th; auto|].
    intros u uh Hu Hr. ins Hu; [congruence|by apply (Ho u uh)].
  - eapply queues_ok_ext; [| |exact KQ]; [|done]. intros u.
    rewrite (place_insert k k' t nt) by done. destruct (decide (u = t)) as [->|]; [|done].
    unfold place, place_of. by rewrite Hn, Hb, Hf.
  - destruct KI as (i & ih & E & Hi & ?). exists i, ih. auto.
  - destruct KN as (H1 & H2 & H3). split_and!.
    + intros u uh v Hu Hv. ins Hu; [rewrite Hf in Hv; by apply elem_of_nil in Hv|].
      destruct (H1 u uh v Hu Hv) as (vh & ? & ?). exists vh. auto.
    + intros u uh u' uh' v Hu Hu' Hv Hv'. ins Hu; [rewrite Hf in Hv; by apply elem_of_nil in Hv|].
      ins Hu'; [rewrite Hf in Hv'; by apply elem_of_nil in Hv'|]. by eapply H2.
    + intros u uh Hu. ins Hu; [rewrite Hf; constructor|by eapply H3].
  - apply stacks_insert; [done|]. rewrite Hf. by split.
  - intros l. destruct (KL l) as (H1 & H2 & H3). split_and!; [done| |].
    + intros Hh. destruct (H2 Hh) as [? Hz]. split; [done|]. intros u uh Hu.
      ins Hu; [by rewrite Hf|by eapply Hz].
    + intros u uh Hu Hk. ins Hu; [by rewrite Hf in Hk|].
      destruct (H3 u uh Hu Hk) as (? & ? & ? & Ho). split_and!; [done..|].
      intros v vh Hv Hne. ins Hv; [by rewrite Hf|by eapply Ho].
  - intros s Hs. destruct (KW s Hs) as (ws & ? & Hwk & ?). exists ws. split_and!; [done| |done].
    intros u Hu. destruct (Hwk u Hu) as (uh & o & fs & ? & ?). exists uh, o, fs. auto.
  - intros H1 H2 th s o fs Hth. ins Hth; [by rewrite Hf|by eapply KO].
Qed.

(** The creator notes the new thread. *)
Lemma new_push ths cur th t fs :
  new_ok ths -> ths !! cur = Some th -> status th = THREAD_RUNNING ->
  (exists nt, ths !! t = Some nt /\ status nt = THREAD_BLOCKED /\ frames nt = []) ->
  (forall u uh, ths !! u = Some uh -> t ∉ creates (frames uh)) ->
  creates fs = t :: creates (frames th) -> new_ok (<[cur := set_frames fs th]> ths).
Proof.
  intros (H1 & H2 & H3) Hc Hs (nt & Hnt & Hb & Hf) Hno Ecr.
  assert (Hkeep : forall v vh, ths !! v = Some vh -> status vh = THREAD_BLOCKED ->
            <[cur := set_frames fs th]> ths !! v = Some vh).
  { intros v vh Hv Hvs. rewrite lookup_insert_ne; [done|]. intros ->. congruence. }
  split_and!.
  - intros u uh v Hu Hv. ins Hu.
    + simpl in Hv. rewrite Ecr in Hv. apply elem_of_cons in Hv as [->|Hv]; [eauto|].
      destruct (H1 _ _ v Hc Hv) as (vh & ? & ? & ?). eauto.
    + destruct (H1 u uh v Hu Hv) as (vh & ? & ? & ?). eauto.
  - intros u uh u' uh' v Hu Hu' Hv Hv'. ins Hu; ins Hu'; [done|..]; simpl in *.
    + rewrite Ecr in Hv. apply elem_of_cons in Hv as [->|Hv]; [by destruct (Hno _ _ Hu' Hv')|by eapply H2].
    + rewrite Ecr in Hv'. apply elem_of_cons in Hv' as [->|Hv']; [by destruct (Hno _ _ Hu Hv)|by eapply H2].
    + by eapply H2.
  - intros u uh Hu. ins Hu; [|by eapply H3]. simpl. rewrite Ecr. constructor; [by eapply Hno|by eapply H3].
Qed.

Definition new_thread (nm : list Z) (prio : Z) : thread :=
  mkThread 0 THREAD_BLOCKED (take 15 nm) prio 0 THREAD_MAGIC [].

Lemma init_thread_eq k t nm prio :
  sched_ok k -> (PRI_MIN <=? prio) && (prio <=? PRI_MAX) = true ->
  init_thread t nm prio k = Ok (tt, set_all_list (all_list k ++ [t])
    (set_threads (<[t := new_thread nm prio]> (threads k)) k)).
Proof.
  intros I H. unfold init_thread. rewrite ASSERT_true by done. krun. krun. krun.
  rewrite intr_set_level_ok by (intros _; apply I). by destruct k.
Qed.

Lemma thread_create_ok k th page nm prio :
  sched_ok k -> caller k th -> (PRI_MIN <=? prio) && (prio <=? PRI_MAX) = true ->
  match page with Some t => threads k !! t = None | None => True end ->
  ok k (thread_create page nm prio None).
Proof.
  intros I Hc Hpr Hpg. destruct page as [t|]; [|by apply ok_ret]. unfold thread_create.
  eapply ok_step; [by apply init_thread_eq|]. ok_run. set (k1 := set_all_list _ _).
  assert (Hne : t <> running k) by (intros ->; by rewrite (cl_cur _ _ Hc) in Hpg).
  assert (C1 : kcore true k1) by (eapply (kcore_new k k1 t (new_thread nm prio)); try done; apply I).
  assert (Ht1 : threads k1 !! running k1 = Some th) by (simpl; rewrite lookup_insert_ne by done; apply Hc).
  eapply ok_step; [by apply (push_frames_ok k1 th)|]. set (k2 := with_frames _ th k1).
  eexists tt, _. split.
  { apply (push_frames_ok k2). apply with_frames_cur. }
  set (fs := [FLockAcquire tid_lock; FTid t; FCreate t None] ++ frames th).
  set (k3 := with_frames _ _ _).
  assert (E3 : threads k3 = <[running k1 := set_frames fs th]> (threads k1))
    by (simpl; by rewrite insert_insert_eq).
  destruct I as [[C Sl Ex] Q]. destruct Hc. constructor; [|done]. constructor; [| |done].
  - apply (kcore_reframe k1 k3 th fs); try done.
    + by stack_push.
    + intros x o fs'. by apply not_down_head.
    + rewrite E3. apply (new_push _ _ _ t); [apply C1|done..| | |done].
      * exists (new_thread nm prio). simpl. by rewrite lookup_insert_eq.
      * intros u uh Hu Hin. simpl in Hu. ins Hu; [by apply elem_of_nil in Hin|].
        destruct (proj1 (ki_new _ _ C) u uh t Hu Hin) as (? & ? & _). congruence.
    + rewrite E3. eapply lock_insert; [apply C1|done|]. intros l. simpl.
      unfold fs. simpl app. rewrite !tok_plain by done. unfold tok. by rewrite filter_cons_False by (intros []; done).
  - rewrite E3. eapply sleep_insert; [|done|done]. intros u uh Hu Hth. simpl in Hth.
    ins Hth; [|by eapply Sl]. exfalso.
    apply (ki_queues _ _ C QSleep) in Hu. unfold place in Hu. by rewrite Hpg in Hu.
Qed.

Lemma new_pop ths cur th t fs :
  new_ok ths -> ths !! cur = Some th -> status th = THREAD_RUNNING ->
  creates (frames th) = t :: creates fs ->
  new_ok (<[cur := set_frames fs th]> ths) /\
  (forall u uh, <[cur := set_frames fs th]> ths !! u = Some uh -> t ∉ creates (frames uh)).
Proof.
  intros (H1 & H2 & H3) Hc Hs Ecr.
  assert (Hold : forall u uh v, <[cur := set_frames fs th]> ths !! u = Some uh -> v ∈ creates (frames uh) ->
            exists uh', ths !! u = Some uh' /\ v ∈ creates (frames uh')).
  { intros u uh v Hu Hv. ins Hu; [|eauto]. eexists. split; [done|]. simpl in Hv. rewrite Ecr. by right. }
  split; [split_and!|].
  - intros u uh v Hu Hv. destruct (Hold u uh v Hu Hv) as (uh' & Hu' & Hv').
    destruct (H1 u uh' v Hu' Hv') as (vh & Hvh & ? & ?). exists vh.
    rewrite lookup_insert_ne; [done|]. intros ->. congruence.
  - intros u uh u' uh' v Hu Hu' Hv Hv'. destruct (Hold u uh v Hu Hv) as (a & ? & ?).
    destruct (Hold u' uh' v Hu' Hv') as (b & ? & ?). by eapply H2.
  - intros u uh Hu. ins Hu; [|by eapply H3]. simpl. specialize (H3 _ _ Hc). rewrite Ecr in H3.
    by apply NoDup_cons in H3 as [_ ?].
  - intros u uh Hu Hin. ins Hu.
    + specialize (H3 _ _ Hc). rewrite Ecr in H3. by apply NoDup_cons in H3 as [? _].
    + assert (u = cur); [|done]. eapply H2; [exact Hu|exact Hc|done|]. rewrite Ecr. left.
Qed.

(** A new thread gets its stack and becomes ready. *)
Lemma kcore_start k k' t th :
  kcore true k -> threads k !! t = Some th -> status th = THREAD_BLOCKED -> frames th = [] ->
  (forall u uh, threads k !! u = Some uh -> t ∉ creates (frames uh)) ->
  threads k' = <[t := set_status THREAD_READY (set_frames [FStart] th)]> (threads k) ->
  running k' = running k -> idle_thread k' = idle_thread k -> intr_on k' = intr_on k ->
  (forall q, queue k' q = if decide (q = QReady) then queue k q ++ [t] else queue k q) ->
  semas k' = semas k -> holder k' = holder k -> kcore true k'.
Proof.
  intros C Ht Hb Hf Hno Et Er Ei Eo Hq Es Eh.
  assert (Hidle : idle_thread k <> Some t).
  { intros E. destruct (ki_idle _ _ C) as (i & ih & E' & Hi & (pre & b & Es' & _) & _).
    rewrite E' in E. simplify_eq. rewrite Hf in Es'. by destruct pre. }
  assert (Hr : t <> running k).
  { intros ->. destruct (cur_running k C) as (? & ? & ? & _). congruence. }
  destruct C as [KM KR KQ KI KN KS KL KV KW KO].
  constructor; rewrite ?Et, ?Er, ?Ei, ?Eo, ?Es, ?Eh; try done.
  - apply magic_insert; [done|]. exact (KM t th Ht).
  - destruct KR as [(ch & Hch & Hs) Ho]. split; [exists ch; by rewrite lookup_insert_ne|].
    intros u uh Hu Hr'. ins Hu; [done|by apply (Ho u uh)].
  - eapply (queues_ok_push (place k) (queue k) _ _ t QReady); [done| | |done].
    + unfold place, place_of. by rewrite Ht, Hb, Hf.
    + intros u. rewrite (place_insert k k' t _ Et Ei). destruct (decide (u = t)); [|done].
      simpl. by rewrite bool_decide_eq_false_2 by congruence.
  - apply idle_insert; [done|]. congruence.
  - destruct KN as (H1 & H2 & H3).
    assert (Hold : forall u uh, <[t := set_status THREAD_READY (set_frames [FStart] th)]> (threads k) !! u = Some uh ->
              exists uh', threads k !! u = Some uh' /\ creates (frames uh) = creates (frames uh')).
    { intros u uh Hu. ins Hu; [exists th; by rewrite Hf|eauto]. }
    split_and!.
    + intros u uh v Hu Hv. destruct (Hold u uh Hu) as (uh' & Hu' & E). rewrite E in Hv.
      destruct (H1 u uh' v Hu' Hv) as (vh & ? & ?). exists vh. rewrite lookup_insert_ne; [done|].
      intros <-. by destruct (Hno _ _ Hu' Hv).
    + intros u uh u' uh' v Hu Hu' Hv Hv'. destruct (Hold u uh Hu) as (a & Ha & Ea).
      destruct (Hold u' uh' Hu') as (b & Hb' & Eb). rewrite Ea in Hv. rewrite Eb in Hv'. by eapply H2.
    + intros u uh Hu. destruct (Hold u uh Hu) as (a & Ha & ->). by eapply H3.
  - apply stacks_insert; [done|]. simpl. by repeat constructor.
  - eapply lock_insert; [done..|]. intros l. simpl. rewrite Hf. done.
  - eapply wake_insert; [done..|]. intros s o fs E. by rewrite Hf in E.
  - intros H1 H2 uh s o fs Hu. rewrite lookup_insert_ne in Hu by done. by eapply KO.
Qed.

Lemma create_tail_ok k t fn fs :
  sched_ok k -> cur_frames k = FCreate t fn :: fs ->
  ok k (c ← gets running; pop_frame c;; thread_create_tail t fn).
Proof.
  intros I Hf. destruct (cur_facts k _ _ I Hf) as (th & Ht & Ef & Hs & Hm & Hst).
  assert (fn = None) as ->. { by destruct Hst as [H _]. }
  destruct (tail_stack_ok _ _ _ Hst) as [Hst' Hnd]. pose proof I as [[C Sl Ex] Q].
  destruct (proj1 (ki_new _ _ C) _ _ t Ht) as (nt & Hnt & Hb & Hnf); [rewrite Ef; left|].
  destruct (new_pop (threads k) (running k) th t fs) as [Hnew Hno]; [apply C|done..|by rewrite Ef|].
  assert (Hne : t <> running k) by (intros ->; congruence).
  ok_run. eapply ok_step; [by apply pop_frame_ok|]. rewrite Ef. cbn [tail]. set (k1 := with_frames fs th k).
  assert (Hnt1 : threads k1 !! t = Some nt) by (simpl; by rewrite lookup_insert_ne).
  assert (C1 : kcore true k1).
  { apply (kcore_reframe k _ th fs); try done.
    - by rewrite Ef.
    - intros x o fs' E. by apply (not_down_head _ Hnd) in E.
    - intros E. exfalso. by eapply (not_idle k th); [apply I|..].
    - simpl. eapply lock_insert; [apply C|done|]. intros l. rewrite Ef. unfold tok.
      by rewrite (filter_cons_False _ (FCreate t None)) by (intros []; done). }
  unfold thread_create_tail. eapply ok_step; [by apply (upd_thread_ok k1 t nt)|].
  eexists tt, _. split.
  { eapply (thread_unblock_ok _ t (set_frames [FStart] nt)); [simpl; by rewrite lookup_insert_eq| |done|done].
    exact (ki_magic _ _ C _ _ Hnt). }
  constructor; [|done]. constructor; [| |done].
  - apply (kcore_start k1 _ t nt); try done.
    + simpl. by rewrite insert_insert_eq.
    + by intros [].
  - simpl. rewrite insert_insert_eq. eapply sleep_insert; [by eapply sleep_insert|exact Hnt1|done].
Qed.

(** Fields of a thread that the scheduler does not look at. *)
Lemma sched_same k t th th' :
  sched_ok k -> threads k !! t = Some th -> status th' = status th -> frames th' = frames th ->
  magic th' = magic th -> wakeup_tick th' = wakeup_tick th ->
  sched_ok (set_threads (<[t := th']> (threads k)) k).
Proof.
  intros [[C Sl Ex] Q] Ht Es Ef Em Ew. constructor; [|done].
  constructor; [|simpl; by eapply sleep_insert|done].
  destruct C as [KM KR KQ KI KN KS KL KV KW KO]. constructor; simpl; try done.
  - apply magic_insert; [done|]. unfold is_thread. rewrite Em. exact (KM t th Ht).
  - destruct KR as [(ch & Hch & Hs) Ho]. split.
    + destruct (decide (t = running k)) as [E|]; [|exists ch; by rewrite lookup_insert_ne].
      rewrite <- E in Hch |- *. rewrite Ht in Hch. simplify_eq. exists th'. rewrite lookup_insert_eq, Es. auto.
    + intros u uh Hu Hr. ins Hu; [|by eapply Ho]. eapply Ho; [exact Ht|congruence].
  - eapply queues_ok_ext; [| |exact KQ]; [|done]. intros u.
    rewrite (place_insert k _ t th') by done. destruct (decide (u = t)) as [->|]; [|done].
    unfold place, place_of. by rewrite Ht, Es, Ef.
  - apply idle_insert; [done|]. intros E. destruct KI as (i & ih & Ei & Hi & ?).
    rewrite Ei in E. simplify_eq. by rewrite Es, Ef.
  - eapply new_insert; [done..|by rewrite Ef|]. by rewrite Es, Ef.
  - apply stacks_insert; [done|]. rewrite Ef. exact (KS t th Ht).
  - eapply lock_insert; [done..|]. intros l. by rewrite Ef.
  - eapply wake_insert; [done..|]. intros s o fs E Hs. exists o, fs. by rewrite Ef, Es.
  - intros H1 H2 uh s o fs Hu. ins Hu; [rewrite Ef|]; by eapply KO.
Qed.

Lemma allocate_tid_tail_ok k th u :
  sched_ok k -> caller k th -> u ∈ creates (frames th) -> ok k (allocate_tid_tail u).
Proof.
  intros I Hc Hu. unfold allocate_tid_tail. ok_run. ok_run. ok_run.
  eexists tt, _. split; [eapply push_frames_at; [exact (cl_cur _ _ Hc)|done]|].
  apply (fun I Hc => push_list_ok _ th I Hc [FLockRelease tid_lock; FSetTid u (next_tid k)]).
  - destruct I as [[C Sl Ex] Q]. constructor; [|done]. constructor; [|done..]. by destruct C; constructor.
  - by eapply caller_ext.
  - by repeat constructor.
  - destruct Hc. split; [done|]. by split; [repeat constructor|].
  - by repeat constructor.
  - done.
Qed.

Lemma set_tid_ok k th u n :
  sched_ok k -> threads k !! u = Some th -> ok k (upd_thread u (set_tid n)).
Proof.
  intros I Hu. eexists tt, _. split; [by apply upd_thread_ok|]. by eapply sched_same.
Qed.

Lemma thread_set_priority_ok k th p :
  sched_ok k -> caller k th -> ok k (thread_set_priority p).
Proof.
  intros I []. unfold thread_set_priority. eapply ok_step; [by apply (thread_current_ok k th)|].
  eexists tt, _. split; [by apply upd_thread_ok|]. by eapply sched_same.
Qed.

(** ** Yielding, sleeping, blocking, exiting *)

Lemma idle_stack_push f fs : idle_frame f = true -> idle_stack fs -> idle_stack (f :: fs).
Proof. intros Hf (pre & b & -> & Hb & Hp). exists (f :: pre), b. split_and!; [done..|by constructor]. Qed.
Lemma idle_running k run th :
  kcore run k -> idle_thread k = Some (running k) -> threads k !! running k = Some th ->
  idle_stack (frames th).
Proof.
  intros C E Ht. destruct (ki_idle _ _ C) as (i & ih & Ei & Hi & Hs & _). rewrite Ei in E.
  by simplify_eq.
Qed.

(** The state in which [thread_yield] calls [schedule]. *)
Definition yielded (k : kernel) (th : thread) : kernel :=
  set_threads (<[running k := set_frames (FYield (intr_on k) :: frames th) (set_status THREAD_READY th)]> (threads k))
    (set_ready_list (if bool_decide (Some (running k) = idle_thread k) then ready_list k
                     else ready_list k ++ [running k]) (set_intr_on false k)).

Lemma thread_yield_eq k th :
  threads k !! running k = Some th -> status th = THREAD_RUNNING -> is_thread th = true ->
  in_external_intr k = false -> thread_yield k = schedule (yielded k th).
Proof.
  intros Ht Hs Hm Ex. unfold thread_yield. kstep (thread_current_ok k th Ht Hs Hm). krun.
  rewrite ASSERT_true by (by rewrite Ex). krun. krun. unfold yielded. simpl.
  case_bool_decide; simpl; krun;
    (erewrite bind_ok by (apply (upd_thread_ok _ _ th); exact Ht)); cbv beta;
    (erewrite bind_ok by (apply (upd_thread_ok _ _ (set_status THREAD_READY th)); apply lookup_insert_eq));
    cbv beta; f_equal; simpl; rewrite insert_insert_eq; by destruct k.
Qed.

Lemma yielded_core k th :
  kcore true k -> threads k !! running k = Some th -> Forall not_down (frames th) ->
  kcore false (yielded k th).
Proof.
  intros C Ht Hnd. eapply (kcore_park k _ th _ (if bool_decide (Some (running k) = idle_thread k)
    then None else Some QReady)); try done; unfold yielded; simpl.
  - intros r. case_bool_decide; [rewrite decide_False by done; by destruct r|]. by destruct r.
  - split; [done|]. split; [done|]. exact (ki_stacks _ _ C _ _ Ht).
  - intros E. split; [|done]. apply idle_stack_push; [done|]. exact (idle_running k true th C E Ht).
  - intros s. by case_bool_decide.
  - intros s o fs E. by apply not_down_head in E.
Qed.

Lemma thread_yield_ok k th :
  sched_ok k -> threads k !! running k = Some th -> Forall not_down (frames th) -> ok k thread_yield.
Proof.
  intros [[C Sl Ex] Q] Ht Hnd. destruct (cur_running k C) as (th0 & Ht0 & Hs & Hm).
  rewrite Ht in Ht0. simplify_eq. unfold ok. rewrite (thread_yield_eq k th0) by done.
  apply ok_schedule; [by apply yielded_core|done..|]. simpl. by eapply sleep_insert.
Qed.

Lemma thread_sleep_ok k th tick :
  sched_ok k -> caller k th -> tick <= INT64_MAX -> ok k (thread_sleep tick).
Proof.
  intros [[C Sl Ex] Q] [] Htick. unfold thread_sleep. ok_run.
  eapply ok_step; [by apply (thread_current_ok (set_intr_on false k) th)|]. ok_run.
  apply ok_assert; [by rewrite bool_decide_eq_false_2 by (simpl; congruence)|].
  eapply ok_step; [by apply (upd_thread_ok (set_intr_on false k) _ th)|]. ok_run. ok_run.
  eapply ok_step; [apply (upd_thread_ok _ _ (set_wakeup_tick tick th)); simpl; apply lookup_insert_eq|].
  cbv beta. set (th1 := set_frames _ _). set (k1 := set_threads _ _).
  unfold ok. rewrite (thread_block_ok k1 th1); [|simpl; apply lookup_insert_eq|done..].
  set (th' := set_status THREAD_BLOCKED th1). set (k2 := set_threads _ k1).
  assert (E2 : threads k2 = <[running k := th']> (threads k)) by (simpl; by rewrite !insert_insert_eq).
  apply ok_schedule; try done.
  - apply (kcore_park k k2 th th' (Some QSleep)); try done.
    + by intros [].
    + intros s o fs E. by apply not_down_head in E.
  - rewrite E2. simpl. intros u uh Hu Hth. ins Hth.
    + simpl. destruct (tick <? next_tick_to_wakeup k) eqn:E; lia.
    + apply elem_of_app in Hu as [Hu|Hu]; [|by apply list_elem_of_singleton in Hu].
      specialize (Sl u uh Hu Hth). destruct (tick <? next_tick_to_wakeup k) eqn:E; lia.
Qed.

Lemma block_thread_ok k th : sched_ok k -> caller k th -> ok k block_thread.
Proof.
  intros [[C Sl Ex] Q] []. unfold block_thread.
  eapply ok_step; [by apply (thread_current_ok k th)|]. ok_run. ok_run.
  eapply ok_step; [by apply (upd_thread_ok _ _ th)|]. cbv beta.
  set (th1 := set_frames _ _). set (k1 := set_threads _ _).
  unfold ok. rewrite (thread_block_ok k1 th1); [|simpl; apply lookup_insert_eq|done..].
  set (th' := set_status THREAD_BLOCKED th1). set (k2 := set_threads _ k1).
  assert (E2 : threads k2 = <[running k := th']> (threads k)) by (simpl; by rewrite !insert_insert_eq).
  apply ok_schedule; try done.
  - apply (kcore_park k k2 th th' (Some QAw)); try done.
    + by intros [].
    + intros s o fs E. by apply not_down_head in E.
  - rewrite E2. simpl. by eapply sleep_insert.
Qed.

Lemma thread_exit_ok k th : sched_ok k -> caller k th -> frames th = [] -> ok k thread_exit.
Proof.
  intros [[C Sl Ex] Q] [] Hf. unfold thread_exit. ok_run. apply ok_assert; [by rewrite Ex|]. ok_run.
  eapply ok_step; [by apply (thread_current_ok (set_intr_on false k) th)|]. ok_run.
  eapply ok_step; [by apply (thread_current_ok (set_all_list _ (set_intr_on false k)) th)|].
  eapply ok_step; [by apply (upd_thread_ok _ _ th)|]. cbv beta. set (k2 := set_threads _ _).
  apply ok_schedule; try done.
  - apply (kcore_park k k2 th (set_status THREAD_DYING th) None); try done.
    intros s o fs E. by rewrite Hf in E.
  - simpl. by eapply sleep_insert.
Qed.

Lemma idle_block_ok k :
  sched_ok k -> cur_frames k = [FIdle] ->
  ok k (t ← gets running; pop_frame t;; push_frames t [FHalt];; intr_disable;; thread_block).
Proof.
  intros I Hf. destruct (cur_facts k _ _ I Hf) as (th & Ht & Ef & Hs & Hm & Hst).
  destruct I as [[C Sl Ex] Q]. ok_run. eapply ok_step; [by apply pop_frame_ok|]. rewrite Ef.
  eapply ok_step; [apply (push_frames_ok (with_frames _ th k)); apply with_frames_cur|].
  ok_run. set (k1 := set_intr_on _ _). set (th1 := set_frames [FHalt] th).
  assert (Ht1 : threads k1 !! running k1 = Some th1) by (simpl; apply lookup_insert_eq).
  unfold ok. rewrite (thread_block_ok k1 th1); [|done..].
  set (th' := set_status THREAD_BLOCKED th1). set (k2 := set_threads _ k1).
  assert (E2 : threads k2 = <[running k := th']> (threads k)) by (simpl; by rewrite !insert_insert_eq).
  apply ok_schedule; try done.
  - apply (kcore_park k k2 th th' None); try done; try (by rewrite Ef).
    intros _. split_and!; [|done..]. exists [], FHalt. by split_and!; [|right|].
  - rewrite E2. simpl. by eapply sleep_insert.
Qed.

(** ** Waking up *)

Definition tick_of (k : kernel) (t : tref) : Z :=
  match threads k !! t with Some th => wakeup_tick th | None => 0 end.

(** What waking threads up leaves alone. *)
Record quiet (k k' : kernel) : Prop := {
  qt_running : running k' = running k;
  qt_cur : threads k' !! running k = threads k !! running k;
  qt_idle : idle_thread k' = idle_thread k;
  qt_semas : semas k' = semas k;
  qt_holder : holder k' = holder k;
  qt_cond : cond_waiters k' = cond_waiters k;
  qt_ext : in_external_intr k' = in_external_intr k;
  qt_intr : intr_on k' = intr_on k;
  qt_ticks : ticks k' = ticks k;
  qt_yield : yield_on_return k' = yield_on_return k;
  qt_tick : forall t, tick_of k' t = tick_of k t
}.
#[export] Instance quiet_refl : Reflexive quiet.
Proof. intros k. by constructor. Qed.
#[export] Instance quiet_trans : Transitive quiet.
Proof.
  intros k1 k2 k3 H1 H2. constructor; try (etrans; [apply H2|apply H1]).
  etrans; [|apply H1]. rewrite <- (qt_running _ _ H1). apply H2.
Qed.

Lemma queue_thread k q t :
  kcore true k -> t ∈ queue k q -> q <> QReady ->
  exists th, threads k !! t = Some th /\ is_thread th = true /\ status th = THREAD_BLOCKED /\
    place k t = Some q /\ t <> running k.
Proof.
  intros C Hin Hq. apply (ki_queues _ _ C) in Hin. pose proof Hin as Hp. unfold place, place_of in Hp.
  destruct (threads k !! t) as [th|] eqn:Ht; [|done].
  assert (Hb : status th = THREAD_BLOCKED)
    by (destruct (status th); try done; case_bool_decide; congruence).
  exists th. split_and!; [done|by eapply (ki_magic _ _ C)|done..|]. intros ->.
  destruct (cur_running k C) as (? & ? & ? & _). congruence.
Qed.

Lemma quiet_unblocked k k0 t th :
  threads k !! t = Some th -> t <> running k -> threads k0 = threads k -> quiet k k0 ->
  quiet k (unblocked t th k0).
Proof.
  intros Ht Hne E []. constructor; try done; simpl.
  - by rewrite lookup_insert_ne, E.
  - intros u. unfold tick_of. simpl. rewrite E. destruct (decide (u = t)) as [->|].
    + by rewrite lookup_insert_eq, Ht.
    + by rewrite lookup_insert_ne.
Qed.

Lemma unblock_loop_ok l k :
  kcore true k -> blocked_threads k = l -> (intr_on k = true -> in_external_intr k = false) ->
  exists k', unblock_loop l k = Ok (tt, k') /\ kcore true k' /\ quiet k k' /\
    blocked_threads k' = [] /\ ready_list k' = ready_list k ++ l /\
    sleep_list k' = sleep_list k /\ next_tick_to_wakeup k' = next_tick_to_wakeup k.
Proof.
  revert k. induction l as [|t l IH]; intros k C Hl Hon.
  - exists k. split_and!; try done. by rewrite app_nil_r.
  - destruct (queue_thread k QAw t C) as (th & Ht & Hm & Hb & Hp & Hne); [simpl; rewrite Hl; left|done|].
    destruct (ki_queues _ _ C QAw) as [Hnd _]. simpl in Hnd. rewrite Hl in Hnd.
    set (k0 := set_blocked_threads l k). set (k1 := unblocked t th k0).
    assert (E : unblock_loop (t :: l) k = unblock_loop l k1).
    { simpl. krun. rewrite Hl. erewrite bind_ok by (by apply (thread_unblock_ok k0 t th)). done. }
    assert (C1 : kcore true k1).
    { apply (kcore_wakeup true k k1 t th QAw); try done. intros [| | |]; try done. simpl.
      rewrite Hl. symmetry. by apply filter_head. }
    assert (Q1 : quiet k k1) by (by apply quiet_unblocked).
    destruct (IH k1 C1 eq_refl) as (k' & E' & C' & Q' & Hb' & Hr' & Hs' & Hn'); [done|].
    exists k'. rewrite E. split_and!; [done|done|by etrans|done| |done|done].
    rewrite Hr'. simpl. by rewrite <- app_assoc.
Qed.

Lemma unblock_threads_ok k th : sched_ok k -> caller k th -> ok k unblock_threads.
Proof.
  intros I Hc. unfold unblock_threads. ok_run. ok_run.
  destruct (caller_intr k th I Hc false) as [[[C Sl Ex] Q] C1]. simpl in Ex.
  destruct (unblock_loop_ok _ _ C eq_refl) as (k' & E & C' & Qt & _ & _ & Hs & Hn); [done|].
  destruct Qt as [Q1 Q2 Q3 Q4 Q5 Q6 Q7 Q8 Q9 Q10 Q11]. simpl in *.
  eapply ok_step; [exact E|]. apply intr_get.
  - constructor; [|by rewrite Q6]. constructor; [done| |by rewrite Q7].
    rewrite Hs, Hn. intros t uh Hu Hth. specialize (Q11 t). unfold tick_of in Q11. rewrite Hth in Q11.
    destruct (ki_queues _ _ C QSleep) as [_ Hin]. apply Hin in Hu as Hp. unfold place in Hp. simpl in *.
    destruct (threads k !! t) as [vh|] eqn:Hv; [|done]. rewrite Q11. by eapply Sl.
  - intros _ uh s o fs Hu. rewrite Q1, Q2 in Hu. rewrite (cl_cur _ _ Hc) in Hu. simplify_eq.
    apply not_down_head, Hc.
Qed.
