(* ===== verification/SchedSafe.v ===== *)
(** The timer interrupt, and the invariant of all steps of the kernel: what can
    panic and what cannot, mutual exclusion, wake-ups, sleeping. *)

From S2P Require Import Prelude KMonad Thread Synch SchedInv SchedSteps.

(** ** [thread_wakeup] *)

Definition due (k : kernel) (now : Z) (t : tref) : Prop := tick_of k t <= now.
#[export] Instance due_dec k now t : Decision (due k now t).
Proof. unfold due. apply _. Defined.

Record woke (now : Z) (l : list tref) (k k' : kernel) : Prop := {
  wk_core : kcore true k';
  wk_quiet : quiet k k';
  wk_blocked : blocked_threads k' = blocked_threads k;
  wk_sleep : sleep_list k' = filter (fun t => ~ (t ∈ l /\ due k now t)) (sleep_list k);
  wk_ready : ready_list k' = ready_list k ++ filter (due k now) l;
  wk_next : next_tick_to_wakeup k' <= next_tick_to_wakeup k /\
            forall t, t ∈ l -> ~ due k now t -> next_tick_to_wakeup k' <= tick_of k t
}.

Lemma woke_nil now k : kcore true k -> woke now [] k k.
Proof.
  intros C. constructor; try done.
  - assert (E : forall l : list tref, filter (fun t => ~ (t ∈ ([] : list tref) /\ due k now t)) l = l).
    { induction l as [|u l IH]; [done|]. rewrite filter_cons_True; [by rewrite IH|].
      intros [Hu _]. by apply elem_of_nil in Hu. }
    by rewrite E.
  - by rewrite app_nil_r.
  - split; [done|]. by intros u ?%elem_of_nil.
Qed.

(** The first sleeper is due: it becomes ready. *)
Lemma woke_due now t l th k k' :
  threads k !! t = Some th -> t <> running k -> t ∉ l -> due k now t ->
  woke now l (unblocked t th (set_sleep_list (filter (fun u => u <> t) (sleep_list k)) k)) k' ->
  woke now (t :: l) k k'.
Proof.
  intros Ht Hne Hnt Hd. set (k1 := unblocked _ _ _). intros [W1 W2 W3 W4 W5 [W6 W7]].
  assert (Q1 : quiet k k1) by (by apply quiet_unblocked).
  assert (Hdue : forall u, due k1 now u <-> due k now u)
    by (intros u; unfold due; by rewrite (qt_tick _ _ Q1)).
  constructor; try done.
  - by etrans.
  - rewrite W4. simpl. rewrite list_filter_filter. apply list_filter_iff. intros u.
    rewrite Hdue, elem_of_cons. destruct (decide (u = t)) as [->|]; tauto.
  - rewrite W5. simpl. rewrite filter_cons_True by done. rewrite <- app_assoc. simpl. do 2 f_equal.
    by apply list_filter_iff.
  - split; [done|]. intros u [->|Hu]%elem_of_cons Hnd; [done|].
    rewrite <- (qt_tick _ _ Q1). apply W7; [done|]. by rewrite Hdue.
Qed.

(** The first sleeper is not due: it counts for the next tick. *)
Lemma woke_later now t l k k' :
  ~ due k now t ->
  woke now l (set_next_tick_to_wakeup
    (if tick_of k t <? next_tick_to_wakeup k then tick_of k t else next_tick_to_wakeup k) k) k' ->
  woke now (t :: l) k k'.
Proof.
  intros Hd. set (k1 := set_next_tick_to_wakeup _ _). intros [W1 W2 W3 W4 W5 [W6 W7]].
  assert (Q1 : quiet k k1) by done. simpl in W6.
  constructor; try done.
  - by etrans.
  - rewrite W4. apply list_filter_iff. intros u. rewrite elem_of_cons.
    change (due k1 now u) with (due k now u). destruct (decide (u = t)) as [->|]; tauto.
  - rewrite W5. by rewrite filter_cons_False.
  - destruct (tick_of k t <? next_tick_to_wakeup k) eqn:E; (split; [lia|]);
      intros u [->|Hu]%elem_of_cons Hnd; try lia; by apply W7.
Qed.

Lemma wakeup_loop_ok now l k :
  kcore true k -> NoDup l -> (forall t, t ∈ l -> t ∈ sleep_list k) ->
  (intr_on k = true -> in_external_intr k = false) ->
  exists k', wakeup_loop now l k = Ok (tt, k') /\ woke now l k k'.
Proof.
  revert k. induction l as [|t l IH]; intros k C Hnd Hin Hon.
  - exists k. split; [done|]. by apply woke_nil.
  - apply NoDup_cons in Hnd as [Hnt Hnd].
    destruct (queue_thread k QSleep t C) as (th & Ht & Hm & Hb & Hp & Hne); [apply Hin; left|done|].
    assert (Etk : tick_of k t = wakeup_tick th) by (unfold tick_of; by rewrite Ht).
    assert (Hinl : forall u, u ∈ l -> u ∈ sleep_list k) by (intros; apply Hin; by right).
    cbn [wakeup_loop]. kstep (get_thread_ok k t th Ht).
    destruct (decide (due k now t)) as [Hd|Hd]; pose proof Hd as Hd'; unfold due in Hd'; rewrite Etk in Hd'.
    + rewrite (proj2 (Z.leb_le _ _)) by done.
      set (k0 := set_sleep_list (filter (fun u => u <> t) (sleep_list k)) k).
      assert (E : (modify (fun k => set_sleep_list (filter (fun u => u <> t) (sleep_list k)) k);;
                   thread_unblock t) k = Ok (tt, unblocked t th k0))
        by (krun; by apply (thread_unblock_ok k0)).
      kstep E. destruct (IH (unblocked t th k0)) as (k' & E' & W); [|done| |done|].
      * apply (kcore_wakeup true k _ t th QSleep); try done. by intros [].
      * intros u Hu. simpl. apply list_elem_of_filter. split; [by intros ->|auto].
      * exists k'. split; [done|]. by eapply woke_due.
    + rewrite (proj2 (Z.leb_gt _ _)) by lia. krun.
      destruct (IH (set_next_tick_to_wakeup (if wakeup_tick th <? next_tick_to_wakeup k
        then wakeup_tick th else next_tick_to_wakeup k) k)) as (k' & E' & W); [|done..|].
      * by destruct C; constructor.
      * exists k'. split; [done|]. apply woke_later; [done|]. by rewrite Etk.
Qed.

(** ** The timer interrupt *)

(** The counters of the timer and of the scheduler. *)
Definition counted (n i b a : Z) (y : bool) (k : kernel) : kernel :=
  set_yield_on_return y (set_thread_ticks a (set_kernel_ticks b (set_idle_ticks i (set_ticks n k)))).

Lemma counted_core n i b a y k : kcore true k -> kcore true (counted n i b a y k).
Proof. by destruct 1; constructor. Qed.

Lemma thread_tick_ok n k th :
  threads k !! running k = Some th -> status th = THREAD_RUNNING -> is_thread th = true ->
  in_external_intr k = true ->
  exists i b a y, thread_tick (set_ticks n k) = Ok (tt, counted n i b a y k).
Proof.
  intros Ht Hs Hm Hx. unfold thread_tick. kstep (thread_current_ok (set_ticks n k) th Ht Hs Hm). krun.
  set (slice := TIME_SLICE <=? u32 (thread_ticks k + 1)).
  set (idle := bool_decide (Some (running k) = idle_thread k)).
  exists (if idle then idle_ticks k + 1 else idle_ticks k),
    (if idle then kernel_ticks k else kernel_ticks k + 1),
    (u32 (thread_ticks k + 1)), (if slice then true else yield_on_return k).
  change (bool_decide (Some (running (set_ticks n k)) = idle_thread (set_ticks n k))) with idle.
  unfold counted. destruct idle; krun; krun; krun; unfold slice; clear slice;
    cbn [thread_ticks set_thread_ticks set_idle_ticks set_kernel_ticks set_ticks];
    (destruct (TIME_SLICE <=? _);
      [unfold when, intr_yield_on_return; krun; rewrite ASSERT_true by exact Hx|]); by destruct k.
Qed.

(** What the handler of the timer does with the threads, with interrupts off. *)
Record timer_done (now : Z) (k k' : kernel) : Prop := {
  td_core : kcore true k';
  td_sleep : sleep_list k' = filter (fun t => now < tick_of k t) (sleep_list k);
  td_ready : ready_list k' = ready_list k ++ filter (fun t => tick_of k t <= now) (sleep_list k);
  td_sleep_ok : sleep_ok (threads k') (sleep_list k') (next_tick_to_wakeup k');
  td_tick : forall t, tick_of k' t = tick_of k t;
  td_ticks : ticks k' = now;
  td_running : running k' = running k;
  td_cur : threads k' !! running k = threads k !! running k;
  td_idle : idle_thread k' = idle_thread k;
  td_semas : semas k' = semas k;
  td_holder : holder k' = holder k;
  td_cond : cond_waiters k' = cond_waiters k;
  td_ext : in_external_intr k' = in_external_intr k;
  td_intr : intr_on k' = intr_on k
}.

Lemma filter_split {A} (P Q : A -> Prop) `{!forall x, Decision (P x)} `{!forall x, Decision (Q x)} (l : list A) :
  (forall x, x ∈ l -> P x /\ ~ Q x) -> filter P l = l /\ filter Q l = [].
Proof.
  induction l as [|x l IH]; [done|]. intros Hx. destruct (Hx x) as [Hp Hq]; [left|].
  destruct IH as [E1 E2]; [intros y Hy; apply Hx; by right|].
  by rewrite filter_cons_True, filter_cons_False, E1, E2.
Qed.

Lemma filter_in {A} (P Q : A -> Prop) `{!forall x, Decision (P x)} `{!forall x, Decision (Q x)} (l : list A) :
  (forall x, x ∈ l -> P x <-> Q x) -> filter P l = filter Q l.
Proof.
  induction l as [|x l IH]; [done|]. intros Hx. rewrite !filter_cons.
  rewrite IH by (intros y Hy; apply Hx; by right).
  destruct (decide (P x)) as [Hp|Hp], (decide (Q x)) as [Hq|Hq]; try done;
    destruct (Hx x) as [H1 H2]; try (by left); tauto.
Qed.

(** No sleeper is due before [next_tick_to_wakeup]. *)
Lemma timer_early now i b a y k :
  kcore true k -> sleep_ok (threads k) (sleep_list k) (next_tick_to_wakeup k) ->
  now < next_tick_to_wakeup k -> timer_done now k (counted now i b a y k).
Proof.
  intros C Sl Hlt.
  assert (Hall : forall t, t ∈ sleep_list k -> now < tick_of k t /\ ~ tick_of k t <= now).
  { intros t Ht. destruct (queue_thread k QSleep t C Ht) as (th & Hth & _); [done|].
    specialize (Sl t th Ht Hth). unfold tick_of. rewrite Hth. lia. }
  destruct (filter_split (fun t => now < tick_of k t) (fun t => tick_of k t <= now) _ Hall) as [E1 E2].
  constructor; try done; simpl.
  - by apply counted_core.
  - by rewrite E2, app_nil_r.
Qed.

Lemma timer_late now i b a y k :
  kcore true k -> sleep_ok (threads k) (sleep_list k) (next_tick_to_wakeup k) -> intr_on k = false ->
  exists k', thread_wakeup now (counted now i b a y k) = Ok (tt, k') /\ timer_done now k k'.
Proof.
  intros C Sl Hon. unfold thread_wakeup. krun. krun. set (k1 := set_next_tick_to_wakeup _ _).
  assert (C1 : kcore true k1) by (by destruct C; constructor).
  destruct (wakeup_loop_ok now (sleep_list k) k1 C1) as (k' & E & [W1 W2 W3 W4 W5 [W6 W7]]);
    [apply (proj1 (ki_queues _ _ C QSleep))|done|simpl; by rewrite Hon|].
  exists k'. split; [exact E|]. destruct W2 as [Q1 Q2 Q3 Q4 Q5 Q6 Q7 Q8 Q9 Q10 Q11].
  assert (Hs : sleep_list k' = filter (fun t => now < tick_of k t) (sleep_list k)).
  { rewrite W4. apply filter_in. intros t Ht. change (due k1 now t) with (due k now t). unfold due.
    split; [intros H; apply Znot_ge_lt; intros Hge; apply H; split; [done|lia]|lia]. }
  constructor; try done.
  rewrite Hs. intros t th' Ht Hth'. apply list_elem_of_filter in Ht as [Hlt Ht].
  destruct (queue_thread k QSleep t C Ht) as (th & Hth & _); [done|].
  assert (Ew : wakeup_tick th' = wakeup_tick th).
  { specialize (Q11 t). unfold tick_of in Q11. simpl in Q11. by rewrite Hth', Hth in Q11. }
  pose proof (Sl t th Ht Hth) as Hb. rewrite Ew. unfold tick_of in Hlt. rewrite Hth in Hlt.
  split; [|lia]. specialize (W7 t Ht). unfold due, tick_of in W7. simpl in W7. rewrite Hth in W7.
  apply W7. lia.
Qed.

Lemma timer_interrupt_ok k th :
  kcore true k -> sleep_ok (threads k) (sleep_list k) (next_tick_to_wakeup k) ->
  intr_on k = false -> in_external_intr k = true ->
  threads k !! running k = Some th -> status th = THREAD_RUNNING -> is_thread th = true ->
  exists k', timer_interrupt k = Ok (tt, k') /\ timer_done (s64 (ticks k + 1)) k k'.
Proof.
  intros C Sl Hon Hx Ht Hs Hm. unfold timer_interrupt. krun.
  destruct (thread_tick_ok (s64 (ticks k + 1)) k th Ht Hs Hm Hx) as (i & b & a & y & E). kstep E. krun.
  cbn [next_tick_to_wakeup ticks counted set_yield_on_return set_thread_ticks set_kernel_ticks
       set_idle_ticks set_ticks].
  destruct (next_tick_to_wakeup k <=? s64 (ticks k + 1)) eqn:En; cbn [when].
  - by apply timer_late.
  - eexists. split; [reflexivity|]. apply timer_early; [done..|]. by apply Z.leb_gt.
Qed.

Definition awake (k : kernel) (t : tref) : Prop := t ∈ ready_list k \/ t = running k.

Lemma push_iret k th :
  sched_ok k -> threads k !! running k = Some th -> Forall not_down (frames th) ->
  sched_ok (with_frames (FIret :: frames th) th k).
Proof.
  intros [I Q] Ht Hnd. constructor; [|done]. apply kinv_frames; [done..|].
  pose proof (ki_stacks _ _ (kv_core _ I) _ _ Ht). constructor; try done.
  - intros s o fs. by apply not_down_head.
  - intros E. apply idle_stack_push; [done|]. by eapply idle_running; [apply I|..].
Qed.

Lemma yield_facts k th :
  sched_ok k -> threads k !! running k = Some th -> Forall not_down (frames th) ->
  exists k', thread_yield k = Ok (tt, k') /\ sched_ok k' /\ ticks k' = ticks k /\
    sleep_list k' = sleep_list k /\
    match ready_list k ++ (if bool_decide (Some (running k) = idle_thread k) then [] else [running k]) with
    | [] => idle_thread k = Some (running k') /\ ready_list k' = []
    | t :: rest => running k' = t /\ ready_list k' = rest
    end.
Proof.
  intros I Ht Hnd. pose proof I as [[C Sl Ex] Q]. destruct (cur_running k C) as (th0 & Ht0 & Hs & Hm).
  rewrite Ht in Ht0. simplify_eq. rewrite (thread_yield_eq k th0) by done.
  destruct (thread_yield_ok k th0 I Ht Hnd) as (a & k' & E & I').
  rewrite (thread_yield_eq k th0) in E by done.
  destruct (kcore_schedule (yielded k th0)) as (n & En & _ & _ & _ & _ & Es & _ & _ & _ & Et & Hn & _);
    [by apply yielded_core|done|].
  rewrite E in En. simplify_eq. exists n. split_and!; try done. simpl in Hn.
  case_bool_decide; [by rewrite app_nil_r|done].
Qed.

Lemma interrupt_ok k :
  sched_ok k -> intr_on k = true ->
  exists k', external_interrupt k = Ok (tt, k') /\ sched_ok k' /\
    ticks k' = s64 (ticks k + 1) /\
    sleep_list k' = filter (fun t => ticks k' < tick_of k t) (sleep_list k) /\
    (forall t, t ∈ sleep_list k -> tick_of k t <= ticks k' -> awake k' t).
Proof.
  intros I Hon. pose proof I as [[C Sl Ex] Q]. destruct (cur_running k C) as (th & Ht & Hs & Hm).
  unfold external_interrupt. krun. krun. rewrite ASSERT_true by done. krun.
  rewrite ASSERT_true by (simpl; by rewrite Ex). krun. krun.
  set (k1 := set_yield_on_return false _).
  assert (C1 : kcore true k1).
  { destruct (kcore_intr k false C); [done|]. by constructor. }
  destruct (timer_interrupt_ok k1 th) as (k2 & E2 & [T1 T2 T3 T4 T5 T6 T7 T8 T9 T10 T11 T12 T13 T14]);
    [done..|]. simpl in *. set (now := s64 (ticks k + 1)) in *.
  change (tick_of k1) with (tick_of k) in *.
  kstep E2. krun. rewrite ASSERT_true by (by rewrite T14). krun. rewrite ASSERT_true by (by rewrite T13).
  krun. krun. set (k3 := set_in_external_intr false k2).
  assert (Hnd : Forall not_down (frames th)).
  { pose proof (ki_stacks _ _ C _ _ Ht) as Hst. destruct (frames th) as [|f fs] eqn:Ef; [done|].
    destruct Hst as (_ & Hnd & _). constructor; [|done]. destruct f; try done.
    by apply (ki_off _ _ C eq_refl Hon th s old fs) in Ht. }
  assert (Ht3 : threads k3 !! running k3 = Some th) by (simpl; by rewrite T7, T8).
  assert (C3 : kcore true k3) by (by destruct T1; constructor).
  assert (S3 : sched_ok k3) by (constructor; [by constructor|simpl; by rewrite T12]).
  destruct (yield_on_return k3).
  - krun. kstep (push_frames_ok k3 th [FIret] Ht3).
    destruct (yield_facts (with_frames (FIret :: frames th) th k3) (set_frames (FIret :: frames th) th))
      as (k' & E' & S' & Etk & Esl & Hrd); [by apply push_iret|apply with_frames_cur|by constructor|].
    exists k'. simpl in *. rewrite Etk, T6. split_and!; try done; [by rewrite Esl, T2|].
    intros t Hin Hd. assert (Hrt : t ∈ ready_list k2).
    { rewrite T3. apply elem_of_app. right. by apply list_elem_of_filter. }
    destruct (ready_list k2) as [|u rest]; [by apply elem_of_nil in Hrt|].
    simpl in Hrd. destruct Hrd as [Hr1 Hr2]. unfold awake. rewrite Hr1, Hr2.
    apply elem_of_cons in Hrt as [->|Hrt]; [by right|left]. apply elem_of_app. by left.
  - eexists. split; [reflexivity|]. split_and!; try done.
    + constructor; [|apply S3]. constructor; [|apply S3|apply S3]. apply kcore_intr; [done|].
      intros _ uh s o fs Hu. rewrite Ht3 in Hu. simplify_eq. by apply not_down_head.
    + simpl. by rewrite T6.
    + intros t Hin Hd. left. simpl in *. rewrite T3. apply elem_of_app. right.
      apply list_elem_of_filter. by rewrite T6 in Hd.
Qed.

(** ** Every step *)

(** The documented preconditions that a caller can violate. *)
Definition frame_misuse (k : kernel) (f : frame) : bool :=
  match f with
  | FLockAcquire l => holds k l
  | FLockRelease l => negb (holds k l)
  | FBroadcast c l => negb (holds k l) && bool_decide (cond_waiters k c <> [])
  | _ => false
  end.
Definition call_misuse (k : kernel) (c : call) : bool :=
  match c with
  | CLockAcquire l | CLockTryAcquire l => holds k l
  | CLockRelease l | CCondWait _ l | CCondSignal _ l => negb (holds k l)
  | CSleep _ => negb (intr_on k)
  | CCreate (Some _) _ p => negb ((PRI_MIN <=? p) && (p <=? PRI_MAX))
  | _ => false
  end.

(** Returning from [schedule] to the end of a function. *)
Lemma return_ok k f fs old :
  sched_ok k -> cur_frames k = f :: fs -> plain f -> f <> FIdle -> f <> FHalt ->
  ok k (t ← gets running; pop_frame t;; intr_set_level old;; mret tt).
Proof.
  intros I Hf Hp H1 H2. destruct (cur_facts k _ _ I Hf) as (th & Ht & Ef & Hs & Hm & Hst).
  destruct (tail_stack_ok _ _ _ Hst) as [Hst' Hnd]. ok_run.
  eapply ok_step; [by apply pop_frame_ok|]. rewrite Ef. cbn [tail]. apply intr_get.
  - constructor; [|apply I]. eapply kinv_pop; [apply I|done..|]. intros E.
    pose proof (idle_running k true th (kv_core _ (so_inv _ I)) E Ht) as (pre & b & Eb & Hb & Hpre).
    rewrite Ef in Eb. destruct pre as [|g pre]; simplify_eq/=; [by destruct Hb|].
    exists pre, b. by apply Forall_cons in Hpre as [_ ?].
  - intros _ uh s o fs' Hu. rewrite with_frames_cur in Hu. simplify_eq. by apply not_down_head.
Qed.

Lemma halt_ok k fs :
  sched_ok k -> cur_frames k = FHalt :: fs ->
  ok k (t ← gets running; pop_frame t;; push_frames t [FIdle];; modify (set_intr_on true)).
Proof.
  intros I Hf. destruct (cur_facts k _ _ I Hf) as (th & Ht & Ef & Hs & Hm & Hst).
  destruct Hst as (-> & _ & _). destruct I as [[C Sl Ex] Q]. ok_run.
  eapply ok_step; [by apply pop_frame_ok|].
  eapply ok_step; [apply (push_frames_ok (with_frames _ th k)); apply with_frames_cur|].
  eexists tt, _. split; [reflexivity|]. set (k1 := with_frames _ _ _).
  assert (E1 : threads k1 = <[running k := set_frames [FIdle] th]> (threads k))
    by (simpl; rewrite insert_insert_eq; by rewrite Ef).
  constructor; [|done]. constructor; [|simpl; rewrite insert_insert_eq; by eapply sleep_insert|done].
  apply kcore_intr.
  - apply (kcore_reframe k k1 th [FIdle]); try done; rewrite ?E1.
    + by rewrite Ef.
    + intros _. exists [], FIdle. split_and!; [done|by left|done].
    + eapply new_insert; [apply C|done|by rewrite Ef|]. simpl. by rewrite Ef.
    + eapply lock_insert; [apply C|done|]. intros l. by rewrite Ef.
  - intros _ uh s o fs' Hu. change (running k1) with (running k) in Hu.
    rewrite E1, lookup_insert_eq in Hu. by simplify_eq.
Qed.

Lemma iret_ok k fs :
  sched_ok k -> cur_frames k = FIret :: fs ->
  ok k (t ← gets running; pop_frame t;; modify (set_intr_on true)).
Proof.
  intros I Hf. destruct (return_ok k FIret fs true I Hf) as (a & k' & E & I'); [done..|].
  destruct (cur_facts k _ _ I Hf) as (th & Ht & Ef & _). exists tt, k'. split; [|done].
  revert E. krun. intros E. krun. revert E. kstep (pop_frame_ok k th Ht). intros E.
  kstep (pop_frame_ok k th Ht). rewrite intr_set_level_ok in E by (intros _; apply I). by simplify_eq.
Qed.

Lemma pop_then k th f fs {A} (m : K kernel A) :
  threads k !! running k = Some th -> frames th = f :: fs -> ok (with_frames fs th k) m ->
  ok k (t ← gets running; pop_frame t;; m).
Proof.
  intros Ht Ef H. ok_run. eapply ok_step; [by apply pop_frame_ok|]. by rewrite Ef.
Qed.

(** A frame that calls a function on behalf of a thread other than the idle one. *)
Lemma pop_call k f fs {A} (m : K kernel A) :
  sched_ok k -> cur_frames k = f :: fs -> plain f -> idle_frame f = false -> f <> FIdle -> f <> FHalt ->
  (forall th, threads k !! running k = Some th -> frames th = f :: fs ->
     sched_ok (with_frames fs th k) -> caller (with_frames fs th k) (set_frames fs th) ->
     ok (with_frames fs th k) m) ->
  ok k (t ← gets running; pop_frame t;; m).
Proof.
  intros I Hf Hp Hi H1 H2 H. destruct (pop_caller k f fs I Hf Hp Hi H1 H2) as (th & Ht & Ef & I1 & C1).
  eapply pop_then; [done..|]. by apply H.
Qed.

Lemma set_tid_frame k u n fs :
  sched_ok k -> cur_frames k = FSetTid u n :: fs ->
  ok k (t ← gets running; pop_frame t;; upd_thread u (set_tid n)).
Proof.
  intros I Hf. destruct (cur_facts k _ _ I Hf) as (th0 & Ht0 & _ & Hs & Hm & Hst).
  apply (pop_call k (FSetTid u n) fs); try done. intros th Ht Ef I1 C1.
  rewrite Ht in Ht0. simplify_eq. destruct Hst as [Hu _]. simpl in Hu.
  destruct (proj1 (ki_new _ _ (kv_core _ (so_inv _ I))) _ _ u Ht) as (uh & Huh & Hb & _);
    [by rewrite Ef|].
  apply (set_tid_ok _ uh); [done|]. simpl. rewrite lookup_insert_ne; [done|]. intros <-. congruence.
Qed.

Lemma broadcast_ok k c l fs :
  sched_ok k -> cur_frames k = FBroadcast c l :: fs -> frame_misuse k (FBroadcast c l) = false ->
  ok k (run_frame (FBroadcast c l)).
Proof.
  intros I Hf Hm. unfold frame_misuse in Hm. unfold run_frame. destruct (cond_waiters k c) as [|w ws] eqn:Ew.
  - destruct (pop_caller k _ fs I Hf) as (th & Ht & Ef & I1 & _); [done..|]. ok_run. ok_run. rewrite Ew.
    exists tt, (with_frames fs th k). split; [|done]. rewrite (pop_frame_ok k th Ht). by rewrite Ef.
  - ok_run. ok_run. rewrite Ew. destruct (cur_facts k _ _ I Hf) as (th & Ht & Ef & Hs & Hmg & Hst).
    assert (Hc : caller k th).
    { constructor; try done; rewrite ?Ef; [by eapply (not_idle k th); [apply I|..]|done|].
      constructor; [done|]. by destruct (tail_stack_ok _ _ _ Hst). }
    apply (cond_signal_ok k th); [done..|]. destruct (holds k l); [done|]. cbn [negb andb] in Hm.
    apply bool_decide_eq_false in Hm. by destruct Hm.
Qed.

(** The running thread goes on with the function it is in. *)
Lemma run_frame_ok k f fs :
  sched_ok k -> cur_frames k = f :: fs -> frame_misuse k f = false -> ok k (run_frame f).
Proof.
  intros I Hf Hm. destruct (cur_facts k _ _ I Hf) as (th & Ht & Ef & _ & _ & Hst).
  destruct f; [| | | | | | | |by eapply sema_down_test_ok; [done|exact Hf]| | | | | |by eapply broadcast_ok| |..].
  - by eapply (return_ok k FStart fs true).
  - by destruct Hst.
  - destruct Hst as (-> & _). by apply idle_block_ok.
  - by eapply halt_ok.
  - by eapply return_ok.
  - by eapply iret_ok.
  - by eapply return_ok.
  - by eapply return_ok.
  - apply (pop_call k (FDown s) fs); try done. intros th' Ht' _ I1 C1. eapply sema_down_ok; [done..|].
    by destruct Hst as [Hs _].
  - destruct (pop_up k th s fs I Ht Ef) as [I1 U1]. eapply pop_then; [done..|].
    apply sema_up_ok; [done..|]. intros uh x o fs' Hu. rewrite with_frames_cur in Hu. simplify_eq.
    apply not_down_head. by destruct Hst as (_ & ? & _).
  - by eapply set_holder_ok.
  - apply (pop_call k (FLockAcquire l) fs); try done. intros th' Ht' _ I1 C1. by eapply lock_acquire_ok.
  - apply (pop_call k (FLockRelease l) fs); try done. intros th' Ht' _ I1 C1.
    eapply lock_release_ok; [done..|]. by apply negb_false_iff in Hm.
  - apply (pop_call k (FTid t) fs); try done. intros th' Ht' _ I1 C1.
    eapply allocate_tid_tail_ok; [done..|]. by destruct Hst.
  - by eapply set_tid_frame.
  - by eapply create_tail_ok.
Qed.

Lemma ok_discard {A} k (m : K kernel A) : ok k m -> ok k (m;; mret tt).
Proof. intros (a & k' & E & I). exists tt, k'. split; [|done]. by rewrite (bind_ok _ _ _ _ _ E). Qed.

Lemma timer_sleep_ok k th n :
  sched_ok k -> caller k th -> intr_on k = true -> ok k (timer_sleep n).
Proof.
  intros I Hc Hon. unfold timer_sleep.
  assert (E : timer_ticks k = Ok (ticks k, k)).
  { unfold timer_ticks. krun. krun. rewrite Hon.
    erewrite bind_ok by (apply intr_set_level_eq; intros _; apply I). destruct k; simpl in *; by subst. }
  eapply ok_step; [exact E|]. ok_run. apply ok_assert; [done|].
  apply (thread_sleep_ok k th); [done..|].
  pose proof (wraps_range 64 (ticks k + n)) as H. unfold INT64_MAX. change (2 ^ (64 - 1)) with (2 ^ 63) in H. lia.
Qed.

Definition fresh_page (k : kernel) (c : call) : Prop :=
  match c with CCreate (Some t) _ _ => threads k !! t = None | _ => True end.

(** A thread's own code calls the kernel. *)
Lemma do_call_ok k c :
  sched_ok k -> cur_frames k = [] -> fresh_page k c -> call_misuse k c = false -> ok k (do_call c).
Proof.
  intros I Hf Hp Hm. destruct (call_caller k I Hf) as (th & Hc & Ef).
  destruct c; unfold do_call; unfold call_misuse in Hm; try apply negb_false_iff in Hm.
  - by eapply sema_down_ok.
  - apply ok_discard. by eapply sema_try_down_ok.
  - apply sema_up_ok; [done..|]. intros uh s o fs Hu. rewrite (cl_cur _ _ Hc) in Hu. simplify_eq.
    by rewrite Ef.
  - by eapply lock_acquire_ok.
  - apply ok_discard. by eapply lock_try_acquire_ok.
  - by eapply lock_release_ok.
  - by eapply cond_wait_ok.
  - by eapply cond_signal_ok.
  - by eapply cond_broadcast_ok.
  - eapply thread_yield_ok; [done|apply Hc|apply Hc].
  - by eapply timer_sleep_ok.
  - destruct page; [apply negb_false_iff in Hm; by eapply thread_create_ok|by apply ok_ret].
  - by eapply thread_exit_ok.
  - by eapply thread_set_priority_ok.
  - by eapply block_thread_ok.
  - by eapply unblock_threads_ok.
Qed.

(** *** Misuse panics *)

Lemma bind_panic {A B} (m : K kernel A) (f : A -> K kernel B) k : m k = Panic -> (m ≫= f) k = Panic.
Proof. intros E. unfold mbind, K_bind. by rewrite E. Qed.

Section panics.
Context (k : kernel) (th : thread) (l : positive) (I : sched_ok k) (Hc : caller k th).

Lemma acquire_held_panics : holds k l = true -> lock_acquire l k = Panic.
Proof.
  intros H. unfold lock_acquire. krun. rewrite ASSERT_true by (by rewrite (kv_ext _ (so_inv _ I))).
  kstep (held_ok k th Hc l). by rewrite H.
Qed.
Lemma try_acquire_held_panics : holds k l = true -> lock_try_acquire l k = Panic.
Proof. intros H. unfold lock_try_acquire. kstep (held_ok k th Hc l). by rewrite H. Qed.
Lemma release_free_panics : holds k l = false -> lock_release l k = Panic.
Proof. intros H. unfold lock_release. kstep (held_ok k th Hc l). by rewrite H. Qed.
Lemma wait_free_panics c : holds k l = false -> cond_wait c l k = Panic.
Proof.
  intros H. unfold cond_wait. krun. rewrite ASSERT_true by (by rewrite (kv_ext _ (so_inv _ I))).
  kstep (held_ok k th Hc l). by rewrite H.
Qed.
Lemma signal_free_panics c : holds k l = false -> cond_signal c l k = Panic.
Proof.
  intros H. unfold cond_signal. krun. rewrite ASSERT_true by (by rewrite (kv_ext _ (so_inv _ I))).
  kstep (held_ok k th Hc l). by rewrite H.
Qed.
End panics.

Lemma do_call_panics k c :
  sched_ok k -> cur_frames k = [] -> call_misuse k c = true -> do_call c k = Panic.
Proof.
  intros I Hf Hm. destruct (call_caller k I Hf) as (th & Hc & _).
  destruct c; try done; unfold do_call; unfold call_misuse in Hm; try apply negb_true_iff in Hm.
  - by eapply acquire_held_panics.
  - apply bind_panic. by eapply try_acquire_held_panics.
  - by eapply release_free_panics.
  - by eapply wait_free_panics.
  - by eapply signal_free_panics.
  - unfold timer_sleep. unfold timer_ticks. rewrite bind_assoc. krun. rewrite bind_assoc. krun.
    rewrite bind_assoc. rewrite Hm.
    erewrite bind_ok by (by apply intr_set_level_eq). rewrite ret_bind. by krun.
  - destruct page; [|done]. apply negb_true_iff in Hm. unfold thread_create, init_thread.
    rewrite bind_assoc. by rewrite Hm.
Qed.

Lemma run_frame_panics k f fs :
  sched_ok k -> cur_frames k = f :: fs -> frame_misuse k f = true -> run_frame f k = Panic.
Proof.
  intros I Hf Hm. destruct f; try done; unfold frame_misuse in Hm.
  - destruct (pop_caller k _ fs I Hf) as (th & Ht & Ef & I1 & C1); [done..|]. unfold run_frame. krun.
    kstep (pop_frame_ok k th Ht). rewrite Ef. by apply (acquire_held_panics _ (set_frames fs th)).
  - destruct (pop_caller k _ fs I Hf) as (th & Ht & Ef & I1 & C1); [done..|]. unfold run_frame. krun.
    kstep (pop_frame_ok k th Ht). rewrite Ef. apply negb_true_iff in Hm.
    by apply (release_free_panics _ (set_frames fs th)).
  - apply andb_true_iff in Hm as [Hm1 Hm2]. apply negb_true_iff in Hm1. apply bool_decide_eq_true in Hm2.
    destruct (cur_facts k _ _ I Hf) as (th & Ht & Ef & Hs & Hmg & Hst).
    unfold run_frame. krun. krun. destruct (cond_waiters k c) as [|w ws]; [done|].
    eapply signal_free_panics; [done| |done]. constructor; try done; rewrite ?Ef.
    + by eapply (not_idle k th); [apply I|..].
    + exact Hst.
    + constructor; [done|]. by destruct (tail_stack_ok _ _ _ Hst).
Qed.
