(* ===== verification/SchedProps.v ===== *)
(** Starting the kernel, and what its invariant means: when a step can panic, that
    locks exclude, that wake-ups are not lost, that sleepers wake up on time, that
    threads take turns. *)

From S2P Require Import Prelude KMonad Thread Synch SchedInv SchedSteps SchedSafe.

(** ** Starting *)

(** Runs the functions the running thread is in, and those of the threads that are
    switched to, until one is back in its own code. *)
Fixpoint resume (n : nat) : K kernel unit :=
  match n with
  | O => no_fuel
  | S n' =>
      k ← get;
      match cur_frames k with
      | [] => mret tt
      | f :: _ => run_frame f;; resume n'
      end
  end.

(** [main] from [thread_init] to the return from [thread_start]; [page] becomes the
    idle thread's. *)
Definition boot (main page : tref) (v0 : positive -> Z) : outcome (unit * kernel) :=
  (thread_init;; resume 10;; thread_start (Some page);; resume 30) (reset main v0).

(** The kernel has started: [main] runs its own code, the idle thread sleeps. *)
Record started (main idle : tref) (k : kernel) : Prop := {
  st_threads : exists mh ih, threads k = {[ main := mh; idle := ih ]} /\
    status mh = THREAD_RUNNING /\ frames mh = [] /\ is_thread mh = true /\
    status ih = THREAD_BLOCKED /\ frames ih = [FHalt] /\ is_thread ih = true;
  st_running : running k = main;
  st_idle : idle_thread k = Some idle;
  st_queues : forall q, queue k q = [];
  st_vals : forall s, 0 <= value (semas k s) < 2 ^ 32;
  st_locks : forall l, value (semas k (SLock l)) = 1 /\ holder k l = None;
  st_cond : forall c, cond_waiters k c = [];
  st_ext : in_external_intr k = false
}.

Lemma started_ok main idle k : main <> idle -> started main idle k -> sched_ok k.
Proof.
  intros Hne [(mh & ih & Et & Ms & Mf & Mm & Is & If & Im) Er Ei Hq Hv Hl Hc Hx].
  assert (Hth : forall t th, threads k !! t = Some th -> (t = main /\ th = mh) \/ (t = idle /\ th = ih)).
  { intros t th. rewrite Et, lookup_insert_Some, lookup_singleton_Some. intros [[? ?]|[? [? ?]]]; auto. }
  assert (Hm : threads k !! main = Some mh) by (rewrite Et; apply lookup_insert_eq).
  assert (Hi : threads k !! idle = Some ih).
  { rewrite Et, lookup_insert_ne by done. apply lookup_singleton_eq. }
  constructor; [constructor; [constructor| |done]|].
  - intros t th [[-> ->]|[-> ->]]%Hth; done.
  - split; [exists mh; by rewrite Er|]. intros t th [[-> ->]|[-> ->]]%Hth; [done|congruence].
  - intros q. rewrite Hq. split; [constructor|]. intros t. split; [by intros ?%elem_of_nil|].
    unfold place, place_of. destruct (threads k !! t) as [th|] eqn:E; [|done].
    apply Hth in E as [[-> ->]|[-> ->]]; [by rewrite Ms|by rewrite Is, If].
  - exists idle, ih. split_and!; [done..| |congruence|done]. rewrite If. exists [], FHalt.
    split_and!; [done|by right|done].
  - assert (Hcr : forall t th u, threads k !! t = Some th -> u ∉ creates (frames th)).
    { intros t th u [[-> ->]|[-> ->]]%Hth; rewrite ?Mf, ?If; apply not_elem_of_nil. }
    split_and!; [by intros t th u H ?%(Hcr _ _ _ H)|by intros t th t' th' u H _ ?%(Hcr _ _ _ H)|].
    intros t th [[-> ->]|[-> ->]]%Hth; rewrite ?Mf, ?If; constructor.
  - intros t th [[-> ->]|[-> ->]]%Hth; rewrite ?Mf, ?If; by repeat constructor.
  - intros l. destruct (Hl l) as [E1 E2]. rewrite E1, E2. split_and!; [by right|done|].
    intros t th [[-> ->]|[-> ->]]%Hth; rewrite ?Mf, ?If; done.
  - done.
  - intros s Hs. specialize (Hq (QSema s)). done.
  - intros _ _ th s o fs. rewrite Er. intros [[_ ->]|[-> _]]%Hth; [by rewrite Mf|done].
  - specialize (Hq QSleep). simpl in Hq. rewrite Hq. by intros t th ?%elem_of_nil.
  - intros c w. rewrite Hc. by intros ?%elem_of_nil.
Qed.

Definition booted (v0 : positive -> Z) : kernel :=
  match boot 1 2 v0 with Ok (_, k) => k | _ => reset 1 v0 end.

Lemma boot_started v0 :
  (forall p, 0 <= v0 p < 2 ^ 32) ->
  boot 1 2 v0 = Ok (tt, booted v0) /\ started 1 2 (booted v0) /\ intr_on (booted v0) = true.
Proof.
  intros Hv0. split; [|split; [constructor|by vm_compute]].
  - assert (H : match boot 1 2 v0 with Ok _ => true | _ => false end = true) by (by vm_compute).
    unfold booted. by destruct (boot 1 2 v0) as [[[] k]| |].
  - eexists _, _. split; [vm_compute; reflexivity|]. by split_and!.
  - by vm_compute.
  - by vm_compute.
  - intros [| | |[[]|[]|[]]]; by vm_compute.
  - assert (H : forall p, value (semas (booted v0) (SUser p)) = if decide (p = 1%positive) then 0 else v0 p)
      by (intros []; by vm_compute).
    intros [p|[]|[]]; [rewrite H; destruct (decide _); [done|apply Hv0]|by vm_compute; split..].
  - intros []; by vm_compute; split.
  - intros []; by vm_compute.
  - by vm_compute.
Qed.

(* The started state is only looked at through [boot_started] and by evaluation. *)
#[local] Opaque booted boot.

(** ** Steps *)

Lemma kstep_ok k k' : sched_ok k -> kstep k k' -> sched_ok k'.
Proof.
  intros I Hs. revert I. destruct Hs as [f fs k1 k1' Hf E|c k1 k1' Hf Hp E|k1 k1' Hon E]; intros I.
  - destruct (frame_misuse k1 f) eqn:Hm; [rewrite (run_frame_panics k1 f fs) in E; done|].
    destruct (run_frame_ok k1 f fs I Hf Hm) as (a & k2 & E2 & I2). rewrite E in E2. by simplify_eq.
  - destruct (call_misuse k1 c) eqn:Hm; [rewrite (do_call_panics k1 c) in E; done|].
    destruct (do_call_ok k1 c I Hf Hp Hm) as (a & k2 & E2 & I2). rewrite E in E2. by simplify_eq.
  - destruct (interrupt_ok k1 I Hon) as (k2 & E2 & I2 & _). rewrite E in E2. by simplify_eq.
Qed.

(** What happens next, as an executable choice. *)
Inductive action := AFrame | ACall (c : call) | AInterrupt.
Definition result {A} (r : outcome (A * kernel)) : option kernel :=
  match r with Ok (_, k) => Some k | _ => None end.
Definition page_free (k : kernel) (c : call) : bool :=
  match c with CCreate (Some t) _ _ => bool_decide (threads k !! t = None) | _ => true end.
Definition kexec (a : action) (k : kernel) : option kernel :=
  match a, cur_frames k with
  | AFrame, f :: _ => result (run_frame f k)
  | ACall c, [] =>
      if page_free k c then result (do_call c k) else None
  | AInterrupt, _ => if intr_on k then result (external_interrupt k) else None
  | _, _ => None
  end.
Fixpoint kexecs (l : list action) (k : kernel) : option kernel :=
  match l with
  | [] => Some k
  | a :: l' => match kexec a k with Some k' => kexecs l' k' | None => None end
  end.

Lemma kexec_kstep a k k' : kexec a k = Some k' -> kstep k k'.
Proof.
  unfold kexec. destruct a as [|c|].
  - destruct (cur_frames k) as [|f fs] eqn:Hf; [done|]. intros E.
    destruct (run_frame f k) as [[[] k1]| |] eqn:Er; simplify_eq/=. by eapply kstep_frame.
  - destruct (cur_frames k) as [|f fs] eqn:Hf; [|done]. destruct (page_free k c) eqn:Hp; [|done].
    intros E. destruct (do_call c k) as [[[] k1]| |] eqn:Er; simplify_eq/=.
    eapply kstep_call; [done| |done]. destruct c; try done.
    destruct page; [by apply bool_decide_eq_true in Hp|done].
  - intros E. assert (H : (if intr_on k then result (external_interrupt k) else None) = Some k')
      by (by destruct (cur_frames k)).
    destruct (intr_on k) eqn:Hon; [|done].
    destruct (external_interrupt k) as [[[] k1]| |] eqn:Er; simplify_eq/=. by apply kstep_interrupt.
Qed.
Lemma kexecs_kstep l k k' : kexecs l k = Some k' -> rtc kstep k k'.
Proof.
  revert k. induction l as [|a l IH]; intros k; simpl; [by intros [= ->]|].
  destruct (kexec a k) as [k1|] eqn:E; [|done]. intros H.
  eapply rtc_l; [by eapply kexec_kstep|by apply IH].
Qed.

(** The states of the running system. *)
Definition reachable (k : kernel) : Prop :=
  exists v0, (forall p, 0 <= v0 p < 2 ^ 32) /\ rtc kstep (booted v0) k.

Lemma reachable_ok k : reachable k -> sched_ok k.
Proof.
  intros (v0 & Hv0 & H). destruct (boot_started v0 Hv0) as (_ & Hs & _).
  assert (I : sched_ok (booted v0)) by (by apply (started_ok 1 2)). revert I. clear Hs.
  induction H as [k|k1 k2 k3 Hs _ IH]; [done|]. intros I. apply IH. by eapply kstep_ok.
Qed.

(** Runs of the example programs below, from the start of the system. *)
Definition example (l : list action) : kernel :=
  match kexecs l (booted (fun _ => 0)) with Some k => k | None => booted (fun _ => 0) end.
Lemma example_eq l :
  match kexecs l (booted (fun _ => 0)) with Some _ => true | None => false end = true ->
  kexecs l (booted (fun _ => 0)) = Some (example l).
Proof. unfold example. by destruct (kexecs l _). Qed.
Lemma example_reachable l :
  match kexecs l (booted (fun _ => 0)) with Some _ => true | None => false end = true ->
  reachable (example l).
Proof.
  intros H. exists (fun _ => 0). split; [done|]. unfold example.
  destruct (kexecs l _) as [k|] eqn:E; [|done]. by eapply kexecs_kstep.
Qed.

(** [main] creates thread 3. *)
Definition ex_create : list action := ACall (CCreate (Some 3%positive) [97] 31) :: replicate 9 AFrame.
(** [main] takes lock 5; thread 3 waits for it. *)
Definition ex_lock : list action :=
  ex_create ++ [ACall (CLockAcquire 5); AFrame; AFrame; AFrame; ACall CYield; AFrame;
                ACall (CLockAcquire 5); AFrame; AFrame].
(** [main] sleeps for two ticks, thread 3 for five; one tick has passed. *)
Definition ex_sleep : list action :=
  ex_create ++ [ACall (CSleep 2); AFrame; ACall (CSleep 5); AFrame; AInterrupt].

Lemma Ok_state (k k' : kernel) : Ok (tt, k) = Ok (tt, k') -> k = k'.
Proof. by intros [= ->]. Qed.

(** ** Properties *)

(** C9: From the start of the system, through every interleaving of the threads' calls, the
    remaining parts of kernel functions and timer interrupts, the scheduler's invariant holds:
    exactly one thread runs, every ready, sleeping or waiting thread is in exactly the list its
    state says, once, the idle thread is in none, and the state of the locks and semaphores is
    consistent. *)
Theorem kernel_invariant v0 k0 k :
  (forall p, 0 <= v0 p < 2 ^ 32) -> boot 1 2 v0 = Ok (tt, k0) -> rtc kstep k0 k ->
  sched_ok k /\ forall t q, t ∈ queue k q <-> place k t = Some q.
Proof.
  intros Hv0 Hb Hr. assert (I : sched_ok k).
  { apply reachable_ok. exists v0. split; [done|]. destruct (boot_started v0 Hv0) as (E & _).
    by rewrite <- (Ok_state _ _ (eq_trans (eq_sym Hb) E)). }
  split; [exact I|]. intros t q. apply (ki_queues _ _ (kv_core _ (so_inv _ I))).
Qed.
Lemma kernel_invariant_witness :
  sched_ok (example ex_lock) /\
  forall t q, t ∈ queue (example ex_lock) q <-> place (example ex_lock) t = Some q.
Proof.
  apply (kernel_invariant (fun _ => 0) (booted (fun _ => 0)));
    [intros p; split; [apply Z.le_refl|reflexivity]|apply boot_started; intros p; split; [apply Z.le_refl|reflexivity]|].
  apply (kexecs_kstep ex_lock), example_eq. vm_compute. reflexivity.
Defined.


(** C10: The kernel fails an assertion in no state it can reach, except where a documented
    precondition is violated: acquiring a lock one holds, releasing, waiting or signalling without
    holding the lock, sleeping with interrupts off, creating a thread with a bad priority.
    Everything else, the timer interrupt and every switch included, succeeds. *)
Theorem panics_only_on_misuse k :
  reachable k ->
  (forall f fs, cur_frames k = f :: fs ->
     if frame_misuse k f then run_frame f k = Panic else exists k', run_frame f k = Ok (tt, k')) /\
  (forall c, cur_frames k = [] -> fresh_page k c ->
     if call_misuse k c then do_call c k = Panic else exists k', do_call c k = Ok (tt, k')) /\
  (intr_on k = true -> exists k', external_interrupt k = Ok (tt, k')).
Proof.
  intros I%reachable_ok. split_and!.
  - intros f fs Hf. destruct (frame_misuse k f) eqn:Hm; [by eapply run_frame_panics|].
    destruct (run_frame_ok k f fs I Hf Hm) as ([] & k' & E & _). eauto.
  - intros c Hf Hp. destruct (call_misuse k c) eqn:Hm; [by apply do_call_panics|].
    destruct (do_call_ok k c I Hf Hp Hm) as ([] & k' & E & _). eauto.
  - intros Hon. destruct (interrupt_ok k I Hon) as (k' & E & _). eauto.
Qed.
Lemma panics_only_on_misuse_witness :
  call_misuse (example []) (CLockRelease 5) = true /\ do_call (CLockRelease 5) (example []) = Panic.
Proof.
  assert (H : call_misuse (example []) (CLockRelease 5) = true) by (vm_compute; reflexivity).
  split; [exact H|].
  assert (R : reachable (example [])) by (apply example_reachable; vm_compute; reflexivity).
  pose proof (proj1 (proj2 (panics_only_on_misuse (example []) R)) (CLockRelease 5)) as P.
  rewrite H in P. apply P; [vm_compute; reflexivity|exact Logic.I].
Defined.


(** A thread owns a lock from its [sema_down] in [lock_acquire] to its [sema_up] in
    [lock_release]. *)
Definition owner (k : kernel) (l : positive) (t : tref) : Prop :=
  holder k l = Some t \/ exists th, threads k !! t = Some th /\ tok l (frames th) <> 0%nat.

(** C11: Locks exclude: at any time at most one thread owns a lock, and while one does the value
    of the lock's semaphore is zero, so that no other thread passes [lock_acquire]. *)
Theorem lock_mutual_exclusion k l t u :
  reachable k -> owner k l t -> owner k l u -> t = u /\ value (semas k (SLock l)) = 0.
Proof.
  intros I%reachable_ok Ht Hu.
  destruct (ki_lock _ _ (kv_core _ (so_inv _ I)) l) as (_ & H1 & H2).
  destruct Ht as [Ht|(th & Ht & Hk)].
  - destruct H1 as [Hv Hz]; [congruence|]. split; [|done].
    destruct Hu as [Hu|(uh & Hu & Hk)]; [congruence|]. by rewrite (Hz u uh Hu) in Hk.
  - destruct (H2 t th Ht Hk) as (Hv & _ & Hh & Ho). split; [|done].
    destruct Hu as [Hu|(uh & Hu & Hk')]; [congruence|]. destruct (decide (t = u)) as [|Hne]; [done|].
    by rewrite (Ho u uh Hu) in Hk' by auto.
Qed.
Lemma lock_mutual_exclusion_witness :
  holder (example ex_lock) 5 = Some 1%positive /\ value (semas (example ex_lock) (SLock 5)) = 0.
Proof.
  assert (H : holder (example ex_lock) 5 = Some 1%positive) by (vm_compute; reflexivity).
  split; [exact H|].
  apply (lock_mutual_exclusion (example ex_lock) 5 1 1);
    [apply example_reachable; vm_compute; reflexivity|left; exact H|left; exact H].
Defined.


(** C12: Wake-ups are not lost: while threads wait for a semaphore, each of them blocked in
    [sema_down] of it, its value is at most the number of threads that have been woken up and are
    about to test it again.  So a positive value never leaves all waiters asleep. *)
Theorem no_lost_wakeups k s t :
  reachable k -> t ∈ waiters (semas k s) ->
  (exists th old fs, threads k !! t = Some th /\ status th = THREAD_BLOCKED /\
     frames th = FSemaDown s old :: fs) /\
  exists ws, NoDup ws /\ (forall u, u ∈ ws -> woken (threads k) s u) /\
    value (semas k s) <= Z.of_nat (length ws).
Proof.
  intros I%reachable_ok Ht. pose proof (kv_core _ (so_inv _ I)) as C. split.
  - destruct (queue_thread k (QSema s) t C Ht) as (th & Hth & _ & Hb & Hp & _); [done|].
    unfold place, place_of in Hp. rewrite Hth, Hb in Hp.
    destruct (frames th) as [|[] fs] eqn:Ef; simplify_eq/=. eauto 10.
  - apply (ki_wake _ _ C). intros E. rewrite E in Ht. by apply elem_of_nil in Ht.
Qed.
Lemma no_lost_wakeups_witness :
  exists ws, NoDup ws /\ (forall u, u ∈ ws -> woken (threads (example ex_lock)) (SLock 5) u) /\
    value (semas (example ex_lock) (SLock 5)) <= Z.of_nat (length ws).
Proof.
  apply (no_lost_wakeups (example ex_lock) (SLock 5) 3);
    [apply example_reachable; vm_compute; reflexivity|].
  assert (H : waiters (semas (example ex_lock) (SLock 5)) = [3%positive]) by (vm_compute; reflexivity).
  rewrite H. left.
Defined.


(** C13: A timer interrupt always succeeds, advances the clock by one, and wakes up exactly the
    sleeping threads whose time has come, whatever [next_tick_to_wakeup] saves it from looking at:
    those are ready or running afterwards, the others stay asleep in their order. *)
Theorem sleepers_wake_on_time k :
  reachable k -> intr_on k = true ->
  exists k', external_interrupt k = Ok (tt, k') /\ ticks k' = s64 (ticks k + 1) /\
    sleep_list k' = filter (fun t => ticks k' < tick_of k t) (sleep_list k) /\
    (forall t, t ∈ sleep_list k -> tick_of k t <= ticks k' -> awake k' t).
Proof.
  intros I%reachable_ok Hon. destruct (interrupt_ok k I Hon) as (k' & E & _ & H). by exists k'.
Qed.
Lemma sleepers_wake_on_time_witness :
  sleep_list (example ex_sleep) = [1; 3]%positive /\
  exists k', external_interrupt (example ex_sleep) = Ok (tt, k') /\
    sleep_list k' = filter (fun t => ticks k' < tick_of (example ex_sleep) t) (sleep_list (example ex_sleep)).
Proof.
  split; [vm_compute; reflexivity|].
  destruct (sleepers_wake_on_time (example ex_sleep)) as (k' & E & _ & Hs & _);
    [apply example_reachable; vm_compute; reflexivity|vm_compute; reflexivity|].
  exists k'. split; [exact E|exact Hs].
Defined.


(** Threads take turns: a thread that yields goes to the end of the ready list, and the
    processor to the first thread of it. *)
Theorem yield_round_robin k :
  reachable k -> cur_frames k = [] ->
  exists k', thread_yield k = Ok (tt, k') /\ running k' :: ready_list k' = ready_list k ++ [running k].
Proof.
  intros I%reachable_ok Hf. destruct (call_caller k I Hf) as (th & Hc & _).
  destruct (yield_facts k th I) as (k' & E & _ & _ & _ & Hr); [apply Hc..|]. exists k'. split; [done|].
  rewrite bool_decide_eq_false_2 in Hr by (destruct Hc; congruence).
  destruct (ready_list k ++ [running k]) as [|t rest] eqn:El; [by destruct (ready_list k)|].
  destruct Hr as [<- <-]. done.
Qed.
Lemma yield_round_robin_witness :
  exists k', thread_yield (example ex_create) = Ok (tt, k') /\
    running k' :: ready_list k' = [3; 1]%positive.
Proof.
  assert (H : ready_list (example ex_create) ++ [running (example ex_create)] = [3; 1]%positive)
    by (vm_compute; reflexivity).
  rewrite <- H. apply yield_round_robin;
    [apply example_reachable; vm_compute; reflexivity|vm_compute; reflexivity].
Defined.

