(* ===== verification/CString.v ===== *)
(** Blocks of bytes and strings (lib/string.c).

    Memory is a function from addresses to bytes; an address is a [Z] and the null
    pointer is 0.  A loop that runs to the end of a string takes [fuel], a bound on
    its rounds: a string of [n] characters needs [n + 1]. *)

From S2P Require Import Prelude KMonad.

Definition ram_t : Type := Z -> Z.
Definition upd (a v : Z) (m : ram_t) : ram_t := fun x => if x =? a then v else m x.
Definition load (a : Z) : K ram_t Z := gets (fun m => m a).
Definition store (a v : Z) : K ram_t unit := modify (upd a v).

(** ** Blocks of bytes *)

Definition block_arg (a size : Z) : K ram_t unit := ASSERT (negb (a =? 0) || (size =? 0)).

Fixpoint copy_up (n : nat) (dst src : Z) : K ram_t unit :=
  match n with
  | O => mret tt
  | S n' => c ← load src; store dst c;; copy_up n' (dst + 1) (src + 1)
  end.
Fixpoint copy_down (n : nat) (dst src : Z) : K ram_t unit :=
  match n with
  | O => mret tt
  | S n' => c ← load (src - 1); store (dst - 1) c;; copy_down n' (dst - 1) (src - 1)
  end.

Definition memcpy (dst src size : Z) : K ram_t Z :=
  block_arg dst size;; block_arg src size;;
  copy_up (Z.to_nat size) dst src;;
  mret dst.

(** The result is the moved pointer, not the argument. *)
Definition memmove (dst src size : Z) : K ram_t Z :=
  block_arg dst size;; block_arg src size;;
  if dst <? src
  then copy_up (Z.to_nat size) dst src;; mret (dst + size)
  else copy_down (Z.to_nat size) (dst + size) (src + size);; mret dst.

Fixpoint cmp_loop (n : nat) (a b : Z) : K ram_t Z :=
  match n with
  | O => mret 0
  | S n' =>
      x ← load a; y ← load b;
      if negb (x =? y) then mret (if y <? x then 1 else -1) else cmp_loop n' (a + 1) (b + 1)
  end.
Definition memcmp (a b size : Z) : K ram_t Z :=
  block_arg a size;; block_arg b size;; cmp_loop (Z.to_nat size) a b.

Fixpoint memchr_loop (n : nat) (block ch : Z) : K ram_t Z :=
  match n with
  | O => mret 0
  | S n' => x ← load block; if x =? ch then mret block else memchr_loop n' (block + 1) ch
  end.
Definition memchr (block ch_ size : Z) : K ram_t Z :=
  block_arg block size;; memchr_loop (Z.to_nat size) block (u8 ch_).

Fixpoint set_bytes (n : nat) (dst v : Z) : K ram_t unit :=
  match n with
  | O => mret tt
  | S n' => store dst (u8 v);; set_bytes n' (dst + 1) v
  end.
Definition memset (dst value size : Z) : K ram_t Z :=
  block_arg dst size;; set_bytes (Z.to_nat size) dst value;; mret dst.

(** ** Strings *)

Fixpoint strcmp_loop (fuel : nat) (a b : Z) : K ram_t Z :=
  match fuel with
  | O => no_fuel
  | S fuel' =>
      x ← load a; y ← load b;
      if negb (x =? 0) && (x =? y) then strcmp_loop fuel' (a + 1) (b + 1)
      else mret (if x <? y then -1 else if y <? x then 1 else 0)
  end.
Definition strcmp (fuel : nat) (a b : Z) : K ram_t Z :=
  ASSERT (negb (a =? 0));; ASSERT (negb (b =? 0));; strcmp_loop fuel a b.

Fixpoint strchr_loop (fuel : nat) (string c : Z) : K ram_t Z :=
  match fuel with
  | O => no_fuel
  | S fuel' =>
      x ← load string;
      if x =? c then mret string else if x =? 0 then mret 0 else strchr_loop fuel' (string + 1) c
  end.
Definition strchr (fuel : nat) (string c_ : Z) : K ram_t Z :=
  ASSERT (negb (string =? 0));; strchr_loop fuel string (u8 c_).

(** [strcspn] and [strspn] stop at a character that is, or is not, in the set. *)
Fixpoint span_loop (fuel fuel2 : nat) (stop_if : bool) (string set length : Z) : K ram_t Z :=
  match fuel with
  | O => no_fuel
  | S fuel' =>
      x ← load (string + length);
      if x =? 0 then mret length
      else
        p ← strchr fuel2 set x;
        if Bool.eqb (negb (p =? 0)) stop_if then mret length
        else span_loop fuel' fuel2 stop_if string set (length + 1)
  end.
Definition strcspn (fuel : nat) (string stop : Z) : K ram_t Z := span_loop fuel fuel true string stop 0.
Definition strspn (fuel : nat) (string skip : Z) : K ram_t Z := span_loop fuel fuel false string skip 0.

Fixpoint strpbrk_loop (fuel fuel2 : nat) (string stop : Z) : K ram_t Z :=
  match fuel with
  | O => no_fuel
  | S fuel' =>
      x ← load string;
      if x =? 0 then mret 0
      else p ← strchr fuel2 stop x; if negb (p =? 0) then mret string else strpbrk_loop fuel' fuel2 (string + 1) stop
  end.
Definition strpbrk (fuel : nat) (string stop : Z) : K ram_t Z := strpbrk_loop fuel fuel string stop.

Fixpoint strrchr_loop (fuel : nat) (string c p : Z) : K ram_t Z :=
  match fuel with
  | O => no_fuel
  | S fuel' =>
      x ← load string;
      if x =? 0 then mret p else strrchr_loop fuel' (string + 1) c (if x =? c then string else p)
  end.
Definition strrchr (fuel : nat) (string c_ : Z) : K ram_t Z := strrchr_loop fuel string (u8 c_) 0.

Fixpoint strlen_loop (fuel : nat) (p : Z) : K ram_t Z :=
  match fuel with
  | O => no_fuel
  | S fuel' => x ← load p; if negb (x =? 0) then strlen_loop fuel' (p + 1) else mret p
  end.
Definition strlen (fuel : nat) (string : Z) : K ram_t Z :=
  ASSERT (negb (string =? 0));; p ← strlen_loop fuel string; mret (p - string).

(** The bound [maxlen] is the fuel. *)
Fixpoint strnlen_loop (n : nat) (string length : Z) : K ram_t Z :=
  match n with
  | O => mret length
  | S n' => x ← load (string + length); if x =? 0 then mret length else strnlen_loop n' string (length + 1)
  end.
Definition strnlen (string maxlen : Z) : K ram_t Z := strnlen_loop (Z.to_nat maxlen) string 0.

Fixpoint strstr_loop (n : nat) (haystack needle needle_len i : Z) : K ram_t Z :=
  match n with
  | O => mret 0
  | S n' =>
      r ← memcmp (haystack + i) needle needle_len;
      if r =? 0 then mret (haystack + i) else strstr_loop n' haystack needle needle_len (i + 1)
  end.
Definition strstr (fuel : nat) (haystack needle : Z) : K ram_t Z :=
  haystack_len ← strlen fuel haystack;
  needle_len ← strlen fuel needle;
  if needle_len <=? haystack_len
  then strstr_loop (Z.to_nat (haystack_len - needle_len + 1)) haystack needle needle_len 0
  else mret 0.

(** The loops of [strtok_r] that skip delimiters ([None] at the end of the string)
    and other characters. *)
Fixpoint skip_delims (fuel fuel2 : nat) (s delimiters : Z) : K ram_t (bool * Z) :=
  match fuel with
  | O => no_fuel
  | S fuel' =>
      x ← load s;
      p ← strchr fuel2 delimiters x;
      if p =? 0 then mret (true, s)
      else if x =? 0 then mret (false, s) else skip_delims fuel' fuel2 (s + 1) delimiters
  end.
Fixpoint skip_others (fuel fuel2 : nat) (s delimiters : Z) : K ram_t Z :=
  match fuel with
  | O => no_fuel
  | S fuel' =>
      x ← load s;
      p ← strchr fuel2 delimiters x;
      if p =? 0 then skip_others fuel' fuel2 (s + 1) delimiters else mret s
  end.

(** The variable at [save_ptr] is passed and returned: the result is the token and
    the new value of the variable. *)
Definition strtok_r (fuel : nat) (s delimiters save : Z) : K ram_t (Z * Z) :=
  ASSERT (negb (delimiters =? 0));;
  let s := if s =? 0 then save else s in
  ASSERT (negb (s =? 0));;
  '(more, s) ← skip_delims fuel fuel s delimiters;
  if negb more then mret (0, s)
  else
    let token := s in
    s ← skip_others fuel fuel s delimiters;
    x ← load s;
    if negb (x =? 0) then store s 0;; mret (token, s + 1) else mret (token, s).

Definition strlcpy (fuel : nat) (dst src size : Z) : K ram_t Z :=
  ASSERT (negb (dst =? 0));; ASSERT (negb (src =? 0));;
  src_len ← strlen fuel src;
  (if 0 <? size
   then
     let dst_len := size - 1 in
     let dst_len := if src_len <? dst_len then src_len else dst_len in
     memcpy dst src dst_len;; store (dst + dst_len) 0
   else mret tt);;
  mret src_len.

Definition strlcat (fuel : nat) (dst src size : Z) : K ram_t Z :=
  ASSERT (negb (dst =? 0));; ASSERT (negb (src =? 0));;
  src_len ← strlen fuel src;
  dst_len ← strlen fuel dst;
  (if (0 <? size) && (dst_len <? size)
   then
     let copy_cnt := size - dst_len - 1 in
     let copy_cnt := if src_len <? copy_cnt then src_len else copy_cnt in
     memcpy (dst + dst_len) src copy_cnt;; store (dst + dst_len + copy_cnt) 0
   else mret tt);;
  mret (u32 (src_len + dst_len)).

(** ** Blocks: what the loops do *)

(** [n] bytes from [src] of [m] are put at [dst]. *)
Definition copied (dst src n : Z) (m : ram_t) : ram_t :=
  fun x => if within dst n x then m (x - dst + src) else m x.
Definition memset_ram (a v n : Z) (m : ram_t) : ram_t := fun x => if within a n x then v else m x.

Ltac by_within := unfold copied, memset_ram, upd, within; case_cmp; simpl; try done; try (f_equal; lia); try lia.

Lemma copy_up_ok n dst src m :
  dst <= src \/ src + Z.of_nat n <= dst ->
  exists m', copy_up n dst src m = Ok (tt, m') /\ forall x, m' x = copied dst src (Z.of_nat n) m x.
Proof.
  revert dst src m. induction n as [|n IH]; intros dst src m H.
  - exists m. split; [done|]. intros x. by_within.
  - destruct (IH (dst + 1) (src + 1) (upd dst (m src) m)) as (m' & E & Hm'); [lia|].
    exists m'. split; [exact E|]. intros x. rewrite Hm'. by_within.
Qed.

Lemma copy_down_ok n dst src m :
  src <= dst ->
  exists m', copy_down n dst src m = Ok (tt, m') /\
    forall x, m' x = copied (dst - Z.of_nat n) (src - Z.of_nat n) (Z.of_nat n) m x.
Proof.
  revert dst src m. induction n as [|n IH]; intros dst src m H.
  - exists m. split; [done|]. intros x. by_within.
  - destruct (IH (dst - 1) (src - 1) (upd (dst - 1) (m (src - 1)) m)) as (m' & E & Hm'); [lia|].
    exists m'. split; [exact E|]. intros x. rewrite Hm'. by_within.
Qed.

Lemma set_bytes_ok n dst v m :
  exists m', set_bytes n dst v m = Ok (tt, m') /\ forall x, m' x = memset_ram dst (u8 v) (Z.of_nat n) m x.
Proof.
  revert dst m. induction n as [|n IH]; intros dst m.
  - exists m. split; [done|]. intros x. by_within.
  - destruct (IH (dst + 1) (upd dst (u8 v) m)) as (m' & E & Hm').
    exists m'. split; [exact E|]. intros x. rewrite Hm'. by_within.
Qed.

Lemma block_arg_ok a size {A} (k : K ram_t A) m : a <> 0 -> (block_arg a size;; k) m = k m.
Proof. intros H. unfold block_arg. by rewrite (proj2 (Z.eqb_neq a 0) H). Qed.

Lemma memcpy_ok dst src n m :
  dst <> 0 -> src <> 0 -> 0 <= n -> dst <= src \/ src + n <= dst ->
  exists m', memcpy dst src n m = Ok (dst, m') /\ forall x, m' x = copied dst src n m x.
Proof.
  intros Hd Hs Hn H. unfold memcpy. rewrite !block_arg_ok by done.
  destruct (copy_up_ok (Z.to_nat n) dst src m) as (m' & E & Hm'); [lia|].
  rewrite (bind_ok _ _ _ _ _ E). exists m'. split; [done|]. by rewrite Z2Nat.id in Hm' by lia.
Qed.

Lemma memset_ok dst v n m :
  dst <> 0 -> 0 <= n ->
  exists m', memset dst v n m = Ok (dst, m') /\ forall x, m' x = memset_ram dst (u8 v) n m x.
Proof.
  intros Hd Hn. unfold memset. rewrite !block_arg_ok by done.
  destruct (set_bytes_ok (Z.to_nat n) dst v m) as (m' & E & Hm').
  rewrite (bind_ok _ _ _ _ _ E). exists m'. split; [done|]. by rewrite Z2Nat.id in Hm' by lia.
Qed.

Lemma memmove_ok dst src n m :
  dst <> 0 -> src <> 0 -> 0 <= n ->
  exists m', memmove dst src n m = Ok (if dst <? src then dst + n else dst, m') /\
    forall x, m' x = copied dst src n m x.
Proof.
  intros Hd Hs Hn. unfold memmove. rewrite !block_arg_ok by done. destruct (Z.ltb_spec dst src).
  - destruct (copy_up_ok (Z.to_nat n) dst src m) as (m' & E & Hm'); [lia|].
    rewrite (bind_ok _ _ _ _ _ E). exists m'. split; [done|]. by rewrite Z2Nat.id in Hm' by lia.
  - destruct (copy_down_ok (Z.to_nat n) (dst + n) (src + n) m) as (m' & E & Hm'); [lia|].
    rewrite (bind_ok _ _ _ _ _ E). exists m'. split; [done|].
    intros x. rewrite Hm', Z2Nat.id by lia. by_within.
Qed.

(** ** Strings in memory *)

Fixpoint holds (m : ram_t) (a : Z) (l : list Z) : Prop :=
  match l with
  | [] => True
  | c :: l' => m a = c /\ holds m (a + 1) l'
  end.

Abbreviation len l := (Z.of_nat (length l)).
Abbreviation character c := (0 < c < 256).

(** The string [l] is at [a]. *)
Definition cstr (m : ram_t) (a : Z) (l : list Z) : Prop :=
  holds m a (l ++ [0]) /\ Forall (fun c => character c) l.

Lemma holds_app m a l1 l2 : holds m a (l1 ++ l2) <-> holds m a l1 /\ holds m (a + len l1) l2.
Proof.
  revert a. induction l1 as [|c l1 IH]; intros a; simpl.
  - rewrite Z.add_0_r. tauto.
  - rewrite IH. replace (a + Z.of_nat (S (length l1))) with (a + 1 + len l1) by lia. tauto.
Qed.
Lemma holds_agree m m' a l :
  (forall x, a <= x < a + len l -> m' x = m x) -> holds m a l -> holds m' a l.
Proof.
  revert a. induction l as [|c l IH]; intros a H; simpl; [done|]. simpl in H. intros [H1 H2]. split.
  - by rewrite H by lia.
  - apply IH; [|done]. intros x Hx. apply H. lia.
Qed.
Lemma holds_lookup m a l i c : holds m a l -> l !! i = Some c -> m (a + Z.of_nat i) = c.
Proof.
  revert a i. induction l as [|d l IH]; intros a i; [done|]. intros [H1 H2]. destruct i as [|i]; simpl.
  - intros [= <-]. by rewrite Z.add_0_r.
  - intros Hi. rewrite <- (IH (a + 1) i H2 Hi). f_equal. lia.
Qed.
Lemma holds_intro m a l : (forall i c, l !! i = Some c -> m (a + Z.of_nat i) = c) -> holds m a l.
Proof.
  revert a. induction l as [|d l IH]; intros a H; [done|]. split.
  - rewrite <- (H O d eq_refl). f_equal. lia.
  - apply IH. intros i c Hi. rewrite <- (H (S i) c Hi). f_equal. lia.
Qed.

Lemma cstr_nil m a : cstr m a [] <-> m a = 0.
Proof. unfold cstr. simpl. split; [tauto|]. done. Qed.
Lemma cstr_cons m a c l : cstr m a (c :: l) <-> m a = c /\ character c /\ cstr m (a + 1) l.
Proof. unfold cstr. simpl. rewrite Forall_cons. tauto. Qed.
Lemma cstr_app m a l1 l2 : cstr m a (l1 ++ l2) -> cstr m (a + len l1) l2.
Proof. unfold cstr. rewrite <- app_assoc, holds_app, Forall_app. tauto. Qed.
Lemma cstr_agree m m' a l : (forall x, a <= x <= a + len l -> m' x = m x) -> cstr m a l -> cstr m' a l.
Proof.
  intros H [H1 H2]. split; [|done]. apply (holds_agree m); [|done].
  rewrite length_app. simpl. intros x Hx. apply H. lia.
Qed.

Section strings.
Context (m : ram_t).

Lemma strlen_loop_ok fuel p l : cstr m p l -> (length l < fuel)%nat -> strlen_loop fuel p m = Ok (p + len l, m).
Proof.
  revert p fuel. induction l as [|c l IH]; intros p [|fuel] H Hf; simpl in Hf; try lia; simpl.
  - apply cstr_nil in H. unfold mbind, K_bind. simpl. rewrite H. simpl. by rewrite Z.add_0_r.
  - apply cstr_cons in H as (H1 & H2 & H3). unfold mbind, K_bind. simpl. rewrite H1.
    rewrite (proj2 (Z.eqb_neq c 0)) by lia. simpl. rewrite IH by (done || lia). do 2 f_equal. lia.
Qed.
Lemma strlen_ok fuel a l :
  a <> 0 -> cstr m a l -> (length l < fuel)%nat -> strlen fuel a m = Ok (len l, m).
Proof.
  intros Ha H Hf. unfold strlen. rewrite ASSERT_true by (by rewrite (proj2 (Z.eqb_neq a 0))).
  rewrite (bind_ok _ _ _ _ _ (strlen_loop_ok fuel a l H Hf)). unfold mret, K_ret. do 2 f_equal. lia.
Qed.

Lemma strnlen_loop_ok n a k l :
  cstr m (a + k) l -> strnlen_loop n a k m = Ok (k + Z.min (len l) (Z.of_nat n), m).
Proof.
  revert k l. induction n as [|n IH]; intros k l H; simpl.
  - unfold mret, K_ret. do 2 f_equal. lia.
  - unfold mbind, K_bind. simpl. destruct l as [|c l].
    + apply cstr_nil in H. rewrite H. simpl. unfold mret, K_ret. do 2 f_equal. lia.
    + apply cstr_cons in H as (H1 & H2 & H3). rewrite H1, (proj2 (Z.eqb_neq c 0)) by lia.
      rewrite (IH (k + 1) l) by (by rewrite Z.add_assoc). do 2 f_equal. simpl. lia.
Qed.
Lemma strnlen_ok a l n : cstr m a l -> 0 <= n -> strnlen a n m = Ok (Z.min (len l) n, m).
Proof.
  intros H Hn. unfold strnlen. rewrite (strnlen_loop_ok _ a 0 l) by (by rewrite Z.add_0_r).
  do 2 f_equal. lia.
Qed.

(** The position of the first [c] in a list, as an address of the string at [a]. *)
Definition find_char (c a : Z) (l : list Z) : Z :=
  match list_find (fun x => x = c) l with Some (i, _) => a + Z.of_nat i | None => 0 end.

Lemma find_char_cons c a d l :
  0 <= a -> find_char c a (d :: l) = if d =? c then a else find_char c (a + 1) l.
Proof.
  intros Ha. unfold find_char. simpl. destruct (Z.eqb_spec d c); simpl.
  - rewrite decide_True by done. lia.
  - rewrite decide_False by done. destruct (list_find _ l) as [[i x]|]; simpl; [lia|done].
Qed.

Lemma strchr_loop_ok fuel a c l :
  0 < a -> cstr m a l -> (length l < fuel)%nat -> strchr_loop fuel a c m = Ok (find_char c a (l ++ [0]), m).
Proof.
  revert a fuel. induction l as [|d l IH]; intros a [|fuel] Ha H Hf; simpl in Hf; try lia; simpl app;
    rewrite find_char_cons by lia; simpl; unfold mbind, K_bind; simpl.
  - apply cstr_nil in H. rewrite H. by destruct c.
  - apply cstr_cons in H as (H1 & H2 & H3). rewrite H1. destruct (d =? c); [done|].
    rewrite (proj2 (Z.eqb_neq d 0)) by lia. apply IH; [lia|done|lia].
Qed.
Lemma strchr_ok fuel a c l :
  0 < a -> 0 <= c < 256 -> cstr m a l -> (length l < fuel)%nat ->
  strchr fuel a c m = Ok (find_char c a (l ++ [0]), m).
Proof.
  intros Ha Hc H Hf. unfold strchr. rewrite ASSERT_true by (by rewrite (proj2 (Z.eqb_neq a 0)) by lia).
  rewrite wrapu_small by done. by apply strchr_loop_ok.
Qed.

Lemma find_char_null c a l : 0 < a -> find_char c a l = 0 <-> c ∉ l.
Proof.
  intros Ha. unfold find_char. destruct (list_find _ l) as [[i x]|] eqn:E.
  - apply list_find_Some in E as (H1 & -> & _). split; [lia|]. intros H. destruct H. by eapply list_elem_of_lookup_2.
  - apply list_find_None in E. rewrite Forall_forall in E. split; [|done]. intros _ H. by apply (E c).
Qed.
Lemma strchr_null fuel a c l :
  0 < a -> 0 <= c < 256 -> cstr m a l -> (length l < fuel)%nat ->
  exists p, strchr fuel a c m = Ok (p, m) /\ (p =? 0) = negb (bool_decide (c = 0 \/ c ∈ l)).
Proof.
  intros Ha Hc H Hf. rewrite (strchr_ok fuel a c l) by done. eexists. split; [done|].
  pose proof (find_char_null c a (l ++ [0]) Ha) as Hn. rewrite elem_of_app, list_elem_of_singleton in Hn.
  case_bool_decide; simpl.
  - apply Z.eqb_neq. tauto.
  - apply Z.eqb_eq. tauto.
Qed.
End strings.

(** ** Comparing *)

Fixpoint lex (l1 l2 : list Z) : Z :=
  match l1, l2 with
  | [], [] => 0
  | [], _ => -1
  | _, [] => 1
  | c :: l1', d :: l2' => if c =? d then lex l1' l2' else if c <? d then -1 else 1
  end.

Lemma lex_zero l1 l2 : lex l1 l2 = 0 <-> l1 = l2.
Proof.
  revert l2. induction l1 as [|c l1 IH]; intros [|d l2]; simpl; try done.
  destruct (Z.eqb_spec c d) as [->|Hne].
  - rewrite IH. split; [by intros ->|by intros [= ->]].
  - split; [by destruct (c <? d)|]. intros [= -> _]. done.
Qed.

Lemma strcmp_loop_ok m fuel a b l1 l2 :
  cstr m a l1 -> cstr m b l2 -> (length l1 < fuel)%nat -> strcmp_loop fuel a b m = Ok (lex l1 l2, m).
Proof.
  revert a b l2 fuel. induction l1 as [|c l1 IH]; intros a b l2 [|fuel] Ha Hb Hf; simpl in Hf; try lia;
    simpl; unfold mbind, K_bind; simpl.
  - apply cstr_nil in Ha. rewrite Ha. destruct l2 as [|d l2].
    + apply cstr_nil in Hb. by rewrite Hb.
    + apply cstr_cons in Hb as (-> & Hd & _). simpl. by case_cmp.
  - apply cstr_cons in Ha as (-> & Hc & Ha). rewrite (proj2 (Z.eqb_neq c 0)) by lia. destruct l2 as [|d l2].
    + apply cstr_nil in Hb. rewrite Hb. simpl. by case_cmp.
    + apply cstr_cons in Hb as (-> & Hd & Hb). simpl. destruct (Z.eqb_spec c d) as [->|Hne].
      * apply IH; [done..|lia].
      * by case_cmp.
Qed.
Lemma strcmp_ok m fuel a b l1 l2 :
  a <> 0 -> b <> 0 -> cstr m a l1 -> cstr m b l2 -> (length l1 < fuel)%nat ->
  strcmp fuel a b m = Ok (lex l1 l2, m).
Proof.
  intros Ha Hb. unfold strcmp. rewrite !ASSERT_true; [apply strcmp_loop_ok|..];
    by rewrite (proj2 (Z.eqb_neq _ _)).
Qed.

Lemma cmp_loop_ok m a b l :
  holds m b l -> exists r, cmp_loop (length l) a b m = Ok (r, m) /\ (r = 0 <-> holds m a l).
Proof.
  revert a b. induction l as [|c l IH]; intros a b; simpl; [by eexists|].
  intros [Hc H]. unfold mbind, K_bind. simpl. rewrite Hc. destruct (Z.eqb_spec (m a) c) as [Ea|Ea]; simpl.
  - destruct (IH (a + 1) (b + 1) H) as (r & E & Hr). exists r. split; [done|]. tauto.
  - eexists. split; [done|]. split; [by destruct (c <? m a)|]. tauto.
Qed.
Lemma memcmp_ok m a b l :
  a <> 0 -> b <> 0 -> holds m b l ->
  exists r, memcmp a b (len l) m = Ok (r, m) /\ (r = 0 <-> holds m a l).
Proof.
  intros Ha Hb H. unfold memcmp. rewrite !block_arg_ok, Nat2Z.id by done. by apply cmp_loop_ok.
Qed.

(** ** Searching for a string *)

(** [l2] stands in [l1] at position [i]. *)
Definition occurs (l1 l2 : list Z) (i : nat) : Prop := exists l, drop i l1 = l2 ++ l.

Lemma holds_occurs m a l1 l2 (i : nat) :
  cstr m a l1 -> Forall (fun c => character c) l2 -> (i <= length l1)%nat ->
  holds m (a + Z.of_nat i) l2 <-> occurs l1 l2 i.
Proof.
  intros H1 H2 Hi.
  assert (H : cstr m (a + Z.of_nat i) (drop i l1)).
  { rewrite <- (take_drop i l1) in H1. apply cstr_app in H1.
    by rewrite length_take, Nat.min_l in H1 by lia. }
  unfold occurs. clear H1 Hi. revert H. generalize (drop i l1), (a + Z.of_nat i). clear i a l1.
  induction H2 as [|c l2 Hc H2 IH]; intros l1 a H; simpl; [by split; [exists l1|]|].
  destruct l1 as [|d l1].
  - apply cstr_nil in H. split; [lia|]. by intros [??].
  - apply cstr_cons in H as (-> & Hd & H). rewrite (IH l1) by done. split.
    + intros [-> [l ->]]. by exists l.
    + intros [l [= -> ->]]. split; [done|]. by exists l.
Qed.

Definition found (r a : Z) (l1 l2 : list Z) (lo hi : nat) : Prop :=
  (r = 0 /\ forall j, (lo <= j < hi)%nat -> ~ occurs l1 l2 j) \/
  (exists i, (lo <= i < hi)%nat /\ r = a + Z.of_nat i /\ occurs l1 l2 i /\
     forall j, (lo <= j < i)%nat -> ~ occurs l1 l2 j).

Lemma strstr_loop_ok m a b l1 l2 n (i : nat) :
  0 < a -> 0 < b -> cstr m a l1 -> cstr m b l2 -> (i + n <= S (length l1))%nat ->
  exists r, strstr_loop n a b (len l2) (Z.of_nat i) m = Ok (r, m) /\ found r a l1 l2 i (i + n).
Proof.
  intros Ha Hb H1 H2. revert i. induction n as [|n IH]; intros i Hi; simpl.
  - exists 0. split; [done|]. left. split; [done|lia].
  - destruct (memcmp_ok m (a + Z.of_nat i) b l2) as (r & E & Hr); [lia|lia| |].
    { destruct H2 as [H2 _]. by apply holds_app in H2 as [? _]. }
    rewrite (bind_ok _ _ _ _ _ E). rewrite (holds_occurs m a l1) in Hr by (done || apply H2 || lia).
    destruct (Z.eqb_spec r 0) as [->|Hne].
    + eexists. split; [done|]. right. exists i. split_and!; [lia|lia|done|tauto|lia].
    + replace (Z.of_nat i + 1) with (Z.of_nat (S i)) by lia.
      destruct (IH (S i)) as (r' & E' & Hf); [lia|]. exists r'. split; [done|].
      destruct Hf as [[-> Hf]|(k & Hk & -> & Ho & Hf)]; [left|right; exists k].
      * split; [done|]. intros j Hj. destruct (decide (j = i)) as [->|]; [tauto|]. apply Hf. lia.
      * split_and!; [lia|lia|done|done|]. intros j Hj.
        destruct (decide (j = i)) as [->|]; [tauto|]. apply Hf. lia.
Qed.

Lemma occurs_bound l1 l2 i : occurs l1 l2 i -> (length l2 <= length l1 - i)%nat.
Proof. intros [l H]. apply (f_equal length) in H. rewrite length_drop, length_app in H. lia. Qed.

Lemma strstr_ok m fuel a b l1 l2 :
  0 < a -> 0 < b -> cstr m a l1 -> cstr m b l2 -> (length l1 < fuel)%nat -> (length l2 < fuel)%nat ->
  exists r, strstr fuel a b m = Ok (r, m) /\ found r a l1 l2 0 (S (length l1)).
Proof.
  intros Ha Hb H1 H2 F1 F2. unfold strstr.
  rewrite (bind_ok _ _ _ _ _ (strlen_ok m fuel a l1 ltac:(lia) H1 F1)).
  rewrite (bind_ok _ _ _ _ _ (strlen_ok m fuel b l2 ltac:(lia) H2 F2)).
  destruct (Z.leb_spec (len l2) (len l1)) as [Hl|Hl].
  - destruct (strstr_loop_ok m a b l1 l2 (Z.to_nat (len l1 - len l2 + 1)) 0) as (r & E & Hf); [done..|lia|].
    exists r. split; [exact E|]. destruct Hf as [[-> Hf]|(k & Hk & -> & Ho & Hf)]; [left|right; exists k].
    + split; [done|]. intros j Hj Ho. pose proof (occurs_bound _ _ _ Ho).
      destruct (decide (length l2 = 0)%nat); [|by apply (Hf j); [lia|]]. apply (Hf j); [lia|done].
    + split_and!; [lia|lia|done|done|done].
  - exists 0. split; [done|]. left. split; [done|]. intros j _ Ho%occurs_bound. lia.
Qed.

(** ** Sets of characters *)

Definition in_set (ds : list Z) (c : Z) : bool := bool_decide (c ∈ ds).

(** The longest prefix of characters with [p], and the rest. *)
Fixpoint prefix_of (p : Z -> bool) (l : list Z) : list Z :=
  match l with
  | [] => []
  | c :: l' => if p c then c :: prefix_of p l' else []
  end.
Fixpoint rest_of (p : Z -> bool) (l : list Z) : list Z :=
  match l with
  | [] => []
  | c :: l' => if p c then rest_of p l' else l
  end.
Lemma prefix_rest p l : prefix_of p l ++ rest_of p l = l.
Proof. induction l as [|c l IH]; simpl; [done|]. destruct (p c); simpl; [by rewrite IH|done]. Qed.
Lemma prefix_ext p q l : (forall c, p c = q c) -> prefix_of p l = prefix_of q l.
Proof. intros H. induction l as [|c l IH]; simpl; [done|]. by rewrite H, IH. Qed.
Lemma prefix_all p l : Forall (fun c => p c = true) (prefix_of p l).
Proof. induction l as [|c l IH]; simpl; [done|]. destruct (p c) eqn:?; by constructor. Qed.
Lemma rest_first p l c l' : rest_of p l = c :: l' -> p c = false.
Proof.
  induction l as [|d l IH]; simpl; [done|]. destruct (p d) eqn:E; [done|]. by intros [= <- <-].
Qed.
Lemma rest_cstr m a p l : cstr m a l -> cstr m (a + len (prefix_of p l)) (rest_of p l).
Proof. intros H. apply cstr_app. by rewrite prefix_rest. Qed.
Lemma rest_length p l : (length (prefix_of p l) + length (rest_of p l) = length l)%nat.
Proof. rewrite <- length_app. by rewrite prefix_rest. Qed.

(** A character of a string is not 0: [strchr] tells whether it is in the set. *)
Lemma strchr_set m fuel d ds c :
  0 < d -> character c -> cstr m d ds -> (length ds < fuel)%nat ->
  exists p, strchr fuel d c m = Ok (p, m) /\ (p =? 0) = negb (in_set ds c).
Proof.
  intros Hd Hc H Hf. destruct (strchr_null m fuel d c ds Hd ltac:(lia) H Hf) as (p & E & Hp).
  exists p. split; [done|]. rewrite Hp. f_equal. unfold in_set. apply bool_decide_ext. split; [intros [?|?]; [lia|done]|tauto].
Qed.

Lemma span_loop_ok m fuel fuel2 b a d ds k l :
  0 < d -> cstr m d ds -> (length ds < fuel2)%nat -> cstr m (a + k) l -> (length l < fuel)%nat ->
  span_loop fuel fuel2 b a d k m = Ok (k + len (prefix_of (fun c => negb (Bool.eqb (in_set ds c) b)) l), m).
Proof.
  intros Hd Hs Hf2. revert k fuel. induction l as [|c l IH]; intros k [|fuel] H Hf; simpl in Hf; try lia; simpl.
  - apply cstr_nil in H. unfold mbind, K_bind. simpl. rewrite H. simpl. by rewrite Z.add_0_r.
  - apply cstr_cons in H as (H1 & H2 & H3). erewrite bind_ok by (unfold load, gets; rewrite H1; reflexivity).
    rewrite (proj2 (Z.eqb_neq c 0)) by lia.
    destruct (strchr_set m fuel2 d ds c Hd H2 Hs Hf2) as (p & E & Hp). rewrite (bind_ok _ _ _ _ _ E).
    rewrite Hp, negb_involutive. destruct (Bool.eqb (in_set ds c) b); simpl.
    + by rewrite Z.add_0_r.
    + rewrite IH by (done || lia || by rewrite Z.add_assoc). do 2 f_equal. lia.
Qed.

(** [strcspn] and [strspn] measure the first characters out of, or in, a set. *)
Lemma strcspn_ok m fuel a d l ds :
  0 < d -> cstr m a l -> cstr m d ds -> (length l < fuel)%nat -> (length ds < fuel)%nat ->
  strcspn fuel a d m = Ok (len (prefix_of (fun c => negb (in_set ds c)) l), m).
Proof.
  intros Hd H1 H2 F1 F2. unfold strcspn.
  rewrite (span_loop_ok m fuel fuel true a d ds 0 l) by (rewrite ?Z.add_0_r; done).
  rewrite (prefix_ext _ (fun c => negb (in_set ds c))); [done|]. intros c. by destruct (in_set ds c).
Qed.
Lemma strspn_ok m fuel a d l ds :
  0 < d -> cstr m a l -> cstr m d ds -> (length l < fuel)%nat -> (length ds < fuel)%nat ->
  strspn fuel a d m = Ok (len (prefix_of (in_set ds) l), m).
Proof.
  intros Hd H1 H2 F1 F2. unfold strspn.
  rewrite (span_loop_ok m fuel fuel false a d ds 0 l) by (rewrite ?Z.add_0_r; done).
  rewrite (prefix_ext _ (in_set ds)); [done|]. intros c. by destruct (in_set ds c).
Qed.

(** ** Tokens *)

Fixpoint split (ds l : list Z) : list (list Z) :=
  match l with
  | [] => [[]]
  | c :: l' =>
      if in_set ds c then [] :: split ds l'
      else match split ds l' with
           | t :: ts => (c :: t) :: ts
           | [] => [[c]]
           end
  end.
Definition nonempty (t : list Z) : bool := match t with [] => false | _ => true end.
Definition tokens (ds l : list Z) : list (list Z) := filter (fun t => nonempty t = true) (split ds l).

Lemma split_token ds t l :
  Forall (fun c => negb (in_set ds c) = true) t -> (l = [] \/ exists d l', l = d :: l' /\ in_set ds d = true) ->
  split ds (t ++ l) = t :: tail (split ds l).
Proof.
  intros Ht Hl. induction Ht as [|c t Hc Ht IH]; simpl.
  - destruct Hl as [->|(d & l' & -> & Hd)]; simpl; [done|]. by rewrite Hd.
  - apply negb_true_iff in Hc. by rewrite Hc, IH.
Qed.

Lemma tokens_skip ds l : tokens ds (rest_of (in_set ds) l) = tokens ds l.
Proof.
  induction l as [|c l IH]; simpl; [done|]. destruct (in_set ds c) eqn:E; [|done].
  rewrite IH. unfold tokens. simpl. by rewrite E.
Qed.

(** The first token, and what is left after the character that ends it. *)
Lemma tokens_cons ds l :
  let l1 := rest_of (in_set ds) l in
  let t := prefix_of (fun c => negb (in_set ds c)) l1 in
  let l2 := rest_of (fun c => negb (in_set ds c)) l1 in
  tokens ds l = match l1 with [] => [] | _ => t :: tokens ds (tail l2) end.
Proof.
  intros l1 t l2. rewrite <- tokens_skip. fold l1. destruct l1 as [|c l1'] eqn:E1; [done|].
  assert (Hc : in_set ds c = false) by (by apply (rest_first (in_set ds) l _ l1')).
  assert (El : c :: l1' = t ++ l2) by (unfold t, l2; by rewrite prefix_rest).
  assert (Hne : nonempty t = true) by (unfold t; simpl; by rewrite Hc).
  unfold tokens at 1. rewrite El. rewrite split_token.
  - rewrite filter_cons, decide_True by done. f_equal. unfold tokens.
    destruct l2 as [|d l2'] eqn:E2; simpl; [done|].
    apply (rest_first (fun c => negb (in_set ds c))) in E2. apply negb_false_iff in E2. by rewrite E2.
  - apply (prefix_all (fun c => negb (in_set ds c))).
  - destruct l2 as [|d l2'] eqn:E2; [by left|]. right. exists d, l2'. split; [done|].
    apply (rest_first (fun c => negb (in_set ds c))) in E2. by apply negb_false_iff in E2.
Qed.

Section strtok.
Context (m : ram_t) (d : Z) (ds : list Z) (fuel2 : nat).
Hypothesis (Hd : 0 < d) (Hds : cstr m d ds) (Hf2 : (length ds < fuel2)%nat).

Lemma skip_delims_ok fuel s l :
  cstr m s l -> (length l < fuel)%nat ->
  skip_delims fuel fuel2 s d m =
    Ok (nonempty (rest_of (in_set ds) l), s + len (prefix_of (in_set ds) l), m).
Proof.
  revert s fuel. induction l as [|c l IH]; intros s [|fuel] H Hf; simpl in Hf; try lia; simpl.
  - apply cstr_nil in H. erewrite bind_ok by (unfold load, gets; rewrite H; reflexivity).
    destruct (strchr_null m fuel2 d 0 ds Hd ltac:(lia) Hds Hf2) as (p & E & Hp).
    rewrite (bind_ok _ _ _ _ _ E), Hp, bool_decide_true by tauto. simpl. by rewrite Z.add_0_r.
  - apply cstr_cons in H as (H1 & H2 & H3). erewrite bind_ok by (unfold load, gets; rewrite H1; reflexivity).
    destruct (strchr_set m fuel2 d ds c Hd H2 Hds Hf2) as (p & E & Hp).
    rewrite (bind_ok _ _ _ _ _ E), Hp. destruct (in_set ds c); simpl.
    + rewrite (proj2 (Z.eqb_neq c 0)) by lia. rewrite IH by (done || lia). do 3 f_equal. lia.
    + by rewrite Z.add_0_r.
Qed.

Lemma skip_others_ok fuel s l :
  cstr m s l -> (length l < fuel)%nat ->
  skip_others fuel fuel2 s d m = Ok (s + len (prefix_of (fun c => negb (in_set ds c)) l), m).
Proof.
  revert s fuel. induction l as [|c l IH]; intros s [|fuel] H Hf; simpl in Hf; try lia; simpl.
  - apply cstr_nil in H. erewrite bind_ok by (unfold load, gets; rewrite H; reflexivity).
    destruct (strchr_null m fuel2 d 0 ds Hd ltac:(lia) Hds Hf2) as (p & E & Hp).
    rewrite (bind_ok _ _ _ _ _ E), Hp, bool_decide_true by tauto. simpl. by rewrite Z.add_0_r.
  - apply cstr_cons in H as (H1 & H2 & H3). erewrite bind_ok by (unfold load, gets; rewrite H1; reflexivity).
    destruct (strchr_set m fuel2 d ds c Hd H2 Hds Hf2) as (p & E & Hp).
    rewrite (bind_ok _ _ _ _ _ E), Hp. destruct (in_set ds c); simpl.
    + by rewrite Z.add_0_r.
    + rewrite IH by (done || lia). do 2 f_equal. lia.
Qed.
End strtok.

(** One call finds the first token and leaves a string with the others. *)
Record token_step (m m' : ram_t) (start : Z) (l ds t : list Z) (p sv : Z) (l' : list Z) : Prop := {
  ts_first : start <= p;
  ts_len : p + len t <= sv;
  ts_end : sv + len l' = start + len l;
  ts_rest : tokens ds l = t :: tokens ds l';
  ts_next : sv = p + len t -> l' = [];
  ts_frame x : x <> p + len t \/ start + len l <= x -> m' x = m x;
  ts_token : cstr m' p t;
  ts_string : cstr m' sv l'
}.

Lemma strtok_r_ok m fuel s d save ds l :
  let start := if s =? 0 then save else s in
  0 < d -> cstr m d ds -> (length ds < fuel)%nat -> 0 < start -> cstr m start l -> (length l < fuel)%nat ->
  (tokens ds l = [] /\ strtok_r fuel s d save m = Ok ((0, start + len l), m)) \/
  exists t p sv l' m', strtok_r fuel s d save m = Ok ((p, sv), m') /\ token_step m m' start l ds t p sv l'.
Proof.
  intros start Hd Hds Fd Hs Hl Fl. unfold strtok_r.
  rewrite ASSERT_true by (by rewrite (proj2 (Z.eqb_neq d 0)) by lia). fold start. cbv zeta.
  rewrite ASSERT_true by (by rewrite (proj2 (Z.eqb_neq start 0)) by lia).
  rewrite (bind_ok _ _ _ _ _ (skip_delims_ok m d ds fuel Hd Hds Fd fuel start l Hl Fl)).
  pose proof (tokens_cons ds l) as Htok. pose proof (rest_length (in_set ds) l) as Hlen.
  pose proof (rest_cstr m start (in_set ds) l Hl) as Hr. cbv zeta in Htok.
  set (l1 := rest_of (in_set ds) l) in *. set (p := start + len (prefix_of (in_set ds) l)) in *.
  set (t := prefix_of (fun c => negb (in_set ds c)) l1) in *.
  set (l2 := rest_of (fun c => negb (in_set ds c)) l1) in *.
  assert (E1 : (length t + length l2 = length l1)%nat) by apply rest_length.
  assert (Ht : t ++ l2 = l1) by apply prefix_rest.
  assert (H2 : cstr m (p + len t) l2) by (by apply rest_cstr).
  destruct (nonempty l1) eqn:En; cbn [negb].
  2: { destruct l1; [|done]. left. split; [done|]. simpl in Hlen. unfold mret, K_ret. do 3 f_equal. lia. }
  right. destruct l1 as [|c1 l1'] eqn:El1; [done|].
  rewrite (bind_ok _ _ _ _ _ (skip_others_ok m d ds fuel Hd Hds Fd fuel p _ Hr ltac:(lia))). fold t.
  assert (Hct : Forall (fun c => character c) t).
  { destruct Hr as [_ Hr]. rewrite <- Ht in Hr. by apply Forall_app in Hr as [? _]. }
  assert (Hpt : holds m p t).
  { destruct Hr as [Hr _]. rewrite <- Ht, <- app_assoc in Hr. by apply holds_app in Hr as [? _]. }
  destruct l2 as [|c2 l2'] eqn:El2.
  - apply cstr_nil in H2. erewrite bind_ok by (unfold load, gets; rewrite H2; reflexivity). simpl negb.
    exists t, p, (p + len t), [], m. split; [done|]. constructor; simpl in *; try done; try lia.
    split; [|done]. apply holds_app. by simpl.
  - apply cstr_cons in H2 as (Hc & Hc2 & H2).
    erewrite bind_ok by (unfold load, gets; rewrite Hc; reflexivity).
    rewrite (proj2 (Z.eqb_neq c2 0)) by lia. cbn [negb]. erewrite bind_ok by reflexivity.
    assert (Hup : forall x, x <> p + len t -> upd (p + len t) 0 m x = m x).
    { intros x Hx. unfold upd. by rewrite (proj2 (Z.eqb_neq _ _) Hx). }
    exists t, p, (p + len t + 1), l2', (upd (p + len t) 0 m). split; [done|]. simpl in *.
    constructor; simpl; try done; try lia.
    + intros x Hx. apply Hup. lia.
    + split; [|done]. apply holds_app. split.
      * apply (holds_agree m); [|done]. intros x Hx. apply Hup. lia.
      * simpl. split; [|done]. unfold upd. by rewrite Z.eqb_refl.
    + apply (cstr_agree m); [|done]. intros x Hx. apply Hup. lia.
Qed.

(** The loop of the usual caller: the tokens, by address. *)
Fixpoint strtok_all (n fuel : nat) (s delimiters save : Z) : K ram_t (list Z) :=
  match n with
  | O => no_fuel
  | S n' =>
      '(token, save) ← strtok_r fuel s delimiters save;
      if token =? 0 then mret []
      else ts ← strtok_all n' fuel 0 delimiters save; mret (token :: ts)
  end.

Lemma tokens_nonempty ds l t ts : tokens ds l = t :: ts -> (0 < length t)%nat.
Proof.
  intros H. assert (Ht : t ∈ tokens ds l) by (rewrite H; constructor).
  apply list_elem_of_filter in Ht as [Ht _]. destruct t; [done|simpl; lia].
Qed.

Definition apart (a la b lb : Z) : Prop := a + la < b \/ b + lb < a.

Lemma strtok_all_ok n m fuel s d save ds l :
  let start := if s =? 0 then save else s in
  0 < d -> cstr m d ds -> (length ds < fuel)%nat -> 0 < start -> cstr m start l -> (length l < fuel)%nat ->
  apart d (len ds) start (len l) -> (length (tokens ds l) < n)%nat ->
  exists ps m', strtok_all n fuel s d save m = Ok (ps, m') /\ Forall2 (cstr m') ps (tokens ds l) /\
    forall x, x <= start \/ start + len l <= x -> m' x = m x.
Proof.
  revert m s save l. induction n as [|n IH]; intros m s save l start Hd Hds Fd Hs Hl Fl Hap Hn; [lia|]. simpl.
  destruct (strtok_r_ok m fuel s d save ds l Hd Hds Fd Hs Hl Fl) as [[Et E]|(t & p & sv & l' & m1 & E & H)].
  - rewrite (bind_ok _ _ _ _ _ E), Et. by exists [], m.
  - rewrite (bind_ok _ _ _ _ _ E). cbv iota beta. fold start in H. destruct H as [H1 H2 H3 H4 H5 H6 H7 H8].
    pose proof (tokens_nonempty _ _ _ _ H4) as Ht. rewrite (proj2 (Z.eqb_neq p 0)) by lia.
    destruct (IH m1 0 sv l') as (ps & m' & E' & HF & Hfr).
    + done.
    + apply (cstr_agree m); [|done]. intros x Hx. apply H6. unfold apart in Hap. lia.
    + done.
    + simpl. lia.
    + done.
    + lia.
    + unfold apart in *. simpl. lia.
    + rewrite H4 in Hn. simpl in Hn. lia.
    + simpl in Hfr. exists (p :: ps), m'. split_and!.
      * by rewrite (bind_ok _ _ _ _ _ E').
      * rewrite H4. constructor; [|done]. apply (cstr_agree m1); [|done]. intros x Hx. apply Hfr. lia.
      * intros x Hx. rewrite Hfr by lia. apply H6. lia.
Qed.

(** ** Copying strings *)

(** The bytes of a string that has been copied and terminated. *)
Lemma copied_cstr m m' dst src l (k : nat) :
  cstr m src l -> (k <= length l)%nat ->
  (forall x, m' x = if x =? dst + Z.of_nat k then 0 else copied dst src (Z.of_nat k) m x) ->
  cstr m' dst (take k l).
Proof.
  intros [H1 H2] Hk Hm'. split; [|by apply Forall_take]. apply holds_app. split.
  - apply holds_intro. intros i c Hi. apply lookup_take_Some in Hi as [Hi Hik].
    rewrite Hm'. assert (Hc : m (src + Z.of_nat i) = c).
    { apply holds_app in H1 as [H1 _]. by apply (holds_lookup m src l). }
    rewrite <- Hc. by_within.
  - rewrite length_take, Nat.min_l by done. simpl. split; [|done]. by rewrite Hm', Z.eqb_refl.
Qed.

Lemma strlcpy_ok m fuel dst src size l :
  dst <> 0 -> src <> 0 -> 0 < size -> cstr m src l -> (length l < fuel)%nat ->
  dst <= src \/ src + len l <= dst ->
  exists m', strlcpy fuel dst src size m = Ok (len l, m') /\ cstr m' dst (take (Z.to_nat (size - 1)) l) /\
    forall x, within dst (Z.min size (len l + 1)) x = false -> m' x = m x.
Proof.
  intros Hd Hs Hsz Hl Hf Hov. unfold strlcpy. rewrite !ASSERT_true by (by rewrite (proj2 (Z.eqb_neq _ 0))).
  rewrite (bind_ok _ _ _ _ _ (strlen_ok m fuel src l Hs Hl Hf)). rewrite (proj2 (Z.ltb_lt 0 size) Hsz). cbv zeta.
  set (k := if len l <? size - 1 then len l else size - 1).
  assert (Hk : 0 <= k <= len l /\ k <= size - 1 /\ k = Z.min (len l) (size - 1)) by (unfold k; case_cmp; lia).
  destruct (memcpy_ok dst src k m) as (m1 & E & Hm1); [done..|lia|lia|].
  rewrite bind_assoc, (bind_ok _ _ _ _ _ E). erewrite bind_ok by reflexivity.
  exists (upd (dst + k) 0 m1). split; [done|]. split.
  - replace (take (Z.to_nat (size - 1)) l) with (take (Z.to_nat k) l).
    2: { destruct (decide (len l <= size - 1)); [|f_equal; lia]. rewrite !take_ge by lia. done. }
    apply (copied_cstr m _ dst src); [done|lia|]. intros x. unfold upd. rewrite Z2Nat.id by lia. by rewrite Hm1.
  - intros x Hx. unfold upd. rewrite Hm1. unfold copied, within in *.
    apply andb_false_iff in Hx. destruct Hx; reflect_bools; case_cmp; simpl; done || lia.
Qed.

Lemma strlcat_ok m fuel dst src size l1 l2 :
  0 < dst -> src <> 0 -> cstr m dst l1 -> cstr m src l2 -> (length l1 < fuel)%nat -> (length l2 < fuel)%nat ->
  len l1 < size -> src + len l2 <= dst \/ dst + len l1 <= src -> len l1 + len l2 < 2 ^ 32 ->
  exists m', strlcat fuel dst src size m = Ok (len l1 + len l2, m') /\
    cstr m' dst (take (Z.to_nat (size - 1)) (l1 ++ l2)) /\
    forall x, within (dst + len l1) (Z.min (size - len l1) (len l2 + 1)) x = false -> m' x = m x.
Proof.
  intros Hd Hs H1 H2 F1 F2 Hsz Hov Hw. unfold strlcat.
  rewrite !ASSERT_true by (rewrite (proj2 (Z.eqb_neq _ 0)); done || lia).
  rewrite (bind_ok _ _ _ _ _ (strlen_ok m fuel src l2 Hs H2 F2)).
  rewrite (bind_ok _ _ _ _ _ (strlen_ok m fuel dst l1 ltac:(lia) H1 F1)).
  rewrite (proj2 (Z.ltb_lt 0 size)), (proj2 (Z.ltb_lt _ size) Hsz) by lia. cbn [andb]. cbv zeta.
  set (k := if len l2 <? size - len l1 - 1 then len l2 else size - len l1 - 1).
  assert (Hk : 0 <= k <= len l2 /\ k <= size - len l1 - 1 /\ k = Z.min (len l2) (size - len l1 - 1))
    by (unfold k; case_cmp; lia).
  destruct (memcpy_ok (dst + len l1) src k m) as (m1 & E & Hm1); [lia|done|lia|lia|].
  rewrite bind_assoc, (bind_ok _ _ _ _ _ E). erewrite bind_ok by reflexivity.
  rewrite wrapu_small, (Z.add_comm (len l2)) by lia.
  set (m' := upd (dst + len l1 + k) 0 m1). exists m'. split; [done|].
  assert (Hfr : forall x, within (dst + len l1) (Z.min (size - len l1) (len l2 + 1)) x = false -> m' x = m x).
  { intros x Hx. unfold m', upd. rewrite Hm1. unfold copied, within in *.
    apply andb_false_iff in Hx. destruct Hx; reflect_bools; case_cmp; simpl; done || lia. }
  split; [|done].
  assert (Hc : cstr m' (dst + len l1) (take (Z.to_nat k) l2)).
  { apply (copied_cstr m _ _ src); [done|lia|]. intros x. unfold m', upd. rewrite Z2Nat.id by lia. by rewrite Hm1. }
  rewrite take_app_ge by lia. replace (take (Z.to_nat (size - 1) - length l1) l2) with (take (Z.to_nat k) l2).
  2: { destruct (decide (len l2 <= size - len l1 - 1)); [|f_equal; lia]. rewrite !take_ge by lia. done. }
  destruct H1 as [H1 C1], Hc as [Hc C2]. split; [|by apply Forall_app].
  rewrite <- app_assoc, holds_app. split; [|done]. apply holds_app in H1 as [H1 _].
  apply (holds_agree m); [|done]. intros x Hx. apply Hfr. unfold within. case_cmp; done.
Qed.

(** ** Other searches *)

Lemma strpbrk_ok m fuel fuel2 a d l ds :
  0 < d -> cstr m d ds -> (length ds < fuel2)%nat -> cstr m a l -> (length l < fuel)%nat ->
  strpbrk_loop fuel fuel2 a d m =
    Ok (match rest_of (fun c => negb (in_set ds c)) l with
        | [] => 0
        | _ => a + len (prefix_of (fun c => negb (in_set ds c)) l)
        end, m).
Proof.
  intros Hd Hs Hf2. revert a fuel. induction l as [|c l IH]; intros a [|fuel] H Hf; simpl in Hf; try lia; simpl.
  - apply cstr_nil in H. unfold mbind, K_bind. simpl. by rewrite H.
  - apply cstr_cons in H as (H1 & H2 & H3). erewrite bind_ok by (unfold load, gets; rewrite H1; reflexivity).
    rewrite (proj2 (Z.eqb_neq c 0)) by lia.
    destruct (strchr_set m fuel2 d ds c Hd H2 Hs Hf2) as (p & E & Hp). rewrite (bind_ok _ _ _ _ _ E), Hp.
    destruct (in_set ds c); simpl; [by rewrite Z.add_0_r|]. rewrite IH by (done || lia).
    destruct (rest_of _ l); [done|]. do 2 f_equal. lia.
Qed.

(** The last place of a character. *)
Fixpoint find_last (c a : Z) (l : list Z) (p : Z) : Z :=
  match l with
  | [] => p
  | d :: l' => find_last c (a + 1) l' (if d =? c then a else p)
  end.
Lemma strrchr_ok m fuel a c l p :
  cstr m a l -> (length l < fuel)%nat -> strrchr_loop fuel a c p m = Ok (find_last c a l p, m).
Proof.
  revert a fuel p. induction l as [|d l IH]; intros a [|fuel] p H Hf; simpl in Hf; try lia; simpl;
    unfold mbind, K_bind; simpl.
  - apply cstr_nil in H. by rewrite H.
  - apply cstr_cons in H as (-> & H2 & H3). rewrite (proj2 (Z.eqb_neq d 0)) by lia. apply IH; [done|lia].
Qed.
Lemma find_last_spec c a l p :
  (find_last c a l p = p /\ c ∉ l) \/
  exists i, l !! i = Some c /\ find_last c a l p = a + Z.of_nat i /\ c ∉ drop (S i) l.
Proof.
  revert a p. induction l as [|d l IH]; intros a p; simpl.
  { left. split; [done|]. apply not_elem_of_nil. }
  destruct (IH (a + 1) (if d =? c then a else p)) as [[-> Hn]|(i & Hi & -> & Hn)].
  - destruct (Z.eqb_spec d c) as [->|Hne].
    + right. exists O. simpl. rewrite drop_0. split_and!; [done|lia|done].
    + left. split; [done|]. rewrite not_elem_of_cons. done.
  - right. exists (S i). simpl. split_and!; [done|lia|done].
Qed.

Lemma memchr_ok m a c l :
  0 < a -> 0 <= c < 256 -> holds m a l -> memchr a c (len l) m = Ok (find_char c a l, m).
Proof.
  intros Ha Hc H. unfold memchr. rewrite block_arg_ok, Nat2Z.id, wrapu_small by lia. clear Hc.
  revert a Ha H. induction l as [|d l IH]; intros a Ha; simpl; [done|]. intros [Hd H].
  rewrite find_char_cons by lia. unfold mbind, K_bind. simpl. rewrite Hd. destruct (d =? c); [done|]. apply IH; [lia|done].
Qed.

(** ** The main results on strings *)

(** Calling [strtok_r] until it returns a null pointer gives, in order, exactly
    the maximal nonempty runs of characters of the string that are not delimiters,
    each terminated in place; only bytes strictly inside of the string change. *)
Theorem strtok_r_tokens n m fuel s d save ds l :
  0 < d -> cstr m d ds -> (length ds < fuel)%nat -> 0 < s -> cstr m s l -> (length l < fuel)%nat ->
  apart d (len ds) s (len l) -> (length (tokens ds l) < n)%nat ->
  exists ps m', strtok_all n fuel s d save m = Ok (ps, m') /\ Forall2 (cstr m') ps (tokens ds l) /\
    forall x, x <= s \/ s + len l <= x -> m' x = m x.
Proof.
  intros Hd Hds Fd Hs Hl Fl Hap Hn. pose proof (strtok_all_ok n m fuel s d save ds l) as H.
  rewrite (proj2 (Z.eqb_neq s 0)) in H by lia. by apply H.
Qed.

(** Memory with the bytes [l] from address [a], and 0 elsewhere. *)
Definition ram_of (a : Z) (l : list Z) : ram_t := fun x => zget 0 l (x - a).
Definition codes (l : list ascii) : list Z := ch <$> l.

Local Ltac concrete_cstr := split; [vm_compute; tauto|repeat constructor].

Lemma strtok_r_tokens_witness :
  exists ps m',
    strtok_all 4 10 100 200 0 (fun x => if x <? 200 then ram_of 100 (codes [":"; "1"; "A"; ":"; ":"; "2"; "B"]%char) x
                                        else ram_of 200 [58] x) = Ok (ps, m') /\
    Forall2 (cstr m') ps [[49; 65]; [50; 66]] /\ forall x, x <= 100 \/ 107 <= x ->
      m' x = (fun x => if x <? 200 then ram_of 100 (codes [":"; "1"; "A"; ":"; ":"; "2"; "B"]%char) x
              else ram_of 200 [58] x) x.
Proof.
  apply (strtok_r_tokens 4 _ 10 100 200 0 [58] (codes [":"; "1"; "A"; ":"; ":"; "2"; "B"]%char)).
  - lia.
  - concrete_cstr.
  - simpl. lia.
  - lia.
  - concrete_cstr.
  - simpl. lia.
  - right. simpl. lia.
  - vm_compute. lia.
Defined.

(** [strlcpy] writes at most [size] bytes, all of them in the destination, leaves
    there the source cut to [size - 1] characters and terminated, and returns the length
    of the source, so that a caller can see the truncation. *)
Theorem strlcpy_truncates m fuel dst src size l :
  dst <> 0 -> src <> 0 -> 0 < size -> cstr m src l -> (length l < fuel)%nat ->
  dst <= src \/ src + len l <= dst ->
  exists m', strlcpy fuel dst src size m = Ok (len l, m') /\ cstr m' dst (take (Z.to_nat (size - 1)) l) /\
    forall x, within dst (Z.min size (len l + 1)) x = false -> m' x = m x.
Proof. apply strlcpy_ok. Qed.

Lemma strlcpy_truncates_witness :
  exists m', strlcpy 10 50 100 3 (ram_of 100 [70; 71; 72; 73]) = Ok (4, m') /\ cstr m' 50 [70; 71] /\
    forall x, within 50 3 x = false -> m' x = ram_of 100 [70; 71; 72; 73] x.
Proof.
  apply (strlcpy_truncates (ram_of 100 [70; 71; 72; 73]) 10 50 100 3 [70; 71; 72; 73]).
  - done.
  - done.
  - lia.
  - concrete_cstr.
  - simpl. lia.
  - left. lia.
Defined.
