(* ===== verification/Bitmap.v ===== *)
(** Bitmaps (lib/kernel/bitmap.c): an array of bits in 32-bit words.

    The operations are computations on one bitmap; a failed assertion or an access
    outside the words is a panic.  Reading from and writing to a file is left to
    the file system. *)

From S2P Require Import Prelude KMonad.

Record bitmap := mkBitmap { bit_cnt : Z; bits : list Z }.

Definition ELEM_BITS : Z := 32.
Definition BITMAP_ERROR : Z := 2 ^ 32 - 1.
(** [sizeof (struct bitmap)]. *)
Definition sizeof_bitmap : Z := 8.

Definition DIV_ROUND_UP (x step : Z) : Z := u32 (x + step - 1) / step.

Definition elem_idx (bit_idx : Z) : Z := bit_idx / ELEM_BITS.
Definition bit_mask (bit_idx : Z) : Z := u32 (Z.shiftl 1 (bit_idx mod ELEM_BITS)).
Definition elem_cnt (bit_cnt : Z) : Z := DIV_ROUND_UP bit_cnt ELEM_BITS.
Definition byte_cnt (bit_cnt : Z) : Z := u32 (4 * elem_cnt bit_cnt).
Definition last_mask (b : bitmap) : Z :=
  let last_bits := bit_cnt b mod ELEM_BITS in
  if last_bits =? 0 then u32 (-1) else u32 (Z.shiftl 1 last_bits - 1).
Definition bitmap_buf_size (bit_cnt : Z) : Z := u32 (sizeof_bitmap + byte_cnt bit_cnt).

Definition bitmap_size : K bitmap Z := gets bit_cnt.

(** An instruction that changes the word of a bit; [b->bits] has [elem_cnt] words. *)
Definition upd_elem (bit_idx : Z) (f : Z -> Z) : K bitmap unit :=
  b ← get;
  w ← the (zlookup (bits b) (elem_idx bit_idx));
  put (mkBitmap (bit_cnt b) (zset (bits b) (elem_idx bit_idx) (f w))).

Definition bitmap_mark (bit_idx : Z) : K bitmap unit :=
  upd_elem bit_idx (fun w => Z.lor w (bit_mask bit_idx)).
Definition bitmap_reset (bit_idx : Z) : K bitmap unit :=
  upd_elem bit_idx (fun w => Z.land w (u32 (Z.lnot (bit_mask bit_idx)))).
Definition bitmap_flip (bit_idx : Z) : K bitmap unit :=
  upd_elem bit_idx (fun w => Z.lxor w (bit_mask bit_idx)).

Definition bitmap_set (idx : Z) (value : bool) : K bitmap unit :=
  n ← bitmap_size; ASSERT (idx <? n);;
  if value then bitmap_mark idx else bitmap_reset idx.

Definition bitmap_test (idx : Z) : K bitmap bool :=
  b ← get; ASSERT (idx <? bit_cnt b);;
  w ← the (zlookup (bits b) (elem_idx idx));
  mret (negb (Z.land w (bit_mask idx) =? 0)).

Definition check_range (start cnt : Z) : K bitmap unit :=
  n ← bitmap_size; ASSERT (start <=? n);; ASSERT (u32 (start + cnt) <=? n).

(** The loop [for (i = 0; i < cnt; i++)], [n] rounds of it left. *)
Fixpoint set_loop (n : nat) (i start : Z) (value : bool) : K bitmap unit :=
  match n with
  | O => mret tt
  | S n' => bitmap_set (u32 (start + i)) value;; set_loop n' (i + 1) start value
  end.
Definition bitmap_set_multiple (start cnt : Z) (value : bool) : K bitmap unit :=
  check_range start cnt;; set_loop (Z.to_nat cnt) 0 start value.
Definition bitmap_set_all (value : bool) : K bitmap unit :=
  n ← bitmap_size; bitmap_set_multiple 0 n value.

Fixpoint count_loop (n : nat) (i start : Z) (value : bool) (value_cnt : Z) : K bitmap Z :=
  match n with
  | O => mret value_cnt
  | S n' =>
      t ← bitmap_test (u32 (start + i));
      count_loop n' (i + 1) start value (if Bool.eqb t value then value_cnt + 1 else value_cnt)
  end.
Definition bitmap_count (start cnt : Z) (value : bool) : K bitmap Z :=
  check_range start cnt;; count_loop (Z.to_nat cnt) 0 start value 0.

Fixpoint contains_loop (n : nat) (i start : Z) (value : bool) : K bitmap bool :=
  match n with
  | O => mret false
  | S n' =>
      t ← bitmap_test (u32 (start + i));
      if Bool.eqb t value then mret true else contains_loop n' (i + 1) start value
  end.
Definition bitmap_contains (start cnt : Z) (value : bool) : K bitmap bool :=
  check_range start cnt;; contains_loop (Z.to_nat cnt) 0 start value.
Definition bitmap_any (start cnt : Z) : K bitmap bool := bitmap_contains start cnt true.
Definition bitmap_none (start cnt : Z) : K bitmap bool :=
  r ← bitmap_contains start cnt true; mret (negb r).
Definition bitmap_all (start cnt : Z) : K bitmap bool :=
  r ← bitmap_contains start cnt false; mret (negb r).

(** The loop [for (i = start; i <= last; i++)]. *)
Fixpoint scan_loop (n : nat) (i cnt : Z) (value : bool) : K bitmap Z :=
  match n with
  | O => mret BITMAP_ERROR
  | S n' =>
      c ← bitmap_contains i cnt (negb value);
      if (c : bool) then scan_loop n' (i + 1) cnt value else mret i
  end.
Definition bitmap_scan (start cnt : Z) (value : bool) : K bitmap Z :=
  n ← bitmap_size; ASSERT (start <=? n);;
  if cnt <=? n
  then let last := n - cnt in scan_loop (Z.to_nat (last + 1 - start)) start cnt value
  else mret BITMAP_ERROR.

Definition bitmap_scan_and_flip (start cnt : Z) (value : bool) : K bitmap Z :=
  idx ← bitmap_scan start cnt value;
  when (negb (idx =? BITMAP_ERROR)) (bitmap_set_multiple idx cnt (negb value));;
  mret idx.

(** [bitmap_create_in_buf] on a buffer whose words are [junk], and [bitmap_create]
    on the words that [malloc] returns, if it does. *)
Definition bitmap_create_in_buf (bit_cnt : Z) (junk : list Z) (block_size : Z) : outcome bitmap :=
  if bitmap_buf_size bit_cnt <=? block_size then
    match bitmap_set_all false (mkBitmap bit_cnt junk) with
    | Ok (_, b) => Ok b
    | Panic => Panic
    | NoFuel => NoFuel
    end
  else Panic.
Definition bitmap_create (bit_cnt : Z) (mem : option (list Z)) : outcome (option bitmap) :=
  match mem with
  | None => Ok None
  | Some junk =>
      match bitmap_set_all false (mkBitmap bit_cnt junk) with
      | Ok (_, b) => Ok (Some b)
      | Panic => Panic
      | NoFuel => NoFuel
      end
  end.

(** ** The bits *)

Definition bit (b : bitmap) (i : Z) : bool :=
  Z.testbit (zget 0 (bits b) (elem_idx i)) (i mod ELEM_BITS).

Definition word (w : Z) : Prop := 0 <= w < 2 ^ 32.
Record bitmap_ok (b : bitmap) : Prop := {
  bo_cnt : 0 <= bit_cnt b < 2 ^ 32;
  bo_len : bit_cnt b <= ELEM_BITS * Z.of_nat (length (bits b));
  bo_words : Forall word (bits b)
}.

Lemma word_testbit w k : word w -> 32 <= k -> Z.testbit w k = false.
Proof.
  intros [H0 H1] Hk. destruct (decide (w = 0)) as [->|]; [apply Z.bits_0|].
  apply Z.bits_above_log2; [done|]. apply Z.log2_lt_pow2; [lia|].
  eapply Z.lt_le_trans; [exact H1|]. apply Z.pow_le_mono_r; lia.
Qed.
Lemma testbit_word w : 0 <= w -> (forall k, 32 <= k -> Z.testbit w k = false) -> word w.
Proof.
  intros H0 H. split; [done|]. destruct (decide (w = 0)) as [->|]; [done|].
  apply Z.log2_lt_pow2; [lia|]. destruct (Z_lt_le_dec (Z.log2 w) 32) as [|Hle]; [done|].
  specialize (H _ Hle). by rewrite Z.bit_log2 in H by lia.
Qed.
Lemma u32_testbit x k : 0 <= k -> Z.testbit (u32 x) k = (k <? 32) && Z.testbit x k.
Proof.
  intros Hk. unfold wrapu. destruct (Z.ltb_spec k 32).
  - by rewrite Z.mod_pow2_bits_low.
  - by rewrite Z.mod_pow2_bits_high by lia.
Qed.

Lemma bit_mask_testbit i k : 0 <= k -> Z.testbit (bit_mask i) k = (k =? i mod ELEM_BITS).
Proof.
  intros Hk. unfold bit_mask, ELEM_BITS. pose proof (Z.mod_pos_bound i 32).
  rewrite u32_testbit, Z.shiftl_spec by lia.
  destruct (Z.eqb_spec k (i mod 32)) as [->|Hne].
  - rewrite Z.sub_diag. destruct (Z.ltb_spec (i mod 32) 32); [done|lia].
  - destruct (Z.ltb_spec k (i mod 32)).
    + rewrite (Z.testbit_neg_r 1) by lia. by rewrite andb_false_r.
    + rewrite (Z.bits_above_log2 1) by (simpl; lia). by rewrite andb_false_r.
Qed.
Lemma bit_mask_word i : word (bit_mask i).
Proof. apply wrapu_range. lia. Qed.

(** The three word operations. *)
Lemma mark_testbit w i k : 0 <= k ->
  Z.testbit (Z.lor w (bit_mask i)) k = if k =? i mod ELEM_BITS then true else Z.testbit w k.
Proof. intros Hk. rewrite Z.lor_spec, bit_mask_testbit by done. destruct (k =? _); [apply orb_true_r|apply orb_false_r]. Qed.
Lemma reset_testbit w i k : word w -> 0 <= k ->
  Z.testbit (Z.land w (u32 (Z.lnot (bit_mask i)))) k = if k =? i mod ELEM_BITS then false else Z.testbit w k.
Proof.
  intros Hw Hk. rewrite Z.land_spec, u32_testbit, Z.lnot_spec, bit_mask_testbit by done.
  destruct (Z.ltb_spec k 32).
  - destruct (k =? _); [apply andb_false_r|apply andb_true_r].
  - rewrite word_testbit by done. by destruct (k =? _).
Qed.
Lemma flip_testbit w i k : 0 <= k ->
  Z.testbit (Z.lxor w (bit_mask i)) k = if k =? i mod ELEM_BITS then negb (Z.testbit w k) else Z.testbit w k.
Proof. intros Hk. rewrite Z.lxor_spec, bit_mask_testbit by done. destruct (k =? _); [apply xorb_true_r|apply xorb_false_r]. Qed.

Lemma test_mask w i : word w -> negb (Z.land w (bit_mask i) =? 0) = Z.testbit w (i mod ELEM_BITS).
Proof.
  intros Hw. pose proof (Z.mod_pos_bound i 32) as Hm. unfold ELEM_BITS in *.
  destruct (Z.eqb_spec (Z.land w (bit_mask i)) 0) as [E|E]; simpl; symmetry.
  - assert (H : Z.testbit (Z.land w (bit_mask i)) (i mod 32) = false) by (rewrite E; apply Z.bits_0).
    rewrite Z.land_spec, bit_mask_testbit in H by lia. unfold ELEM_BITS in H.
    by rewrite Z.eqb_refl, andb_true_r in H.
  - destruct (Z.testbit w (i mod 32)) eqn:Eb; [done|]. destruct E. apply Z.bits_inj_0. intros k.
    destruct (Z_lt_le_dec k 0); [by apply Z.testbit_neg_r|].
    rewrite Z.land_spec, bit_mask_testbit by done. unfold ELEM_BITS.
    destruct (Z.eqb_spec k (i mod 32)) as [->|]; [by rewrite Eb|apply andb_false_r].
Qed.

(** ** Single bits *)

Section bitmap.
Context (b : bitmap) (Hb : bitmap_ok b).

Lemma elem_range i : 0 <= i < bit_cnt b -> 0 <= elem_idx i < Z.of_nat (length (bits b)).
Proof.
  intros Hi. destruct Hb as [_ Hlen _]. unfold elem_idx, ELEM_BITS in *. split.
  - apply Z.div_pos; lia.
  - apply Z.div_lt_upper_bound; lia.
Qed.

Lemma elem_lookup i :
  0 <= i < bit_cnt b ->
  zlookup (bits b) (elem_idx i) = Some (zget 0 (bits b) (elem_idx i)) /\
  word (zget 0 (bits b) (elem_idx i)).
Proof.
  intros Hi%elem_range. destruct (zlookup_is_Some _ _ Hi) as [w Hw]. split.
  - unfold zget. by rewrite Hw.
  - destruct Hb as [_ _ Hf]. rewrite Forall_forall in Hf. apply Hf. by apply zget_in_range.
Qed.

Lemma bitmap_test_ok i : 0 <= i < bit_cnt b -> bitmap_test i b = Ok (bit b i, b).
Proof.
  intros Hi. destruct (elem_lookup i Hi) as [Hl Hw]. unfold bitmap_test. erewrite bind_ok by reflexivity.
  rewrite ASSERT_true by (apply Z.ltb_lt; lia). rewrite Hl. erewrite bind_ok by reflexivity.
  by rewrite test_mask.
Qed.

(** [b'] is [b] with the bits [f]. *)
Definition has_bits (b' : bitmap) (f : Z -> bool) : Prop :=
  bitmap_ok b' /\ bit_cnt b' = bit_cnt b /\ forall j, 0 <= j -> bit b' j = f j.

Lemma upd_elem_ok i f v :
  0 <= i < bit_cnt b ->
  (forall w, word w -> word (f w)) ->
  (forall w k, word w -> 0 <= k ->
     Z.testbit (f w) k = if k =? i mod ELEM_BITS then v (Z.testbit w k) else Z.testbit w k) ->
  exists b', upd_elem i f b = Ok (tt, b') /\
    has_bits b' (fun j => if j =? i then v (bit b i) else bit b j).
Proof.
  intros Hi Hfw Hf. destruct (elem_lookup i Hi) as [Hl Hw]. pose proof (elem_range i Hi) as Hr.
  eexists. split.
  { unfold upd_elem. erewrite bind_ok by reflexivity. rewrite Hl. by erewrite bind_ok by reflexivity. }
  split; [|split; [done|]].
  - destruct Hb as [H1 H2 H3]. constructor; simpl; [done|by rewrite zset_length|].
    unfold zset. destruct_if; [|done]. apply Forall_insert; [done|]. by apply Hfw.
  - intros j Hj. unfold bit. simpl. destruct (decide (elem_idx j = elem_idx i)) as [E|E].
    + rewrite E, zget_zset_eq by done.
      assert (Hm : 0 <= j mod ELEM_BITS) by (apply Z.mod_pos_bound; done).
      rewrite Hf by done. destruct (Z.eqb_spec j i) as [->|Hne]; [by rewrite Z.eqb_refl|].
      destruct (Z.eqb_spec (j mod ELEM_BITS) (i mod ELEM_BITS)) as [Em|]; [|done]. destruct Hne.
      unfold elem_idx, ELEM_BITS in *. rewrite (Z.div_mod j 32), (Z.div_mod i 32) by done. congruence.
    + rewrite zget_zset_ne by auto. destruct (Z.eqb_spec j i) as [->|]; [done|done].
Qed.

Lemma bitmap_mark_ok i :
  0 <= i < bit_cnt b ->
  exists b', bitmap_mark i b = Ok (tt, b') /\ has_bits b' (fun j => if j =? i then true else bit b j).
Proof.
  intros Hi. apply (upd_elem_ok i _ (fun _ => true)); [done| |].
  - intros w [H0 H1]. pose proof (bit_mask_word i) as [M0 M1]. apply testbit_word; [by apply Z.lor_nonneg|].
    intros k Hk. by rewrite Z.lor_spec, !word_testbit.
  - intros w k _ Hk. by apply mark_testbit.
Qed.
Lemma bitmap_reset_ok i :
  0 <= i < bit_cnt b ->
  exists b', bitmap_reset i b = Ok (tt, b') /\ has_bits b' (fun j => if j =? i then false else bit b j).
Proof.
  intros Hi. apply (upd_elem_ok i _ (fun _ => false)); [done| |].
  - intros w Hw. pose proof Hw as [H0 H1]. apply testbit_word; [apply Z.land_nonneg; by left|].
    intros k Hk. by rewrite Z.land_spec, (word_testbit w).
  - intros w k Hw Hk. by apply reset_testbit.
Qed.
Lemma bitmap_flip_ok i :
  0 <= i < bit_cnt b ->
  exists b', bitmap_flip i b = Ok (tt, b') /\
    has_bits b' (fun j => if j =? i then negb (bit b i) else bit b j).
Proof.
  intros Hi. apply (upd_elem_ok i _ negb); [done| |].
  - intros w [H0 H1]. pose proof (bit_mask_word i) as [M0 M1].
    apply testbit_word; [by apply Z.lxor_nonneg|].
    intros k Hk. by rewrite Z.lxor_spec, !word_testbit.
  - intros w k _ Hk. by apply flip_testbit.
Qed.
Lemma bitmap_set_ok i v :
  0 <= i < bit_cnt b ->
  exists b', bitmap_set i v b = Ok (tt, b') /\ has_bits b' (fun j => if j =? i then v else bit b j).
Proof.
  intros Hi. unfold bitmap_set. erewrite bind_ok by reflexivity.
  rewrite ASSERT_true by (apply Z.ltb_lt; lia).
  destruct v; [by apply bitmap_mark_ok|by apply bitmap_reset_ok].
Qed.
End bitmap.

(** ** Ranges of bits *)

Lemma u32_index b i : bitmap_ok b -> 0 <= i <= bit_cnt b -> u32 i = i.
Proof. intros [H _ _] Hi. apply wrapu_small. lia. Qed.

Lemma check_range_ok b start cnt {A} (m : K bitmap A) :
  bitmap_ok b -> 0 <= start -> 0 <= cnt -> start + cnt <= bit_cnt b ->
  (check_range start cnt;; m) b = m b.
Proof.
  intros Hb H1 H2 H3. unfold check_range. rewrite bind_assoc. erewrite bind_ok by reflexivity.
  rewrite bind_assoc, ASSERT_true by (apply Z.leb_le; lia).
  by rewrite ASSERT_true by (rewrite (u32_index b) by (done || lia); apply Z.leb_le; lia).
Qed.


Lemma set_loop_ok n i start v b :
  bitmap_ok b -> 0 <= start -> 0 <= i -> start + i + Z.of_nat n <= bit_cnt b ->
  exists b', set_loop n i start v b = Ok (tt, b') /\
    has_bits b b' (fun j => if within (start + i) (Z.of_nat n) j then v else bit b j).
Proof.
  revert i b. induction n as [|n IH]; intros i b Hb Hs Hi Hle.
  - exists b. split; [done|]. split; [done|]. split; [done|]. intros j Hj. unfold within. case_cmp; done.
  - cbn [set_loop]. rewrite (u32_index b) by (done || lia).
    destruct (bitmap_set_ok b Hb (start + i) v) as (b1 & E1 & H1 & C1 & B1); [lia|]. rewrite (bind_ok _ _ _ _ _ E1).
    destruct (IH (i + 1) b1) as (b2 & E2 & H2 & C2 & B2); [done|lia..|].
    exists b2. split; [done|]. split; [done|]. split; [congruence|]. intros j Hj.
    rewrite B2, B1 by done. unfold within.
    destruct (Z.eqb_spec j (start + i)); case_cmp; done.
Qed.

Lemma bitmap_set_multiple_ok b start cnt v :
  bitmap_ok b -> 0 <= start -> 0 <= cnt -> start + cnt <= bit_cnt b ->
  exists b', bitmap_set_multiple start cnt v b = Ok (tt, b') /\
    has_bits b b' (fun j => if within start cnt j then v else bit b j).
Proof.
  intros Hb H1 H2 H3. unfold bitmap_set_multiple. rewrite check_range_ok by done.
  destruct (set_loop_ok (Z.to_nat cnt) 0 start v b) as (b' & E & Hh); [done|lia..|].
  exists b'. split; [done|]. by rewrite Z.add_0_r, Z2Nat.id in Hh.
Qed.

Lemma contains_loop_ok n i start v b :
  bitmap_ok b -> 0 <= start -> 0 <= i -> start + i + Z.of_nat n <= bit_cnt b ->
  exists r, contains_loop n i start v b = Ok (r, b) /\
    (r = true <-> exists j, start + i <= j < start + i + Z.of_nat n /\ bit b j = v).
Proof.
  revert i. induction n as [|n IH]; intros i Hb Hs Hi Hle.
  - exists false. split; [done|]. split; [done|]. intros (j & ? & _). lia.
  - cbn [contains_loop]. rewrite (u32_index b) by (done || lia).
    rewrite (bind_ok _ _ _ _ _ (bitmap_test_ok b Hb (start + i) ltac:(lia))).
    destruct (Bool.eqb (bit b (start + i)) v) eqn:E.
    + exists true. split; [done|]. split; [|done]. intros _. exists (start + i). split; [lia|].
      by apply Bool.eqb_prop.
    + apply Bool.eqb_false_iff in E. destruct (IH (i + 1)) as (r & Er & Hr); [done|lia..|].
      exists r. split; [done|]. rewrite Hr. split.
      * intros (j & ? & ?). exists j. split; [lia|done].
      * intros (j & ? & Hj). destruct (decide (j = start + i)) as [->|]; [done|]. exists j. split; [lia|done].
Qed.

Lemma bitmap_contains_ok b start cnt v :
  bitmap_ok b -> 0 <= start -> 0 <= cnt -> start + cnt <= bit_cnt b ->
  exists r, bitmap_contains start cnt v b = Ok (r, b) /\
    (r = true <-> exists j, start <= j < start + cnt /\ bit b j = v).
Proof.
  intros Hb H1 H2 H3. unfold bitmap_contains. rewrite check_range_ok by done.
  destruct (contains_loop_ok (Z.to_nat cnt) 0 start v b) as (r & E & Hr); [done|lia..|].
  exists r. split; [done|]. by rewrite Z.add_0_r, Z2Nat.id in Hr.
Qed.

(** All bits of a range are [v]. *)
Definition group (b : bitmap) (v : bool) (start cnt : Z) : Prop :=
  forall j, start <= j < start + cnt -> bit b j = v.

Lemma bool_ne_negb (x v : bool) : x <> negb v <-> x = v.
Proof. destruct x, v; simpl; split; congruence. Qed.

Lemma bitmap_all_ok b start cnt :
  bitmap_ok b -> 0 <= start -> 0 <= cnt -> start + cnt <= bit_cnt b ->
  exists r, bitmap_all start cnt b = Ok (r, b) /\ (r = true <-> group b true start cnt).
Proof.
  intros Hb H1 H2 H3. unfold bitmap_all.
  destruct (bitmap_contains_ok b start cnt false Hb H1 H2 H3) as (r & E & Hr).
  rewrite (bind_ok _ _ _ _ _ E). exists (negb r). split; [done|]. split.
  - intros Hn%negb_true_iff j Hj. apply (bool_ne_negb _ true). intros Hf. subst r.
    destruct Hr as [_ Hr]. by discriminate Hr; exists j.
  - intros Hg. apply negb_true_iff. destruct r; [|done]. destruct Hr as [Hr _].
    destruct (Hr eq_refl) as (j & Hj & Hf). by rewrite (Hg j Hj) in Hf.
Qed.

(** The first fit. *)
Lemma scan_loop_ok n i cnt v b :
  bitmap_ok b -> 0 <= i -> 0 <= cnt -> (0 < Z.of_nat n -> i + Z.of_nat n - 1 + cnt <= bit_cnt b) ->
  exists r, scan_loop n i cnt v b = Ok (r, b) /\
    ((r = BITMAP_ERROR /\ forall k, i <= k < i + Z.of_nat n -> ~ group b v k cnt) \/
     (i <= r < i + Z.of_nat n /\ group b v r cnt /\ forall k, i <= k < r -> ~ group b v k cnt)).
Proof.
  revert i. induction n as [|n IH]; intros i Hb Hi Hc Hle.
  - exists BITMAP_ERROR. split; [done|]. left. split; [done|]. lia.
  - cbn [scan_loop]. destruct (bitmap_contains_ok b i cnt (negb v)) as (r & E & Hr); [done|lia..|].
    rewrite (bind_ok _ _ _ _ _ E). destruct r.
    + assert (Hng : ~ group b v i cnt).
      { intros Hg. destruct Hr as [Hr _]. destruct (Hr eq_refl) as (j & Hj & Hf).
        specialize (Hg j Hj). rewrite Hg in Hf. by destruct v. }
      destruct (IH (i + 1)) as (r & Er & Hcase); [done|lia..|]. exists r. split; [done|].
      destruct Hcase as [[-> Hno]|(Hr1 & Hg & Hno)].
      * left. split; [done|]. intros k Hk. destruct (decide (k = i)) as [->|]; [done|]. apply Hno. lia.
      * right. split; [lia|]. split; [done|]. intros k Hk.
        destruct (decide (k = i)) as [->|]; [done|]. apply Hno. lia.
    + exists i. split; [done|]. right. split; [lia|]. split; [|lia]. intros j Hj.
      apply bool_ne_negb. intros Hf. destruct Hr as [_ Hr]. by discriminate Hr; exists j.
Qed.

Lemma bitmap_scan_ok b start cnt v :
  bitmap_ok b -> 0 <= start <= bit_cnt b -> 0 <= cnt ->
  exists r, bitmap_scan start cnt v b = Ok (r, b) /\
    ((r = BITMAP_ERROR /\ forall k, start <= k -> k + cnt <= bit_cnt b -> ~ group b v k cnt) \/
     (start <= r /\ r + cnt <= bit_cnt b /\ group b v r cnt /\
      forall k, start <= k < r -> ~ group b v k cnt)).
Proof.
  intros Hb Hs Hc. unfold bitmap_scan. erewrite bind_ok by reflexivity.
  rewrite ASSERT_true by (apply Z.leb_le; lia). destruct (Z.leb_spec cnt (bit_cnt b)).
  - cbv zeta. destruct (scan_loop_ok (Z.to_nat (bit_cnt b - cnt + 1 - start)) start cnt v b)
      as (r & E & Hcase); [done|lia..|]. exists r. split; [done|].
    destruct Hcase as [[-> Hno]|(Hr & Hg & Hno)].
    + left. split; [done|]. intros k Hk Hk'. apply Hno. lia.
    + right. split; [lia|]. split; [lia|]. by split.
  - exists BITMAP_ERROR. split; [done|]. left. split; [done|]. lia.
Qed.

Lemma bitmap_scan_and_flip_ok b start cnt v :
  bitmap_ok b -> 0 <= start <= bit_cnt b -> 0 < cnt ->
  exists r b', bitmap_scan_and_flip start cnt v b = Ok (r, b') /\
    ((r = BITMAP_ERROR /\ b' = b /\ forall k, start <= k -> k + cnt <= bit_cnt b -> ~ group b v k cnt) \/
     (start <= r /\ r + cnt <= bit_cnt b /\ group b v r cnt /\
      (forall k, start <= k < r -> ~ group b v k cnt) /\
      has_bits b b' (fun j => if within r cnt j then negb v else bit b j))).
Proof.
  intros Hb Hs Hc. unfold bitmap_scan_and_flip.
  destruct (bitmap_scan_ok b start cnt v Hb Hs) as (r & E & Hcase); [lia|].
  rewrite (bind_ok _ _ _ _ _ E). destruct Hcase as [[-> Hno]|(H1 & H2 & Hg & Hno)].
  - exists BITMAP_ERROR, b. split; [done|]. by left.
  - destruct (Z.eqb_spec r BITMAP_ERROR) as [->|Hne].
    { destruct Hb as [Hcnt _ _]. unfold BITMAP_ERROR in H2. lia. }
    cbn [negb when]. destruct (bitmap_set_multiple_ok b r cnt (negb v)) as (b' & E' & Hh); [done|lia..|].
    rewrite (bind_ok _ _ _ _ _ E'). exists r, b'. split; [done|]. right. by split_and!.
Qed.

(** [bitmap_count] counts. *)
Lemma count_loop_ok n i start v acc b :
  bitmap_ok b -> 0 <= start -> 0 <= i -> start + i + Z.of_nat n <= bit_cnt b ->
  count_loop n i start v acc b =
    Ok (acc + Z.of_nat (length (filter (fun j => bit b j = v) (seqZ (start + i) (Z.of_nat n)))), b).
Proof.
  revert i acc. induction n as [|n IH]; intros i acc Hb Hs Hi Hle.
  - simpl. by rewrite Z.add_0_r.
  - cbn [count_loop]. rewrite (u32_index b) by (done || lia).
    rewrite (bind_ok _ _ _ _ _ (bitmap_test_ok b Hb (start + i) ltac:(lia))).
    rewrite IH by (done || lia). rewrite Nat2Z.inj_succ, (seqZ_cons (start + i)) by lia.
    replace (Z.succ (start + i)) with (start + (i + 1)) by lia.
    replace (Z.pred (Z.succ (Z.of_nat n))) with (Z.of_nat n) by lia. rewrite filter_cons.
    destruct (Bool.eqb (bit b (start + i)) v) eqn:E.
    + apply Bool.eqb_prop in E. rewrite decide_True by done. simpl length. do 2 f_equal. lia.
    + apply Bool.eqb_false_iff in E. by rewrite decide_False.
Qed.
Lemma bitmap_count_ok b start cnt v :
  bitmap_ok b -> 0 <= start -> 0 <= cnt -> start + cnt <= bit_cnt b ->
  bitmap_count start cnt v b =
    Ok (Z.of_nat (length (filter (fun j => bit b j = v) (seqZ start cnt))), b).
Proof.
  intros Hb H1 H2 H3. unfold bitmap_count. rewrite check_range_ok by done.
  rewrite count_loop_ok by (done || lia). by rewrite Z.add_0_r, Z2Nat.id.
Qed.

Lemma bitmap_create_in_buf_ok n junk size :
  0 <= n < 2 ^ 32 -> bitmap_buf_size n <= size -> n <= ELEM_BITS * Z.of_nat (length junk) ->
  Forall word junk ->
  exists b, bitmap_create_in_buf n junk size = Ok b /\ bitmap_ok b /\ bit_cnt b = n /\
    forall j, 0 <= j < n -> bit b j = false.
Proof.
  intros Hn Hs Hl Hf. unfold bitmap_create_in_buf. rewrite (proj2 (Z.leb_le _ _)) by done.
  assert (Hb : bitmap_ok (mkBitmap n junk)) by done.
  destruct (bitmap_set_multiple_ok (mkBitmap n junk) 0 n false Hb) as (b & E & H1 & H2 & H3); [simpl; lia..|].
  unfold bitmap_set_all. erewrite bind_ok by reflexivity. simpl bit_cnt. rewrite E.
  exists b. split_and!; [done..|]. intros j Hj. rewrite H3 by lia. unfold within. by case_cmp.
Qed.

(** ** What a bitmap promises to the allocators that use one *)

Class BitArray (M : Type) := {
  ba_ok : M -> Prop;
  ba_size : M -> Z;
  ba_bit : M -> Z -> bool;
  ba_scan_and_flip : Z -> Z -> bool -> K M Z;
  ba_set_multiple : Z -> Z -> bool -> K M unit;
  ba_all : Z -> Z -> K M bool;
  ba_size_range m : ba_ok m -> 0 <= ba_size m < 2 ^ 32;
  ba_scan_and_flip_ok m start cnt v :
    ba_ok m -> 0 <= start <= ba_size m -> 0 < cnt ->
    exists r m', ba_scan_and_flip start cnt v m = Ok (r, m') /\
      ((r = BITMAP_ERROR /\ m' = m /\ forall k, start <= k -> k + cnt <= ba_size m ->
          ~ forall j, k <= j < k + cnt -> ba_bit m j = v) \/
       (start <= r /\ r + cnt <= ba_size m /\ (forall j, r <= j < r + cnt -> ba_bit m j = v) /\
        (forall k, start <= k < r -> ~ forall j, k <= j < k + cnt -> ba_bit m j = v) /\
        ba_ok m' /\ ba_size m' = ba_size m /\
        forall j, 0 <= j -> ba_bit m' j = if within r cnt j then negb v else ba_bit m j));
  ba_set_multiple_ok m start cnt v :
    ba_ok m -> 0 <= start -> 0 <= cnt -> start + cnt <= ba_size m ->
    exists m', ba_set_multiple start cnt v m = Ok (tt, m') /\ ba_ok m' /\ ba_size m' = ba_size m /\
      forall j, 0 <= j -> ba_bit m' j = if within start cnt j then v else ba_bit m j;
  ba_all_ok m start cnt :
    ba_ok m -> 0 <= start -> 0 <= cnt -> start + cnt <= ba_size m ->
    exists r, ba_all start cnt m = Ok (r, m) /\
      (r = true <-> forall j, start <= j < start + cnt -> ba_bit m j = true)
}.

#[export] Instance bitmap_BitArray : BitArray bitmap := {
  ba_ok := bitmap_ok; ba_size := bit_cnt; ba_bit := bit;
  ba_scan_and_flip := bitmap_scan_and_flip; ba_set_multiple := bitmap_set_multiple; ba_all := bitmap_all;
  ba_size_range := bo_cnt;
  ba_scan_and_flip_ok := bitmap_scan_and_flip_ok;
  ba_set_multiple_ok := bitmap_set_multiple_ok;
  ba_all_ok := bitmap_all_ok
}.

(** ** Properties *)

Definition ex_bitmap : bitmap := mkBitmap 40 [0xf0ff; 3].
Lemma ex_bitmap_ok : bitmap_ok ex_bitmap.
Proof. constructor; [done|done|]. by repeat constructor. Qed.

(** A bitmap is an array of bits: setting a range of bits (and so marking, resetting or
    initialising them, in words of 32) makes exactly these bits the given value, testing a bit
    returns it, and counting a range returns how many of its bits have the value. *)
Theorem bitmap_is_bit_array b start cnt v :
  bitmap_ok b -> 0 <= start -> 0 <= cnt -> start + cnt <= bit_cnt b ->
  exists b', bitmap_set_multiple start cnt v b = Ok (tt, b') /\ bitmap_ok b' /\
    (forall j, 0 <= j < bit_cnt b ->
       bitmap_test j b' = Ok (if within start cnt j then v else bit b j, b')) /\
    bitmap_count start cnt v b' = Ok (cnt, b') /\
    bitmap_contains start cnt (negb v) b' = Ok (false, b').
Proof.
  intros Hb H1 H2 H3. destruct (bitmap_set_multiple_ok b start cnt v) as (b' & E & Hb' & Ec & Hbit); [done..|].
  assert (Hin : forall j, j ∈ seqZ start cnt -> bit b' j = v).
  { intros j Hj%elem_of_seqZ. rewrite Hbit by lia. unfold within. by case_cmp. }
  exists b'. split_and!; [done..| | |].
  - intros j Hj. rewrite bitmap_test_ok by (done || lia). by rewrite Hbit by lia.
  - rewrite bitmap_count_ok by (done || lia).
    assert (El : filter (fun j => bit b' j = v) (seqZ start cnt) = seqZ start cnt).
    { clear -Hin. induction (seqZ start cnt) as [|x l IH]; [done|]. rewrite filter_cons_True by (apply Hin; left).
      f_equal. apply IH. intros j Hj. apply Hin. by right. }
    rewrite El, length_seqZ. by rewrite Z2Nat.id.
  - destruct (bitmap_contains_ok b' start cnt (negb v)) as (r & Er & Hr); [done|lia..|]. rewrite Er.
    destruct r; [|done]. destruct Hr as [Hr _]. destruct (Hr eq_refl) as (j & Hj & Hn).
    rewrite Hin in Hn by (apply elem_of_seqZ; lia). by destruct v.
Qed.
Lemma bitmap_is_bit_array_witness :
  exists b', bitmap_set_multiple 20 15 true ex_bitmap = Ok (tt, b') /\ bitmap_count 20 15 true b' = Ok (15, b').
Proof.
  destruct (bitmap_is_bit_array ex_bitmap 20 15 true) as (b' & E & _ & _ & Hc & _);
    [exact ex_bitmap_ok|lia|lia|simpl; lia|].
  exists b'. split; [exact E|exact Hc].
Defined.

(** [bitmap_scan_and_flip] takes the first group of [cnt] consecutive bits with the value,
    at or after [start], and flips exactly these; it fails only if there is no such group, and
    then changes nothing. *)
Theorem scan_and_flip_first_fit b start cnt v :
  bitmap_ok b -> 0 <= start <= bit_cnt b -> 0 < cnt ->
  exists r b', bitmap_scan_and_flip start cnt v b = Ok (r, b') /\
    ((r = BITMAP_ERROR /\ b' = b /\ forall k, start <= k -> k + cnt <= bit_cnt b -> ~ group b v k cnt) \/
     (start <= r /\ r + cnt <= bit_cnt b /\ group b v r cnt /\
      (forall k, start <= k < r -> ~ group b v k cnt) /\ bitmap_ok b' /\
      forall j, 0 <= j < bit_cnt b ->
        bitmap_test j b' = Ok (if within r cnt j then negb v else bit b j, b'))).
Proof.
  intros Hb Hs Hc. destruct (bitmap_scan_and_flip_ok b start cnt v Hb Hs Hc) as (r & b' & E & Hcase).
  exists r, b'. split; [done|]. destruct Hcase as [?|(H1 & H2 & H3 & H4 & H5 & H6 & H7)]; [by left|right].
  split_and!; [done..|]. intros j Hj. rewrite bitmap_test_ok by (done || lia). by rewrite H7 by lia.
Qed.
Lemma scan_and_flip_first_fit_witness :
  exists b', bitmap_scan_and_flip 0 6 false ex_bitmap = Ok (16, b').
Proof.
  destruct (scan_and_flip_first_fit ex_bitmap 0 6 false) as (r & b' & E & _);
    [exact ex_bitmap_ok|simpl; lia|lia|].
  exists b'. rewrite E. vm_compute in E. injection E as <- <-. reflexivity.
Defined.

(** With a count of zero the start is returned, not 0. *)
Lemma scan_and_flip_zero b start v :
  bitmap_ok b -> 0 <= start <= bit_cnt b -> bitmap_scan_and_flip start 0 v b = Ok (start, b).
Proof.
  intros Hb Hs. unfold bitmap_scan_and_flip, bitmap_scan. rewrite bind_assoc. erewrite bind_ok by reflexivity.
  rewrite bind_assoc, ASSERT_true by (apply Z.leb_le; lia). rewrite (proj2 (Z.leb_le 0 _)) by lia. cbv zeta.
  replace (Z.to_nat (bit_cnt b - 0 + 1 - start)) with (S (Z.to_nat (bit_cnt b - start))) by lia.
  assert (E : scan_loop (S (Z.to_nat (bit_cnt b - start))) start 0 v b = Ok (start, b)).
  { cbn [scan_loop]. unfold bitmap_contains. rewrite bind_assoc. by rewrite check_range_ok by (done || lia). }
  rewrite (bind_ok _ _ _ _ _ E). destruct (start =? BITMAP_ERROR) eqn:Ee; [done|]. cbn [negb when].
  unfold bitmap_set_multiple. rewrite bind_assoc. by rewrite check_range_ok by (done || lia).
Qed.
