(* ===== verification/Palloc.v ===== *)
(** The page allocator (threads/palloc.c) and the address arithmetic of
    threads/vaddr.h.

    An address is an unsigned 32-bit integer, the null pointer is 0.  The allocator
    is written against the interface of bit arrays; bitmaps implement it.  The lock
    of a pool brackets the search and has no other effect here. *)

From S2P Require Import Prelude KMonad CString Bitmap.

(** ** threads/vaddr.h *)

Definition PGBITS : Z := 12.
Definition PGSIZE : Z := 4096.
Definition PGMASK : Z := 4095.
Definition PHYS_BASE : Z := 0xc0000000.

Definition pg_ofs (va : Z) : Z := Z.land va PGMASK.
Definition pg_no (va : Z) : Z := Z.shiftr va PGBITS.
Definition pg_round_up (va : Z) : Z := Z.land (u32 (va + PGSIZE - 1)) (u32 (Z.lnot PGMASK)).
Definition pg_round_down (va : Z) : Z := Z.land va (u32 (Z.lnot PGMASK)).
Definition is_user_vaddr (va : Z) : bool := va <? PHYS_BASE.
Definition is_kernel_vaddr (va : Z) : bool := PHYS_BASE <=? va.
Definition ptov (paddr : Z) : outcome Z := if paddr <? PHYS_BASE then Ok (u32 (paddr + PHYS_BASE)) else Panic.
Definition vtop (vaddr : Z) : outcome Z := if is_kernel_vaddr vaddr then Ok (vaddr - PHYS_BASE) else Panic.

Lemma pg_ofs_mod va : pg_ofs va = va mod PGSIZE.
Proof. unfold pg_ofs. change PGMASK with (Z.ones 12). rewrite Z.land_ones by lia. done. Qed.
Lemma pg_no_div va : pg_no va = va / PGSIZE.
Proof. unfold pg_no. rewrite Z.shiftr_div_pow2 by done. done. Qed.
Lemma pg_round_down_eq va : 0 <= va < 2 ^ 32 -> pg_round_down va = va - va mod PGSIZE.
Proof.
  intros H. unfold pg_round_down. change PGMASK with (Z.ones 12).
  change (u32 (Z.lnot (Z.ones 12))) with (Z.ldiff (Z.ones 32) (Z.ones 12)).
  assert (E : Z.land va (Z.ldiff (Z.ones 32) (Z.ones 12)) = Z.ldiff va (Z.ones 12)).
  { apply Z.bits_inj_iff'. intros k Hk. rewrite Z.land_spec, !Z.ldiff_spec.
    destruct (Z_lt_le_dec k 32).
    - rewrite (Z.ones_spec_low 32) by lia. done.
    - rewrite word_testbit by done. done. }
  rewrite E, Z.ldiff_ones_r, Z.shiftl_mul_pow2, Z.shiftr_div_pow2 by done.
  change (2 ^ 12) with 4096. unfold PGSIZE. pose proof (Z.div_mod va 4096 ltac:(done)). lia.
Qed.

(** ** threads/palloc.c *)

Definition PAL_ASSERT : Z := 1.
Definition PAL_ZERO : Z := 2.
Definition PAL_USER : Z := 4.
Definition has_flag (flags f : Z) : bool := negb (Z.land flags f =? 0).

(** [memset] is taken by its effect, [memset_ram]. *)
Section palloc.
Context {M : Type} {BA : BitArray M}.

Record pool := mkPool { used_map : M; base : Z }.
Record pages := mkPages { kernel_pool : pool; user_pool : pool; ram : ram_t }.

Definition set_pool (user : bool) (p : pool) (s : pages) : pages :=
  if user then mkPages (kernel_pool s) p (ram s) else mkPages p (user_pool s) (ram s).
Definition get_pool (user : bool) (s : pages) : pool := if user then user_pool s else kernel_pool s.
Definition set_ram (m : ram_t) (s : pages) : pages := mkPages (kernel_pool s) (user_pool s) m.

(** A computation on the bitmap of a pool. *)
Definition on_map {A} (user : bool) (m : K M A) : K pages A := fun s =>
  match m (used_map (get_pool user s)) with
  | Ok (a, b) => Ok (a, set_pool user (mkPool b (base (get_pool user s))) s)
  | Panic => Panic
  | NoFuel => NoFuel
  end.

Definition palloc_get_multiple (flags page_cnt : Z) : K pages Z :=
  let user := has_flag flags PAL_USER in
  if page_cnt =? 0 then mret 0
  else
    page_idx ← on_map user (ba_scan_and_flip 0 page_cnt false);
    s ← get;
    let a := if negb (page_idx =? BITMAP_ERROR) then u32 (base (get_pool user s) + PGSIZE * page_idx) else 0 in
    (if negb (a =? 0)
     then when (has_flag flags PAL_ZERO) (modify (fun s => set_ram (memset_ram a 0 (u32 (PGSIZE * page_cnt)) (ram s)) s))
     else ASSERT (negb (has_flag flags PAL_ASSERT)));;
    mret a.
Definition palloc_get_page (flags : Z) : K pages Z := palloc_get_multiple flags 1.

Definition page_from_pool (p : pool) (page : Z) : bool :=
  let start_page := pg_no (base p) in
  let end_page := u32 (start_page + ba_size (used_map p)) in
  (start_page <=? pg_no page) && (pg_no page <? end_page).

Definition palloc_free_multiple (a page_cnt : Z) : K pages unit :=
  ASSERT (pg_ofs a =? 0);;
  if (a =? 0) || (page_cnt =? 0) then mret tt
  else
    s ← get;
    user ← (if page_from_pool (kernel_pool s) a then mret false
            else if page_from_pool (user_pool s) a then mret true
            else panic);
    let page_idx := u32 (pg_no a - pg_no (base (get_pool user s))) in
    modify (fun s => set_ram (memset_ram a 0xcc (u32 (PGSIZE * page_cnt)) (ram s)) s);;
    all ← on_map user (ba_all page_idx page_cnt); ASSERT all;;
    on_map user (ba_set_multiple page_idx page_cnt false).
Definition palloc_free_page (a : Z) : K pages unit := palloc_free_multiple a 1.
End palloc.
Arguments pool : clear implicits.
Arguments pages : clear implicits.

(** ** Starting: bitmaps in memory *)

Definition init_pool (start page_cnt : Z) (junk : list Z) : outcome (pool bitmap) :=
  let bm_pages := DIV_ROUND_UP (bitmap_buf_size page_cnt) PGSIZE in
  if page_cnt <? bm_pages then Panic
  else
    match bitmap_create_in_buf (page_cnt - bm_pages) junk (u32 (bm_pages * PGSIZE)) with
    | Ok b => Ok (mkPool b (u32 (start + bm_pages * PGSIZE)))
    | Panic => Panic
    | NoFuel => NoFuel
    end.

(** [ram0] is the memory at boot; [junk1] and [junk2] are the words of it where the
    bitmaps are put. *)
Definition palloc_init (init_ram_pages user_page_limit : Z) (junk1 junk2 : list Z) (ram0 : ram_t)
  : outcome (pages bitmap) :=
  match ptov (1024 * 1024), ptov (u32 (init_ram_pages * PGSIZE)) with
  | Ok free_start, Ok free_end =>
      let free_pages := u32 (Z.quot (s32 (free_end - free_start)) PGSIZE) in
      let user_pages := free_pages / 2 in
      let user_pages := if user_page_limit <? user_pages then user_page_limit else user_pages in
      let kernel_pages := free_pages - user_pages in
      match init_pool free_start kernel_pages junk1 with
      | Ok k =>
          match init_pool (u32 (free_start + kernel_pages * PGSIZE)) user_pages junk2 with
          | Ok u => Ok (mkPages k u ram0)
          | Panic => Panic
          | NoFuel => NoFuel
          end
      | Panic => Panic
      | NoFuel => NoFuel
      end
  | _, _ => Panic
  end.

(** ** The allocator as a set of pages *)

Section spec.
Context {M : Type} {BA : BitArray M}.
Implicit Types (p : pool M) (s : pages M).

Record pool_ok p : Prop := {
  po_map : ba_ok (used_map p);
  po_align : base p mod PGSIZE = 0;
  po_base : 0 < base p;
  po_end : base p + PGSIZE * ba_size (used_map p) <= 2 ^ 32
}.

(** The pages of a pool, by number, and those in use. *)
Definition first_page p : Z := base p / PGSIZE.
Definition owns p (n : Z) : Prop := first_page p <= n < first_page p + ba_size (used_map p).
Definition ownsb p (n : Z) : bool := within (first_page p) (ba_size (used_map p)) n.
Definition pool_used p (n : Z) : bool := ownsb p n && ba_bit (used_map p) (n - first_page p).
Definition allocated s (n : Z) : bool := pool_used (kernel_pool s) n || pool_used (user_pool s) n.

Record pages_ok s : Prop := {
  pk_kernel : pool_ok (kernel_pool s);
  pk_user : pool_ok (user_pool s);
  pk_apart : first_page (kernel_pool s) + ba_size (used_map (kernel_pool s)) <= first_page (user_pool s)
}.

Lemma get_pool_ok user s : pages_ok s -> pool_ok (get_pool user s).
Proof. intros []. by destruct user. Qed.

Lemma base_eq p : pool_ok p -> base p = PGSIZE * first_page p.
Proof. intros []. unfold first_page. pose proof (Z.div_mod (base p) PGSIZE ltac:(done)). lia. Qed.

Lemma pool_bounds p : pool_ok p -> 1 <= first_page p /\ first_page p + ba_size (used_map p) <= 2 ^ 20.
Proof.
  intros H. pose proof (base_eq p H) as E. destruct H as [_ _ Hb He]. rewrite E in *. unfold PGSIZE in *. lia.
Qed.

(** A pool whose bitmap has changed. *)
Lemma pool_ok_map p b :
  pool_ok p -> ba_ok b -> ba_size b = ba_size (used_map p) -> pool_ok (mkPool b (base p)).
Proof. intros [] Hb E. constructor; simpl; by rewrite ?E. Qed.

Lemma pages_ok_map user b s :
  pages_ok s -> ba_ok b -> ba_size b = ba_size (used_map (get_pool user s)) ->
  pages_ok (set_pool user (mkPool b (base (get_pool user s))) s).
Proof.
  intros [H1 H2 H3] Hb E. destruct user; constructor; simpl in *; try done; try (by apply pool_ok_map).
  unfold first_page in *. simpl. by rewrite E.
Qed.
Lemma pages_ok_ram m s : pages_ok s -> pages_ok (set_ram m s).
Proof. by intros []. Qed.

Lemma owns_one s n : pages_ok s -> owns (kernel_pool s) n -> ownsb (user_pool s) n = false.
Proof. intros [_ _ H]. unfold owns, ownsb, within. intros Hn. case_cmp; done. Qed.
Lemma owns_other s n : pages_ok s -> owns (user_pool s) n -> ownsb (kernel_pool s) n = false.
Proof. intros [_ _ H]. unfold owns, ownsb, within. intros Hn. case_cmp; done. Qed.
Lemma ownsb_true p n : owns p n -> ownsb p n = true.
Proof. unfold owns, ownsb, within. intros Hn. by case_cmp. Qed.

(** A page of one pool is in use if its bit is set. *)
Lemma allocated_bit user s n :
  pages_ok s -> owns (get_pool user s) n ->
  allocated s n = ba_bit (used_map (get_pool user s)) (n - first_page (get_pool user s)).
Proof.
  intros Hs Ho. unfold allocated, pool_used. destruct user; simpl in *.
  - by rewrite (owns_other s n Hs Ho), ownsb_true.
  - by rewrite (owns_one s n Hs Ho), ownsb_true, orb_false_r.
Qed.

(** Setting a range of bits of one pool. *)
Lemma allocated_set user s b r cnt v :
  pages_ok s -> 0 <= r -> 0 <= cnt -> r + cnt <= ba_size (used_map (get_pool user s)) ->
  ba_size b = ba_size (used_map (get_pool user s)) ->
  (forall j, 0 <= j -> ba_bit b j = if within r cnt j then v else ba_bit (used_map (get_pool user s)) j) ->
  forall n, allocated (set_pool user (mkPool b (base (get_pool user s))) s) n =
    if within (first_page (get_pool user s) + r) cnt n then v else allocated s n.
Proof.
  intros Hs Hr Hc Hle Es Hb n.
  assert (Hpu : pool_used (mkPool b (base (get_pool user s))) n =
    if within (first_page (get_pool user s) + r) cnt n then v else pool_used (get_pool user s) n).
  { unfold pool_used, ownsb, first_page. simpl. rewrite Es. fold (first_page (get_pool user s)).
    destruct (within (first_page (get_pool user s)) (ba_size (used_map (get_pool user s))) n) eqn:Ew.
    - unfold within in Ew. reflect_bools. simpl. rewrite Hb by lia. unfold within. case_cmp; done.
    - unfold within in *. apply andb_false_iff in Ew. destruct Ew; reflect_bools; case_cmp; done. }
  unfold allocated. destruct user; simpl in *; rewrite Hpu.
  - destruct (within _ cnt n) eqn:Ew; [|done].
    assert (Ho : owns (user_pool s) n) by (unfold within in Ew; reflect_bools; split; lia).
    unfold pool_used. by rewrite (owns_other s n Hs Ho).
  - destruct (within _ cnt n) eqn:Ew; [|done].
    assert (Ho : owns (kernel_pool s) n) by (unfold within in Ew; reflect_bools; split; lia).
    unfold pool_used. by rewrite (owns_one s n Hs Ho), orb_false_r.
Qed.

(** The pages [n .. n+cnt-1] lie in one pool. *)
Definition run_of s (user : bool) (n cnt : Z) : Prop :=
  first_page (get_pool user s) <= n /\
  n + cnt <= first_page (get_pool user s) + ba_size (used_map (get_pool user s)).

(** The same pools, with other bits and memory. *)
Definition same_pools s s' : Prop :=
  forall user, first_page (get_pool user s') = first_page (get_pool user s) /\
    ba_size (used_map (get_pool user s')) = ba_size (used_map (get_pool user s)).

Record got (flags cnt : Z) s (a : Z) s' : Prop := {
  gt_ok : pages_ok s';
  gt_same : same_pools s s';
  gt_addr : 0 < a /\ a mod PGSIZE = 0 /\ a + PGSIZE * cnt <= 2 ^ 32;
  gt_run : run_of s (has_flag flags PAL_USER) (a / PGSIZE) cnt;
  gt_free : forall n, a / PGSIZE <= n < a / PGSIZE + cnt -> allocated s n = false;
  gt_used : forall n, allocated s' n = if within (a / PGSIZE) cnt n then true else allocated s n;
  gt_ram : forall x, ram s' x =
    if has_flag flags PAL_ZERO && within a (PGSIZE * cnt) x then 0 else ram s x
}.

Lemma same_pools_map user b s :
  ba_size b = ba_size (used_map (get_pool user s)) ->
  same_pools s (set_pool user (mkPool b (base (get_pool user s))) s).
Proof. intros E u. by destruct user, u. Qed.

Lemma page_addr p r :
  pool_ok p -> 0 <= r < ba_size (used_map p) ->
  u32 (base p + PGSIZE * r) = PGSIZE * (first_page p + r) /\
  PGSIZE * (first_page p + r) / PGSIZE = first_page p + r.
Proof.
  intros Hp Hr. pose proof (base_eq p Hp) as E. pose proof (pool_bounds p Hp) as [B1 B2]. split.
  - rewrite E. rewrite wrapu_small; unfold PGSIZE in *; lia.
  - rewrite Z.mul_comm. by apply Z.div_mul.
Qed.

(** If no run of free bits fits, no run of free pages does. *)
Lemma no_fit user s cnt n :
  pages_ok s -> run_of s user n cnt ->
  (forall k, 0 <= k -> k + cnt <= ba_size (used_map (get_pool user s)) ->
     ~ forall j, k <= j < k + cnt -> ba_bit (used_map (get_pool user s)) j = false) ->
  exists m, n <= m < n + cnt /\ allocated s m = true.
Proof.
  intros Hs [N1 N2] Hno. set (n0 := first_page (get_pool user s)) in *.
  destruct (decide (Exists (fun m => allocated s m = true) (seqZ n cnt))) as [He|He].
  - apply Exists_exists in He as (m & Hm & Ha). exists m. split; [|done]. apply elem_of_seqZ in Hm. lia.
  - destruct (Hno (n - n0)); [lia..|]. intros j Hj.
    assert (Ho : owns (get_pool user s) (j + n0)) by (split; lia).
    pose proof (allocated_bit user s (j + n0) Hs Ho) as Hab. fold n0 in Hab.
    replace (j + n0 - n0) with j in Hab by lia. rewrite <- Hab.
    destruct (allocated s (j + n0)) eqn:Ea; [|done]. destruct He. apply Exists_exists.
    exists (j + n0). split; [apply elem_of_seqZ; lia|done].
Qed.

Lemma palloc_get_multiple_ok flags cnt s :
  pages_ok s -> 0 < cnt ->
  (exists a s', palloc_get_multiple flags cnt s = Ok (a, s') /\ got flags cnt s a s') \/
  ((forall n, run_of s (has_flag flags PAL_USER) n cnt -> exists m, n <= m < n + cnt /\ allocated s m = true) /\
   palloc_get_multiple flags cnt s = if has_flag flags PAL_ASSERT then Panic else Ok (0, s)).
Proof.
  intros Hs Hc. unfold palloc_get_multiple. rewrite (proj2 (Z.eqb_neq cnt 0)) by lia. cbv zeta.
  set (user := has_flag flags PAL_USER). pose proof (get_pool_ok user s Hs) as Hp.
  pose proof (ba_size_range _ (po_map _ Hp)) as Hsz. pose proof (pool_bounds _ Hp) as [B1 B2].
  destruct (ba_scan_and_flip_ok (used_map (get_pool user s)) 0 cnt false (po_map _ Hp)) as (r & b & E & Hcase);
    [lia|done|].
  assert (Em : on_map user (ba_scan_and_flip 0 cnt false) s =
            Ok (r, set_pool user (mkPool b (base (get_pool user s))) s)) by (unfold on_map; by rewrite E).
  rewrite (bind_ok _ _ _ _ _ Em). erewrite bind_ok by reflexivity.
  destruct Hcase as [(-> & -> & Hno)|(R1 & R2 & Hfree & _ & Hb & Es & Hbits)].
  - right. split.
    + intros n Hn. by apply (no_fit user s cnt).
    + simpl. destruct (has_flag flags PAL_ASSERT); [done|]. simpl.
      assert (Eid : set_pool user (mkPool (used_map (get_pool user s)) (base (get_pool user s))) s = s)
        by (destruct s as [[] [] ?], user; done).
      by rewrite Eid.
  - left. assert (Hne : r <> BITMAP_ERROR) by (unfold BITMAP_ERROR; lia).
    rewrite (proj2 (Z.eqb_neq r _) Hne). cbn [negb].
    set (s1 := set_pool user _ s). assert (Eb : base (get_pool user s1) = base (get_pool user s))
      by (unfold s1; by destruct user).
    destruct (page_addr (get_pool user s) r Hp) as [Ea Ed]; [lia|]. rewrite Eb, Ea.
    set (a := PGSIZE * (first_page (get_pool user s) + r)) in *.
    assert (Ha : 0 < a /\ a mod PGSIZE = 0 /\ a + PGSIZE * cnt <= 2 ^ 32).
    { unfold a, PGSIZE in *. split; [lia|]. split; [|lia]. rewrite Z.mul_comm. by apply Z.mod_mul. }
    rewrite (proj2 (Z.eqb_neq a 0)) by lia. cbn [negb].
    set (s2 := if has_flag flags PAL_ZERO then set_ram (memset_ram a 0 (PGSIZE * cnt) (ram s1)) s1 else s1).
    assert (Hal : forall n, allocated s2 n = if within (first_page (get_pool user s) + r) cnt n then true else allocated s n).
    { intros n. etrans; [|apply (allocated_set user s b r cnt true); try done; lia].
      unfold s2. by destruct (has_flag flags PAL_ZERO). }
    exists a, s2. split.
    { unfold s2. rewrite (wrapu_small 32 (PGSIZE * cnt)) by (unfold PGSIZE in *; lia).
      by destruct (has_flag flags PAL_ZERO). }
    constructor; rewrite ?Ed.
    + unfold s2. destruct (has_flag flags PAL_ZERO); [apply pages_ok_ram|]; by apply pages_ok_map.
    + pose proof (same_pools_map user b s Es) as Hsm. unfold s2, s1. by destruct (has_flag flags PAL_ZERO).
    + done.
    + fold user. split; lia.
    + intros n Hn. rewrite (allocated_bit user) by (done || (split; lia)). apply Hfree. lia.
    + done.
    + intros x. unfold s2, s1. destruct (has_flag flags PAL_ZERO); simpl; by destruct user.
Qed.

Lemma page_from_pool_owns p a : pool_ok p -> page_from_pool p a = ownsb p (a / PGSIZE).
Proof.
  intros Hp. pose proof (pool_bounds p Hp) as [B1 B2]. pose proof (ba_size_range _ (po_map _ Hp)).
  unfold page_from_pool, ownsb, within. rewrite !pg_no_div. fold (first_page p).
  rewrite wrapu_small by lia. done.
Qed.

(** The pool that [palloc_free_multiple] finds. *)
Lemma find_pool user s a cnt :
  pages_ok s -> 0 < cnt -> run_of s user (a / PGSIZE) cnt ->
  (if page_from_pool (kernel_pool s) a then mret false
   else if page_from_pool (user_pool s) a then mret true else panic) s = Ok (user, s).
Proof.
  intros Hs Hc [R1 R2]. rewrite !page_from_pool_owns by apply Hs.
  assert (Ho : owns (get_pool user s) (a / PGSIZE)) by (split; lia). destruct user; simpl in Ho.
  - by rewrite (owns_other s _ Hs Ho), ownsb_true.
  - by rewrite ownsb_true.
Qed.

Record freed (a cnt : Z) s s' : Prop := {
  fr_ok : pages_ok s';
  fr_same : same_pools s s';
  fr_used : forall n, allocated s' n = if within (a / PGSIZE) cnt n then false else allocated s n;
  fr_ram : forall x, ram s' x = if within a (PGSIZE * cnt) x then 0xcc else ram s x
}.

Lemma palloc_free_multiple_ok user a cnt s :
  pages_ok s -> 0 < a -> a mod PGSIZE = 0 -> 0 < cnt -> run_of s user (a / PGSIZE) cnt ->
  (exists s', palloc_free_multiple a cnt s = Ok (tt, s') /\ freed a cnt s s' /\
     forall n, a / PGSIZE <= n < a / PGSIZE + cnt -> allocated s n = true) \/
  (palloc_free_multiple a cnt s = Panic /\
   exists n, a / PGSIZE <= n < a / PGSIZE + cnt /\ allocated s n = false).
Proof.
  intros Hs Ha0 Ham Hc Hrun. pose proof Hrun as [R1 R2]. set (n0 := first_page (get_pool user s)) in *.
  pose proof (get_pool_ok user s Hs) as Hp. pose proof (pool_bounds _ Hp) as [B1 B2]. fold n0 in B1, B2.
  unfold palloc_free_multiple. rewrite pg_ofs_mod, Ham, ASSERT_true by done.
  rewrite (proj2 (Z.eqb_neq a 0)), (proj2 (Z.eqb_neq cnt 0)) by lia. cbn [orb].
  erewrite bind_ok by reflexivity. rewrite (bind_ok _ _ _ _ _ (find_pool user s a cnt Hs Hc Hrun)). cbv zeta.
  rewrite !pg_no_div. fold (first_page (get_pool user s)). fold n0.
  rewrite (wrapu_small 32 (a / PGSIZE - n0)), (wrapu_small 32 (PGSIZE * cnt)) by (unfold PGSIZE in *; lia).
  erewrite bind_ok by reflexivity. set (s1 := set_ram _ s).
  assert (Eg : get_pool user s1 = get_pool user s) by (by destruct user).
  assert (Hs1 : pages_ok s1) by (by apply pages_ok_ram).
  destruct (ba_all_ok (used_map (get_pool user s)) (a / PGSIZE - n0) cnt (po_map _ Hp)) as (r & Er & Hr); [lia..|].
  assert (Em : on_map user (ba_all (a / PGSIZE - n0) cnt) s1 = Ok (r, s1)).
  { unfold on_map. rewrite Eg, Er. by destruct s as [[] [] ?], user. }
  rewrite (bind_ok _ _ _ _ _ Em).
  assert (Hbit : forall n, a / PGSIZE <= n < a / PGSIZE + cnt ->
            allocated s n = ba_bit (used_map (get_pool user s)) (n - n0)).
  { intros n Hn. apply (allocated_bit user); [done|split; lia]. }
  destruct r.
  - left. rewrite ASSERT_true by done.
    destruct (ba_set_multiple_ok (used_map (get_pool user s)) (a / PGSIZE - n0) cnt false (po_map _ Hp))
      as (b & Eb & Hb & Es & Hbs); [lia..|].
    exists (set_pool user (mkPool b (base (get_pool user s1))) s1). split; [|split].
    + unfold on_map. by rewrite Eg, Eb.
    + constructor.
      * apply pages_ok_map; [done..|by rewrite Eg].
      * intros u. by destruct user, u.
      * intros n. rewrite (allocated_set user s1 b (a / PGSIZE - n0) cnt false);
          rewrite ?Eg; try done; try lia. fold n0. by replace (n0 + (a / PGSIZE - n0)) with (a / PGSIZE) by lia.
      * intros x. by destruct user.
    + intros n Hn. rewrite Hbit by done. apply Hr; [done|lia].
  - right. split; [done|].
    destruct (decide (Exists (fun m => allocated s m = false) (seqZ (a / PGSIZE) cnt))) as [He|He].
    + apply Exists_exists in He as (m & Hm & Hf). exists m. split; [|done]. apply elem_of_seqZ in Hm. lia.
    + destruct Hr as [_ Hr]. discriminate Hr. intros j Hj.
      destruct (ba_bit (used_map (get_pool user s)) j) eqn:Ej; [done|]. destruct He. apply Exists_exists.
      exists (j + n0). split; [apply elem_of_seqZ; lia|]. rewrite Hbit by lia. by replace (j + n0 - n0) with j by lia.
Qed.
End spec.

(** ** Starting *)

Ltac div_lia := Z.to_euclidean_division_equations; lia.

(** The pages of a pool of [n] pages that hold its bitmap. *)
Definition map_pages (n : Z) : Z := DIV_ROUND_UP (bitmap_buf_size n) PGSIZE.
Lemma map_pages_eq n : 0 <= n <= 2 ^ 20 -> map_pages n = (8 + 4 * ((n + 31) / 32) + 4095) / 4096.
Proof.
  intros Hn. unfold map_pages, bitmap_buf_size, byte_cnt, elem_cnt, DIV_ROUND_UP, sizeof_bitmap, ELEM_BITS, PGSIZE.
  rewrite (wrapu_small 32 (n + 32 - 1)) by lia. replace (n + 32 - 1) with (n + 31) by lia.
  assert (0 <= (n + 31) / 32 <= 2 ^ 16) by div_lia.
  rewrite (wrapu_small 32 (4 * _)) by lia. rewrite (wrapu_small 32 (8 + _)) by lia.
  rewrite wrapu_small by lia. f_equal. lia.
Qed.
Lemma map_pages_bounds n : 1 <= n <= 2 ^ 20 ->
  1 <= map_pages n <= n /\ bitmap_buf_size n <= PGSIZE * map_pages n /\
  bitmap_buf_size n = 8 + 4 * ((n + 31) / 32).
Proof.
  intros Hn.
  assert (E : bitmap_buf_size n = 8 + 4 * ((n + 31) / 32)).
  { unfold bitmap_buf_size, byte_cnt, elem_cnt, DIV_ROUND_UP, sizeof_bitmap, ELEM_BITS.
    rewrite (wrapu_small 32 (n + 32 - 1)) by lia. replace (n + 32 - 1) with (n + 31) by lia.
    assert (0 <= (n + 31) / 32 <= 2 ^ 16) by div_lia.
    rewrite (wrapu_small 32 (4 * _)) by lia. by rewrite wrapu_small by lia. }
  rewrite E, map_pages_eq by lia. unfold PGSIZE. split; [|split; [|done]]; div_lia.
Qed.

Lemma buf_size_mono n m : 0 <= m <= n -> n <= 2 ^ 20 -> bitmap_buf_size m <= bitmap_buf_size n.
Proof.
  intros Hm Hn. unfold bitmap_buf_size, byte_cnt, elem_cnt, DIV_ROUND_UP, sizeof_bitmap, ELEM_BITS.
  rewrite (wrapu_small 32 (n + 32 - 1)), (wrapu_small 32 (m + 32 - 1)) by lia.
  assert (0 <= (n + 32 - 1) / 32 <= 2 ^ 16) by div_lia.
  assert (0 <= (m + 32 - 1) / 32 <= (n + 32 - 1) / 32) by div_lia.
  rewrite !(wrapu_small 32 (4 * _)) by lia. rewrite !wrapu_small by lia. lia.
Qed.

Lemma init_pool_ok start n junk :
  1 <= n <= 2 ^ 20 -> 0 < start -> start mod PGSIZE = 0 -> start + PGSIZE * n < 2 ^ 32 ->
  Z.of_nat (length junk) = 1024 * map_pages n - 2 -> Forall word junk ->
  exists p, init_pool start n junk = Ok p /\ pool_ok p /\ base p = start + PGSIZE * map_pages n /\
    bit_cnt (used_map p) = n - map_pages n /\ forall m, pool_used p m = false.
Proof.
  intros Hn Hs Ham He Hj Hw. destruct (map_pages_bounds n Hn) as ([M1 M2] & M3 & M4).
  unfold init_pool. fold (map_pages n). cbv zeta. rewrite (proj2 (Z.ltb_ge _ _)) by lia.
  rewrite (wrapu_small 32 (_ * PGSIZE)) by (unfold PGSIZE in *; lia).
  destruct (bitmap_create_in_buf_ok (n - map_pages n) junk (map_pages n * PGSIZE)) as (b & E & Hb & Eb & Hz);
    [lia| |unfold ELEM_BITS; rewrite Hj; unfold PGSIZE in M3; div_lia|done|].
  { etrans; [|rewrite Z.mul_comm; exact M3]. apply buf_size_mono; lia. }
  rewrite E. rewrite wrapu_small by (unfold PGSIZE in *; lia).
  eexists. split; [reflexivity|]. split_and!; simpl; try done.
  - constructor; simpl; try done; unfold PGSIZE in *; rewrite ?Eb; try lia.
    rewrite Z.mod_add by done. done.
  - lia.
  - intros m. unfold pool_used, ownsb, within. simpl. rewrite Eb. case_cmp; try done. simpl. apply Hz. lia.
Qed.

Lemma ptov_ok a : 0 <= a < 2 ^ 30 -> ptov a = Ok (a + PHYS_BASE).
Proof.
  intros Ha. unfold ptov, PHYS_BASE. rewrite (proj2 (Z.ltb_lt _ _)) by lia. by rewrite wrapu_small by lia.
Qed.

(** The shares of the two pools. *)
Definition user_share (ram_pages limit : Z) : Z := Z.min ((ram_pages - 256) / 2) limit.
Definition kernel_share (ram_pages limit : Z) : Z := ram_pages - 256 - user_share ram_pages limit.

Lemma palloc_init_ok ram_pages limit junk1 junk2 ram0 :
  258 <= ram_pages < 2 ^ 18 -> 1 <= limit ->
  Z.of_nat (length junk1) = 1024 * map_pages (kernel_share ram_pages limit) - 2 -> Forall word junk1 ->
  Z.of_nat (length junk2) = 1024 * map_pages (user_share ram_pages limit) - 2 -> Forall word junk2 ->
  exists s, palloc_init ram_pages limit junk1 junk2 ram0 = Ok s /\ pages_ok s /\
    forall n, allocated s n = false.
Proof.
  intros Hr Hl J1 W1 J2 W2. unfold palloc_init. rewrite (ptov_ok (1024 * 1024)) by lia.
  unfold PGSIZE in *. rewrite (wrapu_small 32 (ram_pages * 4096)) by lia. rewrite ptov_ok by lia.
  set (fs := 1024 * 1024 + PHYS_BASE).
  assert (Ef : u32 (Z.quot (s32 (ram_pages * 4096 + PHYS_BASE - fs)) 4096) = ram_pages - 256).
  { unfold fs. rewrite wraps_small by lia. replace (_ - _) with ((ram_pages - 256) * 4096) by lia.
    rewrite Z.quot_mul by done. apply wrapu_small. lia. }
  rewrite Ef. cbv zeta.
  assert (Eu : (if limit <? (ram_pages - 256) / 2 then limit else (ram_pages - 256) / 2) = user_share ram_pages limit)
    by (unfold user_share; case_cmp; lia).
  rewrite Eu. fold (kernel_share ram_pages limit).
  set (ku := kernel_share ram_pages limit) in *. set (us := user_share ram_pages limit) in *.
  assert (Hus : 1 <= us /\ us <= ram_pages - 257) by (unfold us, user_share; div_lia).
  assert (Hku : ku = ram_pages - 256 - us) by done.
  destruct (init_pool_ok fs ku junk1) as (k & Ek & Pk & Bk & Sk & Zk); unfold fs, PHYS_BASE, PGSIZE in *;
    [lia|lia|done|lia|done|done|].
  rewrite Ek. rewrite wrapu_small by lia.
  destruct (init_pool_ok (1024 * 1024 + 0xc0000000 + ku * 4096) us junk2) as (u & Eus & Pu & Bu & Su & Zu);
    unfold PGSIZE in *; [lia|lia| |lia|done|done|].
  { rewrite Z.mod_add by done. done. }
  rewrite Eus. exists (mkPages k u ram0). split; [done|]. split.
  - constructor; simpl; [done..|]. pose proof (base_eq k Pk) as Xk. pose proof (base_eq u Pu) as Xu.
    unfold PGSIZE in Xk, Xu. rewrite Sk. pose proof (map_pages_bounds us). lia.
  - intros n. unfold allocated. simpl. by rewrite Zk, Zu.
Qed.

(** ** What the page allocator promises to [malloc] *)

Class PageAllocator (S : Type) := {
  pa_ok : S -> Prop;
  pa_used : S -> Z -> bool;
  pa_run : S -> Z -> Z -> Prop;
  pa_get : Z -> K S Z;
  pa_free : Z -> Z -> K S unit;
  pa_ram : S -> ram_t;
  pa_set_ram : ram_t -> S -> S;
  pa_ram_set m s : pa_ram (pa_set_ram m s) = m;
  pa_set_ok m s : pa_ok s -> pa_ok (pa_set_ram m s);
  pa_set_used m s n : pa_used (pa_set_ram m s) n = pa_used s n;
  pa_set_run m s n c : pa_run (pa_set_ram m s) n c <-> pa_run s n c;
  pa_get_zero s : pa_get 0 s = Ok (0, s);
  pa_get_ok s cnt :
    pa_ok s -> 0 < cnt ->
    exists a s', pa_get cnt s = Ok (a, s') /\ pa_ok s' /\ (forall n c, pa_run s' n c <-> pa_run s n c) /\
      (forall x, pa_ram s' x = pa_ram s x) /\
      ((a = 0 /\ s' = s) \/
       (0 < a /\ a mod PGSIZE = 0 /\ a + PGSIZE * cnt <= 2 ^ 32 /\ pa_run s (a / PGSIZE) cnt /\
        (forall n, a / PGSIZE <= n < a / PGSIZE + cnt -> pa_used s n = false) /\
        forall n, pa_used s' n = if within (a / PGSIZE) cnt n then true else pa_used s n));
  pa_free_ok s a cnt :
    pa_ok s -> 0 < a -> a mod PGSIZE = 0 -> 0 < cnt -> pa_run s (a / PGSIZE) cnt ->
    (forall n, a / PGSIZE <= n < a / PGSIZE + cnt -> pa_used s n = true) ->
    exists s', pa_free a cnt s = Ok (tt, s') /\ pa_ok s' /\ (forall n c, pa_run s' n c <-> pa_run s n c) /\
      (forall x, pa_ram s' x = if within a (PGSIZE * cnt) x then 0xcc else pa_ram s x) /\
      forall n, pa_used s' n = if within (a / PGSIZE) cnt n then false else pa_used s n
}.

Lemma same_pools_run {M} {BA : BitArray M} (s s' : pages M) user n c :
  same_pools s s' -> run_of s' user n c <-> run_of s user n c.
Proof. intros H. destruct (H user) as [E1 E2]. unfold run_of. by rewrite E1, E2. Qed.

#[export] Program Instance pages_PageAllocator {M} {BA : BitArray M} : PageAllocator (pages M) := {
  pa_ok := pages_ok; pa_used := allocated;
  pa_run s n c := exists user, run_of s user n c;
  pa_get := palloc_get_multiple 0; pa_free := palloc_free_multiple; pa_ram := ram; pa_set_ram := set_ram
}.
Next Obligation. done. Qed.
Next Obligation. intros. by apply pages_ok_ram. Qed.
Next Obligation. done. Qed.
Next Obligation. done. Qed.
Next Obligation. done. Qed.
Next Obligation.
  intros M BA s cnt Hs Hc. destruct (palloc_get_multiple_ok 0 cnt s Hs Hc) as [(a & s' & E & G)|[_ E]].
  - destruct G as [G1 G2 G3 G4 G5 G6 G7]. exists a, s'. split_and!; [done..| | |].
    + intros n c. by setoid_rewrite (same_pools_run s s' _ n c G2).
    + intros x. apply G7.
    + right. destruct G3 as (? & ? & ?). split_and!; try done. by eexists.
  - exists 0, s. split_and!; [done..|]. by left.
Qed.
Next Obligation.
  intros M BA s a cnt Hs Ha Ham Hc [user Hr] Hall.
  destruct (palloc_free_multiple_ok user a cnt s) as [(s' & E & [F1 F2 F3 F4] & _)|(_ & n & Hn & Hf)]; [done..| |].
  - exists s'. split_and!; [done..| |done|done]. intros n c. by setoid_rewrite (same_pools_run s s' _ n c F2).
  - by rewrite (Hall n Hn) in Hf.
Qed.

(** ** A client of the allocator *)

Section client.
Context {M : Type} {BA : BitArray M}.

(** The blocks that have been handed out and not been freed, by address. *)
Definition client : Type := pages M * gmap Z Z.

Inductive palloc_step : client -> client -> Prop :=
| step_get flags cnt a s s' held :
    0 < cnt -> palloc_get_multiple flags cnt s = Ok (a, s') ->
    palloc_step (s, held) (s', if a =? 0 then held else <[a := cnt]> held)
| step_free a cnt s s' held :
    held !! a = Some cnt -> palloc_free_multiple a cnt s = Ok (tt, s') ->
    palloc_step (s, held) (s', delete a held).

Definition in_block (a cnt n : Z) : Prop := a / PGSIZE <= n < a / PGSIZE + cnt.

Record client_ok (c : client) : Prop := {
  co_pages : pages_ok (fst c);
  co_block a cnt : snd c !! a = Some cnt ->
    0 < a /\ a mod PGSIZE = 0 /\ 0 < cnt /\ a + PGSIZE * cnt <= 2 ^ 32 /\
    exists user, run_of (fst c) user (a / PGSIZE) cnt;
  co_apart a cnt a' cnt' n : snd c !! a = Some cnt -> snd c !! a' = Some cnt' ->
    in_block a cnt n -> in_block a' cnt' n -> a = a';
  co_used n : allocated (fst c) n = true <-> exists a cnt, snd c !! a = Some cnt /\ in_block a cnt n
}.

Lemma within_in_block a cnt n : within (a / PGSIZE) cnt n = true <-> in_block a cnt n.
Proof. unfold within, in_block. rewrite andb_true_iff, Z.leb_le, Z.ltb_lt. lia. Qed.

Lemma client_get flags cnt a s s' held :
  client_ok (s, held) -> 0 < cnt -> got flags cnt s a s' -> client_ok (s', <[a := cnt]> held).
Proof.
  intros [C1 C2 C3 C4] Hc [G1 G2 (A1 & A2 & A3) G4 G5 G6 _]. simpl in *.
  assert (Hfresh : forall b d n, held !! b = Some d -> in_block b d n -> in_block a cnt n -> False).
  { intros b d n Hb Hn Hn'. assert (Hu : allocated s n = true) by (apply C4; eauto).
    rewrite (G5 n Hn') in Hu. done. }
  constructor; simpl; [done|..].
  - intros b d. rewrite lookup_insert_Some. intros [[<- <-]|[_ Hb]].
    + split_and!; try done. exists (has_flag flags PAL_USER). by apply (same_pools_run s s').
    + destruct (C2 b d Hb) as (? & ? & ? & ? & user & Hr). split_and!; try done.
      exists user. by apply (same_pools_run s s').
  - intros b d b' d' n. rewrite !lookup_insert_Some. intros [[<- <-]|[? Hb]] [[<- <-]|[? Hb']] Hn Hn'; try done.
    + by destruct (Hfresh b' d' n).
    + by destruct (Hfresh b d n).
    + by eapply C3.
  - intros n. rewrite G6. destruct (within (a / PGSIZE) cnt n) eqn:Ew.
    + apply within_in_block in Ew. split; [|done]. intros _. exists a, cnt. by rewrite lookup_insert_eq.
    + rewrite C4. split.
      * intros (b & d & Hb & Hn). exists b, d. rewrite lookup_insert_ne; [done|]. intros <-.
        destruct (C2 a d Hb) as (_ & _ & Hd & _). apply (Hfresh a d (a / PGSIZE)); [done|unfold in_block; lia..].
      * intros (b & d & Hb & Hn). rewrite lookup_insert_Some in Hb. destruct Hb as [[<- <-]|[_ Hb]]; [|eauto].
        apply within_in_block in Hn. congruence.
Qed.

Lemma client_free a cnt s s' held :
  client_ok (s, held) -> held !! a = Some cnt -> freed a cnt s s' -> client_ok (s', delete a held).
Proof.
  intros [C1 C2 C3 C4] Ha [F1 F2 F3 _]. simpl in *. constructor; simpl; [done|..].
  - intros b d [_ Hb]%lookup_delete_Some. destruct (C2 b d Hb) as (? & ? & ? & ? & user & Hr).
    split_and!; try done. exists user. by apply (same_pools_run s s').
  - intros b d b' d' n [_ Hb]%lookup_delete_Some [_ Hb']%lookup_delete_Some. by apply C3.
  - intros n. rewrite F3. destruct (within (a / PGSIZE) cnt n) eqn:Ew.
    + apply within_in_block in Ew. split; [done|]. intros (b & d & [Hne Hb]%lookup_delete_Some & Hn).
      by destruct (Hne (C3 a cnt b d n Ha Hb Ew Hn)).
    + rewrite C4. split.
      * intros (b & d & Hb & Hn). exists b, d. rewrite lookup_delete_ne; [done|]. intros <-.
        rewrite Ha in Hb. simplify_eq. apply within_in_block in Hn. congruence.
      * intros (b & d & [_ Hb]%lookup_delete_Some & Hn). eauto.
Qed.

Lemma client_step c c' : client_ok c -> palloc_step c c' -> client_ok c'.
Proof.
  intros Hc Hs. revert Hc. destruct Hs as [flags cnt a s s' held Hcnt E|a cnt s s' held Ha E]; intros Hc.
  - destruct (palloc_get_multiple_ok flags cnt s) as [(a1 & s1 & E1 & G)|[_ E1]]; [apply Hc|done| |].
    + rewrite E1 in E. simplify_eq. destruct (Z.eqb_spec a 0) as [->|].
      * by destruct (gt_addr _ _ _ _ _ G) as [? _].
      * by eapply client_get.
    + rewrite E1 in E. destruct (has_flag flags PAL_ASSERT); by simplify_eq.
  - destruct (co_block _ Hc a cnt Ha) as (? & ? & ? & ? & user & Hr).
    destruct (palloc_free_multiple_ok user a cnt s) as [(s1 & E1 & F & _)|[E1 _]]; [apply Hc|done..| |].
    + rewrite E1 in E. simplify_eq. by eapply client_free.
    + by rewrite E1 in E.
Qed.
End client.

(** ** Properties *)

(** [palloc_get_multiple] returns the address of page-aligned, contiguous pages of the
    chosen pool that nobody else has, marks exactly these as used, clears them if asked to and
    leaves all other memory alone; or it fails, with a null pointer or a panic as the flags ask,
    only when no run of free pages in that pool is long enough. *)
Theorem palloc_get_first_fit {M} {BA : BitArray M} flags cnt (s : pages M) :
  pages_ok s -> 0 < cnt ->
  (exists a s', palloc_get_multiple flags cnt s = Ok (a, s') /\ got flags cnt s a s') \/
  ((forall n, run_of s (has_flag flags PAL_USER) n cnt -> exists m, n <= m < n + cnt /\ allocated s m = true) /\
   palloc_get_multiple flags cnt s = if has_flag flags PAL_ASSERT then Panic else Ok (0, s)).
Proof. apply palloc_get_multiple_ok. Qed.

(** A machine with 384 pages of memory and at most 40 user pages. *)
Definition ex_junk (n : Z) : list Z := replicate (Z.to_nat (1024 * map_pages n - 2)) 0xffffffff.
Definition ex_boot : outcome (pages bitmap) :=
  palloc_init 384 40 (ex_junk (kernel_share 384 40)) (ex_junk (user_share 384 40)) (fun _ => 0).
Definition ex_pages : pages bitmap :=
  match ex_boot with
  | Ok s => s
  | _ => mkPages (mkPool (mkBitmap 0 []) 0) (mkPool (mkBitmap 0 []) 0) (fun _ => 0)
  end.
Lemma ex_junk_words n : Forall word (ex_junk n).
Proof. by apply Forall_replicate. Qed.
Lemma ex_boot_ok : ex_boot = Ok ex_pages /\ pages_ok ex_pages /\ forall n, allocated ex_pages n = false.
Proof.
  pose proof ex_junk_words as W.
  destruct (palloc_init_ok 384 40 (ex_junk (kernel_share 384 40)) (ex_junk (user_share 384 40)) (fun _ => 0))
    as (s & E & Hs); [done|done|vm_compute; done|done|vm_compute; done|done|].
  fold ex_boot in E. unfold ex_pages. rewrite E. split; [reflexivity|exact Hs].
Qed.
Lemma ex_get_addr :
  match palloc_get_multiple PAL_ZERO 3 ex_pages with Ok (a, _) => a =? 0xc0101000 | _ => false end = true.
Proof. vm_compute. reflexivity. Qed.
Lemma palloc_get_first_fit_witness :
  exists a s', palloc_get_multiple PAL_ZERO 3 ex_pages = Ok (a, s') /\ got PAL_ZERO 3 ex_pages a s'.
Proof.
  destruct (palloc_get_first_fit PAL_ZERO 3 ex_pages) as [H|[_ H]]; [apply ex_boot_ok|lia|exact H|].
  pose proof ex_get_addr as T. rewrite H in T. discriminate T.
Defined.

(** C15: From [palloc_init] on, whatever sequence of allocations and frees the kernel performs,
    the blocks handed out lie in memory, do not overlap, and are exactly the pages marked as used;
    and freeing a block that is held never fails. *)
Theorem palloc_blocks_apart ram_pages limit junk1 junk2 ram0 s0 s (held : gmap Z Z) :
  258 <= ram_pages < 2 ^ 18 -> 1 <= limit ->
  Z.of_nat (length junk1) = 1024 * map_pages (kernel_share ram_pages limit) - 2 -> Forall word junk1 ->
  Z.of_nat (length junk2) = 1024 * map_pages (user_share ram_pages limit) - 2 -> Forall word junk2 ->
  palloc_init ram_pages limit junk1 junk2 ram0 = Ok s0 ->
  rtc palloc_step (s0, ∅) (s, held) ->
  client_ok (s, held) /\
  forall a cnt, held !! a = Some cnt -> exists s', palloc_free_multiple a cnt s = Ok (tt, s').
Proof.
  intros Hr Hl J1 W1 J2 W2 Hi Hsteps.
  assert (C : client_ok (s, held)).
  { destruct (palloc_init_ok ram_pages limit junk1 junk2 ram0) as (s1 & E & Hs1 & Hz); [done..|].
    rewrite Hi in E. injection E as <-.
    eapply (rtc_invariant palloc_step client_ok); [exact client_step|exact Hsteps|].
    constructor; simpl; [done|by intros ? ? ?%lookup_empty_Some|by intros ? ? ? ? ? ?%lookup_empty_Some|].
    intros n. rewrite Hz.
    split; [done|]. by intros (? & ? & ?%lookup_empty_Some & _). }
  split; [done|]. intros a cnt Ha. destruct (co_block _ C a cnt Ha) as (? & ? & ? & ? & user & Hrun).
  destruct (palloc_free_multiple_ok user a cnt s) as [(s' & E & _)|(_ & n & Hn & Hf)]; [apply C|done..|eauto|].
  assert (Hu : allocated s n = true) by (apply (co_used _ C); eauto). by rewrite Hu in Hf.
Qed.
Lemma palloc_blocks_apart_witness :
  exists s held, rtc palloc_step (ex_pages, ∅) (s, held) /\ held = {[ 0xc0101000 := 3 ]} /\ client_ok (s, held).
Proof.
  pose proof ex_get_addr as T.
  destruct (palloc_get_multiple_ok PAL_ZERO 3 ex_pages) as [(a & s' & E & _)|[_ H]];
    [apply ex_boot_ok|lia| |rewrite H in T; discriminate T].
  assert (Ea : a = 0xc0101000) by (rewrite E in T; apply Z.eqb_eq; exact T). clear T.
  exists s', {[ 0xc0101000 := 3 ]}.
  assert (R : rtc palloc_step (ex_pages, ∅) (s', {[ 0xc0101000 := 3 ]})).
  { apply rtc_once. rewrite Ea in E. exact (step_get PAL_ZERO 3 0xc0101000 ex_pages s' ∅ eq_refl E). }
  split; [exact R|]. split; [reflexivity|].
  refine (proj1 (palloc_blocks_apart 384 40 (ex_junk (kernel_share 384 40)) (ex_junk (user_share 384 40))
    (fun _ => 0) ex_pages s' {[ 0xc0101000 := 3 ]} _ _ _ (ex_junk_words _) _ (ex_junk_words _) (proj1 ex_boot_ok) R)).
  - split; [discriminate|reflexivity].
  - discriminate.
  - vm_compute. reflexivity.
  - vm_compute. reflexivity.
Defined.
