(* ===== verification/Malloc.v ===== *)
(** The heap (threads/malloc.c), over the interface of page allocators.

    The headers of arenas are kept in a map by address instead of as bytes: an arena
    that is not in the map stands for memory without the magic number, which is what
    [palloc_free_multiple] leaves behind.  A free list is the list of the addresses of
    its blocks.  The contents of blocks are bytes of the memory of the allocator.  The
    locks of the descriptors have no other effect than to bracket an operation. *)

From S2P Require Import Prelude KMonad CString Bitmap Palloc.

Record desc := mkDesc { d_block_size : Z; blocks_per_arena : Z; free_list : list Z }.

Definition ARENA_MAGIC : Z := 0x9a548eed.
Definition sizeof_arena : Z := 12.

(** [a_desc] is the index of the descriptor; [None] stands for a null pointer. *)
Record arena := mkArena { magic : Z; a_desc : option nat; free_cnt : Z }.

Section malloc.
Context {S : Type} {PA : PageAllocator S}.

Record heap := mkHeap { pg : S; descs : list desc; arenas : gmap Z arena }.

Definition on_pages {A} (m : K S A) : K heap A := fun h =>
  match m (pg h) with
  | Ok (a, s) => Ok (a, mkHeap s (descs h) (arenas h))
  | Panic => Panic
  | NoFuel => NoFuel
  end.
Definition on_ram {A} (m : K ram_t A) : K heap A := fun h =>
  match m (pa_ram (pg h)) with
  | Ok (a, r) => Ok (a, mkHeap (pa_set_ram r (pg h)) (descs h) (arenas h))
  | Panic => Panic
  | NoFuel => NoFuel
  end.
Definition set_arena (a : Z) (ar : arena) : K heap unit :=
  modify (fun h => mkHeap (pg h) (descs h) (<[a := ar]> (arenas h))).
Definition set_free_list (i : nat) (l : list Z) : K heap unit :=
  modify (fun h => mkHeap (pg h) (alter (fun d => mkDesc (d_block_size d) (blocks_per_arena d) l) i (descs h)) (arenas h)).
(** Freed pages lose their header. *)
Definition free_pages (a cnt : Z) : K heap unit :=
  on_pages (pa_free a cnt);;
  modify (fun h => mkHeap (pg h) (descs h) (delete a (arenas h))).

Definition arena_at (a : Z) : K heap arena := h ← get; the (arenas h !! a).
Definition desc_at (i : nat) : K heap desc := h ← get; the (descs h !! i).

Definition block_to_arena (b : Z) : K heap Z :=
  let a := pg_round_down b in
  ASSERT (negb (a =? 0));;
  ar ← arena_at a;
  ASSERT (magic ar =? ARENA_MAGIC);;
  match a_desc ar with
  | Some i => d ← desc_at i; ASSERT (u32 (pg_ofs b - sizeof_arena) mod d_block_size d =? 0)
  | None => ASSERT (pg_ofs b =? sizeof_arena)
  end;;
  mret a.

Definition arena_to_block (a idx : Z) : K heap Z :=
  ASSERT (negb (a =? 0));;
  ar ← arena_at a;
  ASSERT (magic ar =? ARENA_MAGIC);;
  i ← the (a_desc ar);
  d ← desc_at i;
  ASSERT (idx <? blocks_per_arena d);;
  mret (a + sizeof_arena + idx * d_block_size d).

Definition push_back (i : nat) (b : Z) : K heap unit := d ← desc_at i; set_free_list i (free_list d ++ [b]).
Definition push_front (i : nat) (b : Z) : K heap unit := d ← desc_at i; set_free_list i (b :: free_list d).
Definition pop_front (i : nat) : K heap Z :=
  d ← desc_at i;
  match free_list d with
  | [] => panic
  | b :: l => set_free_list i l;; mret b
  end.
(** A block is on a free list once. *)
Definition remove (i : nat) (b : Z) : K heap unit :=
  d ← desc_at i;
  ASSERT (bool_decide (b ∈ free_list d));;
  set_free_list i (filter (fun x => x <> b) (free_list d)).

Fixpoint malloc_init_loop (fuel : nat) (bsize : Z) (ds : list desc) : outcome (list desc) :=
  match fuel with
  | O => NoFuel
  | Datatypes.S fuel' =>
      if bsize <? PGSIZE / 2
      then
        let ds := ds ++ [mkDesc bsize ((PGSIZE - sizeof_arena) / bsize) []] in
        if (length ds <=? 10)%nat then malloc_init_loop fuel' (u32 (bsize * 2)) ds else Panic
      else Ok ds
  end.
Definition malloc_init (s : S) : outcome heap :=
  match malloc_init_loop 32 16 [] with
  | Ok ds => Ok (mkHeap s ds ∅)
  | Panic => Panic
  | NoFuel => NoFuel
  end.

(** The smallest descriptor that satisfies a request. *)
Definition find_desc (size : Z) (ds : list desc) : option nat :=
  fst <$> list_find (fun d => size <= d_block_size d) ds.

Definition new_arena (i : nat) : K heap bool :=
  d ← desc_at i;
  a ← on_pages (pa_get 1);
  if a =? 0 then mret false
  else
    set_arena a (mkArena ARENA_MAGIC (Some i) (blocks_per_arena d));;
    iterM (seqZ 0 (blocks_per_arena d)) (fun k => b ← arena_to_block a k; push_back i b);;
    mret true.

Definition take_block (i : nat) : K heap Z :=
  b ← pop_front i;
  a ← block_to_arena b;
  ar ← arena_at a;
  set_arena a (mkArena (magic ar) (a_desc ar) (u32 (free_cnt ar - 1)));;
  mret b.

Definition malloc_big (size : Z) : K heap Z :=
  let page_cnt := DIV_ROUND_UP (u32 (size + sizeof_arena)) PGSIZE in
  a ← on_pages (pa_get page_cnt);
  if a =? 0 then mret 0
  else set_arena a (mkArena ARENA_MAGIC None page_cnt);; mret (a + sizeof_arena).

Definition malloc (size : Z) : K heap Z :=
  if size =? 0 then mret 0
  else
    h ← get;
    match find_desc size (descs h) with
    | None => malloc_big size
    | Some i =>
        d ← desc_at i;
        more ← (match free_list d with [] => new_arena i | _ => mret true end);
        if negb more then mret 0 else take_block i
    end.

Definition calloc (a b : Z) : K heap Z :=
  let size := u32 (a * b) in
  if (size <? a) || (size <? b) then mret 0
  else
    p ← malloc size;
    when (negb (p =? 0)) (on_ram (memset p 0 size);; mret tt);;
    mret p.

Definition block_size (block : Z) : K heap Z :=
  a ← block_to_arena block;
  ar ← arena_at a;
  match a_desc ar with
  | Some i => d ← desc_at i; mret (d_block_size d)
  | None => mret (u32 (PGSIZE * free_cnt ar - pg_ofs block))
  end.

(** Release an arena whose blocks are all free. *)
Definition free_arena (a : Z) (i : nat) (bpa : Z) : K heap unit :=
  iterM (seqZ 0 bpa) (fun k => b ← arena_to_block a k; remove i b);;
  free_pages a 1.

Definition free (p : Z) : K heap unit :=
  if p =? 0 then mret tt
  else
    a ← block_to_arena p;
    ar ← arena_at a;
    match a_desc ar with
    | Some i =>
        d ← desc_at i;
        on_ram (memset p 0xcc (d_block_size d));;
        push_front i p;;
        let cnt := u32 (free_cnt ar + 1) in
        set_arena a (mkArena (magic ar) (a_desc ar) cnt);;
        when (blocks_per_arena d <=? cnt)
          (ASSERT (cnt =? blocks_per_arena d);; free_arena a i (blocks_per_arena d))
    | None => free_pages a (free_cnt ar)
    end.

Definition realloc (old_block new_size : Z) : K heap Z :=
  if new_size =? 0 then free old_block;; mret 0
  else
    new_block ← malloc new_size;
    when (negb (old_block =? 0) && negb (new_block =? 0))
      (old_size ← block_size old_block;
       let min_size := if new_size <? old_size then new_size else old_size in
       on_ram (memcpy new_block old_block min_size);;
       free old_block);;
    mret new_block.
End malloc.
Arguments heap : clear implicits.
