(* ===== verification/MallocOk.v ===== *)
(** The heap of threads/malloc.c is correct: its invariant, the blocks that are in use,
    and what every operation does to them. *)

From S2P Require Import Prelude KMonad CString Bitmap Palloc Malloc.

(** ** The sizes of blocks *)

(** Blocks of descriptor [i] and their number in an arena. *)
Definition bs (i : nat) : Z := 16 * 2 ^ Z.of_nat i.
Definition bpa (i : nat) : Z := (PGSIZE - sizeof_arena) / bs i.
Definition ndesc : nat := 7.

Ltac each_desc i :=
  do 7 (destruct i as [|i]; [vm_compute; intuition (discriminate || congruence || lia)|]); exfalso; unfold ndesc in *; lia.

Lemma bs_range i : (i < ndesc)%nat -> 16 <= bs i <= 1024 /\ 3 <= bpa i <= 255 /\ bpa i * bs i <= 4084.
Proof. intros H. each_desc i. Qed.

Lemma seqZ_below n : Forall (fun k => k < n) (seqZ 0 n).
Proof. apply Forall_forall. intros k Hk%elem_of_seqZ. lia. Qed.

(** The page of an address, and the [k]-th block of an arena. *)
Definition page_of (b : Z) : Z := b - b mod PGSIZE.
Definition slot (i : nat) (a k : Z) : Z := a + sizeof_arena + k * bs i.
Definition slots (i : nat) (a : Z) : list Z := slot i a <$> seqZ 0 (bpa i).
Definition is_slot (i : nat) (b : Z) : bool :=
  let o := b mod PGSIZE - sizeof_arena in (0 <=? o) && (o mod bs i =? 0) && (o / bs i <? bpa i).

Lemma page_of_add a o : a mod PGSIZE = 0 -> 0 <= o < PGSIZE -> page_of (a + o) = a /\ (a + o) mod PGSIZE = o.
Proof.
  intros Ha Ho. assert (E : (a + o) mod PGSIZE = o).
  { rewrite Z.add_mod, Ha, Z.add_0_l, Z.mod_mod by done. by apply Z.mod_small. }
  unfold page_of. rewrite E. lia.
Qed.
Lemma page_of_mod b : page_of b mod PGSIZE = 0.
Proof. unfold page_of. rewrite Zminus_mod, Z.mod_mod, Z.sub_diag by done. done. Qed.
Lemma page_of_bound b : page_of b <= b < page_of b + PGSIZE.
Proof. unfold page_of. pose proof (Z.mod_pos_bound b PGSIZE ltac:(done)). lia. Qed.

Lemma slot_bounds i a k :
  (i < ndesc)%nat -> 0 <= k < bpa i -> a + sizeof_arena <= slot i a k /\ slot i a k + bs i <= a + PGSIZE.
Proof. intros Hi Hk. pose proof (bs_range i Hi). unfold slot, sizeof_arena, PGSIZE. nia. Qed.

Lemma slot_page i a k :
  (i < ndesc)%nat -> a mod PGSIZE = 0 -> 0 <= k < bpa i ->
  page_of (slot i a k) = a /\ slot i a k mod PGSIZE = sizeof_arena + k * bs i.
Proof.
  intros Hi Ha Hk. pose proof (slot_bounds i a k Hi Hk) as Hb. pose proof (bs_range i Hi).
  unfold slot in *. rewrite <- Z.add_assoc in *. apply page_of_add; [done|]. unfold sizeof_arena in *. lia.
Qed.

Lemma is_slot_spec i b :
  (i < ndesc)%nat -> is_slot i b = true <-> exists k, 0 <= k < bpa i /\ b = slot i (page_of b) k.
Proof.
  intros Hi. pose proof (bs_range i Hi) as Hb. unfold is_slot. cbv zeta. split.
  - intros H. reflect_bools. set (o := b mod PGSIZE - sizeof_arena) in *. exists (o / bs i).
    pose proof (Z.div_mod o (bs i) ltac:(lia)). assert (0 <= o / bs i) by (apply Z.div_pos; lia). split; [lia|].
    unfold slot, page_of. fold (b mod PGSIZE). unfold o in *. lia.
  - intros (k & Hk & E). destruct (slot_page i (page_of b) k Hi (page_of_mod b) Hk) as [_ Em].
    rewrite <- E in Em. rewrite Em. replace (_ + k * bs i - sizeof_arena) with (k * bs i) by lia.
    rewrite Z.mod_mul, Z.div_mul by lia. case_cmp; nia || done.
Qed.

Lemma elem_of_slots i a b : b ∈ slots i a <-> exists k, 0 <= k < bpa i /\ b = slot i a k.
Proof.
  unfold slots. rewrite list_elem_of_fmap. setoid_rewrite elem_of_seqZ. split; intros (k & H); exists k; intuition lia.
Qed.
Lemma slots_page i a b : (i < ndesc)%nat -> a mod PGSIZE = 0 -> b ∈ slots i a -> page_of b = a.
Proof. intros Hi Ha (k & Hk & ->)%elem_of_slots. by apply slot_page. Qed.
Lemma slots_is_slot i a b :
  (i < ndesc)%nat -> a mod PGSIZE = 0 -> b ∈ slots i a <-> page_of b = a /\ is_slot i b = true.
Proof.
  intros Hi Ha. split.
  - intros H. assert (E : page_of b = a) by (by apply (slots_page i)). split; [done|].
    apply is_slot_spec; [done|]. rewrite E. by apply elem_of_slots.
  - intros [<- H]. apply is_slot_spec in H; [|done]. by apply elem_of_slots.
Qed.
Lemma NoDup_slots i a : (i < ndesc)%nat -> NoDup (slots i a).
Proof.
  intros Hi. pose proof (bs_range i Hi). apply NoDup_fmap_2_strong; [|apply NoDup_seqZ].
  intros x y _ _ E. unfold slot in E. nia.
Qed.
Lemma length_slots i a : (i < ndesc)%nat -> len (slots i a) = bpa i.
Proof. intros Hi. pose proof (bs_range i Hi). unfold slots. rewrite length_fmap, length_seqZ. lia. Qed.

(** ** The invariant *)

Section malloc.
Context {S : Type} {PA : PageAllocator S}.
Implicit Types (h : heap S).

Definition npages (ar : arena) : Z := match a_desc ar with Some _ => 1 | None => free_cnt ar end.
Definition flist h (i : nat) : list Z := from_option free_list [] (descs h !! i).
(** The free blocks of an arena. *)
Definition free_of h (i : nat) (a : Z) : list Z := filter (fun b => page_of b = a) (flist h i).

(** The arenas lie in pages of their own. *)
Record arenas_ok (s : S) (m : gmap Z arena) : Prop := {
  ao_pages : pa_ok s;
  ao_arena a ar : m !! a = Some ar ->
    magic ar = ARENA_MAGIC /\ 0 < a /\ a mod PGSIZE = 0 /\ 0 < npages ar /\ a + PGSIZE * npages ar <= 2 ^ 32 /\
    pa_run s (a / PGSIZE) (npages ar);
  ao_used a ar n : m !! a = Some ar -> a / PGSIZE <= n < a / PGSIZE + npages ar -> pa_used s n = true;
  ao_apart a ar a' ar' : m !! a = Some ar -> m !! a' = Some ar' -> a <> a' ->
    a + PGSIZE * npages ar <= a' \/ a' + PGSIZE * npages ar' <= a
}.

Record heap_wk h : Prop := {
  hk_arenas : arenas_ok (pg h) (arenas h);
  hk_ndesc : length (descs h) = ndesc;
  hk_desc i d : descs h !! i = Some d -> d_block_size d = bs i /\ blocks_per_arena d = bpa i;
  hk_small a ar i : arenas h !! a = Some ar -> a_desc ar = Some i ->
    (i < ndesc)%nat /\ free_cnt ar = len (free_of h i a);
  hk_nodup i : NoDup (flist h i);
  hk_free i b : b ∈ flist h i ->
    is_slot i b = true /\ exists ar, arenas h !! page_of b = Some ar /\ a_desc ar = Some i
}.
Lemma hk_arena h a ar : heap_wk h -> arenas h !! a = Some ar ->
  magic ar = ARENA_MAGIC /\ 0 < a /\ a mod PGSIZE = 0 /\ 0 < npages ar /\ a + PGSIZE * npages ar <= 2 ^ 32 /\
  pa_run (pg h) (a / PGSIZE) (npages ar).
Proof. intros [H _ _ _ _ _]. apply (ao_arena _ _ H). Qed.
Lemma hk_apart h a ar a' ar' : heap_wk h -> arenas h !! a = Some ar -> arenas h !! a' = Some ar' -> a <> a' ->
  a + PGSIZE * npages ar <= a' \/ a' + PGSIZE * npages ar' <= a.
Proof. intros [H _ _ _ _ _]. apply (ao_apart _ _ H). Qed.

(** No arena is entirely free, apart from those in [except]. *)
Definition tight_but (except : Z -> Prop) h : Prop :=
  forall a ar i, arenas h !! a = Some ar -> a_desc ar = Some i -> except a \/ free_cnt ar < bpa i.
Abbreviation tight := (tight_but (fun _ => False)).

Definition heap_ok h : Prop := heap_wk h /\ tight h.

(** The block in use at an address, with its size. *)
Definition block_of h (b : Z) : option Z :=
  match arenas h !! page_of b with
  | None => None
  | Some ar =>
      match a_desc ar with
      | Some i => if is_slot i b && negb (bool_decide (b ∈ flist h i)) then Some (bs i) else None
      | None => if b mod PGSIZE =? sizeof_arena then Some (PGSIZE * free_cnt ar - sizeof_arena) else None
      end
  end.

(** A block lies in its arena. *)
Lemma block_inside h b n :
  heap_wk h -> block_of h b = Some n ->
  exists ar, arenas h !! page_of b = Some ar /\ 0 < n /\
    page_of b + sizeof_arena <= b /\ b + n <= page_of b + PGSIZE * npages ar.
Proof.
  intros Hk. unfold block_of. destruct (arenas h !! page_of b) as [ar|] eqn:Ea; [|done].
  destruct (hk_arena h _ _ Hk Ea) as (_ & A1 & A2 & A3 & _). intros H. exists ar. split; [done|].
  destruct (a_desc ar) as [i|] eqn:Ed.
  - destruct (hk_small h Hk _ _ _ Ea Ed) as [Hi _]. pose proof (bs_range i Hi).
    destruct (is_slot i b) eqn:Es; [|done]. simpl in H. destruct_if; [|done]. simplify_eq.
    apply is_slot_spec in Es as (k & Hk' & E); [|done].
    pose proof (slot_bounds i (page_of b) k Hi Hk'). rewrite <- E in *.
    unfold npages. rewrite Ed. split; lia.
  - destruct (Z.eqb_spec (b mod PGSIZE) sizeof_arena) as [E|]; [|done]. simplify_eq.
    unfold npages in *. rewrite Ed in *. unfold page_of. rewrite E. unfold sizeof_arena, PGSIZE in *. lia.
Qed.

(** Two blocks in use do not overlap. *)
Lemma blocks_apart h b n b' n' :
  heap_wk h -> block_of h b = Some n -> block_of h b' = Some n' -> b <> b' ->
  b + n <= b' \/ b' + n' <= b.
Proof.
  intros Hk Hb Hb' Hne. destruct (decide (page_of b = page_of b')) as [Ep|Ep].
  - unfold block_of in *. rewrite <- Ep in Hb'.
    destruct (arenas h !! page_of b) as [ar|] eqn:Ea; [|done]. destruct (a_desc ar) as [i|] eqn:Ed.
    + destruct (hk_small h Hk _ _ _ Ea Ed) as [Hi _]. pose proof (bs_range i Hi).
      destruct (is_slot i b) eqn:E1; [|done]. destruct (is_slot i b') eqn:E2; [|done].
      apply is_slot_spec in E1 as (k & K1 & E1); [|done]. apply is_slot_spec in E2 as (k' & K2 & E2); [|done].
      rewrite <- Ep in E2. simpl in *. do 2 (destruct_if; [|done]). simplify_eq. unfold slot in *.
      assert (k <> k') by congruence. nia.
    + unfold page_of in Ep. destruct (Z.eqb_spec (b mod PGSIZE) sizeof_arena) as [E1|]; [|done].
      destruct (Z.eqb_spec (b' mod PGSIZE) sizeof_arena) as [E2|]; [|done]. lia.
  - destruct (block_inside h b n Hk Hb) as (ar & Ea & _ & B1 & B2).
    destruct (block_inside h b' n' Hk Hb') as (ar' & Ea' & _ & C1 & C2).
    destruct (hk_apart h _ _ _ _ Hk Ea Ea' Ep); unfold sizeof_arena in *; lia.
Qed.

Lemma block_pos h b n : heap_wk h -> block_of h b = Some n -> 0 < b /\ b + n <= 2 ^ 32.
Proof.
  intros Hk Hb. destruct (block_inside h b n Hk Hb) as (ar & Ea & _ & B1 & B2).
  destruct (hk_arena h _ _ Hk Ea) as (_ & A1 & _ & _ & A2 & _). unfold sizeof_arena in *. lia.
Qed.

(** ** The steps of the operations *)

Definition with_flist (i : nat) (l : list Z) h : heap S :=
  mkHeap (pg h) (alter (fun d => mkDesc (d_block_size d) (blocks_per_arena d) l) i (descs h)) (arenas h).
Definition with_arenas (m : gmap Z arena) h : heap S := mkHeap (pg h) (descs h) m.
Definition with_pages (s : S) h : heap S := mkHeap s (descs h) (arenas h).

Lemma flist_with i l h j : (i < length (descs h))%nat -> flist (with_flist i l h) j = if decide (j = i) then l else flist h j.
Proof.
  intros Hi. unfold flist, with_flist. simpl. rewrite list_lookup_alter. destruct (decide (i = j)) as [<-|Hne].
  - rewrite decide_True by done. destruct (lookup_lt_is_Some_2 (descs h) i Hi) as [d ->]. done.
  - by rewrite decide_False.
Qed.
Lemma with_flist_twice i l l' h : with_flist i l' (with_flist i l h) = with_flist i l' h.
Proof. unfold with_flist. simpl. by rewrite list_alter_alter_eq. Qed.
Lemma with_flist_id i d h : descs h !! i = Some d -> with_flist i (free_list d) h = h.
Proof.
  intros Hd. destruct h as [p ds ar]. unfold with_flist. simpl in *. f_equal.
  apply list_eq. intros j. rewrite list_lookup_alter. destruct (decide (i = j)) as [<-|]; [|done].
  rewrite Hd. by destruct d.
Qed.
Lemma flist_desc h i d : descs h !! i = Some d -> free_list d = flist h i.
Proof. intros H. unfold flist. by rewrite H. Qed.

Lemma with_flist_desc i l h j d :
  (forall j d, descs h !! j = Some d -> d_block_size d = bs j /\ blocks_per_arena d = bpa j) ->
  descs (with_flist i l h) !! j = Some d -> d_block_size d = bs j /\ blocks_per_arena d = bpa j.
Proof.
  intros H. unfold with_flist. simpl. rewrite list_lookup_alter. destruct (decide (i = j)) as [<-|]; [|apply H].
  intros (d0 & Hd0 & ->)%fmap_Some. apply (H i d0 Hd0).
Qed.
Lemma with_flist_len i l h : length (descs (with_flist i l h)) = length (descs h).
Proof. apply length_alter. Qed.

Lemma desc_at_ok h i :
  heap_wk h -> (i < ndesc)%nat ->
  exists d, desc_at i h = Ok (d, h) /\ descs h !! i = Some d /\
    d_block_size d = bs i /\ blocks_per_arena d = bpa i /\ free_list d = flist h i.
Proof.
  intros Hk Hi. destruct (lookup_lt_is_Some_2 (descs h) i) as [d Hd]; [by rewrite (hk_ndesc h Hk)|].
  exists d. unfold desc_at. erewrite bind_ok by reflexivity. rewrite Hd.
  destruct (hk_desc h Hk i d Hd). split_and!; try done. by apply flist_desc.
Qed.

(** What [block_to_arena] checks of a block [b] of the arena [ar]. *)
Definition fits h (ar : arena) (b : Z) : Prop :=
  match a_desc ar with
  | Some i => is_slot i b = true /\ exists d, descs h !! i = Some d /\ d_block_size d = bs i
  | None => b mod PGSIZE = sizeof_arena
  end.
Lemma block_to_arena_ok h b ar :
  0 <= b < 2 ^ 32 -> 0 < page_of b -> arenas h !! page_of b = Some ar -> magic ar = ARENA_MAGIC -> fits h ar b ->
  block_to_arena b h = Ok (page_of b, h).
Proof.
  intros Hb Hp Ha Hm Hd. unfold block_to_arena. rewrite pg_round_down_eq by done. fold (page_of b). cbv zeta.
  rewrite ASSERT_true by (by rewrite (proj2 (Z.eqb_neq _ 0)) by lia).
  unfold arena_at. rewrite bind_assoc. erewrite bind_ok by reflexivity. rewrite Ha. erewrite bind_ok by reflexivity.
  rewrite ASSERT_true by (by rewrite Hm). rewrite !pg_ofs_mod. unfold fits in Hd. destruct (a_desc ar) as [i|] eqn:Ed.
  - destruct Hd as (Hs & d & Hd & E1). unfold desc_at. rewrite !bind_assoc. erewrite bind_ok by reflexivity.
    rewrite Hd. erewrite bind_ok by reflexivity. rewrite E1. unfold is_slot in Hs. cbv zeta in Hs. reflect_bools.
    pose proof (Z.mod_pos_bound b PGSIZE ltac:(done)). unfold PGSIZE in *.
    rewrite wrapu_small by (unfold sizeof_arena in *; lia).
    by rewrite ASSERT_true by (by apply Z.eqb_eq).
  - by rewrite ASSERT_true by (by apply Z.eqb_eq).
Qed.

Lemma arena_to_block_ok h a ar i d k :
  a <> 0 -> arenas h !! a = Some ar -> magic ar = ARENA_MAGIC -> a_desc ar = Some i -> descs h !! i = Some d ->
  d_block_size d = bs i -> blocks_per_arena d = bpa i -> k < bpa i ->
  arena_to_block a k h = Ok (slot i a k, h).
Proof.
  intros Ha Har Hm Hi Hd E1 E2 Hk. unfold arena_to_block.
  rewrite ASSERT_true by (by rewrite (proj2 (Z.eqb_neq a 0))).
  unfold arena_at, desc_at. rewrite bind_assoc. erewrite bind_ok by reflexivity. rewrite Har. erewrite bind_ok by reflexivity.
  rewrite ASSERT_true by (by rewrite Hm). rewrite Hi. erewrite bind_ok by reflexivity.
  rewrite bind_assoc. erewrite bind_ok by reflexivity. rewrite Hd. erewrite bind_ok by reflexivity.
  rewrite E1, E2, ASSERT_true by (by apply Z.ltb_lt). done.
Qed.

(** The loops over the blocks of an arena. *)
Definition arena_known h (a : Z) (i : nat) : Prop :=
  a <> 0 /\ (i < length (descs h))%nat /\
  (exists ar, arenas h !! a = Some ar /\ magic ar = ARENA_MAGIC /\ a_desc ar = Some i) /\
  forall j d, descs h !! j = Some d -> d_block_size d = bs j /\ blocks_per_arena d = bpa j.

Lemma arena_known_with h a i l : arena_known h a i -> arena_known (with_flist i l h) a i.
Proof.
  intros (H1 & H2 & H3 & H4). split_and!; try done.
  - by rewrite with_flist_len.
  - intros j d. by apply with_flist_desc.
Qed.

Lemma known_block h a i k : arena_known h a i -> k < bpa i -> arena_to_block a k h = Ok (slot i a k, h).
Proof.
  intros (H1 & H2 & (ar & A1 & A2 & A3) & H4) Hk. destruct (lookup_lt_is_Some_2 _ _ H2) as [d Hd].
  destruct (H4 i d Hd). by apply (arena_to_block_ok h a ar i d).
Qed.

Lemma known_desc h a i : arena_known h a i -> exists d, desc_at i h = Ok (d, h) /\ free_list d = flist h i.
Proof.
  intros (H1 & H2 & _). destruct (lookup_lt_is_Some_2 _ _ H2) as [d Hd].
  exists d. unfold desc_at. erewrite bind_ok by reflexivity. rewrite Hd. split; [done|]. by apply flist_desc.
Qed.
Lemma with_flist_same h a i : arena_known h a i -> with_flist i (flist h i) h = h.
Proof.
  intros (H1 & H2 & _). destruct (lookup_lt_is_Some_2 _ _ H2) as [d Hd].
  rewrite <- (flist_desc h i d Hd). by apply with_flist_id.
Qed.

Lemma push_loop h a i ks :
  arena_known h a i -> Forall (fun k => k < bpa i) ks ->
  iterM ks (fun k => b ← arena_to_block a k; push_back i b) h =
    Ok (tt, with_flist i (flist h i ++ (slot i a <$> ks)) h).
Proof.
  intros Hkn Hks. revert h Hkn. induction Hks as [|k ks Hk Hks IH]; intros h Hkn; simpl.
  - by rewrite app_nil_r, (with_flist_same h a).
  - rewrite bind_assoc, (bind_ok _ _ _ _ _ (known_block h a i k Hkn Hk)).
    destruct (known_desc h a i Hkn) as (d & E & Ef). unfold push_back.
    rewrite bind_assoc, (bind_ok _ _ _ _ _ E), Ef. erewrite bind_ok by reflexivity.
    fold (with_flist i (flist h i ++ [slot i a k]) h).
    rewrite IH by (by apply arena_known_with). rewrite with_flist_twice, flist_with by apply Hkn.
    by rewrite decide_True, <- app_assoc by done.
Qed.

Lemma remove_loop h a i ks :
  arena_known h a i -> Forall (fun k => k < bpa i) ks -> NoDup (slot i a <$> ks) ->
  (forall b, b ∈ slot i a <$> ks -> b ∈ flist h i) ->
  iterM ks (fun k => b ← arena_to_block a k; remove i b) h =
    Ok (tt, with_flist i (filter (fun b => b ∉ slot i a <$> ks) (flist h i)) h).
Proof.
  intros Hkn Hks. revert h Hkn. induction Hks as [|k ks Hk Hks IH]; intros h Hkn Hnd Hin; simpl in *.
  - rewrite filter_keep by (intros; apply not_elem_of_nil). by rewrite (with_flist_same h a).
  - apply NoDup_cons in Hnd as [Hn Hnd].
    rewrite bind_assoc, (bind_ok _ _ _ _ _ (known_block h a i k Hkn Hk)).
    destruct (known_desc h a i Hkn) as (d & E & Ef). unfold remove.
    rewrite bind_assoc, (bind_ok _ _ _ _ _ E), Ef, bind_assoc.
    rewrite ASSERT_true by (apply bool_decide_true, Hin; constructor). erewrite bind_ok by reflexivity.
    fold (with_flist i (filter (fun x => x <> slot i a k) (flist h i)) h).
    rewrite IH; [|by apply arena_known_with|done|].
    + rewrite with_flist_twice, flist_with, decide_True by (done || apply Hkn).
      do 2 f_equal. f_equal. rewrite list_filter_filter. apply list_filter_iff.
      intros b. rewrite not_elem_of_cons. tauto.
    + intros b Hb. rewrite flist_with, decide_True by (done || apply Hkn).
      apply list_elem_of_filter. split; [|apply Hin; by constructor]. intros ->. done.
Qed.

(** ** Arenas come and go *)

(** What the page allocator promises of a run of pages that it returns. *)
Record pa_got (s : S) (cnt a : Z) (s' : S) : Prop := {
  pg_ok : pa_ok s';
  pg_runs n c : pa_run s' n c <-> pa_run s n c;
  pg_addr : 0 < a /\ a mod PGSIZE = 0 /\ a + PGSIZE * cnt <= 2 ^ 32;
  pg_run : pa_run s (a / PGSIZE) cnt;
  pg_fresh n : a / PGSIZE <= n < a / PGSIZE + cnt -> pa_used s n = false;
  pg_used n : pa_used s' n = if within (a / PGSIZE) cnt n then true else pa_used s n
}.

Lemma page_div a : a mod PGSIZE = 0 -> a = PGSIZE * (a / PGSIZE).
Proof. intros H. pose proof (Z.div_mod a PGSIZE ltac:(done)). lia. Qed.

Lemma arenas_fresh s m cnt a s' : arenas_ok s m -> 0 < cnt -> pa_got s cnt a s' -> m !! a = None.
Proof.
  intros Hm Hc [_ _ _ _ Hf _]. destruct (m !! a) as [ar|] eqn:E; [|done].
  destruct (ao_arena s m Hm _ _ E) as (_ & _ & _ & Hn & _).
  pose proof (ao_used s m Hm a ar (a / PGSIZE) E ltac:(lia)) as H. rewrite Hf in H by lia. done.
Qed.

(** A new arena does not overlap the others. *)
Lemma arenas_apart_fresh s m cnt a s' a' ar' :
  arenas_ok s m -> 0 < cnt -> pa_got s cnt a s' -> m !! a' = Some ar' ->
  a + PGSIZE * cnt <= a' \/ a' + PGSIZE * npages ar' <= a.
Proof.
  intros Hm Hc [_ _ (A1 & A2 & _) _ Hf _] E. destruct (ao_arena s m Hm _ _ E) as (_ & _ & B & Hn & _).
  pose proof (page_div a A2) as Ea. pose proof (page_div a' B) as Ea'.
  destruct (decide (a / PGSIZE + cnt <= a' / PGSIZE)); [unfold PGSIZE in *; lia|].
  destruct (decide (a' / PGSIZE + npages ar' <= a / PGSIZE)); [unfold PGSIZE in *; lia|].
  set (q := Z.max (a / PGSIZE) (a' / PGSIZE)).
  pose proof (ao_used s m Hm a' ar' q E ltac:(lia)) as H. rewrite Hf in H by lia. done.
Qed.

Lemma arenas_ok_insert s m cnt a s' ar :
  arenas_ok s m -> 0 < cnt -> pa_got s cnt a s' -> npages ar = cnt -> magic ar = ARENA_MAGIC ->
  arenas_ok s' (<[a := ar]> m).
Proof.
  intros Hm Hc G Hn Hmg. pose proof (arenas_apart_fresh s m cnt a s') as Hap. pose proof G as [G1 G2 (A1 & A2 & A3) G4 G5 G6].
  constructor; [done|..].
  - intros b br. rewrite lookup_insert_Some. intros [[<- <-]|[_ Hb]].
    + rewrite Hn, G2. split_and!; done || lia.
    + rewrite G2. by apply (ao_arena s m Hm).
  - intros b br n. rewrite lookup_insert_Some, G6. intros [[<- <-]|[_ Hb]] Hr.
    + rewrite (proj2 (within_in_block a cnt n)); [done|]. unfold in_block. lia.
    + rewrite (ao_used s m Hm b br n Hb Hr). by destruct (within _ _ _).
  - intros b br b' br'. rewrite !lookup_insert_Some. intros [[<- <-]|[_ Hb]] [[<- <-]|[_ Hb']] Hne; try done.
    + rewrite Hn. by apply (Hap b').
    + rewrite Hn. destruct (Hap b br Hm Hc G Hb); lia.
    + by apply (ao_apart s m Hm).
Qed.

(** What the page allocator promises of a run of pages that it takes back. *)
Record pa_freed (s : S) (cnt a : Z) (s' : S) : Prop := {
  pf_ok : pa_ok s';
  pf_runs n c : pa_run s' n c <-> pa_run s n c;
  pf_ram x : pa_ram s' x = if within a (PGSIZE * cnt) x then 0xcc else pa_ram s x;
  pf_used n : pa_used s' n = if within (a / PGSIZE) cnt n then false else pa_used s n
}.

Lemma arenas_ok_delete s m a ar s' :
  arenas_ok s m -> m !! a = Some ar -> pa_freed s (npages ar) a s' -> arenas_ok s' (delete a m).
Proof.
  intros Hm Ha [F1 F2 _ F4]. constructor; [done|..].
  - intros b br. rewrite lookup_delete_Some, F2. intros [_ Hb]. by apply (ao_arena s m Hm).
  - intros b br n. rewrite lookup_delete_Some, F4. intros [Hne Hb] Hr.
    rewrite (ao_used s m Hm b br n Hb Hr). destruct (within (a / PGSIZE) (npages ar) n) eqn:Ew; [|done].
    apply within_in_block in Ew. unfold in_block in Ew.
    destruct (ao_arena s m Hm _ _ Ha) as (_ & _ & A2 & _). destruct (ao_arena s m Hm _ _ Hb) as (_ & _ & B2 & _).
    apply page_div in A2, B2. destruct (ao_apart s m Hm a ar b br Ha Hb Hne); unfold PGSIZE in *; lia.
  - intros b br b' br'. rewrite !lookup_delete_Some. intros [_ Hb] [_ Hb']. by apply (ao_apart s m Hm).
Qed.

Lemma arenas_ok_update s m a ar ar' :
  arenas_ok s m -> m !! a = Some ar -> npages ar' = npages ar -> magic ar' = magic ar ->
  arenas_ok s (<[a := ar']> m).
Proof.
  intros Hm Ha Hn Hmg. constructor; [apply Hm|..].
  - intros b br. rewrite lookup_insert_Some. intros [[<- <-]|[_ Hb]]; [rewrite Hn, Hmg|]; by apply (ao_arena s m Hm).
  - intros b br n. rewrite lookup_insert_Some. intros [[<- <-]|[_ Hb]]; [rewrite Hn|]; by apply (ao_used s m Hm).
  - intros b br b' br'. rewrite !lookup_insert_Some.
    intros [[<- <-]|[_ Hb]] [[<- <-]|[_ Hb']] Hne; rewrite ?Hn; try done; by apply (ao_apart s m Hm).
Qed.

Lemma arenas_ok_ram s m r : arenas_ok s m -> arenas_ok (pa_set_ram r s) m.
Proof.
  intros Hm. constructor.
  - by apply pa_set_ok, Hm.
  - intros b br Hb. rewrite pa_set_run. by apply (ao_arena s m Hm).
  - intros b br n Hb Hr. rewrite pa_set_used. by apply (ao_used s m Hm b br).
  - apply (ao_apart s m Hm).
Qed.

(** ** The invariant under each step *)

Definition small (i : nat) (n : Z) : arena := mkArena ARENA_MAGIC (Some i) n.

Lemma block_of_eq h h' b :
  arenas h' !! page_of b = arenas h !! page_of b -> (forall j, b ∈ flist h' j <-> b ∈ flist h j) ->
  block_of h' b = block_of h b.
Proof.
  intros Ha Hf. unfold block_of. rewrite Ha. destruct (arenas h !! page_of b) as [ar|]; [|done].
  destruct (a_desc ar) as [j|]; [|done]. by rewrite (bool_decide_ext _ _ (Hf j)).
Qed.

Lemma no_free_in h a i b : heap_wk h -> arenas h !! a = None -> b ∈ flist h i -> page_of b <> a.
Proof. intros Hk Ha Hb <-. destruct (hk_free h Hk i b Hb) as (_ & ar & Har & _). congruence. Qed.

Section add_small.
Context h (i : nat) (a : Z) (s' : S).
Hypothesis (Hk : heap_wk h) (Hi : (i < ndesc)%nat) (G : pa_got (pg h) 1 a s').
Let h' : heap S := with_flist i (flist h i ++ slots i a) (mkHeap s' (descs h) (<[a := small i (bpa i)]> (arenas h))).

Let Hnone : arenas h !! a = None.
Proof. apply (arenas_fresh (pg h) _ 1 a s'); [apply Hk|lia|exact G]. Qed.
Let Hmod : a mod PGSIZE = 0.
Proof. apply G. Qed.
Let Hfl j : flist h' j = if decide (j = i) then flist h i ++ slots i a else flist h j.
Proof. unfold h'. rewrite flist_with by (simpl; by rewrite (hk_ndesc h Hk)). done. Qed.
Let Hin j b : b ∈ flist h' j <-> b ∈ flist h j \/ (j = i /\ b ∈ slots i a).
Proof. rewrite Hfl. destruct (decide (j = i)) as [->|]; [rewrite elem_of_app|]; tauto. Qed.

Lemma add_small_wk : heap_wk h'.
Proof.
  assert (Hpg : forall b, b ∈ slots i a -> page_of b = a) by (intros b; by apply slots_page).
  assert (Hold : forall j b, b ∈ flist h j -> page_of b <> a) by (intros j b; by apply no_free_in).
  constructor.
  - apply (arenas_ok_insert (pg h) _ 1); [apply Hk|lia|done|done|done].
  - unfold h'. rewrite with_flist_len. apply (hk_ndesc h Hk).
  - intros j d. unfold h'. apply with_flist_desc. apply (hk_desc h Hk).
  - intros b br j. unfold h' at 1. simpl. rewrite lookup_insert_Some. unfold free_of. rewrite Hfl.
    intros [[<- <-]|[Hne Hb]].
    + intros [= <-]. split; [done|]. rewrite decide_True, filter_app by done.
      rewrite (filter_drop _ (flist h i)) by (intros x Hx; by apply (Hold i)).
      rewrite filter_keep by done. simpl. by rewrite length_slots.
    + intros Ej. destruct (hk_small h Hk b br j Hb Ej) as [Hj ->]. split; [done|]. unfold free_of.
      destruct (decide (j = i)) as [->|]; [|done]. rewrite filter_app, (filter_drop _ (slots i a)), app_nil_r; [done|].
      intros x Hx Ex. rewrite (Hpg x Hx) in Ex. done.
  - intros j. rewrite Hfl. destruct (decide (j = i)) as [->|]; [|apply (hk_nodup h Hk)].
    apply NoDup_app. split_and!; [apply (hk_nodup h Hk)| |by apply NoDup_slots].
    intros b Hb Hb'. apply (Hold i b Hb). by apply Hpg.
  - intros j b. rewrite Hin. unfold h'. simpl. intros [Hb|[-> Hb]].
    + rewrite lookup_insert_ne by (apply not_eq_sym; by apply (Hold j)). by apply (hk_free h Hk).
    + apply slots_is_slot in Hb as [Ep Hs]; [|done|done]. split; [done|].
      rewrite Ep, lookup_insert_eq. by eexists.
Qed.

Lemma add_small_tight : tight h -> tight_but (eq a) h'.
Proof.
  intros Ht b br j. unfold h'. simpl. rewrite lookup_insert_Some. intros [[<- <-]|[_ Hb]] Ej; [by left|].
  right. by destruct (Ht b br j Hb Ej).
Qed.

Lemma add_small_blocks b : block_of h' b = block_of h b.
Proof.
  destruct (decide (page_of b = a)) as [Ep|Ep].
  - unfold block_of. unfold h' at 1. simpl. rewrite Ep, Hnone, lookup_insert_eq. simpl.
    destruct (is_slot i b) eqn:Es; [|done]. rewrite bool_decide_true; [done|].
    apply Hin. right. split; [done|]. by apply slots_is_slot.
  - apply block_of_eq.
    + unfold h'. simpl. by rewrite lookup_insert_ne.
    + intros j. rewrite Hin. split; [|tauto]. intros [?|[_ H]]; [done|]. by apply slots_page in H.
Qed.
End add_small.

(** A block leaves its free list. *)
Section take_one.
Context h (i : nat) (b : Z) (l : list Z) (n : Z).
Hypothesis (Hk : heap_wk h) (Hi : (i < ndesc)%nat) (El : flist h i = b :: l).
Hypothesis (Ha : arenas h !! page_of b = Some (small i n)).
Let h' : heap S := with_flist i l (with_arenas (<[page_of b := small i (n - 1)]> (arenas h)) h).

Let Hfl j : flist h' j = if decide (j = i) then l else flist h j.
Proof. unfold h'. rewrite flist_with by (simpl; by rewrite (hk_ndesc h Hk)). done. Qed.
Let Hnd : (b ∉ l) /\ NoDup l.
Proof. pose proof (hk_nodup h Hk i) as H. rewrite El in H. by apply NoDup_cons in H. Qed.

Lemma take_wk : heap_wk h'.
Proof.
  constructor.
  - apply (arenas_ok_update (pg h) (arenas h) (page_of b) (small i n)); try done. apply Hk.
  - unfold h'. rewrite with_flist_len. apply (hk_ndesc h Hk).
  - intros j d. unfold h'. apply with_flist_desc. apply (hk_desc h Hk).
  - intros c cr j. unfold h' at 1. simpl. rewrite lookup_insert_Some. unfold free_of. rewrite Hfl.
    intros [[<- <-]|[Hne Hc]].
    + intros [= <-]. split; [done|]. rewrite decide_True by done. simpl.
      destruct (hk_small h Hk _ _ i Ha eq_refl) as [_ Hn]. simpl in Hn. rewrite Hn. unfold free_of.
      rewrite El, filter_cons_True by done. simpl. lia.
    + intros Ej. destruct (hk_small h Hk c cr j Hc Ej) as [Hj ->]. split; [done|]. unfold free_of.
      destruct (decide (j = i)) as [->|]; [|done]. by rewrite El, filter_cons_False.
  - intros j. rewrite Hfl. destruct (decide (j = i)) as [->|]; [apply Hnd|apply (hk_nodup h Hk)].
  - intros j c Hc. assert (Hc' : c ∈ flist h j).
    { rewrite Hfl in Hc. destruct (decide (j = i)) as [->|]; [|done]. rewrite El. by constructor. }
    destruct (hk_free h Hk j c Hc') as (Hs & ar & Har & Ej). split; [done|]. unfold h'. simpl.
    destruct (decide (page_of c = page_of b)) as [Ep|Hne].
    + rewrite Ep in *. rewrite Ha in Har. simplify_eq. simpl in Ej. simplify_eq. rewrite lookup_insert_eq. by eexists.
    + rewrite lookup_insert_ne by done. by exists ar.
Qed.

Lemma take_tight : n <= bpa i -> tight_but (eq (page_of b)) h -> tight h'.
Proof.
  intros Hn Ht c cr j. unfold h'. simpl. rewrite lookup_insert_Some. intros [[<- <-]|[Hne Hc]] Ej; right.
  - injection Ej as <-. simpl. lia.
  - by destruct (Ht c cr j Hc Ej).
Qed.

Lemma take_blocks c : block_of h' c = if c =? b then Some (bs i) else block_of h c.
Proof.
  assert (Hs : is_slot i b = true) by (apply (hk_free h Hk i); rewrite El; constructor).
  destruct (Z.eqb_spec c b) as [->|Hne].
  - unfold block_of. unfold h' at 1. simpl. rewrite lookup_insert_eq. simpl. rewrite Hs, Hfl, decide_True by done.
    by rewrite bool_decide_false by apply Hnd.
  - assert (Hin : forall j, c ∈ flist h' j <-> c ∈ flist h j).
    { intros j. rewrite Hfl. destruct (decide (j = i)) as [->|]; [|done]. rewrite El, elem_of_cons. tauto. }
    destruct (decide (page_of c = page_of b)) as [Ep|Ep].
    + unfold block_of. unfold h' at 1. simpl. rewrite Ep, lookup_insert_eq, Ha. simpl.
      by rewrite (bool_decide_ext _ _ (Hin i)).
    + apply block_of_eq; [|done]. unfold h'. simpl. by rewrite lookup_insert_ne.
Qed.
End take_one.

(** A block goes back to its free list. *)
Section give_one.
Context h (i : nat) (b n : Z).
Hypothesis (Hk : heap_wk h) (Hi : (i < ndesc)%nat) (Hs : is_slot i b = true) (Hb : b ∉ flist h i).
Hypothesis (Ha : arenas h !! page_of b = Some (small i n)).
Let h' : heap S := with_flist i (b :: flist h i) (with_arenas (<[page_of b := small i (n + 1)]> (arenas h)) h).

Let Hfl j : flist h' j = if decide (j = i) then b :: flist h i else flist h j.
Proof. unfold h'. rewrite flist_with by (simpl; by rewrite (hk_ndesc h Hk)). done. Qed.

Lemma give_wk : heap_wk h'.
Proof.
  constructor.
  - apply (arenas_ok_update (pg h) (arenas h) (page_of b) (small i n)); try done. apply Hk.
  - unfold h'. rewrite with_flist_len. apply (hk_ndesc h Hk).
  - intros j d. unfold h'. apply with_flist_desc. apply (hk_desc h Hk).
  - intros c cr j. unfold h' at 1. simpl. rewrite lookup_insert_Some. unfold free_of. rewrite Hfl.
    intros [[<- <-]|[Hne Hc]].
    + intros [= <-]. split; [done|]. rewrite decide_True, filter_cons_True by done. simpl.
      destruct (hk_small h Hk _ _ i Ha eq_refl) as [_ Hn]. simpl in Hn. rewrite Hn. unfold free_of. lia.
    + intros Ej. destruct (hk_small h Hk c cr j Hc Ej) as [Hj ->]. split; [done|]. unfold free_of.
      destruct (decide (j = i)) as [->|]; [|done]. by rewrite filter_cons_False.
  - intros j. rewrite Hfl. destruct (decide (j = i)) as [->|]; [|apply (hk_nodup h Hk)].
    apply NoDup_cons. split; [done|apply (hk_nodup h Hk)].
  - intros j c Hc. unfold h'. simpl.
    assert (Hc' : (j = i /\ c = b) \/ c ∈ flist h j).
    { rewrite Hfl in Hc. destruct (decide (j = i)) as [->|]; [|tauto]. apply elem_of_cons in Hc. tauto. }
    destruct Hc' as [[-> ->]|Hc'].
    + split; [done|]. rewrite lookup_insert_eq. by eexists.
    + destruct (hk_free h Hk j c Hc') as (Hsc & ar & Har & Ej). split; [done|].
      destruct (decide (page_of c = page_of b)) as [Ep|Hne].
      * rewrite Ep in *. rewrite Ha in Har. simplify_eq. simpl in Ej. simplify_eq. rewrite lookup_insert_eq. by eexists.
      * rewrite lookup_insert_ne by done. by exists ar.
Qed.

Lemma give_tight (P : Z -> Prop) : (n + 1 < bpa i \/ P (page_of b)) -> tight h -> tight_but P h'.
Proof.
  intros Hn Ht c cr j. unfold h'. simpl. rewrite lookup_insert_Some. intros [[<- <-]|[Hne Hc]] Ej.
  - injection Ej as <-. simpl. tauto.
  - right. by destruct (Ht c cr j Hc Ej).
Qed.

Lemma give_blocks c : block_of h' c = if c =? b then None else block_of h c.
Proof.
  destruct (Z.eqb_spec c b) as [->|Hne].
  - unfold block_of. unfold h' at 1. simpl. rewrite lookup_insert_eq. simpl. rewrite Hfl, decide_True by done.
    rewrite bool_decide_true by constructor. by rewrite andb_false_r.
  - assert (Hin : forall j, c ∈ flist h' j <-> c ∈ flist h j).
    { intros j. rewrite Hfl. destruct (decide (j = i)) as [->|]; [|done]. rewrite elem_of_cons. tauto. }
    destruct (decide (page_of c = page_of b)) as [Ep|Ep].
    + unfold block_of. unfold h' at 1. simpl. rewrite Ep, lookup_insert_eq, Ha. simpl.
      by rewrite (bool_decide_ext _ _ (Hin i)).
    + apply block_of_eq; [|done]. unfold h'. simpl. by rewrite lookup_insert_ne.
Qed.
End give_one.

Lemma free_of_sub h a i n : heap_wk h -> arenas h !! a = Some (small i n) -> free_of h i a ⊆+ slots i a.
Proof.
  intros Hk Ha. destruct (hk_small h Hk _ _ i Ha eq_refl) as [Hi _].
  destruct (hk_arena h _ _ Hk Ha) as (_ & _ & Hmod & _).
  apply NoDup_submseteq; [apply NoDup_filter, (hk_nodup h Hk)|]. intros b Hb.
  apply list_elem_of_filter in Hb as [Ep Hb]. destruct (hk_free h Hk i b Hb) as [Hs _]. by apply slots_is_slot.
Qed.
Lemma count_bound h a i n : heap_wk h -> arenas h !! a = Some (small i n) -> 0 <= n <= bpa i.
Proof.
  intros Hk Ha. destruct (hk_small h Hk _ _ i Ha eq_refl) as [Hi Ec]. simpl in Ec.
  pose proof (submseteq_length _ _ (free_of_sub h a i n Hk Ha)). pose proof (length_slots i a Hi). lia.
Qed.

(** An arena all of whose blocks are counted has all of them on the free list. *)
Lemma all_free h a i n :
  heap_wk h -> arenas h !! a = Some (small i n) -> bpa i <= n -> n = bpa i /\ forall b, b ∈ slots i a -> b ∈ flist h i.
Proof.
  intros Hk Ha Hn. destruct (hk_small h Hk _ _ i Ha eq_refl) as [Hi Ec]. simpl in Ec.
  pose proof (free_of_sub h a i n Hk Ha) as Hsub. pose proof (submseteq_length _ _ Hsub) as Hle. pose proof (length_slots i a Hi). split; [lia|].
  intros b Hb. assert (Hp : free_of h i a ≡ₚ slots i a) by (apply submseteq_length_Permutation; [done|lia]).
  rewrite <- Hp in Hb. by apply list_elem_of_filter in Hb as [_ ?].
Qed.

(** An arena that is entirely free goes back to the page allocator. *)
Section release.
Context h (i : nat) (a n : Z) (s' : S).
Hypothesis (Hk : heap_wk h) (Ha : arenas h !! a = Some (small i n)) (Hall : forall b, b ∈ slots i a -> b ∈ flist h i).
Hypothesis (F : pa_freed (pg h) 1 a s').
Let h' : heap S :=
  with_flist i (filter (fun b => b ∉ slots i a) (flist h i)) (mkHeap s' (descs h) (delete a (arenas h))).

Let Hi : (i < ndesc)%nat.
Proof. by apply (hk_small h Hk _ _ i Ha). Qed.
Let Hmod : a mod PGSIZE = 0.
Proof. apply (hk_arena h _ _ Hk Ha). Qed.
Let Hfl j : flist h' j = if decide (j = i) then filter (fun b => b ∉ slots i a) (flist h i) else flist h j.
Proof. unfold h'. rewrite flist_with by (simpl; by rewrite (hk_ndesc h Hk)). done. Qed.
(** The free blocks of the arena are its blocks, on the list of its descriptor. *)
Let Hpage j b : b ∈ flist h j -> page_of b = a -> j = i /\ b ∈ slots i a.
Proof.
  intros Hb Ep. destruct (hk_free h Hk j b Hb) as (Hs & ar & Har & Ej). rewrite Ep, Ha in Har. simplify_eq.
  simpl in Ej. simplify_eq. split; [done|]. by apply slots_is_slot.
Qed.
Let Hin j b : b ∈ flist h' j <-> b ∈ flist h j /\ page_of b <> a.
Proof.
  rewrite Hfl. destruct (decide (j = i)) as [->|Hne].
  - rewrite list_elem_of_filter. split; intros [H1 H2]; split; try done.
    + intros Ep. by destruct (Hpage i b H2 Ep).
    + intros Hb. by apply slots_page in Hb.
  - split; [|tauto]. intros Hb. split; [done|]. intros Ep. by destruct (Hpage j b Hb Ep).
Qed.

Lemma release_wk : heap_wk h'.
Proof.
  constructor.
  - by apply (arenas_ok_delete (pg h) (arenas h) a (small i n)); [apply Hk|..].
  - unfold h'. rewrite with_flist_len. apply (hk_ndesc h Hk).
  - intros j d. unfold h'. apply with_flist_desc. apply (hk_desc h Hk).
  - intros b br j. unfold h' at 1. simpl. rewrite lookup_delete_Some. intros [Hne Hb] Ej.
    destruct (hk_small h Hk b br j Hb Ej) as [Hj ->]. split; [done|]. unfold free_of. rewrite Hfl.
    destruct (decide (j = i)) as [->|]; [|done]. rewrite list_filter_filter_l; [done|].
    intros c Ec Hc. apply slots_page in Hc; congruence.
  - intros j. rewrite Hfl. destruct (decide (j = i)) as [->|]; [apply NoDup_filter|]; apply (hk_nodup h Hk).
  - intros j b [Hb Hp]%Hin. destruct (hk_free h Hk j b Hb) as (Hs & ar & Har & Ej). split; [done|].
    exists ar. unfold h'. simpl. by rewrite lookup_delete_ne.
Qed.

Lemma release_tight : tight_but (eq a) h -> tight h'.
Proof.
  intros Ht c cr j. unfold h'. simpl. rewrite lookup_delete_Some. intros [Hne Hc] Ej. right.
  by destruct (Ht c cr j Hc Ej).
Qed.

Lemma release_blocks b : block_of h' b = block_of h b.
Proof.
  destruct (decide (page_of b = a)) as [Ep|Ep].
  - unfold block_of. unfold h' at 1. simpl. rewrite Ep, lookup_delete_eq, Ha. simpl.
    destruct (is_slot i b) eqn:Es; [|done]. rewrite bool_decide_true; [done|].
    apply Hall. by apply slots_is_slot.
  - apply block_of_eq.
    + unfold h'. simpl. by rewrite lookup_delete_ne.
    + intros j. rewrite Hin. tauto.
Qed.
End release.

(** ** Big blocks *)

Definition big (cnt : Z) : arena := mkArena ARENA_MAGIC None cnt.

Lemma page_of_big a b : a mod PGSIZE = 0 -> page_of b = a /\ b mod PGSIZE = sizeof_arena <-> b = a + sizeof_arena.
Proof.
  intros Ha. split.
  - intros [<- Hb]. unfold page_of. lia.
  - intros ->. by apply page_of_add.
Qed.

Lemma big_blocks h h' a b n :
  a mod PGSIZE = 0 -> (forall j, flist h' j = flist h j) ->
  (forall c, c <> a -> arenas h' !! c = arenas h !! c) -> arenas h !! a = None -> arenas h' !! a = Some (big n) ->
  block_of h' b = if b =? a + sizeof_arena then Some (PGSIZE * n - sizeof_arena) else block_of h b.
Proof.
  intros Hmod Hfl Hne Hn Hs. pose proof (page_of_big a b Hmod) as Hb.
  destruct (decide (page_of b = a)) as [Ep|Ep].
  - unfold block_of. rewrite Ep, Hn, Hs. simpl.
    destruct (Z.eqb_spec (b mod PGSIZE) sizeof_arena), (Z.eqb_spec b (a + sizeof_arena)); tauto.
  - rewrite (proj2 (Z.eqb_neq _ _)) by tauto. apply block_of_eq; [by apply Hne|]. intros j. by rewrite Hfl.
Qed.

Lemma add_big_wk h a cnt s' :
  heap_wk h -> 0 < cnt -> pa_got (pg h) cnt a s' -> heap_wk (mkHeap s' (descs h) (<[a := big cnt]> (arenas h))).
Proof.
  intros Hk Hc G. pose proof (arenas_fresh _ _ _ _ _ (hk_arenas h Hk) Hc G) as Hn. constructor; simpl.
  - by apply (arenas_ok_insert (pg h) _ cnt); [apply Hk|..].
  - apply (hk_ndesc h Hk).
  - apply (hk_desc h Hk).
  - intros b br j. rewrite lookup_insert_Some. intros [[<- <-]|[_ Hb]]; [done|]. by apply (hk_small h Hk b).
  - apply (hk_nodup h Hk).
  - intros j b Hb. rewrite lookup_insert_ne; [by apply (hk_free h Hk)|].
    apply not_eq_sym. by apply (no_free_in h a j b).
Qed.

Lemma drop_big_wk h a cnt s' :
  heap_wk h -> arenas h !! a = Some (big cnt) -> pa_freed (pg h) cnt a s' ->
  heap_wk (mkHeap s' (descs h) (delete a (arenas h))).
Proof.
  intros Hk Ha F. constructor; simpl.
  - by apply (arenas_ok_delete (pg h) _ a (big cnt)); [apply Hk|..].
  - apply (hk_ndesc h Hk).
  - apply (hk_desc h Hk).
  - intros b br j. rewrite lookup_delete_Some. intros [_ Hb]. by apply (hk_small h Hk b).
  - apply (hk_nodup h Hk).
  - intros j b Hb. destruct (hk_free h Hk j b Hb) as (Hs & ar & Har & Ej). split; [done|].
    exists ar. rewrite lookup_delete_ne; [done|]. intros Ea. rewrite <- Ea in Har. rewrite Ha in Har. by simplify_eq.
Qed.

Lemma tight_insert h s ds a cnt : tight h -> tight (mkHeap s ds (<[a := big cnt]> (arenas h))).
Proof.
  intros Ht b br j. simpl. rewrite lookup_insert_Some. intros [[<- <-]|[_ Hb]] Ej; [done|]. by apply (Ht b br j).
Qed.
Lemma tight_delete h s ds a : tight h -> tight (mkHeap s ds (delete a (arenas h))).
Proof. intros Ht b br j. simpl. rewrite lookup_delete_Some. intros [_ Hb]. by apply (Ht b br j). Qed.

(** ** The operations *)

Lemma get_pages_ok h cnt :
  heap_wk h -> 0 < cnt ->
  on_pages (pa_get cnt) h = Ok (0, h) \/
  exists a s', on_pages (pa_get cnt) h = Ok (a, with_pages s' h) /\ pa_got (pg h) cnt a s' /\
    forall x, pa_ram s' x = pa_ram (pg h) x.
Proof.
  intros Hk Hc. destruct (pa_get_ok (pg h) cnt (ao_pages _ _ (hk_arenas h Hk)) Hc)
    as (a & s' & E & H1 & H2 & H3 & [[-> ->]|(A1 & A2 & A3 & A4 & A5 & A6)]).
  - left. unfold on_pages. rewrite E. by destruct h.
  - right. exists a, s'. split; [unfold on_pages; by rewrite E|]. by split; [constructor|].
Qed.

Lemma on_pages_null cnt h : on_pages (pa_get cnt) h = Ok (0, h) -> pa_get cnt (pg h) = Ok (0, pg h).
Proof.
  unfold on_pages. destruct (pa_get cnt (pg h)) as [[a s]| |]; try done. destruct h. simpl. intros H. by simplify_eq.
Qed.

Lemma free_pages_ok h a ar cnt :
  arenas_ok (pg h) (arenas h) -> arenas h !! a = Some ar -> npages ar = cnt ->
  exists s', free_pages a cnt h = Ok (tt, mkHeap s' (descs h) (delete a (arenas h))) /\ pa_freed (pg h) cnt a s'.
Proof.
  intros Hk Ha <-. destruct (ao_arena _ _ Hk a ar Ha) as (_ & A1 & A2 & A3 & _ & A4).
  destruct (pa_free_ok (pg h) a (npages ar)) as (s' & E & F1 & F2 & F3 & F4); try done.
  { apply Hk. }
  { intros n Hn. by apply (ao_used _ _ Hk a ar). }
  exists s'. split; [|by constructor]. unfold free_pages.
  erewrite bind_ok by (unfold on_pages; rewrite E; reflexivity). done.
Qed.

Lemma small_arena h a ar i : heap_wk h -> arenas h !! a = Some ar -> a_desc ar = Some i -> ar = small i (free_cnt ar).
Proof. intros Hk Ha Hi. destruct (hk_arena h a ar Hk Ha) as [Hm _]. destruct ar. simpl in *. by subst. Qed.

Lemma fits_with h ar b i l : heap_wk h -> fits h ar b -> fits (with_flist i l h) ar b.
Proof.
  intros Hk. unfold fits. destruct (a_desc ar) as [j|]; [|done]. intros (Hs & d & Hd & _). split; [done|].
  destruct (lookup_lt_is_Some_2 (descs (with_flist i l h)) j) as [d' Hd'].
  { rewrite with_flist_len. by eapply lookup_lt_Some. }
  exists d'. split; [done|]. apply (with_flist_desc i l h j d'); [apply (hk_desc h Hk)|done].
Qed.

(** The block is one that [block_to_arena] accepts. *)
Lemma slot_fits h i b n :
  heap_wk h -> arenas h !! page_of b = Some (small i n) -> is_slot i b = true ->
  fits h (small i n) b /\ 0 <= b < 2 ^ 32 /\ 0 < page_of b.
Proof.
  intros Hk Ha Hs. destruct (hk_small h Hk _ _ i Ha eq_refl) as [Hi _].
  destruct (hk_arena h _ _ Hk Ha) as (_ & A1 & _ & _ & A2 & _).
  destruct (desc_at_ok h i Hk Hi) as (d & _ & Hd & E1 & _). split; [split; [done|by exists d]|].
  pose proof (page_of_bound b). change (npages (small i n)) with 1 in A2. lia.
Qed.

Lemma take_block_ok h i b l :
  heap_wk h -> (i < ndesc)%nat -> flist h i = b :: l -> tight_but (eq (page_of b)) h ->
  exists h', take_block i h = Ok (b, h') /\ heap_ok h' /\ pg h' = pg h /\ block_of h b = None /\
    forall c, block_of h' c = if c =? b then Some (bs i) else block_of h c.
Proof.
  intros Hk Hi El Ht. assert (Hb : b ∈ flist h i) by (rewrite El; constructor).
  destruct (hk_free h Hk i b Hb) as (Hs & ar & Ha & Ej). rewrite (small_arena h _ ar i Hk Ha Ej) in Ha.
  set (n := free_cnt ar) in *. destruct (slot_fits h i b n Hk Ha Hs) as (Hf & Hr & Hp).
  pose proof (count_bound h _ i n Hk Ha) as Hn. pose proof (bs_range i Hi).
  assert (Hn1 : 1 <= n).
  { destruct (hk_small h Hk _ _ i Ha eq_refl) as [_ Ec]. simpl in Ec. rewrite Ec. unfold free_of.
    rewrite El, filter_cons_True by done. simpl. lia. }
  destruct (desc_at_ok h i Hk Hi) as (d & E & Hd & _ & _ & Ef).
  exists (with_flist i l (with_arenas (<[page_of b := small i (n - 1)]> (arenas h)) h)). split_and!.
  - unfold take_block, pop_front. rewrite bind_assoc, (bind_ok _ _ _ _ _ E), Ef, El, bind_assoc.
    erewrite bind_ok by reflexivity. rewrite ret_bind. fold (with_flist i l h).
    rewrite (bind_ok _ _ _ _ _ (block_to_arena_ok (with_flist i l h) b (small i n) Hr Hp Ha eq_refl (fits_with h _ b i l Hk Hf))).
    unfold arena_at. rewrite bind_assoc. erewrite bind_ok by reflexivity. simpl arenas. rewrite Ha.
    erewrite bind_ok by reflexivity. erewrite bind_ok by reflexivity. simpl. rewrite wrapu_small by lia. done.
  - split; [by apply take_wk|]. apply (take_tight h i b l n); done || lia.
  - done.
  - unfold block_of. rewrite Ha. simpl. rewrite bool_decide_true by done. by rewrite andb_false_r.
  - intros c. by apply take_blocks.
Qed.

Lemma new_arena_ok h i :
  heap_ok h -> (i < ndesc)%nat -> flist h i = [] ->
  (new_arena i h = Ok (false, h) /\ pa_get 1 (pg h) = Ok (0, pg h)) \/
  exists h' a, new_arena i h = Ok (true, h') /\ heap_wk h' /\ tight_but (eq a) h' /\ a mod PGSIZE = 0 /\
    flist h' i = slots i a /\ (forall x, pa_ram (pg h') x = pa_ram (pg h) x) /\
    forall c, block_of h' c = block_of h c.
Proof.
  intros [Hk Ht] Hi Hnil. destruct (desc_at_ok h i Hk Hi) as (d & E & Hd & _ & E2 & Ef).
  unfold new_arena. rewrite (bind_ok _ _ _ _ _ E), E2.
  destruct (get_pages_ok h 1 Hk ltac:(lia)) as [Eg|(a & s' & Eg & G & Hram)]; rewrite (bind_ok _ _ _ _ _ Eg).
  - left. split; [done|]. by apply on_pages_null.
  - right. destruct (pg_addr _ _ _ _ G) as (A1 & A2 & A3). rewrite (proj2 (Z.eqb_neq a 0)) by lia.
    erewrite bind_ok by reflexivity. unfold with_pages. cbn [pg descs arenas]. fold (small i (bpa i)).
    set (h1 := mkHeap _ _ _).
    assert (Hkn : arena_known h1 a i).
    { split_and!; [lia|unfold h1; simpl; by rewrite (hk_ndesc h Hk)| |apply (hk_desc h Hk)].
      exists (small i (bpa i)). unfold h1. simpl. by rewrite lookup_insert_eq. }
    rewrite (bind_ok _ _ _ _ _ (push_loop h1 a i (seqZ 0 (bpa i)) Hkn (seqZ_below (bpa i)))).
    fold (slots i a). change (flist h1 i) with (flist h i).
    eexists _, a. split; [done|]. split_and!.
    + by apply add_small_wk.
    + by apply (add_small_tight h i a s').
    + done.
    + rewrite flist_with, decide_True by (done || apply Hkn). by rewrite Hnil.
    + done.
    + intros c. by apply (add_small_blocks h i a s').
Qed.

(** There is no memory for [size] bytes: the free list that serves the size is empty, and the
    page allocator has no pages for a new arena. *)
Definition pages_for h (size : Z) : Z :=
  match find_desc size (descs h) with
  | Some _ => 1
  | None => DIV_ROUND_UP (u32 (size + sizeof_arena)) PGSIZE
  end.
Definition unavailable h (size : Z) : Prop :=
  size = 0 \/
  (pa_get (pages_for h size) (pg h) = Ok (0, pg h) /\
   forall i, find_desc size (descs h) = Some i -> flist h i = []).

(** What [malloc] promises. *)
Record malloced h (size b : Z) h' : Prop := {
  ma_ok : heap_ok h';
  ma_ram x : pa_ram (pg h') x = pa_ram (pg h) x;
  ma_block : (b = 0 /\ unavailable h size /\ forall c, block_of h' c = block_of h c) \/
    (0 < b /\ 0 < size /\ block_of h b = None /\
     exists n, size <= n /\ forall c, block_of h' c = if c =? b then Some n else block_of h c)
}.

Lemma page_count size :
  0 < size < 2 ^ 32 - 11 ->
  let cnt := DIV_ROUND_UP (u32 (size + sizeof_arena)) PGSIZE in
  cnt = 0 \/ (0 < cnt /\ size <= PGSIZE * cnt - sizeof_arena).
Proof.
  intros Hs. unfold DIV_ROUND_UP, sizeof_arena, PGSIZE, wrapu. cbv zeta.
  assert ((size + 12) mod 2 ^ 32 = size + 12 \/ size + 12 = 2 ^ 32) as [E|E].
  { destruct (decide (size + 12 = 2 ^ 32)); [by right|]. left. apply Z.mod_small. lia. }
  2: { rewrite E. left. done. }
  rewrite E. destruct (decide (size + 12 + 4096 - 1 < 2 ^ 32)).
  - rewrite (Z.mod_small (size + 12 + 4096 - 1)) by lia. right. split; div_lia.
  - left. assert (Em : (size + 12 + 4096 - 1) mod 2 ^ 32 = size + 12 + 4096 - 1 - 2 ^ 32).
    { symmetry. apply (Z.mod_unique _ _ 1); lia. }
    rewrite Em. apply Z.div_small. lia.
Qed.

Lemma malloc_big_ok h size :
  heap_ok h -> 0 < size < 2 ^ 32 - 11 -> find_desc size (descs h) = None ->
  exists b h', malloc_big size h = Ok (b, h') /\ malloced h size b h'.
Proof.
  intros [Hk Ht] Hs Hd. unfold malloc_big.
  assert (Hnull : pa_get (DIV_ROUND_UP (u32 (size + sizeof_arena)) PGSIZE) (pg h) = Ok (0, pg h) -> unavailable h size).
  { intros E. right. unfold pages_for. by rewrite Hd. }
  destruct (page_count size Hs) as [Ec|[Hc Hle]].
  - cbv zeta. rewrite Ec in Hnull |- *. exists 0, h.
    split; [|constructor; [done..|left; split_and!; [done|apply Hnull, pa_get_zero|done]]].
    erewrite bind_ok by (unfold on_pages; rewrite pa_get_zero; reflexivity). by destruct h.
  - set (cnt := DIV_ROUND_UP _ _) in *. cbv zeta.
    destruct (get_pages_ok h cnt Hk Hc) as [Eg|(a & s' & Eg & G & Hram)]; rewrite (bind_ok _ _ _ _ _ Eg).
    + exists 0, h. split; [done|]. constructor; [done..|]. left. split_and!; [done|by apply Hnull, on_pages_null|done].
    + destruct (pg_addr _ _ _ _ G) as (A1 & A2 & A3). rewrite (proj2 (Z.eqb_neq a 0)) by lia.
      pose proof (arenas_fresh _ _ _ _ _ (hk_arenas h Hk) Hc G) as Hnone.
      eexists _, _. split; [reflexivity|]. cbn [pg descs arenas with_pages]. constructor.
      * split; [by apply add_big_wk|by apply tight_insert].
      * done.
      * right. split; [unfold sizeof_arena; lia|]. split; [lia|].
        destruct (page_of_add a sizeof_arena A2 ltac:(done)) as [Ep _]. split.
        { unfold block_of. by rewrite Ep, Hnone. }
        exists (PGSIZE * cnt - sizeof_arena). split; [lia|]. intros c. apply big_blocks; try done; simpl.
        { intros c' Hc'. by rewrite lookup_insert_ne. }
        by rewrite lookup_insert_eq.
Qed.

Lemma find_desc_ok h size i :
  heap_wk h -> find_desc size (descs h) = Some i -> (i < ndesc)%nat /\ size <= bs i.
Proof.
  intros Hk. unfold find_desc. destruct (list_find _ _) as [[j d]|] eqn:E; [|done]. intros [= <-].
  apply list_find_Some in E as (Hd & Hs & _). destruct (hk_desc h Hk j d Hd) as [E _]. rewrite E in Hs.
  split; [|done]. rewrite <- (hk_ndesc h Hk). by eapply lookup_lt_Some.
Qed.

Lemma malloc_ok h size :
  heap_ok h -> 0 <= size < 2 ^ 32 - 11 -> exists b h', malloc size h = Ok (b, h') /\ malloced h size b h'.
Proof.
  intros Hh Hs. unfold malloc. destruct (Z.eqb_spec size 0) as [->|Hne].
  { exists 0, h. split; [done|]. constructor; [done..|]. left. split_and!; [done|by left|done]. }
  erewrite bind_ok by reflexivity. destruct (find_desc size (descs h)) as [i|] eqn:Ed; [|apply malloc_big_ok; [done|lia|done]].
  pose proof Hh as [Hk Ht]. destruct (find_desc_ok h size i Hk Ed) as [Hi Hle].
  destruct (desc_at_ok h i Hk Hi) as (d & E & _ & _ & _ & Ef). rewrite (bind_ok _ _ _ _ _ E), Ef.
  assert (Htake : forall h1 b l, heap_wk h1 -> flist h1 i = b :: l -> tight_but (eq (page_of b)) h1 ->
    (forall x, pa_ram (pg h1) x = pa_ram (pg h) x) -> (forall c, block_of h1 c = block_of h c) ->
    exists b h', take_block i h1 = Ok (b, h') /\ malloced h size b h').
  { intros h1 b l Hk1 El Ht1 Hr1 Hb1. destruct (take_block_ok h1 i b l Hk1 Hi El Ht1) as (h' & E' & Hh' & Ep & Hn & Hb').
    exists b, h'. split; [done|]. constructor; [done|by rewrite Ep|]. right. rewrite <- Hb1. split_and!; [|lia|done|].
    - assert (Hbb : block_of h' b = Some (bs i)) by (by rewrite Hb', Z.eqb_refl).
      apply (block_pos h' b _ (proj1 Hh') Hbb).
    - exists (bs i). split; [done|]. intros c. by rewrite Hb', Hb1. }
  destruct (flist h i) as [|b l] eqn:El.
  - destruct (new_arena_ok h i Hh Hi El) as [[En Eg]|(h1 & a & En & Hk1 & Ht1 & Ha & Efl & Hr1 & Hb1)];
      rewrite (bind_ok _ _ _ _ _ En).
    + exists 0, h. split; [done|]. constructor; [done..|]. left. split_and!; [done| |done].
      right. unfold pages_for. rewrite Ed. split; [done|]. by intros ? [= <-].
    + cbn [negb]. destruct (slots i a) as [|b l] eqn:Es.
      { pose proof (length_slots i a Hi) as Hl. rewrite Es in Hl. simpl in Hl. pose proof (bs_range i Hi). lia. }
      apply (Htake h1 b l); try done. rewrite (slots_page i a b); [done..|]. rewrite Es. constructor.
  - erewrite bind_ok by reflexivity. cbn [negb]. apply (Htake h b l); try done.
    intros c cr j Hc Ej. by destruct (Ht c cr j Hc Ej); [|right].
Qed.

(** What [free] promises. *)
Record released h (b : Z) h' : Prop := {
  re_ok : heap_ok h';
  re_block c : block_of h' c = if c =? b then None else block_of h c;
  re_ram c n x : block_of h c = Some n -> c <> b -> within c n x = true -> pa_ram (pg h') x = pa_ram (pg h) x
}.

Lemma on_ram_ok {A} (f : K ram_t A) h x r :
  f (pa_ram (pg h)) = Ok (x, r) -> on_ram f h = Ok (x, with_pages (pa_set_ram r (pg h)) h).
Proof. intros E. unfold on_ram. by rewrite E. Qed.
Lemma heap_wk_ram h r : heap_wk h -> heap_wk (with_pages (pa_set_ram r (pg h)) h).
Proof. intros [H1 H2 H3 H4 H5 H6]. constructor; try done. by apply arenas_ok_ram. Qed.

Lemma block_outside h c n x a ar :
  heap_wk h -> block_of h c = Some n -> within c n x = true -> arenas h !! a = Some ar -> page_of c <> a ->
  within a (PGSIZE * npages ar) x = false.
Proof.
  intros Hk Hc Hx Ha Hne. destruct (block_inside h c n Hk Hc) as (cr & Hcr & _ & C1 & C2).
  unfold within in *. reflect_bools. unfold sizeof_arena in *.
  destruct (hk_apart h _ _ _ _ Hk Hcr Ha Hne); case_cmp; done || lia.
Qed.

(** The block at [b] is a small one. *)
Lemma block_of_small h b n ar i :
  arenas h !! page_of b = Some ar -> a_desc ar = Some i -> block_of h b = Some n ->
  is_slot i b = true /\ (b ∉ flist h i) /\ n = bs i.
Proof.
  intros Ha Hi. unfold block_of. rewrite Ha, Hi. destruct (is_slot i b); [|done]. case_bool_decide; [done|].
  by intros [= <-].
Qed.

Lemma free_arena_ok h a i n :
  heap_wk h -> tight_but (eq a) h -> arenas h !! a = Some (small i n) -> bpa i <= n ->
  exists h', free_arena a i (bpa i) h = Ok (tt, h') /\ heap_ok h' /\ (forall c, block_of h' c = block_of h c) /\
    forall x, within a PGSIZE x = false -> pa_ram (pg h') x = pa_ram (pg h) x.
Proof.
  intros Hk Ht Ha Hn. destruct (all_free h a i n Hk Ha Hn) as [-> Hall].
  destruct (hk_small h Hk _ _ i Ha eq_refl) as [Hi _]. destruct (hk_arena h _ _ Hk Ha) as (_ & A1 & A2 & _).
  assert (Hkn : arena_known h a i).
  { split_and!; [lia|by rewrite (hk_ndesc h Hk)|by exists (small i (bpa i))|apply (hk_desc h Hk)]. }
  unfold free_arena. rewrite (bind_ok _ _ _ _ _ (remove_loop h a i (seqZ 0 (bpa i)) Hkn (seqZ_below (bpa i)) (NoDup_slots i a Hi) Hall)).
  fold (slots i a). set (h2 := with_flist _ _ h).
  destruct (free_pages_ok h2 a (small i (bpa i)) 1 (hk_arenas h Hk) Ha eq_refl) as (s' & E & F).
  rewrite E. eexists. split; [done|]. split_and!.
  - split; [by apply (release_wk h i a (bpa i) s')|by apply (release_tight h i a s')].
  - intros c. by apply (release_blocks h i a (bpa i) s').
  - intros x Hx. simpl. rewrite (pf_ram _ _ _ _ F). rewrite Z.mul_1_r, Hx. done.
Qed.

Lemma arena_at_ok h a ar : arenas h !! a = Some ar -> arena_at a h = Ok (ar, h).
Proof. intros Ha. unfold arena_at. erewrite bind_ok by reflexivity. by rewrite Ha. Qed.

(** The first steps of [free] and [block_size]. *)
Lemma block_arena_ok h b n :
  heap_wk h -> block_of h b = Some n ->
  exists ar, arenas h !! page_of b = Some ar /\ b <> 0 /\ block_to_arena b h = Ok (page_of b, h).
Proof.
  intros Hk Hb. destruct (block_inside h b n Hk Hb) as (ar & Ha & _). exists ar. split; [done|].
  destruct (block_pos h b n Hk Hb). split; [lia|]. destruct (a_desc ar) as [i|] eqn:Ed.
  - destruct (block_of_small h b n ar i Ha Ed Hb) as (Hs & _). rewrite (small_arena h _ ar i Hk Ha Ed) in Ha.
    destruct (slot_fits h i b _ Hk Ha Hs) as (Hf & Hr & Hp). by eapply block_to_arena_ok.
  - destruct (hk_arena h _ _ Hk Ha) as (A1 & A2 & _). destruct (block_inside h b n Hk Hb) as (_ & _ & Hn & _).
    eapply block_to_arena_ok; try done; [lia|]. unfold fits. rewrite Ed.
    unfold block_of in Hb. rewrite Ha, Ed in Hb. destruct (Z.eqb_spec (b mod PGSIZE) sizeof_arena); done.
Qed.

Lemma free_small_ok h b i n :
  heap_ok h -> (i < ndesc)%nat -> arenas h !! page_of b = Some (small i n) -> block_of h b = Some (bs i) ->
  exists h', free b h = Ok (tt, h') /\ released h b h'.
Proof.
  intros [Hk Ht] Hi Ha Hb. destruct (block_arena_ok h b _ Hk Hb) as (ar & Ha' & Hb0 & Eb).
  rewrite Ha in Ha'. injection Ha' as <-. destruct (block_of_small h b _ _ i Ha eq_refl Hb) as (Hs & Hn & _).
  pose proof (bs_range i Hi). destruct (desc_at_ok h i Hk Hi) as (d & Ed & _ & E1 & E2 & Ef).
  unfold free. rewrite (proj2 (Z.eqb_neq b 0) Hb0), (bind_ok _ _ _ _ _ Eb).
  rewrite (bind_ok _ _ _ _ _ (arena_at_ok h _ _ Ha)). cbn [a_desc small]. rewrite (bind_ok _ _ _ _ _ Ed).
  destruct (memset_ok b 0xcc (bs i) (pa_ram (pg h)) Hb0 ltac:(lia)) as (r & Er & Hr).
  rewrite E1, (bind_ok _ _ _ _ _ (on_ram_ok _ h b r Er)). set (h0 := with_pages _ h).
  assert (Hk0 : heap_wk h0) by (by apply heap_wk_ram).
  assert (Ht0 : tight h0) by exact Ht.
  destruct (desc_at_ok h0 i Hk0 Hi) as (d0 & Ed0 & _ & _ & _ & Ef0). unfold push_front.
  rewrite bind_assoc, (bind_ok _ _ _ _ _ Ed0), Ef0. erewrite bind_ok by reflexivity. cbv zeta. cbn [free_cnt magic small].
  assert (Hcnt : 0 <= n < bpa i).
  { destruct (Ht _ _ i Ha eq_refl) as [[]|Hlt]. pose proof (count_bound h _ i n Hk Ha). simpl in Hlt. lia. }
  rewrite wrapu_small by lia. erewrite bind_ok by reflexivity. rewrite E2. cbn [arenas pg descs].
  set (h1 := with_flist i (b :: flist h0 i) (with_arenas (<[page_of b := small i (n + 1)]> (arenas h0)) h0)).
  match goal with |- context [when _ _ ?st] => change st with h1 end.
  assert (Hk1 : heap_wk h1) by (by apply give_wk).
  assert (Hb1 : forall c, block_of h1 c = if c =? b then None else block_of h c).
  { intros c. change (block_of h c) with (block_of h0 c). by apply (give_blocks h0 i b n). }
  assert (Hram : forall c m x, block_of h c = Some m -> c <> b -> within c m x = true -> r x = pa_ram (pg h) x).
  { intros c m x Hc Hne Hx. rewrite Hr. unfold memset_ram. destruct (within b (bs i) x) eqn:Ew; [|done]. unfold within in *.
    reflect_bools. destruct (blocks_apart h c m b (bs i) Hk Hc Hb Hne); lia. }
  assert (Er1 : forall x, pa_ram (pg h1) x = r x) by (intros x; unfold h1; simpl; by rewrite pa_ram_set).
  destruct (Z.leb_spec (bpa i) (n + 1)) as [Hfull|Hfull]; cbn [when].
  - rewrite ASSERT_true by (apply Z.eqb_eq; lia).
    assert (Ht1 : tight_but (eq (page_of b)) h1) by (apply (give_tight h0 i b n); [by right|done]).
    assert (Ha1 : arenas h1 !! page_of b = Some (small i (n + 1))) by (unfold h1; simpl; by rewrite lookup_insert_eq).
    destruct (free_arena_ok h1 _ i _ Hk1 Ht1 Ha1 Hfull) as (h' & E & Hh' & Hb' & Hr').
    exists h'. split; [done|]. constructor; [done|intros c; by rewrite Hb', Hb1|].
    intros c m x Hc Hne Hx. assert (Hc1 : block_of h1 c = Some m) by (by rewrite Hb1, (proj2 (Z.eqb_neq c b) Hne)).
    rewrite Hr', Er1; [by eapply Hram|]. rewrite <- (Z.mul_1_r PGSIZE).
    apply (block_outside h1 c m x _ _ Hk1 Hc1 Hx Ha1). intros Ep.
    destruct (all_free h1 _ i _ Hk1 Ha1 Hfull) as [_ Hall].
    assert (Hac : arenas h1 !! page_of c = Some (small i (n + 1))) by (by rewrite Ep).
    destruct (block_of_small h1 c m _ i Hac eq_refl Hc1) as (Hsc & Hnc & _). apply Hnc, Hall.
    apply slots_is_slot; [done|apply page_of_mod|done].
  - exists h1. split; [done|]. constructor; [split; [done|]|done|].
    + apply (give_tight h0 i b n); [left; lia|done].
    + intros c m x Hc Hne Hx. rewrite Er1. by eapply Hram.
Qed.

Lemma free_big_ok h b cnt n :
  heap_ok h -> arenas h !! page_of b = Some (big cnt) -> block_of h b = Some n ->
  exists h', free b h = Ok (tt, h') /\ released h b h'.
Proof.
  intros [Hk Ht] Ha Hb. destruct (block_arena_ok h b n Hk Hb) as (ar & Ha' & Hb0 & Eb).
  rewrite Ha in Ha'. injection Ha' as <-. destruct (hk_arena h _ _ Hk Ha) as (_ & A1 & A2 & _).
  unfold free. rewrite (proj2 (Z.eqb_neq b 0) Hb0), (bind_ok _ _ _ _ _ Eb).
  rewrite (bind_ok _ _ _ _ _ (arena_at_ok h _ _ Ha)). cbn [a_desc big free_cnt].
  destruct (free_pages_ok h (page_of b) (big cnt) cnt (hk_arenas h Hk) Ha eq_refl) as (s' & E & F).
  rewrite E. eexists. split; [done|]. set (h' := mkHeap _ _ _).
  assert (Eb2 : b = page_of b + sizeof_arena).
  { apply page_of_big; [done|]. split; [done|]. unfold block_of in Hb. rewrite Ha in Hb. simpl in Hb.
    by destruct (Z.eqb_spec (b mod PGSIZE) sizeof_arena). }
  constructor.
  - split; [by apply (drop_big_wk h _ cnt)|by apply tight_delete].
  - intros c. assert (H := big_blocks h' h (page_of b) c cnt A2). rewrite <- Eb2 in H.
    assert (Hnone : arenas h' !! page_of b = None) by apply lookup_delete_eq.
    destruct (Z.eqb_spec c b) as [Ec|Hne].
    + unfold block_of. by rewrite Ec, Hnone.
    + symmetry. apply H; try done. intros c' Hc'. unfold h'. simpl. by rewrite lookup_delete_ne.
  - intros c m x Hc Hne Hx. simpl. rewrite (pf_ram _ _ _ _ F).
    assert (Hp : page_of c <> page_of b).
    { intros Ep. apply Hne. unfold block_of in Hc. rewrite Ep, Ha in Hc. simpl in Hc.
      destruct (Z.eqb_spec (c mod PGSIZE) sizeof_arena) as [Ec|]; [|done]. unfold page_of in *. lia. }
    by rewrite (block_outside h c m x _ _ Hk Hc Hx Ha Hp : within (page_of b) (PGSIZE * cnt) x = false).
Qed.

Lemma free_ok h b n : heap_ok h -> block_of h b = Some n -> exists h', free b h = Ok (tt, h') /\ released h b h'.
Proof.
  intros Hh Hb. pose proof Hh as [Hk Ht]. destruct (block_inside h b n Hk Hb) as (ar & Ha & _).
  destruct (a_desc ar) as [i|] eqn:Ed.
  - destruct (block_of_small h b n ar i Ha Ed Hb) as (_ & _ & ->). destruct (hk_small h Hk _ _ i Ha Ed) as [Hi _].
    rewrite (small_arena h _ ar i Hk Ha Ed) in Ha. by apply (free_small_ok h b i (free_cnt ar)).
  - destruct (hk_arena h _ _ Hk Ha) as [Hm _]. apply (free_big_ok h b (free_cnt ar) n); try done.
    destruct ar. simpl in *. by subst.
Qed.

Lemma block_size_ok h b n : heap_wk h -> block_of h b = Some n -> block_size b h = Ok (n, h).
Proof.
  intros Hk Hb. destruct (block_arena_ok h b n Hk Hb) as (ar & Ha & Hb0 & Eb).
  unfold block_size. rewrite (bind_ok _ _ _ _ _ Eb), (bind_ok _ _ _ _ _ (arena_at_ok h _ _ Ha)).
  destruct (a_desc ar) as [i|] eqn:Ed.
  - destruct (block_of_small h b n ar i Ha Ed Hb) as (_ & _ & ->). destruct (hk_small h Hk _ _ i Ha Ed) as [Hi _].
    destruct (desc_at_ok h i Hk Hi) as (d & E & _ & E1 & _). by rewrite (bind_ok _ _ _ _ _ E), E1.
  - destruct (hk_arena h _ _ Hk Ha) as (_ & A1 & _ & A3 & A4 & _). unfold npages in *. rewrite Ed in *.
    unfold block_of in Hb. rewrite Ha, Ed in Hb. rewrite pg_ofs_mod.
    destruct (Z.eqb_spec (b mod PGSIZE) sizeof_arena) as [E|]; [|done]. injection Hb as <-. rewrite E.
    rewrite wrapu_small by (unfold sizeof_arena, PGSIZE in *; lia). done.
Qed.

(** ** The heap as a store of blocks *)

Definition bytes (m : ram_t) (a n : Z) : list Z := (fun k => m (a + k)) <$> seqZ 0 n.

Lemma bytes_eq m m' a a' n :
  (forall k, 0 <= k < n -> m' (a' + k) = m (a + k)) -> bytes m' a' n = bytes m a n.
Proof.
  intros H. unfold bytes. apply list_fmap_ext. intros i k Hk. apply H.
  apply list_elem_of_lookup_2 in Hk. apply elem_of_seqZ in Hk. lia.
Qed.
Lemma length_bytes m a n : 0 <= n -> len (bytes m a n) = n.
Proof. intros. unfold bytes. rewrite length_fmap, length_seqZ. lia. Qed.
Lemma take_bytes m a n k : 0 <= k <= n -> take (Z.to_nat k) (bytes m a n) = bytes m a k.
Proof.
  intros H. unfold bytes. rewrite <- fmap_take. f_equal. unfold seqZ. rewrite <- fmap_take. f_equal.
  rewrite take_seq. f_equal. lia.
Qed.

(** The contents of the block in use at an address. *)
Definition contents h (b : Z) : option (list Z) := (fun n => bytes (pa_ram (pg h)) b n) <$> block_of h b.

Lemma contents_eq h h' c :
  block_of h' c = block_of h c ->
  (forall n x, block_of h c = Some n -> within c n x = true -> pa_ram (pg h') x = pa_ram (pg h) x) ->
  contents h' c = contents h c.
Proof.
  intros Hb Hr. unfold contents. rewrite Hb. destruct (block_of h c) as [n|] eqn:E; [|done]. simpl. f_equal.
  apply bytes_eq. intros k Hk. apply (Hr n); [done|]. unfold within. case_cmp; done.
Qed.

(** The operations of a client: it also writes a byte [v] at offset [k] of a block. *)
Inductive op :=
| Malloc (size : Z)
| Calloc (a b : Z)
| Realloc (p size : Z)
| Free (p : Z)
| Write (p k v : Z).

Definition exec (o : op) : K (heap S) Z :=
  match o with
  | Malloc size => malloc size
  | Calloc a b => calloc a b
  | Realloc p size => realloc p size
  | Free p => free p;; mret 0
  | Write p k v => on_ram (store (p + k) (u8 v));; mret 0
  end.

Definition held h (p : Z) : Prop := is_Some (block_of h p).
(** What a client may do: sizes are of type [size_t], and it only names blocks that it holds, where
    a null pointer may be freed. *)
Definition size_t (n : Z) : Prop := 0 <= n < 2 ^ 32.
Definition valid h (o : op) : Prop :=
  match o with
  | Malloc size => size_t size
  | Calloc a b => size_t a /\ size_t b
  | Realloc p size => size_t size /\ (p = 0 \/ held h p)
  | Free p => p = 0 \/ held h p
  | Write p k _ => exists n, block_of h p = Some n /\ 0 <= k < n
  end.

(** The number of bytes an operation asks [malloc] for. *)
Definition asked (o : op) : Z :=
  match o with
  | Malloc size | Realloc _ size => size
  | Calloc a b => u32 (a * b)
  | Free _ | Write _ _ _ => 0
  end.
(** From this size on, the sum of the size and the arena's header exceeds 2^32. *)
Definition HEADER_WRAPS : Z := 2 ^ 32 - 11.

(** The specification: a store maps the addresses of blocks to their contents; [none] tells for
    which sizes there is no memory. *)
Definition blocks : Type := Z -> option (list Z).
Definition same (A A' : blocks) : Prop := forall c, A' c = A c.
Definition gives (none : Z -> Prop) (A A' : blocks) (r : Z) (size : Z) (P : list Z -> Prop) : Prop :=
  (r = 0 /\ none size /\ same A A') \/
  (0 < r /\ 0 < size /\ A r = None /\
   exists l, size <= len l /\ P l /\ forall c, A' c = if c =? r then Some l else A c).
Definition without (p : Z) (A : blocks) : blocks := fun c => if c =? p then None else A c.

Definition store_step (none : Z -> Prop) (o : op) (A : blocks) (r : Z) (A' : blocks) : Prop :=
  match o with
  | Malloc size => gives none A A' r size (fun _ => True)
  | Calloc a b =>
      let size := u32 (a * b) in
      if (size <? a) || (size <? b) then r = 0 /\ same A A'
      else gives none A A' r size (fun l => take (Z.to_nat size) l = replicate (Z.to_nat size) 0)
  | Realloc p size =>
      if size =? 0 then r = 0 /\ same (without p A) A'
      else
        match A p with
        | None => gives none A A' r size (fun _ => True)
        | Some old =>
            (r = 0 /\ none size /\ same A A') \/
            (0 < r /\ r <> p /\ gives none (without p A) A' r size (fun l =>
               let n := Z.to_nat (Z.min size (len old)) in take n l = take n old))
        end
  | Free p => r = 0 /\ same (without p A) A'
  | Write p k v => r = 0 /\ exists l, A p = Some l /\
      forall c, A' c = if c =? p then Some (<[Z.to_nat k := u8 v]> l) else A c
  end.

Lemma contents_None h c : contents h c = None <-> block_of h c = None.
Proof. unfold contents. by destruct (block_of h c). Qed.
Lemma contents_Some h c n : block_of h c = Some n -> contents h c = Some (bytes (pa_ram (pg h)) c n).
Proof. intros H. unfold contents. by rewrite H. Qed.
Lemma block_of_null h : heap_wk h -> block_of h 0 = None.
Proof.
  intros Hk. destruct (block_of h 0) as [n|] eqn:E; [|done]. apply (block_pos h 0 n Hk) in E. lia.
Qed.

(** Memory that is written inside of one block only. *)
Definition ram_but (b n : Z) h h' : Prop :=
  forall x, within b n x = false -> pa_ram (pg h') x = pa_ram (pg h) x.

Lemma other_contents h h' b n c :
  heap_wk h -> block_of h b = Some n -> c <> b -> block_of h' c = block_of h c -> ram_but b n h h' ->
  contents h' c = contents h c.
Proof.
  intros Hk Hb Hne Hc Hr. apply contents_eq; [done|]. intros m x Hm Hx. apply Hr.
  unfold within in *. reflect_bools.
  destruct (blocks_apart h c m b n Hk Hm Hb Hne); case_cmp; done || lia.
Qed.

(** A new block, whose bytes may then be written. *)
Lemma new_block h size b n h1 h2 (P : list Z -> Prop) :
  malloced h size b h1 -> heap_wk h1 -> 0 < b -> block_of h1 b = Some n ->
  (forall c, block_of h2 c = block_of h1 c) -> ram_but b n h1 h2 -> P (bytes (pa_ram (pg h2)) b n) ->
  gives (unavailable h) (contents h) (contents h2) b size P.
Proof.
  intros [_ M2 M3] Hk1 Hb Hn Hb2 Hr HP. right. destruct M3 as [[-> _]|(_ & Hsz & Hnone & n' & Hle & M3)]; [lia|].
  assert (n' = n) as -> by (rewrite M3, Z.eqb_refl in Hn; congruence).
  split; [done|]. split; [done|]. split; [by apply contents_None|].
  exists (bytes (pa_ram (pg h2)) b n). destruct (block_inside h1 b n Hk1 Hn) as (_ & _ & Hn0 & _).
  split; [rewrite length_bytes; lia|]. split; [done|]. intros c. destruct (Z.eqb_spec c b) as [->|Hne].
  - apply contents_Some. by rewrite Hb2.
  - rewrite (other_contents h1 h2 b n c Hk1 Hn Hne (Hb2 c) Hr). apply contents_eq; [|done].
    by rewrite M3, (proj2 (Z.eqb_neq c b) Hne).
Qed.

Lemma malloced_block h size b h1 :
  malloced h size b h1 -> b <> 0 -> 0 < b /\ block_of h b = None /\ exists n, size <= n /\ block_of h1 b = Some n /\
    forall c, c <> b -> block_of h1 c = block_of h c.
Proof.
  intros [_ _ M3] Hb. destruct M3 as [[? _]|(Hp & _ & Hnone & n & Hle & M3)]; [done|]. split; [done|]. split; [done|].
  exists n. split; [done|]. split; [by rewrite M3, Z.eqb_refl|]. intros c Hne. by rewrite M3, (proj2 (Z.eqb_neq c b) Hne).
Qed.

Lemma malloc_refines h size b h1 : malloced h size b h1 -> gives (unavailable h) (contents h) (contents h1) b size (fun _ => True).
Proof.
  intros M. destruct (decide (b = 0)) as [->|Hb].
  - left. split; [done|]. destruct M as [_ M2 M3].
    destruct M3 as [(_ & Hu & M3)|(? & _)]; [|lia]. split; [done|]. intros c. by apply contents_eq.
  - destruct (malloced_block h size b h1 M Hb) as (Hp & _ & n & _ & Hn & _).
    apply (new_block h size b n h1 h1); try done. apply M.
Qed.

Lemma heap_ok_ram h r : heap_ok h -> heap_ok (with_pages (pa_set_ram r (pg h)) h).
Proof. intros [H1 H2]. split; [by apply heap_wk_ram|done]. Qed.

Lemma calloc_refines h a b :
  heap_ok h -> valid h (Calloc a b) -> asked (Calloc a b) < HEADER_WRAPS ->
  exists r h', calloc a b h = Ok (r, h') /\ heap_ok h' /\ store_step (unavailable h) (Calloc a b) (contents h) r (contents h').
Proof.
  intros Hh (Ha & Hb) Hab. unfold asked, HEADER_WRAPS in Hab. unfold calloc, store_step. cbv zeta.
  pose proof (wrapu_range 32 (a * b) ltac:(done)) as Hr0. set (size := u32 (a * b)) in *.
  destruct ((size <? a) || (size <? b)); [by exists 0, h|].
  destruct (malloc_ok h size Hh ltac:(lia)) as (p & h1 & E & M). rewrite (bind_ok _ _ _ _ _ E).
  destruct (Z.eqb_spec p 0) as [->|Hp]; cbn [negb when].
  - exists 0, h1. split; [done|]. split; [apply M|].
    destruct (malloc_refines h size 0 h1 M) as [G|(? & _)]; [by left|lia].
  - destruct (malloced_block h size p h1 M Hp) as (Hp0 & _ & n & Hle & Hn & _).
    destruct (memset_ok p 0 size (pa_ram (pg h1)) Hp ltac:(lia)) as (r & Er & Hr).
    rewrite bind_assoc, (bind_ok _ _ _ _ _ (on_ram_ok _ h1 p r Er)).
    eexists p, _. split; [reflexivity|]. split; [by apply heap_ok_ram, M|].
    apply (new_block h size p n h1); try done; [apply M|..].
    + intros x Hx. simpl. rewrite pa_ram_set, Hr. unfold memset_ram.
      destruct (within p size x) eqn:Ew; [|done]. unfold within in *. reflect_bools. destruct Hx; reflect_bools; lia.
    + simpl. rewrite pa_ram_set, take_bytes by lia. apply list_eq_same_length with (Z.to_nat size).
      * by rewrite length_replicate.
      * pose proof (length_bytes r p size ltac:(lia)). lia.
      * intros i x y Hi Hx Hy. unfold bytes in Hx. apply list_lookup_fmap_Some in Hx as (k & -> & Hk).
        apply lookup_replicate in Hy as [-> _]. rewrite Hr. unfold memset_ram.
        apply lookup_seqZ in Hk. unfold within. case_cmp; done.
Qed.

Lemma free_refines h p :
  heap_ok h -> p = 0 \/ held h p ->
  exists h', free p h = Ok (tt, h') /\ heap_ok h' /\ forall c, contents h' c = without p (contents h) c.
Proof.
  intros Hh [->|[n Hn]].
  - exists h. split; [done|]. split; [done|]. intros c. unfold without. destruct (Z.eqb_spec c 0) as [->|]; [|done].
    apply contents_None, block_of_null, Hh.
  - destruct (free_ok h p n Hh Hn) as (h' & E & R). exists h'. split; [done|]. split; [apply R|].
    intros c. unfold without. pose proof (re_block _ _ _ R c) as Hc. destruct (Z.eqb_spec c p) as [Ec|Hne].
    + by apply contents_None.
    + apply contents_eq; [done|]. intros m x Hm Hx. by apply (re_ram _ _ _ R c m).
Qed.

(** [realloc] with a new block [b] for [p]: the copy, then the release of [p]. *)
Lemma move_block h p m size b h1 :
  heap_ok h -> block_of h p = Some m -> malloced h size b h1 -> b <> 0 -> 0 < size ->
  exists h', (old_size ← block_size p;
              let min_size := if size <? old_size then size else old_size in
              on_ram (memcpy b p min_size);; free p) h1 = Ok (tt, h') /\ heap_ok h' /\
    b <> p /\ gives (unavailable h) (without p (contents h)) (contents h') b size (fun l =>
      take (Z.to_nat (Z.min size m)) l = take (Z.to_nat (Z.min size m)) (bytes (pa_ram (pg h)) p m)).
Proof.
  intros Hh Hm M Hb Hsz. pose proof (ma_ok _ _ _ _ M) as Hh1.
  destruct (malloced_block h size b h1 M Hb) as (Hb0 & Hnone & n & Hle & Hn & Hoth).
  assert (Hne : b <> p) by congruence. assert (Hm1 : block_of h1 p = Some m) by (by rewrite Hoth).
  destruct (block_inside h p m (proj1 Hh) Hm) as (_ & _ & Hm0 & _). destruct (block_pos h p m (proj1 Hh) Hm).
  rewrite (bind_ok _ _ _ _ _ (block_size_ok h1 p m (proj1 Hh1) Hm1)). cbv zeta.
  assert (Emin : (if size <? m then size else m) = Z.min size m) by (case_cmp; lia). rewrite Emin.
  destruct (memcpy_ok b p (Z.min size m) (pa_ram (pg h1))) as (r & Er & Hr); [done|lia|lia|..].
  { destruct (blocks_apart h1 b n p m (proj1 Hh1) Hn Hm1 Hne); lia. }
  rewrite (bind_ok _ _ _ _ _ (on_ram_ok _ h1 b r Er)). set (h2 := with_pages _ h1).
  assert (Hh2 : heap_ok h2) by (by apply heap_ok_ram).
  destruct (free_ok h2 p m Hh2 Hm1) as (h' & E & R). exists h'. split; [done|]. split; [apply R|]. split; [done|].
  assert (Hb2 : ram_but b n h1 h2).
  { intros x Hx. unfold h2. simpl. rewrite pa_ram_set, Hr. unfold copied.
    destruct (within b (Z.min size m) x) eqn:Ew; [|done]. unfold within in *. reflect_bools.
    destruct Hx; reflect_bools; lia. }
  right. split; [done|]. split; [done|]. unfold without. rewrite (proj2 (Z.eqb_neq b p) Hne). split; [by apply contents_None|].
  assert (Hc' : forall c, c <> p -> contents h' c = contents h2 c).
  { intros c Hc. apply contents_eq; [by rewrite (re_block _ _ _ R), (proj2 (Z.eqb_neq c p) Hc)|].
    intros k x Hk Hx. by apply (re_ram _ _ _ R c k). }
  exists (bytes r b n). destruct (block_inside h1 b n (proj1 Hh1) Hn) as (_ & _ & Hn0 & _).
  split; [rewrite length_bytes; lia|]. split.
  - rewrite !take_bytes by lia. apply bytes_eq. intros k Hk. rewrite Hr. unfold copied, within.
    case_cmp; simpl; rewrite (ma_ram _ _ _ _ M); f_equal; lia.
  - intros c. destruct (Z.eqb_spec c b) as [->|Hcb].
    + rewrite Hc' by done. rewrite (contents_Some h2 b n Hn). unfold h2. simpl. by rewrite pa_ram_set.
    + destruct (Z.eqb_spec c p) as [->|Hcp].
      * apply contents_None. by rewrite (re_block _ _ _ R), Z.eqb_refl.
      * rewrite Hc' by done. rewrite (other_contents h1 h2 b n c (proj1 Hh1) Hn Hcb eq_refl Hb2).
        apply contents_eq; [by apply Hoth|]. intros. apply (ma_ram _ _ _ _ M).
Qed.

Lemma realloc_refines h p size :
  heap_ok h -> valid h (Realloc p size) -> asked (Realloc p size) < HEADER_WRAPS ->
  exists r h', realloc p size h = Ok (r, h') /\ heap_ok h' /\ store_step (unavailable h) (Realloc p size) (contents h) r (contents h').
Proof.
  intros Hh (Hs & Hp) Hw. unfold asked, HEADER_WRAPS in Hw. unfold size_t in Hs. unfold realloc, store_step. destruct (Z.eqb_spec size 0) as [->|Hs0].
  { destruct (free_refines h p Hh Hp) as (h' & E & Hh' & Hc). rewrite (bind_ok _ _ _ _ _ E). by exists 0, h'. }
  destruct (malloc_ok h size Hh ltac:(lia)) as (b & h1 & E & M). rewrite (bind_ok _ _ _ _ _ E).
  pose proof (malloc_refines h size b h1 M) as G. destruct (Z.eqb_spec p 0) as [->|Hp0]; cbn [negb andb when].
  { exists b, h1. split; [done|]. split; [apply M|].
    by rewrite (proj2 (contents_None h 0) (block_of_null h (proj1 Hh))). }
  destruct Hp as [?|[m Hm]]; [done|]. rewrite (contents_Some h p m Hm).
  destruct (block_inside h p m (proj1 Hh) Hm) as (_ & _ & Hm0 & _).
  destruct (Z.eqb_spec b 0) as [->|Hb]; cbn [negb when].
  - exists 0, h1. split; [done|]. split; [apply M|]. left. destruct G as [G|[? _]]; [done|lia].
  - destruct (move_block h p m size b h1 Hh Hm M Hb ltac:(lia)) as (h' & E' & Hh' & Hne & G').
    rewrite (bind_ok _ _ _ _ _ E'). exists b, h'. split; [done|]. split; [done|]. right.
    rewrite length_bytes by lia. destruct (malloced_block h size b h1 M Hb) as (Hb0 & _). done.
Qed.

Lemma write_refines h p k v :
  heap_ok h -> valid h (Write p k v) ->
  exists h', exec (Write p k v) h = Ok (0, h') /\ heap_ok h' /\ store_step (unavailable h) (Write p k v) (contents h) 0 (contents h').
Proof.
  intros Hh (n & Hn & Hk). unfold exec, store_step.
  rewrite (bind_ok _ _ _ _ _ (on_ram_ok (store (p + k) (u8 v)) h tt (upd (p + k) (u8 v) (pa_ram (pg h))) eq_refl)).
  eexists. split; [reflexivity|]. split; [by apply heap_ok_ram|]. split; [done|].
  exists (bytes (pa_ram (pg h)) p n). split; [by apply contents_Some|]. intros c. set (h' := with_pages _ h).
  destruct (Z.eqb_spec c p) as [->|Hne].
  - rewrite (contents_Some h' p n Hn). f_equal. unfold h'. simpl. rewrite pa_ram_set. apply list_eq. intros i.
    unfold bytes. rewrite list_lookup_insert. rewrite !list_lookup_fmap.
    destruct (seqZ 0 n !! i) as [j|] eqn:Ej.
    + apply lookup_seqZ in Ej as [-> Hi]. simpl. rewrite length_fmap, length_seqZ. unfold upd.
      destruct (Z.eqb_spec (p + (0 + Z.of_nat i)) (p + k)).
      * rewrite decide_True by lia. done.
      * rewrite decide_False by lia. done.
    + simpl. apply lookup_ge_None in Ej. rewrite length_seqZ in Ej. rewrite length_fmap, length_seqZ.
      rewrite decide_False by lia. done.
  - apply (other_contents h h' p n c (proj1 Hh) Hn Hne eq_refl). intros x Hx. unfold h'. simpl. rewrite pa_ram_set.
    unfold upd. destruct (Z.eqb_spec x (p + k)) as [->|]; [|done]. unfold within in Hx. exfalso. revert Hx. by case_cmp.
Qed.

Lemma exec_refines h o :
  heap_ok h -> valid h o -> asked o < HEADER_WRAPS ->
  exists r h', exec o h = Ok (r, h') /\ heap_ok h' /\ store_step (unavailable h) o (contents h) r (contents h').
Proof.
  intros Hh Hv Hw. destruct o as [size|a b|p size|p|p k v].
  - destruct (malloc_ok h size Hh (conj (proj1 Hv) Hw)) as (b & h' & E & M). exists b, h'. split; [done|]. split; [apply M|].
    by apply malloc_refines.
  - by apply calloc_refines.
  - by apply realloc_refines.
  - destruct (free_refines h p Hh Hv) as (h' & E & Hh' & Hc). exists 0, h'. split; [|done].
    simpl. by rewrite (bind_ok _ _ _ _ _ E).
  - destruct (write_refines h p k v Hh Hv) as (h' & E & Hh' & Hs). by exists 0, h'.
Qed.

Lemma malloc_init_ok s : pa_ok s -> exists h, malloc_init s = Ok h /\ heap_ok h /\ pg h = s /\ forall b, block_of h b = None.
Proof.
  intros Hs. eexists. split; [reflexivity|]. split; [|done]. split; [|done].
  assert (Hfl : forall i : nat, from_option free_list []
     ([mkDesc 16 255 []; mkDesc 32 127 []; mkDesc 64 63 []; mkDesc 128 31 []; mkDesc 256 15 []; mkDesc 512 7 []; mkDesc 1024 3 []] !! i) = []).
  { intros i. do 7 (destruct i as [|i]; [done|]). done. }
  constructor; simpl; try done.
  - intros i d Hd. do 7 (destruct i as [|i]; [injection Hd as <-; done|]). done.
  - intros i. unfold flist. simpl. rewrite Hfl. constructor.
  - intros i b. unfold flist. simpl. rewrite Hfl. by intros ?%not_elem_of_nil.
Qed.

Inductive heap_step : heap S -> heap S -> Prop :=
| do_op o r h h' : valid h o -> asked o < HEADER_WRAPS -> exec o h = Ok (r, h') -> heap_step h h'.

Lemma heap_reachable_ok s h0 h : pa_ok s -> malloc_init s = Ok h0 -> rtc heap_step h0 h -> heap_ok h.
Proof.
  intros Hs Hi Hr. apply (rtc_invariant heap_step heap_ok h0 h); [|done|].
  - intros h1 h2 Hh Hst. destruct Hst as [o r h' h'' Hv Hw E]. destruct (exec_refines h' o Hh Hv Hw) as (r' & h3 & E' & Hh' & _). congruence.
  - destruct (malloc_init_ok s Hs) as (h1 & E & Hh & _). congruence.
Qed.

(** Too big a size wraps around when the header is added. *)
Lemma malloc_wraps h size :
  heap_ok h -> 2 ^ 32 - 11 <= size < 2 ^ 32 ->
  malloc size h = Ok (0, h) \/ exists b h', malloc size h = Ok (b, h') /\ heap_ok h' /\ block_of h' b = Some 4084.
Proof.
  intros [Hk Ht] Hs. unfold malloc. rewrite (proj2 (Z.eqb_neq size 0)) by lia. erewrite bind_ok by reflexivity.
  destruct (find_desc size (descs h)) as [i|] eqn:Ed.
  { destruct (find_desc_ok h size i Hk Ed) as [Hi Hle]. pose proof (bs_range i Hi). lia. }
  assert (Ec : DIV_ROUND_UP (u32 (size + sizeof_arena)) PGSIZE = 1).
  { unfold DIV_ROUND_UP, sizeof_arena, PGSIZE, wrapu.
    assert (E1 : (size + 12) mod 2 ^ 32 = size + 12 - 2 ^ 32) by (symmetry; apply (Z.mod_unique _ _ 1); lia).
    rewrite E1, (Z.mod_small (_ + 4096 - 1)) by lia. symmetry. apply (Z.div_unique _ _ 1 (size + 11 - 2 ^ 32)); lia. }
  unfold malloc_big. rewrite Ec. cbv zeta.
  destruct (get_pages_ok h 1 Hk ltac:(lia)) as [Eg|(a & s' & Eg & G & _)]; rewrite (bind_ok _ _ _ _ _ Eg); [by left|].
  right. destruct (pg_addr _ _ _ _ G) as (A1 & A2 & A3). rewrite (proj2 (Z.eqb_neq a 0)) by lia.
  eexists _, _. split; [reflexivity|]. cbn [pg descs arenas with_pages]. split.
  - split; [by apply add_big_wk|by apply tight_insert].
  - destruct (page_of_add a sizeof_arena A2 ltac:(done)) as [Ep Em]. unfold block_of. cbn [arenas].
    by rewrite Ep, lookup_insert_eq, Em.
Qed.
End malloc.

(** ** Properties *)

(** C16: The heap implements a store of blocks, for requests of less than 2^32 - 11 bytes: from that
    size on the sum with the arena's header wraps around, and nothing is claimed.  From [malloc_init]
    on, whatever a client does that only names blocks it holds, the next operation succeeds and has
    the effect on the contents of the blocks that it should have.  [malloc], [calloc] and [realloc]
    return a new block with at least the bytes asked for, cleared or filled with the old contents; they
    return a null pointer, and change nothing, only for 0 bytes or when the free list of that size is
    empty and the page allocator has no pages left.  [calloc] asks for the product modulo 2^32, and
    fails when that is less than one of the factors.  [free] removes one block; and no other block is
    ever touched. *)
Theorem heap_refines_store {S} {PA : PageAllocator S} (s : S) h0 h o :
  pa_ok s -> malloc_init s = Ok h0 -> rtc heap_step h0 h -> valid h o -> asked o < HEADER_WRAPS ->
  exists r h', exec o h = Ok (r, h') /\ store_step (unavailable h) o (contents h) r (contents h').
Proof.
  intros Hs Hi Hr Hv Hw. destruct (exec_refines h o (heap_reachable_ok s h0 h Hs Hi Hr) Hv Hw) as (r & h' & E & _ & H). eauto.
Qed.

(** In every heap that a client can reach, two blocks in use do not overlap, and a block
    lies, after the header of its arena, inside of pages that the page allocator counts as used. *)
Theorem heap_blocks_apart {S} {PA : PageAllocator S} (s : S) h0 h b n :
  pa_ok s -> malloc_init s = Ok h0 -> rtc heap_step h0 h -> block_of h b = Some n ->
  (forall b' n', block_of h b' = Some n' -> b <> b' -> b + n <= b' \/ b' + n' <= b) /\
  (forall x, b <= x < b + n -> pa_used (pg h) (x / PGSIZE) = true) /\ b + n <= 2 ^ 32.
Proof.
  intros Hs Hi Hr Hb. pose proof (heap_reachable_ok s h0 h Hs Hi Hr) as [Hk _]. split_and!.
  - intros b' n' Hb' Hne. by apply (blocks_apart h b n b' n').
  - intros x Hx. destruct (block_inside h b n Hk Hb) as (ar & Ha & _ & H1 & H2).
    destruct (hk_arena h _ _ Hk Ha) as (_ & _ & Hm & _). apply (ao_used _ _ (hk_arenas h Hk) _ ar _ Ha).
    apply page_div in Hm. unfold sizeof_arena, PGSIZE in *. div_lia.
  - by apply (block_pos h b n).
Qed.

(** The sizes from 2^32 - 11 on overflow when the header is added: [malloc] does not fail
    but returns a block of only 4084 bytes, if a page is left. *)
Theorem malloc_overflow {S} {PA : PageAllocator S} (s : S) h0 h size :
  pa_ok s -> malloc_init s = Ok h0 -> rtc heap_step h0 h -> 2 ^ 32 - 11 <= size < 2 ^ 32 ->
  malloc size h = Ok (0, h) \/ exists b h', malloc size h = Ok (b, h') /\ block_of h' b = Some 4084.
Proof.
  intros Hs Hi Hr Hsz. destruct (malloc_wraps h size (heap_reachable_ok s h0 h Hs Hi Hr) Hsz) as [?|(b & h' & ? & _ & ?)]; eauto.
Qed.

(** A heap over the pages of the example machine, and two of its blocks. *)
Definition ex_heap : heap (pages bitmap) :=
  match malloc_init ex_pages with Ok h => h | _ => mkHeap ex_pages [] ∅ end.
Lemma ex_heap_init : malloc_init ex_pages = Ok ex_heap.
Proof. destruct (malloc_init_ok ex_pages) as (h & E & _); [apply ex_boot_ok|]. unfold ex_heap. rewrite E. reflexivity. Qed.

Definition ex_two : bool :=
  match exec (Malloc 100) ex_heap with
  | Ok (r1, h1) =>
      match exec (Malloc 5000) h1 with
      | Ok (r2, h2) => (r1 =? 0xc010100c) && (r2 =? 0xc010200c) &&
          bool_decide (block_of h2 r1 = Some 128) && bool_decide (block_of h2 r2 = Some 8180)
      | _ => false
      end
  | _ => false
  end.
Lemma ex_two_true : ex_two = true.
Proof. vm_compute. reflexivity. Qed.

(** The state after the two allocations. *)
Lemma ex_reach :
  exists h, rtc heap_step ex_heap h /\ block_of h 0xc010100c = Some 128 /\ block_of h 0xc010200c = Some 8180.
Proof.
  pose proof ex_two_true as T. unfold ex_two in T.
  pose proof (heap_reachable_ok ex_pages ex_heap ex_heap (proj1 (proj2 ex_boot_ok)) ex_heap_init (rtc_refl _ _)) as H0.
  assert (V1 : valid ex_heap (Malloc 100)) by (split; [discriminate|reflexivity]).
  destruct (exec_refines ex_heap (Malloc 100) H0 V1 ltac:(done)) as (r1 & h1 & E1 & H1 & _). rewrite E1 in T.
  assert (V2 : valid h1 (Malloc 5000)) by (split; [discriminate|reflexivity]).
  destruct (exec_refines h1 (Malloc 5000) H1 V2 ltac:(done)) as (r2 & h2 & E2 & _). rewrite E2 in T.
  apply andb_true_iff in T as [T T4]. apply andb_true_iff in T as [T T3]. apply andb_true_iff in T as [T1 T2].
  apply Z.eqb_eq in T1, T2. apply bool_decide_eq_true in T3, T4. rewrite T1 in T3. rewrite T2 in T4.
  exists h2. split; [|split; [exact T3|exact T4]].
  apply (rtc_l _ _ h1); [by apply (do_op (Malloc 100) r1)|]. apply rtc_once. by apply (do_op (Malloc 5000) r2).
Qed.

Lemma heap_refines_store_witness :
  exists h, rtc heap_step ex_heap h /\ held h 0xc010100c /\
    exists r h', exec (Realloc 0xc010100c 1000) h = Ok (r, h') /\
      store_step (unavailable h) (Realloc 0xc010100c 1000) (contents h) r (contents h').
Proof.
  destruct ex_reach as (h & Hr & H1 & _). exists h. split; [exact Hr|].
  assert (Hh : held h 0xc010100c) by (exists 128; exact H1). split; [exact Hh|].
  apply (heap_refines_store ex_pages ex_heap h (Realloc 0xc010100c 1000)).
  - exact (proj1 (proj2 ex_boot_ok)).
  - exact ex_heap_init.
  - exact Hr.
  - split; [split; [discriminate|reflexivity]|right; exact Hh].
  - reflexivity.
Defined.

Lemma heap_blocks_apart_witness :
  exists h, rtc heap_step ex_heap h /\ block_of h 0xc010100c = Some 128 /\
    (forall x, 0xc010100c <= x < 0xc010100c + 128 -> pa_used (pg h) (x / PGSIZE) = true).
Proof.
  destruct ex_reach as (h & Hr & H1 & _). exists h. split; [exact Hr|]. split; [exact H1|].
  apply (heap_blocks_apart ex_pages ex_heap h 0xc010100c 128).
  - exact (proj1 (proj2 ex_boot_ok)).
  - exact ex_heap_init.
  - exact Hr.
  - exact H1.
Defined.

Lemma malloc_overflow_witness :
  malloc (2 ^ 32 - 1) ex_heap = Ok (0, ex_heap) \/
  exists b h', malloc (2 ^ 32 - 1) ex_heap = Ok (b, h') /\ block_of h' b = Some 4084.
Proof.
  apply (malloc_overflow ex_pages ex_heap ex_heap (2 ^ 32 - 1)).
  - exact (proj1 (proj2 ex_boot_ok)).
  - exact ex_heap_init.
  - apply rtc_refl.
  - split; [discriminate|reflexivity].
Defined.
