(* ===== verification/Arith.v ===== *)
(** 64-bit division on a 32-bit machine (lib/arithmetic.c).  The instruction [divl]
    traps, which is a panic, if its quotient does not fit. *)

From S2P Require Import Prelude KMonad.

(** ** The code *)

Definition obind {A B} (m : outcome A) (f : A -> outcome B) : outcome B :=
  match m with Ok a => f a | Panic => Panic | NoFuel => NoFuel end.

(** The x86 instruction: the dividend is [n1 * 2^32 + n0]. *)
Definition divl_instr (n1 n0 d : Z) : outcome Z :=
  if (d =? 0) || (2 ^ 32 <=? (n1 * 2 ^ 32 + n0) / d) then Panic else Ok ((n1 * 2 ^ 32 + n0) / d).
Definition divl (n d : Z) : outcome Z := divl_instr (u32 (Z.shiftr n 32)) (u32 n) d.

Definition nlz (x : Z) : Z :=
  let n := 0 in
  let '(n, x) := if x <=? 0x0000FFFF then (n + 16, u32 (Z.shiftl x 16)) else (n, x) in
  let '(n, x) := if x <=? 0x00FFFFFF then (n + 8, u32 (Z.shiftl x 8)) else (n, x) in
  let '(n, x) := if x <=? 0x0FFFFFFF then (n + 4, u32 (Z.shiftl x 4)) else (n, x) in
  let '(n, x) := if x <=? 0x3FFFFFFF then (n + 2, u32 (Z.shiftl x 2)) else (n, x) in
  if x <=? 0x7FFFFFFF then n + 1 else n.

Definition udiv64 (n d : Z) : outcome Z :=
  if Z.shiftr d 32 =? 0
  then
    let b := 2 ^ 32 in
    let n1 := u32 (Z.shiftr n 32) in
    let n0 := u32 n in
    let d0 := u32 d in
    if d0 =? 0 then Panic
    else obind (divl (u64 (u64 (b * (n1 mod d0)) + n0)) d0) (fun q => Ok (u64 (q + u64 (b * (n1 / d0)))))
  else if n <? d then Ok 0
  else
    let d1 := u32 (Z.shiftr d 32) in
    let s := nlz d1 in
    obind (divl (Z.shiftr n 1) (u32 (Z.shiftr (u64 (Z.shiftl d s)) 32))) (fun q0 =>
    let q := Z.shiftr q0 (31 - s) in
    Ok (if u64 (n - u64 (u64 (q - 1) * d)) <? d then u64 (q - 1) else q)).

(** The result is an [uint32_t]. *)
Definition umod64 (n d : Z) : outcome Z := obind (udiv64 n d) (fun q => Ok (u32 (u64 (n - u64 (d * q))))).

Definition sdiv64 (n d : Z) : outcome Z :=
  let n_abs := if 0 <=? n then u64 n else u64 (- u64 n) in
  let d_abs := if 0 <=? d then u64 d else u64 (- u64 d) in
  obind (udiv64 n_abs d_abs) (fun q_abs =>
  Ok (if Bool.eqb (n <? 0) (d <? 0) then s64 q_abs else s64 (- s64 q_abs))).

(** The result is an [int32_t]. *)
Definition smod64 (n d : Z) : outcome Z := obind (sdiv64 n d) (fun q => Ok (s32 (s64 (n - s64 (d * q))))).

Definition moddi3 (n d : Z) : outcome Z := smod64 n d.
Definition umoddi3 (n d : Z) : outcome Z := umod64 n d.

(** ** The instruction and the leading zeros *)

Lemma shiftr_div n k : 0 <= k -> Z.shiftr n k = n / 2 ^ k.
Proof. apply Z.shiftr_div_pow2. Qed.
Lemma shiftl_mul n k : 0 <= k -> Z.shiftl n k = n * 2 ^ k.
Proof. apply Z.shiftl_mul_pow2. Qed.

Lemma divl_ok n d : 0 <= n < 2 ^ 64 -> 0 < d -> n / d < 2 ^ 32 -> divl n d = Ok (n / d).
Proof.
  intros Hn Hd Hq. unfold divl, divl_instr. rewrite shiftr_div by lia.
  assert (E : u32 (n / 2 ^ 32) * 2 ^ 32 + u32 n = n).
  { unfold wrapu. rewrite (Z.mod_small (n / 2 ^ 32)).
    - pose proof (Z.div_mod n (2 ^ 32) ltac:(done)). lia.
    - split; [by apply Z.div_pos; lia|]. apply Z.div_lt_upper_bound; lia. }
  rewrite E. rewrite (proj2 (Z.eqb_neq d 0)), (proj2 (Z.leb_gt _ _)) by lia. done.
Qed.

(** One of the tests of [nlz]: it shifts by [k] if the [k] top bits are zeros. *)
Definition nlz_step (k : Z) (st : Z * Z) : Z * Z :=
  let '(n, x) := st in if x <=? 2 ^ (32 - k) - 1 then (n + k, u32 (Z.shiftl x k)) else (n, x).
Definition nlz_inv (x0 lo hi : Z) (st : Z * Z) : Prop :=
  0 <= fst st <= hi /\ snd st = x0 * 2 ^ fst st /\ lo <= snd st < 2 ^ 32.

Lemma nlz_step_ok k x0 lo hi st :
  0 < k <= 16 -> nlz_inv x0 lo hi st -> 2 ^ (32 - k) <= lo * 2 ^ k ->
  nlz_inv x0 (2 ^ (32 - k)) (hi + k) (nlz_step k st).
Proof.
  intros Hk (H1 & H2 & H3) Hlo. destruct st as [n x]. unfold nlz_step, nlz_inv in *. simpl in *.
  assert (E : 2 ^ 32 = 2 ^ (32 - k) * 2 ^ k) by (rewrite <- Z.pow_add_r by lia; f_equal; lia).
  assert (0 < 2 ^ k) by (apply Z.pow_pos_nonneg; lia). assert (0 < 2 ^ (32 - k)) by (apply Z.pow_pos_nonneg; lia).
  destruct (Z.leb_spec x (2 ^ (32 - k) - 1)); simpl; [|split_and!; done || lia].
  assert (x * 2 ^ k < 2 ^ 32) by (rewrite E; apply Z.mul_lt_mono_pos_r; lia).
  assert (lo * 2 ^ k <= x * 2 ^ k) by (apply Z.mul_le_mono_nonneg_r; lia).
  rewrite shiftl_mul, wrapu_small by lia. split_and!; try lia.
  rewrite H2, Z.pow_add_r by lia. lia.
Qed.

Lemma nlz_ok x : 0 < x < 2 ^ 32 -> 0 <= nlz x <= 31 /\ 2 ^ 31 <= x * 2 ^ nlz x < 2 ^ 32.
Proof.
  intros Hx.
  assert (E : nlz x = fst (nlz_step 1 (nlz_step 2 (nlz_step 4 (nlz_step 8 (nlz_step 16 (0, x))))))).
  { unfold nlz. change (0xFFFF) with (2 ^ (32 - 16) - 1). fold (nlz_step 16 (0, x)). cbv zeta.
    fold (nlz_step 16 (0, x)).
    change 0x00FFFFFF with (2 ^ (32 - 8) - 1). change 0x0FFFFFFF with (2 ^ (32 - 4) - 1).
    change 0x3FFFFFFF with (2 ^ (32 - 2) - 1). change 0x7FFFFFFF with (2 ^ (32 - 1) - 1).
    unfold nlz_step. repeat (destruct_if; try done). }
  assert (I0 : nlz_inv x 1 0 (0, x)) by (unfold nlz_inv; simpl; lia).
  apply (nlz_step_ok 16) in I0; [|lia|done]. apply (nlz_step_ok 8) in I0; [|lia|done].
  apply (nlz_step_ok 4) in I0; [|lia|done]. apply (nlz_step_ok 2) in I0; [|lia|done].
  apply (nlz_step_ok 1) in I0; [|lia|done]. rewrite E. destruct I0 as (H1 & H2 & H3). rewrite <- H2. done.
Qed.

(** ** Unsigned division *)

(** The proof in the comment of the code: a divisor of one word. *)
Lemma udiv64_short n d : 0 <= n < 2 ^ 64 -> 0 < d < 2 ^ 32 -> udiv64 n d = Ok (n / d).
Proof.
  intros Hn Hd. unfold udiv64. rewrite !shiftr_div by lia. rewrite (Z.div_small d) by lia. cbn [Z.eqb]. cbv zeta.
  set (n1 := u32 (n / 2 ^ 32)). set (n0 := u32 n). rewrite (wrapu_small 32 d) by lia.
  rewrite (proj2 (Z.eqb_neq d 0)) by lia.
  assert (En : n = 2 ^ 32 * n1 + n0 /\ 0 <= n1 < 2 ^ 32 /\ 0 <= n0 < 2 ^ 32).
  { unfold n1, n0. rewrite (wrapu_small 32 (n / 2 ^ 32)).
    - split; [apply (Z.div_mod n); done|]. split; [|by apply wrapu_range].
      split; [apply Z.div_pos; lia|apply Z.div_lt_upper_bound; lia].
    - split; [apply Z.div_pos; lia|apply Z.div_lt_upper_bound; lia]. }
  destruct En as (En & H1 & H0). pose proof (Z.div_mod n1 d ltac:(lia)) as Ed.
  pose proof (Z.mod_pos_bound n1 d ltac:(lia)) as Hr. set (r := n1 mod d) in *. set (q1 := n1 / d) in *.
  rewrite (wrapu_small 64 (2 ^ 32 * r)), (wrapu_small 64 (2 ^ 32 * r + n0)) by lia.
  assert (Hq0 : (2 ^ 32 * r + n0) / d < 2 ^ 32) by (apply Z.div_lt_upper_bound; lia).
  assert (0 <= (2 ^ 32 * r + n0) / d) by (apply Z.div_pos; lia).
  rewrite divl_ok by lia. simpl obind.
  assert (Hq1 : 0 <= q1 < 2 ^ 32).
  { unfold q1. split; [apply Z.div_pos; lia|]. apply Z.div_lt_upper_bound; [lia|]. nia. }
  assert (Eq : n / d = (2 ^ 32 * r + n0) / d + 2 ^ 32 * q1).
  { rewrite <- Z.div_add by lia. f_equal. rewrite En, Ed. ring. }
  rewrite (wrapu_small 64 (2 ^ 32 * q1)) by lia. rewrite Eq, wrapu_small by lia. done.
Qed.

(** Rounding the divisor down to a multiple of [B = 2^k] changes the quotient by at most one. *)
Lemma quotient_close n d A B e :
  A * B = 2 ^ 33 -> 2 <= B -> 0 < A -> 0 <= e < B -> 2 ^ 31 * B + e <= d -> 0 <= n < 2 ^ 64 ->
  n / d <= n / (d - e) <= n / d + 1.
Proof.
  intros EAB HB HA He Hd Hn. assert (0 < d - e) by lia.
  pose proof (Z.div_mod n d ltac:(lia)) as Eq. pose proof (Z.mod_pos_bound n d ltac:(lia)) as Hr.
  assert (0 <= n / d) by (apply Z.div_pos; lia). set (Q := n / d) in *. split.
  - unfold Q. apply Z.div_le_compat_l; lia.
  - assert (HQ : Q + 1 <= A).
    { assert ((2 ^ 31 * B) * Q <= d * Q) by (apply Z.mul_le_mono_nonneg_r; lia).
      enough (Q < A) by lia. apply (Z.mul_lt_mono_pos_r B); lia. }
    assert (HB2 : 2 ^ 33 <= A + 2 ^ 31 * B).
    { destruct (decide (4 <= B)); [lia|]. assert (B = 2 \/ B = 3) as [-> | ->] by lia; lia. }
    assert (Hp : (Q + 1) * e <= A * (B - 1)) by (apply Z.mul_le_mono_nonneg; lia).
    assert ((Q + 2) * e <= d) by lia.
    assert (n < (d - e) * (Q + 2)) by lia.
    enough (n / (d - e) < Q + 2) by lia. apply Z.div_lt_upper_bound; lia.
Qed.

(** The divisor is shifted until its top bit is set; [v] is its upper word. *)
Lemma top_word d :
  2 ^ 32 <= d < 2 ^ 64 ->
  let s := nlz (d / 2 ^ 32) in
  0 <= s <= 31 /\ exists v e, u32 (Z.shiftr (u64 (Z.shiftl d s)) 32) = v /\
    d = 2 ^ (32 - s) * v + e /\ 0 <= e < 2 ^ (32 - s) /\ 2 ^ 31 <= v < 2 ^ 32.
Proof.
  intros Hd s.
  assert (Hd1 : 1 <= d / 2 ^ 32 < 2 ^ 32).
  { split; [apply Z.div_le_lower_bound; lia|apply Z.div_lt_upper_bound; lia]. }
  destruct (nlz_ok (d / 2 ^ 32) ltac:(lia)) as [Hs Hn1]. fold s in Hs, Hn1. split; [done|].
  rewrite !shiftl_mul by lia.
  assert (P32 : 2 ^ 32 = 2 ^ s * 2 ^ (32 - s)) by (rewrite <- Z.pow_add_r by lia; f_equal; lia).
  assert (Hps : 0 < 2 ^ s) by (apply Z.pow_pos_nonneg; lia).
  assert (Hpk : 0 < 2 ^ (32 - s)) by (apply Z.pow_pos_nonneg; lia).
  pose proof (Z.div_mod d (2 ^ 32) ltac:(lia)) as Ed. pose proof (Z.mod_pos_bound d (2 ^ 32) ltac:(lia)) as Hdm.
  assert (Hshift : d * 2 ^ s < 2 ^ 64).
  { set (x := d / 2 ^ 32) in *.
    assert (x < 2 ^ (32 - s)) by (apply (Z.mul_lt_mono_pos_r (2 ^ s)); lia).
    assert ((x + 1) * 2 ^ s <= 2 ^ (32 - s) * 2 ^ s) by (apply Z.mul_le_mono_nonneg_r; lia).
    assert (d * 2 ^ s < 2 ^ 32 * (x + 1) * 2 ^ s) by (apply Z.mul_lt_mono_pos_r; lia). lia. }
  assert (Hshift0 : 2 ^ 32 * 2 ^ 31 <= d * 2 ^ s).
  { assert (2 ^ 32 * (d / 2 ^ 32) * 2 ^ s <= d * 2 ^ s) by (apply Z.mul_le_mono_nonneg_r; lia). lia. }
  rewrite (wrapu_small 64 (d * 2 ^ s)) by lia. rewrite (shiftr_div (d * 2 ^ s)) by lia.
  set (v := d / 2 ^ (32 - s)).
  assert (Ev : d * 2 ^ s / 2 ^ 32 = v).
  { rewrite P32, (Z.mul_comm (2 ^ s) (2 ^ (32 - s))). unfold v. apply Z.div_mul_cancel_r; lia. }
  exists v, (d mod 2 ^ (32 - s)). rewrite Ev.
  assert (Hv : 2 ^ 31 <= v < 2 ^ 32).
  { rewrite <- Ev. split; [apply Z.div_le_lower_bound; lia|apply Z.div_lt_upper_bound; lia]. }
  split; [apply wrapu_small; lia|]. split; [apply Z.div_mod; lia|]. split; [apply Z.mod_pos_bound; lia|done].
Qed.

Lemma udiv64_long n d : 0 <= n < 2 ^ 64 -> 2 ^ 32 <= d < 2 ^ 64 -> udiv64 n d = Ok (n / d).
Proof.
  intros Hn Hd. unfold udiv64. rewrite (shiftr_div d) by lia.
  assert (Hd1 : 1 <= d / 2 ^ 32 < 2 ^ 32).
  { split; [apply Z.div_le_lower_bound; lia|apply Z.div_lt_upper_bound; lia]. }
  rewrite (proj2 (Z.eqb_neq (d / 2 ^ 32) 0)) by lia.
  destruct (Z.ltb_spec n d) as [Hlt|Hge]; [by rewrite Z.div_small by lia|]. cbv zeta.
  rewrite (wrapu_small 32 (d / 2 ^ 32)) by lia.
  destruct (top_word d Hd) as (Hs & v & e & Ev & Ed & He & Hv). set (s := nlz (d / 2 ^ 32)) in *. rewrite Ev. clear Ev.
  assert (P1 : 2 ^ (32 - s) = 2 * 2 ^ (31 - s)) by (rewrite <- Z.pow_succ_r by lia; f_equal; lia).
  assert (P33 : 2 ^ (s + 1) * 2 ^ (32 - s) = 2 ^ 33) by (rewrite <- Z.pow_add_r by lia; f_equal; lia).
  assert (Hps : 0 < 2 ^ (s + 1)) by (apply Z.pow_pos_nonneg; lia).
  assert (Hpk : 0 < 2 ^ (31 - s)) by (apply Z.pow_pos_nonneg; lia).
  assert (Hn2 : 0 <= n / 2 ^ 1 < 2 ^ 63) by (split; [apply Z.div_pos; lia|apply Z.div_lt_upper_bound; lia]).
  rewrite (shiftr_div n 1) by lia. rewrite divl_ok; [|lia|lia|apply Z.div_lt_upper_bound; lia].
  simpl obind. rewrite shiftr_div by lia.
  assert (Eq : n / 2 ^ 1 / v / 2 ^ (31 - s) = n / (d - e)) by (rewrite !Z.div_div by lia; f_equal; lia).
  assert (2 ^ 31 * 2 ^ (32 - s) <= v * 2 ^ (32 - s)) by (apply Z.mul_le_mono_nonneg_r; lia).
  rewrite Eq. destruct (quotient_close n d (2 ^ (s + 1)) (2 ^ (32 - s)) e) as [C1 C2]; try lia.
  set (q := n / (d - e)) in *. pose proof (Z.div_mod n d ltac:(lia)) as Ed'.
  pose proof (Z.mod_pos_bound n d ltac:(lia)) as Hr'. set (Q := n / d) in *.
  assert (HQ : 1 <= Q) by (unfold Q; apply Z.div_le_lower_bound; lia).
  assert (HQ2 : Q < 2 ^ 32) by (unfold Q; apply Z.div_lt_upper_bound; lia).
  rewrite (wrapu_small 64 (q - 1)) by lia. assert (0 <= (Q - 1) * d) by (apply Z.mul_nonneg_nonneg; lia).
  assert (q = Q \/ q = Q + 1) as [-> | ->] by lia.
  - rewrite (wrapu_small 64 ((Q - 1) * d)) by lia.
    destruct (Z.ltb_spec (u64 (n - (Q - 1) * d)) d) as [Hc|]; [|done]. exfalso. rewrite wrapu_small in Hc; lia.
  - replace (Q + 1 - 1) with Q by lia. rewrite (wrapu_small 64 (Q * d)) by lia. rewrite wrapu_small by lia.
    rewrite (proj2 (Z.ltb_lt _ _)) by lia. done.
Qed.

Lemma udiv64_ok n d : 0 <= n < 2 ^ 64 -> 0 < d < 2 ^ 64 -> udiv64 n d = Ok (n / d).
Proof.
  intros Hn Hd. destruct (decide (d < 2 ^ 32)); [apply udiv64_short|apply udiv64_long]; lia.
Qed.
Lemma udiv64_zero n : udiv64 n 0 = Panic.
Proof. done. Qed.

(** ** Remainders and signed division *)

Lemma umod64_ok n d : 0 <= n < 2 ^ 64 -> 0 < d < 2 ^ 64 -> umod64 n d = Ok (u32 (n mod d)).
Proof.
  intros Hn Hd. unfold umod64. rewrite udiv64_ok by done. simpl. do 2 f_equal.
  pose proof (Z.div_mod n d ltac:(lia)) as E. pose proof (Z.mod_pos_bound n d ltac:(lia)).
  assert (0 <= d * (n / d)) by (apply Z.mul_nonneg_nonneg; [lia|apply Z.div_pos; lia]).
  rewrite (wrapu_small 64 (d * (n / d))), wrapu_small by lia. lia.
Qed.

Lemma abs64 n : - 2 ^ 63 <= n < 2 ^ 63 -> (if 0 <=? n then u64 n else u64 (- u64 n)) = Z.abs n.
Proof.
  intros Hn. destruct (Z.leb_spec 0 n); [rewrite wrapu_small; lia|].
  assert (E : u64 n = n + 2 ^ 64) by (symmetry; apply (Z.mod_unique _ _ (-1)); lia).
  rewrite E. rewrite Z.abs_neq by lia. symmetry. apply (Z.mod_unique _ _ (-1)); lia.
Qed.

(** Reduction to 64 bits may be left out inside of another one. *)
Lemma s64_shift x : exists k, s64 x = x + k * 2 ^ 64.
Proof.
  exists (- ((x + 2 ^ 63) / 2 ^ 64)). unfold wraps.
  pose proof (Z.div_mod (x + 2 ^ 63) (2 ^ 64) ltac:(done)) as E. change (64 - 1) with 63. lia.
Qed.
Lemma s64_add x k : s64 (x + k * 2 ^ 64) = s64 x.
Proof. unfold wraps. rewrite <- (Z.mod_add (x + 2 ^ (64 - 1)) k) by done. do 2 f_equal. lia. Qed.

Lemma wraps_idem_neg x : s64 (- s64 x) = s64 (- x).
Proof.
  destruct (s64_shift x) as [k ->]. rewrite <- (s64_add (- x) (- k)). f_equal. lia.
Qed.

Lemma sdiv64_ok n d :
  - 2 ^ 63 <= n < 2 ^ 63 -> - 2 ^ 63 <= d < 2 ^ 63 -> d <> 0 -> sdiv64 n d = Ok (s64 (Z.quot n d)).
Proof.
  intros Hn Hd Hd0. unfold sdiv64. rewrite !abs64 by done. rewrite udiv64_ok by lia. simpl obind. f_equal.
  rewrite <- Z.quot_div_nonneg by lia. rewrite wraps_idem_neg.
  destruct (Z.ltb_spec n 0), (Z.ltb_spec d 0); simpl; f_equal; rewrite ?(Z.abs_neq n), ?(Z.abs_neq d), ?(Z.abs_eq n), ?(Z.abs_eq d) by lia.
  - by rewrite Z.quot_opp_opp by lia.
  - rewrite Z.quot_opp_l by lia. lia.
  - rewrite Z.quot_opp_r by lia. lia.
  - done.
Qed.

Lemma smod64_ok n d :
  - 2 ^ 63 <= n < 2 ^ 63 -> - 2 ^ 63 <= d < 2 ^ 63 -> d <> 0 -> smod64 n d = Ok (s32 (Z.rem n d)).
Proof.
  intros Hn Hd Hd0. unfold smod64. rewrite sdiv64_ok by done. simpl obind. do 2 f_equal.
  pose proof (Z.quot_rem' n d) as E. pose proof (Z.rem_bound_abs n d Hd0).
  destruct (s64_shift (Z.quot n d)) as [k ->]. destruct (s64_shift (d * (Z.quot n d + k * 2 ^ 64))) as [k' ->].
  replace (n - _) with (Z.rem n d + (- d * k - k') * 2 ^ 64) by lia.
  rewrite s64_add. apply wraps_small; lia.
Qed.

(** ** Properties *)


(** The remainder routines pass the remainder through a 32-bit type: their result is right
    as long as the remainder fits, and is cut to 32 bits otherwise. *)
Theorem remainder_is_truncated :
  (forall n d, 0 <= n < 2 ^ 64 -> 0 < d < 2 ^ 64 ->
     umoddi3 n d = Ok (u32 (n mod d)) /\ (d <= 2 ^ 32 -> umoddi3 n d = Ok (n mod d))) /\
  (forall n d, - 2 ^ 63 <= n < 2 ^ 63 -> - 2 ^ 63 <= d < 2 ^ 63 -> d <> 0 ->
     moddi3 n d = Ok (s32 (Z.rem n d)) /\ (Z.abs d <= 2 ^ 31 -> moddi3 n d = Ok (Z.rem n d))) /\
  umoddi3 (2 ^ 40) (2 ^ 40 + 1) = Ok 0.
Proof.
  split_and!.
  - intros n d Hn Hd. unfold umoddi3. rewrite umod64_ok by done. split; [done|]. intros Hle. f_equal.
    pose proof (Z.mod_pos_bound n d ltac:(lia)). apply wrapu_small. lia.
  - intros n d Hn Hd Hd0. unfold moddi3. rewrite smod64_ok by done. split; [done|]. intros Hle. f_equal.
    pose proof (Z.rem_bound_abs n d Hd0). apply wraps_small; [done|]. change (32 - 1) with 31. lia.
  - vm_compute. reflexivity.
Qed.
