(* ===== verification/Sort.v ===== *)
(** Sorting and searching arrays (lib/stdlib.c).

    An array is a list of elements; the elements of [size] bytes are values of a type
    [A] and the callback [compare], with its auxiliary data, is a function on them.
    Indices are 1-based, as in the code, and computed modulo 2^32. *)

From S2P Require Import Prelude KMonad.
From Stdlib Require Import Permutation.

Definition w32 (n : nat) : nat := Z.to_nat (u32 (Z.of_nat n)).

Section sort.
Context {A : Type} `{!Inhabited A} (compare : A -> A -> Z).
Local Set Default Proof Using "Type".

(** The element with 1-based index [i]. *)
Definition elem (l : list A) (i : nat) : A := l !!! (i - 1)%nat.
Definition do_swap (l : list A) (a b : nat) : list A :=
  <[(a - 1)%nat := elem l b]> (<[(b - 1)%nat := elem l a]> l).
Definition do_compare (l : list A) (a b : nat) : Z := compare (elem l a) (elem l b).

(** The index of the largest among [i] and its children. *)
Definition largest (l : list A) (i cnt : nat) : nat :=
  let left := w32 (2 * i) in
  let right := w32 (2 * i + 1) in
  let max := i in
  let max := if (left <=? cnt)%nat && (0 <? do_compare l left max) then left else max in
  if (right <=? cnt)%nat && (0 <? do_compare l right max) then right else max.

Fixpoint heapify (fuel : nat) (l : list A) (i cnt : nat) : outcome (list A) :=
  match fuel with
  | O => NoFuel
  | S fuel' =>
      let max := largest l i cnt in
      if (max =? i)%nat then Ok l else heapify fuel' (do_swap l i max) max cnt
  end.

(** The two loops of [sort]; a call of [heapify] takes at most [cnt] rounds. *)
Fixpoint build (l : list A) (i cnt : nat) : outcome (list A) :=
  match i with
  | O => Ok l
  | S i' => match heapify (S cnt) l i cnt with Ok l' => build l' i' cnt | r => r end
  end.
Fixpoint extract (l : list A) (i : nat) : outcome (list A) :=
  match i with
  | O => Ok l
  | S i' =>
      if (1 <? i)%nat
      then match heapify (S i') (do_swap l 1 i) 1 i' with Ok l' => extract l' i' | r => r end
      else Ok l
  end.
Definition sort (l : list A) : outcome (list A) :=
  let cnt := length l in
  match build l (cnt / 2) cnt with Ok l' => extract l' cnt | r => r end.

(** Positions of pointers are indices from 0. *)
Fixpoint search_loop (fuel : nat) (key : A) (l : list A) (first last : nat) : outcome (option nat) :=
  match fuel with
  | O => NoFuel
  | S fuel' =>
      if (first <? last)%nat
      then
        let range := (last - first)%nat in
        let middle := (first + range / 2)%nat in
        let cmp := compare key (l !!! middle) in
        if cmp <? 0 then search_loop fuel' key l first middle
        else if 0 <? cmp then search_loop fuel' key l (middle + 1) last
        else Ok (Some middle)
      else Ok None
  end.
Definition binary_search (key : A) (l : list A) : outcome (option nat) :=
  search_loop (S (length l)) key l 0 (length l).
End sort.

(** [qsort] and [bsearch] pass the address of their callback to [compare_thunk]. *)
Definition compare_thunk {A} (a b : A) (aux : A -> A -> Z) : Z := aux a b.
Definition qsort {A} `{!Inhabited A} (l : list A) (compare : A -> A -> Z) : outcome (list A) :=
  sort (fun a b => compare_thunk a b compare) l.
Definition bsearch {A} `{!Inhabited A} (key : A) (l : list A) (compare : A -> A -> Z) : outcome (option nat) :=
  binary_search (fun a b => compare_thunk a b compare) key l.

(** ** Arrays *)

Section spec.
Context {A : Type} `{!Inhabited A} (compare : A -> A -> Z).

(** The result of the callback is that of [strcmp]: it orders the elements. *)
Hypothesis compare_sym : forall x y, compare x y < 0 <-> 0 < compare y x.
Hypothesis compare_trans : forall x y z, compare x y <= 0 -> compare y z <= 0 -> compare x z <= 0.
Local Set Default Proof Using "Type".

Definition le (x y : A) : Prop := compare x y <= 0.

Lemma le_refl x : le x x.
Proof using compare_sym. unfold le. pose proof (compare_sym x x). lia. Qed.
Lemma le_gt x y : 0 < compare x y -> le y x.
Proof using compare_sym. unfold le. pose proof (compare_sym y x). lia. Qed.
Lemma le_trans x y z : le x y -> le y z -> le x z.
Proof using compare_trans. apply compare_trans. Qed.

Lemma swap_length (l : list A) a b : length (do_swap l a b) = length l.
Proof. unfold do_swap. by rewrite !length_insert. Qed.

Lemma elem_swap (l : list A) a b j :
  (1 <= a <= length l)%nat -> (1 <= b <= length l)%nat -> (1 <= j)%nat ->
  elem (do_swap l a b) j = if decide (j = a) then elem l b else if decide (j = b) then elem l a else elem l j.
Proof.
  intros Ha Hb Hj. unfold do_swap, elem at 1.
  destruct (decide (j = a)) as [->|Hja].
  - rewrite list_lookup_total_insert_eq by (rewrite length_insert; lia). done.
  - rewrite list_lookup_total_insert_ne by lia. destruct (decide (j = b)) as [->|Hjb].
    + rewrite list_lookup_total_insert_eq by lia. done.
    + rewrite list_lookup_total_insert_ne by lia. done.
Qed.

Lemma swap_perm (l : list A) a b :
  (1 <= a <= length l)%nat -> (1 <= b <= length l)%nat -> do_swap l a b ≡ₚ l.
Proof.
  intros Ha Hb. unfold do_swap, elem.
  apply Permutation_insert_swap; apply list_lookup_lookup_total_lt; lia.
Qed.

(** ** Heaps *)

Definition child (i c : nat) : Prop := (c = 2 * i \/ c = 2 * i + 1)%nat.
(** From [lo] on, and apart from [hole], every element is at least as large as its children. *)
Definition heap_but (l : list A) (lo hole cnt : nat) : Prop :=
  forall i c, (lo <= i)%nat -> i <> hole -> child i c -> (c <= cnt)%nat -> le (elem l c) (elem l i).
Definition is_heap (l : list A) (lo cnt : nat) : Prop :=
  forall i c, (lo <= i)%nat -> child i c -> (c <= cnt)%nat -> le (elem l c) (elem l i).
(** The parent of the hole dominates the children of the hole. *)
Definition over (l : list A) (lo i cnt : nat) : Prop :=
  forall p c, (lo <= p)%nat -> child p i -> child i c -> (c <= cnt)%nat -> le (elem l c) (elem l p).

(** What a step does to the array: it permutes the elements from [lo] to [cnt]. *)
Record moved (lo cnt : nat) (l l' : list A) : Prop := {
  mv_perm : l' ≡ₚ l;
  mv_out j : (1 <= j < lo \/ cnt < j)%nat -> elem l' j = elem l j;
  mv_in (P : A -> Prop) : (forall j, (1 <= j <= cnt)%nat -> P (elem l j)) ->
    forall j, (1 <= j <= cnt)%nat -> P (elem l' j)
}.
Lemma moved_refl lo cnt l : moved lo cnt l l.
Proof. by constructor. Qed.
Lemma moved_trans lo cnt l1 l2 l3 : moved lo cnt l1 l2 -> moved lo cnt l2 l3 -> moved lo cnt l1 l3.
Proof.
  intros [A1 A2 A3] [B1 B2 B3]. constructor.
  - by rewrite B1.
  - intros j Hj. by rewrite B2, A2.
  - intros P HP. apply B3. by apply A3.
Qed.
Lemma moved_length lo cnt l l' : moved lo cnt l l' -> length l' = length l.
Proof. intros [H _ _]. by rewrite H. Qed.
Lemma moved_swap lo cnt l a b :
  (1 <= lo)%nat -> (lo <= a <= cnt)%nat -> (lo <= b <= cnt)%nat -> (cnt <= length l)%nat -> moved lo cnt l (do_swap l a b).
Proof.
  intros Hlo Ha Hb Hc. constructor.
  - apply swap_perm; lia.
  - intros j Hj. rewrite elem_swap by lia. by rewrite !decide_False by lia.
  - intros P HP j Hj. rewrite elem_swap by lia. repeat case_decide; apply HP; lia.
Qed.

Lemma w32_small n : (Z.of_nat n < 2 ^ 32) -> w32 n = n.
Proof. intros H. unfold w32. rewrite wrapu_small by lia. lia. Qed.

Lemma largest_ok l i cnt :
  (1 <= i <= cnt)%nat -> Z.of_nat cnt < 2 ^ 31 ->
  (largest compare l i cnt = i \/ (child i (largest compare l i cnt) /\ (largest compare l i cnt <= cnt)%nat)) /\
  le (elem l i) (elem l (largest compare l i cnt)) /\
  forall c, child i c -> (c <= cnt)%nat -> le (elem l c) (elem l (largest compare l i cnt)).
Proof using compare_sym compare_trans.
  intros Hi Hc. unfold largest. cbv zeta. rewrite !w32_small by lia. unfold do_compare.
  assert (Hle : forall x y, (0 <? compare x y) = false -> le x y) by (intros x y H; unfold le; reflect_bools; lia).
  pose proof le_gt as Hgt.
  pose proof le_refl as Hrefl. pose proof le_trans as Htr. unfold child.
  destruct ((2 * i <=? cnt)%nat && (0 <? compare (elem l (2 * i)) (elem l i))) eqn:E1; reflect_bools.
  - destruct ((2 * i + 1 <=? cnt)%nat && (0 <? compare (elem l (2 * i + 1)) (elem l (2 * i)))) eqn:E2; reflect_bools.
    + split; [right; lia|]. split; [apply (Htr _ (elem l (2 * i))); by apply Hgt|].
      intros c [-> | ->] Hcc; [by apply Hgt|apply Hrefl].
    + split; [right; lia|]. split; [by apply Hgt|]. intros c [-> | ->] Hcc; [apply Hrefl|].
      destruct E2 as [E2|E2]; [reflect_bools; lia|by apply Hle].
  - destruct ((2 * i + 1 <=? cnt)%nat && (0 <? compare (elem l (2 * i + 1)) (elem l i))) eqn:E2; reflect_bools.
    + split; [right; lia|]. split; [by apply Hgt|]. intros c [-> | ->] Hcc; [|apply Hrefl].
      destruct E1 as [E1|E1]; [reflect_bools; lia|]. eapply Htr; [by apply Hle|by apply Hgt].
    + split; [by left|]. split; [apply Hrefl|]. intros c [-> | ->] Hcc.
      * destruct E1 as [E1|E1]; [reflect_bools; lia|by apply Hle].
      * destruct E2 as [E2|E2]; [reflect_bools; lia|by apply Hle].
Qed.

(** A step down keeps the invariant of the loop. *)
Lemma down_step l lo i m cnt :
  (1 <= lo <= i)%nat -> (cnt <= length l)%nat -> child i m -> (m <= cnt)%nat ->
  le (elem l i) (elem l m) -> (forall c, child i c -> (c <= cnt)%nat -> le (elem l c) (elem l m)) ->
  heap_but l lo i cnt -> over l lo i cnt ->
  heap_but (do_swap l i m) lo m cnt /\ over (do_swap l i m) lo m cnt.
Proof.
  intros Hlo Hc Hm Hmc Him Hmax Hh Ho. unfold child in *.
  assert (E : forall j, (1 <= j)%nat -> elem (do_swap l i m) j =
    if decide (j = i) then elem l m else if decide (j = m) then elem l i else elem l j) by (intros; apply elem_swap; lia).
  split.
  - intros j c Hj Hjm Hjc Hcc. unfold child in Hjc. rewrite !E by lia. rewrite (decide_False (P := j = m)) by done.
    destruct (decide (c = i)) as [->|].
    + rewrite decide_False by lia. apply Ho; unfold child; lia.
    + destruct (decide (j = i)) as [->|].
      * destruct (decide (c = m)) as [->|]; [done|]. apply Hmax; lia.
      * rewrite decide_False by lia. apply Hh; unfold child; lia.
  - intros p c Hp Hpm Hmch Hcc. unfold child in *. rewrite !E by lia. assert (p = i) as -> by lia.
    rewrite (decide_True (P := i = i)) by done. rewrite !decide_False by lia. apply Hh; unfold child; lia.
Qed.

Lemma heapify_ok fuel l lo i cnt :
  (1 <= lo <= i)%nat -> (i <= cnt <= length l)%nat -> Z.of_nat cnt < 2 ^ 31 -> (cnt - i < fuel)%nat ->
  heap_but l lo i cnt -> over l lo i cnt ->
  exists l', heapify compare fuel l i cnt = Ok l' /\ is_heap l' lo cnt /\ moved lo cnt l l'.
Proof using compare_sym compare_trans.
  revert l i. induction fuel as [|fuel IH]; intros l i Hlo Hi Hc Hf Hh Ho; [lia|]. simpl.
  destruct (largest_ok l i cnt) as (Hm & Him & Hmax); [lia|done|]. set (m := largest compare l i cnt) in *.
  destruct (Nat.eqb_spec m i) as [Emi|Hne].
  - exists l. split; [done|]. split; [|apply moved_refl]. rewrite Emi in *.
    intros j c Hj Hjc Hcc. destruct (decide (j = i)) as [->|]; [by apply Hmax|by apply Hh].
  - destruct Hm as [?|[Hm Hmc]]; [done|].
    destruct (down_step l lo i m cnt) as [Hh' Ho']; try done; [lia|].
    destruct (IH (do_swap l i m) m) as (l' & E & Hl' & Hmv); try done.
    + unfold child in Hm. lia.
    + rewrite swap_length. lia.
    + unfold child in Hm. lia.
    + exists l'. split; [done|]. split; [done|]. eapply moved_trans; [|done].
      apply moved_swap; unfold child in Hm; lia.
Qed.

(** ** The two phases of [sort] *)

Lemma build_ok l i cnt :
  (cnt <= length l)%nat -> (i <= cnt)%nat -> Z.of_nat cnt < 2 ^ 31 -> is_heap l (S i) cnt ->
  exists l', build compare l i cnt = Ok l' /\ is_heap l' 1 cnt /\ l' ≡ₚ l.
Proof using compare_sym compare_trans.
  revert l. induction i as [|i IH]; intros l Hl Hi Hc Hh.
  - by exists l.
  - unfold build; fold (build compare).
    destruct (heapify_ok (S cnt) l (S i) (S i) cnt) as (l1 & E & Hh1 & Hmv); try lia.
    + intros j c Hj Hne. apply Hh. lia.
    + intros p c Hp Hch. unfold child in Hch. lia.
    + rewrite E. destruct (IH l1) as (l' & E' & Hh' & Hp); try done.
      * rewrite (moved_length _ _ _ _ Hmv). lia.
      * lia.
      * exists l'. split; [done|]. split; [done|]. by rewrite Hp, (mv_perm _ _ _ _ Hmv).
Qed.

(** The root of a heap is its greatest element. *)
Lemma root_max l cnt j : is_heap l 1 cnt -> (1 <= j <= cnt)%nat -> le (elem l j) (elem l 1).
Proof using compare_sym compare_trans.
  intros Hh. induction (Nat.lt_wf_0 j) as [j _ IH]. intros Hj.
  destruct (decide (j = 1)%nat) as [->|Hne]; [apply le_refl|].
  pose proof (Nat.div_mod_eq j 2) as Ej. pose proof (Nat.mod_upper_bound j 2 ltac:(lia)).
  apply (le_trans _ (elem l (j / 2))).
  - apply Hh; unfold child; lia.
  - apply IH; lia.
Qed.

Definition sorted_from (l : list A) (i : nat) : Prop :=
  forall a b, (1 <= a)%nat -> (i < b)%nat -> (a <= b <= length l)%nat -> le (elem l a) (elem l b).

Lemma extract_ok l i :
  (i <= length l)%nat -> Z.of_nat (length l) < 2 ^ 31 -> is_heap l 1 i -> sorted_from l i ->
  exists l', extract compare l i = Ok l' /\ l' ≡ₚ l /\ sorted_from l' 0.
Proof using compare_sym compare_trans.
  revert l. induction i as [|i IH]; intros l Hi Hc Hh Hs.
  - by exists l.
  - unfold extract; fold (extract compare). destruct (Nat.ltb_spec 1 (S i)) as [H1|H1].
    + set (l1 := do_swap l 1 (S i)).
      assert (E1 : forall j, (1 <= j)%nat -> elem l1 j =
        if decide (j = 1%nat) then elem l (S i) else if decide (j = S i) then elem l 1 else elem l j)
        by (intros; apply elem_swap; lia).
      assert (Hl1 : length l1 = length l) by apply swap_length.
      destruct (heapify_ok (S i) l1 1 1 i) as (l2 & E & Hh2 & Hmv); try lia.
      { intros j c Hj Hne Hch Hcc. unfold child in Hch. rewrite !E1 by lia. rewrite !decide_False by lia.
        apply Hh; unfold child; lia. }
      { intros p c Hp Hch. unfold child in Hch. lia. }
      pose proof (moved_length _ _ _ _ Hmv) as Hl2. rewrite E.
      destruct (IH l2) as (l' & E' & Hp & Hs'); try lia; try done.
      * intros a b Ha Hb Hab. rewrite (mv_out _ _ _ _ Hmv b), E1 by lia.
        assert (Hall : forall P : A -> Prop, (forall j, (1 <= j <= S i)%nat -> P (elem l j)) ->
                  (a <= i)%nat -> P (elem l2 a)).
        { intros P HP Hai. apply (mv_in _ _ _ _ Hmv); [|lia]. intros j Hj. rewrite E1 by lia.
          repeat case_decide; apply HP; lia. }
        destruct (decide (b = S i)) as [->|Hbi].
        -- rewrite decide_False by lia. destruct (decide (a <= i)%nat).
           ++ apply (Hall (fun x => le x (elem l 1))); [|done]. intros j Hj. by apply (root_max l (S i)).
           ++ assert (a = S i) as -> by lia. rewrite (mv_out _ _ _ _ Hmv), E1 by lia.
              rewrite decide_False, decide_True by lia. apply le_refl.
        -- rewrite decide_False by lia. destruct (decide (a <= i)%nat).
           ++ apply (Hall (fun x => le x (elem l b))); [|done]. intros j Hj. apply Hs; lia.
           ++ rewrite (mv_out _ _ _ _ Hmv a), E1 by lia. rewrite (decide_False (P := a = 1%nat)) by lia.
              destruct (decide (a = S i)) as [->|]; apply Hs; lia.
      * exists l'. split; [done|]. split; [|done]. rewrite Hp, (mv_perm _ _ _ _ Hmv). apply swap_perm; lia.
    + exists l. split; [done|]. split; [done|]. intros a b Ha Hb Hab.
      destruct (decide (b = 1)%nat) as [->|]; [|apply Hs; lia].
      assert (a = 1%nat) as -> by lia. apply le_refl.
Qed.

Lemma sort_ok l :
  Z.of_nat (length l) < 2 ^ 31 -> exists l', sort compare l = Ok l' /\ l' ≡ₚ l /\ sorted_from l' 0.
Proof using compare_sym compare_trans.
  intros Hc. unfold sort. cbv zeta. pose proof (Nat.div_mod_eq (length l) 2) as Ed.
  pose proof (Nat.mod_upper_bound (length l) 2 ltac:(lia)).
  destruct (build_ok l (length l / 2) (length l)) as (l1 & E1 & Hh & Hp); try lia.
  { intros j c Hj Hch Hcc. unfold child in Hch. lia. }
  assert (El : length l1 = length l) by (by rewrite Hp). rewrite E1, <- El.
  destruct (extract_ok l1 (length l1)) as (l' & E' & Hp' & Hs); try lia.
  - by rewrite El.
  - intros a b. lia.
  - exists l'. split; [done|]. split; [by rewrite Hp'|done].
Qed.

(** ** Searching *)

Lemma search_loop_ok fuel key l lo hi :
  (hi <= length l)%nat -> (lo <= hi)%nat -> (hi - lo < fuel)%nat -> sorted_from l 0 ->
  (forall j, (j < lo)%nat -> 0 < compare key (l !!! j)) ->
  (forall j, (hi <= j < length l)%nat -> compare key (l !!! j) < 0) ->
  exists r, search_loop compare fuel key l lo hi = Ok r /\
    match r with
    | Some i => (i < length l)%nat /\ compare key (l !!! i) = 0
    | None => forall j, (j < length l)%nat -> compare key (l !!! j) <> 0
    end.
Proof using compare_sym compare_trans.
  intros Hhi. revert lo hi Hhi. induction fuel as [|fuel IH]; intros lo hi Hhi Hlo Hf Hs Hlow Hhigh; [lia|].
  unfold search_loop; fold (search_loop compare). cbv zeta.
  destruct (Nat.ltb_spec lo hi) as [Hlt|Hge].
  - set (m := (lo + (hi - lo) / 2)%nat). pose proof (Nat.div_mod_eq (hi - lo) 2).
    pose proof (Nat.mod_upper_bound (hi - lo) 2 ltac:(lia)). assert (Hm : (lo <= m < hi)%nat) by (unfold m; lia).
    assert (Hle : forall i j, (i <= j < length l)%nat -> compare (l !!! i) (l !!! j) <= 0).
    { intros i j Hij. specialize (Hs (S i) (S j)). unfold elem in Hs. simpl in Hs. rewrite !Nat.sub_0_r in Hs. apply Hs; lia. }
    destruct (Z.ltb_spec (compare key (l !!! m)) 0) as [Hc|Hc].
    + apply IH; try done; try lia. intros j Hj. pose proof (Hle m j ltac:(lia)) as Hmj.
      apply compare_sym. destruct (decide (compare (l !!! j) key <= 0)) as [Hjk|]; [|lia].
      pose proof (compare_trans _ _ _ Hmj Hjk). apply compare_sym in Hc. lia.
    + destruct (Z.ltb_spec 0 (compare key (l !!! m))) as [Hc'|Hc'].
      * apply IH; try done; try lia. intros j Hj. pose proof (Hle j m ltac:(lia)) as Hjm.
        destruct (decide (compare key (l !!! j) <= 0)) as [Hjk|]; [|lia].
        pose proof (compare_trans _ _ _ Hjk Hjm). lia.
      * exists (Some m). split; [done|]. split; lia.
  - exists None. split; [done|]. intros j Hj. destruct (decide (j < lo)%nat) as [Hjl|].
    + specialize (Hlow j Hjl). lia.
    + specialize (Hhigh j ltac:(lia)). lia.
Qed.
End spec.

(** ** Properties *)

(** Heapsort terminates, and [sort] permutes the array into increasing order, for every
    comparison callback that orders the elements. *)
Theorem sort_sorts {A} `{!Inhabited A} (compare : A -> A -> Z) (l : list A) :
  (forall x y, compare x y < 0 <-> 0 < compare y x) ->
  (forall x y z, compare x y <= 0 -> compare y z <= 0 -> compare x z <= 0) ->
  Z.of_nat (length l) < 2 ^ 31 ->
  exists l', sort compare l = Ok l' /\ l' ≡ₚ l /\
    forall i j, (i <= j < length l')%nat -> compare (l' !!! i) (l' !!! j) <= 0.
Proof.
  intros Hs Ht Hl. destruct (sort_ok compare Hs Ht l Hl) as (l' & E & Hp & Hso). exists l'. split; [done|].
  split; [done|]. intros i j Hij. specialize (Hso (S i) (S j)). unfold elem in Hso. simpl in Hso.
  rewrite !Nat.sub_0_r in Hso. apply Hso; lia.
Qed.
Lemma sort_sorts_witness :
  exists l', sort Z.sub [5; 3; 9; 1; 3] = Ok l' /\ l' ≡ₚ [5; 3; 9; 1; 3] /\
    forall i j, (i <= j < length l')%nat -> (l' !!! i) - (l' !!! j) <= 0.
Proof. apply (sort_sorts Z.sub [5; 3; 9; 1; 3]); simpl; intros; lia. Defined.

(** [binary_search] terminates and, in an array sorted by the callback, finds an element
    that compares equal to the key if and only if there is one. *)
Theorem binary_search_finds {A} `{!Inhabited A} (compare : A -> A -> Z) (key : A) (l : list A) :
  (forall x y, compare x y < 0 <-> 0 < compare y x) ->
  (forall x y z, compare x y <= 0 -> compare y z <= 0 -> compare x z <= 0) ->
  (forall i j, (i <= j < length l)%nat -> compare (l !!! i) (l !!! j) <= 0) ->
  exists r, binary_search compare key l = Ok r /\
    match r with
    | Some i => (i < length l)%nat /\ compare key (l !!! i) = 0
    | None => forall j, (j < length l)%nat -> compare key (l !!! j) <> 0
    end.
Proof.
  intros Hs Ht Hso. apply search_loop_ok; try done; try lia.
  intros a b Ha _ Hab. unfold le, elem. apply Hso. lia.
Qed.
Lemma binary_search_finds_witness :
  exists r, binary_search Z.sub 3 [1; 3; 5] = Ok r /\
    match r with
    | Some i => (i < 3)%nat /\ 3 - ([1; 3; 5] !!! i) = 0
    | None => forall j, (j < 3)%nat -> 3 - ([1; 3; 5] !!! j) <> 0
    end.
Proof.
  apply (binary_search_finds Z.sub 3 [1; 3; 5]); try lia.
  intros i j Hij. simpl in Hij.
  destruct i as [|[|[|i]]]; destruct j as [|[|[|j]]]; vm_compute; try discriminate; lia.
Defined.
