(* ===== verification/Stdio.v ===== *)
(** Formatted output (lib/stdio.c).

    Every conversion passes its characters to a callback one by one; the model of a
    call is the list of these characters.  A format or string is a list of characters
    without the null byte at its end, a [va_list] is a list of arguments of 32 or 64
    bits or strings.  Reading an argument of another kind, or the format after its end,
    is undefined in C and a panic here. *)

From Stdlib Require Import Strings.String.
From S2P Require Import Prelude KMonad CString Arith.

Definition str (s : String.string) : list Z := ch <$> String.list_ascii_of_string s.

#[export] Instance outcome_ret : MRet outcome := fun A a => Ok a.
#[export] Instance outcome_bind : MBind outcome := fun A B f m =>
  match m with Ok a => f a | Panic => Panic | NoFuel => NoFuel end.

Definition lift {S A} (o : outcome A) : K S A := fun s =>
  match o with Ok a => Ok (a, s) | Panic => Panic | NoFuel => NoFuel end.

(** ** lib/ctype.h *)

Definition islower (c : Z) : bool := (97 <=? c) && (c <=? 122).
Definition isupper (c : Z) : bool := (65 <=? c) && (c <=? 90).
Definition isalpha (c : Z) : bool := islower c || isupper c.
Definition isdigit (c : Z) : bool := (48 <=? c) && (c <=? 57).
Definition isalnum (c : Z) : bool := isalpha c || isdigit c.
Definition isxdigit (c : Z) : bool := isdigit c || ((97 <=? c) && (c <=? 102)) || ((65 <=? c) && (c <=? 70)).
Definition isspace (c : Z) : bool :=
  (c =? 32) || (c =? 12) || (c =? 10) || (c =? 13) || (c =? 9) || (c =? 11).
Definition isblank (c : Z) : bool := (c =? 32) || (c =? 9).
Definition isgraph (c : Z) : bool := (32 <? c) && (c <? 127).
Definition isprint (c : Z) : bool := (32 <=? c) && (c <? 127).
Definition iscntrl (c : Z) : bool := ((0 <=? c) && (c <? 32)) || (c =? 127).
Definition isascii (c : Z) : bool := (0 <=? c) && (c <? 128).
Definition ispunct (c : Z) : bool := isprint c && negb (isalnum c) && negb (isspace c).
Definition tolower (c : Z) : Z := if isupper c then c - 65 + 97 else c.
Definition toupper (c : Z) : Z := if islower c then c - 97 + 65 else c.

(** ** Conversions *)

Definition MINUS : Z := 1.
Definition PLUS : Z := 2.
Definition SPACE : Z := 4.
Definition POUND : Z := 8.
Definition ZERO : Z := 16.
Definition GROUP : Z := 32.
Definition flag (flags f : Z) : bool := negb (Z.land flags f =? 0).

Inductive arg_type := CHAR | SHORT | INT | INTMAX | LONG | LONGLONG | PTRDIFFT | SIZET.
Record printf_conversion := mkConv { flags : Z; width : Z; precision : Z; type : arg_type }.
Record integer_base := mkBase { b_base : Z; b_digits : list Z; b_x : Z; b_group : Z }.

Definition base_d : integer_base := mkBase 10 (str "0123456789") 0 3.
Definition base_o : integer_base := mkBase 8 (str "01234567") 0 3.
Definition base_x : integer_base := mkBase 16 (str "0123456789abcdef") 120 4.
Definition base_X : integer_base := mkBase 16 (str "0123456789ABCDEF") 88 4.

Inductive arg :=
| Arg32 (v : Z)
| Arg64 (v : Z)
| ArgStr (s : option (list Z)).

Definition va_32 (args : list arg) : outcome (Z * list arg) :=
  match args with Arg32 v :: args' => Ok (v, args') | _ => Panic end.
Definition va_64 (args : list arg) : outcome (Z * list arg) :=
  match args with Arg64 v :: args' => Ok (v, args') | _ => Panic end.
Definition va_str (args : list arg) : outcome (option (list Z) * list arg) :=
  match args with ArgStr s :: args' => Ok (s, args') | _ => Panic end.

(** The character at the current position; 0 at the end of the format. *)
Definition peek (format : list Z) : Z := hd 0 format.
Definition rest (format : list Z) : list Z := tl format.

Fixpoint parse_flags (format : list Z) (fl : Z) : list Z * Z :=
  match format with
  | [] => (format, fl)
  | c :: format' =>
      if c =? 45 then parse_flags format' (Z.lor fl MINUS)
      else if c =? 43 then parse_flags format' (Z.lor fl PLUS)
      else if c =? 32 then parse_flags format' (Z.lor fl SPACE)
      else if c =? 35 then parse_flags format' (Z.lor fl POUND)
      else if c =? 48 then parse_flags format' (Z.lor fl ZERO)
      else if c =? 39 then parse_flags format' (Z.lor fl GROUP)
      else (format, fl)
  end.
Fixpoint parse_number (format : list Z) (n : Z) : list Z * Z :=
  match format with
  | [] => (format, n)
  | c :: format' => if isdigit c then parse_number format' (s32 (n * 10 + c - 48)) else (format, n)
  end.

Definition parse_width (format : list Z) (args : list arg) : outcome (list Z * Z * list arg) :=
  if peek format =? 42
  then '(v, args) ← va_32 args; mret (rest format, s32 v, args)
  else let '(format, n) := parse_number format 0 in mret (format, n, args).
Definition parse_precision (format : list Z) (args : list arg) : outcome (list Z * Z * list arg) :=
  if peek format =? 46
  then
    let format := rest format in
    '(format, p, args) ←
      (if peek format =? 42
       then '(v, args) ← va_32 args; mret (rest format, s32 v, args)
       else let '(format, n) := parse_number format 0 in mret (format, n, args));
    mret (format, if p <? 0 then -1 else p, args)
  else mret (format, -1, args).
Definition parse_type (format : list Z) : list Z * arg_type :=
  let c := peek format in
  if c =? 104 then (if peek (rest format) =? 104 then (rest (rest format), CHAR) else (rest format, SHORT))
  else if c =? 106 then (rest format, INTMAX)
  else if c =? 108 then (if peek (rest format) =? 108 then (rest (rest format), LONGLONG) else (rest format, LONG))
  else if c =? 116 then (rest format, PTRDIFFT)
  else if c =? 122 then (rest format, SIZET)
  else (format, INT).

Definition parse_conversion (format : list Z) (args : list arg)
  : outcome (list Z * printf_conversion * list arg) :=
  let '(format, fl) := parse_flags format 0 in
  let fl := if flag fl MINUS then Z.land fl (Z.lnot ZERO) else fl in
  let fl := if flag fl PLUS then Z.land fl (Z.lnot SPACE) else fl in
  '(format, w, args) ← parse_width format args;
  let '(w, fl) := if w <? 0 then (s32 (- w), Z.lor fl MINUS) else (w, fl) in
  '(format, p, args) ← parse_precision format args;
  let fl := if 0 <=? p then Z.land fl (Z.lnot ZERO) else fl in
  let '(format, ty) := parse_type format in
  mret (format, mkConv fl w p ty, args).

(** ** Integers *)

Definition output_dup (c cnt : Z) : list Z := replicate (Z.to_nat cnt) c.

(** The buffer of [format_integer] has 64 characters. *)
Definition BUF : nat := 64.
Definition put (buf : list Z) (c : Z) : outcome (list Z) :=
  if (length buf <? BUF)%nat then Ok (buf ++ [c]) else Panic.

Fixpoint digits_loop (fuel : nat) (b : integer_base) (fl value digit_cnt : Z) (buf : list Z) : outcome (list Z) :=
  match fuel with
  | O => NoFuel
  | S fuel' =>
      if 0 <? value
      then
        buf ← (if flag fl GROUP && (0 <? digit_cnt) && (digit_cnt mod b_group b =? 0) then put buf 44 else mret buf);
        buf ← put buf (zget 0 (b_digits b) (value mod b_base b));
        digits_loop fuel' b fl (value / b_base b) (digit_cnt + 1) buf
      else mret buf
  end.
Fixpoint zeros_loop (fuel : nat) (precision : Z) (buf : list Z) : outcome (list Z) :=
  match fuel with
  | O => NoFuel
  | S fuel' =>
      if (len buf <? precision) && (length buf <? BUF - 1)%nat
      then buf ← put buf 48; zeros_loop fuel' precision buf
      else mret buf
  end.

Definition sign_char (is_signed negative : bool) (fl : Z) : Z :=
  if is_signed
  then if flag fl PLUS then (if negative then 45 else 43)
       else if flag fl SPACE then (if negative then 45 else 32)
       else if negative then 45 else 0
  else 0.

Definition format_integer (value : Z) (is_signed negative : bool) (b : integer_base) (c : printf_conversion)
  : outcome (list Z) :=
  let sign := sign_char is_signed negative (flags c) in
  let x := if flag (flags c) POUND && negb (value =? 0) then b_x b else 0 in
  buf ← digits_loop 65 b (flags c) value 0 [];
  buf ← zeros_loop 65 (if precision c <? 0 then 1 else precision c) buf;
  buf ← (if flag (flags c) POUND && (b_base b =? 8) && ((length buf =? 0)%nat || negb (default 0 (last buf) =? 48))
         then put buf 48 else mret buf);
  let pad_cnt := s32 (width c - len buf - (if negb (x =? 0) then 2 else 0) - (if negb (sign =? 0) then 1 else 0)) in
  let pad_cnt := if pad_cnt <? 0 then 0 else pad_cnt in
  mret ((if negb (flag (flags c) (Z.lor MINUS ZERO)) then output_dup 32 pad_cnt else []) ++
        (if negb (sign =? 0) then [sign] else []) ++
        (if negb (x =? 0) then [48; x] else []) ++
        (if flag (flags c) ZERO then output_dup 48 pad_cnt else []) ++
        reverse buf ++
        (if flag (flags c) MINUS then output_dup 32 pad_cnt else [])).

Definition format_string (s : list Z) (c : printf_conversion) : list Z :=
  (if (len s <? width c) && negb (flag (flags c) MINUS) then output_dup 32 (width c - len s) else []) ++
  s ++
  (if (len s <? width c) && flag (flags c) MINUS then output_dup 32 (width c - len s) else []).

(** The value of an argument, by its type. *)
Definition signed_arg (ty : arg_type) (args : list arg) : outcome (Z * list arg) :=
  match ty with
  | CHAR => '(v, args) ← va_32 args; mret (s8 v, args)
  | SHORT => '(v, args) ← va_32 args; mret (wraps 16 v, args)
  | INT | LONG | PTRDIFFT => '(v, args) ← va_32 args; mret (s32 v, args)
  | INTMAX | LONGLONG => '(v, args) ← va_64 args; mret (s64 v, args)
  | SIZET =>
      '(v, args) ← va_32 args;
      let value := u32 v in
      mret (if (2 ^ 32 - 1) / 2 <? value then value - (2 ^ 32 - 1) - 1 else value, args)
  end.
Definition unsigned_arg (ty : arg_type) (args : list arg) : outcome (Z * list arg) :=
  match ty with
  | CHAR => '(v, args) ← va_32 args; mret (u8 v, args)
  | SHORT => '(v, args) ← va_32 args; mret (wrapu 16 v, args)
  | INT | LONG | SIZET => '(v, args) ← va_32 args; mret (u32 v, args)
  | INTMAX | LONGLONG => '(v, args) ← va_64 args; mret (u64 v, args)
  | PTRDIFFT => '(v, args) ← va_32 args; mret (Z.land (u64 (s32 v)) (2 ^ 32 - 1), args)
  end.

(** The characters of [s] that [strnlen] counts: all for the precision -1, which is
    the largest [size_t]. *)
Definition limit (s : list Z) (precision : Z) : list Z := take (Z.to_nat (Z.min (len s) (u32 precision))) s.

(** The cases of the [switch] on the conversion [f]; the last argument is the function
    itself, called by [__printf] for an unknown conversion. *)
Definition conversion (f : Z) (c : printf_conversion) (args : list arg)
    (self : list Z -> list arg -> outcome (list Z)) : outcome (list Z * list arg) :=
  if (f =? 100) || (f =? 105)
  then
    '(value, args) ← signed_arg (type c) args;
    out ← format_integer (u64 (if value <? 0 then - value else value)) true (value <? 0) base_d c;
    mret (out, args)
  else if (f =? 111) || (f =? 117) || (f =? 120) || (f =? 88)
  then
    '(value, args) ← unsigned_arg (type c) args;
    let b := if f =? 111 then base_o else if f =? 117 then base_d else if f =? 120 then base_x else base_X in
    out ← format_integer value false false b c;
    mret (out, args)
  else if f =? 99
  then '(v, args) ← va_32 args; mret (format_string [u8 v] c, args)
  else if f =? 115
  then '(s, args) ← va_str args; mret (format_string (limit (default (str "(null)") s) (precision c)) c, args)
  else if f =? 112
  then
    '(p, args) ← va_32 args;
    out ← format_integer (u32 p) false false base_x (mkConv POUND (width c) (precision c) (type c));
    mret (out, args)
  else if (f =? 102) || (f =? 101) || (f =? 69) || (f =? 103) || (f =? 71) || (f =? 110)
  then out ← self (str "<<no %%%c in kernel>>") [Arg32 f]; mret (out, args)
  else out ← self (str "<<no %%%c conversion>>") [Arg32 f]; mret (out, args).

(** After a conversion the loop steps over its character.  When the format ends within a
    conversion, this steps over the null terminator, and the code reads on behind the string:
    undefined behaviour, for which [Panic] stands. *)
Fixpoint vprintf_loop (fuel : nat) (format : list Z) (args : list arg) : outcome (list Z) :=
  match fuel with
  | O => NoFuel
  | S fuel' =>
      match format with
      | [] => Ok []
      | c :: format =>
          if negb (c =? 37) then out ← vprintf_loop fuel' format args; mret (c :: out)
          else if peek format =? 37 then out ← vprintf_loop fuel' (rest format) args; mret (37 :: out)
          else
            '(format, cv, args) ← parse_conversion format args;
            '(out1, args) ← conversion (peek format) cv args (vprintf_loop fuel');
            match format with
            | [] => Panic
            | _ :: format => out2 ← vprintf_loop fuel' format args; mret (out1 ++ out2)
            end
      end
  end.
(** The two messages of [conversion] have 21 and 22 characters. *)
Definition vprintf (format : list Z) (args : list arg) : outcome (list Z) :=
  vprintf_loop (length format + 32) format args.

(** ** Output into memory *)

Record vsnprintf_aux := mkAux { p : Z; out_length : Z; max_length : Z }.
Definition vsnprintf_helper (c : Z) (aux : vsnprintf_aux) : K ram_t vsnprintf_aux :=
  let n := out_length aux in
  let aux := mkAux (p aux) (s32 (n + 1)) (max_length aux) in
  if n <? max_length aux
  then store (p aux) c;; mret (mkAux (p aux + 1) (out_length aux) (max_length aux))
  else mret aux.
Fixpoint helper_loop (out : list Z) (aux : vsnprintf_aux) : K ram_t vsnprintf_aux :=
  match out with
  | [] => mret aux
  | c :: out' => aux ← vsnprintf_helper c aux; helper_loop out' aux
  end.
Definition vsnprintf (buffer buf_size : Z) (format : list Z) (args : list arg) : K ram_t Z := fun m =>
  match vprintf format args with
  | Ok out =>
      (aux ← helper_loop out (mkAux buffer 0 (s32 (if 0 <? buf_size then buf_size - 1 else 0)));
       (if 0 <? buf_size then store (p aux) 0 else mret tt);;
       mret (out_length aux)) m
  | Panic => Panic
  | NoFuel => NoFuel
  end.
Definition snprintf := vsnprintf.

(** ** Other output *)

Definition printf (format : String.string) (args : list arg) : outcome (list Z) := vprintf (str format) args.

(** The outputs of [f] on the integers from [i] to [j - 1], one after the other. *)
Fixpoint output_seq {A} (l : list A) (f : A -> outcome (list Z)) : outcome (list Z) :=
  match l with
  | [] => mret []
  | x :: l' => o1 ← f x; o2 ← output_seq l' f; mret (o1 ++ o2)
  end.

Fixpoint hex_dump (fuel : nat) (ofs : Z) (buf : list Z) (size : Z) (asc : bool) : outcome (list Z) :=
  match fuel with
  | O => NoFuel
  | S fuel' =>
      if 0 <? size
      then
        let per_line := 16 in
        let start := ofs mod per_line in
        let fin := if size <? per_line - start then start + size else per_line in
        let n := fin - start in
        o1 ← printf "%08jx  " [Arg64 (ofs / per_line * per_line)];
        o2 ← output_seq (seqZ 0 start) (fun _ => printf "   " []);
        o3 ← output_seq (seqZ start n) (fun i =>
               printf "%02hhx%c" [Arg32 (zget 0 buf (i - start)); Arg32 (if i =? per_line / 2 - 1 then 45 else 32)]);
        o4 ← (if asc
              then
                p1 ← output_seq (seqZ fin (per_line - fin)) (fun _ => printf "   " []);
                p2 ← printf "|" [];
                p3 ← output_seq (seqZ 0 start) (fun _ => printf " " []);
                p4 ← output_seq (seqZ start n) (fun i =>
                       printf "%c" [Arg32 (if isprint (zget 0 buf (i - start)) then zget 0 buf (i - start) else 46)]);
                p5 ← output_seq (seqZ fin (per_line - fin)) (fun _ => printf " " []);
                p6 ← printf "|" [];
                mret (p1 ++ p2 ++ p3 ++ p4 ++ p5 ++ p6)
              else mret []);
        o5 ← mret [10];
        o6 ← hex_dump fuel' (u32 (ofs + n)) (drop (Z.to_nat n) buf) (size - n) asc;
        mret (o1 ++ o2 ++ o3 ++ o4 ++ o5 ++ o6)
      else mret []
  end.

Definition factors : list (list Z) := [str "bytes"; str "kB"; str "MB"; str "GB"; str "TB"].
Fixpoint scale (fs : list (list Z)) (size : Z) : Z * list Z :=
  match fs with
  | [] => (size, [])
  | [f] => (size, f)
  | f :: fs' => if 1024 <=? size then scale fs' (size / 1024) else (size, f)
  end.
Definition print_human_readable_size (size : Z) : outcome (list Z) :=
  if size =? 1 then printf "1 byte" []
  else let '(size, f) := scale factors size in printf "%llu %s" [Arg64 size; ArgStr (Some f)].
