(* ===== verification/StdioOk.v ===== *)
(** Formatted output is correct: it terminates, stays inside of its buffers, and the
    digits that it prints denote the value. *)

From Stdlib Require Import Strings.String.
From S2P Require Import Prelude KMonad CString Arith Stdio.

Lemma obind_ok {A B} (a : A) (f : A -> outcome B) : (Ok a ≫= f) = f a.
Proof. done. Qed.

(** ** The buffer of [format_integer] *)

(** The value that a list of digit characters denotes, the least significant first. *)
Fixpoint digits_value (b : integer_base) (l : list Z) : Z :=
  match l with
  | [] => 0
  | c :: l' => default 0 ((fun p => Z.of_nat (fst p)) <$> list_find (fun d => d = c) (b_digits b)) +
               b_base b * digits_value b l'
  end.

(** The four bases. *)
Definition known_base (b : integer_base) : Prop := b = base_d \/ b = base_o \/ b = base_x \/ b = base_X.

Lemma base_facts b :
  known_base b -> 8 <= b_base b <= 16 /\ len (b_digits b) = b_base b /\ NoDup (b_digits b) /\ (44 ∉ b_digits b) /\
    b_digits b !! O = Some 48 /\ 0 < b_group b.
Proof.
  intros [-> | [-> | [-> | ->]]]; split_and!; try done; try lia;
    (apply (bool_decide_unpack _); vm_compute; exact I).
Qed.

Lemma base_zero b : known_base b -> b_digits b !! O = Some 48 /\ 48 ∈ b_digits b.
Proof.
  intros Hb. destruct (base_facts b Hb) as (_ & _ & _ & _ & H & _). split; [done|]. by eapply list_elem_of_lookup_2.
Qed.

Definition no_commas (l : list Z) : list Z := filter (fun c => c <> 44) l.
Definition digit (b : integer_base) (v : Z) : Z := zget 0 (b_digits b) v.

Lemma digit_find b v :
  known_base b -> 0 <= v < b_base b ->
  digit b v <> 44 /\ list_find (fun d => d = digit b v) (b_digits b) = Some (Z.to_nat v, digit b v).
Proof.
  intros Hb Hv. destruct (base_facts b Hb) as (_ & Hl & Hnd & Hc & _).
  destruct (zlookup_is_Some (b_digits b) v ltac:(lia)) as [c Hc'].
  assert (E : digit b v = c) by (unfold digit, zget; by rewrite Hc'). rewrite E.
  unfold zlookup in Hc'. rewrite (proj2 (Z.leb_le 0 v)) in Hc' by lia. split.
  - intros ->. apply Hc. by eapply list_elem_of_lookup_2.
  - apply list_find_Some. split_and!; [done|done|]. intros j y Hj Hlt ->.
    pose proof (NoDup_lookup _ _ _ _ Hnd Hj Hc'). lia.
Qed.

Lemma put_ok buf c : (length buf < 64)%nat -> put buf c = Ok (buf ++ [c]).
Proof. intros H. unfold put, BUF. by rewrite (proj2 (Nat.ltb_lt _ _)). Qed.

(** At most two characters are put for a digit, and they denote the value. *)
Lemma digits_loop_ok (k : nat) fuel b fl value cnt buf :
  known_base b -> 0 <= value < 8 ^ Z.of_nat k -> (k < fuel)%nat -> (length buf + 2 * k <= 64)%nat ->
  exists ds, digits_loop fuel b fl value cnt buf = Ok (buf ++ ds) /\ (length ds <= 2 * k)%nat /\
    digits_value b (no_commas ds) = value /\ (flag fl GROUP = false -> no_commas ds = ds /\ (length ds <= k)%nat) /\
    (value = 0 -> ds = []) /\ Forall (fun c => c = 44 \/ c ∈ b_digits b) ds /\ last ds <> Some 48.
Proof.
  intros Hb. destruct (base_facts b Hb) as (Hbase & Hlb & _).
  revert k value cnt buf. induction fuel as [|fuel IH]; intros k value cnt buf Hv Hk Hl; [lia|]. simpl.
  destruct (Z.ltb_spec 0 value) as [Hpos|Hz].
  2: { exists []. rewrite app_nil_r. assert (value = 0) as -> by lia. split_and!; try done; simpl; try lia.
       intros _. split; [done|lia]. }
  destruct k as [|k]; [simpl in Hv; lia|].
  set (comma := flag fl GROUP && (0 <? cnt) && (cnt mod b_group b =? 0)).
  set (buf1 := if comma then buf ++ [44] else buf).
  assert (E1 : (if comma then put buf 44 else mret buf) = Ok buf1).
  { unfold buf1. destruct comma; [|done]. apply put_ok. lia. }
  rewrite E1. simpl. assert (Hl1 : (length buf1 <= length buf + 1)%nat).
  { unfold buf1. destruct comma; [rewrite length_app; simpl; lia|lia]. }
  rewrite put_ok by lia. simpl. pose proof (Z.mod_pos_bound value (b_base b) ltac:(lia)) as Hm.
  pose proof (Z.div_mod value (b_base b) ltac:(lia)) as Ed.
  assert (Hq : 0 <= value / b_base b < 8 ^ Z.of_nat k).
  { split; [apply Z.div_pos; lia|]. apply Z.div_lt_upper_bound; [lia|].
    rewrite Nat2Z.inj_succ, Z.pow_succ_r in Hv by lia. assert (0 < 8 ^ Z.of_nat k) by (apply Z.pow_pos_nonneg; lia). nia. }
  destruct (IH k (value / b_base b) (cnt + 1) (buf1 ++ [digit b (value mod b_base b)]))
    as (ds & E & Hlen & Hval & Hng & Hz0 & Hall & Hlast); [done|lia|rewrite length_app; simpl; lia|].
  unfold digit in E. rewrite E. destruct (digit_find b (value mod b_base b) Hb Hm) as [Hne Hf].
  exists ((if comma then [44] else []) ++ digit b (value mod b_base b) :: ds). split_and!.
  - unfold buf1. destruct comma; simpl; by rewrite <- ?app_assoc.
  - rewrite length_app. destruct comma; simpl; lia.
  - assert (En : no_commas ((if comma then [44] else []) ++ digit b (value mod b_base b) :: ds)
                 = digit b (value mod b_base b) :: no_commas ds).
    { unfold no_commas. rewrite filter_app, filter_cons_True by done. by destruct comma. }
    rewrite En. simpl. rewrite Hf. simpl. rewrite Hval, Z2Nat.id by lia. lia.
  - intros Hg. destruct (Hng Hg) as [Hng1 Hng2]. unfold comma. rewrite Hg. simpl. unfold no_commas.
    rewrite filter_cons_True by done. split; [f_equal; by apply Hng1|lia].
  - lia.
  - apply Forall_app. split; [destruct comma; repeat constructor; by left|]. constructor; [|done]. right.
    unfold digit. apply zget_in_range. lia.
  - rewrite last_app_cons. destruct ds as [|c ds]; [|by rewrite last_cons_cons]. intros [= E48].
    simpl in Hval. rewrite <- Hval in Ed. assert (Hv0 : value mod b_base b = value) by lia.
    rewrite E48, Hv0 in Hf. pose proof (digit_find b 0 Hb ltac:(lia)) as [_ Hf0].
    assert (E0 : digit b 0 = 48) by (by destruct Hb as [-> | [-> | [-> | ->]]]).
    rewrite E0, Hf in Hf0. injection Hf0. lia.
Qed.

Lemma zeros_loop_ok fuel prec buf :
  (length buf <= 63)%nat -> (63 - length buf < fuel)%nat ->
  exists n, zeros_loop fuel prec buf = Ok (buf ++ replicate n 48) /\ (length buf + n <= 63)%nat /\
    Z.min prec 63 <= len buf + Z.of_nat n /\ (n = O \/ len buf + Z.of_nat n <= prec).
Proof.
  revert buf. induction fuel as [|fuel IH]; intros buf Hl Hf; [lia|]. simpl. unfold BUF.
  destruct (Z.ltb_spec (len buf) prec) as [Hp|Hp]; simpl.
  - destruct (Nat.ltb_spec (length buf) 63) as [H63|H63].
    + rewrite put_ok by lia. simpl. destruct (IH (buf ++ [48])) as (n & E & H1 & H2 & H3);
        rewrite ?length_app; simpl; try lia.
      rewrite length_app in *. simpl in *. exists (S n). rewrite E, <- app_assoc. simpl. split; [done|]. lia.
    + exists O. simpl. rewrite app_nil_r. split; [done|]. lia.
  - exists O. simpl. rewrite app_nil_r. split; [done|]. lia.
Qed.

Lemma digits_value_zeros b ds n :
  known_base b -> digits_value b (ds ++ replicate n 48) = digits_value b ds.
Proof.
  intros Hb. destruct (base_facts b Hb) as (_ & _ & _ & _ & H0 & _).
  assert (Hz : digits_value b (replicate n 48) = 0).
  { induction n as [|n IH]; simpl; [done|]. rewrite IH. destruct (b_digits b) as [|c l]; [done|].
    injection H0 as ->. simpl. lia. }
  induction ds as [|c ds IH]; simpl; [done|]. by rewrite IH.
Qed.

(** ** The text of a converted integer *)

(** The sign: a minus for a negative value of a signed conversion, and for another one a plus or a
    space where the flags ask for it. *)
Definition sign_text (is_signed negative : bool) (fl : Z) : list Z :=
  if negb is_signed then []
  else if negative then [45] else if flag fl PLUS then [43] else if flag fl SPACE then [32] else [].
(** [0x] or [0X] for a hexadecimal value other than 0 with the flag #. *)
Definition prefix_text (b : integer_base) (fl value : Z) : list Z :=
  if flag fl POUND && (b_base b =? 16) && (0 <? value) then [48; b_x b] else [].

(** The digits [ds] of [value], the most significant first: commas only with the flag ', and as many
    leading zeros as the precision asks for, or a single one in front of an octal number with the
    flag #. *)
Record number_text (b : integer_base) (fl prec value : Z) (ds : list Z) : Prop := {
  nt_value : digits_value b (no_commas (reverse ds)) = value;
  nt_chars : Forall (fun c => c ∈ b_digits b \/ (c = 44 /\ flag fl GROUP = true)) ds;
  nt_zeros : exists zeros significant, ds = replicate (Z.to_nat zeros) 48 ++ significant /\
    head significant <> Some 48 /\
    zeros = Z.max (if flag fl POUND && (b_base b =? 8) then 1 else 0) (Z.min prec 63 - len significant)
}.

(** The field: spaces, sign, prefix, zeros, digits, spaces, with the padding that fills the width. *)
Definition formatted (is_signed negative : bool) (b : integer_base) (c : printf_conversion) (value : Z)
    (out : list Z) : Prop :=
  exists pad ds,
    let fl := flags c in
    let body := sign_text is_signed negative fl ++ prefix_text b fl value in
    out = (if flag fl MINUS || flag fl ZERO then [] else output_dup 32 pad) ++ body ++
          (if flag fl ZERO then output_dup 48 pad else []) ++ ds ++
          (if flag fl MINUS then output_dup 32 pad else []) /\
    number_text b fl (if precision c <? 0 then 1 else precision c) value ds /\
    (0 <= width c < 2 ^ 31 -> pad = Z.max 0 (width c - len body - len ds)).

Lemma no_commas_zeros ds n : no_commas (ds ++ replicate n 48) = no_commas ds ++ replicate n 48.
Proof.
  unfold no_commas. rewrite filter_app. f_equal. apply filter_keep. by intros x [-> _]%elem_of_replicate.
Qed.

Lemma out_length_dup x n : 0 <= n -> len (output_dup x n) = n.
Proof. intros. unfold output_dup. rewrite length_replicate. lia. Qed.
Lemma out_dup_all x n (P : Z -> Prop) : P x -> Forall P (output_dup x n).
Proof. intros H. by apply Forall_replicate. Qed.

Lemma sign_char_text is_signed neg fl :
  sign_text is_signed neg fl = (if negb (sign_char is_signed neg fl =? 0) then [sign_char is_signed neg fl] else []).
Proof. unfold sign_text, sign_char. by destruct is_signed, neg, (flag fl PLUS), (flag fl SPACE). Qed.

Lemma prefix_char_text b fl value :
  known_base b -> 0 <= value ->
  prefix_text b fl value =
    (let x := if flag fl POUND && negb (value =? 0) then b_x b else 0 in if negb (x =? 0) then [48; x] else []).
Proof.
  intros Hb Hv. unfold prefix_text. destruct (flag fl POUND); [|done]. simpl.
  destruct (Z.eqb_spec value 0) as [->|]; simpl; [by rewrite andb_false_r|].
  rewrite (proj2 (Z.ltb_lt 0 value)), andb_true_r by lia. by destruct Hb as [-> | [-> | [-> | ->]]].
Qed.

Lemma minus_zero fl : flag fl (Z.lor MINUS ZERO) = flag fl MINUS || flag fl ZERO.
Proof.
  unfold flag. rewrite Z.land_lor_distr_r. rewrite <- negb_andb. f_equal.
  destruct (Z.eqb_spec (Z.land fl MINUS) 0) as [->|H]; simpl; [by rewrite Z.lor_0_l|].
  apply Z.eqb_neq. intros E. by apply Z.lor_eq_0_iff in E as [? _].
Qed.

(** The least significant digit first: digits, then the zeros of the precision. *)
Lemma number_text_rev b fl prec value ds n :
  known_base b -> digits_value b (no_commas ds) = value -> (flag fl GROUP = false -> no_commas ds = ds) ->
  Forall (fun c => c = 44 \/ c ∈ b_digits b) ds -> last ds <> Some 48 ->
  Z.of_nat n = Z.max (if flag fl POUND && (b_base b =? 8) then 1 else 0) (Z.min prec 63 - len ds) ->
  number_text b fl prec value (reverse (ds ++ replicate n 48)).
Proof.
  intros Hb Hv Hg Hall Hlast Hn. constructor.
  - by rewrite reverse_involutive, no_commas_zeros, digits_value_zeros.
  - apply Forall_reverse, Forall_app. split; [|apply Forall_replicate; left; by apply base_zero].
    rewrite Forall_forall in Hall |- *. intros c Hc. destruct (Hall c Hc) as [->|]; [right|by left].
    split; [done|]. destruct (flag fl GROUP); [done|]. rewrite <- Hg in Hc by done.
    by apply list_elem_of_filter in Hc as [? _].
  - exists (Z.of_nat n), (reverse ds). rewrite reverse_app, reverse_replicate, Nat2Z.id, head_reverse, length_reverse. done.
Qed.

Lemma format_buffer value b c :
  known_base b -> 0 <= value < 2 ^ 64 ->
  exists buf,
    (buf ← digits_loop 65 b (flags c) value 0 [];
     buf ← zeros_loop 65 (if precision c <? 0 then 1 else precision c) buf;
     (if flag (flags c) POUND && (b_base b =? 8) && ((length buf =? 0)%nat || negb (default 0 (last buf) =? 48))
      then put buf 48 else mret buf)) = Ok buf /\
    (length buf <= 64)%nat /\
    number_text b (flags c) (if precision c <? 0 then 1 else precision c) value (reverse buf).
Proof.
  intros Hb Hv. destruct (digits_loop_ok 22 65 b (flags c) value 0 [] Hb) as (ds & E & Hl & Hval & Hg & _ & Hall & Hlast).
  { change (8 ^ Z.of_nat 22) with 73786976294838206464. lia. } { lia. } { simpl. lia. }
  rewrite E, obind_ok. change ([] ++ ds) with ds. set (prec := if precision c <? 0 then 1 else precision c).
  destruct (zeros_loop_ok 65 prec ds) as (n & Ez & Hn & Hp & Hp'); [lia|lia|]. rewrite Ez, obind_ok.
  assert (Hl' : (length (ds ++ replicate n 48%Z) <= 63)%nat) by (rewrite length_app, length_replicate; lia).
  assert (Hnum : forall k : nat, Z.of_nat k = Z.max (if flag (flags c) POUND && (b_base b =? 8) then 1 else 0) (Z.of_nat n) ->
            number_text b (flags c) prec value (reverse (ds ++ replicate k 48))).
  { intros k Hk. apply number_text_rev; try done; [by intros [? _]%Hg|]. destruct (flag (flags c) POUND && _); lia. }
  destruct (flag (flags c) POUND && (b_base b =? 8)) eqn:Ep; simpl.
  - assert (Hz : (length (ds ++ replicate n 48%Z) =? 0)%nat || negb (default 0 (last (ds ++ replicate n 48)) =? 48) = (n =? 0)%nat).
    { destruct n as [|n]; [|rewrite replicate_S_end, app_assoc, last_snoc, length_app, orb_false_r; simpl; by rewrite Nat.add_comm].
      rewrite app_nil_r. destruct (Nat.eqb_spec (length ds) 0) as [|Hne]; [done|]. simpl. apply negb_true_iff, Z.eqb_neq.
      destruct (last ds) as [x|] eqn:El; [simpl; congruence|]. by apply last_None in El as ->. }
    rewrite Hz. destruct (Nat.eqb_spec n 0) as [->|Hn0].
    + rewrite put_ok by lia. eexists. split; [done|]. split; [rewrite (length_app _ [48]); cbn [length]; lia|].
      rewrite <- app_assoc. apply (Hnum 1%nat). lia.
    + eexists. split; [done|]. split; [lia|]. apply Hnum. lia.
  - eexists. split; [done|]. split; [lia|]. apply Hnum. lia.
Qed.

Lemma format_integer_ok value is_signed neg b c :
  known_base b -> 0 <= value < 2 ^ 64 ->
  exists out, format_integer value is_signed neg b c = Ok out /\ formatted is_signed neg b c value out.
Proof.
  intros Hb Hv. destruct (format_buffer value b c Hb Hv) as (buf & E & Hl & Hnum).
  unfold format_integer. cbv zeta.
  pose proof (sign_char_text is_signed neg (flags c)) as Es. set (sign := sign_char is_signed neg (flags c)) in *.
  pose proof (prefix_char_text b (flags c) value Hb (proj1 Hv)) as Ex. cbv zeta in Ex.
  set (x := if flag (flags c) POUND && negb (value =? 0) then b_x b else 0) in *.
  destruct (digits_loop 65 b (flags c) value 0 []) as [buf0| |]; [|done..]. rewrite obind_ok in *.
  destruct (zeros_loop 65 _ buf0) as [buf1| |]; [|done..]. rewrite obind_ok in *. rewrite E, obind_ok.
  set (pad := if s32 _ <? 0 then 0 else s32 _).
  eexists. split; [done|]. exists pad, (reverse buf). cbv zeta. rewrite Es, Ex, minus_zero. split; [|split; [done|]].
  - rewrite <- !app_assoc. by destruct (flag (flags c) MINUS || flag (flags c) ZERO).
  - intros Hw. rewrite length_app, length_reverse. unfold pad.
    destruct (Z.eqb_spec x 0), (Z.eqb_spec sign 0); cbn [negb length];
      (rewrite wraps_small; [case_cmp; lia|done|change (32 - 1) with 31; lia]).
Qed.


(** ** Termination *)

(** [m] does not run out of fuel, and its result has [P]. *)
Definition ends {A} (P : A -> Prop) (m : outcome A) : Prop :=
  match m with Ok a => P a | Panic => True | NoFuel => False end.

Lemma ends_bind {A B} (P : A -> Prop) (Q : B -> Prop) m (f : A -> outcome B) :
  ends P m -> (forall a, P a -> ends Q (f a)) -> ends Q (m ≫= f).
Proof. intros H1 H2. destruct m; simpl in *; eauto. Qed.

Abbreviation some := (fun _ => True).

Lemma parse_flags_length f fl : (length (fst (parse_flags f fl)) <= length f)%nat.
Proof.
  revert fl. induction f as [|c f IH]; intros fl; simpl; [lia|].
  repeat (destruct_if; [etrans; [apply IH|lia]|]). simpl. lia.
Qed.
Lemma parse_number_length f n : (length (fst (parse_number f n)) <= length f)%nat.
Proof.
  revert n. induction f as [|c f IH]; intros n; simpl; [lia|].
  destruct_if; [etrans; [apply IH|lia]|]. simpl. lia.
Qed.
Lemma rest_shorter f : (length (rest f) <= length f)%nat.
Proof. destruct f; simpl; lia. Qed.
Lemma parse_type_length f : (length (fst (parse_type f)) <= length f)%nat.
Proof.
  pose proof (rest_shorter f). pose proof (rest_shorter (rest f)).
  unfold parse_type. cbv zeta. repeat destruct_if; simpl; lia.
Qed.

Lemma va_32_ends args : ends some (va_32 args).
Proof. by destruct args as [|[] ?]. Qed.
Lemma va_64_ends args : ends some (va_64 args).
Proof. by destruct args as [|[] ?]. Qed.
Lemma va_str_ends args : ends some (va_str args).
Proof. by destruct args as [|[] ?]. Qed.

Definition shorter (f : list Z) (r : list Z * Z * list arg) : Prop := (length (fst (fst r)) <= length f)%nat.

Lemma parse_width_ends f args : ends (shorter f) (parse_width f args).
Proof.
  unfold parse_width. destruct_if.
  - apply (ends_bind some); [apply va_32_ends|]. intros [v args'] _. apply rest_shorter.
  - pose proof (parse_number_length f 0). by destruct (parse_number f 0).
Qed.
Lemma parse_precision_ends f args : ends (shorter f) (parse_precision f args).
Proof.
  unfold parse_precision. destruct_if; [|unfold ends, shorter; simpl; lia]. pose proof (rest_shorter f) as Hr.
  apply (ends_bind (shorter f)).
  - destruct_if.
    + apply (ends_bind some); [apply va_32_ends|]. intros [v args'] _. simpl. unfold shorter. simpl.
      etrans; [apply rest_shorter|done].
    + pose proof (parse_number_length (rest f) 0). destruct (parse_number (rest f) 0). unfold ends, shorter. simpl in *. lia.
  - intros [[f' q] args'] H. exact H.
Qed.

Lemma parse_conversion_ends f args :
  ends (fun r => (length (fst (fst r)) <= length f)%nat) (parse_conversion f args).
Proof.
  unfold parse_conversion. pose proof (parse_flags_length f 0) as H1. destruct (parse_flags f 0) as [f1 fl].
  simpl in H1. cbv zeta. apply (ends_bind (shorter f1)); [apply parse_width_ends|].
  intros [[f2 w] args2] H2. unfold shorter in H2. simpl in H2. destruct (if w <? 0 then _ else _) as [w' fl'].
  apply (ends_bind (shorter f2)); [apply parse_precision_ends|]. intros [[f3 q] args3] H3. unfold shorter in H3. simpl in H3.
  pose proof (parse_type_length f3) as H4. destruct (parse_type f3) as [f4 ty]. simpl in *. lia.
Qed.

Lemma signed_arg_ends ty args : ends some (signed_arg ty args).
Proof. by destruct ty, args as [|[] ?]. Qed.
Lemma unsigned_arg_ends ty args : ends (fun r => 0 <= fst r < 2 ^ 64) (unsigned_arg ty args).
Proof.
  destruct ty, args as [|[v|v|o] args]; simpl; try done;
    try (pose proof (wrapu_range 8 v ltac:(lia)); lia); try (pose proof (wrapu_range 16 v ltac:(lia)); lia);
    try (pose proof (wrapu_range 32 v ltac:(lia)); lia); try (pose proof (wrapu_range 64 v ltac:(lia)); lia).
  change (2 ^ 32 - 1) with (Z.ones 32). rewrite Z.land_ones by lia.
  pose proof (Z.mod_pos_bound (u64 (s32 v)) (2 ^ 32) ltac:(lia)). lia.
Qed.

Lemma format_integer_ends value is_signed neg b c :
  known_base b -> 0 <= value < 2 ^ 64 -> ends some (format_integer value is_signed neg b c).
Proof. intros Hb Hv. by destruct (format_integer_ok value is_signed neg b c Hb Hv) as (out & -> & _). Qed.

Lemma conversion_ends f c args self :
  ends some (self (str "<<no %%%c in kernel>>") [Arg32 f]) ->
  ends some (self (str "<<no %%%c conversion>>") [Arg32 f]) ->
  ends some (conversion f c args self).
Proof.
  intros H1 H2. unfold conversion. destruct_if.
  { apply (ends_bind some); [apply signed_arg_ends|]. intros [v args'] _.
    apply (ends_bind some); [|done]. apply format_integer_ends; [by left|]. by apply wrapu_range. }
  destruct_if.
  { apply (ends_bind (fun r => 0 <= fst r < 2 ^ 64)); [apply unsigned_arg_ends|]. intros [v args'] Hv. cbv zeta.
    apply (ends_bind some); [|done]. apply format_integer_ends; [|done].
    unfold known_base. repeat destruct_if; tauto. }
  destruct_if. { apply (ends_bind some); [apply va_32_ends|]. by intros [v args'] _. }
  destruct_if. { apply (ends_bind some); [apply va_str_ends|]. by intros [v args'] _. }
  destruct_if.
  { apply (ends_bind some); [apply va_32_ends|]. intros [v args'] _. apply (ends_bind some); [|done].
    apply format_integer_ends; [right; right; by left|].
    pose proof (wrapu_range 32 v ltac:(lia)). lia. }
  destruct_if; (apply (ends_bind some); [done|done]).
Qed.

(** The messages for unknown conversions. *)
Lemma message_kernel k f : ends some (vprintf_loop (32 + k) (str "<<no %%%c in kernel>>") [Arg32 f]).
Proof. exact I. Qed.
Lemma message_conversion k f : ends some (vprintf_loop (32 + k) (str "<<no %%%c conversion>>") [Arg32 f]).
Proof. exact I. Qed.

Lemma vprintf_loop_ends fuel format args :
  (length format + 32 <= fuel)%nat -> ends some (vprintf_loop fuel format args).
Proof.
  revert format args. induction fuel as [|fuel IH]; intros format args Hf; [lia|].
  destruct format as [|c format]; [done|]. simpl in Hf. unfold vprintf_loop; fold vprintf_loop.
  destruct_if. { apply (ends_bind some); [apply IH; lia|done]. }
  destruct_if. { apply (ends_bind some); [|done]. pose proof (rest_shorter format). apply IH. lia. }
  apply (ends_bind _ _ _ _ (parse_conversion_ends format args)). intros [[f' cv] args'] Hf'. simpl in Hf'.
  apply (ends_bind some).
  - replace fuel with (32 + (fuel - 32))%nat by lia. apply conversion_ends; [apply message_kernel|apply message_conversion].
  - intros [out1 args2] _. destruct f' as [|c' f']; [done|]. simpl in Hf'.
    apply (ends_bind some); [apply IH; lia|done].
Qed.

(** ** Output into memory *)

Lemma helper_loop_ok out q n mx m :
  0 <= n -> n + len out < 2 ^ 31 ->
  let kept := take (Z.to_nat (mx - n)) out in
  exists m', helper_loop out (mkAux q n mx) m = Ok (mkAux (q + len kept) (n + len out) mx, m') /\
    holds m' q kept /\ forall x, within q (len kept) x = false -> m' x = m x.
Proof.
  revert q n m. induction out as [|c out IH]; intros q n m Hn Hl; simpl in Hl; simpl.
  - rewrite take_nil. simpl. exists m. rewrite !Z.add_0_r. done.
  - unfold vsnprintf_helper. cbn [p out_length max_length].
    rewrite (wraps_small 32 (n + 1)) by lia. destruct (Z.ltb_spec n mx) as [Hlt|Hge].
    + rewrite bind_assoc. erewrite bind_ok by reflexivity. rewrite ret_bind.
      destruct (IH (q + 1) (n + 1) (upd q c m)) as (m' & E & Hh & Hfr); [lia|lia|].
      replace (Z.to_nat (mx - n)) with (S (Z.to_nat (mx - (n + 1)))) by lia. simpl take. simpl length.
      set (kept := take (Z.to_nat (mx - (n + 1))) out) in *. exists m'. rewrite E. split_and!.
      * do 3 f_equal; lia.
      * simpl. split; [|done]. rewrite Hfr by (unfold within; by case_cmp). unfold upd. by rewrite Z.eqb_refl.
      * intros x Hx. rewrite Hfr.
        -- unfold upd. destruct (Z.eqb_spec x q) as [->|]; [|done]. revert Hx. unfold within. by case_cmp.
        -- revert Hx. unfold within. by case_cmp.
    + rewrite ret_bind. destruct (IH q (n + 1) m) as (m' & E & Hh & Hfr); [lia|lia|].
      rewrite E. exists m'. replace (Z.to_nat (mx - n)) with O by lia.
      replace (Z.to_nat (mx - (n + 1))) with O in * by lia. simpl in *. split; [do 3 f_equal; lia|done].
Qed.

Lemma vsnprintf_ok buffer buf_size format args out m :
  vprintf format args = Ok out -> len out < 2 ^ 31 -> 0 < buf_size <= 2 ^ 31 ->
  let kept := take (Z.to_nat (buf_size - 1)) out in
  exists m', vsnprintf buffer buf_size format args m = Ok (len out, m') /\
    holds m' buffer (kept ++ [0]) /\ forall x, within buffer (len kept + 1) x = false -> m' x = m x.
Proof.
  intros E Hl Hs kept. unfold vsnprintf. rewrite E. rewrite (proj2 (Z.ltb_lt 0 buf_size)) by lia.
  rewrite wraps_small by lia.
  destruct (helper_loop_ok out buffer 0 (buf_size - 1) m) as (m' & Eh & Hh & Hfr); [lia|lia|].
  rewrite Z.sub_0_r in *. fold kept in Eh, Hh, Hfr. rewrite (bind_ok _ _ _ _ _ Eh). cbn [p out_length].
  erewrite bind_ok by reflexivity. exists (upd (buffer + len kept) 0 m'). split; [done|]. split.
  - apply holds_app. split; [|simpl; unfold upd; by rewrite Z.eqb_refl].
    apply (holds_agree m'); [|done]. intros x Hx. unfold upd. by rewrite (proj2 (Z.eqb_neq _ _)) by lia.
  - intros x Hx. unfold upd. destruct (Z.eqb_spec x (buffer + len kept)) as [->|Hne].
    + revert Hx. unfold within. by case_cmp.
    + apply Hfr. revert Hx. unfold within. by case_cmp.
Qed.

(** ** Decimal numbers *)

(** The decimal representation, as [%d] prints it. *)
Definition decimal (n : Z) (out : list Z) : Prop :=
  exists ds, out = (if n <? 0 then [45] else []) ++ ds /\ digits_value base_d (reverse ds) = Z.abs n /\
    Forall (fun c => isdigit c = true) ds /\ (0 < length ds <= 11)%nat.

Lemma base_d_digits c : c ∈ b_digits base_d -> isdigit c = true.
Proof.
  intros H. assert (Forall (fun c => isdigit c = true) (b_digits base_d)) as Hall by (vm_compute; repeat constructor).
  rewrite Forall_forall in Hall. by apply Hall.
Qed.

Lemma format_decimal n :
  - 2 ^ 31 <= n < 2 ^ 31 ->
  exists out, format_integer (Z.abs n) true (n <? 0) base_d (mkConv 0 0 (-1) INT) = Ok out /\ decimal n out.
Proof.
  intros Hn. unfold format_integer. cbn [flags width precision]. cbv zeta.
  destruct (digits_loop_ok 11 65 base_d 0 (Z.abs n) 0 []) as (ds & E & Hl & Hval & Hng & Hz & Hall & _);
    [by left|change (8 ^ Z.of_nat 11) with 8589934592; lia|lia|simpl; lia|].
  destruct (Hng eq_refl) as [Hng1 Hng2]. rewrite Hng1 in Hval. rewrite E, obind_ok. change ([] ++ ds) with ds.
  destruct (zeros_loop_ok 65 1 ds) as (k & Ez & Hk & Hk1 & Hk2); [lia|lia|].
  change (if -1 <? 0 then 1 else -1) with 1. rewrite Ez, obind_ok. change (flag 0 POUND) with false. cbn [andb].
  eexists. split; [reflexivity|]. set (buf := ds ++ replicate k 48).
  assert (Hlen : (0 < length buf <= 11)%nat) by (unfold buf; rewrite length_app, length_replicate; lia).
  assert (Hds : Forall (fun c => isdigit c = true) ds).
  { rewrite Forall_forall in Hall |- *. intros c Hc. destruct (Hall c Hc) as [->|Hc']; [|by apply base_d_digits].
    rewrite <- Hng1 in Hc. by apply list_elem_of_filter in Hc as [? _]. }
  exists (reverse buf). rewrite reverse_involutive, length_reverse. split_and!; try lia.
  - unfold sign_char. change (flag 0 PLUS) with false. change (flag 0 SPACE) with false.
    change (flag 0 ZERO) with false. change (flag 0 MINUS) with false. change (flag 0 (Z.lor MINUS ZERO)) with false.
    cbn [negb Z.eqb app]. rewrite app_nil_r.
    assert (Ep : (if s32 (0 - len buf - 0 - (if negb ((if n <? 0 then 45 else 0) =? 0) then 1 else 0)) <? 0 then 0
                  else s32 (0 - len buf - 0 - (if negb ((if n <? 0 then 45 else 0) =? 0) then 1 else 0))) = 0).
    { destruct (n <? 0); simpl negb; cbv iota; rewrite wraps_small by (change (32 - 1) with 31; lia); case_cmp; lia. }
    rewrite Ep. by destruct (n <? 0).
  - unfold buf. rewrite digits_value_zeros; [done|by left].
  - apply Forall_reverse. unfold buf. apply Forall_app. split; [done|]. by apply Forall_replicate.
Qed.

(** The effect of the conversion [%d]. *)
Lemma conversion_decimal n :
  exists out, decimal (s32 n) out /\ forall args self,
    conversion 100 (mkConv 0 0 (-1) INT) (Arg32 n :: args) self = Ok (out, args).
Proof.
  pose proof (wraps_range 32 n ltac:(lia)) as Hr. change (32 - 1) with 31 in Hr.
  destruct (format_decimal (s32 n) Hr) as (out & E & Hd). exists out. split; [done|]. intros args self.
  unfold conversion. cbn [type signed_arg va_32]. cbn [Z.eqb orb Pos.eqb]. simpl.
  assert (Ea : u64 (if s32 n <? 0 then - s32 n else s32 n) = Z.abs (s32 n)).
  { rewrite wrapu_small; case_cmp; lia. }
  rewrite Ea, E. done.
Qed.

Lemma vprintf_decimal n :
  exists out, decimal (s32 n) out /\ forall fuel format args,
    vprintf_loop (S fuel) (37 :: 100 :: format) (Arg32 n :: args) =
      (out2 ← vprintf_loop fuel format args; mret (out ++ out2)).
Proof.
  destruct (conversion_decimal n) as (out & Hd & E). exists out. split; [done|]. intros fuel format args.
  unfold vprintf_loop; fold vprintf_loop.
  change (parse_conversion (100 :: format) (Arg32 n :: args)) with
    (@Ok (list Z * printf_conversion * list arg) (100 :: format, mkConv 0 0 (-1) INT, Arg32 n :: args)).
  rewrite obind_ok. cbn [peek hd negb Z.eqb Pos.eqb]. rewrite E. done.
Qed.
Lemma vprintf_char c fuel format args :
  c <> 37 -> vprintf_loop (S fuel) (c :: format) args = (out ← vprintf_loop fuel format args; mret (c :: out)).
Proof. intros H. simpl. by rewrite (proj2 (Z.eqb_neq c 37) H). Qed.

Lemma printf_decimal n : exists out, printf "%d" [Arg32 n] = Ok out /\ decimal (s32 n) out.
Proof.
  destruct (vprintf_decimal n) as (out & Hd & E). exists out. split; [|done].
  unfold printf, vprintf. change (str "%d") with [37; 100]. change (length [37%Z; 100%Z] + 32)%nat with (S 33). rewrite E. simpl. by rewrite app_nil_r.
Qed.

(** ** Formats that fit their arguments *)

Inductive kind := K32 | K64 | KStr.
Definition kind_of (a : arg) : kind := match a with Arg32 _ => K32 | Arg64 _ => K64 | ArgStr _ => KStr end.

(** What the conversions read, as far as the kinds of the arguments tell. *)
Definition star (f : list Z) (ks : list kind) : option (list Z * list kind) :=
  if peek f =? 42 then match ks with K32 :: ks' => Some (rest f, ks') | _ => None end
  else Some (fst (parse_number f 0), ks).
Definition kind_conversion (f : list Z) (ks : list kind) : option (list Z * arg_type * list kind) :=
  '(f, ks) ← star (fst (parse_flags f 0)) ks;
  '(f, ks) ← (if peek f =? 46 then star (rest f) ks else Some (f, ks));
  let '(f, ty) := parse_type f in Some (f, ty, ks).
Definition kind_needed (c : Z) (ty : arg_type) : option kind :=
  if bool_decide (c ∈ str "diouxX") then Some (match ty with INTMAX | LONGLONG => K64 | _ => K32 end)
  else if bool_decide (c ∈ str "cp") then Some K32
  else if c =? 115 then Some KStr
  else None.
Fixpoint fits (fuel : nat) (f : list Z) (ks : list kind) : bool :=
  match fuel with
  | O => false
  | S fuel' =>
      match f with
      | [] => true
      | c :: f =>
          if negb (c =? 37) then fits fuel' f ks
          else if peek f =? 37 then fits fuel' (rest f) ks
          else
            match kind_conversion f ks with
            | Some (c :: f, ty, k :: ks) =>
                match kind_needed c ty, k with
                | Some K32, K32 | Some K64, K64 | Some KStr, KStr => fits fuel' f ks
                | _, _ => false
                end
            | _ => false
            end
      end
  end.

Lemma star_ok f args f' ks :
  star f (kind_of <$> args) = Some (f', ks) ->
  exists w args', (if peek f =? 42 then '(v, args) ← va_32 args; mret (rest f, s32 v, args)
                   else let '(f, n) := parse_number f 0 in mret (f, n, args)) = Ok (f', w, args') /\ kind_of <$> args' = ks.
Proof.
  unfold star. destruct (peek f =? 42).
  - destruct args as [|[v|v|o] args]; simpl; try done. intros [= <- <-]. by eexists _, _.
  - destruct (parse_number f 0) as [g n]. intros [= <- <-]. by eexists _, _.
Qed.
Lemma kind_conversion_ok f args f' ty ks :
  kind_conversion f (kind_of <$> args) = Some (f', ty, ks) ->
  exists cv args', parse_conversion f args = Ok (f', cv, args') /\ type cv = ty /\ kind_of <$> args' = ks.
Proof.
  unfold kind_conversion, parse_conversion. destruct (parse_flags f 0) as [f1 fl]. cbn [fst]. cbv zeta.
  destruct (star f1 (kind_of <$> args)) as [[f2 ks2]|] eqn:E1; [|done]. cbn [mbind option_bind].
  destruct (star_ok _ _ _ _ E1) as (w & args2 & Ew & Hk2). unfold parse_width. rewrite Ew, obind_ok. rewrite <- Hk2.
  destruct (if w <? 0 then _ else _) as [w' fl']. unfold parse_precision. destruct (peek f2 =? 46).
  - destruct (star (rest f2) (kind_of <$> args2)) as [[f3 ks3]|] eqn:E2; [|done]. cbn [mbind option_bind].
    destruct (star_ok _ _ _ _ E2) as (q & args3 & Eq & Hk3). rewrite Eq. cbn [mbind outcome_bind mret outcome_ret].
    destruct (parse_type f3) as [f4 ty4]. intros [= <- <- <-]. by eexists _, _.
  - cbn [mbind option_bind outcome_bind mret outcome_ret]. destruct (parse_type f2) as [f4 ty4]. intros [= <- <- <-]. by eexists _, _.
Qed.
Lemma conversion_fits c cv a args self :
  kind_needed c (type cv) = Some (kind_of a) -> exists out, conversion c cv (a :: args) self = Ok (out, args).
Proof.
  unfold kind_needed. case_bool_decide as Hi.
  - intros Hk. assert (Hs : exists v, signed_arg (type cv) (a :: args) = Ok (v, args) /\ - 2 ^ 63 <= v < 2 ^ 63).
    { destruct (type cv), a as [v|v|o]; try done; simpl; eexists; (split; [reflexivity|]);
        try (pose proof (wraps_range 8 v ltac:(lia)); lia); try (pose proof (wraps_range 16 v ltac:(lia)); lia);
        try (pose proof (wraps_range 32 v ltac:(lia)); lia); try (pose proof (wraps_range 64 v ltac:(lia)); lia).
      pose proof (wrapu_range 32 v ltac:(lia)). case_cmp; lia. }
    assert (Hu : exists v, unsigned_arg (type cv) (a :: args) = Ok (v, args) /\ 0 <= v < 2 ^ 64).
    { pose proof (unsigned_arg_ends (type cv) (a :: args)) as He. destruct (type cv), a as [v|v|o]; try done; simpl in *; by eexists. }
    destruct Hs as (v & Es & Hv), Hu as (x & Eu & Hx). unfold conversion.
    destruct ((c =? 100) || (c =? 105)) eqn:Ed.
    + rewrite Es, obind_ok. edestruct format_integer_ok as (out & -> & _); [by left|apply wrapu_range; lia|by eexists].
    + assert (Ho : (c =? 111) || (c =? 117) || (c =? 120) || (c =? 88) = true).
      { repeat (apply elem_of_cons in Hi as [->|Hi]; [done|]). by apply not_elem_of_nil in Hi. }
      rewrite Ho, Eu, obind_ok. edestruct format_integer_ok as (out & -> & _); [|exact Hx|by eexists].
      unfold known_base. destruct (c =? 111); [tauto|]. destruct (c =? 117); [tauto|]. destruct (c =? 120); tauto.
  - case_bool_decide as Hc.
    + intros [= Ha]. destruct a as [v|v|o]; try done.
      repeat (apply elem_of_cons in Hc as [->|Hc]); [by eexists| |by apply not_elem_of_nil in Hc].
      unfold conversion. simpl. edestruct format_integer_ok as (out & -> & _); [by right; right; left| |by eexists].
      pose proof (wrapu_range 32 v ltac:(lia)). lia.
    + destruct (Z.eqb_spec c 115) as [->|]; [|done]. intros [= Ha]. destruct a as [v|v|o]; try done. by eexists.
Qed.
Lemma fits_ok fuel f args : fits fuel f (kind_of <$> args) = true -> exists out, vprintf_loop fuel f args = Ok out.
Proof.
  revert f args. induction fuel as [|fuel IH]; intros f args; [done|]. destruct f as [|c f]; [by exists []|]. cbn [fits vprintf_loop].
  destruct (c =? 37); cbn [negb]; [|intros [out ->]%IH; by eexists]. destruct (peek f =? 37); [intros [out ->]%IH; by eexists|].
  destruct (kind_conversion f (kind_of <$> args)) as [[[[|d f'] ty] [|k ks]]|] eqn:E; [done..| |done].
  destruct (kind_conversion_ok _ _ _ _ _ E) as (cv & args' & -> & <- & Hk). rewrite obind_ok. destruct args' as [|a args']; [done|].
  injection Hk as <- <-. intros H. cbn [peek hd].
  destruct (kind_needed d (type cv)) as [kn|] eqn:En; [|done]. assert (Hn : kn = kind_of a /\ fits fuel f' (kind_of <$> args') = true).
  { destruct kn, (kind_of a); done. }
  destruct Hn as [-> Hf]. destruct (conversion_fits d cv a args' (vprintf_loop fuel) En) as [out1 ->]. rewrite obind_ok.
  destruct (IH f' args' Hf) as [out2 ->]. by eexists.
Qed.

(** ** Properties *)

(** Formatted output is type safe: when the conversions of a format fit the kinds of the
    arguments, which can be computed without their values, the output is complete, whatever
    the values are. *)
Theorem printf_type_safe format args :
  fits (length format + 32) format (kind_of <$> args) = true -> exists out, vprintf format args = Ok out.
Proof. apply fits_ok. Qed.
Lemma printf_type_safe_witness :
  exists out, vprintf (str "%-8s %#04x %*lld%%") [ArgStr None; Arg32 13; Arg32 7; Arg64 (-1)] = Ok out.
Proof. apply (printf_type_safe (str "%-8s %#04x %*lld%%") [ArgStr None; Arg32 13; Arg32 7; Arg64 (-1)]). reflexivity. Defined.



(** C19: [vsnprintf] never writes outside of its buffer: it stores the formatted text cut to
    [buf_size - 1] characters and a null byte, changes nothing else, and returns the length of
    the whole text. *)
Theorem vsnprintf_bounded buffer buf_size format args out m :
  vprintf format args = Ok out -> len out < 2 ^ 31 -> 0 < buf_size <= 2 ^ 31 ->
  exists m', vsnprintf buffer buf_size format args m = Ok (len out, m') /\
    holds m' buffer (take (Z.to_nat (buf_size - 1)) out ++ [0]) /\
    forall x, within buffer buf_size x = false -> m' x = m x.
Proof.
  intros E Hl Hs. destruct (vsnprintf_ok buffer buf_size format args out m E Hl Hs) as (m' & Em & Hh & Hfr).
  exists m'. split; [done|]. split; [done|]. intros x Hx. apply Hfr. rewrite length_take.
  revert Hx. unfold within. case_cmp; done.
Qed.
Lemma vsnprintf_bounded_witness :
  exists m', vsnprintf 100 8 (str "R%d waits") [Arg32 12] (fun _ => 7) = Ok (9, m') /\
    holds m' 100 (str "R12 wai" ++ [0]) /\ forall x, within 100 8 x = false -> m' x = 7.
Proof.
  apply (vsnprintf_bounded 100 8 (str "R%d waits") [Arg32 12] (str "R12 waits") (fun _ => 7)).
  - vm_compute. reflexivity.
  - vm_compute. reflexivity.
  - split; [reflexivity|discriminate].
Defined.
