(* ===== verification/AwStart.v ===== *)
(** Starting the simulator: the conversion of numbers (lib/stdlib.c), the parsing of
    the task list (robot.c), the setup of run_automated_warehouse, and the printing of
    the map (aw_manager.c). *)

From stdpp Require Import strings.
From S2P Require Import Prelude KMonad Warehouse AwPath AwMessage AwCentral AwSim AwRuns CString Arith Stdio StdioOk.

(** ** lib/stdlib.c: atoi *)

Fixpoint skip_spaces (fuel : nat) (s : Z) : K ram_t Z :=
  match fuel with
  | O => no_fuel
  | S fuel' => c ← load s; if isspace c then skip_spaces fuel' (s + 1) else mret s
  end.
Fixpoint atoi_digits (fuel : nat) (s value : Z) : K ram_t Z :=
  match fuel with
  | O => no_fuel
  | S fuel' =>
      c ← load s;
      if isdigit c then atoi_digits fuel' (s + 1) (s32 (value * 10 - (c - 48))) else mret value
  end.
Definition atoi (fuel : nat) (s : Z) : K ram_t Z :=
  ASSERT (negb (s =? 0));;
  s ← skip_spaces fuel s;
  c ← load s;
  let '(negative, s) := if c =? 43 then (false, s + 1) else if c =? 45 then (true, s + 1) else (false, s) in
  value ← atoi_digits fuel s 0;
  mret (if negative then value else s32 (- value)).

(** ** robot.c *)

(** The loop over the tasks; [robots] is the array, [colon] the address of the
    delimiter string. *)
Fixpoint parse_loop (fuel num_robots : nat) (i : nat) (task save colon : Z) (robots : list robot)
  : K ram_t (list robot) :=
  match num_robots with
  | O => mret robots
  | S n' =>
      if task =? 0 then mret robots
      else
        c0 ← load task;
        c1 ← load (task + 1);
        let item := s8 c0 - 48 in
        let robots := <[i := setRobot None item (s8 c1) ROW_W COL_W item 0 0]> robots in
        '(task, save) ← strtok_r fuel 0 colon save;
        parse_loop fuel n' (S i) task save colon robots
  end.
Definition parse_robot_tasks (fuel : nat) (task_copy colon task_string : Z) (robots : list robot) (num_robots : Z)
  : K ram_t (list robot) :=
  strlcpy fuel task_copy task_string 256;;
  '(task, save) ← strtok_r fuel task_copy colon 0;
  parse_loop fuel (Z.to_nat num_robots) 0 task save colon robots.

(** ** automated_warehouse.c: the setup *)

Definition text (l : list Z) : string := String.string_of_list_ascii ((fun c => ascii_of_N (Z.to_N c)) <$> l).
Definition set_name (rb : robot) (nm : option string) : robot :=
  mkRobot nm (required_item rb) (destination rb) (row rb) (col rb)
    (required_payload rb) (current_payload rb) (task_completed rb).
Definition ROBOT_NAME_SIZE : Z := 16.

(** The name that [snprintf] leaves in the block of [ROBOT_NAME_SIZE] bytes. *)
Definition robot_name (i : nat) : outcome string :=
  out ← printf "R%d" [Arg32 (Z.of_nat i + 1)];
  mret (text (take (Z.to_nat (ROBOT_NAME_SIZE - 1)) out)).
Fixpoint name_robots (i : nat) (rs : list robot) : outcome (list robot) :=
  match rs with
  | [] => mret []
  | rb :: rs' => nm ← robot_name i; rs'' ← name_robots (S i) rs'; mret (set_name rb (Some nm) :: rs'')
  end.

(** The robots and their number before the threads are created; [junk n] is the array
    of [n] robots as [malloc] returns it. *)
Definition setup_robots (fuel : nat) (task_copy colon argv1 argv2 : Z) (junk : Z -> list robot)
  : K ram_t (Z * list robot) :=
  number_of_robots ← atoi fuel argv1;
  robots ← parse_robot_tasks fuel task_copy colon argv2 (junk number_of_robots) number_of_robots;
  robots ← lift (name_robots 0 robots);
  mret (number_of_robots, robots).

(** ** aw_manager.c: printing *)

Definition name_arg (rb : robot) : arg := ArgStr (str <$> name rb).

Definition print_place (robots : list robot) (r c : Z) : outcome (list Z) :=
  output_seq robots (fun rb =>
    if (row rb =? r) && (col rb =? c) then printf "%sM%d," [name_arg rb; Arg32 (current_payload rb)] else mret []).

Definition print_cell (robots : list robot) (r c : Z) : outcome (list Z) :=
  if (map_at r c =? 65) || (map_at r c =? 66) || (map_at r c =? 67) || (map_at r c =? 87)
  then printf "%c    " [Arg32 (map_at r c)]
  else
    out ← output_seq robots (fun rb =>
      if (col rb =? c) && (row rb =? r)
      then if 0 <? current_payload rb then printf "%sM%d " [name_arg rb; Arg32 (current_payload rb)]
           else printf "%s   " [name_arg rb]
      else mret []);
    let isFound := existsb (fun rb => (col rb =? c) && (row rb =? r)) robots in
    out2 ← (if negb isFound then printf "%c    " [Arg32 (map_at r c)] else mret []);
    mret (out ++ out2).

Definition newline : list Z := [10].
Definition print_map (robots : list robot) (step : Z) : outcome (list Z) :=
  o1 ← printf "STEP_INFO_START::%d" [Arg32 step];
  o2 ← printf "MAP_INFO::" [];
  o3 ← output_seq (seqZ 0 MAP_HEIGHT) (fun r =>
         o ← output_seq (seqZ 0 MAP_WIDTH) (fun c => print_cell robots r c); mret (o ++ newline));
  o4 ← printf "PLACE_INFO::" [];
  ow ← print_place robots ROW_W COL_W;
  oa ← print_place robots ROW_A COL_A;
  ob ← print_place robots ROW_B COL_B;
  oc ← print_place robots ROW_C COL_C;
  o5 ← printf "STEP_INFO_DONE::%d" [Arg32 step];
  mret (o1 ++ newline ++ o2 ++ newline ++ o3 ++ newline ++ o4 ++ newline ++
        str "W:" ++ ow ++ newline ++ str "A:" ++ oa ++ newline ++ str "B:" ++ ob ++ newline ++
        str "C:" ++ oc ++ newline ++ o5 ++ newline).

(** ** atoi reads what printf prints *)

Definition atoi_value (v : Z) (ds : list Z) : Z := foldl (fun v c => s32 (v * 10 - (c - 48))) v ds.
Definition atoi_list (l : list Z) : Z :=
  let l := rest_of isspace l in
  match l with
  | 43 :: l' => s32 (- atoi_value 0 (prefix_of isdigit l'))
  | 45 :: l' => atoi_value 0 (prefix_of isdigit l')
  | _ => s32 (- atoi_value 0 (prefix_of isdigit l))
  end.

Lemma skip_spaces_ok m fuel a l :
  cstr m a l -> (length l < fuel)%nat -> skip_spaces fuel a m = Ok (a + len (prefix_of isspace l), m).
Proof.
  revert a fuel. induction l as [|c l IH]; intros a [|fuel] H Hf; simpl in Hf; try lia; simpl; unfold mbind, K_bind; simpl.
  - apply cstr_nil in H. rewrite H. simpl. by rewrite Z.add_0_r.
  - apply cstr_cons in H as (-> & _ & H). destruct (isspace c); simpl; [|by rewrite Z.add_0_r].
    rewrite IH by (done || lia). do 2 f_equal. lia.
Qed.

Lemma atoi_digits_ok m fuel a v l :
  cstr m a l -> (length l < fuel)%nat -> atoi_digits fuel a v m = Ok (atoi_value v (prefix_of isdigit l), m).
Proof.
  revert a v fuel. induction l as [|c l IH]; intros a v [|fuel] H Hf; simpl in Hf; try lia; simpl; unfold mbind, K_bind; simpl.
  - apply cstr_nil in H. by rewrite H.
  - apply cstr_cons in H as (-> & _ & H). destruct (isdigit c); simpl; [|done]. apply IH; [done|lia].
Qed.

Lemma atoi_ok m fuel a l :
  a <> 0 -> cstr m a l -> (length l < fuel)%nat -> atoi fuel a m = Ok (atoi_list l, m).
Proof.
  intros Ha H Hf. unfold atoi. rewrite ASSERT_true by (by rewrite (proj2 (Z.eqb_neq a 0))).
  rewrite (bind_ok _ _ _ _ _ (skip_spaces_ok m fuel a l H Hf)). unfold atoi_list.
  pose proof (rest_cstr m a isspace l H) as Hr. pose proof (rest_length isspace l) as Hl.
  set (s := a + _) in *. destruct (rest_of isspace l) as [|c l'] eqn:E.
  - pose proof (proj1 (cstr_nil m s) Hr) as H0. erewrite bind_ok by (unfold load, gets; rewrite H0; reflexivity).
    change (0 =? 43) with false. change (0 =? 45) with false. cbv iota beta. rewrite (bind_ok _ _ _ _ _ (atoi_digits_ok m fuel s 0 [] Hr ltac:(simpl in *; lia))). done.
  - pose proof (proj1 (cstr_cons m s c l') Hr) as (H0 & Hc & Hr').
    erewrite bind_ok by (unfold load, gets; rewrite H0; reflexivity). simpl in Hl. cbv zeta.
    destruct (Z.eqb_spec c 43) as [->|H43].
    { cbv iota beta. by rewrite (bind_ok _ _ _ _ _ (atoi_digits_ok m fuel (s + 1) 0 l' Hr' ltac:(lia))). }
    destruct (Z.eqb_spec c 45) as [->|H45].
    { cbv iota beta. by rewrite (bind_ok _ _ _ _ _ (atoi_digits_ok m fuel (s + 1) 0 l' Hr' ltac:(lia))). }
    cbv iota beta. rewrite (bind_ok _ _ _ _ _ (atoi_digits_ok m fuel s 0 (c :: l') Hr ltac:(simpl; lia))).
    destruct c as [|c|c]; try done. repeat (destruct c as [c|c|]; try done).
Qed.

(** Decimal digits, the most significant first. *)
Definition dec_value (ds : list Z) : Z := foldl (fun v c => v * 10 + (c - 48)) 0 ds.

Lemma digit_index c :
  isdigit c = true -> default 0 ((fun p => Z.of_nat (fst p)) <$> list_find (fun d => d = c) (b_digits base_d)) = c - 48.
Proof.
  unfold isdigit. intros H. reflect_bools. replace c with (48 + Z.of_nat (Z.to_nat (c - 48))) by lia.
  assert (Hk : (Z.to_nat (c - 48) < 10)%nat) by lia. generalize dependent (Z.to_nat (c - 48)). clear. intros k Hk.
  do 10 (destruct k as [|k]; [reflexivity|]). lia.
Qed.

Lemma digits_value_cons c l :
  isdigit c = true -> digits_value base_d (c :: l) = (c - 48) + 10 * digits_value base_d l.
Proof.
  intros H. rewrite <- (digit_index c H). reflexivity.
Qed.

Lemma dec_value_digits ds :
  Forall (fun c => isdigit c = true) ds -> digits_value base_d (reverse ds) = dec_value ds /\ 0 <= dec_value ds.
Proof.
  induction ds as [|c ds IH] using rev_ind; intros H; [done|]. apply Forall_app in H as [H Hc].
  rewrite Forall_singleton in Hc. destruct (IH H) as [E Hp].
  rewrite reverse_app. change (reverse [c] ++ reverse ds) with (c :: reverse ds).
  rewrite (digits_value_cons c _ Hc), E. unfold dec_value in *. rewrite foldl_app. cbn [foldl].
  unfold isdigit in Hc. reflect_bools. split; lia.
Qed.

Lemma atoi_value_dec ds :
  Forall (fun c => isdigit c = true) ds -> dec_value ds <= 2 ^ 31 -> atoi_value 0 ds = - dec_value ds.
Proof.
  induction ds as [|c ds IH] using rev_ind; intros H Hr; [done|]. apply Forall_app in H as [H Hc].
  rewrite Forall_singleton in Hc. destruct (dec_value_digits ds H) as [_ Hp].
  unfold dec_value, atoi_value in *. rewrite !foldl_app in *. simpl in *.
  unfold isdigit in Hc. reflect_bools. rewrite IH by (done || lia).
  rewrite wraps_small; [lia|done|]. change (32 - 1) with 31. lia.
Qed.

Lemma prefix_digits ds : Forall (fun c => isdigit c = true) ds -> prefix_of isdigit ds = ds.
Proof. induction 1 as [|c ds Hc H IH]; simpl; [done|]. by rewrite Hc, IH. Qed.

Lemma atoi_decimal n out : - 2 ^ 31 <= n < 2 ^ 31 -> decimal n out -> atoi_list out = n.
Proof.
  intros Hn (ds & -> & Hv & Hd & Hl). destruct (dec_value_digits ds Hd) as [E _]. rewrite E in Hv.
  pose proof (atoi_value_dec ds Hd ltac:(lia)) as Ea. unfold atoi_list.
  destruct (Z.ltb_spec n 0) as [Hneg|Hpos]; simpl.
  - rewrite prefix_digits, Ea by done. lia.
  - destruct ds as [|c ds]; [simpl in Hl; lia|]. pose proof Hd as Hd'. apply Forall_cons in Hd' as [Hc _].
    assert (Hsp : isspace c = false) by (unfold isdigit, isspace in *; reflect_bools; by case_cmp).
    simpl. rewrite Hsp. unfold isdigit in Hc. reflect_bools.
    assert (Hres : s32 (- atoi_value 0 (prefix_of isdigit (c :: ds))) = n).
    { rewrite prefix_digits, Ea by done. rewrite wraps_small; [lia|done|]. change (32 - 1) with 31. lia. }
    destruct c as [|c|c]; try lia. repeat (destruct c as [c|c|]; try done; try lia).
Qed.

Lemma decimal_chars n out : decimal n out -> Forall (fun c => character c) out /\ (length out <= 12)%nat.
Proof.
  intros (ds & -> & _ & Hd & Hl). rewrite Forall_app, length_app. split; [split|].
  - destruct (n <? 0); repeat constructor.
  - rewrite Forall_forall in Hd |- *. intros c Hc. specialize (Hd c Hc). unfold isdigit in Hd. reflect_bools. lia.
  - destruct (n <? 0); simpl; lia.
Qed.

(** ** The task list *)

(** The robot for a token of the task list: its first two bytes are used. *)
Definition robot_of (t : list Z) : robot :=
  let item := s8 (nth 0 (t ++ [0]) 0) - 48 in
  setRobot None item (s8 (nth 1 (t ++ [0]) 0)) ROW_W COL_W item 0 0.
Fixpoint place (i : nat) (ts : list (list Z)) (rs : list robot) : list robot :=
  match ts with
  | [] => rs
  | t :: ts' => place (S i) ts' (<[i := robot_of t]> rs)
  end.

Lemma place_app ts pre rs :
  (length ts <= length rs)%nat -> place (length pre) ts (pre ++ rs) = pre ++ (robot_of <$> ts) ++ drop (length ts) rs.
Proof.
  revert pre rs. induction ts as [|t ts IH]; intros pre rs H; simpl in *; [done|].
  destruct rs as [|r rs]; simpl in H; [lia|].
  replace (<[length pre := robot_of t]> (pre ++ r :: rs)) with ((pre ++ [robot_of t]) ++ rs).
  - replace (S (length pre)) with (length (pre ++ [robot_of t])) by (rewrite length_app; simpl; lia).
    rewrite IH by lia. by rewrite <- app_assoc.
  - rewrite insert_app_r_alt by lia. rewrite Nat.sub_diag, <- app_assoc. done.
Qed.
Lemma place_eq ts rs : (length ts <= length rs)%nat -> place 0 ts rs = (robot_of <$> ts) ++ drop (length ts) rs.
Proof. apply (place_app ts []). Qed.

(** What [strtok_r] has left: no token, or a token and the rest of the string. *)
Record at_token (fuel : nat) (m : ram_t) (colon task save : Z) (t l' : list Z) : Prop := {
  at_task : 0 < task;
  at_chars : cstr m task t;
  at_nonempty : (0 < length t)%nat;
  at_save : 0 < save;
  at_rest : cstr m save l';
  at_fuel : (length l' < fuel)%nat;
  at_apart : apart colon 1 save (len l')
}.
Definition found (fuel : nat) (m : ram_t) (colon task save : Z) (ts : list (list Z)) : Prop :=
  cstr m colon [58] /\
  ((task = 0 /\ ts = []) \/ exists t l', ts = t :: tokens [58] l' /\ at_token fuel m colon task save t l').

Lemma token_bytes m a t :
  cstr m a t -> (0 < length t)%nat -> m a = nth 0 (t ++ [0]) 0 /\ m (a + 1) = nth 1 (t ++ [0]) 0.
Proof.
  intros [H _] Hl. destruct t as [|c0 t]; [simpl in Hl; lia|]. simpl in H. destruct H as [H0 H]. split; [done|].
  destruct t as [|c1 t]; simpl in H; by destruct H.
Qed.

Lemma next_token fuel m s colon save l :
  let start := if s =? 0 then save else s in
  (1 < fuel)%nat -> 0 < colon -> cstr m colon [58] -> 0 < start -> cstr m start l -> (length l < fuel)%nat ->
  apart colon 1 start (len l) ->
  exists task save' m', strtok_r fuel s colon save m = Ok ((task, save'), m') /\
    found fuel m' colon task save' (tokens [58] l).
Proof.
  intros start Hf Hc Hcol Hs Hl Fl Hap.
  destruct (strtok_r_ok m fuel s colon save [58] l Hc Hcol Hf Hs Hl Fl) as [[E E']|(t & p & sv & l' & m' & E & T)].
  - exists 0, (start + len l), m. rewrite E. split; [done|]. split; [done|]. by left.
  - exists p, sv, m'. split; [done|]. destruct T as [T1 T2 T3 T4 T5 T6 T7 T8]. fold start in T1, T3, T6. split.
    { destruct Hcol as [Hh Hch]. split; [|done]. apply (holds_agree m); [|done]. simpl. intros x Hx. apply T6.
      unfold apart in Hap. lia. }
    right. exists t, l'. split; [done|]. split; [lia|done| |lia|done|lia|unfold apart in *; lia].
    by eapply tokens_nonempty.
Qed.

Lemma parse_loop_ok fuel colon n : (1 < fuel)%nat -> 0 < colon -> forall m i task save ts rs,
  found fuel m colon task save ts ->
  exists m', parse_loop fuel n i task save colon rs m = Ok (place i (take n ts) rs, m').
Proof.
  intros Hf Hc. induction n as [|n IH]; intros m i task save ts rs [Hcol Hfd]; [by exists m|]. simpl.
  destruct Hfd as [[-> ->]|(t & l' & -> & [A1 A2 A3 A4 A5 A6 A7])]; [by exists m|].
  rewrite (proj2 (Z.eqb_neq task 0)) by lia. destruct (token_bytes m task t A2 A3) as [B0 B1].
  erewrite bind_ok by reflexivity. erewrite bind_ok by reflexivity. rewrite B0, B1.
  destruct (next_token fuel m 0 colon save l') as (task' & save' & m1 & E & Hfd); [done..|].
  cbv zeta. rewrite (bind_ok _ _ _ _ _ E). by apply IH.
Qed.

Lemma parse_robot_tasks_ok fuel task_copy colon task_string l robots n m :
  (256 < fuel)%nat -> (length l < fuel)%nat -> 0 < task_copy -> 0 < colon -> task_string <> 0 ->
  cstr m task_string l -> cstr m colon [58] -> apart colon 1 task_copy 255 ->
  task_copy <= task_string \/ task_string + len l <= task_copy ->
  exists m', parse_robot_tasks fuel task_copy colon task_string robots n m =
    Ok (place 0 (take (Z.to_nat n) (tokens [58] (take 255 l))) robots, m').
Proof.
  intros Hf Hfl Ht Hc Hs Hl Hcol Hap Hov. unfold parse_robot_tasks.
  destruct (strlcpy_ok m fuel task_copy task_string 256 l) as (m1 & E & Hcp & Hfr); [lia..|done|done|done|].
  rewrite (bind_ok _ _ _ _ _ E). change (Z.to_nat (256 - 1)) with 255%nat in Hcp.
  assert (Hlen : (length (take 255 l) <= 255)%nat) by (rewrite length_take; lia).
  assert (Ht0 : (if task_copy =? 0 then 0 else task_copy) = task_copy) by (case_cmp; lia).
  destruct (next_token fuel m1 task_copy colon 0 (take 255 l)) as (task & save & m2 & E2 & Hfd).
  - lia.
  - done.
  - destruct Hcol as [Hh Hch]. split; [|done]. apply (holds_agree m); [|done]. simpl. intros x Hx. apply Hfr.
    unfold within, apart in *. case_cmp; lia.
  - lia.
  - by rewrite Ht0.
  - lia.
  - rewrite Ht0. unfold apart in *. lia.
  - rewrite (bind_ok _ _ _ _ _ E2). apply parse_loop_ok; [lia|done..].
Qed.

(** A task list as the simulator is given it: "2A:4C:2B". *)
Definition task_text (t : Z * Z) : list Z := [48 + t.1; t.2].
Fixpoint join (ts : list (list Z)) : list Z :=
  match ts with
  | [] => []
  | [t] => t
  | t :: ts' => t ++ 58 :: join ts'
  end.
Definition is_task (t : Z * Z) : Prop := 0 <= t.1 <= 9 /\ 0 < t.2 < 128 /\ t.2 <> 58.
Definition task_robot (t : Z * Z) : robot := setRobot None t.1 t.2 ROW_W COL_W t.1 0 0.

Lemma split_join ts :
  ts <> [] -> Forall (Forall (fun c => negb (in_set [58] c) = true)) ts -> split [58] (join ts) = ts.
Proof.
  intros Hne H. induction H as [|t ts Ht H IH]; [done|]. destruct ts as [|t' ts].
  - simpl. rewrite <- (app_nil_r t) at 1. rewrite split_token; [done|done|by left].
  - change (join (t :: t' :: ts)) with (t ++ 58 :: join (t' :: ts)).
    rewrite split_token; [|done|right; by exists 58, (join (t' :: ts))]. f_equal.
    change (split [58] (58 :: join (t' :: ts))) with ([] :: split [58] (join (t' :: ts))). cbn [tail]. by apply IH.
Qed.

Lemma tokens_join ts :
  Forall (fun t => nonempty t = true /\ Forall (fun c => negb (in_set [58] c) = true) t) ts ->
  tokens [58] (join ts) = ts.
Proof.
  intros H. destruct ts as [|t ts]; [done|]. apply Forall_and in H as [Hn Hc]. unfold tokens.
  rewrite split_join by done.
  apply filter_keep. by apply Forall_forall.
Qed.

Lemma task_text_token t :
  is_task t -> nonempty (task_text t) = true /\ Forall (fun c => negb (in_set [58] c) = true) (task_text t).
Proof.
  intros (H1 & H2 & H3). split; [done|]. unfold task_text. rewrite !Forall_cons. unfold in_set.
  split_and!; [by rewrite bool_decide_eq_false_2 by (rewrite list_elem_of_singleton; simpl; lia)..|by constructor].
Qed.

Lemma robot_of_task t : is_task t -> robot_of (task_text t) = task_robot t.
Proof.
  intros (H1 & H2 & H3). unfold robot_of, task_text, task_robot. simpl.
  rewrite !wraps_small by lia. f_equal; lia.
Qed.

Lemma length_join ts : Forall (fun t => length t = 2%nat) ts -> (length (join ts) <= 3 * length ts - 1)%nat.
Proof.
  induction 1 as [|t ts Ht H IH]; [done|]. destruct ts as [|t' ts]; [simpl; lia|].
  change (join (t :: t' :: ts)) with (t ++ 58 :: join (t' :: ts)). rewrite length_app. simpl length in *. lia.
Qed.

(** ** The names *)

Lemma robot_name_ok i :
  (i < 100)%nat -> exists out, robot_name i = Ok (text (82 :: out)) /\ decimal (Z.of_nat i + 1) out.
Proof.
  intros Hi. destruct (vprintf_decimal (Z.of_nat i + 1)) as (out & Hd & E). rewrite wraps_small in Hd by lia.
  exists out. split; [|done]. unfold robot_name, printf, vprintf. change (str "R%d") with [82; 37; 100].
  change (length [82%Z; 37%Z; 100%Z] + 32)%nat with (S (S 33)).
  rewrite vprintf_char by lia. rewrite E. simpl. rewrite app_nil_r.
  destruct (decimal_chars _ _ Hd) as [_ Hl]. unfold mbind, outcome_bind, mret, outcome_ret. do 3 f_equal.
  change (Z.to_nat (ROBOT_NAME_SIZE - 1)) with 15%nat. rewrite take_ge; [done|simpl; lia].
Qed.

Lemma name_robots_ok rs i :
  (i + length rs <= 100)%nat ->
  exists rs', name_robots i rs = Ok rs' /\ length rs' = length rs /\
    forall k rb, rs !! k = Some rb ->
      exists out, decimal (Z.of_nat (i + k) + 1) out /\ rs' !! k = Some (set_name rb (Some (text (82 :: out)))).
Proof.
  revert i. induction rs as [|rb rs IH]; intros i H; simpl in *; [by exists []|].
  destruct (robot_name_ok i ltac:(lia)) as (out & E & Hd). rewrite E, obind_ok.
  destruct (IH (S i) ltac:(lia)) as (rs' & E' & Hl & Hk). rewrite E', obind_ok.
  eexists. split; [reflexivity|]. split; [simpl; lia|]. intros [|k] rb' Hr; simpl in *.
  - injection Hr as <-. exists out. by rewrite Nat.add_0_r.
  - destruct (Hk k rb' Hr) as (out' & Hd' & Hr'). exists out'. by rewrite Nat.add_succ_r.
Qed.

(** ** Properties *)

(** What [snprintf] prints for "%d" is read back by [atoi]: every 32-bit integer survives the
    round trip through a buffer of 16 bytes. *)
Theorem atoi_reads_snprintf n a m fuel :
  - 2 ^ 31 <= n < 2 ^ 31 -> 0 < a -> (13 <= fuel)%nat ->
  exists r m', snprintf a 16 (str "%d") [Arg32 n] m = Ok (r, m') /\ atoi fuel a m' = Ok (n, m').
Proof.
  intros Hn Ha Hf. destruct (printf_decimal n) as (out & E & Hd). rewrite wraps_small in Hd by lia.
  destruct (decimal_chars n out Hd) as [Hc Hl].
  destruct (vsnprintf_ok a 16 (str "%d") [Arg32 n] out m E) as (m' & Em & Hh & _); [lia|lia|].
  rewrite take_ge in Hh by (change (Z.to_nat (16 - 1)) with 15%nat; lia).
  exists (len out), m'. split; [exact Em|]. rewrite (atoi_ok m' fuel a out); [by rewrite (atoi_decimal n)|lia|done|lia].
Qed.
Lemma atoi_reads_snprintf_witness :
  exists r m', snprintf 64 16 (str "%d") [Arg32 (-2147483648)] (fun _ => 0) = Ok (r, m') /\ atoi 13 64 m' = Ok (-2147483648, m').
Proof. apply (atoi_reads_snprintf (-2147483648) 64 (fun _ => 0) 13); [split; [discriminate|reflexivity]|reflexivity|reflexivity]. Defined.

(** Started with a number and as many tasks (at most 85, an item digit and a dock each,
    separated by colons), the simulator sets up exactly these robots: the k-th has the item and
    dock of the k-th task and the name "R" with the number k, and every robot is at the waiting
    place with no load and its task not done, as the theorems on its runs ask for. *)
Theorem setup_creates_robots fuel task_copy colon argv1 argv2 junk ts num m :
  (256 < fuel)%nat -> 0 < task_copy -> 0 < colon -> argv1 <> 0 -> argv2 <> 0 ->
  Forall is_task ts -> (length ts <= 85)%nat -> decimal (len ts) num -> length (junk (len ts)) = length ts ->
  cstr m argv1 num -> cstr m argv2 (join (task_text <$> ts)) -> cstr m colon [58] ->
  apart colon 1 task_copy 255 -> task_copy + 256 <= argv2 \/ argv2 + 256 <= task_copy ->
  exists rs m', setup_robots fuel task_copy colon argv1 argv2 junk m = Ok ((len ts, rs), m') /\
    length rs = length ts /\ Forall fresh rs /\
    forall k t, ts !! k = Some t -> exists out, decimal (Z.of_nat k + 1) out /\
      rs !! k = Some (set_name (task_robot t) (Some (text (82 :: out)))).
Proof.
  intros Hf Htc Hc H1 H2 Ht Hl Hd Hj A1 A2 Ac Hap Hov.
  assert (Hlen : (length (join (task_text <$> ts)) <= 254)%nat).
  { pose proof (length_join (task_text <$> ts)) as H. rewrite length_fmap in H. rewrite H; [lia|].
    apply Forall_fmap, Forall_forall. done. }
  assert (Htok : tokens [58] (join (task_text <$> ts)) = task_text <$> ts).
  { apply tokens_join, Forall_fmap. eapply Forall_impl; [done|]. apply task_text_token. }
  assert (Hrob : robot_of <$> (task_text <$> ts) = task_robot <$> ts).
  { rewrite <- list_fmap_compose. apply list_fmap_ext. intros k t Hk. apply robot_of_task.
    by eapply Forall_lookup_1. }
  destruct (decimal_chars _ _ Hd) as [_ Hnl]. unfold setup_robots.
  rewrite (bind_ok _ _ _ _ _ (atoi_ok m fuel argv1 num H1 A1 ltac:(lia))).
  rewrite (atoi_decimal (len ts)) by (done || lia).
  destruct (parse_robot_tasks_ok fuel task_copy colon argv2 (join (task_text <$> ts)) (junk (len ts)) (len ts) m)
    as [m1 E]; [lia|lia|done..|lia|]. rewrite (bind_ok _ _ _ _ _ E).
  rewrite (take_ge (join _)) by lia. rewrite Htok, take_ge by (rewrite length_fmap; lia).
  rewrite place_eq by (rewrite length_fmap; lia). rewrite Hrob, drop_ge, app_nil_r by (rewrite length_fmap; lia).
  destruct (name_robots_ok (task_robot <$> ts) 0) as (rs & En & Hrl & Hk); [rewrite length_fmap; lia|].
  rewrite length_fmap in Hrl.
  assert (Hrs : forall k t, ts !! k = Some t -> exists out, decimal (Z.of_nat k + 1) out /\
      rs !! k = Some (set_name (task_robot t) (Some (text (82 :: out))))).
  { intros k t Hkt. apply (Hk k). by rewrite list_lookup_fmap, Hkt. }
  exists rs, m1. split; [by unfold lift, mbind, K_bind; rewrite En|]. split; [done|]. split; [|done].
  apply Forall_lookup. intros k rb Hrb. destruct (lookup_lt_is_Some_2 ts k) as [t Hkt].
  { apply lookup_lt_Some in Hrb. lia. }
  destruct (Hrs k t Hkt) as (out & _ & E'). rewrite Hrb in E'. injection E' as ->. done.
Qed.
Definition example_ram : ram_t := fun x =>
  if x <? 200 then ram_of 100 [50] x
  else if x <? 1000 then ram_of 500 [58] x else ram_of 1000 (str "2A:4C") x.
Lemma setup_creates_robots_witness :
  exists rs m', setup_robots 300 2000 500 100 1000 (fun n => replicate (Z.to_nat n) (task_robot (0, 0))) example_ram =
      Ok ((2, rs), m') /\
    length rs = 2%nat /\ Forall fresh rs /\
    forall k t, [(2, 65); (4, 67)] !! k = Some t -> exists out, decimal (Z.of_nat k + 1) out /\
      rs !! k = Some (set_name (task_robot t) (Some (text (82 :: out)))).
Proof.
  apply (setup_creates_robots 300 2000 500 100 1000 _ [(2, 65); (4, 67)] [50] example_ram); try lia.
  - repeat constructor; discriminate.
  - simpl. lia.
  - exists [50]. split; [reflexivity|]. split; [reflexivity|]. split; [repeat constructor|simpl; lia].
  - reflexivity.
  - split; [vm_compute; tauto|repeat constructor].
  - split; [vm_compute; tauto|repeat constructor].
  - split; [vm_compute; tauto|repeat constructor].
  - unfold apart. lia.
Defined.
