(* ===== verification/Hash.v ===== *)
(** Hash tables (lib/kernel/hash.c) refine sets.

    A bucket is the list of its elements: the operations of list.c that the table uses
    are those that DListOrd.v proves to act on such lists.  An element is its identity
    (the address of the hash_elem); the hash and less callbacks are functions of it.
    Whether an allocation succeeds is an argument of the operations that allocate. *)

From S2P Require Import Prelude KMonad CString.

(** ** Operations *)

Section Hash.
Context {E : Type} `{EqDecision E} (hash_func : E -> Z) (less : E -> E -> bool).

Record hash := mkHash { elem_cnt : Z; bucket_cnt : Z; buckets : list (list E) }.

Definition find_bucket (h : hash) (e : E) : nat := Z.to_nat (Z.land (hash_func e) (u32 (bucket_cnt h - 1))).

Fixpoint find_elem (bucket : list E) (e : E) : option E :=
  match bucket with
  | [] => None
  | hi :: bucket' => if negb (less hi e) && negb (less e hi) then Some hi else find_elem bucket' e
  end.

Definition turn_off_least_1bit (x : Z) : Z := Z.land x (u32 (x - 1)).
Definition is_power_of_2 (x : Z) : bool := negb (x =? 0) && (turn_off_least_1bit x =? 0).
Fixpoint power_loop (fuel : nat) (n : Z) : outcome Z :=
  match fuel with
  | O => NoFuel
  | S fuel' => if negb (is_power_of_2 n) then power_loop fuel' (turn_off_least_1bit n) else Ok n
  end.

Definition new_count (cnt : Z) : outcome Z :=
  let n := cnt / 2 in
  power_loop 33 (if n <? 4 then 4 else n).

(** Moving the elements, the old table without its buckets being in [h]. *)
Definition move_elem (h : hash) (e : E) : hash :=
  mkHash (elem_cnt h) (bucket_cnt h) (alter (fun b => e :: b) (find_bucket h e) (buckets h)).
Definition rehash (malloc_ok : bool) (h : hash) : outcome hash :=
  match new_count (elem_cnt h) with
  | Ok n =>
      if n =? bucket_cnt h then Ok h
      else if malloc_ok then
        Ok (foldl (foldl move_elem) (mkHash (elem_cnt h) n (replicate (Z.to_nat n) [])) (buckets h))
      else Ok h
  | Panic => Panic
  | NoFuel => NoFuel
  end.

Definition insert_elem (h : hash) (bucket : nat) (e : E) : hash :=
  mkHash (u32 (elem_cnt h + 1)) (bucket_cnt h) (alter (fun b => e :: b) bucket (buckets h)).
Definition remove_elem (h : hash) (e : E) : hash :=
  mkHash (u32 (elem_cnt h - 1)) (bucket_cnt h) (filter (fun x => x <> e) <$> buckets h).

Definition bucket_at (h : hash) (i : nat) : list E := default [] (buckets h !! i).

(** The elements given to the destructor, in order, and the empty table. *)
Definition hash_clear (destructor : bool) (h : hash) : list E * hash :=
  (if destructor then concat (buckets h) else [],
   mkHash 0 (bucket_cnt h) ((fun _ => []) <$> buckets h)).
(** The elements given to the destructor before the buckets are freed. *)
Definition hash_destroy (destructor : bool) (h : hash) : list E :=
  if destructor then fst (hash_clear destructor h) else [].
Definition hash_init (malloc_ok : bool) : option hash :=
  if malloc_ok then Some (snd (hash_clear false (mkHash 0 4 (replicate 4 [])))) else None.

Definition hash_insert (malloc_ok : bool) (h : hash) (new : E) : outcome (option E * hash) :=
  let bucket := find_bucket h new in
  let old := find_elem (bucket_at h bucket) new in
  let h := match old with None => insert_elem h bucket new | Some _ => h end in
  match rehash malloc_ok h with Ok h => Ok (old, h) | Panic => Panic | NoFuel => NoFuel end.
Definition hash_replace (malloc_ok : bool) (h : hash) (new : E) : outcome (option E * hash) :=
  let bucket := find_bucket h new in
  let old := find_elem (bucket_at h bucket) new in
  let h := match old with Some o => remove_elem h o | None => h end in
  let h := insert_elem h bucket new in
  match rehash malloc_ok h with Ok h => Ok (old, h) | Panic => Panic | NoFuel => NoFuel end.
Definition hash_find (h : hash) (e : E) : option E := find_elem (bucket_at h (find_bucket h e)) e.
Definition hash_delete (malloc_ok : bool) (h : hash) (e : E) : outcome (option E * hash) :=
  match find_elem (bucket_at h (find_bucket h e)) e with
  | Some found =>
      match rehash malloc_ok (remove_elem h found) with
      | Ok h => Ok (Some found, h) | Panic => Panic | NoFuel => NoFuel
      end
  | None => Ok (None, h)
  end.

(** The elements that [hash_apply] calls the action for. *)
Definition hash_apply (h : hash) : list E := concat (buckets h).

Definition hash_size (h : hash) : Z := elem_cnt h.
Definition hash_empty (h : hash) : bool := elem_cnt h =? 0.

(** An iterator: the bucket and the position of the element in it, -1 at the head of
    the list; no element at the end of the table. *)
Record hash_iterator := mkIter { i_bucket : nat; i_elem : option Z }.
Definition hash_first : hash_iterator := mkIter 0 (Some (-1)).
Definition hash_cur (h : hash) (i : hash_iterator) : option E :=
  p ← i_elem i; bucket_at h (i_bucket i) !! Z.to_nat p.
Fixpoint skip_empty (fuel : nat) (h : hash) (b : nat) (p : Z) : outcome hash_iterator :=
  match fuel with
  | O => NoFuel
  | S fuel' =>
      if p =? len (bucket_at h b) then
        if bucket_cnt h <=? Z.of_nat (S b) then Ok (mkIter (S b) None) else skip_empty fuel' h (S b) 0
      else Ok (mkIter b (Some p))
  end.
Definition hash_next (h : hash) (i : hash_iterator) : outcome hash_iterator :=
  match i_elem i with
  | Some p => skip_empty (S (Z.to_nat (bucket_cnt h))) h (i_bucket i) (p + 1)
  | None => Panic
  end.
(** The iteration idiom of hash_first. *)
Fixpoint iterate (fuel : nat) (h : hash) (i : hash_iterator) : outcome (list E) :=
  match fuel with
  | O => NoFuel
  | S fuel' =>
      match hash_next h i with
      | Ok i' =>
          match hash_cur h i' with
          | Some e => match iterate fuel' h i' with Ok l => Ok (e :: l) | r => r end
          | None => Ok []
          end
      | Panic => Panic
      | NoFuel => NoFuel
      end
  end.

End Hash.
Arguments hash : clear implicits.

(** Hash functions. *)
Definition FNV_32_PRIME : Z := 16777619.
Definition FNV_32_BASIS : Z := 2166136261.
Definition fnv (hash byte : Z) : Z := Z.lxor (u32 (hash * FNV_32_PRIME)) byte.
Fixpoint bytes_loop (buf : Z) (size : nat) (hash : Z) : K ram_t Z :=
  match size with
  | O => mret hash
  | S size' => c ← load buf; bytes_loop (buf + 1) size' (fnv hash c)
  end.
Definition hash_bytes (buf size : Z) : K ram_t Z :=
  ASSERT (negb (buf =? 0));;
  bytes_loop buf (Z.to_nat size) FNV_32_BASIS.
Fixpoint string_loop (fuel : nat) (s hash : Z) : K ram_t Z :=
  match fuel with
  | O => no_fuel
  | S fuel' => c ← load s; if c =? 0 then mret hash else string_loop fuel' (s + 1) (fnv hash c)
  end.
Definition hash_string (fuel : nat) (s : Z) : K ram_t Z :=
  ASSERT (negb (s =? 0));;
  string_loop fuel s FNV_32_BASIS.
(** The four bytes of the argument on the stack, the lowest first. *)
Definition hash_int (i : Z) : Z :=
  foldl fnv FNV_32_BASIS ((fun k => Z.land (Z.shiftr (u32 i) (8 * k)) 255) <$> [0; 1; 2; 3]).

(** ** The number of buckets *)

Lemma land_top a b : 0 < a -> 0 < b -> Z.log2 a = Z.log2 b -> 0 < Z.land a b /\ Z.log2 (Z.land a b) = Z.log2 a.
Proof.
  intros Ha Hb E.
  assert (Hbit : Z.testbit (Z.land a b) (Z.log2 a) = true).
  { rewrite Z.land_spec, Z.bit_log2, E by lia. by rewrite Z.bit_log2. }
  assert (H0 : 0 <= Z.land a b) by (apply Z.land_nonneg; lia).
  assert (Hp : 0 < Z.land a b).
  { destruct (Z.eq_dec (Z.land a b) 0) as [E0|]; [|lia]. rewrite E0, Z.testbit_0_l in Hbit. done. }
  split; [done|]. pose proof (Z.log2_land a b). apply Z.le_antisymm; [lia|].
  destruct (Z_lt_le_dec (Z.log2 (Z.land a b)) (Z.log2 a)) as [Hl|]; [|done].
  rewrite (Z.bits_above_log2 (Z.land a b)) in Hbit by lia. done.
Qed.

Lemma log2_pred x : 0 < x -> x <> 2 ^ Z.log2 x -> 0 < x - 1 /\ Z.log2 (x - 1) = Z.log2 x.
Proof.
  intros Hx Hn. pose proof (Z.log2_spec x Hx) as Hs. pose proof (Z.log2_nonneg x).
  assert (0 < 2 ^ Z.log2 x) by (apply Z.pow_pos_nonneg; lia). split; [lia|]. apply Z.log2_unique; lia.
Qed.

Lemma turn_off_spec x k :
  0 < x < 2 ^ 32 -> 0 <= k -> x mod 2 ^ k = 0 ->
  (is_power_of_2 x = true /\ x = 2 ^ Z.log2 x) \/
  (is_power_of_2 x = false /\ 0 < turn_off_least_1bit x < 2 ^ 32 /\
   Z.log2 (turn_off_least_1bit x) = Z.log2 x /\ turn_off_least_1bit x mod 2 ^ (k + 1) = 0).
Proof.
  intros Hx Hk Hm. unfold is_power_of_2, turn_off_least_1bit. rewrite wrapu_small by lia.
  rewrite (proj2 (Z.eqb_neq x 0)) by lia. cbn [negb andb].
  destruct (Z.eq_dec x (2 ^ Z.log2 x)) as [E|Hn].
  - left. split; [|done]. apply Z.eqb_eq. rewrite E, Z.sub_1_r, <- Z.ones_equiv, Z.land_ones by apply Z.log2_nonneg.
    apply Z.mod_same. apply Z.pow_nonzero; [done|apply Z.log2_nonneg].
  - right. destruct (log2_pred x ltac:(lia) Hn) as [Hp El].
    destruct (land_top x (x - 1) ltac:(lia) Hp ltac:(done)) as [Hl E].
    split; [apply Z.eqb_neq; lia|]. split; [|split; [done|]].
    { split; [done|]. apply Z.log2_lt_pow2; [done|]. rewrite E. apply Z.log2_lt_pow2; lia. }
    apply Z.bits_inj'. intros i Hi. rewrite Z.bits_0. destruct (Z_lt_le_dec i (k + 1)).
    2: { by rewrite Z.mod_pow2_bits_high by lia. }
    rewrite Z.mod_pow2_bits_low by lia. rewrite Z.land_spec.
    assert (Hlow : forall j, 0 <= j < k -> Z.testbit x j = false).
    { intros j Hj. rewrite <- (Z.mod_pow2_bits_low x k j) by lia. by rewrite Hm, Z.bits_0. }
    destruct (Z_lt_le_dec i k); [by rewrite Hlow by lia|]. replace i with k by lia.
    destruct (Z.testbit x k) eqn:Eb; [|done]. cbn [andb].
    apply Z.testbit_true in Eb; [|done]. apply Z.testbit_false; [done|].
    assert (Hpk : 0 < 2 ^ k) by (apply Z.pow_pos_nonneg; lia).
    replace ((x - 1) / 2 ^ k) with (x / 2 ^ k - 1).
    + pose proof (Z.div_mod (x / 2 ^ k) 2 ltac:(done)). rewrite Eb in H.
      replace (x / 2 ^ k - 1) with (0 + (x / 2 ^ k / 2) * 2) by lia. by rewrite Z.mod_add.
    + pose proof (Z.div_mod x (2 ^ k) ltac:(lia)) as Hd. rewrite Hm in Hd.
      apply Z.div_unique with (2 ^ k - 1); lia.
Qed.

Lemma power_loop_ok fuel x k :
  0 < x < 2 ^ 32 -> 0 <= k -> x mod 2 ^ k = 0 -> 32 < k + Z.of_nat fuel -> power_loop fuel x = Ok (2 ^ Z.log2 x).
Proof.
  revert x k. induction fuel as [|fuel IH]; intros x k Hx Hk Hm Hf; simpl.
  - exfalso. assert (2 ^ 32 <= 2 ^ k) by (apply Z.pow_le_mono_r; lia). rewrite Z.mod_small in Hm; lia.
  - destruct (turn_off_spec x k Hx Hk Hm) as [[E Ex]|(E & Hr & El & Hm')]; rewrite E; cbn [negb].
    + by rewrite <- Ex.
    + rewrite (IH _ (k + 1)) by (done || lia). by rewrite El.
Qed.

(** The count that fits the number of elements. *)
Definition best_count (cnt : Z) : Z := 2 ^ Z.log2 (Z.max 4 (cnt / 2)).

Lemma new_count_ok cnt : 0 <= cnt < 2 ^ 32 -> new_count cnt = Ok (best_count cnt).
Proof.
  intros H. unfold new_count, best_count.
  replace (if cnt / 2 <? 4 then 4 else cnt / 2) with (Z.max 4 (cnt / 2)) by (case_cmp; lia).
  apply power_loop_ok with 0; [|done|by rewrite Z.mod_1_r|done].
  split; [lia|]. assert (cnt / 2 < 2 ^ 32) by (apply Z.div_lt_upper_bound; lia). lia.
Qed.

Lemma best_count_power cnt : 0 <= cnt < 2 ^ 32 -> exists k, 2 <= k < 32 /\ best_count cnt = 2 ^ k.
Proof.
  intros H. exists (Z.log2 (Z.max 4 (cnt / 2))). split; [|done].
  assert (cnt / 2 < 2 ^ 32) by (apply Z.div_lt_upper_bound; lia). split.
  - change 2 with (Z.log2 4) at 1. apply Z.log2_le_mono. lia.
  - apply Z.log2_lt_pow2; lia.
Qed.

(** ** The table *)

(** What the table relies on: [less] has an equivalence of incomparable elements, and
    equivalent elements have the same hash value. *)
Class HashCallbacks {E} (hash_func : E -> Z) (less : E -> E -> bool) : Prop := {
  hc_range e : 0 <= hash_func e < 2 ^ 32;
  hc_equiv : Equivalence (fun a b => negb (less a b) && negb (less b a) = true);
  hc_hash a b : negb (less a b) && negb (less b a) = true -> hash_func a = hash_func b
}.

Section HashOk.
Context {E : Type} `{EqDecision E} (hash_func : E -> Z) (less : E -> E -> bool).
Context `{HC : !HashCallbacks hash_func less}.

Abbreviation eqv a b := (negb (less a b) && negb (less b a) = true).
Abbreviation find_bucket := (find_bucket hash_func).
Abbreviation find_elem := (find_elem less).
Abbreviation move_elem := (move_elem hash_func).
Abbreviation rehash := (rehash hash_func).
Implicit Types (h : hash E) (e o : E) (l : list E).

Definition elems h : list E := concat (buckets h).

Record shape h : Prop := {
  sh_power : exists k, 2 <= k < 32 /\ bucket_cnt h = 2 ^ k;
  sh_len : len (buckets h) = bucket_cnt h;
  sh_place i b e : buckets h !! i = Some b -> e ∈ b -> find_bucket h e = i
}.
Record distinct l : Prop := {
  di_nodup : NoDup l;
  di_eqv a b : a ∈ l -> b ∈ l -> eqv a b -> a = b
}.
Record table_ok h : Prop := {
  tb_shape : shape h;
  tb_cnt : elem_cnt h = len (elems h);
  tb_distinct : distinct (elems h)
}.

#[local] Instance distinct_perm : Proper (Permutation ==> iff) distinct.
Proof.
  assert (H : forall l l', l ≡ₚ l' -> distinct l -> distinct l').
  { intros l l' E' [H1 H2]. split; [by rewrite <- E'|]. intros a b Ha Hb. rewrite <- E' in Ha, Hb. by apply H2. }
  intros l l' E'. split; by apply H.
Qed.

Lemma find_elem_Some l e o : find_elem l e = Some o -> o ∈ l /\ eqv o e.
Proof.
  induction l as [|x l IH]; simpl; [done|]. destruct (negb (less x e) && _) eqn:Ex.
  - intros [= ->]. split; [constructor|done].
  - intros H. destruct (IH H). split; [by constructor|done].
Qed.
Lemma find_elem_None l e o : find_elem l e = None -> o ∈ l -> ~ eqv o e.
Proof.
  induction l as [|x l IH]; simpl; [by intros _ ?%elem_of_nil|]. destruct (negb (less x e) && _) eqn:Ex; [done|].
  intros H [->|Ho]%elem_of_cons; [by rewrite Ex|by apply IH].
Qed.

(** A search in equal sets of distinct elements has equal results. *)
Lemma find_elem_distinct l e o : distinct l -> o ∈ l -> eqv o e -> find_elem l e = Some o.
Proof.
  intros [_ D] Ho He. destruct (find_elem l e) as [o'|] eqn:Ef; [|by destruct (find_elem_None l e o Ef Ho)].
  apply find_elem_Some in Ef as [Ho' He']. f_equal. apply D; [done..|].
  destruct hc_equiv as [_ Hs Ht]. by eapply Ht; [|apply Hs].
Qed.
Lemma find_elem_same l l' e :
  distinct l' -> (forall o, o ∈ l -> o ∈ l') -> (forall o, o ∈ l' -> eqv o e -> o ∈ l) -> find_elem l e = find_elem l' e.
Proof.
  intros D H1 H2. destruct (find_elem l e) as [o|] eqn:Ef; symmetry.
  - apply find_elem_Some in Ef as [Ho He]. apply find_elem_distinct; auto.
  - destruct (find_elem l' e) as [o|] eqn:Ef'; [|done]. apply find_elem_Some in Ef' as [Ho He].
    by destruct (find_elem_None l e o Ef (H2 o Ho He)).
Qed.

Lemma find_bucket_lt h e : shape h -> (find_bucket h e < length (buckets h))%nat.
Proof.
  intros [(k & Hk & Ek) Hl _]. unfold Hash.find_bucket. rewrite wrapu_small.
  - rewrite Ek, Z.sub_1_r, <- Z.ones_equiv, Z.land_ones by lia.
    pose proof (Z.mod_pos_bound (hash_func e) (2 ^ k) ltac:(apply Z.pow_pos_nonneg; lia)). lia.
  - rewrite Ek. assert (0 < 2 ^ k) by (apply Z.pow_pos_nonneg; lia).
    assert (2 ^ k < 2 ^ 32) by (apply Z.pow_lt_mono_r; lia). lia.
Qed.
Lemma find_bucket_eqv h a b : eqv a b -> find_bucket h a = find_bucket h b.
Proof. intros H. unfold Hash.find_bucket. by rewrite (hc_hash a b H). Qed.

Lemma elem_bucket h e : e ∈ elems h <-> exists i b, buckets h !! i = Some b /\ e ∈ b.
Proof.
  unfold elems. rewrite list_elem_of_In, in_concat. split.
  - intros (b & Hb & He). rewrite <- list_elem_of_In in Hb. rewrite <- list_elem_of_In in He. apply list_elem_of_lookup in Hb as [i Hi]. eauto.
  - intros (i & b & Hi & He). exists b. rewrite <- !list_elem_of_In. split; [by eapply list_elem_of_lookup_2|done].
Qed.
Lemma bucket_elems h e : shape h ->
  (forall o, o ∈ bucket_at h (find_bucket h e) -> o ∈ elems h) /\
  (forall o, o ∈ elems h -> eqv o e -> o ∈ bucket_at h (find_bucket h e)).
Proof.
  intros S. unfold bucket_at. split; intros o.
  - destruct (buckets h !! _) as [b|] eqn:Eb; simpl; [|by intros ?%elem_of_nil]. intros Ho. apply elem_bucket. eauto.
  - intros (i & b & Hi & Ho)%elem_bucket He. rewrite <- (find_bucket_eqv h o e He).
    by rewrite (sh_place h S i b o Hi Ho), Hi.
Qed.

(** A search in the bucket is a search in the table. *)
Lemma find_in_bucket h e :
  shape h -> distinct (elems h) -> find_elem (bucket_at h (find_bucket h e)) e = find_elem (elems h) e.
Proof. intros S D. destruct (bucket_elems h e S). by apply find_elem_same. Qed.

(** *** Changes of the table *)

Lemma concat_alter (bs : list (list E)) i e :
  (i < length bs)%nat -> concat (alter (fun b => e :: b) i bs) ≡ₚ e :: concat bs.
Proof.
  revert i. induction bs as [|b bs IH]; intros [|i] H; simpl in H; try lia; [done|].
  change (b ++ concat (alter (fun b => e :: b) i bs) ≡ₚ e :: b ++ concat bs).
  rewrite IH by lia. by rewrite Permutation_middle.
Qed.
Lemma concat_filter (P : E -> Prop) `{!forall x, Decision (P x)} (bs : list (list E)) :
  concat (filter P <$> bs) = filter P (concat bs).
Proof.
  induction bs as [|b bs IH]; [done|].
  change (filter P b ++ concat (filter P <$> bs) = filter P (b ++ concat bs)). by rewrite filter_app, IH.
Qed.

(** Adding an element to its bucket, whatever becomes of the count. *)
Lemma add_shape h e c :
  shape h -> let h' := mkHash c (bucket_cnt h) (alter (fun b => e :: b) (find_bucket h e) (buckets h)) in
  shape h' /\ elems h' ≡ₚ e :: elems h.
Proof.
  intros S h'. pose proof (find_bucket_lt h e S) as Hlt. split; [|by apply concat_alter]. split.
  - apply S.
  - simpl. rewrite length_alter. apply S.
  - intros i b o Hi Ho. change (find_bucket h o = i). simpl in Hi.
    destruct (decide (find_bucket h e = i)) as [<-|Hne].
    + rewrite list_lookup_alter_eq in Hi. apply fmap_Some in Hi as (b' & Hb' & ->).
      apply elem_of_cons in Ho as [->|Ho]; [done|]. by apply (sh_place h S _ b').
    + rewrite list_lookup_alter_ne in Hi by done. by apply (sh_place h S _ b).
Qed.

Lemma remove_shape h o c :
  shape h -> let h' := mkHash c (bucket_cnt h) (filter (fun x => x <> o) <$> buckets h) in
  shape h' /\ elems h' = filter (fun x => x <> o) (elems h).
Proof.
  intros S h'. split; [|apply concat_filter]. split.
  - apply S.
  - simpl. rewrite length_fmap. apply S.
  - intros i b e Hi He. simpl in Hi. apply list_lookup_fmap_Some in Hi as (b' & -> & Hb').
    apply list_elem_of_filter in He as [_ He]. by apply (sh_place h S _ b').
Qed.

Lemma moves_shape l h : shape h -> 
  shape (foldl move_elem h l) /\ elems (foldl move_elem h l) ≡ₚ l ++ elems h /\
  elem_cnt (foldl move_elem h l) = elem_cnt h /\ bucket_cnt (foldl move_elem h l) = bucket_cnt h.
Proof.
  revert h. induction l as [|e l IH]; intros h S; simpl; [done|].
  destruct (add_shape h e (elem_cnt h) S) as [S' P]. fold (move_elem h e) in S', P.
  destruct (IH _ S') as (S'' & P' & C1 & C2). split_and!; [done| |done..]. rewrite P', P. by rewrite Permutation_middle.
Qed.
Lemma fold_moves h (bs : list (list E)) : foldl (foldl move_elem) h bs = foldl move_elem h (concat bs).
Proof. revert h. induction bs as [|b bs IH]; intros h; simpl; [done|]. by rewrite foldl_app, IH. Qed.

Lemma empty_shape c k : 2 <= k < 32 -> let h := mkHash c (2 ^ k) (replicate (Z.to_nat (2 ^ k)) []) in
  shape h /\ elems h = [].
Proof.
  intros Hk h. assert (0 < 2 ^ k) by (apply Z.pow_pos_nonneg; lia). split; [split|].
  - by exists k.
  - simpl. rewrite length_replicate. lia.
  - intros i b e Hi He. simpl in Hi. apply lookup_replicate in Hi as [-> _]. by apply elem_of_nil in He.
  - unfold elems. simpl. generalize (Z.to_nat (2 ^ k)). intros n. by induction n.
Qed.

Lemma rehash_ok ok h :
  shape h -> 0 <= elem_cnt h < 2 ^ 32 ->
  exists h', rehash ok h = Ok h' /\ shape h' /\ elems h' ≡ₚ elems h /\ elem_cnt h' = elem_cnt h /\
    (ok = true -> bucket_cnt h' = best_count (elem_cnt h)).
Proof.
  intros S Hc. unfold Hash.rehash. rewrite new_count_ok by done.
  destruct (Z.eqb_spec (best_count (elem_cnt h)) (bucket_cnt h)) as [Eb|Hne]; [by exists h|].
  destruct ok; [|by exists h]. eexists. split; [reflexivity|]. rewrite fold_moves.
  destruct (best_count_power (elem_cnt h) Hc) as (k & Hk & Ek). rewrite Ek in *.
  destruct (empty_shape (elem_cnt h) k Hk) as [S0 E0].
  destruct (moves_shape (concat (buckets h)) _ S0) as (S' & P & C1 & C2).
  split_and!; [done| |done|by rewrite C2]. by rewrite P, E0, app_nil_r.
Qed.

(** *** The abstract set *)

Inductive hash_op := OpInsert (e : E) | OpReplace (e : E) | OpFind (e : E) | OpDelete (e : E).

Definition hash_step (malloc_ok : bool) (op : hash_op) h : outcome (option E * hash E) :=
  match op with
  | OpInsert e => hash_insert hash_func less malloc_ok h e
  | OpReplace e => hash_replace hash_func less malloc_ok h e
  | OpFind e => Ok (hash_find hash_func less h e, h)
  | OpDelete e => hash_delete hash_func less malloc_ok h e
  end.

Definition without (o : option E) (l : list E) : list E :=
  match o with Some o => filter (fun x => x <> o) l | None => l end.
Definition set_step (op : hash_op) (l : list E) : option E * list E :=
  match op with
  | OpInsert e => (find_elem l e, match find_elem l e with Some _ => l | None => e :: l end)
  | OpReplace e => (find_elem l e, e :: without (find_elem l e) l)
  | OpFind e => (find_elem l e, l)
  | OpDelete e => (find_elem l e, without (find_elem l e) l)
  end.

Lemma perm_remove l o : NoDup l -> o ∈ l -> l ≡ₚ o :: filter (fun x => x <> o) l.
Proof.
  intros Hn Ho. apply elem_of_Permutation in Ho as [k Hk]. rewrite Hk in Hn. apply NoDup_cons in Hn as [Ho _].
  rewrite Hk at 1 2. rewrite filter_cons_False by auto. rewrite filter_keep; [done|]. intros x Hx ->. done.
Qed.

Lemma distinct_add l e : distinct l -> find_elem l e = None -> distinct (e :: l).
Proof.
  intros [H1 H2] Hf. pose proof hc_equiv as Q. assert (Hn : forall o, o ∈ l -> ~ eqv o e) by (intros o; by apply find_elem_None).
  split.
  - constructor; [|done]. intros He. apply (Hn e He). apply Q.
  - intros a b [->|Ha]%elem_of_cons [->|Hb]%elem_of_cons Hab; [done| | |by apply H2].
    + destruct (Hn b Hb). by apply Q.
    + by destruct (Hn a Ha).
Qed.
Lemma distinct_without l (o : option E) : distinct l -> distinct (without o l).
Proof.
  intros [H1 H2]. destruct o as [o|]; [|done]. split; [by apply NoDup_filter|].
  intros a b [_ Ha]%list_elem_of_filter [_ Hb]%list_elem_of_filter. by apply H2.
Qed.
Lemma find_without l e : distinct l -> find_elem (without (find_elem l e) l) e = None.
Proof.
  intros D. destruct (find_elem l e) as [o|] eqn:Ef; [|done]. simpl.
  destruct (find_elem (filter _ l) e) as [o'|] eqn:Ef'; [|done].
  apply find_elem_Some in Ef' as [Ho He]. apply list_elem_of_filter in Ho as [Hne Ho].
  rewrite (find_elem_distinct l e o' D Ho He) in Ef. congruence.
Qed.
Lemma find_elem_perm l l' e : distinct l -> l ≡ₚ l' -> find_elem l e = find_elem l' e.
Proof.
  intros D P. apply find_elem_same; [by rewrite <- P|intros o; by rewrite P|intros o; by rewrite P].
Qed.
#[local] Instance without_perm (o : option E) : Proper (Permutation ==> Permutation) (without o).
Proof. intros l l' P. destruct o as [o|]; simpl; [by rewrite P|done]. Qed.

Lemma set_step_perm op l l' :
  distinct l -> l ≡ₚ l' -> fst (set_step op l) = fst (set_step op l') /\ snd (set_step op l) ≡ₚ snd (set_step op l').
Proof.
  intros D P. destruct op as [e|e|e|e]; simpl; rewrite (find_elem_perm l l' e D P); (split; [done|]); try done.
  - destruct (find_elem l' e); [done|]. by rewrite P.
  - by rewrite P.
  - by rewrite P.
Qed.
Lemma set_step_distinct op l : distinct l -> distinct (snd (set_step op l)).
Proof.
  intros D. destruct op as [e|e|e|e]; simpl; [|apply distinct_add|done|].
  - destruct (find_elem l e) eqn:Ef; [done|by apply distinct_add].
  - by apply distinct_without.
  - by apply find_without.
  - by apply distinct_without.
Qed.

(** Adding and removing, with the count kept. *)
Definition counted h : Prop := shape h /\ elem_cnt h = len (elems h).

Lemma insert_counted h e :
  counted h -> elem_cnt h < 2 ^ 32 - 1 ->
  counted (insert_elem h (find_bucket h e) e) /\ elems (insert_elem h (find_bucket h e) e) ≡ₚ e :: elems h.
Proof.
  intros [S Hc] Hl. destruct (add_shape h e (u32 (elem_cnt h + 1)) S) as [S' P]. split; [|done]. split; [done|].
  unfold insert_elem. rewrite P. simpl. rewrite wrapu_small by lia. simpl. lia.
Qed.
Lemma remove_counted h o :
  counted h -> NoDup (elems h) -> o ∈ elems h -> elem_cnt h < 2 ^ 32 ->
  counted (remove_elem h o) /\ elems (remove_elem h o) = without (Some o) (elems h).
Proof.
  intros [S Hc] Hn Ho Hl. destruct (remove_shape h o (u32 (elem_cnt h - 1)) S) as [S' P].
  split; [|done]. split; [done|]. unfold remove_elem. rewrite P. simpl.
  pose proof (Permutation_length (perm_remove _ _ Hn Ho)) as Hlen. simpl in Hlen. rewrite wrapu_small; lia.
Qed.

Lemma rehash_table ok h l :
  counted h -> len l < 2 ^ 32 -> distinct l -> elems h ≡ₚ l ->
  exists h', rehash ok h = Ok h' /\ table_ok h' /\ elems h' ≡ₚ l /\
    (ok = true -> bucket_cnt h' = best_count (elem_cnt h')).
Proof.
  intros [S Hc] Hl D P. rewrite <- P in Hl. destruct (rehash_ok ok h S) as (h' & Er & S' & P' & C1 & C2); [lia|].
  exists h'. rewrite C1, <- P. split_and!; [done| |done|done].
  split; [done|by rewrite C1, P'|by rewrite P', P].
Qed.
Lemma set_step_length op l : (length (snd (set_step op l)) <= S (length l))%nat.
Proof.
  assert (Hw : forall o : option E, (length (without o l) <= length l)%nat).
  { intros [o|]; simpl; [apply length_filter|done]. }
  destruct op as [e|e|e|e]; simpl; [destruct (find_elem l e); simpl; lia|specialize (Hw (find_elem l e)); lia|lia|].
  specialize (Hw (find_elem l e)). lia.
Qed.

(** One operation: the result is that of the set, and the table stands for the new set.
    An insertion leaves the number of buckets that fits the number of elements. *)
Definition adapts (op : hash_op) : bool :=
  match op with OpInsert _ | OpReplace _ => true | _ => false end.
Record refines (ok : bool) (op : hash_op) h (r : option E) h' : Prop := {
  rf_result : r = fst (set_step op (elems h));
  rf_table : table_ok h';
  rf_elems : elems h' ≡ₚ snd (set_step op (elems h));
  rf_count : ok = true -> adapts op = true -> bucket_cnt h' = best_count (elem_cnt h')
}.

Lemma step_refines ok op h :
  table_ok h -> elem_cnt h < 2 ^ 32 - 1 -> exists r h', hash_step ok op h = Ok (r, h') /\ refines ok op h r h'.
Proof.
  intros T Hl. pose proof (set_step_distinct op _ (tb_distinct h T)) as D'.
  pose proof (set_step_length op (elems h)) as Hlen. pose proof T as [S Hc D]. assert (C : counted h) by done.
  assert (Hfin : forall h1 (r : option E) , counted h1 -> elems h1 ≡ₚ snd (set_step op (elems h)) ->
    exists h', rehash ok h1 = Ok h' /\ (r = fst (set_step op (elems h)) -> refines ok op h r h')).
  { intros h1 r C1 P1. destruct (rehash_table ok h1 (snd (set_step op (elems h))) C1 ltac:(lia) D' P1) as (h' & Er & T' & P & B).
    exists h'. split; [done|]. intros Hr. split; [done..|]. intros Ho _. by apply B. }
  assert (Hrem : forall e o, find_elem (elems h) e = Some o ->
    counted (remove_elem h o) /\ elems (remove_elem h o) = without (Some o) (elems h)).
  { intros e o [Ho _]%find_elem_Some. apply remove_counted; [done|apply D|done|lia]. }
  destruct op as [e|e|e|e]; simpl in *; unfold hash_insert, hash_replace, hash_find, hash_delete;
    rewrite (find_in_bucket h e S D); destruct (find_elem (elems h) e) as [o|] eqn:Ef; simpl in *.
  - destruct (Hfin h (Some o) C) as (h' & -> & R); [done|]. eauto.
  - destruct (insert_counted h e C Hl) as [C1 P1]. destruct (Hfin _ None C1 P1) as (h' & -> & R). eauto.
  - destruct (Hrem e o Ef) as [C0 E0]. rewrite <- E0 in Hfin, Hlen.
    destruct (insert_counted (remove_elem h o) e C0) as [C1 P1]; [destruct C0 as [_ ->]; lia|].
    destruct (Hfin _ (Some o) C1 P1) as (h' & Er & R). change (find_bucket (remove_elem h o) e) with (find_bucket h e) in Er.
    rewrite Er. eauto.
  - destruct (insert_counted h e C Hl) as [C1 P1]. destruct (Hfin _ None C1 P1) as (h' & -> & R). eauto.
  - do 2 eexists. split; [done|]. split; simpl; by rewrite ?Ef.
  - do 2 eexists. split; [done|]. split; simpl; by rewrite ?Ef.
  - destruct (Hrem e o Ef) as [C0 E0]. destruct (Hfin _ (Some o) C0) as (h' & -> & R); [by rewrite E0|]. eauto.
  - do 2 eexists. split; [done|]. split; simpl; by rewrite ?Ef.
Qed.

(** *** Runs and iteration *)

Fixpoint hash_run (ops : list (bool * hash_op)) h : outcome (list (option E) * hash E) :=
  match ops with
  | [] => Ok ([], h)
  | (ok, op) :: ops' =>
      match hash_step ok op h with
      | Ok (r, h') => match hash_run ops' h' with Ok (rs, h'') => Ok (r :: rs, h'') | Panic => Panic | NoFuel => NoFuel end
      | Panic => Panic
      | NoFuel => NoFuel
      end
  end.
Fixpoint set_run (ops : list (bool * hash_op)) (l : list E) : list (option E) * list E :=
  match ops with
  | [] => ([], l)
  | (_, op) :: ops' => let '(r, l') := set_step op l in let '(rs, l'') := set_run ops' l' in (r :: rs, l'')
  end.

Lemma hash_run_refines ops h l :
  table_ok h -> elems h ≡ₚ l -> len l + len ops < 2 ^ 32 - 1 ->
  exists h', hash_run ops h = Ok (fst (set_run ops l), h') /\ table_ok h' /\ elems h' ≡ₚ snd (set_run ops l).
Proof.
  revert h l. induction ops as [|[ok op] ops IH]; intros h l T P Hl; [by exists h|]. simpl in *.
  assert (Hc : elem_cnt h < 2 ^ 32 - 1) by (rewrite (tb_cnt h T), P; lia).
  destruct (step_refines ok op h T Hc) as (r & h' & -> & [R T' P' _]).
  destruct (set_step_perm op (elems h) l (tb_distinct h T) P) as [Er Pr]. rewrite Er in R. rewrite Pr in P'.
  pose proof (set_step_length op l). destruct (set_step op l) as [r' l']. simpl in *. subst r'.
  destruct (IH h' l' T' P') as (h'' & -> & T'' & P''); [lia|]. destruct (set_run ops l') as [rs l'']. simpl in *.
  by exists h''.
Qed.

Lemma init_table : exists h, hash_init true = Some h /\ table_ok h /\ elems h = [].
Proof.
  destruct (empty_shape 0 2) as [S Es]; [lia|]. eexists. split; [reflexivity|]. split; [|done].
  split; [done|done|]. split; [constructor|]. intros a b Ha. by apply elem_of_nil in Ha.
Qed.

(** The iterator at position [p] of bucket [b] has the rest of the table before it. *)
Definition ahead h (b : nat) (p : Z) : list E := drop (Z.to_nat p) (bucket_at h b) ++ concat (drop (S b) (buckets h)).

Lemma skip_empty_ok fuel h b p :
  shape h -> (b < length (buckets h))%nat -> (length (buckets h) - b <= fuel)%nat -> 0 <= p <= len (bucket_at h b) ->
  exists i, skip_empty fuel h b p = Ok i /\
    match hash_cur h i with
    | Some e => exists b' p', i = mkIter b' (Some p') /\ (b' < length (buckets h))%nat /\
        0 <= p' < len (bucket_at h b') /\ ahead h b p = e :: ahead h b' (p' + 1)
    | None => ahead h b p = []
    end.
Proof.
  intros S. revert b p. induction fuel as [|fuel IH]; intros b p Hb Hf Hp; [lia|]. simpl.
  pose proof (sh_len h S) as Hlen. destruct (Z.eqb_spec p (len (bucket_at h b))) as [Ep|Hne].
  - assert (Ha : ahead h b p = concat (drop (Datatypes.S b) (buckets h))).
    { unfold ahead. rewrite drop_ge by lia. done. }
    destruct (Z.leb_spec (bucket_cnt h) (Z.of_nat (Datatypes.S b))).
    + eexists. split; [done|]. simpl. rewrite Ha, drop_ge by lia. done.
    + destruct (IH (Datatypes.S b) 0) as (i & Ei & Hi); [lia..|]. exists i. split; [done|].
      assert (E' : ahead h b p = ahead h (Datatypes.S b) 0); [|by rewrite E'].
      rewrite Ha. unfold ahead, bucket_at. simpl. destruct (lookup_lt_is_Some_2 (buckets h) (Datatypes.S b)) as [c Hc]; [lia|].
      rewrite (drop_S _ c) by done. by rewrite Hc.
  - eexists. split; [done|]. unfold hash_cur. simpl.
    destruct (lookup_lt_is_Some_2 (bucket_at h b) (Z.to_nat p)) as [e He]; [lia|].
    change (match bucket_at h b !! Z.to_nat p with
      | Some e => exists b' p', mkIter b (Some p) = mkIter b' (Some p') /\ (b' < length (buckets h))%nat /\
          0 <= p' < len (bucket_at h b') /\ ahead h b p = e :: ahead h b' (p' + 1)
      | None => ahead h b p = [] end).
    rewrite He. exists b, p. split_and!; [done..|lia|lia|]. unfold ahead.
    rewrite (drop_S _ e) by done. replace (Z.to_nat (p + 1)) with (Datatypes.S (Z.to_nat p)) by lia. done.
Qed.

Lemma iterate_ok fuel h b p :
  shape h -> (b < length (buckets h))%nat -> -1 <= p < len (bucket_at h b) -> (length (ahead h b (p + 1)) < fuel)%nat ->
  iterate fuel h (mkIter b (Some p)) = Ok (ahead h b (p + 1)).
Proof.
  intros S. revert b p. induction fuel as [|fuel IH]; intros b p Hb Hp Hf; [lia|]. simpl. unfold hash_next.
  cbn [i_elem i_bucket]. pose proof (sh_len h S).
  destruct (skip_empty_ok (Datatypes.S (Z.to_nat (bucket_cnt h))) h b (p + 1) S Hb) as (i & -> & Hi); [lia..|].
  destruct (hash_cur h i) as [e|]; [|by rewrite Hi].
  destruct Hi as (b' & p' & -> & Hb' & Hp' & Ea). rewrite Ea in Hf |- *. simpl in Hf. rewrite IH by (done || lia). done.
Qed.

Lemma iterate_all h : shape h -> iterate (S (length (elems h))) h hash_first = Ok (elems h).
Proof.
  intros S. pose proof (sh_len h S) as Hl. destruct (sh_power h S) as (k & Hk & Ek).
  assert (0 < 2 ^ k) by (apply Z.pow_pos_nonneg; lia).
  destruct (buckets h) as [|b bs] eqn:Eb; [simpl in Hl; lia|].
  assert (Ea : ahead h 0 (-1 + 1) = elems h) by (unfold ahead, elems, bucket_at; by rewrite Eb).
  rewrite <- Ea. apply iterate_ok; [done|rewrite Eb; simpl; lia|lia|lia].
Qed.

(** C20: A hash table is a set: with callbacks that agree on which elements are equal, every
    sequence of insertions, replacements, searches and deletions on a new table ends, returns
    what the same operations return on a set of pairwise unequal elements, and leaves a table
    whose elements and size are those of the set, whether or not the allocations for more or
    fewer buckets succeed; and the iterator then visits exactly the elements of the table. *)
Theorem hash_refines_set ops :
  len ops < 2 ^ 32 - 1 ->
  exists h0 h, hash_init true = Some h0 /\ hash_run ops h0 = Ok (fst (set_run ops []), h) /\
    hash_apply h ≡ₚ snd (set_run ops []) /\ hash_size h = len (snd (set_run ops [])) /\
    iterate (S (length (hash_apply h))) h hash_first = Ok (hash_apply h).
Proof.
  intros Hl. destruct init_table as (h0 & E0 & T0 & El). exists h0.
  destruct (hash_run_refines ops h0 [] T0) as (h & Er & T & P); [by rewrite El|simpl; lia|].
  exists h. split_and!; [done..| |by apply iterate_all, T]. unfold hash_size. by rewrite (tb_cnt h T), P.
Qed.

End HashOk.

(** ** Hash functions *)

Lemma fnv_range hash byte : 0 <= byte < 256 -> 0 <= fnv hash byte < 2 ^ 32.
Proof.
  intros Hb. unfold fnv. pose proof (wrapu_range 32 (hash * FNV_32_PRIME) ltac:(done)) as Hr.
  set (x := u32 _) in *. assert (H0 : 0 <= Z.lxor x byte) by (apply Z.lxor_nonneg; lia). split; [done|].
  destruct (Z.eq_dec (Z.lxor x byte) 0) as [->|Hne]; [done|]. apply Z.log2_lt_pow2; [lia|].
  eapply Z.le_lt_trans; [apply Z.log2_lxor; lia|]. apply Z.max_lub_lt.
  - destruct (Z.eq_dec x 0) as [->|]; [done|]. apply Z.log2_lt_pow2; lia.
  - destruct (Z.eq_dec byte 0) as [->|]; [done|]. apply Z.log2_lt_pow2; lia.
Qed.
Lemma foldl_fnv_range l hash :
  Forall (fun c => 0 <= c < 256) l -> 0 <= hash < 2 ^ 32 -> 0 <= foldl fnv hash l < 2 ^ 32.
Proof.
  intros Hl. revert hash. induction Hl as [|c l Hc Hl IH]; intros hash Hh; simpl; [done|]. by apply IH, fnv_range.
Qed.
Lemma hash_int_range i : 0 <= hash_int i < 2 ^ 32.
Proof.
  apply foldl_fnv_range; [|done]. apply Forall_fmap, Forall_forall. intros k _. simpl.
  change 255 with (Z.ones 8). rewrite Z.land_ones by done. by apply Z.mod_pos_bound.
Qed.

Lemma bytes_loop_ok m a l hash : holds m a l -> bytes_loop a (length l) hash m = Ok (foldl fnv hash l, m).
Proof.
  revert a hash. induction l as [|c l IH]; intros a hash H; simpl in *; [done|]. destruct H as [<- H].
  erewrite bind_ok by reflexivity. by apply IH.
Qed.
Lemma string_loop_ok m fuel a l hash :
  cstr m a l -> (length l < fuel)%nat -> string_loop fuel a hash m = Ok (foldl fnv hash l, m).
Proof.
  revert a hash fuel. induction l as [|c l IH]; intros a hash [|fuel] H Hf; simpl in Hf; try lia; simpl;
    erewrite bind_ok by reflexivity.
  - apply cstr_nil in H. by rewrite H.
  - apply cstr_cons in H as (-> & Hc & H). rewrite (proj2 (Z.eqb_neq c 0)) by lia. apply IH; [done|lia].
Qed.

(** A string and its bytes have the same hash value. *)
Lemma hash_string_bytes m fuel a l :
  a <> 0 -> cstr m a l -> (length l < fuel)%nat -> hash_string fuel a m = hash_bytes a (len l) m.
Proof.
  intros Ha H Hf. unfold hash_string, hash_bytes. rewrite !ASSERT_true by (by rewrite (proj2 (Z.eqb_neq a 0))).
  rewrite (string_loop_ok m fuel a l) by done. rewrite Nat2Z.id. destruct H as [H _].
  apply holds_app in H as [H _]. by rewrite (bytes_loop_ok m a l).
Qed.

(** Elements with an integer key, as a client of the table has them. *)
#[export] Instance int_callbacks : HashCallbacks (fun e : Z * Z => hash_int (fst e)) (fun a b => fst a <? fst b).
Proof.
  assert (Heq : forall a b : Z * Z, negb (fst a <? fst b) && negb (fst b <? fst a) = true <-> fst a = fst b).
  { intros a b. case_cmp; simpl; split; intros; (done || lia). }
  split.
  - intros e. apply hash_int_range.
  - split; repeat intro; rewrite !Heq in *; congruence.
  - intros a b. rewrite Heq. by intros ->.
Qed.

Lemma hash_refines_set_witness :
  let ops := [(true, OpInsert (1, 10)); (false, OpInsert (1, 11)); (true, OpReplace (1, 12)); (true, OpFind (1, 0));
              (true, OpDelete (2, 0))] in
  exists h0 h, hash_init true = Some h0 /\
    hash_run (fun e => hash_int (fst e)) (fun a b => fst a <? fst b) ops h0 =
      Ok ([None; Some (1, 10); Some (1, 10); Some (1, 12); None], h) /\
    hash_apply h ≡ₚ [(1, 12)] /\ hash_size h = 1 /\
    iterate (S (length (hash_apply h))) h hash_first = Ok (hash_apply h).
Proof.
  intros ops.
  assert (Es : set_run (fun a b => fst a <? fst b) ops [] =
    ([None; Some (1, 10); Some (1, 10); Some (1, 12); None], [(1, 12)])) by (vm_compute; reflexivity).
  destruct (hash_refines_set (fun e => hash_int (fst e)) (fun a b => fst a <? fst b) ops) as (h0 & h & H); [reflexivity|].
  rewrite Es in H. exists h0, h. exact H.
Defined.
