(* ===== verification/Random.v ===== *)
(** The pseudo-random number generator (lib/random.c), RC4 with a 32-bit key. *)

From S2P Require Import Prelude KMonad.

Record rc4 := mkRc4 { s : list Z; s_i : Z; s_j : Z; inited : bool }.

(** [swap_byte (s + a, s + b)] *)
Definition swap_byte (l : list Z) (a b : Z) : list Z :=
  let t := zget 0 l a in
  let l := zset l a (zget 0 l b) in
  zset l b t.

Definition seed_byte (seed i : Z) : Z := Z.land (Z.shiftr seed (8 * (i mod 4))) 255.
Definition key_step (seed : Z) (st : list Z * Z) (i : Z) : list Z * Z :=
  let '(l, j) := st in
  let j := u8 (j + (zget 0 l i + seed_byte seed i)) in
  (swap_byte l i j, j).
Definition random_init (seed : Z) : rc4 :=
  mkRc4 (fst (foldl (key_step seed) (seqZ 0 256, 0) (seqZ 0 256))) 0 0 true.

Definition random_byte (r : rc4) : Z * rc4 :=
  let i := u8 (s_i r + 1) in
  let j := u8 (s_j r + zget 0 (s r) i) in
  let l := swap_byte (s r) i j in
  let k := u8 (zget 0 l i + zget 0 l j) in
  (zget 0 l k, mkRc4 l i j (inited r)).
Fixpoint bytes_from (size : nat) (r : rc4) : list Z * rc4 :=
  match size with
  | O => ([], r)
  | S size' => let '(b, r) := random_byte r in let '(bs, r) := bytes_from size' r in (b :: bs, r)
  end.
Definition random_bytes (size : Z) (r : rc4) : list Z * rc4 :=
  bytes_from (Z.to_nat size) (if inited r then r else random_init 0).
Definition random_ulong (r : rc4) : Z * rc4 :=
  let '(bs, r) := random_bytes 4 r in
  (foldr (fun b v => b + 256 * v) 0 bs, r).

(** ** The array stays a permutation of the bytes *)

Record rc4_ok (r : rc4) : Prop := {
  rc_perm : s r ≡ₚ seqZ 0 256;
  rc_i : 0 <= s_i r < 256;
  rc_j : 0 <= s_j r < 256
}.

Lemma swap_byte_perm l a b :
  0 <= a < Z.of_nat (length l) -> 0 <= b < Z.of_nat (length l) -> swap_byte l a b ≡ₚ l.
Proof.
  intros Ha Hb. unfold swap_byte, zset, zget, zlookup. rewrite !(proj2 (Z.leb_le 0 _)) by lia.
  destruct (lookup_lt_is_Some_2 l (Z.to_nat a)) as [x Hx]; [lia|].
  destruct (lookup_lt_is_Some_2 l (Z.to_nat b)) as [y Hy]; [lia|]. rewrite Hx, Hy. simpl.
  by apply Permutation_insert_swap.
Qed.
Lemma swap_byte_length l a b : length (swap_byte l a b) = length l.
Proof. unfold swap_byte. by rewrite !zset_length. Qed.

Lemma byte_range v : 0 <= u8 v < 256.
Proof. by apply (wrapu_range 8). Qed.
Lemma perm_length l : l ≡ₚ seqZ 0 256 -> length l = 256%nat.
Proof. intros ->. apply length_seqZ. Qed.
Lemma perm_byte l i : l ≡ₚ seqZ 0 256 -> 0 <= i < 256 -> 0 <= zget 0 l i < 256.
Proof.
  intros P Hi. pose proof (zget_in_range 0 l i) as H. rewrite (perm_length l P) in H. specialize (H ltac:(lia)).
  apply (elem_of_Permutation_proper _ _ _ P), elem_of_seqZ in H. lia.
Qed.

Lemma key_steps_perm seed ks st :
  Forall (fun i => 0 <= i < 256) ks -> fst st ≡ₚ seqZ 0 256 -> fst (foldl (key_step seed) st ks) ≡ₚ seqZ 0 256.
Proof.
  intros Hi. revert st. induction Hi as [|i ks Hi His IH]; intros st H; [done|]. cbn [foldl]. apply IH.
  destruct st as [l j]. cbn [key_step fst] in *. pose proof (byte_range (j + (zget 0 l i + seed_byte seed i))).
  rewrite swap_byte_perm; [done|rewrite (perm_length l H); lia..].
Qed.
Lemma random_init_ok seed : rc4_ok (random_init seed).
Proof.
  split; [|done..]. unfold random_init, s. apply key_steps_perm; [|reflexivity].
  apply Forall_forall. intros i. rewrite elem_of_seqZ. lia.
Qed.

Lemma random_byte_ok r : rc4_ok r -> rc4_ok (snd (random_byte r)) /\ 0 <= fst (random_byte r) < 256.
Proof.
  intros [P Hi Hj]. unfold random_byte. cbv zeta.
  pose proof (byte_range (s_i r + 1)) as Bi. set (i := u8 (s_i r + 1)) in *.
  pose proof (byte_range (s_j r + zget 0 (s r) i)) as Bj. set (j := u8 (s_j r + zget 0 (s r) i)) in *.
  assert (P' : swap_byte (s r) i j ≡ₚ seqZ 0 256) by (rewrite swap_byte_perm; [done|rewrite (perm_length _ P); lia..]).
  split; [by split|]. simpl. apply perm_byte; [done|apply byte_range].
Qed.

Lemma bytes_from_ok n r :
  rc4_ok r -> rc4_ok (snd (bytes_from n r)) /\ Forall (fun b => 0 <= b < 256) (fst (bytes_from n r)) /\
  length (fst (bytes_from n r)) = n.
Proof.
  revert r. induction n as [|n IH]; intros r H; cbn [bytes_from]; [done|].
  destruct (random_byte_ok r H) as [H1 Hb]. destruct (random_byte r) as [b r1]. simpl in *.
  destruct (IH r1 H1) as (H2 & Hbs & Hl). destruct (bytes_from n r1) as [bs r2]. simpl in *.
  split_and!; [done|by constructor|by f_equal].
Qed.

(** The state before a byte was taken. *)
Definition unstep (r : rc4) : rc4 :=
  let l := swap_byte (s r) (s_i r) (s_j r) in
  mkRc4 l (u8 (s_i r - 1)) (u8 (s_j r - zget 0 l (s_i r))) (inited r).

Lemma zget_swap l a b x :
  0 <= a < Z.of_nat (length l) -> 0 <= b < Z.of_nat (length l) ->
  zget 0 (swap_byte l a b) x = if x =? b then zget 0 l a else if x =? a then zget 0 l b else zget 0 l x.
Proof.
  intros Ha Hb. unfold swap_byte. destruct (Z.eqb_spec x b) as [->|Hxb].
  - rewrite zget_zset_eq; [done|by rewrite zset_length].
  - rewrite zget_zset_ne by done. destruct (Z.eqb_spec x a) as [->|Hxa].
    + by rewrite zget_zset_eq.
    + by rewrite zget_zset_ne.
Qed.
Lemma zget_ext l l' : length l = length l' -> (forall x, 0 <= x < Z.of_nat (length l) -> zget 0 l x = zget 0 l' x) -> l = l'.
Proof.
  intros Hl H. apply list_eq_same_length with (length l); [done|done|]. intros i x y Hi Hx Hy.
  specialize (H (Z.of_nat i) ltac:(lia)). unfold zget in H. rewrite !zlookup_nat, Hx, Hy in H. done.
Qed.
Lemma swap_swap l a b :
  0 <= a < Z.of_nat (length l) -> 0 <= b < Z.of_nat (length l) -> swap_byte (swap_byte l a b) a b = l.
Proof.
  intros Ha Hb. apply zget_ext; [by rewrite !swap_byte_length|]. intros x _.
  rewrite zget_swap by (rewrite swap_byte_length; lia). rewrite !zget_swap by lia.
  destruct (Z.eqb_spec x b); subst; [|destruct (Z.eqb_spec x a); subst; [|done]]; case_cmp; congruence || done.
Qed.

Lemma u8_add_sub x y : 0 <= x < 256 -> u8 (u8 (x + y) - y) = x.
Proof.
  intros H. unfold wrapu. rewrite Zminus_mod_idemp_l. replace (x + y - y) with x by lia. by apply Z.mod_small.
Qed.

Lemma unstep_step r : rc4_ok r -> unstep (snd (random_byte r)) = r.
Proof.
  intros [P Hi Hj]. unfold random_byte, unstep. cbv zeta. simpl.
  pose proof (byte_range (s_i r + 1)) as Bi. set (i := u8 (s_i r + 1)) in *.
  pose proof (byte_range (s_j r + zget 0 (s r) i)) as Bj. set (j := u8 (s_j r + zget 0 (s r) i)) in *.
  rewrite swap_swap by (rewrite (perm_length _ P); lia). unfold j at 1, i at 1. rewrite !u8_add_sub by done. by destruct r.
Qed.

(** ** Properties *)

(** Calls of the generator, from any client. *)
Inductive rng_call := CallInit (seed : Z) | CallBytes (size : Z).
Definition do_rng (r : rc4) (c : rng_call) : rc4 :=
  match c with CallInit seed => random_init seed | CallBytes size => snd (random_bytes size r) end.
(** Before the first call all variables are zero. *)
Definition rng_start : rc4 := mkRc4 (replicate 256 0) 0 0 false.

Lemma do_rng_ok r c : (inited r = true -> rc4_ok r) -> inited (do_rng r c) = true -> rc4_ok (do_rng r c).
Proof.
  intros H _. destruct c as [seed|size]; simpl; [apply random_init_ok|].
  apply bytes_from_ok. destruct (inited r); [by apply H|apply random_init_ok].
Qed.

(** Whatever calls of the generator have been made before, the requested number of bytes
    is returned, each in range, and the array of the generator is again a permutation of the
    256 bytes; and a step of the generator can be undone, so that two different states never
    run into the same sequence of states. *)
Theorem generator_is_reversible calls size :
  let r := foldl do_rng rng_start calls in
  let '(bs, r') := random_bytes size r in
  length bs = Z.to_nat size /\ Forall (fun b => 0 <= b < 256) bs /\ s r' ≡ₚ seqZ 0 256 /\
  unstep (snd (random_byte r')) = r'.
Proof.
  set (r := foldl do_rng rng_start calls). cbv zeta.
  assert (Hr : inited r = true -> rc4_ok r).
  { unfold r. clear r. assert (H0 : inited rng_start = true -> rc4_ok rng_start) by done.
    generalize dependent rng_start. induction calls as [|c calls IH]; intros r0 H0; simpl; [done|].
    apply IH. by apply do_rng_ok. }
  assert (Hok : rc4_ok (if inited r then r else random_init 0)).
  { destruct (inited r); [by apply Hr|apply random_init_ok]. }
  destruct (bytes_from_ok (Z.to_nat size) _ Hok) as (H1 & H2 & H3). unfold random_bytes.
  destruct (bytes_from (Z.to_nat size) _) as [bs r']. simpl in *.
  split_and!; [done|done|apply H1|by apply unstep_step].
Qed.

(** The published key stream of RC4 for the key "Wiki". *)
Example rc4_test_vector : fst (random_bytes 6 (random_init 0x696B6957)) = [0x60; 0x44; 0xDB; 0x6D; 0x41; 0xB7].
Proof. vm_compute. reflexivity. Qed.
