(* ===== verification/Bytes.v ===== *)
(** Byte arrays: words stored with the lowest byte first, and parts of arrays.  Shared
    by the models of the disk structures. *)

From S2P Require Import Prelude KMonad.

Definition byte (b : Z) : Prop := 0 <= b < 256.

(** A word of [n] bytes and its value. *)
Fixpoint le_bytes (n : nat) (v : Z) : list Z :=
  match n with O => [] | S n' => v mod 256 :: le_bytes n' (v / 256) end.
Fixpoint le_value (bs : list Z) : Z :=
  match bs with [] => 0 | b :: bs' => b + 256 * le_value bs' end.

Lemma le_bytes_length n v : length (le_bytes n v) = n.
Proof. revert v. induction n as [|n IH]; intros v; simpl; [done|]. by rewrite IH. Qed.
Lemma le_bytes_bytes n v : Forall byte (le_bytes n v).
Proof. revert v. induction n as [|n IH]; intros v; simpl; constructor; [|done]. by apply Z.mod_pos_bound. Qed.
Lemma le_value_bytes n v : 0 <= v < 2 ^ (8 * Z.of_nat n) -> le_value (le_bytes n v) = v.
Proof.
  revert v. induction n as [|n IH]; intros v H; simpl; [simpl in H; lia|].
  rewrite IH.
  - pose proof (Z.div_mod v 256 ltac:(done)). lia.
  - split; [apply Z.div_pos; lia|]. apply Z.div_lt_upper_bound; [done|].
    replace (8 * Z.of_nat (S n)) with (8 + 8 * Z.of_nat n) in H by lia. rewrite Z.pow_add_r in H by lia. lia.
Qed.
Lemma le_value_range bs : Forall byte bs -> 0 <= le_value bs < 2 ^ (8 * Z.of_nat (length bs)).
Proof.
  induction 1 as [|b bs Hb H IH]; simpl; [done|]. unfold byte in Hb.
  replace (8 * Z.of_nat (S (length bs))) with (8 + 8 * Z.of_nat (length bs)) by lia.
  rewrite Z.pow_add_r by lia. change (2 ^ 8) with 256. lia.
Qed.
Lemma le_bytes_value bs : Forall byte bs -> le_bytes (length bs) (le_value bs) = bs.
Proof.
  induction 1 as [|b bs Hb H IH]; simpl; [done|]. unfold byte in Hb. f_equal.
  - rewrite Z.mul_comm, Z.mod_add by done. by apply Z.mod_small.
  - rewrite Z.mul_comm, Z.div_add by done. rewrite Z.div_small by done. by rewrite Z.add_0_l.
Qed.

(** Parts of an array, and an array with a part replaced. *)
Definition slice {A} (l : list A) (ofs n : Z) : list A := take (Z.to_nat n) (drop (Z.to_nat ofs) l).
Definition splice {A} (l : list A) (ofs : Z) (d : list A) : list A :=
  take (Z.to_nat ofs) l ++ d ++ drop (Z.to_nat ofs + length d) l.

Abbreviation len l := (Z.of_nat (length l)).

Section Parts.
Context {A : Type}.
Implicit Types (l d : list A).

Lemma slice_length l ofs n : 0 <= ofs -> 0 <= n -> ofs + n <= len l -> len (slice l ofs n) = n.
Proof. intros. unfold slice. rewrite length_take, length_drop. lia. Qed.
Lemma splice_length l ofs d : 0 <= ofs -> ofs + len d <= len l -> length (splice l ofs d) = length l.
Proof. intros. unfold splice. rewrite !length_app, length_take, length_drop. lia. Qed.
Lemma slice_all l : slice l 0 (len l) = l.
Proof. unfold slice. rewrite drop_0, take_ge by lia. done. Qed.
Lemma splice_all l d : len d = len l -> splice l 0 d = d.
Proof. intros H. unfold splice. rewrite take_0, drop_ge by lia. simpl. by rewrite app_nil_r. Qed.
Lemma slice_0 l ofs : slice l ofs 0 = [].
Proof. done. Qed.

Lemma slice_lookup l ofs n (k : nat) :
  0 <= ofs -> slice l ofs n !! k = if decide (Z.of_nat k < n) then l !! (Z.to_nat ofs + k)%nat else None.
Proof.
  intros H. unfold slice. destruct (decide (Z.of_nat k < n)).
  - rewrite lookup_take_lt by lia. apply lookup_drop.
  - rewrite lookup_take_ge by lia. done.
Qed.
Lemma splice_lookup l ofs d (k : nat) :
  0 <= ofs -> ofs + len d <= len l ->
  splice l ofs d !! k =
    if decide (ofs <= Z.of_nat k < ofs + len d) then d !! (k - Z.to_nat ofs)%nat else l !! k.
Proof.
  intros H1 H2. unfold splice. destruct (decide (Z.of_nat k < ofs)).
  - rewrite lookup_app_l by (rewrite length_take; lia). rewrite lookup_take_lt by lia.
    by rewrite decide_False by lia.
  - rewrite lookup_app_r by (rewrite length_take; lia). rewrite length_take, Nat.min_l by lia.
    destruct (decide (Z.of_nat k < ofs + len d)).
    + rewrite decide_True by lia. by rewrite lookup_app_l by lia.
    + rewrite decide_False by lia. rewrite lookup_app_r by lia. rewrite lookup_drop. f_equal. lia.
Qed.

(** Reading across a boundary. *)
Lemma slice_app l ofs n m : 0 <= ofs -> 0 <= n -> 0 <= m -> slice l ofs n ++ slice l (ofs + n) m = slice l ofs (n + m).
Proof.
  intros. unfold slice. rewrite (Z2Nat.inj_add ofs n), (Z2Nat.inj_add n m) by done.
  rewrite <- drop_drop. rewrite <- (take_drop (Z.to_nat n) (take (Z.to_nat n + Z.to_nat m) _)).
  rewrite take_take, Nat.min_l by lia. f_equal. by rewrite <- skipn_firstn_comm || rewrite take_drop_commute.
Qed.
Lemma slice_of_slice l a n b m :
  0 <= a -> 0 <= b -> 0 <= m -> b + m <= n -> slice (slice l a n) b m = slice l (a + b) m.
Proof.
  intros. apply list_eq. intros k. rewrite !slice_lookup by lia.
  destruct (decide (Z.of_nat k < m)); [|done]. rewrite decide_True by lia. f_equal. lia.
Qed.
Lemma slice_splice l ofs d : 0 <= ofs -> ofs + len d <= len l -> slice (splice l ofs d) ofs (len d) = d.
Proof.
  intros. apply list_eq. intros k. rewrite slice_lookup by lia. destruct (decide (Z.of_nat k < len d)).
  - rewrite splice_lookup, decide_True by lia. f_equal. lia.
  - by rewrite lookup_ge_None_2 by lia.
Qed.
Lemma slice_splice_ne l ofs d a n :
  0 <= ofs -> ofs + len d <= len l -> 0 <= a -> a + n <= ofs \/ ofs + len d <= a ->
  slice (splice l ofs d) a n = slice l a n.
Proof.
  intros. apply list_eq. intros k. rewrite !slice_lookup by lia. destruct (decide (Z.of_nat k < n)); [|done].
  by rewrite splice_lookup, decide_False by lia.
Qed.
Lemma splice_splice l ofs d1 d2 :
  0 <= ofs -> ofs + len d1 + len d2 <= len l ->
  splice (splice l ofs d1) (ofs + len d1) d2 = splice l ofs (d1 ++ d2).
Proof.
  intros. apply list_eq. intros k.
  rewrite !splice_lookup by (rewrite ?splice_length, ?length_app by lia; lia). rewrite length_app.
  destruct (decide (ofs + len d1 <= Z.of_nat k < ofs + len d1 + len d2)).
  - rewrite decide_True by lia. rewrite lookup_app_r by lia. f_equal. lia.
  - destruct (decide (ofs <= Z.of_nat k < ofs + len d1)).
    + rewrite decide_True by lia. by rewrite lookup_app_l by lia.
    + by rewrite decide_False by lia.
Qed.
Lemma splice_nil l ofs : splice l ofs [] = l.
Proof. unfold splice. simpl. by rewrite Nat.add_0_r, take_drop. Qed.

End Parts.
