(* ===== verification/Block.v ===== *)
(** Block devices (devices/block.c) and partitions (devices/partition.c).

    The registered devices are a list in the order of registration, which is the order
    of all_blocks; a device is known by its index.  The operations of a device are those
    of a disk (devices/ide.c: an ideal disk, whose sectors hold what was written to them
    last) or those of a partition.  Messages to the console are left out, and so are
    the allocations of the descriptors of devices, which are kept for ever and whose
    failure is a panic; the tables of partitions, which are freed again, are counted. *)

From stdpp Require Import strings.
From S2P Require Import Prelude KMonad Bytes CString Stdio StdioOk.

Definition BLOCK_SECTOR_SIZE : Z := 512.

Definition BLOCK_KERNEL : Z := 0.
Definition BLOCK_FILESYS : Z := 1.
Definition BLOCK_SCRATCH : Z := 2.
Definition BLOCK_SWAP : Z := 3.
Definition BLOCK_ROLE_CNT : Z := 4.
Definition BLOCK_RAW : Z := 4.
Definition BLOCK_FOREIGN : Z := 5.

Inductive block_operations :=
| ide_operations (disk : Z -> list Z)
| partition_operations (p_block : nat) (p_start : Z).

Record block := mkBlock {
  b_name : list Z; b_type : Z; b_size : Z; b_ops : block_operations; read_cnt : Z; write_cnt : Z
}.
Record devices := mkDevices { all_blocks : list block; block_by_role : list (option nat) }.

(** ** block.c *)

Definition get_block (id : nat) : K devices block := ds ← get; the (all_blocks ds !! id).
Definition set_block (id : nat) (b : block) : K devices unit :=
  modify (fun ds => mkDevices (<[id := b]> (all_blocks ds)) (block_by_role ds)).

Definition block_get_role (role : Z) : K devices (option nat) :=
  ASSERT (role <? BLOCK_ROLE_CNT);; ds ← get; the (zlookup (block_by_role ds) role).
Definition block_set_role (role : Z) (id : option nat) : K devices unit :=
  ASSERT (role <? BLOCK_ROLE_CNT);;
  modify (fun ds => mkDevices (all_blocks ds) (zset (block_by_role ds) role id)).

Definition list_elem_to_block (ds : devices) (id : nat) : option nat :=
  if (id <? length (all_blocks ds))%nat then Some id else None.
Definition block_first : K devices (option nat) := gets (fun ds => list_elem_to_block ds 0).
Definition block_next (id : nat) : K devices (option nat) := gets (fun ds => list_elem_to_block ds (S id)).
Definition block_get_by_name (name : list Z) : K devices (option nat) :=
  gets (fun ds => fst <$> list_find (fun b => name = b_name b) (all_blocks ds)).

Definition block_size (id : nat) : K devices Z := b ← get_block id; mret (b_size b).
Definition block_name (id : nat) : K devices (list Z) := b ← get_block id; mret (b_name b).
Definition block_type (id : nat) : K devices Z := b ← get_block id; mret (b_type b).

(** [PANIC] if the sector is outside of the device. *)
Definition check_sector (id : nat) (sector : Z) : K devices unit :=
  n ← block_size id; if n <=? sector then panic else mret tt.

Definition set_ops (b : block) (o : block_operations) : block :=
  mkBlock (b_name b) (b_type b) (b_size b) o (read_cnt b) (write_cnt b).
Definition count_read (b : block) : block :=
  mkBlock (b_name b) (b_type b) (b_size b) (b_ops b) (u64 (read_cnt b + 1)) (write_cnt b).
Definition count_write (b : block) : block :=
  mkBlock (b_name b) (b_type b) (b_size b) (b_ops b) (read_cnt b) (u64 (write_cnt b + 1)).

(** [block_read] and [block_write], with [partition_read] and [partition_write] as the
    operations of a partition, which call them for the device that the partition is on. *)
Fixpoint read_from (fuel : nat) (id : nat) (sector : Z) : K devices (list Z) :=
  match fuel with
  | O => no_fuel
  | S fuel' =>
      check_sector id sector;;
      b ← get_block id;
      data ← match b_ops b with
             | ide_operations disk => mret (disk sector)
             | partition_operations p start => read_from fuel' p (u32 (start + sector))
             end;
      b ← get_block id;
      set_block id (count_read b);;
      mret data
  end.
Fixpoint write_to (fuel : nat) (id : nat) (sector : Z) (data : list Z) : K devices unit :=
  match fuel with
  | O => no_fuel
  | S fuel' =>
      check_sector id sector;;
      b ← get_block id;
      ASSERT (negb (b_type b =? BLOCK_FOREIGN));;
      match b_ops b with
      | ide_operations disk =>
          set_block id (set_ops b (ide_operations (fun s => if s =? sector then data else disk s)))
      | partition_operations p start => write_to fuel' p (u32 (start + sector)) data
      end;;
      b ← get_block id;
      set_block id (count_write b)
  end.
(** A device is registered after the one that it is a partition of. *)
Definition block_read (id : nat) (sector : Z) : K devices (list Z) := read_from (S id) id sector.
Definition block_write (id : nat) (sector : Z) (data : list Z) : K devices unit := write_to (S id) id sector data.

Definition block_register (name : list Z) (type size : Z) (ops : block_operations) : K devices nat :=
  ds ← get;
  KMonad.put (mkDevices (all_blocks ds ++ [mkBlock (take 15 name) type size ops 0 0]) (block_by_role ds));;
  mret (length (all_blocks ds)).

(** ** partition.c *)

Record partition_table_entry := mkEntry { e_type : Z; e_offset : Z; e_size : Z }.
Definition table_entry (pt : list Z) (i : Z) : partition_table_entry :=
  let e := slice pt (446 + 16 * i) 16 in
  mkEntry (le_value (slice e 4 1)) (le_value (slice e 8 4)) (le_value (slice e 12 4)).
Definition signature (pt : list Z) : Z := le_value (slice pt 510 2).

(** The name, as [snprintf] leaves it in an array of 16 characters. *)
Definition part_name (name : list Z) (part_nr : Z) : outcome (list Z) :=
  out ← printf "%s%d" [ArgStr (Some name); Arg32 part_nr];
  mret (take 15 out).

Definition partition_type (part_type : Z) : Z :=
  if part_type =? 0x20 then BLOCK_KERNEL
  else if part_type =? 0x21 then BLOCK_FILESYS
  else if part_type =? 0x22 then BLOCK_SCRATCH
  else if part_type =? 0x23 then BLOCK_SWAP
  else BLOCK_FOREIGN.
Definition found_partition (id : nat) (part_type start size part_nr : Z) : K devices unit :=
  n ← block_size id;
  if n <=? start then mret tt
  else if (u32 (start + size) <? start) || (n <? u32 (start + size)) then mret tt
  else
    name ← block_name id;
    name ← lift (part_name name part_nr);
    block_register name (partition_type part_type) size (partition_operations id start);;
    mret tt.

Definition extended (type : Z) : bool := (type =? 0x05) || (type =? 0x0f) || (type =? 0x85) || (type =? 0xc5).

(** The loop over the entries; [scan] reads another table. *)
Fixpoint entries_loop (scan : Z -> Z -> Z -> K devices Z) (id : nat) (sector primary : Z) (es : list partition_table_entry)
    (part_nr : Z) : K devices Z :=
  match es with
  | [] => mret part_nr
  | e :: es' =>
      part_nr ←
        (if (e_size e =? 0) || (e_type e =? 0) then mret part_nr
         else if extended (e_type e) then
           if sector =? 0 then scan (e_offset e) (e_offset e) part_nr
           else scan (u32 (e_offset e + primary)) primary part_nr
         else
           found_partition id (e_type e) (u32 (e_offset e + sector)) (e_size e) (part_nr + 1);;
           mret (part_nr + 1));
      entries_loop scan id sector primary es' part_nr
  end.
(** [tables] is the number of partition tables that there is memory for.  A table is
    allocated before it is read and freed when its entries, with all tables that they lead
    to, are done; an allocation that fails is a panic. *)
Fixpoint read_partition_table (tables : nat) (id : nat) (sector primary part_nr : Z) : K devices Z :=
  n ← block_size id;
  if n <=? sector then mret part_nr
  else
    match tables with
    | O => panic
    | S tables' =>
        pt ← block_read id 0;
        if negb (signature pt =? 0xaa55) then mret part_nr
        else entries_loop (read_partition_table tables' id) id sector primary (table_entry pt <$> [0; 1; 2; 3]) part_nr
    end.
Definition partition_scan (tables : nat) (id : nat) : K devices unit :=
  read_partition_table tables id 0 0 0;; mret tt.

(** ** Reading and writing *)

Lemma part_name_ok name nr : exists out, part_name name nr = Ok out.
Proof.
  unfold part_name, printf, vprintf. change (str "%s%d") with [37; 115; 37; 100].
  change (length [37%Z; 115%Z; 37%Z; 100%Z] + 32)%nat with (S (S 34)).
  destruct (vprintf_decimal nr) as (out & _ & E).
  assert (Es : vprintf_loop (S (S 34)) [37; 115; 37; 100] [ArgStr (Some name); Arg32 nr] =
    (out2 ← vprintf_loop (S 34) [37; 100] [Arg32 nr];
     mret (format_string (limit name (-1)) (mkConv 0 0 (-1) INT) ++ out2))) by reflexivity.
  rewrite Es, E. simpl. eauto.
Qed.

(** What a sector of a device holds: that of the disk at the bottom. *)
Fixpoint sector_at (fuel : nat) (ds : devices) (id : nat) (s : Z) : list Z :=
  match fuel, all_blocks ds !! id with
  | S fuel', Some b =>
      match b_ops b with
      | ide_operations disk => disk s
      | partition_operations p start => sector_at fuel' ds p (start + s)
      end
  | _, _ => []
  end.
Definition sector (ds : devices) (id : nat) (s : Z) : list Z := sector_at (S id) ds id s.

Definition block_ok (bs : list block) (id : nat) (b : block) : Prop :=
  0 <= b_size b < 2 ^ 32 /\
  match b_ops b with
  | ide_operations disk => forall s, 0 <= s < b_size b -> length (disk s) = 512%nat
  | partition_operations p start =>
      0 <= start /\ (p < id)%nat /\
      exists pb, bs !! p = Some pb /\ start + b_size b <= b_size pb /\ b_type pb <> BLOCK_FOREIGN
  end.
Definition devices_ok (ds : devices) : Prop :=
  forall id b, all_blocks ds !! id = Some b -> block_ok (all_blocks ds) id b.

(** Devices that differ in the counts, or in the content of disks as well. *)
Definition same_device (b b' : block) : Prop :=
  b_name b = b_name b' /\ b_type b = b_type b' /\ b_size b = b_size b' /\
  match b_ops b, b_ops b' with
  | ide_operations _, ide_operations _ => True
  | partition_operations p s, partition_operations p' s' => p = p' /\ s = s'
  | _, _ => False
  end.
Definition same_content (b b' : block) : Prop :=
  b_name b = b_name b' /\ b_type b = b_type b' /\ b_size b = b_size b' /\ b_ops b = b_ops b'.

#[local] Instance same_content_equiv : Equivalence same_content.
Proof. split; unfold same_content; repeat intro; intuition congruence. Qed.
#[local] Instance same_device_equiv : Equivalence same_device.
Proof.
  unfold same_device. split.
  - intros b. destruct (b_ops b); by split_and!.
  - intros b b' (-> & -> & -> & H). split_and!; try done. destruct (b_ops b), (b_ops b'); try done. by destruct H.
  - intros a b c (-> & -> & -> & H) (-> & -> & -> & H'). split_and!; try done.
    destruct (b_ops a), (b_ops b), (b_ops c); try done. destruct H, H'. by subst.
Qed.
Lemma same_content_device b b' : same_content b b' -> same_device b b'.
Proof. intros (H1 & H2 & H3 & H4). unfold same_device. rewrite H1, H2, H3, H4. destruct (b_ops b'); by split_and!. Qed.

Lemma insert_related (R : block -> block -> Prop) `{!Equivalence R} bs bs' id b b' :
  Forall2 R bs bs' -> bs !! id = Some b -> R b b' -> Forall2 R bs (<[id := b']> bs').
Proof.
  intros H Hb HR. rewrite <- (list_insert_id bs id b Hb). by apply Forall2_insert.
Qed.

Lemma sector_same ds ds' fuel id s :
  Forall2 same_content (all_blocks ds) (all_blocks ds') -> sector_at fuel ds' id s = sector_at fuel ds id s.
Proof.
  intros H. revert id s. induction fuel as [|fuel IH]; intros id s; simpl; [done|].
  destruct (all_blocks ds !! id) as [b|] eqn:Eb.
  - destruct (Forall2_lookup_l _ _ _ _ _ H Eb) as (b' & -> & (_ & _ & _ & E)). rewrite <- E.
    destruct (b_ops b); [done|apply IH].
  - apply (Forall2_length _ _ _) in H. apply lookup_ge_None in Eb. by rewrite lookup_ge_None_2 by lia.
Qed.

(** More fuel than the index changes nothing. *)
Lemma sector_fuel ds fuel fuel' id s :
  devices_ok ds -> (id < fuel)%nat -> (id < fuel')%nat -> sector_at fuel ds id s = sector_at fuel' ds id s.
Proof.
  intros D. revert fuel' id s. induction fuel as [|fuel IH]; intros [|fuel'] id s H H'; try lia. simpl.
  destruct (all_blocks ds !! id) as [b|] eqn:Eb; [|done]. destruct (D id b Eb) as [_ Ho].
  destruct (b_ops b); [done|]. apply IH; lia.
Qed.

Lemma same_content_ok ds ds' :
  devices_ok ds -> Forall2 same_content (all_blocks ds) (all_blocks ds') -> devices_ok ds'.
Proof.
  intros D H id b' Hb'. destruct (Forall2_lookup_r _ _ _ _ _ H Hb') as (b & Hb & (_ & Et & Es & Eo)).
  destruct (D id b Hb) as [H1 H2]. unfold block_ok. rewrite <- Es, <- Eo. split; [done|].
  destruct (b_ops b) as [|p st]; [done|]. destruct H2 as (Hst & Hp & pb & Hpb & Hsz & Hty). split_and!; try done.
  destruct (Forall2_lookup_l _ _ _ _ _ H Hpb) as (pb' & Hpb' & (_ & Et' & Es' & _)).
  exists pb'. rewrite <- Es', <- Et'. done.
Qed.

Lemma get_block_ok ds id b : all_blocks ds !! id = Some b -> get_block id ds = Ok (b, ds).
Proof. intros H. unfold get_block, mbind, K_bind. simpl. by rewrite H. Qed.
Lemma check_sector_ok ds id s b :
  all_blocks ds !! id = Some b -> check_sector id s ds = if b_size b <=? s then Panic else Ok (tt, ds).
Proof.
  intros H. unfold check_sector, block_size. rewrite bind_assoc, (bind_ok _ _ _ _ _ (get_block_ok ds id b H)), ret_bind.
  by destruct (b_size b <=? s).
Qed.
Lemma in_sector (b : block) s : s < b_size b -> (b_size b <=? s) = false.
Proof. intros. by apply Z.leb_gt. Qed.

Lemma read_from_ok fuel ds id s b :
  devices_ok ds -> all_blocks ds !! id = Some b -> 0 <= s < b_size b -> (id < fuel)%nat ->
  exists ds', read_from fuel id s ds = Ok (sector_at fuel ds id s, ds') /\
    Forall2 same_content (all_blocks ds) (all_blocks ds') /\ block_by_role ds' = block_by_role ds.
Proof.
  intros D. revert id s b. induction fuel as [|fuel IH]; intros id s b Hb Hs Hf; [lia|]. simpl.
  pose proof (check_sector_ok ds id s b Hb) as Ec. rewrite in_sector in Ec by lia.
  rewrite (bind_ok _ _ _ _ _ Ec), (bind_ok _ _ _ _ _ (get_block_ok ds id b Hb)). cbv beta. rewrite Hb.
  destruct (D id b Hb) as [Hsz Ho].
  assert (Hd : exists ds1, (match b_ops b with
             | ide_operations disk => mret (disk s)
             | partition_operations p start => read_from fuel p (u32 (start + s))
             end) ds = Ok (match b_ops b with
      | ide_operations disk => disk s
      | partition_operations p start => sector_at fuel ds p (start + s)
      end, ds1) /\ Forall2 same_content (all_blocks ds) (all_blocks ds1) /\ block_by_role ds1 = block_by_role ds).
  { destruct (b_ops b) as [disk|p st]; [by exists ds|]. destruct Ho as (Hst & Hp & pb & Hpb & Hle & _).
    destruct (D p pb Hpb) as [Hpsz _]. rewrite wrapu_small by lia. apply (IH p (st + s) pb); [done|lia|lia]. }
  destruct Hd as (ds1 & E1 & H1 & R1). rewrite (bind_ok _ _ _ _ _ E1).
  destruct (Forall2_lookup_l _ _ _ _ _ H1 Hb) as (b1 & Hb1 & Hc).
  rewrite (bind_ok _ _ _ _ _ (get_block_ok ds1 id b1 Hb1)). eexists. split; [reflexivity|]. split; [|done]. simpl.
  by apply (insert_related same_content _ _ _ b).
Qed.

(** A write changes one sector of the device. *)
Record written (fuel : nat) (ds : devices) (id : nat) (s size : Z) (data : list Z) (ds' : devices) : Prop := {
  wr_roles : block_by_role ds' = block_by_role ds;
  wr_same : Forall2 same_device (all_blocks ds) (all_blocks ds');
  wr_ok : devices_ok ds';
  wr_at t : 0 <= t < size -> sector_at fuel ds' id t = if t =? s then data else sector_at fuel ds id t
}.

Lemma set_disk_ok ds id b disk disk' :
  devices_ok ds -> all_blocks ds !! id = Some b -> b_ops b = ide_operations disk ->
  (forall s, 0 <= s < b_size b -> length (disk' s) = 512%nat) ->
  let bs := <[id := set_ops b (ide_operations disk')]> (all_blocks ds) in
  Forall2 same_device (all_blocks ds) bs /\ devices_ok (mkDevices bs (block_by_role ds)).
Proof.
  intros D Hb Ho Hd bs.
  assert (Hsame : Forall2 same_device (all_blocks ds) bs).
  { apply (insert_related same_device _ _ _ b); [done|done|]. unfold same_device. simpl. rewrite Ho. by split_and!. }
  split; [done|]. intros i b' Hb'. simpl in Hb' |- *. pose proof Hb' as Hb''.
  destruct (Forall2_lookup_r _ _ _ _ _ Hsame Hb'') as (b0 & Hb0 & (_ & _ & Es & Eo)).
  destruct (D i b0 Hb0) as [H1 H2]. split; [by rewrite <- Es|].
  destruct (decide (i = id)) as [->|Hne].
  { unfold bs in Hb'. rewrite list_lookup_insert_eq in Hb' by (by eapply lookup_lt_Some). injection Hb' as <-. done. }
  unfold bs in Hb'. rewrite list_lookup_insert_ne in Hb' by done. rewrite Hb0 in Hb'. injection Hb' as <-.
  destruct (b_ops b0) as [|p st]; [done|]. destruct H2 as (Hst & Hp & pb & Hpb & Hle & Ht). split_and!; try done.
  destruct (Forall2_lookup_l _ _ _ _ _ Hsame Hpb) as (pb' & Hpb' & (_ & Et & Es' & _)).
  exists pb'. by rewrite <- Et, <- Es'.
Qed.

Lemma count_write_step fuel ds id s size data ds1 b1 :
  written fuel ds id s size data ds1 -> all_blocks ds1 !! id = Some b1 ->
  exists ds', (b ← get_block id; set_block id (count_write b)) ds1 = Ok (tt, ds') /\ written fuel ds id s size data ds'.
Proof.
  intros [W1 W2 W3 W4] Hb1. rewrite (bind_ok _ _ _ _ _ (get_block_ok ds1 id b1 Hb1)). eexists. split; [reflexivity|].
  set (ds2 := mkDevices _ _).
  assert (Hc : Forall2 same_content (all_blocks ds1) (all_blocks ds2)) by (by apply (insert_related same_content _ _ _ b1)).
  split.
  - done.
  - etrans; [exact W2|]. eapply Forall2_impl; [exact Hc|]. apply same_content_device.
  - by eapply same_content_ok.
  - intros t Ht. rewrite (sector_same ds1 ds2) by done. by apply W4.
Qed.

Lemma write_to_ok fuel ds id s b data :
  devices_ok ds -> all_blocks ds !! id = Some b -> 0 <= s < b_size b -> (id < fuel)%nat ->
  b_type b <> BLOCK_FOREIGN -> length data = 512%nat ->
  exists ds', write_to fuel id s data ds = Ok (tt, ds') /\ written fuel ds id s (b_size b) data ds'.
Proof.
  intros D. revert id s b. induction fuel as [|fuel IH]; intros id s b Hb Hs Hf Hty Hdata; [lia|]. simpl.
  pose proof (check_sector_ok ds id s b Hb) as Ec. rewrite in_sector in Ec by lia.
  rewrite (bind_ok _ _ _ _ _ Ec), (bind_ok _ _ _ _ _ (get_block_ok ds id b Hb)). cbv beta.
  rewrite ASSERT_true by (by rewrite (proj2 (Z.eqb_neq _ _))). destruct (D id b Hb) as [Hsz Ho].
  destruct (b_ops b) as [disk|p st] eqn:Eo.
  - destruct (set_disk_ok ds id b disk (fun t => if t =? s then data else disk t) D Hb Eo) as [Hsame Dok].
    { intros t Ht. destruct (t =? s); [done|by apply Ho]. }
    erewrite bind_ok by reflexivity. set (ds1 := mkDevices _ _) in *. 
    assert (Hb1 : all_blocks ds1 !! id = Some (set_ops b (ide_operations (fun t => if t =? s then data else disk t)))).
    { simpl. apply list_lookup_insert_eq. by eapply lookup_lt_Some. }
    eapply count_write_step; [|exact Hb1]. split; [done..|].
    intros t Ht. cbn [sector_at]. by rewrite Hb1, Hb, Eo.
  - destruct Ho as (Hst & Hp & pb & Hpb & Hle & Hpt). destruct (D p pb Hpb) as [Hpsz _]. rewrite wrapu_small by lia.
    destruct (IH p (st + s) pb) as (ds1 & E1 & [W1 W2 W3 W4]); [done|lia|lia|done|done|].
    rewrite (bind_ok _ _ _ _ _ E1). destruct (Forall2_lookup_l _ _ _ _ _ W2 Hb) as (b1 & Hb1 & (_ & _ & _ & So)).
    eapply count_write_step; [|exact Hb1]. split; [done..|].
    intros t Ht. cbn [sector_at]. rewrite Hb1, Hb, Eo in *. destruct (b_ops b1) as [|p1 st1]; [done|]. destruct So as [<- <-].
    rewrite W4 by lia. replace (st + t =? st + s) with (t =? s) by (case_cmp; lia). done.
Qed.

Lemma sector_length ds fuel id s b :
  devices_ok ds -> all_blocks ds !! id = Some b -> 0 <= s < b_size b -> (id < fuel)%nat ->
  length (sector_at fuel ds id s) = 512%nat.
Proof.
  intros D. revert id s b. induction fuel as [|fuel IH]; intros id s b Hb Hs Hf; [lia|]. cbn [sector_at]. rewrite Hb.
  destruct (D id b Hb) as [_ Ho]. destruct (b_ops b) as [|p st]; [by apply Ho|].
  destruct Ho as (Hst & Hp & pb & Hpb & Hle & _). apply (IH p (st + s) pb); [done|lia|lia].
Qed.

(** ** The interface of a block device

    What the file system relies on: a sector holds what was written to it last. *)
Class BlockDevice (D : Type) := {
  bd_ok : D -> Prop;
  bd_size : D -> Z;
  bd_sector : D -> Z -> list Z;
  bd_read : Z -> K D (list Z);
  bd_write : Z -> list Z -> K D unit;
  bd_size_range d : bd_ok d -> 0 <= bd_size d < 2 ^ 32;
  bd_sector_length d s : bd_ok d -> 0 <= s < bd_size d -> length (bd_sector d s) = 512%nat;
  bd_read_ok d s : bd_ok d -> 0 <= s < bd_size d ->
    exists d', bd_read s d = Ok (bd_sector d s, d') /\ bd_ok d' /\ bd_size d' = bd_size d /\
      forall t, 0 <= t < bd_size d -> bd_sector d' t = bd_sector d t;
  bd_write_ok d s data : bd_ok d -> 0 <= s < bd_size d -> length data = 512%nat ->
    exists d', bd_write s data d = Ok (tt, d') /\ bd_ok d' /\ bd_size d' = bd_size d /\
      forall t, 0 <= t < bd_size d -> bd_sector d' t = if t =? s then data else bd_sector d t;
  bd_read_past d s : bd_ok d -> bd_size d <= s -> bd_read s d = Panic;
  bd_write_past d s data : bd_ok d -> bd_size d <= s -> bd_write s data d = Panic
}.

(** A registered device, disk or partition, that the file system may use. *)
Record mounted := mkMounted { m_devices : devices; m_id : nat }.
Definition on_device {A} (m : nat -> K devices A) : K mounted A := fun d =>
  match m (m_id d) (m_devices d) with
  | Ok (a, ds) => Ok (a, mkMounted ds (m_id d))
  | Panic => Panic
  | NoFuel => NoFuel
  end.
Definition mounted_ok (d : mounted) : Prop :=
  devices_ok (m_devices d) /\
  exists b, all_blocks (m_devices d) !! m_id d = Some b /\ b_type b <> BLOCK_FOREIGN.
Definition mounted_size (d : mounted) : Z := default 0 (b_size <$> all_blocks (m_devices d) !! m_id d).

Lemma mounted_inv d : mounted_ok d -> exists b,
  devices_ok (m_devices d) /\ all_blocks (m_devices d) !! m_id d = Some b /\ b_type b <> BLOCK_FOREIGN /\ mounted_size d = b_size b.
Proof. intros (H & b & Hb & Ht). exists b. unfold mounted_size. by rewrite Hb. Qed.

Lemma mounted_read d s :
  mounted_ok d -> 0 <= s < mounted_size d ->
  exists d', on_device (fun id => block_read id s) d = Ok (sector (m_devices d) (m_id d) s, d') /\ mounted_ok d' /\
    mounted_size d' = mounted_size d /\
    forall t, 0 <= t < mounted_size d -> sector (m_devices d') (m_id d') t = sector (m_devices d) (m_id d) t.
Proof.
  intros (b & H & Hb & Ht & ->)%mounted_inv Hs.
  destruct (read_from_ok (S (m_id d)) (m_devices d) (m_id d) s b H Hb Hs) as (ds & E & Hc & _); [lia|].
  unfold on_device, block_read. rewrite E. eexists. split; [reflexivity|].
  destruct (Forall2_lookup_l _ _ _ _ _ Hc Hb) as (b' & Hb' & (_ & Et & Es & _)). split_and!.
  - split; [by eapply same_content_ok|]. exists b'. by rewrite <- Et.
  - unfold mounted_size. simpl. by rewrite Hb'.
  - intros t _. by apply sector_same.
Qed.
Lemma mounted_write d s data :
  mounted_ok d -> 0 <= s < mounted_size d -> length data = 512%nat ->
  exists d', on_device (fun id => block_write id s data) d = Ok (tt, d') /\ mounted_ok d' /\
    mounted_size d' = mounted_size d /\
    forall t, 0 <= t < mounted_size d ->
      sector (m_devices d') (m_id d') t = if t =? s then data else sector (m_devices d) (m_id d) t.
Proof.
  intros (b & H & Hb & Ht & ->)%mounted_inv Hs Hd.
  destruct (write_to_ok (S (m_id d)) (m_devices d) (m_id d) s b data H Hb Hs) as (ds & E & [_ W2 W3 W4]); [lia|done..|].
  unfold on_device, block_write. rewrite E. eexists. split; [reflexivity|].
  destruct (Forall2_lookup_l _ _ _ _ _ W2 Hb) as (b' & Hb' & (_ & Et & Es & _)). split_and!.
  - split; [done|]. exists b'. by rewrite <- Et.
  - unfold mounted_size. simpl. by rewrite Hb'.
  - done.
Qed.

#[export] Program Instance mounted_device : BlockDevice mounted := {
  bd_ok := mounted_ok;
  bd_size := mounted_size;
  bd_sector d := sector (m_devices d) (m_id d);
  bd_read s := on_device (fun id => block_read id s);
  bd_write s data := on_device (fun id => block_write id s data);
  bd_read_ok := mounted_read;
  bd_write_ok := mounted_write
}.
Next Obligation. intros d (b & H & Hb & _ & ->)%mounted_inv. by destruct (H _ _ Hb). Qed.
Next Obligation. intros d s (b & H & Hb & _ & ->)%mounted_inv Hs. eapply sector_length; [done..|lia]. Qed.
Next Obligation.
  intros d s (b & H & Hb & _ & ->)%mounted_inv Hs. unfold on_device, block_read. cbn [read_from].
  pose proof (check_sector_ok (m_devices d) (m_id d) s b Hb) as Ec. rewrite (proj2 (Z.leb_le _ _) Hs) in Ec.
  unfold mbind at 1, K_bind at 1. by rewrite Ec.
Qed.
Next Obligation.
  intros d s data (b & H & Hb & _ & ->)%mounted_inv Hs. unfold on_device, block_write. cbn [write_to].
  pose proof (check_sector_ok (m_devices d) (m_id d) s b Hb) as Ec. rewrite (proj2 (Z.leb_le _ _) Hs) in Ec.
  unfold mbind at 1, K_bind at 1. by rewrite Ec.
Qed.

(** ** Partition tables *)

(** The device that is scanned: its size and its first sector. *)
Record scanned (id : nat) (n : Z) (pt : list Z) (ds : devices) : Prop := {
  sc_ok : devices_ok ds;
  sc_block : exists b, all_blocks ds !! id = Some b /\ b_size b = n /\ b_type b <> BLOCK_FOREIGN;
  sc_table : sector ds id 0 = pt
}.

Lemma sector_app ds bs roles fuel id s :
  devices_ok ds -> (id < length (all_blocks ds))%nat ->
  sector_at fuel (mkDevices (all_blocks ds ++ bs) roles) id s = sector_at fuel ds id s.
Proof.
  intros D. revert id s. induction fuel as [|fuel IH]; intros id s Hid; [done|]. cbn [sector_at all_blocks].
  rewrite lookup_app_l by done. destruct (all_blocks ds !! id) as [b|] eqn:Eb; [|done].
  destruct (D id b Eb) as [_ Ho]. destruct (b_ops b); [done|]. apply IH. lia.
Qed.

Lemma register_ok ds b :
  devices_ok ds -> block_ok (all_blocks ds) (length (all_blocks ds)) b ->
  devices_ok (mkDevices (all_blocks ds ++ [b]) (block_by_role ds)).
Proof.
  intros D Hb id b' Hl. simpl in *.
  assert (Hgen : block_ok (all_blocks ds) id b').
  { apply lookup_app_Some in Hl as [Hl|[Hge Hl]]; [by apply D|]. apply list_lookup_singleton_Some in Hl as [E <-].
    by replace id with (length (all_blocks ds)) by lia. }
  destruct Hgen as [H1 H2]. split; [done|]. destruct (b_ops b') as [|p st]; [done|].
  destruct H2 as (Hst & Hp & pb & Hpb & H). split_and!; [done..|]. exists pb. split; [|done].
  by apply lookup_app_l_Some.
Qed.

(** An entry that makes a partition of a device of [n] sectors. *)
Definition used_entry (e : partition_table_entry) : bool := negb ((e_size e =? 0) || (e_type e =? 0)).
Definition fits (n : Z) (e : partition_table_entry) (start : Z) : bool := (start <? n) && (start + e_size e <=? n).
Definition partition_of (id : nat) (e : partition_table_entry) (start : Z) (b : block) : Prop :=
  b_type b = partition_type (e_type e) /\ b_size b = e_size e /\ b_ops b = partition_operations id start.
Definition entry_ok (e : partition_table_entry) : Prop := 0 <= e_offset e < 2 ^ 32 /\ 0 <= e_size e < 2 ^ 32.

Lemma found_partition_ok id n pt ds e start nr :
  scanned id n pt ds -> entry_ok e -> 0 <= start < 2 ^ 32 ->
  exists news ds', found_partition id (e_type e) start (e_size e) nr ds = Ok (tt, ds') /\ scanned id n pt ds' /\
    all_blocks ds' = all_blocks ds ++ news /\ block_by_role ds' = block_by_role ds /\
    if fits n e start then exists b, news = [b] /\ partition_of id e start b else news = [].
Proof.
  intros [D (b & Hb & Hn & Hty) Hpt] [_ He] Hst. destruct (D id b Hb) as [Hsz _]. unfold found_partition, block_size.
  rewrite bind_assoc, (bind_ok _ _ _ _ _ (get_block_ok ds id b Hb)), ret_bind, Hn. unfold fits.
  assert (Hstay : forall o : bool, o = false -> exists news ds', Ok (tt, ds) = Ok (tt, ds') /\ scanned id n pt ds' /\
    all_blocks ds' = all_blocks ds ++ news /\ block_by_role ds' = block_by_role ds /\
    if o then exists b, news = [b] /\ partition_of id e start b else news = []).
  { intros o ->. exists [], ds. rewrite app_nil_r. split_and!; [done| |done..]. split; [done|by exists b|done]. }
  destruct (Z.leb_spec n start) as [Hge|Hlt].
  { apply Hstay. apply andb_false_intro1. by apply Z.ltb_ge. }
  assert (Hbad : (u32 (start + e_size e) <? start) || (n <? u32 (start + e_size e)) = negb (start + e_size e <=? n)).
  { destruct (Z_lt_le_dec (start + e_size e) (2 ^ 32)) as [Hs|Hs].
    - rewrite wrapu_small by lia. case_cmp; (done || lia).
    - replace (u32 (start + e_size e)) with (start + e_size e - 2 ^ 32); [case_cmp; (done || lia)|]. unfold wrapu.
      replace (start + e_size e) with (start + e_size e - 2 ^ 32 + 1 * 2 ^ 32) at 2 by lia.
      rewrite Z.mod_add by done. rewrite Z.mod_small; lia. }
  rewrite Hbad, (proj2 (Z.ltb_lt start n) Hlt). cbn [andb].
  destruct (Z.leb_spec (start + e_size e) n) as [Hfit|_]; cbn [negb]; [|by apply (Hstay false)].
  unfold block_name. rewrite bind_assoc, (bind_ok _ _ _ _ _ (get_block_ok ds id b Hb)), ret_bind.
  destruct (part_name_ok (b_name b) nr) as [nm Enm].
  rewrite (bind_ok (lift (part_name (b_name b) nr)) _ ds nm ds) by (unfold lift; by rewrite Enm).
  set (nb := mkBlock (take 15 nm) (partition_type (e_type e)) (e_size e) (partition_operations id start) 0 0).
  exists [nb], (mkDevices (all_blocks ds ++ [nb]) (block_by_role ds)). split; [done|].
  assert (Hlt' : (id < length (all_blocks ds))%nat) by (by eapply lookup_lt_Some).
  split_and!; [|done..|by exists nb]. split.
  - apply register_ok; [done|]. split; [done|]. simpl. split_and!; [lia|done|]. exists b. split_and!; [done|lia|done].
  - exists b. split; [|done]. simpl. by apply lookup_app_l_Some.
  - rewrite <- Hpt. by apply sector_app.
Qed.

(** Entries of ordinary partitions; [post] are the entries after them. *)
Definition ordinary (e : partition_table_entry) : Prop := used_entry e && extended (e_type e) = false.
Definition is_found (n s : Z) (e : partition_table_entry) : bool :=
  used_entry e && fits n e (u32 (e_offset e + s)).

Lemma entries_ok scan id n pt s prim post es nr ds :
  scanned id n pt ds -> Forall entry_ok es -> Forall ordinary es ->
  exists news nr' ds', entries_loop scan id s prim (es ++ post) nr ds = entries_loop scan id s prim post nr' ds' /\
    scanned id n pt ds' /\ all_blocks ds' = all_blocks ds ++ news /\
    Forall2 (fun e b => partition_of id e (u32 (e_offset e + s)) b) (filter (fun e => is_found n s e = true) es) news.
Proof.
  intros Hs He Ho. revert nr ds Hs. induction es as [|e es IH]; intros nr ds Hs.
  { exists [], nr, ds. rewrite app_nil_r. by split_and!. }
  apply Forall_cons in He as [He Hes], Ho as [Ho Hos]. specialize (IH Hes Hos). simpl.
  unfold ordinary, used_entry in Ho. unfold is_found, used_entry.
  destruct ((e_size e =? 0) || (e_type e =? 0)) eqn:Eu; cbn [negb andb] in *.
  - rewrite ret_bind. destruct (IH nr ds Hs) as (news & nr' & ds' & E & Hs' & Ha & Hn). exists news, nr', ds'.
    rewrite filter_cons_False by (by rewrite Eu). done.
  - rewrite Ho. rewrite bind_assoc.
    destruct (found_partition_ok id n pt ds e (u32 (e_offset e + s)) (nr + 1) Hs He) as (new & ds1 & E1 & Hs1 & Ha1 & _ & Hf).
    { by apply wrapu_range. }
    rewrite (bind_ok _ _ _ _ _ E1), ret_bind.
    destruct (IH (nr + 1) ds1 Hs1) as (news & nr' & ds' & E & Hs' & Ha & Hn).
    exists (new ++ news), nr', ds'. rewrite Ha, Ha1, app_assoc. split_and!; [done..|].
    destruct (fits n e _) eqn:Ef.
    + rewrite filter_cons_True by (by rewrite Eu, Ef). destruct Hf as (b & -> & Hb). by constructor.
    + rewrite filter_cons_False by (by rewrite Eu, Ef). by subst new.
Qed.

Lemma read_table id n pt ds :
  scanned id n pt ds -> 0 < n ->
  exists ds', block_read id 0 ds = Ok (pt, ds') /\ scanned id n pt ds' /\
    Forall2 same_content (all_blocks ds) (all_blocks ds').
Proof.
  intros [D (b & Hb & Hn & Hty) Hpt] Hpos.
  destruct (read_from_ok (S id) ds id 0 b D Hb) as (ds' & E & Hc & _); [lia|lia|].
  exists ds'. rewrite <- Hpt at 1. split; [done|]. split; [|done].
  destruct (Forall2_lookup_l _ _ _ _ _ Hc Hb) as (b' & Hb' & (_ & Et & Es & _)). split.
  - by eapply same_content_ok.
  - exists b'. rewrite <- Et, <- Es. done.
  - rewrite <- Hpt. by apply sector_same.
Qed.

Lemma table_entry_ok pt i : Forall byte pt -> entry_ok (table_entry pt i).
Proof.
  intros H. assert (Hr : forall a, 0 <= le_value (slice (slice pt (446 + 16 * i) 16) a 4) < 2 ^ 32).
  { intros a. assert (Hb : Forall byte (slice (slice pt (446 + 16 * i) 16) a 4)).
    { unfold slice. by apply Forall_take, Forall_drop, Forall_take, Forall_drop. }
    pose proof (le_value_range _ Hb) as Hl. split; [lia|]. eapply Z.lt_le_trans; [apply Hl|]. apply Z.pow_le_mono_r; [done|].
    assert (length (slice (slice pt (446 + 16 * i) 16) a 4) <= 4)%nat by apply firstn_le_length. lia. }
  split; apply Hr.
Qed.

(** C23: Scanning a device whose partition table has no extended partition, with memory for the
    table and for the descriptors of the partitions, ends, and registers exactly the partitions of the table that lie on the device, in order, as devices with the
    size and the type of the entry; the devices known before stay as they are, and afterwards
    every sector of every device is a sector of a disk. *)
Theorem partitions_found tables id n pt ds :
  scanned id n pt ds -> 0 < n -> Forall byte pt -> signature pt = 0xaa55 ->
  Forall ordinary (table_entry pt <$> [0; 1; 2; 3]) ->
  exists old news ds', partition_scan (S tables) id ds = Ok (tt, ds') /\ devices_ok ds' /\
    all_blocks ds' = old ++ news /\ Forall2 same_content (all_blocks ds) old /\
    Forall2 (fun e b => partition_of id e (e_offset e) b)
      (filter (fun e => is_found n 0 e = true) (table_entry pt <$> [0; 1; 2; 3])) news.
Proof.
  intros Hs Hpos Hb Hsig Ho. pose proof Hs as [_ (b & Hbk & Hn & _) _]. unfold partition_scan. cbn [read_partition_table].
  unfold block_size. rewrite bind_assoc, bind_assoc, (bind_ok _ _ _ _ _ (get_block_ok ds id b Hbk)), ret_bind, Hn.
  rewrite (proj2 (Z.leb_gt n 0) Hpos). destruct (read_table id n pt ds Hs Hpos) as (ds1 & E1 & Hs1 & Hc).
  rewrite bind_assoc, (bind_ok _ _ _ _ _ E1), Hsig. cbn [negb Z.eqb Pos.eqb].
  assert (He : Forall entry_ok (table_entry pt <$> [0; 1; 2; 3])) by (apply Forall_fmap, Forall_forall; intros; by apply table_entry_ok).
  destruct (entries_ok (read_partition_table tables id) id n pt 0 0 [] _ 0 ds1 Hs1 He Ho) as (news & nr & ds' & E & Hs' & Ha & Hf).
  rewrite app_nil_r in E. rewrite (bind_ok _ _ ds1 nr ds') by exact E.
  exists (all_blocks ds1), news, ds'. split_and!; [done|apply Hs'|done|done|].
  apply Forall2_same_length_lookup in Hf as [Hl Hf]. apply Forall2_same_length_lookup. split; [done|].
  intros i e eb Hi Heb. specialize (Hf i e eb Hi Heb). apply list_elem_of_lookup_2, list_elem_of_filter in Hi as [_ Hi].
  rewrite Forall_forall in He. destruct (He e Hi) as [Hoff _]. by rewrite Z.add_0_r, wrapu_small in Hf by lia.
Qed.

(** An example of a disk, with its partition table. *)
Definition entry_bytes (type offset size : Z) : list Z :=
  [0; 0; 0; 0; type; 0; 0; 0] ++ le_bytes 4 offset ++ le_bytes 4 size.
Definition table_bytes (es : list (Z * Z * Z)) : list Z :=
  replicate 446 0 ++ concat ((fun '(t, o, n) => entry_bytes t o n) <$> es) ++ [0x55; 0xaa].
Definition example_disk (es : list (Z * Z * Z)) : devices :=
  mkDevices [mkBlock [104; 100; 97] BLOCK_RAW 100
    (ide_operations (fun s => if s =? 0 then table_bytes es else replicate 512 0)) 0 0] [None; None; None; None].

Lemma example_scanned es :
  length (table_bytes es) = 512%nat -> scanned 0 100 (table_bytes es) (example_disk es).
Proof.
  intros Hl. split.
  - intros id b Hb. apply list_lookup_singleton_Some in Hb as [-> <-]. split; [done|]. simpl. intros s _.
    destruct (s =? 0); [done|reflexivity].
  - eexists. split; [done|]. split; [done|]. vm_compute. discriminate.
  - done.
Qed.

Lemma partitions_found_witness :
  let es := [(0x20, 1, 9); (0x21, 10, 40); (0, 0, 0); (0x22, 60, 50)] in
  exists old news ds', partition_scan 1 0 (example_disk es) = Ok (tt, ds') /\ devices_ok ds' /\
    all_blocks ds' = old ++ news /\ Forall2 same_content (all_blocks (example_disk es)) old /\
    Forall2 (fun e b => partition_of 0 e (e_offset e) b) [mkEntry 0x20 1 9; mkEntry 0x21 10 40] news.
Proof.
  intros es. apply (partitions_found 0 0 100 (table_bytes es) (example_disk es)).
  - by apply example_scanned.
  - reflexivity.
  - vm_compute. repeat (constructor; [split; [discriminate|reflexivity]|]). constructor.
  - reflexivity.
  - repeat constructor.
Defined.

Lemma extended_scan id n pt e pre post tables :
  0 < n -> Forall byte pt -> signature pt = 0xaa55 -> table_entry pt <$> [0; 1; 2; 3] = pre ++ e :: post -> Forall ordinary pre ->
  used_entry e && extended (e_type e) = true -> 2 * e_offset e < n -> forall s prim nr ds,
  scanned id n pt ds -> 0 <= s < n -> s = 0 \/ prim = e_offset e ->
  read_partition_table tables id s prim nr ds = Panic.
Proof.
  intros Hpos Hb Hsig Htab Hpre He Ho. 
  assert (Hok : Forall entry_ok (pre ++ e :: post)).
  { rewrite <- Htab. apply Forall_fmap, Forall_forall. intros. by apply table_entry_ok. }
  apply Forall_app in Hok as [Hokp Hok]. apply Forall_cons in Hok as [[Heo _] _].
  induction tables as [|tables IH]; intros s prim nr ds Hs Hsn Hpr; cbn [read_partition_table];
  pose proof Hs as [D (b & Hbk & Hn & _) _]; destruct (D id b Hbk) as [Hsz _]; unfold block_size;
  rewrite bind_assoc, (bind_ok _ _ _ _ _ (get_block_ok ds id b Hbk)), ret_bind, Hn;
  rewrite (proj2 (Z.leb_gt n s)) by lia; [done|]. destruct (read_table id n pt ds Hs Hpos) as (ds1 & E1 & Hs1 & _).
  rewrite (bind_ok _ _ _ _ _ E1), Hsig. cbn [negb Z.eqb Pos.eqb]. rewrite Htab.
  destruct (entries_ok (read_partition_table tables id) id n pt s prim (e :: post) pre nr ds1 Hs1 Hokp Hpre)
    as (news & nr' & ds' & E & Hs' & _ & _). rewrite E. cbn [entries_loop].
  apply andb_true_iff in He as [Hu Hx]. unfold used_entry in Hu. apply negb_true_iff in Hu. rewrite Hu, Hx.
  unfold mbind, K_bind. destruct (Z.eqb_spec s 0) as [Es|Hne].
  - by rewrite IH by (done || lia || by right).
  - destruct Hpr as [Hz|Hz]; [done|]. rewrite Hz. rewrite wrapu_small by lia. by rewrite IH by (done || lia || by right).
Qed.

(** C24: The scan of a device whose partition table has an extended partition in its first half
    never comes to an end: for however many tables there is memory, it uses it all up and panics.
    Every table is read from sector 0 instead of its own sector, so that the extended partition
    is found in itself again and again, while no table is freed. *)
Theorem extended_scan_panics id n pt ds pre e post tables :
  scanned id n pt ds -> Forall byte pt -> signature pt = 0xaa55 ->
  table_entry pt <$> [0; 1; 2; 3] = pre ++ e :: post -> Forall ordinary pre ->
  used_entry e && extended (e_type e) = true -> 2 * e_offset e < n -> 0 < n ->
  partition_scan tables id ds = Panic.
Proof.
  intros Hs Hb Hsig Htab Hpre He Ho Hpos. unfold partition_scan, mbind, K_bind.
  by rewrite (extended_scan id n pt e pre post tables Hpos Hb Hsig Htab Hpre He Ho) by (done || lia || by left).
Qed.
Lemma extended_scan_panics_witness :
  partition_scan 1000 0 (example_disk [(0x20, 1, 9); (0x05, 10, 40); (0, 0, 0); (0, 0, 0)]) = Panic.
Proof.
  set (es := [(0x20, 1, 9); (0x05, 10, 40); (0, 0, 0); (0, 0, 0)]).
  apply (extended_scan_panics 0 100 (table_bytes es) (example_disk es) [mkEntry 0x20 1 9] (mkEntry 0x05 10 40)
    [mkEntry 0 0 0; mkEntry 0 0 0] 1000).
  - by apply example_scanned.
  - vm_compute. repeat (constructor; [split; [discriminate|reflexivity]|]). constructor.
  - reflexivity.
  - vm_compute. reflexivity.
  - repeat constructor.
  - reflexivity.
  - reflexivity.
  - reflexivity.
Defined.
