(* ===== verification/Filesys.v ===== *)
(** The file system (filesys/): inodes, the free map, open files, directories, and the
    operations on names, over any block device.

    Inodes, open files and directories in memory are objects at addresses; [brk] is the
    next address and [memory] tells which of the next allocations succeed (all, when the
    list is at its end).  Buffers are lists of bytes: a read returns the bytes that it
    stores, a write gets the buffer. *)

From stdpp Require Import gmap.
From S2P Require Import Prelude KMonad Bytes Bitmap Block.

Definition INODE_MAGIC : Z := 0x494e4f44.
Definition FREE_MAP_SECTOR : Z := 0.
Definition ROOT_DIR_SECTOR : Z := 1.
Definition NAME_MAX : Z := 14.

(** ** Data *)

Record inode_disk := mkInodeDisk { start : Z; length_ : Z; magic : Z }.
Definition disk_bytes (d : inode_disk) : list Z :=
  le_bytes 4 (start d) ++ le_bytes 4 (u32 (length_ d)) ++ le_bytes 4 (magic d) ++ replicate 500 0.
Definition disk_inode (bs : list Z) : inode_disk :=
  mkInodeDisk (le_value (slice bs 0 4)) (s32 (le_value (slice bs 4 4))) (le_value (slice bs 8 4)).

Record inode := mkInode { i_sector : Z; open_cnt : Z; removed : bool; deny_write_cnt : Z; data : inode_disk }.
Record file := mkFile { f_inode : Z; f_pos : Z; deny_write : bool }.
Record dir := mkDir { d_inode : Z; d_pos : Z }.

Definition DIR_ENTRY_SIZE : Z := 20.
Definition entry_sector (e : list Z) : Z := le_value (slice e 0 4).
Definition entry_name (e : list Z) : list Z := slice e 4 15.
Definition entry_in_use (e : list Z) : bool := negb (zget 0 e 19 =? 0).

Section Filesys.
Context {D : Type} `{!BlockDevice D}.

Record fs := mkFs {
  fs_device : D;
  free_map : bitmap;
  free_map_file : option Z;
  inodes : gmap Z inode;
  open_inodes : list Z;
  files : gmap Z file;
  dirs : gmap Z dir;
  brk : Z;
  memory : list bool
}.

Definition set_device (d : D) (s : fs) : fs :=
  mkFs d (free_map s) (free_map_file s) (inodes s) (open_inodes s) (files s) (dirs s) (brk s) (memory s).
Definition set_map (b : bitmap) (s : fs) : fs :=
  mkFs (fs_device s) b (free_map_file s) (inodes s) (open_inodes s) (files s) (dirs s) (brk s) (memory s).
Definition set_map_file (f : option Z) (s : fs) : fs :=
  mkFs (fs_device s) (free_map s) f (inodes s) (open_inodes s) (files s) (dirs s) (brk s) (memory s).
Definition set_inodes (ino : gmap Z inode) (l : list Z) (s : fs) : fs :=
  mkFs (fs_device s) (free_map s) (free_map_file s) ino l (files s) (dirs s) (brk s) (memory s).
Definition set_files (fl : gmap Z file) (s : fs) : fs :=
  mkFs (fs_device s) (free_map s) (free_map_file s) (inodes s) (open_inodes s) fl (dirs s) (brk s) (memory s).
Definition set_dirs (dr : gmap Z dir) (s : fs) : fs :=
  mkFs (fs_device s) (free_map s) (free_map_file s) (inodes s) (open_inodes s) (files s) dr (brk s) (memory s).

(** A computation on a part of the state. *)
Definition on_part {P A} (get_part : fs -> P) (set_part : P -> fs -> fs) (m : K P A) : K fs A := fun s =>
  match m (get_part s) with
  | Ok (a, p) => Ok (a, set_part p s)
  | Panic => Panic
  | NoFuel => NoFuel
  end.
Definition on_dev {A} : K D A -> K fs A := on_part fs_device set_device.
Definition on_map {A} : K bitmap A -> K fs A := on_part free_map set_map.

(** [malloc] and [calloc]: a new address, or none. *)
Definition alloc : K fs (option Z) := fun s =>
  let after ms b := mkFs (fs_device s) (free_map s) (free_map_file s) (inodes s) (open_inodes s) (files s) (dirs s) b ms in
  match memory s with
  | false :: ms => Ok (None, after ms (brk s))
  | true :: ms => Ok (Some (brk s), after ms (brk s + 1))
  | [] => Ok (Some (brk s), after [] (brk s + 1))
  end.

(** A part of an array; outside of it is a panic. *)
Definition part (l : list Z) (ofs n : Z) : K fs (list Z) :=
  ASSERT ((0 <=? ofs) && (ofs + n <=? len l));; mret (slice l ofs n).

(** ** inode.c: reading and writing *)

Definition get_inode (p : Z) : K fs inode := s ← get; the (inodes s !! p).
Definition put_inode (p : Z) (i : inode) : K fs unit :=
  modify (fun s => set_inodes (<[p := i]> (inodes s)) (open_inodes s) s).

Definition bytes_to_sectors (size : Z) : Z := u32 (Z.quot (s32 (size + BLOCK_SECTOR_SIZE - 1)) BLOCK_SECTOR_SIZE).
Definition byte_to_sector (i : inode) (pos : Z) : Z :=
  if pos <? length_ (data i) then u32 (start (data i) + Z.quot pos BLOCK_SECTOR_SIZE) else u32 (-1).
Definition inode_length (p : Z) : K fs Z := i ← get_inode p; mret (length_ (data i)).

(** The bounce buffer is allocated when it is needed for the first time. *)
Definition need_bounce (bounce : bool) : K fs bool :=
  if bounce then mret true else p ← alloc; mret (match p with Some _ => true | None => false end).

Definition chunk (i : inode) (size offset : Z) : Z :=
  let sector_ofs := Z.rem offset BLOCK_SECTOR_SIZE in
  let inode_left := s32 (length_ (data i) - offset) in
  let sector_left := BLOCK_SECTOR_SIZE - sector_ofs in
  let min_left := if inode_left <? sector_left then inode_left else sector_left in
  if size <? min_left then size else min_left.

Fixpoint read_loop (fuel : nat) (ip : Z) (bounce : bool) (size offset : Z) (buffer : list Z) : K fs (list Z) :=
  if 0 <? size then
    match fuel with
    | O => no_fuel
    | S fuel' =>
        i ← get_inode ip;
        let sector_idx := byte_to_sector i offset in
        let sector_ofs := Z.rem offset BLOCK_SECTOR_SIZE in
        let chunk_size := chunk i size offset in
        if chunk_size <=? 0 then mret buffer
        else if (sector_ofs =? 0) && (chunk_size =? BLOCK_SECTOR_SIZE) then
          bs ← on_dev (bd_read sector_idx);
          read_loop fuel' ip bounce (size - chunk_size) (offset + chunk_size) (buffer ++ bs)
        else
          ok ← need_bounce bounce;
          if (ok : bool) then
            bs ← on_dev (bd_read sector_idx);
            bs ← part bs sector_ofs chunk_size;
            read_loop fuel' ip true (size - chunk_size) (offset + chunk_size) (buffer ++ bs)
          else mret buffer
    end
  else mret buffer.
(** The bytes read; every round reads at least one. *)
Definition inode_read_at (ip size offset : Z) : K fs (list Z) :=
  read_loop (Z.to_nat size) ip false size offset [].

Fixpoint write_loop (fuel : nat) (ip : Z) (bounce : bool) (buffer : list Z) (size offset written : Z) : K fs Z :=
  if 0 <? size then
    match fuel with
    | O => no_fuel
    | S fuel' =>
        i ← get_inode ip;
        let sector_idx := byte_to_sector i offset in
        let sector_ofs := Z.rem offset BLOCK_SECTOR_SIZE in
        let sector_left := BLOCK_SECTOR_SIZE - sector_ofs in
        let chunk_size := chunk i size offset in
        if chunk_size <=? 0 then mret written
        else
          bs ← part buffer written chunk_size;
          if (sector_ofs =? 0) && (chunk_size =? BLOCK_SECTOR_SIZE) then
            on_dev (bd_write sector_idx bs);;
            write_loop fuel' ip bounce buffer (size - chunk_size) (offset + chunk_size) (written + chunk_size)
          else
            ok ← need_bounce bounce;
            if (ok : bool) then
              old ← (if (0 <? sector_ofs) || (chunk_size <? sector_left) then on_dev (bd_read sector_idx)
                     else mret (replicate (Z.to_nat BLOCK_SECTOR_SIZE) 0));
              ASSERT (0 <=? sector_ofs);;
              on_dev (bd_write sector_idx (splice old sector_ofs bs));;
              write_loop fuel' ip true buffer (size - chunk_size) (offset + chunk_size) (written + chunk_size)
            else mret written
    end
  else mret written.
Definition inode_write_at (ip : Z) (buffer : list Z) (size offset : Z) : K fs Z :=
  i ← get_inode ip;
  if negb (deny_write_cnt i =? 0) then mret 0
  else write_loop (Z.to_nat size) ip false buffer size offset 0.

Definition inode_deny_write (ip : Z) : K fs unit :=
  i ← get_inode ip;
  let n := deny_write_cnt i + 1 in
  put_inode ip (mkInode (i_sector i) (open_cnt i) (removed i) n (data i));;
  ASSERT (n <=? open_cnt i).
Definition inode_allow_write (ip : Z) : K fs unit :=
  i ← get_inode ip;
  ASSERT (0 <? deny_write_cnt i);;
  ASSERT (deny_write_cnt i <=? open_cnt i);;
  put_inode ip (mkInode (i_sector i) (open_cnt i) (removed i) (deny_write_cnt i - 1) (data i)).
Definition inode_reopen (ip : option Z) : K fs (option Z) :=
  match ip with
  | Some p =>
      i ← get_inode p;
      put_inode p (mkInode (i_sector i) (open_cnt i + 1) (removed i) (deny_write_cnt i) (data i));;
      mret ip
  | None => mret None
  end.
Definition inode_get_inumber (ip : Z) : K fs Z := i ← get_inode ip; mret (i_sector i).
Definition inode_remove (ip : Z) : K fs unit :=
  i ← get_inode ip;
  put_inode ip (mkInode (i_sector i) (open_cnt i) true (deny_write_cnt i) (data i)).

(** ** bitmap.c: files *)

Definition bits_bytes (ws : list Z) : list Z := concat (le_bytes 4 <$> ws).
Fixpoint bytes_words (n : nat) (bs : list Z) : list Z :=
  match n with O => [] | S n' => le_value (take 4 bs) :: bytes_words n' (drop 4 bs) end.

Definition get_file (p : Z) : K fs file := s ← get; the (files s !! p).
Definition put_file (p : Z) (f : file) : K fs unit := modify (fun s => set_files (<[p := f]> (files s)) s).
Definition file_read_at (fp size file_ofs : Z) : K fs (list Z) :=
  f ← get_file fp; inode_read_at (f_inode f) size file_ofs.
Definition file_write_at (fp : Z) (buffer : list Z) (size file_ofs : Z) : K fs Z :=
  f ← get_file fp; inode_write_at (f_inode f) buffer size file_ofs.

Definition bitmap_file_size : K fs Z := b ← gets free_map; mret (byte_cnt (bit_cnt b)).
Definition bitmap_write (fp : Z) : K fs bool :=
  b ← gets free_map;
  let size := s32 (byte_cnt (bit_cnt b)) in
  n ← file_write_at fp (bits_bytes (bits b)) size 0;
  mret (n =? size).
Definition bitmap_read (fp : Z) : K fs bool :=
  b ← gets free_map;
  if 0 <? bit_cnt b then
    let size := s32 (byte_cnt (bit_cnt b)) in
    bs ← file_read_at fp size 0;
    let ws := bytes_words (length (bits b)) (splice (bits_bytes (bits b)) 0 bs) in
    let last := Bitmap.elem_cnt (bit_cnt b) - 1 in
    w ← the (zlookup ws last);
    modify (set_map (mkBitmap (bit_cnt b) (zset ws last (Z.land w (last_mask b)))));;
    mret (len bs =? size)
  else mret true.

(** ** free-map.c *)

Definition free_map_allocate (cnt : Z) : K fs (option Z) :=
  sector ← on_map (bitmap_scan_and_flip 0 cnt false);
  file ← gets free_map_file;
  ok ← (if sector =? BITMAP_ERROR then mret true
        else match file with Some fp => bitmap_write fp | None => mret true end);
  if (ok : bool) then mret (if sector =? BITMAP_ERROR then None else Some sector)
  else on_map (bitmap_set_multiple sector cnt false);; mret None.
Definition free_map_release (sector cnt : Z) : K fs unit :=
  all ← on_map (bitmap_all sector cnt);
  ASSERT all;;
  on_map (bitmap_set_multiple sector cnt false);;
  file ← gets free_map_file;
  fp ← the file;
  bitmap_write fp;;
  mret tt.

(** ** inode.c: creating, opening and closing *)

Definition inode_init : K fs unit := modify (fun s => set_inodes (inodes s) [] s).

Fixpoint zero_loop (n : nat) (sector : Z) : K fs unit :=
  match n with
  | O => mret tt
  | S n' => on_dev (bd_write sector (replicate (Z.to_nat BLOCK_SECTOR_SIZE) 0));; zero_loop n' (u32 (sector + 1))
  end.
Definition inode_create (sector length : Z) : K fs bool :=
  ASSERT (0 <=? length);;
  p ← alloc;
  match p with
  | Some _ =>
      let sectors := bytes_to_sectors length in
      first ← free_map_allocate sectors;
      match first with
      | Some first =>
          on_dev (bd_write sector (disk_bytes (mkInodeDisk first length INODE_MAGIC)));;
          zero_loop (Z.to_nat sectors) first;;
          mret true
      | None => mret false
      end
  | None => mret false
  end.

Fixpoint find_open (l : list Z) (sector : Z) : K fs (option Z) :=
  match l with
  | [] => mret None
  | p :: l' => i ← get_inode p; if i_sector i =? sector then mret (Some p) else find_open l' sector
  end.
Definition inode_open (sector : Z) : K fs (option Z) :=
  s ← get;
  found ← find_open (open_inodes s) sector;
  match found with
  | Some p => inode_reopen (Some p)
  | None =>
      p ← alloc;
      match p with
      | Some p =>
          bs ← on_dev (bd_read sector);
          modify (fun s => set_inodes (<[p := mkInode sector 1 false 0 (disk_inode bs)]> (inodes s)) (p :: open_inodes s) s);;
          mret (Some p)
      | None => mret None
      end
  end.
Definition inode_close (ip : option Z) : K fs unit :=
  match ip with
  | None => mret tt
  | Some p =>
      i ← get_inode p;
      put_inode p (mkInode (i_sector i) (open_cnt i - 1) (removed i) (deny_write_cnt i) (data i));;
      if open_cnt i - 1 =? 0 then
        modify (fun s => set_inodes (inodes s) (filter (fun q => q <> p) (open_inodes s)) s);;
        (if removed i then
           free_map_release (i_sector i) 1;;
           free_map_release (start (data i)) (bytes_to_sectors (length_ (data i)))
         else mret tt);;
        modify (fun s => set_inodes (delete p (inodes s)) (open_inodes s) s)
      else mret tt
  end.

(** ** file.c *)

Definition file_open (ip : option Z) : K fs (option Z) :=
  fp ← alloc;
  match ip, fp with
  | Some i, Some p => put_file p (mkFile i 0 false);; mret (Some p)
  | _, _ => inode_close ip;; mret None
  end.
Definition file_reopen (fp : Z) : K fs (option Z) :=
  f ← get_file fp; ip ← inode_reopen (Some (f_inode f)); file_open ip.
Definition file_deny_write (fp : Z) : K fs unit :=
  f ← get_file fp;
  if negb (deny_write f) then put_file fp (mkFile (f_inode f) (f_pos f) true);; inode_deny_write (f_inode f)
  else mret tt.
Definition file_allow_write (fp : Z) : K fs unit :=
  f ← get_file fp;
  if deny_write f then put_file fp (mkFile (f_inode f) (f_pos f) false);; inode_allow_write (f_inode f)
  else mret tt.
Definition file_close (fp : option Z) : K fs unit :=
  match fp with
  | None => mret tt
  | Some p =>
      file_allow_write p;;
      f ← get_file p;
      inode_close (Some (f_inode f));;
      modify (fun s => set_files (delete p (files s)) s)
  end.
Definition file_get_inode (fp : Z) : K fs Z := f ← get_file fp; mret (f_inode f).
Definition file_read (fp size : Z) : K fs (list Z) :=
  f ← get_file fp;
  bs ← inode_read_at (f_inode f) size (f_pos f);
  put_file fp (mkFile (f_inode f) (s32 (f_pos f + len bs)) (deny_write f));;
  mret bs.
Definition file_write (fp : Z) (buffer : list Z) (size : Z) : K fs Z :=
  f ← get_file fp;
  n ← inode_write_at (f_inode f) buffer size (f_pos f);
  put_file fp (mkFile (f_inode f) (s32 (f_pos f + n)) (deny_write f));;
  mret n.
Definition file_length (fp : Z) : K fs Z := f ← get_file fp; inode_length (f_inode f).
Definition file_seek (fp new_pos : Z) : K fs unit :=
  f ← get_file fp;
  ASSERT (0 <=? new_pos);;
  put_file fp (mkFile (f_inode f) new_pos (deny_write f)).
Definition file_tell (fp : Z) : K fs Z := f ← get_file fp; mret (f_pos f).

(** ** free-map.c: the file of the map *)

(** [junk] are the words that [malloc] returns for the bits. *)
Definition free_map_init (junk : list Z) : K fs unit :=
  s ← get;
  p ← alloc;
  q ← (match p with Some _ => alloc | None => mret None end);
  match q, bitmap_create (bd_size (fs_device s)) (Some junk) with
  | Some _, Ok (Some b) =>
      modify (set_map b);;
      on_map (bitmap_mark FREE_MAP_SECTOR);;
      on_map (bitmap_mark ROOT_DIR_SECTOR)
  | _, _ => panic
  end.
Definition free_map_open : K fs unit :=
  ip ← inode_open FREE_MAP_SECTOR;
  fp ← file_open ip;
  modify (set_map_file fp);;
  fp ← the fp;
  ok ← bitmap_read fp;
  ASSERT ok.
Definition free_map_close : K fs unit := f ← gets free_map_file; file_close f.
Definition free_map_create : K fs unit :=
  n ← bitmap_file_size;
  ok ← inode_create FREE_MAP_SECTOR (s32 n);
  ASSERT ok;;
  ip ← inode_open FREE_MAP_SECTOR;
  fp ← file_open ip;
  modify (set_map_file fp);;
  fp ← the fp;
  ok ← bitmap_write fp;
  ASSERT ok.

(** ** directory.c *)

Definition get_dir (p : Z) : K fs dir := s ← get; the (dirs s !! p).
Definition put_dir (p : Z) (d : dir) : K fs unit := modify (fun s => set_dirs (<[p := d]> (dirs s)) s).

Definition dir_create (sector entry_cnt : Z) : K fs bool :=
  inode_create sector (s32 (u32 (entry_cnt * DIR_ENTRY_SIZE))).
Definition dir_open (ip : option Z) : K fs (option Z) :=
  dp ← alloc;
  match ip, dp with
  | Some i, Some p => put_dir p (mkDir i 0);; mret (Some p)
  | _, _ => inode_close ip;; mret None
  end.
Definition dir_open_root : K fs (option Z) := ip ← inode_open ROOT_DIR_SECTOR; dir_open ip.
Definition dir_reopen (dp : Z) : K fs (option Z) :=
  d ← get_dir dp; ip ← inode_reopen (Some (d_inode d)); dir_open ip.
Definition dir_close (dp : option Z) : K fs unit :=
  match dp with
  | None => mret tt
  | Some p =>
      d ← get_dir p;
      inode_close (Some (d_inode d));;
      modify (fun s => set_dirs (delete p (dirs s)) s)
  end.
Definition dir_get_inode (dp : Z) : K fs Z := d ← get_dir dp; mret (d_inode d).

(** [!strcmp (name, field)] for an array [field]; reading past it is a panic. *)
Fixpoint name_eq (name field : list Z) : K fs bool :=
  match name, field with
  | _, [] => panic
  | [], b :: _ => mret (b =? 0)
  | c :: name', b :: field' => if c =? b then name_eq name' field' else mret false
  end.

(** The loop over the entries that ends with the first short read; [stop] tells whether
    the loop ends at an entry.  The result is the offset and the bytes of the variable [e],
    which a short read changes in part. *)
Fixpoint entry_loop (fuel : nat) (stop : list Z -> K fs bool) (ip ofs : Z) (e : list Z) : K fs (bool * Z * list Z) :=
  match fuel with
  | O => no_fuel
  | S fuel' =>
      bs ← inode_read_at ip DIR_ENTRY_SIZE (s32 ofs);
      let e := splice e 0 bs in
      if len bs =? DIR_ENTRY_SIZE then
        b ← stop e;
        if (b : bool) then mret (true, ofs, e) else entry_loop fuel' stop ip (u32 (ofs + DIR_ENTRY_SIZE)) e
      else mret (false, ofs, e)
  end.
Definition entry_fuel (ip : Z) : K fs nat := n ← inode_length ip; mret (S (Z.to_nat n)).

(** [junk] are the bytes of the uninitialised variable [e]. *)
Definition lookup (dp : Z) (name junk : list Z) : K fs (option (list Z * Z)) :=
  d ← get_dir dp;
  fuel ← entry_fuel (d_inode d);
  '(found, ofs, e) ← entry_loop fuel
    (fun e => if entry_in_use e then name_eq name (entry_name e) else mret false) (d_inode d) 0 junk;
  mret (if (found : bool) then Some (e, ofs) else None).
Definition dir_lookup (dp : Z) (name junk : list Z) : K fs (option Z) :=
  r ← lookup dp name junk;
  match r with
  | Some (e, _) => inode_open (entry_sector e)
  | None => mret None
  end.
Definition dir_add (dp : Z) (name : list Z) (inode_sector : Z) (junk : list Z) : K fs bool :=
  if (len name =? 0) || (NAME_MAX <? len name) then mret false
  else
    r ← lookup dp name junk;
    match r with
    | Some _ => mret false
    | None =>
        d ← get_dir dp;
        fuel ← entry_fuel (d_inode d);
        '(_, ofs, e) ← entry_loop fuel (fun e => mret (negb (entry_in_use e))) (d_inode d) 0 junk;
        let e := splice e 19 [1] in
        let e := splice e 4 (take (Z.to_nat NAME_MAX) name ++ [0]) in
        let e := splice e 0 (le_bytes 4 inode_sector) in
        n ← inode_write_at (d_inode d) e DIR_ENTRY_SIZE (s32 ofs);
        mret (n =? DIR_ENTRY_SIZE)
    end.
Definition dir_remove (dp : Z) (name junk : list Z) : K fs bool :=
  r ← lookup dp name junk;
  match r with
  | None => mret false
  | Some (e, ofs) =>
      ip ← inode_open (entry_sector e);
      match ip with
      | None => mret false
      | Some p =>
          d ← get_dir dp;
          n ← inode_write_at (d_inode d) (splice e 19 [0]) DIR_ENTRY_SIZE (s32 ofs);
          ok ← (if n =? DIR_ENTRY_SIZE then inode_remove p;; mret true else mret false);
          inode_close ip;;
          mret ok
      end
  end.

(** The string in an array. *)
Fixpoint array_string (field : list Z) : K fs (list Z) :=
  match field with
  | [] => panic
  | b :: field' => if b =? 0 then mret [] else s ← array_string field'; mret (b :: s)
  end.
Fixpoint readdir_loop (fuel : nat) (dp : Z) : K fs (option (list Z)) :=
  match fuel with
  | O => no_fuel
  | S fuel' =>
      d ← get_dir dp;
      e ← inode_read_at (d_inode d) DIR_ENTRY_SIZE (d_pos d);
      if len e =? DIR_ENTRY_SIZE then
        put_dir dp (mkDir (d_inode d) (s32 (d_pos d + DIR_ENTRY_SIZE)));;
        if entry_in_use e then s ← array_string (entry_name e); mret (Some (take (Z.to_nat NAME_MAX) s))
        else readdir_loop fuel' dp
      else mret None
  end.
Definition dir_readdir (dp : Z) : K fs (option (list Z)) :=
  d ← get_dir dp; fuel ← entry_fuel (d_inode d); readdir_loop fuel dp.

(** ** filesys.c *)

Definition do_format : K fs unit :=
  free_map_create;;
  ok ← dir_create ROOT_DIR_SECTOR 16;
  ASSERT ok;;
  free_map_close.
Definition filesys_init (device : option D) (junk : list Z) (format : bool) : K fs unit :=
  d ← the device;
  modify (set_device d);;
  inode_init;;
  free_map_init junk;;
  (if format then do_format else mret tt);;
  free_map_open.
Definition filesys_done : K fs unit := free_map_close.

Definition filesys_create (name : list Z) (initial_size : Z) (junk : list Z) : K fs bool :=
  dp ← dir_open_root;
  '(success, inode_sector) ←
    match dp with
    | None => mret (false, 0)
    | Some d =>
        sector ← free_map_allocate 1;
        match sector with
        | None => mret (false, 0)
        | Some sector =>
            ok ← inode_create sector initial_size;
            if (ok : bool) then ok ← dir_add d name sector junk; mret (ok, sector) else mret (false, sector)
        end
    end;
  (if negb (success : bool) && negb (inode_sector =? 0) then free_map_release inode_sector 1 else mret tt);;
  dir_close dp;;
  mret success.
Definition filesys_open (name junk : list Z) : K fs (option Z) :=
  dp ← dir_open_root;
  ip ← (match dp with Some d => dir_lookup d name junk | None => mret None end);
  dir_close dp;;
  file_open ip.
Definition filesys_remove (name junk : list Z) : K fs bool :=
  dp ← dir_open_root;
  ok ← (match dp with Some d => dir_remove d name junk | None => mret false end);
  dir_close dp;;
  mret ok.

End Filesys.
Arguments fs : clear implicits.
