(* ===== verification/InodeOk.v ===== *)
(** Reading and writing inodes: the loops over sectors of filesys/inode.c read and change
    the bytes of the file as one array. *)

From stdpp Require Import gmap.
From S2P Require Import Prelude KMonad Bytes Bitmap Block Filesys.

(** ** Arrays of blocks *)

Section Blocks.
Context {A : Type} (N : nat).

Lemma drop_blocks (ls : list (list A)) k :
  Forall (fun l => length l = N) ls -> (k <= length ls)%nat -> drop (N * k) (concat ls) = concat (drop k ls).
Proof.
  intros H. revert k. induction H as [|l ls Hl H IH]; intros [|k] Hk; simpl in *; rewrite ?Nat.mul_0_r; try done; [lia|].
  replace (N * S k)%nat with (length l + N * k)%nat by lia. rewrite <- drop_drop, drop_app_length. apply IH. lia.
Qed.
Lemma concat_length (ls : list (list A)) : Forall (fun l => length l = N) ls -> length (concat ls) = (N * length ls)%nat.
Proof. induction 1 as [|l ls Hl H IH]; simpl; [lia|]. rewrite length_app. lia. Qed.

Lemma blocks_slice (ls : list (list A)) k l o m :
  Forall (fun l => length l = N) ls -> ls !! k = Some l -> 0 <= o -> 0 <= m -> o + m <= Z.of_nat N ->
  slice (concat ls) (Z.of_nat (N * k) + o) m = slice l o m.
Proof.
  intros H Hk Ho Hm Hom. pose proof (lookup_lt_Some _ _ _ Hk) as Hlt. unfold slice.
  replace (Z.to_nat (Z.of_nat (N * k) + o)) with (N * k + Z.to_nat o)%nat by lia.
  rewrite <- drop_drop, drop_blocks by (done || lia). rewrite (drop_S _ l) by done. simpl.
  assert (Hl : length l = N) by (by eapply (Forall_lookup_1 (fun l => length l = N))).
  rewrite drop_app_le by lia. rewrite take_app_le by (rewrite length_drop; lia). done.
Qed.
Lemma blocks_splice (ls : list (list A)) k l o d :
  Forall (fun l => length l = N) ls -> ls !! k = Some l -> 0 <= o -> o + len d <= Z.of_nat N ->
  concat (<[k := splice l o d]> ls) = splice (concat ls) (Z.of_nat (N * k) + o) d.
Proof.
  intros H. revert k. induction H as [|l0 ls Hl0 H IH]; intros [|k] Hk Ho Hod; try done; simpl in Hk.
  - injection Hk as ->. cbn [insert list_insert concat]. unfold splice. rewrite Nat.mul_0_r, Z.add_0_l.
    rewrite take_app_le by lia. rewrite drop_app_le by lia. by rewrite <- !app_assoc.
  - change (l0 ++ concat (<[k := splice l o d]> ls) = splice (l0 ++ concat ls) (Z.of_nat (N * S k) + o) d).
    rewrite IH by done. unfold splice.
    replace (Z.to_nat (Z.of_nat (N * S k) + o)) with (length l0 + Z.to_nat (Z.of_nat (N * k) + o))%nat by lia.
    rewrite take_app_add, <- Nat.add_assoc, drop_app_add. by rewrite <- !app_assoc.
Qed.
End Blocks.

Section InodeOk.
Context {D : Type} `{!BlockDevice D}.
Implicit Types (s : fs D) (dv : D) (d : inode_disk).

(** ** The bytes of a file *)

(** The number of sectors of a file, when it does not overflow. *)
Definition sectors_of (length : Z) : Z := (length + 511) / 512.
Definition raw dv d : list Z := concat (bd_sector dv <$> seqZ (start d) (sectors_of (length_ d))).
Definition content dv d : list Z := take (Z.to_nat (length_ d)) (raw dv d).
(** The sectors of the file are on the device. *)
Record extent_ok dv d : Prop := {
  ex_length : 0 <= length_ d < 2 ^ 31 - 512;
  ex_start : 0 <= start d;
  ex_end : start d + sectors_of (length_ d) <= bd_size dv
}.
Definition in_file d (t : Z) : Prop := start d <= t < start d + sectors_of (length_ d).

Lemma sectors_of_spec n : 0 <= n -> n <= 512 * sectors_of n < n + 512.
Proof. intros H. unfold sectors_of. pose proof (Z.div_mod (n + 511) 512 ltac:(done)). pose proof (Z.mod_pos_bound (n + 511) 512). lia. Qed.
Lemma bytes_to_sectors_eq n : 0 <= n < 2 ^ 31 - 512 -> bytes_to_sectors n = sectors_of n.
Proof.
  intros H. unfold bytes_to_sectors, BLOCK_SECTOR_SIZE, sectors_of. rewrite wraps_small by (change (32 - 1) with 31; lia).
  replace (n + 512 - 1) with (n + 511) by lia. rewrite Z.quot_div_nonneg by lia. apply wrapu_small.
  pose proof (Z.div_pos (n + 511) 512). assert ((n + 511) / 512 < 2 ^ 32) by (apply Z.div_lt_upper_bound; lia). lia.
Qed.

Lemma sector_blocks dv d : bd_ok dv -> extent_ok dv d ->
  Forall (fun l => length l = 512%nat) (bd_sector dv <$> seqZ (start d) (sectors_of (length_ d))).
Proof.
  intros Hok [H1 H2 H3]. apply Forall_fmap, Forall_forall. intros t Ht. apply elem_of_seqZ in Ht.
  apply bd_sector_length; [done|lia].
Qed.
Lemma raw_length dv d : bd_ok dv -> extent_ok dv d -> len (raw dv d) = 512 * sectors_of (length_ d).
Proof.
  intros Hok He. unfold raw. rewrite (concat_length 512) by (by apply sector_blocks).
  rewrite length_fmap, length_seqZ. pose proof (sectors_of_spec (length_ d)). destruct He. lia.
Qed.
Lemma content_length dv d : bd_ok dv -> extent_ok dv d -> len (content dv d) = length_ d.
Proof.
  intros Hok He. unfold content. rewrite length_take. pose proof (raw_length dv d Hok He).
  pose proof (sectors_of_spec (length_ d)). destruct He. lia.
Qed.
Lemma content_slice dv d o n :
  bd_ok dv -> extent_ok dv d -> 0 <= o -> 0 <= n -> o + n <= length_ d -> slice (content dv d) o n = slice (raw dv d) o n.
Proof.
  intros Hok He Ho Hn H. change (content dv d) with (slice (raw dv d) 0 (length_ d)).
  by rewrite slice_of_slice by lia.
Qed.

(** The sector that holds a position of the file. *)
Lemma sector_of_pos d pos :
  0 <= pos < length_ d -> 0 <= pos / 512 < sectors_of (length_ d).
Proof.
  intros H. pose proof (sectors_of_spec (length_ d) ltac:(lia)). split; [apply Z.div_pos; lia|].
  apply Z.div_lt_upper_bound; lia.
Qed.
Lemma lookup_sector dv d k :
  0 <= k < sectors_of (length_ d) ->
  (bd_sector dv <$> seqZ (start d) (sectors_of (length_ d))) !! Z.to_nat k = Some (bd_sector dv (start d + k)).
Proof. intros H. rewrite list_lookup_fmap, lookup_seqZ_lt by lia. simpl. by rewrite Z2Nat.id by lia. Qed.

Lemma raw_slice dv d pos n :
  bd_ok dv -> extent_ok dv d -> 0 <= pos < length_ d -> 0 <= n -> pos mod 512 + n <= 512 ->
  slice (raw dv d) pos n = slice (bd_sector dv (start d + pos / 512)) (pos mod 512) n.
Proof.
  intros Hok He Hp Hn H. pose proof (Z.div_mod pos 512 ltac:(done)). pose proof (Z.mod_pos_bound pos 512 ltac:(done)).
  pose proof (sector_of_pos d pos Hp) as Hk.
  rewrite <- (blocks_slice 512 _ _ _ (pos mod 512) n (sector_blocks dv d Hok He) (lookup_sector dv d (pos / 512) Hk)) by lia.
  unfold raw. f_equal. lia.
Qed.

Lemma byte_to_sector_eq (i : inode) dv pos :
  bd_ok dv -> extent_ok dv (data i) -> 0 <= pos < length_ (data i) ->
  byte_to_sector i pos = start (data i) + pos / 512.
Proof.
  intros Hok [H1 H2 H3] Hp. pose proof (sector_of_pos (data i) pos Hp). pose proof (bd_size_range dv Hok).
  unfold byte_to_sector, BLOCK_SECTOR_SIZE. rewrite (proj2 (Z.ltb_lt _ _)) by lia.
  rewrite Z.quot_div_nonneg by lia. apply wrapu_small. lia.
Qed.
Lemma chunk_eq (i : inode) size pos :
  0 <= pos -> 0 <= length_ (data i) < 2 ^ 31 -> pos < 2 ^ 31 ->
  chunk i size pos = Z.min size (Z.min (length_ (data i) - pos) (512 - pos mod 512)).
Proof.
  intros Hp Hl Hb. unfold chunk, BLOCK_SECTOR_SIZE. rewrite Z.rem_mod_nonneg by lia.
  rewrite wraps_small by (change (32 - 1) with 31; lia).
  destruct (Z.ltb_spec (length_ (data i) - pos) (512 - pos mod 512)); case_cmp; lia.
Qed.

(** ** States that differ in the content of the device only *)

Record same_but_device s s' : Prop := {
  sd_map : free_map s' = free_map s;
  sd_map_file : free_map_file s' = free_map_file s;
  sd_inodes : inodes s' = inodes s;
  sd_open : open_inodes s' = open_inodes s;
  sd_files : files s' = files s;
  sd_dirs : dirs s' = dirs s;
  sd_brk : brk s <= brk s';
  sd_memory : memory s' = memory s;
  sd_ok : bd_ok (fs_device s) -> bd_ok (fs_device s');
  sd_size : bd_size (fs_device s') = bd_size (fs_device s)
}.
(** The sectors outside of [P] are the same. *)
Definition sectors_kept (P : Z -> Prop) s s' : Prop :=
  forall t, 0 <= t < bd_size (fs_device s) -> ~ P t -> bd_sector (fs_device s') t = bd_sector (fs_device s) t.
Definition changes (P : Z -> Prop) s s' : Prop := same_but_device s s' /\ sectors_kept P s s'.
Definition quiet : fs D -> fs D -> Prop := changes (fun _ => False).

Lemma changes_refl P s : changes P s s.
Proof. split; [by split|]. by intros t _ _. Qed.
Lemma changes_trans P s1 s2 s3 : changes P s1 s2 -> changes P s2 s3 -> changes P s1 s3.
Proof.
  intros [[] H1] [[] H2]. split; [split; intuition (congruence || lia)|]. intros t Ht Hn.
  rewrite H2, H1 by (done || congruence). done.
Qed.
Lemma changes_weaken (P Q : Z -> Prop) s s' : (forall t, P t -> Q t) -> changes P s s' -> changes Q s s'.
Proof. intros HPQ [H1 H2]. split; [done|]. intros t Ht Hn. apply H2; [done|]. intros Hp. by apply Hn, HPQ. Qed.
Lemma quiet_changes P s s' : quiet s s' -> changes P s s'.
Proof. by apply changes_weaken. Qed.

Lemma changes_extent P s s' d : changes P s s' -> extent_ok (fs_device s) d -> extent_ok (fs_device s') d.
Proof. intros [[] _] [H1 H2 H3]. split; [done..|]. congruence || lia. Qed.
Lemma quiet_raw s s' d : quiet s s' -> extent_ok (fs_device s) d -> raw (fs_device s') d = raw (fs_device s) d.
Proof.
  intros [_ H] [H1 H2 H3]. unfold raw. f_equal. apply list_fmap_ext. intros k t Ht.
  apply lookup_seqZ in Ht as [-> Hk]. apply H; [lia|]. by intros [].
Qed.

(** One access of the device. *)
Lemma dev_read_ok s t :
  bd_ok (fs_device s) -> 0 <= t < bd_size (fs_device s) ->
  exists s', on_dev (bd_read t) s = Ok (bd_sector (fs_device s) t, s') /\ quiet s s'.
Proof.
  intros Hok Ht. destruct (bd_read_ok (fs_device s) t Hok Ht) as (dv & E & Hok' & Hsz & Hsame).
  unfold on_dev, on_part. rewrite E. eexists. split; [reflexivity|]. split; [by split|]. intros u Hu _. by apply Hsame.
Qed.
Lemma dev_write_ok s t bs :
  bd_ok (fs_device s) -> 0 <= t < bd_size (fs_device s) -> length bs = 512%nat ->
  exists s', on_dev (bd_write t bs) s = Ok (tt, s') /\ changes (fun u => u = t) s s' /\ bd_sector (fs_device s') t = bs.
Proof.
  intros Hok Ht Hl. destruct (bd_write_ok (fs_device s) t bs Hok Ht Hl) as (dv & E & Hok' & Hsz & Hsame).
  unfold on_dev, on_part. rewrite E. eexists. split; [reflexivity|]. split.
  - split; [by split|]. intros u Hu Hne. simpl. rewrite Hsame by done. by rewrite (proj2 (Z.eqb_neq u t)).
  - simpl. rewrite Hsame by done. by rewrite Z.eqb_refl.
Qed.

Lemma alloc_ok s : memory s = [] -> exists p s', alloc s = Ok (Some p, s') /\ quiet s s' /\ p = brk s /\ brk s' = brk s + 1.
Proof.
  intros Hm. unfold alloc. rewrite Hm. do 2 eexists. split; [reflexivity|]. split_and!; [|done..].
  split; [split; try done; simpl; lia|]. by intros t _ _.
Qed.
Lemma need_bounce_ok s bounce : memory s = [] -> exists s', need_bounce bounce s = Ok (true, s') /\ quiet s s'.
Proof.
  intros Hm. destruct bounce; [exists s; split; [done|apply changes_refl]|].
  destruct (alloc_ok s Hm) as (p & s' & E & Q & _). exists s'. split; [|done].
  unfold need_bounce. by rewrite (bind_ok _ _ _ _ _ E).
Qed.
Lemma get_inode_ok s ip i : inodes s !! ip = Some i -> get_inode ip s = Ok (i, s).
Proof. intros H. unfold get_inode, mbind, K_bind. simpl. by rewrite H. Qed.
Lemma part_ok s l ofs n : 0 <= ofs -> ofs + n <= len l -> part l ofs n s = Ok (slice l ofs n, s).
Proof.
  intros H1 H2. unfold part. rewrite ASSERT_true; [done|].
  rewrite (proj2 (Z.leb_le _ _)), (proj2 (Z.leb_le _ _)) by lia. done.
Qed.

(** ** Reading *)

Record readable s (ip : Z) (i : inode) : Prop := {
  rd_inode : inodes s !! ip = Some i;
  rd_ok : bd_ok (fs_device s);
  rd_extent : extent_ok (fs_device s) (data i);
  rd_memory : memory s = []
}.
Lemma changes_readable P s s' ip i : changes P s s' -> readable s ip i -> readable s' ip i.
Proof.
  intros C [H1 H2 H3 H4]. pose proof C as [[] _]. split; [congruence|auto|by eapply changes_extent|congruence].
Qed.

(** One round reads a part of a sector. *)
Lemma read_chunk s ip i offset n :
  readable s ip i -> 0 <= offset < length_ (data i) -> 0 < n -> offset mod 512 + n <= 512 -> offset + n <= length_ (data i) ->
  let t := start (data i) + offset / 512 in
  0 <= t < bd_size (fs_device s) /\ byte_to_sector i offset = t /\
  slice (bd_sector (fs_device s) t) (offset mod 512) n = slice (content (fs_device s) (data i)) offset n.
Proof.
  intros [H1 H2 H3 H4] Ho Hn Hs Hl t. pose proof (sector_of_pos (data i) offset Ho). split_and!.
  - destruct H3. lia.
  - destruct H3. lia.
  - by eapply byte_to_sector_eq.
  - rewrite content_slice by (done || lia). by rewrite raw_slice by (done || lia).
Qed.

Lemma read_loop_ok fuel ip i bounce s size offset buffer :
  readable s ip i -> 0 <= offset < 2 ^ 31 -> (Z.to_nat size <= fuel)%nat ->
  exists s', read_loop fuel ip bounce size offset buffer s =
    Ok (buffer ++ slice (content (fs_device s) (data i)) offset (Z.min size (length_ (data i) - offset)), s') /\ quiet s s'.
Proof.
  revert bounce s size offset buffer. induction fuel as [|fuel IH]; intros bounce s size offset buffer R Ho Hf.
  { exists s. split; [|apply changes_refl]. cbn [read_loop]. rewrite (proj2 (Z.ltb_ge 0 size)) by lia.
    unfold slice. rewrite (Z2Nat.nonpos (Z.min _ _)) by lia. by rewrite take_0, app_nil_r. }
  cbn [read_loop]. destruct (Z.ltb_spec 0 size) as [Hpos|Hneg].
  2: { exists s. split; [|apply changes_refl]. unfold slice. rewrite (Z2Nat.nonpos (Z.min _ _)) by lia. by rewrite take_0, app_nil_r. }
  pose proof R as [H1 H2 H3 H4]. pose proof (ex_length _ _ H3) as Hl.
  rewrite (bind_ok _ _ _ _ _ (get_inode_ok s ip i H1)). cbv zeta. unfold BLOCK_SECTOR_SIZE.
  rewrite Z.rem_mod_nonneg, chunk_eq by lia. set (n := Z.min size _).
  pose proof (Z.mod_pos_bound offset 512 ltac:(done)) as Hm.
  destruct (Z.leb_spec n 0) as [Hn|Hn].
  { exists s. split; [|apply changes_refl]. unfold slice. rewrite (Z2Nat.nonpos (Z.min _ _)) by lia. by rewrite take_0, app_nil_r. }
  destruct (read_chunk s ip i offset n R) as (Ht & Eb & Es); [lia..|]. rewrite Eb.
  (** The rest of the loop, after the sector has been read in a state like [s]. *)
  assert (Hrest : forall s2 bounce', quiet s s2 -> exists s',
    read_loop fuel ip bounce' (size - n) (offset + n) (buffer ++ slice (content (fs_device s) (data i)) offset n) s2 =
    Ok (buffer ++ slice (content (fs_device s) (data i)) offset (Z.min size (length_ (data i) - offset)), s') /\ quiet s s').
  { intros s2 bounce' Q. destruct (IH bounce' s2 (size - n) (offset + n) (buffer ++ slice (content (fs_device s) (data i)) offset n))
      as (s' & E & Q'); [by eapply changes_readable|lia|lia|]. exists s'. split; [|by eapply changes_trans].
    rewrite E. unfold content at 2. rewrite (quiet_raw s s2) by done. fold (content (fs_device s) (data i)).
    rewrite <- app_assoc. rewrite slice_app by lia. do 4 f_equal. lia. }
  destruct ((offset mod 512 =? 0) && (n =? 512)) eqn:Efull.
  - destruct (dev_read_ok s _ H2 Ht) as (s2 & E2 & Q2). rewrite (bind_ok _ _ _ _ _ E2).
    reflect_bools.
    assert (Efl : slice (content (fs_device s) (data i)) offset n = bd_sector (fs_device s) (start (data i) + offset / 512)).
    { rewrite <- Es. replace (offset mod 512) with 0 by lia. replace n with (len (bd_sector (fs_device s) (start (data i) + offset / 512)))
        by (rewrite bd_sector_length by done; lia). apply slice_all. }
    rewrite <- Efl. by apply Hrest.
  - destruct (need_bounce_ok s bounce H4) as (s1 & E1 & Q1). rewrite (bind_ok _ _ _ _ _ E1).
    destruct (dev_read_ok s1 (start (data i) + offset / 512)) as (s2 & E2 & Q2); [by apply Q1|by rewrite (sd_size _ _ (proj1 Q1))|].
    rewrite (bind_ok _ _ _ _ _ E2).
    assert (Esec : bd_sector (fs_device s1) (start (data i) + offset / 512) = bd_sector (fs_device s) (start (data i) + offset / 512))
      by (apply Q1; [done|by intros []]).
    rewrite Esec. erewrite bind_ok by (apply part_ok; [lia|rewrite bd_sector_length by done; lia]).
    rewrite Es. apply Hrest. by eapply changes_trans.
Qed.

(** ** Writing *)

Lemma raw_write s s' d k o bs :
  bd_ok (fs_device s) -> extent_ok (fs_device s) d -> 0 <= k < sectors_of (length_ d) -> 0 <= o -> o + len bs <= 512 ->
  changes (fun u => u = start d + k) s s' ->
  bd_sector (fs_device s') (start d + k) = splice (bd_sector (fs_device s) (start d + k)) o bs ->
  raw (fs_device s') d = splice (raw (fs_device s) d) (512 * k + o) bs.
Proof.
  intros Hok He Hk Ho Hl C Ht. unfold raw. pose proof (sector_blocks _ d Hok He) as Hb. pose proof (lookup_sector (fs_device s) d k Hk) as Hs.
  replace (512 * k + o) with (Z.of_nat (512 * Z.to_nat k) + o) by lia.
  rewrite <- (blocks_splice 512 _ _ _ o bs Hb Hs) by lia. f_equal. apply list_eq. intros j.
  rewrite list_lookup_fmap. destruct (decide (j = Z.to_nat k)) as [->|Hne].
  - rewrite list_lookup_insert_eq by (by eapply lookup_lt_Some). rewrite lookup_seqZ_lt by lia. simpl.
    by rewrite Z2Nat.id, Ht by lia.
  - rewrite list_lookup_insert_ne, list_lookup_fmap by done.
    destruct (seqZ (start d) (sectors_of (length_ d)) !! j) as [t|] eqn:Ej; [|done]. simpl. f_equal.
    apply lookup_seqZ in Ej as [-> Hj]. destruct He. apply C; lia.
Qed.

Lemma content_splice dv dv' d o bs :
  raw dv' d = splice (raw dv d) o bs -> 0 <= o -> o + len bs <= length_ d -> len (raw dv d) >= length_ d ->
  content dv' d = splice (content dv d) o bs.
Proof.
  intros E Ho Hl Hr. unfold content. rewrite E. apply list_eq. intros k.
  destruct (decide (k < Z.to_nat (length_ d))%nat).
  - rewrite lookup_take_lt by done. rewrite !splice_lookup by (rewrite ?length_take; lia).
    destruct (decide _); [done|]. by rewrite lookup_take_lt.
  - rewrite lookup_take_ge by lia. symmetry. apply lookup_ge_None_2. pose proof (splice_length (take (Z.to_nat (length_ d)) (raw dv d)) o bs) as H.
    rewrite length_take in H. lia.
Qed.

(** One round changes a part of a sector, with or without the bounce buffer. *)
Lemma write_chunk s ip i offset bs t old :
  readable s ip i -> 0 <= offset < length_ (data i) -> offset mod 512 + len bs <= 512 ->
  t = start (data i) + offset / 512 -> old = bd_sector (fs_device s) t ->
  exists s', on_dev (bd_write t (splice old (offset mod 512) bs)) s = Ok (tt, s') /\ changes (in_file (data i)) s s' /\
    raw (fs_device s') (data i) = splice (raw (fs_device s) (data i)) offset bs.
Proof.
  intros [H1 H2 H3 H4] Ho Hl -> ->. pose proof (sector_of_pos (data i) offset Ho) as Hk.
  pose proof (Z.mod_pos_bound offset 512 ltac:(done)). pose proof (Z.div_mod offset 512 ltac:(done)) as Hd.
  assert (Ht : 0 <= start (data i) + offset / 512 < bd_size (fs_device s)) by (destruct H3; lia).
  pose proof (bd_sector_length _ _ H2 Ht) as Hsl.
  destruct (dev_write_ok s _ (splice (bd_sector (fs_device s) (start (data i) + offset / 512)) (offset mod 512) bs) H2 Ht)
    as (s' & E & C & Hs); [rewrite splice_length; lia|].
  exists s'. split; [done|]. split.
  - eapply changes_weaken; [|exact C]. intros u ->. unfold in_file. lia.
  - rewrite Hd at 1. apply raw_write; [done|done|done|lia|lia|done|done].
Qed.

Lemma write_round s ip i bounce offset c bs (next : bool -> K (fs D) Z) w :
  let t := start (data i) + offset / 512 in
  readable s ip i -> 0 <= offset < length_ (data i) -> 0 < c -> len bs = c -> offset mod 512 + c <= 512 ->
  exists s2 bounce',
    (if (offset mod 512 =? 0) && (c =? 512) then on_dev (bd_write t bs);; next bounce
     else
       ok ← need_bounce bounce;
       if (ok : bool) then
         old ← (if (0 <? offset mod 512) || (c <? 512 - offset mod 512) then on_dev (bd_read t)
                else mret (replicate (Z.to_nat 512) 0));
         ASSERT (0 <=? offset mod 512);;
         on_dev (bd_write t (splice old (offset mod 512) bs));;
         next true
       else mret w) s = next bounce' s2 /\
    changes (in_file (data i)) s s2 /\ raw (fs_device s2) (data i) = splice (raw (fs_device s) (data i)) offset bs.
Proof.
  intros t R Ho Hc Hsl Hfit. pose proof R as [H1 H2 H3 H4]. pose proof (Z.mod_pos_bound offset 512 ltac:(done)) as Hm.
  assert (Ht : 0 <= t < bd_size (fs_device s)) by (pose proof (sector_of_pos (data i) offset); destruct H3; lia).
  destruct ((offset mod 512 =? 0) && (c =? 512)) eqn:Efull.
  - reflect_bools.
    assert (Efl : splice (bd_sector (fs_device s) t) (offset mod 512) bs = bs).
    { replace (offset mod 512) with 0 by lia. apply splice_all. rewrite bd_sector_length by done. lia. }
    destruct (write_chunk s ip i offset bs t (bd_sector (fs_device s) t) R) as (s2 & E2 & C2 & Er2); [lia|lia|done..|].
    rewrite Efl in E2. rewrite (bind_ok _ _ _ _ _ E2). by exists s2, bounce.
  - destruct (need_bounce_ok s bounce H4) as (s1 & E1 & Q1). rewrite (bind_ok _ _ _ _ _ E1).
    assert (Ebr : (0 <? offset mod 512) || (c <? 512 - offset mod 512) = true).
    { apply andb_false_iff in Efull. destruct Efull as [Ef|Ef]; reflect_bools; case_cmp; (done || lia). }
    rewrite Ebr. assert (R1 : readable s1 ip i) by (by eapply changes_readable).
    destruct (dev_read_ok s1 t) as (s2 & E2 & Q2); [apply R1|by rewrite (sd_size _ _ (proj1 Q1))|].
    rewrite (bind_ok _ _ _ _ _ E2). rewrite ASSERT_true by (apply Z.leb_le; lia).
    assert (Q : quiet s s2) by (by eapply changes_trans). assert (R2 : readable s2 ip i) by (by eapply changes_readable).
    assert (Es2 : bd_sector (fs_device s1) t = bd_sector (fs_device s2) t).
    { symmetry. apply Q2; [by rewrite (sd_size _ _ (proj1 Q1))|by intros []]. }
    destruct (write_chunk s2 ip i offset bs t (bd_sector (fs_device s1) t) R2) as (s3 & E3 & C3 & Er3); [lia|lia|done..|].
    rewrite (bind_ok _ _ _ _ _ E3). exists s3, true. split_and!; [done| |].
    + eapply changes_trans; [by apply quiet_changes|done].
    + by rewrite Er3, (quiet_raw s s2).
Qed.

Lemma write_loop_ok fuel ip i bounce s buffer size offset written :
  readable s ip i -> 0 <= offset < 2 ^ 31 -> (Z.to_nat size <= fuel)%nat -> 0 <= written -> written + size <= len buffer ->
  let n := Z.max 0 (Z.min size (length_ (data i) - offset)) in
  exists s', write_loop fuel ip bounce buffer size offset written s = Ok (written + n, s') /\
    changes (in_file (data i)) s s' /\
    raw (fs_device s') (data i) = splice (raw (fs_device s) (data i)) offset (slice buffer written n).
Proof.
  revert bounce s size offset written. induction fuel as [|fuel IH]; intros bounce s size offset written R Ho Hf Hw Hb n.
  { exists s. replace n with 0 by lia. rewrite slice_0, splice_nil, Z.add_0_r. split_and!; [|apply changes_refl|done].
    cbn [write_loop]. by rewrite (proj2 (Z.ltb_ge 0 size)) by lia. }
  cbn [write_loop]. destruct (Z.ltb_spec 0 size) as [Hpos|Hneg].
  2: { exists s. replace n with 0 by lia. rewrite slice_0, splice_nil, Z.add_0_r. split_and!; [done|apply changes_refl|done]. }
  pose proof R as [H1 H2 H3 H4]. pose proof (ex_length _ _ H3) as Hl.
  rewrite (bind_ok _ _ _ _ _ (get_inode_ok s ip i H1)). cbv zeta. unfold BLOCK_SECTOR_SIZE.
  rewrite Z.rem_mod_nonneg, chunk_eq by lia. set (c := Z.min size _).
  pose proof (Z.mod_pos_bound offset 512 ltac:(done)) as Hm.
  destruct (Z.leb_spec c 0) as [Hc|Hc].
  { exists s. replace n with 0 by lia. rewrite slice_0, splice_nil, Z.add_0_r. split_and!; [done|apply changes_refl|done]. }
  erewrite bind_ok by (apply part_ok; lia). pose proof (slice_length buffer written c Hw ltac:(lia) ltac:(lia)) as Hsl.
  rewrite (byte_to_sector_eq i (fs_device s)) by (done || lia).
  set (bs := slice buffer written c) in *. set (t := start (data i) + offset / 512).
  assert (Ht : 0 <= t < bd_size (fs_device s)) by (pose proof (sector_of_pos (data i) offset); destruct H3; lia).
  (** The rest of the loop, after the sector has been written. *)
  assert (Hrest : forall s2 bounce', changes (in_file (data i)) s s2 ->
    raw (fs_device s2) (data i) = splice (raw (fs_device s) (data i)) offset bs ->
    exists s', write_loop fuel ip bounce' buffer (size - c) (offset + c) (written + c) s2 = Ok (written + n, s') /\
      changes (in_file (data i)) s s' /\
      raw (fs_device s') (data i) = splice (raw (fs_device s) (data i)) offset (slice buffer written n)).
  { intros s2 bounce' C Er. destruct (IH bounce' s2 (size - c) (offset + c) (written + c)) as (s' & E & C' & Er');
      [by eapply changes_readable|lia..|]. exists s'. split_and!.
    - rewrite E. do 2 f_equal. lia.
    - by eapply changes_trans.
    - rewrite Er', Er, <- Hsl at 1. rewrite splice_splice; [|lia|].
      + f_equal. unfold bs. rewrite slice_app by lia. f_equal. lia.
      + rewrite Hsl, slice_length by lia. rewrite raw_length by done. pose proof (sectors_of_spec (length_ (data i))). lia. }
  destruct (write_round s ip i bounce offset c bs
    (fun b => write_loop fuel ip b buffer (size - c) (offset + c) (written + c)) written R) as (s2 & b2 & E2 & C2 & Er2); [lia..|].
  fold t in E2. rewrite E2. by apply Hrest.
Qed.

(** ** The operations *)

Lemma inode_read_ok s ip i size offset :
  readable s ip i -> 0 <= offset < 2 ^ 31 ->
  exists s', inode_read_at ip size offset s =
    Ok (slice (content (fs_device s) (data i)) offset (Z.min size (length_ (data i) - offset)), s') /\ quiet s s'.
Proof.
  intros R Ho. destruct (read_loop_ok (Z.to_nat size) ip i false s size offset [] R Ho) as (s' & E & Q); [lia|].
  exists s'. split; [exact E|done].
Qed.

Definition writable (n : Z) (i : inode) (size offset : Z) : Prop := n = Z.max 0 (Z.min size (length_ (data i) - offset)).

Lemma inode_write_ok s ip i buffer size offset n :
  readable s ip i -> deny_write_cnt i = 0 -> 0 <= offset < 2 ^ 31 -> size <= len buffer -> writable n i size offset ->
  exists s', inode_write_at ip buffer size offset s = Ok (n, s') /\ changes (in_file (data i)) s s' /\
    content (fs_device s') (data i) = splice (content (fs_device s) (data i)) offset (slice buffer 0 n).
Proof.
  intros R Hd Ho Hb Hn. unfold inode_write_at. rewrite (bind_ok _ _ _ _ _ (get_inode_ok s ip i (rd_inode _ _ _ R))), Hd.
  destruct (write_loop_ok (Z.to_nat size) ip i false s buffer size offset 0 R Ho) as (s' & E & C & Er); [lia..|].
  rewrite <- Hn in E, Er. exists s'. split; [done|]. split; [done|]. destruct R as [_ H2 H3 _].
  destruct (decide (n = 0)) as [E0|Hne].
  - rewrite E0, slice_0, splice_nil in *. unfold content. by rewrite Er.
  - unfold writable in Hn. assert (Hl : len (slice buffer 0 n) = n) by (apply slice_length; lia).
    apply content_splice; [done|lia|lia|]. rewrite raw_length by done. pose proof (sectors_of_spec (length_ (data i))).
    destruct H3. lia.
Qed.

End InodeOk.

(** The loops over sectors treat a file as one array of bytes: a read returns the bytes from
    the position on, cut at the end of the file, and changes nothing; a write that is not denied
    returns the number of bytes that fit, replaces exactly them, and leaves every sector outside
    of the file alone; a read of the same place then returns what was written. *)
Theorem inode_is_array {D} `{!BlockDevice D} (s : fs D) ip i buffer size offset n :
  readable s ip i -> deny_write_cnt i = 0 -> 0 <= offset < 2 ^ 31 -> size <= len buffer -> writable n i size offset ->
  let old := content (fs_device s) (data i) in
  (exists s', inode_read_at ip size offset s = Ok (slice old offset n, s') /\ quiet s s') /\
  (exists s', inode_write_at ip buffer size offset s = Ok (n, s') /\ changes (in_file (data i)) s s' /\
     content (fs_device s') (data i) = splice old offset (slice buffer 0 n) /\
     exists s'', inode_read_at ip size offset s' = Ok (slice buffer 0 n, s'')).
Proof.
  intros R Hd Ho Hb Hn old.
  assert (Hs : forall l : list Z, slice l offset (Z.min size (length_ (data i) - offset)) = slice l offset n).
  { intros l. unfold slice, writable in *. f_equal. lia. }
  split.
  - rewrite <- Hs. by apply inode_read_ok.
  - destruct (inode_write_ok s ip i buffer size offset n R Hd Ho Hb Hn) as (s' & E & C & Ec).
    exists s'. split_and!; [done..|]. assert (R' : readable s' ip i) by (by eapply changes_readable).
    destruct (inode_read_ok s' ip i size offset R' Ho) as (s'' & E' & _). exists s''. rewrite E', Hs, Ec.
    destruct (decide (n = 0)) as [->|Hne]; [done|]. unfold writable in Hn. pose proof R as [_ H2 H3 _].
    assert (Hl : len (slice buffer 0 n) = n) by (apply slice_length; lia). rewrite <- Hl at 2.
    rewrite slice_splice; [done|lia|]. unfold old. rewrite content_length by done. lia.
Qed.

(** A disk of 8 sectors with a file of 700 bytes in sectors 4 and 5. *)
Definition example_device : mounted :=
  mkMounted (mkDevices [mkBlock [] BLOCK_FILESYS 8 (ide_operations (fun t => replicate 512 t)) 0 0] []) 0.
Definition example_file : inode := mkInode 3 1 false 0 (mkInodeDisk 4 700 INODE_MAGIC).
Definition example_fs : fs mounted :=
  mkFs example_device (mkBitmap 8 [63]) None {[ 1 := example_file ]} [1] ∅ ∅ 2 [].
Lemma example_readable : readable example_fs 1 example_file.
Proof.
  split; [done| |split; vm_compute; (done || split; (done || discriminate))|done]. split.
  - intros id b Hb. apply list_lookup_singleton_Some in Hb as [-> <-]. split; [done|]. simpl. intros t _. reflexivity.
  - eexists. split; [done|]. vm_compute. discriminate.
Qed.
Lemma inode_is_array_witness :
  (exists s', inode_read_at 1 4 510 example_fs = Ok ([4; 4; 5; 5], s') /\ quiet example_fs s') /\
  (exists s', inode_write_at 1 [97; 98; 99; 100] 4 510 example_fs = Ok (4, s') /\ changes (in_file (data example_file)) example_fs s' /\
     content (fs_device s') (data example_file) =
       splice (content (fs_device example_fs) (data example_file)) 510 [97; 98; 99; 100] /\
     exists s'', inode_read_at 1 4 510 s' = Ok ([97; 98; 99; 100], s'')).
Proof.
  pose proof (inode_is_array example_fs 1 example_file [97; 98; 99; 100] 4 510 4 example_readable) as H.
  apply H; [reflexivity|split; [discriminate|reflexivity]|discriminate|reflexivity].
Defined.
