(* ===== verification/FreeMapOk.v ===== *)
(** The free map of the file system and its file (filesys/free-map.c): allocation and
    release of sectors, with the map on the disk kept equal to the map in memory. *)

From stdpp Require Import gmap.
From S2P Require Import Prelude KMonad Bytes Bitmap Block Filesys InodeOk.

(** ** Words and bytes of a bitmap *)

Lemma bits_bytes_length ws : length (bits_bytes ws) = (4 * length ws)%nat.
Proof.
  unfold bits_bytes. rewrite (concat_length 4), length_fmap; [done|].
  apply Forall_fmap, Forall_forall. intros w _. apply le_bytes_length.
Qed.
Lemma bytes_words_bits ws : Forall word ws -> bytes_words (length ws) (bits_bytes ws) = ws.
Proof.
  induction 1 as [|w ws Hw H IH]; [done|]. unfold bits_bytes in *. cbn [length bytes_words fmap list_fmap concat].
  pose proof (le_bytes_length 4 w) as Hl.
  rewrite take_app_le, take_ge, drop_app_le, drop_ge by lia. simpl app. rewrite le_value_bytes by done. by f_equal.
Qed.

(** Changing bits keeps the number of words. *)
Lemma bitmap_set_length i v b u b' : bitmap_set i v b = Ok (u, b') -> length (bits b') = length (bits b).
Proof.
  unfold bitmap_set. intros (n & b1 & E1 & H)%bind_inv. injection E1 as <- <-.
  apply bind_inv in H as (u1 & b2 & E2 & H). unfold ASSERT in E2. destruct (i <? bit_cnt b); [|done]. injection E2 as <- <-.
  assert (Hu : forall f, upd_elem i f b = Ok (u, b') -> length (bits b') = length (bits b)).
  { intros f (b0 & b1 & E & H0)%bind_inv. injection E as <- <-. apply bind_inv in H0 as (w & b1 & E & H0).
    destruct (zlookup (bits b) (elem_idx i)); [|done]. injection E as <- <-. injection H0 as <- <-. apply zset_length. }
  destruct v; by eapply Hu.
Qed.
Lemma set_loop_length n i start v b u b' : set_loop n i start v b = Ok (u, b') -> length (bits b') = length (bits b).
Proof.
  revert i b. induction n as [|n IH]; intros i b H; [by injection H as <- <-|].
  apply bind_inv in H as (u1 & b1 & E1 & H). apply bitmap_set_length in E1. rewrite <- E1. by eapply IH.
Qed.
Lemma set_multiple_length start cnt v b u b' :
  bitmap_set_multiple start cnt v b = Ok (u, b') -> length (bits b') = length (bits b).
Proof.
  intros (u1 & b1 & E1 & H)%bind_inv. apply set_loop_length in H. rewrite H. clear H. unfold check_range in E1.
  apply bind_inv in E1 as (n & b2 & E & H). injection E as <- <-. unfold ASSERT in H.
  destruct (start <=? bit_cnt b); [|done]. rewrite ret_bind in H.
  destruct (u32 (start + cnt) <=? bit_cnt b); [|done]. by injection H as <- <-.
Qed.

(** [b'] is [b] with the bits of a range set to [v]. *)
Record range_set (b b' : bitmap) (t cnt : Z) (v : bool) : Prop := {
  rs_bits : has_bits b b' (fun j => if within t cnt j then v else bit b j);
  rs_length : length (bits b') = length (bits b)
}.
Lemma set_multiple_range b t cnt v :
  bitmap_ok b -> 0 <= t -> 0 <= cnt -> t + cnt <= bit_cnt b ->
  exists b', bitmap_set_multiple t cnt v b = Ok (tt, b') /\ range_set b b' t cnt v.
Proof.
  intros Hb H1 H2 H3. destruct (bitmap_set_multiple_ok b t cnt v Hb H1 H2 H3) as (b' & E & Hh).
  exists b'. split; [done|]. split; [done|]. by eapply set_multiple_length.
Qed.

(** The first run of free bits is marked; there is one of length zero. *)
Lemma flip_range b cnt :
  bitmap_ok b -> 0 < bit_cnt b -> 0 <= cnt ->
  (bitmap_scan_and_flip 0 cnt false b = Ok (BITMAP_ERROR, b) /\
   forall k, 0 <= k -> k + cnt <= bit_cnt b -> ~ group b false k cnt) \/
  (exists t b', bitmap_scan_and_flip 0 cnt false b = Ok (t, b') /\ t <> BITMAP_ERROR /\ 0 <= t /\ t + cnt <= bit_cnt b /\
     group b false t cnt /\ range_set b b' t cnt true).
Proof.
  intros Hb Hpos Hc. unfold bitmap_scan_and_flip.
  destruct (bitmap_scan_ok b 0 cnt false Hb) as (r & E & Hcase); [lia|lia|]. rewrite (bind_ok _ _ _ _ _ E).
  destruct Hcase as [[-> Hno]|(H1 & H2 & Hg & Hno)]; [left; split; [done|]; auto|].
  assert (Hne : r <> BITMAP_ERROR).
  { destruct (bo_cnt b Hb) as [_ Hlt]. unfold BITMAP_ERROR. destruct (decide (cnt = 0)) as [->|]; [|lia].
    destruct (decide (r = 0)); [lia|]. destruct (Hno 0); [lia|]. intros j Hj. lia. }
  right. destruct (set_multiple_range b r cnt true Hb) as (b' & E' & R); [lia..|]. exists r, b'.
  rewrite (proj2 (Z.eqb_neq _ _) Hne). cbn [negb when]. rewrite (bind_ok _ _ _ _ _ E'). by split_and!.
Qed.

Section FreeMapOk.
Context {D : Type} `{!BlockDevice D}.
Implicit Types (s : fs D).

Record map_ok s : Prop := {
  mp_bits : bitmap_ok (free_map s);
  mp_cnt : bit_cnt (free_map s) = bd_size (fs_device s);
  mp_size : 2 <= bd_size (fs_device s) < 2 ^ 31;
  mp_words : len (bits (free_map s)) = (bd_size (fs_device s) + 31) / 32
}.
(** The open file of the free map. *)
Record map_file s (fp ip : Z) (i : inode) : Prop := {
  mf_pointer : free_map_file s = Some fp;
  mf_file : exists pos, files s !! fp = Some (mkFile ip pos false);
  mf_readable : readable s ip i;
  mf_deny : deny_write_cnt i = 0;
  mf_length : length_ (data i) = 4 * len (bits (free_map s))
}.

Lemma map_byte_cnt s : map_ok s -> s32 (byte_cnt (bit_cnt (free_map s))) = 4 * len (bits (free_map s)).
Proof.
  intros [H1 H2 H3 H4]. unfold byte_cnt, Bitmap.elem_cnt, DIV_ROUND_UP, ELEM_BITS. rewrite H2, H4.
  rewrite (wrapu_small 32 (bd_size _ + 32 - 1)) by lia. replace (bd_size (fs_device s) + 32 - 1) with (bd_size (fs_device s) + 31) by lia.
  assert (0 <= (bd_size (fs_device s) + 31) / 32 < 2 ^ 27) by (split; [apply Z.div_pos|apply Z.div_lt_upper_bound]; lia).
  rewrite wrapu_small by lia. apply wraps_small; [done|]. change (32 - 1) with 31. lia.
Qed.

Lemma get_file_ok s fp f : files s !! fp = Some f -> get_file fp s = Ok (f, s).
Proof. intros H. unfold get_file, mbind, K_bind. simpl. by rewrite H. Qed.

Lemma bitmap_write_ok s fp ip i :
  map_ok s -> map_file s fp ip i ->
  exists s', bitmap_write fp s = Ok (true, s') /\ changes (in_file (data i)) s s' /\
    content (fs_device s') (data i) = bits_bytes (bits (free_map s)).
Proof.
  intros M [F1 [pos F2] F3 F4 F5]. unfold bitmap_write. erewrite bind_ok by reflexivity. cbv zeta. rewrite (map_byte_cnt s M).
  set (n := 4 * len (bits (free_map s))) in *. assert (Hbl : len (bits_bytes (bits (free_map s))) = n) by (rewrite bits_bytes_length; lia).
  unfold file_write_at. rewrite bind_assoc, (bind_ok _ _ _ _ _ (get_file_ok s fp _ F2)). cbn [f_inode].
  destruct (inode_write_ok s ip i (bits_bytes (bits (free_map s))) n 0 n F3 F4) as (s' & E & C & Ec); [lia|lia|unfold writable; lia|].
  rewrite (bind_ok _ _ _ _ _ E). exists s'. split; [by rewrite Z.eqb_refl|]. split; [done|]. rewrite Ec, <- Hbl at 1.
  rewrite slice_all. apply splice_all. destruct F3 as [_ R1 R2 _]. rewrite content_length by done. lia.
Qed.

(** ** Allocating and releasing *)

(** The state with the map [b'], which has been saved in the file of the map. *)
Record saved s (b' : bitmap) (i : inode) s' : Prop := {
  sv_changes : changes (in_file (data i)) (set_map b' s) s';
  sv_content : content (fs_device s') (data i) = bits_bytes (bits b')
}.

Lemma set_map_ok s b' t cnt v :
  map_ok s -> range_set (free_map s) b' t cnt v -> map_ok (set_map b' s).
Proof. intros [H1 H2 H3 H4] [(B1 & B2 & _) R2]. split; simpl; [done|congruence|done|congruence]. Qed.
Lemma set_map_file_ok s b' fp ip i :
  map_file s fp ip i -> length (bits b') = length (bits (free_map s)) -> map_file (set_map b' s) fp ip i.
Proof.
  intros [F1 F2 [R1 R2 R3 R4] F4 F5] Hl. split; [done..|by split|done|]. simpl. by rewrite Hl.
Qed.
Lemma save_map s b' t cnt v fp ip i :
  map_ok s -> map_file s fp ip i -> range_set (free_map s) b' t cnt v ->
  exists s', bitmap_write fp (set_map b' s) = Ok (true, s') /\ saved s b' i s'.
Proof.
  intros M F R. destruct (bitmap_write_ok (set_map b' s) fp ip i) as (s' & E & C & Ec).
  - by eapply set_map_ok.
  - apply set_map_file_ok; [done|]. by destruct R.
  - by exists s'.
Qed.

Lemma free_map_allocate_ok s cnt fp ip i :
  map_ok s -> map_file s fp ip i -> 0 <= cnt ->
  (free_map_allocate cnt s = Ok (None, s) /\
   forall k, 0 <= k -> k + cnt <= bd_size (fs_device s) -> ~ group (free_map s) false k cnt) \/
  (exists t b' s', free_map_allocate cnt s = Ok (Some t, s') /\ 0 <= t /\ t + cnt <= bd_size (fs_device s) /\
     group (free_map s) false t cnt /\ range_set (free_map s) b' t cnt true /\ saved s b' i s').
Proof.
  intros M F Hc. pose proof M as [M1 M2 M3 M4]. unfold free_map_allocate. rewrite <- M2 in *.
  destruct (flip_range (free_map s) cnt M1) as [[E Hno]|(t & b' & E & Hne & Ht & Htc & Hg & R)]; [lia|lia| |].
  - left. split; [|done]. erewrite bind_ok by (unfold on_map, on_part; rewrite E; reflexivity).
    erewrite bind_ok by reflexivity. rewrite Z.eqb_refl, ret_bind. by destruct s.
  - right. destruct (save_map s b' t cnt true fp ip i M F R) as (s' & Ew & Sv). exists t, b', s'.
    split; [|by split_and!]. erewrite bind_ok by (unfold on_map, on_part; rewrite E; reflexivity).
    erewrite bind_ok by reflexivity. change (free_map_file (set_map b' s)) with (free_map_file s). rewrite (mf_pointer _ _ _ _ F).
    rewrite (proj2 (Z.eqb_neq _ _) Hne). by rewrite (bind_ok _ _ _ _ _ Ew).
Qed.

Lemma free_map_release_ok s t cnt fp ip i :
  map_ok s -> map_file s fp ip i -> 0 <= t -> 0 <= cnt -> t + cnt <= bd_size (fs_device s) -> group (free_map s) true t cnt ->
  exists b' s', free_map_release t cnt s = Ok (tt, s') /\ range_set (free_map s) b' t cnt false /\ saved s b' i s'.
Proof.
  intros M F Ht Hc Htc Hg. pose proof M as [M1 M2 M3 M4]. rewrite <- M2 in *. unfold free_map_release.
  destruct (bitmap_all_ok (free_map s) t cnt M1 Ht Hc Htc) as (r & Er & Hr). apply Hr in Hg as ->.
  destruct (set_multiple_range (free_map s) t cnt false M1 Ht Hc Htc) as (b' & Eb & R).
  destruct (save_map s b' t cnt false fp ip i M F R) as (s' & Ew & Sv). exists b', s'. split; [|done].
  assert (Ea : on_map (bitmap_all t cnt) s = Ok (true, s)) by (unfold on_map, on_part; rewrite Er; by destruct s).
  rewrite (bind_ok _ _ _ _ _ Ea), ASSERT_true by done.
  erewrite bind_ok by (unfold on_map, on_part; rewrite Eb; reflexivity). erewrite bind_ok by reflexivity.
  change (free_map_file (set_map b' s)) with (free_map_file s). rewrite (mf_pointer _ _ _ _ F).
  erewrite bind_ok by reflexivity. by rewrite (bind_ok _ _ _ _ _ Ew).
Qed.

End FreeMapOk.
