(* ===== verification/FsInv.v ===== *)
(** The invariant of the file system: which sectors the files own, how the objects in
    memory stand for them, and what the root directory lists. *)

From stdpp Require Import gmap.
From S2P Require Import Prelude KMonad Bytes Bitmap Block Filesys InodeOk FreeMapOk.

(** ** Counting the objects that hold a reference *)

Section Holders.
Context {A : Type}.
Implicit Types (m : gmap Z A) (P : A -> bool).

Definition holders m P : Z := Z.of_nat (size (filter (fun kv => P kv.2 = true) m)).
Definition one (b : bool) : Z := if b then 1 else 0.

Lemma holders_delete m P k v : m !! k = Some v -> holders m P = one (P v) + holders (delete k m) P.
Proof.
  intros H. unfold holders. rewrite map_filter_delete. destruct (P v) eqn:E; simpl.
  - assert (Hf : filter (fun kv => P kv.2 = true) m !! k = Some v) by (by apply map_lookup_filter_Some).
    rewrite map_size_delete_Some by (by exists v). assert (size (filter (fun kv => P kv.2 = true) m) <> 0%nat); [|lia].
    intros Hz. apply map_size_empty_inv in Hz. by rewrite Hz in Hf.
  - rewrite delete_id; [lia|]. apply map_lookup_filter_None. right. intros v' Hv'. simpl. rewrite H in Hv'. injection Hv' as <-. by rewrite E.
Qed.
Lemma holders_insert m P k v : m !! k = None -> holders (<[k := v]> m) P = one (P v) + holders m P.
Proof.
  intros H. rewrite (holders_delete _ P k v) by apply lookup_insert_eq. by rewrite delete_insert_id.
Qed.
Lemma holders_update m P k v v' :
  m !! k = Some v -> holders (<[k := v']> m) P = one (P v') + (holders m P - one (P v)).
Proof.
  intros H. rewrite (holders_delete _ P k v') by apply lookup_insert_eq. rewrite delete_insert_eq.
  rewrite (holders_delete m P k v H). lia.
Qed.
Lemma holders_nonneg m P : 0 <= holders m P.
Proof. unfold holders. lia. Qed.
Lemma holders_pos m P k v : m !! k = Some v -> P v = true -> 0 < holders m P.
Proof. intros H Hp. rewrite (holders_delete m P k v H), Hp. simpl. pose proof (holders_nonneg (delete k m) P). lia. Qed.
Lemma holders_mono m P Q : (forall v, P v = true -> Q v = true) -> holders m P <= holders m Q.
Proof.
  intros H. unfold holders. apply inj_le, map_subseteq_size, map_subseteq_spec. intros k v Hv.
  apply map_lookup_filter_Some in Hv as [Hv Hp]. apply map_lookup_filter_Some. split; [done|]. by apply H.
Qed.
End Holders.

(** ** The parts of the invariant *)

(** A file or directory on the disk: the sector of its inode and the inode. *)
#[global] Instance inode_disk_eq_dec : EqDecision inode_disk.
Proof. solve_decision. Defined.
Definition obj : Type := Z * inode_disk.
#[global] Instance obj_eq_dec : EqDecision obj := _.
Definition owned (o : obj) : list Z := o.1 :: seqZ (start o.2) (sectors_of (length_ o.2)).
Definition all_owned (objs : list obj) : list Z := concat (owned <$> objs).

Lemma elem_owned (o : obj) t : t ∈ owned o <-> t = o.1 \/ in_file o.2 t.
Proof. unfold owned, in_file. rewrite elem_of_cons, elem_of_seqZ. done. Qed.
Lemma elem_all_owned objs t : t ∈ all_owned objs <-> exists o, o ∈ objs /\ t ∈ owned o.
Proof.
  unfold all_owned. rewrite list_elem_of_In, in_concat. split.
  - intros (l & Hl & Ht). rewrite <- list_elem_of_In in Hl.
    apply list_elem_of_fmap in Hl as (o & -> & Ho). exists o. split; [done|]. by apply list_elem_of_In.
  - intros (o & Ho & Ht). exists (owned o). rewrite <- list_elem_of_In. split; [by apply list_elem_of_fmap_2|]. by apply list_elem_of_In.
Qed.
#[global] Instance all_owned_perm : Proper (Permutation ==> Permutation) all_owned.
Proof.
  intros l l' H. induction H as [|o l l' H IH|o o' l|l l' l'' H IH H' IH']; unfold all_owned in *; cbn [fmap list_fmap concat] in *.
  - done.
  - by rewrite IH.
  - rewrite !app_assoc. f_equiv. apply Permutation_app_comm.
  - by etrans.
Qed.
Lemma all_owned_cons o objs : all_owned (o :: objs) = owned o ++ all_owned objs.
Proof. done. Qed.

Section Inv.
Context {D : Type} `{!BlockDevice D}.
Implicit Types (s : fs D) (objs : list obj) (tmp : list Z).

Record disk_ok s objs : Prop := {
  ds_dev : bd_ok (fs_device s);
  ds_obj o : o ∈ objs ->
    extent_ok (fs_device s) o.2 /\ 0 <= o.1 < bd_size (fs_device s) /\ disk_inode (bd_sector (fs_device s) o.1) = o.2;
  ds_apart : NoDup (all_owned objs);
  ds_marked t : t ∈ all_owned objs -> bit (free_map s) t = true
}.

(** The references to open inodes: from open files, from open directories, and from the
    operation under way. *)
Record handles := mkHandles { h_files : gmap Z file; h_dirs : gmap Z dir; h_tmp : list Z }.
Definition count (p : Z) tmp : Z := Z.of_nat (length (filter (fun q => q = p) tmp)).
Definition refs (h : handles) (p : Z) : Z :=
  holders (h_files h) (fun f => f_inode f =? p) + holders (h_dirs h) (fun d => d_inode d =? p) + count p (h_tmp h).
Definition deniers (h : handles) (p : Z) : Z := holders (h_files h) (fun f => (f_inode f =? p) && deny_write f).

Record inode_ok s objs (h : handles) (p : Z) (i : inode) : Prop := {
  io_obj : (i_sector i, data i) ∈ objs;
  io_cnt : open_cnt i = refs h p;
  io_pos : 0 < open_cnt i;
  io_deny : deny_write_cnt i = deniers h p;
  io_brk : p < brk s
}.
Record mem_ok s objs (h : handles) : Prop := {
  mm_memory : memory s = [];
  mm_nodup : NoDup (open_inodes s);
  mm_dom p : p ∈ open_inodes s <-> is_Some (inodes s !! p);
  mm_inode p i : inodes s !! p = Some i -> inode_ok s objs h p i;
  mm_inj p q i j : inodes s !! p = Some i -> inodes s !! q = Some j -> i_sector i = i_sector j -> p = q;
  mm_files fp f : h_files h !! fp = Some f -> is_Some (inodes s !! f_inode f) /\ fp < brk s;
  mm_dirs dp d : h_dirs h !! dp = Some d -> is_Some (inodes s !! d_inode d) /\ dp < brk s;
  mm_tmp p : p ∈ h_tmp h -> is_Some (inodes s !! p)
}.

(** *** Frames *)

Lemma changes_disk P s s' objs :
  changes P s s' -> disk_ok s objs -> (forall o, o ∈ objs -> ~ P o.1) -> disk_ok s' objs.
Proof.
  intros C [H1 H2 H3 H4] HP. pose proof C as [[S1 _ _ _ _ _ _ _ S9 S10] Hk]. split.
  - by apply S9.
  - intros o Ho. destruct (H2 o Ho) as (E & R & I). split_and!; [by eapply changes_extent|lia|lia|].
    rewrite Hk; [done|done|]. by apply HP.
  - done.
  - intros t Ht. rewrite S1. by apply H4.
Qed.
Lemma changes_content P s s' d :
  changes P s s' -> extent_ok (fs_device s) d -> (forall t, in_file d t -> ~ P t) ->
  content (fs_device s') d = content (fs_device s) d.
Proof.
  intros [_ Hk] [H1 H2 H3] HP. unfold content, raw. do 2 f_equal. apply list_fmap_ext. intros k t Ht.
  apply lookup_seqZ in Ht as [-> Hkk]. apply Hk; [lia|]. apply HP. unfold in_file. lia.
Qed.
Lemma changes_mem P s s' objs h : changes P s s' -> mem_ok s objs h -> mem_ok s' objs h.
Proof.
  intros [[S1 S2 S3 S4 S5 S6 S7 S8 _ _] _] [M1 M2 M3 M4 M5 M6 M7 M8].
  split; rewrite ?S3, ?S4, ?S8; try done.
  - intros p i Hi. destruct (M4 p i Hi) as [I1 I2 I3 I4 I5]. split; (done || lia).
  - intros fp f Hf. destruct (M6 fp f Hf). split; [done|lia].
  - intros dp d Hd. destruct (M7 dp d Hd). split; [done|lia].
Qed.
Lemma set_map_mem b s objs h : mem_ok s objs h -> mem_ok (set_map b s) objs h.
Proof. intros [M1 M2 M3 M4 M5 M6 M7 M8]. split; try done. intros p i Hi. by destruct (M4 p i Hi). Qed.
Lemma set_map_disk b s objs :
  disk_ok s objs -> (forall t, t ∈ all_owned objs -> bit b t = true) -> disk_ok (set_map b s) objs.
Proof. intros [H1 H2 H3 H4] Hb. by split. Qed.

Lemma mem_objs s objs objs' h :
  mem_ok s objs h -> (forall p i, inodes s !! p = Some i -> (i_sector i, data i) ∈ objs') -> mem_ok s objs' h.
Proof.
  intros [M1 M2 M3 M4 M5 M6 M7 M8] H. split; try done. intros p i Hi. destruct (M4 p i Hi) as [I1 I2 I3 I4 I5].
  split; [|done..]. by eapply H.
Qed.
Lemma disk_sub s objs objs' :
  disk_ok s objs -> (exists rest, objs ≡ₚ rest ++ objs') -> disk_ok s objs'.
Proof.
  intros [H1 H2 H3 H4] [rest Hp]. split; [done| | |].
  - intros o Ho. apply H2. rewrite Hp. apply elem_of_app. by right.
  - rewrite Hp in H3. unfold all_owned in *. rewrite fmap_app, concat_app in H3. by apply NoDup_app in H3 as (_ & _ & ?).
  - intros t (o & Ho & Ht)%elem_all_owned. apply H4, elem_all_owned. exists o. split; [|done]. rewrite Hp. apply elem_of_app. by right.
Qed.

(** Different objects own different sectors, and no object has its own inode in its data. *)
Lemma owned_apart s objs o o' t :
  disk_ok s objs -> o ∈ objs -> o' ∈ objs -> t ∈ owned o -> t ∈ owned o' -> o = o'.
Proof.
  intros [_ _ H _] Ho Ho' Ht Ht'. destruct (decide (o = o')) as [|Hne]; [done|]. exfalso.
  apply elem_of_Permutation in Ho as [l Hl]. rewrite Hl in H, Ho'. apply elem_of_cons in Ho' as [->|Ho']; [done|].
  rewrite all_owned_cons in H. apply NoDup_app in H as (_ & H & _). apply (H t Ht). apply elem_all_owned. eauto.
Qed.
Lemma inode_not_in_file s objs o : disk_ok s objs -> o ∈ objs -> ~ in_file o.2 o.1.
Proof.
  intros [_ _ H _] Ho. apply elem_of_Permutation in Ho as [l Hl]. rewrite Hl, all_owned_cons in H.
  apply NoDup_app in H as (H & _ & _). unfold owned in H. apply NoDup_cons in H as [H _].
  rewrite elem_of_seqZ in H. unfold in_file. lia.
Qed.
Lemma new_apart s objs o o' t : disk_ok s (o :: objs) -> o' ∈ objs -> in_file o'.2 t -> t ∉ owned o.
Proof.
  intros [_ _ H _] Ho Ht Hin. rewrite all_owned_cons in H. apply NoDup_app in H as (_ & H & _).
  apply (H t Hin), elem_all_owned. exists o'. split; [done|]. apply elem_owned. by right.
Qed.
Lemma obj_unique s objs o o' : disk_ok s objs -> o ∈ objs -> o' ∈ objs -> o.1 = o'.1 -> o = o'.
Proof.
  intros Hd Ho Ho' E. apply (owned_apart s objs o o' o.1); [done..| |]; apply elem_owned; left; done.
Qed.
Lemma file_change_keeps s objs o o' :
  disk_ok s objs -> o ∈ objs -> o' ∈ objs -> ~ in_file o.2 o'.1.
Proof.
  intros Hd Ho Ho' Hf. assert (o = o').
  { apply (owned_apart s objs o o' o'.1); [done..| |]; apply elem_owned; auto. }
  subst o'. by apply (inode_not_in_file s objs o).
Qed.
Lemma files_apart s objs o o' t :
  disk_ok s objs -> o ∈ objs -> o' ∈ objs -> o <> o' -> in_file o'.2 t -> ~ in_file o.2 t.
Proof.
  intros Hd Ho Ho' Hne H' H. apply Hne. apply (owned_apart s objs o o' t); [done..| |]; apply elem_owned; auto.
Qed.

(** *** The free map *)

(** The bits in a file; those past the end of the map do not matter. *)
Definition saved_as (b : bitmap) (bs : list Z) : Prop := exists ws, bs = bits_bytes ws /\ length ws = length (bits b) /\ Forall word ws /\
  forall j, 0 <= j < bit_cnt b -> bit (mkBitmap (bit_cnt b) ws) j = bit b j.
Lemma saved_as_bits b : bitmap_ok b -> saved_as b (bits_bytes (bits b)).
Proof. intros [_ _ Hw]. exists (bits b). by split_and!. Qed.

Record fmap_ok s objs (fp ip : Z) (i : inode) : Prop := {
  fm_map : map_ok s;
  fm_file : map_file s fp ip i;
  fm_obj : (i_sector i, data i) ∈ objs;
  fm_saved : saved_as (free_map s) (content (fs_device s) (data i))
}.
(** Contents of the other files are kept. *)
Definition keeps objs (om : obj) s s' : Prop :=
  forall o, o ∈ objs -> o <> om -> content (fs_device s') o.2 = content (fs_device s) o.2.
(** What operations on the free map leave as it is. *)
Record same_objects s s' : Prop := {
  so_map_file : free_map_file s' = free_map_file s;
  so_inodes : inodes s' = inodes s;
  so_open : open_inodes s' = open_inodes s;
  so_files : files s' = files s;
  so_dirs : dirs s' = dirs s;
  so_size : bd_size (fs_device s') = bd_size (fs_device s)
}.
Lemma same_objects_refl s : same_objects s s.
Proof. done. Qed.
Lemma same_objects_trans s1 s2 s3 : same_objects s1 s2 -> same_objects s2 s3 -> same_objects s1 s3.
Proof. intros [] []. split; congruence. Qed.
Lemma changes_same_objects P s s' : changes P s s' -> same_objects s s'.
Proof. by intros [[] _]. Qed.

Lemma changes_fmap P s s' objs fp ip i :
  changes P s s' -> fmap_ok s objs fp ip i -> (forall t, in_file (data i) t -> ~ P t) -> fmap_ok s' objs fp ip i.
Proof.
  intros C [[M1 M2 M3 M4] [F1 F2 F3 F4 F5] O S] HP. pose proof C as [[S1 S2 S3 S4 S5 _ _ _ _ S10] _]. split.
  - split; rewrite ?S1, ?S10; done.
  - split; rewrite ?S1, ?S2, ?S5; try done. by eapply changes_readable.
  - done.
  - rewrite S1, (changes_content P s); [done|done|apply F3|done].
Qed.

Lemma saved_mem s objs h i b' s' : saved s b' i s' -> mem_ok s objs h -> mem_ok s' objs h.
Proof. intros [C _] M. eapply changes_mem; [done|]. by apply set_map_mem. Qed.
Lemma saved_ok s objs fp ip i b' t cnt v s' :
  disk_ok s objs -> fmap_ok s objs fp ip i ->
  range_set (free_map s) b' t cnt v -> 0 <= t ->
  (v = true \/ forall u, u ∈ all_owned objs -> within t cnt u = false) -> saved s b' i s' ->
  disk_ok s' objs /\ fmap_ok s' objs fp ip i /\ keeps objs (i_sector i, data i) s s' /\
  same_objects s s' /\ free_map s' = b'.
Proof.
  intros Dk [M F O S] R Ht Hv [C Hc]. pose proof R as [(B1 & B2 & B3) B4].
  assert (Hneg : forall u, u ∈ all_owned objs -> 0 <= u).
  { intros u (o & Ho & Hu)%elem_all_owned. destruct (ds_obj _ _ Dk o Ho) as ([E1 E2 E3] & Hr & _).
    apply elem_owned in Hu as [->|[Hu _]]; lia. }
  assert (D1 : disk_ok (set_map b' s) objs).
  { apply set_map_disk; [done|]. intros u Hu. rewrite B3 by auto. destruct Hv as [->|Hw].
    - destruct (within t cnt u); [done|]. by apply (ds_marked _ _ Dk).
    - rewrite Hw by done. by apply (ds_marked _ _ Dk). }
  pose proof C as [[S1 S2 S3 S4 S5 S6 _ _ _ S10] _]. split_and!.
  - eapply changes_disk; [done..|]. intros o Ho. by apply (file_change_keeps s objs (i_sector i, data i) o).
  - assert (M1 : map_ok (set_map b' s)) by (by eapply set_map_ok).
    assert (F1 : map_file (set_map b' s) fp ip i) by (by apply set_map_file_ok).
    destruct M1 as [X1 X2 X3 X4]. destruct F1 as [Y1 Y2 Y3 Y4 Y5]. split.
    + split; rewrite ?S1, ?S10; done.
    + split; rewrite ?S1, ?S2, ?S5; try done. by eapply changes_readable.
    + done.
    + rewrite S1, Hc. by apply saved_as_bits.
  - intros o Ho Hne. apply (changes_content _ (set_map b' s) s' _ C).
    + by apply (ds_obj _ _ Dk).
    + intros u Hu. by apply (files_apart s objs (i_sector i, data i) o).
  - by split.
  - done.
Qed.

End Inv.
