(* ===== verification/FsCreate.v ===== *)
(** Creating inodes, and opening and closing them (filesys/inode.c). *)

From stdpp Require Import gmap.
From S2P Require Import Prelude KMonad Bytes Bitmap Block Filesys InodeOk FreeMapOk FsInv.

Lemma disk_inode_bytes d :
  0 <= start d < 2 ^ 32 -> 0 <= length_ d < 2 ^ 31 -> 0 <= magic d < 2 ^ 32 -> disk_inode (disk_bytes d) = d.
Proof.
  intros H1 H2 H3. unfold disk_inode, disk_bytes.
  change (mkInodeDisk (le_value (le_bytes 4 (start d))) (s32 (le_value (le_bytes 4 (u32 (length_ d))))) (le_value (le_bytes 4 (magic d))) = d).
  rewrite (wrapu_small 32 (length_ d)) by lia. rewrite !le_value_bytes by (change (8 * Z.of_nat 4) with 32; lia).
  rewrite wraps_small by (change (32 - 1) with 31; lia). by destruct d.
Qed.
Lemma disk_bytes_length d : length (disk_bytes d) = 512%nat.
Proof. unfold disk_bytes. rewrite !length_app, !le_bytes_length, length_replicate. done. Qed.

Lemma concat_replicate {A} n m (x : A) : concat (replicate n (replicate m x)) = replicate (n * m) x.
Proof. induction n as [|n IH]; simpl; [done|]. by rewrite IH, replicate_add. Qed.

Section Create.
Context {D : Type} `{!BlockDevice D}.
Implicit Types (s : fs D) (objs : list obj) (h : handles).

Lemma zero_loop_ok n t s :
  bd_ok (fs_device s) -> 0 <= t -> t + Z.of_nat n <= bd_size (fs_device s) ->
  exists s', zero_loop n t s = Ok (tt, s') /\ changes (fun u => t <= u < t + Z.of_nat n) s s' /\
    forall u, t <= u < t + Z.of_nat n -> bd_sector (fs_device s') u = replicate 512 0.
Proof.
  revert t s. induction n as [|n IH]; intros t s Hok Ht Hn.
  { exists s. split; [done|]. split; [apply changes_refl|]. lia. }
  cbn [zero_loop]. destruct (dev_write_ok s t (replicate 512 0) Hok) as (s1 & E1 & C1 & H1); [lia|apply length_replicate|].
  change (Z.to_nat BLOCK_SECTOR_SIZE) with 512%nat. rewrite (bind_ok _ _ _ _ _ E1).
  pose proof (bd_size_range _ Hok). rewrite wrapu_small by lia.
  pose proof C1 as [[_ _ _ _ _ _ _ _ S9 S10] _].
  destruct (IH (t + 1) s1) as (s' & E & C & Hz); [by apply S9|lia|lia|]. exists s'. split; [done|]. split.
  - eapply changes_trans; [eapply changes_weaken; [|exact C1]|eapply changes_weaken; [|exact C]].
    + intros u ->. lia.
    + intros u Hu. simpl in Hu. lia.
  - intros u Hu. destruct (decide (u = t)) as [->|Hne]; [|apply Hz; lia].
    destruct C as [_ Hk]. rewrite Hk; [done|lia|lia].
Qed.

Lemma zero_content s d :
  0 <= length_ d -> (forall u, in_file d u -> bd_sector (fs_device s) u = replicate 512 0) ->
  content (fs_device s) d = replicate (Z.to_nat (length_ d)) 0.
Proof.
  intros Hl Hz. unfold content, raw. pose proof (sectors_of_spec (length_ d) Hl) as Hs.
  assert (E : bd_sector (fs_device s) <$> seqZ (start d) (sectors_of (length_ d)) =
              replicate (Z.to_nat (sectors_of (length_ d))) (replicate 512 0)).
  { apply list_eq. intros k. rewrite list_lookup_fmap. destruct (decide (Z.of_nat k < sectors_of (length_ d))).
    - rewrite lookup_seqZ_lt by lia. rewrite lookup_replicate_2 by lia. simpl. f_equal. apply Hz. unfold in_file. lia.
    - rewrite lookup_seqZ_ge by lia. symmetry. apply lookup_ge_None_2. rewrite length_replicate. lia. }
  rewrite E, concat_replicate, take_replicate. f_equal. lia.
Qed.

(** The sectors of a new file. *)
Record created s objs (sector first n : Z) s' : Prop := {
  cr_disk : disk_ok s' ((sector, mkInodeDisk first n INODE_MAGIC) :: objs);
  cr_zero : content (fs_device s') (mkInodeDisk first n INODE_MAGIC) = replicate (Z.to_nat n) 0;
  cr_free : group (free_map s) false first (sectors_of n);
  cr_range : 0 <= first /\ first + sectors_of n <= bd_size (fs_device s);
  cr_map : range_set (free_map s) (free_map s') first (sectors_of n) true
}.
Record not_created s objs (n : Z) s' : Prop := {
  nc_disk : disk_ok s' objs;
  nc_full k : 0 <= k -> k + sectors_of n <= bd_size (fs_device s) -> ~ group (free_map s) false k (sectors_of n);
  nc_map : free_map s' = free_map s
}.

(** The inode and the zeros, when the data sectors have been allocated. *)
Lemma write_new s objs sector first n :
  disk_ok s objs ->
  let d := mkInodeDisk first n INODE_MAGIC in
  0 <= n < 2 ^ 31 - 512 -> 0 <= first -> first + sectors_of n <= bd_size (fs_device s) ->
  0 <= sector < bd_size (fs_device s) -> ~ in_file d sector ->
  (forall t, t ∈ owned (sector, d) -> bit (free_map s) t = true /\ t ∉ all_owned objs) ->
  exists s', (on_dev (bd_write sector (disk_bytes d));; zero_loop (Z.to_nat (sectors_of n)) first;; mret true) s = Ok (true, s') /\
    changes (fun t => t ∈ owned (sector, d)) s s' /\ disk_ok s' ((sector, d) :: objs) /\
    content (fs_device s') d = replicate (Z.to_nat n) 0.
Proof.
  intros Dk d Hn Hf Hfn Hs Hns Hown. pose proof (ds_dev _ _ Dk) as Hok. pose proof (bd_size_range _ Hok) as Hsz.
  pose proof (sectors_of_spec n ltac:(lia)) as Hsec.
  destruct (dev_write_ok s sector (disk_bytes d) Hok Hs (disk_bytes_length d)) as (s1 & E1 & C1 & H1).
  rewrite (bind_ok _ _ _ _ _ E1). pose proof C1 as [[_ _ _ _ _ _ _ _ S9 S10] _].
  destruct (zero_loop_ok (Z.to_nat (sectors_of n)) first s1) as (s2 & E2 & C2 & H2); [by apply S9|lia|lia|].
  rewrite (bind_ok _ _ _ _ _ E2). exists s2. split; [done|].
  assert (C : changes (fun t => t ∈ owned (sector, d)) s s2).
  { eapply changes_trans; [eapply changes_weaken; [|exact C1]|eapply changes_weaken; [|exact C2]]; intros t Ht; apply elem_owned;
      [by left|right; unfold in_file; simpl in *; lia]. }
  split; [done|].
  assert (Dk' : disk_ok s2 objs).
  { eapply changes_disk; [done..|]. intros o Ho Hin. destruct (Hown _ Hin) as [_ Hno]. apply Hno, elem_all_owned.
    exists o. split; [done|]. apply elem_owned. by left. }
  pose proof C as [[M1 _ _ _ _ _ _ _ _ Sz] _]. split.
  - destruct Dk' as [K1 K2 K3 K4]. split; [done| | |].
    + intros o [->|Ho]%elem_of_cons; [|by apply K2]. split_and!; [split; simpl; lia|simpl; lia|simpl; lia|].
      cbn [fst snd]. destruct C2 as [_ Hk]. rewrite Hk; [|lia|unfold in_file in Hns; simpl in Hns; lia].
      rewrite H1. apply disk_inode_bytes; simpl; [lia|lia|done].
    + rewrite all_owned_cons. apply NoDup_app. split_and!; [|intros t Ht; by apply Hown|done].
      constructor; [|apply NoDup_seqZ]. rewrite elem_of_seqZ. unfold in_file in Hns. simpl in *. lia.
    + intros t Ht. rewrite all_owned_cons in Ht. apply elem_of_app in Ht as [Ht|Ht]; [|by apply K4].
      rewrite M1. by apply Hown.
  - apply zero_content; [simpl; lia|]. intros u Hu. apply H2. unfold in_file in Hu. simpl in Hu. lia.
Qed.

Lemma quiet_all s s' objs h fp ip i :
  quiet s s' -> disk_ok s objs -> mem_ok s objs h -> fmap_ok s objs fp ip i ->
  disk_ok s' objs /\ mem_ok s' objs h /\ fmap_ok s' objs fp ip i /\ same_objects s s' /\
  (forall o, o ∈ objs -> content (fs_device s') o.2 = content (fs_device s) o.2).
Proof.
  intros Q Dk Mm Fm. split_and!.
  - eapply changes_disk; [done..|]. by intros o _ [].
  - by eapply changes_mem.
  - eapply changes_fmap; [done..|]. by intros t _ [].
  - by eapply changes_same_objects.
  - intros o Ho. apply (changes_content _ s s' _ Q); [by apply (ds_obj _ _ Dk)|]. by intros t _ [].
Qed.

Lemma inode_create_ok s objs h fp ip i sector n :
  disk_ok s objs -> mem_ok s objs h -> fmap_ok s objs fp ip i ->
  0 <= n < 2 ^ 31 - 512 -> 0 <= sector < bd_size (fs_device s) -> bit (free_map s) sector = true -> sector ∉ all_owned objs ->
  exists ok s', inode_create sector n s = Ok (ok, s') /\ mem_ok s' objs h /\ fmap_ok s' objs fp ip i /\
    keeps objs (i_sector i, data i) s s' /\ same_objects s s' /\
    (if (ok : bool) then exists first, created s objs sector first n s' else not_created s objs n s').
Proof.
  intros Dk Mm Fm Hn Hs Hbit Hno. unfold inode_create. rewrite ASSERT_true by (apply Z.leb_le; lia).
  destruct (alloc_ok s (mm_memory _ _ _ Mm)) as (p & s1 & E1 & Q1 & _). rewrite (bind_ok _ _ _ _ _ E1). cbv zeta.
  rewrite bytes_to_sectors_eq by done. destruct (quiet_all s s1 objs h fp ip i Q1 Dk Mm Fm) as (Dk1 & Mm1 & Fm1 & So1 & Ct1).
  pose proof (sectors_of_spec n ltac:(lia)) as Hsec. pose proof Q1 as [[Mp1 _ _ _ _ _ _ _ _ Sz1] _].
  destruct (free_map_allocate_ok s1 (sectors_of n) fp ip i (fm_map _ _ _ _ _ Fm1) (fm_file _ _ _ _ _ Fm1))
    as [[E Hfull]|(t & b' & s2 & E & Ht & Htn & Hg & R & Sv)]; [lia| |]; rewrite (bind_ok _ _ _ _ _ E).
  { exists false, s1. split_and!; [done..| | |]; [intros o Ho _; by apply Ct1|done|]. rewrite Sz1, Mp1 in Hfull. by split. }
  destruct (saved_ok s1 objs fp ip i b' t (sectors_of n) true s2 Dk1 Fm1 R Ht ltac:(by left) Sv)
    as (Dk2 & Fm2 & Kp2 & So2 & Mp2). pose proof (saved_mem _ _ _ _ _ _ Sv Mm1) as Mm2. pose proof R as [(_ & _ & Rb) _].
  set (d := mkInodeDisk t n INODE_MAGIC).
  assert (Hfree : forall u, in_file d u -> (u ∉ all_owned objs) /\ bit (free_map s1) u = false /\ within t (sectors_of n) u = true /\ 0 <= u).
  { intros u Hu. unfold in_file in Hu. simpl in Hu. assert (Hb : bit (free_map s1) u = false) by (apply Hg; lia).
    split_and!; [|done|unfold within; case_cmp; (done || lia)|lia]. intros Ho. apply (ds_marked _ _ Dk1) in Ho. congruence. }
  destruct (write_new s2 objs sector t n Dk2) as (s3 & E3 & C3 & Dk3 & Hz).
  - done.
  - done.
  - by rewrite (so_size _ _ So2).
  - by rewrite (so_size _ _ So2), Sz1.
  - intros Hin. destruct (Hfree _ Hin) as (_ & Hb & _). congruence.
  - intros u [->|Hu]%elem_owned; rewrite Mp2.
    + cbn [fst]. rewrite Rb by lia. rewrite Mp1, Hbit. split; [by destruct (within _ _ _)|done].
    + destruct (Hfree u Hu) as (Ho & _ & Hw & H0). split; [|done]. rewrite Rb by lia. by rewrite Hw.
  - fold d in E3. rewrite E3. exists true, s3. split_and!; [done|by eapply changes_mem| | | |].
    + eapply changes_fmap; [done..|]. intros u Hu. apply (new_apart s3 objs _ (i_sector i, data i)); [done|apply Fm|done].
    + intros o Ho Hne. rewrite (changes_content _ s2 s3 _ C3), Kp2, Ct1; try done; [by apply (ds_obj _ _ Dk2)|].
      intros u Hu. by apply (new_apart s3 objs _ o).
    + eapply same_objects_trans; [done|]. eapply same_objects_trans; [done|]. by eapply changes_same_objects.
    + exists t. rewrite Mp1, Sz1 in *. pose proof C3 as [[Mp3 _ _ _ _ _ _ _ _ _] _]. split; [done..|]. by rewrite Mp3, Mp2.
Qed.

End Create.
