(* ===== verification/FsOpen.v ===== *)
(** Opening and closing inodes (filesys/inode.c), open files (filesys/file.c) and open
    directories: references are counted, and the sectors of a removed file are released
    when its last reference goes. *)

From stdpp Require Import gmap.
From S2P Require Import Prelude KMonad Bytes Bitmap Block Filesys InodeOk FreeMapOk FsInv FsCreate.

Section Open.
Context {D : Type} `{!BlockDevice D}.
Implicit Types (s : fs D) (objs : list obj) (tmp : list Z) (h : handles).

(** States with the same disk and free map. *)
Record same_disk s s' : Prop := {
  sk_map : free_map s' = free_map s;
  sk_map_file : free_map_file s' = free_map_file s;
  sk_memory : memory s' = memory s;
  sk_brk : brk s <= brk s';
  sk_ok : bd_ok (fs_device s) -> bd_ok (fs_device s');
  sk_size : bd_size (fs_device s') = bd_size (fs_device s);
  sk_sector t : 0 <= t < bd_size (fs_device s) -> bd_sector (fs_device s') t = bd_sector (fs_device s) t
}.
Lemma same_disk_refl s : same_disk s s.
Proof. done. Qed.
Lemma same_disk_trans s1 s2 s3 : same_disk s1 s2 -> same_disk s2 s3 -> same_disk s1 s3.
Proof.
  intros [A1 A2 A3 A4 A5 A6 A7] [B1 B2 B3 B4 B5 B6 B7]. split; [congruence..|lia|auto|congruence|].
  intros t Ht. rewrite B7, A7 by (done || congruence). done.
Qed.
Lemma quiet_same_disk s s' : quiet s s' -> same_disk s s'.
Proof. intros [[] Hk]. split; try done. intros t Ht. apply Hk; [done|]. by intros []. Qed.

Lemma same_disk_content s s' d :
  same_disk s s' -> extent_ok (fs_device s) d -> content (fs_device s') d = content (fs_device s) d.
Proof.
  intros [_ _ _ _ _ _ Hs] [H1 H2 H3]. unfold content, raw. do 2 f_equal. apply list_fmap_ext. intros k t Ht.
  apply lookup_seqZ in Ht as [-> Hk]. apply Hs. lia.
Qed.
Lemma same_disk_extent s s' d : same_disk s s' -> extent_ok (fs_device s) d -> extent_ok (fs_device s') d.
Proof. intros [] [H1 H2 H3]. split; [done..|]. lia. Qed.
Lemma same_disk_disk s s' objs : same_disk s s' -> disk_ok s objs -> disk_ok s' objs.
Proof.
  intros K [H1 H2 H3 H4]. pose proof K as [A1 A2 A3 A4 A5 A6 A7]. split; [auto| |done|by rewrite A1].
  intros o Ho. destruct (H2 o Ho) as (E & R & I). split_and!; [by eapply same_disk_extent|lia|lia|]. by rewrite A7.
Qed.
Lemma same_disk_fmap s s' objs fp ip i :
  same_disk s s' -> inodes s' !! ip = inodes s !! ip -> files s' !! fp = files s !! fp ->
  fmap_ok s objs fp ip i -> fmap_ok s' objs fp ip i.
Proof.
  intros K Hi Hf [[M1 M2 M3 M4] [F1 F2 [R1 R2 R3 R4] F4 F5] O S]. pose proof K as [A1 A2 A3 A4 A5 A6 A7]. split.
  - split; rewrite ?A1, ?A6; done.
  - split; rewrite ?A1, ?A2, ?Hf; try done. split; rewrite ?Hi, ?A3; auto. by eapply same_disk_extent.
  - done.
  - by rewrite A1, (same_disk_content s s').
Qed.

(** *** Counting *)

Lemma holders_zero {A} (m : gmap Z A) P : (forall k v, m !! k = Some v -> P v = false) -> holders m P = 0.
Proof.
  intros H. unfold holders. rewrite (proj2 (map_empty_filter _ m)); [by rewrite map_size_empty|].
  intros k v Hv. simpl. by rewrite (H k v Hv).
Qed.
Lemma count_cons p q tmp : count p (q :: tmp) = one (q =? p) + count p tmp.
Proof.
  unfold count. destruct (Z.eqb_spec q p) as [->|Hne]; simpl.
  - rewrite filter_cons_True by done. simpl. lia.
  - by rewrite filter_cons_False.
Qed.
Lemma count_nonneg p tmp : 0 <= count p tmp.
Proof. unfold count. lia. Qed.
(** One more reference of the operation under way. *)
Definition hold (p : Z) (h : handles) : handles := mkHandles (h_files h) (h_dirs h) (p :: h_tmp h).
Lemma refs_hold h p q : refs (hold q h) p = one (q =? p) + refs h p.
Proof. unfold refs. simpl. rewrite count_cons. lia. Qed.
Lemma refs_fresh s objs h p : mem_ok s objs h -> inodes s !! p = None -> refs h p = 0 /\ deniers h p = 0.
Proof.
  intros [M1 M2 M3 M4 M5 M6 M7 M8] Hp.
  assert (Hf : forall k f, h_files h !! k = Some f -> (f_inode f =? p) = false).
  { intros k f Hf. apply Z.eqb_neq. intros <-. destruct (M6 k f Hf) as [[i Hi] _]. congruence. }
  unfold refs, deniers. rewrite !holders_zero.
  - split; [|done]. unfold count. rewrite filter_drop; [done|]. intros q Hq ->. destruct (M8 p Hq) as [i Hi]. congruence.
  - intros k f Hk. by rewrite (Hf k f Hk).
  - intros k d Hd. apply Z.eqb_neq. intros <-. destruct (M7 k d Hd) as [[i Hi] _]. congruence.
  - done.
Qed.
(** No reference is left. *)
Lemma refs_none h p :
  refs h p = 0 ->
  (forall k f, h_files h !! k = Some f -> f_inode f <> p) /\ (forall k d, h_dirs h !! k = Some d -> d_inode d <> p) /\ p ∉ h_tmp h.
Proof.
  unfold refs. intros Hr. pose proof (holders_nonneg (h_files h) (fun f => f_inode f =? p)).
  pose proof (holders_nonneg (h_dirs h) (fun d => d_inode d =? p)). pose proof (count_nonneg p (h_tmp h)). split_and!.
  - intros k f Hk Ef. assert (0 < holders (h_files h) (fun f => f_inode f =? p)) by (apply (holders_pos _ _ k f Hk); by apply Z.eqb_eq). lia.
  - intros k d Hk Ed. assert (0 < holders (h_dirs h) (fun d => d_inode d =? p)) by (apply (holders_pos _ _ k d Hk); by apply Z.eqb_eq). lia.
  - intros Ht. assert (0 < count p (h_tmp h)); [|lia]. unfold count. destruct (filter (fun q => q = p) (h_tmp h)) eqn:Ef; [|simpl; lia].
    assert (Hin : p ∈ filter (fun q => q = p) (h_tmp h)) by (by apply list_elem_of_filter). rewrite Ef in Hin. by apply elem_of_nil in Hin.
Qed.

(** *** The table of inodes *)

(** The references of [h'] are those of [h] but for [p], and refer to open inodes. *)
Record same_refs s (p : Z) (h h' : handles) : Prop := {
  sr_refs q : q <> p -> refs h' q = refs h q /\ deniers h' q = deniers h q;
  sr_files fp f : h_files h' !! fp = Some f -> is_Some (inodes s !! f_inode f) /\ fp < brk s;
  sr_dirs dp d : h_dirs h' !! dp = Some d -> is_Some (inodes s !! d_inode d) /\ dp < brk s;
  sr_tmp q : q ∈ h_tmp h' -> is_Some (inodes s !! q)
}.

(** A change of the counts of one inode, with the references in use. *)
Lemma mem_update s objs h h' p i i' :
  mem_ok s objs h -> inodes s !! p = Some i -> i_sector i' = i_sector i -> data i' = data i ->
  open_cnt i' = refs h' p -> 0 < open_cnt i' -> deny_write_cnt i' = deniers h' p -> same_refs s p h h' ->
  mem_ok (set_inodes (<[p := i']> (inodes s)) (open_inodes s) s) objs h'.
Proof.
  intros [M1 M2 M3 M4 M5 M6 M7 M8] Hp Es Ed Ec Hc Edn [Hq Hf Hd Ht].
  assert (Hdom : forall q, is_Some (inodes s !! q) -> is_Some (<[p := i']> (inodes s) !! q)).
  { intros q Hsome. destruct (decide (q = p)) as [->|]; [rewrite lookup_insert_eq; eauto|by rewrite lookup_insert_ne]. }
  split; simpl; try done.
  - intros q. rewrite M3. split; [apply Hdom|]. destruct (decide (q = p)) as [->|]; [eauto|by rewrite lookup_insert_ne].
  - intros q j Hj. destruct (decide (q = p)) as [->|Hne].
    + rewrite lookup_insert_eq in Hj. injection Hj as <-. destruct (M4 p i Hp) as [I1 I2 I3 I4 I5].
      split; rewrite ?Es, ?Ed, ?Edn; done.
    + rewrite lookup_insert_ne in Hj by done. destruct (M4 q j Hj) as [I1 I2 I3 I4 I5], (Hq q Hne) as [Q1 Q2].
      split; rewrite ?Q1, ?Q2; done.
  - assert (Hsec : forall q j, <[p := i']> (inodes s) !! q = Some j -> exists j0, inodes s !! q = Some j0 /\ i_sector j0 = i_sector j).
    { intros q j Hj. destruct (decide (q = p)) as [->|Hne].
      - rewrite lookup_insert_eq in Hj. injection Hj as <-. by exists i.
      - rewrite lookup_insert_ne in Hj by done. by exists j. }
    intros q r j k Hj Hk E. destruct (Hsec q j Hj) as (j0 & Hj0 & Ej), (Hsec r k Hk) as (k0 & Hk0 & Ek).
    apply (M5 q r j0 k0); [done..|congruence].
  - intros fp f Hff. destruct (Hf fp f Hff). split; [by apply Hdom|done].
  - intros dp d Hdd. destruct (Hd dp d Hdd). split; [by apply Hdom|done].
  - intros q Hqt. by apply Hdom, Ht.
Qed.

(** A new inode at a fresh address. *)
Lemma mem_insert s objs h p i :
  mem_ok s objs h -> inodes s !! p = None -> p < brk s -> (i_sector i, data i) ∈ objs -> open_cnt i = 1 -> deny_write_cnt i = 0 ->
  (forall q j, inodes s !! q = Some j -> i_sector j <> i_sector i) ->
  mem_ok (set_inodes (<[p := i]> (inodes s)) (p :: open_inodes s) s) objs (hold p h).
Proof.
  intros M Hp Hb Ho Ec Ed Hs. pose proof (refs_fresh s objs h p M Hp) as [Hr Hd]. destruct M as [M1 M2 M3 M4 M5 M6 M7 M8].
  assert (Hdom : forall q, is_Some (inodes s !! q) -> is_Some (<[p := i]> (inodes s) !! q)).
  { intros q Hsome. destruct (decide (q = p)) as [->|]; [rewrite lookup_insert_eq; eauto|by rewrite lookup_insert_ne]. }
  split; simpl; try done.
  - constructor; [|done]. rewrite M3, Hp. by intros [].
  - intros q. rewrite elem_of_cons, M3. destruct (decide (q = p)) as [->|Hne].
    + rewrite lookup_insert_eq. split; eauto.
    + rewrite lookup_insert_ne by done. split; [intros [|]; done|by right].
  - intros q j Hj. destruct (decide (q = p)) as [->|Hne].
    + rewrite lookup_insert_eq in Hj. injection Hj as <-. split; [done| |lia|by rewrite Ed|done].
      rewrite refs_hold, Hr, Z.eqb_refl. simpl. lia.
    + rewrite lookup_insert_ne in Hj by done. destruct (M4 q j Hj) as [I1 I2 I3 I4 I5]. split; try done.
      rewrite refs_hold, (proj2 (Z.eqb_neq p q)) by done. simpl. lia.
  - intros q r j k Hj Hk E. destruct (decide (q = p)) as [->|Hq], (decide (r = p)) as [->|Hr']; try done.
    + rewrite lookup_insert_eq in Hj. rewrite lookup_insert_ne in Hk by done. injection Hj as <-. by destruct (Hs r k Hk).
    + rewrite lookup_insert_ne in Hj by done. rewrite lookup_insert_eq in Hk. injection Hk as <-. by destruct (Hs q j Hj).
    + rewrite lookup_insert_ne in Hj, Hk by done. by eapply M5.
  - intros fp f Hf. destruct (M6 fp f Hf). split; [by apply Hdom|done].
  - intros dp d Hd'. destruct (M7 dp d Hd'). split; [by apply Hdom|done].
  - intros q [->|Hq]%elem_of_cons; [rewrite lookup_insert_eq; eauto|by apply Hdom, M8].
Qed.

(** *** Opening *)

Record opened s objs h (o : obj) (p : Z) (i : inode) s' : Prop := {
  op_disk : same_disk s s';
  op_inode : inodes s' !! p = Some i;
  op_obj : (i_sector i, data i) = o;
  op_mem : mem_ok s' objs (hold p h);
  op_others q : q <> p -> inodes s' !! q = inodes s !! q;
  op_before : match inodes s !! p with
    | Some i0 => i_sector i0 = o.1 /\ removed i = removed i0 /\ deny_write_cnt i = deny_write_cnt i0
    | None => removed i = false /\ deny_write_cnt i = 0
    end;
  op_files : files s' = files s;
  op_dirs : dirs s' = dirs s
}.

Lemma find_open_ok l t s :
  (forall p, p ∈ l -> is_Some (inodes s !! p)) ->
  exists r, find_open l t s = Ok (r, s) /\
    match r with
    | Some p => p ∈ l /\ exists i, inodes s !! p = Some i /\ i_sector i = t
    | None => forall p i, p ∈ l -> inodes s !! p = Some i -> i_sector i <> t
    end.
Proof.
  induction l as [|p l IH]; intros Hl; [exists None; split; [done|]; by intros p i ?%elem_of_nil|]. cbn [find_open].
  destruct (Hl p) as [i Hi]; [constructor|]. rewrite (bind_ok _ _ _ _ _ (get_inode_ok s p i Hi)).
  destruct (Z.eqb_spec (i_sector i) t) as [E|Hne].
  - exists (Some p). split; [done|]. split; [constructor|eauto].
  - destruct IH as (r & -> & Hr); [intros q Hq; apply Hl; by constructor|]. exists r. split; [done|]. destruct r as [q|].
    + destruct Hr. split; [by constructor|done].
    + intros q j [->|Hq]%elem_of_cons Hj; [congruence|by apply (Hr q)].
Qed.

Lemma inode_reopen_ok s objs h p i :
  mem_ok s objs h -> inodes s !! p = Some i ->
  exists s', inode_reopen (Some p) s = Ok (Some p, s') /\
    opened s objs h (i_sector i, data i) p (mkInode (i_sector i) (open_cnt i + 1) (removed i) (deny_write_cnt i) (data i)) s'.
Proof.
  intros M Hp. unfold inode_reopen. rewrite (bind_ok _ _ _ _ _ (get_inode_ok s p i Hp)). eexists. split; [reflexivity|].
  destruct (mm_inode _ _ _ M p i Hp) as [I1 I2 I3 I4 I5]. split; try done.
  - simpl. apply lookup_insert_eq.
  - apply (mem_update s objs h (hold p h) p i); try done; simpl.
    + rewrite refs_hold, Z.eqb_refl. simpl. lia.
    + lia.
    + split; try apply M.
      * intros q Hq. by rewrite refs_hold, (proj2 (Z.eqb_neq p q)) by done.
      * intros q [->|Hq]%elem_of_cons; [eauto|by apply (mm_tmp _ _ _ M)].
  - intros q Hq. simpl. by rewrite lookup_insert_ne.
  - by rewrite Hp.
Qed.

Lemma inode_open_ok s objs h o :
  disk_ok s objs -> mem_ok s objs h -> o ∈ objs ->
  exists p i s', inode_open o.1 s = Ok (Some p, s') /\ opened s objs h o p i s'.
Proof.
  intros Dk M Ho. unfold inode_open. erewrite bind_ok by reflexivity.
  destruct (find_open_ok (open_inodes s) o.1 s) as (r & Er & Hr); [intros p; by apply (mm_dom _ _ _ M)|].
  rewrite (bind_ok _ _ _ _ _ Er). destruct r as [p|].
  - destruct Hr as (_ & i & Hi & Es). destruct (inode_reopen_ok s objs h p i M Hi) as (s' & E & Op).
    assert (Eo : (i_sector i, data i) = o).
    { apply (obj_unique s objs); [done|exact (io_obj _ _ _ _ _ (mm_inode _ _ _ M p i Hi))|done|done]. }
    rewrite Eo in Op. eauto.
  - destruct (alloc_ok s (mm_memory _ _ _ M)) as (p & s1 & E1 & Q1 & Hp & Hb). rewrite (bind_ok _ _ _ _ _ E1).
    pose proof (quiet_same_disk _ _ Q1) as K1. pose proof Q1 as [[_ _ S3 S4 S5 S6 S7 _ _ S10] _].
    destruct (ds_obj _ _ Dk o Ho) as (_ & Hrange & Hinode).
    destruct (dev_read_ok s1 o.1) as (s2 & E2 & Q2); [apply K1, Dk|by rewrite (sk_size _ _ K1)|].
    rewrite (bind_ok _ _ _ _ _ E2), (sk_sector _ _ K1), Hinode by done. pose proof (quiet_same_disk _ _ Q2) as K2.
    pose proof Q2 as [[_ _ T3 T4 T5 T6 T7 _ _ _] _]. assert (M2 : mem_ok s2 objs h) by (by do 2 (eapply changes_mem; [done|])).
    assert (Hfresh : inodes s !! p = None).
    { destruct (inodes s !! p) as [j|] eqn:Ej; [|done]. destruct (mm_inode _ _ _ M p j Ej). lia. }
    exists p, (mkInode o.1 1 false 0 o.2). eexists. split; [reflexivity|]. split.
    + eapply same_disk_trans; [exact K1|]. eapply same_disk_trans; [exact K2|]. by split.
    + simpl. apply lookup_insert_eq.
    + by destruct o.
    + apply mem_insert; try done.
      * by rewrite T3, S3.
      * lia.
      * simpl. by destruct o.
      * intros q j Hj. rewrite T3, S3 in Hj. apply (Hr q); [|done]. apply (mm_dom _ _ _ M). eauto.
    + intros q Hq. simpl. by rewrite lookup_insert_ne, T3, S3 by done.
    + by rewrite Hfresh.
    + simpl. congruence.
    + simpl. congruence.
Qed.

(** *** Closing *)

(** The last reference of an inode goes, and its object may go as well. *)
Lemma mem_delete s objs objs' h p i s' :
  mem_ok s objs (hold p h) -> inodes s !! p = Some i -> open_cnt i = 1 ->
  (forall q j, q <> p -> inodes s !! q = Some j -> (i_sector j, data j) ∈ objs') ->
  inodes s' = delete p (inodes s) -> open_inodes s' = filter (fun q => q <> p) (open_inodes s) ->
  memory s' = memory s -> brk s <= brk s' -> mem_ok s' objs' h.
Proof.
  intros M Hp Hc Hobj E1 E2 E5 E6. pose proof M as [M1 M2 M3 M4 M5 M6 M7 M8].
  destruct (M4 p i Hp) as [_ I2 _ _ _]. rewrite refs_hold, Z.eqb_refl in I2. simpl in I2.
  destruct (refs_none h p) as (Hf & Hd & Ht); [lia|].
  split; rewrite ?E1, ?E2, ?E5; try done.
  - by apply NoDup_filter.
  - intros q. rewrite list_elem_of_filter, M3. destruct (decide (q = p)) as [->|Hne].
    + rewrite lookup_delete_eq. split; [by intros [? _]|by intros []].
    + rewrite lookup_delete_ne by done. split; [by intros [_ ?]|done].
  - intros q j Hj. apply lookup_delete_Some in Hj as [Hne Hj]. destruct (M4 q j Hj) as [I1 J2 I3 I4 I5].
    split; [by apply (Hobj q)| |done|done|lia]. by rewrite J2, refs_hold, (proj2 (Z.eqb_neq p q)) by done.
  - intros q r j k Hj%lookup_delete_Some Hk%lookup_delete_Some. destruct Hj, Hk. by eapply M5.
  - intros k f Hk. destruct (M6 k f Hk). rewrite lookup_delete_ne; [split; [done|lia]|]. intros E. by apply (Hf k f Hk).
  - intros k d Hk. destruct (M7 k d Hk). rewrite lookup_delete_ne; [split; [done|lia]|]. intros E. by apply (Hd k d Hk).
  - intros q Hq. rewrite lookup_delete_ne; [|congruence]. apply M8. simpl. by constructor.
Qed.

(** The objects after a reference to [p] has gone. *)
Definition gone (i : inode) : bool := (open_cnt i =? 1) && removed i.
Record closed s objs h (fp ip : Z) (im : inode) (p : Z) (i : inode) objs' s' : Prop := {
  cl_objs : if gone i then objs ≡ₚ (i_sector i, data i) :: objs' else objs' = objs;
  cl_disk : disk_ok s' objs';
  cl_mem : mem_ok s' objs' h;
  cl_fmap : fmap_ok s' objs' fp ip im;
  cl_keeps : keeps objs' (i_sector im, data im) s s';
  cl_others q : q <> p -> inodes s' !! q = inodes s !! q;
  cl_inode : inodes s' !! p = if open_cnt i =? 1 then None
    else Some (mkInode (i_sector i) (open_cnt i - 1) (removed i) (deny_write_cnt i) (data i));
  cl_files : files s' = files s;
  cl_dirs : dirs s' = dirs s;
  cl_marked t : gone i = false -> bit (free_map s') t = bit (free_map s) t
}.

Lemma same_disk_keeps s s' objs om : same_disk s s' -> disk_ok s objs -> keeps objs om s s'.
Proof. intros K Dk o Ho _. apply same_disk_content; [done|]. by apply (ds_obj _ _ Dk). Qed.

(** Releasing the sectors of an object. *)
Lemma release_object s objs fp ip im o :
  disk_ok s (o :: objs) -> fmap_ok s objs fp ip im ->
  exists s', (free_map_release o.1 1;; free_map_release (start o.2) (bytes_to_sectors (length_ o.2))) s = Ok (tt, s') /\
    disk_ok s' objs /\ fmap_ok s' objs fp ip im /\ keeps objs (i_sector im, data im) s s' /\ same_objects s s' /\
    memory s' = memory s /\ brk s <= brk s'.
Proof.
  intros Dk Fm. destruct (ds_obj _ _ Dk o) as ([E1 E2 E3] & Hr & _); [constructor|].
  pose proof (sectors_of_spec (length_ o.2) ltac:(lia)) as Hsec. rewrite bytes_to_sectors_eq by done.
  assert (Dk0 : disk_ok s objs) by (eapply disk_sub; [done|]; by exists [o]).
  assert (Hmark : forall t, t ∈ owned o -> bit (free_map s) t = true).
  { intros t Ht. apply (ds_marked _ _ Dk). rewrite all_owned_cons. apply elem_of_app. by left. }
  assert (Hap : forall t, t ∈ owned o -> t ∉ all_owned objs).
  { intros t Ht. destruct Dk as [_ _ H _]. rewrite all_owned_cons in H. apply NoDup_app in H as (_ & H & _). by apply H. }
  destruct (free_map_release_ok s o.1 1 fp ip im) as (b1 & s1 & R1 & Rs1 & Sv1);
    [apply Fm|apply Fm|lia|lia|lia|intros j Hj; replace j with o.1 by lia; apply Hmark, elem_owned; by left|].
  rewrite (bind_ok _ _ _ _ _ R1).
  destruct (saved_ok s objs fp ip im b1 o.1 1 false s1 Dk0 Fm Rs1) as (Dk1 & Fm1 & Kp1 & So1 & Mp1); [lia| |done|].
  { right. intros u Hu. unfold within. destruct (decide (u = o.1)) as [->|]; [|case_cmp; (done || lia)].
    destruct (Hap o.1); [apply elem_owned; by left|done]. }
  pose proof Rs1 as [(_ & _ & Rb1) _].
  destruct (free_map_release_ok s1 (start o.2) (sectors_of (length_ o.2)) fp ip im) as (b2 & s2 & R2 & Rs2 & Sv2);
    [apply Fm1|apply Fm1|lia|lia|rewrite (so_size _ _ So1); lia| |].
  { intros j Hj. rewrite Mp1, Rb1 by lia. assert (Hin : in_file o.2 j) by (unfold in_file; lia).
    assert (j <> o.1). { intros ->. apply (inode_not_in_file s (o :: objs) o); [done|constructor|done]. }
    unfold within. rewrite (Hmark j) by (apply elem_owned; by right). case_cmp; (done || lia). }
  destruct (saved_ok s1 objs fp ip im b2 _ _ false s2 Dk1 Fm1 Rs2) as (Dk2 & Fm2 & Kp2 & So2 & Mp2); [lia| |done|].
  { right. intros u Hu. unfold within. destruct (decide (in_file o.2 u)) as [Hin|Hin].
    - destruct (Hap u); [apply elem_owned; by right|done].
    - unfold in_file in Hin. case_cmp; (done || lia). }
  exists s2. split_and!; [done..| | | |].
  - intros o' Ho' Hne. rewrite Kp2, Kp1 by done. done.
  - by eapply same_objects_trans.
  - destruct Sv1 as [[[] _] _], Sv2 as [[[] _] _]. simpl in *. congruence.
  - destruct Sv1 as [[[] _] _], Sv2 as [[[] _] _]. simpl in *. lia.
Qed.

Lemma fmap_objs s objs objs' fp ip i :
  fmap_ok s objs fp ip i -> (i_sector i, data i) ∈ objs' -> fmap_ok s objs' fp ip i.
Proof. intros [F1 F2 F3 F4] H. by split. Qed.

(** The table without the inode, before and after its sectors have been released. *)
Definition without_inode (p : Z) (i : inode) s : fs D :=
  set_inodes (<[p := i]> (inodes s)) (filter (fun q => q <> p) (open_inodes s)) s.

Lemma close_removed s objs h fp ip im p i :
  disk_ok s objs -> mem_ok s objs (hold p h) -> fmap_ok s objs fp ip im -> inodes s !! p = Some i -> p <> ip ->
  open_cnt i = 1 -> removed i = true ->
  exists objs' s', (free_map_release (i_sector i) 1;; free_map_release (start (data i)) (bytes_to_sectors (length_ (data i)));;
      modify (fun s => set_inodes (delete p (inodes s)) (open_inodes s) s))
      (without_inode p (mkInode (i_sector i) 0 (removed i) (deny_write_cnt i) (data i)) s) = Ok (tt, s') /\
    closed s objs h fp ip im p i objs' s'.
Proof.
  intros Dk Mm Fm Hp Hne Hc Hrm. set (s1 := without_inode _ _ s). set (o := (i_sector i, data i)).
  pose proof (io_obj _ _ _ _ _ (mm_inode _ _ _ Mm p i Hp)) as Ho. apply elem_of_Permutation in Ho as [objs' Hperm]. fold o in Hperm.
  assert (Hother : forall q j, q <> p -> inodes s !! q = Some j -> (i_sector j, data j) ∈ objs').
  { intros q j Hq Hj. pose proof (io_obj _ _ _ _ _ (mm_inode _ _ _ Mm q j Hj)) as Hjo. rewrite Hperm in Hjo.
    apply elem_of_cons in Hjo as [Hjo|?]; [|done]. destruct Hq. injection Hjo as E _. by eapply (mm_inj _ _ _ Mm). }
  assert (K : same_disk s s1) by done. assert (Dk1 : disk_ok s1 (o :: objs')).
  { eapply disk_sub; [by eapply same_disk_disk|]. exists []. by rewrite Hperm. }
  assert (Hom : (i_sector im, data im) ∈ objs') by (apply (Hother ip); [done|by destruct Fm as [_ [_ _ [] _ _] _ _]]).
  assert (Fm1 : fmap_ok s1 objs' fp ip im).
  { eapply fmap_objs; [|done]. eapply same_disk_fmap; [done| |done|done]. simpl. by rewrite lookup_insert_ne. }
  destruct (release_object s1 objs' fp ip im o Dk1 Fm1) as (s2 & E & Dk2 & Fm2 & Kp2 & So2 & Em & Hb).
  exists objs', (set_inodes (delete p (inodes s2)) (open_inodes s2) s2).
  assert (Kd : same_disk s2 (set_inodes (delete p (inodes s2)) (open_inodes s2) s2)) by done.
  split.
  { rewrite <- bind_assoc. rewrite (bind_ok _ _ _ _ _ E). done. }
  destruct So2 as [S1 S2 S3 S4 S5 S6]. split.
  - unfold gone. by rewrite Hc, Hrm.
  - by eapply same_disk_disk.
  - eapply (mem_delete s objs objs' h p i); try done. simpl. rewrite S2. simpl. by rewrite delete_insert_eq.
  - eapply same_disk_fmap; [done| |done|done]. simpl. by rewrite lookup_delete_ne.
  - intros o' Ho' Hn. simpl. by rewrite Kp2.
  - intros q Hq. simpl. rewrite lookup_delete_ne, S2 by done. simpl. by rewrite lookup_insert_ne.
  - simpl. by rewrite lookup_delete_eq, Hc.
  - done.
  - done.
  - unfold gone. by rewrite Hc, Hrm.
Qed.

Lemma inode_close_ok s objs h fp ip im p i :
  disk_ok s objs -> mem_ok s objs (hold p h) -> fmap_ok s objs fp ip im -> inodes s !! p = Some i -> p <> ip ->
  exists objs' s', inode_close (Some p) s = Ok (tt, s') /\ closed s objs h fp ip im p i objs' s'.
Proof.
  intros Dk Mm Fm Hp Hne. unfold inode_close. rewrite (bind_ok _ _ _ _ _ (get_inode_ok s p i Hp)).
  erewrite bind_ok by reflexivity. destruct (mm_inode _ _ _ Mm p i Hp) as [I1 I2 I3 I4 I5].
  destruct (Z.eqb_spec (open_cnt i - 1) 0) as [Hc|Hc].
  - assert (Hc1 : open_cnt i = 1) by lia. erewrite bind_ok by reflexivity. cbn [inodes open_inodes set_inodes].
    destruct (removed i) eqn:Hrm.
    + rewrite bind_assoc. destruct (close_removed s objs h fp ip im p i Dk Mm Fm Hp Hne Hc1 Hrm) as (objs' & s' & E & Cl).
      exists objs', s'. split; [|done]. rewrite <- E, Hrm. by replace (open_cnt i - 1) with 0 by lia.
    + rewrite ret_bind. eexists objs, _. split; [reflexivity|].
      assert (Hng : gone i = false) by (unfold gone; by rewrite Hrm, andb_false_r). split; rewrite ?Hng.
      * done.
      * by apply (same_disk_disk s).
      * eapply (mem_delete s objs objs h p i); try done; simpl; [|by rewrite delete_insert_eq].
        intros q j _ Hj. exact (io_obj _ _ _ _ _ (mm_inode _ _ _ Mm q j Hj)).
      * apply (same_disk_fmap s); [done| |done|done]. simpl. by rewrite delete_insert_eq, lookup_delete_ne.
      * by apply same_disk_keeps.
      * intros q Hq. simpl. by rewrite delete_insert_eq, lookup_delete_ne.
      * simpl. by rewrite lookup_delete_eq, Hc1.
      * done.
      * done.
      * done.
  - eexists objs, _. split; [reflexivity|]. assert (Hng : gone i = false) by (unfold gone; by rewrite (proj2 (Z.eqb_neq (open_cnt i) 1)) by lia).
    rewrite refs_hold, Z.eqb_refl in I2. simpl in I2. split; rewrite ?Hng.
    + done.
    + by apply (same_disk_disk s).
    + apply (mem_update s objs (hold p h) h p i); try done; simpl; [lia|lia|]. split; try apply Mm.
      * intros q Hq. by rewrite refs_hold, (proj2 (Z.eqb_neq p q)) by done.
      * intros q Hq. apply (mm_tmp _ _ _ Mm). simpl. by constructor.
    + apply (same_disk_fmap s); [done| |done|done]. simpl. by rewrite lookup_insert_ne.
    + by apply same_disk_keeps.
    + intros q Hq. simpl. by rewrite lookup_insert_ne.
    + simpl. by rewrite lookup_insert_eq, (proj2 (Z.eqb_neq (open_cnt i) 1)) by lia.
    + done.
    + done.
    + done.
Qed.

End Open.
