(* ===== verification/FsHandles.v ===== *)
(** Open files and directories as holders of references (filesys/file.c, filesys/directory.c). *)

From stdpp Require Import gmap.
From S2P Require Import Prelude KMonad Bytes Bitmap Block Filesys InodeOk FreeMapOk FsInv FsCreate FsOpen.

Section Handles.
Context {D : Type} `{!BlockDevice D}.
Implicit Types (s : fs D) (objs : list obj) (tmp : list Z) (h : handles).

(** The references of a state. *)
Definition held s tmp : handles := mkHandles (files s) (dirs s) tmp.

(** Handles that refer to the same inodes as often. *)
Lemma mem_refs s s' objs h h' :
  mem_ok s objs h -> same_disk s s' -> inodes s' = inodes s -> open_inodes s' = open_inodes s ->
  (forall q, refs h' q = refs h q /\ deniers h' q = deniers h q) ->
  (forall fp f, h_files h' !! fp = Some f -> is_Some (inodes s !! f_inode f) /\ fp < brk s') ->
  (forall dp d, h_dirs h' !! dp = Some d -> is_Some (inodes s !! d_inode d) /\ dp < brk s') ->
  (forall q, q ∈ h_tmp h' -> is_Some (inodes s !! q)) -> mem_ok s' objs h'.
Proof.
  intros [M1 M2 M3 M4 M5 M6 M7 M8] K E1 E2 Hr Hf Hd Ht. destruct K as [_ _ K3 K4 _ _ _].
  split; rewrite ?E1, ?E2, ?K3; try done. intros p i Hi. destruct (M4 p i Hi) as [I1 I2 I3 I4 I5], (Hr p) as [R1 R2].
  split; [done|congruence|done|congruence|lia].
Qed.

Lemma fresh_file s objs h : mem_ok s objs h -> h_files h !! brk s = None.
Proof. intros M. destruct (h_files h !! brk s) as [f|] eqn:E; [|done]. destruct (mm_files _ _ _ M _ _ E). lia. Qed.
Lemma fresh_dir s objs h : mem_ok s objs h -> h_dirs h !! brk s = None.
Proof. intros M. destruct (h_dirs h !! brk s) as [f|] eqn:E; [|done]. destruct (mm_dirs _ _ _ M _ _ E). lia. Qed.

Lemma quiet_trans_disk s s1 s2 : quiet s s1 -> same_disk s1 s2 -> same_disk s s2.
Proof. intros Q. apply same_disk_trans. by apply quiet_same_disk. Qed.

Lemma file_open_ok s objs tmp p :
  mem_ok s objs (held s (p :: tmp)) ->
  exists fp s', file_open (Some p) s = Ok (Some fp, s') /\ same_disk s s' /\ inodes s' = inodes s /\ dirs s' = dirs s /\
    files s !! fp = None /\ files s' = <[fp := mkFile p 0 false]> (files s) /\ mem_ok s' objs (held s' tmp).
Proof.
  intros M. destruct (alloc_ok s (mm_memory _ _ _ M)) as (fp & s1 & E1 & Q1 & Hp & Hb). unfold file_open.
  rewrite (bind_ok _ _ _ _ _ E1). pose proof (fresh_file s objs _ M) as Hfr. simpl in Hfr. rewrite <- Hp in Hfr.
  pose proof Q1 as [[_ _ S3 S4 S5 S6 S7 _ _ _] _]. set (s2 := set_files (<[fp := mkFile p 0 false]> (files s1)) s1).
  assert (K : same_disk s s2) by (eapply quiet_trans_disk; [exact Q1|done]).
  exists fp, s2. split; [done|]. split_and!; [done|done|done|done|simpl; congruence|].
  eapply (mem_refs s s2); try done; unfold held, refs, deniers; simpl.
  - intros q. rewrite S5, S6, !holders_insert by done. simpl. rewrite count_cons, andb_false_r. simpl. split; lia.
  - intros k f. rewrite S5. intros [[<- <-]|[_ Hf]]%lookup_insert_Some.
    + split; [|lia]. apply (mm_tmp _ _ _ M). simpl. constructor.
    + destruct (mm_files _ _ _ M _ _ Hf). split; [done|lia].
  - intros k d. rewrite S6. intros Hd. destruct (mm_dirs _ _ _ M _ _ Hd). split; [done|lia].
  - intros q Hq. apply (mm_tmp _ _ _ M). simpl. by constructor.
Qed.
Lemma dir_open_ok s objs tmp p :
  mem_ok s objs (held s (p :: tmp)) ->
  exists dp s', dir_open (Some p) s = Ok (Some dp, s') /\ same_disk s s' /\ inodes s' = inodes s /\ files s' = files s /\
    dirs s !! dp = None /\ dirs s' = <[dp := mkDir p 0]> (dirs s) /\ mem_ok s' objs (held s' tmp).
Proof.
  intros M. destruct (alloc_ok s (mm_memory _ _ _ M)) as (dp & s1 & E1 & Q1 & Hp & Hb). unfold dir_open.
  rewrite (bind_ok _ _ _ _ _ E1). pose proof (fresh_dir s objs _ M) as Hfr. simpl in Hfr. rewrite <- Hp in Hfr.
  pose proof Q1 as [[_ _ S3 S4 S5 S6 S7 _ _ _] _]. set (s2 := set_dirs (<[dp := mkDir p 0]> (dirs s1)) s1).
  assert (K : same_disk s s2) by (eapply quiet_trans_disk; [exact Q1|done]).
  exists dp, s2. split; [done|]. split_and!; [done|done|done|done|simpl; congruence|].
  eapply (mem_refs s s2); try done; unfold held, refs, deniers; simpl.
  - intros q. rewrite S5, S6, !holders_insert by done. simpl. rewrite count_cons. split; lia.
  - intros k f. rewrite S5. intros Hf. destruct (mm_files _ _ _ M _ _ Hf). split; [done|lia].
  - intros k d. rewrite S6. intros [[<- <-]|[_ Hd]]%lookup_insert_Some.
    + split; [|lia]. apply (mm_tmp _ _ _ M). simpl. constructor.
    + destruct (mm_dirs _ _ _ M _ _ Hd). split; [done|lia].
  - intros q Hq. apply (mm_tmp _ _ _ M). simpl. by constructor.
Qed.

Lemma get_dir_ok s dp d : dirs s !! dp = Some d -> get_dir dp s = Ok (d, s).
Proof. intros H. unfold get_dir, mbind, K_bind. simpl. by rewrite H. Qed.

(** Closing a directory: [closed] tells what becomes of its inode. *)
Lemma dir_close_ok s objs tmp fp ip im dp d i :
  disk_ok s objs -> mem_ok s objs (held s tmp) -> fmap_ok s objs fp ip im ->
  dirs s !! dp = Some d -> inodes s !! d_inode d = Some i -> d_inode d <> ip ->
  exists objs' s1 s', dir_close (Some dp) s = Ok (tt, s') /\
    closed s objs (mkHandles (files s) (delete dp (dirs s)) tmp) fp ip im (d_inode d) i objs' s1 /\
    s' = set_dirs (delete dp (dirs s)) s1 /\ mem_ok s' objs' (held s' tmp).
Proof.
  intros Dk M Fm Hd Hi Hne. set (h := mkHandles (files s) (delete dp (dirs s)) tmp).
  assert (M' : mem_ok s objs (hold (d_inode d) h)).
  { eapply (mem_refs s s); try done; unfold held, refs, deniers; simpl.
    - intros q. rewrite count_cons, (holders_delete (dirs s) _ dp d Hd). split; [lia|done].
    - apply M.
    - intros k d' Hk%lookup_delete_Some. apply (mm_dirs _ _ _ M). by destruct Hk.
    - intros q [->|Hq]%elem_of_cons; [eauto|by apply (mm_tmp _ _ _ M)]. }
  destruct (inode_close_ok s objs h fp ip im (d_inode d) i Dk M' Fm Hi Hne) as (objs' & s1 & E & Cl).
  exists objs', s1, (set_dirs (delete dp (dirs s)) s1). split.
  { unfold dir_close. rewrite (bind_ok _ _ _ _ _ (get_dir_ok s dp d Hd)), (bind_ok _ _ _ _ _ E).
    unfold modify. by rewrite (cl_dirs _ _ _ _ _ _ _ _ _ _ Cl). }
  split_and!; [done..|]. pose proof (cl_mem _ _ _ _ _ _ _ _ _ _ Cl) as Mc.
  eapply (mem_refs s1); try done; unfold held, h; simpl; rewrite ?(cl_files _ _ _ _ _ _ _ _ _ _ Cl); apply Mc || done.
Qed.

End Handles.
