(* ===== verification/FsDir.v ===== *)
(** Directories as lists of slots (filesys/directory.c). *)

From stdpp Require Import gmap.
From S2P Require Import Prelude KMonad Bytes Bitmap Block Filesys InodeOk FreeMapOk FsInv FsCreate FsOpen FsHandles.

(** ** Entries *)

(** The string at the start of an array. *)
Fixpoint cut0 (l : list Z) : list Z :=
  match l with
  | [] => []
  | b :: l' => if b =? 0 then [] else b :: cut0 l'
  end.
Definition slot (e : list Z) : option (list Z * Z) :=
  if entry_in_use e then Some (cut0 (entry_name e), entry_sector e) else None.
Definition entries (bs : list Z) : list (list Z) := (fun k => slice bs (20 * k) 20) <$> seqZ 0 (len bs / 20).
Definition slots (bs : list Z) : list (option (list Z * Z)) := slot <$> entries bs.

(** A name that fits in an entry. *)
Definition name_ok (name : list Z) : Prop := 1 <= len name <= 14 /\ Forall (fun c => c <> 0) name.

Lemma cut0_nonzero l : Forall (fun c => c <> 0) (cut0 l).
Proof. induction l as [|b l IH]; simpl; [constructor|]. destruct (Z.eqb_spec b 0); by constructor. Qed.
Lemma cut0_app name l : Forall (fun c => c <> 0) name -> cut0 (name ++ 0 :: l) = name.
Proof. induction 1 as [|c name Hc H IH]; simpl; [done|]. rewrite (proj2 (Z.eqb_neq c 0) Hc). by rewrite IH. Qed.

Lemma slice_splice_in {A} (l d : list A) o a n :
  0 <= o -> o + len d <= len l -> o <= a -> 0 <= n -> a + n <= o + len d -> slice (splice l o d) a n = slice d (a - o) n.
Proof.
  intros. apply list_eq. intros k. rewrite !slice_lookup by lia. destruct (decide (Z.of_nat k < n)); [|done].
  rewrite splice_lookup, decide_True by lia. f_equal. lia.
Qed.
Lemma zget_slice (l : list Z) k : 0 <= k < len l -> slice l k 1 = [zget 0 l k].
Proof.
  intros H. unfold zget. destruct (zlookup_is_Some l k H) as [x Hx]. rewrite Hx. simpl. unfold zlookup in Hx.
  rewrite (proj2 (Z.leb_le _ _)) in Hx by lia. unfold slice. rewrite (drop_S _ x) by done. done.
Qed.

(** The entry that [dir_add] makes of an old one, and the one that [dir_remove] makes. *)
Definition new_entry (e name : list Z) (sector : Z) : list Z :=
  splice (splice (splice e 19 [1]) 4 (take (Z.to_nat NAME_MAX) name ++ [0])) 0 (le_bytes 4 sector).

Lemma new_entry_slot e name sector :
  length e = 20%nat -> name_ok name -> 0 <= sector < 2 ^ 32 ->
  length (new_entry e name sector) = 20%nat /\ slot (new_entry e name sector) = Some (name, sector).
Proof.
  intros He [Hn Hz] Hs. unfold new_entry. rewrite (take_ge name) by (change (Z.to_nat NAME_MAX) with 14%nat; lia).
  set (e1 := splice e 19 [1]). assert (L1 : length e1 = 20%nat) by (unfold e1; rewrite splice_length; simpl; lia).
  assert (Hl : len (name ++ [0]) = len name + 1) by (rewrite length_app; simpl; lia).
  set (e2 := splice e1 4 (name ++ [0])). assert (L2 : length e2 = 20%nat) by (unfold e2; rewrite splice_length; lia).
  pose proof (le_bytes_length 4 sector) as Lb.
  set (e3 := splice e2 0 (le_bytes 4 sector)). assert (L3 : length e3 = 20%nat) by (unfold e3; rewrite splice_length; lia).
  split; [done|]. unfold slot.
  assert (Hu : entry_in_use e3 = true).
  { unfold entry_in_use. assert (E : slice e3 19 1 = [1]).
    { unfold e3. rewrite slice_splice_ne by lia. unfold e2. rewrite slice_splice_ne by lia.
      apply (slice_splice e 19 [1]); simpl; lia. }
    rewrite zget_slice in E by lia. injection E as E. by rewrite E. }
  rewrite Hu. unfold entry_name, entry_sector. do 2 f_equal.
  - unfold e3. rewrite slice_splice_ne by lia. unfold e2, splice. change (Z.to_nat 4) with 4%nat.
    assert (Et : length (take 4 e1) = 4%nat) by (rewrite length_take; lia).
    unfold slice. change (Z.to_nat 4) with 4%nat. rewrite drop_app_le, drop_ge, app_nil_l by lia.
    rewrite <- app_assoc, take_app. change ([0] ++ drop (4 + length (name ++ [0])) e1) with (0 :: drop (4 + length (name ++ [0])) e1).
    rewrite (take_ge name) by lia. assert (Hp : (0 < Z.to_nat 15 - length name)%nat) by lia.
    destruct (Z.to_nat 15 - length name)%nat as [|k]; [lia|]. by apply cut0_app.
  - unfold e3. rewrite (slice_splice_in _ _ 0 0 4) by lia. rewrite Z.sub_diag. unfold slice. rewrite drop_0, take_ge by lia.
    by apply le_value_bytes.
Qed.
Lemma free_entry_slot e : length e = 20%nat -> length (splice e 19 [0]) = 20%nat /\ slot (splice e 19 [0]) = None.
Proof.
  intros He. assert (L : length (splice e 19 [0]) = 20%nat) by (rewrite splice_length; simpl; lia). split; [done|].
  unfold slot, entry_in_use. assert (E : slice (splice e 19 [0]) 19 1 = [0]) by (apply (slice_splice e 19 [0]); simpl; lia).
  rewrite zget_slice in E by lia. injection E as E. by rewrite E.
Qed.

(** Entries of a directory of [m] entries. *)
Lemma entries_lookup bs m k :
  len bs = 20 * m -> 0 <= k < m -> entries bs !! Z.to_nat k = Some (slice bs (20 * k) 20).
Proof.
  intros Hl Hk. unfold entries. rewrite Hl, Z.mul_comm, Z.div_mul by done. rewrite list_lookup_fmap, lookup_seqZ_lt by lia.
  simpl. by rewrite Z2Nat.id by lia.
Qed.
Lemma entries_length bs m : len bs = 20 * m -> len (entries bs) = m.
Proof. intros Hl. unfold entries. rewrite length_fmap, Hl, Z.mul_comm, Z.div_mul, length_seqZ by done. lia. Qed.
Lemma entries_splice bs m k e :
  len bs = 20 * m -> 0 <= k < m -> length e = 20%nat -> entries (splice bs (20 * k) e) = <[Z.to_nat k := e]> (entries bs).
Proof.
  intros Hl Hk He. assert (Hl' : len (splice bs (20 * k) e) = 20 * m) by (rewrite splice_length; lia).
  apply list_eq. intros j. destruct (decide (Z.of_nat j < m)) as [Hj|Hj].
  - replace j with (Z.to_nat (Z.of_nat j)) by lia. rewrite (entries_lookup _ m) by lia.
    destruct (decide (Z.of_nat j = k)) as [->|Hne].
    + rewrite list_lookup_insert_eq by (pose proof (entries_length bs m Hl); lia). f_equal.
      transitivity (slice (splice bs (20 * k) e) (20 * k) (len e)); [f_equal; lia|]. apply slice_splice; lia.
    + rewrite list_lookup_insert_ne by lia. rewrite (entries_lookup _ m) by lia. f_equal. apply slice_splice_ne; lia.
  - rewrite !lookup_ge_None_2; [done| |]; [rewrite length_insert|]; pose proof (entries_length bs m Hl); pose proof (entries_length _ m Hl'); lia.
Qed.
Lemma slots_splice bs m k e :
  len bs = 20 * m -> 0 <= k < m -> length e = 20%nat -> slots (splice bs (20 * k) e) = <[Z.to_nat k := slot e]> (slots bs).
Proof. intros. unfold slots. rewrite (entries_splice bs m) by done. by rewrite list_fmap_insert. Qed.

(** ** The loops over the entries *)

Section Dir.
Context {D : Type} `{!BlockDevice D}.
Implicit Types (s : fs D) (objs : list obj) (tmp : list Z) (h : handles).

Lemma name_eq_ok name field s :
  Forall (fun c => c <> 0) name -> (length (cut0 field) < length field)%nat ->
  name_eq name field s = Ok (bool_decide (cut0 field = name), s).
Proof.
  revert name. induction field as [|b field IH]; intros name Hn Hl; simpl in Hl; [lia|].
  destruct (Z.eqb_spec b 0) as [->|Hb]; simpl in Hl |- *; destruct name as [|c name].
  - done.
  - apply Forall_cons in Hn as [Hc _]. simpl. rewrite (proj2 (Z.eqb_neq c 0) Hc). done.
  - simpl. by rewrite (proj2 (Z.eqb_neq b 0) Hb).
  - apply Forall_cons in Hn as [_ Hn]. simpl. rewrite (proj2 (Z.eqb_neq b 0) Hb). destruct (Z.eqb_spec c b) as [->|Hne].
    + rewrite IH by (done || lia). do 2 f_equal. apply bool_decide_ext. split; congruence.
    + rewrite bool_decide_eq_false_2 by congruence. done.
Qed.

(** An open directory: its inode has [m] entries. *)
Record dir_file s (p : Z) (i : inode) (m : Z) : Prop := {
  df_readable : readable s p i;
  df_length : length_ (data i) = 20 * m
}.
Definition entry s (i : inode) (k : Z) : list Z := slice (content (fs_device s) (data i)) (20 * k) 20.

Lemma quiet_dir s s' p i m : quiet s s' -> dir_file s p i m -> dir_file s' p i m.
Proof. intros Q [R L]. split; [by eapply changes_readable|done]. Qed.
Lemma quiet_entry s s' p i k : quiet s s' -> readable s p i -> entry s' i k = entry s i k.
Proof. intros Q R. unfold entry, content. by rewrite (quiet_raw s s' _ Q (rd_extent _ _ _ R)). Qed.
Lemma entry_length s p i m k : dir_file s p i m -> 0 <= k < m -> length (entry s i k) = 20%nat.
Proof.
  intros [[_ R2 R3 _] L] Hk. pose proof (content_length _ _ R2 R3) as Hc.
  assert (len (entry s i k) = 20) by (unfold entry; apply slice_length; lia). lia.
Qed.

(** The first entry from [k] on that the loop stops at. *)
Definition stops s i m (f : list Z -> bool) (k : Z) (r : bool * Z * list Z) : Prop :=
  (exists j, k <= j < m /\ f (entry s i j) = true /\ (forall l, k <= l < j -> f (entry s i l) = false) /\ r = (true, 20 * j, entry s i j)) \/
  ((forall l, k <= l < m -> f (entry s i l) = false) /\ exists e', length e' = 20%nat /\ r = (false, 20 * m, e')).

Lemma entry_loop_ok fuel s p i m stop f e k :
  dir_file s p i m -> 0 <= k <= m -> (Z.to_nat (m - k) < fuel)%nat -> length e = 20%nat ->
  (forall j s', 0 <= j < m -> stop (entry s i j) s' = Ok (f (entry s i j), s')) ->
  exists r s', entry_loop fuel stop p (20 * k) e s = Ok (r, s') /\ quiet s s' /\ stops s i m f k r.
Proof.
  revert s e k. induction fuel as [|fuel IH]; intros s e k Df Hk Hf He Hst; [lia|]. cbn [entry_loop].
  pose proof Df as [R L]. pose proof (ex_length _ _ (rd_extent _ _ _ R)) as Hlen.
  rewrite wraps_small by (change (32 - 1) with 31; lia).
  destruct (inode_read_ok s p i 20 (20 * k) R) as (s1 & E1 & Q1); [lia|].
  unfold DIR_ENTRY_SIZE. rewrite (bind_ok _ _ _ _ _ E1). cbv zeta.
  destruct (decide (k = m)) as [->|Hne].
  { assert (Em : Z.min 20 (length_ (data i) - 20 * m) = 0) by lia. rewrite Em, slice_0, splice_nil.
    exists (false, 20 * m, e), s1. split; [done|]. split; [done|]. right. split; [lia|]. by exists e. }
  assert (Em : Z.min 20 (length_ (data i) - 20 * k) = 20) by lia. rewrite Em. fold (entry s i k).
  pose proof (entry_length s p i m k Df ltac:(lia)) as Hel. rewrite splice_all by lia. rewrite Hel. cbn [Z.of_nat Pos.of_succ_nat Z.eqb Pos.eqb].
  change (Z.of_nat 20 =? 20) with true. cbv iota.
  rewrite (bind_ok _ _ _ _ _ (Hst k s1 ltac:(lia))). destruct (f (entry s i k)) eqn:Ef.
  { exists (true, 20 * k, entry s i k), s1. split; [done|]. split; [done|]. left. exists k. split_and!; [lia..|done|lia|done]. }
  rewrite wrapu_small by lia. replace (20 * k + 20) with (20 * (k + 1)) by lia.
  assert (Hent : forall l, entry s1 i l = entry s i l) by (intros l; by apply (quiet_entry s s1 p)).
  destruct (IH s1 (entry s i k) (k + 1)) as (r & s' & E & Q & St); [by eapply quiet_dir|lia|lia|done| |].
  { intros j s' Hj. rewrite Hent. by apply Hst. }
  exists r, s'. split; [done|]. split; [by eapply changes_trans|]. unfold stops in *.
  destruct St as [(j & Hj & Hfj & Hbefore & ->)|(Hall & He')]; [left|right].
  - exists j. rewrite Hent in *. split_and!; [lia..|done| |done]. intros l Hl. destruct (decide (l = k)) as [->|]; [done|].
    rewrite <- Hent. apply Hbefore. lia.
  - split; [|done]. intros l Hl. destruct (decide (l = k)) as [->|]; [done|]. rewrite <- Hent. apply Hall. lia.
Qed.

Lemma entry_fuel_ok s p i m : dir_file s p i m -> entry_fuel p s = Ok (S (Z.to_nat (20 * m)), s).
Proof.
  intros [[R1 _ _ _] L]. unfold entry_fuel, inode_length. rewrite bind_assoc, (bind_ok _ _ _ _ _ (get_inode_ok s p i R1)), ret_bind.
  by rewrite L.
Qed.

(** *** Looking a name up *)

(** The slot of an entry, and the slots of a directory. *)
Lemma slots_lookup s p i m k :
  dir_file s p i m -> 0 <= k < m -> slots (content (fs_device s) (data i)) !! Z.to_nat k = Some (slot (entry s i k)).
Proof.
  intros [[_ R2 R3 _] L] Hk. unfold slots. rewrite list_lookup_fmap, (entries_lookup _ m), fmap_Some; [by eexists| |lia].
  rewrite content_length by done. lia.
Qed.
Lemma slots_length s p i m : dir_file s p i m -> len (slots (content (fs_device s) (data i))) = m.
Proof.
  intros [[_ R2 R3 _] L]. unfold slots. rewrite length_fmap. apply entries_length. rewrite content_length by done. lia.
Qed.

Definition has_name (tbl : list (option (list Z * Z))) (name : list Z) : Prop := exists k t, tbl !! k = Some (Some (name, t)).
(** Names in a directory are strings that end within their entries. *)
Definition names_ok (tbl : list (option (list Z * Z))) : Prop := forall k name t, tbl !! k = Some (Some (name, t)) -> name_ok name.

Lemma stop_name s p i m name k s' :
  dir_file s p i m -> names_ok (slots (content (fs_device s) (data i))) -> Forall (fun c => c <> 0) name -> 0 <= k < m ->
  (if entry_in_use (entry s i k) then name_eq name (entry_name (entry s i k)) else mret false) s' =
  Ok (entry_in_use (entry s i k) && bool_decide (cut0 (entry_name (entry s i k)) = name), s').
Proof.
  intros Df Hok Hn Hk. pose proof (slots_lookup s p i m k Df Hk) as Hs. unfold slot in Hs.
  destruct (entry_in_use (entry s i k)); [|done]. apply Hok in Hs as [Hs _]. simpl. apply name_eq_ok; [done|].
  pose proof (entry_length s p i m k Df Hk). assert (len (entry_name (entry s i k)) = 15) by (apply slice_length; lia). lia.
Qed.

Lemma lookup_ok s dp d i m name junk :
  dirs s !! dp = Some d -> dir_file s (d_inode d) i m -> names_ok (slots (content (fs_device s) (data i))) ->
  Forall (fun c => c <> 0) name -> length junk = 20%nat ->
  exists r s', Filesys.lookup dp name junk s = Ok (r, s') /\ quiet s s' /\
    match r with
    | Some (e, ofs) => exists k, 0 <= k < m /\ ofs = 20 * k /\ e = entry s i k /\ slot e = Some (name, entry_sector e)
    | None => ~ has_name (slots (content (fs_device s) (data i))) name
    end.
Proof.
  intros Hd Df Hok Hn Hj. unfold Filesys.lookup.
  rewrite (bind_ok _ _ _ _ _ (get_dir_ok s dp d Hd)), (bind_ok _ _ _ _ _ (entry_fuel_ok _ _ _ _ Df)).
  pose proof (df_length _ _ _ _ Df). pose proof (ex_length _ _ (rd_extent _ _ _ (df_readable _ _ _ _ Df))).
  destruct (entry_loop_ok (S (Z.to_nat (20 * m))) s (d_inode d) i m
    (fun e => if entry_in_use e then name_eq name (entry_name e) else @mret (K (fs D)) _ bool false)
    (fun e => entry_in_use e && bool_decide (cut0 (entry_name e) = name)) junk 0) as (r & s' & E & Q & St); [done|lia|lia|done| |].
  { intros k s' Hk. by apply (stop_name s (d_inode d) i m). }
  change (20 * 0) with 0 in E. rewrite (bind_ok _ _ _ _ _ E). destruct St as [(k & Hk & Hf & _ & ->)|(Hall & e' & He' & ->)].
  - eexists _, s'. split; [reflexivity|]. split; [done|]. exists k. split; [done|]. split; [done|]. split; [done|].
    apply andb_true_iff in Hf as [Hu Hc]. apply bool_decide_eq_true in Hc. unfold slot. by rewrite Hu, Hc.
  - eexists _, s'. split; [reflexivity|]. split; [done|]. intros (k & t & Hk).
    pose proof (lookup_lt_Some _ _ _ Hk) as Hlt. pose proof (slots_length s _ i m Df) as Hsl.
    pose proof (slots_lookup s _ i m (Z.of_nat k) Df ltac:(lia)) as Hs. rewrite Nat2Z.id, Hk in Hs. injection Hs as Hs.
    specialize (Hall (Z.of_nat k) ltac:(lia)). unfold slot in Hs. destruct (entry_in_use _); [|done]. injection Hs as Hs _.
    simpl in Hall. apply bool_decide_eq_false in Hall. done.
Qed.

(** Writing an entry. *)
Lemma write_entry_ok s p i m k e :
  dir_file s p i m -> deny_write_cnt i = 0 -> 0 <= k < m -> length e = 20%nat ->
  exists s', inode_write_at p e DIR_ENTRY_SIZE (s32 (20 * k)) s = Ok (20, s') /\ changes (in_file (data i)) s s' /\
    slots (content (fs_device s') (data i)) = <[Z.to_nat k := slot e]> (slots (content (fs_device s) (data i))).
Proof.
  intros [R L] Hd Hk He. pose proof (ex_length _ _ (rd_extent _ _ _ R)).
  rewrite wraps_small by (change (32 - 1) with 31; lia).
  destruct (inode_write_ok s p i e 20 (20 * k) 20 R Hd) as (s' & E & C & Hc); [lia|lia|unfold writable; lia|].
  exists s'. split; [done|]. split; [done|]. rewrite Hc. assert (El : 20 = len e) by lia. rewrite El at 2. rewrite slice_all.
  apply (slots_splice _ m); [|lia|done]. rewrite content_length; [lia|apply R..].
Qed.
(** Past the last entry nothing is written. *)
Lemma write_past_ok s p i m e :
  dir_file s p i m -> deny_write_cnt i = 0 -> length e = 20%nat ->
  exists s', inode_write_at p e DIR_ENTRY_SIZE (s32 (20 * m)) s = Ok (0, s') /\ changes (in_file (data i)) s s' /\
    content (fs_device s') (data i) = content (fs_device s) (data i).
Proof.
  intros [R L] Hd He. pose proof (ex_length _ _ (rd_extent _ _ _ R)).
  rewrite wraps_small by (change (32 - 1) with 31; lia).
  destruct (inode_write_ok s p i e 20 (20 * m) 0 R Hd) as (s' & E & C & Hc); [lia|lia|unfold writable; lia|].
  exists s'. split; [done|]. split; [done|]. by rewrite Hc, slice_0, splice_nil.
Qed.

(** *** Adding a name *)

Lemma free_slot s p i m tbl :
  dir_file s p i m -> slots (content (fs_device s) (data i)) = tbl ->
  (forall k, 0 <= k < m -> negb (entry_in_use (entry s i k)) = false) -> forall k, tbl !! k <> Some None.
Proof.
  intros Df <- Hall k Hk. pose proof (lookup_lt_Some _ _ _ Hk). pose proof (slots_length s _ i m Df).
  pose proof (slots_lookup s _ i m (Z.of_nat k) Df ltac:(lia)) as Hs. rewrite Nat2Z.id, Hk in Hs. injection Hs as Hs.
  specialize (Hall (Z.of_nat k) ltac:(lia)). unfold slot in Hs. by destruct (entry_in_use _).
Qed.

(** The second half of [dir_add]: the first entry that is not in use, or the end. *)
Lemma add_entry_ok s p i m name t junk :
  dir_file s p i m -> deny_write_cnt i = 0 -> name_ok name -> 0 <= t < 2 ^ 32 -> length junk = 20%nat ->
  let tbl := slots (content (fs_device s) (data i)) in
  exists ok s', (fuel ← entry_fuel p;
      '(_, ofs, e) ← entry_loop fuel (fun e => mret (negb (entry_in_use e))) p 0 junk;
      n ← inode_write_at p (new_entry e name t) DIR_ENTRY_SIZE (s32 ofs);
      mret (n =? DIR_ENTRY_SIZE)) s = Ok (ok, s') /\ changes (in_file (data i)) s s' /\
    let tbl' := slots (content (fs_device s') (data i)) in
    (if (ok : bool) then exists k, tbl !! k = Some None /\ tbl' = <[k := Some (name, t)]> tbl
     else tbl' = tbl /\ forall k, tbl !! k <> Some None).
Proof.
  intros Df Hd Hn Ht Hj. cbv zeta. rewrite (bind_ok _ _ _ _ _ (entry_fuel_ok _ _ _ _ Df)).
  pose proof (df_length _ _ _ _ Df). pose proof (ex_length _ _ (rd_extent _ _ _ (df_readable _ _ _ _ Df))).
  destruct (entry_loop_ok (S (Z.to_nat (20 * m))) s p i m (fun e => @mret (K (fs D)) _ bool (negb (entry_in_use e)))
    (fun e => negb (entry_in_use e)) junk 0) as (r & s1 & E & Q & St); [done|lia|lia|done|done|].
  change (20 * 0) with 0 in E. rewrite (bind_ok _ _ _ _ _ E). pose proof (quiet_dir _ _ _ _ _ Q Df) as Df1.
  assert (Hc : content (fs_device s1) (data i) = content (fs_device s) (data i)).
  { unfold content. by rewrite (quiet_raw s s1 _ Q (rd_extent _ _ _ (df_readable _ _ _ _ Df))). }
  rewrite <- Hc. pose proof (quiet_changes (in_file (data i)) _ _ Q) as C1.
  destruct St as [(k & Hk & Hf & _ & ->)|(Hall & e & He & ->)].
  - destruct (new_entry_slot (entry s i k) name t) as [Hl Hs]; [by eapply entry_length|done|done|].
    destruct (write_entry_ok s1 p i m k (new_entry (entry s i k) name t) Df1 Hd Hk Hl) as (s2 & E2 & C2 & Htbl).
    exists true, s2. rewrite (bind_ok _ _ _ _ _ E2). split; [done|]. split; [by eapply changes_trans|]. cbv zeta.
    exists (Z.to_nat k). rewrite Htbl, Hs. split; [|done]. rewrite (slots_lookup s1 p i m k Df1 Hk). unfold slot.
    rewrite (quiet_entry s s1 p i k Q (df_readable _ _ _ _ Df)). by destruct (entry_in_use _).
  - destruct (new_entry_slot e name t) as [Hl _]; [done..|].
    destruct (write_past_ok s1 p i m (new_entry e name t) Df1 Hd Hl) as (s2 & E2 & C2 & Htbl).
    exists false, s2. rewrite (bind_ok _ _ _ _ _ E2). split; [done|]. split; [by eapply changes_trans|]. cbv zeta. rewrite Htbl.
    split; [done|]. rewrite Hc. by apply (free_slot s p i m).
Qed.

Lemma dir_add_ok s dp d i m name t junk :
  dirs s !! dp = Some d -> dir_file s (d_inode d) i m -> names_ok (slots (content (fs_device s) (data i))) ->
  deny_write_cnt i = 0 -> Forall (fun c => c <> 0) name -> 0 <= t < 2 ^ 32 -> length junk = 20%nat ->
  let tbl := slots (content (fs_device s) (data i)) in
  exists ok s', dir_add dp name t junk s = Ok (ok, s') /\ changes (in_file (data i)) s s' /\
    let tbl' := slots (content (fs_device s') (data i)) in
    (if (ok : bool) then name_ok name /\ ~ has_name tbl name /\ exists k, tbl !! k = Some None /\ tbl' = <[k := Some (name, t)]> tbl
     else tbl' = tbl /\ (~ name_ok name \/ has_name tbl name \/ forall k, tbl !! k <> Some None)).
Proof.
  intros Hdp Df Hok Hd Hn Ht Hj. cbv zeta. unfold dir_add, NAME_MAX.
  destruct ((len name =? 0) || (14 <? len name)) eqn:El.
  { exists false, s. split; [done|]. split; [apply changes_refl|]. split; [done|]. left. intros [Hl _]. reflect_bools. lia. }
  assert (Hname : name_ok name) by (split; [reflect_bools; lia|done]).
  destruct (lookup_ok s dp d i m name junk) as (r & s1 & E & Q & Hr); [done..|]. rewrite (bind_ok _ _ _ _ _ E).
  pose proof (quiet_changes (in_file (data i)) _ _ Q) as C1. pose proof (quiet_dir _ _ _ _ _ Q Df) as Df1.
  assert (Hc : content (fs_device s1) (data i) = content (fs_device s) (data i)).
  { unfold content. by rewrite (quiet_raw s s1 _ Q (rd_extent _ _ _ (df_readable _ _ _ _ Df))). }
  destruct r as [[e ofs]|].
  { destruct Hr as (k & Hk & _ & -> & Hs). exists false, s1. split; [done|]. split; [done|]. rewrite Hc. split; [done|].
    right. left. exists (Z.to_nat k), (entry_sector (entry s i k)). by rewrite (slots_lookup s _ i m k Df Hk), Hs. }
  assert (Hdp1 : dirs s1 !! dp = Some d) by (destruct Q as [[] _]; congruence).
  rewrite (bind_ok _ _ _ _ _ (get_dir_ok s1 dp d Hdp1)).
  destruct (add_entry_ok s1 (d_inode d) i m name t junk Df1 Hd Hname Ht Hj) as (ok & s2 & E2 & C2 & H2).
  exists ok, s2. split; [exact E2|]. split; [by eapply changes_trans|]. cbv zeta in H2. rewrite Hc in H2.
  destruct ok; [done|]. destruct H2 as [H2 H3]. split; [done|]. by right; right.
Qed.

End Dir.
