(* ===== verification/FsWorld.v ===== *)
(** The invariant of the whole file system (filesys/): the files on the disk do not
    overlap, the counts of references are right, the free map on the disk is the one in
    memory, and the root directory lists files under different names.  The parts of the
    operations on names preserve it. *)

From stdpp Require Import gmap.
From S2P Require Import Prelude KMonad Bytes Bitmap Block Filesys InodeOk FreeMapOk FsInv FsCreate FsOpen FsHandles FsDir.

(** What stays the same from [filesys_init] to [filesys_done]: the open file of the free
    map, its inode, and the inode of the root directory on the disk. *)
Record world := mkWorld { w_fp : Z; w_ip : Z; w_im : inode; w_rd : inode_disk }.

Definition listed (tbl : list (option (list Z * Z))) (name : list Z) (t : Z) : Prop := exists k, tbl !! k = Some (Some (name, t)).

Section World.
Context {D : Type} `{!BlockDevice D}.
Implicit Types (s : fs D) (objs : list obj) (tmp : list Z) (h : handles) (w : world) (tbl : list (option (list Z * Z))).

(** The root directory. *)
Record listing s objs (rd : inode_disk) tbl : Prop := {
  ls_obj : (ROOT_DIR_SECTOR, rd) ∈ objs;
  ls_length : length_ rd = 20 * len tbl;
  ls_slots : slots (content (fs_device s) rd) = tbl;
  ls_names : names_ok tbl;
  ls_sectors name t : listed tbl name t -> t <> FREE_MAP_SECTOR /\ t <> ROOT_DIR_SECTOR /\ exists d, (t, d) ∈ objs;
  ls_name_inj j k name t t' : tbl !! j = Some (Some (name, t)) -> tbl !! k = Some (Some (name, t')) -> j = k;
  ls_sector_inj j k name name' t : tbl !! j = Some (Some (name, t)) -> tbl !! k = Some (Some (name', t)) -> j = k
}.
(** Which inodes the open files, the open directories and the free map have. *)
Record roles w s tbl : Prop := {
  ro_map : i_sector (w_im w) = FREE_MAP_SECTOR;
  ro_files q f i : files s !! q = Some f -> q <> w_fp w -> inodes s !! f_inode f = Some i ->
    i_sector i <> FREE_MAP_SECTOR /\ i_sector i <> ROOT_DIR_SECTOR;
  ro_pos q f : files s !! q = Some f -> q <> w_fp w -> 0 <= f_pos f < 2 ^ 31;
  ro_dirs q d i : dirs s !! q = Some d -> inodes s !! d_inode d = Some i -> i_sector i = ROOT_DIR_SECTOR;
  ro_removed p i : inodes s !! p = Some i -> removed i = true ->
    i_sector i <> FREE_MAP_SECTOR /\ i_sector i <> ROOT_DIR_SECTOR /\ forall name, ~ listed tbl name (i_sector i)
}.
Record fs_inv w s objs tmp tbl : Prop := {
  fi_disk : disk_ok s objs;
  fi_mem : mem_ok s objs (held s tmp);
  fi_fmap : fmap_ok s objs (w_fp w) (w_ip w) (w_im w);
  fi_listing : listing s objs (w_rd w) tbl;
  fi_roles : roles w s tbl
}.

(** *** What users of files see *)

Definition sector_of s (p : Z) : Z := default (-1) (i_sector <$> inodes s !! p).
(** Nothing changes for the users of the files [objs]. *)
Record same_view s s' objs : Prop := {
  vw_files : files s' = files s;
  vw_sectors q f : files s !! q = Some f -> sector_of s' (f_inode f) = sector_of s (f_inode f);
  vw_content o : o ∈ objs -> o.1 <> FREE_MAP_SECTOR -> o.1 <> ROOT_DIR_SECTOR ->
    content (fs_device s') o.2 = content (fs_device s) o.2
}.
Lemma same_view_refl s objs : same_view s s objs.
Proof. by split. Qed.
Lemma same_view_trans s1 s2 s3 objs objs' :
  same_view s1 s2 objs -> same_view s2 s3 objs' -> (forall o, o ∈ objs' -> o ∈ objs) -> same_view s1 s3 objs'.
Proof.
  intros [H1 H2 H3] [H4 H5 H6] Hs. split; [congruence| |].
  - intros q f Hq. rewrite (H5 q), (H2 q) by (done || congruence). done.
  - intros o Ho Hz Hn. rewrite H6, H3 by auto. done.
Qed.

(** *** Frames *)

(** The inodes of [s'] are those of [s], or new. *)
Definition inodes_from s s' : Prop := forall p i', inodes s' !! p = Some i' ->
  (exists i, inodes s !! p = Some i /\ i_sector i' = i_sector i /\ (removed i' = true -> removed i = true)) \/
  (inodes s !! p = None /\ removed i' = false).
Lemma inodes_from_same s s' : inodes s' = inodes s -> inodes_from s s'.
Proof. intros E p i H. left. exists i. split; [congruence|done]. Qed.

Lemma roles_change w s s' objs tmp tbl :
  roles w s tbl -> mem_ok s objs (held s tmp) -> inodes_from s s' ->
  (forall q f, files s' !! q = Some f -> exists f', files s !! q = Some f' /\ f_inode f = f_inode f' /\ 0 <= f_pos f < 2 ^ 31 \/ q = w_fp w) ->
  (forall q d, dirs s' !! q = Some d -> exists d', dirs s !! q = Some d' /\ d_inode d = d_inode d') -> roles w s' tbl.
Proof.
  intros [R1 R2 R3 R4 R5] M Hi Hf Hd. split; [done| | | |].
  - intros q f i Hq Hne Hin. destruct (Hf q f Hq) as [f' [(Hq' & Ef & _)|]]; [|done].
    destruct (Hi _ _ Hin) as [(i0 & H0 & -> & _)|[H0 _]]; rewrite Ef in H0; [by eapply R2|].
    destruct (mm_files _ _ _ M q f' Hq') as [[x Hx] _]. congruence.
  - intros q f Hq Hne. destruct (Hf q f Hq) as [f' [(_ & _ & ?)|]]; done.
  - intros q d i Hq Hin. destruct (Hd q d Hq) as (d' & Hq' & Ed). destruct (Hi _ _ Hin) as [(i0 & H0 & -> & _)|[H0 _]]; rewrite Ed in H0.
    + by eapply R4.
    + destruct (mm_dirs _ _ _ M q d' Hq') as [[x Hx] _]. congruence.
  - intros p i Hp Hr. destruct (Hi _ _ Hp) as [(i0 & H0 & -> & Hr0)|[_ Hr0]]; [|congruence]. eapply R5; [done|by apply Hr0].
Qed.
Lemma roles_same w s s' objs tmp tbl :
  roles w s tbl -> mem_ok s objs (held s tmp) -> inodes_from s s' -> files s' = files s -> dirs s' = dirs s -> roles w s' tbl.
Proof.
  intros R M Hi Ef Ed. eapply roles_change; [done..| |].
  - intros q f. rewrite Ef. intros Hq. exists f. destruct (decide (q = w_fp w)); [by right|left]. split; [done|]. split; [done|].
    by apply (ro_pos _ _ _ R q).
  - intros q d. rewrite Ed. eauto.
Qed.

Lemma listing_frame s s' objs objs' rd tbl :
  listing s objs rd tbl -> content (fs_device s') rd = content (fs_device s) rd -> (ROOT_DIR_SECTOR, rd) ∈ objs' ->
  (forall name t d, listed tbl name t -> (t, d) ∈ objs -> (t, d) ∈ objs') -> listing s' objs' rd tbl.
Proof.
  intros [L1 L2 L3 L4 L5 L6 L7] Hc Hr Hs. split; try done.
  - by rewrite Hc.
  - intros name t Ht. destruct (L5 name t Ht) as (? & ? & d & Hd). split_and!; eauto.
Qed.

(** The object of the free map is not that of the root directory. *)
Lemma root_not_map w s objs tmp tbl : fs_inv w s objs tmp tbl -> (ROOT_DIR_SECTOR, w_rd w) <> (i_sector (w_im w), data (w_im w)).
Proof. intros [_ _ _ _ R]. rewrite (ro_map _ _ _ R). by intros [=]. Qed.
Lemma file_not_map w s tbl (o : obj) : roles w s tbl -> o.1 <> FREE_MAP_SECTOR -> o <> (i_sector (w_im w), data (w_im w)).
Proof. intros R H ->. apply H. by rewrite (ro_map _ _ _ R). Qed.

(** The inode of an open directory. *)
Lemma root_inode w s objs tmp tbl dp d :
  fs_inv w s objs tmp tbl -> dirs s !! dp = Some d ->
  exists i, inodes s !! d_inode d = Some i /\ i_sector i = ROOT_DIR_SECTOR /\ data i = w_rd w /\ removed i = false /\
    deny_write_cnt i = 0 /\ d_inode d <> w_ip w /\ dir_file s (d_inode d) i (len tbl).
Proof.
  intros [Dk M Fm L R] Hd. destruct (mm_dirs _ _ _ M dp d Hd) as [[i Hi] _]. exists i.
  pose proof (ro_dirs _ _ _ R dp d i Hd Hi) as Hs. destruct (mm_inode _ _ _ M _ _ Hi) as [I1 I2 I3 I4 I5].
  assert (Hdata : data i = w_rd w).
  { assert (E : (i_sector i, data i) = (ROOT_DIR_SECTOR, w_rd w)) by (eapply obj_unique; [done|done|apply L|done]). by injection E. }
  destruct (fm_file _ _ _ _ _ Fm) as [_ [pos F2] [F3 _ _ _] _ _].
  assert (Hip : d_inode d <> w_ip w).
  { intros E. rewrite E, F3 in Hi. injection Hi as <-. rewrite (ro_map _ _ _ R) in Hs. done. }
  split_and!; try done.
  - destruct (removed i) eqn:Hr; [|done]. by destruct (ro_removed _ _ _ R _ _ Hi Hr) as (_ & ? & _).
  - rewrite I4. apply holders_zero. intros q f Hq. simpl in Hq. apply andb_false_iff. left. apply Z.eqb_neq. intros Ef.
    destruct (decide (q = w_fp w)) as [->|Hne]; [rewrite F2 in Hq; injection Hq as <-; simpl in Ef; congruence|]. rewrite <- Ef in Hi. destruct (ro_files _ _ _ R q f i Hq Hne Hi). done.
  - split; [|rewrite Hdata; apply L]. split; [done|apply Dk| |apply M]. apply (ds_obj _ _ Dk _ I1).
Qed.

(** Nothing but reads. *)
Lemma inv_quiet w s s' objs tmp tbl : quiet s s' -> fs_inv w s objs tmp tbl -> fs_inv w s' objs tmp tbl /\ same_view s s' objs.
Proof.
  intros Q [Dk M Fm L R]. destruct (quiet_all s s' objs _ _ _ _ Q Dk M Fm) as (Dk' & M' & Fm' & So & Hc).
  pose proof So as [_ S2 _ S4 S5 _]. split.
  - split; [done| |done| |].
    + unfold held. by rewrite S4, S5.
    + eapply listing_frame; [done| |apply L|done]. apply (Hc _ (ls_obj _ _ _ _ L)).
    + eapply roles_same; [done|done| |done|done]. by apply inodes_from_same.
  - split; [done| |auto]. intros q f _. unfold sector_of. by rewrite S2.
Qed.

(** A change inside the root directory. *)
Lemma inv_root w s s' objs tmp tbl tbl' :
  changes (in_file (w_rd w)) s s' -> fs_inv w s objs tmp tbl ->
  slots (content (fs_device s') (w_rd w)) = tbl' -> len tbl' = len tbl -> names_ok tbl' ->
  (forall name t, listed tbl' name t -> t <> FREE_MAP_SECTOR /\ t <> ROOT_DIR_SECTOR /\ exists d, (t, d) ∈ objs) ->
  (forall j k name t t', tbl' !! j = Some (Some (name, t)) -> tbl' !! k = Some (Some (name, t')) -> j = k) ->
  (forall j k name name' t, tbl' !! j = Some (Some (name, t)) -> tbl' !! k = Some (Some (name', t)) -> j = k) ->
  (forall p i name, inodes s !! p = Some i -> removed i = true -> ~ listed tbl' name (i_sector i)) ->
  fs_inv w s' objs tmp tbl' /\ same_view s s' objs.
Proof.
  intros C I Ht Hl Hn Hs Hi1 Hi2 Hr. pose proof I as [Dk M Fm L R]. pose proof (changes_same_objects _ _ _ C) as [_ S2 _ S4 S5 _].
  pose proof (ls_obj _ _ _ _ L) as Hroot. split; [split|].
  - eapply changes_disk; [done..|]. intros o Ho. by apply (file_change_keeps s objs (ROOT_DIR_SECTOR, w_rd w)).
  - unfold held. rewrite S4, S5. by eapply changes_mem.
  - eapply changes_fmap; [done..|]. intros t Hin. apply (files_apart s objs (ROOT_DIR_SECTOR, w_rd w) (i_sector (w_im w), data (w_im w))); try done.
    + apply Fm.
    + by eapply root_not_map.
  - split; try done. rewrite Hl. apply L.
  - split; [apply R|rewrite S2, S4; apply R|rewrite S4; apply R|rewrite S2, S5; apply R|].
    rewrite S2. intros p i Hp Hrm. destruct (ro_removed _ _ _ R p i Hp Hrm) as (? & ? & _). split_and!; eauto.
  - split; [done| |].
    + intros q f _. unfold sector_of. by rewrite S2.
    + intros o Ho _ Hne. eapply changes_content; [done|by apply (ds_obj _ _ Dk)|]. intros t Hin.
      apply (files_apart s objs (ROOT_DIR_SECTOR, w_rd w) o); try done. by intros <-.
Qed.

(** *** Opening and closing inodes *)

Lemma map_inode w s objs tmp tbl : fs_inv w s objs tmp tbl -> inodes s !! w_ip w = Some (w_im w).
Proof. intros [_ _ Fm _ _]. apply (mf_readable _ _ _ _ (fm_file _ _ _ _ _ Fm)). Qed.
Lemma not_map_inode w s objs tmp tbl p i :
  fs_inv w s objs tmp tbl -> inodes s !! p = Some i -> i_sector i <> FREE_MAP_SECTOR -> p <> w_ip w.
Proof.
  intros I Hp Hs ->. rewrite (map_inode _ _ _ _ _ I) in Hp. injection Hp as <-. apply Hs. apply (ro_map _ _ _ (fi_roles _ _ _ _ _ I)).
Qed.
Lemma sector_of_some s p i : inodes s !! p = Some i -> sector_of s p = i_sector i.
Proof. unfold sector_of. by intros ->. Qed.

Lemma inv_opened w s objs tmp tbl o p i s' :
  fs_inv w s objs tmp tbl -> opened s objs (held s tmp) o p i s' -> o.1 <> FREE_MAP_SECTOR ->
  fs_inv w s' objs (p :: tmp) tbl /\ same_view s s' objs.
Proof.
  intros I [O1 O2 O3 O4 O5 O6 O7 O8] Ho. pose proof I as [Dk M Fm L R].
  assert (Hip : w_ip w <> p).
  { intros <-. rewrite (map_inode _ _ _ _ _ I), (ro_map _ _ _ R) in O6. destruct O6 as [E _]. by rewrite <- E in Ho. }
  assert (Hc : forall x, x ∈ objs -> content (fs_device s') x.2 = content (fs_device s) x.2).
  { intros x Hx. apply same_disk_content; [done|]. by apply (ds_obj _ _ Dk). }
  split; [split|split].
  - by apply (same_disk_disk s).
  - unfold held. rewrite O7, O8. exact O4.
  - apply (same_disk_fmap s); [done|by apply O5|by rewrite O7|done].
  - eapply listing_frame; [done| |apply L|done]. apply (Hc _ (ls_obj _ _ _ _ L)).
  - eapply roles_same; [done|done| |done|done]. intros q j Hq. destruct (decide (q = p)) as [->|Hne].
    + rewrite O2 in Hq. injection Hq as <-. destruct (inodes s !! p) as [i0|]; [left|by right; destruct O6].
      exists i0. destruct O6 as (-> & -> & _). subst o. done.
    + rewrite O5 in Hq by done. left. eauto.
  - done.
  - intros q f Hq. destruct (decide (f_inode f = p)) as [E|Hne]; [|unfold sector_of; by rewrite O5].
    destruct (mm_files _ _ _ M q f Hq) as [[i0 H0] _]. rewrite E in *. rewrite H0 in O6. destruct O6 as [E0 _].
    rewrite (sector_of_some _ _ _ H0), (sector_of_some _ _ _ O2), E0. by subst o.
  - intros x Hx _ _. by apply Hc.
Qed.

(** What a closed inode leaves to the others. *)
Lemma inv_closed w s objs tmp tbl h p i objs' s1 :
  fs_inv w s objs tmp tbl -> inodes s !! p = Some i -> closed s objs h (w_fp w) (w_ip w) (w_im w) p i objs' s1 ->
  listing s1 objs' (w_rd w) tbl /\ inodes_from s s1 /\ (forall o, o ∈ objs' -> o ∈ objs) /\
  (forall o, o ∈ objs' -> o.1 <> FREE_MAP_SECTOR -> content (fs_device s1) o.2 = content (fs_device s) o.2) /\
  (forall q, is_Some (inodes s1 !! q) -> sector_of s1 q = sector_of s q).
Proof.
  intros I Hp [C1 C2 C3 C4 C5 C6 C7 C8 C9 C10]. pose proof I as [Dk M Fm L R].
  assert (Hsub : forall o, o ∈ objs' -> o ∈ objs).
  { intros o Ho. destruct (gone i); [|by subst]. rewrite C1. by constructor. }
  assert (Hc : forall o, o ∈ objs' -> o.1 <> FREE_MAP_SECTOR -> content (fs_device s1) o.2 = content (fs_device s) o.2).
  { intros o Ho Hz. apply C5; [done|]. by apply (file_not_map w s tbl). }
  assert (Hin : forall o, o ∈ objs -> (o.1 = ROOT_DIR_SECTOR \/ exists name, listed tbl name o.1) -> o ∈ objs').
  { intros o Ho Hl. destruct (gone i) eqn:Hg; [|by subst]. rewrite C1 in Ho. apply elem_of_cons in Ho as [->|Ho]; [|done].
    apply andb_true_iff in Hg as [_ Hr]. destruct (ro_removed _ _ _ R p i Hp Hr) as (_ & H1 & H2). simpl in Hl.
    destruct Hl as [Hl|[name Hl]]; [done|by apply H2 in Hl]. }
  assert (Hroot : (ROOT_DIR_SECTOR, w_rd w) ∈ objs') by (apply Hin; [apply L|by left]).
  split; [|split; [|split; [|split]]]; [| |done|done|].
  - eapply listing_frame; [done|by apply (Hc _ Hroot)|done|]. intros name t d Ht Hd. apply Hin; [done|]. right. by exists name.
  - intros q j Hq. left. destruct (decide (q = p)) as [->|Hne]; [|rewrite C6 in Hq by done; eauto].
    rewrite C7 in Hq. destruct (open_cnt i =? 1); [done|]. injection Hq as <-. by exists i.
  - intros q [j Hq]. rewrite (sector_of_some _ _ _ Hq). destruct (decide (q = p)) as [->|Hne].
    + rewrite (sector_of_some _ _ _ Hp). rewrite C7 in Hq. destruct (open_cnt i =? 1); [done|]. by injection Hq as <-.
    + rewrite C6 in Hq by done. by rewrite (sector_of_some _ _ _ Hq).
Qed.

Lemma inv_inode_close w s objs tmp tbl p i :
  fs_inv w s objs (p :: tmp) tbl -> inodes s !! p = Some i -> p <> w_ip w ->
  exists objs' s', inode_close (Some p) s = Ok (tt, s') /\ fs_inv w s' objs' tmp tbl /\ same_view s s' objs' /\ dirs s' = dirs s /\
    (if gone i then objs ≡ₚ (i_sector i, data i) :: objs' else objs' = objs).
Proof.
  intros I Hp Hne. pose proof I as [Dk M Fm L R].
  destruct (inode_close_ok s objs (held s tmp) (w_fp w) (w_ip w) (w_im w) p i Dk M Fm Hp Hne) as (objs' & s' & E & Cl).
  destruct (inv_closed _ _ _ _ _ _ _ _ _ _ I Hp Cl) as (HL & HI & Hs & Hc & Hse). destruct Cl as [C1 C2 C3 C4 C5 C6 C7 C8 C9 C10].
  exists objs', s'. split; [done|]. split; [split|split; [split|]]; try done.
  - unfold held. by rewrite C8, C9.
  - by eapply roles_same.
  - intros q f Hq. apply Hse. apply (mm_files _ _ _ C3 q f Hq).
  - intros o Ho Hz _. by apply Hc.
Qed.

(** *** The root directory as an open directory *)

Lemma inv_dir_open_root w s objs tbl :
  fs_inv w s objs [] tbl ->
  exists dp d s', dir_open_root s = Ok (Some dp, s') /\ fs_inv w s' objs [] tbl /\ same_view s s' objs /\
    dirs s !! dp = None /\ dirs s' = <[dp := d]> (dirs s) /\ same_disk s s'.
Proof.
  intros I. pose proof I as [Dk M Fm L R]. unfold dir_open_root.
  destruct (inode_open_ok s objs (held s []) (ROOT_DIR_SECTOR, w_rd w) Dk M (ls_obj _ _ _ _ L)) as (p & i & s1 & E & O).
  simpl in E. rewrite (bind_ok _ _ _ _ _ E). destruct (inv_opened w s objs [] tbl _ p i s1 I O) as [I1 V1]; [done|].
  pose proof I1 as [Dk1 M1 Fm1 L1 R1].
  destruct (dir_open_ok s1 objs [] p M1) as (dp & s2 & E2 & K2 & S1 & S2 & S3 & S4 & M2).
  exists dp, (mkDir p 0), s2. split; [done|]. assert (Hc : forall x, x ∈ objs -> content (fs_device s2) x.2 = content (fs_device s1) x.2).
  { intros x Hx. apply same_disk_content; [done|]. by apply (ds_obj _ _ Dk1). }
  split; [split|split].
  - by apply (same_disk_disk s1).
  - done.
  - apply (same_disk_fmap s1); [done|by rewrite S1|by rewrite S2|done].
  - eapply listing_frame; [done| |apply L|done]. apply (Hc _ (ls_obj _ _ _ _ L)).
  - split; rewrite ?S1, ?S2, ?S4; try apply R1. intros q d j [[<- <-]|[_ Hq]]%lookup_insert_Some.
    + simpl. rewrite (op_inode _ _ _ _ _ _ _ O). intros [= <-]. pose proof (op_obj _ _ _ _ _ _ _ O) as Eo. by injection Eo.
    + by apply (ro_dirs _ _ _ R1 q).
  - eapply same_view_trans; [done| |done]. split; [done| |intros; by apply Hc]. intros. unfold sector_of. by rewrite S1.
  - rewrite <- (op_dirs _ _ _ _ _ _ _ O). split_and!; [done..|]. eapply same_disk_trans; [apply O|done].
Qed.

Lemma inv_dir_close w s objs tmp tbl dp d :
  fs_inv w s objs tmp tbl -> dirs s !! dp = Some d ->
  exists s', dir_close (Some dp) s = Ok (tt, s') /\ fs_inv w s' objs tmp tbl /\ same_view s s' objs /\
    dirs s' = delete dp (dirs s) /\ (forall p, p ∈ tmp -> sector_of s' p = sector_of s p) /\
    (forall u, bit (free_map s') u = bit (free_map s) u).
Proof.
  intros I Hd. destruct (root_inode w s objs tmp tbl dp d I Hd) as (i & Hi & Hse & Hda & Hrm & Hdn & Hip & _).
  pose proof I as [Dk M Fm L R].
  destruct (dir_close_ok s objs tmp _ _ _ dp d i Dk M Fm Hd Hi Hip) as (objs' & s1 & s' & E & Cl & -> & M').
  destruct (inv_closed _ _ _ _ _ _ _ _ _ _ I Hi Cl) as (HL & HI & Hs & Hc & Hsec). destruct Cl as [C1 C2 C3 C4 C5 C6 C7 C8 C9 C10].
  unfold gone in C1. rewrite Hrm, andb_false_r in C1. subst objs'.
  exists (set_dirs (delete dp (dirs s)) s1). split; [done|]. split; [split|split; [|split; [|split]]]; try done.
  - split; try apply C2.
  - apply (same_disk_fmap s1); try done.
  - by split; try apply HL.
  - eapply roles_change; [done|done|exact HI| |].
    + simpl. rewrite C8. intros q f Hq. exists f. destruct (decide (q = w_fp w)); [by right|left]. split; [done|]. split; [done|].
      by apply (ro_pos _ _ _ R q).
    + simpl. intros q d' [_ Hq]%lookup_delete_Some. eauto.
  - split; simpl; [done| |].
    + intros q f Hq. apply (Hsec (f_inode f)). simpl in M'. apply (mm_files _ _ _ C3 q f Hq).
    + intros o Ho Hz _. by apply Hc.
  - intros p Hp. apply (Hsec p). by apply (mm_tmp _ _ _ C3).
  - intros u. apply (C10 u). unfold gone. by rewrite Hrm, andb_false_r.
Qed.

End World.
