(* ===== verification/FsOps.v ===== *)
(** The operations on names (filesys/filesys.c, filesys/directory.c) preserve the invariant
    and do what they say. *)

From stdpp Require Import gmap.
From S2P Require Import Prelude KMonad Bytes Bitmap Block Filesys InodeOk FreeMapOk FsInv FsCreate FsOpen FsHandles FsDir FsWorld.

Section Ops.
Context {D : Type} `{!BlockDevice D}.
Implicit Types (s : fs D) (objs : list obj) (tmp : list Z) (h : handles) (w : world) (tbl : list (option (list Z * Z))).

(** ** Creating a file *)

Lemma inv_keeps w s s' objs tmp tbl :
  fs_inv w s objs tmp tbl -> disk_ok s' objs -> mem_ok s' objs (held s tmp) -> fmap_ok s' objs (w_fp w) (w_ip w) (w_im w) ->
  keeps objs (i_sector (w_im w), data (w_im w)) s s' -> same_objects s s' ->
  fs_inv w s' objs tmp tbl /\ same_view s s' objs.
Proof.
  intros I Dk' M' Fm' Kp [_ S2 _ S4 S5 _]. pose proof I as [Dk M Fm L R]. split.
  - split; [done| |done| |].
    + unfold held. by rewrite S4, S5.
    + eapply listing_frame; [done| |apply L|done]. apply (Kp (ROOT_DIR_SECTOR, w_rd w)); [apply L|by eapply root_not_map].
    + eapply roles_same; [done|done| |done|done]. by apply inodes_from_same.
  - split; [done| |].
    + intros q f _. unfold sector_of. by rewrite S2.
    + intros o Ho Hz _. apply Kp; [done|]. by eapply file_not_map.
Qed.
(** One more object. *)
Lemma inv_new w s objs tmp tbl o : fs_inv w s objs tmp tbl -> disk_ok s (o :: objs) -> fs_inv w s (o :: objs) tmp tbl.
Proof.
  intros [Dk M Fm L R] Dk'. split; [done| | | |done].
  - eapply mem_objs; [done|]. intros p i Hp. constructor. apply (mm_inode _ _ _ M p i Hp).
  - eapply fmap_objs; [done|]. constructor. apply Fm.
  - eapply listing_frame; [done|done|constructor; apply L|]. intros. by constructor.
Qed.

Lemma inv_saved w s objs tbl b' t cnt v s' :
  fs_inv w s objs [] tbl -> range_set (free_map s) b' t cnt v -> 0 <= t ->
  (v = true \/ forall u, u ∈ all_owned objs -> within t cnt u = false) -> saved s b' (w_im w) s' ->
  fs_inv w s' objs [] tbl /\ same_view s s' objs /\ dirs s' = dirs s /\ free_map s' = b' /\
  bd_size (fs_device s') = bd_size (fs_device s).
Proof.
  intros I Hr Ht Hv Sv. pose proof I as [Dk M Fm L R].
  destruct (saved_ok s objs _ _ _ b' t cnt v s' Dk Fm Hr Ht Hv Sv) as (Dk' & Fm' & Kp & So & Hb).
  pose proof (saved_mem _ _ _ _ _ _ Sv M) as M'. destruct (inv_keeps w s s' objs [] tbl I Dk' M' Fm' Kp So) as [I' V'].
  split_and!; [done..|apply So|done|apply So].
Qed.

(** The sectors that the file system uses for itself and for files are not free. *)
Lemma free_not_owned w s objs tmp tbl t :
  fs_inv w s objs tmp tbl -> bit (free_map s) t = false -> (t ∉ all_owned objs) /\ t <> FREE_MAP_SECTOR /\ t <> ROOT_DIR_SECTOR.
Proof.
  intros [Dk M Fm L R] Hb. assert (Hn : t ∉ all_owned objs) by (intros Hin; apply (ds_marked _ _ Dk) in Hin; congruence).
  split_and!; [done| |]; intros ->; apply Hn, elem_all_owned.
  - exists (i_sector (w_im w), data (w_im w)). split; [apply Fm|]. apply elem_owned. left. by rewrite <- (ro_map _ _ _ R).
  - exists (ROOT_DIR_SECTOR, w_rd w). split; [apply L|]. apply elem_owned. by left.
Qed.

(** Giving back the sector of an inode that no object owns. *)
Lemma inv_release w s objs tbl t :
  fs_inv w s objs [] tbl -> 0 <= t < bd_size (fs_device s) -> bit (free_map s) t = true -> t ∉ all_owned objs ->
  exists s', free_map_release t 1 s = Ok (tt, s') /\ fs_inv w s' objs [] tbl /\ same_view s s' objs /\ dirs s' = dirs s /\
    forall u, 0 <= u -> bit (free_map s') u = negb (u =? t) && bit (free_map s) u.
Proof.
  intros I Ht Hb Hn. pose proof I as [Dk M Fm L R].
  destruct (free_map_release_ok s t 1 _ _ _ (fm_map _ _ _ _ _ Fm) (fm_file _ _ _ _ _ Fm)) as (b' & s' & E & Hr & Sv); [lia..| |].
  { intros u Hu. by replace u with t by lia. }
  destruct (inv_saved w s objs tbl b' t 1 false s' I Hr) as (I' & V' & Hd & Hb' & _); [lia| |done|].
  2:{ exists s'. split_and!; try done. intros u Hu. rewrite Hb'. destruct Hr as [(_ & _ & Hbits) _]. rewrite Hbits by done.
      unfold within. case_cmp; done || lia. }
  right. intros u Hu. unfold within. destruct (decide (u = t)) as [->|]; [done|]. apply andb_false_iff. rewrite Z.leb_gt, Z.ltb_ge. lia.
Qed.

(** The table with one more name. *)
Lemma inv_add_name w s s' objs tmp tbl k name t d :
  changes (in_file (w_rd w)) s s' -> fs_inv w s objs tmp tbl -> tbl !! k = Some None ->
  slots (content (fs_device s') (w_rd w)) = <[k := Some (name, t)]> tbl -> name_ok name -> ~ has_name tbl name ->
  t <> FREE_MAP_SECTOR -> t <> ROOT_DIR_SECTOR -> (t, d) ∈ objs ->
  (forall name, ~ listed tbl name t) -> (forall p i, inodes s !! p = Some i -> i_sector i <> t) ->
  fs_inv w s' objs tmp (<[k := Some (name, t)]> tbl) /\ same_view s s' objs.
Proof.
  intros C I Hk Hs Hn Hno Hz Hr Ho Hl Hi. pose proof I as [Dk M Fm L R]. pose proof (lookup_lt_Some _ _ _ Hk) as Hlt.
  assert (Hcase : forall j name' t', <[k := Some (name, t)]> tbl !! j = Some (Some (name', t')) ->
    (j = k /\ name' = name /\ t' = t) \/ (j <> k /\ tbl !! j = Some (Some (name', t')))).
  { intros j name' t' [(-> & [= -> ->] & _)|[Hne Hj]]%list_lookup_insert_Some; [by left|by right]. }
  eapply (inv_root w s s' objs tmp tbl); [done|done|done|by rewrite length_insert| | | | |].
  - intros j name' t' [(_ & -> & _)|[_ Hj]]%Hcase; [done|]. by eapply (ls_names _ _ _ _ L).
  - intros name' t' [j [(_ & _ & ->)|[_ Hj]]%Hcase]; [eauto|]. apply (ls_sectors _ _ _ _ L name'). by exists j.
  - intros j j' x t1 t2 [(-> & -> & ->)|[Hj1 Hj]]%Hcase [(-> & E & ->)|[Hj1' Hj']]%Hcase; [done| | |].
    + by destruct Hno; exists j', t2.
    + subst x. by destruct Hno; exists j, t1.
    + by eapply (ls_name_inj _ _ _ _ L).
  - intros j j' x x' t1 [(-> & -> & ->)|[Hj1 Hj]]%Hcase [(-> & -> & E)|[Hj1' Hj']]%Hcase; [done| | |].
    + by destruct (Hl x'); exists j'.
    + subst t1. by destruct (Hl x); exists j.
    + by eapply (ls_sector_inj _ _ _ _ L).
  - intros p i name' Hp Hrm [j [(_ & _ & E)|[_ Hj]]%Hcase]; [by apply (Hi p i Hp)|].
    destruct (ro_removed _ _ _ R p i Hp Hrm) as (_ & _ & H). apply (H name'). by exists j.
Qed.

(** There is no free sector for the inode, or the first one leaves no room for the data. *)
Definition no_sectors s (n : Z) : Prop :=
  (forall t, 0 <= t < bd_size (fs_device s) -> bit (free_map s) t = true) \/
  (exists t, 0 <= t < bd_size (fs_device s) /\ bit (free_map s) t = false /\
     forall k, 0 <= k -> k + sectors_of n <= bd_size (fs_device s) ->
       ~ (forall u, k <= u < k + sectors_of n -> u <> t /\ bit (free_map s) u = false)).
(** Why a file of [n] bytes cannot be made: the directory has no free entry, or the disk has no
    sectors for it. *)
Definition no_room s tbl (n : Z) : Prop := (forall k, tbl !! k <> Some None) \/ no_sectors s n.
Definition not_made s tbl (name : list Z) (n : Z) : Prop := ~ name_ok name \/ has_name tbl name \/ no_room s tbl n.

(** The part of [filesys_create] between opening and closing the directory. *)
Definition create_body (d : Z) (name : list Z) (n : Z) (junk : list Z) : K (fs D) (bool * Z) :=
  sector ← free_map_allocate 1;
  match sector with
  | None => mret (false, 0)
  | Some sector =>
      ok ← inode_create sector n;
      if (ok : bool) then ok ← dir_add d name sector junk; mret (ok, sector) else mret (false, sector)
  end.
Definition made w s objs tbl (name : list Z) (n t : Z) s' : Prop := exists d k,
  name_ok name /\ ~ has_name tbl name /\ (t ∉ all_owned objs) /\ tbl !! k = Some None /\
  fs_inv w s' ((t, d) :: objs) [] (<[k := Some (name, t)]> tbl) /\ content (fs_device s') d = replicate (Z.to_nat n) 0.
(** The sectors for the data of a file of [n] bytes were free, and are marked, besides [t]. *)
Definition marks_more s (n : Z) (t : option Z) s' : Prop := exists first,
  0 <= first /\ first + sectors_of n <= bd_size (fs_device s) /\
  (forall u, first <= u < first + sectors_of n -> t <> Some u /\ bit (free_map s) u = false) /\
  (forall u, 0 <= u -> bit (free_map s') u = bit (free_map s) u || bool_decide (t = Some u) || within first (sectors_of n) u).
(** A sector that is marked but has no object. *)
Definition stray s objs (t : Z) : Prop :=
  t <> FREE_MAP_SECTOR -> 0 <= t < bd_size (fs_device s) /\ bit (free_map s) t = true /\ (t ∉ all_owned objs).

Lemma add_new w s objs tbl dp d name n t dd junk :
  fs_inv w s objs [] tbl -> disk_ok s ((t, dd) :: objs) -> content (fs_device s) dd = replicate (Z.to_nat n) 0 ->
  t <> FREE_MAP_SECTOR -> t <> ROOT_DIR_SECTOR -> dirs s !! dp = Some d -> Forall (fun c => c <> 0) name -> length junk = 20%nat ->
  exists ok s', dir_add dp name t junk s = Ok (ok, s') /\ dirs s' = dirs s /\ same_view s s' objs /\
    (if (ok : bool) then made w s objs tbl name n t s'
     else fs_inv w s' objs [] tbl /\ stray s' objs t /\ free_map s' = free_map s /\
       (~ name_ok name \/ has_name tbl name \/ forall k, tbl !! k <> Some None)).
Proof.
  intros I Dk' Hc Hz Hr Hdp Hn Hj. pose proof I as [Dk M Fm L R].
  destruct (root_inode w s objs [] tbl dp d I Hdp) as (i & Hi & Hs & Hda & Hrm & Hdn & Hip & Df).
  pose proof (ls_slots _ _ _ _ L) as Htbl. destruct (ds_obj _ _ Dk' (t, dd)) as (_ & Ht & _); [constructor|]. simpl in Ht.
  pose proof (bd_size_range _ (ds_dev _ _ Dk)).
  assert (Hfresh : t ∉ all_owned objs).
  { pose proof (ds_apart _ _ Dk') as Ha. rewrite all_owned_cons in Ha. apply NoDup_app in Ha as (_ & Ha & _). apply Ha, elem_owned. by left. }
  assert (Hother : forall x, x ∈ objs -> x.1 <> t).
  { intros x Hx <-. apply Hfresh, elem_all_owned. exists x. split; [done|]. apply elem_owned. by left. }
  destruct (dir_add_ok s dp d i (len tbl) name t junk) as (ok & s' & E & C & H'); rewrite ?Hda, ?Htbl; try done; [apply L|lia|].
  cbv zeta in H'. rewrite Hda, Htbl in *. pose proof (changes_same_objects _ _ _ C) as So. exists ok, s'. split; [done|]. split; [apply So|].
  destruct ok.
  - destruct H' as (Hnm & Hno & k & Hk & Htbl').
    assert (In := inv_new _ _ _ _ _ _ I Dk').
    destruct (inv_add_name w s s' ((t, dd) :: objs) [] tbl k name t dd) as [I' V']; try done; [constructor| | |].
    + intros x Hl. destruct (ls_sectors _ _ _ _ L x t Hl) as (_ & _ & y & Hy). by apply (Hother _ Hy).
    + intros p j Hp Ej. apply (Hother _ (io_obj _ _ _ _ _ (mm_inode _ _ _ M p j Hp))). done.
    + split.
      * split; [apply V'|apply V'|]. intros o Ho. apply (vw_content _ _ _ V'). by constructor.
      * exists dd, k. split_and!; try done. rewrite <- Hc. apply (vw_content _ _ _ V' (t, dd)); [constructor|done..].
  - destruct H' as [Htbl' Hwhy].
    destruct (inv_root w s s' objs [] tbl tbl) as [I' V']; try done; try apply L.
    { intros p j x Hp Hrj. by apply (ro_removed _ _ _ R p j Hp Hrj). }
    split_and!; try done; [|by destruct C as [[-> _ _ _ _ _ _ _ _ _] _]].
    intros _. rewrite (so_size _ _ So). split; [done|]. split; [|done].
    destruct C as [[-> _ _ _ _ _ _ _ _ _] _]. apply (ds_marked _ _ Dk'), elem_all_owned. exists (t, dd). split; [constructor|].
    apply elem_owned. by left.
Qed.

Lemma same_view_sub s1 s2 objs objs' : same_view s1 s2 objs -> (forall o, o ∈ objs' -> o ∈ objs) -> same_view s1 s2 objs'.
Proof. intros [H1 H2 H3] Hs. split; eauto. Qed.

Lemma create_body_ok w s objs tbl dp d name n junk :
  fs_inv w s objs [] tbl -> dirs s !! dp = Some d -> Forall (fun c => c <> 0) name -> length junk = 20%nat -> 0 <= n < 2 ^ 31 - 512 ->
  exists ok t s', create_body dp name n junk s = Ok ((ok, t), s') /\ dirs s' = dirs s /\ same_view s s' objs /\
    (if (ok : bool) then made w s objs tbl name n t s' else fs_inv w s' objs [] tbl /\ stray s' objs t /\ not_made s tbl name n /\
       (no_sectors s n \/ (bit (free_map s) t = false /\ t <> 0 /\ marks_more s n (Some t) s'))).
Proof.
  intros I Hdp Hn Hj Hs. pose proof I as [Dk M Fm L R]. unfold create_body.
  destruct (free_map_allocate_ok s 1 _ _ _ (fm_map _ _ _ _ _ Fm) (fm_file _ _ _ _ _ Fm)) as
    [[E Hfull]|(t & b' & s1 & E & Ht & Hend & Hfree & Hr & Sv)]; [lia| |]; rewrite (bind_ok _ _ _ _ _ E).
  { exists false, 0, s. split; [done|]. split; [done|]. split; [apply same_view_refl|]. split; [done|]. split; [done|].
    assert (Hns : no_sectors s n); [|split; [by right; right; right|by left]]. left. intros t Ht. destruct (bit (free_map s) t) eqn:Hb; [done|]. destruct (Hfull t); [lia..|].
    intros u Hu. by replace u with t by lia. }
  destruct (inv_saved w s objs tbl b' t 1 true s1 I Hr Ht) as (I1 & V1 & Hd1 & Hb1 & Hsz); [by left|done|].
  assert (Hbt : bit (free_map s) t = false) by (apply Hfree; lia).
  destruct (free_not_owned w s objs [] tbl t I Hbt) as (Hno & Hz & Hrt). pose proof I1 as [Dk1 M1 Fm1 L1 R1].
  pose proof Hr as [(_ & _ & Hbits) _].
  assert (Hb1t : bit (free_map s1) t = true) by (rewrite Hb1, Hbits by done; unfold within; by case_cmp).
  destruct (inode_create_ok s1 objs _ _ _ _ t n Dk1 M1 Fm1 Hs) as (ok & s2 & E2 & M2 & Fm2 & Kp2 & So2 & H2); [lia|done|done|].
  rewrite (bind_ok _ _ _ _ _ E2). assert (Dk2 : disk_ok s2 objs).
  { destruct ok; [|apply H2]. destruct H2 as [f [H2 _ _ _ _]]. eapply disk_sub; [done|]. by exists [(t, mkInodeDisk f n INODE_MAGIC)]. }
  destruct (inv_keeps w s1 s2 objs [] tbl I1 Dk2 M2 Fm2 Kp2 So2) as [I2 V2].
  pose proof (same_view_trans _ _ _ _ _ V1 V2 (fun _ H => H)) as V12.
  assert (Hd2 : dirs s2 = dirs s) by (rewrite (so_dirs _ _ So2); done). destruct ok.
  - destruct H2 as [f [C1 C2 C3 C4 C5]].
    destruct (add_new w s2 objs tbl dp d name n t _ junk I2 C1 C2 Hz Hrt) as (ok & s3 & E3 & Hd3 & V3 & H3); [by rewrite Hd2|done..|].
    rewrite (bind_ok _ _ _ _ _ E3). exists ok, t, s3. split; [done|]. split; [congruence|].
    split; [by eapply same_view_trans|]. destruct ok; [done|]. destruct H3 as (I3 & St & Hm3 & Hwhy). split; [done|]. split; [done|]. split.
    { destruct Hwhy as [?|[?|?]]; [by left|by right; left|by right; right; left]. }
    right. split; [done|]. split; [done|]. exists f. rewrite Hm3. rewrite Hsz in C4. destruct C4 as [Hf1 Hf2]. split_and!; [done..| |].
    + intros u Hu. assert (Hbu : bit (free_map s1) u = false) by (apply C3; lia). split; [congruence|].
      rewrite Hb1, Hbits in Hbu by lia. by destruct (within t 1 u).
    + intros u Hu. destruct C5 as [(_ & _ & Hbits2) _]. rewrite Hbits2, Hb1, Hbits by done.
      assert (Hut : bool_decide (Some t = Some u) = within t 1 u).
      { unfold within. case_bool_decide as Hut; case_cmp; simplify_eq; try done; try lia. destruct Hut. f_equal. lia. }
      rewrite Hut. by destruct (within f (sectors_of n) u), (within t 1 u), (bit (free_map s) u).
  - destruct H2 as [_ Hfull Hmap]. exists false, t, s2. split; [done|]. split; [done|]. split; [done|]. split; [done|].
    assert (Hns : no_sectors s n); [|split; [|split; [by right; right; right|by left]]].
    2:{ intros _. rewrite (so_size _ _ So2), Hmap. split; [lia|done]. }
    right. exists t. split; [lia|]. split; [done|]. intros k Hk Hke Hall. apply (Hfull k Hk); [lia|].
      intros u Hu. rewrite Hb1, Hbits by lia. destruct (Hall u Hu) as [Hne Hbu]. unfold within. by case_cmp.
Qed.

Lemma filesys_create_ok w s objs tbl name n junk :
  fs_inv w s objs [] tbl -> Forall (fun c => c <> 0) name -> length junk = 20%nat -> 0 <= n < 2 ^ 31 - 512 ->
  exists ok s', filesys_create name n junk s = Ok (ok, s') /\ dirs s' = dirs s /\ same_view s s' objs /\
    (if (ok : bool) then exists t, made w s objs tbl name n t s' else fs_inv w s' objs [] tbl /\ not_made s tbl name n /\
       (no_sectors s n \/ marks_more s n None s')).
Proof.
  intros I Hn Hj Hs. unfold filesys_create.
  destruct (inv_dir_open_root w s objs tbl I) as (dp & d & s1 & E1 & I1 & V1 & Hfr & Hd1 & K1). rewrite (bind_ok _ _ _ _ _ E1).
  assert (Hdp : dirs s1 !! dp = Some d) by (by rewrite Hd1, lookup_insert_eq).
  destruct (create_body_ok w s1 objs tbl dp d name n junk I1 Hdp Hn Hj Hs) as (ok & t & s2 & E2 & Hd2 & V2 & H2).
  unfold create_body in E2. rewrite (bind_ok _ _ _ _ _ E2).
  assert (Hwhy : not_made s1 tbl name n -> not_made s tbl name n).
  { unfold not_made, no_room, no_sectors. by rewrite (sk_map _ _ K1), (sk_size _ _ K1). }
  pose proof (same_view_trans _ _ _ _ _ V1 V2 (fun _ H => H)) as V12.
  assert (Hdel : delete dp (<[dp := d]> (dirs s)) = dirs s) by (by apply delete_insert_id).
  assert (Hdp2 : dirs s2 !! dp = Some d) by (by rewrite Hd2).
  destruct ok; cbn [negb andb].
  - destruct H2 as (dd & k & Hnm & Hno & Hfresh & Hk & I2 & Hc). rewrite ret_bind.
    destruct (inv_dir_close w s2 _ [] _ dp d I2 Hdp2) as (s3 & E3 & I3 & V3 & Hd3 & _). rewrite (bind_ok _ _ _ _ _ E3).
    exists true, s3. split; [done|]. split; [by rewrite Hd3, Hd2, Hd1|]. split.
    + eapply same_view_trans; [done|eapply same_view_sub; [done|]|done]. intros o Ho. by constructor.
    + exists t, dd, k. split_and!; try done. rewrite <- Hc.
      destruct (ls_sectors _ _ _ _ (fi_listing _ _ _ _ _ I2) name t) as (? & ? & _).
      { exists k. by rewrite list_lookup_insert_eq by (by apply lookup_lt_Some in Hk). }
      apply (vw_content _ _ _ V3 (t, dd)); [constructor|done..].
  - destruct H2 as (I2 & St & Hno & Hlost).
    assert (exists s3, (if negb (t =? 0) then free_map_release t 1 else mret tt) s2 = Ok (tt, s3) /\ fs_inv w s3 objs [] tbl /\
      same_view s2 s3 objs /\ dirs s3 = dirs s2 /\
      (t <> 0 -> forall u, 0 <= u -> bit (free_map s3) u = negb (u =? t) && bit (free_map s2) u)) as (s3 & E3 & I3 & V3 & Hd3 & Hm3).
    { destruct (Z.eqb_spec t 0) as [->|Hz]; [by exists s2|]. destruct (St Hz) as (? & ? & ?).
      destruct (inv_release w s2 objs tbl t) as (s3 & ? & ? & ? & ? & ?); [done..|]. by exists s3. }
    rewrite (bind_ok _ _ _ _ _ E3).
    destruct (inv_dir_close w s3 objs [] tbl dp d I3) as (s4 & E4 & I4 & V4 & Hd4 & _ & Hm4); [by rewrite Hd3|]. rewrite (bind_ok _ _ _ _ _ E4).
    exists false, s4. split; [done|]. split; [by rewrite Hd4, Hd3, Hd2, Hd1|].
    split; [eapply same_view_trans; [done|by eapply same_view_trans|done]|]. split; [done|]. split; [by apply Hwhy|].
    unfold no_sectors, marks_more in *. rewrite (sk_map _ _ K1), (sk_size _ _ K1) in Hlost.
    destruct Hlost as [?|(Hbt & Ht0 & first & F1 & F2 & F3 & F4)]; [by left|right]. exists first. split_and!; [done..| |].
    + intros u Hu. split; [done|]. by apply F3.
    + intros u Hu. rewrite Hm4, (Hm3 Ht0), F4 by done. rewrite (bool_decide_false (None = Some u)) by done.
      destruct (Z.eqb_spec u t) as [->|Hne].
      * rewrite Hbt. destruct (within first (sectors_of n) t) eqn:Ew; [|done]. unfold within in Ew. reflect_bools.
        destruct (F3 t) as [[] _]; [lia|done].
      * rewrite bool_decide_false by congruence. by rewrite orb_false_r.
Qed.

(** ** Opening a file *)

Lemma inv_lookup w s objs tmp tbl dp d name junk :
  fs_inv w s objs tmp tbl -> dirs s !! dp = Some d -> Forall (fun c => c <> 0) name -> length junk = 20%nat ->
  exists r s', Filesys.lookup dp name junk s = Ok (r, s') /\ fs_inv w s' objs tmp tbl /\ same_view s s' objs /\ dirs s' = dirs s /\
    match r with
    | Some (e, ofs) => exists k, 0 <= k < len tbl /\ ofs = 20 * k /\ length e = 20%nat /\
        tbl !! Z.to_nat k = Some (Some (name, entry_sector e))
    | None => ~ has_name tbl name
    end.
Proof.
  intros I Hd Hn Hj. destruct (root_inode w s objs tmp tbl dp d I Hd) as (i & Hi & _ & Hda & _ & _ & _ & Df).
  pose proof (fi_listing _ _ _ _ _ I) as L. pose proof (ls_slots _ _ _ _ L) as Ht.
  destruct (lookup_ok s dp d i (len tbl) name junk Hd Df) as (r & s' & E & Q & Hr); [rewrite Hda, Ht; apply L|done|done|].
  rewrite Hda, Ht in Hr. destruct (inv_quiet w s s' objs tmp tbl Q I) as [I' V']. exists r, s'. split_and!; [done..|by destruct Q as [[] _]|].
  destruct r as [[e ofs]|]; [|done]. destruct Hr as (k & Hk & -> & -> & Hs). exists k. split; [done|]. split; [done|].
  split; [by eapply entry_length|].
  pose proof (slots_lookup s _ i _ k Df Hk) as Hl. rewrite Hda, Ht in Hl. rewrite Hl. by f_equal.
Qed.

Lemma inv_open_listed w s objs tmp tbl name t :
  fs_inv w s objs tmp tbl -> listed tbl name t ->
  exists p i s', inode_open t s = Ok (Some p, s') /\ fs_inv w s' objs (p :: tmp) tbl /\ same_view s s' objs /\ dirs s' = dirs s /\
    inodes s' !! p = Some i /\ i_sector i = t /\ p <> w_ip w.
Proof.
  intros I Hl. pose proof I as [Dk M Fm L R]. destruct (ls_sectors _ _ _ _ L name t Hl) as (Hz & Hr & d & Hd).
  destruct (inode_open_ok s objs _ (t, d) Dk M Hd) as (p & i & s' & E & O).
  destruct (inv_opened w s objs tmp tbl (t, d) p i s' I O Hz) as [I' V']. pose proof (op_obj _ _ _ _ _ _ _ O) as Eo. injection Eo as E1 E2.
  exists p, i, s'. split_and!; [done..|apply O|apply O|done|]. eapply not_map_inode; [done|apply O|congruence].
Qed.

(** Users of files see one more open file. *)
Record opens w s objs tbl (fd t : Z) s' : Prop := {
  os_inv : fs_inv w s' objs [] tbl;
  os_fresh : files s !! fd = None /\ fd <> w_fp w;
  os_files : exists p, files s' = <[fd := mkFile p 0 false]> (files s) /\ sector_of s' p = t;
  os_sectors q f : files s !! q = Some f -> sector_of s' (f_inode f) = sector_of s (f_inode f);
  os_content o : o ∈ objs -> o.1 <> FREE_MAP_SECTOR -> o.1 <> ROOT_DIR_SECTOR ->
    content (fs_device s') o.2 = content (fs_device s) o.2;
  os_dirs : dirs s' = dirs s
}.
Lemma opens_after w s0 s objs tbl fd t s' : same_view s0 s objs -> dirs s = dirs s0 -> opens w s objs tbl fd t s' -> opens w s0 objs tbl fd t s'.
Proof.
  intros [V1 V2 V3] Hd [O1 O2 (p & O3 & O4) O5 O6 O7]. split; try done.
  - by rewrite <- V1.
  - exists p. by rewrite <- V1.
  - intros q f Hq. rewrite (O5 q), (V2 q) by congruence. done.
  - intros o Ho Hz Hr. rewrite O6, V3 by done. done.
  - congruence.
Qed.

Lemma inv_file_open w s objs tbl p i :
  fs_inv w s objs [p] tbl -> inodes s !! p = Some i -> i_sector i <> FREE_MAP_SECTOR -> i_sector i <> ROOT_DIR_SECTOR ->
  exists fd s', file_open (Some p) s = Ok (Some fd, s') /\ opens w s objs tbl fd (i_sector i) s'.
Proof.
  intros I Hp Hz Hr. pose proof I as [Dk M Fm L R].
  destruct (file_open_ok s objs [] p M) as (fd & s' & E & K & Si & Sd & Hfr & Sf & M'). exists fd, s'. split; [done|].
  assert (Hc : forall x, x ∈ objs -> content (fs_device s') x.2 = content (fs_device s) x.2).
  { intros x Hx. apply same_disk_content; [done|]. by apply (ds_obj _ _ Dk). }
  destruct (mf_file _ _ _ _ (fm_file _ _ _ _ _ Fm)) as [pos Hfp].
  assert (Hne : fd <> w_fp w) by (intros ->; congruence).
  split; [split| | | | |]; try done.
  - by apply (same_disk_disk s).
  - apply (same_disk_fmap s); [done|by rewrite Si| |done]. by rewrite Sf, lookup_insert_ne.
  - eapply listing_frame; [done| |apply L|done]. apply (Hc _ (ls_obj _ _ _ _ L)).
  - split; rewrite ?Si, ?Sf, ?Sd; try apply R.
    + intros q f j [[<- <-]|[_ Hq]]%lookup_insert_Some Hnq; [|by apply (ro_files _ _ _ R q)]. simpl. rewrite Hp. by intros [= <-].
    + intros q f [[<- <-]|[_ Hq]]%lookup_insert_Some Hnq; [simpl; lia|by apply (ro_pos _ _ _ R q)].
  - exists p. split; [done|]. unfold sector_of. by rewrite Si, Hp.
  - intros q f _. unfold sector_of. by rewrite Si.
  - intros o Ho _ _. by apply Hc.
Qed.

Lemma filesys_open_ok w s objs tbl name junk :
  fs_inv w s objs [] tbl -> Forall (fun c => c <> 0) name -> length junk = 20%nat ->
  exists r s', filesys_open name junk s = Ok (r, s') /\
    match r with
    | Some fd => exists t, listed tbl name t /\ opens w s objs tbl fd t s'
    | None => ~ has_name tbl name /\ fs_inv w s' objs [] tbl /\ same_view s s' objs /\ dirs s' = dirs s
    end.
Proof.
  intros I Hn Hj. unfold filesys_open.
  destruct (inv_dir_open_root w s objs tbl I) as (dp & d & s1 & E1 & I1 & V1 & Hfr & Hd1 & K1). rewrite (bind_ok _ _ _ _ _ E1).
  assert (Hdp : dirs s1 !! dp = Some d) by (by rewrite Hd1, lookup_insert_eq).
  assert (Hdel : delete dp (<[dp := d]> (dirs s)) = dirs s) by (by apply delete_insert_id). unfold dir_lookup.
  destruct (inv_lookup w s1 objs [] tbl dp d name junk I1 Hdp Hn Hj) as (r & s2 & E2 & I2 & V2 & Hd2 & Hr).
  rewrite bind_assoc, (bind_ok _ _ _ _ _ E2). pose proof (same_view_trans _ _ _ _ _ V1 V2 (fun _ H => H)) as V12.
  destruct r as [[e ofs]|].
  - destruct Hr as (k & Hk & -> & He & Hl). set (t := entry_sector e) in *.
    assert (Hlt : listed tbl name t) by (by eexists).
    destruct (inv_open_listed w s2 objs [] tbl name t I2 Hlt) as (p & i & s3 & E3 & I3 & V3 & Hd3 & Hp & Hse & Hip).
    rewrite (bind_ok _ _ _ _ _ E3).
    destruct (inv_dir_close w s3 objs [p] tbl dp d I3) as (s4 & E4 & I4 & V4 & Hd4 & Hsec & _); [by rewrite Hd3, Hd2|].
    rewrite (bind_ok _ _ _ _ _ E4). destruct (mm_tmp _ _ _ (fi_mem _ _ _ _ _ I4) p) as [j Hj4]; [constructor|].
    assert (Hsj : i_sector j = t).
    { rewrite <- (sector_of_some _ _ _ Hj4), Hsec by constructor. by rewrite (sector_of_some _ _ _ Hp). }
    destruct (ls_sectors _ _ _ _ (fi_listing _ _ _ _ _ I) name t Hlt) as (Hz & Hrt & _).
    destruct (inv_file_open w s4 objs tbl p j I4 Hj4) as (fd & s5 & E5 & O5); [congruence..|].
    exists (Some fd), s5. split; [done|]. exists t. split; [done|]. rewrite Hsj in O5. eapply (opens_after w s s4); [| |done].
    + eapply same_view_trans; [done|by eapply same_view_trans|done].
    + by rewrite Hd4, Hd3, Hd2, Hd1.
  - rewrite ret_bind. destruct (inv_dir_close w s2 objs [] tbl dp d I2) as (s3 & E3 & I3 & V3 & Hd3 & _); [by rewrite Hd2|].
    rewrite (bind_ok _ _ _ _ _ E3). destruct (alloc_ok s3 (mm_memory _ _ _ (fi_mem _ _ _ _ _ I3))) as (q & s4 & E4 & Q4 & _).
    destruct (inv_quiet w s3 s4 objs [] tbl Q4 I3) as [I4 V4]. exists None, s4. unfold file_open. rewrite (bind_ok _ _ _ _ _ E4).
    split; [done|]. split_and!; [done..| |].
    + eapply same_view_trans; [done|by eapply same_view_trans|done].
    + destruct Q4 as [[_ _ _ _ _ -> _ _ _ _] _]. by rewrite Hd3, Hd2, Hd1.
Qed.

End Ops.
