(* ===== verification/FsFiles.v ===== *)
(** Removing names (filesys/filesys.c, filesys/directory.c) and the operations on open
    files (filesys/file.c) preserve the invariant and do what they say. *)

From stdpp Require Import gmap.
From S2P Require Import Prelude KMonad Bytes Bitmap Block Filesys InodeOk FreeMapOk FsInv FsCreate FsOpen FsHandles FsDir FsWorld FsOps.

Section Files.
Context {D : Type} `{!BlockDevice D}.
Implicit Types (s : fs D) (objs : list obj) (tmp : list Z) (h : handles) (w : world) (tbl : list (option (list Z * Z))) (F : gmap Z file).

(** ** Who refers to a file *)

Definition used_by w s F (t : Z) : Prop := exists q f, F !! q = Some f /\ q <> w_fp w /\ sector_of s (f_inode f) = t.

Lemma refs_used w s objs tmp tbl F p i :
  fs_inv w s objs tmp tbl -> F ⊆ files s -> inodes s !! p = Some i ->
  i_sector i <> FREE_MAP_SECTOR -> i_sector i <> ROOT_DIR_SECTOR ->
  let r := refs (mkHandles F (dirs s) []) p in 0 <= r /\ (used_by w s F (i_sector i) <-> r <> 0).
Proof.
  intros I HF Hp Hz Hr. cbv zeta. pose proof I as [Dk M Fm L R]. unfold refs. simpl.
  rewrite (holders_zero (dirs s)).
  2:{ intros q d Hq. apply Z.eqb_neq. intros <-. apply Hr. by apply (ro_dirs _ _ _ R q d). }
  assert (E0 : count p [] = 0) by done. rewrite E0, !Z.add_0_r. pose proof (holders_nonneg F (fun f => f_inode f =? p)) as Hn. split; [done|].
  split.
  - intros (q & f & Hq & Hne & Hs). assert (Hp' : f_inode f = p).
    { pose proof (lookup_weaken _ _ _ _ Hq HF) as Hq'. destruct (mm_files _ _ _ M q f Hq') as [[j Hj] _].
      eapply (mm_inj _ _ _ M); [done|done|]. by rewrite <- Hs, (sector_of_some _ _ _ Hj). }
    pose proof (holders_pos F (fun f => f_inode f =? p) q f Hq) as H. simpl in H. rewrite Hp', Z.eqb_refl in H. lia.
  - intros Hnz. destruct (decide (map_Exists (fun q f => f_inode f = p) F)) as [(q & f & Hq & Hf)|Hno].
    + exists q, f. split; [done|]. rewrite Hf, (sector_of_some _ _ _ Hp). split; [|done]. intros ->.
      pose proof (lookup_weaken _ _ _ _ Hq HF) as Hq'. destruct (mf_file _ _ _ _ (fm_file _ _ _ _ _ Fm)) as [pos Hfp].
      rewrite Hfp in Hq'. injection Hq' as <-. simpl in Hf. subst p. rewrite (map_inode _ _ _ _ _ I) in Hp. injection Hp as <-.
      apply Hz, R.
    + destruct Hnz. apply holders_zero. intros q f Hq. apply Z.eqb_neq. intros Hf. apply Hno. by exists q, f.
Qed.

(** ** Removing a name *)

Lemma inv_set_removed w s objs tmp tbl p i :
  fs_inv w s objs tmp tbl -> inodes s !! p = Some i -> i_sector i <> FREE_MAP_SECTOR -> i_sector i <> ROOT_DIR_SECTOR ->
  (forall name, ~ listed tbl name (i_sector i)) ->
  let i' := mkInode (i_sector i) (open_cnt i) true (deny_write_cnt i) (data i) in
  let s' := set_inodes (<[p := i']> (inodes s)) (open_inodes s) s in
  inode_remove p s = Ok (tt, s') /\ fs_inv w s' objs tmp tbl /\ same_view s s' objs.
Proof.
  intros I Hp Hz Hr Hl i' s'. pose proof I as [Dk M Fm L R]. split.
  { unfold inode_remove. by rewrite (bind_ok _ _ _ _ _ (get_inode_ok s p i Hp)). }
  destruct (mm_inode _ _ _ M p i Hp) as [I1 I2 I3 I4 I5]. pose proof (not_map_inode _ _ _ _ _ p i I Hp Hz) as Hip.
  assert (Hlook : forall q j, inodes s' !! q = Some j -> exists j0, inodes s !! q = Some j0 /\ i_sector j = i_sector j0 /\
    (removed j = true -> removed j0 = true \/ q = p)).
  { intros q j. simpl. intros [[<- <-]|[Hne Hq]]%lookup_insert_Some; [exists i|exists j]; (split; [done|]); (split; [done|]); [by right|by left]. }
  split; [split|split].
  - by apply (same_disk_disk s).
  - apply (mem_update s objs (held s tmp) (held s tmp) p i i'); try done. split; [done|apply M..].
  - apply (same_disk_fmap s); [done| |done|done]. simpl. by rewrite lookup_insert_ne.
  - by split; try apply L.
  - split; [apply R| |apply R| |].
    + intros q f j Hq Hne Hj. destruct (Hlook _ _ Hj) as (j0 & H0 & -> & _). by eapply (ro_files _ _ _ R q f).
    + intros q d j Hq Hj. destruct (Hlook _ _ Hj) as (j0 & H0 & -> & _). by eapply (ro_dirs _ _ _ R q d).
    + intros q j Hj Hrm. destruct (Hlook _ _ Hj) as (j0 & H0 & -> & Hor). destruct (Hor Hrm) as [Hrm0 | ->].
      * by apply (ro_removed _ _ _ R q).
      * assert (j0 = i) as -> by congruence. done.
  - done.
  - intros q f _. unfold sector_of. simpl. destruct (decide (f_inode f = p)) as [->|Hne]; [by rewrite lookup_insert_eq, Hp|].
    by rewrite lookup_insert_ne.
  - done.
Qed.

(** The table without a name. *)
Lemma inv_drop_name w s s' objs tmp tbl k :
  changes (in_file (w_rd w)) s s' -> fs_inv w s objs tmp tbl -> slots (content (fs_device s') (w_rd w)) = <[k := None]> tbl ->
  fs_inv w s' objs tmp (<[k := None]> tbl) /\ same_view s s' objs.
Proof.
  intros C I Hs. pose proof I as [Dk M Fm L R].
  assert (Hcase : forall j x, <[k := None]> tbl !! j = Some (Some x) -> tbl !! j = Some (Some x)).
  { by intros j x [(_ & [=] & _)|[_ Hj]]%list_lookup_insert_Some. }
  eapply (inv_root w s s' objs tmp tbl); [done|done|done|by rewrite length_insert| | | | |].
  - intros j name t Hj%Hcase. by eapply (ls_names _ _ _ _ L).
  - intros name t [j Hj%Hcase]. apply (ls_sectors _ _ _ _ L name). by exists j.
  - intros j j' x t1 t2 Hj%Hcase Hj'%Hcase. by eapply (ls_name_inj _ _ _ _ L).
  - intros j j' x x' t1 Hj%Hcase Hj'%Hcase. by eapply (ls_sector_inj _ _ _ _ L).
  - intros p i name Hp Hrm [j Hj%Hcase]. destruct (ro_removed _ _ _ R p i Hp Hrm) as (_ & _ & H). apply (H name). by exists j.
Qed.

Lemma used_same w s s' objs t : same_view s s' objs -> used_by w s' (files s') t <-> used_by w s (files s) t.
Proof.
  intros [V1 V2 _]. unfold used_by. rewrite V1. split; intros (q & f & Hq & Hne & Hs); exists q, f; (split; [done|]); (split; [done|]).
  - by rewrite <- (V2 q f Hq).
  - by rewrite (V2 q f Hq).
Qed.

(** What becomes of the objects when a file loses its name or its last user. *)
Definition dropped w s objs (t : Z) objs' : Prop :=
  (used_by w s (files s) t -> objs' = objs) /\ (~ used_by w s (files s) t -> exists d, objs ≡ₚ (t, d) :: objs').

(** The inode of a name that is gone: marked and closed. *)
Lemma remove_and_close w s objs tbl p i :
  fs_inv w s objs [p] tbl -> inodes s !! p = Some i -> i_sector i <> FREE_MAP_SECTOR -> i_sector i <> ROOT_DIR_SECTOR ->
  (forall name, ~ listed tbl name (i_sector i)) ->
  exists objs' s', (ok ← (inode_remove p;; mret true); inode_close (Some p);; mret ok) s = Ok (true, s') /\
    fs_inv w s' objs' [] tbl /\ same_view s s' objs' /\ dirs s' = dirs s /\ dropped w s objs (i_sector i) objs' /\
    forall o, o ∈ objs' -> o ∈ objs.
Proof.
  intros I Hp Hz Hr Hl. destruct (inv_set_removed w s objs [p] tbl p i I Hp Hz Hr Hl) as (E1 & I1 & V1).
  set (i' := mkInode (i_sector i) (open_cnt i) true (deny_write_cnt i) (data i)) in *.
  set (s1 := set_inodes (<[p := i']> (inodes s)) (open_inodes s) s) in *.
  assert (Hp1 : inodes s1 !! p = Some i') by (simpl; by rewrite lookup_insert_eq).
  destruct (inv_inode_close w s1 objs [] tbl p i' I1 Hp1) as (objs' & s2 & E2 & I2 & V2 & Hd2 & Hg);
    [by eapply (not_map_inode w s objs [p] tbl p i)|].
  exists objs', s2. rewrite bind_assoc, (bind_ok _ _ _ _ _ E1), ret_bind, (bind_ok _ _ _ _ _ E2). split; [done|].
  assert (Hsub : forall o, o ∈ objs' -> o ∈ objs).
  { intros o Ho. destruct (gone i'); [|by subst]. rewrite Hg. by constructor. }
  split; [done|]. split; [eapply same_view_trans; [by eapply same_view_sub|done|done]|]. split; [done|].
  destruct (refs_used w s objs [p] tbl (files s) p i I) as [Hn Hu]; [done..|]. cbv zeta in Hn, Hu.
  pose proof (io_cnt _ _ _ _ _ (mm_inode _ _ _ (fi_mem _ _ _ _ _ I) p i Hp)) as Hcnt.
  change (held s [p]) with (hold p (mkHandles (files s) (dirs s) [])) in Hcnt. rewrite refs_hold, Z.eqb_refl in Hcnt. simpl in Hcnt.
  unfold gone in Hg. simpl in Hg. rewrite andb_true_r in Hg. split; [|done]. split.
  - intros Hus%Hu. rewrite (proj2 (Z.eqb_neq (open_cnt i) 1)) in Hg by lia. done.
  - intros Hus. destruct (Z.eqb_spec (open_cnt i) 1) as [_|Hne]; [by exists (data i)|]. destruct Hus. apply Hu. lia.
Qed.

Lemma inv_dir_remove w s objs tbl dp d name junk :
  fs_inv w s objs [] tbl -> dirs s !! dp = Some d -> Forall (fun c => c <> 0) name -> length junk = 20%nat ->
  exists ok objs' s', dir_remove dp name junk s = Ok (ok, s') /\ dirs s' = dirs s /\ same_view s s' objs' /\
    (forall o, o ∈ objs' -> o ∈ objs) /\
    (if (ok : bool) then exists k t, tbl !! k = Some (Some (name, t)) /\ fs_inv w s' objs' [] (<[k := None]> tbl) /\ dropped w s objs t objs'
     else objs' = objs /\ ~ has_name tbl name /\ fs_inv w s' objs [] tbl).
Proof.
  intros I Hdp Hn Hj. unfold dir_remove.
  destruct (inv_lookup w s objs [] tbl dp d name junk I Hdp Hn Hj) as (r & s1 & E1 & I1 & V1 & Hd1 & Hr). rewrite (bind_ok _ _ _ _ _ E1).
  destruct r as [[e ofs]|]; [|by exists false, objs, s1]. destruct Hr as (k & Hk & -> & He & Hl). set (t := entry_sector e) in *.
  assert (Hlt : listed tbl name t) by (by eexists). destruct (ls_sectors _ _ _ _ (fi_listing _ _ _ _ _ I) name t Hlt) as (Hz & Hrt & _).
  destruct (inv_open_listed w s1 objs [] tbl name t I1 Hlt) as (p & i & s2 & E2 & I2 & V2 & Hd2 & Hp & Hse & Hip).
  rewrite (bind_ok _ _ _ _ _ E2). assert (Hdp2 : dirs s2 !! dp = Some d) by (by rewrite Hd2, Hd1).
  rewrite (bind_ok _ _ _ _ _ (get_dir_ok s2 dp d Hdp2)).
  destruct (root_inode w s2 objs [p] tbl dp d I2 Hdp2) as (ir & Hir & _ & Hda & _ & Hdn & _ & Df).
  destruct (free_entry_slot e He) as [Hel Hsl].
  destruct (write_entry_ok s2 (d_inode d) ir (len tbl) k (splice e 19 [0]) Df Hdn Hk Hel) as (s3 & E3 & C3 & Htbl).
  rewrite (bind_ok _ _ _ _ _ E3). cbn [Z.eqb Pos.eqb DIR_ENTRY_SIZE]. rewrite Hda, Hsl, (ls_slots _ _ _ _ (fi_listing _ _ _ _ _ I2)) in *.
  destruct (inv_drop_name w s2 s3 objs [p] tbl (Z.to_nat k) C3 I2 Htbl) as [I3 V3].
  pose proof (changes_same_objects _ _ _ C3) as [_ Si _ Sf Sd _].
  destruct (remove_and_close w s3 objs _ p i I3) as (objs' & s4 & E4 & I4 & V4 & Hd4 & Hdr & Hsub); [by rewrite Si|congruence..| |].
  { intros x [j Hj']. apply list_lookup_insert_Some in Hj' as [(_ & [=] & _)|[Hne Hj']]. apply Hne.
    eapply (ls_sector_inj _ _ _ _ (fi_listing _ _ _ _ _ I)); [exact Hl|]. by rewrite Hse in Hj'. }
  exists true, objs', s4. split; [exact E4|]. split; [congruence|].
  pose proof (same_view_trans _ _ _ _ _ V1 (same_view_trans _ _ _ _ _ V2 V3 (fun _ H => H)) (fun _ H => H)) as V13.
  assert (Hdrop : dropped w s objs t objs').
  { destruct Hdr as [Dr1 Dr2]. rewrite Hse in *. split; intros Hu; [apply Dr1|apply Dr2]; rewrite (used_same w s s3 objs) by done; done. }
  split; [|split; [done|by exists (Z.to_nat k), t]]. by eapply same_view_trans.
Qed.

Lemma dropped_same w s s' objs0 objs t objs' : same_view s s' objs0 -> dropped w s' objs t objs' -> dropped w s objs t objs'.
Proof. intros V [D1 D2]. split; intros Hu; [apply D1|apply D2]; by rewrite (used_same w s s' objs0). Qed.

Lemma filesys_remove_ok w s objs tbl name junk :
  fs_inv w s objs [] tbl -> Forall (fun c => c <> 0) name -> length junk = 20%nat ->
  exists ok objs' s', filesys_remove name junk s = Ok (ok, s') /\ dirs s' = dirs s /\ same_view s s' objs' /\
    (forall o, o ∈ objs' -> o ∈ objs) /\
    (if (ok : bool) then exists k t, tbl !! k = Some (Some (name, t)) /\ fs_inv w s' objs' [] (<[k := None]> tbl) /\ dropped w s objs t objs'
     else objs' = objs /\ ~ has_name tbl name /\ fs_inv w s' objs [] tbl).
Proof.
  intros I Hn Hj. unfold filesys_remove.
  destruct (inv_dir_open_root w s objs tbl I) as (dp & d & s1 & E1 & I1 & V1 & Hfr & Hd1 & K1). rewrite (bind_ok _ _ _ _ _ E1).
  assert (Hdp : dirs s1 !! dp = Some d) by (by rewrite Hd1, lookup_insert_eq).
  assert (Hdel : delete dp (<[dp := d]> (dirs s)) = dirs s) by (by apply delete_insert_id).
  destruct (inv_dir_remove w s1 objs tbl dp d name junk I1 Hdp Hn Hj) as (ok & objs' & s2 & E2 & Hd2 & V2 & Hsub & H2).
  rewrite (bind_ok _ _ _ _ _ E2). assert (Hdp2 : dirs s2 !! dp = Some d) by (by rewrite Hd2).
  assert (exists tbl', fs_inv w s2 objs' [] tbl') as [tbl2 I2].
  { destruct ok; [destruct H2 as (k & t & _ & ? & _)|destruct H2 as (-> & _ & ?)]; by eexists. }
  destruct (inv_dir_close w s2 objs' [] tbl2 dp d I2 Hdp2) as (s3 & E3 & _ & V3 & Hd3 & _).
  rewrite (bind_ok _ _ _ _ _ E3). exists ok, objs', s3. split; [done|]. split; [by rewrite Hd3, Hd2, Hd1|].
  split; [eapply same_view_trans; [done|by eapply same_view_trans|done]|]. split; [done|]. destruct ok.
  - destruct H2 as (k & t & Hk & I2' & Hdr). exists k, t. split; [done|]. split; [|by eapply dropped_same].
    destruct (inv_dir_close w s2 objs' [] _ dp d I2' Hdp2) as (s3' & E3' & I3 & _). congruence.
  - destruct H2 as (-> & Hno & I2'). split_and!; [done..|].
    destruct (inv_dir_close w s2 objs [] _ dp d I2' Hdp2) as (s3' & E3' & I3 & _). congruence.
Qed.

(** ** Open files *)

Lemma set_inodes_id s p i : inodes s !! p = Some i -> set_inodes (<[p := i]> (inodes s)) (open_inodes s) s = s.
Proof. intros H. rewrite insert_id by done. by destruct s. Qed.

(** A change of an open file, and of how often its inode is protected. *)
Definition with_file s (q : Z) (f' : file) (i' : inode) : fs D :=
  set_inodes (<[f_inode f' := i']> (inodes s)) (open_inodes s) (set_files (<[q := f']> (files s)) s).
Definition protect (i : inode) (f f' : file) : inode :=
  mkInode (i_sector i) (open_cnt i) (removed i) (deny_write_cnt i + one (deny_write f') - one (deny_write f)) (data i).

Lemma set_file_mem s objs q f f' i :
  mem_ok s objs (held s []) -> files s !! q = Some f -> f_inode f' = f_inode f -> inodes s !! f_inode f = Some i ->
  mem_ok (with_file s q f' (protect i f f')) objs (held (with_file s q f' (protect i f f')) []).
Proof.
  intros M Hq Ef Hi. unfold with_file, held. simpl. rewrite Ef. set (h' := mkHandles (<[q := f']> (files s)) (dirs s) []).
  assert (M' : mem_ok (set_inodes (<[f_inode f := protect i f f']> (inodes s)) (open_inodes s) s) objs h').
  { destruct (mm_inode _ _ _ M _ _ Hi) as [I1 I2 I3 I4 I5].
    apply (mem_update s objs (held s []) h' (f_inode f) i); try done; unfold refs, deniers, h', held in *; simpl in *.
    - rewrite (holders_update (files s) _ q f f' Hq), Ef. lia.
    - rewrite (holders_update (files s) _ q f f' Hq), Ef, Z.eqb_refl. simpl. lia.
    - split; simpl; try apply M.
      + intros x Hx. unfold refs, deniers. simpl. rewrite !(holders_update (files s) _ q f f' Hq), Ef.
        rewrite (proj2 (Z.eqb_neq (f_inode f) x)) by done. simpl. split; lia.
      + intros k g [[<- <-]|[_ Hk]]%lookup_insert_Some; [|by apply (mm_files _ _ _ M k)]. rewrite Ef. by apply (mm_files _ _ _ M q). }
  destruct M' as [M1 M2 M3 M4 M5 M6 M7 M8]. split; try done.
  intros p j Hp. destruct (M4 p j Hp). by split.
Qed.

Lemma inv_set_file w s objs tbl q f f' i :
  fs_inv w s objs [] tbl -> files s !! q = Some f -> q <> w_fp w -> f_inode f' = f_inode f -> 0 <= f_pos f' < 2 ^ 31 ->
  inodes s !! f_inode f = Some i ->
  fs_inv w (with_file s q f' (protect i f f')) objs [] tbl /\
  (forall p, sector_of (with_file s q f' (protect i f f')) p = sector_of s p).
Proof.
  intros I Hq Hne Ef Hpos Hi. pose proof I as [Dk M Fm L R].
  assert (Hsec : forall p, sector_of (with_file s q f' (protect i f f')) p = sector_of s p).
  { intros p. unfold sector_of. simpl. rewrite Ef. destruct (decide (p = f_inode f)) as [->|Hn]; [by rewrite lookup_insert_eq, Hi|].
    by rewrite lookup_insert_ne. }
  split; [|done]. destruct (ro_files _ _ _ R q f i Hq Hne Hi) as [Hz Hr]. pose proof (not_map_inode _ _ _ _ _ _ i I Hi Hz) as Hip. split.
  - by apply (same_disk_disk s).
  - by apply set_file_mem.
  - apply (same_disk_fmap s); [done| |simpl; by rewrite lookup_insert_ne|done]. simpl. by rewrite Ef, lookup_insert_ne.
  - by split; try apply L.
  - eapply roles_change; [done|done| | |].
    + intros p j. simpl. rewrite Ef. intros [[<- <-]|[_ Hp]]%lookup_insert_Some; left; [by exists i|by exists j].
    + simpl. intros x g [[<- <-]|[_ Hx]]%lookup_insert_Some; [exists f|exists g].
      * by left.
      * destruct (decide (x = w_fp w)); [by right|left]. split; [done|]. split; [done|]. by apply (ro_pos _ _ _ R x).
    + simpl. eauto.
Qed.

(** The inode of an open file. *)
Lemma file_inode w s objs tbl q f :
  fs_inv w s objs [] tbl -> files s !! q = Some f -> q <> w_fp w ->
  exists i, inodes s !! f_inode f = Some i /\ (i_sector i, data i) ∈ objs /\ readable s (f_inode f) i /\
    i_sector i <> FREE_MAP_SECTOR /\ i_sector i <> ROOT_DIR_SECTOR /\ 0 <= f_pos f < 2 ^ 31.
Proof.
  intros I Hq Hne. pose proof I as [Dk M Fm L R]. destruct (mm_files _ _ _ M q f Hq) as [[i Hi] _]. exists i.
  destruct (mm_inode _ _ _ M _ _ Hi) as [I1 _ _ _ _]. destruct (ro_files _ _ _ R q f i Hq Hne Hi).
  pose proof (ro_pos _ _ _ R q f Hq Hne). split; [done|]. split; [done|]. split; [|done].
  split; [done|apply Dk|by apply (ds_obj _ _ Dk (i_sector i, data i))|apply M].
Qed.

Record updates w s objs tbl (q : Z) (f' : file) s' : Prop := {
  up_inv : fs_inv w s' objs [] tbl;
  up_files : files s' = <[q := f']> (files s);
  up_sectors x g : files s !! x = Some g -> sector_of s' (f_inode g) = sector_of s (f_inode g);
  up_dirs : dirs s' = dirs s
}.
Definition same_contents s s' objs : Prop := forall o, o ∈ objs -> o.1 <> FREE_MAP_SECTOR -> o.1 <> ROOT_DIR_SECTOR ->
  content (fs_device s') o.2 = content (fs_device s) o.2.

Lemma put_file_ok w s objs tbl q f f' i :
  fs_inv w s objs [] tbl -> files s !! q = Some f -> q <> w_fp w -> f_inode f' = f_inode f -> 0 <= f_pos f' < 2 ^ 31 ->
  inodes s !! f_inode f = Some i -> deny_write f' = deny_write f ->
  updates w s objs tbl q f' (set_files (<[q := f']> (files s)) s).
Proof.
  intros I Hq Hne Ef Hpos Hi Hd. destruct (inv_set_file w s objs tbl q f f' i I Hq Hne Ef Hpos Hi) as [I' Hs].
  assert (E : with_file s q f' (protect i f f') = set_files (<[q := f']> (files s)) s).
  { unfold with_file, protect. rewrite Hd, Z.add_simpl_r, Ef.
    replace (mkInode (i_sector i) (open_cnt i) (removed i) (deny_write_cnt i) (data i)) with i by (by destruct i).
    by apply (set_inodes_id (set_files (<[q := f']> (files s)) s)). }
  rewrite E in *. split; [done|done|intros; apply Hs|done].
Qed.
Lemma get_file_user s q f : files s !! q = Some f -> get_file q s = Ok (f, s).
Proof. intros H. unfold get_file. erewrite bind_ok by reflexivity. by rewrite H. Qed.
(** An update after a step that leaves the open files as they are. *)
Lemma updates_after w s0 s objs tbl q f' s' :
  files s = files s0 -> inodes s = inodes s0 -> dirs s = dirs s0 -> updates w s objs tbl q f' s' -> updates w s0 objs tbl q f' s'.
Proof.
  intros Ef Ei Ed [U1 U2 U3 U4]. split; [done|congruence| |congruence]. intros x g Hx. rewrite (U3 x g) by congruence.
  unfold sector_of. by rewrite Ei.
Qed.

Lemma file_seek_ok w s objs tbl q f pos :
  fs_inv w s objs [] tbl -> files s !! q = Some f -> q <> w_fp w -> 0 <= pos < 2 ^ 31 ->
  exists s', file_seek q pos s = Ok (tt, s') /\ updates w s objs tbl q (mkFile (f_inode f) pos (deny_write f)) s' /\ same_contents s s' objs.
Proof.
  intros I Hq Hne Hpos. destruct (file_inode w s objs tbl q f I Hq Hne) as (i & Hi & _). eexists. split.
  { unfold file_seek. rewrite (bind_ok _ _ _ _ _ (get_file_user s q f Hq)), ASSERT_true by (apply Z.leb_le; lia). reflexivity. }
  split; [|done]. by apply (put_file_ok w s objs tbl q f _ i).
Qed.

Lemma file_read_ok w s objs tbl q f i size :
  fs_inv w s objs [] tbl -> files s !! q = Some f -> q <> w_fp w -> inodes s !! f_inode f = Some i ->
  let bs := slice (content (fs_device s) (data i)) (f_pos f) (Z.min size (length_ (data i) - f_pos f)) in
  exists s', file_read q size s = Ok (bs, s') /\ updates w s objs tbl q (mkFile (f_inode f) (f_pos f + len bs) (deny_write f)) s' /\
    same_contents s s' objs.
Proof.
  intros I Hq Hne Hi. destruct (file_inode w s objs tbl q f I Hq Hne) as (i' & Hi' & _ & R & _ & _ & Hpos). assert (i' = i) as -> by congruence.
  cbv zeta. set (bs := slice _ _ _). destruct (inode_read_ok s (f_inode f) i size (f_pos f) R Hpos) as (s1 & E1 & Q1). fold bs in E1.
  destruct (inv_quiet w s s1 objs [] tbl Q1 I) as [I1 V1]. pose proof Q1 as [[_ _ Si _ Sf Sd _ _ _ _] _].
  assert (Hbs : 0 <= f_pos f + len bs < 2 ^ 31).
  { pose proof (content_length _ _ (rd_ok _ _ _ R) (rd_extent _ _ _ R)) as Hc. pose proof (ex_length _ _ (rd_extent _ _ _ R)).
    unfold bs, slice. rewrite length_take, length_drop. lia. }
  eexists. split.
  { unfold file_read. rewrite (bind_ok _ _ _ _ _ (get_file_user s q f Hq)), (bind_ok _ _ _ _ _ E1).
    rewrite wraps_small by (change (32 - 1) with 31; lia). reflexivity. }
  split.
  - eapply (updates_after w s s1); [done..|]. apply (put_file_ok w s1 objs tbl q f _ i); done || congruence.
  - intros o Ho Hz Hr. apply (vw_content _ _ _ V1 o Ho Hz Hr).
Qed.

(** A change inside a file. *)
Lemma inv_file_change w s s' objs tbl (o : obj) :
  changes (in_file o.2) s s' -> fs_inv w s objs [] tbl -> o ∈ objs -> o.1 <> FREE_MAP_SECTOR -> o.1 <> ROOT_DIR_SECTOR ->
  fs_inv w s' objs [] tbl /\ (forall o', o' ∈ objs -> o' <> o -> content (fs_device s') o'.2 = content (fs_device s) o'.2).
Proof.
  intros C I Ho Hz Hr. pose proof I as [Dk M Fm L R]. pose proof (changes_same_objects _ _ _ C) as [_ S2 _ S4 S5 _].
  assert (Hc : forall o', o' ∈ objs -> o' <> o -> content (fs_device s') o'.2 = content (fs_device s) o'.2).
  { intros o' Ho' Hne. eapply changes_content; [done|by apply (ds_obj _ _ Dk)|]. intros t Hin. by apply (files_apart s objs o o'). }
  split; [|done]. split.
  - eapply changes_disk; [done..|]. intros o' Ho'. by apply (file_change_keeps s objs o).
  - unfold held. rewrite S4, S5. by eapply changes_mem.
  - eapply changes_fmap; [done..|]. intros t Hin. apply (files_apart s objs o (i_sector (w_im w), data (w_im w))); try done.
    + apply Fm.
    + by eapply file_not_map.
  - eapply listing_frame; [done| |apply L|done]. apply (Hc (ROOT_DIR_SECTOR, w_rd w)); [apply L|]. intros <-. done.
  - eapply roles_same; [done|done| |done|done]. by apply inodes_from_same.
Qed.

(** Some user protects the file. *)
Definition protected w s (t : Z) : Prop := exists q f, files s !! q = Some f /\ q <> w_fp w /\ sector_of s (f_inode f) = t /\ deny_write f = true.
Lemma protected_count w s objs tbl p i :
  fs_inv w s objs [] tbl -> inodes s !! p = Some i -> i_sector i <> FREE_MAP_SECTOR -> deny_write_cnt i <> 0 <-> protected w s (i_sector i).
Proof.
  intros I Hp Hz. pose proof I as [Dk M Fm L R]. rewrite (io_deny _ _ _ _ _ (mm_inode _ _ _ M p i Hp)). unfold deniers. simpl.
  destruct (mf_file _ _ _ _ (fm_file _ _ _ _ _ Fm)) as [pos Hfp]. split.
  - intros Hnz. destruct (decide (map_Exists (fun q f => f_inode f = p /\ deny_write f = true) (files s))) as [(q & f & Hq & Hf & Hd)|Hno].
    + exists q, f. rewrite Hf, (sector_of_some _ _ _ Hp). split_and!; try done. intros ->. rewrite Hfp in Hq. by injection Hq as <-.
    + destruct Hnz. apply holders_zero. intros q f Hq. destruct (Z.eqb_spec (f_inode f) p) as [Hf|]; [|done]. simpl.
      destruct (deny_write f) eqn:Hd; [|done]. destruct Hno. by exists q, f.
  - intros (q & f & Hq & Hne & Hs & Hd). assert (Hp' : f_inode f = p).
    { destruct (mm_files _ _ _ M q f Hq) as [[j Hj] _]. eapply (mm_inj _ _ _ M); [done|done|]. by rewrite <- Hs, (sector_of_some _ _ _ Hj). }
    pose proof (holders_pos (files s) (fun f => (f_inode f =? p) && deny_write f) q f Hq) as H. simpl in H.
    rewrite Hp', Z.eqb_refl, Hd in H. specialize (H eq_refl). lia.
Qed.

Lemma file_write_ok w s objs tbl q f i buffer size :
  fs_inv w s objs [] tbl -> files s !! q = Some f -> q <> w_fp w -> inodes s !! f_inode f = Some i -> size <= len buffer ->
  exists n s', file_write q buffer size s = Ok (n, s') /\ updates w s objs tbl q (mkFile (f_inode f) (f_pos f + n) (deny_write f)) s' /\
    (forall o, o ∈ objs -> o.1 <> FREE_MAP_SECTOR -> o.1 <> ROOT_DIR_SECTOR -> o <> (i_sector i, data i) ->
       content (fs_device s') o.2 = content (fs_device s) o.2) /\
    content (fs_device s') (data i) = splice (content (fs_device s) (data i)) (f_pos f) (slice buffer 0 n) /\
    ((protected w s (i_sector i) /\ n = 0) \/
     (~ protected w s (i_sector i) /\ n = Z.max 0 (Z.min size (length_ (data i) - f_pos f)))).
Proof.
  intros I Hq Hne Hi Hb. destruct (file_inode w s objs tbl q f I Hq Hne) as (i' & Hi' & Ho & R & Hz & Hr & Hpos). assert (i' = i) as -> by congruence.
  pose proof (protected_count w s objs tbl _ i I Hi Hz) as Hpr. unfold file_write. rewrite (bind_ok _ _ _ _ _ (get_file_user s q f Hq)).
  destruct (decide (deny_write_cnt i = 0)) as [Hd|Hd].
  - set (n := Z.max 0 (Z.min size (length_ (data i) - f_pos f))).
    destruct (inode_write_ok s (f_inode f) i buffer size (f_pos f) n R Hd Hpos Hb) as (s1 & E1 & C1 & Hc1); [done|].
    destruct (inv_file_change w s s1 objs tbl (i_sector i, data i) C1 I Ho Hz Hr) as [I1 Hothers].
    pose proof (changes_same_objects _ _ _ C1) as [_ Si _ Sf Sd _]. pose proof (ex_length _ _ (rd_extent _ _ _ R)).
    exists n. eexists. split.
    { rewrite (bind_ok _ _ _ _ _ E1), wraps_small by (change (32 - 1) with 31; unfold n; lia). reflexivity. }
    split; [|split; [|split]].
    + eapply (updates_after w s s1); [done..|]. apply (put_file_ok w s1 objs tbl q f _ i); simpl; (done || congruence || (unfold n; lia)).
    + intros o Ho' _ _ Hno. by apply (Hothers o).
    + done.
    + right. split; [|done]. intros Hp. by apply Hpr in Hp.
  - exists 0. eexists. split.
    { unfold inode_write_at. rewrite bind_assoc, (bind_ok _ _ _ _ _ (get_inode_ok s _ i Hi)), (proj2 (Z.eqb_neq _ _) Hd). cbn [negb].
      rewrite ret_bind, wraps_small by (change (32 - 1) with 31; lia). reflexivity. }
    split; [|split; [done|split]].
    + apply (put_file_ok w s objs tbl q f _ i); simpl; (done || lia).
    + by rewrite slice_0, splice_nil.
    + left. split; [|done]. by apply Hpr.
Qed.

(** ** Protecting files *)

Lemma updates_id w s objs tbl q f : fs_inv w s objs [] tbl -> files s !! q = Some f -> updates w s objs tbl q f s.
Proof. intros I Hq. split; [done|by rewrite insert_id|done|done]. Qed.
Lemma deny_refs s objs q f i :
  mem_ok s objs (held s []) -> files s !! q = Some f -> inodes s !! f_inode f = Some i ->
  0 <= deny_write_cnt i <= open_cnt i /\ (deny_write f = true -> 0 < deny_write_cnt i) /\ (deny_write f = false -> deny_write_cnt i < open_cnt i).
Proof.
  intros M Hq Hi. destruct (mm_inode _ _ _ M _ _ Hi) as [_ I2 _ I4 _]. rewrite I2, I4. unfold refs, deniers. simpl.
  pose proof (holders_nonneg (dirs s) (fun d => d_inode d =? f_inode f)). assert (E0 : count (f_inode f) [] = 0) by done. rewrite E0.
  rewrite !(holders_delete (files s) _ q f Hq), Z.eqb_refl. simpl.
  pose proof (holders_nonneg (delete q (files s)) (fun x => (f_inode x =? f_inode f) && deny_write x)).
  pose proof (holders_mono (delete q (files s)) (fun x => (f_inode x =? f_inode f) && deny_write x) (fun x => f_inode x =? f_inode f)) as Hm.
  specialize (Hm (fun v Hv => proj1 (proj1 (andb_true_iff _ _) Hv))). destruct (deny_write f); unfold one; split_and!; (done || lia).
Qed.

Lemma set_file_updates w s objs tbl q f f' i :
  fs_inv w s objs [] tbl -> files s !! q = Some f -> q <> w_fp w -> f_inode f' = f_inode f -> f_pos f' = f_pos f ->
  inodes s !! f_inode f = Some i ->
  updates w s objs tbl q f' (with_file s q f' (protect i f f')) /\ same_contents s (with_file s q f' (protect i f f')) objs.
Proof.
  intros I Hq Hne Ef Ep Hi. destruct (file_inode w s objs tbl q f I Hq Hne) as (_ & _ & _ & _ & _ & _ & Hpos).
  destruct (inv_set_file w s objs tbl q f f' i I Hq Hne Ef) as [I' Hs]; [by rewrite Ep|done|].
  split; [|done]. split; [done|done|intros; apply Hs|done].
Qed.

Lemma file_deny_ok w s objs tbl q f :
  fs_inv w s objs [] tbl -> files s !! q = Some f -> q <> w_fp w ->
  exists s', file_deny_write q s = Ok (tt, s') /\ updates w s objs tbl q (mkFile (f_inode f) (f_pos f) true) s' /\ same_contents s s' objs.
Proof.
  intros I Hq Hne. destruct (file_inode w s objs tbl q f I Hq Hne) as (i & Hi & _). unfold file_deny_write.
  rewrite (bind_ok _ _ _ _ _ (get_file_user s q f Hq)). destruct (deny_write f) eqn:Hd; cbn [negb].
  - exists s. split; [done|]. split; [|done]. replace (mkFile (f_inode f) (f_pos f) true) with f by (destruct f; simpl in *; congruence).
    by apply updates_id.
  - set (f' := mkFile (f_inode f) (f_pos f) true). exists (with_file s q f' (protect i f f')). split.
    + erewrite bind_ok by reflexivity. unfold inode_deny_write. erewrite bind_ok by (by apply get_inode_ok).
      erewrite bind_ok by reflexivity. destruct (deny_refs s objs q f i (fi_mem _ _ _ _ _ I) Hq Hi) as (_ & _ & Hlt).
      rewrite (proj2 (Z.leb_le _ _)) by (specialize (Hlt Hd); lia). unfold with_file, protect. rewrite Hd. simpl. by rewrite Z.sub_0_r.
    + by apply set_file_updates.
Qed.
Lemma file_allow_ok w s objs tbl q f :
  fs_inv w s objs [] tbl -> files s !! q = Some f -> q <> w_fp w ->
  exists s', file_allow_write q s = Ok (tt, s') /\ updates w s objs tbl q (mkFile (f_inode f) (f_pos f) false) s' /\ same_contents s s' objs.
Proof.
  intros I Hq Hne. destruct (file_inode w s objs tbl q f I Hq Hne) as (i & Hi & _). unfold file_allow_write.
  rewrite (bind_ok _ _ _ _ _ (get_file_user s q f Hq)). destruct (deny_write f) eqn:Hd.
  - set (f' := mkFile (f_inode f) (f_pos f) false). exists (with_file s q f' (protect i f f')). split.
    + erewrite bind_ok by reflexivity. unfold inode_allow_write. erewrite bind_ok by (by apply get_inode_ok).
      destruct (deny_refs s objs q f i (fi_mem _ _ _ _ _ I) Hq Hi) as (Hle & Hpos & _). specialize (Hpos Hd).
      rewrite !ASSERT_true by (apply Z.ltb_lt || apply Z.leb_le; lia). unfold with_file, protect. rewrite Hd. simpl. by rewrite Z.add_0_r.
    + by apply set_file_updates.
  - exists s. split; [done|]. split; [|done]. replace (mkFile (f_inode f) (f_pos f) false) with f by (destruct f; simpl in *; congruence).
    by apply updates_id.
Qed.

(** ** Closing and opening again *)

Record closes w s objs tbl (q : Z) objs' s' : Prop := {
  cs_inv : fs_inv w s' objs' [] tbl;
  cs_files : files s' = delete q (files s);
  cs_sectors x g : files s' !! x = Some g -> sector_of s' (f_inode g) = sector_of s (f_inode g);
  cs_contents : same_contents s s' objs';
  cs_sub o : o ∈ objs' -> o ∈ objs;
  cs_kept o : o ∈ objs -> (exists name, listed tbl name o.1) \/ used_by w s (delete q (files s)) o.1 -> o ∈ objs';
  cs_dirs : dirs s' = dirs s
}.

(** The last part of [file_close], for a file that does not protect its inode. *)
Lemma close_file w s objs tbl q f i :
  fs_inv w s objs [] tbl -> files s !! q = Some f -> q <> w_fp w -> inodes s !! f_inode f = Some i -> deny_write f = false ->
  exists objs' s', (inode_close (Some (f_inode f));; modify (fun s => set_files (delete q (files s)) s)) s = Ok (tt, s') /\
    closes w s objs tbl q objs' s'.
Proof.
  intros I Hq Hne Hi Hd. pose proof I as [Dk M Fm L R]. set (p := f_inode f) in *. set (h := mkHandles (delete q (files s)) (dirs s) []).
  destruct (ro_files _ _ _ R q f i Hq Hne Hi) as [Hz Hr].
  assert (M' : mem_ok s objs (hold p h)).
  { eapply (mem_refs s s); try done; unfold held, refs, deniers; simpl.
    - intros x. rewrite count_cons, !(holders_delete (files s) _ q f Hq), Hd, andb_false_r. change (one false) with 0. fold p. split; lia.
    - intros k g [_ Hk]%lookup_delete_Some. by apply (mm_files _ _ _ M).
    - apply M.
    - intros x [->|Hx]%elem_of_cons; [eauto|by apply (mm_tmp _ _ _ M)]. }
  destruct (inode_close_ok s objs h _ _ _ p i Dk M' Fm Hi) as (objs' & s1 & E & Cl); [by eapply not_map_inode|].
  destruct (inv_closed _ _ _ _ _ _ _ _ _ _ I Hi Cl) as (HL & HI & Hs & Hc & Hsec).
  destruct (refs_used w s objs [] tbl (delete q (files s)) p i I) as [Hn Hu]; [apply delete_subseteq|done..|]. cbv zeta in Hn, Hu.
  pose proof (io_cnt _ _ _ _ _ (mm_inode _ _ _ M' p i Hi)) as Hcnt. rewrite refs_hold, Z.eqb_refl in Hcnt. simpl in Hcnt.
  destruct Cl as [C1 C2 C3 C4 C5 C6 C7 C8 C9 C10].
  exists objs', (set_files (delete q (files s)) s1). split.
  { rewrite (bind_ok _ _ _ _ _ E). unfold modify. by rewrite C8. }
  assert (Mf : mem_ok (set_files (delete q (files s)) s1) objs' (held (set_files (delete q (files s)) s1) [])).
  { eapply (mem_refs s1); try done; unfold held, h; simpl; rewrite ?C9; apply C3 || done. }
  split; [split| | | | | |]; try done.
  - by split; try apply C2.
  - apply (same_disk_fmap s1); [done|done| |done]. simpl. by rewrite C8, lookup_delete_ne.
  - by split; try apply HL.
  - eapply roles_change; [done|done|exact HI| |].
    + simpl. intros x g [_ Hx]%lookup_delete_Some. exists g. destruct (decide (x = w_fp w)); [by right|left]. split; [done|]. split; [done|].
      by apply (ro_pos _ _ _ R x).
    + simpl. rewrite C9. eauto.
  - intros x g Hx. apply (Hsec (f_inode g)). apply (mm_files _ _ _ Mf x g Hx).
  - intros o Ho Hoz _. by apply (Hc o Ho Hoz).
  - intros o Ho Hal. destruct (gone i) eqn:Hg; [|by subst]. rewrite C1 in Ho. apply elem_of_cons in Ho as [->|Ho]; [|done].
    apply andb_true_iff in Hg as [Hg1 Hg2]. apply Z.eqb_eq in Hg1. destruct (ro_removed _ _ _ R p i Hi Hg2) as (_ & _ & Hl). simpl in Hal.
    destruct Hal as [[name Hal]|Hal]; [by apply Hl in Hal|]. apply Hu in Hal. unfold h in Hcnt. lia.
Qed.

Lemma file_close_ok w s objs tbl q f :
  fs_inv w s objs [] tbl -> files s !! q = Some f -> q <> w_fp w ->
  exists objs' s', file_close (Some q) s = Ok (tt, s') /\ closes w s objs tbl q objs' s'.
Proof.
  intros I Hq Hne. destruct (file_allow_ok w s objs tbl q f I Hq Hne) as (s1 & E1 & [U1 U2 U3 U4] & Hc1).
  set (f1 := mkFile (f_inode f) (f_pos f) false) in *. assert (Hq1 : files s1 !! q = Some f1) by (by rewrite U2, lookup_insert_eq).
  destruct (file_inode w s1 objs tbl q f1 U1 Hq1 Hne) as (i & Hi & _).
  destruct (close_file w s1 objs tbl q f1 i U1 Hq1 Hne Hi eq_refl) as (objs' & s2 & E2 & [C1 C2 C3 C4 C5 C6 C7]).
  exists objs', s2. split.
  { unfold file_close. rewrite (bind_ok _ _ _ _ _ E1), (bind_ok _ _ _ _ _ (get_file_user s1 q f1 Hq1)). exact E2. }
  assert (Ed : delete q (files s1) = delete q (files s)) by (by rewrite U2, delete_insert_eq).
  split; [done|congruence| | |done| |congruence].
  - intros x g Hx. rewrite (C3 x g Hx). rewrite C2, Ed in Hx. apply lookup_delete_Some in Hx as [Hx1 Hx].
    destruct (decide (x = q)) as [->|]; [done|]. by apply (U3 x).
  - intros o Ho Hz Hr. rewrite C4, Hc1 by auto. done.
  - intros o Ho [Hl|(x & g & Hx & Hxn & Hs)]; apply C6; [done|by left|done|right]. exists x, g. rewrite Ed. split; [done|]. split; [done|].
    apply lookup_delete_Some in Hx as [Hx1 Hx]. by rewrite (U3 x g Hx).
Qed.

Lemma file_reopen_ok w s objs tbl q f i :
  fs_inv w s objs [] tbl -> files s !! q = Some f -> q <> w_fp w -> inodes s !! f_inode f = Some i ->
  exists fd s', file_reopen q s = Ok (Some fd, s') /\ opens w s objs tbl fd (i_sector i) s'.
Proof.
  intros I Hq Hne Hi. pose proof I as [Dk M Fm L R]. destruct (ro_files _ _ _ R q f i Hq Hne Hi) as [Hz Hr].
  unfold file_reopen. rewrite (bind_ok _ _ _ _ _ (get_file_user s q f Hq)).
  destruct (inode_reopen_ok s objs _ (f_inode f) i M Hi) as (s1 & E1 & O). rewrite (bind_ok _ _ _ _ _ E1).
  destruct (inv_opened w s objs [] tbl _ _ _ s1 I O Hz) as [I1 V1].
  destruct (inv_file_open w s1 objs tbl (f_inode f) _ I1 (op_inode _ _ _ _ _ _ _ O) Hz Hr) as (fd & s2 & E2 & O2).
  exists fd, s2. split; [done|]. by eapply opens_after; [|apply O|].
Qed.

End Files.
