(* ===== verification/FsRefine.v ===== *)
(** The file system as its users see it: named files that are arrays of bytes, and open
    files with positions; and the proof that filesys.c, directory.c, file.c, inode.c and
    free-map.c implement it over any block device. *)

From stdpp Require Import gmap.
From S2P Require Import Prelude KMonad Bytes Bitmap Block Filesys InodeOk FreeMapOk FsInv FsCreate FsOpen FsHandles FsDir FsWorld FsOps FsFiles.

(** ** The specification *)

Record afile := mkAfile { af_id : Z; af_pos : Z; af_deny : bool }.
(** Names of files, the bytes of files, and open files. *)
Record afs := mkAfs { a_names : gmap (list Z) Z; a_bytes : gmap Z (list Z); a_files : gmap Z afile }.

(** A file lives as long as it has a name or is open. *)
Definition alive (a : afs) (id : Z) : Prop :=
  map_Exists (fun _ i => i = id) (a_names a) \/ map_Exists (fun _ x => af_id x = id) (a_files a).
#[global] Instance alive_dec a id : Decision (alive a id) := _.
Definition collect (a : afs) : afs :=
  mkAfs (a_names a) (filter (fun kv => alive a kv.1) (a_bytes a)) (a_files a).
(** Some open file protects the file from writes. *)
Definition a_protected (a : afs) (id : Z) : Prop := map_Exists (fun _ x => af_id x = id /\ af_deny x = true) (a_files a).

Inductive op :=
| Create (name : list Z) (n : Z)
| Open (name : list Z)
| Remove (name : list Z)
| Reopen (fd : Z)
| Close (fd : Z)
| Read (fd n : Z)
| Write (fd : Z) (buffer : list Z) (n : Z)
| Seek (fd pos : Z)
| Tell (fd : Z)
| Length (fd : Z)
| Deny (fd : Z)
| Allow (fd : Z).
Inductive reply := RBool (b : bool) | RFile (fd : option Z) | RBytes (bs : list Z) | RNum (n : Z) | RUnit.

Definition set_afile (a : afs) (fd : Z) (x : afile) : afs := mkAfs (a_names a) (a_bytes a) (<[fd := x]> (a_files a)).

(** What an operation may reply, and how it changes the files; [full] tells that there is
    no room for the file that the operation makes. *)
Inductive astep (full : Prop) (a : afs) : op -> reply -> afs -> Prop :=
| A_create name n id :
    name_ok name -> a_names a !! name = None -> a_bytes a !! id = None ->
    astep full a (Create name n) (RBool true)
      (mkAfs (<[name := id]> (a_names a)) (<[id := replicate (Z.to_nat n) 0]> (a_bytes a)) (a_files a))
| A_create_not name n :
    ~ name_ok name \/ is_Some (a_names a !! name) \/ full -> astep full a (Create name n) (RBool false) a
| A_open name id fd :
    a_names a !! name = Some id -> a_files a !! fd = None ->
    astep full a (Open name) (RFile (Some fd)) (set_afile a fd (mkAfile id 0 false))
| A_open_not name : a_names a !! name = None -> astep full a (Open name) (RFile None) a
| A_remove name id :
    a_names a !! name = Some id ->
    astep full a (Remove name) (RBool true) (collect (mkAfs (delete name (a_names a)) (a_bytes a) (a_files a)))
| A_remove_not name : a_names a !! name = None -> astep full a (Remove name) (RBool false) a
| A_reopen fd x fd' :
    a_files a !! fd = Some x -> a_files a !! fd' = None ->
    astep full a (Reopen fd) (RFile (Some fd')) (set_afile a fd' (mkAfile (af_id x) 0 false))
| A_close fd x :
    a_files a !! fd = Some x ->
    astep full a (Close fd) RUnit (collect (mkAfs (a_names a) (a_bytes a) (delete fd (a_files a))))
| A_read fd x bs out n :
    a_files a !! fd = Some x -> a_bytes a !! af_id x = Some bs -> out = slice bs (af_pos x) (Z.min n (len bs - af_pos x)) ->
    astep full a (Read fd n) (RBytes out) (set_afile a fd (mkAfile (af_id x) (af_pos x + len out) (af_deny x)))
| A_write fd x bs buffer n k :
    a_files a !! fd = Some x -> a_bytes a !! af_id x = Some bs -> ~ a_protected a (af_id x) ->
    k = Z.max 0 (Z.min n (len bs - af_pos x)) ->
    astep full a (Write fd buffer n) (RNum k)
      (mkAfs (a_names a) (<[af_id x := splice bs (af_pos x) (slice buffer 0 k)]> (a_bytes a))
        (<[fd := mkAfile (af_id x) (af_pos x + k) (af_deny x)]> (a_files a)))
| A_write_denied fd x buffer n :
    a_files a !! fd = Some x -> a_protected a (af_id x) -> astep full a (Write fd buffer n) (RNum 0) a
| A_seek fd x pos :
    a_files a !! fd = Some x -> astep full a (Seek fd pos) RUnit (set_afile a fd (mkAfile (af_id x) pos (af_deny x)))
| A_tell fd x : a_files a !! fd = Some x -> astep full a (Tell fd) (RNum (af_pos x)) a
| A_length fd x bs : a_files a !! fd = Some x -> a_bytes a !! af_id x = Some bs -> astep full a (Length fd) (RNum (len bs)) a
| A_deny fd x : a_files a !! fd = Some x -> astep full a (Deny fd) RUnit (set_afile a fd (mkAfile (af_id x) (af_pos x) true))
| A_allow fd x : a_files a !! fd = Some x -> astep full a (Allow fd) RUnit (set_afile a fd (mkAfile (af_id x) (af_pos x) false)).

(** Arguments that callers may pass: strings, sizes of files whose last sector is
    addressable, open files, buffers that are long enough, and offsets. *)
Definition op_ok (a : afs) (o : op) : Prop :=
  match o with
  | Create name n => Forall (fun c => c <> 0) name /\ 0 <= n < 2 ^ 31 - 512
  | Open name | Remove name => Forall (fun c => c <> 0) name
  | Reopen fd | Close fd | Read fd _ | Tell fd | Length fd | Deny fd | Allow fd => is_Some (a_files a !! fd)
  | Write fd buffer n => is_Some (a_files a !! fd) /\ n <= len buffer
  | Seek fd pos => is_Some (a_files a !! fd) /\ 0 <= pos < 2 ^ 31
  end.

Section Refine.
Context {D : Type} `{!BlockDevice D}.
Implicit Types (s : fs D) (objs : list obj) (w : world) (tbl : list (option (list Z * Z))) (a : afs).

Definition exec (junk : list Z) (o : op) : K (fs D) reply :=
  match o with
  | Create name n => b ← filesys_create name n junk; mret (RBool b)
  | Open name => r ← filesys_open name junk; mret (RFile r)
  | Remove name => b ← filesys_remove name junk; mret (RBool b)
  | Reopen fd => r ← file_reopen fd; mret (RFile r)
  | Close fd => file_close (Some fd);; mret RUnit
  | Read fd n => bs ← file_read fd n; mret (RBytes bs)
  | Write fd buffer n => k ← file_write fd buffer n; mret (RNum k)
  | Seek fd pos => file_seek fd pos;; mret RUnit
  | Tell fd => n ← file_tell fd; mret (RNum n)
  | Length fd => n ← file_length fd; mret (RNum n)
  | Deny fd => file_deny_write fd;; mret RUnit
  | Allow fd => file_allow_write fd;; mret RUnit
  end.

(** ** The states of the specification that a state stands for *)

Definition view s (f : file) : afile := mkAfile (sector_of s (f_inode f)) (f_pos f) (deny_write f).
Record abs w s objs tbl a : Prop := {
  ab_names name id : a_names a !! name = Some id <-> listed tbl name id;
  ab_files fd : a_files a !! fd = if decide (fd = w_fp w) then None else view s <$> files s !! fd;
  ab_bytes id bs : a_bytes a !! id = Some bs <-> alive a id /\ exists d, (id, d) ∈ objs /\ content (fs_device s) d = bs
}.
Definition refines w s a : Prop := exists objs tbl, fs_inv w s objs [] tbl /\ abs w s objs tbl a.
(** In such a state no allocation fails. *)
Lemma refines_memory w s a : refines w s a -> memory s = [].
Proof. intros (objs & tbl & I & _). apply (fi_mem _ _ _ _ _ I). Qed.
Definition full_for w s (o : op) : Prop :=
  match o with Create _ n => no_room s (slots (content (fs_device s) (w_rd w))) n | _ => False end.

Lemma abs_file w s objs tbl a fd x :
  abs w s objs tbl a -> a_files a !! fd = Some x -> exists f, files s !! fd = Some f /\ fd <> w_fp w /\ x = view s f.
Proof.
  intros A H. rewrite (ab_files _ _ _ _ _ A) in H. destruct (decide (fd = w_fp w)); [done|].
  apply fmap_Some in H as (f & Hf & ->). by exists f.
Qed.
Lemma alive_used w s objs tbl a id :
  abs w s objs tbl a -> alive a id <-> (exists name, listed tbl name id) \/ used_by w s (files s) id.
Proof.
  intros A. unfold alive, map_Exists. f_equiv.
  - split; [intros (name & i & H & ->); exists name; by apply A|]. intros (name & H). exists name, id. split; [by apply A|done].
  - split.
    + intros (fd & x & H & Hx). destruct (abs_file _ _ _ _ _ _ _ A H) as (f & Hf & Hne & ->). by exists fd, f.
    + intros (fd & f & Hf & Hne & Hs). exists fd, (view s f). split; [|done]. rewrite (ab_files _ _ _ _ _ A), decide_False, Hf by done. done.
Qed.
Lemma alive_user w s objs tbl a id :
  fs_inv w s objs [] tbl -> abs w s objs tbl a -> alive a id -> id <> FREE_MAP_SECTOR /\ id <> ROOT_DIR_SECTOR.
Proof.
  intros I A [[name Hl]|(fd & f & Hf & Hne & Hs)]%(alive_used _ _ _ _ _ _ A).
  - by destruct (ls_sectors _ _ _ _ (fi_listing _ _ _ _ _ I) name id Hl) as (? & ? & _).
  - destruct (file_inode w s objs tbl fd f I Hf Hne) as (i & Hi & _ & _ & Hz & Hr & _). rewrite (sector_of_some _ _ _ Hi) in Hs. by subst.
Qed.

(** The bytes after a step that changes no file that stays alive. *)
Lemma bytes_after w s objs tbl a s' objs' (a' : afs) :
  fs_inv w s objs [] tbl -> abs w s objs tbl a ->
  (forall id bs, a_bytes a' !! id = Some bs <-> a_bytes a !! id = Some bs /\ alive a' id) ->
  (forall id, alive a' id -> alive a id) -> (forall o, o ∈ objs' -> o ∈ objs) ->
  (forall o, o ∈ objs -> alive a' o.1 -> o ∈ objs') -> same_contents s s' objs' ->
  forall id bs, a_bytes a' !! id = Some bs <-> alive a' id /\ exists d, (id, d) ∈ objs' /\ content (fs_device s') d = bs.
Proof.
  intros I A Hb Hal Hsub Hk Hc id bs. rewrite Hb, (ab_bytes _ _ _ _ _ A).
  assert (Hcd : forall d, (id, d) ∈ objs' -> alive a' id -> content (fs_device s') d = content (fs_device s) d).
  { intros d Hd Ha. destruct (alive_user _ _ _ _ _ id I A (Hal id Ha)). by apply (Hc (id, d)). }
  split.
  - intros [[_ (d & Hd & <-)] Ha]. split; [done|]. assert (Hd' : (id, d) ∈ objs') by (by apply Hk). exists d. by rewrite Hcd.
  - intros [Ha (d & Hd & <-)]. rewrite Hcd by done. split; [|done]. split; [auto|]. exists d. auto.
Qed.
Lemma bytes_alive w s objs tbl a id bs : abs w s objs tbl a -> a_bytes a !! id = Some bs -> alive a id.
Proof. intros A H. by apply (ab_bytes _ _ _ _ _ A) in H as [? _]. Qed.

(** No change at all. *)
Lemma abs_same w s objs tbl a s' : fs_inv w s objs [] tbl -> abs w s objs tbl a -> same_view s s' objs -> abs w s' objs tbl a.
Proof.
  intros I A [V1 V2 V3]. split; [apply A| |].
  - intros fd. rewrite (ab_files _ _ _ _ _ A), V1. destruct (decide (fd = w_fp w)); [done|]. destruct (files s !! fd) as [f|] eqn:Hf; [|done].
    simpl. unfold view. by rewrite (V2 fd f Hf).
  - eapply (bytes_after w s objs tbl a); try done. intros id bs. split; [|by intros []]. intros H. split; [done|]. by eapply bytes_alive.
Qed.

(** A new open file of a file that is alive. *)
Lemma abs_opens w s objs tbl a fd id s' :
  fs_inv w s objs [] tbl -> abs w s objs tbl a -> alive a id -> opens w s objs tbl fd id s' ->
  a_files a !! fd = None /\ refines w s' (set_afile a fd (mkAfile id 0 false)).
Proof.
  intros I A Ha [O1 [O2 O2'] (p & O3 & O4) O5 O6 O7]. split; [by rewrite (ab_files _ _ _ _ _ A), decide_False, O2|].
  exists objs, tbl. split; [done|].
  assert (Hal : forall i, alive (set_afile a fd (mkAfile id 0 false)) i <-> alive a i).
  { intros i. unfold alive, map_Exists. simpl. split; (intros [Hn|(q & x & Hq & Hx)]; [by left|]).
    - apply lookup_insert_Some in Hq as [[<- <-]|[_ Hq]]; [simpl in Hx; by subst|by right; exists q, x].
    - right. exists q, x. split; [|done]. rewrite lookup_insert_ne; [done|]. intros <-. by rewrite (ab_files _ _ _ _ _ A), decide_False, O2 in Hq. }
  split; [apply A| |].
  - intros q. simpl. rewrite O3. destruct (decide (fd = q)) as [<-|Hne].
    + rewrite !lookup_insert_eq, decide_False by done. simpl. unfold view. simpl. by rewrite O4.
    + rewrite !lookup_insert_ne, (ab_files _ _ _ _ _ A) by done. destruct (decide (q = w_fp w)); [done|].
      destruct (files s !! q) as [f|] eqn:Hf; [|done]. simpl. unfold view. by rewrite (O5 q f Hf).
  - eapply (bytes_after w s objs tbl a); try done; [|by intros i ?%Hal]. simpl. intros i bs. rewrite Hal. split; [|by intros []]. intros H.
    split; [done|]. by eapply bytes_alive.
Qed.

(** A change of an open file. *)
Lemma abs_updates w s objs tbl a fd f f' s' :
  abs w s objs tbl a -> files s !! fd = Some f -> fd <> w_fp w -> f_inode f' = f_inode f -> updates w s objs tbl fd f' s' ->
  let a' := set_afile a fd (mkAfile (sector_of s (f_inode f)) (f_pos f') (deny_write f')) in
  (forall q, a_files a' !! q = if decide (q = w_fp w) then None else view s' <$> files s' !! q) /\ (forall id, alive a' id <-> alive a id).
Proof.
  intros A Hf Hne Ef [U1 U2 U3 U4]. cbv zeta. split.
  - intros q. simpl. rewrite U2. destruct (decide (fd = q)) as [<-|Hq].
    + rewrite !lookup_insert_eq, decide_False by done. simpl. unfold view. by rewrite Ef, (U3 fd f Hf).
    + rewrite !lookup_insert_ne, (ab_files _ _ _ _ _ A) by done. destruct (decide (q = w_fp w)); [done|].
      destruct (files s !! q) as [g|] eqn:Hg; [|done]. simpl. unfold view. by rewrite (U3 q g Hg).
  - assert (Hx : a_files a !! fd = Some (view s f)) by (by rewrite (ab_files _ _ _ _ _ A), decide_False, Hf).
    intros id. unfold alive, map_Exists. simpl. split; (intros [Hn|(q & x & Hq & Hid)]; [by left|]); right.
    + apply lookup_insert_Some in Hq as [[<- <-]|[_ Hq]]; [by exists fd, (view s f)|by exists q, x].
    + destruct (decide (fd = q)) as [<-|Hqn]; [|by exists q, x; rewrite lookup_insert_ne].
      eexists fd, _. rewrite lookup_insert_eq. split; [done|]. assert (x = view s f) as -> by congruence. done.
Qed.
Lemma refines_updates w s objs tbl a fd f f' s' :
  fs_inv w s objs [] tbl -> abs w s objs tbl a -> files s !! fd = Some f -> fd <> w_fp w -> f_inode f' = f_inode f ->
  updates w s objs tbl fd f' s' -> same_contents s s' objs ->
  refines w s' (set_afile a fd (mkAfile (sector_of s (f_inode f)) (f_pos f') (deny_write f'))).
Proof.
  intros I A Hf Hne Ef U Hc. destruct (abs_updates w s objs tbl a fd f f' s' A Hf Hne Ef U) as [Hfiles Hal]. cbv zeta in *.
  exists objs, tbl. split; [apply U|]. split; [apply A|done|].
  eapply (bytes_after w s objs tbl a); try done; [|by intros i ?%Hal]. simpl. intros i bs. rewrite Hal. split; [|by intros []]. intros H.
  split; [done|]. by eapply bytes_alive.
Qed.

Lemma abs_name_none w s objs tbl a name : abs w s objs tbl a -> a_names a !! name = None <-> ~ has_name tbl name.
Proof.
  intros A. split.
  - intros H (k & id & Hk). assert (E : a_names a !! name = Some id) by (apply A; by exists k). congruence.
  - intros H. destruct (a_names a !! name) as [id|] eqn:E; [|done]. apply A in E as [k Hk]. destruct H. by exists k, id.
Qed.

(** *** Creating *)

Lemma listed_insert tbl k name t n i :
  tbl !! k = Some None -> listed (<[k := Some (name, t)]> tbl) n i <-> (name = n /\ t = i) \/ listed tbl n i.
Proof.
  intros Hk. pose proof (lookup_lt_Some _ _ _ Hk) as Hlt. split.
  - intros [j [(-> & [= -> ->] & _)|[_ Hj]]%list_lookup_insert_Some]; [by left|right; by exists j].
  - intros [[-> ->]|[j Hj]]; [exists k; by rewrite list_lookup_insert_eq|]. exists j. rewrite list_lookup_insert_ne; [done|]. intros ->. congruence.
Qed.

Lemma refines_made w s objs tbl a name n t s' :
  fs_inv w s objs [] tbl -> abs w s objs tbl a -> same_view s s' objs -> made w s objs tbl name n t s' ->
  astep (full_for w s (Create name n)) a (Create name n) (RBool true)
    (mkAfs (<[name := t]> (a_names a)) (<[t := replicate (Z.to_nat n) 0]> (a_bytes a)) (a_files a)) /\
  refines w s' (mkAfs (<[name := t]> (a_names a)) (<[t := replicate (Z.to_nat n) 0]> (a_bytes a)) (a_files a)).
Proof.
  intros I A V (d & k & Hn & Hno & Hfresh & Hk & I' & Hc). pose proof (abs_same w s objs tbl a s' I A V) as A'.
  assert (Hnew : forall d', (t, d') ∉ objs).
  { intros d' Hd'. apply Hfresh, elem_all_owned. exists (t, d'). split; [done|]. apply elem_owned. by left. }
  assert (Hnone : a_names a !! name = None) by (by apply (abs_name_none _ _ _ _ _ _ A)).
  split.
  { constructor; [done|done|]. destruct (a_bytes a !! t) as [bs|] eqn:E; [|done].
    apply (ab_bytes _ _ _ _ _ A) in E as (_ & d' & Hd' & _). by apply Hnew in Hd'. }
  eexists _, _. split; [exact I'|]. split.
  - intros n' i. simpl. rewrite lookup_insert_Some, listed_insert by done. rewrite (ab_names _ _ _ _ _ A). split.
    + intros [?|[_ ?]]; [by left|by right].
    + intros [?|Hl]; [by left|]. right. split; [|done]. intros <-. destruct Hl as [j Hj]. apply Hno. by exists j, i.
  - apply A'.
  - assert (Hal : forall i, alive (mkAfs (<[name := t]> (a_names a)) (<[t := replicate (Z.to_nat n) 0]> (a_bytes a)) (a_files a)) i <-> i = t \/ alive a i).
    { intros i. unfold alive, map_Exists. simpl. split.
      - intros [(m & j & [[<- <-]|[_ Hm]]%lookup_insert_Some & Hj)|H]; [by left|right; left; by exists m, j|by right; right].
      - intros [->|[(m & j & Hm & Hj)|H]]; [left; exists name, t; by rewrite lookup_insert_eq| |by right].
        left. exists m, j. split; [|done]. rewrite lookup_insert_ne; [done|]. congruence. }
    intros i bs. rewrite Hal. simpl. rewrite lookup_insert_Some, (ab_bytes _ _ _ _ _ A'). split.
    + intros [[<- <-]|[Hne (Ha & d' & Hd' & Hb)]].
      * split; [by left|]. exists d. split; [constructor|done].
      * split; [by right|]. exists d'. split; [by constructor|done].
    + intros [Ha (d' & [Hd'|Hd']%elem_of_cons & Hb)].
      * injection Hd' as -> ->. left. by rewrite <- Hb, Hc.
      * right. assert (Hne : t <> i) by (intros ->; by apply Hnew in Hd'). split; [done|]. destruct Ha as [->|Ha]; [done|]. eauto.
Qed.

Lemma create_refines w s objs tbl a name n junk :
  fs_inv w s objs [] tbl -> abs w s objs tbl a -> op_ok a (Create name n) -> length junk = 20%nat ->
  exists r s' a', exec junk (Create name n) s = Ok (r, s') /\ astep (full_for w s (Create name n)) a (Create name n) r a' /\ refines w s' a'.
Proof.
  intros I A [Hn Hs] Hj. destruct (filesys_create_ok w s objs tbl name n junk I Hn Hj Hs) as (ok & s' & E & Hd & V & H).
  exists (RBool ok), s'. simpl. rewrite (bind_ok _ _ _ _ _ E). destruct ok.
  - destruct H as (t & Hm). destruct (refines_made w s objs tbl a name n t s' I A V Hm) as [H1 H2]. by eexists.
  - destruct H as (I' & Hwhy & _). exists a. split; [done|]. split; [|exists objs, tbl; split; [done|by apply (abs_same w s)]]. constructor.
    destruct Hwhy as [?|[(k & t & Hk)|Hroom]]; [by left|right; left|right; right].
    + exists t. apply A. by exists k.
    + simpl. by rewrite (ls_slots _ _ _ _ (fi_listing _ _ _ _ _ I)).
Qed.

(** *** Opening *)

Lemma open_refines w s objs tbl a name junk full :
  fs_inv w s objs [] tbl -> abs w s objs tbl a -> op_ok a (Open name) -> length junk = 20%nat ->
  exists r s' a', exec junk (Open name) s = Ok (r, s') /\ astep full a (Open name) r a' /\ refines w s' a'.
Proof.
  intros I A Hn Hj. simpl in Hn. destruct (filesys_open_ok w s objs tbl name junk I Hn Hj) as (r & s' & E & H).
  exists (RFile r), s'. simpl. rewrite (bind_ok _ _ _ _ _ E). destruct r as [fd|].
  - destruct H as (t & Hl & O). apply (ab_names _ _ _ _ _ A) in Hl.
    destruct (abs_opens w s objs tbl a fd t s' I A) as [Hfd Hr]; [left; by exists name, t|done|].
    eexists. split; [done|]. split; [by constructor|done].
  - destruct H as (Hno & I' & V & _). exists a. split; [done|]. split; [constructor; by apply (abs_name_none _ _ _ _ _ _ A)|].
    exists objs, tbl. split; [done|]. by apply (abs_same w s).
Qed.

Lemma reopen_refines w s objs tbl a fd junk full :
  fs_inv w s objs [] tbl -> abs w s objs tbl a -> op_ok a (Reopen fd) ->
  exists r s' a', exec junk (Reopen fd) s = Ok (r, s') /\ astep full a (Reopen fd) r a' /\ refines w s' a'.
Proof.
  intros I A [x Hx]. destruct (abs_file _ _ _ _ _ _ _ A Hx) as (f & Hf & Hne & ->).
  destruct (file_inode w s objs tbl fd f I Hf Hne) as (i & Hi & _).
  destruct (file_reopen_ok w s objs tbl fd f i I Hf Hne Hi) as (fd' & s' & E & O).
  rewrite <- (sector_of_some _ _ _ Hi) in O.
  destruct (abs_opens w s objs tbl a fd' (sector_of s (f_inode f)) s' I A) as [Hfd Hr]; [right; by exists fd, (view s f)|exact O|].
  eexists (RFile (Some fd')), s', _. simpl. rewrite (bind_ok _ _ _ _ _ E). split; [done|]. split; [by apply (A_reopen _ _ fd (view s f))|done].
Qed.

(** *** Removing and closing *)

Lemma collect_bytes a id bs : a_bytes (collect a) !! id = Some bs <-> a_bytes a !! id = Some bs /\ alive (collect a) id.
Proof. simpl. by rewrite map_lookup_filter_Some. Qed.

Lemma remove_refines w s objs tbl a name junk full :
  fs_inv w s objs [] tbl -> abs w s objs tbl a -> op_ok a (Remove name) -> length junk = 20%nat ->
  exists r s' a', exec junk (Remove name) s = Ok (r, s') /\ astep full a (Remove name) r a' /\ refines w s' a'.
Proof.
  intros I A Hn Hj. simpl in Hn. destruct (filesys_remove_ok w s objs tbl name junk I Hn Hj) as (ok & objs' & s' & E & Hd & V & Hsub & H).
  exists (RBool ok), s'. simpl. rewrite (bind_ok _ _ _ _ _ E). destruct ok.
  2:{ destruct H as (-> & Hno & I'). exists a. split; [done|]. split; [constructor; by apply (abs_name_none _ _ _ _ _ _ A)|].
      exists objs, tbl. split; [done|]. by apply (abs_same w s). }
  destruct H as (k & t & Hk & I' & Hdr1 & Hdr2). pose proof (fi_listing _ _ _ _ _ I) as L.
  assert (Hl : a_names a !! name = Some t) by (apply A; by exists k).
  eexists. split; [done|]. split; [by apply (A_remove _ _ _ t)|]. set (a' := collect _).
  assert (Hlist : forall n i, listed (<[k := None]> tbl) n i <-> name <> n /\ listed tbl n i).
  { intros n i. split.
    - intros [j [(_ & [=] & _)|[Hne Hj']]%list_lookup_insert_Some]. split; [|by exists j]. intros <-. by eapply Hne, (ls_name_inj _ _ _ _ L).
    - intros [Hne [j Hj']]. exists j. rewrite list_lookup_insert_ne; [done|]. intros <-. congruence. }
  exists objs', (<[k := None]> tbl). split; [done|]. destruct V as [V1 V2 V3].
  assert (Hal : forall i, alive a' i -> alive a i).
  { intros i [(n & j & Hn' & Hj')|?]; [left|by right]. exists n, j. split; [|done]. simpl in Hn'. by apply lookup_delete_Some in Hn' as [_ ?]. }
  split.
  - intros n i. simpl. rewrite lookup_delete_Some, Hlist. by rewrite (ab_names _ _ _ _ _ A).
  - intros fd. simpl. rewrite (ab_files _ _ _ _ _ A), V1. destruct (decide (fd = w_fp w)); [done|].
    destruct (files s !! fd) as [f|] eqn:Hf; [|done]. simpl. unfold view. by rewrite (V2 fd f Hf).
  - eapply (bytes_after w s objs tbl a); try done; [apply collect_bytes|]. intros o Ho Ha.
    assert (Hdec : used_by w s (files s) t <-> map_Exists (fun _ x => af_id x = t) (a_files a)).
    { split.
      - intros (fd & f & Hf & Hne & Hs). exists fd, (view s f). split; [|done]. by rewrite (ab_files _ _ _ _ _ A), decide_False, Hf.
      - intros (fd & x & Hx & Hid). destruct (abs_file _ _ _ _ _ _ _ A Hx) as (f & Hf & Hne & ->). by exists fd, f. }
    destruct (decide (map_Exists (fun _ x => af_id x = t) (a_files a))) as [Hu|Hu]; [rewrite Hdr1; [done|by apply Hdec]|].
    destruct Hdr2 as [d Hp]; [by rewrite Hdec|]. rewrite Hp in Ho. apply elem_of_cons in Ho as [->|Ho]; [|done]. simpl in Ha.
    destruct Ha as [(n & j & Hn' & ->)|Ha]; [|done]. simpl in Hn'. apply lookup_delete_Some in Hn' as [Hne Hn'].
    apply (ab_names _ _ _ _ _ A) in Hn' as [j Hj']. pose proof (ls_sector_inj _ _ _ _ L _ _ _ _ _ Hk Hj') as <-. congruence.
Qed.

Lemma close_refines w s objs tbl a fd junk full :
  fs_inv w s objs [] tbl -> abs w s objs tbl a -> op_ok a (Close fd) ->
  exists r s' a', exec junk (Close fd) s = Ok (r, s') /\ astep full a (Close fd) r a' /\ refines w s' a'.
Proof.
  intros I A [x Hx]. destruct (abs_file _ _ _ _ _ _ _ A Hx) as (f & Hf & Hne & ->).
  destruct (file_close_ok w s objs tbl fd f I Hf Hne) as (objs' & s' & E & [C1 C2 C3 C4 C5 C6 C7]).
  eexists RUnit, s', _. simpl. rewrite (bind_ok _ _ _ _ _ E). split; [done|]. split; [by eapply A_close|]. set (a' := collect _).
  exists objs', tbl. split; [done|].
  assert (Hfiles : forall q, a_files a' !! q = if decide (q = w_fp w) then None else view s' <$> files s' !! q).
  { intros q. simpl. rewrite C2. destruct (decide (fd = q)) as [<-|Hq]; [rewrite !lookup_delete_eq; by case_decide|].
    rewrite !lookup_delete_ne, (ab_files _ _ _ _ _ A) by done. destruct (decide (q = w_fp w)); [done|].
    destruct (files s !! q) as [g|] eqn:Hg; [|done]. simpl. unfold view. rewrite (C3 q g); [done|]. by rewrite C2, lookup_delete_ne. }
  split; [apply A|done|]. eapply (bytes_after w s objs tbl a); try done; [apply collect_bytes| |].
  - intros i [?|(q & x & Hq & Hi)]; [by left|right]. simpl in Hq. apply lookup_delete_Some in Hq as [_ Hq]. by exists q, x.
  - intros o Ho [(n & j & Hn & ->)|(q & x & Hq & Hi)]; apply C6; try done; [left|right].
    + exists n. by apply A.
    + simpl in Hq. apply lookup_delete_Some in Hq as [Hqn Hq]. destruct (abs_file _ _ _ _ _ _ _ A Hq) as (g & Hg & Hne' & ->).
      exists q, g. split; [by rewrite lookup_delete_ne|done].
Qed.

(** *** Reading and writing *)

Lemma file_bytes w s objs tbl a fd f :
  fs_inv w s objs [] tbl -> abs w s objs tbl a -> a_files a !! fd = Some (view s f) -> files s !! fd = Some f -> fd <> w_fp w ->
  exists i, inodes s !! f_inode f = Some i /\ sector_of s (f_inode f) = i_sector i /\ (i_sector i, data i) ∈ objs /\
    alive a (i_sector i) /\ a_bytes a !! i_sector i = Some (content (fs_device s) (data i)) /\
    len (content (fs_device s) (data i)) = length_ (data i).
Proof.
  intros I A Hx Hf Hne. destruct (file_inode w s objs tbl fd f I Hf Hne) as (i & Hi & Ho & R & _). exists i.
  pose proof (sector_of_some _ _ _ Hi) as Hs. assert (Ha : alive a (i_sector i)) by (right; exists fd, (view s f); by rewrite <- Hs).
  split_and!; try done; [apply (ab_bytes _ _ _ _ _ A); split; [done|]; by exists (data i)|apply content_length; apply R].
Qed.

Lemma read_refines w s objs tbl a fd n junk full :
  fs_inv w s objs [] tbl -> abs w s objs tbl a -> op_ok a (Read fd n) ->
  exists r s' a', exec junk (Read fd n) s = Ok (r, s') /\ astep full a (Read fd n) r a' /\ refines w s' a'.
Proof.
  intros I A [x Hx]. destruct (abs_file _ _ _ _ _ _ _ A Hx) as (f & Hf & Hne & ->).
  destruct (file_bytes w s objs tbl a fd f I A Hx Hf Hne) as (i & Hi & Hs & Ho & Ha & Hb & Hl).
  destruct (file_read_ok w s objs tbl fd f i n I Hf Hne Hi) as (s' & E & U & Hc). eexists (RBytes _), s', _. simpl.
  rewrite (bind_ok _ _ _ _ _ E). split; [done|]. split.
  - eapply A_read; [exact Hx|simpl; by rewrite Hs|]. simpl. by rewrite Hl.
  - simpl. eapply (refines_updates w s objs tbl a fd f) in U; [|done..]. exact U.
Qed.

Lemma protected_abs w s objs tbl a id : abs w s objs tbl a -> protected w s id <-> a_protected a id.
Proof.
  intros A. split.
  - intros (q & f & Hq & Hne & Hs & Hd). exists q, (view s f). split; [|done]. by rewrite (ab_files _ _ _ _ _ A), decide_False, Hq.
  - intros (q & x & Hx & Hid & Hd). destruct (abs_file _ _ _ _ _ _ _ A Hx) as (f & Hf & Hne & ->). by exists q, f.
Qed.

Lemma file_write_refines w s objs tbl a fd buffer n junk full :
  fs_inv w s objs [] tbl -> abs w s objs tbl a -> op_ok a (Write fd buffer n) ->
  exists r s' a', exec junk (Write fd buffer n) s = Ok (r, s') /\ astep full a (Write fd buffer n) r a' /\ refines w s' a'.
Proof.
  intros I A [[x Hx] Hn]. destruct (abs_file _ _ _ _ _ _ _ A Hx) as (f & Hf & Hne & ->).
  destruct (file_bytes w s objs tbl a fd f I A Hx Hf Hne) as (i & Hi & Hs & Ho & Ha & Hb & Hl).
  destruct (file_write_ok w s objs tbl fd f i buffer n I Hf Hne Hi Hn) as (k & s' & E & U & Hoth & Hc & Hk).
  pose proof (protected_abs w s objs tbl a (i_sector i) A) as Hpr. exists (RNum k), s'. simpl. rewrite (bind_ok _ _ _ _ _ E).
  destruct Hk as [[Hp ->]|[Hp Hk]].
  - exists a. split; [done|]. split; [eapply A_write_denied; [done|]; simpl; rewrite Hs; by apply Hpr|].
    rewrite slice_0, splice_nil in Hc. eapply (refines_updates w s objs tbl a fd f) in U; try done.
    + simpl in U. rewrite Z.add_0_r in U. unfold set_afile in U. rewrite insert_id in U by done. by destruct a.
    + intros o Hoo Hz Hr. destruct (decide (o = (i_sector i, data i))) as [->|Hneo]; [done|by apply Hoth].
  - eexists. split; [done|]. split.
    { eapply A_write; [exact Hx|simpl; by rewrite Hs|simpl; rewrite Hs; by rewrite <- Hpr|simpl; by rewrite Hl]. }
    simpl. rewrite Hs. exists objs, tbl. split; [apply U|].
    destruct (abs_updates w s objs tbl a fd f (mkFile (f_inode f) (f_pos f + k) (deny_write f)) s' A Hf Hne eq_refl U) as [Hfiles Hal]. simpl in Hfiles, Hal. rewrite Hs in Hfiles, Hal.
    split; [apply A|done|]. intros id bs. unfold alive in *. simpl in *. rewrite Hal, lookup_insert_Some. split.
    + intros [[<- <-]|[Hid (Ha' & d & Hd & <-)%(ab_bytes _ _ _ _ _ A)]]; [split; [done|]; by exists (data i)|].
      split; [done|]. exists d. split; [done|]. destruct (alive_user _ _ _ _ _ id I A Ha'). apply (Hoth (id, d)); [done..|]. congruence.
    + intros [Ha' (d & Hd & <-)]. destruct (decide (i_sector i = id)) as [<-|Hid].
      * left. split; [done|]. assert (Eo : (i_sector i, d) = (i_sector i, data i)) by (by eapply obj_unique; [apply I|..]).
        injection Eo as ->. done.
      * right. split; [done|]. apply (ab_bytes _ _ _ _ _ A). split; [done|]. exists d. split; [done|].
        destruct (alive_user _ _ _ _ _ id I A Ha'). symmetry. apply (Hoth (id, d)); [done..|]. congruence.
Qed.

(** *** The other operations on open files *)

Lemma simple_refines w s objs tbl a o fd junk full :
  match o with Seek q _ | Tell q | Length q | Deny q | Allow q => q = fd | _ => False end ->
  fs_inv w s objs [] tbl -> abs w s objs tbl a -> op_ok a o ->
  exists r s' a', exec junk o s = Ok (r, s') /\ astep full a o r a' /\ refines w s' a'.
Proof.
  intros Ho I A Hok. assert (exists x, a_files a !! fd = Some x) as [x Hx].
  { destruct o; try done; subst; simpl in Hok; [destruct Hok as [? _]|..]; done. }
  destruct (abs_file _ _ _ _ _ _ _ A Hx) as (f & Hf & Hne & ->).
  destruct (file_bytes w s objs tbl a fd f I A Hx Hf Hne) as (i & Hi & Hs & Hio & Ha & Hb & Hl).
  assert (R : refines w s a) by (by exists objs, tbl).
  destruct o as [| | | | | | |q pos|q|q|q|q]; try done; subst q; simpl.
  - destruct Hok as [_ Hpos]. destruct (file_seek_ok w s objs tbl fd f pos I Hf Hne Hpos) as (s' & E & U & Hc).
    eexists RUnit, s', _. rewrite (bind_ok _ _ _ _ _ E). split; [done|]. split; [by eapply A_seek|].
    eapply (refines_updates w s objs tbl a fd f) in U; [|done..]. exact U.
  - eexists (RNum (f_pos f)), s, a. unfold file_tell. rewrite bind_assoc, (bind_ok _ _ _ _ _ (get_file_user s fd f Hf)). split; [done|].
    split; [|done]. by apply (A_tell _ _ fd (view s f)).
  - eexists (RNum (length_ (data i))), s, a. unfold file_length, inode_length.
    rewrite bind_assoc, (bind_ok _ _ _ _ _ (get_file_user s fd f Hf)), bind_assoc, (bind_ok _ _ _ _ _ (get_inode_ok s _ i Hi)).
    split; [done|]. split; [|done]. rewrite <- Hl. eapply A_length; [done|]. simpl. by rewrite Hs.
  - destruct (file_deny_ok w s objs tbl fd f I Hf Hne) as (s' & E & U & Hc).
    eexists RUnit, s', _. rewrite (bind_ok _ _ _ _ _ E). split; [done|]. split; [by eapply A_deny|].
    eapply (refines_updates w s objs tbl a fd f) in U; [|done..]. exact U.
  - destruct (file_allow_ok w s objs tbl fd f I Hf Hne) as (s' & E & U & Hc).
    eexists RUnit, s', _. rewrite (bind_ok _ _ _ _ _ E). split; [done|]. split; [by eapply A_allow|].
    eapply (refines_updates w s objs tbl a fd f) in U; [|done..]. exact U.
Qed.

(** Every operation. *)
Lemma op_refines w s a o junk :
  refines w s a -> op_ok a o -> length junk = 20%nat ->
  exists r s' a', exec junk o s = Ok (r, s') /\ astep (full_for w s o) a o r a' /\ refines w s' a'.
Proof.
  intros (objs & tbl & I & A) Hok Hj. destruct o as [| | | | | | |q pos|q|q|q|q];
    [by apply (create_refines w s objs tbl)|by apply (open_refines w s objs tbl)|by apply (remove_refines w s objs tbl)
    |by apply (reopen_refines w s objs tbl)|by apply (close_refines w s objs tbl)|by apply (read_refines w s objs tbl)
    |by apply (file_write_refines w s objs tbl)|by apply (simple_refines w s objs tbl a _ q)..].
Qed.

(** The directories that are open stay open: those that an operation opens it closes. *)
Lemma op_keeps_dirs w s a o junk r s' :
  refines w s a -> op_ok a o -> length junk = 20%nat -> exec junk o s = Ok (r, s') -> dirs s' = dirs s.
Proof.
  intros (objs & tbl & I & A) Hok Hj. assert (Hfd : forall fd, is_Some (a_files a !! fd) ->
    exists f i, files s !! fd = Some f /\ fd <> w_fp w /\ inodes s !! f_inode f = Some i).
  { intros fd [x Hx]. destruct (abs_file _ _ _ _ _ _ _ A Hx) as (f & Hf & Hne & _).
    destruct (file_inode w s objs tbl fd f I Hf Hne) as (i & Hi & _). by exists f, i. }
  assert (Hex : forall B (m : K (fs D) B) (g : B -> reply) b s1, m s = Ok (b, s1) -> (x ← m; mret (g x)) s = Ok (r, s') -> s' = s1).
  { intros B m g b s1 E. rewrite (bind_ok _ _ _ _ _ E). by intros [= _ ->]. }
  destruct o as [name n|name|name|fd|fd|fd n|fd buffer n|fd pos|fd|fd|fd|fd]; simpl in Hok |- *.
  - destruct Hok as [Hn Hs]. destruct (filesys_create_ok w s objs tbl name n junk I Hn Hj Hs) as (ok & s1 & E & Hd & _).
    by intros ->%(Hex _ _ RBool _ _ E).
  - destruct (filesys_open_ok w s objs tbl name junk I Hok Hj) as (q & s1 & E & H). intros ->%(Hex _ _ RFile _ _ E).
    destruct q; [destruct H as (t & _ & O); apply O|by destruct H as (_ & _ & _ & ?)].
  - destruct (filesys_remove_ok w s objs tbl name junk I Hok Hj) as (ok & objs' & s1 & E & Hd & _). by intros ->%(Hex _ _ RBool _ _ E).
  - destruct (Hfd fd Hok) as (f & i & Hf & Hne & Hi). destruct (file_reopen_ok w s objs tbl fd f i I Hf Hne Hi) as (q & s1 & E & O).
    intros ->%(Hex _ _ RFile _ _ E). apply O.
  - destruct (Hfd fd Hok) as (f & i & Hf & Hne & Hi). destruct (file_close_ok w s objs tbl fd f I Hf Hne) as (objs' & s1 & E & C).
    intros ->%(Hex _ _ (fun _ => RUnit) _ _ E). apply C.
  - destruct (Hfd fd Hok) as (f & i & Hf & Hne & Hi). destruct (file_read_ok w s objs tbl fd f i n I Hf Hne Hi) as (s1 & E & U & _).
    intros ->%(Hex _ _ RBytes _ _ E). apply U.
  - destruct Hok as [Ho Hn]. destruct (Hfd fd Ho) as (f & i & Hf & Hne & Hi).
    destruct (file_write_ok w s objs tbl fd f i buffer n I Hf Hne Hi Hn) as (k & s1 & E & U & _). intros ->%(Hex _ _ RNum _ _ E). apply U.
  - destruct Hok as [Ho Hp]. destruct (Hfd fd Ho) as (f & i & Hf & Hne & Hi).
    destruct (file_seek_ok w s objs tbl fd f pos I Hf Hne Hp) as (s1 & E & U & _). intros ->%(Hex _ _ (fun _ => RUnit) _ _ E). apply U.
  - destruct (Hfd fd Hok) as (f & i & Hf & Hne & Hi). unfold file_tell.
    rewrite bind_assoc, (bind_ok _ _ _ _ _ (get_file_user s fd f Hf)). by intros [= _ <-].
  - destruct (Hfd fd Hok) as (f & i & Hf & Hne & Hi). unfold file_length, inode_length.
    rewrite bind_assoc, (bind_ok _ _ _ _ _ (get_file_user s fd f Hf)), bind_assoc, (bind_ok _ _ _ _ _ (get_inode_ok s _ i Hi)). by intros [= _ <-].
  - destruct (Hfd fd Hok) as (f & i & Hf & Hne & Hi). destruct (file_deny_ok w s objs tbl fd f I Hf Hne) as (s1 & E & U & _).
    intros ->%(Hex _ _ (fun _ => RUnit) _ _ E). apply U.
  - destruct (Hfd fd Hok) as (f & i & Hf & Hne & Hi). destruct (file_allow_ok w s objs tbl fd f I Hf Hne) as (s1 & E & U & _).
    intros ->%(Hex _ _ (fun _ => RUnit) _ _ E). apply U.
Qed.

(** ** Clients

    A client chooses each operation by the replies so far. *)
Definition client : Type := list reply -> op.

(** The replies and states that the specification allows when it may find the disk full at any
    time; a proper client passes good arguments after every run of the specification. *)
Inductive spec_run (c : client) (a0 : afs) : list reply -> afs -> Prop :=
| sr_start : spec_run c a0 [] a0
| sr_next rs a r a' : spec_run c a0 rs a -> astep True a (c rs) r a' -> spec_run c a0 (rs ++ [r]) a'.
Definition proper (c : client) (a0 : afs) : Prop := forall rs a, spec_run c a0 rs a -> op_ok a (c rs).

(** [n] operations of the client, with what the stack holds before each. *)
Fixpoint run_client (junk : nat -> list Z) (c : client) (n : nat) (rs : list reply) : K (fs D) (list reply) :=
  match n with
  | O => mret rs
  | S n' => r ← exec (junk n) (c rs); run_client junk c n' (rs ++ [r])
  end.

(** A run of the client next to a run of the specification: every reply is allowed, and a file
    that is not created has a bad name or one in use, or finds no room. *)
Inductive follows w (c : client) s0 (a0 : afs) : list reply -> fs D -> afs -> Prop :=
| fo_start : follows w c s0 a0 [] s0 a0
| fo_next rs s a junk r s' a' :
    follows w c s0 a0 rs s a -> exec junk (c rs) s = Ok (r, s') -> astep (full_for w s (c rs)) a (c rs) r a' ->
    follows w c s0 a0 (rs ++ [r]) s' a'.

Lemma astep_weaken (P Q : Prop) a o r a' : (P -> Q) -> astep P a o r a' -> astep Q a o r a'.
Proof.
  intros H St. destruct St; try (by econstructor).
  apply A_create_not. tauto.
Qed.

Lemma follows_spec w c s0 a0 rs s a : follows w c s0 a0 rs s a -> spec_run c a0 rs a.
Proof. induction 1; [constructor|]. econstructor; [done|]. by eapply astep_weaken. Qed.

Lemma client_refines w s0 a0 c junk n :
  proper c a0 -> (forall k, length (junk k) = 20%nat) -> forall rs s a,
  follows w c s0 a0 rs s a -> refines w s a ->
  exists rs' s' a', run_client junk c n rs s = Ok (rs', s') /\ length rs' = (length rs + n)%nat /\
    follows w c s0 a0 rs' s' a' /\ refines w s' a' /\ dirs s' = dirs s.
Proof.
  intros Hc Hj. induction n as [|n IH]; intros rs s a Hf R; simpl.
  { exists rs, s, a. rewrite Nat.add_0_r. by split_and!. }
  assert (Ho : op_ok a (c rs)) by (by eapply Hc, follows_spec).
  destruct (op_refines w s a (c rs) (junk (S n)) R Ho (Hj _)) as (r & s1 & a1 & E & St & R1).
  rewrite (bind_ok _ _ _ _ _ E). destruct (IH (rs ++ [r]) s1 a1) as (rs' & s' & a' & E' & Hl & Hf' & R' & Hd'); [by econstructor|done|].
  exists rs', s', a'. rewrite length_app in Hl. simpl in Hl. split_and!; [done|lia|done..|].
  rewrite Hd'. by eapply op_keeps_dirs.
Qed.

End Refine.
