(* ===== verification/FsMount.v ===== *)
(** Formatting and mounting (filesys/filesys.c, filesys/free-map.c): a formatted disk is an
    empty file system, and a file system that has been shut down is found again. *)

From stdpp Require Import gmap.
From S2P Require Import Prelude KMonad Bytes Bitmap Block Filesys InodeOk FreeMapOk FsInv FsCreate FsOpen FsHandles FsDir FsWorld FsOps FsFiles FsRefine.

(** ** The free map at boot *)

Lemma bitmap_mark_length i b b' : bitmap_mark i b = Ok (tt, b') -> length (bits b') = length (bits b).
Proof.
  unfold bitmap_mark, upd_elem. erewrite bind_ok by reflexivity. destruct (zlookup (bits b) (elem_idx i)); [|done].
  erewrite bind_ok by reflexivity. intros [= <-]. apply zset_length.
Qed.

(** The words of the map as [malloc] may return them. *)
Record map_junk (size : Z) (junk : list Z) : Prop := {
  mj_words : Forall word junk;
  mj_length : len junk = (size + 31) / 32
}.
(** The map of a disk on which only the first two sectors are in use. *)
Record boot_map (size : Z) (b : bitmap) : Prop := {
  bm_ok : bitmap_ok b;
  bm_cnt : bit_cnt b = size;
  bm_length : len (bits b) = (size + 31) / 32;
  bm_bit j : 0 <= j < size -> bit b j = (j <? 2)
}.

Section Boot.
Context {D : Type} `{!BlockDevice D}.
Implicit Types (s : fs D) (objs : list obj) (w : world) (tbl : list (option (list Z * Z))) (a : afs).

Lemma quiet_set_map b s s' : quiet s s' -> quiet (set_map b s) (set_map b s').
Proof. intros [[S1 S2 S3 S4 S5 S6 S7 S8 S9 S10] H]. by split; [split|]. Qed.

Lemma free_map_init_ok junk s :
  memory s = [] -> bd_ok (fs_device s) -> 2 <= bd_size (fs_device s) < 2 ^ 31 -> map_junk (bd_size (fs_device s)) junk ->
  exists b s', free_map_init junk s = Ok (tt, s') /\ boot_map (bd_size (fs_device s)) b /\ quiet (set_map b s) s'.
Proof.
  intros Hm Hok Hsz [J1 J2]. unfold free_map_init. erewrite bind_ok by reflexivity.
  destruct (alloc_ok s Hm) as (p & s1 & E1 & Q1 & _). rewrite (bind_ok _ _ _ _ _ E1).
  destruct (alloc_ok s1) as (q & s2 & E2 & Q2 & _); [by destruct Q1 as [[] _]; congruence|]. rewrite (bind_ok _ _ _ _ _ E2).
  set (n := bd_size (fs_device s)) in *. assert (Hl : n <= 32 * len junk) by (rewrite J2; pose proof (Z.div_mod (n + 31) 32); pose proof (Z.mod_pos_bound (n + 31) 32); lia).
  assert (Hb : bitmap_ok (mkBitmap n junk)) by (split; unfold ELEM_BITS; simpl; [lia|lia|done]).
  destruct (set_multiple_range (mkBitmap n junk) 0 n false Hb) as (b0 & E0 & [(B1 & B2 & B3) B4]); [simpl; lia..|]. simpl in B2, B4.
  assert (Ec : bitmap_create n (Some junk) = Ok (Some b0)).
  { unfold bitmap_create, bitmap_set_all. erewrite bind_ok by reflexivity. simpl bit_cnt. by rewrite E0. }
  rewrite Ec. erewrite bind_ok by reflexivity.
  destruct (bitmap_mark_ok b0 B1 0) as (b1 & M1 & X1 & X2 & X3); [lia|].
  destruct (bitmap_mark_ok b1 X1 1) as (b2 & M2 & Y1 & Y2 & Y3); [lia|].
  exists b2, (set_map b2 s2). split.
  { erewrite bind_ok by (unfold on_map, on_part, FREE_MAP_SECTOR; simpl; rewrite M1; reflexivity).
    unfold on_map, on_part, ROOT_DIR_SECTOR. simpl. by rewrite M2. }
  split; [|apply quiet_set_map; by eapply changes_trans]. pose proof (bitmap_mark_length _ _ _ M1). pose proof (bitmap_mark_length _ _ _ M2).
  split; [done|congruence|rewrite <- J2; lia|]. intros j Hj. rewrite Y3, X3, B3 by lia. unfold within. by case_cmp.
Qed.

(** ** Disks *)

Record same_sectors (d d' : D) : Prop := {
  ss_ok : bd_ok d -> bd_ok d';
  ss_size : bd_size d' = bd_size d;
  ss_sector t : 0 <= t < bd_size d -> bd_sector d' t = bd_sector d t
}.
Lemma same_sectors_refl d : same_sectors d d.
Proof. by split. Qed.
Lemma same_sectors_trans d1 d2 d3 : same_sectors d1 d2 -> same_sectors d2 d3 -> same_sectors d1 d3.
Proof. intros [A1 A2 A3] [B1 B2 B3]. split; [auto|congruence|]. intros t Ht. rewrite B3, A3 by (done || lia). done. Qed.
Lemma quiet_sectors s s' : quiet s s' -> same_sectors (fs_device s) (fs_device s').
Proof. intros [[] H]. split; [done..|]. intros t Ht. apply H; [done|by intros []]. Qed.

Lemma sectors_extent d d' x : same_sectors d d' -> extent_ok d x -> extent_ok d' x.
Proof. intros [_ A2 _] [E1 E2 E3]. split; [done..|]. by rewrite A2. Qed.
Lemma sectors_content d d' x : same_sectors d d' -> extent_ok d x -> content d' x = content d x.
Proof.
  intros [_ A2 A3] [E1 E2 E3]. unfold content, raw. do 2 f_equal. apply list_fmap_ext. intros k t Ht.
  apply lookup_seqZ in Ht as [-> Hk]. apply A3. lia.
Qed.
Lemma sectors_disk s s' objs :
  disk_ok s objs -> same_sectors (fs_device s) (fs_device s') -> (forall t, t ∈ all_owned objs -> bit (free_map s') t = true) -> disk_ok s' objs.
Proof.
  intros [K1 K2 K3 K4] S Hm. split; [by apply S| |done|done]. intros o Ho. destruct (K2 o Ho) as (H1 & H2 & H3).
  split_and!; [by eapply sectors_extent|lia|rewrite (ss_size _ _ S); lia|]. by rewrite (ss_sector _ _ S).
Qed.

(** ** Opening the file of the free map *)

(** No inode, file or directory is open. *)
Record fresh s : Prop := {
  fr_inodes : inodes s = ∅;
  fr_open : open_inodes s = [];
  fr_files : files s = ∅;
  fr_dirs : dirs s = ∅;
  fr_memory : memory s = []
}.
Definition map_node (d0 : inode_disk) : inode := mkInode FREE_MAP_SECTOR 1 false 0 d0.
(** Only the file of the free map is open. *)
Record map_only s (d0 : inode_disk) (ip fp : Z) : Prop := {
  mo_inodes : inodes s = {[ip := map_node d0]};
  mo_open : open_inodes s = [ip];
  mo_files : exists pos, files s = {[fp := mkFile ip pos false]};
  mo_dirs : dirs s = ∅;
  mo_memory : memory s = [];
  mo_pointer : free_map_file s = Some fp;
  mo_brk : ip < brk s /\ fp < brk s
}.
Lemma quiet_map_only s s' d0 ip fp : same_but_device s s' -> map_only s d0 ip fp -> map_only s' d0 ip fp.
Proof. intros [S1 S2 S3 S4 S5 S6 S7 S8 S9 S10] [M1 M2 [pos M3] M4 M5 M6 M7]. split; try congruence; [exists pos; congruence|lia]. Qed.

Lemma open_map_ok {A} s d0 (k : option Z -> K (fs D) A) :
  fresh s -> bd_ok (fs_device s) -> 0 < bd_size (fs_device s) -> disk_inode (bd_sector (fs_device s) FREE_MAP_SECTOR) = d0 ->
  exists ip fp s', (ip ← inode_open FREE_MAP_SECTOR; fp ← file_open ip; modify (set_map_file fp);; k fp) s = k (Some fp) s' /\
    map_only s' d0 ip fp /\ free_map s' = free_map s /\ same_sectors (fs_device s) (fs_device s').
Proof.
  intros [F1 F2 F3 F4 F5] Hok Hsz <-. unfold inode_open. erewrite bind_assoc, bind_ok by reflexivity. rewrite F2. cbn [find_open].
  rewrite bind_assoc, ret_bind. destruct (alloc_ok s F5) as (ip & s1 & E1 & Q1 & Hp1 & Hb1). rewrite bind_assoc, (bind_ok _ _ _ _ _ E1).
  pose proof Q1 as [[A1 A2 A3 A4 A5 A6 A7 A8 A9 A10] Hs1].
  destruct (dev_read_ok s1 FREE_MAP_SECTOR) as (s2 & E2 & Q2); [auto|unfold FREE_MAP_SECTOR; lia|].
  rewrite bind_assoc, (bind_ok _ _ _ _ _ E2). pose proof Q2 as [[B1 B2 B3 B4 B5 B6 B7 B8 B9 B10] Hs2].
  erewrite bind_assoc, bind_ok by reflexivity. rewrite ret_bind. rewrite B3, A3, F1, B4, A4, F2, insert_empty.
  set (s3 := set_inodes _ _ s2). destruct (alloc_ok s3) as (fp & s4 & E4 & Q4 & Hp4 & Hb4); [simpl; congruence|].
  unfold file_open. rewrite bind_assoc, (bind_ok _ _ _ _ _ E4). pose proof Q4 as [[C1 C2 C3 C4 C5 C6 C7 C8 C9 C10] Hs4].
  erewrite bind_assoc, bind_ok by reflexivity. rewrite ret_bind. erewrite bind_ok by reflexivity.
  eexists ip, fp, _. split; [reflexivity|]. simpl in *.
  split; [split; simpl; try congruence|split; [congruence|]].
  - rewrite C3. unfold map_node. do 3 f_equal. apply Hs1; [unfold FREE_MAP_SECTOR; lia|by intros []].
  - exists 0. rewrite C5, B5, A5, F3. by rewrite insert_empty.
  - lia.
  - eapply same_sectors_trans; [by apply quiet_sectors|]. eapply same_sectors_trans; [by apply quiet_sectors|].
    change (fs_device s2) with (fs_device s3). by apply quiet_sectors.
Qed.

Lemma holders_singleton {A} k (v : A) P : holders {[k := v]} P = one (P v).
Proof. rewrite <- insert_empty, holders_insert by done. unfold holders. by rewrite map_filter_empty, map_size_empty, Z.add_0_r. Qed.

Lemma map_only_mem s d0 ip fp objs : map_only s d0 ip fp -> (FREE_MAP_SECTOR, d0) ∈ objs -> mem_ok s objs (held s []).
Proof.
  intros [M1 M2 [pos M3] M4 M5 M6 [M7 M8]] Ho. split; rewrite ?M1, ?M2.
  - done.
  - apply NoDup_singleton.
  - intros p. rewrite list_elem_of_singleton, lookup_singleton_is_Some. done.
  - intros p i [<- <-]%lookup_singleton_Some. unfold held. rewrite M3, M4.
    split; [done| |done| |done]; unfold refs, deniers; simpl; rewrite holders_singleton; simpl; rewrite Z.eqb_refl; done.
  - by intros p q i j [<- <-]%lookup_singleton_Some [<- <-]%lookup_singleton_Some.
  - simpl. rewrite M3. intros q f [<- <-]%lookup_singleton_Some. simpl. split; [|done]. rewrite lookup_singleton_eq. by eexists.
  - simpl. rewrite M4. done.
  - intros p Hp. by apply elem_of_nil in Hp.
Qed.
Lemma map_only_file s d0 ip fp :
  map_only s d0 ip fp -> bd_ok (fs_device s) -> extent_ok (fs_device s) d0 -> length_ d0 = 4 * len (bits (free_map s)) ->
  map_file s fp ip (map_node d0).
Proof.
  intros [M1 M2 [pos M3] M4 M5 M6 M7] Hok He Hl. split; [done| | |done|done].
  - exists pos. by rewrite M3, lookup_singleton_eq.
  - split; [by rewrite M1, lookup_singleton_eq|done..].
Qed.
Lemma map_only_roles s d0 ip fp rd tbl : map_only s d0 ip fp -> roles (mkWorld fp ip (map_node d0) rd) s tbl.
Proof.
  intros [M1 M2 [pos M3] M4 M5 M6 M7]. split; rewrite ?M1, ?M3, ?M4; simpl; try done.
  - by intros q f i [<- <-]%lookup_singleton_Some.
  - by intros q f [<- <-]%lookup_singleton_Some.
  - by intros p i [<- <-]%lookup_singleton_Some.
Qed.

(** ** Reading the map *)

Lemma last_mask_bit b j : 0 <= j < bit_cnt b -> bit_cnt b < 2 ^ 31 -> elem_idx j = (bit_cnt b + 31) / 32 - 1 -> Z.testbit (last_mask b) (j mod ELEM_BITS) = true.
Proof.
  intros Hj Hb He. unfold last_mask, elem_idx, ELEM_BITS in *. pose proof (Z.mod_pos_bound j 32 ltac:(lia)).
  pose proof (Z.mod_pos_bound (bit_cnt b) 32 ltac:(lia)) as Hm.
  destruct (Z.eqb_spec (bit_cnt b mod 32) 0) as [Hz|Hz].
  - unfold wrapu. rewrite Z.mod_pow2_bits_low by lia. by rewrite Z.bits_m1 by lia.
  - unfold wrapu. rewrite Z.mod_pow2_bits_low by lia. rewrite Z.shiftl_1_l, Z.sub_1_r, <- Z.ones_equiv. apply Z.ones_spec_low.
    split; [lia|]. pose proof (Z.div_mod j 32 ltac:(lia)). pose proof (Z.div_mod (bit_cnt b) 32 ltac:(lia)).
    assert ((bit_cnt b + 31) / 32 = bit_cnt b / 32 + 1).
    { symmetry. apply (Z.div_unique _ _ _ (bit_cnt b mod 32 - 1)); lia. }
    lia.
Qed.

(** The bits that are read are those that were written; the last word is cut to the map. *)
Definition same_bits (b b' : bitmap) : Prop :=
  bitmap_ok b' /\ bit_cnt b' = bit_cnt b /\ length (bits b') = length (bits b) /\ forall j, 0 <= j < bit_cnt b -> bit b' j = bit b j.

Lemma read_bits n ws :
  0 < n < 2 ^ 31 -> Forall word ws -> len ws = (n + 31) / 32 ->
  let b := mkBitmap n ws in let last := (n + 31) / 32 - 1 in
  exists x, zlookup ws last = Some x /\ same_bits b (mkBitmap n (zset ws last (Z.land x (last_mask b)))).
Proof.
  intros Hn Hw Hl. cbv zeta. set (last := (n + 31) / 32 - 1). set (b := mkBitmap n ws).
  pose proof (Z.div_mod (n + 31) 32 ltac:(lia)). pose proof (Z.mod_pos_bound (n + 31) 32 ltac:(lia)).
  assert (Hlast : 0 <= last < len ws) by (unfold last; lia). destruct (zlookup_is_Some ws last Hlast) as [x Hx]. exists x. split; [done|].
  assert (Hg : zget 0 ws last = x) by (unfold zget; by rewrite Hx).
  assert (Hxw : word x) by (rewrite <- Hg; eapply Forall_forall; [done|]; by apply zget_in_range).
  split; [split|split; [|split]]; simpl.
  - lia.
  - rewrite zset_length. unfold ELEM_BITS. lia.
  - unfold zset. destruct (0 <=? last); [|done]. apply Forall_insert; [done|]. apply testbit_word; [apply Z.land_nonneg; left; apply Hxw|].
    intros k Hk. by rewrite Z.land_spec, word_testbit.
  - done.
  - apply zset_length.
  - intros j Hj. unfold bit. simpl. destruct (decide (elem_idx j = last)) as [E|E].
    + rewrite E, zget_zset_eq, Z.land_spec, Hg by done. rewrite last_mask_bit; [by rewrite andb_true_r|done|simpl; lia|done].
    + by rewrite zget_zset_ne by done.
Qed.

Lemma bitmap_read_ok s fp ip i b :
  map_ok s -> map_file s fp ip i -> saved_as b (content (fs_device s) (data i)) ->
  bit_cnt b = bd_size (fs_device s) -> length (bits b) = length (bits (free_map s)) ->
  exists b' s', bitmap_read fp s = Ok (true, s') /\ quiet (set_map b' s) s' /\ same_bits b b'.
Proof.
  intros M F (ws & Hws & Hl & Hw & Hbits) Hcnt Hlb. pose proof M as [M1 M2 M3 M4]. pose proof F as [_ [pos F2] F3 _ F5].
  unfold bitmap_read. erewrite bind_ok by reflexivity. rewrite M2, (proj2 (Z.ltb_lt _ _)) by lia. cbv zeta.
  rewrite <- M2, (map_byte_cnt s M), M2. unfold file_read_at. rewrite bind_assoc, (bind_ok _ _ _ _ _ (get_file_ok s fp _ F2)). cbn [f_inode].
  destruct (inode_read_ok s ip i (4 * len (bits (free_map s))) 0 F3) as (s1 & E1 & Q1); [lia|].
  assert (Hlen : len (bits_bytes ws) = 4 * len (bits (free_map s))) by (rewrite bits_bytes_length; lia).
  rewrite F5, Z.sub_0_r, Z.min_id, <- Hlen, Hws, slice_all in E1. rewrite <- Hlen, (bind_ok _ _ _ _ _ E1).
  rewrite splice_all by (rewrite !bits_bytes_length; lia). rewrite <- Hlb, <- Hl, (bytes_words_bits ws Hw).
  destruct (read_bits (bd_size (fs_device s)) ws) as (x & Hx & Hsame); [lia|done|lia|]. cbv zeta in Hsame.
  assert (Ee : Bitmap.elem_cnt (bd_size (fs_device s)) - 1 = (bd_size (fs_device s) + 31) / 32 - 1).
  { unfold Bitmap.elem_cnt, DIV_ROUND_UP, ELEM_BITS. rewrite wrapu_small by lia. do 2 f_equal. lia. }
  rewrite Ee, Hx. erewrite bind_ok by reflexivity. erewrite bind_ok by reflexivity.
  eexists _, _. rewrite Z.eqb_refl. split; [reflexivity|]. split; [by apply quiet_set_map|].
  assert (El : last_mask (free_map s) = last_mask (mkBitmap (bd_size (fs_device s)) ws)) by (unfold last_mask; by rewrite M2). rewrite El.
  destruct Hsame as (S1 & S2 & S3 & S4). split_and!; [done|done|simpl in *; lia|].
  intros j Hj. rewrite S4 by (simpl; lia). rewrite <- Hcnt. by apply Hbits.
Qed.

(** ** Mounting *)

(** A disk that holds the files [objs], with the map [b] in the file of [d0]. *)
Record stored s objs (b : bitmap) (d0 rd : inode_disk) tbl : Prop := {
  st_disk : disk_ok (set_map b s) objs;
  st_cnt : bit_cnt b = bd_size (fs_device s);
  st_words : len (bits b) = (bd_size (fs_device s) + 31) / 32;
  st_size : 2 <= bd_size (fs_device s) < 2 ^ 31;
  st_obj : (FREE_MAP_SECTOR, d0) ∈ objs;
  st_length : length_ d0 = 4 * len (bits b);
  st_saved : saved_as b (content (fs_device s) d0);
  st_listing : listing s objs rd tbl
}.
(** A map in memory of the size of the disk. *)
Record sized s : Prop := {
  sz_ok : bitmap_ok (free_map s);
  sz_cnt : bit_cnt (free_map s) = bd_size (fs_device s);
  sz_words : len (bits (free_map s)) = (bd_size (fs_device s) + 31) / 32
}.

Lemma map_only_fmap s d0 ip fp objs b :
  map_only s d0 ip fp -> disk_ok s objs -> map_ok s -> (FREE_MAP_SECTOR, d0) ∈ objs -> length_ d0 = 4 * len (bits (free_map s)) ->
  saved_as b (content (fs_device s) d0) -> same_bits b (free_map s) -> fmap_ok s objs fp ip (map_node d0).
Proof.
  intros M Dk Mp Ho Hl (ws & H1 & H2 & H3 & H4) (S1 & S2 & S3 & S4). split; [done| |done|].
  - apply map_only_file; [done|apply Dk|by apply (ds_obj _ _ Dk _ Ho)|done].
  - exists ws. split; [done|]. split; [lia|]. split; [done|]. rewrite S2. intros j Hj. rewrite H4, S4 by done. done.
Qed.

Lemma free_map_open_ok s objs b d0 rd tbl :
  fresh s -> sized s -> stored s objs b d0 rd tbl ->
  exists ip fp s', free_map_open s = Ok (tt, s') /\ map_only s' d0 ip fp /\ same_sectors (fs_device s) (fs_device s') /\
    fs_inv (mkWorld fp ip (map_node d0) rd) s' objs [] tbl.
Proof.
  intros Fr [Z1 Z2 Z3] [T1 T2 T3 T4 T5 T6 T7 T8]. pose proof (ds_dev _ _ T1) as Hok. simpl in Hok.
  destruct (ds_obj _ _ T1 _ T5) as (Hext & _ & Hd0). simpl in Hext, Hd0.
  destruct (open_map_ok s d0 (fun fp => fp ← the fp; ok ← bitmap_read fp; ASSERT ok) Fr Hok) as (ip & fp & s1 & E1 & M1 & Hm1 & Hs1); [lia|done|].
  assert (Mp1 : map_ok s1) by (split; rewrite ?Hm1, ?(ss_size _ _ Hs1); done).
  assert (Hlb : length (bits b) = length (bits (free_map s))) by lia.
  assert (Hc1 : content (fs_device s1) d0 = content (fs_device s) d0) by (by apply sectors_content).
  assert (F1 : map_file s1 fp ip (map_node d0)).
  { apply map_only_file; [done|by apply Hs1|by eapply sectors_extent|]. rewrite Hm1. lia. }
  destruct (bitmap_read_ok s1 fp ip (map_node d0) b Mp1 F1) as (b' & s2 & E2 & Q2 & Hb').
  { simpl. by rewrite Hc1. }
  { by rewrite (ss_size _ _ Hs1). }
  { by rewrite Hm1. }
  exists ip, fp, s2. split.
  { unfold free_map_open. rewrite E1. erewrite bind_ok by reflexivity. by rewrite (bind_ok _ _ _ _ _ E2). }
  assert (M2 : map_only s2 d0 ip fp) by (eapply quiet_map_only; [apply Q2|]; destruct M1; by split).
  assert (Hs2 : same_sectors (fs_device s) (fs_device s2)) by (eapply same_sectors_trans; [done|]; by apply (quiet_sectors (set_map b' s1))).
  pose proof Q2 as [[Hm2 _ _ _ _ _ _ _ _ _] _]. simpl in Hm2. pose proof Hb' as (S1 & S2 & S3 & S4).
  split; [done|]. split; [done|].
  assert (Dk2 : disk_ok s2 objs).
  { apply (sectors_disk (set_map b s)); [done|done|]. intros t Ht. rewrite Hm2, S4; [by apply (ds_marked _ _ T1)|].
    apply elem_all_owned in Ht as (o & Ho & Ht). destruct (ds_obj _ _ T1 o Ho) as ([X1 X2 X3] & X4 & _). simpl in *. rewrite T2.
    apply elem_owned in Ht as [->|Ht]; [done|]. unfold in_file in Ht. lia. }
  split; [done|by eapply map_only_mem| | |by eapply map_only_roles].
  - simpl. apply (map_only_fmap s2 d0 ip fp objs b); rewrite ?Hm2; try done.
    + split; rewrite ?Hm2, ?(ss_size _ _ Hs2); (done || congruence || lia).
    + lia.
    + rewrite (sectors_content (fs_device s)); done.
  - simpl. eapply listing_frame; [done| |apply T8|done]. apply sectors_content; [done|].
    by apply (ds_obj _ _ T1 _ (ls_obj _ _ _ _ T8)).
Qed.

(** ** Formatting *)

Lemma close_map_ok s d0 ip fp :
  map_only s d0 ip fp ->
  exists s', free_map_close s = Ok (tt, s') /\ fresh s' /\ fs_device s' = fs_device s /\ free_map s' = free_map s.
Proof.
  intros [M1 M2 [pos M3] M4 M5 M6 M7]. unfold free_map_close. erewrite bind_ok by reflexivity. rewrite M6. unfold file_close, file_allow_write.
  assert (Hf : get_file fp s = Ok (mkFile ip pos false, s)) by (apply get_file_ok; by rewrite M3, lookup_singleton_eq).
  rewrite bind_assoc, (bind_ok _ _ _ _ _ Hf). cbn [deny_write]. rewrite ret_bind, (bind_ok _ _ _ _ _ Hf). unfold inode_close. cbn [f_inode].
  rewrite bind_assoc, (bind_ok _ _ _ _ _ (get_inode_ok s ip (map_node d0) ltac:(by rewrite M1, lookup_singleton_eq))).
  eexists. split; [reflexivity|]. simpl. split; [|done]. split; simpl.
  - by rewrite delete_insert_eq, M1, delete_singleton_eq.
  - rewrite M2, filter_cons_False by (intros H; by apply H). apply filter_nil.
  - by rewrite M3, delete_singleton_eq.
  - done.
  - done.
Qed.

(** The size of the map's file, and that there is room for it and for the directory. *)
Lemma map_file_room size :
  4 <= size < 2 ^ 31 -> let n := 4 * ((size + 31) / 32) in 0 < n < 2 ^ 31 - 512 /\ 1 <= sectors_of n /\ 3 + sectors_of n <= size.
Proof.
  intros Hs. cbv zeta. set (q := (size + 31) / 32). assert (Hq : 32 * q <= size + 31 < 32 * q + 32).
  { unfold q. pose proof (Z.div_mod (size + 31) 32). pose proof (Z.mod_pos_bound (size + 31) 32). lia. }
  pose proof (sectors_of_spec (4 * q) ltac:(lia)). lia.
Qed.

Lemma create_map_ok s :
  memory s = [] -> free_map_file s = None -> disk_ok s [] -> boot_map (bd_size (fs_device s)) (free_map s) -> 4 <= bd_size (fs_device s) < 2 ^ 31 ->
  let n := 4 * len (bits (free_map s)) in
  exists t b' s', inode_create FREE_MAP_SECTOR n s = Ok (true, s') /\ range_set (free_map s) b' t (sectors_of n) true /\
    2 <= t /\ t + sectors_of n <= bd_size (fs_device s) /\
    (exists P, changes P (set_map b' s) s') /\ disk_ok s' [(FREE_MAP_SECTOR, mkInodeDisk t n INODE_MAGIC)].
Proof.
  intros Hm Hnf Dk [B1 B2 B3 B4] Hsz. cbv zeta. rewrite B3. set (n := 4 * ((bd_size (fs_device s) + 31) / 32)).
  destruct (map_file_room _ Hsz) as (Hn & Hsec & Hroom). fold n in Hn, Hsec, Hroom.
  unfold inode_create. rewrite ASSERT_true by (apply Z.leb_le; lia).
  destruct (alloc_ok s Hm) as (p & s1 & E1 & Q1 & _). rewrite (bind_ok _ _ _ _ _ E1). cbv zeta. rewrite bytes_to_sectors_eq by lia.
  pose proof Q1 as [[S1 S2 _ _ _ _ _ S8 S9 S10] _].
  destruct (flip_range (free_map s) (sectors_of n) B1) as [[_ Hno]|(t & b' & E & Hne & Ht & Htc & Hg & R)]; [lia|lia| |].
  { destruct (Hno 2); [lia|rewrite B2; lia|]. intros j Hj. rewrite B4 by lia. apply Z.ltb_ge. lia. }
  rewrite B2 in Htc.
  assert (Ht2 : 2 <= t) by (pose proof (Hg t ltac:(lia)) as H; rewrite B4 in H by lia; by apply Z.ltb_ge in H).
  assert (Ea : free_map_allocate (sectors_of n) s1 = Ok (Some t, set_map b' s1)).
  { unfold free_map_allocate. erewrite bind_ok by (unfold on_map, on_part; rewrite S1, E; reflexivity). erewrite bind_ok by reflexivity.
    simpl free_map_file. rewrite S2, Hnf, (proj2 (Z.eqb_neq _ _) Hne). done. }
  rewrite (bind_ok _ _ _ _ _ Ea). pose proof R as [(R1 & R2 & R3) R4].
  destruct (write_new (set_map b' s1) [] FREE_MAP_SECTOR t n) as (s2 & E2 & C2 & Dk2 & _); simpl; try (unfold FREE_MAP_SECTOR; lia).
  - apply set_map_disk; [eapply changes_disk; [exact Q1|done|by intros o Ho%elem_of_nil]|]. intros u Hu. by apply elem_of_nil in Hu.
  - unfold in_file, FREE_MAP_SECTOR. simpl. lia.
  - intros u Hu. split; [|apply not_elem_of_nil]. apply elem_owned in Hu as [->|Hu]; simpl.
    + unfold FREE_MAP_SECTOR. rewrite R3, B4 by lia. by destruct (within _ _ _).
    + unfold in_file in Hu. simpl in Hu. rewrite R3 by lia. unfold within. by case_cmp.
  - exists t, b', s2. split; [exact E2|]. split_and!; try done. exists (fun u => u ∈ owned (FREE_MAP_SECTOR, mkInodeDisk t n INODE_MAGIC)).
    eapply changes_trans; [|exact C2]. apply quiet_changes, quiet_set_map. done.
Qed.

Lemma boot_map_ok s : boot_map (bd_size (fs_device s)) (free_map s) -> 4 <= bd_size (fs_device s) < 2 ^ 31 -> map_ok s.
Proof. intros [B1 B2 B3 B4] Hs. split; [done|done|lia|done]. Qed.

Record map_made s (d0 : inode_disk) (ip fp : Z) s' : Prop := {
  mk_only : map_only s' d0 ip fp;
  mk_disk : disk_ok s' [(FREE_MAP_SECTOR, d0)];
  mk_fmap : fmap_ok s' [(FREE_MAP_SECTOR, d0)] fp ip (map_node d0);
  mk_size : bd_size (fs_device s') = bd_size (fs_device s);
  mk_start : 2 <= start d0 /\ start d0 + sectors_of (length_ d0) <= bd_size (fs_device s);
  mk_length : length_ d0 = 4 * ((bd_size (fs_device s) + 31) / 32);
  mk_bit j : 0 <= j < bd_size (fs_device s) -> bit (free_map s') j = (j <? 2) || within (start d0) (sectors_of (length_ d0)) j
}.

Lemma free_map_create_ok s :
  fresh s -> free_map_file s = None -> bd_ok (fs_device s) -> boot_map (bd_size (fs_device s)) (free_map s) -> 4 <= bd_size (fs_device s) < 2 ^ 31 ->
  exists ip fp d0 s', free_map_create s = Ok (tt, s') /\ map_made s d0 ip fp s'.
Proof.
  intros Fr Hnf Hok Bm Hsz. pose proof (boot_map_ok s Bm Hsz) as Mp. pose proof Fr as [F1 F2 F3 F4 F5]. pose proof Bm as [B1 B2 B3 B4].
  assert (Dk0 : disk_ok s []) by (split; [done|by intros o Ho%elem_of_nil|constructor|intros u Hu; by apply elem_of_nil in Hu]).
  unfold free_map_create, bitmap_file_size. erewrite bind_assoc, bind_ok by reflexivity. rewrite ret_bind, (map_byte_cnt s Mp).
  destruct (create_map_ok s F5 Hnf Dk0 Bm Hsz) as (t & b' & s1 & E1 & R & Ht & Hte & [P C1] & Dk1). cbv zeta in *.
  set (n := 4 * len (bits (free_map s))) in *. set (d0 := mkInodeDisk t n INODE_MAGIC) in *.
  rewrite (bind_ok _ _ _ _ _ E1), ASSERT_true by done. pose proof C1 as [[S1 S2 S3 S4 S5 S6 S7 S8 S9 S10] _]. simpl in *.
  assert (Fr1 : fresh s1) by (split; congruence). destruct (ds_obj _ _ Dk1 (FREE_MAP_SECTOR, d0)) as (Hext & _ & Hd0); [constructor|]. simpl in Hext, Hd0.
  destruct (open_map_ok s1 d0 (fun fp => fp ← the fp; ok ← bitmap_write fp; ASSERT ok) Fr1) as (ip & fp & s2 & E2 & M2 & Hm2 & Hs2); [apply Dk1|lia|done|].
  pose proof R as [(R1 & R2 & R3) R4]. assert (Hm1 : free_map s2 = b') by congruence.
  assert (Hsz2 : bd_size (fs_device s2) = bd_size (fs_device s)) by (rewrite (ss_size _ _ Hs2); congruence).
  assert (Mp2 : map_ok s2) by (split; rewrite ?Hm1, ?Hsz2; (done || congruence || lia)).
  assert (F2' : map_file s2 fp ip (map_node d0)).
  { apply map_only_file; [done|apply Hs2, Dk1|by eapply sectors_extent|]. rewrite Hm1. simpl. unfold n. lia. }
  destruct (bitmap_write_ok s2 fp ip (map_node d0) Mp2 F2') as (s3 & E3 & C3 & Hc3). simpl in C3, Hc3.
  pose proof C3 as [Sd3 _]. pose proof Sd3 as [T1 _ _ _ _ _ _ _ _ T10].
  assert (M3 : map_only s3 d0 ip fp) by (by eapply quiet_map_only).
  assert (Dk2 : disk_ok s2 [(FREE_MAP_SECTOR, d0)]).
  { apply (sectors_disk s1); [done|done|]. rewrite Hm2. apply Dk1. }
  assert (Dk3 : disk_ok s3 [(FREE_MAP_SECTOR, d0)]).
  { eapply changes_disk; [done|done|]. intros o ->%list_elem_of_singleton. apply (inode_not_in_file s2 [(FREE_MAP_SECTOR, d0)] (FREE_MAP_SECTOR, d0)); [done|constructor]. }
  exists ip, fp, d0, s3. split; [rewrite E2; erewrite bind_ok by reflexivity; by rewrite (bind_ok _ _ _ _ _ E3)|].
  split; try done.
  - apply (map_only_fmap s3 d0 ip fp _ b'); rewrite ?T1, ?Hm1; try done.
    + split; rewrite ?T1, ?T10; apply Mp2.
    + constructor.
    + simpl. unfold n. lia.
    + rewrite Hc3, Hm1. by apply saved_as_bits.
  - congruence.
  - simpl. unfold n. by rewrite B3.
  - intros j Hj. simpl. rewrite T1, Hm1, R3, B4 by lia. destruct (within t (sectors_of n) j); [by rewrite orb_true_r|by rewrite orb_false_r].
Qed.

(** The root directory of a new file system. *)
Lemma empty_root s objs rd :
  (ROOT_DIR_SECTOR, rd) ∈ objs -> length_ rd = 320 -> content (fs_device s) rd = replicate 320 0 -> listing s objs rd (replicate 16 None).
Proof.
  intros Ho Hl Hc. assert (Hno : forall k x, replicate 16 (@None (list Z * Z)) !! k <> Some (Some x)) by (intros k x [[=] _]%lookup_replicate_1).
  split; try done.
  - rewrite Hc. vm_compute. reflexivity.
  - intros k name t Hk. by apply Hno in Hk.
  - intros name t [k Hk]. by apply Hno in Hk.
  - intros j k name t t' Hk. by apply Hno in Hk.
  - intros j k name name' t Hk. by apply Hno in Hk.
Qed.

Lemma dir_create_ok s d0 ip fp s0 :
  map_made s0 d0 ip fp s -> 4 <= bd_size (fs_device s0) < 2 ^ 31 ->
  exists rd s', dir_create ROOT_DIR_SECTOR 16 s = Ok (true, s') /\ map_only s' d0 ip fp /\ disk_ok s' [(ROOT_DIR_SECTOR, rd); (FREE_MAP_SECTOR, d0)] /\
    fmap_ok s' [(FREE_MAP_SECTOR, d0)] fp ip (map_node d0) /\ length_ rd = 320 /\ content (fs_device s') rd = replicate 320 0 /\
    bd_size (fs_device s') = bd_size (fs_device s).
Proof.
  intros [M Dk Fm Hsz [Hst Hse] Hlen Hbit] Hs0. unfold dir_create. change (s32 (u32 (16 * DIR_ENTRY_SIZE))) with 320.
  assert (Ho : (FREE_MAP_SECTOR, d0) ∈ [(FREE_MAP_SECTOR, d0)]) by constructor.
  pose proof (map_only_mem s d0 ip fp _ M Ho) as Mm. destruct (map_file_room _ Hs0) as (Hn & Hsec & Hroom). rewrite <- Hlen in Hn, Hsec, Hroom.
  destruct (inode_create_ok s _ _ fp ip _ ROOT_DIR_SECTOR 320 Dk Mm Fm) as (ok & s' & E & M' & Fm' & _ & So & H').
  - lia.
  - rewrite Hsz. unfold ROOT_DIR_SECTOR. lia.
  - rewrite Hbit by (unfold ROOT_DIR_SECTOR; lia). done.
  - unfold all_owned. simpl. rewrite app_nil_r, elem_of_cons, elem_of_seqZ. unfold ROOT_DIR_SECTOR, FREE_MAP_SECTOR. lia.
  - assert (Hone : sectors_of 320 = 1) by done. destruct ok.
    2:{ destruct H' as [_ Hfull _]. rewrite Hone in Hfull. exfalso.
        destruct (decide (start d0 = 2)) as [E2|E2]; [apply (Hfull (2 + sectors_of (length_ d0)))|apply (Hfull 2)]; try lia;
          intros j Hj; rewrite Hbit by lia; unfold within; by case_cmp. }
    destruct H' as [f [C1 C2 C3 C4 C5]]. exists (mkInodeDisk f 320 INODE_MAGIC), s'. destruct So as [S1 S2 S3 S4 S5 S6].
    split_and!; try done. destruct M as [X1 X2 [pos X3] X4 X5 X6 X7]. split; try congruence.
    + exists pos. congruence.
    + apply M'.
    + split.
      * apply (io_brk _ _ _ _ _ (mm_inode _ _ _ M' ip (map_node d0) ltac:(by rewrite S2, X1, lookup_singleton_eq))).
      * apply (mm_files _ _ _ M' fp (mkFile ip pos false)). simpl. by rewrite X3, lookup_singleton_eq.
Qed.

Lemma refines_empty fp ip d0 rd s objs :
  map_only s d0 ip fp -> fs_inv (mkWorld fp ip (map_node d0) rd) s objs [] (replicate 16 None) ->
  refines (mkWorld fp ip (map_node d0) rd) s (mkAfs ∅ ∅ ∅).
Proof.
  intros M I. destruct (mo_files _ _ _ _ M) as [pos Hfiles]. exists objs, (replicate 16 None). split; [done|]. split.
  - intros name id. cbn [a_names]. rewrite lookup_empty. split; [done|]. intros [k Hk]. by apply lookup_replicate_1 in Hk as [[=] _].
  - intros fd. simpl. rewrite Hfiles, lookup_empty. destruct (decide (fd = fp)) as [|Hne]; [done|]. by rewrite lookup_singleton_ne.
  - intros id bs. simpl. rewrite lookup_empty. split; [done|]. by intros [[(n & j & Hn & _)|(q & x & Hq & _)] _].
Qed.

(** The state at boot, when no part of the file system has been used. *)
Record booted s : Prop := {
  bt_fresh : fresh s;
  bt_file : free_map_file s = None
}.

Lemma do_format_ok s :
  booted s -> bd_ok (fs_device s) -> boot_map (bd_size (fs_device s)) (free_map s) -> 4 <= bd_size (fs_device s) < 2 ^ 31 ->
  exists w s', (do_format;; free_map_open) s = Ok (tt, s') /\ refines w s' (mkAfs ∅ ∅ ∅) /\ dirs s' = ∅ /\
    bd_size (fs_device s') = bd_size (fs_device s).
Proof.
  intros [Fr Hnf] Hok Bm Hsz. unfold do_format.
  destruct (free_map_create_ok s Fr Hnf Hok Bm Hsz) as (ip & fp & d0 & s1 & E1 & Mm). pose proof (mk_size _ _ _ _ _ Mm) as Hsz1.
  rewrite !bind_assoc, (bind_ok _ _ _ _ _ E1).
  destruct (dir_create_ok s1 d0 ip fp s Mm Hsz) as (rd & s2 & E2 & M2 & Dk2 & Fm2 & Hl & Hc & Hsz2).
  rewrite bind_assoc, (bind_ok _ _ _ _ _ E2), bind_assoc, ASSERT_true by done.
  destruct (close_map_ok s2 d0 ip fp M2) as (s3 & E3 & Fr3 & Hdev & Hmap). rewrite (bind_ok _ _ _ _ _ E3).
  destruct Fm2 as [[P1 P2 P3 P4] F2 F3 F4].
  destruct (free_map_open_ok s3 [(ROOT_DIR_SECTOR, rd); (FREE_MAP_SECTOR, d0)] (free_map s2) d0 rd (replicate 16 None) Fr3) as (ip' & fp' & s4 & E4 & M4 & S4 & I4).
  - split; by rewrite ?Hdev, ?Hmap.
  - split; rewrite ?Hdev; try done.
    + by destruct Dk2; split; simpl; rewrite ?Hdev.
    + constructor. constructor.
    + apply F2.
    + apply empty_root; [constructor|done|by rewrite Hdev].
  - exists (mkWorld fp' ip' (map_node d0) rd), s4. split; [done|].
    split; [by eapply refines_empty|]. split; [apply M4|]. rewrite (ss_size _ _ S4). congruence.
Qed.

Lemma init_start junk d s :
  booted s -> bd_ok d -> 2 <= bd_size d < 2 ^ 31 -> map_junk (bd_size d) junk ->
  exists b s', (inode_init;; free_map_init junk) (set_device d s) = Ok (tt, s') /\ booted s' /\ boot_map (bd_size d) b /\
    free_map s' = b /\ same_sectors d (fs_device s').
Proof.
  intros [[F1 F2 F3 F4 F5] Hnf] Hok Hsz Hj. erewrite bind_ok by reflexivity.
  destruct (free_map_init_ok junk (set_inodes (inodes s) [] (set_device d s))) as (b & s' & E & Bm & Q); [done..|].
  exists b, s'. split; [exact E|]. pose proof Q as [[S1 S2 S3 S4 S5 S6 S7 S8 S9 S10] _]. simpl in *.
  split; [split; [split|]; congruence|]. split; [done|]. split; [done|].
  exact (quiet_sectors _ _ Q).
Qed.

(** ** Shutting down and mounting again *)

Lemma idle_inode w s objs tbl p i :
  fs_inv w s objs [] tbl -> (forall q f, files s !! q = Some f -> q = w_fp w) -> dirs s = ∅ -> inodes s !! p = Some i -> p = w_ip w.
Proof.
  intros I Hf Hd Hp. pose proof I as [Dk M Fm L R]. destruct (mm_inode _ _ _ M p i Hp) as [_ I2 I3 _ _].
  destruct (mf_file _ _ _ _ (fm_file _ _ _ _ _ Fm)) as [pos Hfp]. destruct (decide (p = w_ip w)) as [|Hne]; [done|].
  exfalso. rewrite I2 in I3. unfold refs in I3. simpl in I3. rewrite Hd, !holders_zero in I3; [done|done|].
  intros q f Hq. pose proof (Hf q f Hq) as ->. rewrite Hfp in Hq. injection Hq as <-. apply Z.eqb_neq. simpl. congruence.
Qed.

Lemma idle_map_only w s objs tbl :
  fs_inv w s objs [] tbl -> (forall q f, files s !! q = Some f -> q = w_fp w) -> dirs s = ∅ ->
  map_only s (data (w_im w)) (w_ip w) (w_fp w) /\ w_im w = map_node (data (w_im w)).
Proof.
  intros I Hf Hd. pose proof I as [Dk M Fm L R]. pose proof (map_inode _ _ _ _ _ I) as Hip.
  destruct (mf_file _ _ _ _ (fm_file _ _ _ _ _ Fm)) as [pos Hfp].
  assert (Hfiles : files s = {[w_fp w := mkFile (w_ip w) pos false]}).
  { apply map_eq. intros q. destruct (decide (q = w_fp w)) as [->|Hne]; [by rewrite lookup_singleton_eq|].
    rewrite lookup_singleton_ne by done. destruct (files s !! q) as [f|] eqn:E; [|done]. by apply Hf in E. }
  destruct (mm_inode _ _ _ M _ _ Hip) as [_ I2 I3 _ I5].
  assert (Him : w_im w = map_node (data (w_im w))).
  { destruct (w_im w) as [sec cnt rm dn dt] eqn:E. unfold map_node. simpl in *. f_equal.
    - apply (f_equal i_sector) in E. simpl in E. rewrite <- E. apply R.
    - rewrite I2. unfold refs. simpl. rewrite Hfiles, Hd, holders_singleton. simpl. by rewrite Z.eqb_refl.
    - destruct rm; [|done]. destruct (ro_removed _ _ _ R _ _ Hip eq_refl) as (H & _). destruct H. pose proof (ro_map _ _ _ R) as H.
      by rewrite E in H.
    - exact (mf_deny _ _ _ _ (fm_file _ _ _ _ _ Fm)). }
  split; [|done]. rewrite Him in Hip. split; try done; [| |by exists pos|apply M|apply Fm|split; [done|apply (mm_files _ _ _ M _ _ Hfp)]].
  - apply map_eq. intros q. destruct (decide (q = w_ip w)) as [->|Hne]; [by rewrite lookup_singleton_eq|].
    rewrite lookup_singleton_ne by done. destruct (inodes s !! q) as [j|] eqn:E; [|done]. by apply (idle_inode w s objs tbl) in E.
  - pose proof (mm_nodup _ _ _ M) as Hnd. pose proof (mm_dom _ _ _ M) as Hdom.
    assert (Hall : forall q, q ∈ open_inodes s -> q = w_ip w).
    { intros q Hq. apply Hdom in Hq as [j Hj]. by eapply idle_inode. }
    assert (Hin : w_ip w ∈ open_inodes s) by (apply Hdom; by eexists).
    destruct (open_inodes s) as [|x l]; [by apply elem_of_nil in Hin|]. rewrite (Hall x) by constructor.
    destruct l as [|y l]; [done|]. exfalso. apply NoDup_cons in Hnd as [Hx _]. apply Hx. rewrite (Hall x) by constructor.
    rewrite (Hall y) by (constructor; constructor). constructor.
Qed.

Lemma stored_idle w s objs tbl s' :
  fs_inv w s objs [] tbl -> same_sectors (fs_device s) (fs_device s') ->
  stored s' objs (free_map s) (data (w_im w)) (w_rd w) tbl.
Proof.
  intros I S. pose proof I as [Dk M [Mp F Ho Hsv] L R]. destruct Mp as [P1 P2 P3 P4].
  assert (Hob : (FREE_MAP_SECTOR, data (w_im w)) ∈ objs) by (by rewrite <- (ro_map _ _ _ R)).
  assert (Hc : forall o, o ∈ objs -> content (fs_device s') o.2 = content (fs_device s) o.2).
  { intros o Hin. apply sectors_content; [done|]. by apply (ds_obj _ _ Dk). }
  pose proof (ss_size _ _ S) as Hsz. split; try (rewrite ?Hsz; done).
  - apply (sectors_disk s); [done|done|]. apply Dk.
  - apply F.
  - pose proof (Hc _ Hob) as E. simpl in E. by rewrite E.
  - eapply listing_frame; [done|apply (Hc _ (ls_obj _ _ _ _ L))|apply L|done].
Qed.

Lemma remount_ok w s a s1 junk :
  refines w s a -> a_files a = ∅ -> dirs s = ∅ -> booted s1 -> map_junk (bd_size (fs_device s)) junk ->
  exists s', filesys_done s = Ok (tt, s') /\
  exists w' s2, filesys_init (Some (fs_device s')) junk false s1 = Ok (tt, s2) /\ refines w' s2 a /\ dirs s2 = ∅.
Proof.
  intros (objs & tbl & I & A) Hfd Hd Bt Hj. pose proof I as [Dk M Fm L R]. destruct (fm_map _ _ _ _ _ Fm) as [P1 P2 P3 P4].
  assert (Hf : forall q f, files s !! q = Some f -> q = w_fp w).
  { intros q f Hq. pose proof (ab_files _ _ _ _ _ A q) as H. rewrite Hfd, lookup_empty, Hq in H. by destruct (decide (q = w_fp w)). }
  destruct (idle_map_only w s objs tbl I Hf Hd) as [Mo Him].
  destruct (close_map_ok s _ _ _ Mo) as (s' & E & _ & Hdev & _). exists s'. split; [done|]. rewrite Hdev.
  destruct (init_start junk (fs_device s) s1 Bt (ds_dev _ _ Dk)) as (b & s2 & E2 & [Fr2 Hnf2] & [B1 B2 B3 B4] & Hb & S2); [lia|done|].
  destruct (free_map_open_ok s2 objs (free_map s) (data (w_im w)) (w_rd w) tbl Fr2) as (ip & fp & s3 & E3 & M3 & S3 & I3).
  { split; by rewrite ?Hb, ?(ss_size _ _ S2). }
  { by apply stored_idle. }
  exists (mkWorld fp ip (map_node (data (w_im w))) (w_rd w)), s3. split.
  { unfold filesys_init. erewrite bind_ok by reflexivity. erewrite bind_ok by reflexivity. rewrite <- bind_assoc, (bind_ok _ _ _ _ _ E2).
    by rewrite ret_bind. }
  split; [|apply M3]. exists objs, tbl. split; [done|]. split; [apply A| |].
  - intros fd. rewrite Hfd, lookup_empty. destruct (mo_files _ _ _ _ M3) as [pos ->]. simpl. destruct (decide (fd = fp)) as [|Hne]; [done|].
    by rewrite lookup_singleton_ne.
  - intros id bs. rewrite (ab_bytes _ _ _ _ _ A). split; intros [Ha (d & Ho & Hc)]; (split; [done|]); exists d; (split; [done|]); rewrite <- Hc; [|symmetry];
      (apply sectors_content; [by eapply same_sectors_trans|by apply (ds_obj _ _ Dk _ Ho)]).
Qed.

End Boot.
