(* ===== verification/FsProps.v ===== *)
(** What the file system promises (filesys/): formatting makes an empty file system, every
    operation does what the specification of files says, the files are found again after a
    shutdown, what happens to the sectors of a file that cannot be created, and what a failed
    allocation may do. *)

From stdpp Require Import gmap.
From S2P Require Import Prelude KMonad Bytes Bitmap Block Filesys InodeOk FreeMapOk FsInv FsCreate FsOpen FsHandles FsDir FsWorld FsOps FsFiles FsRefine FsMount.

Section Props.
Context {D : Type} `{!BlockDevice D}.
Implicit Types (s : fs D) (w : world) (a : afs).

Lemma format_ok d junk s :
  bd_ok d -> 4 <= bd_size d < 2 ^ 31 -> map_junk (bd_size d) junk -> booted s ->
  exists w s', filesys_init (Some d) junk true s = Ok (tt, s') /\ refines w s' (mkAfs ∅ ∅ ∅) /\ dirs s' = ∅ /\
    bd_size (fs_device s') = bd_size d.
Proof.
  intros Hok Hsz Hj Bt. destruct (init_start junk d s Bt Hok) as (b & s1 & E1 & Bt1 & Bm & Hb & S1); [lia|done|].
  rewrite <- Hb in Bm. destruct (do_format_ok s1 Bt1) as (w & s2 & E2 & R & Hd & Hsz2); rewrite ?(ss_size _ _ S1); [by apply S1|done|lia|].
  exists w, s2. split; [|rewrite <- (ss_size _ _ S1); done]. unfold filesys_init. erewrite bind_ok by reflexivity. erewrite bind_ok by reflexivity.
  rewrite <- bind_assoc, (bind_ok _ _ _ _ _ E1). exact E2.
Qed.

(** [filesys_init] with the format option, at boot, on any block device of at least four
    sectors: it does not panic, and the file system it leaves stands for the one without
    names, files and open files. *)
Theorem format_makes_empty d junk s :
  bd_ok d -> 4 <= bd_size d < 2 ^ 31 -> map_junk (bd_size d) junk -> booted s ->
  exists w s', filesys_init (Some d) junk true s = Ok (tt, s') /\ refines w s' (mkAfs ∅ ∅ ∅).
Proof. intros Hok Hsz Hj Bt. destruct (format_ok d junk s Hok Hsz Hj Bt) as (w & s' & E & R & _). eauto. Qed.

(** C25: As long as no allocation of memory fails ([memory s = []]), the file system refines the
    specification of files as arrays of bytes with names: in any state that stands for a state [a]
    of the specification, every operation on names and on open files returns without a panic, with a
    reply that the specification allows, in a state that stands for the specification's next state.
    A file is created unless its name is bad or in use or there is no room; removed files stay
    readable until the last close; writes are cut at the end of the file and refused while the file
    is protected. *)
Theorem filesystem_refines w s a o junk :
  refines w s a -> memory s = [] -> op_ok a o -> length junk = 20%nat ->
  exists r s' a', exec junk o s = Ok (r, s') /\ astep (full_for w s o) a o r a' /\ refines w s' a' /\ memory s' = [].
Proof.
  intros R _ Ho Hj. destruct (op_refines w s a o junk R Ho Hj) as (r & s' & a' & E & St & R').
  exists r, s', a'. split_and!; try done. by eapply refines_memory.
Qed.

Lemma format_client d junk s0 c n stack :
  bd_ok d -> 4 <= bd_size d < 2 ^ 31 -> map_junk (bd_size d) junk -> booted s0 ->
  proper c (mkAfs ∅ ∅ ∅) -> (forall k, length (stack k) = 20%nat) ->
  exists w s rs s' a, filesys_init (Some d) junk true s0 = Ok (tt, s) /\ run_client stack c n [] s = Ok (rs, s') /\
    length rs = n /\ follows w c s (mkAfs ∅ ∅ ∅) rs s' a /\ refines w s' a /\ dirs s' = ∅.
Proof.
  intros Hok Hsz Hj Bt Hc Hst. destruct (format_ok d junk s0 Hok Hsz Hj Bt) as (w & s & E & R & Hd & _).
  destruct (client_refines w s (mkAfs ∅ ∅ ∅) c stack n Hc Hst [] s (mkAfs ∅ ∅ ∅)) as (rs & s' & a & E' & Hl & Hf & R' & Hd');
    [constructor|done|]. exists w, s, rs, s', a. split_and!; try done. by rewrite Hd', Hd.
Qed.

(** C26: What is on the disk survives, as long as no allocation of memory fails: after a disk has been
    formatted, and a client has done any number of operations that leave no file open, [filesys_done]
    and a later boot with [filesys_init] on the same disk, without formatting, give a file system with
    the names and the contents that the client has left. *)
Theorem remount_finds_files d junk s0 c n stack :
  bd_ok d -> 4 <= bd_size d < 2 ^ 31 -> map_junk (bd_size d) junk -> booted s0 -> memory s0 = [] ->
  proper c (mkAfs ∅ ∅ ∅) -> (forall k, length (stack k) = 20%nat) ->
  exists w s rs s' a, filesys_init (Some d) junk true s0 = Ok (tt, s) /\ run_client stack c n [] s = Ok (rs, s') /\
    length rs = n /\ follows w c s (mkAfs ∅ ∅ ∅) rs s' a /\
    forall s1 junk1, a_files a = ∅ -> booted s1 -> memory s1 = [] -> map_junk (bd_size (fs_device s')) junk1 ->
      exists s'', filesys_done s' = Ok (tt, s'') /\
      exists w' s2, filesys_init (Some (fs_device s'')) junk1 false s1 = Ok (tt, s2) /\ refines w' s2 a.
Proof.
  intros Hok Hsz Hj Bt _ Hc Hst. destruct (format_client d junk s0 c n stack Hok Hsz Hj Bt Hc Hst) as (w & s & rs & s' & a & E & E' & Hl & Hf & R & Hd).
  exists w, s, rs, s', a. split_and!; try done. intros s1 junk1 Ha Bt1 _ Hj1.
  destruct (remount_ok w s' a s1 junk1 R Ha Hd Bt1 Hj1) as (s'' & E1 & w' & s2 & E2 & R2 & _). eauto 10.
Qed.

(** A failed creation has marked the sectors for the data of the file as used. *)
Definition loses s (n : Z) s' : Prop := exists first,
  0 <= first /\ first + sectors_of n <= bd_size (fs_device s) /\
  (forall u, first <= u < first + sectors_of n -> bit (free_map s) u = false) /\
  (forall u, 0 <= u -> bit (free_map s') u = bit (free_map s) u || within first (sectors_of n) u).

(** C27: A creation that fails because of its name loses sectors, in every state in which no
    allocation of memory fails.  When the name is in use or bad, [filesys_create] returns false and
    leaves all names and files as they are; but when there were sectors for the file, as many sectors
    as its data would have taken, which were free, are marked as used from then on, although no
    file has them. *)
Theorem failed_create_leaks w s a name n junk :
  refines w s a -> memory s = [] -> op_ok a (Create name n) -> length junk = 20%nat ->
  ~ name_ok name \/ is_Some (a_names a !! name) ->
  exists s', filesys_create name n junk s = Ok (false, s') /\ refines w s' a /\ (no_sectors s n \/ loses s n s').
Proof.
  intros (objs & tbl & I & A) _ [Hn Hs] Hj Hbad.
  destruct (filesys_create_ok w s objs tbl name n junk I Hn Hj Hs) as (ok & s' & E & Hd & V & H). exists s'. destruct ok.
  - destruct H as (t & d & k & Hok & Hno & _). destruct Hbad as [?|[id Hid]]; [done|].
    destruct Hno. apply A in Hid as [j Hj']. by exists j, id.
  - destruct H as (I' & _ & Hl). split; [done|]. split; [exists objs, tbl; split; [done|by apply (abs_same w s)]|].
    destruct Hl as [?|(first & H1 & H2 & H3 & H4)]; [by left|right]. exists first. split_and!; [done..| |].
    + intros u Hu. by apply H3.
    + intros u Hu. rewrite (H4 u Hu), (bool_decide_false (None = Some u)) by done. by rewrite orb_false_r.
Qed.
End Props.

(** ** A disk *)

Definition blank_disk (n : Z) : mounted :=
  mkMounted (mkDevices [mkBlock [] BLOCK_FILESYS n (ide_operations (fun _ => replicate 512 0)) 0 0] []) 0.
Definition boot_fs (n : Z) : fs mounted := mkFs (blank_disk n) (mkBitmap 0 []) None ∅ [] ∅ ∅ 1 [].

Lemma blank_disk_ok : bd_ok (blank_disk 16).
Proof.
  split.
  - intros id b Hb. apply list_lookup_singleton_Some in Hb as [-> <-]. split; [done|]. simpl. intros t _. reflexivity.
  - eexists. split; [done|]. vm_compute. discriminate.
Qed.
Lemma blank_junk : map_junk (bd_size (blank_disk 16)) [0xcccccccc].
Proof. split; [|done]. constructor; [|constructor]. split; [discriminate|done]. Qed.
Lemma boot_fs_booted : booted (boot_fs 16).
Proof. by split. Qed.

Lemma format_makes_empty_witness :
  exists w s', filesys_init (Some (blank_disk 16)) [0xcccccccc] true (boot_fs 16) = Ok (tt, s') /\ refines w s' (mkAfs ∅ ∅ ∅).
Proof.
  apply (format_makes_empty (blank_disk 16) [0xcccccccc] (boot_fs 16) blank_disk_ok); [split; [discriminate|reflexivity]|exact blank_junk|exact boot_fs_booted].
Defined.
Lemma filesystem_refines_witness :
  exists w s r s' a', filesys_init (Some (blank_disk 16)) [0xcccccccc] true (boot_fs 16) = Ok (tt, s) /\
    exec (replicate 20 0) (Create [97] 700) s = Ok (r, s') /\
    astep (full_for w s (Create [97] 700)) (mkAfs ∅ ∅ ∅) (Create [97] 700) r a' /\ refines w s' a' /\ memory s' = [].
Proof.
  destruct (format_ok (blank_disk 16) [0xcccccccc] (boot_fs 16) blank_disk_ok ltac:(split; [discriminate|reflexivity]) blank_junk boot_fs_booted)
    as (w & s & E & R & _).
  destruct (filesystem_refines w s (mkAfs ∅ ∅ ∅) (Create [97] 700) (replicate 20 0) R (refines_memory w s _ R)) as (r & s' & a' & H).
  - split; [repeat constructor; discriminate|split; [discriminate|reflexivity]].
  - reflexivity.
  - exists w, s, r, s', a'. split; [exact E|exact H].
Defined.

(** A client that makes a file, writes three bytes into it, and closes it. *)
Definition ex_client : client := fun rs =>
  match rs with
  | [] => Create [97] 3
  | [_] => Open [97]
  | [_; RFile (Some fd)] => Write fd [120; 121; 122] 3
  | [_; RFile (Some fd); _] => Close fd
  | _ => Open [98]
  end.
Definition ex_replies : list reply := [RBool true; RFile (Some 39); RNum 3; RUnit].
Lemma ex_client_runs :
  match (filesys_init (Some (blank_disk 16)) [0xcccccccc] true;; run_client (fun _ => replicate 20 0) ex_client 4 []) (boot_fs 16) with
  | Ok (rs, _) => Some rs
  | _ => None
  end = Some ex_replies.
Proof. vm_compute. reflexivity. Qed.

Lemma spec_run_snoc c a0 rs r a' :
  spec_run c a0 (rs ++ [r]) a' -> exists a, spec_run c a0 rs a /\ astep True a (c rs) r a'.
Proof. inversion 1 as [E|rs1 a r1 a1 H1 H2 E]; [by destruct rs|]. apply app_inj_tail in E as [-> ->]. by exists a. Qed.

Lemma ex_opened a r fd :
  spec_run ex_client (mkAfs ∅ ∅ ∅) [r; RFile (Some fd)] a -> is_Some (a_files a !! fd).
Proof. intros (a1 & _ & St)%(spec_run_snoc _ _ [r]). inversion St; subst. simpl. rewrite lookup_insert_eq. by eexists. Qed.
Lemma ex_client_proper : proper ex_client (mkAfs ∅ ∅ ∅).
Proof.
  intros rs a Hr. assert (Hother : op_ok a (Open [98])) by (repeat constructor; discriminate).
  destruct rs as [|r1 [|[|[fd|]| | |] [|r3 [|r4 rs]]]]; try done; simpl.
  - split; [repeat constructor; discriminate|done].
  - repeat constructor; discriminate.
  - split; [by eapply ex_opened|done].
  - apply (spec_run_snoc _ _ [r1; RFile (Some fd)]) in Hr as (a1 & Hr & St). apply ex_opened in Hr.
    inversion St; subst; simpl; [|done]. rewrite lookup_insert_eq. by eexists.
Qed.
Lemma ex_client_leaves a :
  spec_run ex_client (mkAfs ∅ ∅ ∅) ex_replies a ->
  exists id, a_names a !! [97] = Some id /\ a_bytes a !! id = Some [120; 121; 122] /\ a_files a = ∅.
Proof.
  intros (a3 & (a2 & (a1 & (a0 & H0 & S1)%(spec_run_snoc _ _ []) & S2)%(spec_run_snoc _ _ [_]) & S3)%(spec_run_snoc _ _ [_; _]) & S4)%(spec_run_snoc _ _ [_; _; _]).
  inversion H0 as [|rs ? ? ? ? ? E]; [subst a0|by destruct rs]. inversion S1; subst. inversion S2; subst. inversion S3; subst. inversion S4; subst.
  simpl in *. repeat match goal with H : <[?k := _]> _ !! ?k = Some _ |- _ => rewrite lookup_insert_eq in H; simplify_eq; simpl in * end.
  eexists. split; [by rewrite lookup_insert_eq|]. split; [|by rewrite delete_insert_eq, delete_insert_eq, delete_empty].
  apply map_lookup_filter_Some. split; [by rewrite lookup_insert_eq|]. left. eexists [97], _. split; [simpl; by rewrite lookup_insert_eq|done].
Qed.

Lemma remount_finds_files_witness :
  exists w s s' a id, filesys_init (Some (blank_disk 16)) [0xcccccccc] true (boot_fs 16) = Ok (tt, s) /\
    follows w ex_client s (mkAfs ∅ ∅ ∅) ex_replies s' a /\
    a_names a !! [97] = Some id /\ a_bytes a !! id = Some [120; 121; 122] /\
    forall junk1, map_junk (bd_size (fs_device s')) junk1 -> exists s'', filesys_done s' = Ok (tt, s'') /\
      exists w' s2, filesys_init (Some (fs_device s'')) junk1 false (boot_fs 16) = Ok (tt, s2) /\ refines w' s2 a.
Proof.
  destruct (remount_finds_files (blank_disk 16) [0xcccccccc] (boot_fs 16) ex_client 4 (fun _ => replicate 20 0) blank_disk_ok
    ltac:(split; [discriminate|reflexivity]) blank_junk boot_fs_booted eq_refl ex_client_proper (fun _ => eq_refl))
    as (w & s & rs & s' & a & E & E' & _ & Hf & H).
  assert (Ers : rs = ex_replies).
  { pose proof ex_client_runs as Er. rewrite (bind_ok _ _ _ _ _ E), E' in Er. by injection Er. }
  rewrite Ers in Hf. destruct (ex_client_leaves a (follows_spec w _ _ _ _ _ _ Hf)) as (id & Hn & Hb & Ha).
  exists w, s, s', a, id. split; [exact E|]. split; [exact Hf|]. split; [exact Hn|]. split; [exact Hb|].
  intros junk1 Hj. exact (H (boot_fs 16) junk1 Ha boot_fs_booted eq_refl Hj).
Defined.

(** The empty name is bad. *)
Lemma failed_create_leaks_witness :
  exists w s s', filesys_init (Some (blank_disk 16)) [0xcccccccc] true (boot_fs 16) = Ok (tt, s) /\
    filesys_create [] 700 (replicate 20 0) s = Ok (false, s') /\ refines w s' (mkAfs ∅ ∅ ∅) /\ (no_sectors s 700 \/ loses s 700 s').
Proof.
  destruct (format_ok (blank_disk 16) [0xcccccccc] (boot_fs 16) blank_disk_ok ltac:(split; [discriminate|reflexivity]) blank_junk boot_fs_booted)
    as (w & s & E & R & _).
  destruct (failed_create_leaks w s (mkAfs ∅ ∅ ∅) [] 700 (replicate 20 0) R (refines_memory w s _ R)) as (s' & H).
  - split; [constructor|split; [discriminate|reflexivity]].
  - reflexivity.
  - left. intros [[H1 _] _]. simpl in H1. lia.
  - exists w, s, s'. split; [exact E|exact H].
Defined.

(** ** Failing allocations

    A name that exists, created again while the allocation number [k] of the operation fails. *)
Definition create_twice (k : nat) : outcome (list reply) :=
  match (filesys_init (Some (blank_disk 16)) [0] true;;
         r1 ← exec (replicate 20 0) (Create [97] 0);
         modify (fun s => mkFs (fs_device s) (free_map s) (free_map_file s) (inodes s) (open_inodes s) (files s) (dirs s) (brk s)
                            (replicate k true ++ [false]));;
         r2 ← exec (replicate 20 0) (Create [97] 0);
         mret [r1; r2]) (boot_fs 16) with
  | Ok (rs, _) => Ok rs
  | Panic => Panic
  | NoFuel => NoFuel
  end.

(** A failed allocation may double a name: when the sixth allocation of the operation fails, that of
    the buffer through which [lookup] reads the directory, the name counts as free, and
    [filesys_create] adds it a second time. *)
Theorem failed_allocation_doubles_name :
  create_twice 5 = Ok [RBool true; RBool true] /\ create_twice 100 = Ok [RBool true; RBool false].
Proof. split; vm_compute; reflexivity. Qed.
