(* ===== verification/Paging.v ===== *)
(** Page tables: threads/pte.h, userprog/pagedir.c and [paging_init] of threads/init.c,
    over the page allocator.

    Page directories and page tables are pages of the memory that the allocator manages;
    an entry is a 32-bit word in it.  [cr3] is the page directory base register, and [tlb]
    holds the entries that the CPU may have cached, by page number: loading [cr3] empties
    it. *)

From stdpp Require Import gmap.
From S2P Require Import Prelude KMonad CString Bitmap Palloc Bytes.

(** ** Words in memory *)

Definition word_at (m : ram_t) (a : Z) : Z := le_value [m a; m (a + 1); m (a + 2); m (a + 3)].
Definition set_word (a v : Z) (m : ram_t) : ram_t := fun x =>
  if within a 4 x then Z.shiftr v (8 * (x - a)) mod 256 else m x.

(** ** threads/pte.h *)

Definition PTSHIFT : Z := PGBITS.
Definition PTMASK : Z := 0x003ff000.
Definition PDSHIFT : Z := 22.
Definition PTE_ADDR : Z := 0xfffff000.
Definition PTE_P : Z := 0x1.
Definition PTE_W : Z := 0x2.
Definition PTE_U : Z := 0x4.
Definition PTE_A : Z := 0x20.
Definition PTE_D : Z := 0x40.

Definition pt_no (va : Z) : Z := Z.shiftr (Z.land va PTMASK) PTSHIFT.
Definition pd_no (va : Z) : Z := Z.shiftr va PDSHIFT.

Record mmu := mkMmu { frames : pages bitmap; init_page_dir : Z; cr3 : Z; tlb : gmap Z Z }.

Definition set_frames (p : pages bitmap) (s : mmu) : mmu := mkMmu p (init_page_dir s) (cr3 s) (tlb s).
Definition on_frames {A} (m : K (pages bitmap) A) : K mmu A := fun s =>
  match m (frames s) with
  | Ok (a, p) => Ok (a, set_frames p s)
  | Panic => Panic
  | NoFuel => NoFuel
  end.
Definition on_ram {A} (m : K ram_t A) : K mmu A := fun s =>
  match m (ram (frames s)) with
  | Ok (a, r) => Ok (a, set_frames (set_ram r (frames s)) s)
  | Panic => Panic
  | NoFuel => NoFuel
  end.
(** A result that needs no state. *)
Definition pure {A} (o : outcome A) : K mmu A := fun s =>
  match o with
  | Ok a => Ok (a, s)
  | Panic => Panic
  | NoFuel => NoFuel
  end.
Definition load32 (a : Z) : K mmu Z := gets (fun s => word_at (ram (frames s)) a).
Definition store32 (a v : Z) : K mmu unit := modify (fun s => set_frames (set_ram (set_word a v (ram (frames s))) (frames s)) s).

Definition pde_create (pt : Z) : K mmu Z :=
  ASSERT (pg_ofs pt =? 0);;
  p ← pure (vtop pt);
  mret (Z.lor (Z.lor (Z.lor p PTE_U) PTE_P) PTE_W).
Definition pde_get_pt (pde : Z) : K mmu Z :=
  ASSERT (negb (Z.land pde PTE_P =? 0));;
  pure (ptov (Z.land pde PTE_ADDR)).
Definition pte_create_kernel (page : Z) (writable : bool) : K mmu Z :=
  ASSERT (pg_ofs page =? 0);;
  p ← pure (vtop page);
  mret (Z.lor (Z.lor p PTE_P) (if writable then PTE_W else 0)).
Definition pte_create_user (page : Z) (writable : bool) : K mmu Z :=
  e ← pte_create_kernel page writable; mret (Z.lor e PTE_U).
Definition pte_get_page (pte : Z) : K mmu Z := pure (ptov (Z.land pte PTE_ADDR)).

(** ** userprog/pagedir.c *)

Definition pagedir_activate (pd : Z) : K mmu unit :=
  s ← get;
  let pd := if pd =? 0 then init_page_dir s else pd in
  p ← pure (vtop pd);
  modify (fun s => mkMmu (frames s) (init_page_dir s) p ∅).
Definition active_pd : K mmu Z := s ← get; pure (ptov (cr3 s)).
Definition invalidate_pagedir (pd : Z) : K mmu unit :=
  a ← active_pd; if a =? pd then pagedir_activate pd else mret tt.

Definition pagedir_create : K mmu Z :=
  pd ← on_frames (palloc_get_page 0);
  s ← get;
  (if negb (pd =? 0) then on_ram (memcpy pd (init_page_dir s) PGSIZE);; mret tt else mret tt);;
  mret pd.

Definition destroy_table (pt : Z) : K mmu unit :=
  iterM (seqZ 0 (PGSIZE / 4)) (fun j =>
    pte ← load32 (pt + 4 * j);
    when (negb (Z.land pte PTE_P =? 0)) (page ← pte_get_page pte; on_frames (palloc_free_page page)));;
  on_frames (palloc_free_page pt).
Definition pagedir_destroy (pd : Z) : K mmu unit :=
  if pd =? 0 then mret tt
  else
    s ← get;
    ASSERT (negb (pd =? init_page_dir s));;
    iterM (seqZ 0 (pd_no PHYS_BASE)) (fun i =>
      pde ← load32 (pd + 4 * i);
      when (negb (Z.land pde PTE_P =? 0)) (pt ← pde_get_pt pde; destroy_table pt));;
    on_frames (palloc_free_page pd).

(** The address of the entry, if there is one. *)
Definition lookup_page (pd vaddr : Z) (create : bool) : K mmu (option Z) :=
  ASSERT (negb (pd =? 0));;
  ASSERT (negb create || is_user_vaddr vaddr);;
  let pde := pd + 4 * pd_no vaddr in
  e ← load32 pde;
  found ← (if e =? 0 then
             if create then
               pt ← on_frames (palloc_get_page PAL_ZERO);
               if pt =? 0 then mret false
               else e ← pde_create pt; store32 pde e;; mret true
             else mret false
           else mret true);
  if (found : bool) then e ← load32 pde; pt ← pde_get_pt e; mret (Some (pt + 4 * pt_no vaddr))
  else mret None.

Definition pagedir_set_page (init_ram_pages pd upage kpage : Z) (writable : bool) : K mmu bool :=
  ASSERT (pg_ofs upage =? 0);;
  ASSERT (pg_ofs kpage =? 0);;
  ASSERT (is_user_vaddr upage);;
  p ← pure (vtop kpage);
  ASSERT (Z.shiftr p PTSHIFT <? init_ram_pages);;
  s ← get;
  ASSERT (negb (pd =? init_page_dir s));;
  pte ← lookup_page pd upage true;
  match pte with
  | Some a =>
      e ← load32 a;
      ASSERT (Z.land e PTE_P =? 0);;
      e ← pte_create_user kpage writable;
      store32 a e;;
      mret true
  | None => mret false
  end.
(** The null pointer is 0. *)
Definition pagedir_get_page (pd uaddr : Z) : K mmu Z :=
  ASSERT (is_user_vaddr uaddr);;
  pte ← lookup_page pd uaddr false;
  match pte with
  | Some a =>
      e ← load32 a;
      if negb (Z.land e PTE_P =? 0) then page ← pte_get_page e; mret (u32 (page + pg_ofs uaddr)) else mret 0
  | None => mret 0
  end.
Definition pagedir_clear_page (pd upage : Z) : K mmu unit :=
  ASSERT (pg_ofs upage =? 0);;
  ASSERT (is_user_vaddr upage);;
  pte ← lookup_page pd upage false;
  match pte with
  | Some a =>
      e ← load32 a;
      when (negb (Z.land e PTE_P =? 0)) (store32 a (Z.land e (u32 (Z.lnot PTE_P)));; invalidate_pagedir pd)
  | None => mret tt
  end.

Definition is_flag (flag pd vpage : Z) : K mmu bool :=
  pte ← lookup_page pd vpage false;
  match pte with
  | Some a => e ← load32 a; mret (negb (Z.land e flag =? 0))
  | None => mret false
  end.
Definition set_flag (flag pd vpage : Z) (v : bool) : K mmu unit :=
  pte ← lookup_page pd vpage false;
  match pte with
  | Some a =>
      e ← load32 a;
      if v then store32 a (Z.lor e flag)
      else store32 a (Z.land e (u32 (Z.lnot flag)));; invalidate_pagedir pd
  | None => mret tt
  end.
Definition pagedir_is_dirty : Z -> Z -> K mmu bool := is_flag PTE_D.
Definition pagedir_set_dirty : Z -> Z -> bool -> K mmu unit := set_flag PTE_D.
Definition pagedir_is_accessed : Z -> Z -> K mmu bool := is_flag PTE_A.
Definition pagedir_set_accessed : Z -> Z -> bool -> K mmu unit := set_flag PTE_A.

(** ** threads/init.c *)

(** The body of the loop of [paging_init]; [pt] is the table of the last page, null at first, and
    the result is the table of this one. *)
Definition paging_page (text_start text_end pd pt page : Z) : K mmu Z :=
  vaddr ← pure (ptov (u32 (page * PGSIZE)));
  let in_kernel_text := (text_start <=? vaddr) && (vaddr <? text_end) in
  e ← load32 (pd + 4 * pd_no vaddr);
  pt ← (if e =? 0 then
          pt ← on_frames (palloc_get_page (Z.lor PAL_ASSERT PAL_ZERO));
          e ← pde_create pt;
          store32 (pd + 4 * pd_no vaddr) e;;
          mret pt
        else mret pt);
  e ← pte_create_kernel vaddr (negb in_kernel_text);
  ASSERT (negb (pt =? 0));;
  store32 (pt + 4 * pt_no vaddr) e;;
  mret pt.
Fixpoint paging_loop (ps : list Z) (text_start text_end pd pt : Z) : K mmu unit :=
  match ps with
  | [] => mret tt
  | page :: ps' => pt ← paging_page text_start text_end pd pt page; paging_loop ps' text_start text_end pd pt
  end.
Definition paging_init (init_ram_pages text_start text_end : Z) : K mmu unit :=
  pd ← on_frames (palloc_get_page (Z.lor PAL_ASSERT PAL_ZERO));
  modify (fun s => mkMmu (frames s) pd (cr3 s) (tlb s));;
  paging_loop (seqZ 0 init_ram_pages) text_start text_end pd 0;;
  p ← pure (vtop pd);
  modify (fun s => mkMmu (frames s) (init_page_dir s) p ∅).
