(* ===== verification/PagingOk.v ===== *)
(** Page directories as address spaces: the operations of userprog/pagedir.c refine maps
    from the pages of a user program to frames, and leave every other page of memory as it
    is. *)

From stdpp Require Import gmap.
From S2P Require Import Prelude KMonad CString Bitmap Palloc Bytes Paging.

(** ** Words *)

Lemma word_at_ext m m' a : (forall x, a <= x < a + 4 -> m' x = m x) -> word_at m' a = word_at m a.
Proof. intros H. unfold word_at. by rewrite !H by lia. Qed.
Lemma word_at_set_eq a v m : 0 <= v < 2 ^ 32 -> word_at (set_word a v m) a = v.
Proof.
  intros Hv. rewrite <- (le_value_bytes 4 v Hv) at 2. unfold word_at. f_equal. cbn [le_bytes]. unfold set_word, within.
  rewrite !Z.div_div by lia.
  rewrite !(proj2 (Z.leb_le _ _)), !(proj2 (Z.ltb_lt _ _)) by lia. cbn [andb].
  replace (a - a) with 0 by lia. replace (a + 1 - a) with 1 by lia. replace (a + 2 - a) with 2 by lia. replace (a + 3 - a) with 3 by lia.
  rewrite !Z.shiftr_div_pow2 by lia. change (2 ^ (8 * 0)) with 1. rewrite Z.div_1_r. done.
Qed.
Lemma word_at_set_ne a b v m : b + 4 <= a \/ a + 4 <= b -> word_at (set_word a v m) b = word_at m b.
Proof. intros H. apply word_at_ext. intros x Hx. unfold set_word, within. by case_cmp. Qed.
Definition byte_ram (m : ram_t) : Prop := forall x, byte (m x).
Lemma word_at_range m a : byte_ram m -> 0 <= word_at m a < 2 ^ 32.
Proof. intros H. unfold word_at. apply (le_value_range [m a; m (a + 1); m (a + 2); m (a + 3)]). repeat constructor; apply H. Qed.
Lemma set_word_bytes a v m : byte_ram m -> byte_ram (set_word a v m).
Proof. intros H x. unfold set_word. destruct (within a 4 x); [by apply Z.mod_pos_bound|apply H]. Qed.

(** ** Entries *)

Lemma lor_low p f : 0 <= f < 4096 -> p mod 4096 = 0 -> Z.lor p f = p + f.
Proof.
  intros Hf Hp. rewrite <- Z.lxor_lor, <- Z.add_nocarry_lxor; try done; apply Z.bits_inj_iff'; intros k Hk;
    rewrite Z.land_spec, Z.bits_0; (destruct (Z_lt_le_dec k 12) as [H|H];
      [rewrite <- (Z.mod_pow2_bits_low p 12 k) by done; change (2 ^ 12) with 4096; rewrite Hp, Z.bits_0; done
      |rewrite <- (Z.mod_small f (2 ^ 12)) by done; rewrite (Z.mod_pow2_bits_high f 12 k) by lia; by rewrite andb_false_r]).
Qed.
Lemma land_low x k : 0 <= k < 4096 -> Z.land x k = Z.land (x mod 4096) k.
Proof.
  intros Hk. apply Z.bits_inj_iff'. intros i Hi. rewrite !Z.land_spec. destruct (Z_lt_le_dec i 12) as [H|H].
  - change 4096 with (2 ^ 12). by rewrite Z.mod_pow2_bits_low.
  - rewrite <- (Z.mod_small k (2 ^ 12)) by done. rewrite (Z.mod_pow2_bits_high k 12 i) by lia. by rewrite !andb_false_r.
Qed.
Lemma land_addr x : 0 <= x < 2 ^ 32 -> Z.land x PTE_ADDR = x - x mod 4096.
Proof. intros H. change PTE_ADDR with (u32 (Z.lnot PGMASK)). by apply (pg_round_down_eq x). Qed.
Lemma aligned_add p f : p mod 4096 = 0 -> 0 <= f < 4096 -> (p + f) mod 4096 = f.
Proof. intros Hp Hf. rewrite Z.add_mod, Hp, Z.add_0_l, Z.mod_mod by done. by apply Z.mod_small. Qed.

Definition present (e : Z) : bool := negb (Z.land e PTE_P =? 0).
Lemma present_odd e : present e = Z.odd e.
Proof.
  unfold present, PTE_P. change 1 with (Z.ones 1). rewrite Z.land_ones by lia. change (2 ^ 1) with 2.
  rewrite Zmod_odd. by destruct (Z.odd e).
Qed.
Lemma odd_aligned p f : p mod 4096 = 0 -> Z.odd (p + f) = Z.odd f.
Proof.
  intros Hp. pose proof (Z.div_mod p 4096 ltac:(done)) as E. rewrite Hp, Z.add_0_r in E. rewrite E.
  replace (4096 * (p / 4096) + f) with (f + 2 * (2048 * (p / 4096))) by lia. apply Z.odd_add_mul_2.
Qed.

(** A page of the kernel: its address is aligned and above [PHYS_BASE]. *)
Definition kpage_ok (p : Z) : Prop := p mod PGSIZE = 0 /\ PHYS_BASE <= p < 2 ^ 32.

Lemma vtop_ok p : kpage_ok p -> vtop p = Ok (p - PHYS_BASE).
Proof. intros [_ H]. unfold vtop, is_kernel_vaddr. by rewrite (proj2 (Z.leb_le _ _)) by lia. Qed.
Lemma phys_aligned p : kpage_ok p -> (p - PHYS_BASE) mod 4096 = 0 /\ 0 <= p - PHYS_BASE < 2 ^ 30.
Proof.
  intros [H1 H2]. unfold PGSIZE, PHYS_BASE in *. split; [|lia]. rewrite <- Zminus_mod_idemp_l, H1. done.
Qed.

Section Entries.
Implicit Types (s : mmu).

Lemma ptov_back s p f :
  kpage_ok p -> 0 <= f < 4096 -> pure (ptov (Z.land (p - PHYS_BASE + f) PTE_ADDR)) s = Ok (p, s).
Proof.
  intros Hp Hf. destruct (phys_aligned p Hp) as [Ha Hr]. rewrite land_addr by lia. rewrite aligned_add by done.
  unfold pure. rewrite Z.add_simpl_r. rewrite ptov_ok by done. by rewrite Z.sub_simpl_r.
Qed.
Lemma pde_create_ok s pt : kpage_ok pt -> pde_create pt s = Ok (pt - PHYS_BASE + 7, s).
Proof.
  intros Hp. destruct (phys_aligned pt Hp) as [Ha Hr]. unfold pde_create. rewrite ASSERT_true by (apply Z.eqb_eq; rewrite pg_ofs_mod; apply Hp).
  unfold pure, mbind, K_bind. rewrite vtop_ok by done. rewrite <- !Z.lor_assoc. change (Z.lor PTE_U (Z.lor PTE_P PTE_W)) with 7.
  by rewrite lor_low.
Qed.
Lemma pde_get_pt_ok s pt : kpage_ok pt -> pde_get_pt (pt - PHYS_BASE + 7) s = Ok (pt, s).
Proof.
  intros Hp. destruct (phys_aligned pt Hp) as [Ha Hr]. unfold pde_get_pt. fold (present (pt - PHYS_BASE + 7)).
  rewrite ASSERT_true by (rewrite present_odd, odd_aligned by done; done). by apply ptov_back.
Qed.

(** The entry of a page for user programs. *)
Definition user_entry (kpage : Z) (writable : bool) : Z := kpage - PHYS_BASE + (if writable then 7 else 5).
Lemma pte_create_user_ok s p w : kpage_ok p -> pte_create_user p w s = Ok (user_entry p w, s).
Proof.
  intros Hp. destruct (phys_aligned p Hp) as [Ha Hr]. unfold pte_create_user, pte_create_kernel.
  rewrite bind_assoc, ASSERT_true by (apply Z.eqb_eq; rewrite pg_ofs_mod; apply Hp).
  unfold pure, mbind, K_bind. rewrite vtop_ok by done. unfold mret, K_ret. rewrite <- !Z.lor_assoc. unfold user_entry.
  destruct w; [change (Z.lor PTE_P (Z.lor PTE_W PTE_U)) with 7|change (Z.lor PTE_P (Z.lor 0 PTE_U)) with 5]; by rewrite lor_low.
Qed.
Lemma user_entry_facts p w :
  kpage_ok p -> present (user_entry p w) = true /\ 0 <= user_entry p w < 2 ^ 32 /\
  Z.land (user_entry p w) PTE_ADDR = p - PHYS_BASE /\ forall k, 0 <= k < 4096 -> Z.land (user_entry p w) k = Z.land (if w then 7 else 5) k.
Proof.
  intros Hp. destruct (phys_aligned p Hp) as [Ha Hr]. unfold user_entry. split_and!.
  - rewrite present_odd, odd_aligned by done. by destruct w.
  - destruct w; lia.
  - destruct w; lia.
  - rewrite land_addr by (destruct w; lia). rewrite aligned_add by (done || destruct w; lia). lia.
  - intros k Hk. rewrite land_low by done. rewrite aligned_add; [done|done|destruct w; lia].
Qed.

End Entries.

(** ** Address spaces *)

(** The pages that hold page directories and page tables: the directories, each with the
    page tables of its user half, by index. *)
Abbreviation dirs := (gmap Z (gmap Z Z)).
(** The directory [pd], or its table [i], is the page [p]. *)
Definition holds (T : dirs) (r : Z * option Z) (p : Z) : Prop :=
  exists d, T !! r.1 = Some d /\ match r.2 with None => p = r.1 | Some i => d !! i = Some p end.

(** Numbers of pages and tables in the user half. *)
Definition USER_PAGES : Z := 0xc0000.
Definition USER_TABLES : Z := 768.

Section Spaces.
Implicit Types (s : mmu) (T : dirs) (d : gmap Z Z).

(** The entry for page [n]. *)
Definition entry s d (n : Z) : Z :=
  match d !! (n / 1024) with Some pt => word_at (ram (frames s)) (pt + 4 * (n mod 1024)) | None => 0 end.

Record spaces s T : Prop := {
  sp_pages : pages_ok (frames s);
  sp_bytes : byte_ram (ram (frames s));
  sp_base : PHYS_BASE / PGSIZE <= first_page (kernel_pool (frames s));
  sp_page r p : holds T r p -> kpage_ok p /\ allocated (frames s) (p / PGSIZE) = true /\ run_of (frames s) false (p / PGSIZE) 1;
  sp_init : kpage_ok (init_page_dir s) /\ allocated (frames s) (init_page_dir s / PGSIZE) = true /\
    run_of (frames s) false (init_page_dir s / PGSIZE) 1 /\
    (forall r, ~ holds T r (init_page_dir s)) /\
    forall i, 0 <= i < USER_TABLES -> word_at (ram (frames s)) (init_page_dir s + 4 * i) = 0;
  sp_inj r r' p : holds T r p -> holds T r' p -> r = r';
  sp_dom pd d i pt : T !! pd = Some d -> d !! i = Some pt -> 0 <= i < USER_TABLES;
  sp_user pd d i : T !! pd = Some d -> 0 <= i < USER_TABLES ->
    word_at (ram (frames s)) (pd + 4 * i) = match d !! i with Some pt => pt - PHYS_BASE + 7 | None => 0 end;
  sp_kernel pd d i : T !! pd = Some d -> USER_TABLES <= i < 1024 ->
    word_at (ram (frames s)) (pd + 4 * i) = word_at (ram (frames s)) (init_page_dir s + 4 * i)
}.

(** *** Pages in memory *)

Lemma pages_apart p q : p mod PGSIZE = 0 -> q mod PGSIZE = 0 -> p <> q -> p + PGSIZE <= q \/ q + PGSIZE <= p.
Proof.
  unfold PGSIZE. intros Hp Hq Hne. pose proof (Z.div_mod p 4096 ltac:(done)). pose proof (Z.div_mod q 4096 ltac:(done)).
  assert (p / 4096 <> q / 4096) by lia. lia.
Qed.
Lemma page_of p j : p mod PGSIZE = 0 -> 0 <= j < PGSIZE -> (p + j) / PGSIZE = p / PGSIZE.
Proof.
  intros Hp Hj. pose proof (Z.div_mod p PGSIZE ltac:(done)) as E. rewrite Hp in E. rewrite E at 1.
  replace (PGSIZE * (p / PGSIZE) + 0 + j) with (j + p / PGSIZE * PGSIZE) by lia. rewrite Z.div_add by done.
  rewrite (Z.div_small j) by done. done.
Qed.
Lemma aligned_eq p q : p mod PGSIZE = 0 -> q mod PGSIZE = 0 -> p / PGSIZE = q / PGSIZE -> p = q.
Proof. intros Hp Hq E. pose proof (Z.div_mod p PGSIZE ltac:(done)). pose proof (Z.div_mod q PGSIZE ltac:(done)). lia. Qed.

(** The page tables of another memory that agrees on their pages. *)
Definition agrees (P : Z -> Prop) s s' : Prop :=
  forall x, P (x / PGSIZE) -> ram (frames s') x = ram (frames s) x.
Lemma agrees_word (P : Z -> Prop) s s' p j :
  agrees P s s' -> p mod PGSIZE = 0 -> P (p / PGSIZE) -> 0 <= j < 1024 ->
  word_at (ram (frames s')) (p + 4 * j) = word_at (ram (frames s)) (p + 4 * j).
Proof.
  intros Ha Hp HP Hj. apply word_at_ext. intros x Hx. apply Ha. replace x with (p + (x - p)) by lia.
  rewrite page_of; [done|done|unfold PGSIZE; lia].
Qed.
Lemma agrees_entry (P : Z -> Prop) s s' d n :
  agrees P s s' -> (forall i pt, d !! i = Some pt -> pt mod PGSIZE = 0 /\ P (pt / PGSIZE)) -> entry s' d n = entry s d n.
Proof.
  intros Ha Hd. unfold entry. destruct (d !! (n / 1024)) as [pt|] eqn:E; [|done]. destruct (Hd _ _ E).
  by apply (agrees_word P); [..|apply Z.mod_pos_bound].
Qed.

(** A store into a page. *)
Definition stored32 (a v : Z) s : mmu := set_frames (set_ram (set_word a v (ram (frames s))) (frames s)) s.
Lemma store32_ok a v s : store32 a v s = Ok (tt, stored32 a v s).
Proof. done. Qed.
Lemma stored_agrees p j v s :
  p mod PGSIZE = 0 -> 0 <= j < 1024 -> agrees (fun n => n <> p / PGSIZE) s (stored32 (p + 4 * j) v s).
Proof.
  intros Hp Hj x Hx. simpl. unfold set_word, within. destruct ((p + 4 * j <=? x) && (x <? p + 4 * j + 4)) eqn:E; [|done].
  reflect_bools. destruct Hx. replace x with (p + (x - p)) by lia. apply page_of; [done|unfold PGSIZE; lia].
Qed.
Lemma stored_word p j v s k :
  0 <= v < 2 ^ 32 -> word_at (ram (frames (stored32 (p + 4 * j) v s))) (p + 4 * k) = if k =? j then v else word_at (ram (frames s)) (p + 4 * k).
Proof.
  intros Hv. simpl. destruct (Z.eqb_spec k j) as [->|Hne]; [by apply word_at_set_eq|]. apply word_at_set_ne. lia.
Qed.

(** A store into a page table changes one entry. *)
Lemma table_apart s T r r' p p' : spaces s T -> holds T r p -> holds T r' p' -> r <> r' -> p' / PGSIZE <> p / PGSIZE.
Proof.
  intros S H H' Hne E. destruct (sp_page _ _ S r p H) as [[Hp _] _]. destruct (sp_page _ _ S r' p' H') as [[Hp' _] _].
  assert (p = p') as -> by (by apply aligned_eq). apply Hne. by eapply (sp_inj _ _ S).
Qed.
Lemma init_apart s T r p : spaces s T -> holds T r p -> init_page_dir s / PGSIZE <> p / PGSIZE.
Proof.
  intros S H E. destruct (sp_page _ _ S r p H) as [[Hp _] _]. destruct (sp_init _ _ S) as ([Hi _] & _ & _ & Hn & _).
  assert (init_page_dir s = p) as Eq by (by apply aligned_eq). apply (Hn r). by rewrite Eq.
Qed.

Lemma spaces_store s T pd d i pt j v :
  spaces s T -> T !! pd = Some d -> d !! i = Some pt -> 0 <= j < 1024 -> 0 <= v < 2 ^ 32 ->
  spaces (stored32 (pt + 4 * j) v s) T /\
  forall pd' d' n, T !! pd' = Some d' ->
    entry (stored32 (pt + 4 * j) v s) d' n = if decide (pd' = pd /\ n = 1024 * i + j) then v else entry s d' n.
Proof.
  intros S Hpd Hi Hj Hv. set (s' := stored32 (pt + 4 * j) v s).
  assert (Hh : holds T (pd, Some i) pt) by (by exists d). destruct (sp_page _ _ S _ _ Hh) as ([Hal Hrg] & _).
  pose proof (stored_agrees pt j v s Hal Hj) as Ag. fold s' in Ag. split.
  - pose proof S as [S1 S2 S3 S4 S5 S6 S7 S8 S9].
    destruct S5 as (I1 & I2 & Ir & I3 & I4). split; try done.
    + by apply pages_ok_ram.
    + by apply set_word_bytes.
    + split_and!; try done. intros k Hk. rewrite (agrees_word _ _ _ _ _ Ag); [by apply I4|apply I1|exact (init_apart s T _ _ S Hh)|unfold USER_TABLES in *; lia].
    + intros pd' d' k Hpd' Hk. rewrite (agrees_word _ _ _ _ _ Ag); [by apply S8| | |unfold USER_TABLES in *; lia].
      * apply (S4 (pd', None)). by exists d'.
      * eapply (table_apart s T _ (pd', None)); [done|done|by exists d'|done].
    + intros pd' d' k Hpd' Hk. rewrite !(agrees_word _ _ _ _ _ Ag); try (unfold USER_TABLES in *; lia).
      * by eapply S9.
      * apply I1.
      * exact (init_apart s T _ _ S Hh).
      * apply (S4 (pd', None)). by exists d'.
      * eapply (table_apart s T _ (pd', None)); [done|done|by exists d'|done].
  - intros pd' d' n Hd'. unfold entry. destruct (d' !! (n / 1024)) as [pt'|] eqn:E.
    + pose proof (Z.div_mod n 1024 ltac:(done)) as En. pose proof (Z.mod_pos_bound n 1024 ltac:(done)) as Hm.
      assert (Hh' : holds T (pd', Some (n / 1024)) pt') by (by exists d').
      destruct (decide ((pd', Some (n / 1024)) = (pd, Some i))) as [Er|Er].
      * injection Er as -> Eq. assert (pt' = pt) as -> by congruence. unfold s'. rewrite stored_word by done.
        destruct (Z.eqb_spec (n mod 1024) j); case_decide; (done || lia).
      * rewrite decide_False. { by rewrite (agrees_word _ _ _ _ _ Ag); [|apply (sp_page _ _ S _ _ Hh')|eapply (table_apart s T)|]. }
        intros [-> ->]. apply Er. do 2 f_equal. symmetry. apply (Z.div_unique _ _ _ j); lia.
    + rewrite decide_False; [done|]. intros [-> ->]. assert ((1024 * i + j) / 1024 = i) as Eq by (symmetry; apply (Z.div_unique _ _ _ j); lia).
      congruence.
Qed.

(** *** Other changes of memory *)

(** The pages that the page tables need. *)
Definition needed s T (n : Z) : Prop := n = init_page_dir s / PGSIZE \/ exists r p, holds T r p /\ n = p / PGSIZE.
Lemma needed_allocated s T n : spaces s T -> needed s T n -> allocated (frames s) n = true.
Proof. intros S [->|(r & p & H & ->)]; [apply (sp_init _ _ S)|by apply (sp_page _ _ S r)]. Qed.

Record other_pages s T s' : Prop := {
  ot_pages : pages_ok (frames s');
  ot_bytes : byte_ram (ram (frames s'));
  ot_same : same_pools (frames s) (frames s');
  ot_used n : needed s T n -> allocated (frames s') n = true;
  ot_ram : agrees (needed s T) s s';
  ot_init : init_page_dir s' = init_page_dir s
}.
Lemma other_entry s T s' pd d n : spaces s T -> other_pages s T s' -> T !! pd = Some d -> entry s' d n = entry s d n.
Proof.
  intros S [_ _ _ _ Hr _] Hd. apply (agrees_entry (needed s T)); [done|]. intros i pt Hi.
  assert (H : holds T (pd, Some i) pt) by (by exists d). split; [apply (sp_page _ _ S _ _ H)|]. right. eauto.
Qed.
Lemma same_run (p p' : pages bitmap) user n c : same_pools p p' -> run_of p user n c -> run_of p' user n c.
Proof. intros H. by rewrite (same_pools_run p p' user n c H). Qed.
Lemma same_pools_trans (p1 p2 p3 : pages bitmap) : same_pools p1 p2 -> same_pools p2 p3 -> same_pools p1 p3.
Proof. intros H H' u. destruct (H u) as [E1 E2], (H' u) as [E3 E4]. rewrite E3, E4. done. Qed.
Lemma spaces_other s T s' : spaces s T -> other_pages s T s' -> spaces s' T.
Proof.
  intros S O. pose proof S as [S1 S2 S3 S4 (I1 & I2 & Ir & I3 & I4) S6 S7 S8 S9]. pose proof O as [O1 O2 O3 O4 O5 O6].
  assert (Hw : forall r p j, holds T r p -> 0 <= j < 1024 -> word_at (ram (frames s')) (p + 4 * j) = word_at (ram (frames s)) (p + 4 * j)).
  { intros r p j H Hj. apply (agrees_word (needed s T)); [done|apply (S4 r p H)|right; eauto|done]. }
  assert (Hi : forall j, 0 <= j < 1024 -> word_at (ram (frames s')) (init_page_dir s + 4 * j) = word_at (ram (frames s)) (init_page_dir s + 4 * j)).
  { intros j Hj. apply (agrees_word (needed s T)); [done|apply I1|by left|done]. }
  unfold USER_TABLES in *. split; try done; rewrite ?O6.
  - destruct (O3 false) as [E _]. simpl in E. rewrite E. done.
  - intros r p H. destruct (S4 r p H) as (H1 & H2 & H3). split; [done|]. split; [apply O4; right; eauto|by eapply same_run].
  - split; [done|]. split; [apply O4; by left|]. split; [by eapply same_run|]. split; [done|]. intros i Hi'. rewrite Hi by (unfold USER_TABLES in *; lia). by apply I4.
  - intros pd d i Hd Hi'. rewrite (Hw (pd, None)) by (by exists d || (unfold USER_TABLES in *; lia)). by apply S8.
  - intros pd d i Hd Hi'. rewrite Hi, (Hw (pd, None)) by (by exists d || (unfold USER_TABLES in *; lia)). by eapply S9.
Qed.

(** A page from the allocator. *)
Lemma got_kpage (p p' : pages bitmap) flags a :
  pages_ok p -> PHYS_BASE / PGSIZE <= first_page (kernel_pool p) -> got flags 1 p a p' -> kpage_ok a.
Proof.
  intros Hp Hb [G1 G2 (A1 & A2 & A3) [R1 R2] G5 G6 G7]. split; [done|]. pose proof (Z.div_mod a PGSIZE ltac:(done)) as E. rewrite A2 in E.
  unfold PGSIZE, PHYS_BASE in *. split; [|lia]. destruct Hp as [Hk _ Hap]. change (0xc0000000 / 4096) with 0xc0000 in Hb.
  pose proof (ba_size_range (used_map (kernel_pool p)) (po_map _ Hk)). destruct (has_flag flags PAL_USER); simpl in R1; unfold PGSIZE in *; lia.
Qed.
Lemma got_page s T flags a p' :
  spaces s T -> got flags 1 (frames s) a p' ->
  let s' := set_frames p' s in
  other_pages s T s' /\ kpage_ok a /\ ~ needed s T (a / PGSIZE) /\ allocated p' (a / PGSIZE) = true /\
  run_of p' (has_flag flags PAL_USER) (a / PGSIZE) 1 /\ agrees (fun n => n <> a / PGSIZE) s s'.
Proof.
  intros S G s'. pose proof G as [G1 G2 (A1 & A2 & A3) G4 G5 G6 G7]. pose proof S as [S1 S2 S3 _ _ _ _ _ _].
  assert (Hno : ~ needed s T (a / PGSIZE)).
  { intros H. apply (needed_allocated _ _ _ S) in H. rewrite G5 in H by lia. done. }
  assert (Hk : kpage_ok a) by (by eapply got_kpage).
  assert (Hag : agrees (fun n => n <> a / PGSIZE) s s').
  { intros x Hx. simpl. rewrite G7. destruct (has_flag flags PAL_ZERO); [|done]. simpl. unfold within. destruct ((a <=? x) && (x <? a + PGSIZE * 1)) eqn:E; [|done].
    reflect_bools. destruct Hx. replace x with (a + (x - a)) by lia. apply page_of; [done|lia]. }
  split; [|split; [done|split; [done|split; [|split; [by eapply same_run|done]]]]].
  - split; try done.
    + intros x. simpl. rewrite G7. destruct (_ && _); [done|apply S2].
    + intros n Hn. simpl. rewrite G6. destruct (within _ _ _); [done|by apply needed_allocated with T].
    + intros x Hx. apply Hag. intros E. apply Hno. by rewrite <- E.
  - rewrite G6. unfold within. by case_cmp.
Qed.

(** One more page table. *)
Lemma spaces_new_table s T pd d i pt :
  spaces s T -> T !! pd = Some d -> d !! i = None -> 0 <= i < USER_TABLES ->
  kpage_ok pt -> ~ needed s T (pt / PGSIZE) -> allocated (frames s) (pt / PGSIZE) = true -> run_of (frames s) false (pt / PGSIZE) 1 ->
  (forall j, 0 <= j < 1024 -> word_at (ram (frames s)) (pt + 4 * j) = 0) ->
  let s' := stored32 (pd + 4 * i) (pt - PHYS_BASE + 7) s in let T' := <[pd := <[i := pt]> d]> T in
  spaces s' T' /\ (forall pd' d' n, T !! pd' = Some d' -> entry s' (if decide (pd' = pd) then <[i := pt]> d else d') n = entry s d' n) /\
  agrees (fun n => n <> pd / PGSIZE) s s'.
Proof.
  intros S Hpd Hi Hir Hk Hno Hal Hrun Hz s' T'. pose proof S as [S1 S2 S3 S4 (I1 & I2 & Ir & I3 & I4) S6 S7 S8 S9].
  assert (Hh : holds T (pd, None) pd) by (by exists d). destruct (S4 _ _ Hh) as ((Hpa & Hpr) & _).
  destruct (phys_aligned pt Hk) as [_ Hpt]. unfold USER_TABLES in *.
  pose proof (stored_agrees pd i (pt - PHYS_BASE + 7) s Hpa ltac:(lia)) as Ag. fold s' in Ag.
  assert (Hptpd : pt / PGSIZE <> pd / PGSIZE) by (intros E; apply Hno; right; eauto).
  assert (Hold : forall r p, holds T' r p -> (r = (pd, Some i) /\ p = pt) \/ (r <> (pd, Some i) /\ holds T r p)).
  { intros [pd' o] p (d' & Hd' & Hp). simpl in *. apply lookup_insert_Some in Hd' as [[<- <-]|[Hne Hd']].
    - destruct o as [k|]; [|right; split; [done|]; exists d; done]. apply lookup_insert_Some in Hp as [[<- <-]|[Hne Hp]]; [by left|right].
      split; [congruence|]. by exists d.
    - right. split; [congruence|]. by exists d'. }
  assert (Hw : forall r p j, holds T r p -> r <> (pd, None) -> 0 <= j < 1024 ->
    word_at (ram (frames s')) (p + 4 * j) = word_at (ram (frames s)) (p + 4 * j)).
  { intros r p j H Hr Hj. apply (agrees_word _ _ _ _ _ Ag); [apply (S4 r p H)|by apply (table_apart s T (pd, None) r)|done]. }
  split; [split|split]; try done; unfold USER_TABLES in *.
  - by apply pages_ok_ram.
  - by apply set_word_bytes.
  - intros r p [[-> ->]|[_ H]]%Hold; [done|by apply (S4 r)].
  - split; [done|]. split; [done|]. split; [done|]. split.
    + intros r [[_ E]|[_ H]]%Hold; [|by apply I3 in H]. apply Hno. left. by rewrite <- E.
    + intros k Hk'. change (init_page_dir s') with (init_page_dir s).
      rewrite (agrees_word _ _ _ _ _ Ag); [by apply I4|apply I1|exact (init_apart s T _ _ S Hh)|lia].
  - intros r r' p [[-> ->]|[Hr H]]%Hold [[-> E]|[Hr' H']]%Hold; [done| | |by eapply S6].
    + destruct Hno. right. eauto.
    + subst p. destruct Hno. right. eauto.
  - intros pd' d' k pt' [[<- <-]|[_ Hd']]%lookup_insert_Some; [|by eapply S7]. intros [[<- <-]|[_ Hk']]%lookup_insert_Some; [done|by eapply S7].
  - intros pd' d' k [[<- <-]|[Hne Hd']]%lookup_insert_Some Hk'.
    + unfold s'. rewrite stored_word by lia. destruct (Z.eqb_spec k i) as [->|Hki]; [by rewrite lookup_insert_eq|].
      rewrite lookup_insert_ne by done. by apply S8.
    + rewrite (Hw (pd', None)); [by apply S8|by exists d'|congruence|lia].
  - intros pd' d' k [[<- <-]|[Hne Hd']]%lookup_insert_Some Hk'; change (init_page_dir s') with (init_page_dir s);
      rewrite (agrees_word _ _ _ (init_page_dir s) _ Ag) by (apply I1 || exact (init_apart s T _ _ S Hh) || lia).
    + unfold s'. rewrite stored_word by lia. rewrite (proj2 (Z.eqb_neq k i)) by lia. by eapply S9.
    + rewrite (Hw (pd', None)); [by eapply S9|by exists d'|congruence|lia].
  - intros pd' d' n Hd'. unfold entry. pose proof (Z.mod_pos_bound n 1024 ltac:(done)). destruct (decide (pd' = pd)) as [->|Hne].
    + assert (d' = d) as -> by congruence. destruct (decide (i = n / 1024)) as [<-|Hni].
      * rewrite lookup_insert_eq, Hi. rewrite (agrees_word _ _ _ _ _ Ag); [by apply Hz|apply Hk|done|done].
      * rewrite lookup_insert_ne by done. destruct (d !! (n / 1024)) as [q|] eqn:E; [|done]. apply (Hw (pd, Some (n / 1024))); [by exists d|done|done].
    + destruct (d' !! (n / 1024)) as [q|] eqn:E; [|done]. apply (Hw (pd', Some (n / 1024))); [by exists d'|done|done].
Qed.

(** *** Finding an entry *)

Lemma pd_no_eq va : pd_no va = va / PGSIZE / 1024.
Proof. unfold pd_no, PDSHIFT, PGSIZE. rewrite Z.shiftr_div_pow2 by lia. rewrite Z.div_div by lia. done. Qed.
Lemma pt_no_eq va : pt_no va = (va / PGSIZE) mod 1024.
Proof.
  unfold pt_no, PTMASK, PTSHIFT, PGBITS, PGSIZE. rewrite Z.shiftr_land. change (Z.shiftr 0x3ff000 12) with (Z.ones 10).
  rewrite Z.land_ones, Z.shiftr_div_pow2 by lia. done.
Qed.
Definition user_addr (va : Z) : Prop := 0 <= va < PHYS_BASE.
Lemma user_addr_facts va : user_addr va ->
  is_user_vaddr va = true /\ 0 <= va / PGSIZE < USER_PAGES /\ 0 <= pd_no va < USER_TABLES /\ 0 <= pt_no va < 1024 /\
  va / PGSIZE = 1024 * pd_no va + pt_no va.
Proof.
  intros [H1 H2]. rewrite pd_no_eq, pt_no_eq. unfold is_user_vaddr, PHYS_BASE, USER_PAGES, USER_TABLES, PGSIZE in *.
  assert (Hn : 0 <= va / 4096 < 0xc0000) by (split; [apply Z.div_pos; lia|apply Z.div_lt_upper_bound; lia]).
  pose proof (Z.mod_pos_bound (va / 4096) 1024 ltac:(done)). pose proof (Z.div_mod (va / 4096) 1024 ltac:(done)).
  split; [by apply Z.ltb_lt|]. split; [done|]. split; [|by split].
  split; [apply Z.div_pos; lia|apply Z.div_lt_upper_bound; lia].
Qed.
Lemma pd_nonzero s T pd d : spaces s T -> T !! pd = Some d -> kpage_ok pd /\ negb (pd =? 0) = true.
Proof.
  intros S Hd. assert (H : holds T (pd, None) pd) by (by exists d). destruct (sp_page _ _ S _ _ H) as [Hk _]. split; [done|].
  destruct Hk as [_ Hr]. unfold PHYS_BASE in Hr. by rewrite (proj2 (Z.eqb_neq pd 0)) by lia.
Qed.

Lemma lookup_found s T pd d va pt c :
  spaces s T -> T !! pd = Some d -> user_addr va -> d !! pd_no va = Some pt -> lookup_page pd va c s = Ok (Some (pt + 4 * pt_no va), s).
Proof.
  intros S Hd Hva Hpt. destruct (user_addr_facts va Hva) as (Hu & _ & Hi & _). destruct (pd_nonzero s T pd d S Hd) as [_ Hnz].
  assert (H : holds T (pd, Some (pd_no va)) pt) by (by exists d). destruct (sp_page _ _ S _ _ H) as [Hk _].
  destruct (phys_aligned pt Hk) as [_ Hp].
  unfold lookup_page. rewrite ASSERT_true by done. rewrite ASSERT_true by (rewrite Hu; by destruct c). cbv zeta.
  unfold load32. erewrite bind_ok by reflexivity. rewrite (sp_user _ _ S pd d) by done. rewrite Hpt.
  rewrite (proj2 (Z.eqb_neq (pt - PHYS_BASE + 7) 0)) by lia. rewrite ret_bind. erewrite bind_ok by reflexivity.
  rewrite (sp_user _ _ S pd d), Hpt by done. by rewrite (bind_ok _ _ _ _ _ (pde_get_pt_ok s pt Hk)).
Qed.
Lemma lookup_missing s T pd d va :
  spaces s T -> T !! pd = Some d -> user_addr va -> d !! pd_no va = None -> lookup_page pd va false s = Ok (None, s).
Proof.
  intros S Hd Hva Hpt. destruct (user_addr_facts va Hva) as (Hu & _ & Hi & _). destruct (pd_nonzero s T pd d S Hd) as [_ Hnz].
  unfold lookup_page. rewrite ASSERT_true, ASSERT_true by done. unfold load32. erewrite bind_ok by reflexivity.
  by rewrite (sp_user _ _ S pd d), Hpt by done.
Qed.

(** The entry of a missing table is made, when there is memory. *)
Record grown s T pd d va pt s' : Prop := {
  gw_spaces : spaces s' (<[pd := <[pd_no va := pt]> d]> T);
  gw_entry pd' d' n : T !! pd' = Some d' -> entry s' (if decide (pd' = pd) then <[pd_no va := pt]> d else d') n = entry s d' n;
  gw_ram n : n <> pd / PGSIZE -> n <> pt / PGSIZE -> forall x, x / PGSIZE = n -> ram (frames s') x = ram (frames s) x;
  gw_fresh : ~ needed s T (pt / PGSIZE) /\ allocated (frames s) (pt / PGSIZE) = false;
  gw_alloc n : allocated (frames s') n = if decide (n = pt / PGSIZE) then true else allocated (frames s) n;
  gw_pools : same_pools (frames s) (frames s');
  gw_rest : init_page_dir s' = init_page_dir s /\ cr3 s' = cr3 s /\ tlb s' = tlb s
}.
Lemma lookup_no_table s T pd d va :
  spaces s T -> T !! pd = Some d -> user_addr va -> d !! pd_no va = None ->
  lookup_page pd va true s =
  (found ← (pt ← on_frames (palloc_get_page PAL_ZERO);
            if pt =? 0 then mret false else e ← pde_create pt; store32 (pd + 4 * pd_no va) e;; mret true);
   if (found : bool) then e ← load32 (pd + 4 * pd_no va); pt ← pde_get_pt e; mret (Some (pt + 4 * pt_no va)) else mret None) s.
Proof.
  intros S Hd Hva Hpt. destruct (user_addr_facts va Hva) as (Hu & _ & Hi & _). destruct (pd_nonzero s T pd d S Hd) as [_ Hnz].
  unfold lookup_page. rewrite ASSERT_true by done. rewrite ASSERT_true by (by rewrite Hu). cbv zeta. unfold load32 at 1.
  erewrite bind_ok by reflexivity. rewrite (sp_user _ _ S pd d), Hpt by done. done.
Qed.
Definition pool_full (user : bool) (p : pages bitmap) : Prop := forall n, run_of p user n 1 -> allocated p n = true.
Lemma full_pool flags (p : pages bitmap) :
  (forall n, run_of p (has_flag flags PAL_USER) n 1 -> exists m, n <= m < n + 1 /\ allocated p m = true) -> pool_full (has_flag flags PAL_USER) p.
Proof. intros H n Hn. destruct (H n Hn) as (m & Hm & Ha). by assert (m = n) as <- by lia. Qed.
Lemma lookup_create s T pd d va :
  spaces s T -> T !! pd = Some d -> user_addr va -> d !! pd_no va = None ->
  (lookup_page pd va true s = Ok (None, s) /\ pool_full false (frames s)) \/
  exists pt s', lookup_page pd va true s = Ok (Some (pt + 4 * pt_no va), s') /\ grown s T pd d va pt s'.
Proof.
  intros S Hd Hva Hpt. destruct (user_addr_facts va Hva) as (Hu & _ & Hi & _). destruct (pd_nonzero s T pd d S Hd) as [Hpk Hnz].
  destruct (palloc_get_multiple_ok PAL_ZERO 1 (frames s) (sp_pages _ _ S)) as [(pt & p' & E & G)|[Hfull E]]; [lia| |].
  2:{ left. split; [|by apply (full_pool PAL_ZERO)]. rewrite (lookup_no_table s T pd d va S Hd Hva Hpt). change (has_flag PAL_ZERO PAL_ASSERT) with false in E. cbv iota in E. unfold on_frames, palloc_get_page. rewrite bind_assoc.
      erewrite bind_ok by (rewrite E; reflexivity). change (0 =? 0) with true. cbv iota. rewrite ret_bind. unfold set_frames. by destruct s. }
  right. set (s1 := set_frames p' s). destruct (got_page s T _ pt p' S G) as (O1 & Hk & Hno & Hal & Hrun & Hag). cbv zeta in *. fold s1 in O1, Hag.
  pose proof (spaces_other _ _ _ S O1) as S1. pose proof G as [G1 G2 (A1 & A2 & A3) G4 G5 G6 G7].
  destruct (spaces_new_table s1 T pd d (pd_no va) pt S1 Hd Hpt Hi Hk) as (S2 & He2 & Ag2); try done.
  { intros j Hj. simpl. unfold word_at. rewrite !G7. change (has_flag PAL_ZERO PAL_ZERO) with true. cbn [andb]. unfold within, PGSIZE.
    rewrite !(proj2 (Z.leb_le _ _)), !(proj2 (Z.ltb_lt _ _)) by lia. done. }
  cbv zeta in *. set (s2 := stored32 _ _ s1) in *. exists pt, s2. split.
  - rewrite (lookup_no_table s T pd d va S Hd Hva Hpt), bind_assoc. erewrite bind_ok by (unfold on_frames, palloc_get_page; rewrite E; reflexivity). fold s1.
    rewrite (proj2 (Z.eqb_neq pt 0)) by lia. rewrite bind_assoc, (bind_ok _ _ _ _ _ (pde_create_ok s1 pt Hk)).
    erewrite bind_assoc, bind_ok by reflexivity. rewrite ret_bind. fold s2. unfold load32. erewrite bind_ok by reflexivity.
    rewrite (sp_user _ _ S2 pd (<[pd_no va := pt]> d)) by (done || by rewrite lookup_insert_eq). rewrite lookup_insert_eq.
    by rewrite (bind_ok _ _ _ _ _ (pde_get_pt_ok s2 pt Hk)).
  - split; try done.
    + intros pd' d' n Hd'. rewrite (He2 pd' d' n Hd'). by eapply other_entry.
    + intros n Hn1 Hn2 x <-. by rewrite Ag2, Hag.
    + split; [done|]. apply G5. lia.
    + intros n. simpl. change (allocated (set_ram _ ?p) n) with (allocated p n). rewrite G6. unfold within. case_decide; case_cmp; (done || lia).
Qed.

End Spaces.
