(* ===== verification/PagingProps.v ===== *)
(** The operations on page directories against address spaces as maps from page numbers to
    entries: the refinement, with the frames, the other memory and the cached entries. *)

From stdpp Require Import gmap.
From S2P Require Import Prelude KMonad CString Bitmap Palloc Bytes Paging PagingOk.

(** ** Bits of an entry *)

(** The frame of an entry, and the entry but for the accessed and dirty bits. *)
Definition frame (e : Z) : Z := Z.land e PTE_ADDR + PHYS_BASE.
Definition core (e : Z) : Z := Z.land e 0xffffff9f.
Definition is_mark (flag : Z) : Prop := flag = PTE_A \/ flag = PTE_D.
Definition marked (flag : Z) (v : bool) (e : Z) : Z := if v then Z.lor e flag else Z.land e (u32 (Z.lnot flag)).
Definition cleared (e : Z) : Z := Z.land e (u32 (Z.lnot PTE_P)).

Lemma land_word e c : 0 <= e < 2 ^ 32 -> 0 <= c -> 0 <= Z.land e c < 2 ^ 32.
Proof.
  intros He Hc. apply testbit_word; [apply Z.land_nonneg; lia|]. intros k Hk. by rewrite Z.land_spec, (word_testbit e).
Qed.
Lemma lor_word e c : 0 <= e < 2 ^ 32 -> 0 <= c < 2 ^ 32 -> 0 <= Z.lor e c < 2 ^ 32.
Proof.
  intros He Hc. apply testbit_word; [apply Z.lor_nonneg; lia|]. intros k Hk. by rewrite Z.lor_spec, !word_testbit.
Qed.
Lemma marked_facts flag v e :
  is_mark flag -> 0 <= e < 2 ^ 32 ->
  0 <= marked flag v e < 2 ^ 32 /\ present (marked flag v e) = present e /\ frame (marked flag v e) = frame e /\ core (marked flag v e) = core e.
Proof.
  intros Hf He. assert (Hr : 0 <= marked flag v e < 2 ^ 32).
  { unfold marked. destruct v; [apply lor_word|apply land_word]; try done; destruct Hf as [->| ->]; done. }
  split; [done|]. unfold present, frame, core, marked.
  destruct v; rewrite ?Z.land_lor_distr_l, <- ?Z.land_assoc; destruct Hf as [->| ->]; split_and!; do 2 f_equal;
    try (change (Z.land PTE_A ?k) with 0 || change (Z.land PTE_D ?k) with 0); rewrite ?Z.lor_0_r; done.
Qed.
Lemma cleared_facts e : 0 <= e < 2 ^ 32 -> 0 <= cleared e < 2 ^ 32 /\ present (cleared e) = false.
Proof.
  intros He. split; [by apply land_word|]. unfold present, cleared. rewrite <- Z.land_assoc. change (Z.land (u32 (Z.lnot PTE_P)) PTE_P) with 0.
  by rewrite Z.land_0_r.
Qed.
Lemma user_entry_frame p w : kpage_ok p -> frame (user_entry p w) = p.
Proof. intros Hp. destruct (user_entry_facts p w Hp) as (_ & _ & E & _). unfold frame. rewrite E. lia. Qed.

Lemma core_bits e e' k : core e = core e' -> Z.land 0xffffff9f k = k -> Z.land e k = Z.land e' k.
Proof. intros H Hk. unfold core in H. by rewrite <- Hk, !Z.land_assoc, H. Qed.

(** ** The processor *)

(** The translation of an address by the tables of a directory: the physical address, whether it
    may be written, and whether user code may use it (IA32-v3a 3.7.1, 4.11). *)
Definition writable (e : Z) : bool := negb (Z.land e PTE_W =? 0).
Definition user (e : Z) : bool := negb (Z.land e PTE_U =? 0).
Definition walk (m : ram_t) (dir va : Z) : option (Z * bool * bool) :=
  let pde := word_at m (dir + 4 * pd_no va) in
  if present pde then
    let pte := word_at m (Z.land pde PTE_ADDR + PHYS_BASE + 4 * pt_no va) in
    if present pte then Some (Z.land pte PTE_ADDR + va mod PGSIZE, writable pde && writable pte, user pde && user pte)
    else None
  else None.

Lemma table_entry_facts pt : kpage_ok pt ->
  let e := pt - PHYS_BASE + 7 in present e = true /\ frame e = pt /\ writable e = true /\ user e = true /\ Z.land e PTE_ADDR = pt - PHYS_BASE.
Proof.
  intros Hk e. destruct (phys_aligned pt Hk) as [Ha Hr].
  assert (Hl : forall k, 0 <= k < 4096 -> Z.land e k = Z.land 7 k) by (intros k Hk'; unfold e; by rewrite land_low, aligned_add by done).
  assert (Had : Z.land e PTE_ADDR = pt - PHYS_BASE) by (unfold e; rewrite land_addr, aligned_add by (done || lia); lia).
  unfold present, writable, user, frame. rewrite (Hl PTE_P), (Hl PTE_W), (Hl PTE_U) by done. rewrite Had. split_and!; try done. lia.
Qed.

(** An access by the processor to the page [n] of the active directory.  The processor uses the
    entry that it has cached if that has the marks which the access needs; else it reads the entry
    from the tables, sets the marks in memory and caches the entry (IA32-v3a 3.7.6, 3.12).  The
    result is the physical address of the page, [None] for a page fault.  The accessed bits of the
    directory entries, which no code reads, are left out. *)
Definition used (write : bool) (e : Z) : Z :=
  if write then marked PTE_D true (marked PTE_A true e) else marked PTE_A true e.
Definition may (write : bool) (e : Z) : bool := present e && (negb write || writable e).
Definition walk_tables (n : Z) (write : bool) (s : mmu) : option Z * mmu :=
  let pde := word_at (ram (frames s)) (cr3 s + PHYS_BASE + 4 * (n / 1024)) in
  let a := Z.land pde PTE_ADDR + PHYS_BASE + 4 * (n mod 1024) in
  let e := word_at (ram (frames s)) a in
  if may write pde && may write e then
    let s := if used write e =? e then s else stored32 a (used write e) s in
    (Some (Z.land e PTE_ADDR), mkMmu (frames s) (init_page_dir s) (cr3 s) (<[n := used write e]> (tlb s)))
  else (None, s).
Definition touch (n : Z) (write : bool) (s : mmu) : option Z * mmu :=
  match tlb s !! n with
  | Some e =>
      if may write e then if used write e =? e then (Some (Z.land e PTE_ADDR), s) else walk_tables n write s
      else (None, s)
  | None => walk_tables n write s
  end.

(** A cached entry may lack marks that the entry in memory has, but has no others. *)
Definition behind (e e' : Z) : Prop :=
  core e = core e' /\ forall flag, is_mark flag -> Z.land e flag <> 0 -> Z.land e' flag <> 0.

Definition mark_no (flag : Z) : Z := if flag =? PTE_A then 5 else 6.
Lemma mark_no_eq flag : is_mark flag -> flag = 2 ^ mark_no flag /\ 0 <= mark_no flag.
Proof. by intros [->| ->]. Qed.
Lemma mark_bit flag e : is_mark flag -> Z.land e flag <> 0 <-> Z.testbit e (mark_no flag) = true.
Proof.
  intros [E Hk]%mark_no_eq. rewrite E at 1. set (k := mark_no flag) in *. split.
  - intros H. destruct (Z.testbit e k) eqn:Eb; [done|]. destruct H. apply Z.bits_inj'. intros i Hi.
    rewrite Z.land_spec, Z.bits_0, Z.pow2_bits_eqb by done. destruct (Z.eqb_spec k i) as [<-|]; [by rewrite Eb|apply andb_false_r].
  - intros Eb H. pose proof (Z.land_spec e (2 ^ k) k) as L. by rewrite H, Z.bits_0, Eb, Z.pow2_bits_true in L.
Qed.
Lemma mark_added flag k e : is_mark flag -> is_mark k -> Z.land (marked flag true e) k <> 0 <-> Z.land e k <> 0 \/ k = flag.
Proof.
  intros Hf Hk. rewrite !mark_bit by done. destruct (mark_no_eq flag Hf) as [E Hn]. unfold marked. rewrite E at 1.
  rewrite Z.lor_spec, orb_true_iff, Z.pow2_bits_eqb, Z.eqb_eq by done.
  assert (mark_no flag = mark_no k <-> k = flag) as -> by (destruct Hf as [->| ->], Hk as [->| ->]; done). done.
Qed.
Lemma marked_id flag e : is_mark flag -> Z.land e flag <> 0 -> marked flag true e = e.
Proof.
  intros Hf H%mark_bit; [|done]. destruct (mark_no_eq flag Hf) as [E Hn]. unfold marked. rewrite E. apply Z.bits_inj'. intros i Hi.
  rewrite Z.lor_spec, Z.pow2_bits_eqb by done. destruct (Z.eqb_spec (mark_no flag) i) as [<-|]; [by rewrite H|apply orb_false_r].
Qed.
Lemma is_mark_A : is_mark PTE_A.
Proof. by left. Qed.
Lemma is_mark_D : is_mark PTE_D.
Proof. by right. Qed.
#[local] Hint Resolve is_mark_A is_mark_D : core.
Lemma used_facts write e :
  0 <= e < 2 ^ 32 -> 0 <= used write e < 2 ^ 32 /\ present (used write e) = present e /\ frame (used write e) = frame e /\ core (used write e) = core e.
Proof.
  intros He. destruct (marked_facts PTE_A true e) as (H1 & H2 & H3 & H4); [done..|]. unfold used. destruct write; [|done].
  destruct (marked_facts PTE_D true (marked PTE_A true e)) as (J1 & J2 & J3 & J4); [done..|]. by rewrite J2, J3, J4.
Qed.
Lemma used_marks write e k : is_mark k -> Z.land (used write e) k <> 0 <-> Z.land e k <> 0 \/ k = PTE_A \/ (write = true /\ k = PTE_D).
Proof. intros Hk. unfold used. destruct write; rewrite ?mark_added by done; intuition congruence. Qed.
Lemma used_id write e : Z.land e PTE_A <> 0 -> (write = true -> Z.land e PTE_D <> 0) -> used write e = e.
Proof. intros Ha Hd. unfold used. rewrite (marked_id PTE_A) by done. destruct write; [|done]. by apply marked_id; [|apply Hd]. Qed.

Lemma behind_refl e : behind e e.
Proof. by split. Qed.
Lemma behind_used write e e' : behind e e' -> used write e = e -> used write e' = e'.
Proof.
  intros [_ Hb] E. apply used_id; [|intros ->]; apply Hb; try done; rewrite <- E; apply used_marks; auto.
Qed.
Lemma behind_may write e e' : behind e e' -> may write e = may write e' /\ Z.land e PTE_ADDR = Z.land e' PTE_ADDR /\ writable e = writable e' /\ user e = user e'.
Proof. intros [Hc _]. unfold may, present, writable, user. by rewrite !(core_bits e e'). Qed.
Lemma behind_marked flag e e' : is_mark flag -> 0 <= e' < 2 ^ 32 -> behind e e' -> behind e (marked flag true e').
Proof.
  intros Hf He [Hc Hb]. split; [by destruct (marked_facts flag true e') as (_ & _ & _ & ->)|]. intros k Hk H. apply mark_added; [done..|]. left. by apply Hb.
Qed.
Lemma behind_after e e' write : 0 <= e' < 2 ^ 32 -> behind e e' -> behind e (used write e').
Proof.
  intros He Hb. pose proof (behind_marked PTE_A e e' is_mark_A He Hb) as H. unfold used. destruct write; [|done]. apply behind_marked; [done| |done].
  by apply marked_facts.
Qed.

(** ** The specification *)

(** Address spaces by the address of their page directory: the entry of every user page. *)
Abbreviation aspaces := (gmap Z (Z -> Z)).
Definition set_entry (n e : Z) (f : Z -> Z) : Z -> Z := fun m => if m =? n then e else f m.

Inductive pop :=
| PCreate
| PDestroy (pd : Z)
| PSet (pd upage kpage : Z) (writable : bool)
| PGet (pd uaddr : Z)
| PClear (pd upage : Z)
| PIs (flag pd vpage : Z)
| PMark (flag pd vpage : Z) (v : bool)
| PActivate (pd : Z).
Inductive preply := PAddr (a : Z) | PBool (b : bool) | PUnit.

(** What an operation replies and how it changes the address spaces; [full] tells that there is
    no memory left for page tables. *)

Inductive pstep (full : Prop) (A : aspaces) : pop -> preply -> aspaces -> Prop :=
| P_create pd : A !! pd = None -> pd <> 0 -> pstep full A PCreate (PAddr pd) (<[pd := fun _ => 0]> A)
| P_create_none : full -> pstep full A PCreate (PAddr 0) A
| P_destroy pd : pstep full A (PDestroy pd) PUnit (delete pd A)
| P_set pd f upage kpage w :
    A !! pd = Some f -> pstep full A (PSet pd upage kpage w) (PBool true) (<[pd := set_entry (upage / PGSIZE) (user_entry kpage w) f]> A)
| P_set_none pd upage kpage w : full -> pstep full A (PSet pd upage kpage w) (PBool false) A
| P_get pd f uaddr :
    A !! pd = Some f ->
    pstep full A (PGet pd uaddr) (PAddr (if present (f (uaddr / PGSIZE)) then frame (f (uaddr / PGSIZE)) + uaddr mod PGSIZE else 0)) A
| P_clear pd f upage :
    A !! pd = Some f ->
    pstep full A (PClear pd upage) PUnit
      (if present (f (upage / PGSIZE)) then <[pd := set_entry (upage / PGSIZE) (cleared (f (upage / PGSIZE))) f]> A else A)
| P_is flag pd f vpage :
    A !! pd = Some f -> pstep full A (PIs flag pd vpage) (PBool (negb (Z.land (f (vpage / PGSIZE)) flag =? 0))) A
| P_mark flag pd f vpage v :
    A !! pd = Some f -> pstep full A (PMark flag pd vpage v) PUnit (<[pd := set_entry (vpage / PGSIZE) (marked flag v (f (vpage / PGSIZE))) f]> A)
| P_activate pd : pstep full A (PActivate pd) PUnit A.

Lemma pstep_det full A o r A1 A2 : pstep full A o r A1 -> pstep full A o r A2 -> A1 = A2.
Proof. intros H1 H2. inversion H1; subst; inversion H2; subst; simplify_eq; done. Qed.

Section Refine.
Variable init_ram_pages : Z.
(** The pages of the kernel pool that are in use for other things. *)
Variable others : Z -> Prop.
(** The entries of the kernel half of the initial page directory. *)
Variable kernel_half : Z -> Z.
Implicit Types (s : mmu) (T : dirs) (A : aspaces).

Definition pexec (o : pop) : K mmu preply :=
  match o with
  | PCreate => a ← pagedir_create; mret (PAddr a)
  | PDestroy pd => pagedir_destroy pd;; mret PUnit
  | PSet pd upage kpage w => b ← pagedir_set_page init_ram_pages pd upage kpage w; mret (PBool b)
  | PGet pd uaddr => a ← pagedir_get_page pd uaddr; mret (PAddr a)
  | PClear pd upage => pagedir_clear_page pd upage;; mret PUnit
  | PIs flag pd vpage => b ← (if flag =? PTE_D then pagedir_is_dirty pd vpage else pagedir_is_accessed pd vpage); mret (PBool b)
  | PMark flag pd vpage v => (if flag =? PTE_D then pagedir_set_dirty pd vpage v else pagedir_set_accessed pd vpage v);; mret PUnit
  | PActivate pd => pagedir_activate pd;; mret PUnit
  end.

(** A frame that a user page may have: an allocated page of the user pool. *)
Definition user_frame s (k : Z) : Prop :=
  kpage_ok k /\ allocated (frames s) (k / PGSIZE) = true /\ run_of (frames s) true (k / PGSIZE) 1.
Definition maps A (x : Z * Z) (k : Z) : Prop :=
  exists f, A !! x.1 = Some f /\ 0 <= x.2 < USER_PAGES /\ present (f x.2) = true /\ frame (f x.2) = k.

(** What callers guarantee: directories in use, user addresses, a frame that is not in use
    for a page that is not mapped; a directory that is destroyed is not the active one. *)
Definition pop_ok s A (o : pop) : Prop :=
  match o with
  | PCreate => True
  | PDestroy pd => is_Some (A !! pd) /\ cr3 s + PHYS_BASE <> pd
  | PSet pd upage kpage _ =>
      (exists f, A !! pd = Some f /\ present (f (upage / PGSIZE)) = false) /\ user_addr upage /\ upage mod PGSIZE = 0 /\
      user_frame s kpage /\ (forall x, ~ maps A x kpage) /\ (kpage - PHYS_BASE) / PGSIZE < init_ram_pages
  | PGet pd va => is_Some (A !! pd) /\ user_addr va
  | PClear pd va => is_Some (A !! pd) /\ user_addr va /\ va mod PGSIZE = 0
  | PIs flag pd va => is_Some (A !! pd) /\ user_addr va /\ is_mark flag
  | PMark flag pd va _ => (exists f, A !! pd = Some f /\ f (va / PGSIZE) <> 0) /\ user_addr va /\ is_mark flag
  | PActivate pd => pd = 0 \/ is_Some (A !! pd)
  end.

(** What an access does to the address spaces, without a cache: it marks the entry. *)
Definition touched (pd n : Z) (write : bool) A : aspaces :=
  match A !! pd with
  | Some f => if may write (f n) && negb (used write (f n) =? f n) then <[pd := set_entry n (used write (f n)) f]> A else A
  | None => A
  end.

(** *** States that stand for address spaces *)

Record rel s T A : Prop := {
  rl_spaces : spaces s T;
  rl_dom pd : is_Some (A !! pd) <-> is_Some (T !! pd);
  rl_entry pd d f n : T !! pd = Some d -> A !! pd = Some f -> 0 <= n < USER_PAGES -> entry s d n = f n;
  rl_frame x k : maps A x k -> user_frame s k;
  rl_inj x y k : maps A x k -> maps A y k -> x = y;
  rl_cr3 : cr3 s + PHYS_BASE = init_page_dir s \/ is_Some (A !! (cr3 s + PHYS_BASE));
  rl_others n : others n -> ~ needed s T n /\ allocated (frames s) n = true /\ run_of (frames s) false n 1;
  rl_all n : run_of (frames s) false n 1 -> allocated (frames s) n = true -> needed s T n \/ others n;
  rl_kernel i : USER_TABLES <= i < 1024 -> word_at (ram (frames s)) (init_page_dir s + 4 * i) = kernel_half i
}.
(** A cached entry of a user page is that of the active address space, but for marks that were set
    since. *)
Definition tlb_ok s A : Prop := forall n e, tlb s !! n = Some e -> 0 <= n < USER_PAGES ->
  exists f, A !! (cr3 s + PHYS_BASE) = Some f /\ present (f n) = true /\ behind e (f n).
Definition stands s A : Prop := tlb_ok s A /\ exists T, rel s T A.

Lemma rel_both s T A pd : rel s T A -> is_Some (A !! pd) -> exists d f, T !! pd = Some d /\ A !! pd = Some f.
Proof. intros R [f Hf]. destruct (proj1 (rl_dom _ _ _ R pd)) as [d Hd]; [by eexists|]. eauto. Qed.
Lemma entry_range s T d n : spaces s T -> 0 <= entry s d n < 2 ^ 32.
Proof. intros S. unfold entry. destruct (d !! _); [apply word_at_range, S|lia]. Qed.

(** A page of the user pool is none of the page tables. *)
Lemma user_not_needed s T n : spaces s T -> run_of (frames s) true n 1 -> ~ needed s T n.
Proof.
  intros S [R1 R2] Hn. assert (Hk : run_of (frames s) false n 1).
  { destruct Hn as [->|(r & p & H & ->)]; [apply (sp_init _ _ S)|by apply (sp_page _ _ S r)]. }
  destruct Hk as [K1 K2]. destruct (sp_pages _ _ S) as [_ _ Hap]. simpl in *. lia.
Qed.

(** Reading an entry. *)
Lemma read_entry s T A pd d f va :
  rel s T A -> T !! pd = Some d -> A !! pd = Some f -> user_addr va ->
  (d !! pd_no va = None /\ f (va / PGSIZE) = 0) \/
  (exists pt, d !! pd_no va = Some pt /\ word_at (ram (frames s)) (pt + 4 * pt_no va) = f (va / PGSIZE)).
Proof.
  intros R Hd Hf Hva. destruct (user_addr_facts va Hva) as (_ & Hn & _). pose proof (rl_entry _ _ _ R pd d f _ Hd Hf Hn) as E.
  unfold entry in E. rewrite <- pd_no_eq, <- pt_no_eq in E. destruct (d !! pd_no va) as [pt|]; [right; eauto|by left].
Qed.

(** Writing one. *)
Lemma rel_write s T A pd d f i pt j e :
  rel s T A -> T !! pd = Some d -> A !! pd = Some f -> d !! i = Some pt -> 0 <= j < 1024 -> 0 <= e < 2 ^ 32 ->
  (present e = true -> user_frame s (frame e) /\ forall x, maps A x (frame e) -> x = (pd, 1024 * i + j)) ->
  rel (stored32 (pt + 4 * j) e s) T (<[pd := set_entry (1024 * i + j) e f]> A).
Proof.
  intros R Hd Hf Hi Hj He Hok. pose proof R as [S R2 R3 R4 R5 R6 R7 R8 R9]. set (n0 := 1024 * i + j).
  destruct (spaces_store s T pd d i pt j e S Hd Hi Hj He) as [S' Hent].
  assert (Hcase : forall x k, maps (<[pd := set_entry n0 e f]> A) x k -> (x = (pd, n0) /\ present e = true /\ k = frame e) \/ (x <> (pd, n0) /\ maps A x k)).
  { intros [q n] k (g & Hg & Hn & Hp & Hk). simpl in *. apply lookup_insert_Some in Hg as [[<- <-]|[Hne Hg]].
    - unfold set_entry in *. destruct (Z.eqb_spec n n0) as [->|Hnn]; [by left|right]. split; [congruence|]. by exists f.
    - right. split; [congruence|]. by exists g. }
  split; try done.
  - intros q. rewrite <- R2. destruct (decide (q = pd)) as [->|Hne]; [rewrite lookup_insert_eq, Hf; split; eauto|by rewrite lookup_insert_ne].
  - intros q d' g n Hq Hg Hn. rewrite (Hent q d' n Hq). apply lookup_insert_Some in Hg as [[<- <-]|[Hne Hg]].
    + unfold set_entry. destruct (Z.eqb_spec n n0) as [->|Hnn]; [by rewrite decide_True|]. rewrite decide_False by tauto. by eapply R3.
    + rewrite decide_False by (intros [? _]; congruence). by eapply R3.
  - intros x k [(_ & Hp & ->)|[_ Hm]]%Hcase; [by apply Hok|by eapply R4].
  - intros x y k [(-> & Hp & ->)|[Hx Hm]]%Hcase [(-> & Hp' & E)|[Hy Hm']]%Hcase; [done| | |by eapply R5].
    + by apply Hok in Hm'.
    + subst k. by apply Hok in Hm.
  - destruct R6 as [?|?]; [by left|right]. simpl. destruct (decide (cr3 s + PHYS_BASE = pd)) as [->|Hne]; [rewrite lookup_insert_eq; eauto|].
    by rewrite lookup_insert_ne.
  - intros k Hk. rewrite <- R9 by done. destruct (sp_init _ _ S) as ([Hia _] & _). unfold USER_TABLES in Hk.
    assert (Hh : holds T (pd, Some i) pt) by (by exists d). destruct (sp_page _ _ S _ _ Hh) as ([Hpa _] & _).
    apply (agrees_word _ _ _ _ _ (stored_agrees pt j e s Hpa Hj)); [done|by eapply init_apart|lia].
Qed.

(** The user pool and the pages in other use stay as they are. *)
Definition kept s (n : Z) : Prop := run_of (frames s) true n 1 \/ others n.
Record keeps_user s s' : Prop := {
  ku_pools : same_pools (frames s) (frames s');
  ku_ram x : kept s (x / PGSIZE) -> ram (frames s') x = ram (frames s) x;
  ku_used n : kept s n -> allocated (frames s') n = allocated (frames s) n
}.
Lemma same_kept s s' n : same_pools (frames s) (frames s') -> kept s n -> kept s' n.
Proof. intros H [Hr|Ho]; [left; by eapply same_run|by right]. Qed.
Lemma kept_not_needed s T A n : rel s T A -> kept s n -> ~ needed s T n.
Proof. intros R [Hr|Ho]; [by eapply user_not_needed; [apply R|]|by apply (rl_others _ _ _ R)]. Qed.
Lemma keeps_user_refl s : keeps_user s s.
Proof. by split. Qed.
Lemma keeps_user_trans s1 s2 s3 : keeps_user s1 s2 -> keeps_user s2 s3 -> keeps_user s1 s3.
Proof.
  intros [A1 A2 A3] [B1 B2 B3]. split.
  - by eapply same_pools_trans.
  - intros x Hx. rewrite B2, A2; [done|done|by eapply same_kept].
  - intros n Hn. rewrite B3, A3; [done|done|by eapply same_kept].
Qed.
Lemma keeps_user_frame s s' k : keeps_user s s' -> user_frame s k -> user_frame s' k.
Proof. intros [K1 K2 K3] (H1 & H2 & H3). split; [done|]. split; [by rewrite K3 by (by left)|by eapply same_run]. Qed.
(** A store into a page of the kernel pool. *)
Lemma store_keeps_user s T A r p j v :
  rel s T A -> holds T r p -> 0 <= j < 1024 -> keeps_user s (stored32 (p + 4 * j) v s).
Proof.
  intros R H Hj. destruct (sp_page _ _ (rl_spaces _ _ _ R) r p H) as ([Ha _] & _ & _). split; [done| |done].
  intros x Hx. apply (stored_agrees p j v s Ha Hj). intros E. eapply kept_not_needed; [done|exact Hx|]. rewrite E. right. eauto.
Qed.

Lemma holds_table T pd d i pt : T !! pd = Some d -> d !! i = Some pt -> holds T (pd, Some i) pt.
Proof. by exists d. Qed.
Lemma holds_dir T pd d : T !! pd = Some d -> holds T (pd, None) pd.
Proof. by exists d. Qed.
(** The pages needed with one more table. *)
Lemma holds_grown T pd d i pt r p :
  T !! pd = Some d -> d !! i = None ->
  holds (<[pd := <[i := pt]> d]> T) r p <-> (r = (pd, Some i) /\ p = pt) \/ holds T r p.
Proof.
  intros Hd Hi. destruct r as [q o]. split.
  - intros (d' & Hd' & Hp). cbn [fst snd] in *. apply lookup_insert_Some in Hd' as [[<- <-]|[Hne Hd']]; [|right; by exists d'].
    destruct o as [k|]; [|right; by exists d]. apply lookup_insert_Some in Hp as [[<- <-]|[Hni Hp]]; [by left|right; by exists d].
  - intros [[E ->]|(d' & Hd' & Hp)]; [rewrite E; by eapply holds_table; apply lookup_insert_eq|].
    cbn [fst snd] in Hd', Hp. destruct (decide (q = pd)) as [->|Hne].
    + assert (d' = d) as -> by congruence. destruct o as [k|]; [|cbn in Hp; subst p; by eapply holds_dir; apply lookup_insert_eq].
      eapply holds_table; [apply lookup_insert_eq|]. apply lookup_insert_Some. right. split; [intros ->; cbn in Hp; congruence|done].
    + exists d'. split; [|done]. apply lookup_insert_Some. by right.
Qed.
Lemma needed_grown s T pd d i pt s' n :
  T !! pd = Some d -> d !! i = None -> init_page_dir s' = init_page_dir s ->
  needed s' (<[pd := <[i := pt]> d]> T) n <-> n = pt / PGSIZE \/ needed s T n.
Proof.
  intros Hd Hi E. unfold needed. rewrite E. setoid_rewrite (holds_grown T pd d i pt _ _ Hd Hi). split.
  - intros [->|(r & p & [[_ ->]|H] & ->)]; [by right; left|by left|right; right; eauto].
  - intros [->|[->|(r & p & H & ->)]]; [right; exists (pd, Some i), pt; eauto|by left|right; exists r, p; eauto].
Qed.

Lemma grown_rel s T A pd d f va pt s' :
  rel s T A -> T !! pd = Some d -> A !! pd = Some f -> d !! pd_no va = None -> grown s T pd d va pt s' ->
  rel s' (<[pd := <[pd_no va := pt]> d]> T) A /\ keeps_user s s'.
Proof.
  intros R Hd Hf Hno [G1 G2 G3 [G4 G4'] G5 G6 (G7 & G8 & G9)]. pose proof R as [S R2 R3 R4 R5 R6 R7 R8 R9].
  set (T' := <[pd := <[pd_no va := pt]> d]> T) in *.
  assert (Hpt : holds T' (pd, Some (pd_no va)) pt) by (eapply holds_table; apply lookup_insert_eq).
  assert (Hpd : holds T' (pd, None) pd) by (eapply holds_dir; apply lookup_insert_eq).
  pose proof (fun n => needed_grown s T pd d (pd_no va) pt s' n Hd Hno G7) as Hnd. fold T' in Hnd.
  assert (Hk : forall n, kept s n -> n <> pt / PGSIZE /\ n <> pd / PGSIZE).
  { intros n Hn. split; intros ->; [|eapply (kept_not_needed s T A); [done..|]; right; exists (pd, None), pd; split; [by exists d|done]].
    destruct Hn as [Hr|Ho]; [|apply R7 in Ho as (_ & Ho & _); congruence].
    apply (same_run _ _ _ _ _ G6) in Hr. eapply user_not_needed; [exact G1|exact Hr|]. right. eauto. }
  assert (Ku : keeps_user s s').
  { split; [done| |].
    - intros x Hx. destruct (Hk _ Hx). by eapply G3; [| |reflexivity].
    - intros n Hn. destruct (Hk _ Hn). rewrite G5. by case_decide. }
  split; [|done]. split; try done.
  - intros q. rewrite R2. unfold T'. destruct (decide (q = pd)) as [->|Hne]; [rewrite lookup_insert_eq, Hd; split; eauto|by rewrite lookup_insert_ne].
  - intros q d' g n Hq Hg Hn. unfold T' in Hq. apply lookup_insert_Some in Hq as [[<- <-]|[Hne Hq]].
    + pose proof (G2 pd d n Hd) as E. rewrite decide_True in E by done. rewrite E. by eapply R3.
    + pose proof (G2 q d' n Hq) as E. rewrite decide_False in E by congruence. rewrite E. by eapply R3.
  - intros x k Hm. eapply keeps_user_frame; [done|by eapply R4].
  - rewrite G7, G8. done.
  - intros n Ho. destruct (R7 n Ho) as (H1 & H2 & H3). split; [rewrite Hnd; intros [->|H]; [congruence|done]|]. split; [|by eapply same_run].
    rewrite G5. by case_decide.
  - intros n Hr Ha. rewrite G5 in Ha. case_decide as E; [left; right; rewrite E; eauto|]. rewrite (same_pools_run _ _ false n 1 G6) in Hr.
    destruct (R8 n Hr Ha) as [Hn|Ho]; [left; rewrite Hnd; by right|by right].
  - intros i Hi. rewrite G7, <- R9 by done. destruct (sp_init _ _ S) as ([Hia _] & _). unfold USER_TABLES in Hi.
    apply (agrees_word (fun n => n <> pd / PGSIZE /\ n <> pt / PGSIZE)); [|done| |lia].
    + intros x [Hx Hx']. by eapply G3.
    + split; [by eapply init_apart; [|eapply holds_dir]|]. intros E. apply G4. left. by rewrite E.
Qed.

(** The end of [pagedir_set_page], when the table is there. *)
Lemma install s T A pd d f upage kpage w pt :
  rel s T A -> tlb_ok s A -> T !! pd = Some d -> A !! pd = Some f -> d !! pd_no upage = Some pt -> user_addr upage ->
  present (f (upage / PGSIZE)) = false -> user_frame s kpage -> (forall x, ~ maps A x kpage) ->
  exists s', (e ← load32 (pt + 4 * pt_no upage); ASSERT (Z.land e PTE_P =? 0);; e ← pte_create_user kpage w;
              store32 (pt + 4 * pt_no upage) e;; mret true) s = Ok (true, s') /\
    stands s' (<[pd := set_entry (upage / PGSIZE) (user_entry kpage w) f]> A) /\ keeps_user s s' /\ cr3 s' = cr3 s.
Proof.
  intros R Tl Hd Hf Hpt Hva Hnp Hk Hno. destruct (user_addr_facts _ Hva) as (_ & _ & _ & Hj & En). pose proof (rl_spaces _ _ _ R) as S.
  destruct (read_entry s T A pd d f upage R Hd Hf Hva) as [[? _]|(pt' & Hpt' & He)]; [congruence|]. assert (pt' = pt) as -> by congruence.
  destruct Hk as (Hk1 & Hk2 & Hk3). destruct (user_entry_facts kpage w Hk1) as (Hp & Hr & _).
  exists (stored32 (pt + 4 * pt_no upage) (user_entry kpage w) s). split.
  { unfold load32. erewrite bind_ok by reflexivity. rewrite He, ASSERT_true.
    - by rewrite (bind_ok _ _ _ _ _ (pte_create_user_ok s kpage w Hk1)).
    - unfold present in Hnp. by apply negb_false_iff in Hnp. }
  split; [|split; [eapply store_keeps_user; [done|by eapply holds_table|done]|done]]. split.
  - intros n e Hn Hr'. simpl. destruct (Tl n e Hn Hr') as (g & Hg & Hpg & Hc). destruct (decide (cr3 s + PHYS_BASE = pd)) as [E|Hne].
    + rewrite E, lookup_insert_eq. eexists. split; [done|]. unfold set_entry. assert (g = f) as -> by congruence.
      destruct (Z.eqb_spec n (upage / PGSIZE)) as [->|]; [congruence|done].
    + rewrite lookup_insert_ne by done. by exists g.
  - exists T. rewrite En. apply (rel_write s T A pd d f); try done. intros _. rewrite user_entry_frame by done. split; [done|].
    intros x Hx. by apply Hno in Hx.
Qed.

Lemma set_page_run s A pd f upage kpage w :
  stands s A -> A !! pd = Some f -> pop_ok s A (PSet pd upage kpage w) ->
  (pagedir_set_page init_ram_pages pd upage kpage w s = Ok (false, s) /\ pool_full false (frames s)) \/
  exists s', pagedir_set_page init_ram_pages pd upage kpage w s = Ok (true, s') /\
    stands s' (<[pd := set_entry (upage / PGSIZE) (user_entry kpage w) f]> A) /\ keeps_user s s' /\ cr3 s' = cr3 s.
Proof.
  intros [Tl [T R]] Hf ((f' & Hf' & Hnp) & Hva & Hal & Hk & Hno & Hram). assert (f' = f) as -> by congruence. clear Hf'.
  destruct (rel_both s T A pd R) as (d & f' & Hd & Hf'); [eauto|]. clear f' Hf'.
  pose proof (rl_spaces _ _ _ R) as S. destruct (user_addr_facts _ Hva) as (Hu & _). pose proof Hk as (Hk1 & _ & _). unfold pagedir_set_page.
  assert (Hstart : forall m : K mmu bool, (ASSERT (pg_ofs upage =? 0);; ASSERT (pg_ofs kpage =? 0);; ASSERT (is_user_vaddr upage);;
    p ← pure (vtop kpage); ASSERT (Z.shiftr p PTSHIFT <? init_ram_pages);; s ← get; ASSERT (negb (pd =? init_page_dir s));; m) s = m s).
  { intros m. rewrite ASSERT_true by (rewrite pg_ofs_mod; by apply Z.eqb_eq). rewrite ASSERT_true by (rewrite pg_ofs_mod; apply Z.eqb_eq, Hk1).
    rewrite ASSERT_true by done. unfold pure. erewrite bind_ok by (rewrite vtop_ok by done; reflexivity).
    rewrite ASSERT_true. 2:{ apply Z.ltb_lt. unfold PTSHIFT, PGBITS. rewrite Z.shiftr_div_pow2 by lia. done. }
    erewrite bind_ok by reflexivity. rewrite ASSERT_true; [done|]. apply negb_true_iff, Z.eqb_neq. intros ->.
    destruct (sp_init _ _ S) as (_ & _ & _ & Hi & _). apply (Hi (init_page_dir s, None)). by exists d. }
  destruct (d !! pd_no upage) as [pt|] eqn:Hpt.
  - right. pose proof (lookup_found s T pd d upage pt true S Hd Hva Hpt) as El.
    destruct (install s T A pd d f upage kpage w pt R Tl Hd Hf Hpt Hva Hnp Hk Hno) as (s' & E & St & Ku).
    exists s'. split; [|done]. rewrite Hstart, (bind_ok _ _ _ _ _ El). exact E.
  - destruct (lookup_create s T pd d upage S Hd Hva Hpt) as [[El Hfull]|(pt & s1 & El & G)].
    { left. split; [|done]. by rewrite Hstart, (bind_ok _ _ _ _ _ El). }
    right. destruct (grown_rel s T A pd d f upage pt s1 R Hd Hf Hpt G) as [R1 Ku1]. pose proof (gw_rest _ _ _ _ _ _ _ G) as (_ & Hcr & Htl).
    destruct (install s1 _ A pd (<[pd_no upage := pt]> d) f upage kpage w pt R1) as (s' & E & St & Ku & Hc); try done.
    + intros n e. rewrite Htl, Hcr. apply Tl.
    + apply lookup_insert_eq.
    + apply lookup_insert_eq.
    + by eapply keeps_user_frame.
    + exists s'. split; [rewrite Hstart, (bind_ok _ _ _ _ _ El); exact E|]. split; [done|]. split; [by eapply keeps_user_trans|congruence].
Qed.

(** What an operation on a present address space does. *)
Definition does s A (o : pop) : Prop :=
  exists r s' A', pexec o s = Ok (r, s') /\ pstep (pool_full false (frames s)) A o r A' /\ stands s' A' /\ keeps_user s s'.
Lemma set_page_stands s A pd upage kpage w :
  stands s A -> pop_ok s A (PSet pd upage kpage w) -> does s A (PSet pd upage kpage w).
Proof.
  intros St Hok. pose proof Hok as ((f & Hf & _) & _). destruct (set_page_run s A pd f upage kpage w St Hf Hok) as [[E Hfull]|(s' & E & St' & Ku & _)].
  - exists (PBool false), s, A. split; [simpl; by rewrite (bind_ok _ _ _ _ _ E)|]. split; [by constructor|]. split; [done|apply keeps_user_refl].
  - eexists (PBool true), s', _. split; [simpl; by rewrite (bind_ok _ _ _ _ _ E)|]. split; [by apply P_set|done].
Qed.

(** Looking without making: no table, or the entry. *)
Lemma look_cases s T A pd f va :
  rel s T A -> A !! pd = Some f -> user_addr va ->
  (lookup_page pd va false s = Ok (None, s) /\ f (va / PGSIZE) = 0) \/
  (exists d pt, T !! pd = Some d /\ d !! pd_no va = Some pt /\
     lookup_page pd va false s = Ok (Some (pt + 4 * pt_no va), s) /\ load32 (pt + 4 * pt_no va) s = Ok (f (va / PGSIZE), s)).
Proof.
  intros R Hf Hva. destruct (rel_both s T A pd R) as (d & f' & Hd & Hf'); [eauto|]. assert (f' = f) as -> by congruence. clear Hf'.
  pose proof (rl_spaces _ _ _ R) as S. destruct (read_entry s T A pd d f va R Hd Hf Hva) as [[Hn E]|(pt & Hpt & E)].
  - left. split; [by apply (lookup_missing s T pd d)|done].
  - right. exists d, pt. split; [done|]. split; [done|]. split; [by apply (lookup_found s T pd d)|]. unfold load32. by rewrite <- E.
Qed.
Lemma f_range s T A pd f n : rel s T A -> A !! pd = Some f -> 0 <= n < USER_PAGES -> 0 <= f n < 2 ^ 32.
Proof.
  intros R Hf Hn. destruct (rel_both s T A pd R) as (d & f' & Hd & Hf'); [eauto|]. assert (f' = f) as -> by congruence.
  rewrite <- (rl_entry _ _ _ R pd d f n) by done. apply (entry_range s T), R.
Qed.

Lemma pte_get_page_ok s e : kpage_ok (frame e) -> pte_get_page e s = Ok (frame e, s).
Proof.
  unfold frame. intros [_ H]. unfold pte_get_page, pure. unfold PHYS_BASE in *. rewrite ptov_ok by lia. done.
Qed.
Lemma get_page_run s A pd f va :
  stands s A -> A !! pd = Some f -> user_addr va ->
  pagedir_get_page pd va s =
    Ok (if present (f (va / PGSIZE)) then frame (f (va / PGSIZE)) + va mod PGSIZE else 0, s).
Proof.
  intros [_ [T R]] Hf Hva. destruct (user_addr_facts va Hva) as (Hu & Hn & _). unfold pagedir_get_page. rewrite ASSERT_true by done.
  destruct (look_cases s T A pd f va R Hf Hva) as [[El E]|(d & pt & _ & _ & El & Ee)]; rewrite (bind_ok _ _ _ _ _ El); [by rewrite E|].
  rewrite (bind_ok _ _ _ _ _ Ee). fold (present (f (va / PGSIZE))). destruct (present (f (va / PGSIZE))) eqn:Hp; [|done].
  destruct (rl_frame _ _ _ R (pd, va / PGSIZE) (frame (f (va / PGSIZE)))) as ([Hal Hr] & _); [by exists f|].
  rewrite (bind_ok _ _ _ _ _ (pte_get_page_ok s _ (conj Hal Hr))). rewrite pg_ofs_mod.
  pose proof (Z.mod_pos_bound va PGSIZE ltac:(done)). pose proof (Z.div_mod (frame (f (va / PGSIZE))) PGSIZE ltac:(done)).
  unfold PGSIZE, PHYS_BASE in *. by rewrite wrapu_small by lia.
Qed.
Lemma get_page_stands s A pd va : stands s A -> pop_ok s A (PGet pd va) -> does s A (PGet pd va).
Proof.
  intros St [[f Hf] Hva]. eexists _, s, A. split; [|split; [by apply (P_get _ A pd f)|split; [done|apply keeps_user_refl]]].
  simpl. by rewrite (bind_ok _ _ _ _ _ (get_page_run s A pd f va St Hf Hva)).
Qed.
Lemma is_flag_run s A flag pd f va :
  stands s A -> A !! pd = Some f -> user_addr va -> is_flag flag pd va s = Ok (negb (Z.land (f (va / PGSIZE)) flag =? 0), s).
Proof.
  intros [_ [T R]] Hf Hva. unfold is_flag.
  destruct (look_cases s T A pd f va R Hf Hva) as [[El E]|(d & pt & _ & _ & El & Ee)]; rewrite (bind_ok _ _ _ _ _ El); [by rewrite E|].
  by rewrite (bind_ok _ _ _ _ _ Ee).
Qed.
Lemma is_flag_stands s A flag pd va : stands s A -> pop_ok s A (PIs flag pd va) -> does s A (PIs flag pd va).
Proof.
  intros St ([f Hf] & Hva & Hfl). eexists _, s, A. split; [|split; [by apply (P_is _ A flag pd f)|split; [done|apply keeps_user_refl]]].
  simpl. erewrite bind_ok; [reflexivity|]. rewrite <- (is_flag_run s A flag pd f va St Hf Hva). by destruct Hfl as [->| ->].
Qed.

(** The processor's cached entries. *)
Definition flushed s : mmu := mkMmu (frames s) (init_page_dir s) (cr3 s) ∅.
Lemma flushed_stands s T A : rel s T A -> stands (flushed s) A.
Proof. intros [R1 R2 R3 R4 R5 R6 R7 R8 R9]. split; [done|]. exists T. split; try done. by destruct R1. Qed.
Lemma flushed_keeps s s1 (P : Prop) `{Decision P} : keeps_user s s1 -> keeps_user s (if decide P then flushed s1 else s1).
Proof. intros [K1 K2 K3]. by destruct (decide P). Qed.
Lemma active_range s T A : rel s T A -> kpage_ok (cr3 s + PHYS_BASE).
Proof.
  intros R. destruct (rl_cr3 _ _ _ R) as [E|H]; [rewrite E; apply (sp_init _ _ (rl_spaces _ _ _ R))|].
  destruct (rel_both s T A _ R H) as (d & _ & Hd & _). by eapply pd_nonzero; [apply R|].
Qed.
Lemma active_pd_ok s T A : rel s T A -> active_pd s = Ok (cr3 s + PHYS_BASE, s).
Proof.
  intros R. destruct (active_range s T A R) as [_ Hr]. unfold active_pd. erewrite bind_ok by reflexivity. unfold pure, PHYS_BASE in *.
  by rewrite ptov_ok by lia.
Qed.
Lemma invalidate_ok s T A pd :
  rel s T A -> invalidate_pagedir pd s = Ok (tt, if decide (cr3 s + PHYS_BASE = pd) then flushed s else s).
Proof.
  intros R. unfold invalidate_pagedir. rewrite (bind_ok _ _ _ _ _ (active_pd_ok s T A R)).
  destruct (Z.eqb_spec (cr3 s + PHYS_BASE) pd) as [<-|Hne]; [rewrite decide_True by done|by rewrite decide_False].
  pose proof (active_range s T A R) as Hk. unfold pagedir_activate. erewrite bind_ok by reflexivity.
  rewrite (proj2 (Z.eqb_neq _ 0)) by (destruct Hk as [_ Hk]; unfold PHYS_BASE in *; lia). unfold pure.
  erewrite bind_ok by (rewrite vtop_ok by done; reflexivity). rewrite Z.add_simpl_r. done.
Qed.

(** An entry rewritten, with the cached entries dropped when they are those of the directory. *)
Lemma write_entry s T A pd d f va pt e (s1 := stored32 (pt + 4 * pt_no va) e s) (A1 := <[pd := set_entry (va / PGSIZE) e f]> A) :
  rel s T A -> tlb_ok s A -> T !! pd = Some d -> A !! pd = Some f -> d !! pd_no va = Some pt -> user_addr va -> 0 <= e < 2 ^ 32 ->
  (present e = true -> present (f (va / PGSIZE)) = true /\ frame e = frame (f (va / PGSIZE))) ->
  rel s1 T A1 /\ keeps_user s s1 /\ (stands (if decide (cr3 s1 + PHYS_BASE = pd) then flushed s1 else s1) A1) /\
  (present e = present (f (va / PGSIZE)) -> (forall c, behind c (f (va / PGSIZE)) -> behind c e) -> stands s1 A1).
Proof.
  intros R Tl Hd Hf Hpt Hva He Hok. destruct (user_addr_facts _ Hva) as (_ & Hn & _ & Hj & En).
  assert (R1 : rel s1 T A1).
  { unfold A1. rewrite En. apply (rel_write s T A pd d f); try done. intros Hp. destruct (Hok Hp) as [Hpf Efr]. rewrite Efr.
    assert (Hm : maps A (pd, va / PGSIZE) (frame (f (va / PGSIZE)))) by (by exists f). split; [by apply (rl_frame _ _ _ R _ _ Hm)|].
    intros x Hx. rewrite <- En. by apply (rl_inj _ _ _ R x (pd, va / PGSIZE) _ Hx). }
  split; [done|]. split; [eapply store_keeps_user; [exact R|by eapply holds_table|done]|]. split.
  - destruct (decide _) as [E|Hne]; [by eapply flushed_stands|]. split; [|eauto]. intros n e' Hn' Hr.
    destruct (Tl n e' Hn' Hr) as (g & Hg & Hpg). exists g. unfold A1. by rewrite lookup_insert_ne.
  - intros Ep Ec. split; [|eauto]. intros n e' Hn' Hr. destruct (Tl n e' Hn' Hr) as (g & Hg & Hpg & Hcg). change (cr3 s1) with (cr3 s). unfold A1.
    destruct (decide (cr3 s + PHYS_BASE = pd)) as [E|Hne]; [|exists g; by rewrite lookup_insert_ne].
    rewrite E, lookup_insert_eq. eexists. split; [done|]. assert (g = f) as -> by congruence. unfold set_entry.
    destruct (Z.eqb_spec n (va / PGSIZE)) as [->|]; [rewrite Ep; auto|done].
Qed.

(** The processor's accesses: what they find, and the address spaces after them. *)
Lemma page_facts n : 0 <= n < USER_PAGES ->
  user_addr (n * PGSIZE) /\ n * PGSIZE / PGSIZE = n /\ pd_no (n * PGSIZE) = n / 1024 /\ pt_no (n * PGSIZE) = n mod 1024 /\
  0 <= n / 1024 < USER_TABLES /\ 0 <= n mod 1024 < 1024.
Proof.
  intros Hn. assert (Hva : user_addr (n * PGSIZE)) by (unfold user_addr, PHYS_BASE, PGSIZE, USER_PAGES in *; lia).
  destruct (user_addr_facts _ Hva) as (_ & _ & H1 & H2 & _). rewrite pd_no_eq, pt_no_eq, Z.div_mul in * by done. done.
Qed.
Lemma walk_tables_none n write s A T :
  rel s T A -> A !! (cr3 s + PHYS_BASE) = None -> 0 <= n < USER_PAGES -> walk_tables n write s = (None, s).
Proof.
  intros R Hn Hr. destruct (rl_cr3 _ _ _ R) as [E|[f Hf]]; [|congruence]. destruct (page_facts n Hr) as (_ & _ & _ & _ & Hi & _).
  unfold walk_tables. rewrite E. destruct (sp_init _ _ (rl_spaces _ _ _ R)) as (_ & _ & _ & _ & H). by rewrite H.
Qed.
Lemma filled_stands n e s A f :
  stands s A -> A !! (cr3 s + PHYS_BASE) = Some f -> present (f n) = true -> behind e (f n) ->
  stands (mkMmu (frames s) (init_page_dir s) (cr3 s) (<[n := e]> (tlb s))) A.
Proof.
  intros [Tl [T R]] Hf Hp Hb. split.
  - intros m c Hm Hr. simpl in *. apply lookup_insert_Some in Hm as [[<- <-]|[_ Hm]]; [by exists f|by apply Tl].
  - exists T. destruct R as [R1 R2 R3 R4 R5 R6 R7 R8 R9]. split; try done. by destruct R1.
Qed.
Lemma walk_tables_ok n write s A T f :
  rel s T A -> tlb_ok s A -> A !! (cr3 s + PHYS_BASE) = Some f -> 0 <= n < USER_PAGES ->
  (walk_tables n write s).1 = (if may write (f n) then Some (Z.land (f n) PTE_ADDR) else None) /\
  stands (walk_tables n write s).2 (touched (cr3 s + PHYS_BASE) n write A) /\ keeps_user s (walk_tables n write s).2 /\
  (may write (f n) = true -> tlb (walk_tables n write s).2 !! n = Some (used write (f n))).
Proof.
  intros R Tl Hf Hr. destruct (rel_both s T A (cr3 s + PHYS_BASE) R) as (d & f' & Hd & Hf'); [eauto|]. assert (f' = f) as -> by congruence.
  destruct (page_facts n Hr) as (Hva & E1 & E2 & E3 & Hi & Hj). pose proof (f_range s T A _ f n R Hf Hr) as Hfr.
  unfold walk_tables. rewrite (sp_user _ _ (rl_spaces _ _ _ R) _ d) by done.
  destruct (read_entry s T A _ d f _ R Hd Hf Hva) as [[E Ez]|(pt & E & Ew)]; rewrite E2, E1 in *; rewrite E.
  { unfold touched. rewrite Hf, Ez. split; [done|]. split; [by split; [|exists T]|]. split; [apply keeps_user_refl|by destruct write]. }
  destruct (sp_page _ _ (rl_spaces _ _ _ R) _ _ (holds_table T _ d _ pt Hd E)) as (Hk & _).
  destruct (table_entry_facts pt Hk) as (F1 & _ & F3 & _ & F5). cbv zeta in *. rewrite F5, Z.sub_simpl_r, <- E3, Ew.
  replace (may write (pt - PHYS_BASE + 7)) with true by (unfold may; rewrite F1, F3; by destruct write). cbn [andb].
  unfold touched. rewrite Hf. destruct (may write (f n)) eqn:Hm; [|by split; [|split; [split; [|exists T]|split; [apply keeps_user_refl|]]]]. cbn [andb fst snd tlb].
  destruct (used_facts write (f n) Hfr) as (U1 & U2 & U3 & U4). assert (Hp : present (f n) = true) by (unfold may in Hm; by destruct (present (f n))).
  split; [done|]. destruct (Z.eqb_spec (used write (f n)) (f n)) as [Eu|Hne]; cbn [negb].
  { rewrite Eu. split; [|split; [by split|intros _; apply lookup_insert_eq]]. apply (filled_stands n (f n) s A f); try done. split; [done|by exists T]. }
  destruct (write_entry s T A (cr3 s + PHYS_BASE) d f (n * PGSIZE) pt (used write (f n))) as (R1 & Ku & _ & St); rewrite ?E1, ?E2; try done.
  rewrite E1 in St. split; [|split; [by destruct Ku|intros _; apply lookup_insert_eq]]. apply (filled_stands n _ _ _ (set_entry n (used write (f n)) f)).
  - apply St; [done|]. intros c. by apply behind_after.
  - apply lookup_insert_eq.
  - unfold set_entry. by rewrite Z.eqb_refl, U2.
  - unfold set_entry. rewrite Z.eqb_refl. apply behind_refl.
Qed.
Lemma touch_ok n write s A (pd := cr3 s + PHYS_BASE) :
  stands s A -> 0 <= n < USER_PAGES ->
  (touch n write s).1 = match A !! pd with
                        | Some f => if may write (f n) then Some (Z.land (f n) PTE_ADDR) else None
                        | None => None
                        end /\
  stands (touch n write s).2 (touched pd n write A) /\ keeps_user s (touch n write s).2.
Proof.
  intros [Tl [T R]] Hr. assert (St : stands s A) by (split; [done|by exists T]). unfold pd, touch. destruct (tlb s !! n) as [e|] eqn:Ht.
  - destruct (Tl n e Ht Hr) as (f & Hf & Hp & Hb). rewrite Hf. destruct (behind_may write e (f n) Hb) as (Em & Ea & _). rewrite Em.
    destruct (may write (f n)) eqn:Hm; [|unfold touched; rewrite Hf, Hm; split; [done|]; split; [done|apply keeps_user_refl]].
    destruct (Z.eqb_spec (used write e) e) as [Eu|_].
    + unfold touched. rewrite Hf, Hm, (behind_used write e (f n) Hb Eu), Z.eqb_refl, Ea. split; [done|]. split; [done|apply keeps_user_refl].
    + destruct (walk_tables_ok n write s A T f R Tl Hf Hr) as (H1 & H2 & H3 & _). by rewrite Hm in H1.
  - destruct (A !! (cr3 s + PHYS_BASE)) as [f|] eqn:Hf; [by destruct (walk_tables_ok n write s A T f R Tl Hf Hr) as (H1 & H2 & H3 & _)|].
    rewrite (walk_tables_none n write s A T R Hf Hr). unfold touched. rewrite Hf. split; [done|]. split; [done|apply keeps_user_refl].
Qed.

Lemma touched_marks pd n write A f :
  A !! pd = Some f -> may write (f n) = true -> exists g, touched pd n write A !! pd = Some g /\ g n = used write (f n).
Proof.
  intros Hf Hm. unfold touched. rewrite Hf, Hm. destruct (Z.eqb_spec (used write (f n)) (f n)) as [E|_]; cbn [andb negb]; [by exists f|].
  eexists. split; [apply lookup_insert_eq|]. unfold set_entry. by rewrite Z.eqb_refl.
Qed.

Lemma clear_page_stands s A pd va : stands s A -> pop_ok s A (PClear pd va) -> does s A (PClear pd va).
Proof.
  intros St ([f Hf] & Hva & Hal). pose proof St as [Tl [T R]]. destruct (user_addr_facts va Hva) as (Hu & Hn & _).
  pose proof (f_range s T A pd f _ R Hf Hn) as Hfr. destruct (cleared_facts _ Hfr) as [Hcr Hcp].
  assert (Hstart : forall m : K mmu unit, (ASSERT (pg_ofs va =? 0);; ASSERT (is_user_vaddr va);; m) s = m s).
  { intros m. rewrite ASSERT_true by (rewrite pg_ofs_mod; by apply Z.eqb_eq). by rewrite ASSERT_true. }
  assert (Hsame : pagedir_clear_page pd va s = Ok (tt, s) -> present (f (va / PGSIZE)) = false -> does s A (PClear pd va)).
  { intros E Hp. exists PUnit, s, A. split; [simpl; by rewrite (bind_ok _ _ _ _ _ E)|]. split; [|split; [done|apply keeps_user_refl]].
    pose proof (P_clear (pool_full false (frames s)) A pd f va Hf) as Hs. by rewrite Hp in Hs. }
  destruct (look_cases s T A pd f va R Hf Hva) as [[El E]|(d & pt & Hd & Hpt & El & Ee)].
  { apply Hsame; [|by rewrite E]. unfold pagedir_clear_page. rewrite Hstart. by rewrite (bind_ok _ _ _ _ _ El). }
  destruct (present (f (va / PGSIZE))) eqn:Hp.
  2:{ apply Hsame; [|done]. unfold pagedir_clear_page. rewrite Hstart. rewrite (bind_ok _ _ _ _ _ El), (bind_ok _ _ _ _ _ Ee).
      fold (present (f (va / PGSIZE))). by rewrite Hp. }
  destruct (write_entry s T A pd d f va pt (cleared (f (va / PGSIZE)))) as (R1 & Ku & St1 & _); try done; [congruence|].
  exists PUnit. eexists _, _. split; [|split; [|split; [exact St1|]]].
  - simpl. erewrite bind_ok; [reflexivity|]. unfold pagedir_clear_page. rewrite Hstart, (bind_ok _ _ _ _ _ El), (bind_ok _ _ _ _ _ Ee).
    fold (present (f (va / PGSIZE))). rewrite Hp. unfold when. rewrite (bind_ok _ _ _ _ _ (store32_ok _ _ s)). exact (invalidate_ok _ T _ pd R1).
  - pose proof (P_clear (pool_full false (frames s)) A pd f va Hf) as Hs. by rewrite Hp in Hs.
  - by apply flushed_keeps.
Qed.

Lemma set_flag_stands s A flag pd va v : stands s A -> pop_ok s A (PMark flag pd va v) -> does s A (PMark flag pd va v).
Proof.
  intros St ((f & Hf & Hnz) & Hva & Hfl). pose proof St as [Tl [T R]]. destruct (user_addr_facts va Hva) as (Hu & Hn & _).
  pose proof (f_range s T A pd f _ R Hf Hn) as Hfr. destruct (marked_facts flag v _ Hfl Hfr) as (Hmr & Hmp & Hmf & Hmc).
  destruct (look_cases s T A pd f va R Hf Hva) as [[El E]|(d & pt & Hd & Hpt & El & Ee)]; [done|].
  destruct (write_entry s T A pd d f va pt (marked flag v (f (va / PGSIZE)))) as (R1 & Ku & St1 & St2); try done; [by rewrite Hmp|].
  assert (Es : set_flag flag pd va v s = Ok (tt, if v then stored32 (pt + 4 * pt_no va) (marked flag v (f (va / PGSIZE))) s else
    (let s1 := stored32 (pt + 4 * pt_no va) (marked flag v (f (va / PGSIZE))) s in if decide (cr3 s1 + PHYS_BASE = pd) then flushed s1 else s1))).
  { unfold set_flag. rewrite (bind_ok _ _ _ _ _ El), (bind_ok _ _ _ _ _ Ee). destruct v; [done|]. 
    rewrite (bind_ok _ _ _ _ _ (store32_ok _ _ s)). exact (invalidate_ok _ T _ pd R1). }
  exists PUnit. eexists _, _. split; [|split; [by apply P_mark|]].
  - simpl. replace (if flag =? PTE_D then _ else _) with (set_flag flag pd va v) by (by destruct Hfl as [->| ->]).
    by rewrite (bind_ok _ _ _ _ _ Es).
  - destruct v; [split; [|done]; apply St2; [done|by intros c; apply behind_marked]|]. split; [done|]. by apply flushed_keeps.
Qed.

Lemma activate_run s A pd (q := if pd =? 0 then init_page_dir s else pd) :
  stands s A -> pd = 0 \/ is_Some (A !! pd) ->
  exists s', pagedir_activate pd s = Ok (tt, s') /\ stands s' A /\ frames s' = frames s /\ init_page_dir s' = init_page_dir s /\ cr3 s' + PHYS_BASE = q.
Proof.
  intros [_ [T R]] Hpd.
  assert (Hq : kpage_ok q /\ (q = init_page_dir s \/ is_Some (A !! q))).
  { pose proof (sp_init _ _ (rl_spaces _ _ _ R)) as [Hi _]. unfold q. destruct (Z.eqb_spec pd 0) as [E|Hne]; [by split; [|left]|].
    destruct Hpd as [?|H]; [done|]. split; [|by right]. destruct (rel_both s T A _ R H) as (d & _ & Hd & _). by eapply pd_nonzero; [apply R|]. }
  destruct Hq as [Hk Hq]. exists (mkMmu (frames s) (init_page_dir s) (q - PHYS_BASE) ∅). split; [|split; [|split; [done|split; [done|simpl; lia]]]].
  - unfold pagedir_activate. erewrite bind_ok by reflexivity. fold q. unfold pure. by erewrite bind_ok by (rewrite vtop_ok by done; reflexivity).
  - split; [done|]. exists T. destruct R as [R1 R2 R3 R4 R5 R6 R7 R8 R9]. split; try done; simpl; [by destruct R1|by rewrite Z.sub_simpl_r].
Qed.
Lemma activate_stands s A pd : stands s A -> pop_ok s A (PActivate pd) -> does s A (PActivate pd).
Proof.
  intros St Hpd. destruct (activate_run s A pd St Hpd) as (s' & E & St' & Ef & _). exists PUnit, s', A.
  split; [simpl; by rewrite (bind_ok _ _ _ _ _ E)|]. split; [constructor|]. split; [done|]. by split; rewrite Ef.
Qed.

(** A new directory. *)
Lemma holds_new T pd r p :
  T !! pd = None -> holds (<[pd := ∅]> T) r p <-> (r = (pd, None) /\ p = pd) \/ holds T r p.
Proof.
  intros Hd. destruct r as [q o]. split.
  - intros (d' & Hd' & Hp). cbn [fst snd] in *. apply lookup_insert_Some in Hd' as [[<- <-]|[Hne Hd']]; [|right; by exists d'].
    destruct o as [k|]; [by rewrite lookup_empty in Hp|left; split; [done|exact Hp]].
  - intros [[E ->]|(d' & Hd' & Hp)]; [rewrite E; by eapply holds_dir; apply lookup_insert_eq|].
    cbn [fst snd] in Hd', Hp. exists d'. split; [|done]. apply lookup_insert_Some. right. split; [intros E; cbn in E; congruence|done].
Qed.
Lemma needed_new s T pd s' n :
  T !! pd = None -> init_page_dir s' = init_page_dir s ->
  needed s' (<[pd := ∅]> T) n <-> n = pd / PGSIZE \/ needed s T n.
Proof.
  intros Hd E. unfold needed. rewrite E. setoid_rewrite (holds_new T pd _ _ Hd). split.
  - intros [->|(r & p & [[_ ->]|H] & ->)]; [by right; left|by left|right; right; eauto].
  - intros [->|[->|(r & p & H & ->)]]; [right; exists (pd, None), pd; eauto|by left|right; exists r, p; eauto].
Qed.
Lemma spaces_new_dir s T pd :
  spaces s T -> kpage_ok pd -> ~ needed s T (pd / PGSIZE) -> allocated (frames s) (pd / PGSIZE) = true ->
  run_of (frames s) false (pd / PGSIZE) 1 ->
  (forall j, 0 <= j < 1024 -> word_at (ram (frames s)) (pd + 4 * j) = word_at (ram (frames s)) (init_page_dir s + 4 * j)) ->
  T !! pd = None /\ spaces s (<[pd := ∅]> T).
Proof.
  intros [S1 S2 S3 S4 (I1 & I2 & Ir & I3 & I4) S6 S7 S8 S9] Hk Hno Hal Hr Hw.
  assert (Hd : T !! pd = None).
  { destruct (T !! pd) as [d|] eqn:E; [|done]. exfalso. apply Hno. right. exists (pd, None), pd. split; [by exists d|done]. }
  split; [done|]. unfold USER_TABLES in *. split; try done; unfold USER_TABLES.
  - intros r p [[_ ->]|H]%holds_new; [done|by eapply S4|done].
  - split_and!; try done; try apply I1; try apply Ir. intros r [[_ E]|H]%holds_new; [|by eapply I3|done]. apply Hno. left. by rewrite E.
  - intros r r' p H H'. apply (holds_new T pd) in H, H'; [|done..]. destruct H as [[-> ->]|H], H' as [[-> E]|H']; [done| | |by eapply S6].
    + exfalso. apply Hno. right. eauto.
    + exfalso. apply Hno. right. rewrite E in H. eauto.
  - intros q d i pt [[<- <-]|[Hne Hq]]%lookup_insert_Some Hi; [by rewrite lookup_empty in Hi|by eapply S7].
  - intros q d i [[<- <-]|[Hne Hq]]%lookup_insert_Some Hi; [|by eapply S8]. rewrite Hw, lookup_empty by lia. by apply I4.
  - intros q d i [[<- <-]|[Hne Hq]]%lookup_insert_Some Hi; [|by eapply S9]. by rewrite Hw by lia.
Qed.

Lemma word_at_move m m' a b : (forall k, 0 <= k < 4 -> m (a + k) = m' (b + k)) -> word_at m a = word_at m' b.
Proof.
  intros H. unfold word_at. pose proof (H 0 ltac:(lia)) as H0. rewrite !Z.add_0_r in H0. by rewrite H0, !H by lia.
Qed.
(** A page from the allocator with a copy of the initial directory. *)
Lemma create_run s T :
  spaces s T -> (pagedir_create s = Ok (0, s) /\ pool_full false (frames s)) \/
  exists pd s', pagedir_create s = Ok (pd, s') /\ spaces s' T /\ other_pages s T s' /\ kpage_ok pd /\
    allocated (frames s) (pd / PGSIZE) = false /\ run_of (frames s) false (pd / PGSIZE) 1 /\
    (forall n, allocated (frames s') n = if decide (n = pd / PGSIZE) then true else allocated (frames s) n) /\
    agrees (fun n => n <> pd / PGSIZE) s s' /\ cr3 s' = cr3 s /\ tlb s' = tlb s /\
    forall j, 0 <= j < 1024 -> word_at (ram (frames s')) (pd + 4 * j) = word_at (ram (frames s')) (init_page_dir s' + 4 * j).
Proof.
  intros S. destruct (palloc_get_multiple_ok 0 1 (frames s) (sp_pages _ _ S)) as [(pd & p' & E & G)|[Hfull E]]; [lia| |].
  2:{ left. split; [|by apply (full_pool 0)]. unfold pagedir_create. change (has_flag 0 PAL_ASSERT) with false in E. cbv iota in E. erewrite bind_ok by (unfold on_frames, palloc_get_page; rewrite E; reflexivity).
      by destruct s. }
  right. set (s1 := set_frames p' s). destruct (got_page s T _ pd p' S G) as (O1 & Hk & Hno & Hal & Hrun & Hag). cbv zeta in *. fold s1 in O1, Hag.
  pose proof (spaces_other _ _ _ S O1) as S1. pose proof G as [G1 G2 (A1 & A2 & A3) G4 G5 G6 G7]. destruct (sp_init _ _ S) as (Hi & Hia & _).
  pose proof Hk as [_ Hkr]. pose proof Hi as [Him Hir].
  assert (Hap : pd + PGSIZE <= init_page_dir s \/ init_page_dir s + PGSIZE <= pd).
  { apply pages_apart; [done..|]. intros E1. apply Hno. left. by rewrite E1. }
  destruct (memcpy_ok pd (init_page_dir s) PGSIZE (ram p')) as (m & Em & Hm); [lia|unfold PHYS_BASE in Hir; lia|done|unfold PGSIZE in *; lia|].
  set (s2 := set_frames (set_ram m p') s). exists pd, s2.
  assert (Hag2 : agrees (fun n => n <> pd / PGSIZE) s s2).
  { intros x Hx. simpl. rewrite Hm. unfold copied, within. destruct ((pd <=? x) && (x <? pd + PGSIZE)) eqn:Ew; [|by apply Hag].
    reflect_bools. destruct Hx. replace x with (pd + (x - pd)) by lia. apply page_of; [done|lia]. }
  assert (O2 : other_pages s T s2).
  { destruct O1 as [B1 B2 B3 B4 B5 B6]. split; try done.
    - by apply pages_ok_ram.
    - intros x. simpl. rewrite Hm. unfold copied. destruct (within _ _ _); apply B2.
    - intros x Hx. apply Hag2. intros Ex. apply Hno. by rewrite <- Ex. }
  split; [|split; [exact (spaces_other s T s2 S O2)|split; [done|split; [done|split; [apply G5; lia|split; [done|split; [|split; [done|split; [done|split; [done|]]]]]]]]]].
  - unfold pagedir_create. erewrite bind_ok by (unfold on_frames, palloc_get_page; rewrite E; reflexivity). erewrite bind_ok by reflexivity.
    rewrite (proj2 (Z.eqb_neq pd 0)) by lia. cbn [negb]. erewrite bind_ok; [reflexivity|]. erewrite bind_ok; [reflexivity|].
    unfold on_ram. cbn. rewrite Em. reflexivity.
  - intros n. simpl. change (allocated (set_ram m p') n) with (allocated p' n). rewrite G6. unfold within. case_decide; by case_cmp.
  - intros j Hj. apply word_at_move. intros k Hkk. simpl. rewrite !Hm. unfold copied, within, PGSIZE in *. case_cmp; try lia; f_equal; lia.
Qed.

Lemma create_stands s A : stands s A -> does s A PCreate.
Proof.
  intros St. pose proof St as [Tl [T R]]. pose proof R as [S R2 R3 R4 R5 R6 R7 R8 R9].
  destruct (create_run s T S) as [[E Hfull]|(pd & s' & E & S' & O & Hk & Hfree & Hrun & Hal & Hag & Ecr & Etl & Hw)].
  { exists (PAddr 0), s, A. split; [simpl; by rewrite (bind_ok _ _ _ _ _ E)|]. split; [by constructor|]. split; [done|apply keeps_user_refl]. }
  pose proof O as [_ _ Osame Oused _ Oinit].
  assert (Hno : forall n, needed s T n \/ kept s n -> n <> pd / PGSIZE).
  { intros n Hn ->. destruct Hn as [Hn|[Hn|Hn]]; [apply (needed_allocated _ _ _ S) in Hn; congruence| |apply R7 in Hn as (_ & Hn & _); congruence].
    destruct Hn as [K1 K2], Hrun as [L1 L2], (sp_pages _ _ S) as [_ _ Hap]. simpl in *. lia. }
  assert (Hneed : needed s' T (pd / PGSIZE) -> False).
  { intros Hn. apply (Hno (pd / PGSIZE)); [|done]. left. unfold needed in *. by rewrite <- Oinit. }
  assert (Ku : keeps_user s s').
  { split; [done| |].
    - intros x Hx. apply Hag, Hno. by right.
    - intros n Hn. rewrite Hal, decide_False; [done|]. apply Hno. by right. }
  destruct (spaces_new_dir s' T pd S' Hk Hneed) as [Hd S2]; [|by eapply same_run|done|].
  { rewrite Hal. by rewrite decide_True. }
  assert (HA : A !! pd = None) by (destruct (A !! pd) as [f|] eqn:Ef; [|done]; destruct (rel_both s T A pd R) as (? & ? & ? & _); [eauto|congruence]).
  assert (Hmaps : forall x k, maps (<[pd := fun _ => 0]> A) x k -> maps A x k).
  { intros [q m] k (g & Hg & Hn & Hp & Hkk). cbn [fst snd] in *. apply lookup_insert_Some in Hg as [[_ <-]|[Hne Hg]]; [done|by exists g]. }
  exists (PAddr pd), s', (<[pd := fun _ => 0]> A). split; [simpl; by rewrite (bind_ok _ _ _ _ _ E)|].
  split; [apply P_create; [done|destruct Hk as [_ Hk]; unfold PHYS_BASE in Hk; lia]|]. split; [|done]. split.
  - intros n e. rewrite Etl, Ecr. intros Hn Hr. destruct (Tl n e Hn Hr) as (g & Hg & Hpg). exists g. split; [|done]. rewrite lookup_insert_ne; [done|congruence].
  - exists (<[pd := ∅]> T). split; try done.
    + intros q. destruct (decide (pd = q)) as [<-|Hne]; [rewrite !lookup_insert_eq; split; eauto|rewrite !lookup_insert_ne by done; apply R2].
    + intros q d g n [[<- <-]|[Hne Hq]]%lookup_insert_Some [[E1 <-]|[Hne' Hg]]%lookup_insert_Some Hn; try congruence.
      * unfold entry. by rewrite lookup_empty.
      * rewrite (other_entry s T s' q d n S O Hq). by eapply R3.
    + intros x k Hm. eapply keeps_user_frame; [done|]. by eapply R4, Hmaps.
    + intros x y k Hx Hy. eapply R5; by apply Hmaps.
    + rewrite Ecr, Oinit. destruct R6 as [?|[g Hg]]; [by left|right]. rewrite lookup_insert_ne by congruence. eauto.
    + intros n Ho. destruct (R7 n Ho) as (H1 & H2 & H3). pose proof (Hno n ltac:(right; by right)) as Hne. rewrite (needed_new s T pd s' n Hd Oinit).
      split; [tauto|]. split; [by rewrite Hal, decide_False|by eapply same_run].
    + intros n Hr Ha. rewrite (needed_new s T pd s' n Hd Oinit). rewrite Hal in Ha. case_decide; [by left; left|].
      destruct (R8 n); [by rewrite <- (same_pools_run _ _ false n 1 Osame)|done|by left; right|by right].
    + intros i Hi. rewrite Oinit, <- R9 by done. destruct (sp_init _ _ S) as ([Hia _] & _). unfold USER_TABLES in Hi.
      apply (agrees_word _ _ _ _ _ Hag); [done|apply Hno; left; by left|lia].
Qed.

(** *** Destroying a directory *)

(** The pages of [L] freed since [s0]. *)
Record released (L : list Z) s0 s : Prop := {
  re_ok : pages_ok (frames s);
  re_bytes : byte_ram (ram (frames s));
  re_same : same_pools (frames s0) (frames s);
  re_used n : allocated (frames s) n = if decide (n ∈ L) then false else allocated (frames s0) n;
  re_ram : agrees (fun n => n ∉ L) s0 s;
  re_rest : init_page_dir s = init_page_dir s0 /\ cr3 s = cr3 s0 /\ tlb s = tlb s0
}.
Lemma release_page L s0 s u a :
  released L s0 s -> kpage_ok a -> allocated (frames s0) (a / PGSIZE) = true -> run_of (frames s0) u (a / PGSIZE) 1 -> a / PGSIZE ∉ L ->
  exists s', on_frames (palloc_free_page a) s = Ok (tt, s') /\ released (a / PGSIZE :: L) s0 s'.
Proof.
  intros [E1 E2 E3 E4 E5 E6] [Ha Hr] Hal Hrun Hn.
  destruct (palloc_free_multiple_ok u a 1 (frames s)) as [(p & E & [F1 F2 F3 F4] & _)|(_ & n & Hn' & Hf)];
    [done|unfold PHYS_BASE in Hr; lia|done|lia|by eapply same_run| |].
  2:{ assert (n = a / PGSIZE) as -> by lia. rewrite E4, decide_False in Hf by done. congruence. }
  exists (set_frames p s). split; [unfold on_frames, palloc_free_page; by rewrite E|]. split; try done.
  - intros x. simpl. rewrite F4. destruct (within _ _ _); [done|apply E2].
  - exact (same_pools_trans _ _ _ E3 F2).
  - intros n. simpl. rewrite F3, E4. unfold within. destruct (decide (n ∈ L)) as [Hi|Hi].
    + rewrite decide_True by (by right). by destruct (_ && _).
    + destruct (decide (n = a / PGSIZE)) as [->|Hne]; [rewrite decide_True by (by left); by case_cmp|].
      rewrite decide_False by (rewrite elem_of_cons; tauto). by case_cmp.
  - intros x Hx. rewrite elem_of_cons in Hx. simpl. rewrite F4. unfold within. destruct ((a <=? x) && (x <? a + PGSIZE * 1)) eqn:Ew.
    + reflect_bools. destruct Hx. left. replace x with (a + (x - a)) by lia. apply page_of; [done|lia].
    + apply E5. tauto.
Qed.
(** A loop that frees: the item [i] frees the pages of [gone i]; the pages of [keep] are read. *)
Lemma release_loop (keep : Z -> Prop) (gone : Z -> Z -> Prop) g s0 l :
  (forall i s L, i ∈ l -> released L s0 s -> (forall n, n ∈ L -> ~ keep n /\ ~ gone i n) ->
     exists s' L', g i s = Ok (tt, s') /\ released L' s0 s' /\ forall n, n ∈ L' <-> n ∈ L \/ gone i n) ->
  NoDup l -> (forall i j n, i ∈ l -> j ∈ l -> gone i n -> gone j n -> i = j) -> (forall i n, i ∈ l -> gone i n -> ~ keep n) ->
  forall s L, released L s0 s -> (forall n, n ∈ L -> ~ keep n /\ forall i, i ∈ l -> ~ gone i n) ->
  exists s' L', iterM l g s = Ok (tt, s') /\ released L' s0 s' /\ forall n, n ∈ L' <-> n ∈ L \/ exists i, i ∈ l /\ gone i n.
Proof.
  induction l as [|i l IH]; intros Hg Hnd Hinj Hk s L Hr HL.
  { exists s, L. split; [done|]. split; [done|]. intros n. split; [by left|]. intros [?|(i & Hi & _)]; [done|by apply elem_of_nil in Hi]. }
  apply NoDup_cons in Hnd as [Hil Hnd].
  destruct (Hg i s L) as (s1 & L1 & E1 & Hr1 & HL1); [left|done|intros n Hn; destruct (HL n Hn) as [? H]; split; [done|apply H; left]|].
  destruct (IH (fun j s L Hj => Hg j s L (list_elem_of_further _ _ _ Hj)) Hnd) with (s := s1) (L := L1) as (s2 & L2 & E2 & Hr2 & HL2).
  - intros j k n Hj Hk'. apply Hinj; by right.
  - intros j n Hj. apply Hk. by right.
  - done.
  - intros n [Hn|Hn]%HL1.
    + destruct (HL n Hn) as [? H]. split; [done|]. intros j Hj. apply H. by right.
    + split; [by eapply Hk; [left|]|]. intros j Hj Hgj. apply Hil. rewrite (Hinj i j n); [done|left|by right|done|done].
  - exists s2, L2. split; [simpl; by rewrite (bind_ok _ _ _ _ _ E1)|]. split; [done|]. intros n. rewrite HL2, HL1. setoid_rewrite elem_of_cons. split.
    + intros [[?|?]|(j & Hj & Hgj)]; [by left|right; exists i; tauto|right; exists j; tauto].
    + intros [?|(j & [->|Hj] & Hgj)]; [tauto|tauto|right; eauto].
Qed.

Section Destroy.
Context (s0 : mmu) (T : dirs) (A : aspaces) (pd : Z) (d : gmap Z Z) (f : Z -> Z).
Context (R : rel s0 T A) (Hd : T !! pd = Some d) (Hf : A !! pd = Some f).

(** The page of user page [m], the pages of the table [i] and what it maps. *)
Definition mapped_page (m n : Z) : Prop := present (f m) = true /\ n = frame (f m) / PGSIZE.
Definition table_pages (i n : Z) : Prop :=
  exists pt, d !! i = Some pt /\ (n = pt / PGSIZE \/ exists j, j ∈ seqZ 0 1024 /\ mapped_page (1024 * i + j) n).

Lemma mapped_maps m : 0 <= m < USER_PAGES -> present (f m) = true -> maps A (pd, m) (frame (f m)).
Proof. intros Hm Hp. by exists f. Qed.
Lemma mapped_inj m m' n : 0 <= m < USER_PAGES -> 0 <= m' < USER_PAGES -> mapped_page m n -> mapped_page m' n -> m = m'.
Proof.
  intros Hm Hm' [H ->] [H' E]. apply mapped_maps in H, H'; [|done..].
  destruct (rl_frame _ _ _ R _ _ H) as ([X _] & _). destruct (rl_frame _ _ _ R _ _ H') as ([Y _] & _).
  rewrite (aligned_eq _ _ X Y E) in H. by injection (rl_inj _ _ _ R _ _ _ H H').
Qed.
Lemma mapped_user m n : 0 <= m < USER_PAGES -> mapped_page m n -> run_of (frames s0) true n 1.
Proof. intros Hm [H ->]. by apply (rl_frame _ _ _ R _ _ (mapped_maps m Hm H)). Qed.
Lemma table_index i j : is_Some (d !! i) -> j ∈ seqZ 0 1024 -> 0 <= i < USER_TABLES /\ 0 <= 1024 * i + j < USER_PAGES.
Proof.
  intros [pt Hi] Hj%elem_of_seqZ. pose proof (sp_dom _ _ (rl_spaces _ _ _ R) pd d i pt Hd Hi) as H. unfold USER_TABLES, USER_PAGES in *. lia.
Qed.
Lemma table_word i pt j s L :
  d !! i = Some pt -> j ∈ seqZ 0 1024 -> released L s0 s -> pt / PGSIZE ∉ L -> load32 (pt + 4 * j) s = Ok (f (1024 * i + j), s).
Proof.
  intros Hi Hj Hr HL. destruct (table_index i j) as [_ Hm]; [eauto|done|]. apply elem_of_seqZ in Hj.
  change (Ok (word_at (ram (frames s)) (pt + 4 * j), s) = Ok (f (1024 * i + j), s)).
  rewrite (agrees_word _ _ _ _ _ (re_ram _ _ _ Hr)); [|by apply (sp_page _ _ (rl_spaces _ _ _ R) (pd, Some i)), holds_table with d|done|lia].
  rewrite <- (rl_entry _ _ _ R pd d f) by done. unfold entry.
  rewrite <- (Z.div_unique (1024 * i + j) 1024 i j), <- (Z.mod_unique (1024 * i + j) 1024 i j), Hi by lia. done.
Qed.
Lemma table_not_user i pt n : d !! i = Some pt -> run_of (frames s0) true n 1 -> n <> pt / PGSIZE.
Proof.
  intros Hi Hn E. subst n. eapply user_not_needed; [apply R|exact Hn|]. right. exists (pd, Some i), pt. split; [by eapply holds_table|done].
Qed.

Lemma destroy_table_run i pt s L :
  d !! i = Some pt -> released L s0 s -> (forall n, n ∈ L -> ~ table_pages i n) ->
  exists s' L', destroy_table pt s = Ok (tt, s') /\ released L' s0 s' /\ forall n, n ∈ L' <-> n ∈ L \/ table_pages i n.
Proof.
  intros Hi Hr HL. set (keep := fun n => n = pt / PGSIZE). set (gone := fun j n => mapped_page (1024 * i + j) n).
  assert (Hix : forall j, j ∈ seqZ 0 1024 -> 0 <= 1024 * i + j < USER_PAGES) by (intros j Hj; apply table_index; [eauto|done]).
  destruct (release_loop keep gone (fun j => pte ← load32 (pt + 4 * j);
    when (negb (Z.land pte PTE_P =? 0)) (page ← pte_get_page pte; on_frames (palloc_free_page page))) s0 (seqZ 0 (PGSIZE / 4))) with (s := s) (L := L)
    as (s1 & L1 & E1 & Hr1 & HL1).
  - intros j s1 L1 Hj Hr1 HL1. rewrite (bind_ok _ _ _ _ _ (table_word i pt j s1 L1 Hi Hj Hr1 ltac:(intros Hn; by destruct (HL1 _ Hn)))).
    fold (present (f (1024 * i + j))). unfold when. destruct (present (f (1024 * i + j))) eqn:Hp.
    + destruct (rl_frame _ _ _ R _ _ (mapped_maps _ (Hix j Hj) Hp)) as (Hk & Ha & Hu).
      destruct (release_page L1 s0 s1 true _ Hr1 Hk Ha Hu) as (s2 & E2 & Hr2); [intros Hn; by destruct (HL1 _ Hn) as [_ []]|].
      exists s2, (frame (f (1024 * i + j)) / PGSIZE :: L1). rewrite (bind_ok _ _ _ _ _ (pte_get_page_ok s1 _ Hk)). split; [done|]. split; [done|].
      intros n. rewrite elem_of_cons. unfold gone, mapped_page. tauto.
    + exists s1, L1. split; [done|]. split; [done|]. intros n. unfold gone, mapped_page. split; [by left|]. intros [?|[? _]]; congruence.
  - apply NoDup_seqZ.
  - intros j k n Hj Hk Hgj Hgk. pose proof (mapped_inj _ _ n (Hix j Hj) (Hix k Hk) Hgj Hgk). lia.
  - intros j n Hj Hg. eapply table_not_user; [done|]. by eapply mapped_user; [apply Hix|].
  - done.
  - intros n Hn. split; [intros ->; apply (HL _ Hn); exists pt; by split; [|left]|]. intros j Hj Hg. apply (HL _ Hn). exists pt. split; [done|right; eauto].
  - destruct (sp_page _ _ (rl_spaces _ _ _ R) (pd, Some i) pt) as (Hk & Ha & Hu); [by eapply holds_table|].
    destruct (release_page L1 s0 s1 false pt Hr1 Hk Ha Hu) as (s2 & E2 & Hr2).
    { intros [Hn|(j & Hj & Hg)]%HL1; [apply (HL _ Hn); exists pt; by split; [|left]|].
      eapply table_not_user; [done| |reflexivity]. by eapply mapped_user; [apply Hix|]. }
    exists s2, (pt / PGSIZE :: L1). unfold destroy_table. rewrite (bind_ok _ _ _ _ _ E1). split; [done|]. split; [done|].
    intros n. rewrite elem_of_cons, HL1. unfold table_pages. split.
    + intros [->|[?|(j & Hj & Hg)]]; [right; exists pt; by split; [|left]|by left|right; exists pt; split; [done|right; eauto]].
    + intros [?|(pt' & Hi' & [->|(j & Hj & Hg)])]; [by right; left|left; congruence|right; right; eauto].
Qed.
Lemma table_pages_inj i j n : table_pages i n -> table_pages j n -> i = j.
Proof.
  intros (p & Hi & [->|(k & Hk & Hg)]) (q & Hj & Hor).
  - destruct Hor as [E|(k & Hk & Hg)].
    + destruct (decide (i = j)) as [|Hne]; [done|]. exfalso.
      eapply (table_apart s0 T (pd, Some j) (pd, Some i)); [apply R|by eapply holds_table..|congruence|exact E].
    + exfalso. eapply (table_not_user i p); [done| |reflexivity]. by eapply mapped_user; [apply (table_index j k); eauto|].
  - pose proof (table_index i k ltac:(eauto) Hk) as [_ Hik]. destruct Hor as [->|(k' & Hk' & Hg')].
    + exfalso. eapply (table_not_user j q); [done| |reflexivity]. by eapply mapped_user; [exact Hik|].
    + pose proof (table_index j k' ltac:(eauto) Hk') as [_ Hjk]. pose proof (mapped_inj _ _ n Hik Hjk Hg Hg') as E.
      apply elem_of_seqZ in Hk, Hk'. lia.
Qed.
Lemma table_pages_dir i n : table_pages i n -> n <> pd / PGSIZE.
Proof.
  intros (p & Hi & [->|(k & Hk & Hg)]) E.
  - eapply (table_apart s0 T (pd, None) (pd, Some i)); [apply R|by eapply holds_dir|by eapply holds_table|done|exact E].
  - subst n. eapply user_not_needed; [apply R|by eapply mapped_user; [apply (table_index i k); eauto|]|].
    right. exists (pd, None), pd. split; [by eapply holds_dir|done].
Qed.
Definition all_pages (n : Z) : Prop := n = pd / PGSIZE \/ exists i, i ∈ seqZ 0 USER_TABLES /\ table_pages i n.

Lemma destroy_run : exists s' L, pagedir_destroy pd s0 = Ok (tt, s') /\ released L s0 s' /\ forall n, n ∈ L <-> all_pages n.
Proof.
  pose proof (rl_spaces _ _ _ R) as S. destruct (pd_nonzero s0 T pd d S Hd) as [Hk Hnz]. apply negb_true_iff in Hnz.
  destruct (sp_page _ _ S (pd, None) pd) as (_ & Ha & Hu); [by eapply holds_dir|].
  destruct (release_loop (fun n => n = pd / PGSIZE) table_pages (fun i => pde ← load32 (pd + 4 * i);
      when (negb (Z.land pde PTE_P =? 0)) (pt ← pde_get_pt pde; destroy_table pt)) s0 (seqZ 0 (pd_no PHYS_BASE))) with (s := s0) (L := @nil Z)
    as (s1 & L1 & E1 & Hr1 & HL1).
  - intros i s L Hi Hr HL. apply elem_of_seqZ in Hi. change (0 + pd_no PHYS_BASE) with 768 in Hi.
    assert (Ew : load32 (pd + 4 * i) s = Ok (match d !! i with Some pt => pt - PHYS_BASE + 7 | None => 0 end, s)).
    { rewrite <- (sp_user _ _ S pd d i Hd ltac:(unfold USER_TABLES; lia)). change (load32 (pd + 4 * i) s) with (Ok (word_at (ram (frames s)) (pd + 4 * i), s)).
      rewrite (agrees_word _ _ _ _ _ (re_ram _ _ _ Hr)); [done|apply Hk|intros Hn; by destruct (HL _ Hn)|lia]. }
    rewrite (bind_ok _ _ _ _ _ Ew). destruct (d !! i) as [pt|] eqn:Ei.
    + destruct (sp_page _ _ S (pd, Some i) pt) as (Hpk & _ & _); [by eapply holds_table|].
      fold (present (pt - PHYS_BASE + 7)). rewrite present_odd, odd_aligned by (by apply phys_aligned).
      destruct (destroy_table_run i pt s L Ei Hr) as (s' & L' & E & Hr' & HL'); [intros n Hn; by destruct (HL n Hn)|].
      exists s', L'. split; [|done]. unfold when. change (Z.odd 7) with true. cbv iota. by rewrite (bind_ok _ _ _ _ _ (pde_get_pt_ok s pt Hpk)).
    + exists s, L. split; [done|]. split; [done|]. intros n. split; [by left|]. intros [?|(p & Hp & _)]; [done|congruence].
  - apply NoDup_seqZ.
  - intros i j n _ _. apply table_pages_inj.
  - intros i n _ Hg. by apply table_pages_dir in Hg.
  - by split; try apply S.
  - intros n Hn. by apply elem_of_nil in Hn.
  - destruct (release_page L1 s0 s1 false pd Hr1 Hk Ha Hu) as (s2 & E2 & Hr2).
    { intros [Hn|(i & _ & Hg)]%HL1; [by apply elem_of_nil in Hn|by apply table_pages_dir in Hg]. }
    exists s2, (pd / PGSIZE :: L1). split; [|split; [done|]].
    + unfold pagedir_destroy. rewrite Hnz. erewrite bind_ok by reflexivity. rewrite ASSERT_true; [by rewrite (bind_ok _ _ _ _ _ E1)|].
      apply negb_true_iff, Z.eqb_neq. intros E. destruct (sp_init _ _ S) as (_ & _ & _ & Hno & _). apply (Hno (pd, None)). rewrite <- E. by eapply holds_dir.
    + intros n. rewrite elem_of_cons, HL1. change (seqZ 0 (pd_no PHYS_BASE)) with (seqZ 0 USER_TABLES). unfold all_pages.
      split; [intros [?|[Hn|?]]; [by left|by apply elem_of_nil in Hn|by right]|intros [?|?]; [by left|by right; right]].
Qed.
(** The pages freed are those of the directory; those of the user pool are the frames mapped. *)
Lemma all_pages_user n : run_of (frames s0) true n 1 -> all_pages n <-> exists m, 0 <= m < USER_PAGES /\ mapped_page m n.
Proof.
  intros Hn. split.
  - intros [->|(i & _ & p & Hi & [->|(j & Hj & Hg)])].
    + exfalso. eapply user_not_needed; [apply R|exact Hn|]. right. exists (pd, None), pd. split; [by eapply holds_dir|done].
    + by eapply table_not_user in Hn.
    + exists (1024 * i + j). split; [apply table_index; eauto|done].
  - intros (m & Hm & Hp & ->). right. pose proof (Z.div_mod m 1024 ltac:(done)) as E. pose proof (Z.mod_pos_bound m 1024 ltac:(done)).
    assert (He : entry s0 d m = f m) by (by apply (rl_entry _ _ _ R pd)). unfold entry in He. destruct (d !! (m / 1024)) as [pt|] eqn:Ei.
    + exists (m / 1024). destruct (table_index (m / 1024) (m mod 1024)) as [Ht _]; [eauto|by apply elem_of_seqZ|]. split; [by apply elem_of_seqZ|].
      exists pt. split; [done|right]. exists (m mod 1024). split; [by apply elem_of_seqZ|]. by rewrite <- E.
    + rewrite <- He in Hp. done.
Qed.

Lemma needed_delete n : needed s0 (delete pd T) n -> needed s0 T n /\ ~ all_pages n.
Proof.
  intros Hn. pose proof (rl_spaces _ _ _ R) as S.
  assert (Hn' : n = init_page_dir s0 / PGSIZE \/ exists q o p, q <> pd /\ holds T (q, o) p /\ n = p / PGSIZE).
  { destruct Hn as [->|([q o] & p & (d' & Hd' & Hp) & ->)]; [by left|right]. apply lookup_delete_Some in Hd' as [Hne Hd']. exists q, o, p.
    split; [done|]. split; [by exists d'|done]. }
  assert (Hneed : needed s0 T n) by (destruct Hn' as [->|(q & o & p & _ & H & ->)]; [by left|right; eauto]). split; [done|].
  assert (Hap : forall o p, holds T (pd, o) p -> n <> p / PGSIZE).
  { intros o p H ->. destruct Hn' as [E|(q & o' & p' & Hne & H' & E)]; [by eapply init_apart; [exact S|exact H|]|].
    eapply (table_apart s0 T (q, o') (pd, o)); [exact S|exact H'|exact H|congruence|exact E]. }
  intros [E|(i & _ & p & Hi & [E|(j & Hj & Hg)])].
  - eapply Hap; [by eapply holds_dir|exact E].
  - eapply (Hap (Some i)); [by eapply holds_table|exact E].
  - eapply user_not_needed; [exact S|by eapply mapped_user; [apply (table_index i j); eauto|]|exact Hneed].
Qed.
Lemma needed_split n : needed s0 T n -> needed s0 (delete pd T) n \/ all_pages n.
Proof.
  intros [->|([q o] & p & (d' & Hd' & Hp) & ->)]; [by left; left|]. cbn [fst snd] in *. destruct (decide (q = pd)) as [->|Hne].
  - right. assert (d' = d) as -> by congruence. destruct o as [i|]; [|left; by rewrite Hp]. right. exists i.
    pose proof (sp_dom _ _ (rl_spaces _ _ _ R) pd d i p Hd Hp). split; [by apply elem_of_seqZ|]. exists p. split; [done|by left].
  - left. right. exists (q, o), p. split; [|done]. exists d'. split; [|done]. by apply lookup_delete_Some.
Qed.
Lemma all_pages_others n : others n -> ~ all_pages n.
Proof.
  intros Ho Hn. destruct (rl_others _ _ _ R n Ho) as (Hno & _ & Hr). apply Hno. destruct Hn as [->|(i & _ & p & Hi & [->|(j & Hj & Hg)])].
  - right. exists (pd, None), pd. split; [by eapply holds_dir|done].
  - right. exists (pd, Some i), p. split; [by eapply holds_table|done].
  - exfalso. assert (Hu : run_of (frames s0) true n 1) by (eapply mapped_user; [apply (table_index i j); eauto|done]).
    destruct Hu as [K1 K2], Hr as [L1 L2], (sp_pages _ _ (rl_spaces _ _ _ R)) as [_ _ Hap]. simpl in *. lia.
Qed.
Lemma spaces_delete : spaces s0 (delete pd T).
Proof.
  assert (Hm : forall r p, holds (delete pd T) r p -> holds T r p).
  { intros [q o] p (d' & Hd' & Hp). apply lookup_delete_Some in Hd' as [Hne Hd']. by exists d'. }
  destruct (rl_spaces _ _ _ R) as [S1 S2 S3 S4 (I1 & I2 & Ir & I3 & I4) S6 S7 S8 S9]. split; try done.
  - intros r p H. apply (S4 r p), Hm, H.
  - split; [done|]. split; [done|]. split; [done|]. split; [|done]. intros r H. by apply (I3 r), Hm.
  - intros r r' p H H'. eapply S6; by apply Hm.
  - intros q d' i pt [_ Hq]%lookup_delete_Some. by eapply S7.
  - intros q d' i [_ Hq]%lookup_delete_Some. by eapply S8.
  - intros q d' i [_ Hq]%lookup_delete_Some. by eapply S9.
Qed.

Lemma destroy_rel s' L :
  tlb_ok s0 A -> cr3 s0 + PHYS_BASE <> pd -> released L s0 s' -> (forall n, n ∈ L <-> all_pages n) -> stands s' (delete pd A).
Proof.
  intros Tl Hact Hr HL. pose proof R as [S R2 R3 R4 R5 R6 R7 R8 R9]. pose proof Hr as [E1 E2 E3 E4 E5 (E6 & E7 & E8)].
  assert (Hdel : forall x k, maps (delete pd A) x k -> x.1 <> pd /\ maps A x k).
  { intros x k (g & [Hne Hg]%lookup_delete_Some & H). split; [done|by exists g]. }
  assert (O : other_pages s0 (delete pd T) s').
  { split; try done.
    - intros n Hn. rewrite E4, decide_False; [by eapply needed_allocated; [exact S|apply needed_delete]|]. rewrite HL. by apply needed_delete.
    - intros x Hx. apply E5. rewrite HL. by apply needed_delete. }
  pose proof (spaces_other _ _ _ spaces_delete O) as S'.
  assert (Hkeep : forall n, ~ all_pages n -> allocated (frames s') n = allocated (frames s0) n) by (intros n Hn; rewrite E4, decide_False; [done|by rewrite HL]).
  assert (Hnd : forall n, needed s' (delete pd T) n <-> needed s0 (delete pd T) n) by (intros n; unfold needed; by rewrite E6).
  split.
  { intros n e. rewrite E8, E7. intros Hn Hrg. destruct (Tl n e Hn Hrg) as (g & Hg & Hpg). exists g. by rewrite lookup_delete_ne. }
  exists (delete pd T). split; try done.
  - intros q. destruct (decide (q = pd)) as [->|Hne]; [by rewrite !lookup_delete_eq|by rewrite !lookup_delete_ne].
  - intros q d' g n Hq Hg Hn. rewrite (other_entry s0 _ s' q d' n spaces_delete O Hq).
    apply lookup_delete_Some in Hq as [_ Hq], Hg as [_ Hg]. by eapply R3.
  - intros x k Hm. destruct (Hdel x k Hm) as [Hne Hm0]. destruct (R4 x k Hm0) as (K1 & K2 & K3). split; [done|]. split; [|by eapply same_run].
    rewrite Hkeep; [done|]. rewrite all_pages_user by done. intros (m & Hmr & Hp & Ek). apply Hne.
    pose proof (mapped_maps m Hmr Hp) as Hm'. destruct (R4 _ _ Hm') as ([J1 _] & _). rewrite (aligned_eq _ _ (proj1 K1) J1 Ek) in Hm0.
    by rewrite (R5 _ _ _ Hm0 Hm').
  - intros x y k Hx Hy. eapply R5; by apply Hdel.
  - rewrite E6, E7. destruct R6 as [?|[g Hg]]; [by left|right]. rewrite lookup_delete_ne by done. eauto.
  - intros n Ho. destruct (R7 n Ho) as (H1 & H2 & H3). rewrite Hnd. split; [intros H; by apply needed_delete in H as [? _]|].
    split; [rewrite Hkeep; [done|by apply all_pages_others]|by eapply same_run].
  - intros n Hrun Ha. rewrite Hnd. rewrite (same_pools_run _ _ false n 1 E3) in Hrun. rewrite E4 in Ha. case_decide as Hin; [done|]. rewrite HL in Hin.
    destruct (R8 n Hrun Ha) as [Hn|Ho]; [|by right]. left. by destruct (needed_split n Hn).
  - intros i Hi. rewrite E6, <- R9 by done. destruct (sp_init _ _ S) as ([Hia _] & _). unfold USER_TABLES in Hi.
    apply (agrees_word _ _ _ _ _ E5); [done|rewrite HL; apply needed_delete; by left|lia].
Qed.

End Destroy.

(** *** The refinement *)

(** The frames that an operation frees: those of the directory that is destroyed. *)
Definition frees A (o : pop) (n : Z) : Prop :=
  match o with PDestroy pd => exists m k, maps A (pd, m) k /\ n = k / PGSIZE | _ => False end.
(** All other pages of the user pool and in other use stay as they are. *)
Record effect A (o : pop) s s' : Prop := {
  ef_pools : same_pools (frames s) (frames s');
  ef_kept n : kept s n -> ~ frees A o n ->
    allocated (frames s') n = allocated (frames s) n /\ forall x, x / PGSIZE = n -> ram (frames s') x = ram (frames s) x;
  ef_freed n : frees A o n -> allocated (frames s') n = false
}.
Definition refined s A (o : pop) : Prop :=
  exists r s' A', pexec o s = Ok (r, s') /\ pstep (pool_full false (frames s)) A o r A' /\ stands s' A' /\ effect A o s s'.
Lemma does_refined s A o : does s A o -> (forall n, ~ frees A o n) -> refined s A o.
Proof.
  intros (r & s' & A' & E & P & St & [K1 K2 K3]) Hno. exists r, s', A'. split; [done|]. split; [done|]. split; [done|].
  split; [done| |intros n Hn; by apply Hno in Hn]. intros n Hn _. split; [by apply K3|]. intros x <-. by apply K2.
Qed.
Lemma destroy_stands s A pd : stands s A -> pop_ok s A (PDestroy pd) -> refined s A (PDestroy pd).
Proof.
  intros [Tl [T R]] [Hpd Hact]. destruct (rel_both s T A pd R Hpd) as (d & f & Hd & Hf).
  destruct (destroy_run s T A pd d f R Hd Hf) as (s' & L & E & Hr & HL). exists PUnit, s', (delete pd A).
  split; [simpl; by rewrite (bind_ok _ _ _ _ _ E)|]. split; [constructor|]. split; [by eapply destroy_rel|].
  assert (Hfree : forall n, frees A (PDestroy pd) n <-> exists m, 0 <= m < USER_PAGES /\ mapped_page f m n).
  { intros n. split.
    - intros (m & k & (g & Hg & Hm & Hp & <-) & ->). cbn [fst snd] in *. assert (g = f) as -> by congruence. by exists m.
    - intros (m & Hm & Hp & ->). exists m, (frame (f m)). split; [by exists f|done]. }
  assert (Hall : forall n, kept s n -> ~ frees A (PDestroy pd) n -> n ∉ L).
  { intros n Hk Hn. rewrite HL. destruct Hk as [Hu|Ho]; [|by eapply all_pages_others]. rewrite (all_pages_user s T A pd d f R Hd Hf n Hu). by rewrite <- Hfree. }
  destruct Hr as [E1 E2 E3 E4 E5 E6]. split; [done| |].
  - intros n Hk Hn. pose proof (Hall n Hk Hn). split; [by rewrite E4, decide_False|]. intros x <-. by apply E5.
  - intros n Hn. rewrite E4, decide_True; [done|]. rewrite HL. apply Hfree in Hn as (m & Hm & Hp).
    rewrite (all_pages_user s T A pd d f R Hd Hf n); [eauto|]. by eapply mapped_user.
Qed.
Lemma op_refined s A o : stands s A -> pop_ok s A o -> refined s A o.
Proof.
  intros St Hok. destruct o; try (apply does_refined; [|by intros n []]).
  - by apply create_stands.
  - by apply destroy_stands.
  - by apply set_page_stands.
  - by apply get_page_stands.
  - by apply clear_page_stands.
  - by apply is_flag_stands.
  - by apply set_flag_stands.
  - by apply activate_stands.
Qed.
End Refine.

(** ** Machines *)

(** States with the address spaces and the pages of the kernel pool in other use, of which the
    pages of [tables] never change. *)
Section Machine.
Variable init_ram_pages : Z.
Variable tables : Z -> Prop.
Variable kernel_half : Z -> Z.
Implicit Types (s : mmu) (A : aspaces) (O : Z -> Prop).

(** The rest of the system: it may allocate and free pages that are not mapped and not part of a
    page directory, and write user memory and its own; the processor may drop entries that it has
    cached. *)
Record elsewhere A O s O' s' : Prop := {
  el_pages : pages_ok (frames s');
  el_bytes : byte_ram (ram (frames s'));
  el_same : same_pools (frames s) (frames s');
  el_kernel n : run_of (frames s) false n 1 -> allocated (frames s) n = true -> ~ O n ->
    ~ O' n /\ allocated (frames s') n = true /\ forall x, x / PGSIZE = n -> ram (frames s') x = ram (frames s) x;
  el_others n : O' n -> run_of (frames s) false n 1 /\ allocated (frames s') n = true;
  el_all n : run_of (frames s) false n 1 -> allocated (frames s') n = true -> O' n \/ (allocated (frames s) n = true /\ ~ O n);
  el_tables x : tables (x / PGSIZE) -> O' (x / PGSIZE) /\ ram (frames s') x = ram (frames s) x;
  el_mapped y k : maps A y k -> allocated (frames s') (k / PGSIZE) = true;
  el_regs : init_page_dir s' = init_page_dir s /\ cr3 s' = cr3 s;
  el_tlb : tlb s' ⊆ tlb s
}.
Inductive mstep : mmu * aspaces * (Z -> Prop) -> mmu * aspaces * (Z -> Prop) -> Prop :=
| M_op o r s s' A A' O :
    pop_ok init_ram_pages s A o -> pexec init_ram_pages o s = Ok (r, s') -> pstep (pool_full false (frames s)) A o r A' -> mstep (s, A, O) (s', A', O)
| M_touch n write s A O :
    0 <= n < USER_PAGES -> mstep (s, A, O) ((touch n write s).2, touched (cr3 s + PHYS_BASE) n write A, O)
| M_else s s' A O O' : elsewhere A O s O' s' -> mstep (s, A, O) (s', A, O').

(** The contents of [tables] at the start. *)
Variable ram0 : Z -> Z.
Record machine_ok (c : mmu * aspaces * (Z -> Prop)) : Prop := {
  mo_stands : stands c.2 kernel_half c.1.1 c.1.2;
  mo_tables x : tables (x / PGSIZE) -> c.2 (x / PGSIZE) /\ ram (frames c.1.1) x = ram0 x
}.
Lemma elsewhere_stands A O s O' s' : stands O kernel_half s A -> elsewhere A O s O' s' -> stands O' kernel_half s' A.
Proof.
  intros [Tl [T R]] [E1 E2 E3 E4 E5 E5' E6 E7 [E8 E9] E10]. pose proof R as [S R2 R3 R4 R5 R6 R7 R8 R9]. split.
  { intros n e Hn. rewrite E9. apply Tl. by eapply lookup_weaken. }
  exists T.
  assert (Hn : forall n, needed s T n -> run_of (frames s) false n 1 /\ allocated (frames s) n = true /\ ~ O n).
  { intros n Hn. split; [|split; [by eapply needed_allocated|intros Ho; by apply R7 in Ho as [? _]]].
    destruct Hn as [->|(r & p & H & ->)]; [apply (sp_init _ _ S)|apply (sp_page _ _ S r p H)]. }
  assert (Ot : other_pages s T s').
  { split; try done.
    - intros n (H1 & H2 & H3)%Hn. by apply E4.
    - intros x (H1 & H2 & H3)%Hn. by eapply E4. }
  assert (Hnd : forall n, needed s' T n <-> needed s T n) by (intros n; unfold needed; by rewrite E8).
  split; try done.
  - by apply (spaces_other s).
  - intros pd d f n Hd Hf Hnn. rewrite (other_entry s T s' pd d n S Ot Hd). by eapply R3.
  - intros x k Hm. destruct (R4 x k Hm) as (H1 & H2 & H3). split; [done|]. split; [by eapply E7|by eapply same_run].
  - by rewrite E8, E9.
  - intros n Ho. rewrite Hnd. destruct (E5 n Ho) as [H1 H2]. split; [intros (J1 & J2 & J3)%Hn; by apply (E4 n)|]. split; [done|by eapply same_run].
  - intros n Hr Ha. rewrite Hnd. rewrite (same_pools_run _ _ false n 1 E3) in Hr. destruct (E5' n Hr Ha) as [?|[H1 H2]]; [by right|left].
    by destruct (R8 n Hr H1).
  - intros i Hi. rewrite E8, <- R9 by done. destruct (sp_init _ _ S) as ([Hia _] & _). unfold USER_TABLES in Hi.
    apply (agrees_word (needed s T)); [apply Ot|done|by left|lia].
Qed.
Lemma mstep_ok c c' : machine_ok c -> mstep c c' -> machine_ok c'.
Proof.
  intros M Hs. destruct Hs as [o r s s' A A' O Hok E P|n write s A O Hn|s s' A O O' El]; destruct M as [St Ht]; simpl in *.
  - destruct (op_refined init_ram_pages O kernel_half s A o St Hok) as (r1 & s1 & A1 & E1 & P1 & St1 & [_ K _]). rewrite E in E1. injection E1 as <- <-.
    rewrite (pstep_det _ _ _ _ _ _ P P1). split; [done|]. intros x Hx. destruct (Ht x Hx) as [Ho Er]. split; [done|]. rewrite <- Er.
    apply (K (x / PGSIZE)); [by right| |done].
    destruct St as [_ [T R]]. destruct o; try by intros []. intros (m & k & Hm & En).
    destruct (rl_others _ _ _ _ _ R _ Ho) as (_ & _ & Hr). destruct (rl_frame _ _ _ _ _ R _ _ Hm) as (_ & _ & Hu). rewrite <- En in Hu.
    destruct Hu as [K1 K2], Hr as [L1 L2], (sp_pages _ _ (rl_spaces _ _ _ _ _ R)) as [_ _ Hap]. simpl in *. lia.
  - destruct (touch_ok O kernel_half n write s A St Hn) as (_ & St' & [_ K _]). split; [done|]. intros x Hx. destruct (Ht x Hx) as [Ho Er].
    split; [done|]. rewrite <- Er. apply K. by right.
  - split; [by eapply elsewhere_stands|]. intros x Hx. destruct (el_tables _ _ _ _ _ El x Hx) as [Ho Er]. split; [done|]. simpl. rewrite Er. by apply Ht.
Qed.
End Machine.
