(* ===== verification/PagingBoot.v ===== *)
(** The kernel's own page tables: [paging_init] maps the physical memory at [PHYS_BASE], and the
    walk of the processor through the tables in every state that is reached from there. *)

From stdpp Require Import gmap.
From S2P Require Import Prelude KMonad CString Bitmap Palloc Bytes Paging PagingOk PagingProps.

Section Boot.
Context (text_start text_end : Z).
Implicit Types (s : mmu) (K : gmap Z Z).

Definition in_text (va : Z) : bool := (text_start <=? va) && (va <? text_end).
Definition kernel_entry (q : Z) : Z := q * PGSIZE + 1 + (if in_text (PHYS_BASE + q * PGSIZE) then 0 else 2).

(** The first [p] pages of memory mapped, with the [t] tables [K]. *)
Record kernel_maps s pd K t p : Prop := {
  km_pages : pages_ok (frames s);
  km_bytes : byte_ram (ram (frames s));
  km_base : PHYS_BASE / PGSIZE <= first_page (kernel_pool (frames s));
  km_dir : kpage_ok pd /\ allocated (frames s) (pd / PGSIZE) = true /\ run_of (frames s) false (pd / PGSIZE) 1;
  km_dom i : is_Some (K !! i) <-> USER_TABLES <= i < USER_TABLES + t;
  km_table i pt : K !! i = Some pt ->
    kpage_ok pt /\ allocated (frames s) (pt / PGSIZE) = true /\ run_of (frames s) false (pt / PGSIZE) 1 /\ pt <> pd;
  km_inj i j pt : K !! i = Some pt -> K !! j = Some pt -> i = j;
  km_all n : run_of (frames s) false n 1 -> allocated (frames s) n = true -> n = pd / PGSIZE \/ exists i pt, K !! i = Some pt /\ n = pt / PGSIZE;
  km_word i : 0 <= i < 1024 -> word_at (ram (frames s)) (pd + 4 * i) = match K !! i with Some pt => pt - PHYS_BASE + 7 | None => 0 end;
  km_entry i pt j : K !! i = Some pt -> 0 <= j < 1024 ->
    word_at (ram (frames s)) (pt + 4 * j) =
      let q := (i - USER_TABLES) * 1024 + j in if q <? p then kernel_entry q else 0
}.

(** *** Machine words *)
Lemma page_vaddr p : 0 <= p < 2 ^ 18 -> ptov (u32 (p * PGSIZE)) = Ok (PHYS_BASE + p * PGSIZE).
Proof. intros Hp. unfold PGSIZE. rewrite wrapu_small by lia. rewrite ptov_ok by lia. f_equal. lia. Qed.
Lemma page_indices p : 0 <= p < 2 ^ 18 ->
  pd_no (PHYS_BASE + p * PGSIZE) = USER_TABLES + p / 1024 /\ pt_no (PHYS_BASE + p * PGSIZE) = p mod 1024.
Proof.
  intros Hp. rewrite pd_no_eq, pt_no_eq. assert ((PHYS_BASE + p * PGSIZE) / PGSIZE = p + 768 * 1024) as ->.
  { unfold PGSIZE, PHYS_BASE. rewrite Z.div_add by done. change (0xc0000000 / 4096) with (768 * 1024). lia. }
  rewrite Z.div_add, Z.mod_add by done. unfold USER_TABLES. lia.
Qed.
Lemma page_kpage p : 0 <= p < 2 ^ 18 -> kpage_ok (PHYS_BASE + p * PGSIZE).
Proof.
  intros Hp. split; [|unfold PHYS_BASE, PGSIZE; lia]. rewrite Z.mod_add by done. done.
Qed.
Lemma kernel_entry_range p : 0 <= p < 2 ^ 18 -> 0 <= kernel_entry p < 2 ^ 32.
Proof. intros Hp. unfold kernel_entry, PGSIZE. destruct (in_text _); lia. Qed.
Lemma pte_create_kernel_ok s p : 0 <= p < 2 ^ 18 ->
  pte_create_kernel (PHYS_BASE + p * PGSIZE) (negb (in_text (PHYS_BASE + p * PGSIZE))) s = Ok (kernel_entry p, s).
Proof.
  intros Hp. pose proof (page_kpage p Hp) as Hk. unfold pte_create_kernel.
  rewrite ASSERT_true by (rewrite pg_ofs_mod; apply Z.eqb_eq, Hk). unfold pure. erewrite bind_ok by (rewrite vtop_ok by done; reflexivity).
  destruct (phys_aligned _ Hk) as [Ha Hr]. unfold kernel_entry. replace (PHYS_BASE + p * PGSIZE - PHYS_BASE) with (p * PGSIZE) in * by lia.
  change PTE_P with 1. change PTE_W with 2. rewrite <- Z.lor_assoc. destruct (in_text _); cbn [negb].
  - change (Z.lor 1 0) with 1. rewrite lor_low by done. by rewrite Z.add_0_r.
  - change (Z.lor 1 2) with 3. rewrite lor_low by done. by rewrite <- Z.add_assoc.
Qed.

(** *** One page *)

Lemma no_holds r p : ~ holds ∅ r p.
Proof. intros (d & Hd & _). by rewrite lookup_empty in Hd. Qed.
Lemma kernel_spaces s K t p : kernel_maps s (init_page_dir s) K t p -> spaces s ∅.
Proof.
  intros [K1 K2 K3 (K4 & K5 & K6) K7 K8 K9 K10 K11 K12].
  split; try done; try (intros; exfalso; by eapply no_holds).
  split; [done|]. split; [done|]. split; [done|]. split; [intros r; apply no_holds|].
  intros i Hi. rewrite K11 by (unfold USER_TABLES in *; lia). destruct (K !! i) as [pt|] eqn:E; [|done].
  assert (is_Some (K !! i)) as H%K7 by eauto. lia.
Qed.
(** A new table. *)
Lemma kernel_new_table s K t p a p' (pd := init_page_dir s)
    (s2 := stored32 (pd + 4 * (USER_TABLES + t)) (a - PHYS_BASE + 7) (set_frames p' s)) :
  kernel_maps s pd K t p -> 0 <= t < 256 -> p <= 1024 * t -> got (Z.lor PAL_ASSERT PAL_ZERO) 1 (frames s) a p' ->
  kpage_ok a /\ kernel_maps s2 pd (<[USER_TABLES + t := a]> K) (t + 1) p /\ same_pools (frames s) (frames s2).
Proof.
  intros M Ht Hp G. pose proof M as [K1 K2 K3 (K4 & K5 & K6) K7 K8 K9 K10 K11 K12].
  destruct (got_page s ∅ _ a p' (kernel_spaces s K t p M) G) as (O1 & Hk & Hno & Hal & Hrun & Hag). cbv zeta in *.
  pose proof G as [G1 G2 (A1 & A2 & A3) G4 G5 G6 G7]. set (s1 := set_frames p' s) in *. destruct (phys_aligned a Hk) as [_ Har].
  assert (Ha : forall n, allocated (frames s) n = true -> n <> a / PGSIZE) by (intros n Hn ->; rewrite G5 in Hn by lia; done).
  assert (Hal' : forall n, allocated p' n = if decide (n = a / PGSIZE) then true else allocated (frames s) n).
  { intros n. rewrite G6. unfold within. case_decide; by case_cmp. }
  assert (Hap : a <> pd) by (intros E; apply (Ha _ K5); by rewrite E).
  assert (Hpt : forall i pt, K !! i = Some pt -> pt <> a /\ pt / PGSIZE <> pd / PGSIZE).
  { intros i pt Hi. destruct (K8 i pt Hi) as ([H1 _] & H2 & H3 & H4). split; [intros E; apply (Ha _ H2); by rewrite E|].
    intros E. apply H4. apply aligned_eq; [done|apply K4|done]. }
  assert (Hnew : K !! (USER_TABLES + t) = None).
  { destruct (K !! (USER_TABLES + t)) eqn:E; [|done]. assert (is_Some (K !! (USER_TABLES + t))) as H%K7 by eauto. lia. }
  pose proof (stored_agrees pd (USER_TABLES + t) (a - PHYS_BASE + 7) s1 (proj1 K4) ltac:(unfold USER_TABLES; lia)) as Ag. fold s2 in Ag.
  assert (Hz : forall j, 0 <= j < 1024 -> word_at (ram p') (a + 4 * j) = 0).
  { intros j Hj. unfold word_at. rewrite !G7. change (has_flag _ PAL_ZERO) with true. cbn [andb]. unfold within, PGSIZE.
    rewrite !(proj2 (Z.leb_le _ _)), !(proj2 (Z.ltb_lt _ _)) by lia. done. }
  split; [done|]. split; [|done]. split.
  - by apply pages_ok_ram.
  - apply set_word_bytes, O1.
  - destruct (G2 false) as [E _]. simpl in E. change (frames s2) with (set_ram (ram (frames s2)) p'). simpl. rewrite E. done.
  - split; [done|]. split; [change (allocated p' (pd / PGSIZE) = true); rewrite Hal'; by case_decide|by apply (same_run (frames s))].
  - intros i. destruct (decide (i = USER_TABLES + t)) as [->|Hne]; [rewrite lookup_insert_eq; split; [lia|eauto]|].
    rewrite lookup_insert_ne, K7 by done. lia.
  - intros i pt [[<- <-]|[Hne Hi]]%lookup_insert_Some; [split; [done|]; split; [done|]; split; [done|congruence]|].
    destruct (K8 i pt Hi) as (H1 & H2 & H3 & H4). split; [done|]. split; [change (allocated p' (pt / PGSIZE) = true); rewrite Hal'; by case_decide|].
    split; [by apply (same_run (frames s))|done].
  - intros i j pt [[<- <-]|[Hne Hi]]%lookup_insert_Some [[<- E]|[Hne' Hj]]%lookup_insert_Some; [done| | |by eapply K9].
    + by apply Hpt in Hj as [? _].
    + subst pt. by apply Hpt in Hi as [? _].
  - intros n Hr Hn. change (allocated p' n = true) in Hn. rewrite Hal' in Hn. case_decide as E.
    { right. exists (USER_TABLES + t), a. split; [apply lookup_insert_eq|done]. }
    destruct (K10 n) as [?|(i & pt & Hi & ->)]; [by rewrite <- (same_pools_run _ _ false n 1 G2)|done|by left|right; exists i, pt].
    split; [|done]. apply lookup_insert_Some. right. split; [congruence|done].
  - intros i Hi. unfold s2. rewrite stored_word by (unfold PHYS_BASE in *; lia). destruct (Z.eqb_spec i (USER_TABLES + t)) as [->|Hne]; [by rewrite lookup_insert_eq|].
    rewrite lookup_insert_ne by done. rewrite (agrees_word _ s s1 pd i Hag); [by apply K11|apply K4|by apply Ha|done].
  - intros i pt j [[<- <-]|[Hne Hi]]%lookup_insert_Some Hj; cbv zeta.
    + rewrite (agrees_word _ s1 s2 a j Ag); [|done|intros E; apply (Ha _ K5); by rewrite E|done]. rewrite (proj2 (Z.ltb_ge _ _)) by lia. by apply Hz.
    + destruct (Hpt i pt Hi) as [H1 H2]. destruct (K8 i pt Hi) as ([H3 _] & H4 & _).
      rewrite (agrees_word _ s1 s2 pt j Ag) by done. rewrite (agrees_word _ s s1 pt j Hag) by (done || by apply Ha). by apply K12.
Qed.
(** The entry of the next page. *)
Lemma kernel_new_entry s K t p pt (pd := init_page_dir s) (s2 := stored32 (pt + 4 * (p mod 1024)) (kernel_entry p) s) :
  kernel_maps s pd K t p -> 0 <= p < 2 ^ 18 -> K !! (USER_TABLES + p / 1024) = Some pt -> kernel_maps s2 pd K t (p + 1).
Proof.
  intros M Hp Hpt. pose proof M as [K1 K2 K3 (K4 & K5 & K6) K7 K8 K9 K10 K11 K12].
  pose proof (Z.div_mod p 1024 ltac:(done)) as Ep. pose proof (Z.mod_pos_bound p 1024 ltac:(done)) as Hm.
  destruct (K8 _ _ Hpt) as ((Ha & Hr) & Hal & Hrun & Hne). pose proof (kernel_entry_range p Hp) as He.
  pose proof (stored_agrees pt (p mod 1024) (kernel_entry p) s Ha Hm) as Ag. fold s2 in Ag. split; try done.
  - by apply pages_ok_ram.
  - by apply set_word_bytes.
  - intros i Hi. rewrite (agrees_word _ s s2 pd i Ag); [by apply K11|apply K4| |done]. intros E. apply Hne. symmetry. apply aligned_eq; [apply K4|done|done].
  - intros i pt' j Hi Hj. cbv zeta. destruct (decide (pt' = pt)) as [->|Hpp].
    + assert (i = USER_TABLES + p / 1024) as -> by (by eapply K9). unfold s2. rewrite stored_word by done. rewrite (K12 _ _ j Hi Hj). cbv zeta.
      replace ((USER_TABLES + p / 1024 - USER_TABLES) * 1024 + j) with (p + (j - p mod 1024)) by lia.
      destruct (Z.eqb_spec j (p mod 1024)) as [->|Hjp]; [rewrite Z.sub_diag, Z.add_0_r, (proj2 (Z.ltb_lt p (p + 1))) by lia; done|].
      case_cmp; (done || lia).
    + destruct (K8 _ _ Hi) as ((Ha' & _) & _). rewrite (agrees_word _ s s2 pt' j Ag); [|done| |done].
      * rewrite (K12 _ _ j Hi Hj). cbv zeta. assert (Hii : i <> USER_TABLES + p / 1024) by congruence.
        destruct (Z.ltb_spec ((i - USER_TABLES) * 1024 + j) p), (Z.ltb_spec ((i - USER_TABLES) * 1024 + j) (p + 1)); try done; [lia|].
        exfalso. apply Hii. assert ((i - USER_TABLES) * 1024 + j = p) as Eq by lia. rewrite <- Eq.
        rewrite <- (Z.div_unique ((i - USER_TABLES) * 1024 + j) 1024 (i - USER_TABLES) j); lia.
      * intros E. by apply Hpp, aligned_eq.
Qed.

(** *** The loop *)

(** There is room for one more table. *)
Lemma kernel_room s pd K t p :
  kernel_maps s pd K t p -> 0 <= t -> 1 + t < ba_size (used_map (kernel_pool (frames s))) ->
  exists a p', palloc_get_multiple (Z.lor PAL_ASSERT PAL_ZERO) 1 (frames s) = Ok (a, p') /\ got (Z.lor PAL_ASSERT PAL_ZERO) 1 (frames s) a p'.
Proof.
  intros M Ht Hroom. destruct (palloc_get_multiple_ok (Z.lor PAL_ASSERT PAL_ZERO) 1 (frames s) (km_pages _ _ _ _ _ M)) as [H|[Hfull _]]; [lia|done|].
  exfalso. change (has_flag _ PAL_USER) with false in Hfull. set (pool := kernel_pool (frames s)) in *.
  set (page := fun i => match K !! i with Some pt => pt / PGSIZE | None => 0 end).
  assert (Hsub : seqZ (first_page pool) (ba_size (used_map pool)) ⊆+ pd / PGSIZE :: (page <$> seqZ USER_TABLES t)).
  { apply NoDup_submseteq; [apply NoDup_seqZ|]. intros n Hn. apply elem_of_seqZ in Hn.
    assert (Hr : run_of (frames s) false n 1) by (unfold run_of; change (get_pool false (frames s)) with pool; lia).
    destruct (Hfull n Hr) as (m & Hm & Hal). assert (m = n) as -> by lia.
    destruct (km_all _ _ _ _ _ M n Hr Hal) as [->|(i & pt & Hi & ->)]; [left|right]. apply list_elem_of_fmap. exists i. unfold page. rewrite Hi.
    split; [done|]. apply elem_of_seqZ. apply (km_dom _ _ _ _ _ M). eauto. }
  apply submseteq_length in Hsub. rewrite length_cons, length_fmap, !length_seqZ in Hsub. lia.
Qed.
Lemma kernel_page s K t p pt :
  kernel_maps s (init_page_dir s) K t p -> 0 <= p < 2 ^ 18 -> t = (p + 1023) / 1024 ->
  (p mod 1024 <> 0 -> K !! (USER_TABLES + p / 1024) = Some pt) -> 1 + (p + 1 + 1023) / 1024 <= ba_size (used_map (kernel_pool (frames s))) ->
  exists pt' s' K', paging_page text_start text_end (init_page_dir s) pt p s = Ok (pt', s') /\
    kernel_maps s' (init_page_dir s) K' ((p + 1 + 1023) / 1024) (p + 1) /\ K' !! (USER_TABLES + p / 1024) = Some pt' /\
    init_page_dir s' = init_page_dir s /\ cr3 s' = cr3 s /\ tlb s' = tlb s /\ same_pools (frames s) (frames s').
Proof.
  intros M Hp Et Hpt Hroom. set (pd := init_page_dir s) in *. pose proof M as [K1 K2 K3 (K4 & K5 & K6) K7 K8 K9 K10 K11 K12].
  pose proof (Z.div_mod p 1024 ltac:(done)) as Ep. pose proof (Z.mod_pos_bound p 1024 ltac:(done)) as Hm. destruct (page_indices p Hp) as [Ei Ej].
  assert (Hq : 0 <= p / 1024 < 256) by (split; [apply Z.div_pos; lia|apply Z.div_lt_upper_bound; lia]).
  assert (Et1 : (p + 1 + 1023) / 1024 = p / 1024 + 1) by (symmetry; apply (Z.div_unique _ _ _ (p mod 1024)); lia).
  assert (Hcases : (p mod 1024 = 0 /\ t = p / 1024) \/ (p mod 1024 <> 0 /\ t = p / 1024 + 1)).
  { subst t. destruct (decide (p mod 1024 = 0)); [left|right]; (split; [done|]; symmetry);
      [apply (Z.div_unique _ _ _ 1023); lia|apply (Z.div_unique _ _ _ (p mod 1024 - 1)); lia]. }
  assert (Hfinish : forall s1 K1 pt1, init_page_dir s1 = pd -> kernel_maps s1 pd K1 (p / 1024 + 1) p -> K1 !! (USER_TABLES + p / 1024) = Some pt1 ->
    let s2 := stored32 (pt1 + 4 * (p mod 1024)) (kernel_entry p) s1 in
    kernel_maps s2 pd K1 (p / 1024 + 1) (p + 1) /\
    (e ← pte_create_kernel (PHYS_BASE + p * PGSIZE) (negb (in_text (PHYS_BASE + p * PGSIZE)));
     ASSERT (negb (pt1 =? 0));; store32 (pt1 + 4 * (p mod 1024)) e;; mret pt1) s1 = Ok (pt1, s2)).
  { intros s1 K1' pt1 Hi1 M1 Hpt1 s2. split.
    - pose proof (kernel_new_entry s1 K1' (p / 1024 + 1) p pt1) as H. rewrite Hi1 in H. by apply H.
    - rewrite (bind_ok _ _ _ _ _ (pte_create_kernel_ok s1 p Hp)). destruct (km_table _ _ _ _ _ M1 _ _ Hpt1) as ((_ & Hr) & _).
      unfold PHYS_BASE in Hr. rewrite ASSERT_true; [done|]. apply negb_true_iff, Z.eqb_neq. lia. }
  unfold paging_page. rewrite page_vaddr by done. unfold pure at 1. erewrite bind_ok by reflexivity. cbv zeta. rewrite Ei, Ej.
  erewrite bind_ok by reflexivity. rewrite K11 by (unfold USER_TABLES; lia). fold (in_text (PHYS_BASE + p * PGSIZE)). rewrite Et1.
  destruct Hcases as [[Hz ->]|[Hnz ->]].
  - assert (Hnone : K !! (USER_TABLES + p / 1024) = None).
    { destruct (K !! (USER_TABLES + p / 1024)) eqn:E; [|done]. assert (is_Some (K !! (USER_TABLES + p / 1024))) as H%K7 by eauto. lia. }
    destruct (kernel_room s pd K (p / 1024) p M) as (a & p' & E & G); [lia|lia|].
    destruct (kernel_new_table s K (p / 1024) p a p' M) as (Hk & M1 & Hs); [lia|lia|done|]. fold pd in M1, Hs.
    edestruct Hfinish as [M2 E2]; [|exact M1|apply lookup_insert_eq|]; [done|].
    eexists a, _, _. split; [|split; [exact M2|split; [apply lookup_insert_eq|by split_and!]]].
    rewrite Hnone. change (0 =? 0) with true. cbv iota. rewrite bind_assoc.
    erewrite bind_ok by (unfold on_frames, palloc_get_page; rewrite E; reflexivity). rewrite bind_assoc.
    rewrite (bind_ok _ _ _ _ _ (pde_create_ok _ a Hk)). rewrite bind_assoc, (bind_ok _ _ _ _ _ (store32_ok _ _ _)), ret_bind. exact E2.
  - specialize (Hpt Hnz). destruct (K8 _ _ Hpt) as ((_ & Hr) & _). destruct (Hfinish s K pt eq_refl M Hpt) as [M2 E2].
    eexists pt, _, _. split; [|split; [exact M2|by split_and!]]. rewrite Hpt. unfold PHYS_BASE in *.
    rewrite (proj2 (Z.eqb_neq _ 0)) by lia. rewrite ret_bind. exact E2.
Qed.
Lemma kernel_loop n : forall p s K pt,
  kernel_maps s (init_page_dir s) K ((p + 1023) / 1024) p -> 0 <= p -> p + Z.of_nat n <= 2 ^ 18 ->
  (p mod 1024 <> 0 -> K !! (USER_TABLES + p / 1024) = Some pt) ->
  1 + (p + Z.of_nat n + 1023) / 1024 <= ba_size (used_map (kernel_pool (frames s))) ->
  exists s' K', paging_loop (seqZ p (Z.of_nat n)) text_start text_end (init_page_dir s) pt s = Ok (tt, s') /\
    kernel_maps s' (init_page_dir s) K' ((p + Z.of_nat n + 1023) / 1024) (p + Z.of_nat n) /\
    init_page_dir s' = init_page_dir s /\ cr3 s' = cr3 s /\ tlb s' = tlb s.
Proof.
  induction n as [|n IH]; intros p s K pt M Hp Hmax Hpt Hroom.
  { exists s, K. rewrite Z.add_0_r. done. }
  rewrite seqZ_cons by lia. replace (Z.pred (Z.of_nat (S n))) with (Z.of_nat n) by lia. replace (p + Z.of_nat (S n)) with (p + 1 + Z.of_nat n) in * by lia.
  assert (Hle : (p + 1 + 1023) / 1024 <= (p + 1 + Z.of_nat n + 1023) / 1024) by (apply Z.div_le_mono; lia).
  destruct (kernel_page s K _ p pt M) as (pt' & s1 & K1 & E & M1 & Hpt1 & Hi & Hc & Ht & Hs); [lia|done|done|lia|].
  destruct (IH (p + 1) s1 K1 pt') as (s2 & K2 & E2 & M2 & Hi2 & Hc2 & Ht2); [by rewrite Hi|lia|lia| | |].
  - intros Hnz. rewrite <- Hpt1. do 2 f_equal. pose proof (Z.div_mod p 1024 ltac:(done)). pose proof (Z.mod_pos_bound p 1024 ltac:(done)).
    pose proof (Z.div_mod (p + 1) 1024 ltac:(done)). pose proof (Z.mod_pos_bound (p + 1) 1024 ltac:(done)). lia.
  - destruct (Hs false) as [_ Es].
    change (ba_size (used_map (kernel_pool (frames s1))) = ba_size (used_map (kernel_pool (frames s)))) in Es. lia.
  - exists s2, K2. rewrite Hi in *. split; [|split; [done|]]; [|split_and!; congruence].
    cbn [paging_loop]. rewrite (bind_ok _ _ _ _ _ E). replace (Z.succ p) with (p + 1) by lia. exact E2.
Qed.
(** *** [paging_init] *)

Record fresh_memory s : Prop := {
  fm_pages : pages_ok (frames s);
  fm_bytes : byte_ram (ram (frames s));
  fm_base : PHYS_BASE / PGSIZE <= first_page (kernel_pool (frames s));
  fm_free n : run_of (frames s) false n 1 -> allocated (frames s) n = false
}.
Lemma kernel_start s a p' :
  fresh_memory s -> got (Z.lor PAL_ASSERT PAL_ZERO) 1 (frames s) a p' ->
  kernel_maps (mkMmu p' a (cr3 s) (tlb s)) a ∅ 0 0 /\ kpage_ok a.
Proof.
  intros [F1 F2 F3 F4] G. pose proof (got_kpage _ _ _ _ F1 F3 G) as Hk. pose proof G as [G1 G2 (A1 & A2 & A3) G4 G5 G6 G7].
  change (has_flag _ PAL_USER) with false in G4. split; [|done]. split; simpl; try done.
  - intros x. rewrite G7. destruct (_ && _); [done|apply F2].
  - destruct (G2 false) as [E _]. simpl in E. by rewrite E.
  - split; [done|]. split; [rewrite G6; unfold within; by case_cmp|by apply (same_run (frames s))].
  - intros i. rewrite lookup_empty. split; [by intros [? ?]|lia].
  - intros n Hr Ha. left. rewrite (same_pools_run _ _ false n 1 G2) in Hr. rewrite G6, F4 in Ha by done. unfold within in Ha.
    destruct ((a / PGSIZE <=? n) && (n <? a / PGSIZE + 1)) eqn:E; [|done]. reflect_bools. lia.
  - intros i Hi. rewrite lookup_empty. unfold word_at. rewrite !G7. change (has_flag _ PAL_ZERO) with true. cbn [andb]. unfold within, PGSIZE.
    rewrite !(proj2 (Z.leb_le _ _)), !(proj2 (Z.ltb_lt _ _)) by lia. done.
Qed.
Lemma paging_init_ok init_ram_pages s :
  fresh_memory s -> 0 <= init_ram_pages <= 2 ^ 18 -> 1 + (init_ram_pages + 1023) / 1024 <= ba_size (used_map (kernel_pool (frames s))) ->
  exists s' K, paging_init init_ram_pages text_start text_end s = Ok (tt, s') /\
    kernel_maps s' (init_page_dir s') K ((init_ram_pages + 1023) / 1024) init_ram_pages /\
    cr3 s' + PHYS_BASE = init_page_dir s' /\ tlb s' = ∅.
Proof.
  intros F Hp Hroom. assert (Hpos : 0 <= (init_ram_pages + 1023) / 1024) by (apply Z.div_pos; lia).
  destruct (palloc_get_multiple_ok (Z.lor PAL_ASSERT PAL_ZERO) 1 (frames s) (fm_pages _ F)) as [(a & p' & E & G)|[Hfull _]]; [lia| |].
  2:{ exfalso. change (has_flag _ PAL_USER) with false in Hfull. set (n := first_page (kernel_pool (frames s))).
      assert (Hr : run_of (frames s) false n 1) by (split; [done|]; change (get_pool false (frames s)) with (kernel_pool (frames s)); lia).
      destruct (Hfull n Hr) as (m & Hm & Ha). assert (m = n) as -> by lia. by rewrite (fm_free _ F) in Ha. }
  destruct (kernel_start s a p' F G) as [M Hk]. set (s1 := mkMmu p' a (cr3 s) (tlb s)) in *.
  destruct (kernel_loop (Z.to_nat init_ram_pages) 0 s1 ∅ 0) as (s2 & K & E2 & M2 & Hi & Hc & Ht); [done|lia|lia|done| |].
  { destruct (gt_same _ _ _ _ _ G false) as [_ Es]. change (ba_size (used_map (kernel_pool p')) = ba_size (used_map (kernel_pool (frames s)))) in Es.
    change (frames s1) with p'. rewrite Z2Nat.id by lia. rewrite Z.add_0_l. lia. }
  rewrite Z2Nat.id, Z.add_0_l in * by lia. change (init_page_dir s1) with a in *.
  exists (mkMmu (frames s2) a (a - PHYS_BASE) ∅), K. split.
  - unfold paging_init. erewrite bind_ok by (unfold on_frames, palloc_get_page; rewrite E; reflexivity). erewrite bind_ok by reflexivity.
    rewrite (bind_ok _ _ _ _ _ E2). unfold pure. erewrite bind_ok by (rewrite vtop_ok by done; reflexivity).
    unfold modify. by rewrite Hi.
  - simpl. split; [by destruct M2|]. split; [lia|done].
Qed.

End Boot.

(** ** The machine after [paging_init] *)

(** The pages of the tables for the kernel half. *)
Definition kernel_tables (s : mmu) (n : Z) : Prop :=
  exists i, USER_TABLES <= i < 1024 /\ let e := word_at (ram (frames s)) (init_page_dir s + 4 * i) in
    present e = true /\ n = frame e / PGSIZE.
Definition kernel_entries (s : mmu) (i : Z) : Z := word_at (ram (frames s)) (init_page_dir s + 4 * i).

Section Kernel.
Context (text_start text_end : Z).

Lemma kernel_tables_eq s K t p n :
  kernel_maps text_start text_end s (init_page_dir s) K t p -> 0 <= t <= 256 ->
  kernel_tables s n <-> exists i pt, K !! i = Some pt /\ n = pt / PGSIZE.
Proof.
  intros M Ht. unfold kernel_tables. split.
  - intros (i & Hi & Hp & ->). unfold USER_TABLES in Hi. rewrite (km_word _ _ _ _ _ _ _ M) in * by lia. destruct (K !! i) as [pt|] eqn:E; [|done].
    exists i, pt. split; [done|]. by rewrite (proj1 (proj2 (table_entry_facts pt (proj1 (km_table _ _ _ _ _ _ _ M i pt E))))).
  - intros (i & pt & Hi & ->). exists i. assert (is_Some (K !! i)) as H%(km_dom _ _ _ _ _ _ _ M) by eauto. unfold USER_TABLES in *.
    split; [lia|]. rewrite (km_word _ _ _ _ _ _ _ M) by lia. rewrite Hi.
    destruct (table_entry_facts pt (proj1 (km_table _ _ _ _ _ _ _ M i pt Hi))) as (H1 & H2 & _). by rewrite H2.
Qed.
Lemma boot_machine s K t p :
  kernel_maps text_start text_end s (init_page_dir s) K t p -> 0 <= t <= 256 -> cr3 s + PHYS_BASE = init_page_dir s -> tlb s = ∅ ->
  machine_ok (kernel_tables s) (kernel_entries s) (ram (frames s)) (s, ∅, kernel_tables s).
Proof.
  intros M Ht Hc Htlb. pose proof (fun n => kernel_tables_eq s K t p n M Ht) as Hk. split; [|done]. simpl. split.
  { intros n e. by rewrite Htlb, lookup_empty. }
  assert (Hmaps : forall x k, ~ maps ∅ x k) by (intros x k (f & Hf & _); by rewrite lookup_empty in Hf).
  exists ∅. split; try done.
  - by eapply kernel_spaces.
  - intros pd. by rewrite !lookup_empty.
  - intros x k H. by apply Hmaps in H.
  - intros x y k H. by apply Hmaps in H.
  - by left.
  - intros n (i & pt & Hi & ->)%Hk. destruct (km_table _ _ _ _ _ _ _ M i pt Hi) as ((H1 & _) & H2 & H3 & H4). split; [|done].
    intros [E|(r & q & H & _)]; [|by apply no_holds in H]. apply H4. apply aligned_eq; [done|apply (km_dir _ _ _ _ _ _ _ M)|done].
  - intros n Hr Ha. rewrite Hk. destruct (km_all _ _ _ _ _ _ _ M n Hr Ha) as [->|H]; [by left; left|by right].
Qed.
Lemma kernel_entry_facts q : 0 <= q < 2 ^ 18 ->
  let e := kernel_entry text_start text_end q in
  present e = true /\ Z.land e PTE_ADDR = q * PGSIZE /\ writable e = negb (in_text text_start text_end (PHYS_BASE + q * PGSIZE)) /\ user e = false.
Proof.
  intros Hq. unfold kernel_entry. set (fl := if in_text _ _ _ then 0 else 2). cbv zeta.
  assert (Hfl : 0 <= 1 + fl < 4096) by (unfold fl; destruct (in_text _ _ _); lia).
  assert (Ha : (q * PGSIZE) mod 4096 = 0) by (apply Z.mod_mul; done).
  rewrite <- Z.add_assoc.
  assert (Hl : forall k, 0 <= k < 4096 -> Z.land (q * PGSIZE + (1 + fl)) k = Z.land (1 + fl) k) by (intros k Hk; by rewrite land_low, aligned_add by done).
  unfold present, writable, user. rewrite (Hl PTE_P), (Hl PTE_W), (Hl PTE_U) by done.
  split; [unfold fl; by destruct (in_text _ _ _)|]. split; [|unfold fl; by destruct (in_text _ _ _)].
  rewrite land_addr, aligned_add by (done || (unfold PGSIZE; lia)). lia.
Qed.
Lemma va_split va : PHYS_BASE <= va < 2 ^ 32 ->
  let q := (va - PHYS_BASE) / PGSIZE in
  0 <= q < 2 ^ 18 /\ pd_no va = USER_TABLES + q / 1024 /\ pt_no va = q mod 1024 /\ va - PHYS_BASE = q * PGSIZE + va mod PGSIZE /\
  PHYS_BASE + q * PGSIZE = va - va mod PGSIZE.
Proof.
  intros Hva q. pose proof (Z.div_mod va PGSIZE ltac:(done)) as E. pose proof (Z.mod_pos_bound va PGSIZE ltac:(done)) as Hm.
  assert (Eq : va / PGSIZE = q + 768 * 1024).
  { unfold q. replace (va / PGSIZE) with ((va - PHYS_BASE + 768 * 1024 * PGSIZE) / PGSIZE) by (f_equal; unfold PHYS_BASE, PGSIZE; lia). by rewrite Z.div_add. }
  rewrite pd_no_eq, pt_no_eq, Eq, Z.div_add, Z.mod_add by done. unfold USER_TABLES, PHYS_BASE, PGSIZE in *. split; [lia|]. split; [lia|]. split; [done|]. lia.
Qed.
Lemma tables_word tables kh ram0 c pt j :
  machine_ok tables kh ram0 c -> kpage_ok pt -> tables (pt / PGSIZE) -> 0 <= j < 1024 ->
  word_at (ram (frames c.1.1)) (pt + 4 * j) = word_at ram0 (pt + 4 * j).
Proof.
  intros [_ Ht] [Ha _] Hk Hj. apply word_at_ext. intros x Hx. apply Ht. replace x with (pt + (x - pt)) by lia.
  rewrite page_of; [done|done|unfold PGSIZE; lia].
Qed.
(** The entries for the kernel half of every directory. *)
Lemma dir_kernel_half O kh s A dir i :
  stands O kh s A -> dir = init_page_dir s \/ is_Some (A !! dir) -> USER_TABLES <= i < 1024 -> word_at (ram (frames s)) (dir + 4 * i) = kh i.
Proof.
  intros [_ [T R]] Hdir Hi. rewrite <- (rl_kernel _ _ _ _ _ R i Hi). destruct Hdir as [->|H]; [done|].
  destruct (rel_both _ _ _ _ _ _ R H) as (d & f & Hd & Hf). by apply (sp_kernel _ _ (rl_spaces _ _ _ _ _ R) dir d).
Qed.
Lemma walk_kernel s0 K p c dir va :
  kernel_maps text_start text_end s0 (init_page_dir s0) K ((p + 1023) / 1024) p -> 0 <= p <= 2 ^ 18 ->
  machine_ok (kernel_tables s0) (kernel_entries s0) (ram (frames s0)) c ->
  dir = init_page_dir c.1.1 \/ is_Some (c.1.2 !! dir) -> PHYS_BASE <= va < 2 ^ 32 ->
  walk (ram (frames c.1.1)) dir va =
    if va - PHYS_BASE <? p * PGSIZE then Some (va - PHYS_BASE, negb (in_text text_start text_end (va - va mod PGSIZE)), false) else None.
Proof.
  intros M Hp MO Hdir Hva. destruct (va_split va Hva) as (Hq & Ei & Ej & Eo & Ep). cbv zeta in *. set (q := (va - PHYS_BASE) / PGSIZE) in *.
  pose proof (Z.div_mod q 1024 ltac:(done)) as Eq. pose proof (Z.mod_pos_bound q 1024 ltac:(done)) as Hm.
  pose proof (Z.mod_pos_bound va PGSIZE ltac:(done)) as Hvm.
  pose proof (Z.div_mod (p + 1023) 1024 ltac:(done)) as Et. pose proof (Z.mod_pos_bound (p + 1023) 1024 ltac:(done)) as Htm.
  assert (Ht : 0 <= (p + 1023) / 1024 <= 256) by lia.
  assert (Hi : USER_TABLES <= USER_TABLES + q / 1024 < 1024) by (unfold USER_TABLES; lia).
  unfold walk. rewrite Ei, Ej. rewrite (dir_kernel_half _ _ _ _ _ _ (mo_stands _ _ _ _ MO) Hdir Hi). unfold kernel_entries.
  rewrite (km_word _ _ _ _ _ _ _ M) by (unfold USER_TABLES in *; lia). destruct (K !! (USER_TABLES + q / 1024)) as [pt|] eqn:EK.
  - destruct (km_table _ _ _ _ _ _ _ M _ _ EK) as (Hk & _). destruct (table_entry_facts pt Hk) as (F1 & F2 & F3 & F4 & F5). cbv zeta in *.
    rewrite F1, F3, F4, F5, Z.sub_simpl_r. assert (Hkt : kernel_tables s0 (pt / PGSIZE)) by (rewrite (kernel_tables_eq s0 K _ p) by done; eauto).
    rewrite (tables_word _ _ _ c pt _ MO Hk Hkt Hm). rewrite (km_entry _ _ _ _ _ _ _ M _ _ _ EK Hm). cbv zeta.
    replace ((USER_TABLES + q / 1024 - USER_TABLES) * 1024 + q mod 1024) with q by lia. destruct (Z.ltb_spec q p).
    + destruct (kernel_entry_facts q Hq) as (G1 & G2 & G3 & G4). rewrite G1, G2, G3, G4, Ep, <- Eo. unfold PGSIZE in *.
      rewrite (proj2 (Z.ltb_lt _ _)) by lia. done.
    + rewrite (proj2 (Z.ltb_ge _ _)) by (unfold PGSIZE in *; lia). done.
  - rewrite (proj2 (Z.ltb_ge _ _)); [done|]. assert (~ is_Some (K !! (USER_TABLES + q / 1024))) as Hn by (rewrite EK; by intros [? ?]).
    rewrite (km_dom _ _ _ _ _ _ _ M) in Hn. unfold PGSIZE in *. lia.
Qed.

Lemma walk_user O kh s A T pd f va :
  rel O kh s T A -> A !! pd = Some f -> user_addr va ->
  walk (ram (frames s)) pd va =
    let e := f (va / PGSIZE) in if present e then Some (Z.land e PTE_ADDR + va mod PGSIZE, writable e, user e) else None.
Proof.
  intros R Hf Hva. destruct (rel_both _ _ _ _ _ _ R (ex_intro _ f Hf)) as (d & f' & Hd & Hf'). assert (f' = f) as -> by congruence.
  destruct (user_addr_facts va Hva) as (_ & _ & Hi & _). unfold walk. rewrite (sp_user _ _ (rl_spaces _ _ _ _ _ R) pd d) by done. cbv zeta.
  destruct (read_entry _ _ _ _ _ _ _ _ _ R Hd Hf Hva) as [[E ->]|(pt & E & Ew)]; rewrite E; [done|].
  destruct (sp_page _ _ (rl_spaces _ _ _ _ _ R) (pd, Some (pd_no va)) pt) as (Hk & _); [by exists d|].
  destruct (table_entry_facts pt Hk) as (F1 & F2 & F3 & F4 & F5). cbv zeta in *. by rewrite F1, F3, F4, F5, Z.sub_simpl_r, Ew.
Qed.
Lemma walk_init O kh s A va : stands O kh s A -> user_addr va -> walk (ram (frames s)) (init_page_dir s) va = None.
Proof.
  intros [_ [T R]] Hva. destruct (user_addr_facts va Hva) as (_ & _ & Hi & _). destruct (sp_init _ _ (rl_spaces _ _ _ _ _ R)) as (_ & _ & _ & _ & H).
  unfold walk. by rewrite H.
Qed.
(** User code reaches its own frames only. *)
Lemma walk_reaches s0 K p c dir va pa w :
  kernel_maps text_start text_end s0 (init_page_dir s0) K ((p + 1023) / 1024) p -> 0 <= p <= 2 ^ 18 ->
  machine_ok (kernel_tables s0) (kernel_entries s0) (ram (frames s0)) c ->
  dir = init_page_dir c.1.1 \/ is_Some (c.1.2 !! dir) -> 0 <= va < 2 ^ 32 -> walk (ram (frames c.1.1)) dir va = Some (pa, w, true) ->
  va < PHYS_BASE /\ pa = pa - va mod PGSIZE + va mod PGSIZE /\ maps c.1.2 (dir, va / PGSIZE) (pa - va mod PGSIZE + PHYS_BASE).
Proof.
  intros M Hp MO Hdir Hva Hw. destruct (Z.lt_ge_cases va PHYS_BASE) as [Hu|Hk].
  2:{ rewrite (walk_kernel s0 K p c dir va M Hp MO Hdir ltac:(lia)) in Hw. by destruct (_ <? _). }
  assert (Hua : user_addr va) by (split; lia). destruct Hdir as [->|[f Hf]].
  { by rewrite (walk_init _ _ _ _ _ (mo_stands _ _ _ _ MO) Hua) in Hw. }
  destruct (mo_stands _ _ _ _ MO) as [_ [T R]]. rewrite (walk_user _ _ _ _ _ _ _ _ R Hf Hua) in Hw. cbv zeta in Hw.
  destruct (user_addr_facts va Hua) as (_ & Hn & _). destruct (present (f (va / PGSIZE))) eqn:Hpr; [|done]. injection Hw as <- _ _.
  split; [done|]. split; [lia|]. exists f. cbn [fst snd]. split; [done|]. split; [done|]. split; [done|]. unfold frame. lia.
Qed.

End Kernel.

(** ** Theorems *)

(** The states that are reached from [paging_init]. *)
Lemma reached_ok init_ram_pages text_start text_end s0 s c :
  fresh_memory s0 -> 0 <= init_ram_pages <= 2 ^ 18 -> 1 + (init_ram_pages + 1023) / 1024 <= ba_size (used_map (kernel_pool (frames s0))) ->
  paging_init init_ram_pages text_start text_end s0 = Ok (tt, s) ->
  rtc (mstep init_ram_pages (kernel_tables s)) (s, ∅, kernel_tables s) c ->
  exists K, kernel_maps text_start text_end s (init_page_dir s) K ((init_ram_pages + 1023) / 1024) init_ram_pages /\
    machine_ok (kernel_tables s) (kernel_entries s) (ram (frames s)) c.
Proof.
  intros F Hp Hroom E Hr. destruct (paging_init_ok text_start text_end init_ram_pages s0 F Hp Hroom) as (s1 & K & E1 & M & Hc & Ht).
  rewrite E in E1. injection E1 as <-. exists K. split; [done|].
  pose proof (Z.div_mod (init_ram_pages + 1023) 1024 ltac:(done)). pose proof (Z.mod_pos_bound (init_ram_pages + 1023) 1024 ltac:(done)).
  eapply rtc_invariant; [apply mstep_ok|exact Hr|]. eapply boot_machine; [done|lia|done|done].
Qed.

(** ** Steps of the rest of the system *)

Section Elsewhere.
Context (tables : Z -> Prop) (kernel_half ram0 : Z -> Z).
Implicit Types (s : mmu) (A : aspaces) (O : Z -> Prop).

(** A page of the user pool is allocated. *)
Lemma alloc_elsewhere flags s A O a p' :
  machine_ok tables kernel_half ram0 (s, A, O) -> has_flag flags PAL_USER = true -> got flags 1 (frames s) a p' ->
  elsewhere tables A O s O (set_frames p' s) /\ user_frame (set_frames p' s) a /\ forall x, ~ maps A x a.
Proof.
  intros [[Tl [T R]] Ht] Hu G. simpl in *. pose proof R as [S R2 R3 R4 R5 R6 R7 R8 R9]. pose proof (sp_pages _ _ S) as [P1 P2 Hap].
  destruct (got_page s T flags a p' S G) as ([O1 O2 O3 O4 O5 O6] & Hk & Hno & Hal & Hrun & Hag). cbv zeta in *.
  pose proof G as [G1 G2 (A1 & A2 & A3) G4 G5 G6 G7]. rewrite Hu in *.
  assert (Hkern : forall n, run_of (frames s) false n 1 -> n <> a / PGSIZE).
  { intros n [L1 L2] ->. destruct G4 as [J1 J2]. simpl in *. lia. }
  assert (Hal' : forall n, allocated p' n = if decide (n = a / PGSIZE) then true else allocated (frames s) n).
  { intros n. rewrite G6. unfold within. case_decide; by case_cmp. }
  assert (Hsame : forall n, run_of (frames s) false n 1 -> allocated p' n = allocated (frames s) n).
  { intros n Hn%Hkern. rewrite Hal'. by case_decide. }
  split; [|split].
  - split; try done.
    + intros n Hr Ha Ho. split; [done|]. split; [simpl; by rewrite Hsame|]. intros x <-. by apply Hag, Hkern.
    + intros n Ho. destruct (R7 n Ho) as (_ & Ha & Hr). split; [done|]. simpl. by rewrite Hsame.
    + intros n Hr Ha. simpl in Ha. rewrite Hsame in Ha by done. destruct (R8 n Hr Ha) as [Hn|Ho]; [|by left].
      right. split; [done|]. intros Ho. by apply R7 in Ho as [? _].
    + intros x Hx. destruct (Ht x Hx) as [Ho _]. split; [done|]. apply Hag, Hkern. by apply R7.
    + intros y k Hm. simpl. rewrite Hal'. case_decide; [done|]. by apply (R4 y).
  - by split.
  - intros x Hm. destruct (R4 x a Hm) as (_ & H & _). rewrite G5 in H by lia. done.
Qed.
End Elsewhere.

(** ** A machine with 384 pages of memory *)

Definition ex_mmu : mmu := mkMmu ex_pages 0 0 ∅.
Lemma ex_fresh : fresh_memory ex_mmu.
Proof.
  destruct ex_boot_ok as (_ & H & Hf). split; [done| | |intros n _; apply Hf].
  - intros x. vm_compute. split; [discriminate|reflexivity].
  - vm_compute. discriminate.
Qed.
Lemma ex_room : 1 + (384 + 1023) / 1024 <= ba_size (used_map (kernel_pool (frames ex_mmu))).
Proof. vm_compute. discriminate. Qed.

(** An address space with one page, which is made the active one. *)
Definition ex_run : K mmu (Z * Z * bool) :=
  paging_init 384 0xc0020000 0xc0030000;;
  pd ← pagedir_create;
  k ← on_frames (palloc_get_page PAL_USER);
  b ← pagedir_set_page 384 pd 0x08048000 k true;
  pagedir_activate pd;;
  mret (pd, k, b).
Lemma ex_result : match ex_run ex_mmu with Ok ((pd, k, b), _) => (pd =? 0xc0103000) && (k =? 0xc0159000) && b | _ => false end = true.
Proof. vm_compute. reflexivity. Qed.
#[local] Opaque ex_mmu ex_pages.
Definition runs_from (m : mmu) : Prop := exists s1 s2 s3 s4 s5 p,
  paging_init 384 0xc0020000 0xc0030000 m = Ok (tt, s1) /\ pagedir_create s1 = Ok (0xc0103000, s2) /\
  palloc_get_page PAL_USER (frames s2) = Ok (0xc0159000, p) /\ s3 = set_frames p s2 /\
  pagedir_set_page 384 0xc0103000 0x08048000 0xc0159000 true s3 = Ok (true, s4) /\ pagedir_activate 0xc0103000 s4 = Ok (tt, s5).
Lemma ex_steps : runs_from ex_mmu.
Proof.
  pose proof ex_result as Hr. destruct (ex_run ex_mmu) as [[[[pd k] b] s]| |] eqn:E; [|discriminate Hr..].
  apply andb_true_iff in Hr as [[->%Z.eqb_eq ->%Z.eqb_eq]%andb_true_iff ->].
  unfold ex_run in E. apply bind_inv in E as ([] & s1 & E1 & E). apply bind_inv in E as (pd & s2 & E2 & E).
  apply bind_inv in E as (k & s3 & E3 & E). apply bind_inv in E as (b & s4 & E4 & E). apply bind_inv in E as ([] & s5 & E5 & E).
  injection E as -> -> -> _. unfold on_frames in E3. destruct (palloc_get_page PAL_USER (frames s2)) as [[a p]| |] eqn:Ep; [|discriminate E3..]. injection E3 as -> <-.
  exact (ex_intro _ s1 (ex_intro _ s2 (ex_intro _ (set_frames p s2) (ex_intro _ s4 (ex_intro _ s5 (ex_intro _ p
    (conj E1 (conj E2 (conj Ep (conj eq_refl (conj E4 E5))))))))))).
Qed.
(** The states on the way, and the page written at last. *)
Definition ex_entry : Z := used true (user_entry 0xc0159000 true).
Lemma ex_path s1 s2 s4 s5 p :
  (forall c, rtc (mstep 384 (kernel_tables s1)) (s1, ∅, kernel_tables s1) c -> machine_ok (kernel_tables s1) (kernel_entries s1) (ram (frames s1)) c) ->
  pagedir_create s1 = Ok (0xc0103000, s2) -> palloc_get_page PAL_USER (frames s2) = Ok (0xc0159000, p) ->
  pagedir_set_page 384 0xc0103000 0x08048000 0xc0159000 true (set_frames p s2) = Ok (true, s4) -> pagedir_activate 0xc0103000 s4 = Ok (tt, s5) ->
  exists s' A O f, rtc (mstep 384 (kernel_tables s1)) (s1, ∅, kernel_tables s1) (s', A, O) /\ A !! 0xc0103000 = Some f /\
    f 0x8048 = ex_entry /\ cr3 s' + PHYS_BASE = 0xc0103000 /\ tlb s' !! 0x8048 = Some ex_entry.
Proof.
  intros MOr E2 E3 E4 E5.
  set (A1 := <[0xc0103000 := fun _ => 0]> (∅ : aspaces)). set (kt := kernel_tables s1) in *.
  assert (R1 : rtc (mstep 384 kt) (s1, ∅, kt) (s2, A1, kt)).
  { apply rtc_once. apply (M_op 384 kt PCreate (PAddr 0xc0103000)); [done|simpl; by rewrite (bind_ok _ _ _ _ _ E2)|]. by apply P_create. }
  destruct (palloc_get_multiple_ok PAL_USER 1 (frames s2)) as [(a & p' & E & G)|[_ E]]; [|lia| |].
  { destruct (mo_stands _ _ _ _ (MOr _ R1)) as [_ [T R]]. apply (sp_pages _ _ (rl_spaces _ _ _ _ _ R)). }
  2:{ unfold palloc_get_page in E3. rewrite E in E3. discriminate E3. }
  unfold palloc_get_page in E3. rewrite E in E3. injection E3 as -> ->.
  destruct (alloc_elsewhere kt _ _ PAL_USER s2 A1 kt _ p (MOr _ R1) eq_refl G) as (El & Hu & Hno).
  assert (R2 : rtc (mstep 384 kt) (s1, ∅, kt) (set_frames p s2, A1, kt)) by (eapply rtc_r; [exact R1|by apply M_else]).
  set (f := set_entry 0x8048 (user_entry 0xc0159000 true) (fun _ => 0)). set (A2 := <[0xc0103000 := f]> A1).
  assert (R3 : rtc (mstep 384 kt) (s1, ∅, kt) (s4, A2, kt)).
  { eapply rtc_r; [exact R2|]. apply (M_op 384 kt (PSet 0xc0103000 0x08048000 0xc0159000 true) (PBool true)).
    - split; [exists (fun _ => 0); split; [apply lookup_insert_eq|done]|]. split; [done|]. split; [done|]. by split; [|split].
    - simpl. by rewrite (bind_ok _ _ _ _ _ E4).
    - apply (P_set _ A1 0xc0103000 (fun _ => 0)). apply lookup_insert_eq. }
  assert (R4 : rtc (mstep 384 kt) (s1, ∅, kt) (s5, A2, kt)).
  { eapply rtc_r; [exact R3|]. apply (M_op 384 kt (PActivate 0xc0103000) PUnit); [right; unfold A2; rewrite lookup_insert_eq; eauto| |constructor].
    simpl. by rewrite (bind_ok _ _ _ _ _ E5). }
  assert (Hc : cr3 s5 + PHYS_BASE = 0xc0103000) by (injection E5 as <-; done).
  assert (Ht : tlb s5 = ∅) by (injection E5 as <-; done).
  assert (Hf : A2 !! (cr3 s5 + PHYS_BASE) = Some f) by (rewrite Hc; apply lookup_insert_eq).
  assert (Hm : may true (f 0x8048) = true) by (by vm_compute).
  destruct (touched_marks _ 0x8048 true A2 f Hf Hm) as (g & Hg & Eg).
  destruct (mo_stands _ _ _ _ (MOr _ R4)) as [Tl [T R]].
  destruct (walk_tables_ok _ _ 0x8048 true s5 A2 T f R Tl Hf ltac:(done)) as (_ & _ & _ & Hw).
  assert (Et : touch 0x8048 true s5 = walk_tables 0x8048 true s5) by (unfold touch; by rewrite Ht, lookup_empty).
  exists (touch 0x8048 true s5).2, (touched (cr3 s5 + PHYS_BASE) 0x8048 true A2), kt, g.
  split; [eapply rtc_r; [exact R4|by apply M_touch]|]. rewrite <- Hc. split; [done|]. split; [done|]. rewrite Et. split; [|by apply Hw].
  f_equal. unfold walk_tables. destruct (_ && _); [|done]. cbn [snd cr3]. by destruct (_ =? _).
Qed.
Lemma ex_outcome m :
  fresh_memory m -> 1 + (384 + 1023) / 1024 <= ba_size (used_map (kernel_pool (frames m))) -> runs_from m ->
  exists s1 s' A O f,
    (fresh_memory m /\ 1 + (384 + 1023) / 1024 <= ba_size (used_map (kernel_pool (frames m)))) /\
    paging_init 384 0xc0020000 0xc0030000 m = Ok (tt, s1) /\
    rtc (mstep 384 (kernel_tables s1)) (s1, ∅, kernel_tables s1) (s', A, O) /\ stands O (kernel_entries s1) s' A /\
    A !! 0xc0103000 = Some f /\ f 0x8048 = ex_entry /\ tlb s' !! 0x8048 = Some ex_entry /\
    walk (ram (frames s')) 0xc0103000 0x08048123 = Some (0x159123, true, true).
Proof.
  intros F Hroom (s1 & s2 & s3 & s4 & s5 & p & E1 & E2 & E3 & -> & E4 & E5).
  assert (Ok1 : forall c, rtc (mstep 384 (kernel_tables s1)) (s1, ∅, kernel_tables s1) c -> machine_ok (kernel_tables s1) (kernel_entries s1) (ram (frames s1)) c).
  { intros c Hc. by destruct (reached_ok 384 0xc0020000 0xc0030000 m s1 c F ltac:(done) Hroom E1 Hc) as (_ & _ & H). }
  destruct (ex_path s1 s2 s4 s5 p) as (s' & A & O & f & Hr & Hf & Ef & Hc & Ht); [exact Ok1|exact E2|exact E3|exact E4|exact E5|].
  exists s1, s', A, O, f. destruct (Ok1 _ Hr) as [St _]. cbn [fst snd] in St. pose proof St as [_ [T R]].
  assert (Hw : walk (ram (frames s')) 0xc0103000 0x08048123 = Some (0x159123, true, true)).
  { rewrite (walk_user _ _ _ _ _ _ f 0x08048123 R Hf) by done. change (0x08048123 / PGSIZE) with 0x8048. by rewrite Ef. }
  exact (conj (conj F Hroom) (conj E1 (conj Hr (conj St (conj Hf (conj Ef (conj Ht Hw))))))).
Qed.
(** What the machine has reached. *)
Lemma ex_world : exists m s1 s' A O f,
  (fresh_memory m /\ 1 + (384 + 1023) / 1024 <= ba_size (used_map (kernel_pool (frames m)))) /\
  paging_init 384 0xc0020000 0xc0030000 m = Ok (tt, s1) /\
  rtc (mstep 384 (kernel_tables s1)) (s1, ∅, kernel_tables s1) (s', A, O) /\ stands O (kernel_entries s1) s' A /\
  A !! 0xc0103000 = Some f /\ f 0x8048 = ex_entry /\ tlb s' !! 0x8048 = Some ex_entry /\
  walk (ram (frames s')) 0xc0103000 0x08048123 = Some (0x159123, true, true).
Proof. exact (ex_intro _ ex_mmu (ex_outcome ex_mmu ex_fresh ex_room ex_steps)). Qed.

(** ** The properties *)

(** C30: Every operation on page directories does what the specification by maps from user pages to
    entries says: it returns, the reply and the address spaces are those of the specification, and
    only fails when no kernel page is free; every page of the user pool and every kernel page in
    other use is left as it is, but for the
    frames of a directory that is destroyed, which are freed. *)
Theorem pagedir_refines init_ram_pages others kernel_half s A o :
  stands others kernel_half s A -> pop_ok init_ram_pages s A o ->
  exists r s' A', pexec init_ram_pages o s = Ok (r, s') /\ pstep (pool_full false (frames s)) A o r A' /\ stands others kernel_half s' A' /\ effect others A o s s'.
Proof. apply op_refined. Qed.
Lemma pagedir_refines_witness :
  exists s A O kernel_half f r s' A', A !! 0xc0103000 = Some f /\ f 0x8048 = ex_entry /\
    pexec 384 (PClear 0xc0103000 0x08048000) s = Ok (r, s') /\ pstep (pool_full false (frames s)) A (PClear 0xc0103000 0x08048000) r A' /\ stands O kernel_half s' A'.
Proof.
  destruct ex_world as (m & s1 & s & A & O & f & _ & _ & _ & St & Hf & Ef & _).
  destruct (pagedir_refines 384 O (kernel_entries s1) s A (PClear 0xc0103000 0x08048000) St) as (r & s' & A' & E & P & St' & _).
  - split; [exact (ex_intro _ f Hf)|]. split; [split; [discriminate|reflexivity]|reflexivity].
  - by exists s, A, O, (kernel_entries s1), f, r, s', A'.
Defined.

(** From [paging_init] on, whatever the operations on page directories and the rest of the
    system, every page directory maps the physical memory at [PHYS_BASE], for the kernel only, the
    kernel's code read-only and all other pages writable, and nothing else above it. *)
Theorem kernel_always_mapped init_ram_pages text_start text_end s0 s s' A O dir va :
  fresh_memory s0 -> 0 <= init_ram_pages <= 2 ^ 18 -> 1 + (init_ram_pages + 1023) / 1024 <= ba_size (used_map (kernel_pool (frames s0))) ->
  paging_init init_ram_pages text_start text_end s0 = Ok (tt, s) ->
  rtc (mstep init_ram_pages (kernel_tables s)) (s, ∅, kernel_tables s) (s', A, O) ->
  dir = init_page_dir s' \/ is_Some (A !! dir) -> PHYS_BASE <= va < 2 ^ 32 ->
  walk (ram (frames s')) dir va =
    if va - PHYS_BASE <? init_ram_pages * PGSIZE then
      Some (va - PHYS_BASE, negb (in_text text_start text_end (va - va mod PGSIZE)), false)
    else None.
Proof.
  intros F Hp Hroom E Hr Hdir Hva. destruct (reached_ok _ _ _ _ _ _ F Hp Hroom E Hr) as (K & M & MO). by eapply walk_kernel in MO.
Qed.
Lemma kernel_always_mapped_witness :
  exists m s1 s' A O, fresh_memory m /\ paging_init 384 0xc0020000 0xc0030000 m = Ok (tt, s1) /\
    rtc (mstep 384 (kernel_tables s1)) (s1, ∅, kernel_tables s1) (s', A, O) /\
    walk (ram (frames s')) 0xc0103000 0xc0021abc = Some (0x21abc, false, false).
Proof.
  destruct ex_world as (m & s1 & s' & A & O & f & (F & Hroom) & E1 & Hr & _ & Hf & _). exists m, s1, s', A, O.
  split; [exact F|]. split; [exact E1|]. split; [exact Hr|].
  rewrite (kernel_always_mapped 384 0xc0020000 0xc0030000 m s1 s' A O 0xc0103000 0xc0021abc F) by (done || (right; by exists f)). reflexivity.
Defined.

(** C28: No user page of one address space shares memory with another user page, of the same or of
    another address space, and none lies outside the user pool: what user code can reach through
    the page tables is an allocated page of the user pool that no other page reaches. *)
Theorem user_memory_isolated init_ram_pages text_start text_end s0 s s' A O dir va pa w :
  fresh_memory s0 -> 0 <= init_ram_pages <= 2 ^ 18 -> 1 + (init_ram_pages + 1023) / 1024 <= ba_size (used_map (kernel_pool (frames s0))) ->
  paging_init init_ram_pages text_start text_end s0 = Ok (tt, s) ->
  rtc (mstep init_ram_pages (kernel_tables s)) (s, ∅, kernel_tables s) (s', A, O) ->
  dir = init_page_dir s' \/ is_Some (A !! dir) -> 0 <= va < 2 ^ 32 -> walk (ram (frames s')) dir va = Some (pa, w, true) ->
  run_of (frames s') true ((pa + PHYS_BASE) / PGSIZE) 1 /\ allocated (frames s') ((pa + PHYS_BASE) / PGSIZE) = true /\
  forall dir' va' w', dir' = init_page_dir s' \/ is_Some (A !! dir') -> 0 <= va' < 2 ^ 32 ->
    walk (ram (frames s')) dir' va' = Some (pa, w', true) -> dir' = dir /\ va' = va.
Proof.
  intros F Hp Hroom E Hr Hdir Hva Hw. destruct (reached_ok _ _ _ _ _ _ F Hp Hroom E Hr) as (K & M & MO).
  destruct (mo_stands _ _ _ _ MO) as [_ [T R]]. simpl in R.
  destruct (walk_reaches _ _ s K _ _ dir va pa w M Hp MO Hdir Hva Hw) as (_ & _ & Hm). simpl in Hm.
  destruct (rl_frame _ _ _ _ _ R _ _ Hm) as ([Ha Hk] & Hal & Hrun). pose proof (Z.mod_pos_bound va PGSIZE ltac:(done)) as Hvm.
  assert (Ep : (pa + PHYS_BASE) / PGSIZE = (pa - va mod PGSIZE + PHYS_BASE) / PGSIZE).
  { replace (pa + PHYS_BASE) with (pa - va mod PGSIZE + PHYS_BASE + va mod PGSIZE) by lia. by apply page_of. }
  rewrite Ep. split; [done|]. split; [done|]. intros dir' va' w' Hdir' Hva' Hw'.
  destruct (walk_reaches _ _ s K _ _ dir' va' pa w' M Hp MO Hdir' Hva' Hw') as (_ & _ & Hm'). simpl in Hm'.
  destruct (rl_frame _ _ _ _ _ R _ _ Hm') as ([Ha' Hk'] & _). pose proof (Z.mod_pos_bound va' PGSIZE ltac:(done)) as Hvm'.
  assert (Ev : pa - va' mod PGSIZE + PHYS_BASE = pa - va mod PGSIZE + PHYS_BASE).
  { apply aligned_eq; [done..|]. rewrite <- Ep. replace (pa + PHYS_BASE) with (pa - va' mod PGSIZE + PHYS_BASE + va' mod PGSIZE) by lia. symmetry. by apply page_of. }
  rewrite Ev in Hm'. injection (rl_inj _ _ _ _ _ R _ _ _ Hm' Hm) as -> E1. split; [done|].
  rewrite (Z.div_mod va PGSIZE), (Z.div_mod va' PGSIZE), E1 by done. lia.
Qed.
Lemma user_memory_isolated_witness :
  exists m s1 s' A O, fresh_memory m /\ paging_init 384 0xc0020000 0xc0030000 m = Ok (tt, s1) /\
    rtc (mstep 384 (kernel_tables s1)) (s1, ∅, kernel_tables s1) (s', A, O) /\
    walk (ram (frames s')) 0xc0103000 0x08048123 = Some (0x159123, true, true) /\ run_of (frames s') true 0xc0159 1.
Proof.
  destruct ex_world as (m & s1 & s' & A & O & f & (F & Hroom) & E1 & Hr & _ & Hf & _ & _ & Hw). exists m, s1, s', A, O.
  split; [exact F|]. split; [exact E1|]. split; [exact Hr|]. split; [exact Hw|].
  destruct (user_memory_isolated 384 0xc0020000 0xc0030000 m s1 s' A O 0xc0103000 0x08048123 0x159123 true F) as [H _]; try done. right. by exists f.
Defined.

(** C29: The processor's cache of page table entries never shows: whenever the processor uses a
    page of the active address space, with the entry that it has cached or with that in memory, it
    gets what the tables in memory say at that time, the same frame or a page fault, and the
    use is recorded in memory: [pagedir_is_accessed] is true after it, and after a write
    [pagedir_is_dirty], also when the code has cleared these marks before.  A cached entry has the
    frame and the permissions of the tables. *)
Theorem cached_entries_current init_ram_pages text_start text_end s0 s s' A O n (pd := cr3 s' + PHYS_BASE) :
  fresh_memory s0 -> 0 <= init_ram_pages <= 2 ^ 18 -> 1 + (init_ram_pages + 1023) / 1024 <= ba_size (used_map (kernel_pool (frames s0))) ->
  paging_init init_ram_pages text_start text_end s0 = Ok (tt, s) ->
  rtc (mstep init_ram_pages (kernel_tables s)) (s, ∅, kernel_tables s) (s', A, O) -> 0 <= n < USER_PAGES ->
  (forall e, tlb s' !! n = Some e -> walk (ram (frames s')) pd (n * PGSIZE) = Some (Z.land e PTE_ADDR, writable e, user e)) /\
  forall write r s2, touch n write s' = (r, s2) ->
    r = match walk (ram (frames s')) pd (n * PGSIZE) with
        | Some (pa, w, _) => if negb write || w then Some pa else None
        | None => None
        end /\
    (r <> None -> pagedir_is_accessed pd (n * PGSIZE) s2 = Ok (true, s2) /\
                  (write = true -> pagedir_is_dirty pd (n * PGSIZE) s2 = Ok (true, s2))).
Proof.
  intros F Hp Hroom E Hr Hn. destruct (reached_ok _ _ _ _ _ _ F Hp Hroom E Hr) as (K & M & MO).
  pose proof (mo_stands _ _ _ _ MO) as St. pose proof St as [Tl [T R]]. simpl in *. destruct (page_facts n Hn) as (Hva & Ed & _).
  assert (Hw : forall f, A !! pd = Some f -> walk (ram (frames s')) pd (n * PGSIZE) =
    if present (f n) then Some (Z.land (f n) PTE_ADDR, writable (f n), user (f n)) else None).
  { intros f Hf. rewrite (walk_user _ _ _ _ _ _ f _ R Hf Hva). cbv zeta. by rewrite Ed, Z.mod_mul, Z.add_0_r by done. }
  split.
  - intros e He. destruct (Tl n e He Hn) as (f & Hf & Hpr & Hb). destruct (behind_may true e (f n) Hb) as (_ & -> & -> & ->).
    by rewrite (Hw f Hf), Hpr.
  - intros write r s2 Et. destruct (touch_ok _ _ n write s' A St Hn) as (Er & St2 & _). rewrite Et in Er, St2. cbn [fst snd] in Er, St2. fold pd in Er, St2.
    destruct (A !! pd) as [f|] eqn:Hf.
    + rewrite (Hw f eq_refl). rewrite Er. unfold may. split; [by destruct (present (f n))|].
      fold (may write (f n)). destruct (may write (f n)) eqn:Hm; [|done]. intros _. destruct (touched_marks pd n write A f Hf Hm) as (g & Hg & Eg).
      pose proof (fun flag => is_flag_run _ _ s2 _ flag pd g _ St2 Hg Hva) as Hfl. rewrite Ed, Eg in Hfl.
      assert (Hset : forall flag, Z.land (used write (f n)) flag <> 0 -> is_flag flag pd (n * PGSIZE) s2 = Ok (true, s2)).
      { intros flag Hne. by rewrite Hfl, (proj2 (Z.eqb_neq _ 0) Hne). }
      split; [|intros ->]; apply Hset, used_marks; auto; [by left|by right].
    + destruct (rl_cr3 _ _ _ _ _ R) as [Hi|[f Hf']]; [|unfold pd in Hf; congruence]. unfold pd. rewrite Hi, (walk_init _ _ _ _ _ St Hva). by rewrite Er.
Qed.
Lemma cached_entries_current_witness :
  exists m s1 s' A O, fresh_memory m /\ paging_init 384 0xc0020000 0xc0030000 m = Ok (tt, s1) /\
    rtc (mstep 384 (kernel_tables s1)) (s1, ∅, kernel_tables s1) (s', A, O) /\ tlb s' !! 0x8048 = Some ex_entry /\
    walk (ram (frames s')) (cr3 s' + PHYS_BASE) (0x8048 * PGSIZE) = Some (0x159000, true, true) /\
    exists s2, touch 0x8048 true s' = (Some 0x159000, s2) /\ pagedir_is_dirty (cr3 s' + PHYS_BASE) (0x8048 * PGSIZE) s2 = Ok (true, s2).
Proof.
  destruct ex_world as (m & s1 & s' & A & O & f & (F & Hroom) & E1 & Hr & _ & Hf & _ & Ht & _). exists m, s1, s', A, O.
  split; [exact F|]. split; [exact E1|]. split; [exact Hr|]. split; [exact Ht|].
  destruct (cached_entries_current 384 0xc0020000 0xc0030000 m s1 s' A O 0x8048 F ltac:(done) Hroom E1 Hr ltac:(done)) as [H1 H2].
  pose proof (H1 _ Ht) as Hw. split; [rewrite Hw; reflexivity|].
  destruct (touch 0x8048 true s') as [r s2] eqn:Et. destruct (H2 true r s2 Et) as [Er H]. rewrite Hw in Er.
  assert (Er' : r = Some 0x159000) by (rewrite Er; reflexivity). exists s2. rewrite Er' in *. split; [reflexivity|]. by apply H.
Defined.
