(* ===== verification/Process.v ===== *)
(** Loading of user programs: userprog/process.c over page directories, the page allocator and
    the file system, which is an interface here. *)

From stdpp Require Import gmap.
From S2P Require Import Prelude KMonad CString Bitmap Palloc Bytes Paging.

(** ** The file system as [load] uses it *)

(** The operations on files of filesys/filesys.h and filesys/file.h that process.c calls. The
    state [ok s names files] has the contents of the files by name, and the contents and the
    position of each open file. *)
Class FileSys (F : Type) := {
  filesys_open : list Z -> K F (option Z);
  file_read : Z -> Z -> K F (list Z);
  file_seek : Z -> Z -> K F unit;
  file_length : Z -> K F Z;
  file_close : option Z -> K F unit;
  files_ok : F -> gmap (list Z) (list Z) -> gmap Z (list Z * Z) -> Prop;
  fy_data s N H fd bs pos : files_ok s N H -> H !! fd = Some (bs, pos) -> len bs < 2 ^ 31 - 512;
  fy_open s N H name : files_ok s N H -> Forall (fun c => c <> 0) name ->
    exists r s', filesys_open name s = Ok (r, s') /\
      match r with
      | None => N !! name = None /\ files_ok s' N H
      | Some fd => exists bs, N !! name = Some bs /\ H !! fd = None /\ files_ok s' N (<[fd := (bs, 0)]> H)
      end;
  fy_read s N H fd bs pos n : files_ok s N H -> H !! fd = Some (bs, pos) ->
    let out := slice bs pos (Z.min n (len bs - pos)) in
    exists s', file_read fd n s = Ok (out, s') /\ files_ok s' N (<[fd := (bs, pos + len out)]> H);
  fy_seek s N H fd bs pos pos' : files_ok s N H -> H !! fd = Some (bs, pos) -> 0 <= pos' < 2 ^ 31 ->
    exists s', file_seek fd pos' s = Ok (tt, s') /\ files_ok s' N (<[fd := (bs, pos')]> H);
  fy_length s N H fd bs pos : files_ok s N H -> H !! fd = Some (bs, pos) ->
    exists s', file_length fd s = Ok (len bs, s') /\ files_ok s' N H;
  fy_close s N H fd bs pos : files_ok s N H -> H !! fd = Some (bs, pos) ->
    exists s', file_close (Some fd) s = Ok (tt, s') /\ files_ok s' N (delete fd H);
  fy_close_none s : file_close None s = Ok (tt, s)
}.

(** ** ELF *)

Definition half (bs : list Z) (ofs : Z) : Z := le_value (slice bs ofs 2).
Definition word (bs : list Z) (ofs : Z) : Z := le_value (slice bs ofs 4).
Record Elf32_Ehdr := mkEhdr {
  e_ident : list Z; e_type : Z; e_machine : Z; e_version : Z; e_entry : Z; e_phoff : Z; e_shoff : Z; e_flags : Z;
  e_ehsize : Z; e_phentsize : Z; e_phnum : Z; e_shentsize : Z; e_shnum : Z; e_shstrndx : Z
}.
Record Elf32_Phdr := mkPhdr {
  p_type : Z; p_offset : Z; p_vaddr : Z; p_paddr : Z; p_filesz : Z; p_memsz : Z; p_flags : Z; p_align : Z
}.
Definition ehdr_of (bs : list Z) : Elf32_Ehdr :=
  mkEhdr (slice bs 0 16) (half bs 16) (half bs 18) (word bs 20) (word bs 24) (word bs 28) (word bs 32) (word bs 36)
    (half bs 40) (half bs 42) (half bs 44) (half bs 46) (half bs 48) (half bs 50).
Definition phdr_of (bs : list Z) : Elf32_Phdr :=
  mkPhdr (word bs 0) (word bs 4) (word bs 8) (word bs 12) (word bs 16) (word bs 20) (word bs 24) (word bs 28).
Definition sizeof_ehdr : Z := 52.
Definition sizeof_phdr : Z := 32.

Definition PT_LOAD : Z := 1.
Definition PT_DYNAMIC : Z := 2.
Definition PT_INTERP : Z := 3.
Definition PT_SHLIB : Z := 5.
Definition PF_W : Z := 2.
Definition elf_magic : list Z := [0x7f; 69; 76; 70; 1; 1; 1].

(** ** Entering user code *)

(** threads/interrupt.h *)
Record intr_frame := mkFrame {
  if_edi : Z; if_esi : Z; if_ebp : Z; if_esp_dummy : Z; if_ebx : Z; if_edx : Z; if_ecx : Z; if_eax : Z;
  if_gs : Z; if_fs : Z; if_es : Z; if_ds : Z; if_vec_no : Z; if_error_code : Z; if_frame_pointer : Z;
  if_eip : Z; if_cs : Z; if_eflags : Z; if_esp : Z; if_ss : Z
}.
Definition SEL_UCSEG : Z := 0x1b.
Definition SEL_UDSEG : Z := 0x23.
Definition FLAG_MBS : Z := 0x2.
Definition FLAG_IF : Z := 0x200.
Definition entry_frame (eip esp : Z) : intr_frame :=
  mkFrame 0 0 0 0 0 0 0 0 SEL_UDSEG SEL_UDSEG SEL_UDSEG SEL_UDSEG 0 0 0 eip SEL_UCSEG (Z.lor FLAG_IF FLAG_MBS) esp SEL_UDSEG.

(** The string at an address. *)
Fixpoint read_string (fuel : nat) (a : Z) : K ram_t (list Z) :=
  match fuel with
  | O => fun _ => NoFuel
  | S fuel' => c ← CString.load a; if c =? 0 then mret [] else l ← read_string fuel' (a + 1); mret (c :: l)
  end.

(** ** The process *)

(** The memory, the file system, and the page directory of the current thread. *)
Record process F := mkProcess { mem : mmu; fsys : F; pagedir : Z; thread_page : Z; tss_esp0 : Z }.
Arguments mkProcess {F}.
Arguments mem {F}.
Arguments fsys {F}.
Arguments pagedir {F}.
Arguments thread_page {F}.
Arguments tss_esp0 {F}.

(** Bytes stored one after the other. *)
Definition store_bytes (a : Z) (bs : list Z) : K mmu unit := fun s =>
  Ok (tt, set_frames (set_ram (fun x => if within a (len bs) x then default 0 (bs !! Z.to_nat (x - a)) else ram (frames s) x) (frames s)) s).

Section Process.
Context {F : Type} `{!FileSys F} (init_ram_pages : Z).
Implicit Types (s : process F).

Definition on_mem {A} (m : K mmu A) : K (process F) A := fun s =>
  match m (mem s) with
  | Ok (a, x) => Ok (a, mkProcess x (fsys s) (pagedir s) (thread_page s) (tss_esp0 s))
  | Panic => Panic
  | NoFuel => NoFuel
  end.
Definition on_fs {A} (m : K F A) : K (process F) A := fun s =>
  match m (fsys s) with
  | Ok (a, x) => Ok (a, mkProcess (mem s) x (pagedir s) (thread_page s) (tss_esp0 s))
  | Panic => Panic
  | NoFuel => NoFuel
  end.
Definition set_pagedir (pd : Z) : K (process F) unit :=
  modify (fun s => mkProcess (mem s) (fsys s) pd (thread_page s) (tss_esp0 s)).
(** userprog/tss.c *)
Definition tss_update : K (process F) unit :=
  modify (fun s => mkProcess (mem s) (fsys s) (pagedir s) (thread_page s) (u32 (thread_page s + PGSIZE))).

Definition process_activate : K (process F) unit :=
  pd ← gets pagedir; on_mem (pagedir_activate pd);; tss_update.
Definition process_exit : K (process F) unit :=
  pd ← gets pagedir;
  when (negb (pd =? 0)) (set_pagedir 0;; on_mem (pagedir_activate 0);; on_mem (pagedir_destroy pd)).

Definition install_page (upage kpage : Z) (writable : bool) : K (process F) bool :=
  pd ← gets pagedir;
  k ← on_mem (pagedir_get_page pd upage);
  if k =? 0 then on_mem (pagedir_set_page init_ram_pages pd upage kpage writable) else mret false.

(** The stack pointer, if there is memory for a stack. *)
Definition setup_stack : K (process F) (option Z) :=
  kpage ← on_mem (on_frames (palloc_get_page (Z.lor PAL_USER PAL_ZERO)));
  if kpage =? 0 then mret None
  else
    success ← install_page (PHYS_BASE - PGSIZE) kpage true;
    if (success : bool) then mret (Some PHYS_BASE)
    else on_mem (on_frames (palloc_free_page kpage));; mret None.

Definition validate_segment (phdr : Elf32_Phdr) (file : Z) : K (process F) bool :=
  if negb (Z.land (p_offset phdr) PGMASK =? Z.land (p_vaddr phdr) PGMASK) then mret false
  else
    n ← on_fs (file_length file);
    mret (negb (u32 n <? p_offset phdr) &&
      negb (p_memsz phdr <? p_filesz phdr) &&
      negb (p_memsz phdr =? 0) &&
      is_user_vaddr (p_vaddr phdr) &&
      is_user_vaddr (u32 (p_vaddr phdr + p_memsz phdr)) &&
      negb (u32 (p_vaddr phdr + p_memsz phdr) <? p_vaddr phdr) &&
      negb (p_vaddr phdr <? PGSIZE)).

(** One page of a segment; the loop needs a step for each page. *)
Definition load_page (file upage page_read_bytes : Z) (writable : bool) : K (process F) bool :=
  kpage ← on_mem (on_frames (palloc_get_page PAL_USER));
  if kpage =? 0 then mret false
  else
    bs ← on_fs (file_read file page_read_bytes);
    on_mem (store_bytes kpage bs);;
    if negb (len bs =? page_read_bytes) then on_mem (on_frames (palloc_free_page kpage));; mret false
    else
      on_mem (on_ram (memset (u32 (kpage + page_read_bytes)) 0 (PGSIZE - page_read_bytes)));;
      ok ← install_page upage kpage writable;
      if (ok : bool) then mret true else on_mem (on_frames (palloc_free_page kpage));; mret false.
Fixpoint segment_loop (fuel : nat) (file upage read_bytes zero_bytes : Z) (writable : bool) : K (process F) bool :=
  if (0 <? read_bytes) || (0 <? zero_bytes) then
    match fuel with
    | O => fun _ => NoFuel
    | S fuel' =>
        let page_read_bytes := if read_bytes <? PGSIZE then read_bytes else PGSIZE in
        let page_zero_bytes := PGSIZE - page_read_bytes in
        ok ← load_page file upage page_read_bytes writable;
        if (ok : bool) then
          segment_loop fuel' file (u32 (upage + PGSIZE)) (u32 (read_bytes - page_read_bytes)) (u32 (zero_bytes - page_zero_bytes)) writable
        else mret false
    end
  else mret true.
Definition load_segment (file ofs upage read_bytes zero_bytes : Z) (writable : bool) : K (process F) bool :=
  ASSERT (u32 (read_bytes + zero_bytes) mod PGSIZE =? 0);;
  ASSERT (pg_ofs upage =? 0);;
  ASSERT (Z.rem ofs PGSIZE =? 0);;
  on_fs (file_seek file ofs);;
  segment_loop (S (Z.to_nat ((read_bytes + zero_bytes) / PGSIZE))) file upage read_bytes zero_bytes writable.

Definition ROUND_UP (x step : Z) : Z := u32 (u32 (x + step - 1) / step * step).
Definition load_header (file : Z) (phdr : Elf32_Phdr) : K (process F) bool :=
  if (p_type phdr =? PT_DYNAMIC) || (p_type phdr =? PT_INTERP) || (p_type phdr =? PT_SHLIB) then mret false
  else if p_type phdr =? PT_LOAD then
    valid ← validate_segment phdr file;
    if (valid : bool) then
      let writable := negb (Z.land (p_flags phdr) PF_W =? 0) in
      let file_page := Z.land (p_offset phdr) (u32 (Z.lnot PGMASK)) in
      let mem_page := Z.land (p_vaddr phdr) (u32 (Z.lnot PGMASK)) in
      let page_offset := Z.land (p_vaddr phdr) PGMASK in
      let read_bytes := if 0 <? p_filesz phdr then u32 (page_offset + p_filesz phdr) else 0 in
      let zero_bytes := if 0 <? p_filesz phdr then u32 (ROUND_UP (u32 (page_offset + p_memsz phdr)) PGSIZE - read_bytes)
                        else ROUND_UP (u32 (page_offset + p_memsz phdr)) PGSIZE in
      load_segment file (s32 file_page) mem_page read_bytes zero_bytes writable
    else mret false
  else mret true.
Fixpoint load_headers (n : nat) (file file_ofs : Z) : K (process F) bool :=
  match n with
  | O => mret true
  | S n' =>
      if file_ofs <? 0 then mret false
      else
        size ← on_fs (file_length file);
        if size <? file_ofs then mret false
        else
          on_fs (file_seek file file_ofs);;
          bs ← on_fs (file_read file sizeof_phdr);
          if negb (len bs =? sizeof_phdr) then mret false
          else
            ok ← load_header file (phdr_of bs);
            if (ok : bool) then load_headers n' file (s32 (file_ofs + sizeof_phdr)) else mret false
  end.
Definition bad_header (bs : list Z) : bool :=
  let ehdr := ehdr_of bs in
  negb (len bs =? sizeof_ehdr) || negb (bool_decide (slice (e_ident ehdr) 0 7 = elf_magic)) || negb (e_type ehdr =? 2) ||
  negb (e_machine ehdr =? 3) || negb (e_version ehdr =? 1) || negb (e_phentsize ehdr =? sizeof_phdr) || (1024 <? e_phnum ehdr).
(** The entry point and the stack pointer of the program in the open file. *)
Definition load_file (file : Z) : K (process F) (option (Z * Z)) :=
  bs ← on_fs (file_read file sizeof_ehdr);
  if bad_header bs then mret None
  else
    ok ← load_headers (Z.to_nat (e_phnum (ehdr_of bs))) file (s32 (e_phoff (ehdr_of bs)));
    if (ok : bool) then
      esp ← setup_stack;
      mret (match esp with Some esp => Some (e_entry (ehdr_of bs), esp) | None => None end)
    else mret None.
Definition load (file_name : list Z) : K (process F) (option (Z * Z)) :=
  pd ← on_mem pagedir_create;
  set_pagedir pd;;
  if pd =? 0 then on_fs (file_close None);; mret None
  else
    process_activate;;
    file ← on_fs (filesys_open file_name);
    r ← (match file with Some fd => load_file fd | None => mret None end);
    on_fs (file_close file);;
    mret r.

(** The name lies in one page. The frame is the one that [intr_exit] restores; without one the
    thread exits, of which [process_exit] is the part that concerns the process. *)
Definition start_process (file_name : Z) : K (process F) (option intr_frame) :=
  name ← on_mem (on_ram (read_string (Z.to_nat PGSIZE) file_name));
  success ← load name;
  on_mem (on_frames (palloc_free_page file_name));;
  match success with
  | None => process_exit;; mret None
  | Some (eip, esp) => mret (Some (entry_frame eip esp))
  end.
(** The thread is created by [thread_create], which is given the address of the copy. *)
Definition TID_ERROR : Z := -1.
Definition process_execute (fuel : nat) (thread_create : Z -> K (process F) Z) (file_name : Z) : K (process F) Z :=
  fn_copy ← on_mem (on_frames (palloc_get_page 0));
  if fn_copy =? 0 then mret TID_ERROR
  else
    on_mem (on_ram (strlcpy fuel fn_copy file_name PGSIZE));;
    tid ← thread_create fn_copy;
    when (tid =? TID_ERROR) (on_mem (on_frames (palloc_free_page fn_copy)));;
    mret tid.
Definition process_wait (child_tid : Z) : K (process F) Z := mret (-1).
End Process.
