(* ===== verification/ProcessOk.v ===== *)
(** The ELF loader against a description of the program in a file as a list of pages. *)

From stdpp Require Import gmap.
From S2P Require Import Prelude KMonad CString Bitmap Palloc Bytes Paging PagingOk PagingProps PagingBoot Process.

(** ** The specification *)

(** A page of a program: its number, whether it may be written, and its bytes. *)
Record upage := mkUpage { u_no : Z; u_w : bool; u_bytes : list Z }.
Definition page_bytes (bs : list Z) (ofs n : Z) : list Z := slice bs ofs n ++ replicate (Z.to_nat (PGSIZE - n)) 0.
(** [cnt] pages from page [no] on, of which the first [read] bytes are those from [ofs] on. *)
Fixpoint segment_pages (cnt : nat) (bs : list Z) (no ofs read : Z) (w : bool) : list upage :=
  match cnt with
  | O => []
  | S cnt' =>
      let n := Z.min read PGSIZE in mkUpage no w (page_bytes bs ofs n) :: segment_pages cnt' bs (no + 1) (ofs + n) (read - n) w
  end.
Definition seg_valid (bs : list Z) (ph : Elf32_Phdr) : bool :=
  (p_offset ph mod PGSIZE =? p_vaddr ph mod PGSIZE) && (p_offset ph <=? len bs) && (p_filesz ph <=? p_memsz ph) &&
  (0 <? p_memsz ph) && (PGSIZE <=? p_vaddr ph) && (p_vaddr ph + p_memsz ph <? PHYS_BASE).
Definition seg_read (ph : Elf32_Phdr) : Z := if 0 <? p_filesz ph then p_vaddr ph mod PGSIZE + p_filesz ph else 0.
Definition seg_cnt (ph : Elf32_Phdr) : Z := (p_vaddr ph mod PGSIZE + p_memsz ph + (PGSIZE - 1)) / PGSIZE.
Definition seg_ofs (ph : Elf32_Phdr) : Z := p_offset ph - p_offset ph mod PGSIZE.
Definition header_pages (bs : list Z) (ph : Elf32_Phdr) : option (list upage) :=
  if (p_type ph =? PT_DYNAMIC) || (p_type ph =? PT_INTERP) || (p_type ph =? PT_SHLIB) then None
  else if p_type ph =? PT_LOAD then
    if seg_valid bs ph && (seg_ofs ph + seg_read ph <=? len bs) then
      Some (segment_pages (Z.to_nat (seg_cnt ph)) bs (p_vaddr ph / PGSIZE) (seg_ofs ph) (seg_read ph) (negb (Z.land (p_flags ph) PF_W =? 0)))
    else None
  else Some [].
Fixpoint headers_pages (n : nat) (bs : list Z) (ofs : Z) : option (list upage) :=
  match n with
  | O => Some []
  | S n' =>
      if ofs + sizeof_phdr <=? len bs then
        match header_pages bs (phdr_of (slice bs ofs sizeof_phdr)) with
        | Some ps => app ps <$> headers_pages n' bs (ofs + sizeof_phdr)
        | None => None
        end
      else None
  end.
Definition stack_page : upage := mkUpage (PHYS_BASE / PGSIZE - 1) true (replicate (Z.to_nat PGSIZE) 0).
(** The entry point and the pages of the program in a file. *)
Definition program (bs : list Z) : option (Z * list upage) :=
  let hd := slice bs 0 sizeof_ehdr in
  if bad_header hd then None
  else match headers_pages (Z.to_nat (e_phnum (ehdr_of hd))) bs (e_phoff (ehdr_of hd)) with
       | Some ps => Some (e_entry (ehdr_of hd), ps ++ [stack_page])
       | None => None
       end.

(** ** Steps of memory *)

Section Memory.
Context (O : Z -> Prop) (kernel_half : Z -> Z).
Implicit Types (s : mmu) (A : aspaces).
Abbreviation stand := (stands O kernel_half).

Lemma machine_of s A : stand s A -> machine_ok (fun _ => False) kernel_half (fun _ => 0) (s, A, O).
Proof. intros H. by split. Qed.
Lemma stands_step s A s' : stand s A -> elsewhere (fun _ => False) A O s O s' -> stand s' A.
Proof. apply elsewhere_stands. Qed.

(** A page of the user pool is allocated, written and freed. *)
Lemma user_alloc s A flags :
  stand s A -> has_flag flags PAL_USER = true -> has_flag flags PAL_ASSERT = false ->
  (palloc_get_page flags (frames s) = Ok (0, frames s) /\ pool_full true (frames s)) \/
  exists a p, palloc_get_page flags (frames s) = Ok (a, p) /\ a <> 0 /\ got flags 1 (frames s) a p /\
    stand (set_frames p s) A /\ user_frame (set_frames p s) a /\ forall x, ~ maps A x a.
Proof.
  intros St Hu Ha. destruct St as [Tl [T R]].
  destruct (palloc_get_multiple_ok flags 1 (frames s) (sp_pages _ _ (rl_spaces _ _ _ _ _ R))) as [(a & p & E & G)|[Hf E]]; [lia| |].
  - right. exists a, p. destruct (alloc_elsewhere (fun _ => False) kernel_half (fun _ => 0) flags s A O a p) as (El & Huf & Hno); [|done..|].
    { apply machine_of. split; eauto. }
    split; [done|]. split; [destruct (gt_addr _ _ _ _ _ G); lia|]. split; [done|]. split; [|done]. eapply stands_step; [split; eauto|done].
  - left. rewrite Ha in E. split; [done|]. rewrite <- Hu. by apply full_pool.
Qed.
Definition poked s (m : ram_t) : mmu := set_frames (set_ram m (frames s)) s.
Lemma user_poke s A a m :
  stand s A -> run_of (frames s) true (a / PGSIZE) 1 -> byte_ram m -> (forall x, x / PGSIZE <> a / PGSIZE -> m x = ram (frames s) x) -> stand (poked s m) A.
Proof.
  intros St Hu Hb Hm. eapply stands_step; [exact St|]. destruct St as [Tl [T R]]. pose proof R as [S R2 R3 R4 R5 R6 R7 R8 R9].
  assert (Hk : forall n, run_of (frames s) false n 1 -> n <> a / PGSIZE).
  { intros n [L1 L2] ->. destruct Hu as [J1 J2], (sp_pages _ _ S) as [_ _ Hap]. simpl in *. lia. }
  split; try done.
  - apply pages_ok_ram, S.
  - intros n Hr Ha Ho. split; [done|]. split; [done|]. intros x <-. by apply Hm, Hk.
  - intros n Ho. by destruct (R7 n Ho) as (_ & ? & ?).
  - intros n Hr Ha. destruct (R8 n Hr Ha) as [Hn|Ho]; [|by left]. right. split; [done|]. intros Ho. by apply R7 in Ho as [? _].
  - intros y k Hm'. by apply (R4 y).
Qed.
(** What freeing a page changes. *)
Lemma freed_page a (p p' : pages bitmap) : freed a 1 p p' -> a mod PGSIZE = 0 ->
  allocated p' (a / PGSIZE) = false /\ forall n, n <> a / PGSIZE ->
    allocated p' n = allocated p n /\ forall x, x / PGSIZE = n -> ram p' x = ram p x.
Proof.
  intros [F1 F2 F3 F4] Ha. split; [rewrite F3; unfold within; by case_cmp|]. intros n Hn. split.
  - rewrite F3. unfold within. destruct ((a / PGSIZE <=? n) && (n <? a / PGSIZE + 1)) eqn:Ew; [reflect_bools; lia|done].
  - intros x Hx. rewrite F4. unfold within. destruct ((a <=? x) && (x <? a + PGSIZE * 1)) eqn:Ew; [|done]. reflect_bools. destruct Hn.
    rewrite <- Hx. replace x with (a + (x - a)) by lia. apply page_of; [done|lia].
Qed.
Lemma user_free s A a :
  stand s A -> user_frame s a -> (forall x, ~ maps A x a) ->
  exists p, palloc_free_page a (frames s) = Ok (tt, p) /\ freed a 1 (frames s) p /\ stand (set_frames p s) A.
Proof.
  intros St (Hk & Hal & Hu) Hno. pose proof St as [Tl [T R]]. pose proof R as [S R2 R3 R4 R5 R6 R7 R8 R9]. pose proof Hk as [Ham Hkr].
  destruct (palloc_free_multiple_ok true a 1 (frames s)) as [(p & E & Fr & _)|(_ & n & Hn & Hf)];
    [apply S|unfold PHYS_BASE in Hkr; lia|done|lia|done| |assert (n = a / PGSIZE) as -> by lia; congruence].
  exists p. split; [done|]. split; [done|]. eapply stands_step; [exact St|]. destruct (freed_page _ _ _ Fr Ham) as [_ Hout]. destruct Fr as [F1 F2 F3 F4].
  assert (Hkn : forall n, run_of (frames s) false n 1 -> n <> a / PGSIZE).
  { intros n [L1 L2] ->. destruct Hu as [J1 J2], (sp_pages _ _ S) as [_ _ Hap]. simpl in *. lia. }
  split; try done.
  - intros x. simpl. rewrite F4. destruct (within _ _ _); [done|apply S].
  - intros n Hr Ha Ho. split; [done|]. simpl. rewrite <- Ha. apply (Hout n), Hkn, Hr.
  - intros n Ho. destruct (R7 n Ho) as (_ & ? & ?). split; [done|]. simpl. by rewrite (proj1 (Hout n (Hkn n ltac:(done)))).
  - intros n Hr Ha. simpl in Ha. rewrite (proj1 (Hout n (Hkn n Hr))) in Ha. destruct (R8 n Hr Ha) as [Hn|Ho]; [|by left]. right. split; [done|]. intros Ho. by apply R7 in Ho as [? _].
  - intros y k Hm. destruct (R4 y k Hm) as ([K1 _] & K2 & _). simpl. rewrite (proj1 (Hout (k / PGSIZE) ltac:(intros E1; apply (Hno y); by rewrite <- (aligned_eq _ _ K1 Ham E1)))). done.
Qed.
End Memory.

(** ** The address space while it is built *)

Section Build.
Context (init_ram_pages : Z) (O : Z -> Prop) (kernel_half : Z -> Z) (s0 : mmu) (A0 : aspaces) (pd : Z).
Hypothesis Hram : forall n, run_of (frames s0) true n 1 -> n - PHYS_BASE / PGSIZE < init_ram_pages.
Hypothesis Hpd : A0 !! pd = None.
Implicit Types (s : mmu) (f : Z -> Z) (ps : list upage).

Definition holds_page (m : ram_t) (k : Z) (bytes : list Z) : Prop :=
  length bytes = Z.to_nat PGSIZE /\ forall i, 0 <= i < PGSIZE -> bytes !! Z.to_nat i = Some (m (k + i)).
(** The pages [ps] are in the address space [f] of [pd]; [extra] is a page that has been
    allocated and is not yet mapped. *)
Record loaded ps (extra : option Z) s f : Prop := {
  ld_stands : stands O kernel_half s (<[pd := f]> A0);
  ld_only n : 0 <= n < USER_PAGES -> n ∉ (u_no <$> ps) -> f n = 0;
  ld_page u : u ∈ ps -> 0 <= u_no u < USER_PAGES /\
    exists k, kpage_ok k /\ f (u_no u) = user_entry k (u_w u) /\ holds_page (ram (frames s)) k (u_bytes u);
  ld_nodup : NoDup (u_no <$> ps);
  ld_used n : run_of (frames s0) true n 1 ->
    allocated (frames s) n = true <->
    allocated (frames s0) n = true \/ (exists m k, maps (<[pd := f]> A0) (pd, m) k /\ n = k / PGSIZE) \/ extra = Some n;
  ld_extra n : extra = Some n -> allocated (frames s0) n = false /\ forall x k, maps (<[pd := f]> A0) x k -> k / PGSIZE <> n;
  ld_fresh m k : maps (<[pd := f]> A0) (pd, m) k -> allocated (frames s0) (k / PGSIZE) = false;
  ld_ram x : (run_of (frames s0) true (x / PGSIZE) 1 /\ allocated (frames s0) (x / PGSIZE) = true) \/ O (x / PGSIZE) ->
    ram (frames s) x = ram (frames s0) x;
  ld_pools : same_pools (frames s0) (frames s);
  ld_active : cr3 s + PHYS_BASE = pd
}.
Lemma holds_page_ext m m' k bytes : (forall x, x / PGSIZE = k / PGSIZE -> m' x = m x) -> k mod PGSIZE = 0 -> holds_page m k bytes -> holds_page m' k bytes.
Proof. intros Hm Hk [Hl H]. split; [done|]. intros i Hi. rewrite Hm; [by apply H|by apply page_of]. Qed.
Lemma extra_maps ps extra s f k :
  loaded ps extra s f -> (exists x, maps (<[pd := f]> A0) x k) -> run_of (frames s0) true (k / PGSIZE) 1 /\ allocated (frames s) (k / PGSIZE) = true.
Proof.
  intros L [x Hm]. destruct (ld_stands _ _ _ _ L) as [_ [T R]]. destruct (rl_frame _ _ _ _ _ R x k Hm) as (_ & Ha & Hu). split; [|done].
  by rewrite <- (same_pools_run _ _ true _ 1 (ld_pools _ _ _ _ L)).
Qed.

(** The memory of a page that is not in use changes. *)
Lemma loaded_memory ps extra extra' s s' f (a : Z) :
  loaded ps extra s f -> stands O kernel_half s' (<[pd := f]> A0) -> same_pools (frames s) (frames s') -> cr3 s' = cr3 s ->
  run_of (frames s0) true (a / PGSIZE) 1 ->
  (forall x, x / PGSIZE <> a / PGSIZE -> ram (frames s') x = ram (frames s) x) ->
  (forall n, n <> a / PGSIZE -> allocated (frames s') n = allocated (frames s) n) ->
  (forall n, extra = Some n -> n = a / PGSIZE) ->
  (forall x k, maps (<[pd := f]> A0) x k -> k / PGSIZE <> a / PGSIZE) -> allocated (frames s0) (a / PGSIZE) = false ->
  extra' = (if allocated (frames s') (a / PGSIZE) then Some (a / PGSIZE) else None) ->
  loaded ps extra' s' f.
Proof.
  intros L St Hsame Hc Hau Hmem Hal Hex Hno Ha0 ->. pose proof L as [L1 L2 L3 L4 L5 L6 Lf L7 L8 L9]. split; try done.
  - intros u Hu. destruct (L3 u Hu) as (Hn & k & Hk & Ef & Hp). split; [done|]. exists k. split; [done|]. split; [done|].
    eapply holds_page_ext; [|apply Hk|done]. intros x Hx. apply Hmem. rewrite Hx. eapply (Hno (pd, u_no u)).
    exists f. cbn [fst snd]. rewrite lookup_insert_eq, Ef. destruct (user_entry_facts k (u_w u) Hk) as (P & _). by rewrite user_entry_frame.
  - intros n Hn. destruct (decide (n = a / PGSIZE)) as [->|Hne].
    + destruct (allocated (frames s') (a / PGSIZE)) eqn:E; [tauto|]. split; [done|]. rewrite Ha0. intros [?|[(m & k & Hm & Ek)|?]]; [done| |done].
      by destruct (Hno _ _ Hm).
    + rewrite Hal, (L5 n Hn) by done. split; intros [?|[?|E]]; [tauto|tauto|by apply Hex in E|tauto|tauto|].
      destruct (allocated (frames s') (a / PGSIZE)); congruence.
  - intros n. destruct (allocated (frames s') (a / PGSIZE)); [intros [= <-]; split; done|done].
  - intros x Hx. rewrite <- L7 by done. apply Hmem. intros E. rewrite E in Hx. destruct Hx as [[_ Hx]|Ho]; [congruence|].
    destruct L1 as [_ [T R]]. destruct (rl_others _ _ _ _ _ R _ Ho) as (_ & _ & Hr). rewrite (same_pools_run _ _ false _ 1 L8) in Hr.
    destruct Hr as [J1 J2], Hau as [K1 K2], (sp_pages _ _ (rl_spaces _ _ _ _ _ R)) as [_ _ Hap].
    destruct (L8 false) as [E1 E2], (L8 true) as [E3 E4]. simpl in *. lia.
  - by eapply same_pools_trans.
  - by rewrite Hc.
Qed.
Lemma loaded_run ps extra s f n : loaded ps extra s f -> run_of (frames s) true n 1 <-> run_of (frames s0) true n 1.
Proof. intros L. apply (same_pools_run _ _ true n 1 (ld_pools _ _ _ _ L)). Qed.
Lemma loaded_alloc ps s f flags :
  loaded ps None s f -> has_flag flags PAL_USER = true -> has_flag flags PAL_ASSERT = false ->
  (palloc_get_page flags (frames s) = Ok (0, frames s) /\ pool_full true (frames s)) \/
  exists a p, palloc_get_page flags (frames s) = Ok (a, p) /\ a <> 0 /\ got flags 1 (frames s) a p /\
    loaded ps (Some (a / PGSIZE)) (set_frames p s) f /\ user_frame (set_frames p s) a.
Proof.
  intros L Hu Ha. destruct (user_alloc O kernel_half s _ flags (ld_stands _ _ _ _ L) Hu Ha) as [H|(a & p & E & Hnz & G & St & Huf & Hno)]; [by left|right].
  exists a, p. split; [done|]. split; [done|]. split; [done|]. split; [|done]. pose proof G as [G1 G2 (A1 & A2 & A3) G4 G5 G6 G7].
  destruct Huf as (Hk & Hal & Hr). rewrite Hu in G4. rewrite (loaded_run _ _ _ _ _ L) in G4.
  assert (Hfree : allocated (frames s0) (a / PGSIZE) = false).
  { destruct (allocated (frames s0) (a / PGSIZE)) eqn:E0; [|done]. assert (allocated (frames s) (a / PGSIZE) = true) as Hx by (apply (ld_used _ _ _ _ L); [done|by left]).
    rewrite G5 in Hx by lia. done. }
  eapply (loaded_memory ps None _ s _ f a); try done.
  - intros x Hx. simpl. rewrite G7. destruct (has_flag flags PAL_ZERO); [|done]. simpl. unfold within. destruct ((a <=? x) && (x <? a + PGSIZE * 1)) eqn:Ew; [|done].
    reflect_bools. destruct Hx. replace x with (a + (x - a)) by lia. apply page_of; [done|lia].
  - intros n Hn. simpl. rewrite G6. unfold within. destruct ((a / PGSIZE <=? n) && (n <? a / PGSIZE + 1)) eqn:Ew; [reflect_bools; lia|done].
  - intros x k Hm Ek. destruct (extra_maps _ _ _ _ k L) as [_ Hx]; [eauto|]. rewrite Ek, G5 in Hx by lia. done.
  - by rewrite Hal.
Qed.
Lemma loaded_apart ps s f a x : loaded ps (Some (a / PGSIZE)) s f -> ~ maps (<[pd := f]> A0) x a.
Proof. intros L Hm. by apply (proj2 (ld_extra _ _ _ _ L _ eq_refl) x a Hm). Qed.
Lemma loaded_poke ps s f a m :
  loaded ps (Some (a / PGSIZE)) s f -> user_frame s a -> byte_ram m ->
  (forall x, x / PGSIZE <> a / PGSIZE -> m x = ram (frames s) x) -> loaded ps (Some (a / PGSIZE)) (poked s m) f.
Proof.
  intros L (Hk & Hal & Hr) Hb Hm.
  eapply (loaded_memory ps (Some (a / PGSIZE)) _ s _ f a); try done.
  - by eapply user_poke; [apply L|..].
  - by rewrite <- (loaded_run _ _ _ _ _ L).
  - by intros n [= <-].
  - by apply (ld_extra _ _ _ _ L).
  - by apply (ld_extra _ _ _ _ L).
  - change (allocated (frames (poked s m)) (a / PGSIZE)) with (allocated (frames s) (a / PGSIZE)). by rewrite Hal.
Qed.
Lemma loaded_free ps s f a :
  loaded ps (Some (a / PGSIZE)) s f -> user_frame s a ->
  exists p, palloc_free_page a (frames s) = Ok (tt, p) /\ loaded ps None (set_frames p s) f /\ (pool_full false (frames s) -> pool_full false p).
Proof.
  intros L (Hk & Hal & Hr). pose proof (fun x => loaded_apart ps s f a x L) as Hno. destruct (user_free O kernel_half s _ a (ld_stands _ _ _ _ L)) as (p & E & [F1 F2 F3 F4] & St); [done..|].
  assert (Hne : forall n, n <> a / PGSIZE -> allocated p n = allocated (frames s) n).
  { intros n Hn. rewrite F3. unfold within. destruct ((a / PGSIZE <=? n) && (n <? a / PGSIZE + 1)) eqn:Ew; [reflect_bools; lia|done]. }
  exists p. split; [done|]. split.
  - eapply (loaded_memory ps (Some (a / PGSIZE)) _ s _ f a); try done.
    + by rewrite <- (loaded_run _ _ _ _ _ L).
    + intros x Hx. simpl. rewrite F4. unfold within. destruct ((a <=? x) && (x <? a + PGSIZE * 1)) eqn:Ew; [|done]. reflect_bools. destruct Hx.
      replace x with (a + (x - a)) by lia. apply page_of; [apply Hk|lia].
    + by intros n [= <-].
    + by apply (ld_extra _ _ _ _ L).
    + by apply (ld_extra _ _ _ _ L).
    + simpl. rewrite F3. unfold within. by case_cmp.
  - intros Hf n Hn. rewrite (same_pools_run _ _ false n 1 F2) in Hn. rewrite Hne; [by apply Hf|]. intros ->.
    destruct (ld_stands _ _ _ _ L) as [_ [T R]]. destruct Hn as [L1 L2], Hr as [J1 J2], (sp_pages _ _ (rl_spaces _ _ _ _ _ R)) as [_ _ Hap]. simpl in *. lia.
Qed.

Lemma loaded_entry ps extra s f n :
  loaded ps extra s f -> 0 <= n < USER_PAGES ->
  ((n ∉ (u_no <$> ps)) /\ f n = 0) \/ (n ∈ (u_no <$> ps) /\ exists k w, kpage_ok k /\ f n = user_entry k w).
Proof.
  intros L Hn. destruct (decide (n ∈ (u_no <$> ps))) as [Hin|Hout]; [right|left; split; [done|by apply (ld_only _ _ _ _ L)]]. split; [done|].
  apply list_elem_of_fmap in Hin as (u & -> & Hu). destruct (ld_page _ _ _ _ L u Hu) as (_ & k & Hk & E & _). eauto.
Qed.
(** The frames of the address space with one more page. *)
Lemma maps_more f n e m k :
  0 <= n < USER_PAGES -> f n = 0 -> present e = true ->
  maps (<[pd := set_entry n e f]> A0) (pd, m) k <-> (m = n /\ k = frame e) \/ maps (<[pd := f]> A0) (pd, m) k.
Proof.
  intros Hn Hz He. unfold maps. cbn [fst snd]. rewrite !lookup_insert_eq. split.
  - intros (g & [= <-] & Hm & Hp & <-). unfold set_entry in *. destruct (Z.eqb_spec m n) as [->|]; [by left|right; by exists f].
  - intros [[-> ->]|(g & [= <-] & Hm & Hp & <-)]; (eexists; split; [done|]; split; [done|]); unfold set_entry.
    + by rewrite Z.eqb_refl.
    + destruct (Z.eqb_spec m n) as [->|]; [by rewrite Hz in Hp|done].
Qed.
Lemma loaded_more ps s f a va w bytes s' (n := va / PGSIZE) :
  loaded ps (Some (a / PGSIZE)) s f -> user_frame s a -> user_addr va -> n ∉ (u_no <$> ps) -> holds_page (ram (frames s)) a bytes ->
  stands O kernel_half s' (<[pd := set_entry n (user_entry a w) f]> A0) -> keeps_user O s s' -> cr3 s' = cr3 s ->
  loaded (ps ++ [mkUpage n w bytes]) None s' (set_entry n (user_entry a w) f).
Proof.
  intros L (Hk & Hal & Hr) Hva Hn Hb St [K1 K2 K3] Hc. destruct (user_addr_facts va Hva) as (_ & Hnr & _). fold n in Hnr.
  pose proof L as [L1 L2 L3 L4 L5 L6 Lf L7 L8 L9]. pose proof (L2 n Hnr Hn) as Hz. destruct (user_entry_facts a w Hk) as (Hp & _).
  assert (Hmem : forall k x, run_of (frames s) true (k / PGSIZE) 1 -> x / PGSIZE = k / PGSIZE -> ram (frames s') x = ram (frames s) x).
  { intros k x Hu Hx. apply K2. left. by rewrite Hx. }
  assert (Hm := fun m k => maps_more f n (user_entry a w) m k Hnr Hz Hp). rewrite user_entry_frame in Hm by done.
  split; try done.
  - intros i Hi Hin. rewrite fmap_app, not_elem_of_app in Hin. destruct Hin as [Hi1 Hi2]. unfold set_entry.
    destruct (Z.eqb_spec i n) as [->|]; [destruct Hi2; by left|by apply L2].
  - intros u Hu. apply elem_of_app in Hu as [Hu|Hu%list_elem_of_singleton].
    + destruct (L3 u Hu) as (Hun & k & Hku & E & Hpg). split; [done|]. exists k. split; [done|]. unfold set_entry.
      destruct (Z.eqb_spec (u_no u) n) as [En|]; [destruct Hn; rewrite <- En; apply list_elem_of_fmap; eauto|]. split; [done|].
      eapply holds_page_ext; [|apply Hku|done]. intros x. apply Hmem. destruct L1 as [_ [T R]].
      assert (Hmu : maps (<[pd := f]> A0) (pd, u_no u) k).
      { exists f. cbn [fst snd]. rewrite lookup_insert_eq, E. destruct (user_entry_facts k (u_w u) Hku) as (P & _). by rewrite user_entry_frame. }
      by apply (rl_frame _ _ _ _ _ R _ _ Hmu).
    + subst u. simpl. split; [done|]. exists a. split; [done|]. unfold set_entry. rewrite Z.eqb_refl. split; [done|].
      eapply holds_page_ext; [|apply Hk|done]. intros x. by apply Hmem.
  - rewrite fmap_app. apply NoDup_app. split; [done|]. split; [|apply NoDup_singleton]. intros i Hi Hi2%list_elem_of_singleton. by subst i.
  - intros i Hi. rewrite K3 by (left; by rewrite (loaded_run _ _ _ _ _ L)). rewrite (L5 i Hi). setoid_rewrite Hm. split.
    + intros [?|[(m & k & ? & ->)|[= <-]]]; [by left|right; left; eauto|right; left; exists n, a; split; [by left|done]].
    + intros [?|[(m & k & [[-> ->]|?] & ->)|?]]; [by left|by right; right|right; left; eauto|done].
  - intros m k [[-> ->]|Hmk]%Hm; [by apply L6|by eapply Lf].
  - intros x Hx. rewrite <- L7 by done. apply K2. destruct Hx as [[Hx _]|Hx]; [left; by rewrite (loaded_run _ _ _ _ _ L)|by right].
  - by eapply same_pools_trans.
  - by rewrite Hc.
Qed.
Lemma loaded_install ps s f a va w bytes :
  loaded ps (Some (a / PGSIZE)) s f -> user_frame s a -> user_addr va -> va mod PGSIZE = 0 ->
  holds_page (ram (frames s)) a bytes ->
  (exists k, pagedir_get_page pd va s = Ok (k, s) /\ k <> 0 /\ va / PGSIZE ∈ (u_no <$> ps)) \/
  (pagedir_get_page pd va s = Ok (0, s) /\ (va / PGSIZE ∉ (u_no <$> ps)) /\
   ((pagedir_set_page init_ram_pages pd va a w s = Ok (false, s) /\ pool_full false (frames s)) \/
    exists s' f', pagedir_set_page init_ram_pages pd va a w s = Ok (true, s') /\ loaded (ps ++ [mkUpage (va / PGSIZE) w bytes]) None s' f')).
Proof.
  intros L Huf Hva Hvm Hb. pose proof (fun x => loaded_apart ps s f a x L) as Hno. destruct (user_addr_facts va Hva) as (_ & Hn & _). pose proof (ld_stands _ _ _ _ L) as St.
  assert (Hf : (<[pd := f]> A0) !! pd = Some f) by apply lookup_insert_eq.
  pose proof (get_page_run O kernel_half s _ pd f va St Hf Hva) as Eg. destruct (loaded_entry _ _ _ _ _ L Hn) as [[Hout E]|[Hin (k & w' & Hk & E)]].
  - right. rewrite E in Eg. split; [done|]. split; [done|].
    destruct (set_page_run init_ram_pages O kernel_half s _ pd f va a w St Hf) as [H|(s' & Es & St' & Ku & Hc)]; [|by left|right].
    + split; [exists f; by rewrite E|]. split; [done|]. split; [done|]. split; [done|]. split; [done|].
      destruct Huf as ((Ha & _) & _ & Hr). rewrite (loaded_run _ _ _ _ _ L) in Hr. specialize (Hram _ Hr).
      replace ((a - PHYS_BASE) / PGSIZE) with (a / PGSIZE - PHYS_BASE / PGSIZE); [done|]. unfold PHYS_BASE, PGSIZE in *.
      replace (a - 0xc0000000) with (a + (- 0xc0000) * 4096) by lia. rewrite Z.div_add by done. change (0xc0000000 / 4096) with 0xc0000. lia.
    + rewrite insert_insert_eq in St'. exists s', (set_entry (va / PGSIZE) (user_entry a w) f). split; [done|]. by eapply loaded_more.
  - left. rewrite E in Eg. destruct (user_entry_facts k w' Hk) as (P & _). rewrite P, user_entry_frame in Eg by done. eexists. split; [exact Eg|]. split; [|done].
    destruct Hk as [_ Hk]. pose proof (Z.mod_pos_bound va PGSIZE ltac:(done)). unfold PHYS_BASE in *. lia.
Qed.

(** *** Filling a page *)
Lemma memset_rest a n m : kpage_ok a -> 0 <= n <= PGSIZE ->
  exists d m', memset (u32 (a + n)) 0 (PGSIZE - n) m = Ok (d, m') /\ forall x, m' x = if within (a + n) (PGSIZE - n) x then 0 else m x.
Proof.
  intros [Ham Hr] Hn. pose proof (Z.div_mod a PGSIZE ltac:(done)) as E. rewrite Ham in E. unfold PHYS_BASE, PGSIZE in *.
  destruct (decide (n = 4096)) as [->|Hne].
  - exists (u32 (a + 4096)), m. split.
    + unfold memset, block_arg. change (4096 - 4096) with 0. change (0 =? 0) with true. rewrite orb_true_r. by rewrite ASSERT_true.
    + intros x. unfold within. case_cmp; (done || lia).
  - rewrite wrapu_small by lia. destruct (memset_ok (a + n) 0 (4096 - n) m) as (m' & Em & Hm); [lia|lia|].
    exists (a + n), m'. split; [done|]. intros x. by rewrite Hm.
Qed.
Definition filled (a n : Z) (out : list Z) (m : ram_t) : ram_t := fun x =>
  if within (a + n) (PGSIZE - n) x then 0 else if within a (len out) x then default 0 (out !! Z.to_nat (x - a)) else m x.
Lemma filled_page a n out m : len out = n -> 0 <= n <= PGSIZE -> holds_page (filled a n out m) a (out ++ replicate (Z.to_nat (PGSIZE - n)) 0).
Proof.
  intros Hl Hn. split; [rewrite length_app, length_replicate; unfold PGSIZE in *; lia|]. intros i Hi. unfold filled, within.
  destruct (Z.lt_ge_cases i n).
  - rewrite lookup_app_l by lia. rewrite (proj2 (Z.leb_gt (a + n) (a + i))) by lia. cbn [andb]. rewrite (proj2 (Z.leb_le a (a + i))), (proj2 (Z.ltb_lt (a + i) _)) by lia.
    cbn [andb]. replace (a + i - a) with i by lia. destruct (out !! Z.to_nat i) eqn:E; [done|]. apply lookup_ge_None in E. lia.
  - rewrite lookup_app_r by lia. rewrite (proj2 (Z.leb_le (a + n) (a + i))), (proj2 (Z.ltb_lt (a + i) _)) by lia. cbn [andb].
    apply lookup_replicate. split; [done|lia].
Qed.
Lemma filled_bytes a n out m : byte_ram m -> Forall byte out -> byte_ram (filled a n out m).
Proof.
  intros Hm Ho x. unfold filled. destruct (within (a + n) (PGSIZE - n) x); [done|]. destruct (within a (len out) x); [|apply Hm].
  destruct (out !! Z.to_nat (x - a)) as [b|] eqn:E; [|done]. by apply (Forall_lookup_1 _ _ _ _ Ho E).
Qed.
Lemma filled_outside a n out m x : a mod PGSIZE = 0 -> len out <= n <= PGSIZE -> 0 <= n -> x / PGSIZE <> a / PGSIZE -> filled a n out m x = m x.
Proof.
  intros Ha Hn H0 Hx. assert (Ho : ~ (a <= x < a + PGSIZE)).
  { intros H. apply Hx. replace x with (a + (x - a)) by lia. apply page_of; [done|lia]. }
  unfold filled, within. case_cmp; (done || lia).
Qed.

(** *** The loader *)
Section Load.
Context {F : Type} `{!FileSys F} (N : gmap (list Z) (list Z)) (H : gmap Z (list Z * Z)) (fd : Z) (bs : list Z).
Hypothesis Hbytes : Forall byte bs.
Implicit Types (p : process F).

(** The process while the program in the open file [fd] is loaded. *)
Definition at_load ps (extra : option Z) (pos : Z) p : Prop :=
  pagedir p = pd /\ files_ok (fsys p) N (<[fd := (bs, pos)]> H) /\ 0 <= pos /\ exists f, loaded ps extra (mem p) f.
Definition exhausted p : Prop := pool_full true (frames (mem p)) \/ pool_full false (frames (mem p)).
Definition with_mem p (m : mmu) : process F := mkProcess m (fsys p) (pagedir p) (thread_page p) (tss_esp0 p).
Definition with_fs p (x : F) : process F := mkProcess (mem p) x (pagedir p) (thread_page p) (tss_esp0 p).
Lemma on_mem_ok {A} (m : K mmu A) p a x : m (mem p) = Ok (a, x) -> on_mem m p = Ok (a, with_mem p x).
Proof. unfold on_mem. by intros ->. Qed.
Lemma on_fs_ok {A} (m : K F A) p a x : m (fsys p) = Ok (a, x) -> on_fs m p = Ok (a, with_fs p x).
Proof. unfold on_fs. by intros ->. Qed.
Lemma file_data pos p : files_ok (fsys p) N (<[fd := (bs, pos)]> H) -> Forall byte bs /\ len bs < 2 ^ 31 - 512.
Proof. intros Hf. split; [done|]. eapply fy_data; [exact Hf|apply lookup_insert_eq]. Qed.
Lemma process_read_ok pos p n (out := slice bs pos (Z.min n (len bs - pos))) :
  files_ok (fsys p) N (<[fd := (bs, pos)]> H) ->
  exists x, on_fs (file_read fd n) p = Ok (out, with_fs p x) /\ files_ok x N (<[fd := (bs, pos + len out)]> H).
Proof.
  intros Hf. destruct (fy_read _ _ _ fd bs pos n Hf) as (x & E & Hx); [apply lookup_insert_eq|].
  exists x. split; [by apply on_fs_ok|]. by rewrite insert_insert_eq in Hx.
Qed.

(** A free frame that has been filled is installed, or freed. *)
Lemma install_page_ok ps pos p a va w bytes :
  at_load ps (Some (a / PGSIZE)) pos p -> user_frame (mem p) a ->
  user_addr va -> va mod PGSIZE = 0 -> holds_page (ram (frames (mem p))) a bytes ->
  exists b p', (ok ← install_page init_ram_pages va a w; if (ok : bool) then mret true else on_mem (on_frames (palloc_free_page a));; mret false) p = Ok (b, p') /\
    if (b : bool) then (va / PGSIZE ∉ (u_no <$> ps)) /\ at_load (ps ++ [mkUpage (va / PGSIZE) w bytes]) None pos p'
    else at_load ps None pos p' /\ (exhausted p' \/ va / PGSIZE ∈ (u_no <$> ps)).
Proof.
  intros (Epd & Hf & Hpos & f & L) Huf Hva Hvm Hb.
  destruct (loaded_free ps (mem p) f a L Huf) as (q & Ef & Lf & Hfull).
  assert (Efree : forall b : bool, b = false -> (if b then mret true else on_mem (on_frames (palloc_free_page a));; mret false) p = Ok (false, with_mem p (set_frames q (mem p)))).
  { intros b ->. erewrite bind_ok; [reflexivity|]. apply on_mem_ok. unfold on_frames. by rewrite Ef. }
  destruct (loaded_install ps (mem p) f a va w bytes L Huf Hva Hvm Hb) as [(k & Eg & Hk & Hin)|(Eg & Hout & [[Es Hfu]|(m & f' & Es & L')])].
  - exists false, (with_mem p (set_frames q (mem p))). split.
    + unfold install_page. rewrite bind_assoc. erewrite bind_ok by reflexivity. rewrite Epd, bind_assoc, (bind_ok _ _ _ _ _ (on_mem_ok _ _ _ _ Eg)).
      rewrite (proj2 (Z.eqb_neq k 0) Hk), ret_bind. replace (with_mem p (mem p)) with p by (by destruct p). exact (Efree false eq_refl).
    + split; [|by right]. split; [done|]. split; [done|]. split; [done|]. by exists f.
  - exists false, (with_mem p (set_frames q (mem p))). split.
    + unfold install_page. rewrite bind_assoc. erewrite bind_ok by reflexivity. rewrite Epd, bind_assoc, (bind_ok _ _ _ _ _ (on_mem_ok _ _ _ _ Eg)).
      change (0 =? 0) with true. cbv iota. replace (with_mem p (mem p)) with p by (by destruct p). rewrite (bind_ok _ _ _ _ _ (on_mem_ok _ _ _ _ Es)).
      replace (with_mem p (mem p)) with p by (by destruct p). exact (Efree false eq_refl).
    + split; [|left; right; by apply Hfull]. split; [done|]. split; [done|]. split; [done|]. by exists f.
  - exists true, (with_mem p m). split.
    + unfold install_page. rewrite bind_assoc. erewrite bind_ok by reflexivity. rewrite Epd, bind_assoc, (bind_ok _ _ _ _ _ (on_mem_ok _ _ _ _ Eg)).
      change (0 =? 0) with true. cbv iota. replace (with_mem p (mem p)) with p by (by destruct p). by rewrite (bind_ok _ _ _ _ _ (on_mem_ok _ _ _ _ Es)).
    + split; [done|]. split; [done|]. split; [done|]. split; [done|]. by exists f'.
Qed.
(** The bytes that are read, the rest of the page, and its installation. *)
Lemma stored_ok ps pos p a out :
  at_load ps (Some (a / PGSIZE)) pos p -> user_frame (mem p) a -> Forall byte out -> len out <= PGSIZE ->
  exists m, on_mem (store_bytes a out) p = Ok (tt, with_mem p (poked (mem p) m)) /\ (forall y, m y = filled a PGSIZE out (ram (frames (mem p))) y) /\
    at_load ps (Some (a / PGSIZE)) pos (with_mem p (poked (mem p) m)).
Proof.
  intros (Epd & Hf & Hpos & f & L) (Hk & Hal & Hru) Hob Hl.
  set (m := fun y => if within a (len out) y then default 0 (out !! Z.to_nat (y - a)) else ram (frames (mem p)) y).
  assert (Hm : forall y, m y = filled a PGSIZE out (ram (frames (mem p))) y).
  { intros y. unfold m, filled, within. rewrite Z.sub_diag, Z.add_0_r.
    destruct ((a + PGSIZE <=? y) && (y <? a + PGSIZE)) eqn:Ew; [reflect_bools; lia|done]. }
  pose proof (ld_stands _ _ _ _ L) as [_ [T R]]. pose proof (sp_bytes _ _ (rl_spaces _ _ _ _ _ R)) as Hbr.
  exists m. split; [reflexivity|]. split; [done|]. split; [done|]. split; [done|]. split; [done|]. exists f. apply loaded_poke; [done|by split| |].
  - intros y. rewrite Hm. by apply filled_bytes.
  - intros y Hy. rewrite Hm. by apply filled_outside; [apply Hk| | |].
Qed.
Lemma rest_ok ps pos p a va n w out m0 :
  at_load ps (Some (a / PGSIZE)) pos p -> user_frame (mem p) a -> Forall byte out -> len out = n -> 0 <= n <= PGSIZE -> byte_ram m0 ->
  (forall y, ram (frames (mem p)) y = filled a PGSIZE out m0 y) -> user_addr va -> va mod PGSIZE = 0 ->
  exists b p', (on_mem (on_ram (memset (u32 (a + n)) 0 (PGSIZE - n)));;
    ok ← install_page init_ram_pages va a w; if (ok : bool) then mret true else on_mem (on_frames (palloc_free_page a));; mret false) p = Ok (b, p') /\
    if (b : bool) then (va / PGSIZE ∉ (u_no <$> ps)) /\ at_load (ps ++ [mkUpage (va / PGSIZE) w (out ++ replicate (Z.to_nat (PGSIZE - n)) 0)]) None pos p'
    else at_load ps None pos p' /\ (exhausted p' \/ va / PGSIZE ∈ (u_no <$> ps)).
Proof.
  intros (Epd & Hf & Hpos & f & L) Huf Hob Hl Hn Hb0 Hram' Hva Hvm. pose proof Huf as (Hk & Hal & Hru).
  destruct (memset_rest a n (ram (frames (mem p))) Hk Hn) as (d & m & E & Hm).
  assert (Hfill : forall y, m y = filled a n out m0 y).
  { intros y. rewrite Hm, Hram'. unfold filled, within. rewrite Z.sub_diag, Z.add_0_r.
    destruct ((a + n <=? y) && (y <? a + n + (PGSIZE - n))); [done|]. by destruct ((a + PGSIZE <=? y) && (y <? a + PGSIZE)) eqn:Ew; [reflect_bools; lia|]. }
  rewrite (bind_ok _ _ p d (with_mem p (poked (mem p) m))).
  2:{ apply on_mem_ok. unfold on_ram. by rewrite E. }
  apply install_page_ok; try done.
  - split; [done|]. split; [done|]. split; [done|]. exists f. apply loaded_poke; [done..| |].
    + intros y. rewrite Hfill. by apply filled_bytes.
    + intros y Hy. rewrite Hm. unfold within. destruct ((a + n <=? y) && (y <? a + n + (PGSIZE - n))) eqn:Ew; [|done]. reflect_bools. destruct Hy.
      replace y with (a + (y - a)) by lia. apply page_of; [apply Hk|lia].
  - eapply holds_page_ext; [intros x _; apply Hfill|apply Hk|]. by apply filled_page.
Qed.
Lemma load_page_ok ps pos p va n w :
  at_load ps None pos p -> user_addr va -> va mod PGSIZE = 0 -> 0 <= n <= PGSIZE ->
  exists b p', load_page init_ram_pages fd va n w p = Ok (b, p') /\
    if (b : bool) then (n = 0 \/ pos + n <= len bs) /\ (va / PGSIZE ∉ (u_no <$> ps)) /\
      at_load (ps ++ [mkUpage (va / PGSIZE) w (page_bytes bs pos n)]) None (pos + n) p'
    else (exists pos', at_load ps None pos' p') /\ (exhausted p' \/ len bs < pos + n \/ va / PGSIZE ∈ (u_no <$> ps)).
Proof.
  intros At Hva Hvm Hn. pose proof At as (Epd & Hf & Hpos & f & L). unfold load_page.
  destruct (loaded_alloc ps (mem p) f PAL_USER L eq_refl eq_refl) as [[E Hfull]|(a & q & E & Ha & _ & La & Huf)].
  { exists false, p. split; [|split; [eauto|left; by left]]. erewrite bind_ok; [|apply on_mem_ok; unfold on_frames; rewrite E; reflexivity].
    change (0 =? 0) with true. cbv iota. replace (with_mem p (set_frames (frames (mem p)) (mem p))) with p; [done|]. by destruct p as [[] ? ? ? ?]. }
  set (p1 := with_mem p (set_frames q (mem p))). erewrite bind_ok; [|apply on_mem_ok; unfold on_frames; rewrite E; reflexivity]. fold p1.
  rewrite (proj2 (Z.eqb_neq a 0) Ha). destruct (process_read_ok pos p1 n Hf) as (x & Er & Hx). set (out := slice bs pos (Z.min n (len bs - pos))) in *.
  rewrite (bind_ok _ _ _ _ _ Er). destruct (file_data pos p Hf) as [Hby Hlen].
  assert (Hob : Forall byte out) by (apply Forall_take, Forall_drop, Hby).
  assert (Hol : len out <= n) by (unfold out, slice; rewrite length_take; lia).
  assert (Hfit : pos + n <= len bs -> len out = n) by (intros; unfold out; rewrite Z.min_l, slice_length by lia; done).
  destruct (stored_ok ps (pos + len out) (with_fs p1 x) a out) as (m & Es & Hm & At3); [|done|done|lia|].
  { split; [done|]. split; [done|]. split; [lia|]. by exists f. }
  rewrite (bind_ok _ _ _ _ _ Es). set (p3 := with_mem (with_fs p1 x) _) in *. assert (Huf3 : user_frame (mem p3) a) by done.
  destruct (Z.eqb_spec (len out) n) as [El|Hne]; cbn [negb].
  - pose proof (ld_stands _ _ _ _ La) as [_ [T R]]. pose proof (sp_bytes _ _ (rl_spaces _ _ _ _ _ R)) as Hbr.
    destruct (rest_ok ps (pos + len out) p3 a va n w out _ At3 Huf3 Hob El Hn Hbr Hm Hva Hvm) as (b & p4 & Er4 & Hb).
    exists b, p4. split; [exact Er4|]. rewrite El in Hb. destruct b.
    + assert (Hcase : n = 0 \/ pos + n <= len bs).
      { destruct (decide (n = 0)); [by left|right]. assert (Hl2 : len out <= len bs - pos) by (unfold out, slice in *; rewrite length_take, length_drop in *; lia). lia. }
      split; [done|]. replace (page_bytes bs pos n) with (out ++ replicate (Z.to_nat (PGSIZE - n)) 0); [done|]. unfold page_bytes. f_equal.
      destruct Hcase as [->|?]; [|unfold out; by rewrite Z.min_l by lia]. assert (out = []) as -> by (apply length_zero_iff_nil; lia). done.
    + destruct Hb as [Hb1 Hb2]. split; [eauto|tauto].
  - destruct At3 as (Epd3 & Hf3 & Hpos3 & f3 & L3). destruct (loaded_free ps (mem p3) f3 a L3 Huf3) as (q' & Ef & Lf & _).
    exists false, (with_mem p3 (set_frames q' (mem p3))). split; [erewrite bind_ok; [reflexivity|]; apply on_mem_ok; unfold on_frames; by rewrite Ef|].
    split; [|right; left; lia]. exists (pos + len out). split; [done|]. split; [done|]. split; [done|]. by exists f3.
Qed.

(** *** Segments *)
Definition failed ps why p : Prop := (exists ps' pos', at_load ps' None pos' p) /\ (exhausted p \/ why \/ ~ NoDup (u_no <$> ps)).
Lemma not_nodup ps u ps' : u_no u ∈ (u_no <$> ps) -> ~ NoDup (u_no <$> ps ++ u :: ps').
Proof. intros Hin. rewrite fmap_app, NoDup_app. intros (_ & Hd & _). apply (Hd (u_no u) Hin). left. Qed.

Lemma segment_loop_ok w cnt : forall ps pos p no read fuel,
  at_load ps None pos p -> 0 <= no -> no + Z.of_nat cnt <= USER_PAGES -> 0 <= read <= Z.of_nat cnt * PGSIZE -> (cnt <= fuel)%nat ->
  exists b p', segment_loop init_ram_pages fuel fd (no * PGSIZE) read (Z.of_nat cnt * PGSIZE - read) w p = Ok (b, p') /\
    if (b : bool) then (read = 0 \/ pos + read <= len bs) /\ at_load (ps ++ segment_pages cnt bs no pos read w) None (pos + read) p'
    else failed (ps ++ segment_pages cnt bs no pos read w) (len bs < pos + read) p'.
Proof.
  induction cnt as [|cnt IH]; intros ps pos p no read fuel At Hno Hmax Hread Hfuel.
  { exists true, p. assert (read = 0) as -> by lia. split; [by destruct fuel|]. simpl. rewrite app_nil_r, Z.add_0_r. split; [by left|done]. }
  destruct fuel as [|fuel]; [lia|]. cbn [segment_loop segment_pages]. set (n := Z.min read PGSIZE).
  assert (En : (if read <? PGSIZE then read else PGSIZE) = n) by (unfold n; destruct (Z.ltb_spec read PGSIZE); lia). rewrite En.
  assert (Hgo : (0 <? read) || (0 <? Z.of_nat (S cnt) * PGSIZE - read) = true).
  { apply orb_true_iff. rewrite !Z.ltb_lt. unfold PGSIZE in *. lia. }
  rewrite Hgo. assert (Hn : 0 <= n <= PGSIZE) by (unfold n, PGSIZE in *; lia). unfold USER_PAGES in Hmax.
  assert (Hva : user_addr (no * PGSIZE)) by (unfold user_addr, PHYS_BASE, PGSIZE; lia).
  destruct (load_page_ok ps pos p (no * PGSIZE) n w At Hva (Z.mod_mul no PGSIZE ltac:(done)) Hn) as (b & p1 & E & Hb). rewrite Z.div_mul in Hb by done.
  rewrite (bind_ok _ _ _ _ _ E). set (u := mkUpage no w (page_bytes bs pos n)) in *. destruct b.
  - destruct Hb as (Hfit & Hin & At1). assert (Hpg : n = PGSIZE \/ read = n) by (unfold n; lia).
    destruct (IH (ps ++ [u]) (pos + n) p1 (no + 1) (read - n) fuel At1) as (b & p2 & E2 & Hb2); [lia|unfold USER_PAGES; lia|unfold n, PGSIZE in *; lia|lia|].
    exists b, p2. split.
    + assert (W1 : u32 (no * PGSIZE + PGSIZE) = (no + 1) * PGSIZE) by (rewrite wrapu_small; unfold PGSIZE in *; lia).
      assert (W2 : u32 (read - n) = read - n) by (apply wrapu_small; unfold PGSIZE in *; lia).
      assert (W3 : u32 (Z.of_nat (S cnt) * PGSIZE - read - (PGSIZE - n)) = Z.of_nat cnt * PGSIZE - (read - n)) by (rewrite wrapu_small; unfold PGSIZE in *; lia).
      cbv iota. by rewrite W1, W2, W3.
    + rewrite <- app_assoc in Hb2. cbn [app] in Hb2. replace (pos + n + (read - n)) with (pos + read) in Hb2 by lia. destruct b; [|done].
      destruct Hb2 as [Hf2 At2]. split; [|done]. lia.
  - exists false, p1. split; [done|]. destruct Hb as [[pos' At1] Hwhy]. split; [eauto|].
    destruct Hwhy as [?|[?|Hin]]; [by left|right; left; lia|right; right]. by apply not_nodup.
Qed.

Lemma land_page x : Z.land x PGMASK = x mod PGSIZE.
Proof. change PGMASK with (Z.ones 12). rewrite Z.land_ones by lia. done. Qed.
Lemma land_not_page x : 0 <= x < 2 ^ 32 -> Z.land x (u32 (Z.lnot PGMASK)) = x - x mod PGSIZE.
Proof. intros Hx. change (u32 (Z.lnot PGMASK)) with PTE_ADDR. by rewrite land_addr. Qed.
Definition phdr_ok (ph : Elf32_Phdr) : Prop :=
  0 <= p_type ph < 2 ^ 32 /\ 0 <= p_offset ph < 2 ^ 32 /\ 0 <= p_vaddr ph < 2 ^ 32 /\ 0 <= p_filesz ph < 2 ^ 32 /\ 0 <= p_memsz ph < 2 ^ 32.
Lemma validate_ok ps pos p ph :
  at_load ps None pos p -> phdr_ok ph -> exists p', validate_segment ph fd p = Ok (seg_valid bs ph, p') /\ at_load ps None pos p'.
Proof.
  intros At (Ht & Ho & Hv & Hf & Hm). pose proof At as (Epd & Hfs & Hpos & f & L). destruct (file_data pos p Hfs) as [_ Hlen].
  unfold validate_segment, seg_valid. rewrite !land_page. destruct (p_offset ph mod PGSIZE =? p_vaddr ph mod PGSIZE); cbn [negb andb].
  2:{ by exists p. }
  destruct (fy_length _ _ _ fd bs pos Hfs) as (x & E & Hx); [apply lookup_insert_eq|]. exists (with_fs p x).
  rewrite (bind_ok _ _ _ _ _ (on_fs_ok _ _ _ _ E)). split; [|split; [done|]; split; [done|]; split; [done|]; by exists f].
  unfold mret, K_ret. do 2 f_equal. rewrite (wrapu_small 32 (len bs)) by lia. unfold is_user_vaddr, PHYS_BASE, PGSIZE.
  destruct (Z.lt_ge_cases (p_vaddr ph + p_memsz ph) (2 ^ 32)).
  - rewrite (wrapu_small 32 (p_vaddr ph + p_memsz ph)) by lia. case_cmp; cbn [negb andb]; (done || lia).
  - assert (E32 : u32 (p_vaddr ph + p_memsz ph) = p_vaddr ph + p_memsz ph - 2 ^ 32).
    { unfold wrapu. symmetry. apply (Z.mod_unique _ _ 1); lia. }
    rewrite E32. case_cmp; cbn [negb andb]; (done || lia).
Qed.

(** *** Headers *)
Lemma seg_facts ph : phdr_ok ph -> seg_valid bs ph = true -> len bs < 2 ^ 31 - 512 ->
  0 <= seg_cnt ph /\ 0 <= seg_read ph <= seg_cnt ph * PGSIZE /\ p_vaddr ph / PGSIZE + seg_cnt ph <= USER_PAGES /\ 0 <= seg_ofs ph <= len bs /\
  Z.land (p_offset ph) (u32 (Z.lnot PGMASK)) = seg_ofs ph /\ Z.land (p_vaddr ph) (u32 (Z.lnot PGMASK)) = p_vaddr ph / PGSIZE * PGSIZE /\
  (if 0 <? p_filesz ph then u32 (Z.land (p_vaddr ph) PGMASK + p_filesz ph) else 0) = seg_read ph /\
  (if 0 <? p_filesz ph then u32 (ROUND_UP (u32 (Z.land (p_vaddr ph) PGMASK + p_memsz ph)) PGSIZE - seg_read ph)
   else ROUND_UP (u32 (Z.land (p_vaddr ph) PGMASK + p_memsz ph)) PGSIZE) = seg_cnt ph * PGSIZE - seg_read ph.
Proof.
  intros (Ht & Ho & Hv & Hf & Hm) Hval Hlen. unfold seg_valid in Hval. reflect_bools.
  pose proof (Z.div_mod (p_vaddr ph) PGSIZE ltac:(done)) as Ev. pose proof (Z.mod_pos_bound (p_vaddr ph) PGSIZE ltac:(done)) as Hvm.
  pose proof (Z.mod_pos_bound (p_offset ph) PGSIZE ltac:(done)) as Hom.
  pose proof (Z.mod_le (p_offset ph) PGSIZE ltac:(lia) ltac:(done)) as Hol. rewrite land_page, !land_not_page by done.
  set (vo := p_vaddr ph mod PGSIZE) in *. set (total := vo + p_memsz ph) in *. assert (Hcnt : seg_cnt ph = (total + (PGSIZE - 1)) / PGSIZE) by done.
  pose proof (Z.div_mod (total + (PGSIZE - 1)) PGSIZE ltac:(done)) as Ec. pose proof (Z.mod_pos_bound (total + (PGSIZE - 1)) PGSIZE ltac:(done)) as Hcm.
  rewrite <- Hcnt in Ec. unfold PHYS_BASE, USER_PAGES, PGSIZE in *.
  assert (Hru : ROUND_UP (u32 total) 4096 = seg_cnt ph * 4096).
  { unfold ROUND_UP. rewrite (wrapu_small 32 total) by lia. replace (total + 4096 - 1) with (total + (4096 - 1)) by lia.
    rewrite (wrapu_small 32 (total + (4096 - 1))) by lia. rewrite <- Hcnt. apply wrapu_small. lia. }
  rewrite Hru. unfold seg_read, seg_ofs, PGSIZE. fold vo. destruct (Z.ltb_spec 0 (p_filesz ph)).
  - assert (total <= seg_cnt ph * 4096 < 2 ^ 32) by lia. rewrite !wrapu_small by lia. repeat split; lia.
  - repeat split; lia.
Qed.
Lemma seek_ok ps pos pos' p : at_load ps None pos p -> 0 <= pos' < 2 ^ 31 -> exists p', on_fs (file_seek fd pos') p = Ok (tt, p') /\ at_load ps None pos' p'.
Proof.
  intros (Epd & Hfs & Hpos & f & L) Hp. destruct (fy_seek _ _ _ fd bs pos pos' Hfs) as (x & E & Hx); [apply lookup_insert_eq|done|].
  exists (with_fs p x). split; [by apply on_fs_ok|]. rewrite insert_insert_eq in Hx. split; [done|]. split; [done|]. split; [lia|]. by exists f.
Qed.
Definition failed_as (why : Prop) p : Prop := (exists ps' pos', at_load ps' None pos' p) /\ (exhausted p \/ why).
Definition no_pages ps (o : option (list upage)) : Prop := match o with None => True | Some qs => ~ NoDup (u_no <$> ps ++ qs) end.

Lemma load_segment_ok ps pos p ph w :
  at_load ps None pos p -> phdr_ok ph -> seg_valid bs ph = true -> len bs < 2 ^ 31 - 512 ->
  exists b p', load_segment init_ram_pages fd (seg_ofs ph) (p_vaddr ph / PGSIZE * PGSIZE) (seg_read ph) (seg_cnt ph * PGSIZE - seg_read ph) w p = Ok (b, p') /\
    let qs := segment_pages (Z.to_nat (seg_cnt ph)) bs (p_vaddr ph / PGSIZE) (seg_ofs ph) (seg_read ph) w in
    if (b : bool) then seg_ofs ph + seg_read ph <= len bs /\ exists pos', at_load (ps ++ qs) None pos' p'
    else failed (ps ++ qs) (len bs < seg_ofs ph + seg_read ph) p'.
Proof.
  intros At Hok Hval Hlen. destruct (seg_facts ph Hok Hval Hlen) as (Hc & Hr & Hmax & Ho & _). unfold load_segment. unfold USER_PAGES in Hmax.
  assert (Hno : 0 <= p_vaddr ph / PGSIZE) by (apply Z.div_pos; [apply Hok|done]).
  replace (seg_read ph + (seg_cnt ph * PGSIZE - seg_read ph)) with (seg_cnt ph * PGSIZE) by lia.
  rewrite ASSERT_true by (rewrite wrapu_small by (unfold PGSIZE in *; lia); rewrite Z.mod_mul by done; done).
  rewrite ASSERT_true by (rewrite pg_ofs_mod, Z.mod_mul by done; done).
  assert (Hal : seg_ofs ph mod PGSIZE = 0) by (unfold seg_ofs; apply Zminus_mod_idemp_r || (rewrite Zminus_mod, Z.mod_mod, Z.sub_diag by done; done)).
  rewrite ASSERT_true by (rewrite Z.rem_mod_nonneg by (done || lia); rewrite Hal; done).
  destruct (seek_ok ps pos (seg_ofs ph) p At) as (p1 & E & At1); [lia|]. rewrite (bind_ok _ _ _ _ _ E). rewrite Z.div_mul by done.
  destruct (segment_loop_ok w (Z.to_nat (seg_cnt ph)) ps (seg_ofs ph) p1 (p_vaddr ph / PGSIZE) (seg_read ph) (S (Z.to_nat (seg_cnt ph))) At1)
    as (b & p2 & E2 & Hb); [done|rewrite Z2Nat.id by lia; unfold USER_PAGES; lia|rewrite Z2Nat.id by lia; lia|lia|].
  rewrite Z2Nat.id in E2 by lia. exists b, p2. split; [exact E2|]. destruct b; [|done]. destruct Hb as [Hf At2]. split; [lia|eauto].
Qed.
Lemma load_header_ok ps pos p ph :
  at_load ps None pos p -> phdr_ok ph ->
  exists b p', load_header init_ram_pages fd ph p = Ok (b, p') /\
    if (b : bool) then exists qs pos', header_pages bs ph = Some qs /\ at_load (ps ++ qs) None pos' p'
    else failed_as (no_pages ps (header_pages bs ph)) p'.
Proof.
  intros At Hok. unfold load_header, header_pages. destruct ((p_type ph =? PT_DYNAMIC) || (p_type ph =? PT_INTERP) || (p_type ph =? PT_SHLIB)).
  { exists false, p. split; [done|]. split; [eauto|by right]. }
  destruct (p_type ph =? PT_LOAD).
  2:{ exists true, p. split; [done|]. exists [], pos. by rewrite app_nil_r. }
  destruct (validate_ok ps pos p ph At Hok) as (p1 & E & At1). rewrite (bind_ok _ _ _ _ _ E).
  destruct (seg_valid bs ph) eqn:Hval; cbn [andb].
  2:{ exists false, p1. split; [done|]. split; [eauto|by right]. }
  pose proof At as (_ & Hfs & _). destruct (file_data pos p Hfs) as [_ Hlen].
  destruct (seg_facts ph Hok Hval Hlen) as (Hc & Hr & Hmax & Ho & E1 & E2 & E3 & E4). rewrite E1, E2, E3, E4. cbv zeta.
  assert (Es : s32 (seg_ofs ph) = seg_ofs ph) by (apply wraps_small; change (32 - 1) with 31; lia). rewrite Es.
  set (w := negb (Z.land (p_flags ph) PF_W =? 0)).
  destruct (load_segment_ok ps pos p1 ph w At1 Hok Hval Hlen) as (b & p2 & E5 & Hb). exists b, p2. split; [exact E5|]. cbv zeta in Hb. destruct b.
  - destruct Hb as [Hfit [pos' At2]]. rewrite (proj2 (Z.leb_le _ _) Hfit). eauto.
  - destruct Hb as [Hat Hwhy]. split; [done|]. destruct Hwhy as [?|[Hbig|Hd]]; [by left|right..].
    + by rewrite (proj2 (Z.leb_gt _ _) Hbig).
    + by destruct (seg_ofs ph + seg_read ph <=? len bs).
Qed.

Lemma le_word_range l ofs n : Forall byte l -> 0 <= le_value (slice l ofs (Z.of_nat n)) < 2 ^ (8 * Z.of_nat n).
Proof.
  intros Hl. assert (Hb : Forall byte (slice l ofs (Z.of_nat n))) by (apply Forall_take, Forall_drop, Hl). pose proof (le_value_range _ Hb) as Hr.
  split; [apply Hr|]. eapply Z.lt_le_trans; [apply Hr|]. apply Z.pow_le_mono_r; [lia|]. unfold slice. rewrite length_take. lia.
Qed.
Lemma phdr_of_ok l : Forall byte l -> phdr_ok (phdr_of l).
Proof. intros Hl. unfold phdr_ok, phdr_of, word. simpl. repeat split; apply (le_word_range _ _ 4 Hl). Qed.
Lemma no_pages_more ps qs o : no_pages ps (Some qs) -> no_pages ps (app qs <$> o).
Proof.
  destruct o as [rs|]; [|done]. simpl. intros Hd Hn. apply Hd. rewrite app_assoc, fmap_app in Hn. by apply NoDup_app in Hn as [? _].
Qed.
Lemma load_headers_ok n : forall ps pos p ofs,
  at_load ps None pos p -> 0 <= ofs < 2 ^ 31 ->
  exists b p', load_headers init_ram_pages n fd ofs p = Ok (b, p') /\
    if (b : bool) then exists qs pos', headers_pages n bs ofs = Some qs /\ at_load (ps ++ qs) None pos' p'
    else failed_as (no_pages ps (headers_pages n bs ofs)) p'.
Proof.
  induction n as [|n IH]; intros ps pos p ofs At Hofs.
  { exists true, p. split; [done|]. exists [], pos. by rewrite app_nil_r. }
  cbn [load_headers headers_pages]. rewrite (proj2 (Z.ltb_ge ofs 0)) by lia. pose proof At as (Epd & Hfs & Hpos & f & L). destruct (file_data pos p Hfs) as [Hby Hlen].
  destruct (fy_length _ _ _ fd bs pos Hfs) as (x & E & Hx); [apply lookup_insert_eq|]. rewrite (bind_ok _ _ _ _ _ (on_fs_ok _ _ _ _ E)).
  assert (At1 : at_load ps None pos (with_fs p x)) by (split; [done|]; split; [done|]; split; [done|]; by exists f).
  unfold sizeof_phdr in *. destruct (Z.ltb_spec (len bs) ofs).
  { exists false, (with_fs p x). split; [done|]. rewrite (proj2 (Z.leb_gt _ _)) by lia. split; [eauto|by right]. }
  destruct (seek_ok ps pos ofs _ At1) as (p2 & E2 & At2); [lia|]. rewrite (bind_ok _ _ _ _ _ E2). pose proof At2 as (Epd2 & Hfs2 & Hpos2 & f2 & L2).
  destruct (process_read_ok ofs p2 32 Hfs2) as (y & Er & Hy). rewrite (bind_ok _ _ _ _ _ Er). set (out := slice bs ofs (Z.min 32 (len bs - ofs))) in *.
  assert (At3 : at_load ps None (ofs + len out) (with_fs p2 y)) by (split; [done|]; split; [done|]; split; [lia|]; by exists f2).
  destruct (Z.leb_spec (ofs + 32) (len bs)) as [Hfit|Hbig].
  2:{ assert (Hl : len out < 32) by (unfold out, slice; rewrite length_take, length_drop; lia). rewrite (proj2 (Z.eqb_neq _ _)) by lia.
      exists false, (with_fs p2 y). split; [done|]. split; [eauto|by right]. }
  assert (Eo : out = slice bs ofs 32) by (unfold out; by rewrite Z.min_l by lia). assert (Hl : len out = 32) by (rewrite Eo; apply slice_length; lia).
  rewrite Hl. change (32 =? 32) with true. cbn [negb]. rewrite Eo in *.
  destruct (load_header_ok ps _ _ (phdr_of (slice bs ofs 32)) At3) as (b & p3 & E3 & Hb); [apply phdr_of_ok, Forall_take, Forall_drop, Hby|].
  rewrite (bind_ok _ _ _ _ _ E3). destruct b.
  - destruct Hb as (qs & pos' & Eq & At4). rewrite Eq. assert (Ew : s32 (ofs + 32) = ofs + 32) by (apply wraps_small; change (32 - 1) with 31; lia). rewrite Ew.
    destruct (IH (ps ++ qs) pos' p3 (ofs + 32) At4) as (b & p4 & E4 & Hb4); [lia|]. exists b, p4. split; [done|]. destruct b.
    + destruct Hb4 as (rs & pos4 & Er4 & At5). exists (qs ++ rs), pos4. rewrite Er4, app_assoc. done.
    + destruct Hb4 as [Ha [?|Hno]]; (split; [done|]); [by left|right]. destruct (headers_pages n bs (ofs + 32)) as [rs|]; [|done]. simpl in *. by rewrite app_assoc.
  - exists false, p3. split; [done|]. destruct Hb as [Ha [?|Hno]]; (split; [done|]); [by left|right].
    destruct (header_pages bs (phdr_of (slice bs ofs 32))) as [qs|]; [by apply no_pages_more|done].
Qed.

(** *** The stack and the file *)
Lemma install_or_free {A} (m : K (process F) bool) (g : K (process F) unit) (a b : A) p :
  (ok ← m; if (ok : bool) then mret a else g;; mret b) p = (ok ← (ok ← m; if (ok : bool) then mret true else g;; mret false); mret (if (ok : bool) then a else b)) p.
Proof. unfold mbind, K_bind. destruct (m p) as [[[] q]| |]; try done. by destruct (g q) as [[[] ?]| |]. Qed.
Lemma setup_stack_ok ps pos p :
  at_load ps None pos p ->
  exists r p', setup_stack init_ram_pages p = Ok (r, p') /\
    match r with
    | Some esp => esp = PHYS_BASE /\ at_load (ps ++ [stack_page]) None pos p'
    | None => failed_as (~ NoDup (u_no <$> ps ++ [stack_page])) p'
    end.
Proof.
  intros At. pose proof At as (Epd & Hf & Hpos & f & L). unfold setup_stack.
  destruct (loaded_alloc ps (mem p) f (Z.lor PAL_USER PAL_ZERO) L eq_refl eq_refl) as [[E Hfull]|(a & q & E & Ha & G & La & Huf)].
  { exists None, p. split; [|split; [eauto|left; by left]]. erewrite bind_ok; [|apply on_mem_ok; unfold on_frames; rewrite E; reflexivity].
    change (0 =? 0) with true. cbv iota. replace (with_mem p (set_frames (frames (mem p)) (mem p))) with p; [done|]. by destruct p as [[] ? ? ? ?]. }
  erewrite bind_ok; [|apply on_mem_ok; unfold on_frames; rewrite E; reflexivity]. set (p1 := with_mem p (set_frames q (mem p))).
  rewrite (proj2 (Z.eqb_neq a 0) Ha). rewrite install_or_free. pose proof Huf as (Hk & _).
  destruct (install_page_ok ps pos p1 a (PHYS_BASE - PGSIZE) true (replicate (Z.to_nat PGSIZE) 0)) as (b & p2 & E2 & Hb); try done.
  { split; [done|]. split; [done|]. split; [done|]. by exists f. }
  { split; [by rewrite length_replicate|]. intros i Hi. change (ram (frames (mem p1))) with (ram q). rewrite (gt_ram _ _ _ _ _ G).
    change (has_flag (Z.lor PAL_USER PAL_ZERO) PAL_ZERO) with true. cbn [andb]. unfold within. rewrite (proj2 (Z.leb_le _ _)), (proj2 (Z.ltb_lt _ _)) by lia.
    apply lookup_replicate. split; [done|unfold PGSIZE in *; lia]. }
  rewrite (bind_ok _ _ _ _ _ E2). eexists _, p2. split; [reflexivity|]. destruct b; [by split; [|apply Hb]|].
  destruct Hb as [At2 [?|Hin]]; (split; [eauto|]); [by left|right]. by apply (not_nodup ps stack_page []).
Qed.

(** *** The file *)
Definition bad_program : Prop := match program bs with None => True | Some (_, ps) => ~ NoDup (u_no <$> ps) end.
Lemma load_file_ok p :
  at_load [] None 0 p ->
  exists r p', load_file init_ram_pages fd p = Ok (r, p') /\
    match r with
    | Some (eip, esp) => esp = PHYS_BASE /\ exists ps pos', program bs = Some (eip, ps) /\ at_load ps None pos' p'
    | None => failed_as bad_program p'
    end.
Proof.
  intros At. pose proof At as (Epd & Hf & Hpos & f & L). destruct (file_data 0 p Hf) as [Hby Hlen]. unfold load_file, bad_program, program.
  destruct (process_read_ok 0 p sizeof_ehdr Hf) as (x & E & Hx). rewrite (bind_ok _ _ _ _ _ E).
  assert (Eo : slice bs 0 (Z.min sizeof_ehdr (len bs - 0)) = slice bs 0 sizeof_ehdr).
  { unfold slice, sizeof_ehdr. rewrite Z.sub_0_r. change (Z.to_nat 0) with 0%nat. rewrite !drop_0. destruct (Z.le_ge_cases 52 (len bs)); [by rewrite Z.min_l|].
    rewrite Z.min_r, !take_ge by lia. done. }
  rewrite Eo in *. set (hd := slice bs 0 sizeof_ehdr) in *. assert (At1 : at_load [] None (0 + len hd) (with_fs p x)) by (split; [done|]; split; [done|]; split; [lia|]; by exists f).
  destruct (bad_header hd) eqn:Hbad; [by exists None, (with_fs p x); split; [|split; [eauto|right]]|].
  assert (Hh : Forall byte hd) by apply Forall_take, Forall_drop, Hby. set (n := Z.to_nat (e_phnum (ehdr_of hd))).
  assert (Hph : 0 <= e_phoff (ehdr_of hd) < 2 ^ 32) by apply (le_word_range _ _ 4 Hh).
  assert (Hheaders : exists b p', load_headers init_ram_pages n fd (s32 (e_phoff (ehdr_of hd))) (with_fs p x) = Ok (b, p') /\
    if (b : bool) then exists qs pos', headers_pages n bs (e_phoff (ehdr_of hd)) = Some qs /\ at_load qs None pos' p'
    else failed_as (no_pages [] (headers_pages n bs (e_phoff (ehdr_of hd)))) p').
  { destruct (Z.lt_ge_cases (e_phoff (ehdr_of hd)) (2 ^ 31)).
    - assert (Es : s32 (e_phoff (ehdr_of hd)) = e_phoff (ehdr_of hd)) by (apply wraps_small; change (32 - 1) with 31; lia). rewrite Es.
      apply (load_headers_ok n [] _ _ _ At1). lia.
    - assert (Es : s32 (e_phoff (ehdr_of hd)) < 0) by (unfold wraps; change (32 - 1) with 31; rewrite <- (Z.mod_unique (e_phoff (ehdr_of hd) + 2 ^ 31) (2 ^ 32) 1 (e_phoff (ehdr_of hd) - 2 ^ 31)) by lia; lia).
      destruct n; [by eexists true, _; split; [reflexivity|]; eexists [], _|]. exists false, (with_fs p x). cbn [load_headers headers_pages].
      rewrite (proj2 (Z.ltb_lt _ _) Es). split; [done|]. rewrite (proj2 (Z.leb_gt _ _)) by (unfold sizeof_phdr; lia). split; [eauto|by right]. }
  destruct Hheaders as (b & p2 & E2 & Hb). rewrite (bind_ok _ _ _ _ _ E2). destruct b.
  - destruct Hb as (qs & pos' & Eq & At2). rewrite Eq. destruct (setup_stack_ok qs pos' p2 At2) as (r & p3 & E3 & Hr). rewrite (bind_ok _ _ _ _ _ E3).
    eexists _, p3. split; [reflexivity|]. destruct r as [esp|]; [|done]. destruct Hr as [-> At3]. split; [done|]. eauto.
  - exists None, p2. split; [done|]. destruct Hb as [Ha [?|Hno]]; (split; [done|]); [by left|right].
    destruct (headers_pages n bs (e_phoff (ehdr_of hd))) as [qs|]; [|done]. simpl in *. intros Hn. apply Hno. rewrite fmap_app in Hn. by apply NoDup_app in Hn as [? _].
Qed.

End Load.

End Build.
