(* ===== verification/ProcessProps.v ===== *)
(** What [load] and [process_exit] do, for any file system of the interface; and the file system of
    Filesys.v as an instance of it. *)

From stdpp Require Import gmap.
From S2P Require Import Prelude KMonad CString Bitmap Palloc Bytes Paging PagingOk PagingProps PagingBoot Process ProcessOk.

Section Run.
Context {F : Type} `{!FileSys F} (init_ram_pages : Z) (O : Z -> Prop) (kernel_half : Z -> Z).
Context (N : gmap (list Z) (list Z)) (H : gmap Z (list Z * Z)) (A0 : aspaces).
Implicit Types (p : process F).
Abbreviation stand := (stands O kernel_half).
Abbreviation in_space p0 pd := (loaded O kernel_half (mem p0) A0 pd).

(** The process [p'] has the pages [ps] in an address space of its own; the rest is as in [p]. *)
Definition has_pages p p' ps : Prop :=
  pagedir p' <> 0 /\ A0 !! pagedir p' = None /\ exists f, in_space p (pagedir p') ps None (mem p') f.

Lemma pstep_create full A r A' :
  pstep full A PCreate r A' -> (exists pd, r = PAddr pd /\ A !! pd = None /\ pd <> 0 /\ A' = <[pd := fun _ => 0]> A) \/ (full /\ r = PAddr 0 /\ A' = A).
Proof. intros P. inversion P; subst; [left; eauto|by right]. Qed.
(** A new address space, which is made the active one. *)
Lemma start_ok p :
  stand (mem p) A0 ->
  (exists m, on_mem pagedir_create p = Ok (0, with_mem p m) /\ stand m A0 /\ keeps_user O (mem p) m /\ pool_full false (frames (mem p))) \/
  exists pd m p1, on_mem pagedir_create p = Ok (pd, with_mem p m) /\ pd <> 0 /\ (set_pagedir pd;; process_activate) (with_mem p m) = Ok (tt, p1) /\
    fsys p1 = fsys p /\ pagedir p1 = pd /\ has_pages p p1 [].
Proof.
  intros St. destruct (create_stands init_ram_pages O kernel_half (mem p) A0 St) as (r & m & A' & E & P & St' & Ku).
  apply bind_inv in E as (pd & m' & E & Er). injection Er as E1 <-. pose proof (on_mem_ok _ _ _ _ E) as Em.
  apply pstep_create in P as [(pd2 & Er & Hpd & Hnz & ->)|(Hfull & Er & ->)]; rewrite <- E1 in Er; injection Er as <-.
  - right. assert (Hs : is_Some ((<[pd := fun _ => 0]> A0) !! pd)) by (rewrite lookup_insert_eq; eauto).
    destruct (activate_run O kernel_half m' _ pd St' (or_intror Hs)) as (m2 & E2 & St2 & Ef & Ei & Ec). rewrite (proj2 (Z.eqb_neq pd 0) Hnz) in Ec.
    exists pd, m', (mkProcess m2 (fsys p) pd (thread_page p) (u32 (thread_page p + PGSIZE))).
    split; [done|]. split; [done|]. split; [|split; [done|split; [done|]]].
    + erewrite bind_ok by reflexivity. unfold process_activate. erewrite bind_ok by reflexivity.
      pose proof (on_mem_ok (pagedir_activate pd) (mkProcess m' (fsys p) pd (thread_page p) (tss_esp0 p)) tt m2 E2) as E3.
      exact (bind_ok _ _ _ _ _ E3).
    + split; [done|]. split; [done|]. exists (fun _ => 0). destruct Ku as [K1 K2 K3]. simpl. split; simpl.
      * done.
      * done.
      * intros u Hu. by apply elem_of_nil in Hu.
      * apply NoDup_nil_2.
      * intros n Hn. rewrite Ef, K3 by (by left). split; [by left|]. intros [?|[(k & a & (g & Hg & _ & Hp & _) & _)|?]]; [done| |done].
        cbn [fst snd] in *. rewrite lookup_insert_eq in Hg. injection Hg as <-. done.
      * done.
      * intros k a (g & Hg & _ & Hp & _). cbn [fst snd] in *. rewrite lookup_insert_eq in Hg. injection Hg as <-. done.
      * intros x Hx. rewrite Ef. apply K2. destruct Hx as [[Hx _]|Hx]; [by left|by right].
      * by rewrite Ef.
      * done.
  - left. by exists m'.
Qed.
(** Why a program could not be loaded. *)
Definition unloadable (name : list Z) : Prop := match N !! name with None => True | Some bs => bad_program bs end.
Lemma load_run p name :
  stand (mem p) A0 -> files_ok (fsys p) N H -> map_Forall (fun _ bs => Forall byte bs) N ->
  (forall n, run_of (frames (mem p)) true n 1 -> n - PHYS_BASE / PGSIZE < init_ram_pages) -> Forall (fun c => c <> 0) name ->
  exists r p', load init_ram_pages name p = Ok (r, p') /\ files_ok (fsys p') N H /\
    match r with
    | Some (eip, esp) => esp = PHYS_BASE /\ exists bs ps, N !! name = Some bs /\ program bs = Some (eip, ps) /\ has_pages p p' ps
    | None =>
        ((pagedir p' = 0 /\ stand (mem p') A0 /\ keeps_user O (mem p) (mem p')) \/ exists ps, has_pages p p' ps) /\
        (pool_full false (frames (mem p)) \/ exhausted p' \/ unloadable name)
    end.
Proof.
  intros St Hfs Hby Hram Hname. unfold load, unloadable. destruct (start_ok p St) as [(m & E & St' & Ku & Hfull)|(pd & m & p1 & E & Hnz & E1 & Ef & Epd & Hp)].
  { exists None, (mkProcess m (fsys p) 0 (thread_page p) (tss_esp0 p)). rewrite (bind_ok _ _ _ _ _ E). erewrite bind_ok by reflexivity. change (0 =? 0) with true. cbv iota.
    rewrite (bind_ok _ _ _ _ _ (on_fs_ok _ _ _ _ (fy_close_none _))). split; [done|]. split; [done|]. split; [by left|by left]. }
  rewrite (bind_ok _ _ _ _ _ E). rewrite (proj2 (Z.eqb_neq pd 0) Hnz), <- bind_assoc, (bind_ok _ _ _ _ _ E1). rewrite <- Ef in Hfs.
  destruct (fy_open _ _ _ name Hfs Hname) as (file & x & Eo & Ho). rewrite (bind_ok _ _ _ _ _ (on_fs_ok _ _ _ _ Eo)).
  destruct Hp as (_ & HA & f & L). rewrite Epd in HA, L. destruct file as [fd|].
  - destruct Ho as (bs & Hbs & Hfd & Hx). rewrite Hbs. pose proof (map_Forall_lookup_1 _ _ _ _ Hby Hbs) as Hb.
    assert (At : at_load O kernel_half (mem p) A0 pd N H fd bs [] None 0 (with_fs p1 x)) by (split; [done|]; split; [done|]; split; [done|]; by exists f).
    destruct (load_file_ok init_ram_pages O kernel_half (mem p) A0 pd Hram N H fd bs Hb _ At) as (r & p2 & E2 & Hr). rewrite (bind_ok _ _ _ _ _ E2).
    assert (Hclose : forall ps pos, at_load O kernel_half (mem p) A0 pd N H fd bs ps None pos p2 ->
      exists y, on_fs (file_close (Some fd)) p2 = Ok (tt, with_fs p2 y) /\ files_ok y N H /\ has_pages p (with_fs p2 y) ps).
    { intros ps pos (Epd2 & Hf2 & _ & f2 & L2). destruct (fy_close _ _ _ fd bs pos Hf2) as (y & Ey & Hy); [apply lookup_insert_eq|].
      exists y. split; [by apply on_fs_ok|]. rewrite delete_insert_id in Hy by done. split; [done|]. unfold has_pages. simpl. rewrite Epd2. split; [done|]. split; [done|]. by exists f2. }
    destruct r as [[eip esp]|].
    + destruct Hr as (-> & ps & pos' & Epr & At2). destruct (Hclose ps pos' At2) as (y & Ey & Hy & Hp). exists (Some (eip, PHYS_BASE)), (with_fs p2 y).
      rewrite (bind_ok _ _ _ _ _ Ey). split; [done|]. split; [done|]. split; [done|]. by exists bs, ps.
    + destruct Hr as [(ps & pos' & At2) Hwhy]. destruct (Hclose ps pos' At2) as (y & Ey & Hy & Hp). exists None, (with_fs p2 y).
      rewrite (bind_ok _ _ _ _ _ Ey). split; [done|]. split; [done|]. split; [right; by exists ps|]. right. by destruct Hwhy as [?|?]; [left|right].
  - destruct Ho as [Hnone Hx]. rewrite Hnone. exists None, (with_fs p1 x). rewrite ret_bind, (bind_ok _ _ _ _ _ (on_fs_ok _ _ _ _ (fy_close_none _))).
    split; [done|]. split; [done|]. split; [right; exists []|by right; right]. unfold has_pages. simpl. rewrite Epd. split; [done|]. split; [done|]. by exists f.
Qed.

Lemma others_not_user s T A n : rel O kernel_half s T A -> O n -> ~ run_of (frames s) true n 1.
Proof.
  intros R Ho [K1 K2]. destruct (rl_others _ _ _ _ _ R n Ho) as (_ & _ & [L1 L2]). destruct (sp_pages _ _ (rl_spaces _ _ _ _ _ R)) as [_ _ Hap].
  simpl in *. lia.
Qed.
(** The memory of the user pool is again as in [p]. *)
Definition memory_back p p' : Prop :=
  (forall n, run_of (frames (mem p)) true n 1 -> allocated (frames (mem p')) n = allocated (frames (mem p)) n) /\
  forall x, (run_of (frames (mem p)) true (x / PGSIZE) 1 /\ allocated (frames (mem p)) (x / PGSIZE) = true) \/ O (x / PGSIZE) ->
    ram (frames (mem p')) x = ram (frames (mem p)) x.
Lemma exit_run p p' ps :
  has_pages p p' ps ->
  exists p2, process_exit p' = Ok (tt, p2) /\ pagedir p2 = 0 /\ fsys p2 = fsys p' /\ stand (mem p2) A0 /\ memory_back p p2.
Proof.
  intros (Hnz & HA & f & L). set (pd := pagedir p') in *. pose proof L as [L1 L2 L3 L4 L5 L6 Lf L7 L8 L9].
  destruct (activate_run O kernel_half (mem p') _ 0 L1 (or_introl eq_refl)) as (m & E & St & Ef & Ei & Ec). change (0 =? 0) with true in Ec. cbv iota in Ec.
  assert (Hno : cr3 m + PHYS_BASE <> pd).
  { rewrite Ec. intros E2. destruct L1 as [_ [T R]]. destruct (rel_both _ _ _ _ _ pd R) as (d & _ & Hd & _); [rewrite lookup_insert_eq; eauto|].
    destruct (sp_init _ _ (rl_spaces _ _ _ _ _ R)) as (_ & _ & _ & Hi & _). apply (Hi (pd, None)). rewrite E2. by exists d. }
  destruct (destroy_stands init_ram_pages O kernel_half m _ pd St) as (r & m2 & A' & E2 & P & St2 & [K1 K2 K3]).
  { split; [rewrite lookup_insert_eq; eauto|done]. }
  apply bind_inv in E2 as ([] & m3 & E2 & Er). injection Er as <- <-. inversion P; subst A'.
  exists (mkProcess m3 (fsys p') 0 (thread_page p') (tss_esp0 p')). split; [|split; [done|split; [done|split]]].
  - unfold process_exit. erewrite bind_ok by reflexivity. fold pd. rewrite (proj2 (Z.eqb_neq pd 0) Hnz). cbn [negb]. unfold when.
    erewrite bind_ok by reflexivity. rewrite (bind_ok _ _ _ _ _ (on_mem_ok _ (mkProcess (mem p') (fsys p') 0 (thread_page p') (tss_esp0 p')) _ _ E)).
    exact (on_mem_ok _ (mkProcess m (fsys p') 0 (thread_page p') (tss_esp0 p')) _ _ E2).
  - simpl. by rewrite delete_insert_id in St2.
  - assert (Hrun : forall n, run_of (frames m) true n 1 <-> run_of (frames (mem p)) true n 1) by (intros n; rewrite Ef; apply (same_pools_run _ _ true n 1 L8)).
    assert (Hnf : forall n, allocated (frames (mem p)) n = true -> ~ frees (<[pd := f]> A0) (PDestroy pd) n).
    { intros n Hn (k & a & Hm & ->). by rewrite (Lf k a Hm) in Hn. }
    split; simpl.
    + intros n Hn. destruct (allocated (frames m3) n) eqn:E3.
      * assert (Hf : ~ frees (<[pd := f]> A0) (PDestroy pd) n) by (intros Hf; apply K3 in Hf; congruence).
        destruct (K2 n (or_introl (proj2 (Hrun n) Hn)) Hf) as [E5 _]. rewrite Ef, E3 in E5. symmetry in E5. by apply (L5 n Hn) in E5 as [?|[Hm|?]].
      * destruct (allocated (frames (mem p)) n) eqn:E4; [|done].
        destruct (K2 n (or_introl (proj2 (Hrun n) Hn)) (Hnf n E4)) as [E5 _]. rewrite Ef, E3 in E5. symmetry in E5. by rewrite (proj2 (L5 n Hn) (or_introl E4)) in E5.
    + intros x Hx. rewrite <- L7 by done. rewrite <- Ef. apply (K2 (x / PGSIZE)); [|destruct Hx as [[_ Hx]|Ho]; [by apply Hnf|]|done].
      * destruct Hx as [[Hx _]|Ho]; [left; by apply Hrun|by right].
      * intros (k & a & Hm & E5). destruct L1 as [_ [T R]]. destruct (rl_frame _ _ _ _ _ R _ _ Hm) as (_ & _ & Hu).
        rewrite <- E5 in Hu. by eapply others_not_user.
Qed.

End Run.
