(* ===== verification/ProcessFs.v ===== *)
(** The file system of filesys/ keeps the promises that the loader of programs relies on. *)

From stdpp Require Import gmap.
From S2P Require Import Prelude KMonad Bytes Block Filesys InodeOk FsInv FsWorld FsOps FsFiles FsRefine Process.

Section Instance.
Context {D : Type} `{!BlockDevice D} (junk : list Z).
Hypothesis Hjunk : length junk = 20%nat.
Implicit Types (s : fs D) (w : world) (a : afs) (N : gmap (list Z) (list Z)) (H : gmap Z (list Z * Z)).

(** The names and the open files that readers see. *)
Record sees a N H : Prop := {
  se_names name bs : N !! name = Some bs <-> exists id, a_names a !! name = Some id /\ a_bytes a !! id = Some bs;
  se_files fd bs pos : H !! fd = Some (bs, pos) <-> exists x, a_files a !! fd = Some x /\ a_bytes a !! af_id x = Some bs /\ af_pos x = pos
}.
Definition fs_files_ok s N H : Prop := exists w a, refines w s a /\ sees a N H.

Lemma object_bytes w s a id : refines w s a -> alive a id -> exists bs, a_bytes a !! id = Some bs /\ len bs < 2 ^ 31 - 512.
Proof.
  intros (objs & tbl & I & A) Ha. assert (Hd : exists d, (id, d) ∈ objs).
  { pose proof Ha as [[name Hl]|(fd & f & Hf & Hne & Hs)]%(alive_used _ _ _ _ _ _ A).
    - by destruct (ls_sectors _ _ _ _ (fi_listing _ _ _ _ _ I) name id Hl) as (_ & _ & ?).
    - destruct (file_inode w s objs tbl fd f I Hf Hne) as (i & Hi & Ho & _). rewrite (sector_of_some _ _ _ Hi) in Hs. subst id. eauto. }
  destruct Hd as [d Hd]. exists (content (fs_device s) d). split; [apply (ab_bytes _ _ _ _ _ A); eauto|].
  destruct (ds_obj _ _ (fi_disk _ _ _ _ _ I) _ Hd) as (Hx & _). rewrite content_length; [apply Hx|apply (fi_disk _ _ _ _ _ I)|done].
Qed.
Lemma open_alive a fd x : a_files a !! fd = Some x -> alive a (af_id x).
Proof. intros Hx. right. by exists fd, x. Qed.
Lemma named_alive a name id : a_names a !! name = Some id -> alive a id.
Proof. intros Hn. left. by exists name, id. Qed.

(** An open file is changed, or a file is opened. *)
Lemma sees_update a N H fd x bs :
  sees a N H -> a_bytes a !! af_id x = Some bs -> sees (set_afile a fd x) N (<[fd := (bs, af_pos x)]> H).
Proof.
  intros [S1 S2] Hb. split; [done|]. intros q cs pos. simpl. destruct (decide (fd = q)) as [<-|Hne].
  - rewrite !lookup_insert_eq. split; [intros [= <- <-]; by exists x|]. intros (y & [= <-] & Hy & <-). by rewrite Hb in Hy; injection Hy as <-.
  - rewrite !lookup_insert_ne by done. apply S2.
Qed.
Lemma sees_closed a N H fd :
  sees a N H -> sees (collect (mkAfs (a_names a) (a_bytes a) (delete fd (a_files a)))) N (delete fd H).
Proof.
  intros [S1 S2]. split.
  - intros name bs. rewrite S1. simpl. setoid_rewrite map_lookup_filter_Some. simpl. split.
    + intros (id & Hn & Hb). exists id. split; [done|]. split; [done|]. by eapply named_alive.
    + intros (id & Hn & Hb & _). eauto.
  - intros q bs pos. simpl. setoid_rewrite map_lookup_filter_Some. simpl. destruct (decide (fd = q)) as [<-|Hne].
    + rewrite !lookup_delete_eq. split; [done|]. by intros (x & ? & _).
    + rewrite !lookup_delete_ne, S2 by done. split.
      * intros (x & Hx & Hb & Hp). exists x. split; [done|]. split; [|done]. split; [done|]. eapply (open_alive _ q). simpl. by rewrite lookup_delete_ne.
      * intros (x & Hx & [Hb _] & Hp). eauto.
Qed.

(** The operations. *)
Lemma fs_data s N H fd bs pos : fs_files_ok s N H -> H !! fd = Some (bs, pos) -> len bs < 2 ^ 31 - 512.
Proof.
  intros (w & a & R & [_ S2]) (x & Hx & Hb & _)%S2. destruct (object_bytes w s a _ R (open_alive a fd x Hx)) as (cs & Hc & Hl). congruence.
Qed.
Lemma fs_open s N H name :
  fs_files_ok s N H -> Forall (fun c => c <> 0) name ->
  exists r s', Filesys.filesys_open name junk s = Ok (r, s') /\
    match r with
    | None => N !! name = None /\ fs_files_ok s' N H
    | Some fd => exists bs, N !! name = Some bs /\ H !! fd = None /\ fs_files_ok s' N (<[fd := (bs, 0)]> H)
    end.
Proof.
  intros (w & a & R & S) Hn. destruct (op_refines w s a (Open name) junk R Hn Hjunk) as (r & s' & a' & E & St & R').
  apply bind_inv in E as (o & s1 & E & Er). injection Er as <- <-. exists o, s1. split; [done|].
  inversion St as [| |nm id fd Hid Hfd|nm Hnone| | | | | | | | | | | |]; subst.
  - destruct (object_bytes w s a id R (named_alive a name id Hid)) as (bs & Hb & _). exists bs. split; [apply S; eauto|]. split.
    + destruct (H !! fd) as [[cs pos]|] eqn:E1; [|done]. apply S in E1 as (x & Hx & _). congruence.
    + exists w, (set_afile a fd (mkAfile id 0 false)). split; [done|]. by apply (sees_update a N H fd (mkAfile id 0 false)).
  - split; [|by exists w, a']. destruct (N !! name) as [bs|] eqn:E1; [|done]. apply S in E1 as (id & Hid & _). congruence.
Qed.
Lemma fs_read s N H fd bs pos n :
  fs_files_ok s N H -> H !! fd = Some (bs, pos) ->
  let out := slice bs pos (Z.min n (len bs - pos)) in
  exists s', Filesys.file_read fd n s = Ok (out, s') /\ fs_files_ok s' N (<[fd := (bs, pos + len out)]> H).
Proof.
  intros (w & a & R & S) Hf out. pose proof Hf as (x & Hx & Hb & <-)%S.
  destruct (op_refines w s a (Read fd n) junk R (ex_intro _ x Hx) Hjunk) as (r & s' & a' & E & St & R').
  apply bind_inv in E as (o & s1 & E & Er). injection Er as <- <-. exists s1.
  inversion St as [| | | | | | | |fd' x' bs' out' n' Hx' Hb' Eo| | | | | | |]; subst. assert (x' = x) as -> by congruence. assert (bs' = bs) as -> by congruence.
  split; [done|]. eexists w, _. split; [exact R'|]. by apply (sees_update a N H fd (mkAfile (af_id x) _ (af_deny x))).
Qed.
Lemma fs_seek s N H fd bs pos pos' :
  fs_files_ok s N H -> H !! fd = Some (bs, pos) -> 0 <= pos' < 2 ^ 31 ->
  exists s', Filesys.file_seek fd pos' s = Ok (tt, s') /\ fs_files_ok s' N (<[fd := (bs, pos')]> H).
Proof.
  intros (w & a & R & S) Hf Hp. pose proof Hf as (x & Hx & Hb & <-)%S.
  destruct (op_refines w s a (Seek fd pos') junk R (conj (ex_intro _ x Hx) Hp) Hjunk) as (r & s' & a' & E & St & R').
  apply bind_inv in E as ([] & s1 & E & Er). injection Er as <- <-. exists s1. split; [done|].
  inversion St as [| | | | | | | | | | |fd' x' p' Hx'| | | |]; subst. assert (x' = x) as -> by congruence.
  eexists w, _. split; [exact R'|]. by apply (sees_update a N H fd (mkAfile (af_id x) pos' (af_deny x))).
Qed.
Lemma fs_length s N H fd bs pos :
  fs_files_ok s N H -> H !! fd = Some (bs, pos) -> exists s', Filesys.file_length fd s = Ok (len bs, s') /\ fs_files_ok s' N H.
Proof.
  intros (w & a & R & S) Hf. pose proof Hf as (x & Hx & Hb & <-)%S.
  destruct (op_refines w s a (Length fd) junk R (ex_intro _ x Hx) Hjunk) as (r & s' & a' & E & St & R').
  apply bind_inv in E as (n & s1 & E & Er). injection Er as <- <-. exists s1.
  inversion St as [| | | | | | | | | | | | |fd' x' bs' Hx' Hb'| |]; subst. assert (x' = x) as -> by congruence. assert (bs' = bs) as -> by congruence.
  split; [done|]. by eexists w, _.
Qed.
Lemma fs_close s N H fd bs pos :
  fs_files_ok s N H -> H !! fd = Some (bs, pos) -> exists s', Filesys.file_close (Some fd) s = Ok (tt, s') /\ fs_files_ok s' N (delete fd H).
Proof.
  intros (w & a & R & S) Hf. pose proof Hf as (x & Hx & Hb & <-)%S.
  destruct (op_refines w s a (Close fd) junk R (ex_intro _ x Hx) Hjunk) as (r & s' & a' & E & St & R').
  apply bind_inv in E as ([] & s1 & E & Er). injection Er as <- <-. exists s1. split; [done|].
  inversion St as [| | | | | | |fd' x' Hx'| | | | | | | |]; subst. eexists w, _. split; [exact R'|]. by apply sees_closed.
Qed.
#[export] Instance fs_FileSys : FileSys (fs D) := {
  filesys_open name := Filesys.filesys_open name junk;
  file_read := Filesys.file_read;
  file_seek := Filesys.file_seek;
  file_length := Filesys.file_length;
  file_close := Filesys.file_close;
  files_ok := fs_files_ok;
  fy_data := fs_data;
  fy_open := fs_open;
  fy_read := fs_read;
  fy_seek := fs_seek;
  fy_length := fs_length;
  fy_close := fs_close;
  fy_close_none s := eq_refl
}.
End Instance.
