(* ===== verification/ProcessRun.v ===== *)
(** The life of a process (userprog/process.c): [load] builds the address space that the file
    describes, [start_process] enters it, and [process_exit] gives everything back. *)

From stdpp Require Import gmap.
From S2P Require Import Prelude KMonad CString Bitmap Palloc Bytes Block Filesys InodeOk FreeMapOk FsInv FsCreate FsOpen FsHandles FsDir FsWorld FsOps FsFiles FsRefine FsMount FsProps.
From S2P Require Import Paging PagingOk PagingProps PagingBoot Process ProcessOk ProcessProps ProcessFs.

(** ** Memory as user code sees it *)

(** The pages [ps] are where user code finds them under the directory [pd]; no other user address
    is mapped. *)
Definition in_place (m : ram_t) (pd : Z) (ps : list upage) : Prop :=
  (forall u i, u ∈ ps -> 0 <= i < PGSIZE ->
     exists pa, walk m pd (u_no u * PGSIZE + i) = Some (pa, u_w u, true) /\ u_bytes u !! Z.to_nat i = Some (m (pa + PHYS_BASE))) /\
  (forall va, user_addr va -> va / PGSIZE ∉ (u_no <$> ps) -> walk m pd va = None).

(** ** Freeing the page of the name *)

Definition but (O : Z -> Prop) (n0 : Z) : Z -> Prop := fun n => O n /\ n <> n0.

Section Name.
Context (O : Z -> Prop) (kernel_half : Z -> Z).
Implicit Types (s : mmu) (A : aspaces).

Lemma other_free s A a :
  stands O kernel_half s A -> kpage_ok a -> O (a / PGSIZE) ->
  exists p, palloc_free_page a (frames s) = Ok (tt, p) /\ freed a 1 (frames s) p /\ stands (but O (a / PGSIZE)) kernel_half (set_frames p s) A.
Proof.
  intros St Hk Ho. pose proof St as [Tl [T R]]. pose proof R as [S R2 R3 R4 R5 R6 R7 R8 R9]. pose proof Hk as [Ham Hkr].
  destruct (R7 _ Ho) as (Hnn & Hal & Hr).
  destruct (palloc_free_multiple_ok false a 1 (frames s)) as [(p & E & Fr & _)|(_ & n & Hn & Hf)];
    [apply S|unfold PHYS_BASE in Hkr; lia|done|lia|done| |assert (n = a / PGSIZE) as -> by lia; congruence].
  exists p. split; [done|]. split; [done|]. eapply (elsewhere_stands (fun _ => False)); [exact St|]. destruct (freed_page _ _ _ Fr Ham) as [Hfree Hout]. destruct Fr as [F1 F2 F3 F4].
  split; try done.
  - intros x. simpl. rewrite F4. destruct (within _ _ _); [done|apply S].
  - intros n Hr' Ha' Ho'. assert (n <> a / PGSIZE) by (by intros ->). split; [by intros [? _]|]. destruct (Hout n) as [Ea Er]; [done|]. simpl. by rewrite Ea.
  - intros n [Ho' Hne]. destruct (R7 n Ho') as (_ & ? & ?). split; [done|]. simpl. by rewrite (proj1 (Hout n Hne)).
  - intros n Hr' Ha'. simpl in Ha'. assert (Hne : n <> a / PGSIZE) by (intros ->; congruence). rewrite (proj1 (Hout n Hne)) in Ha'.
    destruct (R8 n Hr' Ha') as [Hn|Ho']; [|by left]. right. split; [done|]. intros Ho'. by apply R7 in Ho' as [? _].
  - intros y k Hm. destruct (R4 y k Hm) as ([K1 _] & K2 & K3). assert (Hne : k / PGSIZE <> a / PGSIZE).
    { intros E1. rewrite E1 in K3. destruct Hr as [L1 L2], K3 as [J1 J2], (sp_pages _ _ S) as [_ _ Hap]. simpl in *. lia. }
    simpl. by rewrite (proj1 (Hout _ Hne)).
Qed.
(** The name is read. *)
Lemma read_string_ok m fuel a l : cstr m a l -> (length l < fuel)%nat -> read_string fuel a m = Ok (l, m).
Proof.
  revert a fuel. induction l as [|c l IH]; intros a [|fuel] Hl Hf; simpl in *; [lia| |lia|].
  - apply cstr_nil in Hl. erewrite bind_ok by reflexivity. by rewrite Hl.
  - apply cstr_cons in Hl as (Hc & Hch & Hl). erewrite bind_ok by reflexivity. rewrite Hc, (proj2 (Z.eqb_neq c 0)) by lia.
    by rewrite (bind_ok _ _ _ _ _ (IH (a + 1) fuel Hl ltac:(lia))).
Qed.
Lemma cstr_byte m a l x : cstr m a l -> a <= x <= a + len l -> byte (m x).
Proof.
  revert a. induction l as [|c l IH]; intros a Hl Hx; simpl in *.
  - apply cstr_nil in Hl. assert (x = a) as -> by lia. by rewrite Hl.
  - apply cstr_cons in Hl as (Hc & Hch & Hl). destruct (decide (x = a)) as [->|]; [rewrite Hc; unfold byte; lia|]. eapply IH; [exact Hl|lia].
Qed.
(** A kernel page outside of the address space is freed. *)
Lemma loaded_free_other s0 A0 pd ps s f a p' :
  loaded O kernel_half s0 A0 pd ps None s f -> stands (but O (a / PGSIZE)) kernel_half (set_frames p' s) (<[pd := f]> A0) ->
  O (a / PGSIZE) -> kpage_ok a -> freed a 1 (frames s) p' -> loaded (but O (a / PGSIZE)) kernel_half s0 A0 pd ps None (set_frames p' s) f.
Proof.
  intros L St Ho [Ham _] Fr. pose proof L as [L1 L2 L3 L4 L5 L6 Lf L7 L8 L9]. destruct (freed_page _ _ _ Fr Ham) as [_ Hout].
  destruct L1 as [_ [T R]]. assert (Hu : forall n, run_of (frames s0) true n 1 -> n <> a / PGSIZE).
  { intros n Hn ->. apply (same_pools_run _ _ true _ 1 L8) in Hn. by eapply (others_not_user O kernel_half s T _ _ R). }
  split; try done.
  - intros u Hun. destruct (L3 u Hun) as (Hn & k & Hk & Ef & Hh). split; [done|]. exists k. split; [done|]. split; [done|].
    eapply holds_page_ext; [|apply Hk|done]. intros x Hx. eapply Hout; [|done]. apply Hu.
    assert (Hm : exists x, maps (<[pd := f]> A0) x k).
    { exists (pd, u_no u), f. cbn [fst snd]. rewrite lookup_insert_eq, Ef. destruct (user_entry_facts k (u_w u) Hk) as (P & _). by rewrite user_entry_frame. }
    by destruct (extra_maps _ _ _ _ _ _ _ _ _ k L Hm).
  - intros n Hn. simpl. rewrite (proj1 (Hout n (Hu n Hn))). by apply L5.
  - intros x Hx. simpl. assert (Hne : x / PGSIZE <> a / PGSIZE) by (destruct Hx as [[Hx _]|[_ ?]]; [by apply Hu|done]).
    rewrite (proj2 (Hout _ Hne) x eq_refl). apply L7. destruct Hx as [?|[? _]]; tauto.
  - by eapply same_pools_trans; [|apply Fr].
Qed.
(** A new kernel page with other contents. *)
Definition plus (O : Z -> Prop) (n0 : Z) : Z -> Prop := fun n => O n \/ n = n0.
Lemma other_alloc s A a p m :
  stands O kernel_half s A -> got 0 1 (frames s) a p -> byte_ram m -> (forall x, x / PGSIZE <> a / PGSIZE -> m x = ram (frames s) x) ->
  stands (plus O (a / PGSIZE)) kernel_half (poked (set_frames p s) m) A /\ kpage_ok a.
Proof.
  intros St G Hb Hm. pose proof St as [Tl [T R]]. pose proof R as [S R2 R3 R4 R5 R6 R7 R8 R9].
  destruct (got_page s T 0 a p S G) as (_ & Hk & _). split; [|done]. pose proof G as [G1 G2 (A1 & A2 & A3) G4 G5 G6 G7].
  change (has_flag 0 PAL_USER) with false in G4.
  assert (Hal : allocated p (a / PGSIZE) = true) by (rewrite G6; unfold within; by case_cmp).
  assert (Hal' : forall n, n <> a / PGSIZE -> allocated p n = allocated (frames s) n).
  { intros n Hn. rewrite G6. unfold within. destruct ((a / PGSIZE <=? n) && (n <? a / PGSIZE + 1)) eqn:Ew; [reflect_bools; lia|done]. }
  assert (Hno : forall n, allocated (frames s) n = true -> n <> a / PGSIZE) by (intros n Hn ->; rewrite G5 in Hn by lia; done).
  eapply (elsewhere_stands (fun _ => False)); [exact St|]. split; try done.
  - by apply pages_ok_ram.
  - intros n Hr Ha Ho. split; [intros [?|?]; [done|by apply Hno in Ha]|]. simpl. split; [change (allocated p n = true); rewrite Hal'; auto|]. intros x <-. by apply Hm, Hno.
  - intros n [Ho| ->]; [|done]. destruct (R7 n Ho) as (_ & Ha & ?). split; [done|]. change (allocated p n = true). rewrite Hal'; auto.
  - intros n Hr Ha. change (allocated p n = true) in Ha. destruct (decide (n = a / PGSIZE)) as [->|Hne]; [by left; right|]. rewrite Hal' in Ha by done.
    destruct (R8 n Hr Ha) as [Hn|Ho]; [|by left; left]. right. split; [done|]. intros Ho. by apply R7 in Ho as [? _].
  - intros y k Hmp. destruct (R4 y k Hmp) as (_ & K2 & _). change (allocated p (k / PGSIZE) = true). rewrite Hal'; auto.
Qed.
End Name.

Section Run.
Context {F : Type} `{!FileSys F} (init_ram_pages : Z) (O : Z -> Prop) (kernel_half : Z -> Z).
Context (N : gmap (list Z) (list Z)) (H : gmap Z (list Z * Z)) (A0 : aspaces).
Implicit Types (p : process F).
Abbreviation stand := (stands O kernel_half).

Lemma pages_in_place p p' ps : has_pages O kernel_half A0 p p' ps -> in_place (ram (frames (mem p'))) (pagedir p') ps /\ cr3 (mem p') + PHYS_BASE = pagedir p'.
Proof.
  intros (_ & _ & f & L). split; [|apply L]. destruct (ld_stands _ _ _ _ _ _ _ _ _ L) as [_ [T R]]. split.
  - intros u i Hu Hi. destruct (ld_page _ _ _ _ _ _ _ _ _ L u Hu) as (Hn & k & Hk & Ef & _ & Hb). exists (k - PHYS_BASE + i).
    assert (E : (u_no u * PGSIZE + i) / PGSIZE = u_no u) by (rewrite Z.div_add_l, Z.div_small by (done || lia); lia).
    assert (Em : (u_no u * PGSIZE + i) mod PGSIZE = i) by (rewrite Z.add_comm, Z.mod_add by done; by apply Z.mod_small).
    assert (Hua : user_addr (u_no u * PGSIZE + i)) by (unfold user_addr, USER_PAGES, PHYS_BASE, PGSIZE in *; lia).
    rewrite (walk_user _ _ _ _ _ _ f _ R (lookup_insert_eq _ _ _) Hua). cbv zeta. rewrite E, Em, Ef.
    destruct (user_entry_facts k (u_w u) Hk) as (F1 & _ & F2 & F3). unfold writable, user. rewrite F1, F2, !F3 by done.
    split; [by destruct (u_w u)|]. rewrite Hb by done. do 2 f_equal. lia.
  - intros va Hva Hn. rewrite (walk_user _ _ _ _ _ _ f _ R (lookup_insert_eq _ _ _) Hva). cbv zeta.
    rewrite (ld_only _ _ _ _ _ _ _ _ _ L); [done| |done]. by destruct (user_addr_facts va Hva) as (_ & ? & _).
Qed.
(** Nothing is left of a process that has not got an address space. *)
Lemma nothing_back p p' : keeps_user O (mem p) (mem p') -> memory_back O p p'.
Proof.
  intros [K1 K2 K3]. split.
  - intros n Hn. apply K3. by left.
  - intros x [[Hx _]|Hx]; apply K2; [by left|by right].
Qed.

(** C31: [load], in a kernel with any address spaces and open files: it returns, and leaves the
    files as they were.  If it succeeds, the name is that of a file with an ELF program; the
    entry point is that of the program, the stack pointer is the end of user memory, and under
    the active page directory user code finds exactly the pages of the program and of the
    stack: the bytes of the file, zeros after them, with the rights that the program header
    asks for, and nothing else.  It fails only when memory runs out, or when there is no such
    file, or no program in it whose segments are valid and disjoint. *)
Theorem load_builds_program p name :
  stand (mem p) A0 -> files_ok (fsys p) N H -> map_Forall (fun _ bs => Forall byte bs) N ->
  (forall n, run_of (frames (mem p)) true n 1 -> n - PHYS_BASE / PGSIZE < init_ram_pages) -> Forall (fun c => c <> 0) name ->
  exists r p', load init_ram_pages name p = Ok (r, p') /\ files_ok (fsys p') N H /\
    match r with
    | Some (eip, esp) => esp = PHYS_BASE /\ cr3 (mem p') + PHYS_BASE = pagedir p' /\ exists bs ps,
        N !! name = Some bs /\ program bs = Some (eip, ps) /\ in_place (ram (frames (mem p'))) (pagedir p') ps
    | None => pool_full false (frames (mem p)) \/ exhausted p' \/ unloadable N name
    end.
Proof.
  intros St Hf Hb Hram Hn. destruct (load_run init_ram_pages O kernel_half N H A0 p name St Hf Hb Hram Hn) as (r & p' & E & Hf' & Hr).
  exists r, p'. split; [done|]. split; [done|]. destruct r as [[eip esp]|]; [|by destruct Hr].
  destruct Hr as (-> & bs & ps & Hbs & Hp & L). destruct (pages_in_place p p' ps L) as [Hip Hc]. eauto 10.
Qed.

(** C32: A process leaves no trace in memory: after [load], whether it has succeeded or failed at
    any point, [process_exit] returns, the address spaces are those from before, exactly the
    pages of the user pool that were in use before are in use, and the memory of all pages that
    were in use before, page tables of the process apart, is unchanged. *)
Theorem exit_restores_memory p name :
  stand (mem p) A0 -> files_ok (fsys p) N H -> map_Forall (fun _ bs => Forall byte bs) N ->
  (forall n, run_of (frames (mem p)) true n 1 -> n - PHYS_BASE / PGSIZE < init_ram_pages) -> Forall (fun c => c <> 0) name ->
  exists r p1 p2, load init_ram_pages name p = Ok (r, p1) /\ process_exit p1 = Ok (tt, p2) /\
    pagedir p2 = 0 /\ files_ok (fsys p2) N H /\ stand (mem p2) A0 /\ memory_back O p p2.
Proof.
  intros St Hf Hb Hram Hn. destruct (load_run init_ram_pages O kernel_half N H A0 p name St Hf Hb Hram Hn) as (r & p1 & E & Hf' & Hr).
  assert (Hp : (pagedir p1 = 0 /\ stand (mem p1) A0 /\ keeps_user O (mem p) (mem p1)) \/ exists ps, has_pages O kernel_half A0 p p1 ps).
  { destruct r as [[eip esp]|]; [|by destruct Hr]. destruct Hr as (_ & bs & ps & _ & _ & L). eauto. }
  exists r, p1. destruct Hp as [(E0 & St1 & Ku)|(ps & L)].
  - exists p1. split; [done|]. unfold process_exit. erewrite bind_ok by reflexivity. rewrite E0. split; [done|]. split; [done|]. split; [done|]. split; [done|].
    by apply nothing_back.
  - destruct (exit_run init_ram_pages O kernel_half A0 p p1 ps L) as (p2 & E2 & E3 & E4 & St2 & Mb). exists p2. rewrite E4. done.
Qed.
End Run.

(** ** Starting a process *)

Section Start.
Context {F : Type} `{!FileSys F} (init_ram_pages : Z) (O : Z -> Prop) (kernel_half : Z -> Z).
Context (N : gmap (list Z) (list Z)) (H : gmap Z (list Z * Z)) (A0 : aspaces).
Implicit Types (p : process F).
Abbreviation O' a := (but O (a / PGSIZE)).

(** The page of the name is freed, with an address space and without one. *)
Lemma name_freed p p1 ps a :
  has_pages O kernel_half A0 p p1 ps -> kpage_ok a -> O (a / PGSIZE) ->
  exists p2, on_mem (on_frames (palloc_free_page a)) p1 = Ok (tt, p2) /\ fsys p2 = fsys p1 /\ pagedir p2 = pagedir p1 /\
    has_pages (O' a) kernel_half A0 p p2 ps /\ allocated (frames (mem p2)) (a / PGSIZE) = false.
Proof.
  intros (Hnz & HA & f & L) Hk Ho. destruct (other_free O kernel_half _ _ a (ld_stands _ _ _ _ _ _ _ _ _ L) Hk Ho) as (q & E & Fr & St).
  exists (with_mem p1 (set_frames q (mem p1))). split; [apply on_mem_ok; unfold on_frames; by rewrite E|]. split; [done|]. split; [done|]. split.
  - split; [done|]. split; [done|]. exists f. by apply loaded_free_other.
  - simpl. by apply (freed_page _ _ _ Fr), Hk.
Qed.
Lemma name_freed_early p p1 a :
  stands O kernel_half (mem p1) A0 -> keeps_user O (mem p) (mem p1) -> kpage_ok a -> O (a / PGSIZE) ->
  exists p2, on_mem (on_frames (palloc_free_page a)) p1 = Ok (tt, p2) /\ fsys p2 = fsys p1 /\ pagedir p2 = pagedir p1 /\
    stands (O' a) kernel_half (mem p2) A0 /\ memory_back (O' a) p p2 /\ allocated (frames (mem p2)) (a / PGSIZE) = false.
Proof.
  intros St [K1 K2 K3] Hk Ho. destruct (other_free O kernel_half _ _ a St Hk Ho) as (q & E & Fr & St').
  destruct (freed_page _ _ _ Fr (proj1 Hk)) as [Hf Hout]. pose proof St as [_ [T R]].
  assert (Hu : forall n, run_of (frames (mem p)) true n 1 -> n <> a / PGSIZE).
  { intros n Hn ->. apply (same_pools_run _ _ true _ 1 K1) in Hn. by eapply (others_not_user O kernel_half (mem p1) T _ _ R). }
  exists (with_mem p1 (set_frames q (mem p1))). split; [apply on_mem_ok; unfold on_frames; by rewrite E|]. do 3 (split; [done|]). split; [|done]. split.
  - intros n Hn. simpl. rewrite (proj1 (Hout n (Hu n Hn))). apply K3. by left.
  - intros x Hx. assert (Hne : x / PGSIZE <> a / PGSIZE) by (destruct Hx as [[Hx _]|[_ ?]]; [by apply Hu|done]).
    simpl. rewrite (proj2 (Hout _ Hne) x eq_refl). apply K2. destruct Hx as [[? _]|[? _]]; [by left|by right].
Qed.

(** [process_execute] hands the name on, cut to a page. *)
Lemma execute_run fuel thread_create p src name :
  stands O kernel_half (mem p) A0 -> src <> 0 -> cstr (ram (frames (mem p))) src name -> (length name < fuel)%nat ->
  (forall x, src <= x <= src + len name -> run_of (frames (mem p)) false (x / PGSIZE) 1 -> allocated (frames (mem p)) (x / PGSIZE) = true) ->
  (process_execute fuel thread_create src p = Ok (TID_ERROR, p) /\ pool_full false (frames (mem p))) \/
  exists a m, let p1 := with_mem p m in
    process_execute fuel thread_create src p =
      (tid ← thread_create a; when (tid =? TID_ERROR) (on_mem (on_frames (palloc_free_page a)));; mret tid) p1 /\
    kpage_ok a /\ stands (plus O (a / PGSIZE)) kernel_half m A0 /\ cstr (ram (frames m)) a (take (Z.to_nat (PGSIZE - 1)) name).
Proof.
  intros St Hsrc Hs Hf Hused. pose proof St as [_ [T R]]. pose proof (sp_bytes _ _ (rl_spaces _ _ _ _ _ R)) as Hby.
  destruct (palloc_get_multiple_ok 0 1 (frames (mem p)) (sp_pages _ _ (rl_spaces _ _ _ _ _ R))) as [(a & q & E & G)|[Hfull E]]; [lia| |].
  2:{ left. split; [|by apply (full_pool 0)]. unfold process_execute. erewrite bind_ok by (apply on_mem_ok; unfold on_frames, palloc_get_page; rewrite E; reflexivity).
      by destruct p as [[] ? ? ? ?]. }
  right. pose proof G as [G1 G2 (A1 & A2 & A3) G4 G5 G6 G7].
  assert (Hram : forall x, ram q x = ram (frames (mem p)) x) by (intros x; by rewrite G7).
  destruct (strlcpy_ok (ram q) fuel a src PGSIZE name) as (m' & Ec & Hc & Hout); [lia|done|done|by eapply cstr_agree; [intros x _; apply Hram|]|done| |].
  { destruct (decide (a <= src)); [by left|]. destruct (decide (src + len name <= a)); [by right|]. exfalso.
    specialize (Hused a ltac:(lia) G4). rewrite G5 in Hused by lia. done. }
  assert (Hlen : Z.min PGSIZE (len name + 1) = len (take (Z.to_nat (PGSIZE - 1)) name) + 1) by (rewrite length_take; unfold PGSIZE; lia).
  rewrite Hlen in Hout. set (short := take _ name) in *. assert (Hsl : len short + 1 <= PGSIZE) by lia.
  destruct (other_alloc O kernel_half (mem p) A0 a q m' St G) as [St' Hk].
  { intros x. destruct (within a (len short + 1) x) eqn:Ew; [|rewrite Hout by done; rewrite Hram; apply Hby].
    unfold within in Ew. reflect_bools. by eapply cstr_byte; [exact Hc|lia]. }
  { intros x Hx. rewrite <- Hram. apply Hout. unfold within. destruct ((a <=? x) && (x <? a + (len short + 1))) eqn:Ew; [|done]. reflect_bools. destruct Hx.
    replace x with (a + (x - a)) by lia. apply page_of; [done|lia]. }
  exists a, (poked (set_frames q (mem p)) m'). split; [|by split]. unfold process_execute.
  erewrite bind_ok by (apply on_mem_ok; unfold on_frames, palloc_get_page; rewrite E; reflexivity).
  rewrite (proj2 (Z.eqb_neq a 0)) by lia. erewrite bind_ok; [reflexivity|]. apply (on_mem_ok _ (with_mem p (set_frames q (mem p)))). unfold on_ram. simpl. by rewrite Ec.
Qed.

(** [start_process], given the name of a program in a kernel page: it returns, and
    that page is given back.  Either the registers it loads are those of user code at the entry
    point of the program, with interrupts on and an empty stack, in the active address space,
    which holds exactly the program; or the process is gone without a trace in the address
    spaces, the user pool and the memory in other use. *)
Theorem start_enters_program p a name :
  stands O kernel_half (mem p) A0 -> files_ok (fsys p) N H -> map_Forall (fun _ bs => Forall byte bs) N ->
  (forall n, run_of (frames (mem p)) true n 1 -> n - PHYS_BASE / PGSIZE < init_ram_pages) ->
  kpage_ok a -> O (a / PGSIZE) -> cstr (ram (frames (mem p))) a name -> len name < PGSIZE ->
  exists r p', start_process init_ram_pages a p = Ok (r, p') /\ files_ok (fsys p') N H /\
    match r with
    | Some frame => allocated (frames (mem p')) (a / PGSIZE) = false /\ exists bs eip ps, N !! name = Some bs /\ program bs = Some (eip, ps) /\ frame = entry_frame eip PHYS_BASE /\
        cr3 (mem p') + PHYS_BASE = pagedir p' /\ in_place (ram (frames (mem p'))) (pagedir p') ps
    | None => pagedir p' = 0 /\ stands (O' a) kernel_half (mem p') A0 /\ memory_back (O' a) p p'
    end.
Proof.
  intros St Hf Hb Hram Hk Ho Hs Hl. unfold start_process.
  assert (Er : on_mem (on_ram (read_string (Z.to_nat PGSIZE) a)) p = Ok (name, p)).
  { unfold on_mem, on_ram. rewrite (read_string_ok _ _ _ name Hs) by (unfold PGSIZE in *; lia). by destruct p as [[[]] ? ? ? ?]. }
  rewrite (bind_ok _ _ _ _ _ Er). assert (Hn : Forall (fun c => c <> 0) name) by (eapply Forall_impl; [apply Hs|]; simpl; lia).
  destruct (load_run init_ram_pages O kernel_half N H A0 p name St Hf Hb Hram Hn) as (r & p1 & E & Hf1 & Hr). rewrite (bind_ok _ _ _ _ _ E).
  destruct r as [[eip esp]|].
  - destruct Hr as (-> & bs & ps & Hbs & Hp & L). destruct (name_freed p p1 ps a L Hk Ho) as (p2 & E2 & E3 & E4 & L2 & Hal).
    exists (Some (entry_frame eip PHYS_BASE)), p2. rewrite (bind_ok _ _ _ _ _ E2). split; [done|]. rewrite E3. split; [done|].
    split; [done|]. destruct (pages_in_place _ _ _ p p2 ps L2) as [Hip Hc]. by exists bs, eip, ps.
  - destruct Hr as [[(E0 & St1 & Ku)|(ps & L)] _].
    + destruct (name_freed_early p p1 a St1 Ku Hk Ho) as (p2 & E2 & E3 & E4 & St2 & Mb & Hal). exists None, p2. rewrite (bind_ok _ _ _ _ _ E2).
      unfold process_exit. rewrite bind_assoc. erewrite bind_ok by reflexivity. rewrite E4, E0. split; [done|]. by rewrite E3.
    + destruct (name_freed p p1 ps a L Hk Ho) as (p2 & E2 & E3 & E4 & L2 & Hal). rewrite (bind_ok _ _ _ _ _ E2).
      destruct (exit_run init_ram_pages (O' a) kernel_half A0 p p2 ps L2) as (p3 & E5 & E6 & E7 & St3 & Mb). rewrite (bind_ok _ _ _ _ _ E5).
      exists None, p3. split; [done|]. by rewrite E7, E3.
Qed.
End Start.

(** ** A program on a disk *)

(** A file with a header, one program header, and a jump to itself. *)
Definition ex_elf : list Z :=
  [0x7f; 69; 76; 70; 1; 1; 1; 0; 0; 0; 0; 0; 0; 0; 0; 0; 2; 0; 3; 0; 1; 0; 0; 0; 0x54; 0x80; 4; 8; 52; 0; 0; 0; 0; 0; 0; 0; 0; 0; 0; 0;
   52; 0; 32; 0; 1; 0; 0; 0; 0; 0; 0; 0;
   1; 0; 0; 0; 0; 0; 0; 0; 0; 0x80; 4; 8; 0; 0x80; 4; 8; 86; 0; 0; 0; 0x88; 0x13; 0; 0; 7; 0; 0; 0; 0; 16; 0; 0;
   0xeb; 0xfe].
Abbreviation ex_junk := (replicate 20 0).
Definition ex_FileSys : FileSys (fs mounted) := fs_FileSys ex_junk eq_refl.
#[local] Existing Instance ex_FileSys.

Lemma ex_created : match (filesys_init (Some (blank_disk 16)) [0xcccccccc] true;; exec ex_junk (Create [97] 86)) (boot_fs 16) with Ok (RBool b, _) => b | _ => false end = true.
Proof. vm_compute. reflexivity. Qed.
(** The file is written and closed. *)
Lemma ex_written w (s : fs mounted) id :
  refines w s (mkAfs {[ [97] := id ]} {[ id := replicate 86 0 ]} ∅) -> exists s' : fs mounted, files_ok s' {[ [97] := ex_elf ]} ∅.
Proof.
  intros R. destruct (op_refines w s _ (Open [97]) ex_junk R) as (r & s1 & a1 & _ & P & R1); [repeat constructor; discriminate|done|].
  inversion P as [| |name id' fd Hn Hfd|name Hn| | | | | | | | | | | |]; subst; simpl in *; [|by rewrite lookup_singleton_eq in Hn].
  rewrite lookup_singleton_eq in Hn. injection Hn as <-. unfold set_afile in R1. simpl in R1.
  destruct (op_refines w s1 _ (Write fd ex_elf 86) ex_junk R1) as (r & s2 & a2 & _ & P2 & R2); [by split; [simpl; rewrite lookup_insert_eq; eauto|]|done|].
  inversion P2 as [| | | | | | | | |fd' x bs buffer n k Hx Hb Hp Hk|fd' x buffer n Hx Hp| | | | |]; subst; simpl in *; rewrite lookup_insert_eq in Hx; injection Hx as <-; simpl in *.
  2:{ destruct Hp as (q & y & Hy & _ & Hd). simpl in Hy. apply lookup_insert_Some in Hy as [[_ <-]|[_ Hy]]; [done|]. by rewrite lookup_empty in Hy. }
  rewrite lookup_singleton_eq in Hb. injection Hb as <-.
  destruct (op_refines w s2 _ (Close fd) ex_junk R2) as (r & s3 & a3 & _ & P3 & R3); [by simpl; rewrite lookup_insert_eq; eauto|done|].
  inversion P3; subst. exists s3. exists w. eexists. split; [exact R3|].
  replace (∅ : gmap Z (list Z * Z)) with (delete fd {[ fd := (ex_elf, 86) ]} : gmap Z (list Z * Z)) by (by rewrite delete_singleton_eq). apply sees_closed.
  change (splice (replicate 86 0) 0 (slice ex_elf 0 (0 `max` (86 `min` (len (replicate 86 0) - 0))))) with ex_elf.
  split; simpl.
  - intros name bs. rewrite lookup_singleton_Some. split; [intros [<- <-]; exists id; by rewrite lookup_singleton_eq, lookup_insert_eq|].
    intros (i & [<- <-]%lookup_singleton_Some & Hb). rewrite lookup_insert_eq in Hb. by injection Hb as <-.
  - intros q bs pos. rewrite lookup_singleton_Some. split.
    + intros [<- [= <- <-]]. eexists. rewrite lookup_insert_eq. split; [done|]. simpl. by rewrite lookup_insert_eq.
    + intros (y & Hy & Hb & <-). apply lookup_insert_Some in Hy as [[<- <-]|[Hne Hy]]; [|by rewrite lookup_insert_ne, lookup_empty in Hy].
      simpl in Hb. rewrite lookup_insert_eq in Hb. by injection Hb as <-.
Qed.
Lemma ex_files : exists s : fs mounted, files_ok s {[ [97] := ex_elf ]} ∅.
Proof.
  destruct (format_ok (blank_disk 16) [0xcccccccc] (boot_fs 16) blank_disk_ok ltac:(split; [discriminate|reflexivity]) blank_junk boot_fs_booted)
    as (w & s & E & R & _).
  destruct (op_refines w s _ (Create [97] 86) ex_junk R) as (r & s1 & a1 & E1 & P & R1);
    [split; [repeat constructor; discriminate|split; [discriminate|reflexivity]]|reflexivity|].
  pose proof ex_created as Hc. rewrite (bind_ok _ _ _ _ _ E), E1 in Hc. destruct r as [b| | | |]; try discriminate Hc. subst b. inversion P; subst. by eapply ex_written.
Qed.

(** The pages of the user pool lie in the memory that can be mapped. *)
Lemma user_pages_low O kernel_half s A : stands O kernel_half s A -> forall n, run_of (frames s) true n 1 -> n - PHYS_BASE / PGSIZE < 2 ^ 18.
Proof.
  intros [_ [T R]] n [_ Hn]. pose proof (sp_pages _ _ (rl_spaces _ _ _ _ _ R)) as P.
  destruct (pool_bounds _ (get_pool_ok true _ P)) as [_ B]. change (PHYS_BASE / PGSIZE) with 0xc0000. lia.
Qed.
Lemma ex_bytes : map_Forall (fun _ bs => Forall byte bs) ({[ [97] := ex_elf ]} : gmap (list Z) (list Z)).
Proof. apply map_Forall_singleton. repeat (constructor; [split; [discriminate|reflexivity]|]). constructor. Qed.
(** A process in the machine that has been booted, on the disk with the program. *)
Lemma ex_process : exists O kernel_half A (p : process (fs mounted)), stands O kernel_half (mem p) A /\ files_ok (fsys p) {[ [97] := ex_elf ]} ∅.
Proof.
  destruct ex_world as (m & s1 & s & A & O & f & _ & _ & _ & St & _), ex_files as (d & Hd).
  by exists O, (kernel_entries s1), A, (mkProcess s d 0 0xc0100000 0).
Qed.

Lemma load_builds_program_witness :
  exists O kernel_half A (p : process (fs mounted)) r p', stands O kernel_half (mem p) A /\
    fst <$> program ex_elf = Some 0x08048054 /\ load (2 ^ 18) [97] p = Ok (r, p') /\
    (forall eip esp, r = Some (eip, esp) -> esp = PHYS_BASE).
Proof.
  destruct ex_process as (O & kh & A & p & St & Hd).
  destruct (load_builds_program (2 ^ 18) O kh {[ [97] := ex_elf ]} ∅ A p [97] St Hd ex_bytes (user_pages_low O kh (mem p) A St)) as (r & p' & E & _ & Hr);
    [repeat constructor; discriminate|].
  exists O, kh, A, p, r, p'. split; [exact St|]. split; [vm_compute; reflexivity|]. split; [exact E|]. intros eip esp ->. apply Hr.
Defined.
Lemma exit_restores_memory_witness :
  exists O kernel_half A (p : process (fs mounted)) r p1 p2, load (2 ^ 18) [97] p = Ok (r, p1) /\ process_exit p1 = Ok (tt, p2) /\
    stands O kernel_half (mem p2) A /\ memory_back O p p2.
Proof.
  destruct ex_process as (O & kh & A & p & St & Hd).
  destruct (exit_restores_memory (2 ^ 18) O kh {[ [97] := ex_elf ]} ∅ A p [97] St Hd ex_bytes (user_pages_low O kh (mem p) A St)) as (r & p1 & p2 & E1 & E2 & _ & _ & St2 & Mb);
    [repeat constructor; discriminate|].
  exists O, kh, A, p, r, p1, p2. split; [exact E1|]. split; [exact E2|]. split; [exact St2|exact Mb].
Defined.

(** A machine with the name of the program in a page. *)
Definition ex_named_run : K mmu Z := paging_init 384 0xc0020000 0xc0030000;; on_frames (palloc_get_page 0).
Lemma ex_named_result : match ex_named_run ex_mmu with Ok (a, _) => negb (a =? 0) | _ => false end = true.
Proof. vm_compute. reflexivity. Qed.
Lemma named_machine m :
  fresh_memory m -> 1 + (384 + 1023) / 1024 <= ba_size (used_map (kernel_pool (frames m))) ->
  match ex_named_run m with Ok (a, _) => negb (a =? 0) | _ => false end = true ->
  exists O kernel_half s a, stands O kernel_half s ∅ /\ kpage_ok a /\ O (a / PGSIZE) /\ cstr (ram (frames s)) a [97].
Proof.
  intros Fm Hroom Hr. destruct (paging_init_ok 0xc0020000 0xc0030000 384 m Fm ltac:(lia) Hroom) as (s1 & K & E & M & Hc & Ht).
  unfold ex_named_run in Hr. rewrite (bind_ok _ _ _ _ _ E) in Hr.
  assert (St : stands (kernel_tables s1) (kernel_entries s1) s1 ∅) by (apply (boot_machine _ _ s1 K _ 384 M ltac:(done) Hc Ht)).
  pose proof St as [_ [T R]]. pose proof (sp_bytes _ _ (rl_spaces _ _ _ _ _ R)) as Hby.
  destruct (palloc_get_multiple_ok 0 1 (frames s1) (sp_pages _ _ (rl_spaces _ _ _ _ _ R))) as [(a & q & E2 & G)|[_ E2]]; [lia| |].
  2:{ unfold on_frames, palloc_get_page in Hr. rewrite E2 in Hr. discriminate Hr. }
  pose proof (gt_addr _ _ _ _ _ G) as (A1 & A2 & A3).
  set (mem' := fun x => if x =? a then 97 else if x =? a + 1 then 0 else ram (frames s1) x).
  assert (Hp : forall x, a <= x <= a + 1 -> x / PGSIZE = a / PGSIZE).
  { intros x Hx. replace x with (a + (x - a)) by lia. apply page_of; [done|unfold PGSIZE; lia]. }
  destruct (other_alloc _ _ s1 ∅ a q mem' St G) as [St' Hk].
  { intros x. unfold mem'. destruct (x =? a); [done|]. destruct (x =? a + 1); [done|apply Hby]. }
  { intros x Hx. unfold mem'. destruct (Z.eqb_spec x a); [by destruct Hx; apply Hp; lia|]. destruct (Z.eqb_spec x (a + 1)); [by destruct Hx; apply Hp; lia|done]. }
  eexists _, _, _, a. split; [exact St'|]. split; [done|]. split; [by right|]. apply cstr_cons. split; [simpl; unfold mem'; by rewrite Z.eqb_refl|]. split; [done|].
  apply cstr_nil. simpl. unfold mem'. by rewrite (proj2 (Z.eqb_neq (a + 1) a)), Z.eqb_refl by lia.
Qed.
Lemma start_enters_program_witness :
  exists O kernel_half (p : process (fs mounted)) a r p', stands O kernel_half (mem p) ∅ /\ cstr (ram (frames (mem p))) a [97] /\
    start_process (2 ^ 18) a p = Ok (r, p') /\ (forall frame, r = Some frame -> allocated (frames (mem p')) (a / PGSIZE) = false).
Proof.
  destruct (named_machine ex_mmu ex_fresh ex_room ex_named_result) as (O & kh & s & a & St & Hk & Ho & Hs), ex_files as (d & Hd).
  set (p := mkProcess s d 0 0xc0100000 0).
  destruct (start_enters_program (2 ^ 18) O kh {[ [97] := ex_elf ]} ∅ ∅ p a [97] St Hd ex_bytes (user_pages_low O kh s ∅ St) Hk Ho Hs eq_refl) as (r & p' & E & _ & Hr).
  exists O, kh, p, a, r, p'. split; [exact St|]. split; [exact Hs|]. split; [exact E|]. intros frame ->. apply Hr.
Defined.
