(* ===== verification/Intq.v ===== *)
(** Interrupt queues (devices/intq.h, devices/intq.c): circular queues of bytes between threads
    and interrupt handlers, and the threads that wait for them.

    Interrupts are off within each function, so a function runs without interruption up to a
    point where its thread blocks: in [lock_acquire] or in [wait]. There the function returns
    [None], and what is left of it is kept in [parked]. *)

From stdpp Require Import gmap.
From S2P Require Import Prelude KMonad Bytes.

Definition INTQ_BUFSIZE : Z := 64.

(** The lock is the thread that holds it. [put_log] and [got_log] are not part of the program:
    they record all bytes that have been added and removed. *)
Record intq := mkIntq {
  q_lock : option positive; not_full : option positive; not_empty : option positive;
  buf : list Z; head : Z; tail : Z; put_log : list Z; got_log : list Z
}.
(** The two queues of the system: characters for the serial port, and keys. *)
Inductive which := TXQ | INQ.
#[export] Instance which_eq_dec : EqDecision which.
Proof. solve_decision. Defined.
(** The function that a thread is in, with the interrupt level at its call, and where it is. *)
Inductive call := CGetc (old : bool) | CPutc (byte : Z) (old : bool).
Inductive place := AtLock | AtWait | Woken.
Record isys := mkIsys {
  txq : intq; inq : intq; intr_on : bool; in_intr : bool; current : positive; parked : gmap positive (which * call * place)
}.
Definition get_q (w : which) (s : isys) : intq := match w with TXQ => txq s | INQ => inq s end.
Definition set_q (w : which) (q : intq) (s : isys) : isys :=
  match w with
  | TXQ => mkIsys q (inq s) (intr_on s) (in_intr s) (current s) (parked s)
  | INQ => mkIsys (txq s) q (intr_on s) (in_intr s) (current s) (parked s)
  end.
Definition set_parked (p : gmap positive (which * call * place)) (s : isys) : isys :=
  mkIsys (txq s) (inq s) (intr_on s) (in_intr s) (current s) p.
Definition set_level (on : bool) (s : isys) : isys := mkIsys (txq s) (inq s) on (in_intr s) (current s) (parked s).

(** ** Interrupts, threads and locks *)

Definition intr_get_level : K isys bool := gets intr_on.
Definition intr_context : K isys bool := gets in_intr.
Definition intr_set_level (on : bool) : K isys unit := modify (set_level on).
Definition intr_disable : K isys bool := old ← gets intr_on; intr_set_level false;; mret old.
Definition intr_off : K isys unit := on ← intr_get_level; ASSERT (negb on).
Definition in_thread : K isys unit := c ← intr_context; ASSERT (negb c).

Definition park (w : which) (c : call) (p : place) : K isys unit := modify (fun s => set_parked (<[current s := (w, c, p)]> (parked s)) s).
Definition thread_unblock (t : positive) : K isys unit :=
  s ← get;
  match parked s !! t with
  | Some (w, c, AtWait) => modify (set_parked (<[t := (w, c, Woken)]> (parked s)))
  | _ => panic
  end.

Definition set_lock (h : option positive) (q : intq) : intq :=
  mkIntq h (not_full q) (not_empty q) (buf q) (head q) (tail q) (put_log q) (got_log q).
(** Whether the lock has been acquired; the thread blocks otherwise. *)
Definition lock_acquire (w : which) (c : call) : K isys bool :=
  in_thread;;
  s ← get;
  ASSERT (negb (bool_decide (q_lock (get_q w s) = Some (current s))));;
  match q_lock (get_q w s) with
  | None => modify (set_q w (set_lock (Some (current s)) (get_q w s)));; mret true
  | Some _ => park w c AtLock;; mret false
  end.
Definition lock_release (w : which) : K isys unit :=
  s ← get;
  ASSERT (bool_decide (q_lock (get_q w s) = Some (current s)));;
  modify (set_q w (set_lock None (get_q w s))).

(** ** Queues *)

Definition next (pos : Z) : Z := Z.rem (pos + 1) INTQ_BUFSIZE.
Definition intq_init (w : which) : K isys unit :=
  modify (fun s => set_q w (mkIntq None None None (buf (get_q w s)) 0 0 [] []) s).
Definition intq_empty (w : which) : K isys bool :=
  intr_off;; q ← gets (get_q w); mret (head q =? tail q).
Definition intq_full (w : which) : K isys bool :=
  intr_off;; q ← gets (get_q w); mret (next (head q) =? tail q).

(** The two conditions: [true] is for [not_empty]. *)
Definition waiter (empty : bool) (q : intq) : option positive := if empty then not_empty q else not_full q.
Definition set_waiter (empty : bool) (t : option positive) (q : intq) : intq :=
  if empty then mkIntq (q_lock q) (not_full q) t (buf q) (head q) (tail q) (put_log q) (got_log q)
  else mkIntq (q_lock q) t (not_empty q) (buf q) (head q) (tail q) (put_log q) (got_log q).
Definition wait (w : which) (empty : bool) (c : call) : K isys unit :=
  in_thread;; intr_off;;
  b ← (if empty then intq_empty w else intq_full w); ASSERT b;;
  modify (fun s => set_q w (set_waiter empty (Some (current s)) (get_q w s)) s);;
  park w c AtWait.
Definition signal (w : which) (empty : bool) : K isys unit :=
  intr_off;;
  b ← (if empty then intq_empty w else intq_full w); ASSERT (negb b);;
  q ← gets (get_q w);
  match waiter empty q with
  | Some t => thread_unblock t;; modify (fun s => set_q w (set_waiter empty None (get_q w s)) s)
  | None => mret tt
  end.

Definition taken (q : intq) (byte : Z) : intq :=
  mkIntq (q_lock q) (not_full q) (not_empty q) (buf q) (head q) (next (tail q)) (put_log q) (got_log q ++ [byte]).
Definition intq_getc (w : which) (c : call) : K isys (option Z) :=
  intr_off;;
  e ← intq_empty w;
  if (e : bool) then
    in_thread;;
    locked ← lock_acquire w c;
    when locked (wait w true c);;
    mret None
  else
    q ← gets (get_q w);
    byte ← the (buf q !! Z.to_nat (tail q));
    modify (set_q w (taken q byte));;
    signal w false;;
    mret (Some byte).
Definition added (q : intq) (byte : Z) : intq :=
  mkIntq (q_lock q) (not_full q) (not_empty q) (<[Z.to_nat (head q) := byte]> (buf q)) (next (head q)) (tail q) (put_log q ++ [byte]) (got_log q).
Definition intq_putc (w : which) (byte : Z) (c : call) : K isys (option unit) :=
  intr_off;;
  e ← intq_full w;
  if (e : bool) then
    in_thread;;
    locked ← lock_acquire w c;
    when locked (wait w false c);;
    mret None
  else
    q ← gets (get_q w);
    modify (set_q w (added q byte));;
    signal w true;;
    mret (Some tt).

(** ** What a queue holds *)

Definition count (q : intq) : Z := (head q - tail q) mod INTQ_BUFSIZE.
Definition contents (q : intq) : list Z :=
  (fun i => default 0 (buf q !! Z.to_nat ((tail q + i) mod INTQ_BUFSIZE))) <$> seqZ 0 (count q).
Record intq_wf (q : intq) : Prop := {
  wf_buf : length (buf q) = 64%nat;
  wf_bytes : Forall byte (buf q);
  wf_head : 0 <= head q < INTQ_BUFSIZE;
  wf_tail : 0 <= tail q < INTQ_BUFSIZE;
  wf_log : put_log q = got_log q ++ contents q
}.

Lemma next_mod p : 0 <= p < INTQ_BUFSIZE -> next p = (p + 1) mod INTQ_BUFSIZE /\ 0 <= next p < INTQ_BUFSIZE.
Proof. intros Hp. unfold next, INTQ_BUFSIZE in *. rewrite Z.rem_mod_nonneg by lia. split; [done|]. by apply Z.mod_pos_bound. Qed.
Lemma contents_length q : len (contents q) = count q.
Proof. unfold contents. rewrite length_fmap, length_seqZ. unfold count. pose proof (Z.mod_pos_bound (head q - tail q) INTQ_BUFSIZE ltac:(done)). lia. Qed.
Lemma full_bound q : 0 <= len (contents q) <= 63.
Proof. rewrite contents_length. pose proof (Z.mod_pos_bound (head q - tail q) INTQ_BUFSIZE ltac:(done)). unfold count, INTQ_BUFSIZE in *. lia. Qed.
(** Counting modulo the size of the buffer. *)
Lemma count_cases q : intq_wf q ->
  (tail q <= head q /\ count q = head q - tail q) \/ (head q < tail q /\ count q = head q - tail q + INTQ_BUFSIZE).
Proof.
  intros [_ _ Hh Ht _]. unfold count. destruct (Z.le_gt_cases (tail q) (head q)); [left|right]; (split; [done|]).
  - apply Z.mod_small. lia.
  - symmetry. apply (Z.mod_unique _ _ (-1)); lia.
Qed.
Lemma empty_contents q : intq_wf q -> (head q =? tail q) = bool_decide (contents q = []).
Proof.
  intros W. pose proof (contents_length q) as Hl. destruct (count_cases q W) as [[? E]|[? E]]; rewrite E in Hl; destruct (Z.eqb_spec (head q) (tail q));
    symmetry; (apply bool_decide_eq_true || apply bool_decide_eq_false).
  - apply length_zero_iff_nil. lia.
  - intros E2. rewrite E2 in Hl. simpl in Hl. lia.
  - lia.
  - intros E2. rewrite E2 in Hl. simpl in Hl. destruct W. lia.
Qed.
Lemma next_cases p : 0 <= p < INTQ_BUFSIZE -> (p < 63 /\ next p = p + 1) \/ (p = 63 /\ next p = 0).
Proof. intros Hp. unfold next, INTQ_BUFSIZE in *. destruct (decide (p = 63)) as [->|]; [by right|left]. split; [lia|]. apply Z.rem_small. lia. Qed.
Lemma full_contents q : intq_wf q -> (next (head q) =? tail q) = (len (contents q) =? 63).
Proof.
  intros W. rewrite contents_length. pose proof (wf_head _ W). pose proof (wf_tail _ W). unfold INTQ_BUFSIZE in *.
  destruct (count_cases q W) as [[? ->]|[? ->]], (next_cases (head q) (wf_head _ W)) as [[? ->]|[? ->]]; unfold INTQ_BUFSIZE; apply eq_true_iff_eq; rewrite !Z.eqb_eq; lia.
Qed.
(** The place of the [i]th byte. *)
Lemma index_cases q i : intq_wf q -> 0 <= i < INTQ_BUFSIZE ->
  (tail q + i < INTQ_BUFSIZE /\ (tail q + i) mod INTQ_BUFSIZE = tail q + i) \/
  (INTQ_BUFSIZE <= tail q + i /\ (tail q + i) mod INTQ_BUFSIZE = tail q + i - INTQ_BUFSIZE).
Proof.
  intros W Hi. pose proof (wf_tail _ W). destruct (Z.lt_ge_cases (tail q + i) INTQ_BUFSIZE); [left|right]; (split; [done|]).
  - apply Z.mod_small. lia.
  - symmetry. apply (Z.mod_unique _ _ 1); lia.
Qed.
Lemma added_wf q b : intq_wf q -> byte b -> len (contents q) < 63 ->
  intq_wf (added q b) /\ contents (added q b) = contents q ++ [b].
Proof.
  intros W Hb Hn. rewrite contents_length in Hn. pose proof W as [W1 W2 W3 W4 W5]. pose proof (proj2 (next_mod _ W3)) as Hnx.
  assert (Ec : count (added q b) = count q + 1).
  { unfold count in *. simpl. rewrite (proj1 (next_mod _ W3)), Zminus_mod_idemp_l. pose proof (Z.mod_pos_bound (head q - tail q) INTQ_BUFSIZE ltac:(done)).
    replace (head q + 1 - tail q) with (head q - tail q + 1) by lia. rewrite <- Z.add_mod_idemp_l by done. apply Z.mod_small. unfold INTQ_BUFSIZE in *. lia. }
  assert (E : contents (added q b) = contents q ++ [b]).
  { unfold contents. rewrite Ec. pose proof (Z.mod_pos_bound (head q - tail q) INTQ_BUFSIZE ltac:(done)) as Hc. fold (count q) in Hc.
    rewrite seqZ_app, fmap_app by lia. f_equal.
    - apply list_fmap_ext. intros i x Hx. apply lookup_seqZ in Hx as [-> Hi]. simpl. rewrite list_lookup_insert_ne; [done|].
      destruct (index_cases q (0 + Z.of_nat i) W ltac:(lia)) as [[? E]|[? E]], (count_cases q W) as [[? ?]|[? ?]]; rewrite E; lia.
    - simpl. f_equal. assert (Eh : (tail q + count q) mod INTQ_BUFSIZE = head q).
      { unfold count. rewrite Z.add_mod_idemp_r by done. replace (tail q + (head q - tail q)) with (head q) by lia. by apply Z.mod_small. }
      replace (Z.of_nat 0 + (0 + count q)) with (count q) by lia. rewrite Eh, list_lookup_insert_eq; [done|]. rewrite W1. unfold INTQ_BUFSIZE in *. lia. }
  split; [|done]. split; [simpl; by rewrite length_insert|simpl; by apply Forall_insert|done|done|]. rewrite E. simpl. rewrite W5, app_assoc. done.
Qed.
Lemma taken_wf q : intq_wf q -> contents q <> [] ->
  exists b, buf q !! Z.to_nat (tail q) = Some b /\ byte b /\ contents q = b :: contents (taken q b) /\ intq_wf (taken q b).
Proof.
  intros W Hne. pose proof W as [W1 W2 W3 W4 W5]. pose proof (proj2 (next_mod _ W4)) as Hnx.
  destruct (lookup_lt_is_Some_2 (buf q) (Z.to_nat (tail q))) as [b Hb]; [rewrite W1; unfold INTQ_BUFSIZE in *; lia|]. exists b.
  assert (Hc : 1 <= count q <= 63).
  { pose proof (contents_length q). pose proof (Z.mod_pos_bound (head q - tail q) INTQ_BUFSIZE ltac:(done)). unfold count, INTQ_BUFSIZE in *. destruct (contents q); [done|].
    simpl in *. lia. }
  assert (Ec : count (taken q b) = count q - 1).
  { unfold count in *. simpl. rewrite (proj1 (next_mod _ W4)), Zminus_mod_idemp_r. replace (head q - (tail q + 1)) with (head q - tail q - 1) by lia.
    rewrite <- Zminus_mod_idemp_l. apply Z.mod_small. unfold INTQ_BUFSIZE in *. lia. }
  assert (E : contents q = b :: contents (taken q b)).
  { unfold contents. rewrite Ec, seqZ_cons by lia. simpl. f_equal.
    - rewrite Z.add_0_r, Z.mod_small by done. by rewrite Hb.
    - rewrite <- Z.sub_1_r. change (Z.succ 0) with (1 + 0). rewrite <- (fmap_add_seqZ 1 0 (count q - 1)), <- list_fmap_compose.
      apply list_fmap_ext. intros i x Hx. simpl. rewrite (proj1 (next_mod _ W4)), Z.add_mod_idemp_l by done. do 4 f_equal. lia. }
  split; [done|]. split; [by eapply Forall_lookup_1|]. split; [done|]. split; [done..|]. simpl. by rewrite W5, E, <- app_assoc.
Qed.

(** ** Threads that wait *)

Definition is_get (c : call) : bool := match c with CGetc _ => true | CPutc _ _ => false end.
(** The condition that a thread waits for does not hold. *)
Definition must_wait (empty : bool) (q : intq) : Prop := if empty then contents q = [] else len (contents q) = 63.
(** Threads that get bytes do so from the one queue, threads that put bytes into the other. *)
Definition call_ok (w : which) (c : call) : Prop := match c with CGetc _ => w = INQ | CPutc b _ => w = TXQ /\ byte b end.
(** With at most one thread for each queue: the thread has the lock and waits for a condition
    that does not hold, or has been woken up. *)
Record sys_ok (s : isys) : Prop := {
  so_wf w : intq_wf (get_q w s);
  so_parked t w c p : parked s !! t = Some (w, c, p) -> p <> AtLock /\ call_ok w c /\ q_lock (get_q w s) = Some t;
  so_wait t w c : parked s !! t = Some (w, c, AtWait) -> waiter (is_get c) (get_q w s) = Some t /\ must_wait (is_get c) (get_q w s);
  so_waiter w e t : waiter e (get_q w s) = Some t -> exists c, parked s !! t = Some (w, c, AtWait) /\ is_get c = e;
  so_lock w t : q_lock (get_q w s) = Some t -> exists c p, parked s !! t = Some (w, c, p)
}.
(** What the operations on queues leave as it is. *)
Record same_ctx (s s' : isys) : Prop := {
  sc_level : intr_on s' = intr_on s;
  sc_intr : in_intr s' = in_intr s;
  sc_current : current s' = current s;
  sc_lock w : q_lock (get_q w s') = q_lock (get_q w s);
  sc_parked t : parked s' !! t = None <-> parked s !! t = None
}.
#[export] Instance same_ctx_refl : Reflexive same_ctx.
Proof. by split. Qed.
#[export] Instance same_ctx_trans : Transitive same_ctx.
Proof. intros s1 s2 s3 [A1 A2 A3 A4 A5] [B1 B2 B3 B4 B5]. split; [congruence..| |]; [intros w; by rewrite B4|intros t; by rewrite B5]. Qed.

Lemma get_set_q w q s : get_q w (set_q w q s) = q.
Proof. by destruct w. Qed.
Lemma get_set_q_ne w w' q s : w' <> w -> get_q w' (set_q w q s) = get_q w' s.
Proof. by destruct w, w'. Qed.
Lemma get_q_parked w p s : get_q w (set_parked p s) = get_q w s.
Proof. by destruct w. Qed.
Lemma set_q_ctx w q s : intr_on (set_q w q s) = intr_on s /\ in_intr (set_q w q s) = in_intr s /\ current (set_q w q s) = current s /\ parked (set_q w q s) = parked s.
Proof. by destruct w. Qed.

(** One queue has changed; nobody waits for it any more. *)
Lemma nobody_waits w s s' :
  sys_ok s -> intq_wf (get_q w s') -> (forall w', w' <> w -> get_q w' s' = get_q w' s) -> q_lock (get_q w s') = q_lock (get_q w s) ->
  (forall e, waiter e (get_q w s') = None) -> (forall t c, parked s' !! t <> Some (w, c, AtWait)) ->
  (forall t, parked s' !! t = parked s !! t \/ exists c, parked s !! t = Some (w, c, AtWait) /\ parked s' !! t = Some (w, c, Woken)) -> sys_ok s'.
Proof.
  intros S Wq Hne Hl Hw Hp Hch. assert (Hlk : forall w', q_lock (get_q w' s') = q_lock (get_q w' s)).
  { intros w'. destruct (decide (w' = w)) as [->|]; [done|by rewrite Hne]. }
  split.
  - intros w'. destruct (decide (w' = w)) as [->|]; [done|rewrite Hne by done; apply S].
  - intros t w' c p Ht. rewrite Hlk. destruct (Hch t) as [E|(c' & E1 & E2)]; [apply S; by rewrite <- E|].
    rewrite E2 in Ht. injection Ht as <- <- <-. by destruct (so_parked _ S _ _ _ _ E1).
  - intros t w' c Ht. assert (w' <> w) by (intros ->; by apply Hp in Ht). rewrite Hne by done.
    destruct (Hch t) as [E|(c' & E1 & E2)]; [apply S; by rewrite <- E|congruence].
  - intros w' e t Ht. assert (w' <> w) by (intros ->; by rewrite Hw in Ht). rewrite Hne in Ht by done.
    destruct (so_waiter _ S w' e t Ht) as (c & E & He). exists c. split; [|done]. destruct (Hch t) as [->|(c' & E1 & E2)]; [done|congruence].
  - intros w' t Ht. rewrite Hlk in Ht. destruct (so_lock _ S w' t Ht) as (c & p & E). destruct (Hch t) as [->|(c' & E1 & E2)]; [eauto|].
    rewrite E1 in E. injection E as <- <- <-. eauto.
Qed.
Lemma waiter_one w e s t : sys_ok s -> waiter e (get_q w s) = Some t -> must_wait e (get_q w s) /\ q_lock (get_q w s) = Some t.
Proof.
  intros S Hw. destruct (so_waiter _ S w e t Hw) as (c & Hp & <-). split; [by apply (so_wait _ S t w c)|by apply (so_parked _ S _ _ _ _ Hp)].
Qed.
Lemma intr_off_ok s : intr_on s = false -> intr_off s = Ok (tt, s).
Proof. intros Hoff. unfold intr_off. erewrite bind_ok by reflexivity. by rewrite Hoff. Qed.
Lemma intq_empty_ok w s : intr_on s = false -> intq_wf (get_q w s) -> intq_empty w s = Ok (bool_decide (contents (get_q w s) = []), s).
Proof. intros Hoff W. unfold intq_empty. rewrite (bind_ok _ _ _ _ _ (intr_off_ok s Hoff)). erewrite bind_ok by reflexivity. by rewrite empty_contents. Qed.
Lemma intq_full_ok w s : intr_on s = false -> intq_wf (get_q w s) -> intq_full w s = Ok (len (contents (get_q w s)) =? 63, s).
Proof. intros Hoff W. unfold intq_full. rewrite (bind_ok _ _ _ _ _ (intr_off_ok s Hoff)). erewrite bind_ok by reflexivity. by rewrite full_contents. Qed.

(** A queue whose bytes have changed, and the other side is told. *)
Lemma signal_ok w e q s :
  sys_ok s -> intr_on s = false -> intq_wf q -> q_lock q = q_lock (get_q w s) -> not_full q = not_full (get_q w s) -> not_empty q = not_empty (get_q w s) ->
  ~ must_wait e q -> ~ must_wait (negb e) (get_q w s) ->
  exists s', signal w e (set_q w q s) = Ok (tt, s') /\ sys_ok s' /\ same_ctx s s' /\
    contents (get_q w s') = contents q /\ got_log (get_q w s') = got_log q /\ (forall w', w' <> w -> get_q w' s' = get_q w' s).
Proof.
  intros S Hoff Wq Hl Hnf Hne Hnow Hother. destruct (set_q_ctx w q s) as (C1 & C2 & C3 & C4). rewrite <- C1 in Hoff.
  assert (Hw : forall e', waiter e' q = waiter e' (get_q w s)) by (by intros []).
  assert (Hno : waiter (negb e) (get_q w s) = None).
  { destruct (waiter (negb e) (get_q w s)) as [t|] eqn:Ew; [|done]. by destruct (waiter_one w (negb e) s t S Ew). }
  assert (Htest : (if e then intq_empty w else intq_full w) (set_q w q s) = Ok (false, set_q w q s)).
  { destruct e; [rewrite intq_empty_ok|rewrite intq_full_ok]; rewrite ?get_set_q; try done; simpl in Hnow; do 2 f_equal; [by rewrite bool_decide_eq_false_2|by apply Z.eqb_neq]. }
  unfold signal. rewrite (bind_ok _ _ _ _ _ (intr_off_ok _ Hoff)), (bind_ok _ _ _ _ _ Htest), ASSERT_true by done. erewrite bind_ok by reflexivity. rewrite get_set_q, Hw.
  destruct (waiter e (get_q w s)) as [t|] eqn:Ew.
  - destruct (so_waiter _ S w e t Ew) as (c & Hp & He). destruct (waiter_one w e s t S Ew) as [_ Hlt].
    set (s' := set_q w (set_waiter e None q) (set_parked (<[t := (w, c, Woken)]> (parked s)) (set_q w q s))). exists s'.
    assert (Eg : get_q w s' = set_waiter e None q) by apply get_set_q.
    assert (Pp : parked s' = <[t := (w, c, Woken)]> (parked s)) by (unfold s'; by destruct w).
    assert (Eo : forall w', w' <> w -> get_q w' s' = get_q w' s) by (intros w' Hw'; unfold s'; by rewrite get_set_q_ne, get_q_parked, get_set_q_ne).
    assert (El : q_lock (get_q w s') = q_lock (get_q w s)) by (rewrite Eg, <- Hl; by destruct e).
    split. { erewrite bind_ok; [|unfold thread_unblock; erewrite bind_ok by reflexivity; rewrite C4, Hp; reflexivity]. unfold modify, s'. by rewrite get_q_parked, get_set_q. }
    split; [|split; [|split; [rewrite Eg; by destruct e|split; [rewrite Eg; by destruct e|exact Eo]]]].
    + apply (nobody_waits w s s' S); [rewrite Eg; destruct Wq, e; by split|done|done| | |].
      * intros e'. rewrite Eg. destruct e, e'; simpl in *; congruence.
      * intros t' c'. rewrite Pp. destruct (decide (t = t')) as [<-|Hne']; [by rewrite lookup_insert_eq|]. rewrite lookup_insert_ne by done.
        intros Hp'. destruct (so_parked _ S _ _ _ _ Hp') as (_ & _ & ?). congruence.
      * intros t'. rewrite Pp. destruct (decide (t = t')) as [<-|Hne']; [right; exists c; by rewrite lookup_insert_eq|left; by rewrite lookup_insert_ne].
    + split; [unfold s'; by destruct w..| |].
      * intros w'. destruct (decide (w' = w)) as [->|]; [done|by rewrite Eo].
      * intros t'. rewrite Pp. destruct (decide (t = t')) as [<-|Hne']; [by rewrite lookup_insert_eq, Hp|by rewrite lookup_insert_ne].
  - exists (set_q w q s). split; [done|]. split; [|split; [|split; [by rewrite get_set_q|split; [by rewrite get_set_q|intros w' Hw'; by apply get_set_q_ne]]]].
    + apply (nobody_waits w s _ S); rewrite ?get_set_q, ?C4; try done.
      * intros w' Hw'. by apply get_set_q_ne.
      * intros e'. rewrite Hw. destruct e, e'; simpl in *; congruence.
      * intros t c Hp. destruct (so_wait _ S t w c Hp) as [Hp' _]. destruct (is_get c), e; simpl in *; congruence.
      * intros t. by left.
    + split; [done..| |by rewrite C4]. intros w'. destruct (decide (w' = w)) as [->|]; [by rewrite get_set_q|by rewrite get_set_q_ne].
Qed.

(** ** The operations *)

(** A byte is there. *)
Lemma intq_getc_now w c s b rest :
  sys_ok s -> intr_on s = false -> contents (get_q w s) = b :: rest ->
  exists s', intq_getc w c s = Ok (Some b, s') /\ byte b /\ sys_ok s' /\ same_ctx s s' /\ contents (get_q w s') = rest /\
    got_log (get_q w s') = got_log (get_q w s) ++ [b] /\ (forall w', w' <> w -> get_q w' s' = get_q w' s).
Proof.
  intros S Hoff Hc. pose proof (so_wf _ S w) as W. assert (Hne : contents (get_q w s) <> []) by (by rewrite Hc).
  destruct (taken_wf _ W Hne) as (b' & Hb & Hby & Hc' & W'). rewrite Hc in Hc'. injection Hc' as <- ->.
  pose proof (full_bound (get_q w s)) as [_ Hlen].
  destruct (signal_ok w false (taken (get_q w s) b) s S Hoff W') as (s' & E & S' & Cx & Ec & Eg & Eo); [done|done|done| | |].
  - simpl. rewrite Hc in Hlen. simpl in Hlen. lia.
  - simpl. done.
  - exists s'. split; [|done]. unfold intq_getc. rewrite (bind_ok _ _ _ _ _ (intr_off_ok s Hoff)), (bind_ok _ _ _ _ _ (intq_empty_ok w s Hoff W)).
    rewrite bool_decide_eq_false_2 by done. erewrite bind_ok by reflexivity. erewrite bind_ok by (rewrite Hb; reflexivity). erewrite bind_ok by reflexivity.
    by rewrite (bind_ok _ _ _ _ _ E).
Qed.
(** There is room. *)
Lemma intq_putc_now w b c s :
  sys_ok s -> intr_on s = false -> byte b -> len (contents (get_q w s)) <> 63 ->
  exists s', intq_putc w b c s = Ok (Some tt, s') /\ sys_ok s' /\ same_ctx s s' /\ contents (get_q w s') = contents (get_q w s) ++ [b] /\
    got_log (get_q w s') = got_log (get_q w s) /\ (forall w', w' <> w -> get_q w' s' = get_q w' s).
Proof.
  intros S Hoff Hby Hn. pose proof (so_wf _ S w) as W.
  pose proof (full_bound (get_q w s)) as [_ Hlen].
  destruct (added_wf _ b W Hby) as [W' Hc]; [lia|].
  destruct (signal_ok w true (added (get_q w s) b) s S Hoff W') as (s' & E & S' & Cx & Ec & Eg & Eo); [done|done|done| |done|].
  - simpl. rewrite Hc. by destruct (contents (get_q w s)).
  - exists s'. rewrite Ec, Eg, <- Hc. split; [|done]. unfold intq_putc. rewrite (bind_ok _ _ _ _ _ (intr_off_ok s Hoff)), (bind_ok _ _ _ _ _ (intq_full_ok w s Hoff W)).
    rewrite (proj2 (Z.eqb_neq _ _)) by done. erewrite bind_ok by reflexivity. erewrite bind_ok by reflexivity. by rewrite (bind_ok _ _ _ _ _ E).
Qed.

(** The thread waits. *)
Definition asleep (w : which) (c : call) (s : isys) : isys :=
  set_parked (<[current s := (w, c, AtWait)]> (parked s)) (set_q w (set_waiter (is_get c) (Some (current s)) (set_lock (Some (current s)) (get_q w s))) s).
Lemma asleep_ok w c s :
  sys_ok s -> q_lock (get_q w s) = None -> parked s !! current s = None -> call_ok w c -> must_wait (is_get c) (get_q w s) -> sys_ok (asleep w c s).
Proof.
  intros S Hl Hp Hc Hm. set (s' := asleep w c s). set (t := current s) in *.
  assert (Eg : get_q w s' = set_waiter (is_get c) (Some t) (set_lock (Some t) (get_q w s))) by (unfold s', asleep; by rewrite get_q_parked, get_set_q).
  assert (Eo : forall w', w' <> w -> get_q w' s' = get_q w' s) by (intros w' Hw'; unfold s', asleep; by rewrite get_q_parked, get_set_q_ne).
  assert (Pp : parked s' = <[t := (w, c, AtWait)]> (parked s)) by done.
  assert (Ec : contents (get_q w s') = contents (get_q w s)) by (rewrite Eg; by destruct (is_get c)).
  assert (El : q_lock (get_q w s') = Some t) by (rewrite Eg; by destruct (is_get c)).
  assert (Hnone : forall t' c' p', parked s !! t' <> Some (w, c', p')) by (intros t' c' p' E; by destruct (so_parked _ S _ _ _ _ E) as (_ & _ & ?); congruence).
  assert (Hnow : forall e, waiter e (get_q w s) = None).
  { intros e. destruct (waiter e (get_q w s)) as [t'|] eqn:E; [|done]. by destruct (so_waiter _ S w e t' E) as (c' & E' & _); apply Hnone in E'. }
  split.
  - intros w'. destruct (decide (w' = w)) as [->|]; [|rewrite Eo by done; apply S]. rewrite Eg. destruct (so_wf _ S w), (is_get c); by split.
  - intros t' w' c' p'. rewrite Pp. destruct (decide (t = t')) as [<-|Hne].
    + rewrite lookup_insert_eq. intros [= <- <- <-]. done.
    + rewrite lookup_insert_ne by done. intros E. assert (w' <> w) by (intros ->; by apply Hnone in E). rewrite Eo by done. by apply S.
  - intros t' w' c'. rewrite Pp. destruct (decide (t = t')) as [<-|Hne].
    + rewrite lookup_insert_eq. intros [= <- <-]. split; [rewrite Eg; by destruct (is_get c)|]. unfold must_wait in *. by rewrite Ec.
    + rewrite lookup_insert_ne by done. intros E. assert (w' <> w) by (intros ->; by apply Hnone in E). rewrite Eo by done. by apply S.
  - intros w' e t'. rewrite Pp. destruct (decide (w' = w)) as [->|].
    + intros E. assert (Hx : t' = t /\ e = is_get c). { rewrite Eg in E. specialize (Hnow e). destruct (is_get c), e; simpl in *; split; congruence. }
      destruct Hx as [-> ->]. exists c. by rewrite lookup_insert_eq.
    + rewrite Eo by done. intros (c' & E & He)%(so_waiter _ S). exists c'. split; [|done]. rewrite lookup_insert_ne; [done|]. intros <-. congruence.
  - intros w' t'. rewrite Pp. destruct (decide (w' = w)) as [->|].
    + rewrite El. intros [= <-]. exists c, AtWait. by rewrite lookup_insert_eq.
    + rewrite Eo by done. intros (c' & p' & E)%(so_lock _ S). exists c', p'. rewrite lookup_insert_ne; [done|]. intros <-. congruence.
Qed.
Lemma sleep_run {A} w c s :
  sys_ok s -> intr_on s = false -> in_intr s = false -> q_lock (get_q w s) = None -> must_wait (is_get c) (get_q w s) ->
  (in_thread;; locked ← lock_acquire w c; when locked (wait w (is_get c) c);; mret (@None A)) s = Ok (None, asleep w c s).
Proof.
  intros S Hoff Hi Hl Hm. pose proof (so_wf _ S w) as W. destruct (set_q_ctx w (set_lock (Some (current s)) (get_q w s)) s) as (C1 & C2 & C3 & C4).
  assert (Ht : forall s1, in_intr s1 = false -> in_thread s1 = Ok (tt, s1)) by (intros s1 H1; unfold in_thread; erewrite bind_ok by reflexivity; by rewrite H1).
  rewrite (bind_ok _ _ _ _ _ (Ht s Hi)). set (s1 := set_q w (set_lock (Some (current s)) (get_q w s)) s).
  assert (El : lock_acquire w c s = Ok (true, s1)).
  { unfold lock_acquire. rewrite (bind_ok _ _ _ _ _ (Ht s Hi)). erewrite bind_ok by reflexivity. by rewrite Hl. }
  rewrite (bind_ok _ _ _ _ _ El). unfold when, wait. rewrite !bind_assoc. rewrite (bind_ok _ _ _ _ _ (Ht s1 (eq_trans C2 Hi))).
  rewrite bind_assoc, (bind_ok _ _ _ _ _ (intr_off_ok s1 (eq_trans C1 Hoff))).
  assert (W1 : intq_wf (get_q w s1)) by (unfold s1; rewrite get_set_q; destruct W; by split).
  assert (Ec : contents (get_q w s1) = contents (get_q w s)) by (unfold s1; by rewrite get_set_q).
  assert (Hb : (if is_get c then intq_empty w else intq_full w) s1 = Ok (true, s1)).
  { unfold must_wait in Hm. destruct (is_get c); [rewrite intq_empty_ok|rewrite intq_full_ok]; try done; try exact (eq_trans C1 Hoff); rewrite Ec; do 2 f_equal; [by rewrite bool_decide_eq_true_2|by apply Z.eqb_eq]. }
  rewrite bind_assoc, (bind_ok _ _ _ _ _ Hb), bind_assoc, ASSERT_true, bind_assoc by done. erewrite bind_ok by reflexivity. erewrite bind_ok by reflexivity.
  unfold asleep. cbn [mret K_ret]. unfold s1. rewrite get_set_q. by destruct w.
Qed.
Lemma intq_getc_waits w c s :
  sys_ok s -> intr_on s = false -> in_intr s = false -> q_lock (get_q w s) = None -> contents (get_q w s) = [] -> is_get c = true ->
  intq_getc w c s = Ok (None, asleep w c s).
Proof.
  intros S Hoff Hi Hl Hc Hg. unfold intq_getc. rewrite (bind_ok _ _ _ _ _ (intr_off_ok s Hoff)), (bind_ok _ _ _ _ _ (intq_empty_ok w s Hoff (so_wf _ S w))).
  rewrite bool_decide_eq_true_2 by done. pose proof (@sleep_run Z w c s S Hoff Hi Hl) as E. rewrite Hg in E. by apply E.
Qed.
Lemma intq_putc_waits w b c s :
  sys_ok s -> intr_on s = false -> in_intr s = false -> q_lock (get_q w s) = None -> len (contents (get_q w s)) = 63 -> is_get c = false ->
  intq_putc w b c s = Ok (None, asleep w c s).
Proof.
  intros S Hoff Hi Hl Hc Hg. unfold intq_putc. rewrite (bind_ok _ _ _ _ _ (intr_off_ok s Hoff)), (bind_ok _ _ _ _ _ (intq_full_ok w s Hoff (so_wf _ S w))).
  rewrite (proj2 (Z.eqb_eq _ _)) by done. pose proof (@sleep_run unit w c s S Hoff Hi Hl) as E. rewrite Hg in E. by apply E.
Qed.

(** A thread that has been woken up releases the lock. *)
Definition released (t : positive) (w : which) (s : isys) : isys :=
  set_q w (set_lock None (get_q w s)) (set_parked (delete t (parked s)) s).
Lemma released_ok t w c s : sys_ok s -> parked s !! t = Some (w, c, Woken) -> sys_ok (released t w s).
Proof.
  intros S Hp. destruct (so_parked _ S _ _ _ _ Hp) as (_ & Hc & Hl). set (s' := released t w s).
  assert (Eg : get_q w s' = set_lock None (get_q w s)) by apply get_set_q.
  assert (Eo : forall w', w' <> w -> get_q w' s' = get_q w' s) by (intros w' Hw'; unfold s', released; by rewrite get_set_q_ne, get_q_parked).
  assert (Pp : parked s' = delete t (parked s)) by (unfold s', released; by destruct w).
  assert (Hone : forall t' c' p', parked s !! t' = Some (w, c', p') -> t' = t) by (intros t' c' p' (_ & _ & ?)%(so_parked _ S); congruence).
  split.
  - intros w'. destruct (decide (w' = w)) as [->|]; [rewrite Eg; destruct (so_wf _ S w); by split|rewrite Eo by done; apply S].
  - intros t' w' c' p'. rewrite Pp, lookup_delete_Some. intros [Hne E]. assert (w' <> w) by (intros ->; by apply Hone in E). rewrite Eo by done. by apply S.
  - intros t' w' c'. rewrite Pp, lookup_delete_Some. intros [Hne E]. assert (w' <> w) by (intros ->; by apply Hone in E). rewrite Eo by done. by apply S.
  - intros w' e t' E. rewrite Pp. assert (E2 : waiter e (get_q w' s) = Some t') by (destruct (decide (w' = w)) as [->|]; [rewrite Eg in E; by destruct e|by rewrite <- Eo]).
    destruct (so_waiter _ S w' e t' E2) as (c' & Hp' & He). exists c'. rewrite lookup_delete_ne; [done|]. intros ->. congruence.
  - intros w' t' E. rewrite Pp. destruct (decide (w' = w)) as [->|Hne]; [by rewrite Eg in E|]. rewrite Eo in E by done.
    destruct (so_lock _ S w' t' E) as (c' & p' & Hp'). exists c', p'. rewrite lookup_delete_ne; [done|]. intros ->. congruence.
Qed.
Lemma unpark_run t w c s : sys_ok s -> current s = t -> parked s !! t = Some (w, c, Woken) ->
  (modify (fun s => set_parked (delete t (parked s)) s);; lock_release w) s = Ok (tt, released t w s).
Proof.
  intros S Ht Hp. destruct (so_parked _ S _ _ _ _ Hp) as (_ & _ & Hl). erewrite bind_ok by reflexivity. unfold lock_release. erewrite bind_ok by reflexivity.
  rewrite get_q_parked, Hl. change (current (set_parked (delete t (parked s)) s)) with (current s). rewrite Ht, bool_decide_eq_true_2, ASSERT_true by done. done.
Qed.
