(* ===== verification/Serial.v ===== *)
(** Keyboard, input buffer and serial port (devices/kbd.c, devices/input.c, devices/serial.c)
    over interrupt queues and any hardware that answers reads of its ports with bytes. *)

From Stdlib Require Import Ascii String.
From stdpp Require Import gmap.
From S2P Require Import Prelude KMonad Bytes Stdio Intq.

(** Ports: a read gives a byte and may change the hardware, so does a write. *)
Class Hardware (H : Type) := {
  hw_in : Z -> H -> Z * H;
  hw_out : Z -> Z -> H -> H;
  hw_byte port h : byte (hw_in port h).1
}.
Inductive event := In (port v : Z) | Out (port v : Z).

Definition IO_BASE : Z := 0x3f8.
Definition RBR_REG : Z := IO_BASE + 0.
Definition THR_REG : Z := IO_BASE + 0.
Definition IER_REG : Z := IO_BASE + 1.
Definition LS_REG : Z := IO_BASE + 0.
Definition MS_REG : Z := IO_BASE + 1.
Definition IIR_REG : Z := IO_BASE + 2.
Definition FCR_REG : Z := IO_BASE + 2.
Definition LCR_REG : Z := IO_BASE + 3.
Definition MCR_REG : Z := IO_BASE + 4.
Definition LSR_REG : Z := IO_BASE + 5.
Definition IER_RECV : Z := 1.
Definition IER_XMIT : Z := 2.
Definition LCR_N81 : Z := 3.
Definition LCR_DLAB : Z := 0x80.
Definition MCR_OUT2 : Z := 8.
Definition LSR_DR : Z := 1.
Definition LSR_THRE : Z := 0x20.
Definition DATA_REG : Z := 0x60.

Inductive mode_t := UNINIT | POLL | QUEUE.
#[export] Instance mode_eq_dec : EqDecision mode_t.
Proof. solve_decision. Defined.

(** The variables of kbd.c. *)
Record kbd := mkKbd {
  left_shift : bool; right_shift : bool; left_alt : bool; right_alt : bool; left_ctrl : bool; right_ctrl : bool;
  caps_lock : bool; key_cnt : Z
}.
(** [halted] says that the machine has been reset. Not part of the program are [io], all
    accesses to ports with the last one first, and [early], the bytes that have been sent
    before the queue was in use. *)
Record machine H := mkMachine { sys : isys; mode : mode_t; kb : kbd; halted : bool; hw : H; io : list event; early : list Z }.
Arguments mkMachine {H}.
Arguments sys {H}.
Arguments mode {H}.
Arguments kb {H}.
Arguments halted {H}.
Arguments hw {H}.
Arguments io {H}.
Arguments early {H}.

(** ** Keys *)

Definition keymap : Type := list (Z * list Z).
Definition invariant_keymap : keymap :=
  [(0x01, [27]); (0x0e, [8]); (0x0f, 9 :: str "QWERTYUIOP"); (0x1c, [13]); (0x1e, str "ASDFGHJKL"); (0x2c, str "ZXCVBNM"); (0x37, str "*");
   (0x39, [32]); (0x53, [127])].
Definition unshifted_keymap : keymap :=
  [(0x02, str "1234567890-="); (0x1a, str "[]"); (0x27, str ";'`"); (0x2b, [92]); (0x33, str ",./")].
Definition shifted_keymap : keymap :=
  [(0x02, str "!@#$%^&*()_+"); (0x1a, str "{}"); (0x27, [58; 34; 126]); (0x2b, str "|"); (0x33, str "<>?")].
Fixpoint map_key (k : keymap) (scancode : Z) : option Z :=
  match k with
  | [] => None
  | (first_scancode, chars) :: k' =>
      if (first_scancode <=? scancode) && (scancode <? first_scancode + len chars) then chars !! Z.to_nat (scancode - first_scancode)
      else map_key k' scancode
  end.
(** The tests of the handler, in their order. *)
Definition find_key (shift : bool) (code : Z) : option Z :=
  match map_key invariant_keymap code with
  | Some c => Some c
  | None => map_key (if shift then shifted_keymap else unshifted_keymap) code
  end.
(** The character of an ordinary key with its modifiers. *)
Definition typed (shift ctrl alt caps : bool) (c : Z) : Z :=
  let c := if ctrl && (0x40 <=? c) && (c <? 0x60) then u8 (c - 0x40) else if Bool.eqb shift caps then tolower c else c in
  if alt then u8 (c + 0x80) else c.
Definition toggle_caps (k : kbd) : kbd :=
  mkKbd (left_shift k) (right_shift k) (left_alt k) (right_alt k) (left_ctrl k) (right_ctrl k) (negb (caps_lock k)) (key_cnt k).
(** The table of shift keys. *)
Definition shift_key (code : Z) (down : bool) (k : kbd) : kbd :=
  let '(mkKbd ls rs la ra lc rc caps n) := k in
  if code =? 0x2a then mkKbd down rs la ra lc rc caps n
  else if code =? 0x36 then mkKbd ls down la ra lc rc caps n
  else if code =? 0x38 then mkKbd ls rs down ra lc rc caps n
  else if code =? 0xe038 then mkKbd ls rs la down lc rc caps n
  else if code =? 0x1d then mkKbd ls rs la ra down rc caps n
  else if code =? 0xe01d then mkKbd ls rs la ra lc down caps n
  else k.

Section Serial.
Context {H : Type} `{!Hardware H} (fuel : nat).
Implicit Types (m : machine H).

Definition on_sys {A} (k : K isys A) : K (machine H) A := fun m =>
  match k (sys m) with
  | Ok (a, s) => Ok (a, mkMachine s (mode m) (kb m) (halted m) (hw m) (io m) (early m))
  | Panic => Panic
  | NoFuel => NoFuel
  end.
Definition inb (port : Z) : K (machine H) Z := fun m =>
  let '(v, h) := hw_in port (hw m) in Ok (v, mkMachine (sys m) (mode m) (kb m) (halted m) h (In port v :: io m) (early m)).
Definition outb (port v : Z) : K (machine H) unit :=
  modify (fun m => mkMachine (sys m) (mode m) (kb m) (halted m) (hw_out port v (hw m)) (Out port v :: io m) (early m)).
Definition set_mode (x : mode_t) : K (machine H) unit :=
  modify (fun m => mkMachine (sys m) x (kb m) (halted m) (hw m) (io m) (early m)).
Definition log_early (b : Z) : K (machine H) unit :=
  modify (fun m => mkMachine (sys m) (mode m) (kb m) (halted m) (hw m) (io m) (early m ++ [b])).
(** A call that does not have to wait. *)
Definition now {A} (k : K isys (option A)) : K (machine H) A := r ← on_sys k; the r.

(** ** The serial port *)

Fixpoint poll (n : nat) : K (machine H) unit :=
  match n with
  | O => fun _ => NoFuel
  | S n' => v ← inb LSR_REG; if Z.land v LSR_THRE =? 0 then poll n' else mret tt
  end.
Definition putc_poll (b : Z) : K (machine H) unit :=
  on_sys intr_off;; poll fuel;; outb THR_REG b.
Definition set_serial (bps : Z) : K (machine H) unit :=
  let base_rate := 1843200 / 16 in
  let divisor := wrapu 16 (base_rate / bps) in
  ASSERT ((300 <=? bps) && (bps <=? 115200));;
  outb LCR_REG (Z.lor LCR_N81 LCR_DLAB);;
  outb LS_REG (Z.land divisor 0xff);;
  outb MS_REG (u8 (Z.shiftr divisor 8));;
  outb LCR_REG LCR_N81.
Definition init_poll : K (machine H) unit :=
  md ← gets mode; ASSERT (bool_decide (md = UNINIT));;
  outb IER_REG 0;;
  outb FCR_REG 0;;
  set_serial 9600;;
  outb MCR_REG MCR_OUT2;;
  on_sys (intq_init TXQ);;
  set_mode POLL.
Definition input_full : K (machine H) bool := on_sys (intr_off;; intq_full INQ).
Definition write_ier : K (machine H) unit :=
  on_sys intr_off;;
  e ← on_sys (intq_empty TXQ);
  f ← input_full;
  outb IER_REG (Z.lor (if negb e then IER_XMIT else 0) (if negb f then IER_RECV else 0)).
Definition serial_init_queue : K (machine H) unit :=
  md ← gets mode;
  when (bool_decide (md = UNINIT)) init_poll;;
  md ← gets mode; ASSERT (bool_decide (md = POLL));;
  set_mode QUEUE;;
  old ← on_sys intr_disable;
  write_ier;;
  on_sys (intr_set_level old).
(** The end of [serial_putc], from [intq_putc] on. *)
Definition queue_byte (b : Z) (old : bool) : K (machine H) (option unit) :=
  r ← on_sys (intq_putc TXQ b (CPutc b old));
  match r with
  | Some _ => write_ier;; on_sys (intr_set_level old);; mret (Some tt)
  | None => mret None
  end.
Definition serial_putc (b : Z) : K (machine H) (option unit) :=
  old ← on_sys intr_disable;
  md ← gets mode;
  if negb (bool_decide (md = QUEUE)) then
    when (bool_decide (md = UNINIT)) init_poll;;
    log_early b;; putc_poll b;;
    on_sys (intr_set_level old);; mret (Some tt)
  else
    f ← (if (old : bool) then mret false else on_sys (intq_full TXQ));
    when f (c ← now (intq_getc TXQ (CPutc b old)); putc_poll c);;
    queue_byte b old.
Fixpoint flush_loop (n : nat) : K (machine H) unit :=
  match n with
  | O => fun _ => NoFuel
  | S n' =>
      e ← on_sys (intq_empty TXQ);
      if (e : bool) then mret tt else c ← now (intq_getc TXQ (CGetc false)); putc_poll c;; flush_loop n'
  end.
(** The queue has less than [INTQ_BUFSIZE] bytes. *)
Definition serial_flush : K (machine H) unit :=
  old ← on_sys intr_disable; flush_loop (Z.to_nat INTQ_BUFSIZE);; on_sys (intr_set_level old).
Definition serial_notify : K (machine H) unit :=
  on_sys intr_off;; md ← gets mode; when (bool_decide (md = QUEUE)) write_ier.

(** ** The input buffer *)

Definition input_init : K (machine H) unit := on_sys (intq_init INQ).
Definition input_putc (key : Z) : K (machine H) unit :=
  on_sys intr_off;;
  f ← on_sys (intq_full INQ); ASSERT (negb f);;
  now (intq_putc INQ key (CPutc key false));;
  serial_notify.
(** [input_getc] from [intq_getc] on. *)
Definition take_key (old : bool) : K (machine H) (option Z) :=
  r ← on_sys (intq_getc INQ (CGetc old));
  match r with
  | Some key => serial_notify;; on_sys (intr_set_level old);; mret (Some key)
  | None => mret None
  end.
Definition input_getc : K (machine H) (option Z) := old ← on_sys intr_disable; take_key old.

(** The loops of the handler: the queues have room for, and hold, less than [INTQ_BUFSIZE] bytes,
    so each test is made at most that often. *)
Fixpoint receive_loop (n : nat) : K (machine H) unit :=
  match n with
  | O => fun _ => NoFuel
  | S n' =>
      f ← input_full;
      if (f : bool) then mret tt
      else
        v ← inb LSR_REG;
        if Z.land v LSR_DR =? 0 then mret tt else c ← inb RBR_REG; input_putc c;; receive_loop n'
  end.
Fixpoint transmit_loop (n : nat) : K (machine H) unit :=
  match n with
  | O => fun _ => NoFuel
  | S n' =>
      e ← on_sys (intq_empty TXQ);
      if (e : bool) then mret tt
      else
        v ← inb LSR_REG;
        if Z.land v LSR_THRE =? 0 then mret tt else c ← now (intq_getc TXQ (CGetc false)); outb THR_REG c;; transmit_loop n'
  end.
Definition serial_interrupt : K (machine H) unit :=
  inb IIR_REG;;
  receive_loop (Z.to_nat INTQ_BUFSIZE);;
  transmit_loop (Z.to_nat INTQ_BUFSIZE);;
  write_ier.
(** ** The keyboard *)

Definition set_kb (k : kbd) : K (machine H) unit :=
  modify (fun m => mkMachine (sys m) (mode m) k (halted m) (hw m) (io m) (early m)).
Definition shutdown_reboot : K (machine H) unit :=
  modify (fun m => mkMachine (sys m) (mode m) (kb m) true (hw m) (io m) (early m)).
Definition count_key (k : kbd) : kbd :=
  mkKbd (left_shift k) (right_shift k) (left_alt k) (right_alt k) (left_ctrl k) (right_ctrl k) (caps_lock k) (s64 (key_cnt k + 1)).
Definition keyboard_interrupt : K (machine H) unit :=
  k ← gets kb;
  let shift := left_shift k || right_shift k in
  let alt := left_alt k || right_alt k in
  let ctrl := left_ctrl k || right_ctrl k in
  code ← inb DATA_REG;
  code ← (if code =? 0xe0 then b ← inb DATA_REG; mret (Z.lor (Z.shiftl code 8) b) else mret code);
  let release := negb (Z.land code 0x80 =? 0) in
  let code := Z.land code (u32 (Z.lnot 0x80)) in
  if code =? 0x3a then when (negb release) (set_kb (toggle_caps k))
  else
    match find_key shift code with
    | Some c =>
        if release then mret tt
        else if (c =? 127) && ctrl && alt then shutdown_reboot
        else
          let c := typed shift ctrl alt (caps_lock k) c in
          f ← input_full;
          when (negb f) (set_kb (count_key k);; input_putc c)
    | None => set_kb (shift_key code (negb release) k)
    end.
End Serial.

(** ** The system *)

(** The end of a call of [serial_putc], or of [input_getc] with the key that it returns. *)
Inductive finished := Putc_done | Getc_done (key : Z).

Section System.
Context {H : Type} `{!Hardware H} (fuel : nat).
Implicit Types (m : machine H).

Definition map_sys (f : isys -> isys) : K (machine H) unit := on_sys (modify f).
(** Thread [t] runs, with interrupts on or off. *)
Definition as_thread (t : positive) (on : bool) (s : isys) : isys := mkIsys (txq s) (inq s) on false t (parked s).
Definition as_handler (s : isys) : isys := mkIsys (txq s) (inq s) false true (current s) (parked s).
Definition handler_done (s : isys) : isys := mkIsys (txq s) (inq s) true false (current s) (parked s).
Definition interrupt (handler : K (machine H) unit) : K (machine H) unit := map_sys as_handler;; handler;; map_sys handler_done.

(** A parked thread goes on: it tests the lock again, or has been woken up in [wait]. *)
Definition unpark (t : positive) : K isys unit := modify (fun s => set_parked (delete t (parked s)) s).
Definition go_on (c : call) : K (machine H) (option finished) :=
  match c with
  | CGetc old => r ← take_key old; mret (Getc_done <$> r)
  | CPutc b old => r ← queue_byte b old; mret ((fun _ => Putc_done) <$> r)
  end.
Definition resume (t : positive) : K (machine H) (option finished) :=
  map_sys (as_thread t false);;
  s ← gets sys;
  match parked s !! t with
  | Some (w, c, AtLock) =>
      on_sys (unpark t;; locked ← lock_acquire w c; when locked (wait w (match c with CGetc _ => true | CPutc _ _ => false end) c));;
      mret None
  | Some (w, c, Woken) => on_sys (unpark t;; lock_release w);; go_on c
  | _ => panic
  end.
Definition putc_by (t : positive) (on : bool) (b : Z) : K (machine H) (option finished) :=
  map_sys (as_thread t on);; r ← serial_putc fuel b; mret ((fun _ => Putc_done) <$> r).
Definition getc_by (t : positive) (on : bool) : K (machine H) (option finished) :=
  map_sys (as_thread t on);; r ← input_getc; mret (Getc_done <$> r).
Definition flush_by (t : positive) (on : bool) : K (machine H) unit := map_sys (as_thread t on);; serial_flush fuel.
Definition init_by (t : positive) (on : bool) : K (machine H) unit := map_sys (as_thread t on);; serial_init_queue.

(** What happens next. *)
Inductive action :=
| DoPutc (t : positive) (on : bool) (b : Z)
| DoGetc (t : positive) (on : bool)
| DoFlush (t : positive) (on : bool)
| DoInit (t : positive) (on : bool)
| DoResume (t : positive)
| DoKey
| DoSerial.
Definition act (a : action) : K (machine H) (option finished) :=
  match a with
  | DoPutc t on b => putc_by t on b
  | DoGetc t on => getc_by t on
  | DoFlush t on => flush_by t on;; mret None
  | DoInit t on => init_by t on;; mret None
  | DoResume t => resume t
  | DoKey => interrupt keyboard_interrupt;; mret None
  | DoSerial => interrupt serial_interrupt;; mret None
  end.
End System.
