(* ===== verification/SerialOk.v ===== *)
(** The console devices keep the promises of their queues, of the serial port's protocol and
    of its interrupt enable register, whatever happens in which order. *)

From stdpp Require Import gmap.
From S2P Require Import Prelude KMonad Bytes Stdio Intq Serial.

(** ** The serial port as the program drives it *)

(** Its divisor latch bit, whether the transmitter has been seen to be empty since the last
    byte, the interrupt enable register, the bytes for transmission, and whether one of them
    was written too early. *)
Record uart := mkUart { u_dlab : bool; u_ready : bool; u_ier : Z; u_thr : list Z; u_bad : bool }.
Definition uart_step (e : event) (u : uart) : uart :=
  match e with
  | In port v =>
      if port =? LSR_REG then mkUart (u_dlab u) (u_ready u || negb (Z.land v LSR_THRE =? 0)) (u_ier u) (u_thr u) (u_bad u) else u
  | Out port v =>
      if port =? LCR_REG then mkUart (negb (Z.land v LCR_DLAB =? 0)) (u_ready u) (u_ier u) (u_thr u) (u_bad u)
      else if u_dlab u then u
      else if port =? THR_REG then mkUart false false (u_ier u) (u_thr u ++ [v]) (u_bad u || negb (u_ready u))
      else if port =? IER_REG then mkUart false (u_ready u) v (u_thr u) (u_bad u)
      else u
  end.
Fixpoint uart_of (io : list event) : uart :=
  match io with [] => mkUart false false 0 [] false | e :: io' => uart_step e (uart_of io') end.

Section Ok.
Context {H : Type} `{!Hardware H} (fuel : nat).
Implicit Types (m : machine H).

(** The transmitter gets empty before the loop of [putc_poll] has used its fuel. *)
Fixpoint thre_within (n : nat) (h : H) : Prop :=
  match n with
  | O => False
  | S n' => let '(v, h') := hw_in LSR_REG h in if Z.land v LSR_THRE =? 0 then thre_within n' h' else True
  end.
Hypothesis Hthre : forall h, thre_within fuel h.

Definition port_of m : uart := uart_of (io m).
(** [pend] has the bytes that have been taken from the queue and not yet written. *)
Record minv (pend : list Z) m : Prop := {
  mi_sys : sys_ok (sys m);
  mi_bad : u_bad (port_of m) = false;
  mi_dlab : u_dlab (port_of m) = false;
  mi_thr : u_thr (port_of m) ++ pend = early m ++ got_log (txq (sys m));
  mi_mode : mode m <> QUEUE -> contents (txq (sys m)) = [] /\ got_log (txq (sys m)) = [] /\ q_lock (txq (sys m)) = None
}.
Definition recv_ok m : Prop := mode m = QUEUE -> Z.testbit (u_ier (port_of m)) 0 = negb (len (contents (inq (sys m))) =? 63).
Definition xmit_ok m : Prop := mode m = QUEUE -> contents (txq (sys m)) <> [] -> Z.testbit (u_ier (port_of m)) 1 = true.

(** Accesses to ports that leave the variables alone. *)
Record quiet m m' : Prop := {
  qt_sys : sys m' = sys m; qt_mode : mode m' = mode m; qt_kb : kb m' = kb m; qt_halted : halted m' = halted m; qt_early : early m' = early m
}.
#[export] Instance quiet_refl : Reflexive quiet.
Proof. by split. Qed.
#[export] Instance quiet_trans : Transitive quiet.
Proof. intros m1 m2 m3 [A1 A2 A3 A4 A5] [B1 B2 B3 B4 B5]. split; congruence. Qed.
(** ... and have no effect on the serial port but to see that it is ready. *)
Record looked m m' : Prop := {
  lk_quiet : quiet m m'; lk_dlab : u_dlab (port_of m') = u_dlab (port_of m); lk_ier : u_ier (port_of m') = u_ier (port_of m);
  lk_thr : u_thr (port_of m') = u_thr (port_of m); lk_bad : u_bad (port_of m') = u_bad (port_of m)
}.
Lemma looked_trans m1 m2 m3 : looked m1 m2 -> looked m2 m3 -> looked m1 m3.
Proof. intros [A1 A2 A3 A4 A5] [B1 B2 B3 B4 B5]. split; [by etransitivity|congruence..]. Qed.
Lemma looked_minv pend m m' : looked m m' -> minv pend m -> minv pend m'.
Proof. intros [[A1 A2 A3 A4 A5] B2 B3 B4 B5] [M1 M2 M3 M4 M5]. split; rewrite ?A1, ?A2, ?A5, ?B2, ?B4, ?B5; done. Qed.
Lemma looked_ier m m' : looked m m' -> (recv_ok m -> recv_ok m') /\ (xmit_ok m -> xmit_ok m').
Proof. intros [[A1 A2 A3 A4 A5] B2 B3 B4 B5]. unfold recv_ok, xmit_ok. by rewrite A1, A2, B3. Qed.

Lemma inb_runs port m :
  runs (inb port) m (fun v m' => byte v /\ looked m m' /\ (port = LSR_REG -> Z.land v LSR_THRE <> 0 -> u_ready (port_of m') = true)).
Proof.
  unfold inb. destruct (hw_in port (hw m)) as [v h] eqn:E. eexists v, _. split; [by rewrite E|]. pose proof (hw_byte port (hw m)) as Hb. rewrite E in Hb.
  split; [done|]. unfold port_of. simpl. split.
  - split; [done|..]; unfold port_of; simpl; by destruct (port =? LSR_REG).
  - intros -> Hv. simpl. rewrite (proj2 (Z.eqb_neq _ _) Hv). apply orb_true_r.
Qed.
Lemma outb_runs port v m : runs (outb port v) m (fun _ m' => quiet m m' /\ port_of m' = uart_step (Out port v) (port_of m)).
Proof. eexists tt, _. split; [reflexivity|]. by split. Qed.
Lemma poll_runs n m : thre_within n (hw m) -> runs (poll n) m (fun _ m' => looked m m' /\ u_ready (port_of m') = true).
Proof.
  revert m. induction n as [|n IH]; intros m Hn; [done|]. simpl in Hn. cbn [poll]. apply runs_bind. unfold inb. destruct (hw_in LSR_REG (hw m)) as [v h] eqn:E.
  set (m1 := mkMachine (sys m) (mode m) (kb m) (halted m) h (In LSR_REG v :: io m) (early m)). exists v, m1. split; [by rewrite E|].
  assert (L : looked m m1) by (by split).
  destruct (Z.land v LSR_THRE =? 0) eqn:Ev.
  - eapply runs_mono; [by apply IH|]. intros _ m' [L' R]. split; [by eapply looked_trans|done].
  - apply runs_ret. split; [done|]. unfold port_of. simpl. rewrite Ev. apply orb_true_r.
Qed.
(** ** Steps of the drivers *)

Definition off m : Prop := intr_on (sys m) = false.
Definition with_sys m (s : isys) : machine H := mkMachine s (mode m) (kb m) (halted m) (hw m) (io m) (early m).
Record ctx m m' : Prop := { cx_sys : same_ctx (sys m) (sys m'); cx_mode : mode m' = mode m; cx_early : early m' = early m }.
#[local] Instance ctx_trans : Transitive ctx.
Proof. intros m1 m2 m3 [A1 A2 A3] [B1 B2 B3]. split; [by etransitivity|congruence..]. Qed.
Lemma quiet_ctx m m' : quiet m m' -> ctx m m'.
Proof. intros [A1 A2 A3 A4 A5]. by split; rewrite ?A1. Qed.
Lemma ctx_off m m' : ctx m m' -> off m -> off m'.
Proof. intros [[E _ _ _ _] _ _]. unfold off. by rewrite E. Qed.
Lemma on_sys_runs {A} (k : K isys A) m a s (Q : A -> machine H -> Prop) : k (sys m) = Ok (a, s) -> Q a (with_sys m s) -> runs (on_sys k) m Q.
Proof. intros E HQ. exists a, (with_sys m s). unfold on_sys. by rewrite E. Qed.
Lemma with_sys_id m : with_sys m (sys m) = m.
Proof. by destruct m. Qed.
Lemma off_runs m (Q : unit -> machine H -> Prop) : off m -> Q tt m -> runs (on_sys intr_off) m Q.
Proof. intros Ho HQ. eapply on_sys_runs; [by apply intr_off_ok|]. by rewrite with_sys_id. Qed.
Lemma tx_empty_runs pend m (Q : bool -> machine H -> Prop) :
  minv pend m -> off m -> Q (bool_decide (contents (txq (sys m)) = [])) m -> runs (on_sys (intq_empty TXQ)) m Q.
Proof. intros M Ho HQ. eapply on_sys_runs; [apply (intq_empty_ok TXQ); [done|apply M]|]. by rewrite with_sys_id. Qed.
Lemma full_runs w pend m (Q : bool -> machine H -> Prop) :
  minv pend m -> off m -> Q (len (contents (get_q w (sys m))) =? 63) m -> runs (on_sys (intq_full w)) m Q.
Proof. intros M Ho HQ. eapply on_sys_runs; [apply (intq_full_ok w); [done|apply M]|]. by rewrite with_sys_id. Qed.
Lemma input_full_runs pend m (Q : bool -> machine H -> Prop) :
  minv pend m -> off m -> Q (len (contents (inq (sys m))) =? 63) m -> runs input_full m Q.
Proof.
  intros M Ho HQ. eapply on_sys_runs; [rewrite (bind_ok _ _ _ _ _ (intr_off_ok _ Ho)); apply (intq_full_ok INQ); [done|apply M]|]. by rewrite with_sys_id.
Qed.

Lemma putc_poll_runs b m :
  minv [b] m -> off m -> runs (putc_poll fuel b) m (fun _ m' => minv [] m' /\ quiet m m' /\ u_ier (port_of m') = u_ier (port_of m)).
Proof.
  intros M Ho. unfold putc_poll. apply runs_bind, off_runs; [done|]. apply runs_bind. eapply runs_mono; [apply poll_runs, Hthre|].
  intros _ m1 [L R]. pose proof (looked_minv _ _ _ L M) as [M1 M2 M3 M4 M5]. destruct L as [Lq Ld Li Lt Lb]. eapply runs_ok; [reflexivity|]. split.
  - split; unfold port_of in *; simpl; rewrite ?M3, ?R; [done|by rewrite M2|done|by rewrite app_nil_r|done].
  - split; [by destruct Lq|]. unfold port_of in *. simpl. rewrite M3. simpl. by rewrite <- Li.
Qed.
Lemma write_ier_runs pend m :
  minv pend m -> off m -> runs write_ier m (fun _ m' => minv pend m' /\ quiet m m' /\ recv_ok m' /\ xmit_ok m').
Proof.
  intros M Ho. unfold write_ier. apply runs_bind, off_runs; [done|]. apply runs_bind, (tx_empty_runs pend); [done|done|].
  apply runs_bind, (input_full_runs pend); [done|done|]. eapply runs_ok; [reflexivity|]. pose proof M as [M1 M2 M3 M4 M5].
  set (e := bool_decide _). set (f := _ =? 63). split; [|split; [by split|split]].
  - split; unfold port_of in *; simpl; rewrite ?M3; done.
  - intros _. unfold port_of in *. simpl. rewrite M3. simpl. fold f. by destruct e, f.
  - intros _ Hne. unfold port_of in *. simpl in *. rewrite M3. simpl. unfold e. rewrite bool_decide_eq_false_2 by done. by destruct f.
Qed.
Lemma notify_runs pend m :
  minv pend m -> off m -> runs serial_notify m (fun _ m' => minv pend m' /\ quiet m m' /\ recv_ok m' /\ xmit_ok m').
Proof.
  intros M Ho. unfold serial_notify. apply runs_bind, off_runs; [done|]. apply runs_bind. eapply runs_ok; [reflexivity|].
  destruct (bool_decide_reflect (mode m = QUEUE)) as [E|E]; simpl; [by apply write_ier_runs|]. apply runs_ret. split; [done|]. split; [done|]. by split; intros Hm.
Qed.

(** The queues, with bytes and with room. *)
Lemma tx_getc_runs c m b rest :
  minv [] m -> off m -> contents (txq (sys m)) = b :: rest ->
  runs (now (intq_getc TXQ c)) m (fun b' m' => b' = b /\ minv [b] m' /\ ctx m m' /\ contents (txq (sys m')) = rest /\
    inq (sys m') = inq (sys m) /\ port_of m' = port_of m /\ kb m' = kb m /\ halted m' = halted m).
Proof.
  intros [M1 M2 M3 M4 M5] Ho Hc. destruct (intq_getc_now TXQ c (sys m) b rest M1 Ho Hc) as (s' & E & Hb & S' & Cx & Ec & Eg & Eo).
  unfold now. apply runs_bind. eapply on_sys_runs; [exact E|]. apply runs_ret. split; [done|]. split; [|split; [by split|split; [done|split; [by apply (Eo INQ)|done]]]].
  split; [done..| |].
  - change (u_thr (port_of m) ++ [b] = early m ++ got_log (get_q TXQ s')). rewrite Eg, app_assoc. rewrite app_nil_r in M4. simpl. by rewrite M4.
  - intros Hm. destruct (M5 Hm) as [E0 _]. congruence.
Qed.
Lemma tx_putc_runs b c m :
  minv [] m -> off m -> mode m = QUEUE -> byte b -> len (contents (txq (sys m))) <> 63 ->
  runs (on_sys (intq_putc TXQ b c)) m (fun r m' => r = Some tt /\ minv [] m' /\ ctx m m').
Proof.
  intros [M1 M2 M3 M4 M5] Ho Hmd Hb Hc. destruct (intq_putc_now TXQ b c (sys m) M1 Ho Hb Hc) as (s' & E & S' & Cx & Ec & Eg & Eo).
  eapply on_sys_runs; [exact E|]. split; [done|]. split; [|by split]. split; [done..| |done].
  change (u_thr (port_of m) ++ [] = early m ++ got_log (get_q TXQ s')). by rewrite Eg.
Qed.
Lemma in_other pend m s' : minv pend m -> sys_ok s' -> same_ctx (sys m) s' -> txq s' = txq (sys m) -> minv pend (with_sys m s').
Proof. intros [M1 M2 M3 M4 M5] S' Cx E. by split; simpl; rewrite ?E. Qed.
Lemma input_putc_runs key m :
  minv [] m -> off m -> byte key -> len (contents (inq (sys m))) <> 63 ->
  runs (input_putc key) m (fun _ m' => minv [] m' /\ ctx m m' /\ contents (inq (sys m')) = contents (inq (sys m)) ++ [key] /\ recv_ok m' /\ xmit_ok m' /\
    contents (txq (sys m')) = contents (txq (sys m)) /\ kb m' = kb m /\ halted m' = halted m).
Proof.
  intros M Ho Hb Hc. pose proof M as [M1 _ _ _ _]. unfold input_putc. apply runs_bind, off_runs; [done|]. apply runs_bind, (full_runs INQ []); [done|done|].
  apply runs_bind, runs_assert; [simpl; by rewrite (proj2 (Z.eqb_neq _ _))|].
  destruct (intq_putc_now INQ key (CPutc key false) (sys m) M1 Ho Hb Hc) as (s' & E & S' & Cx & Ec & Eg & Eo).
  apply runs_bind. unfold now. apply runs_bind. eapply on_sys_runs; [exact E|]. apply runs_ret.
  assert (Et : txq s' = txq (sys m)) by (by apply (Eo TXQ)). pose proof (in_other [] m s' M S' Cx Et) as M'.
  eapply runs_mono; [apply (notify_runs []); [exact M'|unfold off; simpl; by rewrite (sc_level _ _ Cx)]|].
  intros _ m2 (M2 & [Q1 Q2 Q3 Q4 Q5] & R & X). split; [done|]. split; [by split; rewrite ?Q1|]. rewrite Q1. split; [done|]. split; [done|]. split; [done|].
  split; [simpl; by rewrite Et|done].
Qed.

(** ** Loops *)

Lemma flush_runs n m :
  minv [] m -> off m -> len (contents (txq (sys m))) < Z.of_nat n ->
  runs (flush_loop fuel n) m (fun _ m' => minv [] m' /\ ctx m m' /\ contents (txq (sys m')) = [] /\ inq (sys m') = inq (sys m) /\ u_ier (port_of m') = u_ier (port_of m)).
Proof.
  revert m. induction n as [|n IH]; intros m M Ho Hn; [lia|]. cbn [flush_loop]. apply runs_bind, (tx_empty_runs []); [done|done|].
  destruct (contents (txq (sys m))) as [|b rest] eqn:Ec; [by apply runs_ret|]. rewrite bool_decide_eq_false_2 by done. simpl in Hn.
  apply runs_bind. eapply runs_mono; [by eapply tx_getc_runs|]. intros ? m1 (-> & M1 & C1 & E1 & I1 & P1 & _).
  apply runs_bind. eapply runs_mono; [apply putc_poll_runs; [done|by apply (ctx_off m)]|]. intros _ m2 (M2 & Q2 & P2).
  pose proof (quiet_ctx _ _ Q2) as C2. eapply runs_mono; [apply IH; [done|by eauto using ctx_off|rewrite (qt_sys _ _ Q2), E1; lia]|].
  intros _ m3 (M3 & C3 & E3 & I3 & P3). split; [done|]. split; [by etransitivity; [|etransitivity]|]. split; [done|]. rewrite I3, (qt_sys _ _ Q2), I1, P3, P2, P1. done.
Qed.
Lemma receive_runs n m :
  minv [] m -> off m -> 63 - len (contents (inq (sys m))) < Z.of_nat n ->
  runs (receive_loop n) m (fun _ m' => minv [] m' /\ ctx m m' /\ contents (txq (sys m')) = contents (txq (sys m))).
Proof.
  revert m. induction n as [|n IH]; intros m M Ho Hn.
  { exfalso. pose proof (full_bound (inq (sys m))). lia. }
  cbn [receive_loop]. apply runs_bind, (input_full_runs []); [done|done|]. destruct (Z.eqb_spec (len (contents (inq (sys m)))) 63) as [|Hf]; [by apply runs_ret|].
  apply runs_bind. eapply runs_mono; [apply inb_runs|]. intros v m1 (_ & L1 & _). pose proof (quiet_ctx _ _ (lk_quiet _ _ L1)) as C1. pose proof (qt_sys _ _ (lk_quiet _ _ L1)) as E1.
  destruct (Z.land v LSR_DR =? 0). { apply runs_ret. split; [by eapply looked_minv|]. by rewrite E1. }
  apply runs_bind. eapply runs_mono; [apply inb_runs|]. intros c m2 (Hc & L2 & _). pose proof (quiet_ctx _ _ (lk_quiet _ _ L2)) as C2. pose proof (qt_sys _ _ (lk_quiet _ _ L2)) as E2.
  apply runs_bind. eapply runs_mono; [apply input_putc_runs; [by eauto using looked_minv|by eauto using ctx_off|done|by rewrite E2, E1]|].
  intros _ m3 (M3 & C3 & E3 & _ & _ & T3 & _). eapply runs_mono; [apply IH; [done|by eauto using ctx_off|rewrite E3, E2, E1, length_app; simpl; lia]|].
  intros _ m4 (M4 & C4 & T4). split; [done|]. split; [by etransitivity; [|etransitivity; [|etransitivity]]|]. by rewrite T4, T3, E2, E1.
Qed.
Lemma transmit_runs n m :
  minv [] m -> off m -> len (contents (txq (sys m))) < Z.of_nat n -> runs (transmit_loop n) m (fun _ m' => minv [] m' /\ ctx m m').
Proof.
  revert m. induction n as [|n IH]; intros m M Ho Hn; [lia|]. cbn [transmit_loop]. apply runs_bind, (tx_empty_runs []); [done|done|].
  destruct (contents (txq (sys m))) as [|b rest] eqn:Ec; [by apply runs_ret|]. rewrite bool_decide_eq_false_2 by done. simpl in Hn.
  apply runs_bind. eapply runs_mono; [apply inb_runs|]. intros v m1 (_ & L1 & R1). pose proof (quiet_ctx _ _ (lk_quiet _ _ L1)) as C1. pose proof (qt_sys _ _ (lk_quiet _ _ L1)) as E1.
  destruct (Z.eqb_spec (Z.land v LSR_THRE) 0) as [|Hv]. { apply runs_ret. split; [by eapply looked_minv|done]. }
  apply runs_bind. eapply runs_mono; [eapply tx_getc_runs; [by eauto using looked_minv|by eauto using ctx_off|by rewrite E1]|]. intros ? m2 (-> & [N1 N2 N3 N4 N5] & C2 & E2 & I2 & P2 & _).
  apply runs_bind. eapply runs_ok; [reflexivity|]. set (m3 := mkMachine _ _ _ _ _ _ _).
  assert (M3 : minv [] m3).
  { split; unfold port_of in *; simpl; rewrite ?N3; [done|by rewrite N2, P2, R1|done|by rewrite app_nil_r|done]. }
  eapply runs_mono; [apply IH; [done| |simpl; rewrite E2; lia]|].
  - unfold off. simpl. apply (ctx_off m1); [done|]. by apply (ctx_off m).
  - intros _ m4 (M4 & C4). split; [done|]. etransitivity; [exact C1|]. etransitivity; [exact C2|]. by etransitivity; [|exact C4].
Qed.
Lemma serial_interrupt_runs m : minv [] m -> off m -> runs serial_interrupt m (fun _ m' => minv [] m' /\ ctx m m' /\ recv_ok m' /\ xmit_ok m').
Proof.
  intros M Ho. unfold serial_interrupt. apply runs_bind. eapply runs_mono; [apply inb_runs|]. intros v m1 (_ & L1 & _). pose proof (quiet_ctx _ _ (lk_quiet _ _ L1)) as C1.
  apply runs_bind. eapply runs_mono; [apply receive_runs; [by eapply looked_minv|by eapply ctx_off|change (Z.of_nat (Z.to_nat INTQ_BUFSIZE)) with 64; lia]|]. intros _ m2 (M2 & C2 & _).
  apply runs_bind. eapply runs_mono; [apply transmit_runs; [done|by eauto using ctx_off|change (Z.of_nat (Z.to_nat INTQ_BUFSIZE)) with 64; pose proof (full_bound (txq (sys m2))); lia]|].
  intros _ m3 (M3 & C3). eapply runs_mono; [apply (write_ier_runs []); [done|by eauto using ctx_off]|]. intros _ m4 (M4 & Q4 & R & X). split; [done|]. split; [|done].
  etransitivity; [exact C1|]. etransitivity; [exact C2|]. etransitivity; [exact C3|]. by apply quiet_ctx.
Qed.

(** ** Threads *)

Definition good m : Prop := minv [] m /\ recv_ok m /\ xmit_ok m.

(** The level of interrupts and the thread that runs do not matter to the queues. *)
Definition same_queues (s s' : isys) : Prop := txq s' = txq s /\ inq s' = inq s /\ parked s' = parked s.
Lemma same_queues_ok s s' : same_queues s s' -> sys_ok s -> sys_ok s'.
Proof.
  intros (E1 & E2 & E3) [S1 S2 S3 S4 S5]. assert (Eg : forall w, get_q w s' = get_q w s) by (by intros []).
  split.
  - intros w. by rewrite Eg.
  - intros t w. rewrite E3, Eg. apply S2.
  - intros t w. rewrite E3, Eg. apply S3.
  - intros w e t. rewrite E3, Eg. apply S4.
  - intros w t. rewrite E3, Eg. apply S5.
Qed.
Lemma same_queues_good pend m s' : same_queues (sys m) s' -> minv pend m -> minv pend (with_sys m s').
Proof. intros E [M1 M2 M3 M4 M5]. split; [by eapply same_queues_ok|done..| |]; destruct E as (E1 & E2 & E3); simpl; by rewrite E1. Qed.
Lemma same_queues_ier m s' : same_queues (sys m) s' -> (recv_ok m -> recv_ok (with_sys m s')) /\ (xmit_ok m -> xmit_ok (with_sys m s')).
Proof. intros (E1 & E2 & E3). unfold recv_ok, xmit_ok. simpl. by rewrite E1, E2. Qed.
Lemma level_runs (f : isys -> isys) m (Q : unit -> machine H -> Prop) : Q tt (with_sys m (f (sys m))) -> runs (map_sys f) m Q.
Proof. intros HQ. by eapply on_sys_runs. Qed.
Lemma set_level_runs on m (P : machine H -> Prop) : (forall s', same_queues (sys m) s' -> P (with_sys m s')) -> runs (on_sys (intr_set_level on)) m (fun _ m' => P m').
Proof. intros HP. eapply on_sys_runs; [reflexivity|]. by apply HP. Qed.
Lemma same_queues_all m s' : same_queues (sys m) s' -> good m -> good (with_sys m s').
Proof. intros E (M & R & X). split; [by apply same_queues_good|]. split; by apply same_queues_ier. Qed.

(** A thread falls asleep. *)
Lemma asleep_good w c m :
  good m -> q_lock (get_q w (sys m)) = None -> parked (sys m) !! current (sys m) = None -> call_ok w c -> must_wait (is_get c) (get_q w (sys m)) ->
  (w = TXQ -> mode m = QUEUE) -> good (with_sys m (asleep w c (sys m))).
Proof.
  intros ([M1 M2 M3 M4 M5] & R & X) Hl Hp Hc Hm Hmd. set (s' := asleep w c (sys m)).
  assert (Eg : forall w', contents (get_q w' s') = contents (get_q w' (sys m)) /\ got_log (get_q w' s') = got_log (get_q w' (sys m))).
  { intros w'. unfold s', asleep. rewrite get_q_parked. destruct (decide (w' = w)) as [->|]; [rewrite get_set_q; by destruct (is_get c)|by rewrite get_set_q_ne]. }
  destruct (Eg TXQ) as [ET GT], (Eg INQ) as [EI GI]. simpl in ET, GT, EI, GI. split; [split|].
  - by apply asleep_ok.
  - done.
  - done.
  - simpl. by rewrite GT.
  - intros Hq. simpl in *. rewrite ET, GT. destruct (M5 Hq) as (A & B & C). split; [done|]. split; [done|]. destruct w; [by rewrite Hmd in Hq|]. done.
  - unfold recv_ok, xmit_ok in *. simpl. by rewrite ET, EI.
Qed.
Lemma take_key_runs old m :
  good m -> off m -> in_intr (sys m) = false -> q_lock (inq (sys m)) = None -> parked (sys m) !! current (sys m) = None ->
  runs (take_key old) m (fun _ m' => good m').
Proof.
  intros G Ho Hi Hl Hp. pose proof G as (M & R & X). unfold take_key. apply runs_bind. destruct (contents (inq (sys m))) as [|b rest] eqn:Ec.
  - eapply on_sys_runs; [apply (intq_getc_waits INQ (CGetc old)); [apply M|done..]|]. apply runs_ret. by apply asleep_good.
  - destruct (intq_getc_now INQ (CGetc old) (sys m) b rest (mi_sys _ _ M) Ho Ec) as (s' & E & _ & S' & Cx & _ & _ & Eo).
    eapply on_sys_runs; [exact E|]. assert (Et : txq s' = txq (sys m)) by (by apply (Eo TXQ)).
    apply runs_bind. eapply runs_mono; [apply (notify_runs []); [by apply in_other|unfold off; simpl; by rewrite (sc_level _ _ Cx)]|].
    intros _ m2 (M2 & _ & R2 & X2). apply runs_bind, set_level_runs. intros s2 E2. apply runs_ret. by apply same_queues_all.
Qed.
Lemma queue_byte_runs b old m :
  good m -> off m -> mode m = QUEUE -> byte b -> in_intr (sys m) = false -> parked (sys m) !! current (sys m) = None ->
  q_lock (txq (sys m)) = None \/ len (contents (txq (sys m))) <> 63 -> runs (queue_byte b old) m (fun _ m' => good m').
Proof.
  intros G Ho Hmd Hb Hi Hp Hor. pose proof G as (M & R & X). unfold queue_byte. apply runs_bind. destruct (decide (len (contents (txq (sys m))) = 63)) as [Hf|Hf].
  - destruct Hor as [Hl|]; [|done]. eapply on_sys_runs; [apply (intq_putc_waits TXQ b (CPutc b old)); [apply M|done..]|]. apply runs_ret. by apply asleep_good.
  - eapply runs_mono; [by apply tx_putc_runs|]. intros r m1 (-> & M1 & C1). apply runs_bind. eapply runs_mono; [apply (write_ier_runs []); [done|by eapply ctx_off]|].
    intros _ m2 (M2 & _ & R2 & X2). apply runs_bind, set_level_runs. intros s2 E2. apply runs_ret. by apply same_queues_all.
Qed.

(** ** Starting the port *)

Lemma init_poll_runs m :
  minv [] m -> mode m = UNINIT ->
  runs init_poll m (fun _ m' => minv [] m' /\ mode m' = POLL /\ early m' = early m /\ intr_on (sys m') = intr_on (sys m) /\
    in_intr (sys m') = in_intr (sys m) /\ current (sys m') = current (sys m) /\ parked (sys m') = parked (sys m)).
Proof.
  intros [M1 M2 M3 M4 M5] Hmd. destruct (M5 ltac:(by rewrite Hmd)) as (Hc & Hg & Hl). unfold init_poll.
  apply runs_bind. eapply runs_ok; [reflexivity|]. apply runs_bind, runs_assert; [by rewrite Hmd|].
  assert (P0 : exists r, port_of m = mkUart false r (u_ier (port_of m)) (u_thr (port_of m)) false) by (exists (u_ready (port_of m)); destruct (port_of m); simpl in *; by subst).
  destruct P0 as [r P0]. unfold set_serial.
  apply runs_bind. eapply runs_mono; [apply outb_runs|]. intros _ m1 [Q1 P1]. rewrite P0 in P1. simpl in P1.
  apply runs_bind. eapply runs_mono; [apply outb_runs|]. intros _ m2 [Q2 P2]. rewrite P1 in P2. simpl in P2.
  apply runs_bind, runs_bind, runs_assert; [done|].
  apply runs_bind. eapply runs_mono; [apply outb_runs|]. intros _ m3 [Q3 P3]. rewrite P2 in P3. simpl in P3.
  apply runs_bind. eapply runs_mono; [apply outb_runs|]. intros _ m4 [Q4 P4]. rewrite P3 in P4. simpl in P4.
  apply runs_bind. eapply runs_mono; [apply outb_runs|]. intros _ m5 [Q5 P5]. rewrite P4 in P5. simpl in P5.
  eapply runs_mono; [apply outb_runs|]. intros _ m6 [Q6 P6]. rewrite P5 in P6. simpl in P6.
  apply runs_bind. eapply runs_mono; [apply outb_runs|]. intros _ m7 [Q7 P7]. rewrite P6 in P7. simpl in P7.
  assert (Q : quiet m m7) by (repeat (etransitivity; [eassumption|]); done). destruct Q as [E1 E2 E3 E4 E5].
  apply runs_bind. eapply on_sys_runs; [reflexivity|]. eapply runs_ok; [reflexivity|]. simpl. rewrite E1, E5. split; [|done].
  assert (Hnone : forall t c p, parked (sys m) !! t <> Some (TXQ, c, p)) by (intros t c p E; destruct (so_parked _ M1 _ _ _ _ E) as (_ & _ & ?); simpl in *; congruence).
  split; unfold port_of in *; simpl; rewrite ?P7, ?E1, ?E5; try done.
  - apply (nobody_waits TXQ (sys m)); try done.
    + pose proof (so_wf _ M1 TXQ) as [W1 W2 W3 W4 W5]. by split.
    + by intros [].
    + by intros [].
    + intros t. by left.
  - simpl. rewrite app_nil_r in *. by rewrite M4, Hg.
Qed.
Lemma init_queue_runs m :
  minv [] m -> mode m <> QUEUE -> runs serial_init_queue m (fun _ m' => good m').
Proof.
  intros M Hmd. unfold serial_init_queue. apply runs_bind. eapply runs_ok; [reflexivity|].
  assert (Hstart : runs (when (bool_decide (mode m = UNINIT)) init_poll) m (fun _ m' => minv [] m' /\ mode m' = POLL)).
  { destruct (mode m) eqn:E; simpl; [|by apply runs_ret|done]. eapply runs_mono; [by apply init_poll_runs|]. intros _ m' (? & ? & _). done. }
  apply runs_bind. eapply runs_mono; [exact Hstart|]. intros _ m1 [M1 E1]. apply runs_bind. eapply runs_ok; [reflexivity|].
  apply runs_bind, runs_assert; [by rewrite E1|]. apply runs_bind. eapply runs_ok; [reflexivity|]. apply runs_bind. eapply on_sys_runs; [reflexivity|].
  set (m2 := with_sys _ _). assert (M2 : minv [] m2).
  { pose proof M1 as [A1 A2 A3 A4 A5]. by split; try done; eapply same_queues_ok, A1. }
  apply runs_bind. eapply runs_mono; [by apply (write_ier_runs [])|]. intros _ m3 (M3 & _ & R & X). apply set_level_runs. intros s' E. by apply same_queues_all.
Qed.

(** ** The calls *)

Lemma disable_runs m (Q : bool -> machine H -> Prop) :
  Q (intr_on (sys m)) (with_sys m (set_level false (sys m))) -> runs (on_sys intr_disable) m Q.
Proof. intros HQ. by eapply on_sys_runs. Qed.
Lemma early_minv b m : minv [] m -> mode m <> QUEUE ->
  minv [b] (mkMachine (sys m) (mode m) (kb m) (halted m) (hw m) (io m) (early m ++ [b])).
Proof.
  intros [M1 M2 M3 M4 M5] Hm. destruct (M5 Hm) as (_ & Hg & _). split; try done. simpl. unfold port_of in *. simpl in *. rewrite Hg, !app_nil_r in *. by rewrite M4.
Qed.

Lemma serial_putc_runs b m :
  good m -> byte b -> in_intr (sys m) = false -> parked (sys m) !! current (sys m) = None ->
  (intr_on (sys m) = true -> q_lock (txq (sys m)) = None) -> runs (serial_putc fuel b) m (fun _ m' => good m').
Proof.
  intros G Hb Hi Hp Hl. unfold serial_putc. apply runs_bind, disable_runs. set (s0 := set_level false (sys m)). set (m0 := with_sys m s0).
  assert (Sq : same_queues (sys m) s0) by done. pose proof (same_queues_all m s0 Sq G) as G0. fold m0 in G0. pose proof G0 as (M0 & R0 & X0).
  apply runs_bind. eapply runs_ok; [reflexivity|]. change (mode m0) with (mode m). set (old := intr_on (sys m)) in *.
  destruct (bool_decide_reflect (mode m = QUEUE)) as [Hq|Hq]; cbn [negb].
  - assert (Hfull : runs (if old then mret false else on_sys (intq_full TXQ)) m0 (fun f m' => m' = m0 /\ f = negb old && (len (contents (txq (sys m))) =? 63))).
    { destruct old; [by apply runs_ret|]. by apply (full_runs TXQ []). }
    apply runs_bind. eapply runs_mono; [exact Hfull|]. intros f m' [-> ->].
    destruct (negb old && (len (contents (txq (sys m))) =? 63)) eqn:Ef; apply runs_bind; simpl.
    + apply andb_true_iff in Ef as [Ho Ef%Z.eqb_eq]. destruct (contents (txq (sys m0))) as [|c rest] eqn:Ec.
      { exfalso. change (txq (sys m0)) with (txq (sys m)) in Ec. rewrite Ec in Ef. done. }
      apply runs_bind. eapply runs_mono; [by eapply tx_getc_runs|]. intros ? m1 (-> & M1 & C1 & E1 & I1 & P1 & _).
      eapply runs_mono; [apply putc_poll_runs; [done|by apply (ctx_off m0)]|]. intros _ m2 (M2 & Q2 & P2). pose proof (quiet_ctx _ _ Q2) as C2.
      assert (C : ctx m0 m2) by (by etransitivity). destruct C as [[c1 c2 c3 c4 c5] C6 C7].
      assert (E2 : contents (txq (sys m2)) = rest) by (by rewrite (qt_sys _ _ Q2)).
      assert (El : len (contents (txq (sys m2))) <> 63) by (rewrite E2; change (txq (sys m0)) with (txq (sys m)) in Ec; rewrite Ec in Ef; simpl in Ef; lia).
      apply queue_byte_runs; [|unfold off; by rewrite c1|by rewrite C6|done|by rewrite c2|rewrite c3; by apply c5|by right].
      split; [done|]. split.
      * intros Hm. rewrite P2, P1. rewrite (qt_sys _ _ Q2), I1. by apply R0.
      * intros Hm Hne. rewrite P2, P1. apply X0; [done|]. by rewrite Ec.
    + apply runs_ret. apply queue_byte_runs; [done..|]. destruct old; [left; by apply Hl|right]. by apply Z.eqb_neq.
  - assert (Hinit : runs (when (bool_decide (mode m = UNINIT)) init_poll) m0 (fun _ m' => minv [] m' /\ mode m' <> QUEUE /\ off m')).
    { destruct (mode m) eqn:E; simpl; [|apply runs_ret; split; [done|]; split; [change (mode m0) with (mode m); by rewrite E|done]|done]. eapply runs_mono; [by apply init_poll_runs|].
      intros _ m' (? & -> & _ & Hlv & _). split; [done|]. split; [done|]. unfold off. by rewrite Hlv. }
    apply runs_bind. eapply runs_mono; [exact Hinit|]. intros _ m1 (M1 & Hm1 & Ho1). apply runs_bind. eapply runs_ok; [reflexivity|].
    apply runs_bind. eapply runs_mono; [apply putc_poll_runs; [by apply early_minv|done]|]. intros _ m2 (M2 & Q2 & P2). apply runs_bind, set_level_runs.
    intros s' Es. apply runs_ret. apply same_queues_all; [done|]. split; [done|]. assert (mode m2 <> QUEUE) by (by rewrite (qt_mode _ _ Q2)). by split; intros ?.
Qed.
Lemma serial_flush_runs m : good m -> runs (serial_flush fuel) m (fun _ m' => good m').
Proof.
  intros G. unfold serial_flush. apply runs_bind, disable_runs. set (s0 := set_level false (sys m)). pose proof (same_queues_all m s0 ltac:(done) G) as (M0 & R0 & X0).
  apply runs_bind. eapply runs_mono; [apply flush_runs; [done|done|change (Z.of_nat (Z.to_nat INTQ_BUFSIZE)) with 64; pose proof (full_bound (txq (sys m))); simpl; lia]|].
  intros _ m1 (M1 & C1 & E1 & I1 & P1). apply set_level_runs. intros s' Es. apply same_queues_all; [done|]. split; [done|]. split.
  - intros Hm. rewrite P1, I1. apply R0. by rewrite <- (cx_mode _ _ C1).
  - intros Hm Hne. by rewrite E1 in Hne.
Qed.

(** ** The keyboard *)

Lemma map_key_byte k code c : Forall (fun e => Forall byte e.2) k -> map_key k code = Some c -> byte c.
Proof.
  induction 1 as [|[first chars] k Hc Hk IH]; simpl; [done|]. destruct (_ && _); [|done]. intros Hl. by eapply Forall_lookup_1 in Hl.
Qed.
Lemma find_key_byte shift code c : find_key shift code = Some c -> byte c.
Proof.
  assert (Hd : forall k : keymap, forallb (fun e => forallb (fun x => (0 <=? x) && (x <? 256)) e.2) k = true -> Forall (fun e => Forall byte e.2) k).
  { intros k Hk. rewrite forallb_forall in Hk. apply Forall_forall. intros e He%list_elem_of_In. specialize (Hk e He). rewrite forallb_forall in Hk.
    apply Forall_forall. intros x Hx%list_elem_of_In. specialize (Hk x Hx). unfold byte. reflect_bools. lia. }
  unfold find_key. destruct (map_key invariant_keymap code) eqn:E.
  - intros [= <-]. eapply map_key_byte; [|exact E]. by apply Hd.
  - destruct shift; apply map_key_byte; by apply Hd.
Qed.
Lemma typed_byte shift ctrl alt caps c : byte c -> byte (typed shift ctrl alt caps c).
Proof.
  intros Hc. unfold typed. set (d := if ctrl && _ && _ then _ else _). assert (Hd : byte d).
  { unfold d. destruct (_ && _); [unfold byte, u8; apply wrapu_range; lia|]. destruct (Bool.eqb shift caps); [|done].
    unfold tolower, isupper. destruct (_ && _) eqn:E; [|done]. unfold byte in *. reflect_bools. lia. }
  destruct alt; [|done]. unfold byte, u8. apply wrapu_range. lia.
Qed.
Lemma keyboard_runs m :
  good m -> off m -> runs keyboard_interrupt m (fun _ m' => good m').
Proof.
  intros G Ho. unfold keyboard_interrupt. apply runs_bind. eapply runs_ok; [reflexivity|]. set (shift := left_shift (kb m) || right_shift (kb m)).
  apply runs_bind. eapply runs_mono; [apply inb_runs|]. intros code m1 (_ & L1 & _).
  assert (Hcode : runs (if code =? 0xe0 then b ← inb DATA_REG; mret (Z.lor (Z.shiftl code 8) b) else mret code) m1 (fun _ m2 => looked m m2)).
  { destruct (code =? 0xe0); [|by apply runs_ret]. apply runs_bind. eapply runs_mono; [apply inb_runs|]. intros v m2 (_ & L2 & _). apply runs_ret. by eapply looked_trans. }
  apply runs_bind. eapply runs_mono; [exact Hcode|]. clear code m1 L1 Hcode. intros code m1 L1. pose proof (quiet_ctx _ _ (lk_quiet _ _ L1)) as C1.
  assert (G1 : good m1) by (destruct G as (M & R & X), (looked_ier _ _ L1); split; [exact (looked_minv _ _ _ L1 M)|split; auto]).
  assert (Hk : forall k, runs (set_kb k) m1 (fun _ m' => good m')).
  { intros k. eapply runs_ok; [reflexivity|]. destruct G1 as ([A1 A2 A3 A4 A5] & R1 & X1). by split. }
  cbv zeta. destruct (_ =? 0x3a); [destruct (negb _); [apply Hk|by apply runs_ret]|]. fold shift. destruct (find_key shift _) as [c|] eqn:Ef; [|apply Hk].
  destruct (negb _); [by apply runs_ret|]. destruct (_ && _ && _).
  { eapply runs_ok; [reflexivity|]. destruct G1 as ([A1 A2 A3 A4 A5] & R1 & X1). by split. }
  pose proof G1 as (M1 & _ & _). apply runs_bind, (input_full_runs []); [done|by apply (ctx_off m)|]. destruct (Z.eqb_spec (len (contents (inq (sys m1)))) 63) as [|Hn]; [by apply runs_ret|].
  simpl. apply runs_bind. eapply runs_ok; [reflexivity|]. set (m2 := mkMachine _ _ (count_key (kb m)) _ _ _ _).
  assert (M2 : minv [] m2) by (destruct M1; by split).
  eapply runs_mono; [apply input_putc_runs; [done|by apply (ctx_off m m1)|by eapply typed_byte, find_key_byte|done]|]. intros _ m3 (M3 & _ & _ & R & X & _). done.
Qed.

(** ** Any action *)

(** Who may do what: the machine runs, a thread is in one call at a time, and at most one thread
    at a time waits for keys, or to send with interrupts on. *)
Definition allowed m (a : action) : Prop :=
  halted m = false /\
  match a with
  | DoPutc t on b => byte b /\ parked (sys m) !! t = None /\ (on = true -> q_lock (txq (sys m)) = None)
  | DoGetc t on => parked (sys m) !! t = None /\ q_lock (inq (sys m)) = None
  | DoFlush t on => True
  | DoInit t on => mode m <> QUEUE
  | DoResume t => exists w c, parked (sys m) !! t = Some (w, c, Woken)
  | DoKey => True
  | DoSerial => mode m = QUEUE
  end.
Lemma handler_runs (handler : K (machine H) unit) m :
  (forall m, good m -> off m -> runs handler m (fun _ m' => good m')) -> good m -> runs (interrupt handler) m (fun _ m' => good m').
Proof.
  intros Hh G. unfold interrupt. apply runs_bind, level_runs. apply runs_bind. eapply runs_mono; [apply Hh; [by apply same_queues_all|done]|].
  intros ? m' G'. apply level_runs. by apply same_queues_all.
Qed.
Lemma released_good t w c m : good m -> parked (sys m) !! t = Some (w, c, Woken) -> good (with_sys m (released t w (sys m))).
Proof.
  intros ([M1 M2 M3 M4 M5] & R & X) Hp. set (s' := released t w (sys m)).
  assert (Eg : forall w', contents (get_q w' s') = contents (get_q w' (sys m)) /\ got_log (get_q w' s') = got_log (get_q w' (sys m)) /\
    (q_lock (get_q w' (sys m)) = None -> q_lock (get_q w' s') = None)).
  { intros w'. unfold s', released. destruct (decide (w' = w)) as [->|]; [by rewrite get_set_q|by rewrite get_set_q_ne, get_q_parked]. }
  destruct (Eg TXQ) as (ET & GT & LT), (Eg INQ) as (EI & GI & _). simpl in ET, GT, LT, EI, GI. split; [split|].
  - by eapply released_ok.
  - done.
  - done.
  - simpl. by rewrite GT.
  - intros Hq. simpl in *. rewrite ET, GT. destruct (M5 Hq) as (A & B & C). auto.
  - unfold recv_ok, xmit_ok in *. simpl. by rewrite ET, EI.
Qed.
Lemma resume_runs t m w c : good m -> parked (sys m) !! t = Some (w, c, Woken) -> runs (resume t) m (fun _ m' => good m').
Proof.
  intros G Hp. unfold resume. apply runs_bind, level_runs. set (s1 := as_thread t false (sys m)). pose proof (same_queues_all m s1 ltac:(done) G) as G1.
  set (m1 := with_sys m s1) in *. apply runs_bind. eapply runs_ok; [reflexivity|]. change (sys m1) with s1. change (parked s1) with (parked (sys m)). rewrite Hp.
  pose proof G1 as (M1 & _ & _). destruct (so_parked _ (mi_sys _ _ M1) t w c Woken Hp) as (_ & Hc & Hl).
  apply runs_bind. eapply on_sys_runs; [by apply (unpark_run t w c s1 (mi_sys _ _ M1))|]. pose proof (released_good t w c m1 G1 Hp) as G2.
  set (m2 := with_sys m1 (released t w s1)) in *. change (with_sys m1 (released t w (sys m1))) with m2 in G2.
  assert (Hl2 : q_lock (get_q w (sys m2)) = None) by (simpl; unfold released; by rewrite get_set_q).
  assert (Hp2 : parked (sys m2) !! t = None) by (simpl; unfold released; destruct w; simpl; apply lookup_delete_eq).
  assert (Hc2 : intr_on (sys m2) = false /\ in_intr (sys m2) = false /\ current (sys m2) = t) by (simpl; unfold released; by destruct w).
  destruct Hc2 as (Ho2 & Hi2 & Ht2). destruct c as [old|b old]; simpl in Hc; unfold go_on; apply runs_bind.
  - subst w. eapply runs_mono; [apply take_key_runs; [done|done|done|done|by rewrite Ht2]|]. intros ? m3 G3. by apply runs_ret.
  - destruct Hc as [-> Hb]. eapply runs_mono; [apply queue_byte_runs; [done|done| |done|done|by rewrite Ht2|by left]|].
    + destruct (mode m) eqn:Em; [| |done]; destruct (mi_mode _ _ M1 ltac:(change (mode m1) with (mode m); by rewrite Em)) as (_ & _ & Hn); simpl in *; congruence.
    + intros ? m3 G3. by apply runs_ret.
Qed.
Lemma act_runs a m : good m -> allowed m a -> runs (act fuel a) m (fun _ m' => good m').
Proof.
  intros G [_ Ha]. destruct a as [t on b|t on|t on|t on|t| |]; simpl.
  - destruct Ha as (Hb & Hp & Hl). unfold putc_by. apply runs_bind, level_runs. apply runs_bind.
    eapply runs_mono; [apply serial_putc_runs; [by apply same_queues_all|done..]|]. intros ? m' G'. by apply runs_ret.
  - destruct Ha as [Hp Hl]. unfold getc_by. apply runs_bind, level_runs. apply runs_bind. unfold input_getc. apply runs_bind, disable_runs.
    eapply runs_mono; [apply take_key_runs; [apply (same_queues_all m); [done|exact G]|done..]|]. intros ? m' G'. by apply runs_ret.
  - unfold flush_by. apply runs_bind, runs_bind, level_runs. eapply runs_mono; [by apply serial_flush_runs, same_queues_all|]. intros [] m' G'. by apply runs_ret.
  - unfold init_by. apply runs_bind, runs_bind, level_runs. destruct G as (M & _).
    eapply runs_mono; [apply init_queue_runs; [by apply same_queues_good|done]|]. intros [] m' G'. by apply runs_ret.
  - destruct Ha as (w & c & Hp). by eapply resume_runs.
  - apply runs_bind. eapply runs_mono; [apply handler_runs; [|done]|intros [] m' G'; by apply runs_ret]. intros m' G' Ho. by apply keyboard_runs.
  - apply runs_bind. eapply runs_mono; [apply handler_runs; [|done]|intros [] m' G'; by apply runs_ret].
    intros m' (M' & _) Ho. eapply runs_mono; [by apply serial_interrupt_runs|]. intros _ m2 (? & _ & ? & ?). done.
Qed.
End Ok.
