(* ===== verification/SerialProps.v ===== *)
(** What the console devices promise, from boot on, in every order of calls by threads and of
    interrupts. *)

From Stdlib Require Import Ascii String.
From stdpp Require Import gmap.
From S2P Require Import Prelude KMonad Bytes Stdio Intq Serial SerialOk.

Section Props.
Context {H : Type} `{!Hardware H} (fuel : nat).
Implicit Types (m : machine H).
Hypothesis Hthre : forall h, thre_within fuel h.

(** After [input_init], before anything is printed. *)
Definition fresh_queue (q : intq) : Prop :=
  length (buf q) = 64%nat /\ Forall byte (buf q) /\ q = mkIntq None None None (buf q) 0 0 [] [].
Definition booted m : Prop :=
  fresh_queue (txq (sys m)) /\ fresh_queue (inq (sys m)) /\ parked (sys m) = ∅ /\ mode m = UNINIT /\ halted m = false /\ io m = [] /\ early m = [].
Lemma fresh_wf q : fresh_queue q -> intq_wf q /\ contents q = [] /\ got_log q = [] /\ q_lock q = None /\ forall e, waiter e q = None.
Proof. intros (Hl & Hb & ->). split; [by split|]. split; [done|]. split; [done|]. split; [done|]. by intros []. Qed.
Lemma booted_good m : booted m -> good m.
Proof.
  intros (Ft & Fi & Hp & Hm & _ & Hio & He). destruct (fresh_wf _ Ft) as (Wt & Ct & Gt & Lt & Nt), (fresh_wf _ Fi) as (Wi & Ci & Gi & Li & Ni).
  split; [|by split; intros E; rewrite Hm in E]. unfold port_of. split; unfold port_of; rewrite ?Hio; try done.
  - split.
    + by intros [].
    + intros t w c p. by rewrite Hp.
    + intros t w c. by rewrite Hp.
    + intros [] e t; simpl; rewrite ?Nt, ?Ni; done.
    + intros [] t; simpl; congruence.
  - by rewrite He, Gt.
Qed.

Inductive mstep m : machine H -> Prop :=
| M_act a r m' : allowed m a -> act fuel a m = Ok (r, m') -> mstep m m'.
Lemma reached_good m0 m : booted m0 -> rtc mstep m0 m -> good m.
Proof.
  intros Hb Hr. eapply rtc_invariant; [|exact Hr|by apply booted_good]. intros x y G [a r y' Ha E]. destruct (act_runs fuel Hthre a x G Ha) as (r2 & z & E2 & G2).
  rewrite E in E2. by injection E2 as -> ->.
Qed.

(** From boot on, as long as at most one thread at a time waits for keys and at most one to
    send, every call of the serial port and input functions and every keyboard and serial
    interrupt returns: no assertion fails, and no loop runs for ever if the port's transmitter
    becomes empty. *)
Theorem console_returns m0 m a :
  booted m0 -> rtc mstep m0 m -> allowed m a -> exists r m', act fuel a m = Ok (r, m') /\ mstep m m'.
Proof.
  intros Hb Hr Ha. destruct (act_runs fuel Hthre a m (reached_good m0 m Hb Hr) Ha) as (r & m' & E & _). exists r, m'. split; [done|]. by econstructor.
Qed.

(** Nothing waits for an event that has happened: once the port's interrupts are in use, it
    interrupts for received bytes exactly if there is room for one, and for transmission if
    there is a byte to send; a thread waits for a key only while there is none, and to send
    only while the queue is full. *)
Theorem console_not_stuck m0 m :
  booted m0 -> rtc mstep m0 m ->
  (mode m = QUEUE -> Z.testbit (u_ier (port_of m)) 0 = negb (len (contents (inq (sys m))) =? 63) /\
     (contents (txq (sys m)) <> [] -> Z.testbit (u_ier (port_of m)) 1 = true)) /\
  (forall t w c p, parked (sys m) !! t = Some (w, c, p) ->
     p = Woken \/ (p = AtWait /\ match c with CGetc _ => contents (inq (sys m)) = [] | CPutc _ _ => len (contents (txq (sys m))) = 63 end)).
Proof.
  intros Hb Hr. destruct (reached_good m0 m Hb Hr) as (M & R & X). split; [intros Hm; split; [by apply R|by apply X]|].
  intros t w c p Hp. destruct (so_parked _ (mi_sys _ _ M) t w c p Hp) as (Hne & Hc & _). destruct p; [done| |by left]. right. split; [done|].
  destruct (so_wait _ (mi_sys _ _ M) t w c Hp) as [_ Hw]. destruct c; simpl in *; [by subst w|]. by destruct Hc as [-> _].
Qed.


(** ** Letters *)

(** The rows of the keyboard. *)
Definition letter (code : Z) : option Z :=
  if within 0x10 10 code then str "qwertyuiop" !! Z.to_nat (code - 0x10)
  else if within 0x1e 9 code then str "asdfghjkl" !! Z.to_nat (code - 0x1e)
  else if within 0x2c 7 code then str "zxcvbnm" !! Z.to_nat (code - 0x2c)
  else None.
Lemma letter_typed code l shift caps :
  letter code = Some l -> exists c, find_key shift code = Some c /\ c <> 127 /\ typed shift false false caps c = (if xorb shift caps then l - 32 else l).
Proof.
  intros Hl. assert (Hc : 0x10 <= code < 0x33).
  { unfold letter, within in Hl. repeat (destruct (_ && _) eqn:E in Hl; [reflect_bools; lia|]; clear E). done. }
  assert (Hall : forallb (fun code => match letter code with
    | Some l => forallb (fun shift => forallb (fun caps => match find_key shift code with
        | Some c => negb (c =? 127) && (typed shift false false caps c =? (if xorb shift caps then l - 32 else l)) | None => false end) [true; false]) [true; false]
    | None => true end) (seqZ 0x10 0x23) = true) by (vm_compute; reflexivity).
  rewrite forallb_forall in Hall. specialize (Hall code ltac:(apply list_elem_of_In, elem_of_seqZ; lia)). rewrite Hl in Hall.
  rewrite forallb_forall in Hall. specialize (Hall shift ltac:(destruct shift; simpl; tauto)). rewrite forallb_forall in Hall.
  specialize (Hall caps ltac:(destruct caps; simpl; tauto)). destruct (find_key shift code) as [c|]; [|done]. exists c. reflect_bools. done.
Qed.
Lemma letter_code code l : letter code = Some l -> 0x10 <= code < 0x33 /\ code <> 0x3a.
Proof.
  intros Hl. unfold letter, within in Hl. repeat (destruct (_ && _) eqn:E in Hl; [reflect_bools; lia|]; clear E). done.
Qed.
Lemma letter_key m code l h :
  good m -> off m -> hw_in DATA_REG (hw m) = (code, h) -> letter code = Some l ->
  left_ctrl (kb m) || right_ctrl (kb m) = false -> left_alt (kb m) || right_alt (kb m) = false -> len (contents (inq (sys m))) <> 63 ->
  runs keyboard_interrupt m (fun _ m' => contents (inq (sys m')) =
    contents (inq (sys m)) ++ [if xorb (left_shift (kb m) || right_shift (kb m)) (caps_lock (kb m)) then l - 32 else l]).
Proof.
  intros G Ho Hcode Hl Hctrl Halt Hn. destruct (letter_code code l Hl) as [Hr Hcaps]. unfold keyboard_interrupt. apply runs_bind. eapply runs_ok; [reflexivity|].
  apply runs_bind. unfold inb at 1. eapply runs_ok; [rewrite Hcode; reflexivity|]. set (m1 := mkMachine _ _ _ _ h _ _).
  rewrite (proj2 (Z.eqb_neq code 0xe0)) by lia. apply runs_bind, runs_ret. cbv zeta.
  assert (Hland : Z.land code 0x80 = 0 /\ Z.land code (u32 (Z.lnot 0x80)) = code).
  { assert (Hall : forallb (fun c => (Z.land c 0x80 =? 0) && (Z.land c (u32 (Z.lnot 0x80)) =? c)) (seqZ 0x10 0x23) = true) by (vm_compute; reflexivity).
    rewrite forallb_forall in Hall. specialize (Hall code ltac:(apply list_elem_of_In, elem_of_seqZ; lia)). by reflect_bools. }
  destruct Hland as [E1 E2]. rewrite E1, E2. change (negb (0 =? 0)) with false. rewrite (proj2 (Z.eqb_neq code 0x3a)) by done.
  destruct (letter_typed code l (left_shift (kb m) || right_shift (kb m)) (caps_lock (kb m)) Hl) as (c & Hk & Hc & Ht). rewrite Hk.
  rewrite (proj2 (Z.eqb_neq c 127)) by done. cbn [andb]. rewrite Hctrl, Halt, Ht.
  assert (L : looked m m1) by (by split; [split|..]). destruct G as (M & _). pose proof (looked_minv _ _ _ L M) as M1.
  apply runs_bind, (input_full_runs []); [done|done|]. rewrite (proj2 (Z.eqb_neq _ 63)) by done. cbn [negb when]. apply runs_bind. eapply runs_ok; [reflexivity|].
  eapply runs_mono; [apply input_putc_runs; [by destruct M1; split|done| |done]|].
  - rewrite <- Ht. by eapply typed_byte, find_key_byte.
  - intros _ m2 (_ & _ & E & _). exact E.
Qed.

(** The keyboard handler types what is on the keys: for the scan code of a letter, without
    Ctrl and Alt and with room in the buffer, it appends that letter, as a capital exactly if
    one of Shift and Caps Lock is on. *)
Theorem letters_are_typed m0 m code l h :
  booted m0 -> rtc mstep m0 m -> halted m = false -> hw_in DATA_REG (hw m) = (code, h) -> letter code = Some l ->
  left_ctrl (kb m) || right_ctrl (kb m) = false -> left_alt (kb m) || right_alt (kb m) = false -> len (contents (inq (sys m))) <> 63 ->
  exists m', act fuel DoKey m = Ok (None, m') /\ contents (inq (sys m')) =
    contents (inq (sys m)) ++ [if xorb (left_shift (kb m) || right_shift (kb m)) (caps_lock (kb m)) then l - 32 else l].
Proof.
  intros Hb Hr Hh Hcode Hl Hc Ha Hn. pose proof (reached_good m0 m Hb Hr) as G.
  assert (R : runs (act fuel DoKey) m (fun r m' => r = None /\ contents (inq (sys m')) =
    contents (inq (sys m)) ++ [if xorb (left_shift (kb m) || right_shift (kb m)) (caps_lock (kb m)) then l - 32 else l])).
  { apply runs_bind, runs_bind, level_runs. apply runs_bind. eapply runs_mono; [eapply letter_key; [apply (same_queues_all m); [done|exact G]|done..]|].
    intros [] m' E. apply level_runs. by apply runs_ret. }
  destruct R as (r & m' & E & -> & Hm'). by exists m'.
Qed.

End Props.

(** ** A keyboard *)

(** It gives scan codes one after the other; the serial port is always ready and receives nothing. *)
Definition key_in (port : Z) (h : list Z) : Z * list Z :=
  if port =? DATA_REG then (u8 (default 0 (h !! 0%nat)), drop 1 h) else if port =? LSR_REG then (LSR_THRE, h) else (0, h).
Lemma key_in_byte port h : byte (key_in port h).1.
Proof. unfold key_in. destruct (port =? DATA_REG); [apply wrapu_range; lia|]. by destruct (port =? LSR_REG). Qed.
#[export] Instance key_hardware : Hardware (list Z) := { hw_in := key_in; hw_out port v h := h; hw_byte := key_in_byte }.
Lemma key_ready (h : list Z) : thre_within 1 h.
Proof. done. Qed.
Definition new_queue : intq := mkIntq None None None (replicate 64 0) 0 0 [] [].
Definition ex_machine (codes : list Z) : machine (list Z) :=
  mkMachine (mkIsys new_queue new_queue true false 1 ∅) UNINIT (mkKbd false false false false false false false 0) false codes [] [].
Lemma ex_booted codes : booted (ex_machine codes).
Proof.
  assert (Fq : fresh_queue new_queue) by (split; [done|]; split; [apply Forall_replicate; split; [discriminate|reflexivity]|done]). by split; [|split].
Qed.
(** Actions, one after the other. *)
Fixpoint acts (l : list action) (m : machine (list Z)) : outcome (unit * machine (list Z)) :=
  match l with
  | [] => Ok (tt, m)
  | a :: l' => match act 1 a m with Ok (_, m') => acts l' m' | Panic => Panic | NoFuel => NoFuel end
  end.

(** With two threads that wait for keys the kernel panics: after two keys, the thread that has
    waited for the lock goes on to [wait] although the queue is not empty, and the assertion
    there fails. *)
Theorem two_readers_panic :
  acts [DoGetc 1 true; DoGetc 2 true; DoKey; DoKey; DoResume 1; DoResume 2] (ex_machine [0x1e; 0x30]) = Panic.
Proof. vm_compute. reflexivity. Qed.

(** Runs of allowed actions. *)
Definition allowedb (m : machine (list Z)) (a : action) : bool :=
  negb (halted m) &&
  match a with
  | DoPutc t on b => (0 <=? b) && (b <? 256) && bool_decide (parked (sys m) !! t = None) && (negb on || bool_decide (q_lock (txq (sys m)) = None))
  | DoGetc t on => bool_decide (parked (sys m) !! t = None) && bool_decide (q_lock (inq (sys m)) = None)
  | DoFlush t on => true
  | DoInit t on => negb (bool_decide (mode m = QUEUE))
  | DoResume t => match parked (sys m) !! t with Some (_, _, Woken) => true | _ => false end
  | DoKey => true
  | DoSerial => bool_decide (mode m = QUEUE)
  end.
Lemma allowedb_ok m a : allowedb m a = true -> allowed m a.
Proof.
  unfold allowedb, allowed. intros [Hh%negb_true_iff Ha]%andb_true_iff. split; [done|]. destruct a as [t on b|t on|t on|t on|t| |]; try done.
  - repeat (apply andb_true_iff in Ha as [Ha ?]). split; [unfold byte; reflect_bools; lia|]. split; [by eapply bool_decide_eq_true|].
    intros ->. by eapply bool_decide_eq_true.
  - apply andb_true_iff in Ha as [? ?]. split; by eapply bool_decide_eq_true.
  - apply negb_true_iff in Ha. by eapply bool_decide_eq_false.
  - destruct (parked (sys m) !! t) as [[[w c] []]|]; [done|done|eauto|done].
  - by eapply bool_decide_eq_true.
Qed.
Fixpoint allowed_acts (l : list action) (m : machine (list Z)) : option (machine (list Z)) :=
  match l with
  | [] => Some m
  | a :: l' => if allowedb m a then match act 1 a m with Ok (_, m') => allowed_acts l' m' | _ => None end else None
  end.
Lemma allowed_acts_reach l m m' : allowed_acts l m = Some m' -> rtc (mstep 1) m m'.
Proof.
  revert m. induction l as [|a l IH]; simpl; intros m; [by intros [= ->]|]. destruct (allowedb m a) eqn:Ha; [|done].
  destruct (act 1 a m) as [[r m1]| |] eqn:E; [|done..]. intros Hl. eapply rtc_l; [|by apply IH]. econstructor; [by apply allowedb_ok|exact E].
Qed.
(** A reader waits, a byte is in the transmit queue, and the key [a] is about to be pressed. *)
Definition ex_actions : list action := [DoInit 1 true; DoPutc 2 true 65; DoGetc 1 true].
Definition ex_console : machine (list Z) := default (ex_machine []) (allowed_acts ex_actions (ex_machine [0x1e])).
Lemma ex_console_reached : rtc (mstep 1) (ex_machine [0x1e]) ex_console.
Proof. apply (allowed_acts_reach ex_actions). vm_compute. reflexivity. Qed.
#[local] Opaque ex_console.

Lemma console_returns_witness :
  exists r m', act 1 DoKey ex_console = Ok (r, m') /\ mstep 1 ex_console m'.
Proof.
  apply (console_returns 1 key_ready (ex_machine [0x1e]) ex_console DoKey (ex_booted [0x1e]) ex_console_reached). split; [vm_compute; reflexivity|exact I].
Defined.
Lemma console_not_stuck_witness : mode ex_console = QUEUE /\ Z.testbit (u_ier (port_of ex_console)) 1 = true.
Proof.
  assert (E : mode ex_console = QUEUE) by (vm_compute; reflexivity). split; [exact E|].
  destruct (console_not_stuck 1 key_ready (ex_machine [0x1e]) ex_console (ex_booted [0x1e]) ex_console_reached) as [Hq _].
  apply (Hq E). vm_compute. discriminate.
Defined.
Lemma letters_are_typed_witness : exists m', act 1 DoKey ex_console = Ok (None, m') /\ contents (inq (sys m')) = [97].
Proof.
  destruct (letters_are_typed 1 key_ready (ex_machine [0x1e]) ex_console 0x1e 97 [] (ex_booted [0x1e]) ex_console_reached) as (m' & E & Hc);
    [vm_compute; reflexivity..|vm_compute; discriminate|].
  exists m'. split; [exact E|]. rewrite Hc. vm_compute. reflexivity.
Defined.
