(* ===== verification/SerialOrder.v ===== *)
(** The order of bytes on the console: what the callers of [serial_putc] have sent is what the
    serial port gets, and what the keyboard and the port have received is what the callers of
    [input_getc] get, in the same order, whatever threads and interrupts do and however many
    threads wait. *)

From stdpp Require Import gmap.
From S2P Require Import Prelude KMonad Bytes Stdio Intq Serial SerialOk SerialProps.

(** ** Queues *)

Lemma post_assoc {S A B C} (k : K S A) (f : A -> K S B) (g : B -> K S C) s Q : post ((k ≫= f) ≫= g) s Q -> post (k ≫= fun a => f a ≫= g) s Q.
Proof. intros Hk c s' E. apply Hk. by rewrite bind_assoc. Qed.

(** The calls that threads are in, without the place where they have stopped. *)
Definition calls (s : isys) : gmap positive (which * call) := fst <$> parked s.
(** A queue without the threads that use it. *)
Definition bytes_of (q : intq) : intq := mkIntq None None None (buf q) (head q) (tail q) (put_log q) (got_log q).
Lemma bytes_wf q q' : bytes_of q' = bytes_of q -> intq_wf q -> intq_wf q'.
Proof. intros E [W1 W2 W3 W4 W5]. injection E as E1 E2 E3 E4 E5. split; unfold contents, count in *; by rewrite ?E1, ?E2, ?E3, ?E4, ?E5. Qed.
Lemma bytes_contents q q' : bytes_of q' = bytes_of q -> contents q' = contents q /\ put_log q' = put_log q /\ got_log q' = got_log q.
Proof. intros E. injection E as E1 E2 E3 E4 E5. unfold contents, count. by rewrite E1, E2, E3, E4, E5. Qed.

(** Steps that change who waits, and no byte. *)
Record same_bytes (cs : gmap positive (which * call)) (s s' : isys) : Prop := {
  sb_bytes w : bytes_of (get_q w s') = bytes_of (get_q w s);
  sb_calls : calls s' = cs;
  sb_current : current s' = current s
}.
Lemma same_bytes_refl s : same_bytes (calls s) s s.
Proof. by split. Qed.
Lemma same_bytes_trans cs1 cs s1 s2 s3 : same_bytes cs1 s1 s2 -> same_bytes cs s2 s3 -> same_bytes cs s1 s3.
Proof. intros [A1 A2 A3] [B1 B2 B3]. split; [intros w; by rewrite B1|done|congruence]. Qed.
Lemma set_q_same w q s : bytes_of q = bytes_of (get_q w s) -> same_bytes (calls s) s (set_q w q s).
Proof.
  intros E. destruct (set_q_ctx w q s) as (_ & _ & C3 & C4). split; [|unfold calls; by rewrite C4|done].
  intros w'. destruct (decide (w' = w)) as [->|]; [by rewrite get_set_q|by rewrite get_set_q_ne].
Qed.
Lemma off_post s : post intr_off s (fun _ s' => s' = s).
Proof. apply post_bind. eapply post_ok; [reflexivity|]. by apply post_assert. Qed.
Lemma in_thread_post s : post in_thread s (fun _ s' => s' = s).
Proof. apply post_bind. eapply post_ok; [reflexivity|]. by apply post_assert. Qed.
Lemma intq_empty_post w s : intq_wf (get_q w s) -> post (intq_empty w) s (fun e s' => s' = s /\ e = bool_decide (contents (get_q w s) = [])).
Proof.
  intros W. apply post_bind. eapply post_mono; [apply off_post|]. intros [] s' ->. apply post_bind. eapply post_ok; [reflexivity|].
  apply post_ret. by rewrite empty_contents.
Qed.
Lemma intq_full_post w s : intq_wf (get_q w s) -> post (intq_full w) s (fun e s' => s' = s /\ e = (len (contents (get_q w s)) =? 63)).
Proof.
  intros W. apply post_bind. eapply post_mono; [apply off_post|]. intros [] s' ->. apply post_bind. eapply post_ok; [reflexivity|].
  apply post_ret. by rewrite full_contents.
Qed.
Lemma test_post (e : bool) w s : post (if e then intq_empty w else intq_full w) s (fun _ s' => s' = s).
Proof.
  destruct e; apply post_bind; (eapply post_mono; [apply off_post|]); intros [] s' ->; apply post_bind; (eapply post_ok; [reflexivity|]); by apply post_ret.
Qed.
Lemma unblock_post t s : post (thread_unblock t) s (fun _ s' => same_bytes (calls s) s s').
Proof.
  apply post_bind. eapply post_ok; [reflexivity|]. destruct (parked s !! t) as [[[w c] []]|] eqn:E; try apply post_panic.
  eapply post_ok; [reflexivity|]. split; [intros w'; by rewrite get_q_parked| |done].
  unfold calls. simpl. rewrite fmap_insert. apply insert_id. by rewrite lookup_fmap, E.
Qed.
Lemma signal_post w e s : post (signal w e) s (fun _ s' => same_bytes (calls s) s s').
Proof.
  apply post_bind. eapply post_mono; [apply off_post|]. intros [] s' ->. apply post_bind. eapply post_mono; [apply test_post|]. intros b s' ->.
  apply post_bind, post_assert. intros _. apply post_bind. eapply post_ok; [reflexivity|]. destruct (waiter e (get_q w s)) as [t|]; [|apply post_ret, same_bytes_refl].
  apply post_bind. eapply post_mono; [apply unblock_post|]. intros [] s1 S1. eapply post_ok; [reflexivity|]. eapply same_bytes_trans; [exact S1|].
  rewrite <- (sb_calls _ _ _ S1). apply set_q_same. by destruct e.
Qed.
(** The thread blocks, in [lock_acquire] or in [wait]. *)
Lemma park_post w c p s : post (park w c p) s (fun _ s' => same_bytes (<[current s := (w, c)]> (calls s)) s s').
Proof. eapply post_ok; [reflexivity|]. split; [intros w'; by rewrite get_q_parked| |done]. unfold calls. simpl. by rewrite fmap_insert. Qed.
Lemma block_post w e c s :
  post (locked ← lock_acquire w c; when locked (wait w e c)) s (fun _ s' => same_bytes (<[current s := (w, c)]> (calls s)) s s').
Proof.
  apply post_bind. unfold lock_acquire. apply post_bind. eapply post_mono; [apply in_thread_post|]. intros [] s' ->. apply post_bind. eapply post_ok; [reflexivity|].
  apply post_bind, post_assert. intros _. destruct (q_lock (get_q w s)) as [h|].
  { apply post_bind. eapply post_mono; [apply park_post|]. intros [] s1 S1. apply post_ret. by apply post_ret. }
  apply post_bind. eapply post_ok; [reflexivity|]. apply post_ret. set (s1 := set_q _ _ s). assert (S1 : same_bytes (calls s) s s1) by (by apply set_q_same).
  cbn [when]. unfold wait. apply post_bind. eapply post_mono; [apply in_thread_post|]. intros [] s' ->. apply post_bind. eapply post_mono; [apply off_post|]. intros [] s' ->.
  apply post_bind. eapply post_mono; [apply test_post|]. intros b s' ->. apply post_bind, post_assert. intros _.
  apply post_bind. eapply post_ok; [reflexivity|]. set (s2 := set_q _ _ s1). assert (S2 : same_bytes (calls s1) s1 s2) by (apply set_q_same; by destruct e).
  eapply post_mono; [apply park_post|]. intros [] s3 S3. rewrite (sb_current _ _ _ S2), (sb_current _ _ _ S1), (sb_calls _ _ _ S2), (sb_calls _ _ _ S1) in S3.
  eapply same_bytes_trans; [exact S1|]. by eapply same_bytes_trans.
Qed.

(** A byte goes into the queue [w], or out of it. *)
Record changed (w : which) (q : intq) (s s' : isys) : Prop := {
  ch_this : bytes_of (get_q w s') = bytes_of q;
  ch_other w' : w' <> w -> bytes_of (get_q w' s') = bytes_of (get_q w' s);
  ch_calls : calls s' = calls s;
  ch_current : current s' = current s
}.
Lemma told_changed w q e s : post (modify (set_q w q);; signal w e) s (fun _ s' => changed w q s s').
Proof.
  apply post_bind. eapply post_ok; [reflexivity|]. eapply post_mono; [apply signal_post|]. intros [] s' [B1 B2 B3].
  destruct (set_q_ctx w q s) as (_ & _ & C3 & C4). split.
  - by rewrite B1, get_set_q.
  - intros w' Hw. by rewrite B1, get_set_q_ne.
  - rewrite B2. unfold calls. by rewrite C4.
  - by rewrite B3.
Qed.
Lemma intq_getc_post w c s :
  intq_wf (get_q w s) ->
  post (intq_getc w c) s (fun r s' =>
    match r with
    | Some b => byte b /\ contents (get_q w s) = b :: contents (taken (get_q w s) b) /\ intq_wf (taken (get_q w s) b) /\ changed w (taken (get_q w s) b) s s'
    | None => same_bytes (<[current s := (w, c)]> (calls s)) s s'
    end).
Proof.
  intros W. apply post_bind. eapply post_mono; [apply off_post|]. intros [] s' ->. apply post_bind. eapply post_mono; [by apply intq_empty_post|].
  intros e s' [-> ->]. destruct (bool_decide_reflect (contents (get_q w s) = [])) as [|Hne].
  - apply post_bind. eapply post_mono; [apply in_thread_post|]. intros [] s' ->. apply post_assoc, post_bind.
    eapply post_mono; [apply block_post|]. intros [] s' S. by apply post_ret.
  - destruct (taken_wf (get_q w s) W Hne) as (b & Eb & Hb & Ec & Wt). apply post_bind. eapply post_ok; [reflexivity|]. rewrite Eb. apply post_bind, post_ret.
    apply post_assoc, post_bind. eapply post_mono; [apply told_changed|]. intros [] s' C. by apply post_ret.
Qed.
Lemma intq_putc_post w b c s :
  intq_wf (get_q w s) -> byte b ->
  post (intq_putc w b c) s (fun r s' =>
    match r with
    | Some _ => contents (added (get_q w s) b) = contents (get_q w s) ++ [b] /\ intq_wf (added (get_q w s) b) /\ changed w (added (get_q w s) b) s s'
    | None => same_bytes (<[current s := (w, c)]> (calls s)) s s'
    end).
Proof.
  intros W Hb. apply post_bind. eapply post_mono; [apply off_post|]. intros [] s' ->. apply post_bind. eapply post_mono; [by apply intq_full_post|].
  intros e s' [-> ->]. destruct (Z.eqb_spec (len (contents (get_q w s))) 63) as [|Hne].
  - apply post_bind. eapply post_mono; [apply in_thread_post|]. intros [] s' ->. apply post_assoc, post_bind.
    eapply post_mono; [apply block_post|]. intros [] s' S. by apply post_ret.
  - destruct (added_wf (get_q w s) b W Hb) as [Wa Ea]; [pose proof (full_bound (get_q w s)); lia|]. apply post_bind. eapply post_ok; [reflexivity|].
    apply post_assoc, post_bind. eapply post_mono; [apply told_changed|]. intros [] s' C. by apply post_ret.
Qed.

(** ** Histories *)

(** The values that have been read from a port. *)
Definition reads (port : Z) (io : list event) : list Z :=
  reverse (omap (fun e => match e with In p v => if p =? port then Some v else None | Out _ _ => None end) io).
Lemma reads_in port p v io : reads port (In p v :: io) = reads port io ++ (if p =? port then [v] else []).
Proof. unfold reads. cbn [omap list_omap]. destruct (p =? port); [apply reverse_cons|by rewrite app_nil_r]. Qed.

Section Order.
Context {H : Type} `{!Hardware H} (fuel : nat).
Implicit Types (m : machine H).

(** What is recorded: the bytes accepted for the serial port, the keys put into and taken out of
    the input buffer, and the bytes read from the serial port and the keyboard. *)
Inductive kind := LSent | LIn | LGot | LPort | LCode.
Definition log (k : kind) m : list Z :=
  match k with
  | LSent => early m ++ put_log (txq (sys m))
  | LIn => put_log (inq (sys m))
  | LGot => got_log (inq (sys m))
  | LPort => reads RBR_REG (io m)
  | LCode => reads DATA_REG (io m)
  end.
Definition none (k : kind) : list Z := [].
Definition one (k : kind) (b : Z) (k' : kind) : list Z :=
  match k, k' with
  | LSent, LSent | LIn, LIn | LGot, LGot | LPort, LPort | LCode, LCode => [b]
  | _, _ => []
  end.
Record moved (d : kind -> list Z) (cs : gmap positive (which * call)) m m' : Prop := {
  mv_log k : log k m' = log k m ++ d k;
  mv_calls : calls (sys m') = cs;
  mv_current : current (sys m') = current (sys m)
}.
Definition stays (d : kind -> list Z) m m' : Prop := moved d (calls (sys m)) m m' /\ mode m' = mode m.
Lemma stays_refl m : stays none m m.
Proof. split; [|done]. split; try done. intros k. by rewrite app_nil_r. Qed.
Lemma moved_after d1 d2 d cs1 cs m1 m2 m3 :
  moved d1 cs1 m1 m2 -> moved d2 cs m2 m3 -> (forall k, d k = d1 k ++ d2 k) -> moved d cs m1 m3.
Proof. intros [A1 A2 A3] [B1 B2 B3] Hd. split; [|done|congruence]. intros k. by rewrite B1, A1, Hd, app_assoc. Qed.
Lemma stays_after d1 d2 d m1 m2 m3 : stays d1 m1 m2 -> stays d2 m2 m3 -> (forall k, d k = d1 k ++ d2 k) -> stays d m1 m3.
Proof.
  intros S1 [S2 E2] Hd. split; [|rewrite E2; apply S1]. rewrite (mv_calls _ _ _ _ (proj1 S1)) in S2. by eapply moved_after; [apply S1|..].
Qed.
(** A step before and a step after one that matters. *)
Lemma moved_within d cs0 cs m0 m1 m2 m3 :
  moved none cs0 m0 m1 -> moved d cs m1 m2 -> stays none m2 m3 -> moved d cs m0 m3.
Proof.
  intros M1 M2 [M3 _]. rewrite (mv_calls _ _ _ _ M2) in M3. eapply moved_after; [by eapply (moved_after none d d)|exact M3|]. intros k. by rewrite app_nil_r.
Qed.
Lemma stays_ext d d' m m' : (forall k, d k = d' k) -> stays d m m' -> stays d' m m'.
Proof. intros Hd [[A1 A2 A3] A4]. split; [|done]. split; [|done..]. intros k. by rewrite A1, Hd. Qed.
Lemma stays_then d m1 m2 m3 : stays none m1 m2 -> stays d m2 m3 -> stays d m1 m3.
Proof. intros S1 S2. by eapply stays_after. Qed.
Lemma then_stays d m1 m2 m3 : stays d m1 m2 -> stays none m2 m3 -> stays d m1 m3.
Proof. intros S1 S2. eapply stays_after; [done..|]. intros k. by rewrite app_nil_r. Qed.

(** The invariant; [pend] has the bytes that have been taken from the queue and not yet written. *)
Record ordered (pend : list Z) m : Prop := {
  od_wf w : intq_wf (get_q w (sys m));
  od_bad : u_bad (port_of m) = false;
  od_dlab : u_dlab (port_of m) = false;
  od_thr : u_thr (port_of m) ++ pend = early m ++ got_log (txq (sys m));
  od_mode : mode m <> QUEUE -> contents (txq (sys m)) = [] /\ got_log (txq (sys m)) = [];
  od_calls t w c : calls (sys m) !! t = Some (w, c) -> call_ok w c /\ (w = TXQ -> mode m = QUEUE)
}.

(** *** Ports *)

Lemma quiet_stays d m m' : quiet m m' -> reads RBR_REG (io m') = reads RBR_REG (io m) ++ d LPort ->
  reads DATA_REG (io m') = reads DATA_REG (io m) ++ d LCode -> d LSent = [] -> d LIn = [] -> d LGot = [] -> stays d m m'.
Proof.
  intros [E1 E2 E3 E4 E5] R1 R2 D1 D2 D3. split; [|done]. split; [|by rewrite E1..]. intros k.
  destruct k; simpl; rewrite ?E1, ?E5, ?D1, ?D2, ?D3, ?app_nil_r; done.
Qed.
Lemma looked_ordered pend m m' : looked m m' -> ordered pend m -> ordered pend m'.
Proof. intros [[A1 A2 A3 A4 A5] B2 B3 B4 B5] [M1 M2 M3 M4 M5 M6]. split; rewrite ?A1, ?A2, ?A5, ?B2, ?B4, ?B5; done. Qed.
Lemma inb_post port m :
  post (inb port) m (fun v m' => byte v /\ looked m m' /\ (port = LSR_REG -> Z.land v LSR_THRE <> 0 -> u_ready (port_of m') = true) /\
    stays (fun k => match k with LPort => if port =? RBR_REG then [v] else [] | LCode => if port =? DATA_REG then [v] else [] | _ => [] end) m m').
Proof.
  intros v m' E. destruct (inb_runs port m) as (v' & m2 & E' & Hb & L & R). rewrite E in E'. injection E' as <- <-.
  split; [done|]. split; [done|]. split; [done|]. apply quiet_stays; try done; [apply L|..];
    unfold inb in E; destruct (hw_in port (hw m)) as [x h]; injection E as <- <-; simpl; by rewrite reads_in.
Qed.
Lemma outb_post port v m :
  post (outb port v) m (fun _ m' => quiet m m' /\ port_of m' = uart_step (Out port v) (port_of m) /\ stays none m m').
Proof. eapply post_ok; [reflexivity|]. split; [done|]. split; [done|]. by apply quiet_stays; simpl; rewrite ?app_nil_r. Qed.
Lemma poll_post n m : post (poll n) m (fun _ m' => looked m m' /\ u_ready (port_of m') = true /\ stays none m m').
Proof.
  revert m. induction n as [|n IH]; intros m; [by intros ? ? E|]. cbn [poll]. apply post_bind. eapply post_mono; [apply inb_post|].
  intros v m1 (_ & L & R & S). apply (stays_ext _ none) in S; [|by intros []]. destruct (Z.eqb_spec (Z.land v LSR_THRE) 0) as [|Hv].
  - eapply post_mono; [apply IH|]. intros [] m2 (L2 & R2 & S2). split; [by eapply looked_trans|]. split; [done|]. by eapply stays_then.
  - apply post_ret. auto.
Qed.
Lemma on_sys_post {A} (k : K isys A) m (Q : A -> machine H -> Prop) :
  post k (sys m) (fun a s => Q a (with_sys m s)) -> post (on_sys k) m Q.
Proof. intros Hk a m' E. unfold on_sys in E. destruct (k (sys m)) as [[a' s]| |] eqn:Ek; [|done..]. injection E as <- <-. by apply Hk. Qed.
Lemma m_off_post m (Q : unit -> machine H -> Prop) : Q tt m -> post (on_sys intr_off) m Q.
Proof. intros HQ. apply on_sys_post. eapply post_mono; [apply off_post|]. intros [] s ->. by rewrite with_sys_id. Qed.
Lemma m_empty_post w m (Q : bool -> machine H -> Prop) :
  intq_wf (get_q w (sys m)) -> Q (bool_decide (contents (get_q w (sys m)) = [])) m -> post (on_sys (intq_empty w)) m Q.
Proof. intros W HQ. apply on_sys_post. eapply post_mono; [by apply intq_empty_post|]. intros e s [-> ->]. by rewrite with_sys_id. Qed.
Lemma m_full_post w m (Q : bool -> machine H -> Prop) :
  intq_wf (get_q w (sys m)) -> Q (len (contents (get_q w (sys m))) =? 63) m -> post (on_sys (intq_full w)) m Q.
Proof. intros W HQ. apply on_sys_post. eapply post_mono; [by apply intq_full_post|]. intros e s [-> ->]. by rewrite with_sys_id. Qed.
Lemma input_full_post m (Q : bool -> machine H -> Prop) :
  intq_wf (inq (sys m)) -> Q (len (contents (inq (sys m))) =? 63) m -> post input_full m Q.
Proof.
  intros W HQ. apply on_sys_post, post_bind. eapply post_mono; [apply off_post|]. intros [] s ->. eapply post_mono; [by apply (intq_full_post INQ)|].
  intros e s [-> ->]. by rewrite with_sys_id.
Qed.
Lemma putc_poll_post b m : ordered [b] m -> post (putc_poll fuel b) m (fun _ m' => ordered [] m' /\ quiet m m' /\ stays none m m').
Proof.
  intros M. unfold putc_poll. apply post_bind, m_off_post. apply post_bind. eapply post_mono; [apply poll_post|].
  intros [] m1 (L & R & S1). pose proof (looked_ordered _ _ _ L M) as [M1 M2 M3 M4 M5 M6]. eapply post_mono; [apply outb_post|].
  intros [] m2 (Q2 & P2 & S2). split; [|split; [etransitivity; [apply L|done]|by eapply stays_then]]. destruct Q2 as [E1 E2 E3 E4 E5].
  split; rewrite ?E1, ?E2, ?E5, ?P2; try done; simpl; rewrite ?M3; simpl; [by rewrite M2, R|done|by rewrite app_nil_r].
Qed.
Lemma write_ier_post pend m : ordered pend m -> post write_ier m (fun _ m' => ordered pend m' /\ quiet m m' /\ stays none m m').
Proof.
  intros M. unfold write_ier. apply post_bind, m_off_post. apply post_bind, m_empty_post; [apply M|]. apply post_bind, input_full_post; [apply (od_wf _ _ M INQ)|].
  eapply post_mono; [apply outb_post|]. intros [] m2 (Q2 & P2 & S2). split; [|done]. destruct M as [M1 M2 M3 M4 M5 M6], Q2 as [E1 E2 E3 E4 E5].
  split; rewrite ?E1, ?E2, ?E5, ?P2; try done; simpl; by rewrite M3.
Qed.
Lemma notify_post pend m : ordered pend m -> post serial_notify m (fun _ m' => ordered pend m' /\ quiet m m' /\ stays none m m').
Proof.
  intros M. unfold serial_notify. apply post_bind, m_off_post. apply post_bind. eapply post_ok; [reflexivity|].
  destruct (bool_decide (mode m = QUEUE)); [by apply write_ier_post|]. apply post_ret. split; [done|]. split; [by split|apply stays_refl].
Qed.

(** *** Queues *)

Lemma blocked_ordered pend cs m s' :
  ordered pend m -> same_bytes cs (sys m) s' -> (forall t w c, cs !! t = Some (w, c) -> call_ok w c /\ (w = TXQ -> mode m = QUEUE)) ->
  ordered pend (with_sys m s') /\ moved none cs m (with_sys m s').
Proof.
  intros [M1 M2 M3 M4 M5 M6] [B1 B2 B3] Hcs. destruct (bytes_contents _ _ (B1 TXQ)) as (ET & PT & GT), (bytes_contents _ _ (B1 INQ)) as (EI & PI & GI).
  cbn [get_q taken added put_log got_log] in ET, PT, GT, EI, PI, GI. split; split; try done; simpl.
  - intros w. exact (bytes_wf _ _ (B1 w) (M1 w)).
  - by rewrite GT.
  - by rewrite ET, GT.
  - intros t w c. rewrite B2. apply Hcs.
  - intros []; simpl; by rewrite ?PT, ?PI, ?GI, app_nil_r.
Qed.
Lemma same_ordered pend m s' : ordered pend m -> same_bytes (calls (sys m)) (sys m) s' -> ordered pend (with_sys m s') /\ stays none m (with_sys m s').
Proof. intros M S. destruct (blocked_ordered pend _ m s' M S (od_calls _ _ M)) as [O V]. split; [done|]. by split. Qed.
Lemma changed_wf w q m s' : (forall w', intq_wf (get_q w' (sys m))) -> intq_wf q -> changed w q (sys m) s' -> forall w', intq_wf (get_q w' s').
Proof.
  intros W Wq [C1 C2 C3 C4] w'. destruct (decide (w' = w)) as [->|Hne]; [by eapply bytes_wf|]. eapply bytes_wf; [by apply C2|apply W].
Qed.
Lemma tx_getc_post c m :
  ordered [] m -> post (now (intq_getc TXQ c)) m (fun b m' => ordered [b] m' /\ port_of m' = port_of m /\ stays none m m').
Proof.
  intros [M1 M2 M3 M4 M5 M6]. unfold now. apply post_bind, on_sys_post. eapply post_mono; [apply intq_getc_post, M1|].
  intros r s' Hr. apply post_the. intros b ->. destruct Hr as (Hb & Ec & Wt & C). pose proof (changed_wf _ _ m s' M1 Wt C) as Wf.
  destruct C as [C1 C2 C3 C4]. destruct (bytes_contents _ _ C1) as (ET & PT & GT), (bytes_contents _ _ (C2 INQ ltac:(done))) as (EI & PI & GI).
  cbn [get_q taken added put_log got_log] in ET, PT, GT, EI, PI, GI. split; [|split; [done|]]; split; try done; simpl.
  - rewrite GT, app_assoc. rewrite app_nil_r in M4. by rewrite <- M4.
  - intros Hm. destruct (M5 Hm) as [E0 _]. cbn [get_q] in Ec. by rewrite E0 in Ec.
  - by rewrite C3.
  - split; [|done..]. intros []; simpl; by rewrite ?PT, ?PI, ?GI, ?app_nil_r.
Qed.
(** A thread that sends is in [serial_putc] when it waits. *)
Lemma tx_putc_post b old m :
  ordered [] m -> mode m = QUEUE -> byte b ->
  post (on_sys (intq_putc TXQ b (CPutc b old))) m (fun r m' => ordered [] m' /\
    match r with
    | Some _ => stays (one LSent b) m m'
    | None => moved none (<[current (sys m) := (TXQ, CPutc b old)]> (calls (sys m))) m m' /\ mode m' = mode m
    end).
Proof.
  intros M Hq Hb. pose proof M as [M1 M2 M3 M4 M5 M6]. apply on_sys_post. eapply post_mono; [by apply intq_putc_post|]. intros [[]|] s' Hr.
  - destruct Hr as (Ea & Wa & C). pose proof (changed_wf _ _ m s' M1 Wa C) as Wf.
    destruct C as [C1 C2 C3 C4]. destruct (bytes_contents _ _ C1) as (ET & PT & GT), (bytes_contents _ _ (C2 INQ ltac:(done))) as (EI & PI & GI).
    cbn [get_q taken added put_log got_log] in ET, PT, GT, EI, PI, GI. split; split; try done; simpl.
    + by rewrite GT.
    + by rewrite C3.
    + split; [|done..]. intros []; simpl; rewrite ?PT, ?PI, ?GI, ?app_nil_r; try done. simpl. by rewrite app_assoc.
  - destruct (blocked_ordered [] _ m s' M Hr) as [O V]; [|by split].
    intros t w c. destruct (decide (current (sys m) = t)) as [<-|Hne]; [rewrite lookup_insert_eq; by intros [= <- <-]|rewrite lookup_insert_ne by done; apply M6].
Qed.
Lemma in_getc_post old m :
  ordered [] m ->
  post (on_sys (intq_getc INQ (CGetc old))) m (fun r m' => ordered [] m' /\
    match r with
    | Some key => stays (one LGot key) m m'
    | None => moved none (<[current (sys m) := (INQ, CGetc old)]> (calls (sys m))) m m' /\ mode m' = mode m
    end).
Proof.
  intros M. pose proof M as [M1 M2 M3 M4 M5 M6]. apply on_sys_post. eapply post_mono; [by apply intq_getc_post|]. intros [key|] s' Hr.
  - destruct Hr as (Hb & Ea & Wa & C). pose proof (changed_wf _ _ m s' M1 Wa C) as Wf.
    destruct C as [C1 C2 C3 C4]. destruct (bytes_contents _ _ C1) as (EI & PI & GI), (bytes_contents _ _ (C2 TXQ ltac:(done))) as (ET & PT & GT).
    cbn [get_q taken added put_log got_log] in ET, PT, GT, EI, PI, GI. split; split; try done; simpl.
    + by rewrite GT.
    + by rewrite ET, GT.
    + by rewrite C3.
    + split; [|done..]. intros []; simpl; by rewrite ?PT, ?PI, ?GI, ?app_nil_r.
  - destruct (blocked_ordered [] _ m s' M Hr) as [O V]; [|by split].
    intros t w c. destruct (decide (current (sys m) = t)) as [<-|Hne]; [rewrite lookup_insert_eq; by intros [= <- <-]|rewrite lookup_insert_ne by done; apply M6].
Qed.
Lemma input_putc_post key m :
  ordered [] m -> byte key -> post (input_putc key) m (fun _ m' => ordered [] m' /\ stays (one LIn key) m m').
Proof.
  intros M Hb. pose proof M as [M1 M2 M3 M4 M5 M6]. unfold input_putc. apply post_bind, m_off_post. apply post_bind, m_full_post; [apply M1|]. apply post_bind, post_assert. intros _.
  apply post_bind. unfold now. apply post_bind, on_sys_post. eapply post_mono; [by apply intq_putc_post|]. intros r s' Hr. apply post_the. intros [] ->.
  destruct Hr as (Ea & Wa & C). pose proof (changed_wf _ _ m s' M1 Wa C) as Wf.
  destruct C as [C1 C2 C3 C4]. destruct (bytes_contents _ _ C1) as (EI & PI & GI), (bytes_contents _ _ (C2 TXQ ltac:(done))) as (ET & PT & GT). cbn [get_q taken added put_log got_log] in ET, PT, GT, EI, PI, GI.
  assert (M' : ordered [] (with_sys m s')) by (split; try done; simpl; [by rewrite GT|by rewrite ET, GT|by rewrite C3]).
  eapply post_mono; [by apply (notify_post [])|]. intros [] m2 (O2 & _ & S2). split; [done|]. eapply then_stays; [|exact S2].
  split; [|done]. split; [|done..]. intros []; simpl; by rewrite ?PT, ?PI, ?GI, ?app_nil_r.
Qed.

(** *** The drivers *)

Lemma level_post (f : isys -> isys) pend m :
  (forall s, same_queues s (f s) /\ current (f s) = current s) -> ordered pend m ->
  post (on_sys (modify f)) m (fun _ m' => ordered pend m' /\ stays none m m').
Proof.
  intros Hf M. destruct (Hf (sys m)) as [(E1 & E2 & E3) E4]. apply on_sys_post. eapply post_ok; [reflexivity|]. apply same_ordered; [done|].
  split; [intros []; simpl; by rewrite ?E1, ?E2|unfold calls; by rewrite E3|done].
Qed.
Lemma set_level_post on pend m : ordered pend m -> post (on_sys (intr_set_level on)) m (fun _ m' => ordered pend m' /\ stays none m m').
Proof. intros M. by apply level_post. Qed.
Lemma disable_post pend m :
  ordered pend m -> post (on_sys intr_disable) m (fun _ m' => ordered pend m' /\ stays none m m').
Proof.
  intros M. apply on_sys_post. eapply post_ok; [reflexivity|]. by apply same_ordered.
Qed.
Lemma take_key_post old m :
  ordered [] m ->
  post (take_key old) m (fun r m' => ordered [] m' /\
    match r with Some key => moved (one LGot key) (calls (sys m)) m m' | None => moved none (<[current (sys m) := (INQ, CGetc old)]> (calls (sys m))) m m' end).
Proof.
  intros M. unfold take_key. apply post_bind. eapply post_mono; [by apply in_getc_post|]. intros [key|] m1 [O1 S1].
  - apply post_bind. eapply post_mono; [by apply notify_post|]. intros [] m2 (O2 & _ & S2). apply post_bind. eapply post_mono; [by apply set_level_post|].
    intros [] m3 (O3 & S3). apply post_ret. split; [done|]. apply (then_stays _ m m2 m3); [|done]. by eapply then_stays.
  - apply post_ret. split; [done|apply S1].
Qed.
Lemma queue_byte_post b old m :
  ordered [] m -> mode m = QUEUE -> byte b ->
  post (queue_byte b old) m (fun r m' => ordered [] m' /\
    match r with Some _ => moved (one LSent b) (calls (sys m)) m m' | None => moved none (<[current (sys m) := (TXQ, CPutc b old)]> (calls (sys m))) m m' end).
Proof.
  intros M Hq Hb. unfold queue_byte. apply post_bind. eapply post_mono; [by apply tx_putc_post|]. intros [[]|] m1 [O1 S1].
  - apply post_bind. eapply post_mono; [by apply write_ier_post|]. intros [] m2 (O2 & _ & S2). apply post_bind. eapply post_mono; [by apply set_level_post|].
    intros [] m3 (O3 & S3). apply post_ret. split; [done|]. apply (then_stays _ m m2 m3); [|done]. by eapply then_stays.
  - apply post_ret. split; [done|apply S1].
Qed.

Lemma flush_post n m : ordered [] m -> post (flush_loop fuel n) m (fun _ m' => ordered [] m' /\ stays none m m').
Proof.
  revert m. induction n as [|n IH]; intros m M; [by intros ? ? E|]. cbn [flush_loop]. apply post_bind, m_empty_post; [apply M|].
  destruct (bool_decide _); [apply post_ret; split; [done|apply stays_refl]|]. apply post_bind. eapply post_mono; [by apply tx_getc_post|]. intros b m1 (O1 & _ & S1).
  apply post_bind. eapply post_mono; [by apply putc_poll_post|]. intros [] m2 (O2 & _ & S2). eapply post_mono; [by apply IH|]. intros [] m3 (O3 & S3). split; [done|].
  by eapply stays_then; [|eapply stays_then].
Qed.
(** The bytes read from the port go into the buffer. *)
Definition received (l : list Z) (k : kind) : list Z := match k with LIn | LPort => l | _ => [] end.
Lemma receive_post n m : ordered [] m -> post (receive_loop n) m (fun _ m' => ordered [] m' /\ exists l, stays (received l) m m').
Proof.
  revert m. induction n as [|n IH]; intros m M; [by intros ? ? E|]. cbn [receive_loop]. apply post_bind, input_full_post; [apply (od_wf _ _ M INQ)|].
  destruct (_ =? 63). { apply post_ret. split; [done|]. exists []. eapply stays_ext; [|apply stays_refl]. by intros []. }
  apply post_bind. eapply post_mono; [apply inb_post|]. intros v m1 (_ & L1 & _ & S1). apply (stays_ext _ (received [])) in S1; [|by intros []]. pose proof (looked_ordered _ _ _ L1 M) as O1.
  destruct (_ =? 0). { apply post_ret. eauto. }
  apply post_bind. eapply post_mono; [apply inb_post|]. intros c m2 (Hc & L2 & _ & S2). pose proof (looked_ordered _ _ _ L2 O1) as O2.
  apply post_bind. eapply post_mono; [by apply input_putc_post|]. intros [] m3 (O3 & S3). eapply post_mono; [by apply IH|]. intros [] m4 (O4 & l & S4). split; [done|].
  assert (S13 : stays (received [c]) m1 m3) by (eapply stays_after; [exact S2|exact S3|by intros []]).
  exists (c :: l). eapply (stays_after (received []) (received (c :: l))); [exact S1| |by intros []].
  eapply (stays_after (received [c]) (received l)); [exact S13|exact S4|by intros []].
Qed.
Lemma transmit_post n m : ordered [] m -> post (transmit_loop n) m (fun _ m' => ordered [] m' /\ stays none m m').
Proof.
  revert m. induction n as [|n IH]; intros m M; [by intros ? ? E|]. cbn [transmit_loop]. apply post_bind, m_empty_post; [apply M|].
  destruct (bool_decide _); [apply post_ret; split; [done|apply stays_refl]|]. apply post_bind. eapply post_mono; [apply inb_post|]. intros v m1 (_ & L1 & R1 & S1).
  pose proof (looked_ordered _ _ _ L1 M) as O1. apply (stays_ext _ none) in S1; [|by intros []].
  destruct (Z.eqb_spec (Z.land v LSR_THRE) 0) as [|Hv]; [by apply post_ret|]. apply post_bind. eapply post_mono; [by apply tx_getc_post|]. intros b m2 ([N1 N2 N3 N4 N5 N6] & P2 & S2).
  apply post_bind. eapply post_mono; [apply outb_post|]. intros [] m3 (Q3 & P3 & S3).
  assert (O3 : ordered [] m3).
  { destruct Q3 as [E1 E2 E3 E4 E5]. split; rewrite ?E1, ?E2, ?E5, ?P3; try done; simpl; rewrite ?N3; simpl; [by rewrite N2, P2, R1|done|by rewrite app_nil_r]. }
  eapply post_mono; [by apply IH|]. intros [] m4 (O4 & S4). split; [done|]. eapply stays_then; [exact S1|]. by eapply stays_then; [|eapply stays_then].
Qed.
Lemma serial_interrupt_post m : ordered [] m -> post serial_interrupt m (fun _ m' => ordered [] m' /\ exists l, stays (received l) m m').
Proof.
  intros M. unfold serial_interrupt. apply post_bind. eapply post_mono; [apply inb_post|]. intros v m1 (_ & L1 & _ & S1). apply (stays_ext _ none) in S1; [|by intros []].
  apply post_bind. eapply post_mono; [apply receive_post; by eapply looked_ordered|]. intros [] m2 (O2 & l & S2).
  apply post_bind. eapply post_mono; [by apply transmit_post|]. intros [] m3 (O3 & S3). eapply post_mono; [by apply write_ier_post|]. intros [] m4 (O4 & _ & S4). split; [done|].
  exists l. eapply stays_then; [exact S1|]. by eapply then_stays; [eapply then_stays|].
Qed.
Lemma init_poll_post m :
  ordered [] m -> mode m = UNINIT -> post init_poll m (fun _ m' => ordered [] m' /\ mode m' = POLL /\ moved none (calls (sys m)) m m').
Proof.
  intros [M1 M2 M3 M4 M5 M6] Hmd. destruct (M5 ltac:(by rewrite Hmd)) as (Hc & Hg). unfold init_poll.
  apply post_bind. eapply post_ok; [reflexivity|]. apply post_bind, post_assert. intros _.
  assert (P0 : exists r, port_of m = mkUart false r (u_ier (port_of m)) (u_thr (port_of m)) false) by (exists (u_ready (port_of m)); destruct (port_of m); simpl in *; by subst).
  destruct P0 as [r P0]. unfold set_serial.
  apply post_bind. eapply post_mono; [apply outb_post|]. intros [] m1 (Q1 & P1 & S1). rewrite P0 in P1. simpl in P1.
  apply post_bind. eapply post_mono; [apply outb_post|]. intros [] m2 (Q2 & P2 & S2). rewrite P1 in P2. simpl in P2.
  apply post_bind, post_bind, post_assert. intros _.
  apply post_bind. eapply post_mono; [apply outb_post|]. intros [] m3 (Q3 & P3 & S3). rewrite P2 in P3. simpl in P3.
  apply post_bind. eapply post_mono; [apply outb_post|]. intros [] m4 (Q4 & P4 & S4). rewrite P3 in P4. simpl in P4.
  apply post_bind. eapply post_mono; [apply outb_post|]. intros [] m5 (Q5 & P5 & S5). rewrite P4 in P5. simpl in P5.
  eapply post_mono; [apply outb_post|]. intros [] m6 (Q6 & P6 & S6). rewrite P5 in P6. simpl in P6.
  apply post_bind. eapply post_mono; [apply outb_post|]. intros [] m7 (Q7 & P7 & S7). rewrite P6 in P7. simpl in P7.
  assert (Q : quiet m m7) by (repeat (etransitivity; [eassumption|]); done). assert (S : stays none m m7) by (repeat (eapply stays_then; [eassumption|]); apply stays_refl).
  clear Q1 Q2 Q3 Q4 Q5 Q6 Q7 S1 S2 S3 S4 S5 S6 S7 P1 P2 P3 P4 P5 P6.
  assert (Hp : put_log (txq (sys m)) = []) by (pose proof (wf_log _ (M1 TXQ)) as Hl; cbn [get_q] in Hl; by rewrite Hg, Hc in Hl).
  apply post_bind, on_sys_post. eapply post_ok; [reflexivity|]. eapply post_ok; [reflexivity|]. destruct Q as [E1 E2 E3 E4 E5]. split; [|split; [done|]].
  - split; unfold port_of in *; cbn [sys mode io early with_sys get_q txq inq set_q]; rewrite ?P7, ?E1, ?E5; try done.
    + intros []; cbn [get_q txq inq set_q]; rewrite ?E1; [|apply (M1 INQ)]. pose proof (M1 TXQ) as [W1 W2 W3 W4 W5]. by split.
    + cbn [u_thr got_log]. by rewrite M4, Hg.
    + intros t w c Ht. destruct (M6 t w c Ht) as [Hok Hw]. split; [done|]. intros ->. by rewrite Hmd in Hw; discriminate Hw.
  - destruct S as [[L1 L2 L3] _]. split; [|done|done]. intros k. specialize (L1 k). destruct k; simpl in *; rewrite ?app_nil_r in L1; by rewrite ?E1, ?E5, ?Hp, ?app_nil_r.
Qed.
(** A byte is sent before the queue is in use. *)
Lemma early_post b m :
  ordered [] m -> mode m <> QUEUE -> post (log_early b) m (fun _ m' => ordered [b] m' /\ mode m' = mode m /\ stays (one LSent b) m m').
Proof.
  intros [M1 M2 M3 M4 M5 M6] Hm. destruct (M5 Hm) as (Hc & Hg). pose proof (wf_log _ (M1 TXQ)) as Hp. cbn [get_q] in Hp. rewrite Hg, Hc in Hp.
  eapply post_ok; [reflexivity|]. split; [|split; [done|]].
  - split; try done. unfold port_of in *. simpl. rewrite Hg, !app_nil_r in *. by rewrite M4.
  - split; [|done]. split; [|done..]. intros []; simpl; by rewrite ?Hp, ?app_nil_r.
Qed.
Lemma serial_putc_post b m :
  ordered [] m -> byte b ->
  post (serial_putc fuel b) m (fun r m' => ordered [] m' /\
    match r with
    | Some _ => moved (one LSent b) (calls (sys m)) m m'
    | None => exists old, moved none (<[current (sys m) := (TXQ, CPutc b old)]> (calls (sys m))) m m'
    end).
Proof.
  intros M Hb. unfold serial_putc. apply post_bind. eapply post_mono; [by apply disable_post|]. intros old m0 (O0 & [S0 Em0]). pose proof (mv_calls _ _ _ _ S0) as Ec0.
  apply post_bind. eapply post_ok; [reflexivity|]. destruct (bool_decide_reflect (mode m0 = QUEUE)) as [Hq|Hq]; cbn [negb].
  - apply post_bind. apply (post_mono _ _ (fun _ m' => m' = m0)).
    { destruct old; [by apply post_ret|]. by apply m_full_post; [apply O0|]. }
    intros f m' ->. apply post_bind. apply (post_mono _ _ (fun _ m' => ordered [] m' /\ stays none m0 m')).
    { destruct f; [|apply post_ret; split; [done|apply stays_refl]]. cbn [when]. apply post_bind. eapply post_mono; [by apply tx_getc_post|].
      intros c m1 (O1 & _ & S1). eapply post_mono; [by apply putc_poll_post|]. intros [] m2 (O2 & _ & S2). split; [done|by eapply stays_then]. }
    intros [] m2 (O2 & [S2 Em2]). pose proof (moved_after none none none _ _ _ _ _ S0 S2 ltac:(done)) as S02. pose proof (mv_calls _ _ _ _ S02) as Ec2. rewrite Ec0 in Ec2.
    eapply post_mono; [apply queue_byte_post; [done|by rewrite Em2|done]|]. intros r m3 (O3 & S3). split; [done|].
    rewrite Ec2, (mv_current _ _ _ _ S02) in S3. destruct r; [|exists old]; by eapply (moved_after none).
  - apply post_bind. apply (post_mono _ _ (fun _ m' => ordered [] m' /\ mode m' <> QUEUE /\ moved none (calls (sys m0)) m0 m')).
    { destruct (bool_decide_reflect (mode m0 = UNINIT)) as [Hu|Hu]; cbn [when].
      - eapply post_mono; [by apply init_poll_post|]. intros [] m1 (O1 & E1 & S1). by rewrite E1.
      - apply post_ret. split; [done|]. split; [done|]. apply stays_refl. }
    intros [] m1 (O1 & E1 & S1). apply post_bind. eapply post_mono; [by apply early_post|]. intros [] m2 (O2 & _ & [S2 _]).
    apply post_bind. eapply post_mono; [by apply putc_poll_post|]. intros [] m3 (O3 & _ & S3). apply post_bind. eapply post_mono; [by apply set_level_post|].
    intros [] m4 (O4 & S4). apply post_ret. split; [done|]. rewrite (mv_calls _ _ _ _ S1), Ec0 in S2.
    eapply moved_within; [|exact S2|by eapply stays_then]. by eapply (moved_after none none).
Qed.
Lemma serial_flush_post m : ordered [] m -> post (serial_flush fuel) m (fun _ m' => ordered [] m' /\ stays none m m').
Proof.
  intros M. unfold serial_flush. apply post_bind. eapply post_mono; [by apply disable_post|]. intros old m0 (O0 & S0).
  apply post_bind. eapply post_mono; [by apply flush_post|]. intros [] m1 (O1 & S1). eapply post_mono; [by apply set_level_post|]. intros [] m2 (O2 & S2).
  split; [done|]. by eapply stays_then; [|eapply stays_then].
Qed.
Lemma init_queue_post m : ordered [] m -> post serial_init_queue m (fun _ m' => ordered [] m' /\ moved none (calls (sys m)) m m').
Proof.
  intros M. unfold serial_init_queue. apply post_bind. eapply post_ok; [reflexivity|]. apply post_bind.
  apply (post_mono _ _ (fun _ m' => ordered [] m' /\ moved none (calls (sys m)) m m')).
  { destruct (bool_decide_reflect (mode m = UNINIT)) as [Hu|Hu]; cbn [when].
    - eapply post_mono; [by apply init_poll_post|]. by intros [] m1 (O1 & E1 & S1).
    - apply post_ret. split; [done|]. apply stays_refl. }
  intros [] m1 (O1 & S1). apply post_bind. eapply post_ok; [reflexivity|]. apply post_bind, post_assert. intros Hp%bool_decide_eq_true_1.
  apply post_bind. eapply post_ok; [reflexivity|]. set (m2 := mkMachine _ QUEUE _ _ _ _ _).
  assert (O2 : ordered [] m2) by (destruct O1 as [A1 A2 A3 A4 A5 A6]; split; try done; intros t w c Ht; by destruct (A6 t w c Ht)).
  apply post_bind. eapply post_mono; [by apply disable_post|]. intros old m3 (O3 & S3). apply post_bind. eapply post_mono; [by apply write_ier_post|]. intros [] m4 (O4 & _ & S4).
  eapply post_mono; [by apply set_level_post|]. intros [] m5 (O5 & S5). split; [done|]. rewrite <- (mv_calls _ _ _ _ S1).
  eapply (moved_after none none); [exact S1| |done]. change (calls (sys m1)) with (calls (sys m2)).
  destruct (stays_then none m2 m3 m5 S3 ltac:(by eapply stays_then)) as [[L1 L2 L3] _]. by split.
Qed.

(** *** The keyboard *)

(** The character of a key with the keys that are down, given its code, one byte or two, and whether
    the buffer is full: none for a shift key, for a key that is released, for Ctrl+Alt+Del, and
    without room. *)
Definition keystroke (k : kbd) (codes : list Z) (full : bool) : option Z :=
  let shift := left_shift k || right_shift k in
  let alt := left_alt k || right_alt k in
  let ctrl := left_ctrl k || right_ctrl k in
  let code := match codes with [c] => c | [c; d] => Z.lor (Z.shiftl c 8) d | _ => 0 end in
  let release := negb (Z.land code 0x80 =? 0) in
  let code := Z.land code (u32 (Z.lnot 0x80)) in
  if (code =? 0x3a) || release || full then None
  else
    match find_key shift code with
    | Some c => if (c =? 127) && ctrl && alt then None else Some (typed shift ctrl alt (caps_lock k) c)
    | None => None
    end.
Definition struck (codes : list Z) (c : option Z) (k : kind) : list Z := match k with LCode => codes | LIn => option_list c | _ => [] end.
Lemma if_same_none (b : bool) : (if b then None else None) = (None : option Z).
Proof. by destruct b. Qed.
Lemma keyboard_post m :
  ordered [] m ->
  post keyboard_interrupt m (fun _ m' => ordered [] m' /\ exists codes,
    moved (struck codes (keystroke (kb m) codes (len (contents (inq (sys m))) =? 63))) (calls (sys m)) m m').
Proof.
  intros M. unfold keyboard_interrupt. apply post_bind. eapply post_ok; [reflexivity|].
  apply post_bind. eapply post_mono; [apply inb_post|]. intros code m1 (_ & L1 & _ & S1). apply post_bind.
  apply (post_mono _ _ (fun code m' => exists codes, code = match codes with [c] => c | [c; d] => Z.lor (Z.shiftl c 8) d | _ => 0 end /\ looked m m' /\ stays (struck codes None) m m')).
  { destruct (code =? 0xe0).
    - apply post_bind. eapply post_mono; [apply inb_post|]. intros d m2 (_ & L2 & _ & S2). apply post_ret. exists [code; d]. split; [done|]. split; [by eapply looked_trans|].
      eapply stays_after; [exact S1|exact S2|by intros []].
    - apply post_ret. exists [code]. split; [done|]. split; [done|]. eapply stays_ext; [|exact S1]. by intros []. }
  clear code m1 L1 S1. intros code m1 (codes & Ecode & L1 & S1). pose proof (looked_ordered _ _ _ L1 M) as O1. pose proof (qt_sys _ _ (lk_quiet _ _ L1)) as Es.
  cbv zeta.
  assert (Hno : forall k h m', m' = mkMachine (sys m1) (mode m1) k h (hw m1) (io m1) (early m1) -> ordered [] m' /\ moved (struck codes None) (calls (sys m)) m m').
  { intros k h m' ->. split; [destruct O1; by split|]. destruct S1 as [[A1 A2 A3] _]. by split. }
  assert (Hsame : ordered [] m1 /\ moved (struck codes None) (calls (sys m)) m m1) by (split; [done|apply S1]).
  set (full := len (contents (inq (sys m))) =? 63).
  apply (post_mono _ _ (fun _ m' => ordered [] m' /\ moved (struck codes (keystroke (kb m) codes full)) (calls (sys m)) m m')); [|intros [] m' [O' V']; eauto].
  unfold keystroke. rewrite <- Ecode. cbv zeta. set (release := negb (Z.land code 0x80 =? 0)). set (code' := Z.land code _).
  destruct (code' =? 0x3a); cbn [orb].
  { destruct release; cbn [negb when]; [by apply post_ret|]. eapply post_ok; [reflexivity|]. by eapply Hno. }
  set (shift := left_shift (kb m) || right_shift (kb m)). destruct (find_key shift code') as [c|] eqn:Ef.
  2:{ eapply post_ok; [reflexivity|]. rewrite (if_same_none (release || full)). by eapply Hno. }
  destruct release; cbn [orb]; [by apply post_ret|]. destruct ((c =? 127) && _ && _).
  { eapply post_ok; [reflexivity|]. rewrite (if_same_none full). by eapply Hno. }
  apply post_bind, input_full_post; [apply (od_wf _ _ O1 INQ)|]. rewrite Es. fold full. destruct full; cbn [negb when]; [by apply post_ret|].
  apply post_bind. eapply post_ok; [reflexivity|]. set (m2 := mkMachine _ _ (count_key (kb m)) _ _ _ _). destruct (Hno _ _ m2 eq_refl) as [O2 V2].
  eapply post_mono; [apply input_putc_post; [done|by eapply typed_byte, find_key_byte]|]. intros [] m3 [O3 [V3 _]]. split; [done|].
  rewrite (mv_calls _ _ _ _ V2) in V3. eapply moved_after; [exact V2|exact V3|]. by intros []; simpl; rewrite ?app_nil_r.
Qed.

(** ** The console *)

(** What its users see: the byte that a thread has called [serial_putc] with, the bytes of the calls
    that have returned, the keys and bytes that have come in, and the keys that [input_getc] has
    returned. *)
Record history := mkHistory { asked : gmap positive Z; accepted : list Z; arrived : list Z; returned : list Z }.
Definition no_history : history := mkHistory ∅ [] [] [].
Definition actor (a : action) : positive :=
  match a with DoPutc t _ _ | DoGetc t _ | DoFlush t _ | DoInit t _ | DoResume t => t | DoKey | DoSerial => 1%positive end.
(** The bytes that have been read from a port in between. *)
Definition new_reads (port : Z) m m' : list Z := drop (length (reads port (io m))) (reads port (io m')).
Definition observe (a : action) m (r : option finished) m' (c : history) : history :=
  let asked := match a with DoPutc t _ b => <[t := b]> (asked c) | _ => asked c end in
  mkHistory asked
    (accepted c ++ match r with Some Putc_done => option_list (asked !! actor a) | _ => [] end)
    (arrived c ++ match a with
                  | DoKey => option_list (keystroke (kb m) (new_reads DATA_REG m m') (len (contents (inq (sys m))) =? 63))
                  | DoSerial => new_reads RBR_REG m m'
                  | _ => []
                  end)
    (returned c ++ match r with Some (Getc_done key) => [key] | _ => [] end).
(** A thread that is blocked calls nothing. *)
Definition possible m (a : action) : Prop :=
  match a with
  | DoPutc t _ b => byte b /\ parked (sys m) !! t = None
  | DoGetc t _ => parked (sys m) !! t = None
  | _ => True
  end.
Inductive cstep : machine H * history -> machine H * history -> Prop :=
| C_act a r m m' c : possible m a -> act fuel a m = Ok (r, m') -> cstep (m, c) (m', observe a m r m' c).

Record seen m (c : history) : Prop := {
  se_ordered : ordered [] m;
  se_sent : accepted c = log LSent m;
  se_in : arrived c = log LIn m;
  se_got : returned c = log LGot m;
  se_asked t b old : calls (sys m) !! t = Some (TXQ, CPutc b old) -> asked c !! t = Some b
}.
(** A step that changes the logs by [d]. *)
Lemma seen_step a r m m' c d :
  seen m c -> ordered [] m' -> (forall k, log k m' = log k m ++ d k) ->
  accepted (observe a m r m' c) = accepted c ++ d LSent -> arrived (observe a m r m' c) = arrived c ++ d LIn ->
  returned (observe a m r m' c) = returned c ++ d LGot ->
  (forall t b old, calls (sys m') !! t = Some (TXQ, CPutc b old) -> asked (observe a m r m' c) !! t = Some b) -> seen m' (observe a m r m' c).
Proof. intros [S1 S2 S3 S4 S5] O' L E1 E2 E3 Ha. split; [done|by rewrite E1, S2, L|by rewrite E2, S3, L|by rewrite E3, S4, L|done]. Qed.
Lemma new_reads_log m m' d : (forall k, log k m' = log k m ++ d k) -> new_reads RBR_REG m m' = d LPort /\ new_reads DATA_REG m m' = d LCode.
Proof.
  intros L. unfold new_reads. change (reads RBR_REG (io ?x)) with (log LPort x). change (reads DATA_REG (io ?x)) with (log LCode x).
  rewrite !L, !drop_app_length. done.
Qed.

(** A thread starts to run; a handler starts or ends. *)
Lemma level_seen (f : isys -> isys) m :
  (forall s, same_queues s (f s)) -> ordered [] m ->
  post (map_sys f) m (fun _ m' => ordered [] m' /\ (forall k, log k m' = log k m) /\ calls (sys m') = calls (sys m) /\ current (sys m') = current (f (sys m)) /\ kb m' = kb m /\ mode m' = mode m /\
    inq (sys m') = inq (sys m)).
Proof.
  intros Hf [M1 M2 M3 M4 M5 M6]. destruct (Hf (sys m)) as (E1 & E2 & E3). apply on_sys_post. eapply post_ok; [reflexivity|].
  assert (Ec : calls (f (sys m)) = calls (sys m)) by (unfold calls; by rewrite E3). split.
  - split; cbn [with_sys sys mode early]; rewrite ?E1, ?E2, ?Ec; try done. intros []; cbn [get_q]; rewrite ?E1, ?E2; [apply (M1 TXQ)|apply (M1 INQ)].
  - split; [|done]. intros []; simpl; by rewrite ?E1, ?E2.
Qed.
Lemma handler_post (handler : K (machine H) unit) m (D : (kind -> list Z) -> Prop) :
  ordered [] m ->
  (forall m0, ordered [] m0 -> kb m0 = kb m -> inq (sys m0) = inq (sys m) ->
     post handler m0 (fun _ m' => ordered [] m' /\ exists d, D d /\ moved d (calls (sys m0)) m0 m')) ->
  post (interrupt handler;; mret (None : option finished)) m (fun r m' => r = None /\ ordered [] m' /\ calls (sys m') = calls (sys m) /\
    exists d, D d /\ forall k, log k m' = log k m ++ d k).
Proof.
  intros M Hh. unfold interrupt. apply post_bind, post_bind. eapply post_mono; [by apply level_seen|]. intros [] m0 (O0 & L0 & C0 & _ & K0 & _ & I0).
  apply post_bind. eapply post_mono; [by apply Hh|]. intros [] m1 (O1 & d & Hd & [L1 C1 _]). eapply post_mono; [by apply level_seen|]. intros [] m2 (O2 & L2 & C2 & _).
  apply post_ret. split; [done|]. split; [done|]. split; [congruence|]. exists d. split; [done|]. intros k. by rewrite L2, L1, L0.
Qed.
Lemma putc_seen t on b m c :
  seen m c -> byte b -> parked (sys m) !! t = None -> post (putc_by fuel t on b) m (fun r m' => seen m' (observe (DoPutc t on b) m r m' c)).
Proof.
  intros S Hb Hp. unfold putc_by. apply post_bind. eapply post_mono; [apply level_seen; [done|apply S]|]. intros [] m0 (O0 & L0 & C0 & T0 & _). cbn [as_thread current] in T0.
  assert (Hc : calls (sys m) !! t = None) by (unfold calls; by rewrite lookup_fmap, Hp).
  apply post_bind. eapply post_mono; [by apply serial_putc_post|]. intros [[]|] m1 (O1 & V1); apply post_ret.
  - destruct V1 as [L1 C1 _]. apply (seen_step _ _ m m1 c (one LSent b)); try done.
    + intros k. by rewrite L1, L0.
    + simpl. by rewrite lookup_insert_eq.
    + intros t' b' old Ht. rewrite C1, C0 in Ht. simpl. rewrite lookup_insert_ne by congruence. by eapply (se_asked _ _ S).
  - destruct V1 as [old [L1 C1 _]]. apply (seen_step _ _ m m1 c none); try done.
    + intros k. by rewrite L1, L0.
    + intros t' b' old' Ht. rewrite C1, C0, T0 in Ht. simpl. apply lookup_insert_Some in Ht as [[<- [= <- _]]|[Hne Ht]]; [apply lookup_insert_eq|].
      rewrite lookup_insert_ne by done. by eapply (se_asked _ _ S).
Qed.
Lemma getc_seen t on m c : seen m c -> post (getc_by t on) m (fun r m' => seen m' (observe (DoGetc t on) m r m' c)).
Proof.
  intros S. unfold getc_by. apply post_bind. eapply post_mono; [apply level_seen; [done|apply S]|]. intros [] m0 (O0 & L0 & C0 & T0 & _). cbn [as_thread current] in T0.
  apply post_bind. unfold input_getc. apply post_bind. eapply post_mono; [by apply disable_post|]. intros old m1 (O1 & [[L1 C1 T1] _]).
  eapply post_mono; [by apply take_key_post|]. intros [key|] m2 (O2 & V2); apply post_ret; destruct V2 as [L2 C2 _].
  - apply (seen_step _ _ m m2 c (one LGot key)); try done; simpl.
    + intros k. by rewrite L2, L1, L0, app_nil_r.
    + intros t' b' old' Ht. rewrite C2, C1, C0 in Ht. by eapply (se_asked _ _ S).
  - apply (seen_step _ _ m m2 c none); try done; simpl.
    + intros k. by rewrite L2, L1, L0, app_nil_r.
    + intros t' b' old' Ht. rewrite C2, C1, C0 in Ht. apply lookup_insert_Some in Ht as [[_ ?]|[_ Ht]]; [done|]. by eapply (se_asked _ _ S).
Qed.
(** A thread goes on, in the call that it was in. *)
Lemma unpark_post t s : post (unpark t) s (fun _ s' => same_bytes (delete t (calls s)) s s').
Proof. eapply post_ok; [reflexivity|]. split; [intros w'; by rewrite get_q_parked|unfold calls; simpl; by rewrite fmap_delete|done]. Qed.
Lemma lock_release_post w s : post (lock_release w) s (fun _ s' => same_bytes (calls s) s s').
Proof.
  apply post_bind. eapply post_ok; [reflexivity|]. apply post_bind, post_assert. intros _. eapply post_ok; [reflexivity|]. by apply set_q_same.
Qed.
Lemma go_on_seen t w cl m m1 c :
  seen m c -> ordered [] m1 -> (forall k, log k m1 = log k m) -> calls (sys m) !! t = Some (w, cl) -> calls (sys m1) = delete t (calls (sys m)) ->
  current (sys m1) = t -> mode m1 = mode m -> post (go_on cl) m1 (fun r m' => seen m' (observe (DoResume t) m r m' c)).
Proof.
  intros S O1 L1 Hc C1 T1 E1. destruct (od_calls _ _ (se_ordered _ _ S) t w cl Hc) as [Hok Hw].
  assert (Hd : forall t' b old, delete t (calls (sys m)) !! t' = Some (TXQ, CPutc b old) -> asked c !! t' = Some b).
  { intros t' b old [_ Ht]%lookup_delete_Some. by eapply (se_asked _ _ S). }
  destruct cl as [old|b old]; simpl in Hok; unfold go_on; apply post_bind.
  - eapply post_mono; [by apply take_key_post|]. intros [key|] m2 (O2 & [L2 C2 _]); apply post_ret.
    + apply (seen_step _ _ m m2 c (one LGot key)); try done; simpl; [intros k; by rewrite L2, L1|]. by rewrite C2, C1.
    + apply (seen_step _ _ m m2 c none); try done; simpl; [intros k; by rewrite L2, L1|]. rewrite C2, C1. intros t' b old' Ht.
      apply lookup_insert_Some in Ht as [[_ ?]|[_ Ht]]; [done|by eapply Hd].
  - destruct Hok as [-> Hb]. pose proof (se_asked _ _ S t b old Hc) as Ha.
    eapply post_mono; [apply queue_byte_post; [done|rewrite E1; by apply Hw|done]|]. intros [[]|] m2 (O2 & [L2 C2 _]); apply post_ret.
    + apply (seen_step _ _ m m2 c (one LSent b)); try done; simpl; [intros k; by rewrite L2, L1|by rewrite Ha|]. by rewrite C2, C1.
    + apply (seen_step _ _ m m2 c none); try done; simpl; [intros k; by rewrite L2, L1|]. rewrite C2, C1, T1. intros t' b' old' Ht.
      apply lookup_insert_Some in Ht as [[<- [= <- _]]|[_ Ht]]; [done|by eapply Hd].
Qed.
Lemma resume_seen t m c : seen m c -> post (resume t) m (fun r m' => seen m' (observe (DoResume t) m r m' c)).
Proof.
  intros S. unfold resume. apply post_bind. eapply post_mono; [apply level_seen; [done|apply S]|]. intros [] m0 (O0 & L0 & C0 & T0 & _ & E0 & _). cbn [as_thread current] in T0.
  apply post_bind. eapply post_ok; [reflexivity|]. destruct (parked (sys m0) !! t) as [[[w cl] p]|] eqn:Hp; [|apply post_panic].
  assert (Hc : calls (sys m) !! t = Some (w, cl)) by (rewrite <- C0; unfold calls; by rewrite lookup_fmap, Hp).
  destruct p; [|apply post_panic|].
  - apply post_bind, on_sys_post, post_bind. eapply post_mono; [apply unpark_post|]. intros [] s1 S1. eapply post_mono; [apply block_post|]. intros [] s2 S2.
    rewrite (sb_calls _ _ _ S1), (sb_current _ _ _ S1), T0, C0 in S2. rewrite insert_delete_eq, (insert_id _ _ _ Hc), <- C0 in S2.
    destruct (same_ordered [] m0 s2 O0) as [O2 [[L2 C2 _] _]]; [by eapply same_bytes_trans|]. apply post_ret.
    apply (seen_step _ _ m _ c none); try done; [intros k; by rewrite L2, L0|]. rewrite C2, C0. apply S.
  - apply post_bind, on_sys_post, post_bind. eapply post_mono; [apply unpark_post|]. intros [] s1 S1. eapply post_mono; [apply lock_release_post|]. intros [] s2 S2.
    rewrite (sb_calls _ _ _ S1) in S2. rewrite C0 in S2. destruct (blocked_ordered [] _ m0 s2 O0 (same_bytes_trans _ _ _ _ _ S1 S2)) as [O2 [L2 C2 T2]].
    { intros t' w' c' [_ Ht]%lookup_delete_Some. rewrite <- C0 in Ht. by apply (od_calls _ _ O0) in Ht. }
    eapply go_on_seen; [done|done| |exact Hc|done|by rewrite T2|done]. intros k. by rewrite L2, L0, app_nil_r.
Qed.
Lemma act_seen a m c : seen m c -> possible m a -> post (act fuel a) m (fun r m' => seen m' (observe a m r m' c)).
Proof.
  intros S Ha. pose proof (se_ordered _ _ S) as M. destruct a as [t on b|t on|t on|t on|t| |]; cbn [act].
  - destruct Ha as [Hb Hp]. by apply putc_seen.
  - by apply getc_seen.
  - apply post_bind, post_bind. eapply post_mono; [by apply level_seen|]. intros [] m0 (O0 & L0 & C0 & _). eapply post_mono; [by apply serial_flush_post|].
    intros [] m1 (O1 & [[L1 C1 _] _]). apply post_ret. apply (seen_step _ _ m m1 c none); try done; [intros k; by rewrite L1, L0|]. rewrite C1, C0. apply S.
  - apply post_bind, post_bind. eapply post_mono; [by apply level_seen|]. intros [] m0 (O0 & L0 & C0 & _). eapply post_mono; [by apply init_queue_post|].
    intros [] m1 (O1 & [L1 C1 _]). apply post_ret. apply (seen_step _ _ m m1 c none); try done; [intros k; by rewrite L1, L0|]. rewrite C1, C0. apply S.
  - by apply resume_seen.
  - eapply post_mono; [apply (handler_post _ m (fun d => exists codes, d = struck codes (keystroke (kb m) codes (len (contents (inq (sys m))) =? 63)))); [done|]|].
    + intros m0 O0 K0 I0. eapply post_mono; [by apply keyboard_post|]. intros [] m1 (O1 & codes & V). rewrite K0, I0 in V. split; [done|]. eauto.
    + intros r m1 (-> & O1 & C1 & d & (codes & ->) & L1). destruct (new_reads_log m m1 _ L1) as [_ En].
      apply (seen_step _ _ m m1 c _ S O1 L1); try done; simpl; [by rewrite En|]. rewrite C1. apply S.
  - eapply post_mono; [apply (handler_post _ m (fun d => exists l, d = received l)); [done|]|].
    + intros m0 O0 K0 I0. eapply post_mono; [by apply serial_interrupt_post|]. intros [] m1 (O1 & l & [V _]). split; [done|]. eauto.
    + intros r m1 (-> & O1 & C1 & d & (l & ->) & L1). destruct (new_reads_log m m1 _ L1) as [En _].
      apply (seen_step _ _ m m1 c _ S O1 L1); try done; simpl; [by rewrite En|]. rewrite C1. apply S.
Qed.
Lemma booted_seen m : booted m -> seen m no_history.
Proof.
  intros (Ft & Fi & Hp & Hm & _ & Hio & He). destruct (fresh_wf _ Ft) as (Wt & Ct & Gt & _), (fresh_wf _ Fi) as (Wi & Ci & Gi & _).
  destruct Ft as (_ & _ & Et), Fi as (_ & _ & Ei).
  assert (Pt : put_log (txq (sys m)) = []) by (by rewrite Et). assert (Pi : put_log (inq (sys m)) = []) by (by rewrite Ei).
  assert (Hc : calls (sys m) = ∅) by (unfold calls; by rewrite Hp, fmap_empty).
  split; simpl; rewrite ?Hc, ?He, ?Pt, ?Pi, ?Gi; try done. unfold port_of. split; unfold port_of; rewrite ?Hio, ?He, ?Gt, ?Hc; try done. by intros [].
Qed.
Lemma reached_seen m0 m c : booted m0 -> rtc cstep (m0, no_history) (m, c) -> seen m c.
Proof.
  intros Hb Hr. change (seen (m, c).1 (m, c).2). revert Hr. generalize (m, c). intros x Hr.
  eapply (rtc_invariant cstep (fun x => seen x.1 x.2)); [|exact Hr|by apply booted_seen]. intros y z Hy Hs. destruct Hs as [a r m1 m2 c1 Ha E]. simpl in *.
  by apply (act_seen a m1 c1 Hy Ha).
Qed.

(** C33: The console keeps bytes in order, in every order of calls by any number of threads and of
    interrupts in which the kernel does not panic.  The bytes of the calls of [serial_putc] that
    have returned, in the order in which they returned, are those that have been written to the
    serial port, followed by those in the queue, and each was written only when the transmitter had
    been seen to be empty.  The characters of the keys that were struck and the bytes read from the
    serial port are those that [input_getc] has returned, followed by those in the buffer.  Neither
    queue holds more than 63 bytes.  As long as at most one thread waits for keys and at most one to
    send, the kernel does not panic and every call and interrupt ends, if the transmitter gets empty
    in time. *)
Theorem console_in_order m0 m c :
  booted m0 -> rtc cstep (m0, no_history) (m, c) ->
  accepted c = u_thr (port_of m) ++ contents (txq (sys m)) /\ u_bad (port_of m) = false /\
  arrived c = returned c ++ contents (inq (sys m)) /\
  (forall w, len (contents (get_q w (sys m))) <= 63) /\
  (forall a, (forall h, thre_within fuel h) -> rtc (mstep fuel) m0 m -> allowed m a -> exists r m', act fuel a m = Ok (r, m')).
Proof.
  intros Hb Hr. destruct (reached_seen m0 m c Hb Hr) as [[M1 M2 M3 M4 M5 M6] S2 S3 S4 _]. rewrite S2, S3, S4. simpl.
  rewrite (wf_log _ (M1 TXQ) : put_log (txq (sys m)) = _), (wf_log _ (M1 INQ) : put_log (inq (sys m)) = _). cbn [get_q].
  split; [|split; [done|split; [done|split]]].
  - rewrite app_nil_r in M4. by rewrite app_assoc, <- M4.
  - intros w. apply full_bound.
  - intros a Ht Hm Ha. destruct (console_returns fuel Ht m0 m a Hb Hm Ha) as (r & m' & E & _). eauto.
Qed.
End Order.

(** ** A run *)

Definition possibleb (m : machine (list Z)) (a : action) : bool :=
  match a with
  | DoPutc t _ b => (0 <=? b) && (b <? 256) && bool_decide (parked (sys m) !! t = None)
  | DoGetc t _ => bool_decide (parked (sys m) !! t = None)
  | _ => true
  end.
Lemma possibleb_ok m a : possibleb m a = true -> possible m a.
Proof.
  destruct a as [t on b|t on|t on|t on|t| |]; simpl; try done; [|by intros ?%bool_decide_eq_true_1].
  intros [Hb Hp%bool_decide_eq_true_1]%andb_true_iff. split; [unfold byte; reflect_bools; lia|done].
Qed.
Fixpoint watch (l : list action) (m : machine (list Z)) (c : history) : option (machine (list Z) * history) :=
  match l with
  | [] => Some (m, c)
  | a :: l' =>
      if possibleb m a then match act 1 a m with Ok (r, m') => watch l' m' (observe a m r m' c) | _ => None end else None
  end.
Lemma watch_steps l m c x : watch l m c = Some x -> rtc (cstep 1) (m, c) x.
Proof.
  revert m c. induction l as [|a l IH]; simpl; intros m c; [by intros [= ->]|]. destruct (possibleb m a) eqn:Ha; [|done].
  destruct (act 1 a m) as [[r m1]| |] eqn:E; [|done..]. intros Hl. eapply rtc_l; [|by apply IH]. constructor; [by apply possibleb_ok|exact E].
Qed.
(** Two bytes are sent, of which the port has taken one, and a reader has waited for a key. *)
Definition ex_sent_and_typed : list action := [DoInit 1 true; DoPutc 2 true 65; DoSerial; DoPutc 2 true 66; DoGetc 1 true; DoKey; DoResume 1].
Definition ex_watched : option (machine (list Z) * history) := watch ex_sent_and_typed (ex_machine [0x1e]) no_history.
Lemma ex_watched_steps x : ex_watched = Some x -> rtc (cstep 1) (ex_machine [0x1e], no_history) x.
Proof. apply (watch_steps ex_sent_and_typed). Qed.
Lemma ex_watched_ok : match ex_watched with
  | Some (m, c) => (accepted c, u_thr (port_of m), contents (txq (sys m)), returned c) = ([65; 66], [65], [66], [97])
  | None => False
  end.
Proof. vm_compute. reflexivity. Qed.
#[local] Opaque ex_watched.
Lemma console_in_order_witness : exists (m : machine (list Z)) c, accepted c = [65; 66] /\ u_thr (port_of m) = [65] /\ returned c = [97] /\ arrived c = [97] ++ contents (inq (sys m)).
Proof.
  pose proof ex_watched_ok as Hok. destruct ex_watched as [[m c]|] eqn:E; [|destruct Hok]. injection Hok as H1 H2 H3 H4. exists m, c.
  destruct (console_in_order 1 (ex_machine [0x1e]) m c (ex_booted [0x1e]) (ex_watched_steps (m, c) E)) as (Hs & _ & Hi & _).
  rewrite H4 in Hi. split; [exact H1|]. split; [exact H2|]. split; [exact H4|exact Hi].
Defined.
