(* ===== verification/Ide.v ===== *)
(** The driver of ATA disks (devices/ide.c), over any controller and disks that keep the
    protocol of the ATA standard for programmed input and output. *)

From Stdlib Require Import Ascii String.
From stdpp Require Import gmap.
From S2P Require Import Prelude KMonad Bytes Stdio.

(** ** The controller *)

(** Offsets of the registers from the base of the channel. *)
Definition reg_data : Z := 0.
Definition reg_error : Z := 1.
Definition reg_nsect : Z := 2.
Definition reg_lbal : Z := 3.
Definition reg_lbam : Z := 4.
Definition reg_lbah : Z := 5.
Definition reg_device : Z := 6.
Definition reg_status : Z := 7.
Definition reg_command : Z := reg_status.
Definition reg_ctl : Z := 0x206.
Definition reg_alt_status : Z := reg_ctl.
Definition STA_BSY : Z := 0x80.
Definition STA_DRDY : Z := 0x40.
Definition STA_DRQ : Z := 0x08.
Definition CTL_SRST : Z := 0x04.
Definition DEV_MBS : Z := 0xa0.
Definition DEV_LBA : Z := 0x40.
Definition DEV_DEV : Z := 0x10.
Definition CMD_IDENTIFY_DEVICE : Z := 0xec.
Definition CMD_READ_SECTOR_RETRY : Z := 0x20.
Definition CMD_WRITE_SECTOR_RETRY : Z := 0x30.

(** What a channel shows: its registers, whether it is busy, what it transfers next, whether an
    interrupt will follow, and the sectors of its disks. *)
Inductive phase := Idle | DataIn (bs : list Z) | DataOut.
Record chan := mkChan {
  c_device : Z; c_nsect : Z; c_lbal : Z; c_lbam : Z; c_lbah : Z; c_phase : phase; c_busy : bool; c_due : bool; c_media : bool -> option (list (list Z))
}.
Definition set_busy (b : bool) (c : chan) : chan :=
  mkChan (c_device c) (c_nsect c) (c_lbal c) (c_lbam c) (c_lbah c) (c_phase c) b (c_due c) (c_media c).
Definition set_phase (p : phase) (due : bool) (c : chan) : chan :=
  mkChan (c_device c) (c_nsect c) (c_lbal c) (c_lbam c) (c_lbah c) p (c_busy c) due (c_media c).
Definition set_media (f : bool -> option (list (list Z))) (c : chan) : chan :=
  mkChan (c_device c) (c_nsect c) (c_lbal c) (c_lbam c) (c_lbah c) (c_phase c) (c_busy c) (c_due c) f.
Definition set_reg (reg v : Z) (c : chan) : chan :=
  let '(mkChan dv ns l m h p b d f) := c in
  if reg =? reg_nsect then mkChan dv v l m h p b d f
  else if reg =? reg_lbal then mkChan dv ns v m h p b d f
  else if reg =? reg_lbam then mkChan dv ns l v h p b d f
  else if reg =? reg_lbah then mkChan dv ns l m v p b d f
  else if reg =? reg_device then mkChan v ns l m h p b d f
  else c.
Definition slave (c : chan) : bool := Z.testbit (c_device c) 4.
Definition lba (c : chan) : Z := c_lbal c + 2 ^ 8 * c_lbam c + 2 ^ 16 * c_lbah c + 2 ^ 24 * (c_device c mod 16).
Definition is_idle (p : phase) : bool := match p with Idle => true | _ => false end.
Definition put_sector (dev : bool) (n : Z) (bs : list Z) (f : bool -> option (list (list Z))) (d : bool) : option (list (list Z)) :=
  if Bool.eqb d dev then <[Z.to_nat n := bs]> <$> f d else f d.

(** The protocol (ATA-6, chapters 7 to 9): the status register shows the state; while the channel is idle
    registers can be written; a command to read makes the channel busy and then ready to
    transfer the sector, after an interrupt; a command to write makes it ready to take a sector, after which the channel
    is busy until an interrupt; reading the status register, but not the alternate one, takes back an
    interrupt that is due; and the channel is never busy for more than 30 seconds. *)
Class Ata (D : Type) := {
  ata_inb : Z -> D -> Z * D;
  ata_outb : Z -> Z -> D -> D;
  ata_insw : D -> list Z * D;
  ata_outsw : list Z -> D -> D;
  ata_delay : Z -> D -> D;
  ata_irq : D -> option D;
  shows : D -> chan -> Prop;
  patience : D -> nat;
  media : D -> bool -> option (list (list Z));
  at_media d c : shows d c -> media d = c_media c;
  at_status d c reg : shows d c -> reg = reg_status \/ reg = reg_alt_status ->
    let '(v, d') := ata_inb reg d in
    byte v /\ shows d' (if reg =? reg_status then set_phase (c_phase c) false c else c) /\ patience d' = patience d /\ Z.testbit v 7 = c_busy c /\ (c_busy c = false -> Z.testbit v 3 = negb (is_idle (c_phase c)));
  at_delay d c ns : shows d c -> exists b, shows (ata_delay ns d) (set_busy b c) /\ (c_busy c = false -> b = false) /\
    (patience (ata_delay ns d) <= patience d)%nat /\ (10 * 1000 * 1000 <= ns -> c_busy c = true -> (patience (ata_delay ns d) < patience d)%nat);
  at_reg d c reg v : shows d c -> c_busy c = false -> c_phase c = Idle -> reg_nsect <= reg <= reg_device -> byte v ->
    shows (ata_outb reg v d) (set_reg reg v c);
  at_read d c secs bs : shows d c -> c_busy c = false -> c_phase c = Idle -> c_nsect c = 1 -> Z.testbit (c_device c) 6 = true ->
    c_media c (slave c) = Some secs -> secs !! Z.to_nat (lba c) = Some bs ->
    exists b, shows (ata_outb reg_command CMD_READ_SECTOR_RETRY d) (set_busy b (set_phase (DataIn bs) true c)) /\ (patience (ata_outb reg_command CMD_READ_SECTOR_RETRY d) < 3000)%nat;
  at_write d c secs : shows d c -> c_busy c = false -> c_phase c = Idle -> c_nsect c = 1 -> Z.testbit (c_device c) 6 = true ->
    c_media c (slave c) = Some secs -> lba c < len secs ->
    exists b, shows (ata_outb reg_command CMD_WRITE_SECTOR_RETRY d) (set_busy b (set_phase DataOut false c)) /\ (patience (ata_outb reg_command CMD_WRITE_SECTOR_RETRY d) < 3000)%nat;
  at_irq d c : shows d c -> c_due c = true -> exists d', ata_irq d = Some d' /\ shows d' (set_busy false (set_phase (c_phase c) false c)) /\ (patience d' < 3000)%nat;
  at_insw d c bs : shows d c -> c_busy c = false -> c_phase c = DataIn bs ->
    exists d', ata_insw d = (bs, d') /\ shows d' (set_phase Idle (c_due c) c);
  at_outsw d c bs : shows d c -> c_busy c = false -> c_phase c = DataOut -> length bs = 512%nat ->
    exists b, shows (ata_outsw bs d) (set_busy b (set_media (put_sector (slave c) (lba c) bs (c_media c)) (set_phase Idle true c)))
}.

(** ** The driver *)

Record ata_disk := mkDisk { d_name : list Z; dev_no : Z; is_ata : bool }.
(** A channel with its hardware, the interrupt level, and the disks that have been registered
    as block devices with their names, descriptions and sizes. The lock is held or not: one
    thread uses the channel at a time. *)
Record channel D := mkChannel {
  ch_locked : bool; expecting_interrupt : bool; completion_wait : Z; devices : list ata_disk; intr_on : bool; hw : D;
  registered : list (list Z * list Z * Z)
}.
Arguments mkChannel {D}.
Arguments ch_locked {D}.
Arguments expecting_interrupt {D}.
Arguments completion_wait {D}.
Arguments devices {D}.
Arguments intr_on {D}.
Arguments hw {D}.
Arguments registered {D}.

(** Swapping the pairs of bytes, and cutting white space at the end; [size] is at least one. *)
Fixpoint swap_pairs (s : list Z) : list Z :=
  match s with
  | a :: b :: s' => b :: a :: swap_pairs s'
  | _ => s
  end.
Fixpoint last_char (size : nat) (s : list Z) : nat :=
  match size with
  | O => O
  | S size' =>
      let c := default 0 (s !! size') in
      if negb (c =? 0) && negb (isspace (s8 c)) then size else last_char size' s
  end.
Definition descramble_ata_string (s : list Z) : list Z :=
  let t := swap_pairs s in
  let size := last_char (length t - 1) t in
  take size t.

(** A string up to its terminator. *)
Fixpoint up_to_nul (s : list Z) : list Z :=
  match s with [] => [] | c :: s' => if c =? 0 then [] else c :: up_to_nul s' end.

Section Driver.
Context {D : Type} `{!Ata D}.
Implicit Types (s : channel D).

Definition set_hw (d : D) s : channel D :=
  mkChannel (ch_locked s) (expecting_interrupt s) (completion_wait s) (devices s) (intr_on s) d (registered s).
Definition inb (reg : Z) : K (channel D) Z := fun s => let '(v, d) := ata_inb reg (hw s) in Ok (v, set_hw d s).
Definition outb (reg v : Z) : K (channel D) unit := modify (fun s => set_hw (ata_outb reg (u8 v) (hw s)) s).
Definition delay (ns : Z) : K (channel D) unit := modify (fun s => set_hw (ata_delay ns (hw s)) s).
Definition timer_nsleep (ns : Z) : K (channel D) unit := delay ns.
Definition timer_usleep (us : Z) : K (channel D) unit := delay (us * 1000).
Definition timer_msleep (ms : Z) : K (channel D) unit := delay (ms * 1000 * 1000).
Definition set_disk (n : Z) (x : ata_disk) : K (channel D) unit :=
  modify (fun s => mkChannel (ch_locked s) (expecting_interrupt s) (completion_wait s) (<[Z.to_nat n := x]> (devices s)) (intr_on s) (hw s) (registered s)).
Definition disk (n : Z) : K (channel D) ata_disk := s ← get; the (devices s !! Z.to_nat n).

Definition select_device (n : Z) : K (channel D) unit :=
  outb reg_device (if n =? 1 then Z.lor DEV_MBS DEV_DEV else DEV_MBS);;
  inb reg_alt_status;;
  timer_nsleep 400.
(** Both loops have a bound of their own. *)
Fixpoint idle_loop (k : nat) : K (channel D) unit :=
  match k with
  | O => mret tt
  | S k' =>
      v ← inb reg_status;
      if Z.land v (Z.lor STA_BSY STA_DRQ) =? 0 then mret tt else timer_usleep 10;; idle_loop k'
  end.
Definition wait_until_idle : K (channel D) unit := idle_loop 1000.
Fixpoint busy_loop (k : nat) : K (channel D) bool :=
  match k with
  | O => mret false
  | S k' =>
      v ← inb reg_alt_status;
      if Z.land v STA_BSY =? 0 then v ← inb reg_alt_status; mret (negb (Z.land v STA_DRQ =? 0))
      else timer_msleep 10;; busy_loop k'
  end.
Definition wait_while_busy : K (channel D) bool := busy_loop 3000.
Definition select_device_wait (n : Z) : K (channel D) unit := wait_until_idle;; select_device n;; wait_until_idle.

Definition select_sector (n sec_no : Z) : K (channel D) unit :=
  ASSERT (sec_no <? 2 ^ 28);;
  select_device_wait n;;
  outb reg_nsect 1;;
  outb reg_lbal sec_no;;
  outb reg_lbam (Z.shiftr sec_no 8);;
  outb reg_lbah (Z.shiftr sec_no 16);;
  outb reg_device (Z.lor (Z.lor (Z.lor DEV_MBS DEV_LBA) (if n =? 1 then DEV_DEV else 0)) (Z.shiftr sec_no 24)).
Definition set_expecting s : channel D :=
  mkChannel (ch_locked s) true (completion_wait s) (devices s) (intr_on s) (hw s) (registered s).
Definition issue_pio_command (command : Z) : K (channel D) unit :=
  on ← gets intr_on; ASSERT on;;
  modify set_expecting;;
  outb reg_command command.
Definition input_sector : K (channel D) (list Z) := fun s => let '(bs, d) := ata_insw (hw s) in Ok (bs, set_hw d s).
Definition output_sector (bs : list Z) : K (channel D) unit := modify (fun s => set_hw (ata_outsw bs (hw s)) s).

Definition set_completion (v : Z) s : channel D :=
  mkChannel (ch_locked s) (expecting_interrupt s) v (devices s) (intr_on s) (hw s) (registered s).
(** The handler, for an interrupt of this channel. *)
Definition interrupt_handler : K (channel D) unit :=
  e ← gets expecting_interrupt;
  when e (inb reg_status;; modify (fun s => set_completion (u32 (completion_wait s + 1)) s)).
(** The thread sleeps until the interrupt, if it has not come yet. *)
Definition sema_down_completion : K (channel D) unit :=
  v ← gets completion_wait;
  if 0 <? v then modify (set_completion (v - 1))
  else fun s =>
    match ata_irq (hw s) with
    | Some d => (interrupt_handler;; v ← gets completion_wait; if 0 <? v then modify (set_completion (v - 1)) else fun _ => NoFuel) (set_hw d s)
    | None => NoFuel
    end.
Definition set_locked (b : bool) s : channel D :=
  mkChannel b (expecting_interrupt s) (completion_wait s) (devices s) (intr_on s) (hw s) (registered s).
Definition lock_acquire : K (channel D) unit := b ← gets ch_locked; ASSERT (negb b);; modify (set_locked true).
Definition lock_release : K (channel D) unit := b ← gets ch_locked; ASSERT b;; modify (set_locked false).

Definition ide_read (n sec_no : Z) : K (channel D) (list Z) :=
  lock_acquire;;
  select_sector n sec_no;;
  issue_pio_command CMD_READ_SECTOR_RETRY;;
  sema_down_completion;;
  ok ← wait_while_busy;
  if negb ok then panic
  else
    bs ← input_sector;
    lock_release;;
    mret bs.
Definition ide_write (n sec_no : Z) (buffer : list Z) : K (channel D) unit :=
  lock_acquire;;
  select_sector n sec_no;;
  issue_pio_command CMD_WRITE_SECTOR_RETRY;;
  ok ← wait_while_busy;
  if negb ok then panic
  else
    output_sector buffer;;
    sema_down_completion;;
    lock_release.

(** ** Detection *)

Definition check_device_type (n : Z) : K (channel D) bool :=
  select_device n;;
  error ← inb reg_error;
  lbam ← inb reg_lbam;
  lbah ← inb reg_lbah;
  status ← inb reg_status;
  d ← disk n;
  if (negb (error =? 1) && (negb (error =? 0x81) || (n =? 1))) || (Z.land status STA_DRDY =? 0) || negb (Z.land status STA_BSY =? 0) then
    set_disk n (mkDisk (d_name d) (dev_no d) false);;
    mret (negb (error =? 0x81))
  else
    set_disk n (mkDisk (d_name d) (dev_no d) (((lbam =? 0) && (lbah =? 0)) || ((lbam =? 0x3c) && (lbah =? 0xc3))));;
    mret true.
(** [block_register] records the disk. *)
Definition block_register (nm info : list Z) (size : Z) : K (channel D) unit :=
  modify (fun s => mkChannel (ch_locked s) (expecting_interrupt s) (completion_wait s) (devices s) (intr_on s) (hw s) (registered s ++ [(nm, info, size)])).
Definition identify_ata_device (n : Z) : K (channel D) unit :=
  d ← disk n;
  ASSERT (is_ata d);;
  select_device_wait n;;
  issue_pio_command CMD_IDENTIFY_DEVICE;;
  sema_down_completion;;
  ok ← wait_while_busy;
  if negb ok then set_disk n (mkDisk (d_name d) (dev_no d) false)
  else
    id ← input_sector;
    let capacity := le_value (slice id 120 4) in
    let model := descramble_ata_string (slice id 20 20) in
    let serial := descramble_ata_string (slice id 54 40) in
    if 1024 * 1024 * 1024 / 512 <=? capacity then set_disk n (mkDisk (d_name d) (dev_no d) false)
    else
      let extra_info := str "model " ++ [34] ++ up_to_nul model ++ [34] ++ str ", serial " ++ [34] ++ up_to_nul serial ++ [34] in
      block_register (d_name d) (take 127 extra_info) capacity.

Definition present (n : Z) : K (channel D) bool :=
  select_device n;;
  outb reg_nsect 0x55;; outb reg_lbal 0xaa;;
  outb reg_nsect 0xaa;; outb reg_lbal 0x55;;
  outb reg_nsect 0x55;; outb reg_lbal 0xaa;;
  a ← inb reg_nsect;
  if a =? 0x55 then b ← inb reg_lbal; mret (b =? 0xaa) else mret false.
Fixpoint reset_loop (k : nat) : K (channel D) unit :=
  match k with
  | O => mret tt
  | S k' =>
      a ← inb reg_nsect;
      b ← (if a =? 1 then b ← inb reg_lbal; mret (b =? 1) else mret false);
      if (b : bool) then mret tt else timer_msleep 10;; reset_loop k'
  end.
Definition reset_channel : K (channel D) unit :=
  p0 ← present 0;
  p1 ← present 1;
  outb reg_ctl 0;;
  timer_usleep 10;;
  outb reg_ctl CTL_SRST;;
  timer_usleep 10;;
  outb reg_ctl 0;;
  timer_msleep 150;;
  when p0 (select_device 0;; wait_while_busy;; mret tt);;
  when p1 (select_device 1;; reset_loop 3000;; wait_while_busy;; mret tt).

(** One channel of [ide_init]. *)
Definition init_channel (chan_no : Z) : K (channel D) unit :=
  modify (fun s => mkChannel false false 0
    [mkDisk (str "hd" ++ [97 + chan_no * 2]) 0 false; mkDisk (str "hd" ++ [97 + chan_no * 2 + 1]) 1 false] (intr_on s) (hw s) (registered s));;
  reset_channel;;
  more ← check_device_type 0;
  when more (check_device_type 1;; mret tt);;
  d0 ← disk 0; when (is_ata d0) (identify_ata_device 0);;
  d1 ← disk 1; when (is_ata d1) (identify_ata_device 1).
(** Both channels, one after the other. *)
Definition ide_init (c0 c1 : channel D) : outcome (channel D * channel D) :=
  match init_channel 0 c0 with
  | Ok (_, c0') => match init_channel 1 c1 with Ok (_, c1') => Ok (c0', c1') | Panic => Panic | NoFuel => NoFuel end
  | Panic => Panic
  | NoFuel => NoFuel
  end.
End Driver.
