(* ===== verification/IdeOk.v ===== *)
(** The disk driver reads and writes the sectors it is asked for, and is a block device that
    the file system can be on. *)

From stdpp Require Import gmap.
From S2P Require Import Prelude KMonad Bytes Stdio Ide.

(** ** Bits of the status register *)

Lemma byte_forall (P : Z -> bool) v : forallb P (seqZ 0 256) = true -> byte v -> P v = true.
Proof. intros HP Hv. rewrite forallb_forall in HP. apply HP, list_elem_of_In, elem_of_seqZ. unfold byte in Hv. lia. Qed.
Lemma bsy_bit v : byte v -> (Z.land v STA_BSY =? 0) = negb (Z.testbit v 7).
Proof. intros Hv. apply eqb_prop. apply (byte_forall (fun v => Bool.eqb (Z.land v STA_BSY =? 0) (negb (Z.testbit v 7)))); [vm_compute; reflexivity|done]. Qed.
Lemma drq_bit v : byte v -> (Z.land v STA_DRQ =? 0) = negb (Z.testbit v 3).
Proof. intros Hv. apply eqb_prop. apply (byte_forall (fun v => Bool.eqb (Z.land v STA_DRQ =? 0) (negb (Z.testbit v 3)))); [vm_compute; reflexivity|done]. Qed.
Lemma idle_bits v : byte v -> (Z.land v (Z.lor STA_BSY STA_DRQ) =? 0) = negb (Z.testbit v 7) && negb (Z.testbit v 3).
Proof.
  intros Hv. apply eqb_prop. apply (byte_forall (fun v => Bool.eqb (Z.land v (Z.lor STA_BSY STA_DRQ) =? 0) (negb (Z.testbit v 7) && negb (Z.testbit v 3)))); [vm_compute; reflexivity|done].
Qed.
(** The device register with the top bits of a sector number. *)
Definition device_reg (n top : Z) : Z := Z.lor (Z.lor (Z.lor DEV_MBS DEV_LBA) (if n =? 1 then DEV_DEV else 0)) top.
Lemma device_reg_bits n top : 0 <= top < 16 ->
  byte (device_reg n top) /\ Z.testbit (device_reg n top) 4 = (n =? 1) /\ Z.testbit (device_reg n top) 6 = true /\ device_reg n top mod 16 = top.
Proof.
  intros Ht. assert (Hall : forallb (fun top => let ok b := let v := Z.lor (Z.lor (Z.lor DEV_MBS DEV_LBA) (if (b : bool) then DEV_DEV else 0)) top in
    (0 <=? v) && (v <? 256) && Bool.eqb (Z.testbit v 4) b && Z.testbit v 6 && (v mod 16 =? top) in ok true && ok false) (seqZ 0 16) = true) by (vm_compute; reflexivity).
  rewrite forallb_forall in Hall. specialize (Hall top ltac:(apply list_elem_of_In, elem_of_seqZ; lia)). cbv zeta in Hall. apply andb_true_iff in Hall as [H1 H2].
  unfold device_reg, byte. destruct (n =? 1); [clear H2; rename H1 into Hv|clear H1; rename H2 into Hv]; repeat (apply andb_true_iff in Hv as [Hv ?]); reflect_bools;
    (split; [lia|]; split; [by apply eqb_prop|]; split; done).
Qed.
Lemma sector_bytes sec : 0 <= sec < 2 ^ 28 ->
  u8 sec + 2 ^ 8 * u8 (Z.shiftr sec 8) + 2 ^ 16 * u8 (Z.shiftr sec 16) + 2 ^ 24 * Z.shiftr sec 24 = sec /\ 0 <= Z.shiftr sec 24 < 16.
Proof.
  intros Hs. rewrite !Z.shiftr_div_pow2 by lia. unfold u8, wrapu. change (2 ^ 8) with 256. change (2 ^ 16) with 65536. change (2 ^ 24) with 16777216. change (2 ^ 28) with 268435456 in Hs.
  Z.to_euclidean_division_equations. lia.
Qed.

Section Driver.
Context {D : Type} `{!Ata D}.
Implicit Types (s : channel D) (c : chan).

Lemma set_hw_twice d d' s : set_hw d (set_hw d' s) = set_hw d s.
Proof. done. Qed.
Lemma status_runs reg s c (Q : Z -> channel D -> Prop) :
  shows (hw s) c -> (reg = reg_status /\ c_due c = false) \/ reg = reg_alt_status ->
  (forall v d, byte v -> shows d c -> patience d = patience (hw s) -> Z.testbit v 7 = c_busy c ->
     (c_busy c = false -> Z.testbit v 3 = negb (is_idle (c_phase c))) -> Q v (set_hw d s)) -> runs (inb reg) s Q.
Proof.
  intros Hs Hr HQ. 
  assert (Hc : (if reg =? reg_status then set_phase (c_phase c) false c else c) = c).
  { destruct Hr as [[-> Hd] | ->]; [|done]. destruct c. simpl in *. by subst. }
  pose proof (at_status (hw s) c reg Hs ltac:(tauto)) as Ha. rewrite Hc in Ha. unfold inb. destruct (ata_inb reg (hw s)) as [v d] eqn:E. destruct Ha as (Hb & Hd & Hp & H7 & H3).
  exists v, (set_hw d s). rewrite E. split; [done|]. by apply HQ.
Qed.
Lemma ata_outb_runs reg v s (Q : unit -> channel D -> Prop) : Q tt (set_hw (ata_outb reg (u8 v) (hw s)) s) -> runs (outb reg v) s Q.
Proof. intros HQ. by eapply runs_ok. Qed.
(** Writing a register of an idle channel. *)
Lemma reg_runs reg v s c (Q : unit -> channel D -> Prop) :
  shows (hw s) c -> c_busy c = false -> c_phase c = Idle -> reg_nsect <= reg <= reg_device ->
  (forall d, shows d (set_reg reg (u8 v) c) -> Q tt (set_hw d s)) -> runs (outb reg v) s Q.
Proof. intros Hs Hb Hp Hr HQ. apply ata_outb_runs, HQ, at_reg; [done..|]. unfold byte, u8. apply wrapu_range. lia. Qed.
Lemma delay_runs ns s c (Q : unit -> channel D -> Prop) :
  shows (hw s) c -> c_busy c = false -> (forall d, shows d c -> Q tt (set_hw d s)) -> runs (delay ns) s Q.
Proof.
  intros Hs Hb HQ. eapply runs_ok; [reflexivity|]. apply HQ. destruct (at_delay (hw s) c ns Hs) as (b & Hd & Hf & _). rewrite Hf in Hd by done. by destruct c; simpl in *; subst.
Qed.
Lemma idle_runs k s c (Q : unit -> channel D -> Prop) :
  shows (hw s) c -> c_busy c = false -> c_phase c = Idle -> c_due c = false -> (forall d, shows d c -> Q tt (set_hw d s)) ->
  runs (idle_loop (S k)) s Q.
Proof.
  intros Hs Hb Hp Hdue HQ. cbn [idle_loop]. apply runs_bind. apply (status_runs _ _ c); [done|by left|]. intros v d Hv Hd _ H7 H3.
  rewrite idle_bits by done. rewrite H7, H3, Hb, Hp by done. apply runs_ret. by apply HQ.
Qed.
Lemma busy_runs k s c (Q : bool -> channel D -> Prop) :
  shows (hw s) c -> (patience (hw s) < k)%nat ->
  (forall d, shows d (set_busy false c) -> Q (negb (is_idle (c_phase c))) (set_hw d s)) -> runs (busy_loop k) s Q.
Proof.
  revert s c. induction k as [|k IH]; intros s c Hs Hk HQ; [lia|]. cbn [busy_loop]. apply runs_bind. apply (status_runs _ _ c); [done|by right|].
  intros v d Hv Hd Hp H7 _. rewrite bsy_bit, H7 by done. destruct (c_busy c) eqn:Eb; cbn [negb].
  - apply runs_bind. eapply runs_ok; [reflexivity|]. destruct (at_delay d c (10 * 1000 * 1000) Hd) as (b & Hd' & _ & _ & Hlt).
    apply (IH _ (set_busy b c)); [exact Hd'|simpl; specialize (Hlt ltac:(lia) Eb); lia|]. intros d2 Hd2. apply HQ. exact Hd2.
  - apply runs_bind. apply (status_runs _ _ c); [done|by right|]. intros v2 d2 Hv2 Hd2 _ _ H3. apply runs_ret. rewrite drq_bit, H3, negb_involutive by done.
    apply HQ. replace (set_busy false c) with c; [done|]. by destruct c; simpl in *; subst.
Qed.

(** ** Selecting a sector *)

Lemma set_reg_idle reg v c : c_busy c = false -> c_phase c = Idle -> c_busy (set_reg reg v c) = false /\ c_phase (set_reg reg v c) = Idle.
Proof. intros Hb Hp. destruct c as [dv ns l m h p b d f]. simpl in *. subst. unfold set_reg. by repeat destruct (reg =? _). Qed.

Definition device_of c (v : Z) : chan := set_reg reg_device v c.
Lemma select_device_runs n s c (Q : unit -> channel D -> Prop) :
  shows (hw s) c -> c_busy c = false -> c_phase c = Idle ->
  (forall d v, shows d (device_of c v) -> Q tt (set_hw d s)) -> runs (select_device n) s Q.
Proof.
  intros Hs Hb Hp HQ. unfold select_device. apply runs_bind. apply (reg_runs _ _ _ c); [done..|]. intros d Hd. set (c' := set_reg reg_device _ c) in Hd.
  assert (Hb' : c_busy c' = false) by (by destruct c). apply runs_bind. apply (status_runs _ _ c'); [done|by right|]. intros v d2 _ Hd2 _ _ _.
  apply (delay_runs _ _ c'); [done..|]. intros d3 Hd3. by eapply HQ.
Qed.
Lemma select_device_wait_runs n s c (Q : unit -> channel D -> Prop) :
  shows (hw s) c -> c_busy c = false -> c_phase c = Idle -> c_due c = false ->
  (forall d v, shows d (device_of c v) -> Q tt (set_hw d s)) -> runs (select_device_wait n) s Q.
Proof.
  intros Hs Hb Hp Hdue HQ. unfold select_device_wait, wait_until_idle. apply runs_bind. apply (idle_runs 999 s c); [done..|]. intros d Hd.
  apply runs_bind. apply (select_device_runs n _ c); [done..|]. intros d2 v Hd2.
  apply (idle_runs 999 _ (device_of c v)); [done|by apply set_reg_idle..|by destruct c|]. intros d3 Hd3. by eapply HQ.
Qed.
(** The channel with the registers for sector [sec] of disk [n]. *)
Definition addressed (n sec : Z) c : chan :=
  mkChan (device_reg n (Z.shiftr sec 24)) 1 (u8 sec) (u8 (Z.shiftr sec 8)) (u8 (Z.shiftr sec 16)) (c_phase c) (c_busy c) (c_due c) (c_media c).
Lemma addressed_lba n sec c : 0 <= sec < 2 ^ 28 -> lba (addressed n sec c) = sec /\ slave (addressed n sec c) = (n =? 1) /\ Z.testbit (c_device (addressed n sec c)) 6 = true.
Proof.
  intros Hs. destruct (sector_bytes sec Hs) as [E Ht]. destruct (device_reg_bits n _ Ht) as (Hb & H4 & H6 & Hm). unfold lba, slave. simpl. by rewrite Hm.
Qed.
Lemma select_sector_runs n sec s c (Q : unit -> channel D -> Prop) :
  shows (hw s) c -> c_busy c = false -> c_phase c = Idle -> c_due c = false -> 0 <= sec < 2 ^ 28 ->
  (forall d, shows d (addressed n sec c) -> Q tt (set_hw d s)) -> runs (select_sector n sec) s Q.
Proof.
  intros Hs Hb Hp Hdue Hsec HQ. unfold select_sector. apply runs_bind, runs_assert; [apply Z.ltb_lt; lia|]. apply runs_bind. apply (select_device_wait_runs n s c); [done..|].
  intros d v Hd. set (c1 := device_of c v) in *. destruct (set_reg_idle _ _ c Hb Hp : c_busy c1 = false /\ c_phase c1 = Idle) as [B1 P1].
  apply runs_bind. apply (reg_runs _ _ _ c1); [done..|]. intros d2 Hd2. set (c2 := set_reg reg_nsect _ c1) in Hd2. destruct (set_reg_idle _ _ c1 B1 P1 : c_busy c2 = false /\ c_phase c2 = Idle) as [B2 P2].
  apply runs_bind. apply (reg_runs _ _ _ c2); [done..|]. intros d3 Hd3. set (c3 := set_reg reg_lbal _ c2) in Hd3. destruct (set_reg_idle _ _ c2 B2 P2 : c_busy c3 = false /\ c_phase c3 = Idle) as [B3 P3].
  apply runs_bind. apply (reg_runs _ _ _ c3); [done..|]. intros d4 Hd4. set (c4 := set_reg reg_lbam _ c3) in Hd4. destruct (set_reg_idle _ _ c3 B3 P3 : c_busy c4 = false /\ c_phase c4 = Idle) as [B4 P4].
  apply runs_bind. apply (reg_runs _ _ _ c4); [done..|]. intros d5 Hd5. set (c5 := set_reg reg_lbah _ c4) in Hd5. destruct (set_reg_idle _ _ c4 B4 P4 : c_busy c5 = false /\ c_phase c5 = Idle) as [B5 P5].
  apply (reg_runs _ _ _ c5); [done..|]. intros d6 Hd6. apply HQ. replace (addressed n sec c) with (set_reg reg_device (u8 (device_reg n (Z.shiftr sec 24))) c5); [exact Hd6|].
  destruct (sector_bytes sec Hsec) as [_ Ht]. destruct (device_reg_bits n _ Ht) as (Hb8 & _). assert (E8 : u8 (device_reg n (Z.shiftr sec 24)) = device_reg n (Z.shiftr sec 24)) by (apply wrapu_small; exact Hb8).
  rewrite E8. by destruct c.
Qed.
(** ** Transfers *)

Record ready (n : Z) (secs : list (list Z)) s c : Prop := {
  rd_shows : shows (hw s) c;
  rd_idle : c_busy c = false /\ c_phase c = Idle /\ c_due c = false;
  rd_chan : ch_locked s = false /\ completion_wait s = 0 /\ intr_on s = true;
  rd_media : c_media c (n =? 1) = Some secs;
  rd_size : len secs <= 2 ^ 28
}.
Lemma sema_down_runs s c (Q : unit -> channel D -> Prop) :
  shows (hw s) c -> c_due c = true -> completion_wait s = 0 -> expecting_interrupt s = true ->
  (forall d, shows d (set_busy false (set_phase (c_phase c) false c)) -> (patience d < 3000)%nat -> Q tt (set_hw d s)) -> runs sema_down_completion s Q.
Proof.
  intros Hs Hdue Hc He HQ. unfold sema_down_completion. apply runs_bind. eapply runs_ok; [reflexivity|]. rewrite Hc. cbn [Z.ltb Z.compare].
  destruct (at_irq (hw s) c Hs Hdue) as (d & Ei & Hd & Hp). unfold runs. rewrite Ei. change (runs (interrupt_handler;; v ← gets completion_wait; if 0 <? v then modify (set_completion (v - 1)) else fun _ => NoFuel) (set_hw d s) Q).
  set (c1 := set_busy false (set_phase (c_phase c) false c)) in *. apply runs_bind. unfold interrupt_handler. apply runs_bind. eapply runs_ok; [reflexivity|]. simpl. rewrite He.
  apply runs_bind. apply (status_runs _ _ c1); [done|by left|]. intros v d2 _ Hd2 Hp2 _ _. eapply runs_ok; [reflexivity|]. apply runs_bind. eapply runs_ok; [reflexivity|].
  simpl. rewrite Hc. change (u32 (0 + 1)) with 1. cbn [Z.ltb Z.compare]. eapply runs_ok; [reflexivity|].
  replace (set_completion (1 - 1) _) with (set_hw d2 s) by (unfold set_completion, set_hw; simpl; by rewrite Hc). apply HQ; [done|]. by rewrite Hp2.
Qed.
Definition after (d : D) s : channel D := mkChannel false true 0 (devices s) true d (registered s).
Lemma idle_again c : c_busy c = false -> c_phase c = Idle -> c_due c = false -> set_busy false (set_phase Idle false c) = c.
Proof. intros. by destruct c; simpl in *; subst. Qed.

(** A sector is read. *)
Lemma ide_read_runs n secs s c sec bs :
  ready n secs s c -> 0 <= sec -> secs !! Z.to_nat sec = Some bs ->
  runs (ide_read n sec) s (fun r s' => r = bs /\ exists c' d, s' = after d s /\ ready n secs s' c' /\ c_media c' = c_media c).
Proof.
  intros [Hs (Hb & Hp & Hd) (Hl & Hc & Ho) Hm Hsz] Hsec Hbs. pose proof (lookup_lt_Some _ _ _ Hbs) as Hlt. assert (Hr : 0 <= sec < 2 ^ 28) by lia.
  unfold ide_read. apply runs_bind. eapply runs_ok; [unfold lock_acquire; erewrite bind_ok by reflexivity; rewrite Hl; reflexivity|].
  apply runs_bind. apply (select_sector_runs n sec _ c); [done..|]. intros d Hd1. set (a := addressed n sec c) in *. destruct (addressed_lba n sec c Hr) as (La & Sa & Ba). fold a in La, Sa, Ba.
  apply runs_bind. unfold issue_pio_command. apply runs_bind. eapply runs_ok; [reflexivity|]. apply runs_bind, runs_assert; [done|]. apply runs_bind. eapply runs_ok; [reflexivity|].
  apply ata_outb_runs. change (u8 CMD_READ_SECTOR_RETRY) with CMD_READ_SECTOR_RETRY.
  destruct (at_read d a secs bs) as (b & Hd2 & Hp2); [done|done|done|done|done|by rewrite Sa|by rewrite La|].
  apply runs_bind. eapply sema_down_runs; [exact Hd2|done|done|done|]. intros d3 Hd3 Hp3. apply runs_bind. eapply busy_runs; [exact Hd3|exact Hp3|]. intros d4 Hd4. cbn [negb is_idle c_phase set_busy set_phase].
  apply runs_bind. destruct (at_insw d4 _ bs Hd4 eq_refl eq_refl) as (d5 & E5 & Hd5). eapply runs_ok; [unfold input_sector; simpl; rewrite E5; reflexivity|].
  apply runs_bind. eapply runs_ok; [reflexivity|]. apply runs_ret. split; [done|]. rewrite !set_hw_twice. eexists _, d5. split; [unfold set_locked, set_hw, set_expecting, after; simpl; by rewrite Hc, Ho|].
  split; [split; [exact Hd5|done|done|exact Hm|done]|done].
Qed.
(** A sector is written. *)
Lemma ide_write_runs n secs s c sec bs :
  ready n secs s c -> 0 <= sec < len secs -> length bs = 512%nat ->
  runs (ide_write n sec bs) s (fun _ s' => exists c' d, s' = after d s /\ ready n (<[Z.to_nat sec := bs]> secs) s' c' /\ c_media c' = put_sector (n =? 1) sec bs (c_media c)).
Proof.
  intros [Hs (Hb & Hp & Hd) (Hl & Hc & Ho) Hm Hsz] Hsec Hbs. assert (Hr : 0 <= sec < 2 ^ 28) by lia.
  unfold ide_write. apply runs_bind. eapply runs_ok; [unfold lock_acquire; erewrite bind_ok by reflexivity; rewrite Hl; reflexivity|].
  apply runs_bind. apply (select_sector_runs n sec _ c); [done..|]. intros d Hd1. set (a := addressed n sec c) in *. destruct (addressed_lba n sec c Hr) as (La & Sa & Ba). fold a in La, Sa, Ba.
  apply runs_bind. unfold issue_pio_command. apply runs_bind. eapply runs_ok; [reflexivity|]. apply runs_bind, runs_assert; [done|]. apply runs_bind. eapply runs_ok; [reflexivity|].
  apply ata_outb_runs. change (u8 CMD_WRITE_SECTOR_RETRY) with CMD_WRITE_SECTOR_RETRY.
  destruct (at_write d a secs) as (b & Hd2 & Hp2); [done|done|done|done|done|by rewrite Sa|rewrite La; lia|].
  apply runs_bind. eapply busy_runs; [exact Hd2|exact Hp2|]. intros d4 Hd4. cbn [negb is_idle c_phase set_busy set_phase].
  apply runs_bind. eapply runs_ok; [reflexivity|]. destruct (at_outsw d4 _ bs Hd4 eq_refl eq_refl Hbs) as (b5 & Hd5).
  apply runs_bind. eapply sema_down_runs; [exact Hd5|done|done|done|]. intros d6 Hd6 Hp6. eapply runs_ok; [reflexivity|]. rewrite !set_hw_twice. eexists _, d6.
  split; [unfold set_locked, set_hw, set_expecting, after; simpl; by rewrite Hc, Ho|]. change (slave _) with (slave a) in Hd6. change (lba _) with (lba a) in Hd6. rewrite La, Sa in Hd6.
  split; [split; [exact Hd6|done|done| |by rewrite length_insert]|done]. simpl. unfold put_sector. by rewrite Bool.eqb_reflx, Hm.
Qed.

End Driver.
