(* ===== verification/IdeProps.v ===== *)
(** The disk driver as a block device, and the file system on it. *)

From stdpp Require Import gmap.
From S2P Require Import Prelude KMonad Bytes Bitmap Block Filesys InodeOk FreeMapOk FsInv FsCreate FsOpen FsHandles FsDir FsWorld FsOps FsFiles FsRefine FsMount FsProps.
From S2P Require Import Stdio Ide IdeOk.

(** ** A drive as a block device *)

(** A disk of a channel, registered with its size; devices/block.c checks sector numbers. *)
Record drive D := mkDrive { dr_chan : channel D; dr_no : Z; dr_size : Z }.
Arguments mkDrive {D}.
Arguments dr_chan {D}.
Arguments dr_no {D}.
Arguments dr_size {D}.

Section Drive.
Context {D : Type} `{!Ata D}.
Implicit Types (x : drive D).

Definition on_drive {A} (k : Z -> K (channel D) A) : K (drive D) A := fun x =>
  match k (dr_no x) (dr_chan x) with
  | Ok (a, s) => Ok (a, mkDrive s (dr_no x) (dr_size x))
  | Panic => Panic
  | NoFuel => NoFuel
  end.
Definition drive_read (sec : Z) : K (drive D) (list Z) :=
  n ← gets dr_size; if n <=? sec then panic else on_drive (fun k => ide_read k sec).
Definition drive_write (sec : Z) (bs : list Z) : K (drive D) unit :=
  n ← gets dr_size; if n <=? sec then panic else on_drive (fun k => ide_write k sec bs).
Definition drive_sectors x : list (list Z) := default [] (media (hw (dr_chan x)) (dr_no x =? 1)).
Definition drive_sector x (sec : Z) : list Z := default [] (drive_sectors x !! Z.to_nat sec).
Definition drive_ok x : Prop := exists secs c,
  ready (dr_no x) secs (dr_chan x) c /\ Forall (fun bs => length bs = 512%nat) secs /\ dr_size x = len secs.

Lemma ready_sectors x secs c : ready (dr_no x) secs (dr_chan x) c -> drive_sectors x = secs.
Proof. intros [Hs _ _ Hm _]. unfold drive_sectors. rewrite (at_media _ _ Hs), Hm. done. Qed.
Lemma drive_read_ok x sec : drive_ok x -> 0 <= sec < dr_size x ->
  exists x', drive_read sec x = Ok (drive_sector x sec, x') /\ drive_ok x' /\ dr_size x' = dr_size x /\
    forall t, 0 <= t < dr_size x -> drive_sector x' t = drive_sector x t.
Proof.
  intros (secs & c & R & Hl & Hsz) Hsec. pose proof (ready_sectors x secs c R) as Es. unfold drive_sector. rewrite Es.
  destruct (lookup_lt_is_Some_2 secs (Z.to_nat sec)) as [bs Hbs]; [lia|]. rewrite Hbs.
  destruct (ide_read_runs _ _ _ _ sec bs R) as (r & s' & E & -> & c' & d & -> & R' & _); [lia|done|].
  exists (mkDrive (after d (dr_chan x)) (dr_no x) (dr_size x)). split.
  - unfold drive_read. erewrite bind_ok by reflexivity. rewrite (proj2 (Z.leb_gt _ _)) by lia. unfold on_drive. by rewrite E.
  - split; [by exists secs, c'|]. split; [done|]. intros t _. by rewrite (ready_sectors (mkDrive (after d (dr_chan x)) (dr_no x) (dr_size x)) secs c' R').
Qed.
Lemma drive_write_ok x sec bs : drive_ok x -> 0 <= sec < dr_size x -> length bs = 512%nat ->
  exists x', drive_write sec bs x = Ok (tt, x') /\ drive_ok x' /\ dr_size x' = dr_size x /\
    forall t, 0 <= t < dr_size x -> drive_sector x' t = if t =? sec then bs else drive_sector x t.
Proof.
  intros (secs & c & R & Hl & Hsz) Hsec Hbs. pose proof (ready_sectors x secs c R) as Es. unfold drive_sector. rewrite Es.
  destruct (ide_write_runs _ _ _ _ sec bs R) as ([] & s' & E & c' & d & -> & R' & _); [lia|done|].
  exists (mkDrive (after d (dr_chan x)) (dr_no x) (dr_size x)). split.
  - unfold drive_write. erewrite bind_ok by reflexivity. rewrite (proj2 (Z.leb_gt _ _)) by lia. unfold on_drive. by rewrite E.
  - split; [exists (<[Z.to_nat sec := bs]> secs), c'; split; [done|]; split; [by apply Forall_insert|by rewrite length_insert]|]. split; [done|].
    intros t Ht. rewrite (ready_sectors (mkDrive (after d (dr_chan x)) (dr_no x) (dr_size x)) _ c' R'). destruct (Z.eqb_spec t sec) as [->|Hne].
    + by rewrite list_lookup_insert_eq by lia.
    + by rewrite list_lookup_insert_ne by lia.
Qed.
#[export] Program Instance drive_device : BlockDevice (drive D) := {
  bd_ok := drive_ok;
  bd_size := dr_size;
  bd_sector := drive_sector;
  bd_read := drive_read;
  bd_write := drive_write;
  bd_read_ok := drive_read_ok;
  bd_write_ok := drive_write_ok
}.
Next Obligation. intros x (secs & c & R & _ & ->). pose proof (rd_size _ _ _ _ R). lia. Qed.
Next Obligation.
  intros x sec (secs & c & R & Hl & Hsz) Hs. unfold drive_sector. rewrite (ready_sectors x secs c R).
  destruct (lookup_lt_is_Some_2 secs (Z.to_nat sec)) as [bs Hbs]; [lia|]. rewrite Hbs. exact (Forall_lookup_1 _ _ _ _ Hl Hbs).
Qed.
Next Obligation. intros x sec _ Hs. unfold drive_read. erewrite bind_ok by reflexivity. by rewrite (proj2 (Z.leb_le (dr_size x) sec) Hs). Qed.
Next Obligation. intros x sec bs _ Hs. unfold drive_write. erewrite bind_ok by reflexivity. by rewrite (proj2 (Z.leb_le (dr_size x) sec) Hs). Qed.

(** C35: The driver transfers the right sectors: on a channel at rest with a disk that keeps the ATA
    protocol, [ide_read] returns, with the contents of the sector it is asked for, and changes
    nothing; [ide_write] returns and replaces just that sector of that disk; the channel is at
    rest again after each. *)
Theorem ide_transfers_sectors n secs s c sec :
  ready n secs s c -> 0 <= sec < len secs ->
  (exists bs s' c', secs !! Z.to_nat sec = Some bs /\ ide_read n sec s = Ok (bs, s') /\ ready n secs s' c' /\ c_media c' = c_media c) /\
  (forall bs, length bs = 512%nat -> exists s' c', ide_write n sec bs s = Ok (tt, s') /\ ready n (<[Z.to_nat sec := bs]> secs) s' c' /\
     c_media c' (negb (n =? 1)) = c_media c (negb (n =? 1))).
Proof.
  intros R Hsec. split.
  - destruct (lookup_lt_is_Some_2 secs (Z.to_nat sec)) as [bs Hbs]; [lia|]. destruct (ide_read_runs _ _ _ _ sec bs R) as (r & s' & E & -> & c' & d & _ & R' & Em); [lia|done|].
    by exists bs, s', c'.
  - intros bs Hbs. destruct (ide_write_runs _ _ _ _ sec bs R) as ([] & s' & E & c' & d & _ & R' & Em); [lia|done|]. exists s', c'. split; [done|]. split; [done|].
    rewrite Em. unfold put_sector. by destruct (n =? 1).
Qed.

(** C36: The file system works on a disk behind this driver, as long as no allocation of memory fails:
    after a drive of at least four sectors has been formatted, a client may do any number of operations,
    each chosen by the replies to those before; all of them return, with replies that the specification
    of files allows, in a state that stands for the specification's state. *)
Theorem filesystem_on_ide x junk s0 c n stack :
  drive_ok x -> 4 <= dr_size x < 2 ^ 31 -> map_junk (dr_size x) junk -> booted s0 -> memory s0 = [] ->
  proper c (mkAfs ∅ ∅ ∅) -> (forall k, length (stack k) = 20%nat) ->
  exists w s rs s' a, filesys_init (Some x) junk true s0 = Ok (tt, s) /\ run_client stack c n [] s = Ok (rs, s') /\
    length rs = n /\ follows w c s (mkAfs ∅ ∅ ∅) rs s' a /\ refines w s' a.
Proof.
  intros Hx Hsz Hj Bt _ Hc Hst.
  destruct (@format_client (drive D) drive_device x junk s0 c n stack Hx Hsz Hj Bt Hc Hst) as (w & s & rs & s' & a & E & E' & Hl & Hf & R & _).
  by exists w, s, rs, s', a.
Qed.
End Drive.

(** ** Disks that are not used *)

(** No disk of a gigabyte or more has been registered. *)
Section Small.
Context {D : Type} `{!Ata D}.
Definition small (s : channel D) : Prop := Forall (fun r : list Z * list Z * Z => r.2 < 2 ^ 21) (registered s).
Definition keeps_small {A} (k : K (channel D) A) : Prop := forall s a s', k s = Ok (a, s') -> small s -> small s'.

Lemma small_bind {A B} (k : K (channel D) A) (f : A -> K (channel D) B) : keeps_small k -> (forall a, keeps_small (f a)) -> keeps_small (k ≫= f).
Proof. intros Hk Hf s b s' E. apply bind_inv in E as (a & s1 & E1 & E2). intros Hs. eapply Hf; [exact E2|]. by eapply Hk. Qed.
Lemma small_ret {A} (a : A) : keeps_small (mret a).
Proof. intros s b s' [= _ <-]. done. Qed.
Lemma small_panic {A} : keeps_small (A := A) panic.
Proof. done. Qed.
Lemma small_gets {A} (f : channel D -> A) : keeps_small (gets f).
Proof. intros s b s' [= _ <-]. done. Qed.
Lemma small_get : keeps_small get.
Proof. intros s b s' [= _ <-]. done. Qed.
Lemma small_modify (f : channel D -> channel D) : (forall s, registered (f s) = registered s) -> keeps_small (modify f).
Proof. intros Hf s b s' [= _ <-]. unfold small. by rewrite Hf. Qed.
Lemma small_assert b : keeps_small (ASSERT b).
Proof. destruct b; [apply small_ret|apply small_panic]. Qed.
Lemma small_the {A} (o : option A) : keeps_small (the o).
Proof. destruct o; [apply small_ret|apply small_panic]. Qed.
Lemma small_when b k : keeps_small k -> keeps_small (when b k).
Proof. intros Hk. destruct b; [done|apply small_ret]. Qed.
Lemma small_if {A} (b : bool) (k1 k2 : K (channel D) A) : keeps_small k1 -> keeps_small k2 -> keeps_small (if b then k1 else k2).
Proof. by destruct b. Qed.
Lemma small_inb reg : keeps_small (inb reg).
Proof. intros s v s'. unfold inb. destruct (ata_inb reg (hw s)). by intros [= _ <-]. Qed.
Lemma small_input : keeps_small input_sector.
Proof. intros s v s'. unfold input_sector. destruct (ata_insw (hw s)). by intros [= _ <-]. Qed.
Create HintDb small.
#[local] Hint Resolve small_bind small_ret small_panic small_gets small_get small_assert small_the small_when small_if small_inb small_input : small.
#[local] Hint Extern 1 (keeps_small (modify _)) => apply small_modify; intros ?; reflexivity : small.
#[local] Hint Extern 1 (keeps_small (outb _ _)) => apply small_modify; intros ?; reflexivity : small.
#[local] Hint Extern 1 (keeps_small (delay _)) => apply small_modify; intros ?; reflexivity : small.
#[local] Hint Extern 1 (keeps_small (set_disk _ _)) => apply small_modify; intros ?; reflexivity : small.

Lemma small_idle k : keeps_small (idle_loop k).
Proof. induction k; simpl; [apply small_ret|]. apply small_bind; [apply small_inb|]. intros v. apply small_if; [apply small_ret|]. apply small_bind; [by apply small_modify|done]. Qed.
Lemma small_busy k : keeps_small (busy_loop k).
Proof.
  induction k; simpl; [apply small_ret|]. apply small_bind; [apply small_inb|]. intros v.
  apply small_if; [apply small_bind; [apply small_inb|intros ?; apply small_ret]|]. apply small_bind; [by apply small_modify|done].
Qed.
Lemma small_reset k : keeps_small (reset_loop k).
Proof.
  induction k; simpl; [apply small_ret|]. apply small_bind; [apply small_inb|]. intros v.
  apply small_bind; [apply small_if; [apply small_bind; [apply small_inb|intros ?; apply small_ret]|apply small_ret]|]. intros b. destruct b; [apply small_ret|].
  apply small_bind; [by apply small_modify|done].
Qed.
#[local] Hint Resolve small_idle small_busy small_reset : small.
Lemma small_select n : keeps_small (select_device n).
Proof. unfold select_device, timer_nsleep. eauto 10 with small. Qed.
Lemma small_sema : keeps_small sema_down_completion.
Proof.
  unfold sema_down_completion. apply small_bind; [apply small_gets|]. intros v. apply small_if; [by apply small_modify|]. intros s a s'. destruct (ata_irq (hw s)) as [d|]; [|done].
  intros E Hs. assert (Hk : keeps_small (interrupt_handler;; v ← gets completion_wait; if 0 <? v then modify (set_completion (v - 1)) else fun _ => NoFuel)).
  { unfold interrupt_handler. apply small_bind; [|intros _; apply small_bind; [apply small_gets|intros x; apply small_if; [by apply small_modify|done]]]. eauto 10 with small. }
  exact (Hk _ _ _ E Hs).
Qed.
#[local] Hint Resolve small_select small_sema : small.
Lemma small_check n : keeps_small (check_device_type n).
Proof. unfold check_device_type, disk. eauto 20 with small. Qed.
Lemma small_identify n : keeps_small (identify_ata_device n).
Proof.
  unfold identify_ata_device, disk, select_device_wait, wait_until_idle, wait_while_busy, issue_pio_command.
  repeat (apply small_bind; [eauto 10 with small|intros ?]). apply small_if; [by apply small_modify|]. apply small_bind; [apply small_input|]. intros id. cbv zeta.
  destruct (1024 * 1024 * 1024 / 512 <=? le_value (slice id 120 4)) eqn:E; [by apply small_modify|]. apply Z.leb_gt in E.
  intros s u s' [= _ <-] Hs. unfold small. simpl. apply Forall_app. split; [exact Hs|]. constructor; [|constructor]. simpl.
  change (2 ^ 21) with (1024 * 1024 * 1024 / 512). exact E.
Qed.
Lemma small_present n : keeps_small (present n).
Proof. unfold present. repeat (apply small_bind; [eauto 10 with small|intros ?]). eauto 10 with small. Qed.
#[local] Hint Resolve small_check small_identify small_present : small.

(** Whatever is attached, detection never registers a disk of a gigabyte (2 to the power of 21
    sectors) or more as a block device, so the kernel does not write to it. *)
Theorem large_disks_ignored chan_no s s' : small s -> init_channel chan_no s = Ok (tt, s') -> small s'.
Proof.
  intros Hs E. revert E Hs. unfold init_channel, reset_channel, timer_usleep, timer_msleep, wait_while_busy, disk. assert (Hk : forall k, keeps_small k -> k s = Ok (tt, s') -> small s -> small s') by (intros k Hk; apply Hk).
  apply Hk. repeat (apply small_bind; [eauto 30 with small|intros ?]). eauto 10 with small.
Qed.
End Small.

(** ** A controller *)

(** It is busy until the next delay or interrupt after each command; a disk that is not there
    reads as zeros. *)
Definition sim_status (c : chan) : Z := (if c_busy c then 0x80 else 0) + 0x40 + (if is_idle (c_phase c) then 0 else 8).
Definition sim_inb (reg : Z) (c : chan) : Z * chan :=
  if reg =? reg_status then (sim_status c, set_phase (c_phase c) false c)
  else if reg =? reg_alt_status then (sim_status c, c)
  else match c_media c (slave c) with
       | None => (0, c)
       | Some _ =>
           (if reg =? reg_error then 1 else if reg =? reg_nsect then c_nsect c else if reg =? reg_lbal then c_lbal c
            else if reg =? reg_lbam then c_lbam c else if reg =? reg_lbah then c_lbah c else 0, c)
       end.
Definition identity (size : Z) : list Z := replicate 120 0 ++ le_bytes 4 size ++ replicate 388 0.
Definition sim_command (v : Z) (c : chan) : chan :=
  match c_media c (slave c) with
  | None => c
  | Some secs =>
      if v =? CMD_IDENTIFY_DEVICE then set_busy true (set_phase (DataIn (identity (len secs))) true c)
      else if v =? CMD_READ_SECTOR_RETRY then set_busy true (set_phase (DataIn (default [] (secs !! Z.to_nat (lba c)))) true c)
      else if v =? CMD_WRITE_SECTOR_RETRY then set_busy true (set_phase DataOut false c)
      else c
  end.
Definition sim_outb (reg v : Z) (c : chan) : chan :=
  if reg =? reg_command then sim_command v c
  else if reg =? reg_ctl then
    if v =? CTL_SRST then mkChan 0 1 1 0 0 Idle false false (c_media c) else c
  else set_reg reg v c.
Definition sim_insw (c : chan) : list Z * chan :=
  match c_phase c with DataIn bs => (bs, set_phase Idle (c_due c) c) | _ => ([], c) end.
Definition sim_outsw (bs : list Z) (c : chan) : chan :=
  set_busy true (set_media (put_sector (slave c) (lba c) bs (c_media c)) (set_phase Idle true c)).
Definition sim_irq (c : chan) : option chan := if c_due c then Some (set_busy false (set_phase (c_phase c) false c)) else None.
Definition sim_patience (c : chan) : nat := if c_busy c then 1 else 0.

#[export] Program Instance sim_ata : Ata chan := {
  ata_inb := sim_inb; ata_outb := sim_outb; ata_insw := sim_insw; ata_outsw := sim_outsw; ata_delay _ := set_busy false; ata_irq := sim_irq;
  shows d c := d = c; patience := sim_patience; media := c_media
}.
Next Obligation. by intros d c ->. Qed.
Next Obligation. intros d c reg -> Hr. unfold sim_inb. destruct Hr as [-> | ->]; simpl; unfold sim_status; destruct (c_busy c), (c_phase c); by split_and!. Qed.
Next Obligation. intros d c ns ->. exists false. split; [done|]. split; [done|]. unfold sim_patience. simpl. destruct (c_busy c); split; (lia || (intros; lia) || done). Qed.
Next Obligation. intros d c reg v -> _ _ Hr _. unfold sim_outb. unfold reg_nsect, reg_device, reg_command, reg_status, reg_ctl in *. by rewrite !(proj2 (Z.eqb_neq _ _)) by lia. Qed.
Next Obligation. intros d c secs bs -> _ _ _ _ Hm Hb. exists true. unfold sim_outb, sim_command. simpl. rewrite Hm, Hb. split; [done|]. unfold sim_patience. simpl. lia. Qed.
Next Obligation. intros d c secs -> _ _ _ _ Hm Hl. exists true. unfold sim_outb, sim_command. simpl. rewrite Hm. split; [done|]. unfold sim_patience. simpl. lia. Qed.
Next Obligation. intros d c -> Hd. eexists. unfold sim_irq. rewrite Hd. split; [done|]. split; [done|]. unfold sim_patience. simpl. lia. Qed.
Next Obligation. intros d c bs -> _ Hp. eexists. unfold sim_insw. by rewrite Hp. Qed.
Next Obligation. intros d c bs -> _ _ _. by exists true. Qed.

Definition ex_secs (n : nat) : list (list Z) := replicate n (replicate 512 0).
Definition ex_chan (n : nat) : chan := mkChan 0 0 0 0 0 Idle false false (fun b => if b then None else Some (ex_secs n)).
Definition ex_channel (n : nat) : channel chan := mkChannel false false 0 [] true (ex_chan n) [].
Lemma ex_ready n : (n <= 1000)%nat -> ready 0 (ex_secs n) (ex_channel n) (ex_chan n).
Proof. intros Hn. split; [done|done|done|done|]. unfold ex_secs. rewrite length_replicate. lia. Qed.
Definition ex_drive : drive chan := mkDrive (ex_channel 16) 0 16.
Lemma ex_drive_ok : drive_ok ex_drive.
Proof. exists (ex_secs 16), (ex_chan 16). split; [apply ex_ready; lia|]. split; [apply Forall_replicate; by rewrite length_replicate|done]. Qed.

Lemma ide_transfers_sectors_witness :
  exists s' c', ide_write 0 3 (replicate 512 7) (ex_channel 4) = Ok (tt, s') /\ ready 0 (<[3%nat := replicate 512 7]> (ex_secs 4)) s' c'.
Proof.
  destruct (ide_transfers_sectors 0 (ex_secs 4) (ex_channel 4) (ex_chan 4) 3 (ex_ready 4 ltac:(lia))) as [_ Hw]; [split; [discriminate|reflexivity]|].
  destruct (Hw (replicate 512 7) eq_refl) as (s' & c' & E & R & _). exists s', c'. split; [exact E|exact R].
Defined.
Definition ide_fs : fs (drive chan) := mkFs ex_drive (mkBitmap 0 []) None ∅ [] ∅ ∅ 1 [].
Lemma filesystem_on_ide_witness :
  exists w s rs s' a, filesys_init (Some ex_drive) [0xcccccccc] true ide_fs = Ok (tt, s) /\
    run_client (fun _ => replicate 20 0) ex_client 4 [] s = Ok (rs, s') /\ length rs = 4%nat /\
    follows w ex_client s (mkAfs ∅ ∅ ∅) rs s' a /\ refines w s' a.
Proof.
  apply (filesystem_on_ide ex_drive [0xcccccccc] ide_fs ex_client 4 (fun _ => replicate 20 0) ex_drive_ok).
  - split; [discriminate|reflexivity].
  - split; [|reflexivity]. constructor; [|constructor]. split; [discriminate|reflexivity].
  - by split.
  - reflexivity.
  - exact ex_client_proper.
  - intros k. reflexivity.
Defined.
(** The detection of a disk of two sectors. *)
Definition names_of (r : outcome (unit * channel chan)) : option (list (list Z * Z)) :=
  match r with Ok (_, s) => Some ((fun x => (x.1.1, x.2)) <$> registered s) | _ => None end.
Lemma ex_detected : names_of (init_channel 0 (ex_channel 2)) = Some [([104; 100; 97], 2)].
Proof. vm_compute. reflexivity. Qed.
Lemma detected_state (r : outcome (unit * channel chan)) l : names_of r = Some l -> exists s, r = Ok (tt, s) /\ names_of (Ok (tt, s)) = Some l.
Proof. destruct r as [[[] s]| |]; [|done..]. intros E. by exists s. Qed.
Lemma large_disks_ignored_witness :
  exists s', init_channel 0 (ex_channel 2) = Ok (tt, s') /\ names_of (Ok (tt, s')) = Some [([104; 100; 97], 2)] /\ small s'.
Proof.
  destruct (detected_state _ _ ex_detected) as (s' & E & En). exists s'. split; [exact E|]. split; [exact En|].
  refine (large_disks_ignored 0 (ex_channel 2) s' _ E). apply Forall_nil_2.
Defined.
