(* ===== verification/Ustar.v ===== *)
(** Headers of ustar archives (lib/ustar.c): making a header, parsing it, its checksum, and
    the names that are taken out of archives. *)

From stdpp Require Import strings.
From S2P Require Import Prelude KMonad CString Bytes Arith Stdio StdioOk.

(** ** The header

    A header is an array of 512 bytes that the code reads and writes as a packed
    structure: a field is an offset and a size. *)
Record field := mkField { f_ofs : Z; f_size : Z }.
Definition h_name := mkField 0 100.
Definition h_mode := mkField 100 8.
Definition h_uid := mkField 108 8.
Definition h_gid := mkField 116 8.
Definition h_size := mkField 124 12.
Definition h_mtime := mkField 136 12.
Definition h_chksum := mkField 148 8.
Definition h_typeflag := mkField 156 1.
Definition h_linkname := mkField 157 100.
Definition h_magic := mkField 257 6.
Definition h_version := mkField 263 2.
Definition h_uname := mkField 265 32.
Definition h_gname := mkField 297 32.
Definition h_devmajor := mkField 329 8.
Definition h_devminor := mkField 337 8.
Definition h_prefix := mkField 345 155.
Definition h_padding := mkField 500 12.

Definition USTAR_REGULAR : Z := 48.
Definition USTAR_DIRECTORY : Z := 53.
Definition USTAR_EOF : Z := -1.
Definition USTAR_HEADER_SIZE : Z := 512.

Definition get_field (h : list Z) (f : field) : list Z := slice h (f_ofs f) (f_size f).
(** Bytes stored at the start of a field. *)
Definition put_field (h : list Z) (f : field) (d : list Z) : list Z := splice h (f_ofs f) d.
(** A string stored by [strlcpy] or [snprintf] with the given size. *)
Definition put_text (h : list Z) (f : field) (size : Z) (text : list Z) : list Z :=
  put_field h f (take (Z.to_nat (size - 1)) text ++ [0]).

Definition in_chksum_field (i : Z) : bool := (f_ofs h_chksum <=? i) && (i <? f_ofs h_chksum + f_size h_chksum).
Fixpoint chksum_loop (header : list Z) (i chksum : Z) : Z :=
  match header with
  | [] => chksum
  | b :: header' => chksum_loop header' (i + 1) (u32 (chksum + (if in_chksum_field i then 32 else b)))
  end.
Definition calculate_chksum (header : list Z) : Z := chksum_loop header 0 0.

(** ** Names *)

Fixpoint starts_with (p l : list Z) : bool :=
  match p, l with
  | [], _ => true
  | a :: p', b :: l' => (a =? b) && starts_with p' l'
  | _, [] => false
  end.
(** The string after the first slash; none is a null pointer in the code. *)
Fixpoint after_slash (l : list Z) : option (list Z) :=
  match l with
  | [] => None
  | c :: l' => if c =? 47 then Some l' else after_slash l'
  end.
Definition antisocial (file_name : list Z) : bool :=
  (hd 0 file_name =? 47) || starts_with (str "./") file_name || starts_with (str "../") file_name.
Fixpoint strip_loop (fuel : nat) (file_name : list Z) : outcome (list Z) :=
  match fuel with
  | O => NoFuel
  | S fuel' =>
      if antisocial file_name
      then match after_slash file_name with Some l => strip_loop fuel' l | None => Panic end
      else Ok file_name
  end.
Definition strip_antisocial_prefixes (file_name : list Z) : outcome (list Z) :=
  l ← strip_loop (S (length file_name)) file_name;
  mret (if (length l =? 0)%nat || bool_decide (l = str "..") then str "." else l).

(** ** Making a header *)

(** The console output, and the header unless the name is too long. *)
Definition ustar_make_header (file_name : list Z) (type size : Z) : outcome (list Z * option (list Z)) :=
  if negb ((type =? USTAR_REGULAR) || (type =? USTAR_DIRECTORY)) then Panic else
  file_name ← strip_antisocial_prefixes file_name;
  if 99 <? len file_name
  then out ← vprintf (str "%s: file name too long" ++ [10]) [ArgStr (Some file_name)]; mret (out, None)
  else
    let h := replicate 512 0 in
    let h := put_text h h_name 100 file_name in
    mode ← printf "%07o" [Arg32 (if type =? USTAR_REGULAR then 420 else 493)];
    let h := put_text h h_mode 8 mode in
    let h := put_text h h_uid 8 (str "0000000") in
    let h := put_text h h_gid 8 (str "0000000") in
    sz ← printf "%011o" [Arg32 size];
    let h := put_text h h_size 12 sz in
    mtime ← printf "%011o" [Arg32 1136102400];
    let h := put_text h h_mtime 12 mtime in
    let h := put_field h h_typeflag [u8 type] in
    let h := put_text h h_magic 6 (str "ustar") in
    let h := put_field h h_version [48; 48] in
    let h := put_text h h_gname 32 (str "root") in
    let h := put_text h h_uname 32 (str "root") in
    chk ← printf "%07o" [Arg32 (calculate_chksum h)];
    mret ([], Some (put_text h h_chksum 8 chk)).

(** ** Parsing a header *)

(** The value of a field, [None] for a malformed one. *)
Fixpoint octal_loop (s : list Z) (ofs value : Z) : option Z :=
  match s with
  | [] => None
  | c :: s' =>
      if (48 <=? c) && (c <=? 55)
      then if (2 ^ 32 - 1) / 8 <? value then None else octal_loop s' (ofs + 1) (u32 (c - 48 + value * 8))
      else if (c =? 32) || (c =? 0) then (if 0 <? ofs then Some value else None)
      else None
  end.
Definition parse_octal_field (s : list Z) : option Z := octal_loop s 0 0.

Definition is_all_zeros (block : list Z) : bool := forallb (fun c => c =? 0) block.

(** The string in an array of characters that has a null byte. *)
Definition c_string (l : list Z) : list Z := prefix_of (fun c => negb (c =? 0)) l.

(** An error message, or the name, the type and the size of the file. *)
Definition ustar_parse_header (header : list Z) : outcome (list Z + option (list Z) * Z * Z) :=
  if is_all_zeros header then Ok (inr (None, USTAR_EOF, 0)) else
  if negb (bool_decide (get_field header h_magic = str "ustar" ++ [0])) then Ok (inl (str "not a ustar archive")) else
  if negb (bool_decide (get_field header h_version = [48; 48])) then Ok (inl (str "invalid ustar version")) else
  match parse_octal_field (get_field header h_chksum) with
  | None => Ok (inl (str "corrupt chksum field"))
  | Some chksum =>
      if negb (chksum =? calculate_chksum header) then Ok (inl (str "checksum mismatch")) else
      if negb (zget 0 header 99 =? 0) || negb (zget 0 header (f_ofs h_prefix) =? 0)
      then Ok (inl (str "file name too long")) else
      let typeflag := s8 (zget 0 header (f_ofs h_typeflag)) in
      if negb (typeflag =? USTAR_REGULAR) && negb (typeflag =? USTAR_DIRECTORY)
      then Ok (inl (str "unimplemented file type")) else
      let success size :=
        file_name ← strip_antisocial_prefixes (c_string (get_field header h_name));
        mret (inr (Some file_name, typeflag, s32 size)) in
      if typeflag =? USTAR_REGULAR
      then
        match parse_octal_field (get_field header h_size) with
        | None => Ok (inl (str "corrupt file size field"))
        | Some size_ul => if 2 ^ 31 - 1 <? size_ul then Ok (inl (str "file too large")) else success size_ul
        end
      else success 0
  end.

(** ** Names that are safe to extract *)

(** Not empty, not the parent directory, and not starting at the root, in the current or in
    the parent directory. *)
Definition safe_name (l : list Z) : Prop := antisocial l = false /\ l <> [] /\ l <> str "..".

Lemma starts_with_app p l : starts_with p l = true -> exists r, l = p ++ r.
Proof.
  revert l. induction p as [|a p IH]; intros l; simpl; [eauto|]. destruct l as [|b l]; [done|].
  rewrite andb_true_iff, Z.eqb_eq. intros [-> [r ->]%IH]. by exists r.
Qed.
Lemma antisocial_slash l : antisocial l = true -> exists p r, l = p ++ r /\ p <> [] /\ after_slash l = Some r.
Proof.
  unfold antisocial. rewrite !orb_true_iff. intros [[H|H]|H].
  - destruct l as [|c l]; [done|]. apply Z.eqb_eq in H. simpl in H. subst c. by exists [47], l.
  - apply starts_with_app in H as [r ->]. by exists (str "./"), r.
  - apply starts_with_app in H as [r ->]. by exists (str "../"), r.
Qed.
Lemma strip_loop_ok fuel l :
  (length l < fuel)%nat -> exists p r, strip_loop fuel l = Ok r /\ l = p ++ r /\ antisocial r = false.
Proof.
  revert l. induction fuel as [|fuel IH]; intros l Hl; [lia|]. simpl. destruct (antisocial l) eqn:E.
  - destruct (antisocial_slash l E) as (p & r & -> & Hp & Ea). rewrite Ea. rewrite length_app in Hl.
    destruct (IH r) as (p' & r' & Er & -> & Hr); [destruct p; simpl in *; [done|lia]|].
    exists (p ++ p'), r'. by rewrite <- app_assoc.
  - by exists [], l.
Qed.
Lemma strip_ok l :
  exists r, strip_antisocial_prefixes l = Ok r /\ safe_name r /\ ((exists p, l = p ++ r) \/ r = str ".").
Proof.
  unfold strip_antisocial_prefixes. destruct (strip_loop_ok (S (length l)) l) as (p & r & E & Hr & Ha); [lia|].
  rewrite E, obind_ok. destruct (Nat.eqb_spec (length r) 0) as [H0|H0]; simpl; [eexists; split; [done|]; split; [done|by right]|].
  case_bool_decide; (eexists; split; [done|]).
  - split; [done|by right].
  - split; [|left; eauto]. split; [done|]. split; [by intros ->|done].
Qed.
Lemma strip_safe l : safe_name l -> strip_antisocial_prefixes l = Ok l.
Proof.
  intros (Ha & H0 & Hd). unfold strip_antisocial_prefixes. simpl. rewrite Ha, obind_ok.
  rewrite (bool_decide_eq_false_2 _ Hd). by destruct l.
Qed.
Lemma strip_chars (P : Z -> Prop) l r : P 46 -> strip_antisocial_prefixes l = Ok r -> Forall P l -> Forall P r.
Proof.
  intros H46 E Hl. destruct (strip_ok l) as (r' & E' & _ & Hr). rewrite E in E'. injection E' as <-.
  destruct Hr as [[p ->]| ->]; [by apply Forall_app in Hl as [_ ?]|]. by constructor.
Qed.

(** ** Octal numbers *)

Definition octal_digit (c : Z) : Prop := 48 <= c <= 55.
Record octal (k v : Z) (out : list Z) : Prop := {
  oc_length : len out = k;
  oc_digits : Forall octal_digit out;
  oc_value : digits_value base_o (reverse out) = v
}.

Lemma octal_digit_value c : octal_digit c -> digits_value base_o [c] = c - 48.
Proof.
  unfold octal_digit. intros H. assert (c ∈ seqZ 48 8) as Hc by (apply elem_of_seqZ; lia).
  assert (Hall : Forall (fun c => digits_value base_o [c] = c - 48) (seqZ 48 8)) by (repeat constructor).
  rewrite Forall_forall in Hall. by apply Hall.
Qed.
Lemma base_o_digits c : c ∈ b_digits base_o -> octal_digit c.
Proof.
  intros H. assert (Forall octal_digit (b_digits base_o)) as Hall by (repeat constructor; done).
  rewrite Forall_forall in Hall. by apply Hall.
Qed.
Lemma digits_value_snoc l c :
  digits_value base_o (l ++ [c]) = digits_value base_o l + 8 ^ len l * digits_value base_o [c].
Proof.
  induction l as [|d l IH]; [simpl length; change (8 ^ 0) with 1; simpl; lia|].
  cbn [app digits_value]. rewrite IH. cbn [length]. rewrite Nat2Z.inj_succ, Z.pow_succ_r by lia. cbn [b_base base_o digits_value]. lia.
Qed.

(** The text of [%0ko] for a value of at most [k] digits. *)
Lemma format_octal k v :
  0 < k <= 21 -> 0 <= v < 8 ^ k ->
  exists out, format_integer v false false base_o (mkConv ZERO k (-1) INT) = Ok out /\ octal k v out.
Proof.
  intros Hk Hv. unfold format_integer. cbn [flags width precision]. cbv zeta.
  destruct (digits_loop_ok (Z.to_nat k) 65 base_o ZERO v 0 []) as (ds & E & Hl & Hval & Hng & Hz & Hall & _);
    [by right; left|by rewrite Z2Nat.id by lia|lia|simpl; lia|].
  destruct (Hng eq_refl) as [Hng1 Hng2]. rewrite Hng1 in Hval. rewrite E, obind_ok. change ([] ++ ds) with ds.
  destruct (zeros_loop_ok 65 1 ds) as (n & Ez & Hn & Hn1 & Hn2); [lia|lia|].
  change (if -1 <? 0 then 1 else -1) with 1. rewrite Ez, obind_ok. change (flag ZERO POUND) with false. cbn [andb].
  change (sign_char false false ZERO) with 0. change (flag ZERO (Z.lor MINUS ZERO)) with true.
  change (flag ZERO MINUS) with false. change (flag ZERO ZERO) with true. cbn [negb Z.eqb app].
  change (mret (ds ++ replicate n 48)) with (Ok (ds ++ replicate n 48)). rewrite obind_ok.
  set (buf := ds ++ replicate n 48). assert (Hb : len buf <= k) by (unfold buf; rewrite length_app, length_replicate; lia).
  rewrite wraps_small, !Z.sub_0_r by (change (32 - 1) with 31; lia). rewrite (proj2 (Z.ltb_ge _ 0)) by lia.
  eexists. split; [reflexivity|]. rewrite app_nil_r. split.
  - rewrite length_app, length_reverse. rewrite Nat2Z.inj_add, out_length_dup; lia.
  - apply Forall_app. split; [by apply out_dup_all|]. apply Forall_reverse, Forall_app. split; [|by apply Forall_replicate].
    rewrite Forall_forall in Hall |- *. intros c Hc. destruct (Hall c Hc) as [->|Hc']; [|by apply base_o_digits].
    rewrite <- Hng1 in Hc. by apply list_elem_of_filter in Hc as [? _].
  - rewrite reverse_app, reverse_involutive. unfold output_dup. rewrite reverse_replicate.
    unfold buf. rewrite !digits_value_zeros; [done|by right; left..].
Qed.
Lemma conversion_octal c v self :
  type c = INT -> conversion 111 c [Arg32 v] self = (out ← format_integer (u32 v) false false base_o c; mret (out, [])).
Proof. intros Ht. unfold conversion. rewrite Ht. done. Qed.
Lemma printf_octal (k : nat) format v :
  (k = 7%nat /\ format = str "%07o") \/ (k = 11%nat /\ format = str "%011o") -> 0 <= v < 2 ^ 32 -> v < 8 ^ Z.of_nat k ->
  exists out, vprintf format [Arg32 v] = Ok out /\ octal (Z.of_nat k) v out.
Proof.
  intros Hf Hv Hk. destruct (format_octal (Z.of_nat k) v) as (out & E & Ho); [lia|lia|]. exists out. split; [|done].
  assert (Hu : u32 v = v) by (apply wrapu_small; lia).
  assert (Hp : exists fuel, vprintf format [Arg32 v] = vprintf_loop (S (S fuel)) format [Arg32 v] /\
    parse_conversion (tl format) [Arg32 v] = Ok ([111], mkConv ZERO (Z.of_nat k) (-1) INT, [Arg32 v]) /\
    format = 37 :: 48 :: tl (tl format)) by (destruct Hf as [[-> ->]|[-> ->]]; [by exists 34%nat|by exists 35%nat]).
  destruct Hp as (fuel & -> & Hp & Hs). rewrite Hs in Hp |- *. simpl tl in *. unfold vprintf_loop; fold vprintf_loop.
  rewrite Hp, obind_ok. cbn [peek hd negb Z.eqb Pos.eqb]. rewrite conversion_octal, Hu, E by done. simpl. by rewrite app_nil_r.
Qed.

Lemma octal_loop_ok l t ofs acc :
  Forall octal_digit l -> 0 < ofs + len l -> 0 <= acc -> acc * 8 ^ len l + digits_value base_o (reverse l) < 2 ^ 32 ->
  octal_loop (l ++ 0 :: t) ofs acc = Some (acc * 8 ^ len l + digits_value base_o (reverse l)).
Proof.
  intros Hl. revert ofs acc. induction Hl as [|c l Hc Hl IH]; intros ofs acc Ho Ha Hb.
  - simpl. rewrite Z.add_0_r in Ho. rewrite (proj2 (Z.ltb_lt 0 ofs) Ho). f_equal. change (reverse []) with (@nil Z). simpl. lia.
  - rewrite reverse_cons, digits_value_snoc, octal_digit_value, length_reverse in Hb |- * by done.
    cbn [length] in *. rewrite Nat2Z.inj_succ, Z.pow_succ_r in * by lia.
    assert (Hv : 0 <= digits_value base_o (reverse l)).
    { clear -Hl. apply Forall_reverse in Hl. induction Hl as [|x r Hx Hr IH]; simpl; [lia|].
      pose proof (octal_digit_value x Hx) as Hd. simpl in Hd. unfold octal_digit in Hx. lia. }
    assert (Hp : 1 <= 8 ^ len l) by (apply (Z.pow_le_mono_r 8 0); lia).
    unfold octal_digit in Hc. cbn [app octal_loop]. rewrite (proj2 (Z.leb_le 48 c)), (proj2 (Z.leb_le c 55)) by lia. cbn [andb].
    assert (Ha' : acc * 8 + (c - 48) < 2 ^ 32) by nia.
    rewrite (proj2 (Z.ltb_ge _ acc)) by (change ((2 ^ 32 - 1) / 8) with 536870911; lia).
    rewrite wrapu_small by lia. rewrite IH by (lia || nia). f_equal. lia.
Qed.
Lemma octal_parses k v out t : 0 < k -> octal k v out -> v < 2 ^ 32 -> parse_octal_field (out ++ 0 :: t) = Some v.
Proof.
  intros Hk [Hl Hd Hv] H. unfold parse_octal_field. rewrite octal_loop_ok by (done || lia). by rewrite Hv.
Qed.

(** ** The checksum *)

(** The sum of the bytes, with spaces in place of the checksum. *)
Fixpoint total (h : list Z) (i : Z) : Z :=
  match h with
  | [] => 0
  | b :: h' => (if in_chksum_field i then 32 else b) + total h' (i + 1)
  end.
Lemma chksum_total h i c : Forall byte h -> 0 <= c -> c + 255 * len h < 2 ^ 32 -> chksum_loop h i c = c + total h i.
Proof.
  intros Hh. revert i c. induction Hh as [|b h Hb Hh IH]; intros i c Hc Hl; simpl; [lia|]. unfold byte in Hb.
  assert (0 <= (if in_chksum_field i then 32 else b) <= 255) by (destruct (in_chksum_field i); lia).
  cbn [length] in Hl. rewrite wrapu_small by lia. rewrite IH by lia. lia.
Qed.
Lemma total_range h i : Forall byte h -> 0 <= total h i <= 255 * len h.
Proof.
  intros Hh. revert i. induction Hh as [|b h Hb Hh IH]; intros i; cbn [total length]; [lia|]. unfold byte in Hb.
  specialize (IH (i + 1)). destruct (in_chksum_field i); lia.
Qed.
Lemma total_same h h' i :
  length h = length h' -> (forall k : nat, in_chksum_field (i + Z.of_nat k) = false -> h !! k = h' !! k) -> total h i = total h' i.
Proof.
  revert h' i. induction h as [|b h IH]; intros [|b' h'] i Hl Hs; try done. cbn [total]. f_equal.
  - destruct (in_chksum_field i) eqn:E; [done|]. specialize (Hs O). rewrite Z.add_0_r in Hs. by injection (Hs E).
  - apply IH; [by injection Hl|]. intros k Hk. apply (Hs (S k)). rewrite <- Hk. f_equal. lia.
Qed.
Lemma total_change h i (k : nat) b b' :
  h !! k = Some b -> in_chksum_field (i + Z.of_nat k) = false -> total (<[k := b']> h) i = total h i - b + b'.
Proof.
  revert i k. induction h as [|c h IH]; intros i [|k] Hk Hi; try done.
  - injection Hk as ->. rewrite Z.add_0_r in Hi. cbn. rewrite Hi. lia.
  - change (<[S k := b']> (c :: h)) with (c :: <[k := b']> h). cbn [total]. rewrite (IH (i + 1) k Hk); [lia|]. rewrite <- Hi. f_equal. lia.
Qed.

Definition header_ok (h : list Z) : Prop := len h = 512 /\ Forall byte h.
Lemma calculate_total h : header_ok h -> calculate_chksum h = total h 0 /\ 0 <= total h 0 < 8 ^ 7.
Proof.
  intros [Hl Hb]. pose proof (total_range h 0 Hb). unfold calculate_chksum.
  rewrite chksum_total by (done || lia). split; [lia|]. change (8 ^ 7) with 2097152. lia.
Qed.

(** ** Fields *)

Lemma put_field_ok h f d :
  header_ok h -> 0 <= f_ofs f -> f_ofs f + len d <= 512 -> Forall byte d -> header_ok (put_field h f d).
Proof.
  intros [Hl Hb] H0 Hd Hdb. split; [unfold put_field; rewrite splice_length by lia; done|].
  unfold put_field, splice. rewrite !Forall_app. split_and!; [by apply Forall_take|done|by apply Forall_drop].
Qed.
Lemma put_text_length size text : 0 < size -> len (take (Z.to_nat (size - 1)) text ++ [0]) <= size.
Proof. intros. rewrite length_app, length_take. simpl. lia. Qed.
Lemma put_text_ok h f size text :
  header_ok h -> 0 <= f_ofs f -> 0 < size -> f_ofs f + size <= 512 -> Forall byte text -> header_ok (put_text h f size text).
Proof.
  intros Hh H0 Hs Hf Ht. apply put_field_ok; [done..| |].
  - pose proof (put_text_length size text Hs). lia.
  - apply Forall_app. split; [by apply Forall_take|]. by repeat constructor.
Qed.
(** A store changes no byte outside of the field. *)
Lemma get_put_field h f d g :
  header_ok h -> 0 <= f_ofs f -> f_ofs f + len d <= 512 -> 0 <= f_ofs g ->
  f_ofs g + f_size g <= f_ofs f \/ f_ofs f + len d <= f_ofs g -> get_field (put_field h f d) g = get_field h g.
Proof. intros [Hl _] H0 Hd Hg Hs. apply slice_splice_ne; lia. Qed.
Lemma get_put_text h f size text g :
  header_ok h -> 0 <= f_ofs f -> 0 < size -> f_ofs f + size <= 512 -> 0 <= f_ofs g ->
  f_ofs g + f_size g <= f_ofs f \/ f_ofs f + size <= f_ofs g -> get_field (put_text h f size text) g = get_field h g.
Proof. intros Hh H0 Hs Hf Hg Hne. pose proof (put_text_length size text Hs). apply get_put_field; [done..|lia|done|lia]. Qed.
Lemma get_own_field h f d : header_ok h -> 0 <= f_ofs f -> f_ofs f + len d <= 512 -> f_size f = len d -> get_field (put_field h f d) f = d.
Proof. intros [Hl _] H0 Hd Hf. unfold get_field. rewrite Hf. apply slice_splice; lia. Qed.
(** The string and what was after it. *)
Lemma get_own_text h f size text :
  header_ok h -> 0 <= f_ofs f -> f_size f = size -> len text < size -> f_ofs f + size <= 512 ->
  exists t, get_field (put_text h f size text) f = text ++ 0 :: t /\ (len text + 1 = size -> t = []).
Proof.
  intros [Hl _] H0 Hf Ht Hs. unfold put_text. rewrite take_ge by lia. set (d := text ++ [0]).
  assert (Hd : len d = len text + 1) by (unfold d; rewrite length_app; simpl; lia).
  exists (slice (put_field h f d) (f_ofs f + len d) (size - len d)). split.
  - unfold get_field. rewrite Hf. replace size with (len d + (size - len d)) at 1 by lia.
    rewrite <- slice_app by lia. unfold put_field at 1. rewrite slice_splice by lia. unfold d at 1. by rewrite <- app_assoc.
  - intros He. replace (size - len d) with 0 by lia. apply slice_0.
Qed.

(** ** Headers that are made *)

Record made (name : list Z) (type size : Z) (h : list Z) : Prop := {
  md_ok : header_ok h;
  md_name : exists t, get_field h h_name = name ++ 0 :: t;
  md_last : get_field h (mkField 99 1) = [0];
  md_size : exists ds, get_field h h_size = ds ++ [0] /\ octal 11 size ds;
  md_type : get_field h h_typeflag = [type];
  md_magic : get_field h h_magic = str "ustar" ++ [0];
  md_version : get_field h h_version = [48; 48];
  md_prefix : get_field h (mkField 345 1) = [0];
  md_chksum : exists ds, get_field h h_chksum = ds ++ [0] /\ octal 7 (total h 0) ds
}.

Lemma octal_bytes k v ds : octal k v ds -> Forall byte ds.
Proof. intros [_ H _]. eapply Forall_impl; [exact H|]. unfold octal_digit, byte. intros. lia. Qed.
Lemma str_root_bytes : Forall byte (str "root") /\ Forall byte (str "ustar") /\ Forall byte (str "0000000").
Proof. split_and!; repeat constructor; done. Qed.

(** The stores before the checksum. *)
Definition filled (name mode sz mtime : list Z) (type : Z) : list Z :=
  let h := put_text (replicate 512 0) h_name 100 name in
  let h := put_text h h_mode 8 mode in
  let h := put_text h h_uid 8 (str "0000000") in
  let h := put_text h h_gid 8 (str "0000000") in
  let h := put_text h h_size 12 sz in
  let h := put_text h h_mtime 12 mtime in
  let h := put_field h h_typeflag [u8 type] in
  let h := put_text h h_magic 6 (str "ustar") in
  let h := put_field h h_version [48; 48] in
  let h := put_text h h_gname 32 (str "root") in
  put_text h h_uname 32 (str "root").

Ltac field_side := first [assumption | cbn; lia].
(** Steps back to the store of a field. *)
Ltac trace_field :=
  repeat match goal with
  | E : ?h = put_text _ _ _ _ |- context [get_field ?h _] => rewrite E, get_put_text by field_side
  | E : ?h = put_field _ _ _ |- context [get_field ?h _] => rewrite E, get_put_field by field_side
  end.

Lemma name_last h name :
  header_ok h -> len name <= 99 -> get_field h (mkField 99 1) = [0] -> get_field (put_text h h_name 100 name) (mkField 99 1) = [0].
Proof.
  intros Hh Hl H0. destruct (decide (len name = 99)) as [He|Hne].
  - destruct (get_own_text h h_name 100 name Hh) as (t & Ht & Hz); [cbn; lia..|]. rewrite Hz in Ht by lia.
    unfold get_field in *. cbn [f_ofs f_size h_name] in *.
    replace (slice (put_text h h_name 100 name) 99 1) with (slice (slice (put_text h h_name 100 name) 0 100) 99 1)
      by (apply slice_of_slice; lia).
    rewrite Ht. unfold slice. rewrite drop_app_length' by lia. done.
  - unfold put_text. rewrite take_ge by lia. rewrite get_put_field; [done|done|cbn; lia|..]; cbn; rewrite ?length_app; simpl; lia.
Qed.
Lemma filled_ok name mode sz mtime type v :
  Forall byte name -> len name <= 99 -> Forall byte mode -> octal 11 v sz -> Forall byte mtime ->
  type = USTAR_REGULAR \/ type = USTAR_DIRECTORY ->
  let h := filled name mode sz mtime type in
  header_ok h /\ (exists t, get_field h h_name = name ++ 0 :: t) /\ get_field h (mkField 99 1) = [0] /\
  get_field h h_size = sz ++ [0] /\ get_field h h_typeflag = [type] /\ get_field h h_magic = str "ustar" ++ [0] /\
  get_field h h_version = [48; 48] /\ get_field h (mkField 345 1) = [0].
Proof.
  intros Hn Hl Hm Hs Ht Hty h. pose proof (octal_bytes _ _ _ Hs) as Hsb. destruct str_root_bytes as (B1 & B2 & B3).
  assert (Hu : u8 type = type /\ byte type) by (destruct Hty as [-> | ->]; split; done). destruct Hu as [Hu Hu'].
  unfold h, filled. cbv zeta. rewrite Hu. clear h.
  assert (O0 : header_ok (replicate 512 0)) by (split; [done|by apply Forall_replicate]).
  assert (Z99 : get_field (replicate 512 0) (mkField 99 1) = [0]) by done.
  assert (Z345 : get_field (replicate 512 0) (mkField 345 1) = [0]) by done.
  remember (replicate 512 0) as h0. clear Heqh0.
  pose proof (name_last h0 name O0 Hl Z99) as L99.
  destruct (get_own_text h0 h_name 100 name O0) as (tn & Tn & _); [cbn; lia..|].
  remember (put_text h0 h_name 100 name) as h1 eqn:E1. assert (O1 : header_ok h1) by (rewrite E1; apply put_text_ok; field_side).
  remember (put_text h1 _ _ _) as h2 eqn:E2. assert (O2 : header_ok h2) by (rewrite E2; apply put_text_ok; field_side).
  remember (put_text h2 _ _ _) as h3 eqn:E3. assert (O3 : header_ok h3) by (rewrite E3; apply put_text_ok; field_side).
  remember (put_text h3 _ _ _) as h4 eqn:E4. assert (O4 : header_ok h4) by (rewrite E4; apply put_text_ok; field_side).
  destruct (get_own_text h4 h_size 12 sz O4) as (ts & Ts & Ts0); [cbn; rewrite ?(oc_length _ _ _ Hs); lia..|].
  rewrite Ts0 in Ts by (rewrite (oc_length _ _ _ Hs); lia).
  remember (put_text h4 _ _ _) as h5 eqn:E5. assert (O5 : header_ok h5) by (rewrite E5; apply put_text_ok; field_side).
  remember (put_text h5 _ _ _) as h6 eqn:E6. assert (O6 : header_ok h6) by (rewrite E6; apply put_text_ok; field_side).
  pose proof (get_own_field h6 h_typeflag [type] O6 ltac:(cbn; lia) ltac:(cbn; lia) eq_refl) as Tt.
  remember (put_field h6 _ _) as h7 eqn:E7. assert (O7 : header_ok h7) by (rewrite E7; apply put_field_ok; first [field_side|by constructor]).
  pose proof (get_own_field h7 h_magic (str "ustar" ++ [0]) O7 ltac:(cbn; lia) ltac:(cbn; lia) eq_refl) as Tm.
  change (put_field h7 h_magic (str "ustar" ++ [0])) with (put_text h7 h_magic 6 (str "ustar")) in Tm.
  remember (put_text h7 _ _ _) as h8 eqn:E8. assert (O8 : header_ok h8) by (rewrite E8; apply put_text_ok; field_side).
  pose proof (get_own_field h8 h_version [48; 48] O8 ltac:(cbn; lia) ltac:(cbn; lia) eq_refl) as Tv.
  remember (put_field h8 _ _) as h9 eqn:E9. assert (O9 : header_ok h9) by (rewrite E9; apply put_field_ok; first [field_side|by repeat constructor]).
  remember (put_text h9 _ _ _) as h10 eqn:E10. assert (O10 : header_ok h10) by (rewrite E10; apply put_text_ok; field_side).
  remember (put_text h10 _ _ _) as h11 eqn:E11. assert (O11 : header_ok h11) by (rewrite E11; apply put_text_ok; field_side).
  split; [done|]. split; [exists tn|]; [|repeat split]; trace_field; assumption.
Qed.
Lemma checksum_kept h d : header_ok h -> len d <= 8 -> total (put_field h h_chksum d) 0 = total h 0.
Proof.
  intros [Hl _] Hd. apply total_same; [apply splice_length; cbn; lia|]. intros k Hk. unfold put_field.
  rewrite splice_lookup by (cbn; lia). rewrite decide_False; [done|]. revert Hk. unfold in_chksum_field. cbn [f_ofs f_size h_chksum].
  rewrite Z.add_0_l. intros [H|H]%andb_false_iff; [apply Z.leb_gt in H|apply Z.ltb_ge in H]; lia.
Qed.
Lemma make_ok file_name name type size :
  Forall byte file_name -> strip_antisocial_prefixes file_name = Ok name -> len name <= 99 ->
  type = USTAR_REGULAR \/ type = USTAR_DIRECTORY -> 0 <= size < 2 ^ 32 ->
  exists h, ustar_make_header file_name type size = Ok ([], Some h) /\ made name type size h.
Proof.
  intros Hb Hs Hl Hty Hsz. assert (Hn : Forall byte name) by (by eapply (strip_chars byte)).
  assert (Ht : negb ((type =? USTAR_REGULAR) || (type =? USTAR_DIRECTORY)) = false) by (destruct Hty as [-> | ->]; done).
  destruct (printf_octal 7 (str "%07o") (if type =? USTAR_REGULAR then 420 else 493)) as (mode & Em & Om);
    [by left|by destruct (type =? USTAR_REGULAR)..|].
  destruct (printf_octal 11 (str "%011o") size) as (sz & Es & Os); [by right|lia|change (8 ^ Z.of_nat 11) with 8589934592; lia|].
  destruct (printf_octal 11 (str "%011o") 1136102400) as (mt & Et & Ot); [by right|done..|].
  destruct (filled_ok name mode sz mt type size Hn Hl (octal_bytes _ _ _ Om) Os (octal_bytes _ _ _ Ot) Hty)
    as (O & Fn & F99 & Fs & Ft & Fm & Fv & Fp).
  unfold ustar_make_header. rewrite Ht, Hs, obind_ok, (proj2 (Z.ltb_ge 99 _)) by lia. cbv zeta. unfold printf.
  rewrite Em, obind_ok, Es, obind_ok, Et, obind_ok.
  change (put_text (put_text _ h_gname _ _) _ _ _) with (filled name mode sz mt type).
  set (h := filled name mode sz mt type) in *. destruct (calculate_total h O) as [Ec Hc].
  destruct (printf_octal 7 (str "%07o") (calculate_chksum h)) as (chk & Ek & Ok'); rewrite ?Ec;
    [by left|change (8 ^ 7) with 2097152 in Hc; lia|lia|].
  rewrite Ec in Ek. rewrite Ek, obind_ok. eexists. split; [reflexivity|]. pose proof (octal_bytes _ _ _ Ok') as Hkb.
  assert (Hkl : take (Z.to_nat (8 - 1)) chk = chk) by (apply take_ge; pose proof (oc_length _ _ _ Ok'); lia).
  unfold put_text. rewrite Hkl.
  assert (Hd : len (chk ++ [0]) = 8) by (rewrite length_app; pose proof (oc_length _ _ _ Ok'); simpl; lia).
  split.
  - apply put_field_ok; [done|cbn; lia..|]. apply Forall_app. split; [done|by repeat constructor].
  - destruct Fn as [t Fn]. exists t. rewrite get_put_field; [done|done|cbn; lia..].
  - rewrite get_put_field; [done|done|cbn; lia..].
  - exists sz. split; [|done]. rewrite get_put_field; [done|done|cbn; lia..].
  - rewrite get_put_field; [done|done|cbn; lia..].
  - rewrite get_put_field; [done|done|cbn; lia..].
  - rewrite get_put_field; [done|done|cbn; lia..].
  - rewrite get_put_field; [done|done|cbn; lia..].
  - exists chk. split; [apply get_own_field; [done|cbn; lia..]|]. rewrite checksum_kept by (done || lia). by rewrite <- Ec.
Qed.

(** ** Headers that are parsed *)

Lemma byte_of_field h i x : 0 <= i -> get_field h (mkField i 1) = [x] -> zget 0 h i = x.
Proof.
  intros Hi H. unfold get_field in H. cbn [f_ofs f_size] in H.
  assert (E : slice h i 1 !! O = Some x) by (by rewrite H). rewrite slice_lookup, decide_True, Nat.add_0_r in E by lia.
  unfold zget, zlookup. by rewrite (proj2 (Z.leb_le 0 i) Hi), E.
Qed.
Lemma field_not_zeros h f x l : get_field h f = x :: l -> x <> 0 -> is_all_zeros h = false.
Proof.
  intros H Hx. destruct (is_all_zeros h) eqn:E; [|done]. exfalso. unfold is_all_zeros in E. rewrite forallb_forall in E.
  assert (Hin : x ∈ h).
  { assert (x ∈ get_field h f) as Hin by (rewrite H; left). unfold get_field, slice in Hin.
    apply elem_of_take in Hin as (i & Hi & _). rewrite lookup_drop in Hi. by eapply list_elem_of_lookup_2. }
  apply list_elem_of_In, E, Z.eqb_eq in Hin. done.
Qed.
Lemma c_string_text name t : Forall (fun c => c <> 0) name -> c_string (name ++ 0 :: t) = name.
Proof.
  unfold c_string. induction 1 as [|c name Hc H IH]; simpl; [done|]. by rewrite (proj2 (Z.eqb_neq c 0) Hc), IH.
Qed.
Lemma parse_made name type size h :
  made name type size h -> safe_name name -> Forall (fun c => c <> 0) name -> type = USTAR_REGULAR \/ type = USTAR_DIRECTORY ->
  0 <= size < 2 ^ 31 ->
  ustar_parse_header h = Ok (inr (Some name, type, if type =? USTAR_REGULAR then size else 0)).
Proof.
  intros M Hs Hn Hty Hsz. destruct (calculate_total h (md_ok _ _ _ _ M)) as [Ec Hc]. change (8 ^ 7) with 2097152 in Hc.
  destruct (md_chksum _ _ _ _ M) as (ck & Fc & Oc). destruct (md_size _ _ _ _ M) as (sz & Fs & Os). destruct (md_name _ _ _ _ M) as [t Fn].
  unfold ustar_parse_header. rewrite (field_not_zeros h h_version 48 [48]) by first [apply M | done].
  rewrite bool_decide_eq_true_2 by apply M. rewrite bool_decide_eq_true_2 by apply M. cbn [negb].
  rewrite Fc, (octal_parses 7 (total h 0) ck []) by (done || lia). rewrite Ec, Z.eqb_refl. cbn [negb].
  rewrite (byte_of_field h 99 0) by (done || apply M). cbn [f_ofs h_prefix h_typeflag].
  rewrite (byte_of_field h 345 0) by (done || apply M). rewrite (byte_of_field h 156 type) by (done || apply M). cbn [negb orb Z.eqb].
  rewrite Fn, c_string_text, strip_safe by done. cbv zeta. rewrite obind_ok.
  assert (Ht : s8 type = type /\ negb (type =? USTAR_REGULAR) && negb (type =? USTAR_DIRECTORY) = false)
    by (destruct Hty as [-> | ->]; done).
  destruct Ht as [Ht1 Ht2]. rewrite Ht1, Ht2. destruct (Z.eqb_spec type USTAR_REGULAR); [|done].
  rewrite Fs, (octal_parses 11 size sz []) by (done || lia). rewrite (proj2 (Z.ltb_ge _ size)) by lia.
  rewrite wraps_small by (change (32 - 1) with 31; lia). done.
Qed.

Lemma parsed_name h name type size :
  ustar_parse_header h = Ok (inr (Some name, type, size)) -> safe_name name /\ Forall (fun c => c <> 0) name.
Proof.
  unfold ustar_parse_header. destruct (is_all_zeros h); [done|]. do 2 (case_bool_decide; [|done]). cbn [negb].
  destruct (parse_octal_field (get_field h h_chksum)) as [c|]; [|done]. destruct (negb (c =? _)); [done|].
  destruct (_ || _); [done|]. cbv zeta. destruct (_ && _); [done|].
  destruct (strip_ok (c_string (get_field h h_name))) as (nm & E & Hs & _). rewrite E, obind_ok.
  assert (Hz : Forall (fun c => c <> 0) nm).
  { eapply (strip_chars _ _ _ _ E). eapply Forall_impl; [apply prefix_all|]. simpl. intros x Hx ->. done. }
  destruct (_ =? USTAR_REGULAR); [|by intros [= <- _ _]].
  destruct (parse_octal_field _) as [sz|]; [|done]. destruct (_ <? sz); [done|by intros [= <- _ _]].
  Unshelve. done.
Qed.

(** A header with another byte outside of its checksum. *)
Lemma change_field h (i : nat) b f : (forall j : nat, f_ofs f <= Z.of_nat j < f_ofs f + f_size f -> j <> i) -> 0 <= f_ofs f ->
  get_field (<[i := b]> h) f = get_field h f.
Proof.
  intros Hi H0. apply list_eq. intros k. unfold get_field. rewrite !slice_lookup by done. destruct (decide _) as [Hk|]; [|done].
  apply list_lookup_insert_ne. intros ->. by eapply Hi; [|reflexivity]; lia.
Qed.
Lemma accepted_chksum h r : ustar_parse_header h = Ok (inr r) -> is_all_zeros h = true \/
  get_field h h_magic = str "ustar" ++ [0] /\ parse_octal_field (get_field h h_chksum) = Some (calculate_chksum h).
Proof.
  unfold ustar_parse_header. destruct (is_all_zeros h); [by left|]. case_bool_decide as Hm; [|done].
  case_bool_decide; [|done]. cbn [negb]. destruct (parse_octal_field _) as [c|] eqn:Ec; [|done].
  destruct (Z.eqb_spec c (calculate_chksum h)) as [->|]; [|done]. intros _. by right.
Qed.
Lemma magic_not_zeros h : get_field h h_magic = str "ustar" ++ [0] -> is_all_zeros h = false.
Proof. intros H. by apply (field_not_zeros h h_magic 117 [115; 116; 97; 114; 0]). Qed.

(** ** Properties *)

(** A header that [ustar_make_header] makes is read back by [ustar_parse_header]: for every
    name whose stripped form has at most 99 characters, a header of 512 bytes is made, and
    parsing it gives the stripped name, the type and, for a regular file, the size.  A longer
    name is refused. *)
Theorem ustar_round_trip file_name type size :
  Forall (fun c => 0 < c < 256) file_name -> type = USTAR_REGULAR \/ type = USTAR_DIRECTORY -> 0 <= size < 2 ^ 31 ->
  exists name, strip_antisocial_prefixes file_name = Ok name /\ safe_name name /\
    if 99 <? len name then exists out, ustar_make_header file_name type size = Ok (out, None)
    else exists h, ustar_make_header file_name type size = Ok ([], Some h) /\ length h = 512%nat /\
      ustar_parse_header h = Ok (inr (Some name, type, if type =? USTAR_REGULAR then size else 0)).
Proof.
  intros Hn Hty Hsz. destruct (strip_ok file_name) as (name & Es & Hs & _). exists name. split; [done|]. split; [done|].
  destruct (Z.ltb_spec 99 (len name)) as [Hl|Hl].
  - unfold ustar_make_header. replace (negb _) with false by (destruct Hty as [-> | ->]; done).
    rewrite Es, obind_ok, (proj2 (Z.ltb_lt 99 _)) by done. eexists. unfold vprintf. reflexivity.
  - destruct (make_ok file_name name type size) as (h & Eh & M); [|done|lia|done|lia|].
    { eapply Forall_impl; [exact Hn|]. unfold byte. simpl. intros. lia. }
    exists h. split; [done|]. split; [destruct (md_ok _ _ _ _ M); lia|]. apply (parse_made name type size); [done..| |done|done].
    eapply (strip_chars _ file_name); [|done|]; [done|]. eapply Forall_impl; [exact Hn|]. simpl. intros. lia.
Qed.
Lemma ustar_round_trip_witness :
  exists name h, strip_antisocial_prefixes (str "../a/b") = Ok name /\ safe_name name /\
    ustar_make_header (str "../a/b") USTAR_REGULAR 700 = Ok ([], Some h) /\ length h = 512%nat /\
    ustar_parse_header h = Ok (inr (Some name, USTAR_REGULAR, 700)).
Proof.
  destruct (ustar_round_trip (str "../a/b") USTAR_REGULAR 700) as (name & Es & Hs & H).
  - repeat constructor.
  - by left.
  - lia.
  - assert (name = str "a/b") as -> by (vm_compute in Es; injection Es as <-; reflexivity). change (99 <? len (str "a/b")) with false in H.
    destruct H as (h & H). by exists (str "a/b"), h.
Defined.

(** The checksum detects damage: when [ustar_parse_header] accepts a header, it refuses it after
    the change of any byte that is not part of the checksum. *)
Theorem checksum_detects_damage h r i b b' :
  header_ok h -> ustar_parse_header h = Ok (inr r) -> is_all_zeros h = false ->
  h !! i = Some b -> byte b' -> b' <> b -> in_chksum_field (Z.of_nat i) = false ->
  exists msg, ustar_parse_header (<[i := b']> h) = Ok (inl msg).
Proof.
  intros O E Hz Hi Hb' Hne Hc. destruct (accepted_chksum h r E) as [|[Hm Hk]]; [congruence|].
  assert (O' : header_ok (<[i := b']> h)) by (split; [rewrite length_insert; apply O|apply Forall_insert; [apply O|done]]).
  assert (Hcf : forall j : nat, f_ofs h_chksum <= Z.of_nat j < f_ofs h_chksum + f_size h_chksum -> j <> i).
  { intros j Hj ->. revert Hc. unfold in_chksum_field. rewrite (proj2 (Z.leb_le _ _)), (proj2 (Z.ltb_lt _ _)) by lia. done. }
  destruct (calculate_total h O) as [T _]. destruct (calculate_total _ O') as [T' _].
  assert (Hs : calculate_chksum (<[i := b']> h) <> calculate_chksum h).
  { rewrite T, T', (total_change h 0 i b b') by done. lia. }
  assert (Hm' : is_all_zeros (<[i := b']> h) = true -> False).
  { intros Hall. unfold is_all_zeros in Hall. rewrite forallb_forall in Hall.
    assert (Hb : forall j c, h !! j = Some c -> j <> i -> c = 0).
    { intros j c Hj Hji. apply Z.eqb_eq, Hall, list_elem_of_In, (list_elem_of_lookup_2 _ j). by rewrite list_lookup_insert_ne. }
    assert (G : forall k c, slice h 257 6 !! k = Some c -> (257 + k <> i)%nat -> c = 0).
    { intros k c Hkc Hki. rewrite slice_lookup in Hkc by lia. destruct (decide _); [|done]. by apply (Hb (257 + k)%nat). }
    unfold get_field in Hm. cbn [f_ofs f_size h_magic] in Hm. rewrite Hm in G.
    destruct (decide (257 = i)%nat) as [<-|Hd]; [specialize (G 1%nat 115 eq_refl)|specialize (G 0%nat 117 eq_refl)]; lia. }
  unfold ustar_parse_header. destruct (is_all_zeros (<[i := b']> h)); [by exfalso; apply Hm'|].
  case_bool_decide; [|by eexists]. case_bool_decide; [|by eexists]. cbn [negb]. rewrite change_field by (done || cbn; lia).
  rewrite Hk. rewrite (proj2 (Z.eqb_neq _ _)) by done. by eexists.
Qed.
Lemma safe_a : safe_name (str "a") /\ Forall (fun c => c <> 0) (str "a").
Proof. split; [split; [|split]; [reflexivity|discriminate..]|]. repeat constructor. discriminate. Qed.
Lemma checksum_detects_damage_witness :
  exists h msg, made (str "a") USTAR_REGULAR 5 h /\ h !! O = Some 97 /\ ustar_parse_header (<[O := 98]> h) = Ok (inl msg).
Proof.
  destruct (make_ok (str "a") (str "a") USTAR_REGULAR 5) as (h & _ & M);
    [by repeat constructor|reflexivity|discriminate|by left|lia|].
  assert (H0 : h !! O = Some 97).
  { destruct (md_name _ _ _ _ M) as [t Ht]. assert (Hx : get_field h h_name !! O = Some 97) by (by rewrite Ht).
    unfold get_field in Hx. rewrite slice_lookup in Hx by done. exact Hx. }
  destruct (checksum_detects_damage h (Some (str "a"), USTAR_REGULAR, 5) 0 97 98) as (msg & Hmsg).
  - apply M.
  - apply (parse_made (str "a") USTAR_REGULAR 5 h M); [apply safe_a..|by left|split; [discriminate|reflexivity]].
  - apply magic_not_zeros, M.
  - exact H0.
  - split; [discriminate|reflexivity].
  - discriminate.
  - reflexivity.
  - exists h, msg. split; [exact M|]. split; [exact H0|exact Hmsg].
Defined.
