(* ===== verification/Fsutil.v ===== *)
(** The commands of the kernel on its files (filesys/fsutil.c): listing, printing and removing
    files, and copying files from and to a ustar archive on the scratch device. *)

From stdpp Require Import gmap strings.
From S2P Require Import Prelude KMonad CString Bytes Bitmap Block Stdio StdioOk Ustar Filesys.

Section Fsutil.
Context {D E : Type} `{!BlockDevice D, !BlockDevice E}.

(** ** The state

    The file system, the device with the role [BLOCK_SCRATCH], the text on the console, and
    the static variables [sector] of [fsutil_extract] and [fsutil_append]. *)
Record util := mkUtil {
  u_fs : fs D;
  u_scratch : option E;
  u_console : list Z;
  extract_sector : Z;
  append_sector : Z
}.

Definition on_fs {A} (m : K (fs D) A) : K util A := fun u =>
  match m (u_fs u) with
  | Ok (a, s) => Ok (a, mkUtil s (u_scratch u) (u_console u) (extract_sector u) (append_sector u))
  | Panic => Panic
  | NoFuel => NoFuel
  end.
Definition on_scratch {A} (m : K E A) : K util A := fun u =>
  match u_scratch u with
  | None => Panic
  | Some d =>
      match m d with
      | Ok (a, d) => Ok (a, mkUtil (u_fs u) (Some d) (u_console u) (extract_sector u) (append_sector u))
      | Panic => Panic
      | NoFuel => NoFuel
      end
  end.
Definition output (text : list Z) : K util unit :=
  modify (fun u => mkUtil (u_fs u) (u_scratch u) (u_console u ++ text) (extract_sector u) (append_sector u)).
(** [printf] with a line. *)
Definition say (format : String.string) (args : list arg) : K util unit :=
  out ← lift (vprintf (str format ++ [10]) args); output out.

(** The value of [sector++]. *)
Definition next_extract : K util Z := fun u =>
  Ok (extract_sector u, mkUtil (u_fs u) (u_scratch u) (u_console u) (u32 (extract_sector u + 1)) (append_sector u)).
Definition next_append : K util Z := fun u =>
  Ok (append_sector u, mkUtil (u_fs u) (u_scratch u) (u_console u) (extract_sector u) (u32 (append_sector u + 1))).

(** [malloc] and [palloc_get_page (PAL_ASSERT)] of a buffer, or a panic. *)
Definition buffer_or_panic : K util unit := p ← on_fs alloc; the p;; mret tt.

(** ** fsutil_ls *)

Fixpoint ls_loop (fuel : nat) (dir : Z) : K util unit :=
  match fuel with
  | O => no_fuel
  | S fuel' =>
      name ← on_fs (dir_readdir dir);
      match name with
      | Some name => say "%s" [ArgStr (Some name)];; ls_loop fuel' dir
      | None => mret tt
      end
  end.
Definition fsutil_ls : K util unit :=
  say "Files in the root directory:" [];;
  dir ← on_fs dir_open_root;
  dir ← the dir;
  fuel ← on_fs (ip ← dir_get_inode dir; entry_fuel ip);
  ls_loop fuel dir;;
  on_fs (dir_close (Some dir));;
  say "End of listing." [].

(** ** fsutil_cat *)

Definition PAGE : Z := 4096.
Fixpoint cat_loop (fuel : nat) (file : Z) : K util unit :=
  match fuel with
  | O => no_fuel
  | S fuel' =>
      pos ← on_fs (file_tell file);
      buffer ← on_fs (file_read file PAGE);
      if len buffer =? 0 then mret tt
      else
        out ← lift (hex_dump (S (length buffer)) (u32 pos) buffer (len buffer) true);
        output out;;
        cat_loop fuel' file
  end.
Definition fsutil_cat (file_name junk : list Z) : K util unit :=
  say "Printing '%s' to the console..." [ArgStr (Some file_name)];;
  file ← on_fs (filesys_open file_name junk);
  file ← the file;
  buffer_or_panic;;
  n ← on_fs (file_length file);
  cat_loop (S (S (Z.to_nat n))) file;;
  on_fs (file_close (Some file)).

(** ** fsutil_rm *)

Definition fsutil_rm (file_name junk : list Z) : K util unit :=
  say "Deleting '%s'..." [ArgStr (Some file_name)];;
  ok ← on_fs (filesys_remove file_name junk);
  ASSERT ok.

(** ** fsutil_extract *)

Fixpoint extract_data (fuel : nat) (dst size : Z) : K util unit :=
  match fuel with
  | O => no_fuel
  | S fuel' =>
      if 0 <? size
      then
        let chunk_size := if BLOCK_SECTOR_SIZE <? size then BLOCK_SECTOR_SIZE else size in
        sector ← next_extract;
        data ← on_scratch (bd_read sector);
        n ← on_fs (file_write dst data chunk_size);
        ASSERT (n =? chunk_size);;
        extract_data fuel' dst (size - chunk_size)
      else mret tt
  end.
(** One pass of the loop; the result says whether there is another one. *)
Definition extract_entry (junk : list Z) : K util bool :=
  sector ← next_extract;
  header ← on_scratch (bd_read sector);
  r ← lift (ustar_parse_header header);
  match r with
  | inl error => panic
  | inr (file_name, type, size) =>
      if type =? USTAR_EOF then mret false
      else if type =? USTAR_DIRECTORY
      then say "ignoring directory %s" [ArgStr file_name];; mret true
      else if type =? USTAR_REGULAR
      then
        say "Putting '%s' into the file system..." [ArgStr file_name];;
        name ← the file_name;
        ok ← on_fs (filesys_create name size junk);
        ASSERT ok;;
        dst ← on_fs (filesys_open name junk);
        dst ← the dst;
        extract_data (S (Z.to_nat size)) dst size;;
        on_fs (file_close (Some dst));;
        mret true
      else mret true
  end.
Fixpoint extract_loop (fuel : nat) (junk : list Z) : K util unit :=
  match fuel with
  | O => no_fuel
  | S fuel' => more ← extract_entry junk; if (more : bool) then extract_loop fuel' junk else mret tt
  end.
(** What comes before the loop: the buffers, and the source. *)
Definition extract_begin : K util E :=
  buffer_or_panic;;
  buffer_or_panic;;
  src ← gets u_scratch;
  src ← the src;
  say "Extracting ustar archive from scratch device into file system..." [];;
  mret src.
(** Every step of the loop reads a sector, and a sector after the end is a panic. *)
Definition fsutil_extract (junk : list Z) : K util unit :=
  src ← extract_begin;
  extract_loop (S (Z.to_nat (bd_size src))) junk;;
  say "Erasing ustar archive..." [];;
  on_scratch (bd_write 0 (replicate 512 0));;
  on_scratch (bd_write 1 (replicate 512 0)).

(** ** fsutil_append *)

Fixpoint append_data (fuel : nat) (src size : Z) : K util unit :=
  match fuel with
  | O => no_fuel
  | S fuel' =>
      if 0 <? size
      then
        let chunk_size := if BLOCK_SECTOR_SIZE <? size then BLOCK_SECTOR_SIZE else size in
        sector ← gets append_sector;
        dst ← gets u_scratch;
        dst ← the dst;
        (if bd_size dst <=? sector then panic else mret tt);;
        buffer ← on_fs (file_read src chunk_size);
        ASSERT (len buffer =? chunk_size);;
        sector ← next_append;
        on_scratch (bd_write sector (buffer ++ replicate (Z.to_nat (BLOCK_SECTOR_SIZE - chunk_size)) 0));;
        append_data fuel' src (size - chunk_size)
      else mret tt
  end.
(** The marker of the end is written with a pointer to the second byte of the buffer:
    [past] is the byte of the memory after the buffer. *)
Definition fsutil_append (file_name junk : list Z) (past : Z) : K util unit :=
  say "Appending '%s' to ustar archive on scratch device..." [ArgStr (Some file_name)];;
  buffer_or_panic;;
  src ← on_fs (filesys_open file_name junk);
  src ← the src;
  size ← on_fs (file_length src);
  dst ← gets u_scratch;
  the dst;;
  r ← lift (ustar_make_header file_name USTAR_REGULAR size);
  output (fst r);;
  header ← the (snd r);
  sector ← next_append;
  on_scratch (bd_write sector header);;
  append_data (S (Z.to_nat size)) src size;;
  let buffer := replicate 512 0 in
  sector ← gets append_sector;
  on_scratch (bd_write sector buffer);;
  on_scratch (bd_write sector (drop 1 buffer ++ [past]));;
  on_fs (file_close (Some src)).
End Fsutil.
Arguments util : clear implicits.
