(* ===== verification/FsutilOk.v ===== *)
(** Extraction of ustar archives and appending to them (filesys/fsutil.c), over any file system
    state that stands for a state of the specification of files. *)

From stdpp Require Import gmap strings.
From S2P Require Import Prelude KMonad CString Bytes Bitmap Block Stdio StdioOk Ustar Filesys InodeOk FreeMapOk FsInv FsCreate FsOpen FsHandles FsDir FsWorld FsOps FsFiles FsRefine ProcessFs Fsutil.

(** ** Runs that return or panic *)

(** The computation returns with [Q], or panics, and then [P] holds. *)
Definition wp {S A} (m : K S A) (s : S) (Q : A -> S -> Prop) (P : Prop) : Prop :=
  match m s with Ok (a, s') => Q a s' | Panic => P | NoFuel => False end.
Section Wp.
Context {S : Type}.
Lemma wp_bind {A B} (m : K S A) (f : A -> K S B) s Q P : wp m s (fun a s' => wp (f a) s' Q P) P -> wp (m ≫= f) s Q P.
Proof. unfold wp, mbind, K_bind. by destruct (m s) as [[a s']| |]. Qed.
Lemma wp_ok {A} (m : K S A) s a s' (Q : A -> S -> Prop) P : m s = Ok (a, s') -> Q a s' -> wp m s Q P.
Proof. unfold wp. by intros ->. Qed.
Lemma wp_runs {A} (m : K S A) s (Q : A -> S -> Prop) P : runs m s Q -> wp m s Q P.
Proof. intros (a & s' & E & HQ). by eapply wp_ok. Qed.
Lemma wp_assert b s (Q : unit -> S -> Prop) (P : Prop) : (b = false -> P) -> (b = true -> Q tt s) -> wp (ASSERT b) s Q P.
Proof. destruct b; unfold wp; simpl; auto. Qed.
Lemma wp_mono {A} (m : K S A) s (Q Q' : A -> S -> Prop) (P P' : Prop) :
  wp m s Q P -> (forall a s', Q a s' -> Q' a s') -> (P -> P') -> wp m s Q' P'.
Proof. unfold wp. destruct (m s) as [[a s']| |]; auto. Qed.
End Wp.
Ltac wp_then := apply wp_bind.

(** ** Archives *)

Implicit Types (sec : Z -> list Z).

(** The bytes are in the sectors from [k] to [e - 1]. *)
Inductive data_at sec : Z -> list Z -> Z -> Prop :=
| da_nil k : data_at sec k [] k
| da_more k b bs e :
    0 < len b <= 512 -> (bs <> [] -> len b = 512) -> take (length b) (sec k) = b -> data_at sec (k + 1) bs e ->
    data_at sec k (b ++ bs) e.
Lemma data_at_le sec k bs e : data_at sec k bs e -> k <= e.
Proof. induction 1; lia. Qed.

(** The regular files [es] are archived in the sectors from [k] to [e - 1]. *)
Inductive archived sec : Z -> list (list Z * list Z) -> Z -> Prop :=
| en_nil k : archived sec k [] k
| en_directory k name es e :
    ustar_parse_header (sec k) = Ok (inr (Some name, USTAR_DIRECTORY, 0)) -> archived sec (k + 1) es e -> archived sec k es e
| en_file k name bs k' es e :
    ustar_parse_header (sec k) = Ok (inr (Some name, USTAR_REGULAR, len bs)) -> len bs < 2 ^ 31 - 512 ->
    data_at sec (k + 1) bs k' -> archived sec k' es e -> archived sec k ((name, bs) :: es) e.
(** After them is the marker of the end. *)
Definition archive sec (k : Z) (es : list (list Z * list Z)) (e : Z) : Prop :=
  archived sec k es e /\ ustar_parse_header (sec e) = Ok (inr (None, USTAR_EOF, 0)).
Lemma archived_le sec k es e : archived sec k es e -> k <= e.
Proof. induction 1 as [|k name es e _ _ IH|k name bs k' es e _ _ H _ IH]; [lia..|]. apply data_at_le in H. lia. Qed.
Lemma archived_app sec k es1 m es2 e : archived sec k es1 m -> archived sec m es2 e -> archived sec k (es1 ++ es2) e.
Proof. induction 1; intros; [done|by eapply en_directory; eauto|by eapply en_file; eauto]. Qed.
Lemma data_at_same sec sec' k bs e : (forall t, k <= t < e -> sec' t = sec t) -> data_at sec k bs e -> data_at sec' k bs e.
Proof.
  intros Hs H. revert Hs. induction H as [|k b bs e Hb Hm Ht H IH]; intros Hs; [constructor|]. pose proof (data_at_le _ _ _ _ H).
  constructor; [done|done|by rewrite Hs by lia|]. apply IH. intros t Ht'. apply Hs. lia.
Qed.
Lemma archived_same sec sec' k es e : (forall t, k <= t < e -> sec' t = sec t) -> archived sec k es e -> archived sec' k es e.
Proof.
  intros Hs H. revert Hs. induction H as [|k name es e Hh H IH|k name bs k' es e Hh Hl Hd H IH]; intros Hs; [constructor| |];
    pose proof (archived_le _ _ _ _ H).
  - eapply en_directory; [by rewrite Hs by lia|]. apply IH. intros t Ht. apply Hs. lia.
  - pose proof (data_at_le _ _ _ _ Hd). eapply en_file; [by rewrite Hs by lia|done| |].
    + eapply data_at_same; [|done]. intros t Ht. apply Hs. lia.
    + apply IH. intros t Ht. apply Hs. lia.
Qed.

(** The sectors that the bytes of a file take. *)
Definition sectors_for (size : Z) : Z := (size + 511) / 512.

Lemma sectors_for_more b r : 0 < b <= 512 -> 0 <= r -> (r <> 0 -> b = 512) -> sectors_for (b + r) = 1 + sectors_for r.
Proof.
  intros Hb Hr Hm. unfold sectors_for. destruct (Z.eq_dec r 0) as [->|Hne].
  - rewrite (Z.div_small (0 + 511)) by lia. symmetry. apply (Z.div_unique _ _ _ (b - 1)); lia.
  - rewrite (Hm Hne). replace (512 + r + 511) with (r + 511 + 1 * 512) by lia. rewrite Z.div_add by lia. lia.
Qed.
Lemma sectors_for_pos r : 0 <= r -> 0 <= sectors_for r.
Proof. intros. apply Z.div_pos; lia. Qed.

Lemma take_splice {A} (l d : list A) ofs : 0 <= ofs -> ofs + len d <= len l -> take (Z.to_nat (ofs + len d)) (splice l ofs d) = take (Z.to_nat ofs) l ++ d.
Proof.
  intros H0 Hl. unfold splice. rewrite app_assoc. apply take_app_length'. rewrite length_app, length_take. lia.
Qed.

Section Ok.
Context {D E : Type} `{!BlockDevice D, !BlockDevice E} (junk : list Z).
Hypothesis Hjunk : length junk = 20%nat.
Implicit Types (s : fs D) (w : world) (a : afs) (u : util D E).

(** ** States *)

(** The scratch device has [n] sectors with the given contents. *)
Record scratch sec (n : Z) (d : E) : Prop := {
  sc_ok : bd_ok d;
  sc_size : bd_size d = n;
  sc_sector t : 0 <= t < n -> bd_sector d t = sec t
}.
(** The file system stands for [a]; the archive is read at [x] and written at [p]. *)
Record stands w a sec (n x p : Z) u : Prop := {
  st_fs : refines w (u_fs u) a;
  st_scratch : exists d, u_scratch u = Some d /\ scratch sec n d;
  st_extract : extract_sector u = x;
  st_append : append_sector u = p
}.
Section Steps.
Context {w : world} {sec : Z -> list Z} {n x p : Z} {P : Prop}.

Lemma alloc_refines s a : refines w s a -> exists q s', alloc s = Ok (Some q, s') /\ refines w s' a.
Proof.
  intros (objs & tbl & I & A). destruct (alloc_ok s (mm_memory _ _ _ (fi_mem _ _ _ _ _ I))) as (q & s' & E1 & Q & _).
  exists q, s'. split; [done|]. destruct (inv_quiet w s s' objs [] tbl Q I) as [I' V]. exists objs, tbl. split; [done|]. by apply (abs_same w s).
Qed.
Lemma fs_step {A} (m : K (fs D) A) a a' u (Q : A -> util D E -> Prop) r s' :
  stands w a sec n x p u -> m (u_fs u) = Ok (r, s') -> refines w s' a' -> (forall u', stands w a' sec n x p u' -> Q r u') -> wp (on_fs m) u Q P.
Proof.
  intros [F S X Y] Em R HQ. unfold wp, on_fs. rewrite Em. apply HQ. by split.
Qed.
Lemma buffer_step a u (Q : unit -> util D E -> Prop) :
  stands w a sec n x p u -> (forall u', stands w a sec n x p u' -> Q tt u') -> wp buffer_or_panic u Q P.
Proof.
  intros G HQ. destruct (alloc_refines (u_fs u) a (st_fs _ _ _ _ _ _ _ G)) as (q & s' & E1 & R).
  unfold buffer_or_panic. wp_then. eapply fs_step; [done..|]. intros u' G'. by apply HQ.
Qed.
Lemma output_step a u text (Q : unit -> util D E -> Prop) :
  stands w a sec n x p u -> (forall u', u_fs u' = u_fs u -> stands w a sec n x p u' -> Q tt u') -> wp (output text) u Q P.
Proof. intros [F S X Y] HQ. apply HQ; [done|]. by split. Qed.
Lemma say_fs_step a u format args out (Q : unit -> util D E -> Prop) :
  vprintf (str format ++ [10]) args = Ok out -> stands w a sec n x p u ->
  (forall u', u_fs u' = u_fs u -> stands w a sec n x p u' -> Q tt u') -> wp (say format args) u Q P.
Proof. intros Ev G HQ. unfold say. wp_then. unfold lift, wp. rewrite Ev. by eapply output_step. Qed.
Lemma say_step a u format args out (Q : unit -> util D E -> Prop) :
  vprintf (str format ++ [10]) args = Ok out -> stands w a sec n x p u -> (forall u', stands w a sec n x p u' -> Q tt u') ->
  wp (say format args) u Q P.
Proof. intros Ev G HQ. eapply say_fs_step; [done..|]. auto. Qed.
Lemma next_fs_step a u (Q : Z -> util D E -> Prop) :
  stands w a sec n x p u -> 0 <= x < 2 ^ 32 - 1 -> (forall u', u_fs u' = u_fs u -> stands w a sec n (x + 1) p u' -> Q x u') ->
  wp next_extract u Q P.
Proof.
  intros [F S X Y] Hx HQ. unfold wp, next_extract. rewrite X. apply HQ; [done|]. split; try done. simpl. apply wrapu_small. lia.
Qed.
Lemma next_step a u (Q : Z -> util D E -> Prop) :
  stands w a sec n x p u -> 0 <= x < 2 ^ 32 - 1 -> (forall u', stands w a sec n (x + 1) p u' -> Q x u') -> wp next_extract u Q P.
Proof. intros G Hx HQ. eapply next_fs_step; [done..|]. auto. Qed.
Lemma read_fs_step a u k (Q : list Z -> util D E -> Prop) :
  stands w a sec n x p u -> 0 <= k < n -> (forall u', u_fs u' = u_fs u -> stands w a sec n x p u' -> Q (sec k) u') ->
  wp (on_scratch (bd_read k)) u Q P.
Proof.
  intros [F (d & Hd & [C1 C2 C3]) X Y] Hk HQ. unfold wp, on_scratch. rewrite Hd.
  destruct (bd_read_ok d k C1) as (d' & -> & O & Sz & Ss); [lia|]. rewrite C3 by lia. apply HQ; [done|]. split; try done.
  exists d'. split; [done|]. split; [done|congruence|]. intros t Ht. by rewrite Ss, C3 by lia.
Qed.
Lemma read_step a u k (Q : list Z -> util D E -> Prop) :
  stands w a sec n x p u -> 0 <= k < n -> (forall u', stands w a sec n x p u' -> Q (sec k) u') -> wp (on_scratch (bd_read k)) u Q P.
Proof. intros G Hk HQ. eapply read_fs_step; [done..|]. auto. Qed.
Lemma stands_size a u : stands w a sec n x p u -> 0 <= n < 2 ^ 32.
Proof. intros [_ (d & _ & [C1 <- _]) _ _]. by apply bd_size_range. Qed.
End Steps.
Lemma write_step {w sec n x p P} a u k data (Q : unit -> util D E -> Prop) :
  stands w a sec n x p u -> 0 <= k < n -> length data = 512%nat ->
  (forall u', stands w a (fun t => if t =? k then data else sec t) n x p u' -> Q tt u') -> wp (on_scratch (bd_write k data)) u Q P.
Proof.
  intros [F (d & Hd & [C1 C2 C3]) X Y] Hk Hl HQ. unfold wp, on_scratch. rewrite Hd.
  destruct (bd_write_ok d k data C1) as (d' & -> & O & Sz & Ss); [lia|done|]. apply HQ. split; try done.
  exists d'. split; [done|]. split; [done|congruence|]. intros t Ht. rewrite Ss by lia. destruct (t =? k); [done|]. apply C3. lia.
Qed.

(** ** Files in the specification *)

(** A new file [id] that is open as [fd] at a position. *)
Definition writing a (id fd : Z) (cs : list Z) (pos : Z) : afs :=
  mkAfs (a_names a) (<[id := cs]> (a_bytes a)) (<[fd := mkAfile id pos false]> (a_files a)).
(** A file is new with a name and contents. *)
Definition stored a (name bs : list Z) a' : Prop := exists id,
  a_names a !! name = None /\ a_bytes a !! id = None /\
  a' = mkAfs (<[name := id]> (a_names a)) (<[id := bs]> (a_bytes a)) (a_files a).

Lemma no_users w s a id : refines w s a -> a_bytes a !! id = None -> forall fd y, a_files a !! fd = Some y -> af_id y <> id.
Proof.
  intros R Hb fd y Hy <-. destruct (object_bytes w s a (af_id y) R (open_alive a fd y Hy)) as (bs & Hbs & _). congruence.
Qed.
Lemma collect_alive a : (forall id bs, a_bytes a !! id = Some bs -> alive a id) -> collect a = a.
Proof.
  intros H. destruct a as [N B F]. unfold collect. simpl in *. f_equal. apply map_filter_id. simpl. intros i bs Hi. by apply (H i bs).
Qed.
Lemma collect_writing w s a name id fd cs pos :
  refines w s (writing a id fd cs pos) -> a_names a !! name = Some id -> a_files a !! fd = None ->
  collect (mkAfs (a_names a) (<[id := cs]> (a_bytes a)) (delete fd (<[fd := mkAfile id pos false]> (a_files a)))) =
    mkAfs (a_names a) (<[id := cs]> (a_bytes a)) (a_files a).
Proof.
  intros (objs & tbl & I & A) Hn Hfd. rewrite delete_insert_id by done. apply collect_alive. intros i bs Hi.
  destruct (bytes_alive w s objs tbl _ i bs A Hi) as [Ha|(q & y & Hq & Hy)]; [by left|].
  simpl in Hq. apply lookup_insert_Some in Hq as [[<- <-]|[_ Hq]]; [left; exists name, id; by rewrite <- Hy|right; by exists q, y].
Qed.

Section FileSteps.
Context {w : world} {sec : Z -> list Z} {n x p : Z} {P : Prop}.
Lemma op_step a u o (m : K (fs D) reply) (Q : reply -> util D E -> Prop) :
  m = exec junk o -> stands w a sec n x p u -> op_ok a o ->
  (forall r a' u', exec junk o (u_fs u) = Ok (r, u_fs u') -> astep (full_for w (u_fs u) o) a o r a' -> stands w a' sec n x p u' -> Q r u') ->
  wp (on_fs m) u Q P.
Proof.
  intros -> G Ho HQ. destruct (op_refines w (u_fs u) a o junk (st_fs _ _ _ _ _ _ _ G) Ho Hjunk) as (r & s' & a' & E1 & St & R).
  destruct G as [F S X Y]. unfold wp, on_fs. rewrite E1. by apply (HQ r a').
Qed.
(** The part of [exec] that the code calls. *)
Lemma reply_step {A} (m : K (fs D) A) (f : A -> reply) u (Q : A -> util D E -> Prop) :
  wp (on_fs (r ← m; mret (f r))) u (fun r u' => forall v, r = f v -> Q v u') P -> wp (on_fs m) u Q P.
Proof. unfold wp, on_fs, mbind, K_bind. destruct (m (u_fs u)) as [[v s']| |]; [|done..]. simpl. intros H. by apply H. Qed.

Lemma create_step a u name size (Q : bool -> util D E -> Prop) :
  stands w a sec n x p u -> Forall (fun c => c <> 0) name -> 0 <= size < 2 ^ 31 - 512 ->
  (forall u' id, a_names a !! name = None -> a_bytes a !! id = None -> name_ok name ->
     stands w (mkAfs (<[name := id]> (a_names a)) (<[id := replicate (Z.to_nat size) 0]> (a_bytes a)) (a_files a)) sec n x p u' -> Q true u') ->
  (forall u', filesys_create name size junk (u_fs u) = Ok (false, u_fs u') ->
     ~ name_ok name \/ is_Some (a_names a !! name) \/ full_for w (u_fs u) (Create name size) -> stands w a sec n x p u' -> Q false u') ->
  wp (on_fs (filesys_create name size junk)) u Q P.
Proof.
  intros G Hn Hs HT HF. apply (reply_step _ RBool). eapply (op_step a u (Create name size)); [done..|].
  intros r a' u' Ex St G' v ->. inversion St; subst; [eauto|]. apply HF; [|done..].
  simpl in Ex. apply bind_inv in Ex as (b & s1 & Ex & Er). injection Er as -> ->. exact Ex.
Qed.
Lemma open_step a u name (Q : option Z -> util D E -> Prop) :
  stands w a sec n x p u -> Forall (fun c => c <> 0) name ->
  (forall u' id fd, a_names a !! name = Some id -> a_files a !! fd = None ->
     stands w (set_afile a fd (mkAfile id 0 false)) sec n x p u' -> Q (Some fd) u') ->
  (forall u', a_names a !! name = None -> stands w a sec n x p u' -> Q None u') ->
  wp (on_fs (filesys_open name junk)) u Q P.
Proof.
  intros G Hn HT HF. apply (reply_step _ RFile). eapply (op_step a u (Open name)); [done..|].
  intros r a' u' _ St G' v ->. inversion St; subst; eauto.
Qed.
Lemma file_write_step a u fd id cs pos data k (Q : Z -> util D E -> Prop) :
  stands w (writing a id fd cs pos) sec n x p u -> (forall q y, a_files a !! q = Some y -> af_id y <> id) ->
  0 <= pos -> 0 <= k <= len data -> pos + k <= len cs ->
  (forall u', stands w (writing a id fd (splice cs pos (slice data 0 k)) (pos + k)) sec n x p u' -> Q k u') ->
  wp (on_fs (file_write fd data k)) u Q P.
Proof.
  intros G Hu Hp Hk Hl HQ. apply (reply_step _ RNum).
  assert (Hfd : a_files (writing a id fd cs pos) !! fd = Some (mkAfile id pos false)) by apply lookup_insert_eq.
  assert (Hpr : ~ a_protected (writing a id fd cs pos) id).
  { intros (q & y & Hq & Hy & Hd). simpl in Hq. apply lookup_insert_Some in Hq as [[<- <-]|[_ Hq]]; [done|]. by eapply Hu. }
  eapply (op_step _ u (Write fd data k)); [done..|split; [by eexists|lia]|]. intros r a' u' _ St G' v ->.
  inversion St as [| | | | | | | | |fd' y bs buf m k' Hy Hb Hn' Ek|fd' y buf m Hy Hpy| | | | |]; subst;
    [|assert (y = mkAfile id pos false) as -> by congruence; done].
  assert (y = mkAfile id pos false) as -> by congruence. simpl in *. rewrite lookup_insert_eq in Hb. injection Hb as <-.
  rewrite Z.min_l, Z.max_r in G' |- * by lia. apply HQ. unfold writing. by rewrite !insert_insert_eq in G'.
Qed.
End FileSteps.
(** The files that are new in a file system, one after the other. *)
Inductive installed a : list (list Z * list Z) -> afs -> Prop :=
| in_nil : installed a [] a
| in_cons name bs a1 es a2 : stored a name bs a1 -> installed a1 es a2 -> installed a ((name, bs) :: es) a2.
(** Why [filesys_create] may refuse a file. *)
Definition refusal w s a (name : list Z) (size : Z) : Prop :=
  (exists s', filesys_create name size junk s = Ok (false, s')) /\
  (~ name_ok name \/ is_Some (a_names a !! name) \/ full_for w s (Create name size)).
(** The loop gets from [u] through the entries of some files, which are then installed, to the
    entry of a file that [filesys_create] refuses in the file system as it is then. *)
Definition entry_done u u' : Prop := extract_entry junk u = Ok (true, u').
Definition refused w u a (es : list (list Z * list Z)) : Prop := exists es1 name bs es2 a1 u1,
  es = es1 ++ (name, bs) :: es2 /\ rtc entry_done u u1 /\ installed a es1 a1 /\ refines w (u_fs u1) a1 /\
  refusal w (u_fs u1) a1 name (len bs).
Lemma refused_later w u u1 a name bs a1 es :
  entry_done u u1 -> stored a name bs a1 -> refused w u1 a1 es -> refused w u a ((name, bs) :: es).
Proof.
  intros Hu Hs (es1 & nm & cs & es2 & a2 & u2 & -> & Hr & Hi & R & H). exists ((name, bs) :: es1), nm, cs, es2, a2, u2.
  split; [done|]. split; [by eapply rtc_l|]. split; [by econstructor|done].
Qed.
Lemma refused_after w u u1 a es : entry_done u u1 -> refused w u1 a es -> refused w u a es.
Proof.
  intros Hu (es1 & nm & cs & es2 & a2 & u2 & -> & Hr & H). exists es1, nm, cs, es2, a2, u2. split; [done|]. split; [by eapply rtc_l|done].
Qed.

Lemma extract_data_ok {w sec n p} {P : Prop} fuel a fd id bs k e cs pos u (Q : unit -> util D E -> Prop) :
  data_at sec k bs e -> 0 <= k -> e <= n -> (length bs < fuel)%nat -> (forall t, 0 <= t < n -> length (sec t) = 512%nat) ->
  stands w (writing a id fd cs pos) sec n k p u -> (forall q y, a_files a !! q = Some y -> af_id y <> id) ->
  0 <= pos -> pos + len bs = len cs ->
  (forall u', stands w (writing a id fd (take (Z.to_nat pos) cs ++ bs) (len cs)) sec n e p u' -> Q tt u') ->
  wp (extract_data fuel fd (len bs)) u Q P.
Proof.
  intros H. revert fuel cs pos u. induction H as [k|k b bs e Hb Hm Ht Hd IH]; intros fuel cs pos u Hk He Hf Hlen G Hu Hp Hl HQ.
  - destruct fuel as [|fuel]; [simpl in Hf; lia|]. simpl in Hl. rewrite Z.add_0_r in Hl. subst pos. simpl. apply wp_runs, runs_ret, HQ.
    rewrite Nat2Z.id, take_ge, app_nil_r by lia. done.
  - pose proof (data_at_le _ _ _ _ Hd) as Hle. pose proof (stands_size _ _ G) as Hn. rewrite length_app in *.
    destruct fuel as [|fuel]; [lia|]. cbn [extract_data]. rewrite (proj2 (Z.ltb_lt 0 _)) by lia. cbv zeta.
    assert (Hc : (if BLOCK_SECTOR_SIZE <? Z.of_nat (length b + length bs) then BLOCK_SECTOR_SIZE else Z.of_nat (length b + length bs)) = len b).
    { unfold BLOCK_SECTOR_SIZE. destruct bs as [|c bs]; [simpl; case_cmp; lia|]. pose proof (Hm ltac:(done)). simpl. case_cmp; lia. }
    rewrite Hc. wp_then. eapply next_step; [done|lia|]. intros u1 G1. wp_then. eapply read_step; [done|lia|]. intros u2 G2. wp_then.
    eapply file_write_step; [done|done|done|rewrite Hlen; lia|lia|]. intros u3 G3. wp_then. rewrite Z.eqb_refl. apply wp_assert; [done|]. intros _.
    assert (Hs : slice (sec k) 0 (len b) = b) by (unfold slice; rewrite drop_0, Nat2Z.id; done). rewrite Hs in G3.
    replace (Z.of_nat (length b + length bs) - len b) with (len bs) by lia.
    assert (Hsl : length (splice cs pos b) = length cs) by (apply splice_length; lia).
    eapply IH; [lia|lia|lia|done|done|done|lia|rewrite Hsl; lia|]. intros u' G'. apply HQ.
    rewrite take_splice in G' by lia. rewrite <- app_assoc in G'. by rewrite Hsl in G'.
Qed.

(** One file of the archive. *)
Lemma install_ok {B} {w sec n p} {P : Prop} a name bs k e u (Q : B -> util D E -> Prop) (rest : K (util D E) B) :
  stands w a sec n k p u -> Forall (fun c => c <> 0) name -> len bs < 2 ^ 31 - 512 ->
  data_at sec k bs e -> 0 <= k -> e <= n -> (forall t, 0 <= t < n -> length (sec t) = 512%nat) ->
  (refusal w (u_fs u) a name (len bs) -> P) ->
  (forall a' u', stored a name bs a' -> stands w a' sec n e p u' -> wp rest u' Q P) ->
  wp (ok ← on_fs (filesys_create name (len bs) junk); ASSERT ok;; dst ← on_fs (filesys_open name junk); dst ← the dst;
      extract_data (S (Z.to_nat (len bs))) dst (len bs);; on_fs (file_close (Some dst));; rest) u Q P.
Proof.
  intros G Hn Hl Hd Hk He Hlen HP HQ. wp_then. eapply create_step; [done|done|lia| |].
  2: { intros u' Ec Hr G'. wp_then. apply wp_assert; [|done]. intros _. apply HP. split; [eauto|done]. }
  intros u1 id Hnone Hid Hok G1. set (a1 := mkAfs _ _ _) in G1. wp_then. apply wp_assert; [done|intros _].
  wp_then. eapply open_step; [done|done| |].
  2: { intros u' Hf _. simpl in Hf. by rewrite lookup_insert_eq in Hf. }
  intros u2 id' fd Hname Hfd G2. simpl in Hname. rewrite lookup_insert_eq in Hname. injection Hname as <-. wp_then. apply wp_runs, runs_ret.
  set (zs := replicate (Z.to_nat (len bs)) 0) in *.
  assert (G2' : stands w (writing a1 id fd zs 0) sec n k p u2).
  { unfold writing. simpl. by rewrite insert_insert_eq. }
  assert (Hus : forall q y, a_files a1 !! q = Some y -> af_id y <> id).
  { intros q y Hq. eapply no_users; [apply G|done|exact Hq]. }
  assert (Hz : len zs = len bs) by (unfold zs; rewrite length_replicate; lia).
  wp_then. eapply extract_data_ok; [done|done|done|lia|done|exact G2'|done|lia|lia|]. intros u3 G3. rewrite take_0, Hz in G3. cbn [app] in G3.
  wp_then. apply (reply_step _ (fun _ => RUnit)).
  eapply (op_step _ u3 (Close fd)); [done|exact G3|eexists; apply lookup_insert_eq|]. intros r a' u' _ St G' [] _.
  inversion St as [| | | | | | |fd' y Hy| | | | | | | |]; subst. simpl in G', Hy.
  pose proof (collect_writing w (u_fs u3) a1 name id fd bs (len bs) (st_fs _ _ _ _ _ _ _ G3) (lookup_insert_eq _ _ _) Hfd) as Hcw.
  simpl in Hcw. rewrite Hcw in G'.
  eapply HQ; [|exact G']. exists id. split; [done|]. split; [done|]. simpl. by rewrite insert_insert_eq.
Qed.

(** ** Extraction *)

Lemma say_putting name : exists out, vprintf (str "Putting '%s' into the file system..." ++ [10]) [ArgStr (Some name)] = Ok out.
Proof. eexists. reflexivity. Qed.
Lemma say_ignoring name : exists out, vprintf (str "ignoring directory %s" ++ [10]) [ArgStr (Some name)] = Ok out.
Proof. eexists. reflexivity. Qed.
Lemma say_appending name :
  exists out, vprintf (str "Appending '%s' to ustar archive on scratch device..." ++ [10]) [ArgStr (Some name)] = Ok out.
Proof. eexists. reflexivity. Qed.

(** The entry of a directory, and that of a file. *)
Lemma entry_directory {w sec n p} a k name u :
  ustar_parse_header (sec k) = Ok (inr (Some name, USTAR_DIRECTORY, 0)) -> 0 <= k < n -> stands w a sec n k p u ->
  wp (extract_entry junk) u (fun more u' => more = true /\ stands w a sec n (k + 1) p u') False.
Proof.
  intros Hh Hk G. pose proof (stands_size _ _ G) as Hn. unfold extract_entry.
  wp_then. eapply next_step; [done|lia|]. intros u1 G1. wp_then. eapply read_step; [done|lia|]. intros u2 G2.
  wp_then. eapply wp_ok; [unfold lift; rewrite Hh; reflexivity|]. cbn [Z.eqb USTAR_DIRECTORY USTAR_EOF Pos.eqb].
  destruct (say_ignoring name) as [out Eo]. wp_then. eapply say_step; [done|done|]. intros u3 G3. by apply wp_runs, runs_ret.
Qed.
Lemma entry_file {w sec n p} a k e name bs u :
  ustar_parse_header (sec k) = Ok (inr (Some name, USTAR_REGULAR, len bs)) -> len bs < 2 ^ 31 - 512 ->
  data_at sec (k + 1) bs e -> 0 <= k < n -> e <= n -> (forall t, 0 <= t < n -> length (sec t) = 512%nat) -> stands w a sec n k p u ->
  wp (extract_entry junk) u (fun more u' => more = true /\ exists a', stored a name bs a' /\ stands w a' sec n e p u')
    (refusal w (u_fs u) a name (len bs)).
Proof.
  intros Hh Hb Hd Hk He Hlen G. pose proof (stands_size _ _ G) as Hn. destruct (parsed_name _ _ _ _ Hh) as [_ Hz]. unfold extract_entry.
  wp_then. eapply next_fs_step; [done|lia|]. intros u1 F1 G1. wp_then. eapply read_fs_step; [done|lia|]. intros u2 F2 G2.
  wp_then. eapply wp_ok; [unfold lift; rewrite Hh; reflexivity|]. cbn [Z.eqb USTAR_REGULAR USTAR_DIRECTORY USTAR_EOF Pos.eqb].
  destruct (say_putting name) as [out Eo]. wp_then. eapply say_fs_step; [done|done|]. intros u3 F3 G3. wp_then. apply wp_runs, runs_ret.
  rewrite <- F1, <- F2, <- F3. eapply install_ok; [done|done|lia|done|lia|lia|done|done|].
  intros a' u' Hs G'. apply wp_runs, runs_ret. eauto.
Qed.
(** A pass of the loop. *)
Lemma pass_ok {P : Prop} fuel u (R : util D E -> Prop) (P1 : Prop) (Q : unit -> util D E -> Prop) :
  wp (extract_entry junk) u (fun more u' => more = true /\ R u') P1 -> (P1 -> P) ->
  (forall u', entry_done u u' -> R u' -> wp (extract_loop fuel junk) u' Q P) -> wp (extract_loop (S fuel) junk) u Q P.
Proof.
  intros H HP HQ. cbn [extract_loop]. wp_then. unfold wp in H |- *. unfold entry_done in HQ.
  destruct (extract_entry junk u) as [[more u']| |] eqn:Ee; [|auto|done]. destruct H as [-> H]. by apply HQ.
Qed.

Lemma extract_archived {w sec n p} {P : Prop} fuel a es k e u (Q : unit -> util D E -> Prop) :
  archived sec k es e -> 0 <= k -> e < n -> (Z.to_nat (n - k) < fuel)%nat -> (forall t, 0 <= t < n -> length (sec t) = 512%nat) ->
  stands w a sec n k p u -> (refused w u a es -> P) ->
  (forall fuel' a' u', (Z.to_nat (n - e) < fuel')%nat -> installed a es a' -> stands w a' sec n e p u' -> wp (extract_loop fuel' junk) u' Q P) ->
  wp (extract_loop fuel junk) u Q P.
Proof.
  intros H. revert fuel a u. induction H as [k|k name es e Hh Ha IH|k name bs k' es e Hh Hb Hd Ha IH];
    intros fuel a u Hk He Hf Hlen G HP HQ; [eapply HQ; [done|constructor|done]|..]; (destruct fuel as [|fuel]; [lia|]);
    pose proof (archived_le _ _ _ _ Ha).
  - eapply pass_ok; [eapply (entry_directory (n := n)); [done|lia|done]|done|]. intros u' Hu G'. eapply IH; [lia..|done|exact G'| |done].
    intros Hr. by eapply HP, refused_after.
  - pose proof (data_at_le _ _ _ _ Hd). eapply pass_ok; [eapply (entry_file (n := n)); [done|lia|done|lia|lia|done|done]| |].
    + intros Hr. apply HP. exists [], name, bs, es, a, u. split_and!; [done|done|constructor|apply G|done].
    + intros u' Hu (a' & Hs & G'). eapply IH; [lia..|done|exact G'| |].
      * intros Hr. by eapply HP, refused_later.
      * intros fuel' a2 u4 Hf' Hi G4. eapply HQ; [done| |done]. by econstructor.
Qed.
(** The sector after the files: the end, or no header. *)
Lemma extract_end {w sec n p} {P : Prop} fuel a e u (Q : unit -> util D E -> Prop) :
  0 <= e < n -> (0 < fuel)%nat -> stands w a sec n e p u ->
  match ustar_parse_header (sec e) with
  | Ok (inr (None, type, _)) => type = USTAR_EOF /\ forall u', stands w a sec n (e + 1) p u' -> Q tt u'
  | Ok (inl _) => P
  | _ => False
  end -> wp (extract_loop fuel junk) u Q P.
Proof.
  intros He Hf G HQ. destruct fuel as [|fuel]; [lia|]. cbn [extract_loop]. pose proof (stands_size _ _ G) as Hn. unfold extract_entry.
  wp_then. wp_then. eapply next_step; [done|lia|]. intros u1 G1. wp_then. eapply read_step; [done|lia|]. intros u2 G2.
  destruct (ustar_parse_header (sec e)) as [[msg|[[[name|] type] size]]| |] eqn:Eh; [..|done|done]; [|done|].
  - wp_then. eapply wp_ok; [reflexivity|]. exact HQ.
  - destruct HQ as [-> HQ]. wp_then. eapply wp_ok; [reflexivity|]. apply wp_runs, runs_ret. apply wp_runs, runs_ret. by apply HQ.
Qed.

(** The archive is read from where the last extraction stopped; its first two sectors are
    erased. *)
Definition erased sec (t : Z) : list Z := if t =? 1 then replicate 512 0 else if t =? 0 then replicate 512 0 else sec t.
Lemma begin_ok {w sec n x p} {P : Prop} a u :
  stands w a sec n x p u -> wp extract_begin u (fun src u' => bd_size src = n /\ stands w a sec n x p u') P.
Proof.
  intros G. unfold extract_begin. wp_then. eapply buffer_step; [done|]. clear u G. intros u G.
  wp_then. eapply buffer_step; [done|]. clear u G. intros u G. pose proof (st_scratch _ _ _ _ _ _ _ G) as (d & Hd & C).
  wp_then. eapply wp_ok; [reflexivity|]. rewrite Hd. wp_then. apply wp_runs, runs_ret.
  wp_then. eapply say_step; [reflexivity|done|]. intros u1 G1. apply wp_runs, runs_ret. split; [apply C|done].
Qed.
(** The extraction has begun, and comes to a file that is refused. *)
Definition refused_after_begin w u a es : Prop := exists src u0, extract_begin u = Ok (src, u0) /\ refused w u0 a es.
Lemma extract_run {w sec n x p} {P : Prop} a es e u (Q : unit -> util D E -> Prop) :
  archived sec x es e -> 0 <= x -> e < n -> 2 <= n -> (forall t, 0 <= t < n -> length (sec t) = 512%nat) -> stands w a sec n x p u ->
  (refused_after_begin w u a es -> P) ->
  (forall a' u', installed a es a' ->
     match ustar_parse_header (sec e) with
     | Ok (inr (None, type, _)) => type = USTAR_EOF /\ (stands w a' (erased sec) n (e + 1) p u' -> Q tt u')
     | Ok (inl _) => P
     | _ => False
     end) ->
  wp (fsutil_extract junk) u Q P.
Proof.
  intros Ha Hx He Hn Hlen G HP HQ. unfold fsutil_extract. wp_then. pose proof (begin_ok (P := False) a u G) as Hb. unfold wp in Hb |- *.
  destruct (extract_begin u) as [[src u1]| |] eqn:Eb; [|done..]. destruct Hb as [Hsz G1]. change (wp (extract_loop (S (Z.to_nat (bd_size src))) junk;;
    say "Erasing ustar archive..." [];; on_scratch (bd_write 0 (replicate 512 0));; on_scratch (bd_write 1 (replicate 512 0))) u1 Q P).
  rewrite Hsz. pose proof (archived_le _ _ _ _ Ha).
  wp_then. eapply (extract_archived _ a es x e); [done|done|done|lia|done|exact G1| |].
  { intros Hr. apply HP. by exists src, u1. }
  intros fuel' a' u2 Hf Hi G2. eapply extract_end; [| |exact G2|]; [lia|lia|]. pose proof (fun u' => HQ a' u' Hi) as HQ'.
  destruct (ustar_parse_header (sec e)) as [[msg|[[[name|] type] size]]| |]; try by apply (HQ' u2).
  split; [apply (HQ' u2)|]. intros u3 G3. wp_then. eapply say_step; [reflexivity|done|]. intros u4 G4.
  wp_then. eapply write_step; [done|lia|done|]. intros u5 G5. eapply write_step; [done|lia|done|]. intros u6 G6.
  apply (HQ' u6). exact G6.
Qed.
Lemma extract_done {w sec n x p} a es e u :
  archive sec x es e -> 0 <= x -> e < n -> 2 <= n -> (forall t, 0 <= t < n -> length (sec t) = 512%nat) -> stands w a sec n x p u ->
  wp (fsutil_extract junk) u (fun _ u' => exists a', installed a es a' /\ stands w a' (erased sec) n (e + 1) p u') (refused_after_begin w u a es).
Proof.
  intros [Ha Hend] Hx He Hn Hlen G. eapply extract_run; [done..|exact G|done|]. intros a' u' Hi. rewrite Hend. split; [done|]. eauto.
Qed.
Lemma extract_broken {w sec n x p} a es e u msg :
  archived sec x es e -> ustar_parse_header (sec e) = Ok (inl msg) -> 0 <= x -> e < n -> 2 <= n ->
  (forall t, 0 <= t < n -> length (sec t) = 512%nat) -> stands w a sec n x p u -> fsutil_extract junk u = Panic.
Proof.
  intros Ha Hend Hx He Hn Hlen G. assert (H : wp (fsutil_extract junk) u (fun _ _ => False) True).
  { eapply extract_run; [done..|exact G|done|]. intros a' u' Hi. by rewrite Hend. }
  unfold wp in H. by destruct (fsutil_extract junk u) as [[]| |].
Qed.
(** ** Appending *)

(** A file that is open for reading. *)
Definition reading a (id fd pos : Z) : afs := set_afile a fd (mkAfile id pos false).
Section ReadSteps.
Context {w : world} {sec : Z -> list Z} {n x p : Z} {P : Prop}.
Lemma file_read_step a u fd id cs pos k (Q : list Z -> util D E -> Prop) :
  stands w (reading a id fd pos) sec n x p u -> a_bytes a !! id = Some cs -> 0 <= pos -> 0 <= k -> pos + k <= len cs ->
  (forall u', stands w (reading a id fd (pos + k)) sec n x p u' -> Q (slice cs pos k) u') -> wp (on_fs (file_read fd k)) u Q P.
Proof.
  intros G Hb Hp Hk Hl HQ. apply (reply_step _ RBytes).
  assert (Hfd : a_files (reading a id fd pos) !! fd = Some (mkAfile id pos false)) by apply lookup_insert_eq.
  eapply (op_step _ u (Read fd k)); [done..|by eexists|]. intros r a' u' _ St G' v ->.
  inversion St as [| | | | | | | |fd' y bs out m Hy Hb' Eo| | | | | | |]; subst.
  assert (y = mkAfile id pos false) as -> by congruence. simpl in *. assert (bs = cs) as -> by congruence.
  rewrite Z.min_l in G' |- * by lia. apply HQ. rewrite slice_length in G' by lia. unfold reading. unfold set_afile in G' |- *. simpl in G' |- *.
  by rewrite insert_insert_eq in G'.
Qed.
Lemma next_append_step a u (Q : Z -> util D E -> Prop) :
  stands w a sec n x p u -> (forall u', stands w a sec n x (u32 (p + 1)) u' -> Q p u') -> wp next_append u Q P.
Proof. intros [F S X Y] HQ. unfold wp, next_append. rewrite Y. apply HQ. by split. Qed.
End ReadSteps.

(** What appending changes on the scratch device. *)
Record appended sec (k e n : Z) sec' : Prop := {
  ap_before t : t < k \/ e <= t -> sec' t = sec t;
  ap_length t : k <= t < e -> length (sec' t) = 512%nat
}.
Lemma append_data_ok {w n x} {P : Prop} fuel a fd id cs pos sec k u (Q : unit -> util D E -> Prop) :
  (Z.to_nat (len cs - pos) < fuel)%nat -> 0 <= k -> stands w (reading a id fd pos) sec n x k u ->
  a_bytes a !! id = Some cs -> 0 <= pos <= len cs -> let e := k + sectors_for (len cs - pos) in
  (n < e -> P) ->
  (forall sec' u', data_at sec' k (drop (Z.to_nat pos) cs) e -> appended sec k e n sec' -> e <= n \/ e = k ->
     stands w (reading a id fd (len cs)) sec' n x e u' -> Q tt u') ->
  wp (append_data fuel fd (len cs - pos)) u Q P.
Proof.
  revert pos sec k u. induction fuel as [|fuel IH]; intros pos sec k u Hf Hk G Hb Hp e HP HQ; [lia|]. cbn [append_data].
  destruct (Z.ltb_spec 0 (len cs - pos)) as [Hr|Hr].
  2: { assert (len cs - pos = 0) as H0 by lia. assert (Ee : e = k) by (unfold e; rewrite H0; change (sectors_for 0) with 0; lia).
       apply wp_runs, runs_ret, (HQ sec); rewrite ?Ee; [|split; [done|lia]|by right|].
       - rewrite drop_ge by lia. constructor.
       - by replace (len cs) with pos by lia. }
  cbv zeta. set (c := if BLOCK_SECTOR_SIZE <? len cs - pos then BLOCK_SECTOR_SIZE else len cs - pos).
  assert (Hc : 0 < c <= 512 /\ c <= len cs - pos /\ (len cs - pos - c <> 0 -> c = 512)).
  { unfold c, BLOCK_SECTOR_SIZE. case_cmp; lia. }
  destruct Hc as (Hc & Hc1 & Hc2). pose proof (stands_size _ _ G) as Hn.
  assert (He : e = k + 1 + sectors_for (len cs - (pos + c))).
  { unfold e. replace (len cs - pos) with (c + (len cs - (pos + c))) by lia. rewrite sectors_for_more; lia. }
  pose proof (sectors_for_pos (len cs - (pos + c)) ltac:(lia)) as Hse.
  pose proof (st_scratch _ _ _ _ _ _ _ G) as (d & Hd & C). pose proof (st_append _ _ _ _ _ _ _ G) as Hap.
  wp_then. eapply wp_ok; [reflexivity|]. wp_then. eapply wp_ok; [reflexivity|]. rewrite Hd, Hap. wp_then. apply wp_runs, runs_ret.
  rewrite (sc_size _ _ _ C). wp_then. destruct (Z.leb_spec n k) as [Hfull|Hroom]; [unfold wp; simpl; apply HP; lia|]. apply wp_runs, runs_ret.
  wp_then. eapply file_read_step; [done|done|lia|lia|lia|]. intros u1 G1. assert (Hsl : len (slice cs pos c) = c) by (apply slice_length; lia).
  wp_then. rewrite Hsl, Z.eqb_refl. apply wp_assert; [done|intros _]. wp_then. eapply next_append_step; [done|]. intros u2 G2. rewrite wrapu_small in G2 by lia.
  set (b := slice cs pos c) in *. set (data := b ++ replicate (Z.to_nat (BLOCK_SECTOR_SIZE - c)) 0).
  assert (Hdl : length data = 512%nat) by (unfold data, BLOCK_SECTOR_SIZE; rewrite length_app, length_replicate; lia).
  wp_then. eapply write_step; [done|lia|done|]. intros u3 G3. replace (len cs - pos - c) with (len cs - (pos + c)) by lia.
  set (sec1 := fun t => if t =? k then data else sec t) in G3.
  assert (Hsplit : drop (Z.to_nat pos) cs = b ++ drop (Z.to_nat (pos + c)) cs).
  { unfold b, slice. rewrite Z2Nat.inj_add, <- drop_drop by lia. by rewrite take_drop. }
  eapply IH; [| |exact G3|done|lia|..]; [lia|lia|intros; apply HP; lia|]. rewrite <- He.
  intros sec' u' Hda [A1 A2] Hen G'. apply (HQ sec'); [|split| |done].
  - rewrite Hsplit. constructor; [lia| | |done].
    + intros Hne. rewrite Hsl. apply Hc2. intros H0. apply Hne, drop_ge. lia.
    + rewrite (A1 k) by lia. unfold sec1. rewrite Z.eqb_refl. unfold data. by rewrite take_app_length.
  - intros t Ht. rewrite A1 by lia. unfold sec1. by rewrite (proj2 (Z.eqb_neq t k)) by lia.
  - intros t Ht. destruct (Z.eq_dec t k) as [->|Hne]; [|apply A2; lia]. rewrite A1 by lia. unfold sec1. by rewrite Z.eqb_refl.
  - left. destruct Hen; lia.
Qed.

Lemma write_past_step {w sec n x p} {P : Prop} a u k data (Q : unit -> util D E -> Prop) :
  stands w a sec n x p u -> n <= k -> P -> wp (on_scratch (bd_write k data)) u Q P.
Proof.
  intros [F (d & Hd & [C1 C2 C3]) X Y] Hk HP. unfold wp, on_scratch. rewrite Hd, bd_write_past by (done || lia). done.
Qed.
Lemma named_file w s a name id : refines w s a -> a_names a !! name = Some id -> name_ok name.
Proof. intros (objs & tbl & I & A) H. apply A in H as [k Hk]. by eapply (ls_names _ _ _ _ (fi_listing _ _ _ _ _ I)). Qed.
Lemma collect_reading w s a id fd pos :
  refines w s a -> a_files a !! fd = None ->
  collect (mkAfs (a_names a) (a_bytes a) (delete fd (<[fd := mkAfile id pos false]> (a_files a)))) = a.
Proof.
  intros (objs & tbl & I & A) Hfd. rewrite delete_insert_id by done. replace (mkAfs _ _ _) with a by (by destruct a).
  apply collect_alive. intros i bs. by apply (bytes_alive w s objs tbl).
Qed.

(** The sector after the last file: zeros, but for the last byte. *)
Definition marker (past : Z) : list Z := replicate 511 0 ++ [past].
Record archive_grows sec (k e : Z) (name bs : list Z) (past : Z) sec' : Prop := {
  ag_file : archived sec' k [(name, bs)] e;
  ag_marker : sec' e = marker past;
  ag_same t : t < k \/ e < t -> sec' t = sec t;
  ag_length t : k <= t <= e -> length (sec' t) = 512%nat
}.
Lemma header_made name nm (bs : list Z) :
  Forall (fun c => 0 < c < 256) name -> name_ok name -> strip_antisocial_prefixes name = Ok nm -> len bs < 2 ^ 31 ->
  exists h, ustar_make_header name USTAR_REGULAR (len bs) = Ok ([], Some h) /\ length h = 512%nat /\
    ustar_parse_header h = Ok (inr (Some nm, USTAR_REGULAR, len bs)).
Proof.
  intros Hc [Hl _] Es Hb. destruct (strip_ok name) as (r & Er & Hs & Hr). rewrite Es in Er. injection Er as <-.
  assert (Hn : len nm <= 99).
  { destruct Hr as [[pre ->]| ->]; [rewrite length_app in Hl; lia|]. by vm_compute. }
  assert (Hz : Forall (fun c => c <> 0) nm).
  { eapply (strip_chars _ name); [|done|]; [done|]. eapply Forall_impl; [exact Hc|]. simpl. intros. lia. }
  destruct (make_ok name nm USTAR_REGULAR (len bs)) as (h & Eh & M); [|done|done|by left|lia|].
  { eapply Forall_impl; [exact Hc|]. unfold byte. simpl. intros. lia. }
  exists h. split; [done|]. split; [destruct (md_ok _ _ _ _ M); lia|].
  apply (parse_made nm USTAR_REGULAR (len bs)); [done|done|done|by left|lia].
Qed.
Lemma append_ok {w n x} {P : Prop} a name nm past id cs sec k u (Q : unit -> util D E -> Prop) :
  stands w a sec n x k u -> 0 <= k -> a_names a !! name = Some id -> a_bytes a !! id = Some cs ->
  Forall (fun c => 0 < c < 256) name -> strip_antisocial_prefixes name = Ok nm ->
  let e := k + 1 + sectors_for (len cs) in
  (n <= e -> P) ->
  (forall sec' u', e < n -> archive_grows sec k e nm cs past sec' -> stands w a sec' n x e u' -> Q tt u') ->
  wp (fsutil_append name junk past) u Q P.
Proof.
  intros G Hk Hid Hcs Hch Hst e HP HQ. pose proof (st_fs _ _ _ _ _ _ _ G) as R. pose proof (stands_size _ _ G) as Hn.
  destruct (object_bytes w (u_fs u) a id R (named_alive a name id Hid)) as (cs' & Hcs' & Hlen). rewrite Hcs in Hcs'. injection Hcs' as <-.
  pose proof (named_file w (u_fs u) a name id R Hid) as Hok. pose proof (sectors_for_pos (len cs) ltac:(lia)) as Hse.
  destruct (header_made name nm cs Hch Hok Hst ltac:(lia)) as (h & Eh & Hhl & Hhp).
  unfold fsutil_append. destruct (say_appending name) as [out Eo]. wp_then. eapply say_step; [done|done|]. clear u G R. intros u G.
  wp_then. eapply buffer_step; [done|]. clear u G. intros u G. pose proof (st_fs _ _ _ _ _ _ _ G) as R.
  wp_then. eapply open_step; [done|apply Hok| |]; [|intros; congruence]. intros u1 id' fd Hid' Hfd G1.
  rewrite Hid in Hid'. injection Hid' as <-. wp_then. apply wp_runs, runs_ret. change (set_afile _ _ _) with (reading a id fd 0) in G1.
  wp_then. apply (reply_step _ RNum). eapply (op_step _ u1 (Length fd)); [done|exact G1|eexists; apply lookup_insert_eq|].
  intros r a' u2 _ St G2 v ->. inversion St as [| | | | | | | | | | | | |fd' y bs Hy Hb| |]; subst. simpl in Hy. rewrite lookup_insert_eq in Hy. injection Hy as <-.
  simpl in Hb. assert (bs = cs) as -> by congruence. clear Hb St. pose proof (st_scratch _ _ _ _ _ _ _ G2) as (d & Hd & C).
  wp_then. eapply wp_ok; [reflexivity|]. rewrite Hd. wp_then. apply wp_runs, runs_ret.
  wp_then. eapply wp_ok; [unfold lift; rewrite Eh; reflexivity|]. wp_then. eapply output_step; [done|]. intros u3 _ G3. cbn [fst snd].
  wp_then. apply wp_runs, runs_ret. wp_then. eapply next_append_step; [exact G3|]. intros u4 G4. wp_then.
  destruct (decide (n <= k)) as [Hfull|Hroom]; [eapply write_past_step; [done|done|]; apply HP; lia|].
  rewrite wrapu_small in G4 by lia. eapply write_step; [done|lia|done|]. intros u5 G5.
  set (sec1 := fun t => if t =? k then h else sec t) in G5. wp_then. replace (len cs) with (len cs - 0) by lia.
  eapply append_data_ok; [| |exact G5|done|lia| |]; [lia|lia|rewrite Z.sub_0_r; intros; apply HP; lia|]. rewrite Z.sub_0_r. fold e.
  rewrite drop_0. intros sec2 u6 Hda [A1 A2] Hen G6. pose proof (st_append _ _ _ _ _ _ _ G6) as Hap. cbv zeta.
  wp_then. eapply wp_ok; [reflexivity|]. rewrite Hap. wp_then.
  destruct (decide (n <= e)) as [Hfull|Hend]; [eapply write_past_step; [done|done|by apply HP]|].
  eapply write_step; [done|lia|done|]. intros u7 G7. wp_then. eapply write_step; [done|lia|done|]. intros u8 G8.
  set (sec3 := fun t => if t =? e then _ else _) in G8. apply (reply_step _ (fun _ => RUnit)).
  eapply (op_step _ u8 (Close fd)); [done|exact G8|eexists; apply lookup_insert_eq|]. intros r a' u' _ St G' [] _.
  inversion St as [| | | | | | |fd' y Hy| | | | | | | |]; subst. simpl in G'.
  rewrite (collect_reading w (u_fs u) a id fd (len cs) R Hfd) in G'.
  assert (H3 : forall t, t <> e -> sec3 t = sec2 t) by (intros t Ht; unfold sec3; by rewrite !(proj2 (Z.eqb_neq t e) Ht)).
  assert (H1 : sec2 k = h) by (rewrite A1 by lia; unfold sec1; by rewrite Z.eqb_refl).
  apply (HQ sec3); [lia| |exact G']. split.
  - eapply en_file; [rewrite H3, H1 by lia; exact Hhp|lia| |constructor].
    eapply data_at_same; [|exact Hda]. intros t Ht. apply H3. lia.
  - unfold sec3. by rewrite Z.eqb_refl.
  - intros t Ht. rewrite H3, A1 by lia. unfold sec1. by rewrite (proj2 (Z.eqb_neq t k)) by lia.
  - intros t Ht. destruct (Z.eq_dec t e) as [->|Hne]; [unfold sec3; by rewrite Z.eqb_refl|].
    rewrite H3 by done. destruct (Z.eq_dec t k) as [->|Hnk]; [by rewrite H1|apply A2; lia].
Qed.
End Ok.
