(* ===== verification/FsutilProps.v ===== *)
(** What copying files between the file system and an archive does (filesys/fsutil.c): an
    extraction installs the files of the archive, archives that are appended to are extracted
    again, and what the marker of the end does to them. *)

From stdpp Require Import gmap strings.
From S2P Require Import Prelude KMonad CString Bytes Bitmap Block Stdio StdioOk Ustar Filesys InodeOk FreeMapOk FsInv FsCreate FsOpen FsHandles FsDir FsWorld FsOps FsFiles FsRefine FsMount FsProps ProcessFs Fsutil FsutilOk.

Section Props.
Context {D E : Type} `{!BlockDevice D, !BlockDevice E} (junk : list Z).
Hypothesis Hjunk : length junk = 20%nat.
Implicit Types (w : world) (a : afs) (u : util D E) (sec : Z -> list Z).

(** ** Several files *)

(** The files are appended, each with the byte that is after the buffer at that time. *)
Fixpoint append_files (l : list (list Z * Z)) : K (util D E) unit :=
  match l with
  | [] => mret tt
  | (name, past) :: l' => fsutil_append name junk past;; append_files l'
  end.
Definition last_past (l : list (list Z * Z)) : Z := default 0 (snd <$> last l).

(** What is archived for a file: its stripped name and its contents. *)
Definition archived_as a (f : list Z * Z) (e : list Z * list Z) : Prop :=
  Forall (fun c => 0 < c < 256) f.1 /\ strip_antisocial_prefixes f.1 = Ok e.1 /\
  exists id, a_names a !! f.1 = Some id /\ a_bytes a !! id = Some e.2.
Fixpoint archive_size (es : list (list Z * list Z)) : Z :=
  match es with [] => 0 | e :: es' => 1 + sectors_for (len e.2) + archive_size es' end.
Lemma archive_size_pos es : 0 <= archive_size es.
Proof. induction es as [|e es IH]; simpl; [lia|]. pose proof (sectors_for_pos (len e.2) ltac:(lia)). lia. Qed.

Lemma append_files_ok w n x a l es sec k u done1 :
  Forall2 (archived_as a) l es -> l <> [] -> 0 <= k -> k + archive_size es < n ->
  stands w a sec n x k u -> archived sec 0 done1 k -> (forall t, 0 <= t < n -> length (sec t) = 512%nat) ->
  runs (append_files l) u (fun _ u' => exists sec', let e := k + archive_size es in
    archived sec' 0 (done1 ++ es) e /\ sec' e = marker (last_past l) /\ (forall t, 0 <= t < n -> length (sec' t) = 512%nat) /\
    stands w a sec' n x e u').
Proof.
  intros H. revert sec k u done1. induction H as [|[name past] [nm bs] l es (Hc & Hs & id & Hn & Hb) Hl IH]; intros sec k u done1 Hne Hk Hsz G Ha Hlen; [done|].
  simpl in Hc, Hs, Hn, Hb, Hsz. pose proof (archive_size_pos es) as Hp. pose proof (sectors_for_pos (len bs) ltac:(lia)) as Hp'.
  cbn [append_files]. apply runs_bind. assert (H1 : wp (fsutil_append name junk past) u (fun _ u' => exists sec', archive_grows sec k (k + 1 + sectors_for (len bs)) nm bs past sec' /\
    stands w a sec' n x (k + 1 + sectors_for (len bs)) u') False).
  { eapply (append_ok junk Hjunk a name nm past id bs sec k); [done..|lia|]. intros sec' u' He Hg G'. eauto. }
  unfold wp in H1. destruct (fsutil_append name junk past u) as [[[] u1]| |] eqn:E1; [|done..]. exists tt, u1. split; [done|].
  destruct H1 as (sec1 & [A1 A2 A3 A4] & G1). set (k1 := k + 1 + sectors_for (len bs)) in *.
  assert (Ha1 : archived sec1 0 (done1 ++ [(nm, bs)]) k1).
  { eapply archived_app; [|exact A1]. eapply archived_same; [|exact Ha]. intros t Ht. apply A3. lia. }
  assert (Hlen1 : forall t, 0 <= t < n -> length (sec1 t) = 512%nat).
  { intros t Ht. destruct (decide (k <= t <= k1)); [by apply A4|]. rewrite A3 by lia. by apply Hlen. }
  destruct l as [|f l].
  - inversion Hl; subst es. apply runs_ret. exists sec1. cbn [archive_size snd]. replace (k + (1 + sectors_for (len bs) + 0)) with k1 by lia. done.
  - eapply runs_mono; [apply (IH sec1 k1 u1 (done1 ++ [(nm, bs)])); [done|lia|lia|done|done|done]|].
    intros [] u2 (sec2 & B1 & B2 & B3 & B4). exists sec2. cbn [archive_size snd].
    replace (k + (1 + sectors_for (len bs) + archive_size es)) with (k1 + archive_size es) by lia. rewrite <- app_assoc in B1. done.
Qed.

(** Another machine that has the scratch device. *)
Lemma moved w a sec n x p u w2 a2 u2 :
  stands w a sec n x p u -> refines w2 (u_fs u2) a2 -> u_scratch u2 = u_scratch u -> stands w2 a2 sec n (extract_sector u2) (append_sector u2) u2.
Proof. intros [_ (d & Hd & C) _ _] R Hs. split; try done. exists d. by rewrite Hs. Qed.

Lemma marker_zero : ustar_parse_header (marker 0) = Ok (inr (None, USTAR_EOF, 0)).
Proof. reflexivity. Qed.
Lemma marker_broken past : past <> 0 -> exists msg, ustar_parse_header (marker past) = Ok (inl msg).
Proof.
  intros Hp. unfold ustar_parse_header. replace (is_all_zeros (marker past)) with false.
  - by eexists.
  - symmetry. apply (field_not_zeros _ (mkField 511 1) past []); [done|done].
Qed.

(** ** Properties *)

(** C37: Extraction installs the archive, as long as no allocation of memory fails: when the scratch
    device holds an archive of regular files and directories, [fsutil_extract] creates the files with
    the names and the contents of the archive, leaves all other files and open files as they are, and
    erases the first two sectors.  It panics only when the loop, after it has installed the files
    before it, reaches a file for which [filesys_create] returns false in the state that the run has
    then: a bad name, a name in use, or no room. *)
Theorem extract_installs_archive w a es sec n x p e u :
  stands w a sec n x p u -> memory (u_fs u) = [] -> archive sec x es e -> 0 <= x -> e < n -> 2 <= n ->
  (forall t, 0 <= t < n -> length (sec t) = 512%nat) ->
  match fsutil_extract junk u with
  | Ok (_, u') => exists a', installed a es a' /\ stands w a' (erased sec) n (e + 1) p u'
  | Panic => refused_after_begin junk w u a es
  | NoFuel => False
  end.
Proof. intros G _ Ha Hx He Hn Hl. by eapply (extract_done junk Hjunk). Qed.

(** C38: Files survive the way through an archive, as long as no allocation of memory fails: files that
    are appended to the start of a scratch device with enough room, the last one when the byte of the
    memory after the buffer is zero, are installed with their stripped names and their contents by
    [fsutil_extract] on any machine that gets the device, unless the run comes to a file for which
    [filesys_create] returns false in the state that the run has then. *)
Theorem archives_round_trip w a l es sec n x u :
  stands w a sec n x 0 u -> memory (u_fs u) = [] -> Forall2 (archived_as a) l es -> l <> [] -> archive_size es < n -> 2 <= n ->
  (forall t, 0 <= t < n -> length (sec t) = 512%nat) -> last_past l = 0 ->
  exists u', append_files l u = Ok (tt, u') /\ refines w (u_fs u') a /\
    forall w2 a2 u2, refines w2 (u_fs u2) a2 -> memory (u_fs u2) = [] -> u_scratch u2 = u_scratch u' -> extract_sector u2 = 0 ->
    match fsutil_extract junk u2 with
    | Ok (_, u2') => exists a2', installed a2 es a2' /\ refines w2 (u_fs u2') a2'
    | Panic => refused_after_begin junk w2 u2 a2 es
    | NoFuel => False
    end.
Proof.
  intros G _ Hl Hne Hsz Hn Hlen Hlast.
  destruct (append_files_ok w n x a l es sec 0 u [] Hl Hne) as ([] & u' & Ea & sec' & Ha & Hm & Hlen' & G'); [lia|lia|done|constructor|done|].
  exists u'. split; [done|]. split; [apply G'|]. intros w2 a2 u2 R2 _ Hs2 Hx2. rewrite Z.add_0_l in *. cbn [app] in Ha.
  pose proof (moved _ _ _ _ _ _ _ w2 a2 u2 G' R2 Hs2) as G2. rewrite Hx2 in G2. rewrite Hlast in Hm.
  assert (Har : archive sec' 0 es (archive_size es)) by (split; [done|rewrite Hm; exact marker_zero]).
  eapply (wp_mono (fsutil_extract junk) u2); [eapply (extract_done junk Hjunk (n := n) a2 es); [exact Har|done..|exact G2]| |done].
  intros [] u3 (a' & Hi & [R3 _ _ _]). eauto.
Qed.

(** C39: The marker of the end may break the archive: when the byte of the memory after the buffer
    is not zero while the last file is appended, the archive has no end, and [fsutil_extract]
    panics on every machine that gets the device, whatever its file system holds. *)
Theorem stray_byte_breaks_archive w a l es sec n x u :
  stands w a sec n x 0 u -> Forall2 (archived_as a) l es -> l <> [] -> archive_size es < n -> 2 <= n ->
  (forall t, 0 <= t < n -> length (sec t) = 512%nat) -> last_past l <> 0 ->
  exists u', append_files l u = Ok (tt, u') /\
    forall w2 a2 u2, refines w2 (u_fs u2) a2 -> u_scratch u2 = u_scratch u' -> extract_sector u2 = 0 ->
    fsutil_extract junk u2 = Panic.
Proof.
  intros G Hl Hne Hsz Hn Hlen Hlast.
  destruct (append_files_ok w n x a l es sec 0 u [] Hl Hne) as ([] & u' & Ea & sec' & Ha & Hm & Hlen' & G'); [lia|lia|done|constructor|done|].
  exists u'. split; [done|]. intros w2 a2 u2 R2 Hs2 Hx2. rewrite Z.add_0_l in *. cbn [app] in Ha.
  pose proof (moved _ _ _ _ _ _ _ w2 a2 u2 G' R2 Hs2) as G2. rewrite Hx2 in G2.
  destruct (marker_broken (last_past l) Hlast) as [msg Hmsg]. rewrite <- Hm in Hmsg.
  by eapply (extract_broken junk Hjunk (n := n) a2 es); [exact Ha|exact Hmsg|done..|exact G2].
Qed.
End Props.

(** ** Two machines and a device *)

Definition ex_entry : list Z := replicate 20 0.
Definition ex_file : list Z := replicate 700 0.
Lemma ex_created_a : match (filesys_init (Some (blank_disk 16)) [0xcccccccc] true;; exec ex_entry (Create [97] 700)) (boot_fs 16) with Ok (RBool b, _) => b | _ => false end = true.
Proof. vm_compute. reflexivity. Qed.
Lemma ex_formatted : exists w (s : fs mounted), filesys_init (Some (blank_disk 16)) [0xcccccccc] true (boot_fs 16) = Ok (tt, s) /\ refines w s (mkAfs ∅ ∅ ∅).
Proof.
  destruct (format_ok (blank_disk 16) [0xcccccccc] (boot_fs 16) blank_disk_ok ltac:(split; [discriminate|reflexivity]) blank_junk boot_fs_booted)
    as (w & s & E & R & _). eauto.
Qed.
Lemma ex_source : exists w (s : fs mounted) a, refines w s a /\ forall past, archived_as a ([97], past) ([97], ex_file).
Proof.
  destruct ex_formatted as (w & s & E & R). destruct (op_refines w s (mkAfs ∅ ∅ ∅) (Create [97] 700) ex_entry R) as (r & s' & a' & E' & St & R').
  - split; [repeat constructor; discriminate|split; [discriminate|reflexivity]].
  - reflexivity.
  - pose proof ex_created_a as Hr. rewrite (bind_ok _ _ _ _ _ E), E' in Hr.
    inversion St as [name m id Hn Hf Hb| | | | | | | | | | | | | | |]; subst; [|done]. eexists w, s', _. split; [exact R'|]. intros past. split; [|split].
    + by repeat constructor.
    + reflexivity.
    + exists id. split; apply lookup_insert_eq.
Qed.

Definition ex_sec : Z -> list Z := bd_sector (blank_disk 16).
Lemma ex_scratch : scratch ex_sec 16 (blank_disk 16).
Proof. split; [exact blank_disk_ok|reflexivity|done]. Qed.
Lemma ex_lengths t : 0 <= t < 16 -> length (ex_sec t) = 512%nat.
Proof. intros Ht. apply (bd_sector_length (blank_disk 16)); [exact blank_disk_ok|exact Ht]. Qed.
Lemma ex_start : exists w a (u : util mounted mounted), stands w a ex_sec 16 0 0 u /\ forall past, archived_as a ([97], past) ([97], ex_file).
Proof.
  destruct ex_source as (w & s & a & R & Ha). exists w, a, (mkUtil s (Some (blank_disk 16)) [] 0 0). split; [|exact Ha].
  split; [exact R|exists (blank_disk 16); split; [reflexivity|exact ex_scratch]|reflexivity..].
Qed.

Lemma archives_round_trip_witness :
  exists (u u' : util mounted mounted) w2 s2, append_files ex_entry [([97], 0)] u = Ok (tt, u') /\ refines w2 s2 (mkAfs ∅ ∅ ∅) /\
    match fsutil_extract ex_entry (mkUtil s2 (u_scratch u') [] 0 0) with
    | Ok (_, u2') => exists a2', installed (mkAfs ∅ ∅ ∅) [([97], ex_file)] a2' /\ refines w2 (u_fs u2') a2'
    | Panic => refused_after_begin ex_entry w2 (mkUtil s2 (u_scratch u') [] 0 0) (mkAfs ∅ ∅ ∅) [([97], ex_file)]
    | NoFuel => False
    end.
Proof.
  destruct ex_start as (w & a & u & G & Ha), ex_formatted as (w2 & s2 & _ & R2).
  destruct (archives_round_trip ex_entry eq_refl w a [([97], 0)] [([97], ex_file)] ex_sec 16 0 u G (refines_memory w _ a (st_fs _ _ _ _ _ _ _ G))) as (u' & E & _ & H).
  - constructor; [apply Ha|constructor].
  - discriminate.
  - reflexivity.
  - discriminate.
  - exact ex_lengths.
  - reflexivity.
  - exists u, u', w2, s2. split; [exact E|]. split; [exact R2|]. apply (H w2 (mkAfs ∅ ∅ ∅) (mkUtil s2 (u_scratch u') [] 0 0)); [exact R2|exact (refines_memory w2 s2 _ R2)|reflexivity..].
Defined.
Lemma stray_byte_breaks_archive_witness :
  exists (u u' : util mounted mounted) s2, append_files ex_entry [([97], 1)] u = Ok (tt, u') /\
    fsutil_extract ex_entry (mkUtil s2 (u_scratch u') [] 0 0) = Panic.
Proof.
  destruct ex_start as (w & a & u & G & Ha), ex_formatted as (w2 & s2 & _ & R2).
  destruct (stray_byte_breaks_archive ex_entry eq_refl w a [([97], 1)] [([97], ex_file)] ex_sec 16 0 u G) as (u' & E & H).
  - constructor; [apply Ha|constructor].
  - discriminate.
  - reflexivity.
  - discriminate.
  - exact ex_lengths.
  - discriminate.
  - exists u, u', s2. split; [exact E|]. apply (H w2 (mkAfs ∅ ∅ ∅) (mkUtil s2 (u_scratch u') [] 0 0)); [exact R2|reflexivity..].
Defined.
Lemma extract_installs_archive_witness :
  exists w2 (u u2 : util mounted mounted) sec e, append_files ex_entry [([97], 0)] u = Ok (tt, u2) /\ archive sec 0 [([97], ex_file)] e /\
    forall s2, refines w2 s2 (mkAfs ∅ ∅ ∅) ->
    match fsutil_extract ex_entry (mkUtil s2 (u_scratch u2) [] 0 0) with
    | Ok (_, u') => exists a', installed (mkAfs ∅ ∅ ∅) [([97], ex_file)] a' /\ stands w2 a' (erased sec) 16 (e + 1) 0 u'
    | Panic => refused_after_begin ex_entry w2 (mkUtil s2 (u_scratch u2) [] 0 0) (mkAfs ∅ ∅ ∅) [([97], ex_file)]
    | NoFuel => False
    end.
Proof.
  destruct ex_start as (w & a & u & G & Ha), ex_formatted as (w2 & _).
  destruct (append_files_ok ex_entry eq_refl w 16 0 a [([97], 0)] [([97], ex_file)] ex_sec 0 u []) as ([] & u2 & E & sec & A & M & L & G2).
  - constructor; [apply Ha|constructor].
  - discriminate.
  - reflexivity.
  - reflexivity.
  - exact G.
  - constructor.
  - exact ex_lengths.
  - change (0 + archive_size [([97], ex_file)]) with 3 in *. change (last_past [([97], 0)]) with 0 in M. cbn [app] in A.
    assert (Har : archive sec 0 [([97], ex_file)] 3) by (split; [exact A|rewrite M; exact marker_zero]).
    exists w2, u, u2, sec, 3. split; [exact E|]. split; [exact Har|]. intros s2 R2.
    apply (extract_installs_archive ex_entry eq_refl w2 (mkAfs ∅ ∅ ∅) [([97], ex_file)] sec 16 0 0 3 (mkUtil s2 (u_scratch u2) [] 0 0)).
    + exact (moved _ _ _ _ _ _ _ w2 (mkAfs ∅ ∅ ∅) (mkUtil s2 (u_scratch u2) [] 0 0) G2 R2 eq_refl).
    + exact (refines_memory w2 s2 _ R2).
    + exact Har.
    + discriminate.
    + reflexivity.
    + discriminate.
    + exact L.
Defined.
