(* ===== verification/Descr.v ===== *)
(** Segment descriptors and interrupt gates (userprog/gdt.c, threads/interrupt.c): the words that
    the kernel builds for the processor, and what the processor reads in them. *)

From S2P Require Import Prelude KMonad Bytes Process.

(** ** Selectors *)

Definition SEL_NULL : Z := 0x00.
Definition SEL_KCSEG : Z := 0x08.
Definition SEL_KDSEG : Z := 0x10.
Definition SEL_TSS : Z := 0x28.
Definition SEL_CNT : Z := 6.

(** ** gdt.c *)

Inductive seg_class := CLS_SYSTEM | CLS_CODE_DATA.
Inductive seg_granularity := GRAN_BYTE | GRAN_PAGE.
Definition class_bit (c : seg_class) : Z := match c with CLS_SYSTEM => 0 | CLS_CODE_DATA => 1 end.
Definition granularity_bit (g : seg_granularity) : Z := match g with GRAN_BYTE => 0 | GRAN_PAGE => 1 end.

Definition assert {A} (b : bool) (m : outcome A) : outcome A := if b then m else Panic.

Definition make_seg_desc (base limit : Z) (class : seg_class) (type dpl : Z) (granularity : seg_granularity) : outcome Z :=
  assert (limit <=? 0xfffff)
  (assert ((0 <=? type) && (type <=? 15))
  (assert ((0 <=? dpl) && (dpl <=? 3))
  (let e0 := Z.lor (Z.land limit 0xffff) (u32 (Z.shiftl base 16)) in
   let e1 := Z.lor (Z.lor (Z.lor (Z.lor (Z.lor (Z.lor (Z.lor (Z.lor
     (Z.land (Z.shiftr base 16) 0xff)
     (Z.shiftl type 8))
     (Z.shiftl (class_bit class) 12))
     (Z.shiftl dpl 13))
     (Z.shiftl 1 15))
     (Z.land limit 0xf0000))
     (Z.shiftl 1 22))
     (Z.shiftl (granularity_bit granularity) 23))
     (Z.land base 0xff000000) in
   Ok (Z.lor e0 (Z.shiftl e1 32))))).
Definition make_code_desc (dpl : Z) : outcome Z := make_seg_desc 0 0xfffff CLS_CODE_DATA 10 dpl GRAN_PAGE.
Definition make_data_desc (dpl : Z) : outcome Z := make_seg_desc 0 0xfffff CLS_CODE_DATA 2 dpl GRAN_PAGE.
Definition make_tss_desc (laddr : Z) : outcome Z := make_seg_desc (u32 laddr) 0x67 CLS_SYSTEM 9 0 GRAN_BYTE.
Definition make_gdtr_operand (limit base : Z) : Z := Z.lor limit (u64 (Z.shiftl (u32 base) 16)).

(** The table, the operand of LGDT and the operand of LTR. *)
Definition gdt_init (gdt tss : Z) : outcome (list Z * Z * Z) :=
  match make_code_desc 0, make_data_desc 0, make_code_desc 3, make_data_desc 3, make_tss_desc tss with
  | Ok kc, Ok kd, Ok uc, Ok ud, Ok ts => Ok ([0; kc; kd; uc; ud; ts], make_gdtr_operand (8 * SEL_CNT - 1) gdt, SEL_TSS)
  | _, _, _, _, _ => Panic
  end.

(** ** Gates of interrupt.c *)

Definition make_gate (function dpl type : Z) : outcome Z :=
  assert (negb (function =? 0))
  (assert ((0 <=? dpl) && (dpl <=? 3))
  (assert ((0 <=? type) && (type <=? 15))
  (let e0 := Z.lor (Z.land (u32 function) 0xffff) (Z.shiftl SEL_KCSEG 16) in
   let e1 := Z.lor (Z.lor (Z.lor (Z.lor (Z.land (u32 function) 0xffff0000) (Z.shiftl 1 15)) (Z.shiftl dpl 13)) (Z.shiftl 0 12)) (Z.shiftl type 8) in
   Ok (Z.lor e0 (Z.shiftl e1 32))))).
Definition make_intr_gate (function dpl : Z) : outcome Z := make_gate function dpl 14.
Definition make_trap_gate (function dpl : Z) : outcome Z := make_gate function dpl 15.
Definition make_idtr_operand (limit base : Z) : Z := Z.lor limit (u64 (Z.shiftl (u32 base) 16)).

(** ** What the processor reads

    The fields of descriptors, from the manuals of the processor. *)
Record segment := mkSegment {
  sg_base : Z; sg_limit : Z; sg_type : Z; sg_code_data : Z; sg_dpl : Z; sg_present : Z; sg_32bit : Z; sg_pages : Z
}.
Definition segment_of (d : Z) : segment :=
  mkSegment (bits d 16 24 + bits d 56 8 * 2 ^ 24) (bits d 0 16 + bits d 48 4 * 2 ^ 16)
    (bits d 40 4) (bits d 44 1) (bits d 45 2) (bits d 47 1) (bits d 54 1) (bits d 55 1).

Record gate := mkGate { g_offset : Z; g_selector : Z; g_type : Z; g_dpl : Z; g_present : Z }.
Definition gate_of (d : Z) : gate :=
  mkGate (bits d 0 16 + bits d 48 16 * 2 ^ 16) (bits d 16 16) (bits d 40 5) (bits d 45 2) (bits d 47 1).

(** ** Words made of parts *)

#[local] Ltac Zify.zify_post_hook ::= Z.to_euclidean_division_equations.

(** The innermost [Z.lor] of a word, of a part below bit [k] and one from there on. *)
Ltac lor_parts k :=
  match goal with
  | |- context [Z.lor ?a ?b] =>
      lazymatch a with context [Z.lor _ _] => fail | _ => idtac end;
      lazymatch b with context [Z.lor _ _] => fail | _ => rewrite (lor_add a b k) by (let v := eval vm_compute in (2 ^ k) in change (2 ^ k) with v; lia) end
  end.

Lemma low_word base : 0 <= base < 2 ^ 32 -> u32 (Z.shiftl base 16) = bits base 0 16 * 2 ^ 16.
Proof.
  intros H. unfold u32, wrapu, bits. rewrite Z.shiftl_mul_pow2 by lia. change (2 ^ 0) with 1. rewrite Z.div_1_r.
  change (2 ^ 32) with (2 ^ 16 * 2 ^ 16). rewrite Z.mul_mod_distr_r by lia. done.
Qed.

Definition seg_value (base limit : Z) (class : seg_class) (type dpl : Z) (granularity : seg_granularity) : Z :=
  bits limit 0 16 + bits base 0 16 * 2 ^ 16 +
  (bits base 16 8 + type * 2 ^ 8 + class_bit class * 2 ^ 12 + dpl * 2 ^ 13 + 2 ^ 15 + bits limit 16 4 * 2 ^ 16 + 2 ^ 22 +
   granularity_bit granularity * 2 ^ 23 + bits base 24 8 * 2 ^ 24) * 2 ^ 32.
Lemma make_seg_value base limit class type dpl g :
  0 <= base < 2 ^ 32 -> 0 <= limit <= 0xfffff -> 0 <= type <= 15 -> 0 <= dpl <= 3 ->
  make_seg_desc base limit class type dpl g = Ok (seg_value base limit class type dpl g).
Proof.
  intros Hb Hl Ht Hd. unfold make_seg_desc, assert, seg_value. rewrite (proj2 (Z.leb_le limit _)) by lia.
  rewrite (proj2 (Z.leb_le 0 type)), (proj2 (Z.leb_le type 15)), (proj2 (Z.leb_le 0 dpl)), (proj2 (Z.leb_le dpl 3)) by lia. cbn [andb]. f_equal.
  rewrite (low_word base Hb). change 0xff000000 with (Z.shiftl (Z.ones 8) 24). change 0xf0000 with (Z.shiftl (Z.ones 4) 16).
  rewrite !land_mid by lia. change (Z.land limit 0xffff) with (Z.land limit (Z.shiftl (Z.ones 16) 0)). rewrite land_mid by lia.
  change (Z.land (Z.shiftr base 16) 0xff) with (Z.land (Z.shiftr base 16) (Z.ones 8)). rewrite Z.land_ones, Z.shiftr_div_pow2 by lia.
  change (base / 2 ^ 16 mod 2 ^ 8) with (bits base 16 8).
  pose proof (bits_range base 0 16 ltac:(lia)). pose proof (bits_range base 16 8 ltac:(lia)). pose proof (bits_range base 24 8 ltac:(lia)).
  pose proof (bits_range limit 0 16 ltac:(lia)). pose proof (bits_range limit 16 4 ltac:(lia)).
  assert (0 <= class_bit class <= 1) by (destruct class; done). assert (0 <= granularity_bit g <= 1) by (destruct g; done).
  rewrite !Z.shiftl_mul_pow2 by lia. rewrite Z.mul_1_r, !Z.mul_1_l.
  set (b0 := bits base 0 16) in *. set (b1 := bits base 16 8) in *. set (b2 := bits base 24 8) in *.
  set (l0 := bits limit 0 16) in *. set (l1 := bits limit 16 4) in *. set (c := class_bit class) in *. set (gr := granularity_bit g) in *.
  change (2 ^ 8) with 256 in *. change (2 ^ 12) with 4096. change (2 ^ 13) with 8192. change (2 ^ 15) with 32768. change (2 ^ 16) with 65536 in *.
  change (2 ^ 22) with 4194304. change (2 ^ 23) with 8388608. change (2 ^ 24) with 16777216. change (2 ^ 32) with 4294967296. change (2 ^ 0) with 1 in *. change (2 ^ 4) with 16 in *.
  lor_parts 16. lor_parts 8. lor_parts 12. lor_parts 13. lor_parts 15. lor_parts 16. lor_parts 20. lor_parts 23. lor_parts 24. lor_parts 32. lia.
Qed.

Lemma seg_value_fields base limit class type dpl g :
  0 <= base < 2 ^ 32 -> 0 <= limit <= 0xfffff -> 0 <= type <= 15 -> 0 <= dpl <= 3 ->
  segment_of (seg_value base limit class type dpl g) = mkSegment base limit type (class_bit class) dpl 1 1 (granularity_bit g).
Proof.
  intros Hb Hl Ht Hd. unfold segment_of, seg_value.
  pose proof (bits_range base 0 16 ltac:(lia)). pose proof (bits_range base 16 8 ltac:(lia)). pose proof (bits_range base 24 8 ltac:(lia)).
  pose proof (bits_range limit 0 16 ltac:(lia)). pose proof (bits_range limit 16 4 ltac:(lia)).
  assert (Eb : base = bits base 0 16 + bits base 16 8 * 65536 + bits base 24 8 * 16777216) by (unfold bits; lia).
  assert (El : limit = bits limit 0 16 + bits limit 16 4 * 65536) by (unfold bits; lia).
  assert (0 <= class_bit class <= 1) by (destruct class; done). assert (0 <= granularity_bit g <= 1) by (destruct g; done).
  set (b0 := bits base 0 16) in *. set (b1 := bits base 16 8) in *. set (b2 := bits base 24 8) in *.
  set (l0 := bits limit 0 16) in *. set (l1 := bits limit 16 4) in *. set (c := class_bit class) in *. set (gr := granularity_bit g) in *.
  clearbody b0 b1 b2 l0 l1 c gr. subst base limit. unfold bits. f_equal; lia.
Qed.

Lemma make_gate_value function dpl type :
  0 < function < 2 ^ 32 -> 0 <= dpl <= 3 -> 0 <= type <= 15 ->
  make_gate function dpl type =
    Ok (bits function 0 16 + 8 * 2 ^ 16 + (type * 2 ^ 8 + dpl * 2 ^ 13 + 2 ^ 15 + bits function 16 16 * 2 ^ 16) * 2 ^ 32).
Proof.
  intros Hf Hd Ht. unfold make_gate, assert. rewrite (proj2 (Z.eqb_neq function 0)) by lia.
  rewrite (proj2 (Z.leb_le 0 type)), (proj2 (Z.leb_le type 15)), (proj2 (Z.leb_le 0 dpl)), (proj2 (Z.leb_le dpl 3)) by lia. cbn [andb negb]. f_equal.
  rewrite wrapu_small by lia. change 0xffff0000 with (Z.shiftl (Z.ones 16) 16). rewrite land_mid by lia.
  change (Z.land function 0xffff) with (Z.land function (Z.shiftl (Z.ones 16) 0)). rewrite land_mid by lia.
  pose proof (bits_range function 0 16 ltac:(lia)). pose proof (bits_range function 16 16 ltac:(lia)).
  set (lo := bits function 0 16) in *. set (hi := bits function 16 16) in *. clearbody lo hi.
  rewrite !Z.shiftl_mul_pow2 by lia. unfold SEL_KCSEG. rewrite Z.mul_1_r, Z.mul_1_l, Z.mul_0_l, Z.lor_0_r.
  change (2 ^ 8) with 256. change (2 ^ 13) with 8192. change (2 ^ 15) with 32768. change (2 ^ 16) with 65536 in *. change (2 ^ 32) with 4294967296.
  rewrite (Z.lor_comm (hi * 65536)). lor_parts 16. lor_parts 16. rewrite (Z.lor_comm _ (dpl * 8192)). lor_parts 15. rewrite (Z.lor_comm _ (type * 256)). lor_parts 12. lor_parts 32. lia.
Qed.

(** ** Properties *)

(** The processor reads in a gate what [make_gate] was given: the handler's address, the
    segment of the kernel's code, the type and the privilege level; the gate is present. *)
Theorem gates_decode function dpl type :
  0 < function < 2 ^ 32 -> 0 <= dpl <= 3 -> 0 <= type <= 15 ->
  exists g, make_gate function dpl type = Ok g /\ 0 <= g < 2 ^ 64 /\ gate_of g = mkGate function SEL_KCSEG type dpl 1.
Proof.
  intros Hf Hd Ht. rewrite make_gate_value by done. eexists. split; [reflexivity|].
  pose proof (bits_range function 0 16 ltac:(lia)). pose proof (bits_range function 16 16 ltac:(lia)).
  assert (Ef : function = bits function 0 16 + bits function 16 16 * 65536) by (unfold bits; lia).
  set (lo := bits function 0 16) in *. set (hi := bits function 16 16) in *. clearbody lo hi. subst function. split; [lia|].
  unfold gate_of, SEL_KCSEG, bits. f_equal; lia.
Qed.
(** The processor reads in a segment descriptor what [make_seg_desc] was given. *)
Theorem segments_decode base limit class type dpl g :
  0 <= base < 2 ^ 32 -> 0 <= limit <= 0xfffff -> 0 <= type <= 15 -> 0 <= dpl <= 3 ->
  exists d, make_seg_desc base limit class type dpl g = Ok d /\
    segment_of d = mkSegment base limit type (class_bit class) dpl 1 1 (granularity_bit g).
Proof. intros Hb Hl Ht Hd. rewrite make_seg_value by done. eexists. split; [reflexivity|]. by apply seg_value_fields. Qed.

(** The segment that a selector names in a table. *)
Definition selected (table : list Z) (sel : Z) : option segment := segment_of <$> table !! Z.to_nat (sel / 8).
(** After [gdt_init] the selectors name flat segments of four gigabytes, code and data for the
    kernel and for users, of which only the last two may be used in ring 3, and the task-state
    segment; the registers of the processor get the table's bounds and the selector of the
    task-state segment. *)
Theorem gdt_segments gdt tss :
  0 <= gdt < 2 ^ 32 -> 0 <= tss < 2 ^ 32 ->
  exists table gdtr, gdt_init gdt tss = Ok (table, gdtr, SEL_TSS) /\ len table = SEL_CNT /\
    bits gdtr 0 16 = 8 * len table - 1 /\ bits gdtr 16 32 = gdt /\
    selected table SEL_KCSEG = Some (mkSegment 0 0xfffff 10 1 0 1 1 1) /\ selected table SEL_KDSEG = Some (mkSegment 0 0xfffff 2 1 0 1 1 1) /\
    selected table SEL_UCSEG = Some (mkSegment 0 0xfffff 10 1 3 1 1 1) /\ selected table SEL_UDSEG = Some (mkSegment 0 0xfffff 2 1 3 1 1 1) /\
    selected table SEL_TSS = Some (mkSegment tss 0x67 9 0 0 1 1 0).
Proof.
  intros Hg Ht. destruct (segments_decode tss 0x67 CLS_SYSTEM 9 0 GRAN_BYTE Ht) as (d & Ed & Sd); [lia..|].
  unfold gdt_init, make_tss_desc. rewrite (wrapu_small 32 tss) by lia. rewrite Ed.
  destruct (make_code_desc 0) as [kc| |] eqn:E1; [|by vm_compute in E1..]. destruct (make_data_desc 0) as [kd| |] eqn:E2; [|by vm_compute in E2..].
  destruct (make_code_desc 3) as [uc| |] eqn:E3; [|by vm_compute in E3..]. destruct (make_data_desc 3) as [ud| |] eqn:E4; [|by vm_compute in E4..].
  vm_compute in E1, E2, E3, E4. injection E1 as <-. injection E2 as <-. injection E3 as <-. injection E4 as <-.
  eexists _, _. split; [reflexivity|]. split; [reflexivity|]. unfold make_gdtr_operand. rewrite (wrapu_small 32 gdt) by lia.
  rewrite Z.shiftl_mul_pow2, wrapu_small by lia. change (8 * SEL_CNT - 1) with 47. change (2 ^ 16) with 65536. lor_parts 16.
  change (8 * len _ - 1) with 47. unfold bits. split; [lia|]. split; [lia|]. unfold selected. simpl. rewrite Sd. repeat (split; [reflexivity|]). done.
Qed.
