(* ===== verification/Tss.v ===== *)
(** The task-state segment (userprog/tss.c): where the processor finds the kernel stack of the
    running thread when an interrupt comes from user mode. *)

From S2P Require Import Prelude KMonad CString Bytes Bitmap Palloc Paging PagingOk Process Descr.

(** ** The structure in memory

    The offsets of the members of struct tss that are used. *)
Definition ESP0 : Z := 4.
Definition SS0 : Z := 8.
Definition BITMAP : Z := 102.

(** The pages of the kernel, and the pointer to the segment, 0 before it is set. *)
Record tss_state := mkTss { tss_pages : pages bitmap; tss : Z }.
Definition set_half (a v : Z) (m : ram_t) : ram_t := fun x => if within a 2 x then Z.shiftr v (8 * (x - a)) mod 256 else m x.
Definition half_at (m : ram_t) (a : Z) : Z := le_value [m a; m (a + 1)].
Definition write_ram (f : ram_t -> ram_t) : K tss_state unit :=
  modify (fun s => mkTss (set_ram (f (ram (tss_pages s))) (tss_pages s)) (tss s)).

Definition tss_get : K tss_state Z := t ← gets tss; ASSERT (negb (t =? 0));; mret t.
(** The argument is thread_current (). *)
Definition tss_update (thread : Z) : K tss_state unit :=
  t ← gets tss; ASSERT (negb (t =? 0));; write_ram (set_word (t + ESP0) (u32 (thread + PGSIZE))).
Definition tss_init (thread : Z) : K tss_state unit :=
  (fun s => match palloc_get_page (Z.lor PAL_ASSERT PAL_ZERO) (tss_pages s) with
            | Ok (a, p) => Ok (tt, mkTss p a)
            | Panic => Panic
            | NoFuel => NoFuel
            end);;
  t ← gets tss;
  write_ram (set_half (t + SS0) SEL_KDSEG);;
  write_ram (set_half (t + BITMAP) 0xdfff);;
  tss_update thread.

(** ** What the processor reads *)

Lemma half_at_ext m m' a : (forall x, a <= x < a + 2 -> m' x = m x) -> half_at m' a = half_at m a.
Proof. intros H. unfold half_at. by rewrite !H by lia. Qed.
Lemma half_at_set_eq a v m : 0 <= v < 2 ^ 16 -> half_at (set_half a v m) a = v.
Proof.
  intros Hv. rewrite <- (le_value_bytes 2 v Hv) at 2. unfold half_at. f_equal. cbn [le_bytes]. unfold set_half, within.
  rewrite !(proj2 (Z.leb_le _ _)), !(proj2 (Z.ltb_lt _ _)) by lia. cbn [andb].
  replace (8 * (a - a)) with 0 by lia. replace (8 * (a + 1 - a)) with 8 by lia. rewrite !Z.shiftr_div_pow2 by lia. change (2 ^ 0) with 1. by rewrite Z.div_1_r.
Qed.
Lemma set_half_ne a v m x : x < a \/ a + 2 <= x -> set_half a v m x = m x.
Proof. intros H. unfold set_half, within. by case_cmp. Qed.
Lemma set_word_ne a v m x : x < a \/ a + 4 <= x -> set_word a v m x = m x.
Proof. intros H. unfold set_word, within. by case_cmp. Qed.

(** The stack for ring 0, and whether a port may be used outside of ring 0: its bit in the map, at
    the address that the segment gives, has to be inside of the segment. *)
Definition stack_of (m : ram_t) (seg : segment) : Z * Z := (half_at m (sg_base seg + SS0), word_at m (sg_base seg + ESP0)).
Definition port_open (m : ram_t) (seg : segment) (port : Z) : Prop :=
  half_at m (sg_base seg + BITMAP) + port / 8 <= sg_limit seg /\ Z.testbit (m (sg_base seg + half_at m (sg_base seg + BITMAP) + port / 8)) (port mod 8) = false.

(** The segment is ready for a thread. *)
Record ready_for (thread : Z) (s : tss_state) : Prop := {
  rf_tss : 0 < tss s /\ tss s mod PGSIZE = 0 /\ tss s + PGSIZE <= 2 ^ 32;
  rf_esp0 : word_at (ram (tss_pages s)) (tss s + ESP0) = u32 (thread + PGSIZE);
  rf_ss0 : half_at (ram (tss_pages s)) (tss s + SS0) = SEL_KDSEG;
  rf_bitmap : half_at (ram (tss_pages s)) (tss s + BITMAP) = 0xdfff
}.
Lemma tss_update_ok thread old s : ready_for old s -> exists s', tss_update thread s = Ok (tt, s') /\ ready_for thread s' /\ tss s' = tss s.
Proof.
  intros [[H0 [H1 H2]] _ S B]. unfold tss_update. erewrite bind_ok by reflexivity. rewrite ASSERT_true by (by rewrite (proj2 (Z.eqb_neq _ 0)) by lia).
  eexists. split; [reflexivity|]. split; [|done]. split; cbn [tss tss_pages ram set_ram]; [done|apply word_at_set_eq, wrapu_range; lia| |].
  - rewrite <- S. apply half_at_ext. intros x Hx. apply set_word_ne. unfold ESP0, SS0 in *. lia.
  - rewrite <- B. apply half_at_ext. intros x Hx. apply set_word_ne. unfold ESP0, BITMAP in *. lia.
Qed.
Lemma tss_init_ok thread s n :
  pages_ok (tss_pages s) -> run_of (tss_pages s) false n 1 -> allocated (tss_pages s) n = false ->
  exists s', tss_init thread s = Ok (tt, s') /\ ready_for thread s' /\ pages_ok (tss_pages s').
Proof.
  intros Hp Hr Hn. unfold tss_init, palloc_get_page. destruct (palloc_get_multiple_ok (Z.lor PAL_ASSERT PAL_ZERO) 1 (tss_pages s) Hp ltac:(lia)) as [(a & p & E & G)|[H _]].
  2: { destruct (H n Hr) as (m & Hm & Ha). replace m with n in Ha by lia. congruence. }
  destruct (gt_addr _ _ _ _ _ G) as (A1 & A2 & A3). erewrite bind_ok by (rewrite E; reflexivity). erewrite bind_ok by reflexivity. cbn [tss].
  erewrite bind_ok by reflexivity. erewrite bind_ok by reflexivity. unfold tss_update. erewrite bind_ok by reflexivity. cbn [tss tss_pages].
  rewrite ASSERT_true by (by rewrite (proj2 (Z.eqb_neq a 0)) by lia). eexists. split; [reflexivity|]. split; [|apply pages_ok_ram, pages_ok_ram, pages_ok_ram, G].
  split; cbn [tss tss_pages ram set_ram]; [split; [done|]; split; [done|lia]|apply word_at_set_eq, wrapu_range; lia| |].
  - etrans; [apply half_at_ext; intros x Hx; apply set_word_ne; unfold ESP0, SS0 in *; lia|].
    etrans; [apply half_at_ext; intros x Hx; apply set_half_ne; unfold BITMAP, SS0 in *; lia|]. by apply half_at_set_eq.
  - etrans; [apply half_at_ext; intros x Hx; apply set_word_ne; unfold ESP0, BITMAP in *; lia|]. by apply half_at_set_eq.
Qed.

(** An interrupt from user mode finds the kernel stack of the running thread: after [tss_init] and
    [gdt_init], and after every switch of threads with [tss_update], the descriptor that the task
    register selects leads the processor to the kernel's data segment and the end of the page of the
    thread that was switched to last; and user programs may not use any port. *)
Theorem kernel_stack_found s n first threads gdt :
  pages_ok (tss_pages s) -> run_of (tss_pages s) false n 1 -> allocated (tss_pages s) n = false -> 0 <= gdt < 2 ^ 32 ->
  exists s1 t table gdtr seg, tss_init first s = Ok (tt, s1) /\ tss_get s1 = Ok (t, s1) /\ gdt_init gdt t = Ok (table, gdtr, SEL_TSS) /\
    selected table SEL_TSS = Some seg /\
    exists s2, iterM threads tss_update s1 = Ok (tt, s2) /\
      stack_of (ram (tss_pages s2)) seg = (SEL_KDSEG, u32 (default first (last threads) + PGSIZE)) /\
      forall port, 0 <= port < 65536 -> ~ port_open (ram (tss_pages s2)) seg port.
Proof.
  intros Hp Hr Hn Hg. destruct (tss_init_ok first s n Hp Hr Hn) as (s1 & E1 & R1 & _). pose proof (rf_tss _ _ R1) as (T0 & _ & T1). unfold PGSIZE in T1.
  destruct (gdt_segments gdt (tss s1) Hg ltac:(lia)) as (table & gdtr & Eg & _ & _ & _ & _ & _ & _ & _ & Hs).
  exists s1, (tss s1), table, gdtr, (mkSegment (tss s1) 0x67 9 0 0 1 1 0). split; [done|]. split.
  { unfold tss_get. erewrite bind_ok by reflexivity. by rewrite ASSERT_true by (by rewrite (proj2 (Z.eqb_neq _ 0)) by lia). }
  split; [done|]. split; [done|].
  assert (F : forall threads first s, ready_for first s -> exists s', iterM threads tss_update s = Ok (tt, s') /\ ready_for (default first (last threads)) s' /\ tss s' = tss s).
  { clear. induction threads as [|t threads IH]; intros first s R; [by exists s|]. destruct (tss_update_ok t first s R) as (s1 & E1 & R1 & T1).
    destruct (IH t s1 R1) as (s2 & E2 & R2 & T2). exists s2. cbn [iterM]. rewrite (bind_ok _ _ _ _ _ E1). split; [done|]. split; [|congruence].
    destruct threads as [|t' threads]; [done|]. cbn [last] in *. destruct (last (t' :: threads)) eqn:El; [done|]. by apply last_None in El. }
  destruct (F threads first s1 R1) as (s2 & E2 & [_ W S B] & T2). exists s2. split; [done|]. rewrite T2 in *. unfold stack_of, port_open. cbn [sg_base sg_limit].
  split; [by rewrite W, S|]. intros port Hport [H _]. rewrite B in H. pose proof (Z.div_pos port 8). lia.
Qed.
