(* ===== verification/Interrupt.v ===== *)
(** The interrupt system (threads/interrupt.c) and the handlers of user programs' exceptions and
    system calls (userprog/exception.c, userprog/syscall.c): the table of gates, registration and
    dispatch of handlers, and the acknowledgement of the interrupt controllers. *)

From stdpp Require Import strings.
From S2P Require Import Prelude KMonad CString Bytes Arith Stdio StdioOk Process Descr.

(** ** The state *)

(** Handler functions; those of the devices are numbered. *)
Inductive handler := H_kill | H_page_fault | H_syscall | H_device (n : Z).
(** What the processor and the controllers see: port writes, LIDT, and calls of [thread_yield]. *)
Inductive event := Out (port value : Z) | Lidt (operand : Z) | Yield.
(** A handler returns, or ends the thread with [thread_exit], which does not. *)
Inductive flow := Returned | Exited.

Record machine := mkMachine {
  idt : list Z;
  intr_handlers : list (option handler);
  intr_names : list (list Z);
  unexpected_cnt : list Z;
  in_external_intr : bool;
  yield_on_return : bool;
  intr_on : bool;
  page_fault_cnt : Z;
  cr2 : Z;
  console : list Z;
  events : list event
}.
Definition set_idt x m := mkMachine x (intr_handlers m) (intr_names m) (unexpected_cnt m) (in_external_intr m) (yield_on_return m) (intr_on m) (page_fault_cnt m) (cr2 m) (console m) (events m).
Definition set_handlers x m := mkMachine (idt m) x (intr_names m) (unexpected_cnt m) (in_external_intr m) (yield_on_return m) (intr_on m) (page_fault_cnt m) (cr2 m) (console m) (events m).
Definition set_names x m := mkMachine (idt m) (intr_handlers m) x (unexpected_cnt m) (in_external_intr m) (yield_on_return m) (intr_on m) (page_fault_cnt m) (cr2 m) (console m) (events m).
Definition set_unexpected x m := mkMachine (idt m) (intr_handlers m) (intr_names m) x (in_external_intr m) (yield_on_return m) (intr_on m) (page_fault_cnt m) (cr2 m) (console m) (events m).
Definition set_external x m := mkMachine (idt m) (intr_handlers m) (intr_names m) (unexpected_cnt m) x (yield_on_return m) (intr_on m) (page_fault_cnt m) (cr2 m) (console m) (events m).
Definition set_yield x m := mkMachine (idt m) (intr_handlers m) (intr_names m) (unexpected_cnt m) (in_external_intr m) x (intr_on m) (page_fault_cnt m) (cr2 m) (console m) (events m).
Definition set_on x m := mkMachine (idt m) (intr_handlers m) (intr_names m) (unexpected_cnt m) (in_external_intr m) (yield_on_return m) x (page_fault_cnt m) (cr2 m) (console m) (events m).
Definition set_faults x m := mkMachine (idt m) (intr_handlers m) (intr_names m) (unexpected_cnt m) (in_external_intr m) (yield_on_return m) (intr_on m) x (cr2 m) (console m) (events m).
Definition set_console x m := mkMachine (idt m) (intr_handlers m) (intr_names m) (unexpected_cnt m) (in_external_intr m) (yield_on_return m) (intr_on m) (page_fault_cnt m) (cr2 m) x (events m).
Definition set_events x m := mkMachine (idt m) (intr_handlers m) (intr_names m) (unexpected_cnt m) (in_external_intr m) (yield_on_return m) (intr_on m) (page_fault_cnt m) (cr2 m) (console m) x.

Definition emit (e : event) : K machine unit := modify (fun m => set_events (events m ++ [e]) m).
Definition outb (port value : Z) : K machine unit := emit (Out port value).
Definition say (format : String.string) (args : list arg) : K machine unit :=
  out ← lift (vprintf (str format ++ [10]) args); modify (fun m => set_console (console m ++ out) m).

(** ** Levels *)

Definition intr_get_level : K machine bool := gets intr_on.
Definition intr_context : K machine bool := gets in_external_intr.
Definition intr_enable : K machine bool :=
  old_level ← intr_get_level; c ← intr_context; ASSERT (negb c);; modify (set_on true);; mret old_level.
Definition intr_disable : K machine bool := old_level ← intr_get_level; modify (set_on false);; mret old_level.
Definition intr_set_level (level : bool) : K machine bool := if level then intr_enable else intr_disable.
Definition intr_yield_on_return : K machine unit := c ← intr_context; ASSERT c;; modify (set_yield true).

(** ** The interrupt controllers *)

Definition PIC0_CTRL : Z := 0x20.
Definition PIC0_DATA : Z := 0x21.
Definition PIC1_CTRL : Z := 0xa0.
Definition PIC1_DATA : Z := 0xa1.
Definition pic_init : K machine unit :=
  outb PIC0_DATA 0xff;; outb PIC1_DATA 0xff;;
  outb PIC0_CTRL 0x11;; outb PIC0_DATA 0x20;; outb PIC0_DATA 0x04;; outb PIC0_DATA 0x01;;
  outb PIC1_CTRL 0x11;; outb PIC1_DATA 0x28;; outb PIC1_DATA 0x02;; outb PIC1_DATA 0x01;;
  outb PIC0_DATA 0x00;; outb PIC1_DATA 0x00.
Definition pic_end_of_interrupt (irq : Z) : K machine unit :=
  ASSERT ((0x20 <=? irq) && (irq <? 0x30));;
  outb 0x20 0x20;;
  when (0x28 <=? irq) (outb 0xa0 0x20).

(** ** The table of gates *)

Definition INTR_CNT : Z := 256.

Section Table.
(** The addresses of the functions of intr-stubs.S. *)
Variable intr_stubs : Z -> Z.

Fixpoint init_gates (vecs : list Z) : K machine unit :=
  match vecs with
  | [] => mret tt
  | i :: vecs' => g ← lift (make_intr_gate (intr_stubs i) 0); modify (fun m => set_idt (zset (idt m) i g) m);; init_gates vecs'
  end.
Definition exception_names : list (Z * String.string) := [
  (0, "#DE Divide Error"); (1, "#DB Debug Exception"); (2, "NMI Interrupt"); (3, "#BP Breakpoint Exception");
  (4, "#OF Overflow Exception"); (5, "#BR BOUND Range Exceeded Exception"); (6, "#UD Invalid Opcode Exception");
  (7, "#NM Device Not Available Exception"); (8, "#DF Double Fault Exception"); (9, "Coprocessor Segment Overrun");
  (10, "#TS Invalid TSS Exception"); (11, "#NP Segment Not Present"); (12, "#SS Stack Fault Exception");
  (13, "#GP General Protection Exception"); (14, "#PF Page-Fault Exception"); (16, "#MF x87 FPU Floating-Point Error");
  (17, "#AC Alignment Check Exception"); (18, "#MC Machine-Check Exception"); (19, "#XF SIMD Floating-Point Exception")]%string.
(** [idt_address] is the address of the table. *)
Definition intr_init (idt_address : Z) : K machine unit :=
  pic_init;;
  init_gates (seqZ 0 INTR_CNT);;
  emit (Lidt (make_idtr_operand (8 * INTR_CNT - 1) idt_address));;
  modify (fun m => set_names (replicate 256 (str "unknown")) m);;
  modify (fun m => set_names (foldl (fun ns n => zset ns (fst n) (str (snd n))) (intr_names m) exception_names) m).

Definition register_handler (vec_no dpl : Z) (level : bool) (h : handler) (name : list Z) : K machine unit :=
  old ← gets (fun m => zget None (intr_handlers m) vec_no);
  ASSERT (match old with None => true | Some _ => false end);;
  g ← lift (if level then make_trap_gate (intr_stubs vec_no) dpl else make_intr_gate (intr_stubs vec_no) dpl);
  modify (fun m => set_idt (zset (idt m) vec_no g) m);;
  modify (fun m => set_handlers (zset (intr_handlers m) vec_no (Some h)) m);;
  modify (fun m => set_names (zset (intr_names m) vec_no name) m).
Definition intr_register_ext (vec_no : Z) (h : handler) (name : list Z) : K machine unit :=
  ASSERT ((0x20 <=? vec_no) && (vec_no <=? 0x2f));;
  register_handler vec_no 0 false h name.
Definition intr_register_int (vec_no dpl : Z) (level : bool) (h : handler) (name : list Z) : K machine unit :=
  ASSERT ((vec_no <? 0x20) || (0x2f <? vec_no));;
  register_handler vec_no dpl level h name.

(** ** exception.c and syscall.c: registration *)

Definition exception_init : K machine unit :=
  intr_register_int 3 3 true H_kill (str "#BP Breakpoint Exception");;
  intr_register_int 4 3 true H_kill (str "#OF Overflow Exception");;
  intr_register_int 5 3 true H_kill (str "#BR BOUND Range Exceeded Exception");;
  intr_register_int 0 0 true H_kill (str "#DE Divide Error");;
  intr_register_int 1 0 true H_kill (str "#DB Debug Exception");;
  intr_register_int 6 0 true H_kill (str "#UD Invalid Opcode Exception");;
  intr_register_int 7 0 true H_kill (str "#NM Device Not Available Exception");;
  intr_register_int 11 0 true H_kill (str "#NP Segment Not Present");;
  intr_register_int 12 0 true H_kill (str "#SS Stack Fault Exception");;
  intr_register_int 13 0 true H_kill (str "#GP General Protection Exception");;
  intr_register_int 16 0 true H_kill (str "#MF x87 FPU Floating-Point Error");;
  intr_register_int 19 0 true H_kill (str "#XF SIMD Floating-Point Exception");;
  intr_register_int 14 0 false H_page_fault (str "#PF Page-Fault Exception").
Definition syscall_init : K machine unit := intr_register_int 0x30 3 true H_syscall (str "syscall").

(** ** The handlers *)

(** The name of the running thread, and the handlers of the devices. *)
Variable thread_name : list Z.
Variable device : Z -> intr_frame -> K machine unit.

Definition intr_name (vec : Z) : K machine (list Z) := gets (fun m => zget [] (intr_names m) vec).

Definition unexpected_interrupt (f : intr_frame) : K machine unit :=
  m ← get;
  let n := u32 (zget 0 (unexpected_cnt m) (if_vec_no f) + 1) in
  modify (fun m => set_unexpected (zset (unexpected_cnt m) (if_vec_no f) n) m);;
  when (Z.land n (u32 (n - 1)) =? 0)
    (name ← intr_name (if_vec_no f); say "Unexpected interrupt %#04x (%s)" [Arg32 (if_vec_no f); ArgStr (Some name)]).

Definition intr_dump_frame (f : intr_frame) : K machine unit :=
  cr2 ← gets cr2;
  name ← intr_name (if_vec_no f);
  say "Interrupt %#04x (%s) at eip=%p" [Arg32 (if_vec_no f); ArgStr (Some name); Arg32 (if_eip f)];;
  say " cr2=%08x error=%08x" [Arg32 cr2; Arg32 (if_error_code f)];;
  say " eax=%08x ebx=%08x ecx=%08x edx=%08x" [Arg32 (if_eax f); Arg32 (if_ebx f); Arg32 (if_ecx f); Arg32 (if_edx f)];;
  say " esi=%08x edi=%08x esp=%08x ebp=%08x" [Arg32 (if_esi f); Arg32 (if_edi f); Arg32 (if_esp f); Arg32 (if_ebp f)];;
  say " cs=%04hx ds=%04hx es=%04hx ss=%04hx" [Arg32 (if_cs f); Arg32 (if_ds f); Arg32 (if_es f); Arg32 (if_ss f)].

Definition kill (f : intr_frame) : K machine flow :=
  if if_cs f =? SEL_UCSEG
  then
    name ← intr_name (if_vec_no f);
    say "%s: dying due to interrupt %#04x (%s)." [ArgStr (Some thread_name); Arg32 (if_vec_no f); ArgStr (Some name)];;
    intr_dump_frame f;;
    mret Exited
  else if if_cs f =? SEL_KCSEG
  then intr_dump_frame f;; panic
  else
    name ← intr_name (if_vec_no f);
    say "Interrupt %#04x (%s) in unknown segment %04x" [Arg32 (if_vec_no f); ArgStr (Some name); Arg32 (if_cs f)];;
    mret Exited.

Definition PF_P : Z := 0x1.
Definition PF_W : Z := 0x2.
Definition PF_U : Z := 0x4.
Definition page_fault (f : intr_frame) : K machine flow :=
  fault_addr ← gets cr2;
  intr_enable;;
  modify (fun m => set_faults (s64 (page_fault_cnt m + 1)) m);;
  let not_present := Z.land (if_error_code f) PF_P =? 0 in
  let write := negb (Z.land (if_error_code f) PF_W =? 0) in
  let user := negb (Z.land (if_error_code f) PF_U =? 0) in
  say "Page fault at %p: %s error %s page in %s context."
    [Arg32 fault_addr; ArgStr (Some (if not_present then str "not present" else str "rights violation"));
     ArgStr (Some (if write then str "writing" else str "reading")); ArgStr (Some (if user then str "user" else str "kernel"))];;
  kill f.
Definition exception_print_stats : K machine unit :=
  m ← get; say "Exception: %lld page faults" [Arg64 (page_fault_cnt m)].
Definition syscall_handler (f : intr_frame) : K machine flow := say "system call!" [];; mret Exited.

Definition run_handler (h : handler) (f : intr_frame) : K machine flow :=
  match h with
  | H_kill => kill f
  | H_page_fault => page_fault f
  | H_syscall => syscall_handler f
  | H_device n => device n f;; mret Returned
  end.

(** ** Dispatch *)

Definition is_external (vec : Z) : bool := (0x20 <=? vec) && (vec <? 0x30).
Definition intr_handler (frame : intr_frame) : K machine flow :=
  let external := is_external (if_vec_no frame) in
  when external (
    level ← intr_get_level; ASSERT (negb level);;
    c ← intr_context; ASSERT (negb c);;
    modify (set_external true);; modify (set_yield false));;
  h ← gets (fun m => zget None (intr_handlers m) (if_vec_no frame));
  r ← (match h with
       | Some h => run_handler h frame
       | None =>
           if (if_vec_no frame =? 0x27) || (if_vec_no frame =? 0x2f) then mret Returned
           else unexpected_interrupt frame;; mret Returned
       end);
  match r with
  | Exited => mret Exited
  | Returned =>
      when external (
        level ← intr_get_level; ASSERT (negb level);;
        c ← intr_context; ASSERT c;;
        modify (set_external false);;
        pic_end_of_interrupt (if_vec_no frame);;
        y ← gets yield_on_return;
        when y (emit Yield));;
      mret Returned
  end.
End Table.
