(* ===== verification/InterruptProps.v ===== *)
(** What the interrupt system promises: the table of gates always has the registered handlers
    with their privilege levels, user programs can neither reach a handler that is not for them
    nor panic the kernel with an exception, and every external interrupt is handled once, with
    interrupts off, and acknowledged. *)

From stdpp Require Import strings.
From S2P Require Import Prelude KMonad CString Bytes Arith Stdio StdioOk Process Descr Interrupt.

(** ** The table *)

Section Props.
Variable intr_stubs : Z -> Z.
Variable thread_name : list Z.
Variable device : Z -> intr_frame -> K machine unit.
Hypothesis Hstubs : forall v, 0 <= v < 256 -> 0 < intr_stubs v < 2 ^ 32.
Implicit Types (m : machine) (f : intr_frame).

(** What was registered for a vector: the privilege level, whether interrupts stay on, and
    the handler. *)
Definition registration : Type := Z -> option (Z * bool * handler).
Definition gate_type (on : bool) : Z := if on then 15 else 14.
Record tables (reg : registration) m : Prop := {
  tb_idt : length (idt m) = 256%nat;
  tb_handlers : length (intr_handlers m) = 256%nat;
  tb_names : length (intr_names m) = 256%nat;
  tb_counts : length (unexpected_cnt m) = 256%nat;
  tb_gate v : 0 <= v < 256 -> gate_of (zget 0 (idt m) v) =
    match reg v with
    | None => mkGate (intr_stubs v) SEL_KCSEG 14 0 1
    | Some (dpl, on, _) => mkGate (intr_stubs v) SEL_KCSEG (gate_type on) dpl 1
    end;
  tb_handler v : 0 <= v < 256 -> zget None (intr_handlers m) v = snd <$> reg v
}.
Definition register (reg : registration) (v : Z) (r : Z * bool * handler) : registration :=
  fun w => if w =? v then Some r else reg w.

(** The rest of the state is as it was. *)
Record same_rest m m' : Prop := {
  sr_external : in_external_intr m' = in_external_intr m;
  sr_on : intr_on m' = intr_on m
}.

Lemma handler_registered reg m v dpl on h name :
  tables reg m -> 0 <= v < 256 -> reg v = None -> 0 <= dpl <= 3 ->
  runs (register_handler intr_stubs v dpl on h name) m (fun _ m' => tables (register reg v (dpl, on, h)) m' /\ same_rest m m').
Proof.
  intros [T1 T2 T3 T4 T5 T6] Hv Hr Hd. unfold register_handler. apply runs_bind. eapply runs_ok; [reflexivity|].
  rewrite (T6 v Hv), Hr. apply runs_bind, runs_assert; [done|]. apply runs_bind.
  destruct (gates_decode (intr_stubs v) dpl (gate_type on) (Hstubs v Hv) Hd) as (g & Eg & _ & Dg); [destruct on; simpl; lia|].
  eapply (runs_ok _ _ g m); [unfold lift; destruct on; unfold make_trap_gate, make_intr_gate; simpl in Eg; rewrite Eg; done|].
  apply runs_bind. eapply runs_ok; [reflexivity|]. apply runs_bind. eapply runs_ok; [reflexivity|]. eapply runs_ok; [reflexivity|].
  split; [|done]. split; simpl; rewrite ?zset_length; try done.
  - intros w Hw. unfold register. destruct (Z.eqb_spec w v) as [->|Hne]; [rewrite zget_zset_eq by lia; done|].
    rewrite zget_zset_ne by done. by apply T5.
  - intros w Hw. unfold register. destruct (Z.eqb_spec w v) as [->|Hne]; [rewrite zget_zset_eq by lia; done|].
    rewrite zget_zset_ne by done. by apply T6.
Qed.
Lemma same_rest_trans m1 m2 m3 : same_rest m1 m2 -> same_rest m2 m3 -> same_rest m1 m3.
Proof. intros [A1 A2] [B1 B2]. split; congruence. Qed.
(** After some registrations. *)
Definition ready reg m0 m : Prop := tables reg m /\ same_rest m0 m.
Lemma register_int_ok reg m0 m v dpl on h name :
  ready reg m0 m -> (0 <= v < 0x20 \/ 0x2f < v < 256) -> reg v = None -> 0 <= dpl <= 3 ->
  runs (intr_register_int intr_stubs v dpl on h name) m (fun _ m' => ready (register reg v (dpl, on, h)) m0 m').
Proof.
  intros [T R] He Hr Hd. unfold intr_register_int. apply runs_bind, runs_assert.
  { destruct He; [by rewrite (proj2 (Z.ltb_lt v 0x20)) by lia|rewrite (proj2 (Z.ltb_lt 0x2f v)) by lia; apply orb_true_r]. }
  eapply runs_mono; [apply handler_registered; [done|lia|done|done]|]. intros _ m' [T' R']. split; [done|]. by eapply same_rest_trans.
Qed.
Lemma register_ext_ok reg m0 m v h name :
  ready reg m0 m -> 0x20 <= v <= 0x2f -> reg v = None ->
  runs (intr_register_ext intr_stubs v h name) m (fun _ m' => ready (register reg v (0, false, h)) m0 m').
Proof.
  intros [T R] Hv Hr. unfold intr_register_ext. apply runs_bind, runs_assert.
  { by rewrite (proj2 (Z.leb_le 0x20 v)), (proj2 (Z.leb_le v 0x2f)) by lia. }
  eapply runs_mono; [apply handler_registered; [done|lia|done|lia]|]. intros _ m' [T' R']. split; [done|]. by eapply same_rest_trans.
Qed.

(** ** The start *)

Record fresh_machine m : Prop := {
  fm_idt : length (idt m) = 256%nat;
  fm_handlers : intr_handlers m = replicate 256 None;
  fm_counts : length (unexpected_cnt m) = 256%nat
}.
Lemma init_gates_ok (k : nat) (j : Z) m :
  0 <= j -> j + Z.of_nat k <= 256 -> length (idt m) = 256%nat ->
  runs (init_gates intr_stubs (seqZ j (Z.of_nat k))) m (fun _ m' => exists t, m' = set_idt t m /\ length t = 256%nat /\
    (forall v, j <= v < j + Z.of_nat k -> gate_of (zget 0 t v) = mkGate (intr_stubs v) SEL_KCSEG 14 0 1) /\
    (forall v, v < j -> zget 0 t v = zget 0 (idt m) v)).
Proof.
  revert j m. induction k as [|k IH]; intros j m Hj Hk Hl.
  - apply runs_ret. exists (idt m). split; [by destruct m|]. split; [done|]. split; [lia|done].
  - rewrite seqZ_cons by lia. replace (Z.pred (Z.of_nat (S k))) with (Z.of_nat k) by lia. cbn [init_gates].
    destruct (gates_decode (intr_stubs j) 0 14 (Hstubs j ltac:(lia)) ltac:(lia) ltac:(lia)) as (g & Eg & _ & Dg).
    apply runs_bind. eapply (runs_ok _ _ g m); [unfold lift, make_intr_gate; by rewrite Eg|]. apply runs_bind. eapply runs_ok; [reflexivity|].
    eapply runs_mono; [apply IH; [lia|lia|simpl; by rewrite zset_length]|]. intros _ m' (t & -> & Ht & Hg & Hold). exists t. split; [done|].
    split; [done|]. split.
    + intros v Hv. destruct (Z.eq_dec v j) as [->|Hne]; [|apply Hg; lia]. rewrite Hold by lia. simpl. rewrite zget_zset_eq by lia. done.
    + intros v Hv. rewrite Hold by lia. simpl. by rewrite zget_zset_ne by lia.
Qed.
Lemma emits_ok {A} e (k : K machine A) m Q : (forall m', m' = set_events (events m ++ [e]) m -> runs k m' Q) -> runs (emit e;; k) m Q.
Proof. intros H. apply runs_bind. eapply runs_ok; [reflexivity|]. by apply H. Qed.
Definition nothing : registration := fun _ => None.
Lemma foldl_names_length ns l : length (foldl (fun ns (n : Z * String.string) => zset ns (fst n) (str (snd n))) ns l) = length ns.
Proof. revert ns. induction l as [|n l IH]; intros ns; simpl; [done|]. by rewrite IH, zset_length. Qed.
Lemma intr_init_ok a m :
  fresh_machine m -> runs (intr_init intr_stubs a) m (fun _ m' => tables nothing m' /\ same_rest m m').
Proof.
  intros [F1 F2 F3]. unfold intr_init. apply runs_bind. eapply runs_ok; [reflexivity|]. apply runs_bind.
  change INTR_CNT with (Z.of_nat 256). eapply runs_mono; [apply (init_gates_ok 256 0); [lia|lia|exact F1]|].
  intros _ m' (t & -> & Ht & Hg & _). apply runs_bind. eapply runs_ok; [reflexivity|]. apply runs_bind. eapply runs_ok; [reflexivity|].
  eapply runs_ok; [reflexivity|]. split; [|done]. split; cbn [idt intr_handlers intr_names unexpected_cnt set_names set_events set_idt].
  - done.
  - by rewrite F2.
  - by rewrite foldl_names_length, length_replicate.
  - done.
  - intros v Hv. by apply Hg.
  - intros v Hv. rewrite F2. unfold zget, zlookup, nothing. rewrite (proj2 (Z.leb_le 0 v)) by lia.
    by destruct (replicate 256 None !! Z.to_nat v) as [[h|]|] eqn:E; [apply lookup_replicate in E as [? _]|..].
Qed.
(** The order of registration of [main]: the timer, the keyboard, the exceptions, the system
    call, the serial port, and the disks of both channels. *)
Definition boot_interrupts (a : Z) : K machine unit :=
  intr_init intr_stubs a;;
  intr_register_ext intr_stubs 0x20 (H_device 0) (str "8254 Timer");;
  intr_register_ext intr_stubs 0x21 (H_device 1) (str "8042 Keyboard");;
  exception_init intr_stubs;;
  syscall_init intr_stubs;;
  intr_register_ext intr_stubs (0x20 + 4) (H_device 4) (str "serial");;
  intr_register_ext intr_stubs (14 + 0x20) (H_device 14) (str "ide0");;
  intr_register_ext intr_stubs (15 + 0x20) (H_device 15) (str "ide1");;
  mret tt.
Definition faults : list Z := [0; 1; 6; 7; 11; 12; 13; 16; 19].
Definition boot_registration (v : Z) : option (Z * bool * handler) :=
  if bool_decide (v ∈ [3; 4; 5]) then Some (3, true, H_kill)
  else if bool_decide (v ∈ faults) then Some (0, true, H_kill)
  else if v =? 14 then Some (0, false, H_page_fault)
  else if v =? 0x30 then Some (3, true, H_syscall)
  else if bool_decide (v ∈ [0x20; 0x21; 0x24; 0x2e; 0x2f]) then Some (0, false, H_device (v - 0x20))
  else None.

Lemma tables_same reg reg' m : (forall v, 0 <= v < 256 -> reg v = reg' v) -> tables reg m -> tables reg' m.
Proof. intros H [T1 T2 T3 T4 T5 T6]. split; try done; intros v Hv; rewrite <- H by done; auto. Qed.
Lemma all_vectors (P : Z -> Prop) : Forall P (seqZ 0 256) -> forall v, 0 <= v < 256 -> P v.
Proof. intros H v Hv. rewrite Forall_forall in H. apply H, elem_of_seqZ. lia. Qed.

Ltac register_int := eapply runs_mono; [eapply register_int_ok; [eassumption|lia|reflexivity|lia]|]; intros ? ? ?; cbv beta in *.
Ltac register_ext := eapply runs_mono; [eapply register_ext_ok; [eassumption|lia|reflexivity]|]; intros ? ? ?; cbv beta in *.
Lemma boot_ok a m : fresh_machine m -> runs (boot_interrupts a) m (fun _ m' => tables boot_registration m' /\ same_rest m m').
Proof.
  intros Hf. unfold boot_interrupts. apply runs_bind. eapply runs_mono; [by apply intr_init_ok|]. intros ? m0 R0.
  change (ready nothing m m0) in R0. do 2 (apply runs_bind; register_ext). apply runs_bind. unfold exception_init.
  do 12 (apply runs_bind; register_int). register_int. apply runs_bind. unfold syscall_init. register_int.
  do 3 (apply runs_bind; register_ext). apply runs_ret.
  match goal with H : ready _ m ?x |- _ /\ same_rest m ?x => destruct H as [T R] end. split; [|exact R].
  eapply tables_same; [|exact T]. apply all_vectors. repeat constructor.
Qed.
(** ** Messages *)

(** Only the text on the console changes. *)
Definition prints m m' : Prop := exists c, m' = set_console c m.
Lemma prints_refl m : prints m m.
Proof. exists (console m). by destruct m. Qed.
Lemma prints_trans m1 m2 m3 : prints m1 m2 -> prints m2 m3 -> prints m1 m3.
Proof. intros [c ->] [d ->]. by exists d. Qed.
Lemma say_prints format args m0 m :
  fits (length (str format ++ [10]) + 32) (str format ++ [10]) (kind_of <$> args) = true -> prints m0 m ->
  runs (say format args) m (fun _ m' => prints m0 m').
Proof.
  intros Hf Hp. destruct (fits_ok _ _ _ Hf) as [out Eo]. unfold say. apply runs_bind.
  eapply runs_ok; [unfold lift, vprintf; rewrite Eo; reflexivity|]. eapply runs_ok; [reflexivity|].
  eapply prints_trans; [done|]. by eexists.
Qed.
Ltac prints_next := apply runs_bind; eapply runs_mono; [apply say_prints; [reflexivity|eassumption]|]; intros ? ? ?; cbv beta in *.

Lemma dump_prints f m0 m : prints m0 m -> runs (intr_dump_frame f) m (fun _ m' => prints m0 m').
Proof.
  intros P0. unfold intr_dump_frame. do 2 (apply runs_bind; eapply runs_ok; [reflexivity|]). do 4 prints_next. by apply say_prints.
Qed.
Lemma kill_user f m : if_cs f = SEL_UCSEG -> runs (kill thread_name f) m (fun r m' => r = Exited /\ prints m m').
Proof.
  intros Hc. unfold kill. rewrite Hc, Z.eqb_refl. apply runs_bind. eapply runs_ok; [reflexivity|].
  pose proof (prints_refl m) as P0. prints_next. apply runs_bind. eapply runs_mono; [by apply (dump_prints f m)|].
  intros ? m' Hp. by apply runs_ret.
Qed.
Lemma kill_kernel f m : if_cs f = SEL_KCSEG -> kill thread_name f m = Panic.
Proof.
  intros Hc. unfold kill. rewrite Hc. change (SEL_KCSEG =? SEL_UCSEG) with false. rewrite Z.eqb_refl.
  destruct (dump_prints f m m (prints_refl m)) as ([] & m' & E & _). by rewrite (bind_ok _ _ _ _ _ E).
Qed.
Lemma page_fault_user f m :
  if_cs f = SEL_UCSEG -> in_external_intr m = false ->
  runs (page_fault thread_name f) m (fun r m' => r = Exited /\ page_fault_cnt m' = s64 (page_fault_cnt m + 1) /\ intr_on m' = true).
Proof.
  intros Hc He. unfold page_fault. apply runs_bind. eapply runs_ok; [reflexivity|]. apply runs_bind.
  eapply (runs_ok _ _ (intr_on m) (set_on true m)).
  { unfold intr_enable, intr_get_level, intr_context. do 2 (erewrite bind_ok by reflexivity). rewrite He, ASSERT_true by done.
    by erewrite bind_ok by reflexivity. }
  apply runs_bind. eapply runs_ok; [reflexivity|]. set (m1 := set_faults _ _). pose proof (prints_refl m1) as P1. cbv zeta.
  prints_next. eapply runs_mono; [by apply kill_user|]. intros r m' [-> Hp]. split; [done|].
  destruct (prints_trans _ _ _ H Hp) as [c ->]. done.
Qed.
Lemma syscall_exits f m : runs (syscall_handler f) m (fun r m' => r = Exited /\ prints m m').
Proof. unfold syscall_handler. pose proof (prints_refl m) as P0. prints_next. by apply runs_ret. Qed.
Lemma unexpected_returns f m0 m : prints m0 m -> exists m', unexpected_interrupt f m = Ok (tt, m') /\ intr_on m' = intr_on m /\ idt m' = idt m.
Proof.
  intros Hp. unfold unexpected_interrupt. erewrite bind_ok by reflexivity. cbv zeta. erewrite bind_ok by reflexivity.
  set (m1 := set_unexpected _ _). unfold when. destruct_if; [|by exists m1].
  destruct (say_prints "Unexpected interrupt %#04x (%s)" [Arg32 (if_vec_no f); ArgStr (Some (zget [] (intr_names m1) (if_vec_no f)))] m1 m1)
    as ([] & m' & E & c & ->); [reflexivity|apply prints_refl|].
  erewrite bind_ok by reflexivity. rewrite E. by exists (set_console c m1).
Qed.

(** ** Interrupts from user programs *)

(** An INT instruction or a fault; the processor takes #GP for an instruction that may not
    use the gate. *)
Inductive cause := Instruction (v : Z) | Fault (v : Z).
Definition cause_ok (c : cause) : Prop := match c with Instruction v => 0 <= v < 256 | Fault v => 0 <= v < 0x20 end.
Definition gate_at m (v : Z) : gate := gate_of (zget 0 (idt m) v).
Definition vector_of m (c : cause) : Z :=
  match c with Instruction v => if g_dpl (gate_at m v) <? 3 then 13 else v | Fault v => v end.
(** An interrupt gate turns interrupts off. *)
Definition enter m (v : Z) : machine := set_on (intr_on m && (g_type (gate_at m v) =? 15)) m.

Lemma user_gates reg m v : tables reg m -> 0 <= v < 256 -> g_dpl (gate_at m v) = match reg v with Some (dpl, _, _) => dpl | None => 0 end.
Proof. intros T Hv. unfold gate_at. rewrite (tb_gate _ _ T v Hv). by destruct (reg v) as [[[dpl on] h]|]. Qed.
Lemma boot_dpl v : 0 <= v < 256 ->
  match boot_registration v with Some (dpl, _, _) => dpl | None => 0 end = if bool_decide (v ∈ [3; 4; 5; 0x30]) then 3 else 0.
Proof. revert v. apply all_vectors. repeat constructor. Qed.
(** The handlers that user programs reach. *)
Definition for_users (h : handler) : bool := match h with H_device _ => false | _ => true end.
Lemma boot_user_handlers v : 0 <= v < 256 ->
  match boot_registration v with Some (_, _, h) => for_users h = negb (is_external v) | None => True end.
Proof. revert v. apply all_vectors. repeat constructor. Qed.
Lemma handler_exits h f m :
  for_users h = true -> if_cs f = SEL_UCSEG -> in_external_intr m = false -> runs (run_handler thread_name device h f) m (fun r _ => r = Exited).
Proof.
  intros Hh Hc He. destruct h as [| | |n]; [..|done].
  - eapply runs_mono; [by apply kill_user|]. by intros r m' [-> _].
  - eapply runs_mono; [by apply page_fault_user|]. by intros r m' [-> _].
  - eapply runs_mono; [apply syscall_exits|]. by intros r m' [-> _].
Qed.

(** C14: User programs cannot panic the kernel: after the start, whatever instruction or fault of a
    user program causes an interrupt, the dispatch returns.  It ends the program, but for a fault
    that has no handler, which is counted.  An INT instruction reaches a handler
    only through the gates 3, 4, 5 and 0x30, and else causes a general protection fault. *)
Theorem user_cannot_panic m c f :
  tables boot_registration m -> in_external_intr m = false -> cause_ok c -> if_cs f = SEL_UCSEG -> if_vec_no f = vector_of m c ->
  exists r m', intr_handler thread_name device f (enter m (vector_of m c)) = Ok (r, m') /\
    (r = Exited \/ exists v, c = Fault v /\ boot_registration v = None) /\
    (forall v, c = Instruction v -> vector_of m c = if bool_decide (v ∈ [3; 4; 5; 0x30]) then v else 13).
Proof.
  intros T He Hc Hcs Hvec.
  assert (Hins : forall v, c = Instruction v -> vector_of m c = if bool_decide (v ∈ [3; 4; 5; 0x30]) then v else 13).
  { intros v ->. cbn [cause_ok] in Hc. cbn [vector_of]. rewrite (user_gates _ _ v T Hc), (boot_dpl v Hc). by case_bool_decide. }
  assert (Hv : 0 <= vector_of m c < 256 /\ is_external (vector_of m c) = false /\
    (is_Some (boot_registration (vector_of m c)) \/ exists v, c = Fault v /\ boot_registration v = None)).
  { destruct c as [v|v]; simpl in Hc.
    - rewrite (Hins v eq_refl). case_bool_decide as Hin; [|split; [lia|]; split; [done|left; by eexists]].
      rewrite !elem_of_cons, elem_of_nil in Hin. split; [lia|]. destruct Hin as [-> |[-> |[-> |[-> |[]]]]]; (split; [done|left; by eexists]).
    - split; [simpl; lia|]. split; [unfold is_external; simpl; by rewrite (proj2 (Z.leb_gt 0x20 v)) by lia|].
      simpl. destruct (boot_registration v) eqn:E; [left; by eexists|right; eauto]. }
  destruct Hv as (Hr & Hext & Hreg). set (v := vector_of m c) in *. unfold intr_handler. cbv zeta. rewrite Hvec, Hext. cbn [when].
  erewrite bind_ok by reflexivity. erewrite bind_ok by reflexivity. cbn [enter set_on intr_handlers]. rewrite (tb_handler _ _ T v Hr).
  pose proof (boot_user_handlers v Hr) as Hu. destruct (boot_registration v) as [[[dpl on] h]|] eqn:Eb; cbn [fmap option_fmap option_map snd].
  - rewrite Hext in Hu. destruct (handler_exits h f (enter m v) Hu Hcs He) as (r & m' & E & ->).
    rewrite (bind_ok _ _ _ _ _ E). eexists _, _. split; [reflexivity|]. split; [by left|done].
  - destruct Hreg as [[? ?]|Hreg]; [done|]. assert (Hs : (v =? 0x27) || (v =? 0x2f) = false).
    { destruct Hreg as (v' & -> & _). simpl in Hc, v. subst v. destruct (Z.eqb_spec v' 0x27), (Z.eqb_spec v' 0x2f); simpl; lia || done. }
    rewrite Hs. destruct (unexpected_returns f _ (enter m v) (prints_refl _)) as (m' & E & _).
    rewrite bind_assoc, (bind_ok _ _ _ _ _ E). erewrite bind_ok by reflexivity. eexists _, _. split; [reflexivity|]. split; [by right|done].
Qed.
(** ** External interrupts *)

(** The messages that end an interrupt at the controllers. *)
Definition acknowledgement (vec : Z) : list event := Out 0x20 0x20 :: (if 0x28 <=? vec then [Out 0xa0 0x20] else []).

(** Every external interrupt with a handler is handled once: the handler runs with interrupts
    off, as code of an interrupt and without a request to yield; after it the controllers that
    raised the interrupt are told its end, and only then the thread yields if the handler asked
    for it. *)
Theorem external_interrupt_acknowledged reg m f dpl on n m1 :
  tables reg m -> 0x20 <= if_vec_no f < 0x30 -> reg (if_vec_no f) = Some (dpl, on, H_device n) ->
  intr_on m = false -> in_external_intr m = false ->
  device n f (set_yield false (set_external true m)) = Ok (tt, m1) -> intr_on m1 = false -> in_external_intr m1 = true ->
  intr_handler thread_name device f m =
    Ok (Returned, set_events (events m1 ++ acknowledgement (if_vec_no f) ++ (if yield_on_return m1 then [Yield] else [])) (set_external false m1)).
Proof.
  intros T Hv Hr Hon Hex Ed Hon1 Hex1. assert (Hext : is_external (if_vec_no f) = true).
  { unfold is_external. by rewrite (proj2 (Z.leb_le 0x20 _)), (proj2 (Z.ltb_lt _ 0x30)) by lia. }
  assert (Hh : zget None (intr_handlers m) (if_vec_no f) = Some (H_device n)) by (rewrite (tb_handler _ _ T), Hr by lia; done).
  assert (Ei : (0x20 <=? if_vec_no f) && (if_vec_no f <? 0x30) = true) by exact Hext.
  unfold intr_handler, acknowledgement, pic_end_of_interrupt, outb, emit, when, intr_get_level, intr_context, gets, modify, ASSERT, mbind, K_bind, mret, K_ret.
  cbv zeta. rewrite Hext, Hon. cbn [negb]. rewrite Hex. cbn [negb]. cbn [set_yield set_external intr_handlers]. rewrite Hh. cbn [run_handler].
  unfold mbind, K_bind, mret, K_ret. rewrite Ed, Hon1. cbn [negb]. rewrite Hex1, Ei. cbn [negb].
  destruct (0x28 <=? if_vec_no f); simpl; destruct (yield_on_return m1); simpl; by rewrite <- ?app_assoc.
Qed.

(** ** Unexpected interrupts *)

Lemma land_pred_pow2 n : 0 < n -> Z.land n (n - 1) = 0 <-> exists k, 0 <= k /\ n = 2 ^ k.
Proof.
  intros Hn. split.
  - intros H. exists (Z.log2 n). pose proof (Z.log2_nonneg n) as Hk. pose proof (Z.log2_spec n Hn) as [Hlo Hhi]. split; [done|].
    set (k := Z.log2 n) in *. rewrite Z.pow_succ_r in Hhi by done. destruct (Z.eq_dec n (2 ^ k)) as [|Hne]; [done|exfalso].
    assert (Hb : forall x, 2 ^ k <= x < 2 * 2 ^ k -> Z.testbit x k = true).
    { intros x Hx. replace x with (x mod 2 ^ k + 1 * 2 ^ k) by (rewrite Z.mod_eq by lia; replace (x / 2 ^ k) with 1; [lia|];
        apply (Z.div_unique _ _ _ (x - 2 ^ k)); lia).
      rewrite Z.testbit_true, Z.div_add, Z.div_small by (lia || apply Z.mod_pos_bound; lia). done. }
    assert (Ht : Z.testbit (Z.land n (n - 1)) k = true) by (rewrite Z.land_spec, !Hb by lia; done). by rewrite H, Z.bits_0 in Ht.
  - intros (k & Hk & ->). replace (2 ^ k - 1) with (Z.ones k) by (rewrite Z.ones_equiv; lia). rewrite Z.land_ones by done. apply Z.mod_same. lia.
Qed.
(** An interrupt without a handler is counted; a message is printed for the first, second, fourth
    time and so on, in general when the count is a power of two or wraps around to zero. *)
Theorem unexpected_rate_limited f m :
  let n := u32 (zget 0 (unexpected_cnt m) (if_vec_no f) + 1) in
  let m1 := set_unexpected (zset (unexpected_cnt m) (if_vec_no f) n) m in
  exists m', unexpected_interrupt f m = Ok (tt, m') /\ prints m1 m' /\
    ((n <> 0 /\ forall k, 0 <= k -> n <> 2 ^ k) -> m' = m1).
Proof.
  intros n m1. unfold unexpected_interrupt. erewrite bind_ok by reflexivity. fold n. cbv zeta. erewrite bind_ok by reflexivity. fold m1. unfold when.
  pose proof (wrapu_range 32 (zget 0 (unexpected_cnt m) (if_vec_no f) + 1) ltac:(lia)) as Hn. fold n in Hn.
  destruct (Z.eqb_spec (Z.land n (u32 (n - 1))) 0) as [Hz|Hz].
  - destruct (say_prints "Unexpected interrupt %#04x (%s)" [Arg32 (if_vec_no f); ArgStr (Some (zget [] (intr_names m1) (if_vec_no f)))] m1 m1)
      as ([] & m' & E & Hp); [reflexivity|apply prints_refl|].
    erewrite bind_ok by reflexivity. rewrite E. exists m'. split; [done|]. split; [done|]. intros [Hn0 Hnk]. exfalso.
    rewrite wrapu_small in Hz by lia. destruct (proj1 (land_pred_pow2 n ltac:(lia)) Hz) as (k & Hk & Hkn). by apply (Hnk k).
  - exists m1. split; [done|]. split; [apply prints_refl|done].
Qed.
End Props.

(** ** A machine *)

Definition ex_stubs (v : Z) : Z := 0xc0100000 + 16 * v.
Lemma ex_stubs_ok v : 0 <= v < 256 -> 0 < ex_stubs v < 2 ^ 32.
Proof. unfold ex_stubs. lia. Qed.
Definition ex_boot : machine := mkMachine (replicate 256 0) (replicate 256 None) [] (replicate 256 0) false false false 0 0 [] [].
Definition ex_device (n : Z) (f : intr_frame) : K machine unit := intr_yield_on_return.
Lemma ex_interrupts : exists m, boot_interrupts ex_stubs 0xc0010000 ex_boot = Ok (tt, m) /\ tables ex_stubs boot_registration m /\
  in_external_intr m = false /\ intr_on m = false.
Proof.
  destruct (boot_ok ex_stubs ex_stubs_ok 0xc0010000 ex_boot) as ([] & m & E & T & [R1 R2]); [by split|]. exists m. by rewrite R1, R2.
Qed.
Lemma user_cannot_panic_witness :
  exists m r m', boot_interrupts ex_stubs 0xc0010000 ex_boot = Ok (tt, m) /\
    intr_handler [] ex_device (mkFrame 0 0 0 0 0 0 0 0 0 0 0 0 13 0 0 0x08048000 SEL_UCSEG 0x202 0xc0000000 SEL_UDSEG) (enter m 13) = Ok (r, m') /\ r = Exited.
Proof.
  destruct ex_interrupts as (m & E & T & He & _).
  set (f := mkFrame 0 0 0 0 0 0 0 0 0 0 0 0 13 0 0 0x08048000 SEL_UCSEG 0x202 0xc0000000 SEL_UDSEG).
  assert (Hv : vector_of m (Instruction 0x21) = 13).
  { cbn [vector_of]. by rewrite (user_gates ex_stubs _ m 0x21 T ltac:(lia)). }
  destruct (user_cannot_panic ex_stubs [] ex_device m (Instruction 0x21) f T He) as (r & m' & Er & Hr & _).
  - split; [discriminate|reflexivity].
  - reflexivity.
  - by rewrite Hv.
  - rewrite Hv in Er. exists m, r, m'. split; [exact E|]. split; [exact Er|]. destruct Hr as [Hr|(v & Hc & _)]; [exact Hr|discriminate].
Defined.
