(* ===== verification/Clock.v ===== *)
(** Clocks (devices/pit.c, devices/timer.c, devices/rtc.c) and the speaker (devices/speaker.c):
    programming of the interval timer, calibration of delay loops, conversion of times to ticks
    and loops, the time of day, and beeps. *)

From S2P Require Import Prelude KMonad Bytes Stdio.

(** ** pit.c *)

Definition PIT_PORT_CONTROL : Z := 0x43.
Definition PIT_PORT_COUNTER (channel : Z) : Z := 0x40 + channel.
Definition PIT_HZ : Z := 1193180.
(** The counter value; 0 stands for 65536. *)
Definition pit_count (frequency : Z) : Z :=
  if frequency <? 19 then 0
  else if PIT_HZ <? frequency then 2
  else wrapu 16 (Z.quot (PIT_HZ + Z.quot frequency 2) frequency).
(** The port writes, made with interrupts off. *)
Definition pit_configure_channel (channel mode frequency : Z) : outcome (list (Z * Z)) :=
  if negb ((channel =? 0) || (channel =? 2)) then Panic
  else if negb ((mode =? 2) || (mode =? 3)) then Panic
  else
    let count := pit_count frequency in
    Ok [(PIT_PORT_CONTROL, u8 (Z.lor (Z.lor (Z.shiftl channel 6) 0x30) (Z.shiftl mode 1)));
        (PIT_PORT_COUNTER channel, u8 count); (PIT_PORT_COUNTER channel, u8 (Z.shiftr count 8))].

(** ** timer.c: calibration *)

Definition TIMER_FREQ : Z := 100.

Section Calibrate.
(** Whether a number of iterations takes longer than a tick. *)
Variable too_many_loops : Z -> bool.

Fixpoint double_loop (fuel : nat) (loops_per_tick : Z) : outcome Z :=
  match fuel with
  | O => NoFuel
  | S fuel' =>
      if negb (too_many_loops (u32 (Z.shiftl loops_per_tick 1)))
      then
        let loops_per_tick := u32 (Z.shiftl loops_per_tick 1) in
        if loops_per_tick =? 0 then Panic else double_loop fuel' loops_per_tick
      else Ok loops_per_tick
  end.
Fixpoint refine_loop (fuel : nat) (high_bit test_bit loops_per_tick : Z) : outcome Z :=
  match fuel with
  | O => NoFuel
  | S fuel' =>
      if negb (test_bit =? Z.shiftr high_bit 10)
      then
        refine_loop fuel' high_bit (Z.shiftr test_bit 1)
          (if negb (too_many_loops (Z.lor high_bit test_bit)) then Z.lor loops_per_tick test_bit else loops_per_tick)
      else Ok loops_per_tick
  end.
(** The value of [loops_per_tick]; a 32-bit value is doubled less than 33 times. *)
Definition timer_calibrate (intr_on : bool) : outcome Z :=
  if negb intr_on then Panic
  else
    match double_loop 33 (Z.shiftl 1 10) with
    | Ok loops_per_tick => refine_loop 33 loops_per_tick (Z.shiftr loops_per_tick 1) loops_per_tick
    | Panic => Panic
    | NoFuel => NoFuel
    end.
End Calibrate.

(** ** timer.c: sleeping and delays *)

(** What is done: sleep for some ticks, or run the delay loop. *)
Inductive wait_how := Sleep (ticks : Z) | Busy_wait (loops : Z).

Section Delays.
Variable loops_per_tick : Z.
Definition real_time_delay (num denom : Z) : outcome wait_how :=
  if negb (Z.rem denom 1000 =? 0) then Panic
  else Ok (Busy_wait (Z.quot (s64 (Z.quot (s64 (loops_per_tick * num)) 1000 * TIMER_FREQ)) (Z.quot denom 1000))).
Definition real_time_sleep (intr_on : bool) (num denom : Z) : outcome wait_how :=
  let ticks := Z.quot (s64 (num * TIMER_FREQ)) denom in
  if negb intr_on then Panic
  else if 0 <? ticks then Ok (Sleep ticks)
  else real_time_delay num denom.
Definition timer_msleep (intr_on : bool) (ms : Z) : outcome wait_how := real_time_sleep intr_on ms 1000.
Definition timer_usleep (intr_on : bool) (us : Z) : outcome wait_how := real_time_sleep intr_on us (1000 * 1000).
Definition timer_nsleep (intr_on : bool) (ns : Z) : outcome wait_how := real_time_sleep intr_on ns (1000 * 1000 * 1000).
Definition timer_mdelay (ms : Z) : outcome wait_how := real_time_delay ms 1000.
Definition timer_udelay (us : Z) : outcome wait_how := real_time_delay us (1000 * 1000).
Definition timer_ndelay (ns : Z) : outcome wait_how := real_time_delay ns (1000 * 1000 * 1000).
End Delays.

(** ** speaker.c *)

Definition SPEAKER_PORT_GATE : Z := 0x61.
Definition SPEAKER_GATE_ENABLE : Z := 0x03.
(** The register at the port of the gate, the interrupt flag, the port writes for the timer chip
    with the value of the gate register when they are made, and the waits. *)
Record speaker := mkSpeaker { gate : Z; intr_on : bool; programmed : list (Z * Z); waits : list (wait_how * Z) }.
Definition set_gate x s := mkSpeaker (u8 x) (intr_on s) (programmed s) (waits s).
Definition set_intr x s := mkSpeaker (gate s) x (programmed s) (waits s).
Definition intr_off : K speaker bool := old_level ← gets intr_on; modify (set_intr false);; mret old_level.

Definition speaker_off : K speaker unit :=
  old_level ← intr_off;
  modify (fun s => set_gate (Z.land (gate s) (Z.lnot SPEAKER_GATE_ENABLE)) s);;
  modify (set_intr old_level).
Definition speaker_on (frequency : Z) : K speaker unit :=
  if (20 <=? frequency) && (frequency <=? 20000)
  then
    old_level ← intr_off;
    ws ← lift (pit_configure_channel 2 3 frequency);
    modify (fun s => mkSpeaker (gate s) (intr_on s) (programmed s ++ ws) (waits s));;
    modify (fun s => set_gate (Z.lor (gate s) SPEAKER_GATE_ENABLE) s);;
    modify (set_intr old_level)
  else speaker_off.
Definition speaker_beep (loops_per_tick : Z) : K speaker unit :=
  on ← gets intr_on;
  when on (
    speaker_on 440;;
    s ← get;
    w ← lift (timer_msleep loops_per_tick (intr_on s) 250);
    modify (fun s => mkSpeaker (gate s) (intr_on s) (programmed s) (waits s ++ [(w, gate s)]));;
    speaker_off).

(** ** rtc.c *)

Definition RTC_REG_SEC : Z := 0.
Definition RTC_REG_MIN : Z := 2.
Definition RTC_REG_HOUR : Z := 4.
Definition RTC_REG_MDAY : Z := 7.
Definition RTC_REG_MON : Z := 8.
Definition RTC_REG_YEAR : Z := 9.

Section Rtc.
(** The registers of the clock at each of the reads. *)
Variable registers : nat -> Z -> Z.

(** The state is the number of reads. *)
Definition cmos_read (index : Z) : K nat Z := fun n => Ok (u8 (registers n index), S n).
Definition bcd_to_bin (x : Z) : Z := Z.land x 0x0f + Z.shiftr x 4 * 10.
Definition read_component (index : Z) : K nat Z := x ← cmos_read index; mret (bcd_to_bin x).
Record components := mkComponents { c_sec : Z; c_min : Z; c_hour : Z; c_mday : Z; c_mon : Z; c_year : Z }.
Fixpoint read_clock (fuel : nat) : K nat components :=
  match fuel with
  | O => no_fuel
  | S fuel' =>
      sec ← read_component RTC_REG_SEC;
      min ← read_component RTC_REG_MIN;
      hour ← read_component RTC_REG_HOUR;
      mday ← read_component RTC_REG_MDAY;
      mon ← read_component RTC_REG_MON;
      year ← read_component RTC_REG_YEAR;
      sec2 ← read_component RTC_REG_SEC;
      if negb (sec =? sec2) then read_clock fuel' else mret (mkComponents sec min hour mday mon year)
  end.

Definition days_per_month : list Z := [31; 28; 31; 30; 31; 30; 31; 31; 30; 31; 30; 31].
(** The loop over the months from [i]. *)
Fixpoint add_months (n : nat) (i time : Z) : Z :=
  match n with
  | O => time
  | S n' => add_months n' (i + 1) (u32 (time + zget 0 days_per_month (i - 1) * 24 * 60 * 60))
  end.
Definition seconds (c : components) : Z :=
  let year := if c_year c <? 70 then c_year c + 100 else c_year c in
  let year := year - 70 in
  let time := u32 (s32 ((year * 365 + Z.quot (year - 1) 4) * 24 * 60 * 60)) in
  let time := add_months (Z.to_nat (c_mon c)) 1 time in
  let time := if (2 <? c_mon c) && (Z.rem year 4 =? 0) then u32 (time + 24 * 60 * 60) else time in
  let time := u32 (time + (c_mday c - 1) * 24 * 60 * 60) in
  let time := u32 (time + c_hour c * 60 * 60) in
  let time := u32 (time + c_min c * 60) in
  u32 (time + c_sec c).
Definition rtc_get_time (fuel : nat) : K nat Z := c ← read_clock fuel; mret (seconds c).
End Rtc.

(** ** Properties of the interval timer *)

#[local] Ltac Zify.zify_post_hook ::= Z.to_euclidean_division_equations.

(** In the range of the timer the counter is the nearest one to the frequency, and it fits. *)
Theorem pit_count_nearest frequency :
  19 <= frequency <= PIT_HZ -> 1 <= pit_count frequency < 65536 /\ 2 * Z.abs (PIT_HZ - pit_count frequency * frequency) <= frequency.
Proof.
  unfold PIT_HZ. intros H. unfold pit_count, PIT_HZ. rewrite (proj2 (Z.ltb_ge frequency 19)), (proj2 (Z.ltb_ge _ frequency)) by lia.
  rewrite !Z.quot_div_nonneg by lia. set (n := 1193180 + frequency / 2).
  assert (Hn : n < 65536 * frequency /\ frequency <= n) by (unfold n; lia).
  pose proof (Z.div_mod n frequency ltac:(lia)) as E. pose proof (Z.mod_pos_bound n frequency ltac:(lia)) as M.
  assert (Hq : 1 <= n / frequency < 65536).
  { split; [apply Z.div_le_lower_bound; lia|]. apply Z.div_lt_upper_bound; lia. }
  rewrite wrapu_small by lia. split; [done|]. set (q := n / frequency) in *. set (r := n mod frequency) in *.
  assert (Hr : 1193180 - q * frequency = r - frequency / 2) by (unfold n in E; lia). rewrite Hr. clearbody r q. clear -M H. lia.
Qed.
(** The count of 1, which the comment calls illegal for the periodic mode, is programmed for
    all frequencies above two thirds of the timer's clock. *)
Theorem pit_count_one frequency : 795454 <= frequency <= PIT_HZ -> pit_count frequency = 1.
Proof.
  unfold PIT_HZ. intros H. unfold pit_count, PIT_HZ. rewrite (proj2 (Z.ltb_ge frequency 19)), (proj2 (Z.ltb_ge _ frequency)) by lia.
  rewrite !Z.quot_div_nonneg by lia. assert (E : (1193180 + frequency / 2) / frequency = 1).
  { symmetry. apply (Z.div_unique _ _ _ (1193180 + frequency / 2 - frequency)); lia. }
  by rewrite E.
Qed.

(** ** Properties of the calibration *)

Section Calibration.
(** The number of iterations that fit in a tick. *)
Variable capacity : Z.
Definition longer (loops : Z) : bool := capacity <? loops.
Hypothesis Hcap : 2 ^ 10 <= capacity < 2 ^ 31.

Lemma double_loop_ok fuel k :
  10 <= k -> 2 ^ k <= capacity -> (Z.to_nat (31 - k) < fuel)%nat ->
  exists h, k <= h <= 30 /\ double_loop longer fuel (2 ^ k) = Ok (2 ^ h) /\ 2 ^ h <= capacity < 2 ^ (h + 1).
Proof.
  revert k. induction fuel as [|fuel IH]; intros k Hk Hc Hf; [lia|]. cbn [double_loop].
  assert (Hk31 : k < 31) by (apply (Z.pow_lt_mono_r_iff 2); lia).
  assert (Hs : u32 (Z.shiftl (2 ^ k) 1) = 2 ^ (k + 1)).
  { rewrite Z.shiftl_mul_pow2, <- Z.pow_add_r by lia. apply wrapu_small. split; [lia|]. apply Z.pow_lt_mono_r; lia. }
  rewrite Hs. unfold longer at 1. destruct (Z.ltb_spec capacity (2 ^ (k + 1))) as [Hlt|Hge]; cbn [negb].
  - exists k. split; [lia|]. split; [done|lia].
  - assert (k + 1 < 31) by (apply (Z.pow_lt_mono_r_iff 2); lia).
    rewrite (proj2 (Z.eqb_neq (2 ^ (k + 1)) 0)) by lia. destruct (IH (k + 1)) as (h & Hh & E & Hr); [lia|lia|lia|].
    exists h. split; [lia|]. done.
Qed.

(** The bits from [j] on, below [h]. *)
Lemma refine_loop_ok fuel h j l :
  10 <= h <= 30 -> h - 10 <= j < h -> 2 ^ h <= l < 2 ^ (h + 1) -> l mod 2 ^ (j + 1) = 0 -> (Z.to_nat (j - (h - 10)) < fuel)%nat ->
  exists l', refine_loop longer fuel (2 ^ h) (2 ^ j) l = Ok l' /\ 2 ^ h <= l' < 2 ^ (h + 1).
Proof.
  revert j l. induction fuel as [|fuel IH]; intros j l Hh Hj Hl Hm Hf; [lia|]. cbn [refine_loop].
  assert (Hs : Z.shiftr (2 ^ h) 10 = 2 ^ (h - 10)) by (rewrite Z.shiftr_div_pow2, <- Z.pow_sub_r by lia; done).
  rewrite Hs. destruct (Z.eqb_spec (2 ^ j) (2 ^ (h - 10))) as [He|Hne]; cbn [negb]; [by exists l|].
  assert (j <> h - 10) by congruence.
  assert (Hs1 : Z.shiftr (2 ^ j) 1 = 2 ^ (j - 1)) by (rewrite Z.shiftr_div_pow2, <- Z.pow_sub_r by lia; done). rewrite Hs1.
  assert (Hp : 2 ^ (j + 1) = 2 * 2 ^ j) by (rewrite Z.pow_add_r by lia; lia). pose proof (Z.pow_pos_nonneg 2 j ltac:(lia) ltac:(lia)) as Hpos.
  assert (Hsum : Z.lor l (2 ^ j) = l + 2 ^ j).
  { rewrite Z.lor_comm, (lor_add _ _ (j + 1)) by (done || lia). lia. }
  assert (Hm1 : l mod 2 ^ j = 0) by (apply Z.mod_divide in Hm as [q ->]; [|lia]; rewrite Hp, Z.mul_assoc; apply Z.mod_mul; lia).
  assert (Hd : exists q, 2 ^ (h + 1) = q * 2 ^ (j + 1)) by (exists (2 ^ (h - j)); rewrite <- Z.pow_add_r by lia; f_equal; lia).
  assert (Hroom : l + 2 ^ (j + 1) <= 2 ^ (h + 1)).
  { destruct Hd as [q Hq]. apply Z.mod_divide in Hm as [r ->]; [|lia].
    assert (r < q) by (apply (Z.mul_lt_mono_pos_r (2 ^ (j + 1))); lia). rewrite Hq.
    replace (r * 2 ^ (j + 1) + 2 ^ (j + 1)) with ((r + 1) * 2 ^ (j + 1)) by lia. apply Z.mul_le_mono_nonneg_r; lia. }
  apply IH; [done|lia| | |lia].
  - destruct (negb (longer _)); [rewrite Hsum; lia|lia].
  - replace (j - 1 + 1) with j by lia. destruct (negb (longer _)); [|done]. rewrite Hsum.
    rewrite <- (Z.mul_1_l (2 ^ j)) at 1. by rewrite Z.mod_add by lia.
Qed.

(** Calibration returns when a tick has room for between two to the power 10 and 31 iterations,
    with a value that has the right highest bit: it is wrong by less than a factor of two. *)
Theorem calibration_within_factor_two :
  exists l, timer_calibrate longer true = Ok l /\ capacity < 2 * l /\ l < 2 * capacity.
Proof.
  unfold timer_calibrate. cbn [negb]. change (Z.shiftl 1 10) with (2 ^ 10).
  destruct (double_loop_ok 33 10) as (h & Hh & -> & Hc); [lia|lia|lia|].
  assert (Hs1 : Z.shiftr (2 ^ h) 1 = 2 ^ (h - 1)) by (rewrite Z.shiftr_div_pow2, <- Z.pow_sub_r by lia; done). rewrite Hs1.
  assert (Hp : 2 ^ (h + 1) = 2 * 2 ^ h) by (rewrite Z.pow_add_r by lia; lia).
  destruct (refine_loop_ok 33 h (h - 1) (2 ^ h)) as (l & -> & Hl); [lia|lia|lia| |lia|].
  { replace (h - 1 + 1) with h by lia. apply Z.mod_same. lia. }
  exists l. split; [done|]. lia.
Qed.
End Calibration.
(** The bits are tested one by one with the highest bit alone and not with the bits found so
    far: a tick with room for 1536 iterations is taken for one with room for 2046. *)
Theorem calibration_overshoots : timer_calibrate (longer 1536) true = Ok 2046.
Proof. vm_compute. reflexivity. Qed.

(** ** Properties of delays *)

(** The delay loop runs for the time that was asked for, rounded down, but for the iterations
    of a thousandth of the time's unit. *)
Theorem delay_accurate loops_per_tick num denom :
  0 <= loops_per_tick -> 0 <= num -> loops_per_tick * num * TIMER_FREQ < 2 ^ 63 -> denom ∈ [1000; 1000000; 1000000000] ->
  exists loops, real_time_delay loops_per_tick num denom = Ok (Busy_wait loops) /\
    loops * denom <= loops_per_tick * num * TIMER_FREQ < (loops + 1) * denom + 1000 * TIMER_FREQ.
Proof.
  unfold TIMER_FREQ. intros Hl Hn Hx Hd. set (x := loops_per_tick * num) in *. assert (0 <= x) by (unfold x; nia). unfold real_time_delay, TIMER_FREQ. fold x.
  clearbody x. rewrite (wraps_small 64 x) by lia. rewrite (Z.quot_div_nonneg x 1000) by lia. set (q := x / 1000).
  assert (Hq : 1000 * q <= x < 1000 * q + 1000) by (unfold q; lia). clearbody q. rewrite wraps_small by lia. assert (0 <= q) by lia.
  assert (Hd' : exists d, denom = 1000 * d /\ 0 < d).
  { rewrite !elem_of_cons, elem_of_nil in Hd. destruct Hd as [-> |[-> |[-> |[]]]]; [by exists 1|by exists 1000|by exists 1000000]. }
  destruct Hd' as (d & -> & Hd'). rewrite (Z.mul_comm 1000 d), Z.rem_mul, Z.quot_mul by lia. cbn [Z.eqb negb]. eexists. split; [reflexivity|].
  rewrite Z.quot_div_nonneg by lia. pose proof (Z.div_mod (q * 100) d ltac:(lia)) as E. pose proof (Z.mod_pos_bound (q * 100) d Hd') as M.
  set (r := q * 100 / d) in *. clearbody r. nia.
Qed.
(** The sleeping functions sleep for whole ticks, rounded down, and use the delay loop for
    times of less than a tick. *)
Theorem sleep_whole_ticks loops_per_tick num denom :
  0 <= num -> num * TIMER_FREQ < 2 ^ 63 -> denom ∈ [1000; 1000000; 1000000000] ->
  real_time_sleep loops_per_tick true num denom =
    if num * TIMER_FREQ <? denom then real_time_delay loops_per_tick num denom else Ok (Sleep (num * TIMER_FREQ / denom)).
Proof.
  unfold TIMER_FREQ. intros Hn Hx Hd. unfold real_time_sleep, TIMER_FREQ. cbn [negb]. rewrite wraps_small by lia.
  assert (0 < denom) by (rewrite !elem_of_cons, elem_of_nil in Hd; lia). rewrite Z.quot_div_nonneg by lia.
  destruct (Z.ltb_spec (num * 100) denom) as [Hlt|Hge]; [by rewrite Z.div_small by lia|].
  rewrite (proj2 (Z.ltb_lt 0 _)); [done|]. apply Z.div_str_pos. lia.
Qed.

(** ** The time of day *)

(** The calendar. *)
Definition leap (year : Z) : bool := (year mod 4 =? 0) && (negb (year mod 100 =? 0) || (year mod 400 =? 0)).
Definition month_length (year month : Z) : Z := zget 0 days_per_month (month - 1) + (if (month =? 2) && leap year then 1 else 0).
(** The days of [n] years from [year], and of [n] months of a year from [month]. *)
Fixpoint days_in_years (n : nat) (year : Z) : Z :=
  match n with O => 0 | S n' => (if leap year then 366 else 365) + days_in_years n' (year + 1) end.
Fixpoint days_in_months (n : nat) (year month : Z) : Z :=
  match n with O => 0 | S n' => month_length year month + days_in_months n' year (month + 1) end.
Definition days_since_1970 (year month mday : Z) : Z :=
  days_in_years (Z.to_nat (year - 1970)) 1970 + days_in_months (Z.to_nat (month - 1)) year 1 + (mday - 1).
Definition unix_time (year month mday hour min sec : Z) : Z :=
  days_since_1970 year month mday * 86400 + hour * 3600 + min * 60 + sec.

Definition bcd (x : Z) : Z := 16 * (x / 10) + x mod 10.
Lemma bcd_ok x : 0 <= x < 100 -> bcd_to_bin (u8 (bcd x)) = x.
Proof.
  intros H. assert (Hb : 0 <= bcd x < 256) by (unfold bcd; lia). rewrite wrapu_small by done. unfold bcd_to_bin.
  change 15 with (Z.ones 4). rewrite Z.land_ones, Z.shiftr_div_pow2 by lia. change (2 ^ 4) with 16. unfold bcd. lia.
Qed.

(** A clock that shows a date and a time. *)
Definition shows (year month mday hour min sec : Z) (index : Z) : Z :=
  bcd (if index =? RTC_REG_SEC then sec else if index =? RTC_REG_MIN then min else if index =? RTC_REG_HOUR then hour
       else if index =? RTC_REG_MDAY then mday else if index =? RTC_REG_MON then month else year mod 100).

Lemma u32_add a b : u32 (u32 a + b) = u32 (a + b).
Proof. unfold u32, wrapu. apply Z.add_mod_idemp_l. lia. Qed.
(** The days that the code counts for a year since 1970 and a month. *)
Fixpoint month_sum (n : nat) (i : Z) : Z := match n with O => 0 | S n' => zget 0 days_per_month (i - 1) + month_sum n' (i + 1) end.
Definition counted_days (y month : Z) : Z :=
  y * 365 + Z.quot (y - 1) 4 + month_sum (Z.to_nat month) 1 + (if (2 <? month) && (Z.rem y 4 =? 0) then 1 else 0).
Lemma add_months_sum n i time : add_months n i (u32 time) = u32 (time + month_sum n i * 86400).
Proof.
  revert i time. induction n as [|n IH]; intros i time; cbn [add_months month_sum]; [f_equal; lia|]. rewrite u32_add, IH. f_equal. lia.
Qed.
Lemma seconds_sum y month mday hour min sec :
  0 <= y < 68 ->
  seconds (mkComponents sec min hour mday month ((1970 + y) mod 100)) =
    u32 ((counted_days y month + (mday - 1)) * 86400 + hour * 3600 + min * 60 + sec).
Proof.
  intros Hy. unfold seconds. cbn [c_sec c_min c_hour c_mday c_mon c_year].
  assert (Ey : (if (1970 + y) mod 100 <? 70 then (1970 + y) mod 100 + 100 else (1970 + y) mod 100) - 70 = y).
  { destruct (Z.ltb_spec ((1970 + y) mod 100) 70); lia. }
  rewrite Ey. assert (Hq : - 1 < Z.quot (y - 1) 4 <= y). { destruct (Z.eq_dec y 0) as [->|]; [done|]. rewrite Z.quot_div_nonneg by lia. lia. }
  rewrite (wraps_small 32) by (change (32 - 1) with 31; lia). rewrite add_months_sum. unfold counted_days.
  destruct ((2 <? month) && (Z.rem y 4 =? 0)); repeat (rewrite u32_add || rewrite <- Z.add_assoc); apply (f_equal (wrapu 32)); lia.
Qed.
Definition late_by (y month : Z) : Z := counted_days y month - (days_in_years (Z.to_nat y) 1970 + days_in_months (Z.to_nat (month - 1)) (1970 + y) 1).
Lemma late_by_bounds y month : 0 <= y < 68 -> 1 <= month <= 12 -> 26 <= late_by y month <= 32 /\ 0 <= counted_days y month <= 25000.
Proof.
  intros Hy Hm. assert (H : Forall (fun y => Forall (fun m => (26 <=? late_by y m) && (late_by y m <=? 32) && (0 <=? counted_days y m) && (counted_days y m <=? 25000) = true) (seqZ 1 12)) (seqZ 0 68)).
  { apply (bool_decide_unpack _). vm_compute. exact I. }
  rewrite Forall_forall in H. specialize (H y ltac:(apply elem_of_seqZ; lia)). rewrite Forall_forall in H.
  specialize (H month ltac:(apply elem_of_seqZ; lia)). rewrite !andb_true_iff, !Z.leb_le in H. lia.
Qed.

(** The clock is read wrong: for every date from 1970 to 2037 that the real-time clock shows,
    [rtc_get_time] returns a time that is between 26 and 32 days later than the seconds since the
    start of 1970. *)
Theorem rtc_time_late y month mday hour min sec fuel n :
  0 <= y < 68 -> 1 <= month <= 12 -> 1 <= mday <= 31 -> 0 <= hour < 24 -> 0 <= min < 60 -> 0 <= sec < 60 -> (0 < fuel)%nat ->
  exists t n', rtc_get_time (fun _ => shows (1970 + y) month mday hour min sec) fuel n = Ok (t, n') /\
    26 * 86400 <= t - unix_time (1970 + y) month mday hour min sec <= 32 * 86400.
Proof.
  intros Hy Hm Hd Hh Hi Hs Hf. destruct fuel as [|fuel]; [lia|]. pose proof (late_by_bounds y month Hy Hm) as [Hl Hc].
  set (regs := fun _ : nat => shows (1970 + y) month mday hour min sec).
  assert (Er : forall k, read_clock regs (S fuel) k = Ok (mkComponents sec min hour mday month ((1970 + y) mod 100), S (S (S (S (S (S (S k)))))))).
  { intros k. cbn [read_clock]. unfold read_component, cmos_read, regs, mbind, K_bind, mret, K_ret. cbv beta iota.
    change (shows (1970 + y) month mday hour min sec RTC_REG_SEC) with (bcd sec). change (shows (1970 + y) month mday hour min sec RTC_REG_MIN) with (bcd min).
    change (shows (1970 + y) month mday hour min sec RTC_REG_HOUR) with (bcd hour). change (shows (1970 + y) month mday hour min sec RTC_REG_MDAY) with (bcd mday).
    change (shows (1970 + y) month mday hour min sec RTC_REG_MON) with (bcd month). change (shows (1970 + y) month mday hour min sec RTC_REG_YEAR) with (bcd ((1970 + y) mod 100)).
    rewrite !bcd_ok by lia. by rewrite Z.eqb_refl. }
  eexists _, _. unfold rtc_get_time. rewrite (bind_ok _ _ _ _ _ (Er n)). split; [reflexivity|]. rewrite seconds_sum by done.
  rewrite wrapu_small by lia. unfold unix_time, days_since_1970. replace (1970 + y - 1970) with y by lia. unfold late_by in Hl. lia.
Qed.
Lemma rtc_time_late_witness :
  exists t n', rtc_get_time (fun _ => shows (1970 + 0) 1 1 0 0 0) 1%nat O = Ok (t, n') /\ 26 * 86400 <= t - unix_time (1970 + 0) 1 1 0 0 0 <= 32 * 86400.
Proof. apply (rtc_time_late 0 1 1 0 0 0 1%nat O); first [lia | split; [discriminate|reflexivity]]. Defined.

(** ** The beep *)

Lemma gate_bits g : 0 <= g < 256 -> u8 (Z.lor g 3) = Z.lor g 3 /\ u8 (Z.land (Z.lor g 3) (Z.lnot 3)) = Z.land g 0xfc.
Proof.
  intros H. assert (E : forallb (fun g => (u8 (Z.lor g 3) =? Z.lor g 3) && (u8 (Z.land (Z.lor g 3) (Z.lnot 3)) =? Z.land g 0xfc)) (seqZ 0 256) = true) by reflexivity.
  rewrite forallb_forall in E. specialize (E g). rewrite andb_true_iff, !Z.eqb_eq in E. apply E, list_elem_of_In, elem_of_seqZ. lia.
Qed.
(** A beep sounds for a quarter of a second, with the gate of the speaker open, and ends with the
    gate closed and the other bits of its register as before; with interrupts off nothing is done. *)
Theorem beep_ends lpt s :
  0 <= gate s < 256 ->
  exists s', speaker_beep lpt s = Ok (tt, s') /\
    if intr_on s
    then gate s' = Z.land (gate s) 0xfc /\ intr_on s' = true /\ waits s' = waits s ++ [(Sleep 25, Z.lor (gate s) 3)] /\
         programmed s' = programmed s ++ [(0x43, 0xb6); (0x42, pit_count 440 mod 256); (0x42, pit_count 440 / 256)]
    else s' = s.
Proof.
  intros Hg. destruct s as [g [] p w]; cbn [gate intr_on programmed waits] in *; [|by eexists].
  destruct (gate_bits g Hg) as [E1 E2]. eexists. split; [reflexivity|]. cbn [gate intr_on programmed waits set_gate set_intr].
  unfold SPEAKER_GATE_ENABLE. rewrite !E1, E2. repeat split.
Qed.
