(* ===== verification/Vga.v ===== *)
(** The text display (devices/vga.c): characters and control characters on a screen of 80 by 25
    cells, scrolling, and the cursor of the hardware; and the proof that the screen is a window
    on an endless sheet of paper. *)

From S2P Require Import Prelude KMonad Bytes.

Definition COL_CNT : Z := 80.
Definition ROW_CNT : Z := 25.
Definition GRAY_ON_BLACK : Z := 0x07.

(** ** The display *)

(** A character and its attribute. *)
Definition cell : Type := Z * Z.
Definition blank : cell := (32, GRAY_ON_BLACK).
Definition no_cell : cell := (0, 0).

(** The frame buffer, the cursor, whether [init] was done, the registers of the controller and
    the one that is selected, and the number of beeps. *)
Record vga := mkVga {
  fb : list (list cell); cx : Z; cy : Z; inited : bool; crtc : Z -> Z; crtc_index : Z; beeps : Z
}.
Definition set_fb x v := mkVga x (cx v) (cy v) (inited v) (crtc v) (crtc_index v) (beeps v).
Definition set_cx x v := mkVga (fb v) x (cy v) (inited v) (crtc v) (crtc_index v) (beeps v).
Definition set_cy x v := mkVga (fb v) (cx v) x (inited v) (crtc v) (crtc_index v) (beeps v).
Definition set_inited v := mkVga (fb v) (cx v) (cy v) true (crtc v) (crtc_index v) (beeps v).
Definition set_crtc r i v := mkVga (fb v) (cx v) (cy v) (inited v) r i (beeps v).
Definition set_beeps x v := mkVga (fb v) (cx v) (cy v) (inited v) (crtc v) (crtc_index v) x.

(** The controller at the ports 0x3d4 and 0x3d5: a word selects a register and stores its
    high byte in it. *)
Definition outw_3d4 (w : Z) : K vga unit := modify (fun v =>
  set_crtc (fun i => if i =? w mod 256 then w / 256 mod 256 else crtc v i) (w mod 256) v).
Definition outb_3d4 (b : Z) : K vga unit := modify (fun v => set_crtc (crtc v) b v).
Definition inb_3d5 : K vga Z := gets (fun v => u8 (crtc v (crtc_index v))).

(** A cell of the buffer; outside of it is a panic. *)
Definition put_cell (y x : Z) (c : cell) : K vga unit :=
  v ← get;
  ASSERT ((0 <=? y) && (y <? ROW_CNT) && (0 <=? x) && (x <? COL_CNT));;
  modify (fun v => set_fb (zset (fb v) y (zset (zget [] (fb v) y) x c)) v).

Fixpoint clear_cells (n : nat) (y x : Z) : K vga unit :=
  match n with
  | O => mret tt
  | S n' => put_cell y x blank;; clear_cells n' y (x + 1)
  end.
Definition clear_row (y : Z) : K vga unit := clear_cells 80 y 0.

Definition move_cursor : K vga unit :=
  v ← get;
  let cp := wrapu 16 (cx v + COL_CNT * cy v) in
  outw_3d4 (Z.lor 0x0e (Z.land cp 0xff00));;
  outw_3d4 (wrapu 16 (Z.lor 0x0f (Z.shiftl cp 8))).
Definition find_cursor : K vga (Z * Z) :=
  outb_3d4 0x0e;;
  hi ← inb_3d5;
  let cp := wrapu 16 (Z.shiftl hi 8) in
  outb_3d4 0x0f;;
  lo ← inb_3d5;
  let cp := Z.lor cp lo in
  mret (cp mod COL_CNT, cp / COL_CNT).
Definition init : K vga unit :=
  v ← get;
  when (negb (inited v))
    ('(x, y) ← find_cursor; modify (set_cx x);; modify (set_cy y);; modify set_inited).

Definition newline : K vga unit :=
  modify (set_cx 0);;
  modify (fun v => set_cy (cy v + 1) v);;
  v ← get;
  when (ROW_CNT <=? cy v) (
    modify (set_cy (ROW_CNT - 1));;
    modify (fun v => set_fb (drop 1 (fb v) ++ [zget [] (fb v) (ROW_CNT - 1)]) v);;
    clear_row (ROW_CNT - 1)).
Fixpoint clear_rows (n : nat) (y : Z) : K vga unit :=
  match n with
  | O => mret tt
  | S n' => clear_row y;; clear_rows n' (y + 1)
  end.
Definition cls : K vga unit :=
  clear_rows 25 0;;
  modify (set_cy 0);; modify (set_cx 0);;
  move_cursor.

(** [speaker_beep] beeps if interrupts are on. *)
Definition vga_putc (intr_on : bool) (c : Z) : K vga unit :=
  init;;
  (if c =? 10 then newline
   else if c =? 12 then cls
   else if c =? 8 then v ← get; when (0 <? cx v) (modify (fun v => set_cx (cx v - 1) v))
   else if c =? 13 then modify (set_cx 0)
   else if c =? 9 then
     modify (fun v => set_cx ((cx v + 1 + 7) / 8 * 8) v);;
     v ← get; when (COL_CNT <=? cx v) newline
   else if c =? 7 then when intr_on (modify (fun v => set_beeps (beeps v + 1) v))
   else
     v ← get;
     put_cell (cy v) (cx v) (u8 c, GRAY_ON_BLACK);;
     modify (fun v => set_cx (cx v + 1) v);;
     v ← get; when (COL_CNT <=? cx v) newline);;
  move_cursor.

(** ** Paper *)

(** An endless sheet of lines of 80 cells, numbered one after the other; the screen shows the
    25 lines from [top]; [pos] is the cell where the next character goes. *)
Record paper := mkPaper { tape : Z -> cell; top : Z; pos : Z }.

(** Cells from [i] to [j - 1] are blank. *)
Definition blank_cells (t : Z -> cell) (i j : Z) (k : Z) : cell := if (i <=? k) && (k <? j) then blank else t k.
(** The window follows the position; a line that comes into it is blank. *)
Definition follow (p : paper) : paper :=
  if top p + 25 <=? pos p / 80
  then mkPaper (blank_cells (tape p) ((top p + 25) * 80) ((top p + 26) * 80)) (top p + 1) (pos p)
  else p.
Definition move_to (p : paper) (i : Z) : paper := follow (mkPaper (tape p) (top p) i).
Definition paper_putc (p : paper) (c : Z) : paper :=
  if c =? 10 then move_to p ((pos p / 80 + 1) * 80)
  else if c =? 12 then mkPaper (blank_cells (tape p) (top p * 80) ((top p + 25) * 80)) (top p) (top p * 80)
  else if c =? 8 then (if pos p mod 80 =? 0 then p else move_to p (pos p - 1))
  else if c =? 13 then move_to p (pos p / 80 * 80)
  else if c =? 9 then move_to p (pos p / 80 * 80 + (pos p mod 80 / 8 + 1) * 8)
  else if c =? 7 then p
  else move_to (mkPaper (fun i => if i =? pos p then (u8 c, GRAY_ON_BLACK) else tape p i) (top p) (pos p)) (pos p + 1).

(** The screen is the window. *)
Definition cell_at (v : vga) (y x : Z) : cell := zget no_cell (zget [] (fb v) y) x.
Record grid (v : vga) (t : Z -> cell) (n : Z) : Prop := {
  gr_rows : length (fb v) = 25%nat;
  gr_cols y : 0 <= y < 25 -> length (zget [] (fb v) y) = 80%nat;
  gr_cell y x : 0 <= y < 25 -> 0 <= x < 80 -> cell_at v y x = t ((n + y) * 80 + x)
}.
Record window (v : vga) (p : paper) : Prop := {
  wi_grid : grid v (tape p) (top p);
  wi_cx : cx v = pos p mod 80;
  wi_cy : cy v = pos p / 80 - top p;
  wi_range : 0 <= cy v < 25
}.
(** The cursor of the hardware. *)
Definition cursor_of (v : vga) : Z := crtc v 0x0e * 256 + crtc v 0x0f.

(** ** Cells *)

#[local] Ltac Zify.zify_post_hook ::= Z.to_euclidean_division_equations.

Lemma grid_put v t n y x c :
  grid v t n -> 0 <= y < 25 -> 0 <= x < 80 ->
  grid (set_fb (zset (fb v) y (zset (zget [] (fb v) y) x c)) v) (fun i => if i =? (n + y) * 80 + x then c else t i) n.
Proof.
  intros [G1 G2 G3] Hy Hx. split; cbn [fb set_fb].
  - by rewrite zset_length.
  - intros y' Hy'. destruct (Z.eq_dec y' y) as [->|Hne]; [rewrite zget_zset_eq, zset_length by lia; by apply G2|].
    rewrite zget_zset_ne by lia. by apply G2.
  - intros y' x' Hy' Hx'. unfold cell_at. cbn [fb set_fb]. destruct (Z.eq_dec y' y) as [->|Hne].
    + rewrite zget_zset_eq by lia. destruct (Z.eq_dec x' x) as [->|Hnx].
      * rewrite zget_zset_eq by (rewrite G2; lia). by rewrite Z.eqb_refl.
      * rewrite zget_zset_ne by lia. rewrite (proj2 (Z.eqb_neq _ _)) by lia. by apply G3.
    + rewrite zget_zset_ne by lia. rewrite (proj2 (Z.eqb_neq _ _)) by lia. by apply G3.
Qed.
Lemma put_cell_ok v t n y x c :
  grid v t n -> 0 <= y < 25 -> 0 <= x < 80 ->
  runs (put_cell y x c) v (fun _ v' => grid v' (fun i => if i =? (n + y) * 80 + x then c else t i) n /\ exists f, v' = set_fb f v).
Proof.
  intros G Hy Hx. unfold put_cell. apply runs_bind. eapply runs_ok; [reflexivity|]. apply runs_bind, runs_assert.
  { unfold ROW_CNT, COL_CNT. by rewrite (proj2 (Z.leb_le 0 y)), (proj2 (Z.ltb_lt y 25)), (proj2 (Z.leb_le 0 x)), (proj2 (Z.ltb_lt x 80)) by lia. }
  eapply runs_ok; [reflexivity|]. split; [by apply grid_put|]. by eexists.
Qed.
Lemma grid_same v t t' n : (forall i, n * 80 <= i < (n + 25) * 80 -> t i = t' i) -> grid v t n -> grid v t' n.
Proof. intros H [G1 G2 G3]. split; try done. intros y x Hy Hx. rewrite G3 by done. apply H. lia. Qed.
Lemma clear_cells_ok k v t n y x :
  grid v t n -> 0 <= y < 25 -> 0 <= x -> x + Z.of_nat k <= 80 ->
  runs (clear_cells k y x) v (fun _ v' =>
    grid v' (blank_cells t ((n + y) * 80 + x) ((n + y) * 80 + x + Z.of_nat k)) n /\ exists f, v' = set_fb f v).
Proof.
  revert v t x. induction k as [|k IH]; intros v t x G Hy Hx Hk.
  - apply runs_ret. split; [|exists (fb v); by destruct v]. eapply grid_same; [|done]. intros i _. unfold blank_cells.
    destruct (Z.leb_spec ((n + y) * 80 + x) i); [|done]. rewrite (proj2 (Z.ltb_ge i _)) by lia. done.
  - cbn [clear_cells]. apply runs_bind. eapply runs_mono; [apply put_cell_ok; [done|done|lia]|]. intros _ v1 [G1 [f1 ->]].
    eapply runs_mono; [apply IH; [done|done|lia|lia]|]. intros _ v2 [G2 [f2 ->]]. split; [|by exists f2].
    eapply grid_same; [|exact G2]. intros i _. unfold blank_cells. cbv beta.
    destruct (Z.leb_spec ((n + y) * 80 + (x + 1)) i), (Z.leb_spec ((n + y) * 80 + x) i), (Z.eqb_spec i ((n + y) * 80 + x));
      simpl; try lia; try done; repeat case_cmp; try lia; done.
Qed.
Lemma clear_row_ok v t n y :
  grid v t n -> 0 <= y < 25 ->
  runs (clear_row y) v (fun _ v' => grid v' (blank_cells t ((n + y) * 80) ((n + y) * 80 + 80)) n /\ exists f, v' = set_fb f v).
Proof.
  intros G Hy. eapply runs_mono; [apply (clear_cells_ok 80 v t n y 0); [done|done|lia|lia]|]. intros ? v' H. by rewrite Z.add_0_r in H.
Qed.
Lemma clear_rows_ok k v t n y :
  grid v t n -> 0 <= y -> y + Z.of_nat k <= 25 ->
  runs (clear_rows k y) v (fun _ v' => grid v' (blank_cells t ((n + y) * 80) ((n + y + Z.of_nat k) * 80)) n /\ exists f, v' = set_fb f v).
Proof.
  revert v t y. induction k as [|k IH]; intros v t y G Hy Hk.
  - apply runs_ret. split; [|exists (fb v); by destruct v]. eapply grid_same; [|done]. intros i _. unfold blank_cells.
    destruct (Z.leb_spec ((n + y) * 80) i); [|done]. rewrite (proj2 (Z.ltb_ge i _)) by lia. done.
  - cbn [clear_rows]. apply runs_bind. eapply runs_mono; [apply clear_row_ok; [done|lia]|]. intros _ v1 [G1 [f1 ->]].
    eapply runs_mono; [apply IH; [done|lia|lia]|]. intros _ v2 [G2 [f2 ->]]. split; [|by exists f2].
    eapply grid_same; [|exact G2]. intros i _. unfold blank_cells.
    destruct (Z.leb_spec ((n + (y + 1)) * 80) i), (Z.leb_spec ((n + y) * 80) i), (Z.ltb_spec i ((n + y) * 80 + 80)),
      (Z.ltb_spec i ((n + (y + 1) + Z.of_nat k) * 80)), (Z.ltb_spec i ((n + y + Z.of_nat (S k)) * 80)); simpl; try lia; done.
Qed.
(** The rows move up by one. *)
Lemma scroll_grid v t n :
  grid v t n -> grid (set_fb (drop 1 (fb v) ++ [zget [] (fb v) 24]) v) (fun i => if (n + 25) * 80 <=? i then t (i - 80) else t i) (n + 1).
Proof.
  intros [G1 G2 G3]. set (fb' := drop 1 (fb v) ++ [zget [] (fb v) 24]).
  assert (Hrow : forall y, 0 <= y < 25 -> zget [] fb' y = if y =? 24 then zget [] (fb v) 24 else zget [] (fb v) (y + 1)).
  { intros y Hy. unfold zget at 1, zlookup, fb'. rewrite (proj2 (Z.leb_le 0 y)) by lia. destruct (Z.eqb_spec y 24) as [->|Hne].
    - rewrite lookup_app_r by (rewrite length_drop; lia). rewrite length_drop, G1. done.
    - rewrite lookup_app_l, lookup_drop by (rewrite length_drop; lia). unfold zget, zlookup. rewrite (proj2 (Z.leb_le 0 (y + 1))) by lia.
      do 2 f_equal. lia. }
  split; cbn [fb set_fb].
  - unfold fb'. rewrite length_app, length_drop, G1. done.
  - intros y Hy. rewrite Hrow by done. destruct (y =? 24) eqn:E; apply G2; [lia|]. apply Z.eqb_neq in E. lia.
  - intros y x Hy Hx. unfold cell_at. cbn [fb set_fb]. rewrite Hrow by done. destruct (Z.eqb_spec y 24) as [->|Hne].
    + rewrite (proj2 (Z.leb_le _ _)) by lia. pose proof (G3 24 x ltac:(lia) Hx) as E. unfold cell_at in E. rewrite E. f_equal. lia.
    + rewrite (proj2 (Z.leb_gt _ _)) by lia. pose proof (G3 (y + 1) x ltac:(lia) Hx) as E. unfold cell_at in E. rewrite E. f_equal. lia.
Qed.

(** The rest of the display is as it was. *)
Record same_ports (v v' : vga) : Prop := { sp_inited : inited v' = inited v; sp_beeps : beeps v' = beeps v }.
Lemma newline_ok v t n line :
  grid v t n -> cy v = line - n -> 0 <= cy v < 25 ->
  runs newline v (fun _ v' => window v' (follow (mkPaper t n ((line + 1) * 80))) /\ same_ports v v').
Proof.
  intros G Hc Hr. unfold newline. apply runs_bind. eapply runs_ok; [reflexivity|]. apply runs_bind. eapply runs_ok; [reflexivity|].
  apply runs_bind. eapply runs_ok; [reflexivity|]. cbn [cy set_cy set_cx]. unfold follow. cbn [top pos tape]. rewrite Z.div_mul by done. unfold ROW_CNT.
  replace (n + 25 <=? line + 1) with (25 <=? cy v + 1) by (destruct (Z.leb_spec 25 (cy v + 1)), (Z.leb_spec (n + 25) (line + 1)); lia || done).
  destruct (Z.leb_spec 25 (cy v + 1)) as [Hs|Hs]; unfold when.
  - apply runs_bind. eapply runs_ok; [reflexivity|]. apply runs_bind. eapply runs_ok; [reflexivity|].
    set (v1 := set_fb _ _). assert (G1 : grid v1 (fun i => if (n + 25) * 80 <=? i then t (i - 80) else t i) (n + 1)).
    { apply (scroll_grid _ t n). destruct G as [A1 A2 A3]. by split. }
    eapply runs_mono; [apply clear_row_ok; [exact G1|lia]|]. intros _ v2 [G2 [f ->]]. split; [|done].
    split; cbn [cx cy set_fb set_cy set_cx tape top pos v1]; [|by rewrite Z.mod_mul|rewrite Z.div_mul by done; lia|lia].
    eapply grid_same; [|exact G2]. intros i Hi. unfold blank_cells. cbv beta.
    destruct (Z.leb_spec ((n + 1 + (25 - 1)) * 80) i), (Z.leb_spec ((n + 25) * 80) i); simpl; try lia; [|done].
    destruct (Z.ltb_spec i ((n + 1 + (25 - 1)) * 80 + 80)), (Z.ltb_spec i ((n + 26) * 80)); try lia; done.
  - apply runs_ret. split; [|done]. split; cbn [cx cy set_fb set_cy set_cx tape top pos]; [|by rewrite Z.mod_mul|rewrite Z.div_mul by done; lia|lia].
    destruct G as [A1 A2 A3]. by split.
Qed.
Lemma move_cursor_ok v :
  0 <= cx v < 80 -> 0 <= cy v < 25 ->
  runs move_cursor v (fun _ v' => (exists r i, v' = set_crtc r i v) /\ cursor_of v' = cy v * 80 + cx v /\ 0 <= crtc v' 0x0f < 256 /\ 0 <= crtc v' 0x0e < 256).
Proof.
  intros Hx Hy. unfold move_cursor, COL_CNT. apply runs_bind. eapply runs_ok; [reflexivity|]. cbv zeta. rewrite (wrapu_small 16 (cx v + 80 * cy v)) by lia.
  set (cp := cx v + 80 * cy v). assert (Hc : 0 <= cp < 2000) by (unfold cp; lia).
  assert (E1 : Z.lor 0x0e (Z.land cp 0xff00) = 0x0e + cp / 256 * 256).
  { change 0xff00 with (Z.shiftl (Z.ones 8) 8). rewrite land_mid by lia. unfold bits. change (2 ^ 8) with 256.
    rewrite (lor_add _ _ 8) by (change (2 ^ 8) with 256; lia). lia. }
  assert (E2 : wrapu 16 (Z.lor 0x0f (Z.shiftl cp 8)) = 0x0f + cp mod 256 * 256).
  { rewrite Z.shiftl_mul_pow2, (lor_add _ _ 8) by (change (2 ^ 8) with 256; lia). unfold wrapu. change (2 ^ 8) with 256. change (2 ^ 16) with 65536. lia. }
  rewrite E1, E2. apply runs_bind. eapply runs_ok; [reflexivity|]. eapply runs_ok; [reflexivity|]. split; [by eexists _, _|].
  unfold cursor_of. cbn [crtc set_crtc]. replace ((15 + cp mod 256 * 256) mod 256) with 15 by lia. replace ((14 + cp / 256 * 256) mod 256) with 14 by lia.
  cbn [Z.eqb Pos.eqb]. unfold cp in *. lia.
Qed.

(** ** Characters *)

(** The state between two characters. *)
Record shown (v : vga) (p : paper) : Prop := {
  sh_window : window v p;
  sh_inited : inited v = true;
  sh_cursor : cursor_of v = pos p - top p * 80
}.
Lemma window_crtc v p r i : window v p -> window (set_crtc r i v) p.
Proof. intros [[G1 G2 G3] W2 W3 W4]. by split. Qed.
Lemma window_cx v p : window v p -> 0 <= cx v < 80.
Proof. intros [_ -> _ _]. lia. Qed.
Lemma finish_ok v p : window v p -> inited v = true -> runs move_cursor v (fun _ v' => shown v' p).
Proof.
  intros W Hi. eapply runs_mono; [apply move_cursor_ok; [by eapply window_cx|apply W]|]. intros _ v' [(r & i & ->) [Hc _]].
  split; [by apply window_crtc|done|]. rewrite Hc, (wi_cx _ _ W), (wi_cy _ _ W). lia.
Qed.
(** The cursor moves inside of its line. *)
Lemma move_in_line v p x : window v p -> 0 <= x < 80 -> window (set_cx x v) (move_to p (pos p / 80 * 80 + x)).
Proof.
  intros [[G1 G2 G3] W2 W3 W4] Hx. assert (Hl : (pos p / 80 * 80 + x) / 80 = pos p / 80) by lia.
  unfold move_to, follow. cbn [tape top pos]. rewrite Hl, (proj2 (Z.leb_gt _ _)) by lia.
  split; cbn [tape top pos cx cy set_cx]; [by split|lia|by rewrite Hl|done].
Qed.
(** A line that is full is left. *)
Lemma advance_ok v t n line x :
  grid v t n -> cx v = x -> 0 <= x <= 80 -> cy v = line - n -> 0 <= cy v < 25 ->
  runs (v ← get; when (COL_CNT <=? cx v) newline) v (fun _ v' => window v' (follow (mkPaper t n (line * 80 + x))) /\ inited v' = inited v).
Proof.
  intros G Hx Hr Hc Hy. apply runs_bind. eapply runs_ok; [reflexivity|]. unfold COL_CNT. rewrite Hx. destruct (Z.leb_spec 80 x) as [Hf|Hf]; unfold when.
  - eapply runs_mono; [by apply newline_ok|]. intros _ v' [W [S1 S2]]. assert (x = 80) as -> by lia. by replace ((line + 1) * 80) with (line * 80 + 80) in W by lia.
  - apply runs_ret. split; [|done]. assert (Hl : (line * 80 + x) / 80 = line) by lia. unfold follow. cbn [tape top pos].
    rewrite Hl, (proj2 (Z.leb_gt _ _)) by lia. split; cbn [tape top pos]; [done|lia|lia|done].
Qed.
Lemma cell_written v p c :
  window v p ->
  runs (w ← get; put_cell (cy w) (cx w) c;; modify (fun v => set_cx (cx v + 1) v);; w ← get; when (COL_CNT <=? cx w) newline) v
    (fun _ v' => window v' (move_to (mkPaper (fun i => if i =? pos p then c else tape p i) (top p) (pos p)) (pos p + 1)) /\ inited v' = inited v).
Proof.
  intros W. pose proof (window_cx _ _ W) as Hx. destruct W as [G W2 W3 W4]. apply runs_bind. eapply runs_ok; [reflexivity|].
  apply runs_bind. eapply runs_mono; [by apply put_cell_ok|]. intros _ v1 [G1 [f ->]]. apply runs_bind. eapply runs_ok; [reflexivity|].
  assert (Hp : (top p + cy v) * 80 + cx v = pos p) by lia. rewrite Hp in G1.
  eapply runs_mono; [apply (advance_ok _ (fun i => if i =? pos p then c else tape p i) (top p) (pos p / 80) (cx v + 1)); cbn [cx cy set_cx set_fb];
    [destruct G1 as [A1 A2 A3]; by split|done|lia|lia|done]|].
  intros _ v' [W' Hi]. unfold move_to. cbn [tape top]. replace (pos p / 80 * 80 + (cx v + 1)) with (pos p + 1) in W' by lia. done.
Qed.

Lemma cls_ok v p : window v p -> inited v = true ->
  runs cls v (fun _ v' => shown v' (mkPaper (blank_cells (tape p) (top p * 80) ((top p + 25) * 80)) (top p) (top p * 80))).
Proof.
  intros [G W2 W3 W4] Hi. unfold cls. apply runs_bind. eapply runs_mono; [apply (clear_rows_ok 25 v (tape p) (top p) 0); [done|lia|lia]|].
  intros _ v1 [G1 [f ->]]. apply runs_bind. eapply runs_ok; [reflexivity|]. apply runs_bind. eapply runs_ok; [reflexivity|].
  rewrite Z.add_0_r in G1. apply finish_ok; [|done]. split; cbn [tape top pos cx cy set_cx set_cy]; [destruct G1 as [A1 A2 A3]; by split|lia|lia|lia].
Qed.
Lemma putc_ok v p on c : shown v p -> runs (vga_putc on c) v (fun _ v' => shown v' (paper_putc p c)).
Proof.
  intros [W Hi Hc]. pose proof (window_cx _ _ W) as Hx. pose proof W as [G W2 W3 W4]. unfold vga_putc. apply runs_bind.
  eapply (runs_ok _ _ tt v); [unfold init; erewrite bind_ok by reflexivity; by rewrite Hi|]. apply runs_bind. unfold paper_putc.
  destruct (c =? 10); [|destruct (c =? 12); [|destruct (c =? 8); [|destruct (c =? 13); [|destruct (c =? 9); [|destruct (c =? 7)]]]]].
  - eapply runs_mono; [apply (newline_ok v (tape p) (top p) (pos p / 80)); [done|done|done]|]. intros _ v' [W' [S1 _]]. apply finish_ok; [done|congruence].
  - eapply runs_mono; [by apply cls_ok|]. intros ? v' [W' Hi' _]. by apply finish_ok.
  - apply runs_bind. eapply runs_ok; [reflexivity|]. rewrite W2. destruct (Z.eqb_spec (pos p mod 80) 0) as [H0|H0].
    + rewrite H0. apply runs_ret. by apply finish_ok.
    + rewrite (proj2 (Z.ltb_lt 0 _)) by lia. eapply runs_ok; [reflexivity|]. apply finish_ok; [|done].
      replace (pos p - 1) with (pos p / 80 * 80 + (cx v - 1)) by lia. apply move_in_line; [done|lia].
  - eapply runs_ok; [reflexivity|]. apply finish_ok; [|done]. replace (pos p / 80 * 80) with (pos p / 80 * 80 + 0) by lia. apply move_in_line; [done|lia].
  - apply runs_bind. eapply runs_ok; [reflexivity|].
    eapply runs_mono; [apply (advance_ok _ (tape p) (top p) (pos p / 80) ((cx v / 8 + 1) * 8)); cbn [cx cy set_cx];
      [destruct G as [A1 A2 A3]; by split|lia|lia|done|done]|].
    intros _ v' [W' Hi']. apply finish_ok; [|by rewrite Hi']. rewrite W2 in W'. exact W'.
  - destruct on; [eapply runs_ok; [reflexivity|]|apply runs_ret]; apply finish_ok; try done. destruct G as [A1 A2 A3]. by split.
  - eapply runs_mono; [by apply cell_written|]. intros _ v' [W' Hi']. apply finish_ok; [done|congruence].
Qed.

(** ** The start *)

(** The display as the loader leaves it: the cursor is on the screen. *)
Record untouched (v : vga) : Prop := {
  un_inited : inited v = false;
  un_rows : length (fb v) = 25%nat;
  un_cols y : 0 <= y < 25 -> length (zget [] (fb v) y) = 80%nat;
  un_crtc i : 0 <= crtc v i < 256;
  un_cursor : cursor_of v < 2000
}.
Definition first_paper (v : vga) : paper := mkPaper (fun i => cell_at v (i / 80) (i mod 80)) 0 (cursor_of v).
Lemma init_ok v : untouched v -> runs init v (fun _ v' => shown v' (first_paper v)).
Proof.
  intros [U1 U2 U3 U4 U5]. unfold init. apply runs_bind. eapply runs_ok; [reflexivity|]. rewrite U1. cbn [negb when]. apply runs_bind.
  pose proof (U4 0x0e) as H1. pose proof (U4 0x0f) as H2. unfold cursor_of in U5.
  eapply (runs_ok _ _ (cursor_of v mod 80, cursor_of v / 80) (set_crtc (crtc v) 0x0f v)).
  { unfold find_cursor. erewrite bind_ok by reflexivity. erewrite bind_ok by reflexivity. cbv zeta. erewrite bind_ok by reflexivity.
    erewrite bind_ok by reflexivity. cbn [crtc crtc_index set_crtc]. rewrite !(wrapu_small 8), Z.shiftl_mul_pow2 by lia. rewrite wrapu_small by lia.
    rewrite Z.lor_comm, (lor_add _ _ 8) by (change (2 ^ 8) with 256; lia). unfold mret, K_ret, COL_CNT, cursor_of. change (2 ^ 8) with 256.
    do 3 f_equal; f_equal; lia. }
  apply runs_bind. eapply runs_ok; [reflexivity|]. apply runs_bind. eapply runs_ok; [reflexivity|]. eapply runs_ok; [reflexivity|].
  assert (Hc : 0 <= cursor_of v < 2000) by (unfold cursor_of; lia).
  split; [split|done|]; cbn [first_paper tape top pos cx cy set_cx set_cy set_inited]; [|done|lia|lia|rewrite Z.sub_0_r; done].
  split; [exact U2|exact U3|]. intros y x Hy Hx. unfold cell_at. cbn [fb]. f_equal; [f_equal|]; lia.
Qed.

(** ** Properties *)

Fixpoint vga_puts (on : bool) (cs : list Z) : K vga unit :=
  match cs with [] => mret tt | c :: cs' => vga_putc on c;; vga_puts on cs' end.
Definition printable (c : Z) : Prop := c ∉ [7; 8; 9; 10; 12; 13].

Lemma puts_ok on cs v p : shown v p -> runs (vga_puts on cs) v (fun _ v' => shown v' (foldl paper_putc p cs)).
Proof.
  revert v p. induction cs as [|c cs IH]; intros v p S; [by apply runs_ret|]. cbn [vga_puts foldl]. apply runs_bind.
  eapply runs_mono; [by apply putc_ok|]. intros ? v' S'. by apply IH.
Qed.
Lemma putc_init on c v p : runs init v (fun _ v' => shown v' p) -> runs (vga_putc on c) v (fun _ v' => shown v' (paper_putc p c)).
Proof.
  intros (x & v1 & E & S). destruct (putc_ok v1 p on c S) as (y & v2 & E2 & S2). exists y, v2. split; [|done].
  unfold vga_putc in *. rewrite (bind_ok _ _ _ _ _ E). rewrite <- E2. symmetry.
  erewrite bind_ok; [reflexivity|]. unfold init. erewrite bind_ok by reflexivity. rewrite (sh_inited _ _ S). by destruct x.
Qed.
Lemma paper_text cs p :
  Forall printable cs -> pos p / 80 < top p + 25 ->
  let p' := foldl paper_putc p cs in
  pos p' = pos p + len cs /\ pos p' / 80 < top p' + 25 /\ (forall k c, cs !! k = Some c -> tape p' (pos p + Z.of_nat k) = (u8 c, GRAY_ON_BLACK)) /\
  (forall i, i < pos p -> tape p' i = tape p i).
Proof.
  intros H. revert p. induction H as [|c cs Hc H IH]; intros p Hp; cbn [foldl]; [split; [simpl; lia|]; done|].
  assert (E : paper_putc p c = move_to (mkPaper (fun i => if i =? pos p then (u8 c, GRAY_ON_BLACK) else tape p i) (top p) (pos p)) (pos p + 1)).
  { unfold printable in Hc. rewrite !not_elem_of_cons in Hc. unfold paper_putc. by rewrite !(proj2 (Z.eqb_neq c _)) by tauto. }
  set (p1 := paper_putc p c). assert (H1 : pos p1 = pos p + 1 /\ pos p1 / 80 < top p1 + 25 /\ forall i, i <= pos p -> tape p1 i = if i =? pos p then (u8 c, GRAY_ON_BLACK) else tape p i).
  { unfold p1. rewrite E. unfold move_to, follow. cbn [tape top pos]. destruct (Z.leb_spec (top p + 25) ((pos p + 1) / 80)); cbn [tape top pos].
    - split; [done|]. split; [lia|]. intros i Hi. unfold blank_cells. by rewrite (proj2 (Z.leb_gt _ i)) by lia.
    - done. }
  destruct H1 as (P1 & P2 & P3). destruct (IH p1 P2) as (Q1 & Q2 & Q3 & Q4). rewrite P1 in *. cbn [length]. split; [lia|]. split; [done|]. split.
  - intros [|k] d Hd; cbn in Hd.
    + injection Hd as <-. rewrite Z.add_0_r, Q4, P3, Z.eqb_refl by lia. done.
    + replace (pos p + Z.of_nat (S k)) with (pos p + 1 + Z.of_nat k) by lia. by apply Q3.
  - intros i Hi. rewrite Q4, P3, (proj2 (Z.eqb_neq i _)) by lia. done.
Qed.

(** C40: The screen is a window on paper: whatever characters are written, the display shows 25
    lines of a sheet on which the characters are written one after the other, with its cursor
    where the next one goes; the window follows the position, and no character is written
    outside of the screen. *)
Theorem display_is_window on cs v p : shown v p -> exists v', vga_puts on cs v = Ok (tt, v') /\ shown v' (foldl paper_putc p cs).
Proof. intros S. destruct (puts_ok on cs v p S) as ([] & v' & E & S'). eauto. Qed.

(** Text is readable: characters that are no control characters stand on the paper in their
    order, in lines of 80, from the position of the cursor on, and nothing before changes. *)
Theorem text_in_order on cs v p :
  shown v p -> Forall printable cs -> exists v' p', vga_puts on cs v = Ok (tt, v') /\ shown v' p' /\ pos p' = pos p + len cs /\
    (forall k c, cs !! k = Some c -> tape p' (pos p + Z.of_nat k) = (u8 c, GRAY_ON_BLACK)) /\ (forall i, i < pos p -> tape p' i = tape p i).
Proof.
  intros S Hc. destruct (puts_ok on cs v p S) as ([] & v' & E & S'). exists v', (foldl paper_putc p cs). split; [done|]. split; [done|].
  destruct (paper_text cs p Hc) as (P1 & _ & P3 & P4); [|done]. pose proof (sh_window _ _ S) as [_ _ W3 W4]. lia.
Qed.

Definition ex_vga : vga := mkVga (replicate 25 (replicate 80 blank)) 0 0 false (fun i => if i =? 0x0f then 100 else 0) 0 0.
Lemma ex_untouched : untouched ex_vga.
Proof.
  split; [done|done| | |done].
  - intros y Hy. unfold zget, zlookup. rewrite (proj2 (Z.leb_le 0 y)) by lia. cbn [fb ex_vga].
    destruct (replicate 25 (replicate 80 blank) !! Z.to_nat y) eqn:E; [apply lookup_replicate in E as [-> _]; done|].
    apply lookup_ge_None in E. rewrite length_replicate in E. lia.
  - intros i. simpl. destruct (i =? 15); lia.
Qed.
Lemma display_is_window_witness :
  exists v v', init ex_vga = Ok (tt, v) /\ vga_puts true [104; 105; 10; 9] v = Ok (tt, v') /\ shown v' (foldl paper_putc (first_paper ex_vga) [104; 105; 10; 9]).
Proof.
  destruct (init_ok ex_vga ex_untouched) as ([] & v & E & S).
  destruct (display_is_window true [104; 105; 10; 9] v (first_paper ex_vga) S) as (v' & E' & S').
  exists v, v'. split; [exact E|]. split; [exact E'|exact S'].
Defined.

(** The first character written starts the display: it goes where the cursor was left. *)
Corollary first_putc on c v : untouched v -> runs (vga_putc on c) v (fun _ v' => shown v' (paper_putc (first_paper v) c)).
Proof. intros U. by apply putc_init, init_ok. Qed.
