(* ===== verification/Console.v ===== *)
(** The console (lib/kernel/console.c): its lock, which a thread can take again while it holds it,
    and the output of characters to the serial port and the display; and the proof that the calls
    of concurrent threads do not mix. *)

From stdpp Require Import functions.
From S2P Require Import Prelude KMonad Bytes Vga.

(** ** The state *)

(** Who runs: a thread, or a handler of an external interrupt. *)
Inductive runner := Thread (t : Z) | Handler.
Definition intr_context (w : runner) : bool := match w with Handler => true | Thread _ => false end.

(** The holder of the lock, the nesting of calls, the count of characters, the characters that
    were given to the serial port, and the display. *)
Record console := mkConsole {
  console_lock : option Z;
  use_console_lock : bool;
  console_lock_depth : Z;
  write_cnt : Z;
  serial : list Z;
  display : vga
}.
Definition set_lock x c := mkConsole x (use_console_lock c) (console_lock_depth c) (write_cnt c) (serial c) (display c).
Definition set_use x c := mkConsole (console_lock c) x (console_lock_depth c) (write_cnt c) (serial c) (display c).
Definition set_depth x c := mkConsole (console_lock c) (use_console_lock c) x (write_cnt c) (serial c) (display c).
Definition set_count x c := mkConsole (console_lock c) (use_console_lock c) (console_lock_depth c) x (serial c) (display c).
Definition set_serial x c := mkConsole (console_lock c) (use_console_lock c) (console_lock_depth c) (write_cnt c) x (display c).
Definition set_display x c := mkConsole (console_lock c) (use_console_lock c) (console_lock_depth c) (write_cnt c) (serial c) x.

(** ** The lock *)

Definition lock_held (w : runner) (c : console) : bool :=
  match w, console_lock c with Thread t, Some h => t =? h | _, _ => false end.
(** [lock_acquire] and [lock_release] as their callers see them; the result [false] says that
    the lock is taken, and the thread waits and tries again. *)
Definition lock_acquire (w : runner) : K console bool :=
  c ← get;
  match w with
  | Handler => panic
  | Thread t =>
      ASSERT (negb (lock_held w c));;
      match console_lock c with
      | Some _ => mret false
      | None => modify (set_lock (Some t));; mret true
      end
  end.
Definition lock_release (w : runner) : K console unit :=
  c ← get; ASSERT (lock_held w c);; modify (set_lock None).

(** ** console.c *)

Definition console_init : K console unit := modify (set_lock None);; modify (set_use true).
Definition console_panic : K console unit := modify (set_use false).
Definition acquire_console (w : runner) : K console bool :=
  c ← get;
  if negb (intr_context w) && use_console_lock c
  then if lock_held w c
       then modify (set_depth (console_lock_depth c + 1));; mret true
       else lock_acquire w
  else mret true.
Definition release_console (w : runner) : K console unit :=
  c ← get;
  when (negb (intr_context w) && use_console_lock c)
    (if 0 <? console_lock_depth c
     then modify (set_depth (console_lock_depth c - 1))
     else lock_release w).
Definition console_locked_by_current_thread (w : runner) : K console bool :=
  gets (fun c => intr_context w || negb (use_console_lock c) || lock_held w c).
Definition on_display (m : K vga unit) : K console unit := fun c =>
  match m (display c) with Ok (_, v) => Ok (tt, set_display v c) | Panic => Panic | NoFuel => NoFuel end.
Definition putchar_have_lock (w : runner) (on : bool) (ch : Z) : K console unit :=
  ASSERTm (console_locked_by_current_thread w);;
  modify (fun c => set_count (s64 (write_cnt c + 1)) c);;
  modify (fun c => set_serial (serial c ++ [u8 ch]) c);;
  on_display (vga_putc on (u8 ch)).

(** What a thread does in the console, step by step. *)
Inductive instr := Acquire | Put (ch : Z) | Release.
(** [putbuf], and with the text that they print, [vprintf], [puts] and [putchar]. *)
Definition putbuf (text : list Z) : list instr := Acquire :: (Put <$> text) ++ [Release].
Definition puts (s : list Z) : list instr := putbuf (s ++ [10]).
Definition putchar (ch : Z) : list instr := putbuf [ch].

(** A step of a thread: [true] if it was done, [false] if the thread has to wait. *)
Definition exec (on : bool) (t : Z) (i : instr) : K console bool :=
  match i with
  | Acquire => acquire_console (Thread t)
  | Put ch => putchar_have_lock (Thread t) on ch;; mret true
  | Release => release_console (Thread t);; mret true
  end.

(** ** Threads that use the console *)

Record system := mkSystem { programs : Z -> list instr; con : console }.
Inductive step : system -> system -> Prop :=
| step_run on t i l s c : programs s t = i :: l -> exec on t i (con s) = Ok (true, c) -> step s (mkSystem (<[t := l]> (programs s)) c).

(** Calls are bracketed and output is inside of them; [d] is the number of open brackets. *)
Fixpoint bracketed (d : nat) (l : list instr) : bool :=
  match l with
  | [] => (d =? 0)%nat
  | Acquire :: l' => bracketed (S d) l'
  | Put ch :: l' => negb (d =? 0)%nat && bracketed d l'
  | Release :: l' => match d with O => false | S d' => bracketed d' l' end
  end.
(** The texts of the outermost calls, when [cur] was printed of the one that is open. *)
Fixpoint texts (d : nat) (cur : list Z) (l : list instr) : list (list Z) :=
  match l with
  | [] => []
  | Acquire :: l' => texts (S d) cur l'
  | Put ch :: l' => texts d (cur ++ [u8 ch]) l'
  | Release :: l' => match d with S (S d') => texts (S d') cur l' | _ => cur :: texts 0 [] l' end
  end.

Lemma putbuf_bracketed text : bracketed 0 (putbuf text) = true.
Proof. unfold putbuf. cbn [bracketed]. induction text as [|c text IH]; [done|]. cbn [fmap list_fmap app bracketed]. exact IH. Qed.
Lemma putbuf_text text : texts 0 [] (putbuf text) = [u8 <$> text].
Proof.
  unfold putbuf. cbn [texts]. assert (H : forall cur, texts 1 cur ((Put <$> text) ++ [Release]) = [cur ++ (u8 <$> text)]); [|by rewrite H].
  induction text as [|c text IH]; intros cur; simpl; [by rewrite app_nil_r|]. by rewrite IH, <- app_assoc.
Qed.

(** ** The invariant *)

Lemma s64_succ x : s64 (s64 x + 1) = s64 (x + 1).
Proof.
  unfold wraps. change (2 ^ 64) with 18446744073709551616. change (2 ^ (64 - 1)) with 9223372036854775808. f_equal.
  replace (_ - _ + 1 + _) with ((x + 9223372036854775808) mod 18446744073709551616 + 1) by lia. rewrite Z.add_mod_idemp_l by lia. f_equal. lia.
Qed.

Section Runs.
Variables (start : Z -> list instr) (before : list Z) (sheet : paper).

(** [blocks] are the calls that are complete, with their threads, in the order of the output;
    [partial] is the output of the call that is open; [nest] counts the open brackets; [before] is
    what was printed before the threads started. *)
Record consistent (s : system) (blocks : list (Z * list Z)) (partial : list Z) (nest : Z -> nat) : Prop := {
  cs_use : use_console_lock (con s) = true;
  cs_holder t : nest t <> 0%nat <-> console_lock (con s) = Some t;
  cs_depth t : console_lock (con s) = Some t -> Z.of_nat (nest t) = console_lock_depth (con s) + 1;
  cs_free : console_lock (con s) = None -> console_lock_depth (con s) = 0 /\ partial = [];
  cs_bracketed t : bracketed (nest t) (programs s t) = true;
  cs_texts t : ((filter (fun b => b.1 = t) blocks).*2 ++ texts (nest t) (if (nest t =? 0)%nat then [] else partial) (programs s t)) = texts 0 [] (start t);
  cs_output : serial (con s) = before ++ concat blocks.*2 ++ partial;
  cs_count : write_cnt (con s) = s64 (len (serial (con s)));
  cs_display : shown (display (con s)) (foldl paper_putc sheet (serial (con s)))
}.
Definition ok (s : system) : Prop := exists blocks partial nest, consistent s blocks partial nest.

Lemma locked_by s blocks partial nest t : consistent s blocks partial nest -> nest t <> 0%nat -> lock_held (Thread t) (con s) = true.
Proof. intros C H. apply (cs_holder _ _ _ _ C) in H. unfold lock_held. rewrite H. apply Z.eqb_refl. Qed.
Lemma not_locked_by s blocks partial nest t : consistent s blocks partial nest -> nest t = 0%nat -> lock_held (Thread t) (con s) = false.
Proof.
  intros C H. unfold lock_held. destruct (console_lock (con s)) as [h|] eqn:E; [|done]. apply Z.eqb_neq. intros <-.
  apply (cs_holder _ _ _ _ C) in E. done.
Qed.
Lemma bracketed_next s blocks partial nest t i l :
  consistent s blocks partial nest -> programs s t = i :: l ->
  match i with
  | Acquire => bracketed (S (nest t)) l = true
  | Put _ => nest t <> 0%nat /\ bracketed (nest t) l = true
  | Release => exists d, nest t = S d /\ bracketed d l = true
  end.
Proof.
  intros C E. pose proof (cs_bracketed _ _ _ _ C t) as B. rewrite E in B. destruct i; cbn [bracketed] in B; [done| |].
  - apply andb_true_iff in B as [B1 B2]. split; [|done]. by destruct (nest t).
  - destruct (nest t); [done|eauto].
Qed.

(** A step of a thread while no other thread is in the console. *)
Lemma consistent_update s blocks partial nest t l c blocks' partial' d :
  consistent s blocks partial nest -> (forall t', t' <> t -> nest t' = 0%nat) ->
  use_console_lock c = true -> console_lock c = (if (d =? 0)%nat then None else Some t) ->
  (if (d =? 0)%nat then console_lock_depth c = 0 /\ partial' = [] else Z.of_nat d = console_lock_depth c + 1) ->
  bracketed d l = true ->
  (forall t', t' <> t -> filter (fun b => b.1 = t') blocks' = filter (fun b => b.1 = t') blocks) ->
  (filter (fun b => b.1 = t) blocks').*2 ++ texts d (if (d =? 0)%nat then [] else partial') l = texts 0 [] (start t) ->
  serial c = before ++ concat blocks'.*2 ++ partial' -> write_cnt c = s64 (len (serial c)) -> shown (display c) (foldl paper_putc sheet (serial c)) ->
  consistent (mkSystem (<[t := l]> (programs s)) c) blocks' partial' (<[t := d]> nest).
Proof.
  intros C Hn U L D B Fo T O W Di. split; cbn [con programs]; try done.
  - intros t'. rewrite L. destruct (decide (t' = t)) as [->|ne]; [rewrite fn_lookup_insert; by destruct d|].
    rewrite fn_lookup_insert_ne by done. rewrite Hn by done. destruct (d =? 0)%nat; split; try done. intros [= <-]. done.
  - intros t'. rewrite L. destruct d; [done|]. intros [= <-]. rewrite fn_lookup_insert. done.
  - rewrite L. by destruct d.
  - intros t'. destruct (decide (t' = t)) as [->|ne]; [by rewrite !fn_lookup_insert|]. rewrite !fn_lookup_insert_ne by done. apply (cs_bracketed _ _ _ _ C).
  - intros t'. destruct (decide (t' = t)) as [->|ne]; [by rewrite !fn_lookup_insert|]. rewrite !fn_lookup_insert_ne by done.
    pose proof (cs_texts _ _ _ _ C t') as T'. rewrite Hn in * by done. rewrite Fo by done. exact T'.
Qed.
Lemma others_out s blocks partial nest t :
  consistent s blocks partial nest -> console_lock (con s) = None \/ console_lock (con s) = Some t -> forall t', t' <> t -> nest t' = 0%nat.
Proof.
  intros C H t' ne. destruct (decide (nest t' = 0%nat)) as [|n0]; [done|]. apply (cs_holder _ _ _ _ C) in n0. destruct H as [H|H]; rewrite H in n0; congruence.
Qed.

Lemma acquire_ok s blocks partial nest t l :
  consistent s blocks partial nest -> programs s t = Acquire :: l ->
  (exists c, acquire_console (Thread t) (con s) = Ok (true, c) /\ consistent (mkSystem (<[t := l]> (programs s)) c) blocks partial (<[t := S (nest t)]> nest)) \/
  (acquire_console (Thread t) (con s) = Ok (false, con s) /\ exists h, h <> t /\ console_lock (con s) = Some h).
Proof.
  intros C E. pose proof (bracketed_next _ _ _ _ _ _ _ C E) as B. pose proof C as [U H D F Br T O W Di]. specialize (T t). rewrite E in T. cbn [texts] in T.
  unfold acquire_console. erewrite bind_ok by reflexivity. rewrite U. cbn [intr_context negb andb].
  destruct (decide (nest t = 0%nat)) as [N|N].
  - rewrite (not_locked_by _ _ _ _ t C N). unfold lock_acquire. erewrite bind_ok by reflexivity. rewrite (not_locked_by _ _ _ _ t C N), ASSERT_true by done.
    rewrite N in *. destruct (console_lock (con s)) as [h|] eqn:El.
    + right. split; [done|]. exists h. split; [|done]. intros ->. by apply (proj2 (H t) eq_refl).
    + left. eexists. split; [reflexivity|]. destruct (F eq_refl) as [F1 F2]. subst partial.
      apply (consistent_update s blocks [] nest); cbn; try done; [by eapply others_out; [|left]|lia].
  - rewrite (locked_by _ _ _ _ t C N). left. eexists. split; [reflexivity|]. pose proof (proj1 (H t) N) as El.
    apply (consistent_update s blocks partial nest); cbn; try done; [by eapply others_out; [|right]|rewrite <- (D t El); lia|].
    destruct (nest t); done.
Qed.
Lemma put_step s blocks partial nest on t ch l :
  consistent s blocks partial nest -> programs s t = Put ch :: l ->
  exists c, putchar_have_lock (Thread t) on ch (con s) = Ok (tt, c) /\
    consistent (mkSystem (<[t := l]> (programs s)) c) blocks (partial ++ [u8 ch]) (<[t := nest t]> nest).
Proof.
  intros C E. destruct (bracketed_next _ _ _ _ _ _ _ C E) as [N B]. pose proof C as [U H D F Br T O W Di]. specialize (T t). rewrite E in T. cbn [texts] in T.
  pose proof (proj1 (H t) N) as El. destruct (putc_ok (display (con s)) _ on (u8 ch) Di) as (u & v & Ev & Sv).
  unfold putchar_have_lock, ASSERTm. rewrite bind_assoc. unfold console_locked_by_current_thread. erewrite bind_ok by reflexivity.
  rewrite (locked_by _ _ _ _ t C N), orb_true_r, ASSERT_true by done. erewrite bind_ok by reflexivity. erewrite bind_ok by reflexivity.
  unfold on_display. cbn [display set_serial set_count]. rewrite Ev. eexists. split; [reflexivity|].
  apply (consistent_update s blocks partial nest); cbn; try done.
  - by eapply others_out; [|right].
  - rewrite El. by destruct (nest t).
  - rewrite <- (D t El). destruct (nest t); [done|]. done.
  - destruct (nest t); [done|]. exact T.
  - by rewrite O, <- !app_assoc.
  - rewrite W, length_app. rewrite s64_succ. f_equal. simpl. lia.
  - by rewrite foldl_snoc.
Qed.
Lemma release_ok s blocks partial nest t l :
  consistent s blocks partial nest -> programs s t = Release :: l ->
  exists c blocks' partial' nest', release_console (Thread t) (con s) = Ok (tt, c) /\
    consistent (mkSystem (<[t := l]> (programs s)) c) blocks' partial' nest'.
Proof.
  intros C E. destruct (bracketed_next _ _ _ _ _ _ _ C E) as (d & N & B). pose proof C as [U H D F Br T O W Di]. specialize (T t). rewrite E, N in T. cbn [texts Nat.eqb] in T.
  assert (N0 : nest t <> 0%nat) by lia. pose proof (proj1 (H t) N0) as El. pose proof (D t El) as Ed. rewrite N in Ed.
  unfold release_console. erewrite bind_ok by reflexivity. rewrite U. cbn [intr_context negb andb when].
  destruct d as [|d].
  - rewrite (proj2 (Z.ltb_ge 0 _)) by lia. unfold lock_release. erewrite bind_ok by reflexivity. rewrite (locked_by _ _ _ _ t C N0), ASSERT_true by done.
    eexists _, (blocks ++ [(t, partial)]), [], _. split; [reflexivity|]. apply (consistent_update s blocks partial nest) with (d := 0%nat); cbn; try done.
    + by eapply others_out; [|right].
    + split; [lia|done].
    + intros t' ne. rewrite filter_app. rewrite filter_cons_False by (simpl; congruence). rewrite filter_nil, app_nil_r. done.
    + rewrite filter_app, filter_cons_True by done. rewrite filter_nil, fmap_app, <- app_assoc. exact T.
    + rewrite O, fmap_app, concat_app. cbn. by rewrite !app_nil_r.
  - rewrite (proj2 (Z.ltb_lt 0 _)) by lia. eexists _, blocks, partial, _. split; [reflexivity|].
    apply (consistent_update s blocks partial nest) with (d := S d); cbn; try done; [by eapply others_out; [|right]|lia].
Qed.

Lemma exec_ok on s t i l :
  ok s -> programs s t = i :: l ->
  (exists c, exec on t i (con s) = Ok (true, c) /\ ok (mkSystem (<[t := l]> (programs s)) c)) \/
  (exec on t i (con s) = Ok (false, con s) /\ exists h, h <> t /\ console_lock (con s) = Some h).
Proof.
  intros (blocks & partial & nest & C) E. destruct i; cbn [exec].
  - destruct (acquire_ok _ _ _ _ _ _ C E) as [(c & Ec & C')|?]; [|by right]. left. exists c. split; [done|]. by eexists _, _, _.
  - destruct (put_step _ _ _ _ on _ _ _ C E) as (c & Ec & C'). left. exists c. rewrite (bind_ok _ _ _ _ _ Ec). split; [done|]. by eexists _, _, _.
  - destruct (release_ok _ _ _ _ _ _ C E) as (c & b & p & n & Ec & C'). left. exists c. rewrite (bind_ok _ _ _ _ _ Ec). split; [done|]. by eexists _, _, _.
Qed.
Lemma steps_ok s s' : rtc step s s' -> ok s -> ok s'.
Proof.
  induction 1 as [|s s1 s' Hs _ IH]; [done|]. intros O. apply IH. destruct Hs as [on t i l s c E Ec].
  destruct (exec_ok on s t i l O E) as [(c' & Ec' & O')|[Ec' _]]; rewrite Ec' in Ec; [|done]. by injection Ec as <-.
Qed.
Lemma console_start c : console_lock_depth c = 0 -> serial c = before -> write_cnt c = s64 (len before) -> shown (display c) (foldl paper_putc sheet before) ->
  (forall t, bracketed 0 (start t) = true) -> exists c', console_init c = Ok (tt, c') /\ ok (mkSystem start c').
Proof.
  intros D S W Di B. eexists. split; [reflexivity|]. exists [], [], (fun _ => 0%nat). split; cbn; try done.
  - by rewrite S, app_nil_r.
  - by rewrite S.
  - by rewrite S.
Qed.

(** What the console promises: [s] is reached by threads that print. *)
Record orderly (s : system) : Prop := {
  (** the output consists of whole calls, and a part of the one that is open *)
  or_output : exists blocks partial, serial (con s) = before ++ concat blocks.*2 ++ partial /\
    (forall t, exists rest, (filter (fun b => b.1 = t) blocks).*2 ++ rest = texts 0 [] (start t)) /\
    ((forall t, programs s t = []) -> partial = [] /\ forall t, (filter (fun b => b.1 = t) blocks).*2 = texts 0 [] (start t));
  (** the display shows the output, and the statistics count it *)
  or_display : shown (display (con s)) (foldl paper_putc sheet (serial (con s)));
  or_count : write_cnt (con s) = s64 (len (serial (con s)));
  (** no assertion fails *)
  or_safe on t i l : programs s t = i :: l -> exists b c, exec on t i (con s) = Ok (b, c);
  (** there is no deadlock *)
  or_progress t : programs s t <> [] -> exists s', step s s'
}.
Lemma ok_orderly s : ok s -> orderly s.
Proof.
  intros O. pose proof O as (blocks & partial & nest & C). split.
  - exists blocks, partial. split; [apply (cs_output _ _ _ _ C)|]. split; [intros t; eexists; apply (cs_texts _ _ _ _ C)|]. intros E.
    assert (N : forall t, nest t = 0%nat) by (intros t; pose proof (cs_bracketed _ _ _ _ C t) as B; rewrite E in B; by apply Nat.eqb_eq).
    split.
    + destruct (console_lock (con s)) as [h|] eqn:El; [apply (cs_holder _ _ _ _ C) in El; by rewrite N in El|]. by apply (cs_free _ _ _ _ C).
    + intros t. pose proof (cs_texts _ _ _ _ C t) as T. rewrite E, N in T. by rewrite <- T, app_nil_r.
  - apply (cs_display _ _ _ _ C).
  - apply (cs_count _ _ _ _ C).
  - intros on t i l E. destruct (exec_ok on s t i l O E) as [(c & Ec & _)|[Ec _]]; eauto.
  - assert (go : forall t i l, programs s t = i :: l -> console_lock (con s) = None \/ console_lock (con s) = Some t -> exists s', step s s').
    { intros t i l E H. destruct (exec_ok false s t i l O E) as [(c & Ec & _)|[_ (h & ne & Eh)]]; [eexists; by eapply step_run|]. destruct H; congruence. }
    intros t Ht. destruct (console_lock (con s)) as [h|] eqn:El.
    + destruct (programs s h) as [|i l] eqn:E; [|by eapply (go h); [|right]].
      pose proof (cs_bracketed _ _ _ _ C h) as B. rewrite E in B. apply Nat.eqb_eq in B. by apply (cs_holder _ _ _ _ C) in El.
    + destruct (programs s t) as [|i l] eqn:E; [done|]. by eapply (go t); [|left].
Qed.
End Runs.

(** ** Properties *)

(** C22: Output of concurrent threads does not mix: however threads that print are interleaved, the
    serial port gets whole calls of [printf], [puts], [putbuf] or [putchar], one after the other,
    those of a thread in their order, nested calls inside of the outer one, and each exactly once;
    the display shows the same; no assertion of the console or its lock fails, and the threads
    never wait for each other forever. *)
Theorem console_calls_atomic start before sheet c :
  console_lock_depth c = 0 -> serial c = before -> write_cnt c = s64 (len before) -> shown (display c) (foldl paper_putc sheet before) ->
  (forall t, bracketed 0 (start t) = true) ->
  exists c', console_init c = Ok (tt, c') /\ forall s, rtc step (mkSystem start c') s -> orderly start before sheet s.
Proof.
  intros D S W Di B. destruct (console_start start before sheet c D S W Di B) as (c' & E & O). exists c'. split; [done|].
  intros s R. by eapply ok_orderly, steps_ok.
Qed.

(** An interrupt handler prints without the lock, at once, whoever holds it; so do all after a panic. *)
Theorem handlers_print_at_once on ch c p :
  shown (display c) p -> acquire_console Handler c = Ok (true, c) /\ release_console Handler c = Ok (tt, c) /\
  exists c', putchar_have_lock Handler on ch c = Ok (tt, c') /\ console_lock c' = console_lock c /\ serial c' = serial c ++ [u8 ch] /\
    shown (display c') (paper_putc p (u8 ch)).
Proof.
  intros S. split; [done|]. split; [done|]. destruct (putc_ok (display c) p on (u8 ch) S) as (u & v & Ev & Sv).
  unfold putchar_have_lock, ASSERTm. rewrite bind_assoc. unfold console_locked_by_current_thread. erewrite bind_ok by reflexivity. cbn [intr_context orb].
  rewrite ASSERT_true by done. erewrite bind_ok by reflexivity. erewrite bind_ok by reflexivity. unfold on_display. cbn [display set_serial set_count]. rewrite Ev. by eexists.
Qed.

Definition ex_start (t : Z) : list instr := if t =? 1 then puts [104; 105] ++ putchar 33 else if t =? 2 then Acquire :: Put 60 :: putbuf [62] ++ [Release] else [].
Lemma console_calls_atomic_witness :
  exists v c', init ex_vga = Ok (tt, v) /\ console_init (mkConsole (Some 7) false 0 0 [] v) = Ok (tt, c') /\
    forall s, rtc step (mkSystem ex_start c') s -> orderly ex_start [] (first_paper ex_vga) s.
Proof.
  destruct (init_ok ex_vga ex_untouched) as ([] & v & E & S). exists v.
  destruct (console_calls_atomic ex_start [] (first_paper ex_vga) (mkConsole (Some 7) false 0 0 [] v)) as (c' & E' & H).
  - reflexivity.
  - reflexivity.
  - reflexivity.
  - exact S.
  - intros t. unfold ex_start. destruct (t =? 1); [reflexivity|]. destruct (t =? 2); reflexivity.
  - exists c'. split; [exact E|]. split; [exact E'|exact H].
Defined.
