(* ===== verification/UserLib.v ===== *)
(** The library of user programs: the system calls (lib/user/syscall.c), which pass their number
    and arguments on the stack, output to a file handle through a buffer (lib/user/console.c), and
    the start of a program (lib/user/entry.c). *)

From stdpp Require Import strings.
From S2P Require Import Prelude KMonad CString Bytes Arith Stdio StdioOk.

#[local] Ltac Zify.zify_post_hook ::= Z.to_euclidean_division_equations.

Lemma u32_s32 x : u32 (s32 x) = u32 x.
Proof. unfold wrapu, wraps. change (2 ^ 32) with 4294967296. change (2 ^ (32 - 1)) with 2147483648. lia. Qed.

(** ** System calls *)

Module Syscall.

Definition SYS_HALT : Z := 0.
Definition SYS_EXIT : Z := 1.
Definition SYS_EXEC : Z := 2.
Definition SYS_WAIT : Z := 3.
Definition SYS_CREATE : Z := 4.
Definition SYS_REMOVE : Z := 5.
Definition SYS_OPEN : Z := 6.
Definition SYS_FILESIZE : Z := 7.
Definition SYS_READ : Z := 8.
Definition SYS_WRITE : Z := 9.
Definition SYS_SEEK : Z := 10.
Definition SYS_TELL : Z := 11.
Definition SYS_CLOSE : Z := 12.
Definition SYS_MMAP : Z := 13.
Definition SYS_MUNMAP : Z := 14.
Definition SYS_CHDIR : Z := 15.
Definition SYS_MKDIR : Z := 16.
Definition SYS_READDIR : Z := 17.
Definition SYS_ISDIR : Z := 18.
Definition SYS_INUMBER : Z := 19.

(** A user program: its stack pointer, the words of its memory by address, and the kernel. *)
Record user (S : Type) := mkUser { esp : Z; words : Z -> Z; kernel : S }.
Arguments mkUser {S} _ _ _.
Arguments esp {S} _.
Arguments words {S} _ _.
Arguments kernel {S} _.

Section Calls.
(** [int $0x30]: the kernel reads the stack and the memory, may change the memory, and gives a
    value for the register eax; it leaves the stack pointer as it was. *)
Context {S : Type} (trap : Z -> (Z -> Z) -> K S (Z * (Z -> Z))).

Definition pushl (v : Z) : K (user S) unit :=
  modify (fun u => mkUser (u32 (esp u - 4)) (fun a => if a =? u32 (esp u - 4) then u32 v else words u a) (kernel u)).
Definition addl_esp (n : Z) : K (user S) unit := modify (fun u => mkUser (u32 (esp u + n)) (words u) (kernel u)).
Definition int_0x30 : K (user S) Z := fun u =>
  match trap (esp u) (words u) (kernel u) with
  | Ok ((eax, words'), s) => Ok (eax, mkUser (esp u) words' s)
  | Panic => Panic
  | NoFuel => NoFuel
  end.

Definition syscall0 (number : Z) : K (user S) Z := pushl number;; eax ← int_0x30; addl_esp 4;; mret (s32 eax).
Definition syscall1 (number arg0 : Z) : K (user S) Z := pushl arg0;; pushl number;; eax ← int_0x30; addl_esp 8;; mret (s32 eax).
Definition syscall2 (number arg0 arg1 : Z) : K (user S) Z :=
  pushl arg1;; pushl arg0;; pushl number;; eax ← int_0x30; addl_esp 12;; mret (s32 eax).
Definition syscall3 (number arg0 arg1 arg2 : Z) : K (user S) Z :=
  pushl arg2;; pushl arg1;; pushl arg0;; pushl number;; eax ← int_0x30; addl_esp 16;; mret (s32 eax).

Definition to_bool (m : K (user S) Z) : K (user S) bool := r ← m; mret (negb (r =? 0)).
(** [NOT_REACHED] aborts the program. *)
Definition halt : K (user S) unit := syscall0 SYS_HALT;; panic.
Definition exit (status : Z) : K (user S) unit := syscall1 SYS_EXIT status;; panic.
Definition exec (file : Z) : K (user S) Z := syscall1 SYS_EXEC file.
Definition wait (pid : Z) : K (user S) Z := syscall1 SYS_WAIT pid.
Definition create (file initial_size : Z) : K (user S) bool := to_bool (syscall2 SYS_CREATE file initial_size).
Definition remove (file : Z) : K (user S) bool := to_bool (syscall1 SYS_REMOVE file).
Definition open (file : Z) : K (user S) Z := syscall1 SYS_OPEN file.
Definition filesize (fd : Z) : K (user S) Z := syscall1 SYS_FILESIZE fd.
Definition read (fd buffer size : Z) : K (user S) Z := syscall3 SYS_READ fd buffer size.
Definition write (fd buffer size : Z) : K (user S) Z := syscall3 SYS_WRITE fd buffer size.
Definition seek (fd position : Z) : K (user S) unit := syscall2 SYS_SEEK fd position;; mret tt.
Definition tell (fd : Z) : K (user S) Z := r ← syscall1 SYS_TELL fd; mret (u32 r).
Definition close (fd : Z) : K (user S) unit := syscall1 SYS_CLOSE fd;; mret tt.
Definition mmap (fd addr : Z) : K (user S) Z := syscall2 SYS_MMAP fd addr.
Definition munmap (mapid : Z) : K (user S) unit := syscall1 SYS_MUNMAP mapid;; mret tt.
Definition chdir (dir : Z) : K (user S) bool := to_bool (syscall1 SYS_CHDIR dir).
Definition mkdir (dir : Z) : K (user S) bool := to_bool (syscall1 SYS_MKDIR dir).
Definition readdir (fd name : Z) : K (user S) bool := to_bool (syscall2 SYS_READDIR fd name).
Definition isdir (fd : Z) : K (user S) bool := to_bool (syscall1 SYS_ISDIR fd).
Definition inumber (fd : Z) : K (user S) Z := syscall1 SYS_INUMBER fd.

(** [_start]: the program ends with the result of [main] as its status. *)
Definition _start (main : Z -> Z -> K (user S) Z) (argc argv : Z) : K (user S) unit := status ← main argc argv; exit status.
End Calls.

(** *** What the kernel gets *)

Inductive request :=
| Halt | Exit (status : Z) | Exec (file : Z) | Wait (pid : Z) | Create (file initial_size : Z) | Remove (file : Z) | Open (file : Z)
| Filesize (fd : Z) | Read (fd buffer size : Z) | Write (fd buffer size : Z) | Seek (fd position : Z) | Tell (fd : Z) | Close (fd : Z)
| Mmap (fd addr : Z) | Munmap (mapid : Z) | Chdir (dir : Z) | Mkdir (dir : Z) | Readdir (fd name : Z) | Isdir (fd : Z) | Inumber (fd : Z).

(** The memory after pushing words, the last one first, on a stack that ended at [top]. *)
Fixpoint pushed (l : list Z) (top : Z) (w : Z -> Z) : Z -> Z :=
  match l with [] => w | v :: l' => fun a => if a =? top - 4 * len l then u32 v else pushed l' top w a end.
Lemma pushed_frame l top w i v : l !! i = Some v -> pushed l top w (top - 4 * len l + 4 * Z.of_nat i) = u32 v.
Proof.
  revert i. induction l as [|x l IH]; intros [|i] E; [done..| |]; cbn in E.
  - injection E as ->. cbn [pushed]. rewrite (proj2 (Z.eqb_eq _ _)) by lia. done.
  - cbn [pushed]. rewrite (proj2 (Z.eqb_neq _ _)) by lia. rewrite <- (IH i E). f_equal. cbn [length]. lia.
Qed.
Lemma pushed_others l top w a : a < top - 4 * len l \/ top <= a -> pushed l top w a = w a.
Proof. induction l as [|x l IH]; intros H; [done|]. cbn [pushed]. cbn [length] in *. rewrite (proj2 (Z.eqb_neq _ _)) by lia. apply IH. lia. Qed.

Section Requests.
Context {S : Type} (trap : Z -> (Z -> Z) -> K S (Z * (Z -> Z))).

(** What the program gets back. *)
Inductive reply := Nothing | Int (n : Z) | Bool (b : bool).
Definition call (r : request) : K (user S) reply :=
  match r with
  | Halt => halt trap;; mret Nothing
  | Exit status => exit trap status;; mret Nothing
  | Exec file => r ← exec trap file; mret (Int r)
  | Wait pid => r ← wait trap pid; mret (Int r)
  | Create file initial_size => b ← create trap file initial_size; mret (Bool b)
  | Remove file => b ← remove trap file; mret (Bool b)
  | Open file => r ← open trap file; mret (Int r)
  | Filesize fd => r ← filesize trap fd; mret (Int r)
  | Read fd buffer size => r ← read trap fd buffer size; mret (Int r)
  | Write fd buffer size => r ← write trap fd buffer size; mret (Int r)
  | Seek fd position => seek trap fd position;; mret Nothing
  | Tell fd => r ← tell trap fd; mret (Int r)
  | Close fd => close trap fd;; mret Nothing
  | Mmap fd addr => r ← mmap trap fd addr; mret (Int r)
  | Munmap mapid => munmap trap mapid;; mret Nothing
  | Chdir dir => b ← chdir trap dir; mret (Bool b)
  | Mkdir dir => b ← mkdir trap dir; mret (Bool b)
  | Readdir fd name => b ← readdir trap fd name; mret (Bool b)
  | Isdir fd => b ← isdir trap fd; mret (Bool b)
  | Inumber fd => r ← inumber trap fd; mret (Int r)
  end.

(** The words that the kernel finds on the stack, by the numbers of syscall-nr.h. *)
Definition frame (r : request) : list Z :=
  match r with
  | Halt => [0] | Exit status => [1; status] | Exec file => [2; file] | Wait pid => [3; pid] | Create file size => [4; file; size]
  | Remove file => [5; file] | Open file => [6; file] | Filesize fd => [7; fd] | Read fd buffer size => [8; fd; buffer; size]
  | Write fd buffer size => [9; fd; buffer; size] | Seek fd position => [10; fd; position] | Tell fd => [11; fd] | Close fd => [12; fd]
  | Mmap fd addr => [13; fd; addr] | Munmap mapid => [14; mapid] | Chdir dir => [15; dir] | Mkdir dir => [16; dir]
  | Readdir fd name => [17; fd; name] | Isdir fd => [18; fd] | Inumber fd => [19; fd]
  end.
Definition answer (r : request) (eax : Z) : outcome reply :=
  match r with
  | Halt | Exit _ => Panic
  | Create _ _ | Remove _ | Chdir _ | Mkdir _ | Readdir _ _ | Isdir _ => Ok (Bool (negb (s32 eax =? 0)))
  | Seek _ _ | Close _ | Munmap _ => Ok Nothing
  | Tell _ => Ok (Int (u32 eax))
  | _ => Ok (Int (s32 eax))
  end.

Lemma pushl_ok v l top w (k : S) :
  4 * len (v :: l) <= top < 2 ^ 32 ->
  pushl v (mkUser (top - 4 * len l) (pushed l top w) k) = Ok (tt, mkUser (top - 4 * len (v :: l)) (pushed (v :: l) top w) k).
Proof.
  intros H. unfold pushl, modify. cbn [esp words kernel pushed]. cbn [length] in H.
  replace (u32 (top - 4 * len l - 4)) with (top - 4 * len (v :: l)) by (rewrite wrapu_small by lia; cbn [length]; lia). done.
Qed.

(** The trap after the words were pushed, and the clean-up of the stack. *)
Definition trapped (l : list Z) (u : user S) : outcome (Z * user S) :=
  match trap (esp u - 4 * len l) (pushed l (esp u) (words u)) (kernel u) with
  | Ok ((eax, w), s) => Ok (s32 eax, mkUser (esp u) w s)
  | Panic => Panic
  | NoFuel => NoFuel
  end.
Lemma trap_ok l n u : n = 4 * len l -> 0 <= esp u - n -> esp u < 2 ^ 32 ->
  (eax ← int_0x30 trap; addl_esp n;; mret (s32 eax)) (mkUser (esp u - n) (pushed l (esp u) (words u)) (kernel u)) = trapped l u.
Proof.
  intros -> H1 H2. unfold mbind, K_bind, int_0x30, trapped. cbn [esp words kernel]. destruct (trap _ _ _) as [[[eax w] s]| |]; [|done..].
  unfold addl_esp, modify, mret, K_ret. cbn [esp words kernel]. rewrite wrapu_small by lia. do 3 f_equal. lia.
Qed.
Ltac push l := erewrite bind_ok by (apply (pushl_ok _ l); cbn [length]; lia).
Lemma user_eta (u : user S) : mkUser (esp u - 4 * len (@nil Z)) (pushed [] (esp u) (words u)) (kernel u) = u.
Proof. destruct u as [e w k]. cbn. by rewrite Z.sub_0_r. Qed.
Section Stack.
Variable u : user S.
Hypothesis Hu : 16 <= esp u < 2 ^ 32.
Lemma syscall0_ok nr : syscall0 trap nr u = trapped [nr] u.
Proof. rewrite <- (user_eta u) at 1. unfold syscall0. push (@nil Z). apply (trap_ok [nr]); simpl; lia. Qed.
Lemma syscall1_ok nr a : syscall1 trap nr a u = trapped [nr; a] u.
Proof. rewrite <- (user_eta u) at 1. unfold syscall1. push (@nil Z). push [a]. apply (trap_ok [nr; a]); simpl; lia. Qed.
Lemma syscall2_ok nr a b : syscall2 trap nr a b u = trapped [nr; a; b] u.
Proof. rewrite <- (user_eta u) at 1. unfold syscall2. push (@nil Z). push [b]. push [a; b]. apply (trap_ok [nr; a; b]); simpl; lia. Qed.
Lemma syscall3_ok nr a b c : syscall3 trap nr a b c u = trapped [nr; a; b; c] u.
Proof. rewrite <- (user_eta u) at 1. unfold syscall3. push (@nil Z). push [c]. push [b; c]. push [a; b; c]. apply (trap_ok [nr; a; b; c]); simpl; lia. Qed.
End Stack.
Lemma call_trapped r u : 16 <= esp u < 2 ^ 32 ->
  call r u = match trap (esp u - 4 * len (frame r)) (pushed (frame r) (esp u) (words u)) (kernel u) with
             | Ok ((eax, w), s) => match answer r eax with Ok rep => Ok (rep, mkUser (esp u) w s) | _ => Panic end
             | Panic => Panic
             | NoFuel => NoFuel
             end.
Proof.
  intros Hu. destruct r; cbn [call frame answer]; unfold mbind, K_bind, halt, exit, exec, wait, create, remove, open, filesize, read, write, seek, tell, close,
    mmap, munmap, chdir, mkdir, readdir, isdir, inumber, to_bool, mbind, K_bind;
    rewrite ?syscall0_ok, ?syscall1_ok, ?syscall2_ok, ?syscall3_ok by done; unfold trapped;
    destruct (trap _ _ _) as [[[eax w] s]| |]; try done.
  cbn [mret K_ret]. unfold mret, K_ret. by rewrite u32_s32.
Qed.
End Requests.

(** The system calls of the library pass what the kernel expects: for every call, the trap
    finds the number of the call at the stack pointer and the arguments above it, in order, and
    nothing else of the memory is changed; the program gets the value of eax, as an integer or a
    truth value, and its stack pointer is as before. *)
Theorem calls_marshalled {S} (trap : Z -> (Z -> Z) -> K S (Z * (Z -> Z))) r (u : user S) :
  16 <= esp u < 2 ^ 32 ->
  let sp := esp u - 4 * len (frame r) in
  exists mem,
    (forall i v, frame r !! i = Some v -> mem (sp + 4 * Z.of_nat i) = u32 v) /\
    (forall a, a < sp \/ esp u <= a -> mem a = words u a) /\
    call trap r u = match trap sp mem (kernel u) with
                    | Ok ((eax, mem'), s) => match answer r eax with Ok rep => Ok (rep, mkUser (esp u) mem' s) | _ => Panic end
                    | Panic => Panic
                    | NoFuel => NoFuel
                    end.
Proof.
  intros Hu sp. exists (pushed (frame r) (esp u) (words u)). split; [intros i v; apply pushed_frame|]. split; [apply pushed_others|]. by apply call_trapped.
Qed.
(** A kernel that adds the first two arguments. *)
Definition ex_trap (sp : Z) (mem : Z -> Z) : K Z (Z * (Z -> Z)) := fun s => Ok ((u32 (mem (sp + 4) + mem (sp + 8)), mem), s + 1).
Lemma calls_marshalled_witness :
  exists mem, call ex_trap (Create 100 23) (mkUser 1000 (fun _ => 0) 0) = Ok (Bool true, mkUser 1000 mem 1) /\ mem 988 = 4.
Proof.
  destruct (calls_marshalled ex_trap (Create 100 23) (mkUser 1000 (fun _ => 0) 0)) as (mem & F & _ & E); [vm_compute; split; [discriminate|reflexivity]|].
  exists mem. split; [|exact (F 0%nat 4 eq_refl)]. rewrite E. unfold ex_trap. cbn [esp frame length kernel].
  rewrite (F 1%nat 100 eq_refl : mem (1000 - 4 * Z.of_nat 3 + 4) = 100), (F 2%nat 23 eq_refl : mem (1000 - 4 * Z.of_nat 3 + 8) = 23). reflexivity.
Defined.
End Syscall.

(** ** Output *)

Module Output.
Definition BUF_SIZE : Z := 64.
(** A list in pieces of 64, the last one shorter. *)
Fixpoint pieces (cur out : list Z) : list (list Z) :=
  match out with
  | [] => match cur with [] => [] | _ => [cur] end
  | c :: out' => if BUF_SIZE <=? len (cur ++ [c]) then (cur ++ [c]) :: pieces [] out' else pieces (cur ++ [c]) out'
  end.
Lemma pieces_concat cur out : concat (pieces cur out) = cur ++ out.
Proof.
  revert cur. induction out as [|c out IH]; intros cur; cbn [pieces].
  - destruct cur; cbn; by rewrite ?app_nil_r.
  - destruct (_ <=? _); cbn [concat]; rewrite IH, <- ?app_assoc; done.
Qed.
Lemma pieces_sizes cur out : len cur < 64 -> Forall (fun p => 1 <= len p <= 64) (pieces cur out).
Proof.
  revert cur. induction out as [|c out IH]; intros cur H; cbn [pieces].
  - destruct cur; repeat constructor; simpl in *; lia.
  - unfold BUF_SIZE. rewrite length_app. cbn [length]. case_cmp; [constructor|]; [rewrite length_app; simpl; lia| |]; apply IH; [simpl; lia|rewrite length_app; simpl; lia].
Qed.
Lemma pieces_full cur out p q : len cur < 64 -> pieces cur out = p ++ [q] -> Forall (fun x => len x = 64) p.
Proof.
  revert cur p. induction out as [|c out IH]; intros cur p H E; cbn [pieces] in E.
  - destruct cur; destruct p as [|? [|]]; simplify_eq/=; done.
  - unfold BUF_SIZE in E. rewrite length_app in E. cbn [length] in E. destruct (Z.leb_spec 64 (Z.of_nat (length cur + 1))).
    + destruct p as [|x p]; [done|]. cbn in E. injection E as <- E. constructor; [rewrite length_app; simpl; lia|]. by eapply (IH []).
    + eapply (IH (cur ++ [c])); [rewrite length_app; simpl; lia|done].
Qed.

Section Output.
(** [write] to a handle; its result is not used. *)
Context {S : Type} (write : Z -> list Z -> K S Z).

Record vhprintf_aux := mkAux { buf : list Z; char_cnt : Z; handle : Z }.
Definition flush (aux : vhprintf_aux) : K S vhprintf_aux :=
  (if 0 <? len (buf aux) then write (handle aux) (buf aux);; mret tt else mret tt);;
  mret (mkAux [] (char_cnt aux) (handle aux)).
Definition add_char (c : Z) (aux : vhprintf_aux) : K S vhprintf_aux :=
  let aux := mkAux (buf aux ++ [c]) (char_cnt aux) (handle aux) in
  aux ← (if BUF_SIZE <=? len (buf aux) then flush aux else mret aux);
  mret (mkAux (buf aux) (s32 (char_cnt aux + 1)) (handle aux)).
Fixpoint add_chars (out : list Z) (aux : vhprintf_aux) : K S vhprintf_aux :=
  match out with [] => mret aux | c :: out' => aux ← add_char c aux; add_chars out' aux end.

(** [__vprintf] hands the characters of its output to [add_char] one by one. *)
Definition vhprintf (handle : Z) (format : list Z) (args : list arg) : K S Z :=
  out ← lift (Stdio.vprintf format args);
  aux ← add_chars out (mkAux [] 0 handle);
  aux ← flush aux;
  mret (char_cnt aux).
Definition hprintf : Z -> list Z -> list arg -> K S Z := vhprintf.
Definition STDOUT_FILENO : Z := 1.
Definition vprintf (format : list Z) (args : list arg) : K S Z := vhprintf STDOUT_FILENO format args.
Definition putchar (c : Z) : K S Z := write STDOUT_FILENO [c];; mret c.
Definition puts (s : list Z) : K S Z := write STDOUT_FILENO s;; putchar 10;; mret 0.

Abbreviation write_all h ps := (iterM ps (fun p => write h p;; mret tt)).
Lemma flush_bind {A} aux (f : vhprintf_aux -> K S A) s :
  0 < len (buf aux) -> (flush aux ≫= f) s = (write (handle aux) (buf aux) ≫= fun _ => f (mkAux [] (char_cnt aux) (handle aux))) s.
Proof. intros H. unfold flush. rewrite (proj2 (Z.ltb_lt 0 _)) by done. rewrite !bind_assoc. apply bind_eq. intros r s'. by rewrite !ret_bind. Qed.
Lemma add_flush out : forall aux s,
  len (buf aux) < 64 -> 0 <= char_cnt aux -> char_cnt aux + len out < 2 ^ 31 ->
  (aux ← add_chars out aux; aux ← flush aux; mret (char_cnt aux)) s = (write_all (handle aux) (pieces (buf aux) out);; mret (char_cnt aux + len out)) s.
Proof.
  induction out as [|c out IH]; intros [b n h] s Hb Hn Hc; cbn [buf char_cnt handle length] in *.
  - cbn [add_chars pieces]. rewrite ret_bind. destruct b as [|x b].
    + cbn. by rewrite Z.add_0_r.
    + rewrite flush_bind by (cbn [buf length]; lia). cbn [iterM buf handle]. rewrite !bind_assoc. apply bind_eq. intros r s'. rewrite !ret_bind. cbn. by rewrite Z.add_0_r.
  - cbn [add_chars pieces]. unfold add_char. cbn [buf char_cnt handle]. rewrite !bind_assoc. destruct (Z.leb_spec BUF_SIZE (len (b ++ [c]))) as [L|L].
    + rewrite flush_bind by (unfold BUF_SIZE in L; cbn [buf]; lia). cbn [iterM buf handle char_cnt]. rewrite !bind_assoc. apply bind_eq. intros r s'.
      rewrite !ret_bind. cbn [buf char_cnt handle]. rewrite (wraps_small 32) by lia. rewrite (IH (mkAux [] (n + 1) h)) by (simpl; lia). cbn [buf char_cnt handle]. apply bind_eq. intros ? s''.
      unfold mret, K_ret. do 2 f_equal. lia.
    + rewrite !ret_bind. cbn [buf char_cnt handle]. rewrite (wraps_small 32) by lia. rewrite (IH (mkAux (b ++ [c]) (n + 1) h)) by (unfold BUF_SIZE in L; simpl; lia). cbn [buf char_cnt handle].
      apply bind_eq. intros ? s''. unfold mret, K_ret. do 2 f_equal. lia.
Qed.
End Output.

(** Output to a handle is complete and in order: the formatted text is written in pieces that fill
    the buffer of 64 characters, but for the last one, and the result is its length. *)
Theorem output_in_pieces {S} (write : Z -> list Z -> K S Z) handle format args out s :
  Stdio.vprintf format args = Ok out -> len out < 2 ^ 31 ->
  exists ps, concat ps = out /\ Forall (fun p => 1 <= len p <= 64) ps /\ (forall p q, ps = p ++ [q] -> Forall (fun x => len x = 64) p) /\
    vhprintf write handle format args s = (iterM ps (fun p => write handle p;; mret tt);; mret (len out)) s.
Proof.
  intros E L. exists (pieces [] out). split; [apply pieces_concat|]. split; [by apply pieces_sizes|]. split; [intros p q; by apply pieces_full|].
  unfold vhprintf. erewrite bind_ok by (unfold lift; rewrite E; reflexivity). rewrite (add_flush write out (mkAux [] 0 handle)) by (simpl; lia). done.
Qed.
End Output.
