(* ===== verification/Boot.v ===== *)
(** The kernel command line (threads/init.c): how the pintos script stores it in the boot sector
    (utils/Pintos.pm), how the kernel breaks it into arguments, sets its options and runs the
    actions, and the choice of the block devices. *)

From stdpp Require Import strings.
From S2P Require Import Prelude KMonad CString Bytes Arith Stdio StdioOk AwStart Palloc Random Block.

(** ** The boot sector *)

Definition LOADER_ARGS_LEN : Z := 128.
Definition LOADER_ARGS : Z := 0x7e00 - 2 - 64 - LOADER_ARGS_LEN.
Definition LOADER_ARG_CNT : Z := LOADER_ARGS - 4.

(** [pack ("V a128", ...)] of the number of arguments and of the arguments, each with a null
    character after it; [None] where the script dies. *)
Definition make_kernel_command_line (args : list (list Z)) : option (list Z) :=
  let joined := concat ((fun a => a ++ [0]) <$> args) in
  if 128 <? len joined then None
  else Some (le_bytes 4 (len args) ++ joined ++ replicate (128 - length joined) 0).

(** ** read_command_line *)

(** The size of the static array of pointers. *)
Definition ARGV_LEN : Z := LOADER_ARGS_LEN / 2 + 1.

(** The loop, with [n] rounds left; an element outside of the array is a panic. *)
Fixpoint read_loop (argv_len : Z) (n : nat) (i p end_ : Z) : K ram_t (list Z) :=
  match n with
  | O => mret []
  | S n' =>
      if end_ <=? p then panic
      else
        ASSERT (i <? argv_len);;
        k ← strnlen p (end_ - p);
        argv ← read_loop argv_len n' (i + 1) (p + k + 1) end_;
        mret (p :: argv)
  end.
Definition load32 (a : Z) : K ram_t Z := gets (fun m => le_value [m a; m (a + 1); m (a + 2); m (a + 3)]).

(** The string at an address, as [printf] reads it. *)
Fixpoint string_at (fuel : nat) (a : Z) : K ram_t (list Z) :=
  match fuel with
  | O => no_fuel
  | S fuel' => c ← load a; if c =? 0 then mret [] else s ← string_at fuel' (a + 1); mret (c :: s)
  end.
Fixpoint print_loop (fuel : nat) (argv : list Z) : K ram_t (list Z) :=
  match argv with
  | [] => mret []
  | a :: argv' =>
      space ← strchr fuel a 32;
      s ← string_at fuel a;
      o1 ← lift (printf (if space =? 0 then " %s" else " '%s'") [ArgStr (Some s)]);
      o2 ← print_loop fuel argv';
      mret (o1 ++ o2)
  end.

(** The result is the array before its null pointer, and what is printed. *)
Definition read_command_line_in (argv_len : Z) (fuel : nat) : K ram_t (list Z * list Z) :=
  cnt ← lift (ptov LOADER_ARG_CNT);
  argc ← load32 cnt;
  let argc := s32 argc in
  p ← lift (ptov LOADER_ARGS);
  argv ← read_loop argv_len (Z.to_nat argc) 0 p (p + LOADER_ARGS_LEN);
  ASSERT ((0 <=? argc) && (argc <? argv_len));;
  out ← print_loop fuel argv;
  mret (argv, str "Kernel command line:" ++ out ++ [10]).
Definition read_command_line : nat -> K ram_t (list Z * list Z) := read_command_line_in ARGV_LEN.

(** ** parse_options *)

(** The macros that choose what is compiled into the kernel. *)
Record config := mkConfig { FILESYS : bool; VM : bool; USERPROG : bool }.

Inductive shutdown_type := SHUTDOWN_NONE | SHUTDOWN_POWER_OFF | SHUTDOWN_REBOOT.
Record settings := mkSettings {
  how : shutdown_type;
  format_filesys : bool;
  filesys_bdev_name : option (list Z);
  scratch_bdev_name : option (list Z);
  swap_bdev_name : option (list Z);
  thread_mlfqs : bool;
  user_page_limit : Z;
  generator : rc4;
  output : list Z
}.
Definition set_how x s := mkSettings x (format_filesys s) (filesys_bdev_name s) (scratch_bdev_name s) (swap_bdev_name s) (thread_mlfqs s) (user_page_limit s) (generator s) (output s).
Definition set_format s := mkSettings (how s) true (filesys_bdev_name s) (scratch_bdev_name s) (swap_bdev_name s) (thread_mlfqs s) (user_page_limit s) (generator s) (output s).
Definition set_filesys x s := mkSettings (how s) (format_filesys s) x (scratch_bdev_name s) (swap_bdev_name s) (thread_mlfqs s) (user_page_limit s) (generator s) (output s).
Definition set_scratch x s := mkSettings (how s) (format_filesys s) (filesys_bdev_name s) x (swap_bdev_name s) (thread_mlfqs s) (user_page_limit s) (generator s) (output s).
Definition set_swap x s := mkSettings (how s) (format_filesys s) (filesys_bdev_name s) (scratch_bdev_name s) x (thread_mlfqs s) (user_page_limit s) (generator s) (output s).
Definition set_mlfqs s := mkSettings (how s) (format_filesys s) (filesys_bdev_name s) (scratch_bdev_name s) (swap_bdev_name s) true (user_page_limit s) (generator s) (output s).
Definition set_limit x s := mkSettings (how s) (format_filesys s) (filesys_bdev_name s) (scratch_bdev_name s) (swap_bdev_name s) (thread_mlfqs s) x (generator s) (output s).
Definition set_generator x s := mkSettings (how s) (format_filesys s) (filesys_bdev_name s) (scratch_bdev_name s) (swap_bdev_name s) (thread_mlfqs s) (user_page_limit s) x (output s).
Definition set_output x s := mkSettings (how s) (format_filesys s) (filesys_bdev_name s) (scratch_bdev_name s) (swap_bdev_name s) (thread_mlfqs s) (user_page_limit s) (generator s) x.
Definition default_settings (g : rc4) : settings := mkSettings SHUTDOWN_NONE false None None None false (2 ^ 32 - 1) g [].

Definition shutdown_configure (type : shutdown_type) : K settings unit := modify (set_how type).

(** The two calls of [strtok_r] on an option: its name and its value. *)
Definition split_option (arg : list Z) : list Z * option (list Z) :=
  (prefix_of (fun c => negb (in_set [61] c)) arg,
   match tail (rest_of (fun c => negb (in_set [61] c)) arg) with [] => None | v => Some v end).
Definition atoi_arg (value : option (list Z)) : K settings Z := v ← the value; mret (atoi_list v).

Section Config.
Variable cfg : config.

Definition line (s : String.string) : list Z := str s ++ [10].
Definition only (b : bool) (l : list Z) : list Z := if b then l else [].
Definition usage_text : list Z :=
  [10] ++ line "Command line syntax: [OPTION...] [ACTION...]" ++
  line "Options must precede actions." ++
  line "Actions are executed in the order specified." ++
  [10] ++ line "Available actions:" ++
  (if USERPROG cfg then line "  run 'PROG [ARG...]' Run PROG and wait for it to complete." else line "  run PROJECT           Run PROJECT.") ++
  only (FILESYS cfg) (
    line "  ls                 List files in the root directory." ++
    line "  cat FILE           Print FILE to the console." ++
    line "  rm FILE            Delete FILE." ++
    line "Use these actions indirectly via `pintos' -g and -p options:" ++
    line "  extract            Untar from scratch device into file system." ++
    line "  append FILE        Append FILE to tar file on scratch device.") ++
  [10] ++ line "Options:" ++
  line "  -h                 Print this help message and power off." ++
  line "  -q                 Power off VM after actions or on panic." ++
  line "  -r                 Reboot after actions." ++
  only (FILESYS cfg) (
    line "  -f                 Format file system device during startup." ++
    line "  -filesys=BDEV      Use BDEV for file system instead of default." ++
    line "  -scratch=BDEV      Use BDEV for scratch instead of default." ++
    only (VM cfg) (line "  -swap=BDEV         Use BDEV for swap instead of default.")) ++
  line "  -rs=SEED           Set random number seed to SEED." ++
  line "  -mlfqs             Use multi-level feedback queue scheduler." ++
  only (USERPROG cfg) (line "  -ul=COUNT          Limit user memory to COUNT pages.").
Definition usage : K settings unit := out ← lift (vprintf usage_text []); modify (fun s => set_output (output s ++ out) s).

(** One option; the result says whether the kernel goes on, which it does not after [usage]. *)
Definition parse_option (arg : list Z) : K settings bool :=
  let '(name, value) := split_option arg in
  let named (s : String.string) := bool_decide (name = str s) in
  if named "-h" then usage;; mret false
  else
    (if named "-q" then shutdown_configure SHUTDOWN_POWER_OFF
     else if named "-r" then shutdown_configure SHUTDOWN_REBOOT
     else if FILESYS cfg && named "-f" then modify set_format
     else if FILESYS cfg && named "-filesys" then modify (set_filesys value)
     else if FILESYS cfg && named "-scratch" then modify (set_scratch value)
     else if FILESYS cfg && VM cfg && named "-swap" then modify (set_swap value)
     else if named "-rs" then n ← atoi_arg value; modify (set_generator (random_init (u32 n)))
     else if named "-mlfqs" then modify set_mlfqs
     else if USERPROG cfg && named "-ul" then n ← atoi_arg value; modify (set_limit (u32 n))
     else panic);;
    mret true.

(** The arguments that are left, or [None] if the machine was powered off. *)
Fixpoint options_loop (argv : list (list Z)) : K settings (option (list (list Z))) :=
  match argv with
  | arg :: argv' =>
      match arg with
      | c :: _ => if c =? 45 then parse_option arg ≫= fun go : bool => if go then options_loop argv' else mret None else mret (Some argv)
      | [] => mret (Some argv)
      end
  | [] => mret (Some [])
  end.
Definition parse_options (now : Z) (argv : list (list Z)) : K settings (option (list (list Z))) :=
  rest ← options_loop argv;
  match rest with
  | None => mret None
  | Some argv => modify (set_generator (random_init (u32 now)));; mret (Some argv)
  end.

(** ** run_actions *)

Inductive action := run_task | run_automated_warehouse | fsutil_ls | fsutil_cat | fsutil_rm | fsutil_extract | fsutil_append.
#[global] Instance action_eq : EqDecision action.
Proof. solve_decision. Defined.

(** The table: name, number of arguments with the name, and function. *)
Definition actions : list (list Z * Z * action) :=
  [(str "run", 2, run_task); (str "automated_warehouse", 3, run_automated_warehouse)] ++
  (if FILESYS cfg
   then [(str "ls", 1, fsutil_ls); (str "cat", 2, fsutil_cat); (str "rm", 2, fsutil_rm); (str "extract", 1, fsutil_extract);
         (str "append", 2, fsutil_append)]
   else []).
Fixpoint find_action (table : list (list Z * Z * action)) (name : list Z) : option (Z * action) :=
  match table with
  | [] => None
  | (n, argc, f) :: table' => if bool_decide (name = n) then Some (argc, f) else find_action table' name
  end.

(** The functions of the table, which read the arguments up to their number. *)
Context {S : Type} (invoke : action -> list (list Z) -> K S unit).

Fixpoint run_actions (fuel : nat) (argv : list (list Z)) : K S unit :=
  match argv with
  | [] => mret tt
  | name :: _ =>
      match fuel with
      | O => no_fuel
      | Datatypes.S fuel' =>
          match find_action actions name with
          | None => panic
          | Some (argc, f) =>
              if len argv <? argc then panic
              else invoke f (take (Z.to_nat argc) argv);; run_actions fuel' (drop (Z.to_nat argc) argv)
          end
      end
  end.
End Config.

(** ** The block devices *)

Fixpoint locate_loop (fuel : nat) (role : Z) (block : option nat) : K devices (option nat) :=
  match block with
  | None => mret None
  | Some b =>
      match fuel with
      | O => no_fuel
      | S fuel' => type ← block_type b; if type =? role then mret (Some b) else next ← block_next b; locate_loop fuel' role next
      end
  end.
Definition locate_block_device (role : Z) (name : option (list Z)) : K devices unit :=
  block ← match name with
          | Some name => found ← block_get_by_name name; match found with None => panic | Some b => mret (Some b) end
          | None => ds ← get; first ← block_first; locate_loop (length (all_blocks ds)) role first
          end;
  match block with Some b => block_set_role role (Some b) | None => mret tt end.
Definition locate_block_devices (cfg : config) (s : settings) : K devices unit :=
  locate_block_device BLOCK_FILESYS (filesys_bdev_name s);;
  locate_block_device BLOCK_SCRATCH (scratch_bdev_name s);;
  when (VM cfg) (locate_block_device BLOCK_SWAP (swap_bdev_name s)).

(** ** Reading what the script wrote *)

Abbreviation argument a := (Forall (fun c => character c) a).
Definition joined (args : list (list Z)) : list Z := concat ((fun a => a ++ [0]) <$> args).

(** Where the arguments are, when the first one is at [p]. *)
Fixpoint addresses (p : Z) (args : list (list Z)) : list Z :=
  match args with [] => [] | a :: args' => p :: addresses (p + len a + 1) args' end.
Lemma joined_cons a args : joined (a :: args) = a ++ 0 :: joined args.
Proof. unfold joined. cbn. by rewrite <- app_assoc. Qed.
Lemma addresses_app p l1 l2 : addresses p (l1 ++ l2) = addresses p l1 ++ addresses (p + len (joined l1)) l2.
Proof.
  revert p. induction l1 as [|a l1 IH]; intros p; cbn [app addresses]; [by rewrite Z.add_0_r|]. rewrite IH. cbn [app]. rewrite joined_cons, length_app. cbn [length].
  do 2 f_equal. f_equal. lia.
Qed.
Lemma addresses_length p args : length (addresses p args) = length args.
Proof. revert p. induction args as [|a args IH]; intros p; simpl; [done|]. by rewrite IH. Qed.
Lemma addresses_above p args : Forall (fun a => p <= a) (addresses p args).
Proof.
  revert p. induction args as [|a args IH]; intros p; constructor; [lia|]. eapply Forall_impl; [apply IH|]. simpl. intros; lia.
Qed.
Lemma addresses_strings m args : forall p pad, Forall (fun a => argument a) args -> holds m p (joined args ++ pad) -> Forall2 (cstr m) (addresses p args) args.
Proof.
  induction args as [|a args IH]; intros p pad Ha Hm; [constructor|]. apply Forall_cons in Ha as [Hc Ha]. cbn [addresses].
  rewrite joined_cons, <- app_assoc in Hm. cbn [app] in Hm. change (a ++ 0 :: joined args ++ pad) with (a ++ [0] ++ joined args ++ pad) in Hm.
  rewrite app_assoc, holds_app, length_app in Hm. cbn [length] in Hm. destruct Hm as [H1 H2]. constructor; [done|].
  apply (IH _ pad); [done|]. by replace (p + len a + 1) with (p + Z.of_nat (length a + 1)) by lia.
Qed.

Lemma arguments_read argv_len m args : forall i p end_,
  Forall2 (cstr m) (addresses p args) args -> p + len (joined args) <= end_ -> i + len args <= argv_len ->
  read_loop argv_len (length args) i p end_ m = Ok (addresses p args, m).
Proof.
  induction args as [|a args IH]; intros i p end_ F He Hi; [done|]. cbn [addresses] in *. apply Forall2_cons in F as [S F].
  rewrite joined_cons, length_app in He. cbn [length] in *. cbn [read_loop]. rewrite (proj2 (Z.leb_gt _ _)), ASSERT_true by lia.
  rewrite (bind_ok _ _ _ _ _ (strnlen_ok m p a (end_ - p) S ltac:(lia))), Z.min_l by lia.
  by rewrite (bind_ok _ _ _ _ _ (IH (i + 1) (p + len a + 1) end_ F ltac:(lia) ltac:(lia))).
Qed.
Lemma string_at_ok m a l fuel : cstr m a l -> (length l < fuel)%nat -> string_at fuel a m = Ok (l, m).
Proof.
  revert a fuel. induction l as [|c l IH]; intros a [|fuel] H Hf; simpl in Hf; try lia; cbn [string_at].
  - apply cstr_nil in H. erewrite bind_ok by (unfold load, gets; rewrite H; reflexivity). done.
  - apply cstr_cons in H as (H & Hc & Hl). erewrite bind_ok by (unfold load, gets; rewrite H; reflexivity).
    rewrite (proj2 (Z.eqb_neq c 0)) by lia. by rewrite (bind_ok _ _ _ _ _ (IH (a + 1) fuel Hl ltac:(lia))).
Qed.

(** The arguments as they are printed: quoted if they have a space. *)
Definition quoted (a : list Z) : list Z := if bool_decide (32 ∈ a) then [32; 39] ++ a ++ [39] else 32 :: a.
Lemma plain_string a : len a <= 128 -> format_string (limit a (-1)) (mkConv 0 0 (-1) INT) = a.
Proof.
  intros H. unfold limit. change (u32 (-1)) with 4294967295. rewrite Z.min_l, Nat2Z.id, firstn_all by lia.
  unfold format_string. cbn [width flags]. rewrite (proj2 (Z.ltb_ge _ 0)) by lia. simpl. apply app_nil_r.
Qed.
Lemma print_plain a : len a <= 128 -> printf " %s" [ArgStr (Some a)] = Ok (32 :: a).
Proof.
  intros H. assert (E : printf " %s" [ArgStr (Some a)] = Ok (32 :: format_string (limit a (-1)) (mkConv 0 0 (-1) INT) ++ [])) by reflexivity.
  by rewrite E, plain_string, app_nil_r.
Qed.
Lemma print_quoted a : len a <= 128 -> printf " '%s'" [ArgStr (Some a)] = Ok ([32; 39] ++ a ++ [39]).
Proof.
  intros H. assert (E : printf " '%s'" [ArgStr (Some a)] = Ok (32 :: 39 :: format_string (limit a (-1)) (mkConv 0 0 (-1) INT) ++ [39])) by reflexivity.
  by rewrite E, plain_string.
Qed.
Lemma print_loop_ok m fuel argv args :
  Forall2 (cstr m) argv args -> Forall (fun a => 0 < a) argv -> Forall (fun a => len a <= 128) args -> (128 < fuel)%nat ->
  print_loop fuel argv m = Ok (concat (quoted <$> args), m).
Proof.
  induction 1 as [|p a argv args Hp _ IH]; intros Hpos Ha Hf; [done|]. apply Forall_cons in Ha as [Ha1 Ha]. apply Forall_cons in Hpos as [Hp0 Hpos].
  cbn [print_loop]. destruct (strchr_null m fuel p 32 a Hp0 ltac:(lia) Hp ltac:(lia)) as (q & E & Hq).
  rewrite (bind_ok _ _ _ _ _ E), (bind_ok _ _ _ _ _ (string_at_ok m p a fuel Hp ltac:(lia))).
  assert (Eo : lift (printf (if q =? 0 then " %s" else " '%s'") [ArgStr (Some a)]) m = Ok (quoted a, m)).
  { unfold lift, quoted. rewrite Hq, (bool_decide_ext (32 = 0 \/ 32 ∈ a) (32 ∈ a)) by (split; [intros [?|?]; [lia|done]|tauto]).
    destruct (bool_decide (32 ∈ a)); cbn [negb]; [by rewrite print_quoted|by rewrite print_plain]. }
  by rewrite (bind_ok _ _ _ _ _ Eo), (bind_ok _ _ _ _ _ (IH Hpos Ha Hf)).
Qed.
Lemma joined_length args a : a ∈ args -> len a + 1 <= len (joined args).
Proof.
  intros H. apply list_elem_of_split in H as (l1 & l2 & ->). unfold joined. rewrite fmap_app, concat_app, length_app. cbn. rewrite !length_app. cbn. lia.
Qed.
Lemma joined_count args : Forall (fun a => a <> []) args -> 2 * len args <= len (joined args).
Proof.
  induction 1 as [|a args Ha H IH]; [done|]. unfold joined in *. cbn. rewrite !length_app. destruct a; [done|]. cbn. lia.
Qed.
Lemma joined_max args : len args <= len (joined args).
Proof. induction args as [|a args IH]; [done|]. unfold joined in *. cbn. rewrite !length_app. cbn. lia. Qed.

Definition args_base : Z := PHYS_BASE + LOADER_ARGS.
Section Read.
Variables (m : ram_t) (args : list (list Z)) (bytes : list Z).
Hypothesis Hb : make_kernel_command_line args = Some bytes.
Hypothesis Hm : holds m (PHYS_BASE + LOADER_ARG_CNT) bytes.
Lemma command_line_fits : len (joined args) <= 128.
Proof. revert Hb. unfold make_kernel_command_line. fold (joined args). by destruct (Z.ltb_spec 128 (len (joined args))). Qed.
Lemma count_loaded : load32 (PHYS_BASE + LOADER_ARG_CNT) m = Ok (len args, m).
Proof.
  pose proof command_line_fits as HL. pose proof (joined_max args) as HN. revert Hb Hm. unfold make_kernel_command_line. fold (joined args).
  rewrite (proj2 (Z.ltb_ge _ _)) by lia. set (cnt := PHYS_BASE + LOADER_ARG_CNT). intros E H. apply (inj Some) in E. rewrite <- E in H.
  apply holds_app in H as [H _]. unfold load32, gets. do 2 f_equal. cbn [le_bytes holds] in H. destruct H as (E0 & E1 & E2 & E3 & _).
  rewrite E0, E1. replace (cnt + 2) with (cnt + 1 + 1) by lia. replace (cnt + 3) with (cnt + 1 + 1 + 1) by lia. rewrite E2, E3. apply (le_value_bytes 4). lia.
Qed.
Lemma arguments_loaded : Forall (fun a => argument a) args -> Forall2 (cstr m) (addresses args_base args) args.
Proof.
  intros Ha. pose proof command_line_fits as HL. revert Hb Hm. unfold make_kernel_command_line. fold (joined args).
  rewrite (proj2 (Z.ltb_ge _ _)) by lia. intros E H. apply (inj Some) in E. rewrite <- E in H. apply holds_app in H as [_ H]. rewrite le_bytes_length in H.
  by eapply addresses_strings.
Qed.

Lemma read_args argv_len fuel :
  Forall (fun a => argument a) args -> len args <= argv_len ->
  read_command_line_in argv_len fuel m =
    (ASSERT (len args <? argv_len);; out ← print_loop fuel (addresses args_base args); mret (addresses args_base args, str "Kernel command line:" ++ out ++ [10])) m.
Proof.
  intros Ha Hn. pose proof command_line_fits as HL. pose proof (joined_max args) as HN. unfold read_command_line_in.
  erewrite bind_ok by reflexivity. cbv beta. change (u32 (LOADER_ARG_CNT + PHYS_BASE)) with (PHYS_BASE + LOADER_ARG_CNT).
  rewrite (bind_ok _ _ _ _ _ count_loaded). cbv zeta. rewrite (wraps_small 32) by lia. rewrite Nat2Z.id.
  erewrite bind_ok by reflexivity. change (u32 (LOADER_ARGS + PHYS_BASE)) with args_base.
  rewrite (bind_ok _ _ _ _ _ (arguments_read argv_len m args 0 args_base (args_base + LOADER_ARGS_LEN) (arguments_loaded Ha) ltac:(unfold LOADER_ARGS_LEN; lia) ltac:(lia))).
  by rewrite (proj2 (Z.leb_le 0 _)) by lia.
Qed.
Lemma read_ok argv_len fuel :
  Forall (fun a => argument a) args -> len args < argv_len -> (128 < fuel)%nat ->
  read_command_line_in argv_len fuel m = Ok ((addresses args_base args, str "Kernel command line:" ++ concat (quoted <$> args) ++ [10]), m).
Proof.
  intros Ha Hn Hf. pose proof command_line_fits as HL. rewrite read_args, ASSERT_true by (done || lia). rewrite (bind_ok _ _ _ _ _ (print_loop_ok m fuel _ args (arguments_loaded Ha)
    ltac:(eapply Forall_impl; [apply addresses_above|]; simpl; intros x Hx; unfold args_base, PHYS_BASE, LOADER_ARGS, LOADER_ARGS_LEN in Hx; lia)
    ltac:(apply Forall_forall; intros a Ia; pose proof (joined_length args a Ia); lia) Hf)). done.
Qed.
End Read.

(** ** The two tokens of an option

    The calls of [strtok_r] in memory give the name and the value, and change nothing outside of the
    option. *)

Lemma prefix_none p l : (forall c, p c = false) -> prefix_of p l = [] /\ rest_of p l = l.
Proof. intros H. destruct l; simpl; [done|]. by rewrite H. Qed.
Lemma prefix_full p l : (forall c, p c = true) -> prefix_of p l = l.
Proof. intros H. induction l as [|c l IH]; simpl; [done|]. by rewrite H, IH. Qed.

(** The second call, with no delimiters, gives all that is left. *)
Lemma strtok_rest fuel m e sv v :
  0 < e -> 0 < sv -> cstr m e [] -> cstr m sv v -> (length v < fuel)%nat ->
  exists q sv2, strtok_r fuel 0 e sv m = Ok ((q, sv2), m) /\ q = (match v with [] => 0 | _ => sv end).
Proof.
  intros He Hs Hd Hv Hf. unfold strtok_r. rewrite ASSERT_true by (by rewrite (proj2 (Z.eqb_neq e 0)) by lia). cbn [Z.eqb]. cbv zeta.
  rewrite ASSERT_true by (by rewrite (proj2 (Z.eqb_neq sv 0)) by lia).
  rewrite (bind_ok _ _ _ _ _ (skip_delims_ok m e [] fuel He Hd ltac:(simpl; lia) fuel sv v Hv Hf)).
  destruct (prefix_none (in_set []) v) as [-> ->]; [done|]. destruct v as [|c v]; [by repeat eexists|]. cbn [nonempty negb]. change (Z.of_nat (length (@nil Z))) with 0. rewrite Z.add_0_r. cbv zeta.
  rewrite (bind_ok _ _ _ _ _ (skip_others_ok m e [] fuel He Hd ltac:(simpl; lia) fuel sv (c :: v) Hv Hf)), prefix_full by done.
  pose proof (cstr_app m sv (c :: v) [] ltac:(by rewrite app_nil_r)) as H0. apply cstr_nil in H0.
  erewrite bind_ok by (unfold load, gets; rewrite H0; reflexivity). by repeat eexists.
Qed.
Lemma strtok_option fuel m p d e save arg :
  0 < d -> 0 < e -> 0 < p -> cstr m d [61] -> cstr m e [] -> cstr m p (45 :: arg) -> (length arg + 2 < fuel)%nat ->
  (e < p \/ p + len arg + 1 < e) ->
  exists m1 m2 sv q sv2, strtok_r fuel p d save m = Ok ((p, sv), m1) /\ strtok_r fuel 0 e sv m1 = Ok ((q, sv2), m2) /\
    cstr m2 p (split_option (45 :: arg)).1 /\
    match (split_option (45 :: arg)).2 with None => q = 0 | Some v => q <> 0 /\ cstr m2 q v end /\
    (forall x, x < p \/ p + len arg + 1 <= x -> m2 x = m x).
Proof.
  intros Hd He Hp Cd Ce Cp Hf Ae. unfold split_option. set (name := prefix_of _ _). set (r := rest_of _ _). cbn [fst snd].
  assert (Hnr : name ++ r = 45 :: arg) by apply prefix_rest. assert (Cr : cstr m (p + len name) r) by (by apply rest_cstr).
  assert (Hl : (length name + length r = S (length arg))%nat) by (rewrite <- length_app, Hnr; done).
  assert (E1 : strtok_r fuel p d save m = Ok ((p, p + len name + if nonempty r then 1 else 0), if nonempty r then upd (p + len name) 0 m else m)).
  { unfold strtok_r. rewrite ASSERT_true by (by rewrite (proj2 (Z.eqb_neq d 0)) by lia). rewrite (proj2 (Z.eqb_neq p 0)) by lia. cbv zeta.
    rewrite ASSERT_true by (by rewrite (proj2 (Z.eqb_neq p 0)) by lia).
    rewrite (bind_ok _ _ _ _ _ (skip_delims_ok m d [61] fuel Hd Cd ltac:(simpl; lia) fuel p _ Cp ltac:(simpl; lia))).
    change (prefix_of (in_set [61]) (45 :: arg)) with (@nil Z). change (rest_of (in_set [61]) (45 :: arg)) with (45 :: arg). cbn [nonempty negb]. change (Z.of_nat (length (@nil Z))) with 0. rewrite Z.add_0_r. cbv zeta.
    rewrite (bind_ok _ _ _ _ _ (skip_others_ok m d [61] fuel Hd Cd ltac:(simpl; lia) fuel p _ Cp ltac:(simpl; lia))). fold name.
    destruct r as [|c v]; cbn [nonempty].
    - apply cstr_nil in Cr. erewrite bind_ok by (unfold load, gets; rewrite Cr; reflexivity). rewrite Z.add_0_r. done.
    - apply cstr_cons in Cr as (H0 & Hc & _). erewrite bind_ok by (unfold load, gets; rewrite H0; reflexivity).
      rewrite (proj2 (Z.eqb_neq c 0)) by lia. done. }
  clearbody name. assert (Cn : Forall (fun c => character c) name) by (destruct Cp as [_ Cp]; rewrite <- Hnr in Cp; by apply Forall_app in Cp as [? _]).
  assert (Hn : holds m p name) by (destruct Cp as [Cp _]; rewrite <- Hnr, <- app_assoc in Cp; by apply holds_app in Cp as [? _]).
  destruct r as [|c v] eqn:Er; cbn [nonempty tail] in *.
  - rewrite Z.add_0_r in E1. destruct (strtok_rest fuel m e (p + len name) [] He ltac:(lia) Ce Cr ltac:(simpl; lia)) as (q & sv2 & E2 & Hq).
    exists m, m, (p + len name), q, sv2. split; [done|]. split; [done|]. split; [|done]. split; [|done]. apply holds_app. split; [done|]. apply cstr_nil in Cr. done.
  - set (m1 := upd (p + len name) 0 m) in *. assert (Hup : forall x, x <> p + len name -> m1 x = m x).
    { intros x Hx. unfold m1, upd. by rewrite (proj2 (Z.eqb_neq _ _) Hx). }
    cbn [length] in Hl. apply cstr_cons in Cr as (_ & _ & Cv).
    assert (Ce1 : cstr m1 e []) by (apply (cstr_agree m); [|done]; simpl; intros x Hx; apply Hup; lia).
    assert (Cv1 : cstr m1 (p + len name + 1) v) by (apply (cstr_agree m); [|done]; intros x Hx; apply Hup; lia).
    destruct (strtok_rest fuel m1 e (p + len name + 1) v He ltac:(lia) Ce1 Cv1 ltac:(lia)) as (q & sv2 & E2 & Hq).
    exists m1, m1, (p + len name + 1), q, sv2. split; [done|]. split; [done|]. split.
    + split; [|done]. apply holds_app. split; [apply (holds_agree m); [|done]; intros x Hx; apply Hup; lia|]. simpl. split; [|done]. unfold m1, upd. by rewrite Z.eqb_refl.
    + split; [|intros x Hx; apply Hup; lia]. destruct v as [|c' v]; [done|]. rewrite Hq. split; [lia|done].
Qed.

(** ** Options and actions as the user means them *)

Inductive boot_option :=
| Quit | Reboot | Format | Filesys (bdev : list Z) | Scratch (bdev : list Z) | Swap (bdev : list Z) | Seed (n : list Z) | Mlfqs | User_limit (n : list Z).
Definition flag_of (o : boot_option) : list Z :=
  str (match o with
       | Quit => "-q" | Reboot => "-r" | Format => "-f" | Filesys _ => "-filesys" | Scratch _ => "-scratch" | Swap _ => "-swap"
       | Seed _ => "-rs" | Mlfqs => "-mlfqs" | User_limit _ => "-ul"
       end).
Definition value_of (o : boot_option) : option (list Z) :=
  match o with Filesys v | Scratch v | Swap v | Seed v | User_limit v => Some v | _ => None end.
Definition option_text (o : boot_option) : list Z := flag_of o ++ match value_of o with Some v => 61 :: v | None => [] end.
Definition effect (o : boot_option) : settings -> settings :=
  match o with
  | Quit => set_how SHUTDOWN_POWER_OFF | Reboot => set_how SHUTDOWN_REBOOT | Format => set_format
  | Filesys v => set_filesys (Some v) | Scratch v => set_scratch (Some v) | Swap v => set_swap (Some v)
  | Seed n => set_generator (random_init (u32 (atoi_list n))) | Mlfqs => set_mlfqs | User_limit n => set_limit (u32 (atoi_list n))
  end.

Record call := mkCall { c_action : action; c_args : list (list Z) }.
Definition action_name (f : action) : list Z :=
  str (match f with
       | run_task => "run" | run_automated_warehouse => "automated_warehouse" | fsutil_ls => "ls" | fsutil_cat => "cat"
       | fsutil_rm => "rm" | fsutil_extract => "extract" | fsutil_append => "append"
       end).
Definition action_args (f : action) : nat :=
  match f with run_automated_warehouse => 2 | fsutil_ls | fsutil_extract => 0 | _ => 1 end.
Definition call_text (c : call) : list (list Z) := action_name (c_action c) :: c_args c.

Section Meaning.
Variable cfg : config.
Definition available (o : boot_option) : bool :=
  match o with
  | Format | Filesys _ | Scratch _ => FILESYS cfg | Swap _ => FILESYS cfg && VM cfg | User_limit _ => USERPROG cfg | _ => true
  end.
(** The option -rs, whose seed does not last: see [seed_option_overridden]. *)
Definition is_seed (o : boot_option) : bool := match o with Seed _ => true | _ => false end.
Definition option_ok (o : boot_option) : Prop := available o = true /\ value_of o <> Some [].
Definition enabled (f : action) : bool := match f with run_task | run_automated_warehouse => true | _ => FILESYS cfg end.
Definition call_ok (c : call) : Prop := enabled (c_action c) = true /\ length (c_args c) = action_args (c_action c).

Lemma name_before n v : Forall (fun c => c <> 61) n -> (v = [] \/ exists v', v = 61 :: v') ->
  rest_of (fun c => negb (in_set [61] c)) (n ++ v) = v /\ prefix_of (fun c => negb (in_set [61] c)) (n ++ v) = n.
Proof.
  intros H Hv. induction H as [|c n Hc H [IH1 IH2]]; [destruct Hv as [->|[v' ->]]; done|]. cbn [rest_of prefix_of app].
  assert (in_set [61] c = false) as -> by (apply bool_decide_false; by rewrite list_elem_of_singleton). cbn [negb]. by rewrite IH1, IH2.
Qed.
Lemma split_text o : value_of o <> Some [] -> split_option (option_text o) = (flag_of o, value_of o).
Proof.
  intros H. assert (Hf : Forall (fun c => c <> 61) (flag_of o)) by (destruct o; repeat constructor; done).
  unfold option_text, split_option. destruct (value_of o) as [v|].
  - destruct (name_before (flag_of o) (61 :: v) Hf) as [-> ->]; [eauto|]. cbn [tail]. by destruct v.
  - destruct (name_before (flag_of o) [] Hf) as [-> ->]; [eauto|]. done.
Qed.
Lemma option_parsed o s : option_ok o -> parse_option cfg (option_text o) s = Ok (true, effect o s).
Proof.
  intros [Ha Hv]. unfold parse_option. rewrite split_text by done. destruct o; cbn [available flag_of value_of effect] in *; try (apply andb_true_iff in Ha as [Ha1 Ha2]);
    try rewrite Ha; try rewrite Ha1, Ha2; try (destruct (FILESYS cfg)); try (destruct (VM cfg)); try (destruct (USERPROG cfg)); done || reflexivity.
Qed.
Lemma options_parsed os rest s :
  Forall option_ok os -> (match rest with (45 :: _) :: _ => False | _ => True end) ->
  options_loop cfg ((option_text <$> os) ++ rest) s = Ok (Some rest, foldl (fun s o => effect o s) s os).
Proof.
  intros H Hr. revert s. induction H as [|o os Ho H IH]; intros s; cbn [fmap list_fmap app foldl].
  - destruct rest as [|[|c a] rest]; [done..|]. cbn [options_loop]. destruct (Z.eqb_spec c 45) as [->|]; [done|]. done.
  - assert (E : exists t, option_text o = 45 :: t) by (destruct o; by eexists). destruct E as [t E]. cbn [options_loop]. rewrite E. cbn [Z.eqb Pos.eqb].
    rewrite <- E, (bind_ok _ _ _ _ _ (option_parsed o s Ho)). apply IH.
Qed.

Context {S : Type} (invoke : action -> list (list Z) -> K S unit).
Lemma action_found f : enabled f = true -> find_action (actions cfg) (action_name f) = Some (1 + Z.of_nat (action_args f), f).
Proof. unfold actions. destruct f; cbn [enabled]; try (intros ->); intros; reflexivity. Qed.
Lemma actions_run cs rest fuel s :
  Forall call_ok cs -> (length cs <= fuel)%nat ->
  run_actions cfg invoke fuel (concat (call_text <$> cs) ++ rest) s =
  (iterM cs (fun c => invoke (c_action c) (call_text c));; run_actions cfg invoke (fuel - length cs) rest) s.
Proof.
  intros H. revert fuel s. induction H as [|c cs [Hc1 Hc2] H IH]; intros fuel s Hf.
  - cbn. by rewrite Nat.sub_0_r.
  - destruct fuel as [|fuel]; [simpl in Hf; lia|]. cbn [fmap list_fmap concat iterM]. unfold call_text at 1. rewrite <- app_assoc. cbn [app run_actions].
    rewrite action_found by done. rewrite (proj2 (Z.ltb_ge _ _)) by (cbn [length]; rewrite !length_app; lia).
    replace (Z.to_nat (1 + Z.of_nat (action_args (c_action c)))) with (Datatypes.S (length (c_args c))) by lia. cbn [take drop]. rewrite take_app_length, drop_app_length, bind_assoc.
    fold (call_text c). apply bind_eq. intros ? s'. apply IH. simpl in Hf. lia.
Qed.
End Meaning.

(** ** Properties of the command line *)

(** C21: The kernel does what the command line of the pintos script says, for command lines without the option -h and
    without -rs: the script stores the options and actions in the boot sector; the kernel reads
    back the same arguments, sets exactly the options that were given, in their order, seeds the
    random numbers from the clock, and runs exactly the actions, in their order, with their
    arguments. *)
Theorem command_line_obeyed {S} cfg (invoke : action -> list (list Z) -> K S unit) os cs bytes m g now s fuel :
  let args := (option_text <$> os) ++ concat (call_text <$> cs) in
  make_kernel_command_line args = Some bytes -> Forall (fun a => argument a) args -> len args <= 64 ->
  Forall (option_ok cfg) os -> Forall (fun o => is_seed o = false) os -> Forall (call_ok cfg) cs -> holds m (PHYS_BASE + LOADER_ARG_CNT) bytes -> (128 < fuel)%nat ->
  exists argv out,
    read_command_line fuel m = Ok ((argv, out), m) /\ Forall2 (cstr m) argv args /\
    parse_options cfg now args (default_settings g) =
      Ok (Some (concat (call_text <$> cs)), set_generator (random_init (u32 now)) (foldl (fun s o => effect o s) (default_settings g) os)) /\
    run_actions cfg invoke (length cs) (concat (call_text <$> cs)) s = iterM cs (fun c => invoke (c_action c) (call_text c)) s.
Proof.
  intros args Hb Ha Hn Ho _ Hc Hm Hf. eexists (addresses args_base args), _.
  split; [apply (read_ok m args bytes Hb Hm ARGV_LEN fuel Ha); [change ARGV_LEN with 65; lia|done]|]. split; [by apply (arguments_loaded m args bytes)|]. split.
  - unfold parse_options. rewrite (bind_ok _ _ _ _ _ (options_parsed cfg os (concat (call_text <$> cs)) _ Ho ltac:(destruct cs as [|[[] l] cs]; exact I))). done.
  - pose proof (actions_run cfg invoke cs [] (length cs) s Hc ltac:(lia)) as R. rewrite app_nil_r in R. rewrite R, Nat.sub_diag.
    cbn [run_actions]. unfold mbind, K_bind. by destruct (iterM _ _ s) as [[[] ?]| |].
Qed.

(** The array of pointers is large enough for arguments that are not empty... *)
Lemma arguments_fit args bytes : make_kernel_command_line args = Some bytes -> Forall (fun a => a <> []) args -> len args <= 64.
Proof.
  intros H Ha. pose proof (joined_count args Ha) as Hl. unfold make_kernel_command_line in H. fold (joined args) in H.
  destruct (Z.ltb_spec 128 (len (joined args))); [done|lia].
Qed.
(** ... but not for all that the script accepts: with 65 empty arguments the kernel writes past
    the end of its array, where an array of 129 pointers would do for every command line. *)
Theorem empty_arguments_overrun :
  exists bytes, make_kernel_command_line (replicate 65 []) = Some bytes /\ forall m fuel, holds m (PHYS_BASE + LOADER_ARG_CNT) bytes -> (128 < fuel)%nat ->
    read_command_line fuel m = Panic /\ exists argv out, read_command_line_in 129 fuel m = Ok ((argv, out), m) /\ length argv = 65%nat.
Proof.
  eexists. split; [reflexivity|]. intros m fuel Hm Hf. assert (Ha : Forall (fun a => argument a) (replicate 65 [])) by (apply Forall_replicate; constructor). split.
  - unfold read_command_line. by rewrite (read_args m (replicate 65 []) _ eq_refl Hm ARGV_LEN fuel Ha ltac:(done)).
  - eexists _, _. split; [apply (read_ok m (replicate 65 []) _ eq_refl Hm 129 fuel Ha ltac:(done) Hf)|]. apply addresses_length.
Qed.

(** An unknown action, or one with too few arguments, stops the kernel, after the actions before it
    were run. *)
Theorem bad_action_panics {S} cfg (invoke : action -> list (list Z) -> K S unit) cs name rest s fuel :
  Forall (call_ok cfg) cs -> (length cs < fuel)%nat ->
  (forall argc f, find_action (actions cfg) name = Some (argc, f) -> len rest + 1 < argc) ->
  run_actions cfg invoke fuel (concat (call_text <$> cs) ++ name :: rest) s = (iterM cs (fun c => invoke (c_action c) (call_text c));; panic) s.
Proof.
  intros Hc Hf Hb. rewrite actions_run by (done || lia). apply bind_eq. intros ? s'. destruct (fuel - length cs)%nat as [|n] eqn:E; [lia|].
  cbn [run_actions]. destruct (find_action _ _) as [[argc f]|] eqn:Ef; [|done]. rewrite (proj2 (Z.ltb_lt _ _)); [done|]. specialize (Hb _ _ eq_refl). cbn [length]. lia.
Qed.

(** The seed of the random numbers is the time, whether or not a seed was given: the option -rs has
    no effect, where the comment on the call says that the call has none when -rs was given. *)
Theorem seed_option_overridden cfg now argv s rest s' :
  parse_options cfg now argv s = Ok (Some rest, s') -> generator s' = random_init (u32 now).
Proof.
  unfold parse_options. intros H. apply bind_inv in H as (r & s1 & _ & H). destruct r; [|done]. cbn in H. by injection H as _ <-.
Qed.

(** The loop over the actions ends: every round uses up an argument. *)
Theorem actions_end {S} cfg (invoke : action -> list (list Z) -> K S unit) :
  (forall f a s, invoke f a s <> NoFuel) -> forall fuel argv s, (length argv <= fuel)%nat -> run_actions cfg invoke fuel argv s <> NoFuel.
Proof.
  intros Hi. induction fuel as [|fuel IH]; intros [|name argv] s Hf; simpl in Hf; try lia; [done..|]. cbn [run_actions].
  destruct (find_action _ _) as [[argc f]|] eqn:Ef; [|done]. destruct (_ <? _); [done|]. unfold mbind, K_bind.
  destruct (invoke _ _ s) as [[u s']| |] eqn:E; [|done|by apply Hi in E].
  assert (1 <= argc) by (unfold actions in Ef; destruct (FILESYS cfg); cbn in Ef; repeat case_bool_decide; simplify_eq; lia).
  apply IH. rewrite length_drop. cbn [length]. lia.
Qed.

(** ** Properties of the choice of devices *)

Definition with_role (role : Z) (id : nat) (ds : devices) : devices := mkDevices (all_blocks ds) (zset (block_by_role ds) role (Some id)).

Lemma locate_loop_ok role ds : forall n i, (i + n = length (all_blocks ds))%nat ->
  locate_loop n role (list_elem_to_block ds i) ds =
  Ok ((fun p => i + p.1)%nat <$> list_find (fun b => b_type b = role) (drop i (all_blocks ds)), ds).
Proof.
  induction n as [|n IH]; intros i H.
  - unfold list_elem_to_block. rewrite (proj2 (Nat.ltb_ge _ _)) by lia. rewrite drop_ge by lia. done.
  - unfold list_elem_to_block. rewrite (proj2 (Nat.ltb_lt _ _)) by lia. destruct (lookup_lt_is_Some_2 (all_blocks ds) i) as [b Hb]; [lia|].
    rewrite (drop_S _ b) by done. cbn [locate_loop list_find]. unfold block_type, get_block.
    erewrite bind_ok by (rewrite bind_assoc; erewrite bind_ok by reflexivity; rewrite Hb; reflexivity). destruct (decide (b_type b = role)) as [e|ne].
    + rewrite (proj2 (Z.eqb_eq _ _) e). cbn. by rewrite Nat.add_0_r.
    + rewrite (proj2 (Z.eqb_neq _ _) ne). unfold block_next. erewrite bind_ok by reflexivity. rewrite IH by lia.
      destruct (list_find _ _) as [[j c]|]; cbn; [|done]. by rewrite Nat.add_succ_r.
Qed.

(** A role goes to the device that is named, and without a name to the first device of its type
    in the order of registration; a name that no device has is a panic. *)
Theorem roles_located role name ds :
  role < BLOCK_ROLE_CNT ->
  locate_block_device role name ds =
    match name with
    | Some n => match list_find (fun b => n = b_name b) (all_blocks ds) with Some (i, _) => Ok (tt, with_role role i ds) | None => Panic end
    | None => Ok (tt, match list_find (fun b => b_type b = role) (all_blocks ds) with Some (i, _) => with_role role i ds | None => ds end)
    end.
Proof.
  intros Hr. unfold locate_block_device. assert (Hs : forall i, block_set_role role (Some i) ds = Ok (tt, with_role role i ds)).
  { intros i. unfold block_set_role. by rewrite ASSERT_true by (by apply Z.ltb_lt). }
  destruct name as [n|].
  - rewrite bind_assoc. unfold block_get_by_name. erewrite bind_ok by reflexivity. destruct (list_find _ _) as [[i b]|]; cbn [fmap option_fmap option_map fst]; [|done].
    erewrite bind_ok by reflexivity. apply Hs.
  - rewrite bind_assoc. erewrite bind_ok by reflexivity. rewrite bind_assoc. unfold block_first. erewrite bind_ok by reflexivity.
    rewrite (bind_ok _ _ _ _ _ (locate_loop_ok role ds _ 0%nat eq_refl)). rewrite drop_0. destruct (list_find _ _) as [[i b]|]; cbn [fmap option_fmap option_map fst]; [apply Hs|done].
Qed.

(** ** An example: two options and a run of the simulator *)

Definition ex_boot_options : list boot_option := [Quit; Mlfqs].
Definition ex_boot_calls : list call := [mkCall run_automated_warehouse [str "2"; str "1A:2B"]; mkCall run_task [str "my task"]].
Definition ex_boot_bytes : list Z :=
  default [] (make_kernel_command_line ((option_text <$> ex_boot_options) ++ concat (call_text <$> ex_boot_calls))).
Definition ex_boot_log : action -> list (list Z) -> K (list (action * list (list Z))) unit := fun f a => modify (fun log => log ++ [(f, a)]).
Lemma command_line_obeyed_witness :
  exists argv out m s', read_command_line 200 m = Ok ((argv, out), m) /\
    Forall2 (cstr m) argv [str "-q"; str "-mlfqs"; str "automated_warehouse"; str "2"; str "1A:2B"; str "run"; str "my task"] /\
    run_actions (mkConfig false false false) ex_boot_log 2 (concat (call_text <$> ex_boot_calls)) [] = Ok (tt, s') /\
    s' = [(run_automated_warehouse, [str "automated_warehouse"; str "2"; str "1A:2B"]); (run_task, [str "run"; str "my task"])].
Proof.
  destruct (command_line_obeyed (mkConfig false false false) ex_boot_log ex_boot_options ex_boot_calls ex_boot_bytes
    (ram_of (PHYS_BASE + LOADER_ARG_CNT) ex_boot_bytes) (random_init 0) 0 [] 200) as (argv & out & E1 & E2 & _ & E3).
  - reflexivity.
  - repeat constructor.
  - vm_compute. discriminate.
  - repeat constructor; discriminate.
  - repeat constructor.
  - repeat constructor.
  - vm_compute. repeat split.
  - lia.
  - exists argv, out. eexists _, _. split; [exact E1|]. split; [exact E2|]. split; [exact E3|]. reflexivity.
Defined.
