(* ===== verification/BootAw.v ===== *)
(** From the command line to the runs of the simulator: the arguments that the pintos script stores
    reach run_automated_warehouse, which sets up the robots, whose runs are safe. *)

From stdpp Require Import strings.
From S2P Require Import Prelude KMonad Warehouse AwPath AwMessage AwCentral AwSim AwRuns CString Arith Stdio StdioOk AwStart Palloc Boot.

(** The arguments of a run of the simulator, after options. *)
Definition run_args (os : list boot_option) (num : list Z) (ts : list (Z * Z)) : list (list Z) :=
  (option_text <$> os) ++ call_text (mkCall run_automated_warehouse [num; join (task_text <$> ts)]).

Lemma task_argument ts : Forall is_task ts -> argument (join (task_text <$> ts)).
Proof.
  intros H. induction H as [|t ts Ht H IH]; [constructor|]. destruct Ht as (H1 & H2 & _).
  assert (Forall (fun c => character c) (task_text t)) by (repeat constructor; simpl; lia).
  cbn [fmap list_fmap join]. destruct (task_text <$> ts) eqn:E; [done|]. rewrite Forall_app, Forall_cons. split; [done|]. split; [lia|]. exact IH.
Qed.
Lemma tasks_length (ts : list (Z * Z)) : (3 * length ts <= length (join (task_text <$> ts)) + 1)%nat.
Proof.
  induction ts as [|t ts IH]; [simpl; lia|]. cbn [fmap list_fmap join]. destruct ts as [|t' ts]; [simpl; lia|].
  cbn [fmap list_fmap] in *. rewrite length_app. cbn [length] in *. change (length (task_text t)) with 2%nat. lia.
Qed.

Section Start.
Variables (os : list boot_option) (num : list Z) (ts : list (Z * Z)) (bytes : list Z) (m m' : ram_t).
Hypothesis Ht : Forall is_task ts.
Hypothesis Hd : decimal (len ts) num.
Hypothesis Hb : make_kernel_command_line (run_args os num ts) = Some bytes.
Hypothesis Hos : Forall (fun o => argument (option_text o)) os.
Hypothesis Hm : holds m (PHYS_BASE + LOADER_ARG_CNT) bytes.
(** [parse_options] changes memory only where the options are ([strtok_option]). *)
Hypothesis Hm' : forall x, x < args_base \/ args_base + len (joined (option_text <$> os)) <= x -> m' x = m x.

Lemma run_args_ok : Forall (fun a => argument a) (run_args os num ts).
Proof.
  unfold run_args. apply Forall_app. split; [by apply Forall_fmap|]. repeat constructor; [by destruct (decimal_chars _ _ Hd)|by apply task_argument].
Qed.
(** The addresses of the two arguments of the simulator. *)
Definition name_addr : Z := args_base + len (joined (option_text <$> os)).
Definition num_addr : Z := name_addr + 20.
Definition tasks_addr : Z := num_addr + len num + 1.
Lemma run_addresses : addresses args_base (run_args os num ts) = addresses args_base (option_text <$> os) ++ [name_addr; num_addr; tasks_addr].
Proof.
  unfold run_args. rewrite addresses_app. f_equal. cbn [call_text c_action c_args addresses]. change (Z.of_nat (length (action_name run_automated_warehouse))) with 19.
  fold name_addr. replace (name_addr + 19 + 1) with num_addr by (unfold num_addr; lia). done.
Qed.
Lemma joined_run : len (joined (run_args os num ts)) = len (joined (option_text <$> os)) + 20 + len num + 1 + len (join (task_text <$> ts)) + 1.
Proof.
  unfold run_args, joined. rewrite fmap_app, concat_app, length_app. cbn [fmap list_fmap call_text c_action c_args action_name concat]. rewrite !length_app. simpl length. lia.
Qed.
Lemma arguments_left : cstr m' num_addr num /\ cstr m' tasks_addr (join (task_text <$> ts)) /\ (length (join (task_text <$> ts)) <= 128)%nat /\ tasks_addr < args_base + 128.
Proof.
  pose proof (command_line_fits _ _ Hb) as HL. rewrite joined_run in HL. pose proof (arguments_loaded _ _ _ Hb Hm run_args_ok) as F. rewrite run_addresses in F. unfold run_args in F.
  apply Forall2_app_inv in F as [_ F]; [|by rewrite addresses_length]. cbn [call_text c_action c_args] in F.
  apply Forall2_cons in F as [_ F]. apply Forall2_cons in F as [F1 F]. apply Forall2_cons in F as [F2 _].
  unfold tasks_addr, num_addr, name_addr in *. split; [apply (cstr_agree m); [|done]; intros x Hx; apply Hm'; lia|].
  split; [apply (cstr_agree m); [|done]; intros x Hx; apply Hm'; lia|]. lia.
Qed.
End Start.

(** C4: From the command line to safe runs: when the pintos script is given options, a number, and as
    many tasks, and accepts them, the kernel reads them back, and the simulator creates exactly the
    robots of these tasks; and in every state that their threads and the central control thread can
    reach, running in any order from one blocking call to the next, no two robots collide and every
    robot is well placed, unless the central control thread has, before its first move, used up the
    100 polls of its waiting loop while some robot thread has not run once. *)
Theorem command_line_to_safe_runs os num ts bytes m m' fuel task_copy colon junk :
  Forall is_task ts -> decimal (len ts) num -> make_kernel_command_line (run_args os num ts) = Some bytes ->
  Forall (fun o => argument (option_text o)) os -> len os <= 61 -> holds m (PHYS_BASE + LOADER_ARG_CNT) bytes ->
  (forall x, x < args_base \/ args_base + len (joined (option_text <$> os)) <= x -> m' x = m x) ->
  (256 < fuel)%nat -> 0 < task_copy -> 0 < colon -> cstr m' colon [58] -> apart colon 1 task_copy 255 ->
  task_copy + 256 <= args_base \/ args_base + 384 <= task_copy -> length (junk (len ts)) = length ts ->
  exists argv out argv1 argv2 rs m'',
    read_command_line fuel m = Ok ((argv, out), m) /\ drop (length os + 1) argv = [argv1; argv2] /\
    setup_robots fuel task_copy colon argv1 argv2 junk m' = Ok ((len ts, rs), m'') /\
    Forall2 (fun t rb => exists name, rb = set_name (task_robot t) name) ts rs /\
    forall s, rtc aw_step (aw_init rs) s ->
      gave_up_before rs s \/ (collision_free (robots s) /\ Forall well_placed (robots s)).
Proof.
  intros Ht Hd Hb Hos Hn Hm Hm' Hf Htc Hc Ac Hap Hov Hj. destruct (arguments_left os num ts bytes m m' Ht Hd Hb Hos Hm Hm') as (A1 & A2 & L & Ha).
  pose proof (run_args_ok os num ts Ht Hd Hos) as Hargs.
  assert (B : 0 < args_base) by done. assert (B1 : args_base <= tasks_addr os num) by (unfold tasks_addr, num_addr, name_addr; lia).
  destruct (setup_creates_robots fuel task_copy colon (num_addr os) (tasks_addr os num) junk ts num m') as (rs & m'' & E & Hl & Hfr & Hk); try done.
  { unfold num_addr, name_addr. lia. }
  { lia. }
  { pose proof (tasks_length ts). lia. }
  { lia. }
  eexists (addresses args_base (run_args os num ts)), _, (num_addr os), (tasks_addr os num), rs, m''.
  split; [apply (read_ok m _ bytes Hb Hm ARGV_LEN fuel Hargs); [|lia]|].
  { unfold run_args. rewrite length_app, length_fmap. cbn [call_text c_action c_args length]. change ARGV_LEN with 65. lia. }
  split.
  { rewrite run_addresses, drop_app_ge by (rewrite addresses_length, length_fmap; lia). rewrite addresses_length, length_fmap. by replace (length os + 1 - length os)%nat with 1%nat by lia. }
  split; [done|]. split.
  - apply Forall2_same_length_lookup_2; [done|]. intros k t rb Hkt Hkr. destruct (Hk k t Hkt) as (out & _ & E'). rewrite Hkr in E'. injection E' as ->. eauto.
  - intros s Hr. destruct (on_time_reachable rs s) as [|(I & _)]; [by apply fresh_all_well_placed|done..|by left|right].
    split; [apply I|]. pose proof (ai_robots s I) as R. by apply Forall_and in R as [R _].
Qed.

Definition ex_run_bytes : list Z := default [] (make_kernel_command_line (run_args [Quit] (str "2") [(2, 65); (4, 67)])).
Definition ex_run_ram : ram_t := fun x => if x =? 500 then 58 else ram_of (PHYS_BASE + LOADER_ARG_CNT) ex_run_bytes x.
Lemma command_line_to_safe_runs_witness :
  exists argv out argv1 argv2 rs m'',
    read_command_line 300 ex_run_ram = Ok ((argv, out), ex_run_ram) /\ drop 2 argv = [argv1; argv2] /\
    setup_robots 300 2000 500 argv1 argv2 (fun n => replicate (Z.to_nat n) (task_robot (0, 0))) ex_run_ram = Ok ((2, rs), m'') /\
    Forall2 (fun t rb => exists name, rb = set_name (task_robot t) name) [(2, 65); (4, 67)] rs /\
    forall s, rtc aw_step (aw_init rs) s ->
      gave_up_before rs s \/ (collision_free (robots s) /\ Forall well_placed (robots s)).
Proof.
  apply (command_line_to_safe_runs [Quit] (str "2") [(2, 65); (4, 67)] ex_run_bytes ex_run_ram ex_run_ram 300 2000 500).
  - repeat constructor; discriminate.
  - exists [50]. split; [reflexivity|]. split; [reflexivity|]. split; [repeat constructor|simpl; lia].
  - reflexivity.
  - repeat constructor.
  - simpl. lia.
  - vm_compute. repeat split.
  - reflexivity.
  - lia.
  - lia.
  - lia.
  - split; [vm_compute; tauto|repeat constructor].
  - unfold apart. lia.
  - left. vm_compute. discriminate.
  - reflexivity.
Defined.
